(* ===== verification/_CoqProject ===== *)
-Q . S2P
Prelude.v
Bitmap.v
SysConsts.v
Digest.v
ReplicasInfo.v
ActiveWindow.v
MsgsCertificate.v
MessageBase.v
Checkpoint.v
SigManager.v
VectorOfShares.v
Collector.v
Accumulator.v
CollectorExamples.v
SignedShareMsgs.v
PartialProofsSet.v
PartialExecProofsSet.v
SeqNumInfo.v
CommitProtocol.v
CommitProtocolSafety.v
ViewChangeMsg.v
ViewChangeSafety.v
NewViewMsg.v
ViewsManager.v
ViewsManagerFacts.v
ViewsManagerSafety.v
ViewsManagerExit.v
ViewsManagerProps.v
DataStore.v
ReservedPages.v
BCStateTran.v
BCStateTranFacts.v
BCStateTranSpec.v
BCStateTranProps.v
VirtualBlock.v
VirtualBlockFacts.v
VirtualBlockProps.v
StateTransferFetch.v
StateTransferProps.v
Controller.v
RollingAvgAndVar.v
ControllerWithSimpleHistory.v
ControllerProps.v
ClientReplyMsg.v
ClientRequestMsg.v
ClientsManager.v
ClientsManagerSpec.v
ClientsManagerProps.v
PrePrepareMsg.v
PrePrepareMsgProps.v
ReplicaExecution.v
ReplicaExecutionSpec.v
ReplicaExecutionFacts.v
ReplicaExecutionLoop.v
ReplicaExecutionHandlers.v
ReplicaExecutionProps.v
ReplicaExecutionExample.v
ReplicaExecutionErrors.v
ReplicaStateTransfer.v
ReplicaLog.v
ReplicaProtocol.v
StartSlowCommitMsg.v
SimpleAckMsg.v
ReqMissingDataMsg.v
FullCommitProofMsg.v
PartialExecProofMsg.v
PartialCommitProofMsg.v
FullExecProofMsg.v
RetransmissionTimes.v
RetransmissionsLogic.v
RetransmissionsManager.v
RetransmissionsProps.v
DynamicUpperLimit.v
ReplicaStatusMsg.v
ReplicaStatus.v
ReplicaStatusProps.v
