(* ===== verification/Prelude.v ===== *)
(** * Concord-BFT: a verification library

    Concord-BFT is a Byzantine fault tolerant state machine replication engine (C++).  A
    cluster has n = 3f + 2c + 1 replicas.  In each view one replica is the primary: it
    gives sequence numbers to batches of client requests with PrePrepare messages, and the
    replicas commit a number on a fast path (one round of threshold signature shares to
    collectors) or on the slow path (prepare and commit rounds collected by the primary).
    When a view makes no progress the replicas leave it with view-change messages, and the
    primary of the next view starts from 2f + 2c + 1 of them.  Checkpoints move the window
    of active numbers; a replica that fell behind fetches the state of a checkpoint from
    the others.  This library models that core, bftengine/src/bftengine, the part of
    threshsign that collects signature shares, and state transfer,
    bftengine/src/bcstatetransfer, as executable definitions, and proves what makes them
    correct.

    ** How the code is modelled

    Integers are [Z]; wrap-around is written out ([u8], [u16], [u32], [i16] ...) wherever
    the C++ type can wrap.  Message bodies are lists of bytes read and written with
    [get_bytes] and [put_bytes].  [Assert], undefined accesses and exceptions are the
    errors of the monad [res] (below): that an operation returns [Ok] means that no
    assertion fails and that no access leaves its array.  Objects are records, methods are
    functions from states to [res] of states, and the outputs of handlers are lists.  An
    interface that the code has as a template parameter or a virtual class is a type class
    ([ItemFuncs], [Collector.ExternalFunc], [Collector.VerifierSpec], [ReservedPages],
    [StateTransfer], [Controller], [LogItem]); its laws are proved by the component that
    implements it.  Components whose state changes in many orders
    are transition systems: [Prelude.reachable] gives the runs of an operation under the
    obligations of the callers, and [Prelude.reachable_invariant] is rule induction.

    ** Files

    - Prelude: the error monad, integers of fixed width, byte buffers, transition systems.
    - Bitmap, SysConsts, Digest, ReplicasInfo: Bitmap.hpp, SysConsts.hpp and
      PrimitiveTypes.hpp, Digest.hpp, ReplicasInfo.cpp.
    - ActiveWindow: SequenceWithActiveWindow.hpp, over the interface [ItemFuncs].
    - MsgsCertificate: MsgsCertificate.hpp; Checkpoint: CheckpointMsg.cpp and
      CheckpointInfo.cpp, the items of the checkpoint window.
    - MessageBase, SigManager, SignedShareMsgs, ViewChangeMsg, NewViewMsg: the messages of
      the same names at the level of their bytes; MessageBase also has StateTransferMsg and
      the shared lemmas about fields and bodies.
    - VectorOfShares, Accumulator: threshsign's set of share numbers, and the accumulator
      of shares with the aggregation of multisignatures.
    - Collector: CollectorOfThresholdSignatures.hpp with its background jobs, against the
      interface [VerifierSpec]; Accumulator discharges it; CollectorExamples puts a
      toy signature scheme in.
    - PartialProofsSet, PartialExecProofsSet: the sets of shares of the fast path and of
      the execution proofs.
    - SeqNumInfo: what is kept for one sequence number (SeqNumInfo.cpp), an [ItemFuncs].
    - CommitProtocol, CommitProtocolSafety: the handlers of ReplicaImp.cpp for one sequence
      number, from PrePrepare to CommitFull and the results of background jobs.
    - ViewChangeSafety: ViewChangeSafetyLogic.cpp.
    - ViewsManager, with ViewsManagerFacts, ViewsManagerSafety, ViewsManagerExit and
      ViewsManagerProps: ViewsManager.cpp, the state machine of views; PrePrepare messages
      live on a heap, so that the theorems speak about their ownership.
    - DataStore: InMemoryDataStore.cpp, the versions of reserved pages by checkpoint.
    - ReservedPages: the interface of state transfer (IStateTransfer.hpp) as the classes
      [ReservedPages], [ReservedPagesSpec] and [StateTransfer], with NullStateTransfer.cpp
      as an instance.
    - BCStateTran: BCStateTran.cpp without fetching: pages, checkpoints, digests,
      initialization and the consistency check; BCStateTranFacts, BCStateTranSpec
      (the instance of [ReservedPagesSpec], and digests) and BCStateTranProps prove its theorems against the abstract state of pages and snapshots.
    - VirtualBlock: the virtual blocks of pages, their creation, their validation and the
      end of fetching (BCStateTran.cpp); VirtualBlockFacts and
      VirtualBlockProps.
    - StateTransferFetch: the handlers of fetch requests and of item data with their
      cache, sequence numbers and pending chunks (BCStateTran.cpp);
      StateTransferProps.
    - Controller, RollingAvgAndVar, ControllerWithSimpleHistory, ControllerProps:
      ControllerBase.cpp, RollingAvgAndVar.hpp and ControllerWithSimpleHistory.cpp, the
      choice of the first path, with its floating-point arithmetic.
    - ClientRequestMsg, ClientReplyMsg, PrePrepareMsg, PrePrepareMsgProps: the messages of
      clients and the batches of requests at the level of their bytes.
    - ClientsManager, ClientsManagerSpec, ClientsManagerProps: ClientsManager.cpp, the
      replies in the reserved pages and the pending requests, against [ReservedPagesSpec].
    - ReplicaExecution: requests, batches, execution, checkpoints, stable numbers and the
      end of state transfer in ReplicaImp.cpp, a state and error monad over the members of
      the replica; items of the log, state transfer, controller and application are
      behind interfaces.  ReplicaExecutionSpec has the laws of the interfaces, the
      sequential service that is refined and rules of total correctness;
      ReplicaExecutionFacts, ReplicaExecutionLoop and ReplicaExecutionHandlers prove that each handler runs and
      keeps the invariant; ReplicaExecutionProps has the
      theorems, ReplicaExecutionExample the instances of the interfaces and an example,
      ReplicaExecutionErrors the inputs that stop a replica.
    - ReplicaStateTransfer: BCStateTran as the state transfer module of a replica, the
      instance of [StateTransferSpec].
    - ReplicaLog: items of the log with the state of the commit protocol and the bytes of
      the PrePrepare message, the instance of [LogItemSpec]; ReplicaProtocol composes the
      commit protocol of every number of the window with execution and has an example.
    - StartSlowCommitMsg, SimpleAckMsg, ReqMissingDataMsg, FullCommitProofMsg,
      PartialCommitProofMsg, PartialExecProofMsg, FullExecProofMsg,
      ReplicaStatusMsg: the bytes of the remaining messages.
    - RetransmissionTimes, RetransmissionsLogic, RetransmissionsManager,
      RetransmissionsProps: RetransmissionsManager.cpp, the messages that are tracked, the
      background job and the response times.
    - DynamicUpperLimit: DynamicUpperLimitWithSimpleFilter2.hpp, the limit of rounds.
    - ReplicaStatus, ReplicaStatusProps: the status reports of
      ReplicaImp.cpp, over the views manager, the log and the checkpoints of a replica.

    ** What the theorems show

    - View change: in every run of the views manager in which its caller keeps the obligations
      no assertion fails, no message is
      freed twice or leaked ([viewsManager_safe], [destructor_frees_owned]); what had a
      prepared certificate, or f + c + 1 votes of a later view, is proposed again, where
      certificates for the same view and digest are all valid or all invalid
      ([prepared_proposed_again], [prepared_digest_restricted],
      [fast_digest_restricted]); the restrictions refine their specification
      ([computeRestrictions_refines]) and the stable bound is a quorum statistic
      ([calcLBStable_quorum]); entering and leaving views do exactly what they should
      ([tryToEnterView_spec], [exitFromCurrentView_spec],
      [missing_numbers_block_entry], [addPotentiallyMissingPP_spec], [viewNumbers_spec]).
    - Commit protocol: with shares of existing signers no handler fails an assertion in any
      interleaving, and prepared
      and committed numbers have valid signatures for their PrePrepare message
      ([commitProtocol_safe]); the collectors and proof sets below it are safe, and the
      collector is complete once enough valid shares arrived, whatever other shares of
      existing signers were sent ([collector_safe], [collector_completes], [partialProofsSet_safe],
      [partialExecProofsSet_safe], [accumulator_counts]).
    - Execution: a replica in any order of its handlers, for usable requests and committed
      batches with their full proof, implements the sequential service
      ([replica_safe]), also with the commit protocol in place of its interface, and then
      every executed batch has a commit proof that verifies for its message
      ([replica_protocol_safe]); it executes the ready batches in order and each request at most
      once ([requests_executed_in_order], [requests_executed_once]); replicas with the
      same batches have the same state and replies ([replicas_agree]).  The replies are a
      cache in the reserved pages ([clientsManager_refines_cache]) that survives state
      transfer ([replies_survive_state_transfer]).  Batches are read as they were built,
      and their digest determines their requests, except for the lengths that wrap
      ([prePrepare_build_iterate], [accepted_requests], [equal_digests_equal_requests],
      [digest_misses_wrapped_request]).  The controller never chooses a path that cannot
      be used ([controller_safe], [evaluation_period_spec]).
    - Help between replicas: a report says exactly what a replica has and misses
      ([status_report_says]) and is answered with exactly what helps
      ([status_handler_spec], [report_brings_missing_messages]); messages are suggested
      for retransmission only if they were sent and at most three times
      ([retransmissions_safe], [retransmissions_bounded]).
    - State transfer: pages and checkpoints refine a map with snapshots
      ([reservedPages_snapshots]), equal digests mean equal pages
      ([equal_digests_equal_pages]), whatever block passes the checks installs the pages of
      a correct replica ([virtualBlock_sound]), and a correct source that is asked for
      pages that fit one batch of chunks makes the requester complete, in every order of the chunks
      ([fetch_pages_from_correct_source]).
    - Data structures: refinement of sets by Bitmap and VectorOfShares, the active window,
      certificates, collectors of a sequence number.
    - Messages: construction followed by reading gives the arguments back; validation of
      untrusted bodies stays inside them, or a theorem exhibits the body for which it does
      not.
    - Defects: theorems of kind "error" exhibit what the code does wrong on a concrete
      input.

    ** Conditions of the theorems

    Some conditions are not established by the checks of the code, and theorems show what
    happens without them.  Shares name existing signers ([Collector.share_wf],
    [PartialProofsSet.share_wf]): validation does not look into a share, and an accumulator
    asserts it ([foreign_signer_fails_job], [foreign_signer_fails_handler]); the combination of such
    shares returns ([VerifierSpec.combine_runs]), which the accumulator of multisignatures does
    not do for copied shares ([copied_share_fails_multisig]).  Prepared certificates with the same
    view and digest are all valid or all invalid ([ViewChangeSafety.consistent];
    [invalid_certificate_shadows_valid]).  Requests have no bytes after their data, fit a batch and have a number
    other than 0, and committed batches have a full proof ([unusable_request_stops_primary],
    [request_zero_stops_replica], [slow_path_commit_stops_replica]).  View-change messages are
    decoded in the theorems about views, while validation also accepts messages that the
    iterator cannot read ([accepted_message_fails_iterator]).  The other preconditions
    ([op_pre], [pre], [enter_pre], [exit_pre]) are the contracts of the methods.

    ** Bounds and fuel

    Loops that count up to a bound are structural recursions on that number of steps.
    [VectorOfShares.loop_fuel] is one more than the number of share numbers, which bounds
    every iteration (proved in [vectorOfShares_iteration]); the jobs of a collector are
    drained with [Collector.measure] steps, which suffice ([collector_completes]);
    [executeReadWriteRequests] makes at most one round for each number of the window and
    one more ([requests_executed_in_order]); the iterator over a batch makes one round
    more than the header announces requests ([accepted_requests]);
    the other loops over untrusted bytes use the length of the body as fuel, and
    theorems show that [OutOfFuel] does not occur.

    ** Not modelled

    Hashes, RSA and the group operations of threshold signatures are parameters; where a
    theorem needs a collision-free hash it says so.  Network I/O, threads, timers, metrics
    and logging, the debug persistent storage and the client library are not modelled.  Of
    state transfer the summaries of checkpoints, the choice of source replicas, the
    fetching of blocks by the requester and SimpleStateTran.cpp are not modelled.  Of
    ReplicaImp.cpp the view change, the missing-data messages, the answers to suggested
    retransmissions and the main loop are not modelled, the theorems about execution end
    when the replica starts to fetch a state, and those about status reports take the
    relation between the view number of the replica and its views manager as an invariant
    of the state; the view change of ReplicaImp.cpp is the part to model next. *)
From Stdlib Require Import ZArith Lia.
From stdpp Require Export base sorting gmap numbers list.

Open Scope Z_scope.
Declare Scope bft_scope.
Delimit Scope bft_scope with bft.
Open Scope bft_scope.

(** ** Abnormal outcomes

    [Assert] of assertUtils.hpp calls [assert(false)]: the process stops.  A
    read or write outside a message body is undefined behaviour in C++; the
    models return it as a value of its own so that theorems can rule it out.
    [Thrown] is a C++ exception. *)
Inductive err := AssertFailed | OutOfBounds | OutOfFuel | Thrown.

Inductive res (A : Type) : Type :=
  | Ok (a : A)
  | Err (e : err).
Arguments Ok {A} a.
Arguments Err {A} e.

#[export] Instance err_eq_dec : EqDecision err.
Proof. solve_decision. Defined.

#[export] Instance res_ret : MRet res := fun A a => Ok a.
#[export] Instance res_bind : MBind res := fun A B f m =>
  match m with Ok a => f a | Err e => Err e end.
#[export] Instance res_fmap : FMap res := fun A B f m =>
  match m with Ok a => Ok (f a) | Err e => Err e end.

Definition Assert (b : bool) : res unit := if b then Ok tt else Err AssertFailed.

Notation "'assert!' b ;; k" := (Assert b ≫= fun _ => k)
  (at level 60, b at level 59, right associativity) : bft_scope.

Definition is_ok {A} (m : res A) : bool :=
  match m with Ok _ => true | Err _ => false end.

(** A loop over a list, in [res]. *)
Fixpoint foldM {A B} (f : A → B → res A) (a : A) (l : list B) : res A :=
  match l with [] => Ok a | x :: l' => a ← f a x; foldM f a l' end.

Lemma foldM_app {A B} (f : A → B → res A) a l l' : foldM f a (l ++ l') = foldM f a l ≫= fun a => foldM f a l'.
Proof. revert a. induction l as [|x l IH]; intros a; cbn; [done|]. destruct (f a x); [apply IH|done]. Qed.

Lemma bind_ok {A B} (f : A → res B) m b :
  (m ≫= f) = Ok b ↔ ∃ a, m = Ok a ∧ f a = Ok b.
Proof. destruct m; simpl; split; [eauto|intros (?&[= ->]&?); done|done|intros (?&?&?); done]. Qed.

Lemma Assert_ok b u : Assert b = Ok u ↔ b = true.
Proof. destruct b, u; simpl; naive_solver. Qed.

Lemma assert_bind_ok {B} b (k : res B) r :
  (assert! b ;; k) = Ok r ↔ b = true ∧ k = Ok r.
Proof. destruct b; simpl; split; try done; intros [? ?]; done. Qed.

(** [res_simpl] decomposes every hypothesis saying that a computation in [res]
    returned normally, down to the facts its assertions establish. *)
Ltac res_simpl :=
  repeat match goal with
  | H : Ok _ = Ok _ |- _ => injection H as H
  | H : Err _ = Ok _ |- _ => discriminate H
  | H : Ok _ = Err _ |- _ => discriminate H
  | H : Assert _ = Ok _ |- _ => apply Assert_ok in H
  | H : (Assert _ ≫= _) = Ok _ |- _ => apply assert_bind_ok in H; destruct H as [? H]
  | H : (_ ≫= _) = Ok _ |- _ =>
      let a := fresh "r" in let E := fresh "E" in
      apply bind_ok in H; destruct H as (a & E & H)
  | H : mret _ = Ok _ |- _ => change (mret (M:=res) ?x) with (Ok x) in H
  end; simplify_eq/=.

(** [bool_to_prop] turns boolean tests of the code into the facts they decide. *)
Ltac bool_to_prop :=
  repeat match goal with
  | H : _ && _ = true |- _ => apply andb_true_iff in H as [? ?]
  | H : _ || _ = false |- _ => apply orb_false_iff in H as [? ?]
  | H : negb _ = true |- _ => apply negb_true_iff in H
  | H : negb _ = false |- _ => apply negb_false_iff in H
  | H : Is_true _ |- _ => apply Is_true_true in H
  | H : bool_decide _ = true |- _ => apply bool_decide_eq_true in H
  | H : bool_decide _ = false |- _ => apply bool_decide_eq_false in H
  | H : (_ <? _) = true |- _ => apply Z.ltb_lt in H
  | H : (_ <? _) = false |- _ => apply Z.ltb_ge in H
  | H : (_ <=? _) = true |- _ => apply Z.leb_le in H
  | H : (_ <=? _) = false |- _ => apply Z.leb_gt in H
  | H : (_ =? _) = true |- _ => apply Z.eqb_eq in H
  | H : (_ =? _) = false |- _ => apply Z.eqb_neq in H
  end.

(** [lia] with division and remainder by constants or variables unfolded. *)
Ltac dlia := Z.to_euclidean_division_equations; lia.

(** ** Machine integers

    A value of an unsigned C++ type of width [w] is a [Z] in [0, 2^w); an
    assignment to such a type wraps. *)
Definition wrap (w z : Z) : Z := z mod 2 ^ w.
Definition u8 := wrap 8.
Definition u16 := wrap 16.
Definition u32 := wrap 32.
Definition u64 := wrap 64.
(** Conversion to a signed type of width [w] (two's complement). *)
Definition swrap (w z : Z) : Z := (z + 2 ^ (w - 1)) mod 2 ^ w - 2 ^ (w - 1).
Definition i8 := swrap 8.
Definition i16 := swrap 16.
Definition i64 := swrap 64.

Lemma wrap_small w z : 0 <= z < 2 ^ w → wrap w z = z.
Proof. apply Z.mod_small. Qed.
Lemma wrap_range w z : 0 <= w → 0 <= wrap w z < 2 ^ w.
Proof. intros. apply Z.mod_pos_bound. lia. Qed.
Lemma u16_small z : 0 <= z < 65536 → u16 z = z.
Proof. intros. apply wrap_small. lia. Qed.
Lemma u16_range z : 0 <= u16 z < 65536.
Proof. apply (wrap_range 16). lia. Qed.
Lemma u32_small z : 0 <= z < 4294967296 → u32 z = z.
Proof. intros. apply wrap_small. lia. Qed.
Lemma u32_range z : 0 <= u32 z < 4294967296.
Proof. apply (wrap_range 32). lia. Qed.
Lemma i16_small z : -32768 <= z < 32768 → i16 z = z.
Proof. intros. unfold i16, swrap. simpl Z.sub. rewrite Z.mod_small; lia. Qed.
Lemma swrap_small w z : 1 <= w → - 2 ^ (w - 1) <= z < 2 ^ (w - 1) → swrap w z = z.
Proof.
  intros Hw Hz. unfold swrap.
  assert (2 ^ w = 2 * 2 ^ (w - 1)) by (rewrite <- Z.pow_succ_r by lia; f_equal; lia).
  rewrite Z.mod_small; lia.
Qed.

Create HintDb bft.
Create Rewrite HintDb bft.
#[export] Hint Rewrite u16_small u32_small i16_small using lia : bft.
#[export] Hint Rewrite @length_app @length_insert @length_replicate @length_take @length_drop
  @length_fmap : bft.

(** ** Byte buffers

    A message body is a list of bytes (each a [Z] in [0, 256)).  [get_bytes] and
    [put_bytes] are reads and writes through a pointer into the body: they
    succeed exactly when the accessed range lies inside it. *)
Definition is_byte (z : Z) : Prop := 0 <= z < 256.

Definition in_buf (buf : list Z) (off len : Z) : bool :=
  (0 <=? off) && (0 <=? len) && (off + len <=? Z.of_nat (length buf)).

Definition get_bytes (buf : list Z) (off len : Z) : res (list Z) :=
  if in_buf buf off len then Ok (take (Z.to_nat len) (drop (Z.to_nat off) buf))
  else Err OutOfBounds.

Definition put_bytes (buf : list Z) (off : Z) (bs : list Z) : res (list Z) :=
  if in_buf buf off (Z.of_nat (length bs))
  then Ok (take (Z.to_nat off) buf ++ bs ++ drop (Z.to_nat off + length bs) buf)
  else Err OutOfBounds.

(** Little-endian integers, as the packed message structs store them. *)
Fixpoint le_enc (n : nat) (z : Z) : list Z :=
  match n with
  | O => []
  | S n' => z mod 256 :: le_enc n' (z / 256)
  end.

Fixpoint le_dec (bs : list Z) : Z :=
  match bs with
  | [] => 0
  | b :: bs' => b + 256 * le_dec bs'
  end.

Definition get_uint (w : nat) (buf : list Z) (off : Z) : res Z :=
  le_dec <$> get_bytes buf off (Z.of_nat w).
Definition get_int (w : nat) (buf : list Z) (off : Z) : res Z :=
  (fun bs => swrap (8 * Z.of_nat w) (le_dec bs)) <$> get_bytes buf off (Z.of_nat w).
Definition put_int (w : nat) (buf : list Z) (off z : Z) : res (list Z) :=
  put_bytes buf off (le_enc w z).

Lemma length_le_enc n z : length (le_enc n z) = n.
Proof. revert z; induction n; intros; simpl; auto. Qed.

Lemma le_enc_bytes n z : Forall is_byte (le_enc n z).
Proof.
  revert z; induction n as [|n IH]; intros z; simpl; constructor; auto.
  unfold is_byte. apply Z.mod_pos_bound. lia.
Qed.

Lemma pow256_S n : 2 ^ (8 * Z.of_nat (S n)) = 256 * 2 ^ (8 * Z.of_nat n).
Proof.
  replace (8 * Z.of_nat (S n)) with (8 + 8 * Z.of_nat n) by lia.
  rewrite Z.pow_add_r by lia. reflexivity.
Qed.

Lemma le_dec_enc n z : le_dec (le_enc n z) = wrap (8 * Z.of_nat n) z.
Proof.
  revert z; induction n as [|n IH]; intros z.
  { unfold wrap. simpl. by rewrite Z.mod_1_r. }
  cbn [le_enc le_dec]. rewrite IH. unfold wrap. rewrite pow256_S.
  rewrite Z.rem_mul_r by lia. lia.
Qed.

Lemma le_dec_range bs :
  Forall is_byte bs → 0 <= le_dec bs < 2 ^ (8 * Z.of_nat (length bs)).
Proof.
  induction 1 as [|b bs Hb _ IH]; [simpl; lia|].
  unfold is_byte in Hb. cbn [le_dec length]. rewrite pow256_S. lia.
Qed.

Lemma le_enc_dec bs n :
  Forall is_byte bs → length bs = n → le_enc n (le_dec bs) = bs.
Proof.
  intros Hbs <-. induction Hbs as [|b bs Hb _ IH]; [done|].
  unfold is_byte in Hb. cbn [le_dec length le_enc]. f_equal.
  - rewrite Z.mul_comm, Z.mod_add, Z.mod_small; lia.
  - replace ((b + 256 * le_dec bs) / 256) with (le_dec bs); [done|].
    rewrite Z.mul_comm, Z.div_add, Z.div_small; lia.
Qed.

Lemma swrap_wrap w z : 0 < w → swrap w (wrap w z) = swrap w z.
Proof.
  intros. unfold swrap, wrap. f_equal. rewrite Zplus_mod_idemp_l. done.
Qed.

Lemma swrap_le_dec_enc n z : (0 < n)%nat →
  swrap (8 * Z.of_nat n) (le_dec (le_enc n z)) = swrap (8 * Z.of_nat n) z.
Proof. intros. rewrite le_dec_enc. apply swrap_wrap. lia. Qed.

Lemma in_buf_true buf off len :
  in_buf buf off len = true ↔ 0 <= off ∧ 0 <= len ∧ off + len <= Z.of_nat (length buf).
Proof. unfold in_buf. rewrite !andb_true_iff, !Z.leb_le. tauto. Qed.

Lemma get_bytes_ok buf off len bs :
  get_bytes buf off len = Ok bs ↔
  (0 <= off ∧ 0 <= len ∧ off + len <= Z.of_nat (length buf)) ∧
  bs = take (Z.to_nat len) (drop (Z.to_nat off) buf).
Proof.
  unfold get_bytes. rewrite <- in_buf_true.
  destruct (in_buf buf off len); split; [intros [= <-]; done|by intros [_ ->]|done|by intros [? _]].
Qed.

Lemma get_bytes_length buf off len bs :
  get_bytes buf off len = Ok bs → length bs = Z.to_nat len.
Proof.
  intros [? ->]%get_bytes_ok. rewrite length_take, length_drop. lia.
Qed.

(** Reading an exactly delimited slice. *)
Lemma get_bytes_mid pre bs post off len :
  off = Z.of_nat (length pre) → len = Z.of_nat (length bs) →
  get_bytes (pre ++ bs ++ post) off len = Ok bs.
Proof.
  intros -> ->. apply get_bytes_ok. split.
  - rewrite !length_app. lia.
  - by rewrite !Nat2Z.id, drop_app_length, take_app_length.
Qed.

Lemma put_bytes_mid pre old bs post off :
  off = Z.of_nat (length pre) → length old = length bs →
  put_bytes (pre ++ old ++ post) off bs = Ok (pre ++ bs ++ post).
Proof.
  intros -> Hl. unfold put_bytes.
  replace (in_buf _ _ _) with true.
  2: { symmetry. apply in_buf_true. rewrite !length_app. lia. }
  rewrite !Nat2Z.id, take_app_length, <- drop_drop, drop_app_length.
  by rewrite <- Hl, drop_app_length.
Qed.

Lemma put_bytes_length buf off bs buf' :
  put_bytes buf off bs = Ok buf' → length buf' = length buf.
Proof.
  unfold put_bytes. case_match eqn:E; [|done]. intros [= <-].
  apply in_buf_true in E. rewrite !length_app, length_take, length_drop. lia.
Qed.

(** Splitting a buffer at two offsets. *)
Lemma take_drop_middle_split {A} (n m : nat) (l : list A) :
  (n + m <= length l)%nat →
  ∃ a b c, l = a ++ b ++ c ∧ length a = n ∧ length b = m.
Proof.
  intros. exists (take n l), (take m (drop n l)), (drop m (drop n l)).
  rewrite !take_drop, !length_take, !length_drop. split_and!; [done|lia|lia].
Qed.

Lemma get_bytes_all l len : len = Z.of_nat (length l) → get_bytes l 0 len = Ok l.
Proof.
  intros. rewrite <- (app_nil_r l) at 1. by apply (get_bytes_mid [] l []).
Qed.

Lemma get_bytes_head bs post len : len = Z.of_nat (length bs) →
  get_bytes (bs ++ post) 0 len = Ok bs.
Proof. intros. by apply (get_bytes_mid [] bs post). Qed.

Lemma put_bytes_head old bs post : length old = length bs →
  put_bytes (old ++ post) 0 bs = Ok (bs ++ post).
Proof. intros. by apply (put_bytes_mid [] old bs post). Qed.

Lemma get_bytes_in buf off len : 0 <= off → 0 <= len → off + len <= Z.of_nat (length buf) →
  ∃ bs, get_bytes buf off len = Ok bs ∧ length bs = Z.to_nat len.
Proof.
  intros. eexists. split; [apply get_bytes_ok; split; [lia|reflexivity]|].
  rewrite length_take, length_drop. lia.
Qed.

Lemma put_bytes_in buf off bs : 0 <= off → off + Z.of_nat (length bs) <= Z.of_nat (length buf) →
  ∃ buf', put_bytes buf off bs = Ok buf' ∧ length buf' = length buf.
Proof.
  intros H0 H1. destruct (put_bytes buf off bs) as [buf'|] eqn:E; [exists buf'; split; [done|by eapply put_bytes_length]|].
  exfalso. unfold put_bytes, in_buf in E. rewrite !(proj2 (Z.leb_le _ _)) in E by lia. done.
Qed.

Lemma get_bytes_Forall (P : Z → Prop) buf off len bs :
  Forall P buf → get_bytes buf off len = Ok bs → Forall P bs.
Proof. intros HP [_ ->]%get_bytes_ok. by apply Forall_take, Forall_drop. Qed.

Lemma get_uint_range w buf off z : Forall is_byte buf → get_uint w buf off = Ok z → 0 <= z < 2 ^ (8 * Z.of_nat w).
Proof.
  intros Hb Hz. unfold get_uint in Hz. destruct (get_bytes buf off (Z.of_nat w)) as [bs|] eqn:E; [|done]. injection Hz as <-.
  pose proof (get_bytes_length _ _ _ _ E) as Hl. rewrite Nat2Z.id in Hl. rewrite <- Hl. apply le_dec_range. by eapply get_bytes_Forall.
Qed.

Lemma get_uint_in w buf off : Forall is_byte buf → 0 <= off →
  off + Z.of_nat w <= Z.of_nat (length buf) →
  ∃ z, get_uint w buf off = Ok z ∧ 0 <= z < 2 ^ (8 * Z.of_nat w).
Proof.
  intros HB ? ?. destruct (get_bytes_in buf off (Z.of_nat w)) as (bs & Hbs & Hl); [lia..|].
  exists (le_dec bs). unfold get_uint. rewrite Hbs. split; [done|].
  rewrite Nat2Z.id in Hl. rewrite <- Hl. apply le_dec_range. by eapply get_bytes_Forall.
Qed.

(** Accesses past a prefix of known length are accesses to the rest. *)
Lemma get_bytes_skip n a b off len : Z.of_nat (length a) = n → n <= off →
  get_bytes (a ++ b) off len = get_bytes b (off - n) len.
Proof.
  intros Ha Hn. unfold get_bytes.
  replace (in_buf (a ++ b) off len) with (in_buf b (off - n) len).
  2: { apply eq_true_iff_eq. rewrite !in_buf_true, length_app. lia. }
  case_match; [|done]. f_equal. f_equal.
  rewrite drop_app_ge by lia. f_equal. lia.
Qed.

Lemma put_bytes_skip n a b off bs : Z.of_nat (length a) = n → n <= off →
  put_bytes (a ++ b) off bs = app a <$> put_bytes b (off - n) bs.
Proof.
  intros Ha Hn. unfold put_bytes.
  replace (in_buf (a ++ b) off _) with (in_buf b (off - n) (Z.of_nat (length bs))).
  2: { apply eq_true_iff_eq. rewrite !in_buf_true, length_app. lia. }
  case_match eqn:E; [|done]. apply in_buf_true in E. cbn [fmap res_fmap]. f_equal.
  rewrite take_app_ge, drop_app_ge by lia. rewrite <- app_assoc. do 2 f_equal; [f_equal; lia|].
  f_equal. f_equal. lia.
Qed.

Lemma get_int_in w buf off : (0 < w)%nat → 0 <= off →
  off + Z.of_nat w <= Z.of_nat (length buf) →
  ∃ z, get_int w buf off = Ok z ∧ - 2 ^ (8 * Z.of_nat w - 1) <= z < 2 ^ (8 * Z.of_nat w - 1).
Proof.
  intros Hw ? ?. destruct (get_bytes_in buf off (Z.of_nat w)) as (bs & Hbs & Hl); [lia..|].
  eexists. unfold get_int. rewrite Hbs. split; [done|]. unfold swrap.
  set (k := 8 * Z.of_nat w). assert (2 ^ k = 2 * 2 ^ (k - 1)) as Hk
    by (rewrite <- Z.pow_succ_r by lia; f_equal; lia).
  pose proof (Z.mod_pos_bound (le_dec bs + 2 ^ (k - 1)) (2 ^ k)). lia.
Qed.

(** [get_skip n] and [put_skip n] walk over a field of [n] bytes whose length is
    known, in an access at a constant offset. *)
Ltac len_tac := rewrite ?length_app, ?length_le_enc, ?length_replicate; first [done | lia].
Ltac norm_sub n :=
  match goal with
  | |- context [?x - n] => let v := eval vm_compute in (x - n) in change (x - n) with v
  end.
Ltac get_skip n := rewrite (get_bytes_skip n) by len_tac; norm_sub n.
Ltac put_skip n := rewrite (put_bytes_skip n) by len_tac; norm_sub n.
Ltac res_step := cbn [fmap res_fmap mbind res_bind Assert].

(** [solve_get] proves [get_bytes (f1 ++ f2 ++ ...) off len = Ok fi]. *)
Lemma get_bytes_skip_to a b off len r : Z.of_nat (length a) <= off →
  get_bytes b (off - Z.of_nat (length a)) len = r → get_bytes (a ++ b) off len = r.
Proof. intros H <-. by apply get_bytes_skip. Qed.
Lemma get_bytes_here bs post off len : off = 0 → len = Z.of_nat (length bs) →
  get_bytes (bs ++ post) off len = Ok bs.
Proof. intros ->. apply get_bytes_head. Qed.
Lemma get_bytes_last bs off len : off = 0 → len = Z.of_nat (length bs) →
  get_bytes bs off len = Ok bs.
Proof. intros ->. apply get_bytes_all. Qed.
Ltac solve_get :=
  first [ apply get_bytes_here; len_tac | apply get_bytes_last; len_tac
        | apply get_bytes_skip_to; [len_tac | solve_get] ].

(** [solve_put] proves [put_bytes (f1 ++ f2 ++ ...) off bs = Ok (f1 ++ ... ++ bs ++ ...)],
    where [bs] replaces exactly one field. *)
Lemma put_bytes_skip_to a b off bs r : Z.of_nat (length a) <= off →
  put_bytes b (off - Z.of_nat (length a)) bs = Ok r → put_bytes (a ++ b) off bs = Ok (a ++ r).
Proof. intros H E. rewrite (put_bytes_skip (Z.of_nat (length a))) by done. by rewrite E. Qed.
Lemma put_bytes_here old bs post off : off = 0 → length old = length bs →
  put_bytes (old ++ post) off bs = Ok (bs ++ post).
Proof. intros ->. apply put_bytes_head. Qed.
Lemma put_bytes_last old bs off : off = 0 → length old = length bs →
  put_bytes old off bs = Ok bs.
Proof.
  intros -> H. pose proof (put_bytes_head old bs [] H) as E. by rewrite !app_nil_r in E.
Qed.
Ltac solve_put :=
  first [ apply put_bytes_here; len_tac | apply put_bytes_last; len_tac
        | apply put_bytes_skip_to; [len_tac | solve_put] ].

Lemma take_length_take {A} n (l : list A) : take (length (take n l)) l = take n l.
Proof. rewrite length_take. destruct (Nat.min_spec n (length l)) as [[? ->]|[? ->]]; [done|]. by rewrite !take_ge by lia. Qed.

(** ** Filtering and counting in lists *)
Section filter_facts.
Context {A : Type} (P : A → Prop) `{!∀ x, Decision (P x)}.
Lemma filter_all l : Forall P l → filter P l = l.
Proof. induction 1; [done|]. rewrite filter_cons_True by done. by f_equal. Qed.
Lemma filter_none l : Forall (fun x => ¬ P x) l → filter P l = [].
Proof. induction 1; [done|]. by rewrite filter_cons_False. Qed.
Definition count (l : list A) : Z := Z.of_nat (length (filter P l)).
Lemma count_perm l l' : l ≡ₚ l' → count l = count l'.
Proof. intros E. unfold count. by rewrite E. Qed.
Lemma count_nonneg l : 0 <= count l.
Proof. unfold count. lia. Qed.
Lemma count_cons x l : count (x :: l) = (if decide (P x) then 1 else 0) + count l.
Proof. unfold count. rewrite filter_cons. case_decide; simpl length; lia. Qed.
Lemma count_le_length l : count l <= Z.of_nat (length l).
Proof. unfold count. pose proof (length_filter P l). lia. Qed.
Lemma count_app l l' : count (l ++ l') = count l + count l'.
Proof. unfold count. rewrite filter_app, length_app. lia. Qed.
Lemma count_pos x l : x ∈ l → P x → 1 <= count l.
Proof.
  intros Hx HP. unfold count. assert (x ∈ filter P l) as Hf by (by apply list_elem_of_filter).
  destruct (filter P l); [by apply elem_of_nil in Hf|simpl; lia].
Qed.
End filter_facts.

Lemma count_mono {A} (P Q : A → Prop) `{!∀ x, Decision (P x), !∀ x, Decision (Q x)} l :
  (∀ x, P x → Q x) → count P l <= count Q l.
Proof.
  intros HPQ. induction l as [|x l IH]; [done|]. rewrite !count_cons.
  repeat case_decide; try lia. naive_solver.
Qed.

Lemma count_disjoint {A} (P Q : A → Prop) `{!∀ x, Decision (P x), !∀ x, Decision (Q x)} l :
  (∀ x, P x → ¬ Q x) → count P l + count Q l <= Z.of_nat (length l).
Proof.
  intros HPQ. induction l as [|x l IH]; [done|]. rewrite !count_cons, length_cons.
  repeat case_decide; try lia. naive_solver.
Qed.

Lemma count_fmap {A B} (f : A → B) (P : B → Prop) `{!∀ x, Decision (P x)} l :
  count P (f <$> l) = count (fun x => P (f x)) l.
Proof. induction l as [|x l IH]; [done|]. by rewrite fmap_cons, !count_cons, IH. Qed.

Lemma count_filter {A} (P Q : A → Prop) `{!∀ x, Decision (P x), !∀ x, Decision (Q x)} l :
  count P (filter Q l) = count (fun x => P x ∧ Q x) l.
Proof. unfold count. by rewrite list_filter_filter. Qed.

(** The non-null entries of an array of pointers. *)
Definition present {A} (l : list (option A)) : list A := omap id l.
Lemma present_some {A} (x : A) l : present (Some x :: l) = x :: present l.
Proof. done. Qed.
Lemma present_none {A} (l : list (option A)) : present (None :: l) = present l.
Proof. done. Qed.

Lemma sorted_filter {A} (R : A → A → Prop) (P : A → Prop) `{!∀ x, Decision (P x)} l :
  StronglySorted R l → StronglySorted R (filter P l).
Proof.
  induction 1 as [|x l Hs IH Hx]; [constructor|]. rewrite filter_cons. case_decide; [|done].
  constructor; [done|]. apply Forall_forall. intros y [_ Hy]%list_elem_of_filter.
  by rewrite Forall_forall in Hx; apply Hx.
Qed.

Lemma size_list_to_set_le {A} `{Countable A} (l : list A) : (size (list_to_set l : gset A) ≤ length l)%nat.
Proof.
  induction l as [|x l IH]; [done|]. simpl.
  destruct (decide (x ∈ (list_to_set l : gset A))) as [Hx|Hx].
  - assert ({[x]} ∪ list_to_set l = (list_to_set l : gset A)) as -> by set_solver. lia.
  - rewrite size_union by set_solver. rewrite size_singleton. lia.
Qed.

(** Removing an element from a list that is then filtered. *)
Section filter_delete.
Context {A : Type} (P : A → Prop) `{!∀ x, Decision (P x)}.

Lemma filter_delete_False (l : list A) k x : l !! k = Some x → ~ P x → filter P (delete k l) = filter P l.
Proof.
  intros Hk Hx. rewrite <- (take_drop_middle l k x Hk) at 2. rewrite delete_take_drop, !filter_app.
  by rewrite filter_cons_False.
Qed.

Lemma filter_delete_single (l : list A) k x y : l !! k = Some x → P x → filter P l = [y] → y = x ∧ filter P (delete k l) = [].
Proof.
  intros Hk Hx Hf. rewrite delete_take_drop, filter_app.
  rewrite <- (take_drop_middle l k x Hk), filter_app, filter_cons_True in Hf by done.
  destruct (filter P (take k l)) as [|z l1]; simpl in *.
  - by injection Hf as -> ->.
  - injection Hf as _ Hf. by destruct l1.
Qed.
End filter_delete.

(** ** Components as transition systems

    Operations that may fail, with the preconditions their callers establish. *)
Section system.
Context {W O : Type} (exec : W → O → res W) (pre : W → O → Prop) (init : W).

Inductive reachable : W → Prop :=
  | reachable_init : reachable init
  | reachable_step w o w' : reachable w → pre w o → exec w o = Ok w' → reachable w'.

(** An invariant with which every permitted operation succeeds. *)
Lemma reachable_invariant (I : W → Prop) : I init →
  (∀ w o, I w → pre w o → ∃ w', exec w o = Ok w' ∧ I w') → ∀ w, reachable w → I w.
Proof.
  intros Hinit Hstep w. induction 1 as [|w o w' _ IH Hpre He]; [done|].
  destruct (Hstep w o IH Hpre) as (w2 & He2 & HI). congruence.
Qed.

Fixpoint run (w : W) (ops : list O) : res W :=
  match ops with [] => Ok w | o :: ops => w ← exec w o; run w ops end.

Fixpoint run_pre (w : W) (ops : list O) : Prop :=
  match ops with
  | [] => True
  | o :: ops => pre w o ∧ match exec w o with Ok w => run_pre w ops | Err _ => False end
  end.

Lemma run_reachable_from ops : ∀ w w', reachable w → run_pre w ops → run w ops = Ok w' → reachable w'.
Proof.
  induction ops as [|o ops IH]; intros w w' Hr Hpre Hrun; cbn [run run_pre] in *; [congruence|].
  destruct Hpre as [Ho Hpre]. destruct (exec w o) as [w1|] eqn:E; [|done]. cbn in Hrun.
  eapply IH; [|exact Hpre|exact Hrun]. by eapply reachable_step.
Qed.

Lemma run_reachable ops w : run_pre init ops → run init ops = Ok w → reachable w.
Proof. apply run_reachable_from. constructor. Qed.
End system.
