(* ===== verification/Bitmap.v ===== *)
(** * Bitmap (bftengine/src/bftengine/Bitmap.hpp)

    The bit set that ReplicaStatusMsg and the persistent storage exchange: a
    number of bits and a heap-allocated byte array.  Sizes are [uint32_t] and
    wrap.  The theorems relate the byte-level operations to a finite set of
    indices, show that serialization round-trips, and exhibit the sizes for
    which the 32-bit rounding in [realSize] wraps to an empty array. *)
From S2P Require Import Prelude.

Module Bitmap.

Record t := mk { numBits_ : Z; p_ : option (list Z) }.

Definition realSize (nbits : Z) : Z := u32 (nbits + 7) / 8.

Definition sizeof_uint32 : Z := 4.

(** [std::malloc]: the initial contents are overwritten by every caller. *)
Definition malloc (n : Z) : list Z := replicate (Z.to_nat n) 0.

Definition zeroAll (b : t) : res t :=
  match p_ b with
  | None => Ok b
  | Some _ =>
      let s := realSize (numBits_ b) in
      assert! (0 <? s) ;;
      Ok (mk (numBits_ b) (Some (replicate (Z.to_nat s) 0)))
  end.

(** [Bitmap(uint32_t numBits)] *)
Definition ctor (numBits : Z) : res t :=
  if 0 <? numBits then zeroAll (mk numBits (Some (malloc (realSize numBits))))
  else Ok (mk numBits None).

(** [Bitmap(const Bitmap& other)] and [operator=]: a [memcpy] of [realSize()] bytes. *)
Definition copy (other : t) : res t :=
  if numBits_ other =? 0 then Ok (mk (numBits_ other) None)
  else match p_ other with
       | None => Err OutOfBounds
       | Some l =>
           bs ← get_bytes l 0 (realSize (numBits_ other));
           Ok (mk (numBits_ other) (Some bs))
       end.

Definition read_byte (b : t) (idx : Z) : res Z :=
  match p_ b with
  | None => Err OutOfBounds
  | Some l => match l !! Z.to_nat idx with Some x => Ok x | None => Err OutOfBounds end
  end.

Definition write_byte (b : t) (idx x : Z) : res t :=
  match p_ b with
  | None => Err OutOfBounds
  | Some l =>
      if (idx <? Z.of_nat (length l))
      then Ok (mk (numBits_ b) (Some (<[Z.to_nat idx := x]> l)))
      else Err OutOfBounds
  end.

Definition get (b : t) (i : Z) : res bool :=
  assert! (i <? numBits_ b) ;;
  let byteIndex := i / 8 in
  let byteMask := u8 (Z.shiftl 1 (i mod 8)) in
  x ← read_byte b byteIndex;
  Ok (negb (Z.land x byteMask =? 0)).

Definition set (b : t) (i : Z) : res t :=
  assert! (i <? numBits_ b) ;;
  let byteIndex := i / 8 in
  let byteMask := u8 (Z.shiftl 1 (i mod 8)) in
  x ← read_byte b byteIndex;
  write_byte b byteIndex (Z.lor x byteMask).

Definition reset (b : t) (i : Z) : res t :=
  assert! (i <? numBits_ b) ;;
  let byteIndex := i / 8 in
  let byteMask := u8 (Z.land 255 (Z.lnot (Z.shiftl 1 (i mod 8)))) in
  x ← read_byte b byteIndex;
  write_byte b byteIndex (Z.land x byteMask).

Definition sizeNeededInBuffer (b : t) : Z := u32 (sizeof_uint32 + realSize (numBits_ b)).

(** Returns the buffer after the writes and [*actualSize]. *)
Definition writeToBuffer (b : t) (buffer : list Z) (bufferLength : Z) : res (list Z * Z) :=
  let sizeNeeded := sizeNeededInBuffer b in
  assert! (sizeNeeded <=? bufferLength) ;;
  buffer1 ← put_int 4 buffer 0 (numBits_ b);
  src ← get_bytes (default [] (p_ b)) 0 (realSize (numBits_ b));
  buffer2 ← put_bytes buffer1 sizeof_uint32 src;
  Ok (buffer2, sizeNeeded).

(** Returns the new bitmap ([None] for [nullptr]) and [*actualSize]. *)
Definition createBitmapFromBuffer (buffer : list Z) (bufferLength : Z) : res (option t * Z) :=
  if bufferLength <? sizeof_uint32 then Ok (None, 0)
  else
    numOfBits ← get_uint 4 buffer 0;
    let numOfBitmapBytes := realSize numOfBits in
    let sizeNeeded := u32 (sizeof_uint32 + numOfBitmapBytes) in
    if bufferLength <? sizeNeeded then Ok (None, 0)
    else if 0 <? numOfBits then
      bs ← get_bytes buffer sizeof_uint32 numOfBitmapBytes;
      Ok (Some (mk numOfBits (Some bs)), sizeNeeded)
    else Ok (Some (mk 0 None), sizeNeeded).

Definition maxSizeNeededToStoreInBuffer (maxNumOfBits : Z) : Z :=
  u32 (sizeof_uint32 + realSize maxNumOfBits).

(** ** Representation invariant *)

(** Sizes for which [nbits + 7] does not wrap. *)
Definition small (n : Z) : Prop := 0 <= n < 2 ^ 32 - 7.

Definition wf (b : t) : Prop :=
  small (numBits_ b) ∧
  match p_ b with
  | None => numBits_ b = 0
  | Some l => 0 < numBits_ b ∧ Z.of_nat (length l) = realSize (numBits_ b) ∧ Forall is_byte l
  end.

(** The bit of index [i], read off the bytes directly. *)
Definition bit (b : t) (i : Z) : bool :=
  match p_ b with
  | None => false
  | Some l => Z.testbit (nth (Z.to_nat (i / 8)) l 0) (i mod 8)
  end.

(** The set of indices that a bitmap stands for. *)
Definition repr (b : t) (X : gset Z) : Prop :=
  ∀ i, 0 <= i < numBits_ b → bit b i = bool_decide (i ∈ X).

(** A client's sequence of updates, on bitmaps and on their abstraction. *)
Inductive op := OSet (i : Z) | OReset (i : Z) | OZeroAll.

Definition run_op (b : t) (o : op) : res t :=
  match o with OSet i => set b i | OReset i => reset b i | OZeroAll => zeroAll b end.

Definition spec_op (X : gset Z) (o : op) : gset Z :=
  match o with OSet i => {[i]} ∪ X | OReset i => X ∖ {[i]} | OZeroAll => ∅ end.

Definition op_in_range (n : Z) (o : op) : Prop :=
  match o with OSet i | OReset i => 0 <= i < n | OZeroAll => True end.

Fixpoint run (b : t) (os : list op) : res t :=
  match os with [] => Ok b | o :: os' => b' ← run_op b o; run b' os' end.

(** ** Bit-level lemmas *)

Lemma realSize_small n : small n → realSize n = (n + 7) / 8.
Proof. intros [? ?]. unfold realSize. rewrite u32_small; lia. Qed.

Lemma idx_in_range n i : small n → 0 <= i < n → 0 <= i / 8 < realSize n.
Proof. intros Hs Hi. rewrite realSize_small by done. dlia. Qed.

Lemma mask_single k : 0 <= k < 8 → u8 (Z.shiftl 1 k) = 2 ^ k.
Proof.
  intros. rewrite Z.shiftl_1_l. apply wrap_small.
  split; [lia|]. apply Z.pow_lt_mono_r; lia.
Qed.

Lemma mask_clear k : 0 <= k < 8 →
  u8 (Z.land 255 (Z.lnot (Z.shiftl 1 k))) = Z.ldiff 255 (2 ^ k).
Proof.
  intros. rewrite Z.shiftl_1_l. rewrite Z.ldiff_land.
  assert (k = 0 ∨ k = 1 ∨ k = 2 ∨ k = 3 ∨ k = 4 ∨ k = 5 ∨ k = 6 ∨ k = 7) as Hk by lia.
  by repeat destruct Hk as [->|Hk]; try reflexivity; subst.
Qed.

Lemma byte_high x k : is_byte x → 8 <= k → Z.testbit x k = false.
Proof.
  intros [? ?] Hk. destruct (decide (x = 0)) as [->|]; [apply Z.bits_0|].
  apply Z.bits_above_log2; [lia|].
  assert (Z.log2 x < 8); [apply Z.log2_lt_pow2; lia|lia].
Qed.

Lemma testbit_byte x : (∀ k, 8 <= k → Z.testbit x k = false) → 0 <= x → is_byte x.
Proof.
  intros H Hx. split; [done|]. change 256 with (2 ^ 8).
  destruct (decide (x = 0)) as [->|]; [lia|].
  apply Z.log2_lt_pow2; [lia|].
  destruct (decide (Z.log2 x < 8)); [done|].
  pose proof (Z.bit_log2 x ltac:(lia)). rewrite H in * by lia. done.
Qed.

Lemma land_mask x k : 0 <= k < 8 → negb (Z.land x (2 ^ k) =? 0) = Z.testbit x k.
Proof.
  intros Hk. rewrite (Z.land_comm x), <- Z.shiftl_1_l.
  destruct (Z.testbit x k) eqn:E.
  - apply negb_true_iff, Z.eqb_neq. intros H0.
    assert (Z.testbit (Z.land (Z.shiftl 1 k) x) k = false) as Hf by (by rewrite H0, Z.bits_0).
    rewrite Z.land_spec, Z.shiftl_1_l, Z.pow2_bits_true, E in Hf by lia. done.
  - apply negb_false_iff, Z.eqb_eq. apply Z.bits_inj'. intros j Hj.
    rewrite Z.land_spec, Z.bits_0, Z.shiftl_1_l, Z.pow2_bits_eqb by lia.
    destruct (Z.eqb_spec k j) as [->|]; [by rewrite E|done].
Qed.

Lemma set_bit x k : is_byte x → 0 <= k < 8 →
  is_byte (Z.lor x (2 ^ k)) ∧
  ∀ j, 0 <= j → Z.testbit (Z.lor x (2 ^ k)) j = (k =? j) || Z.testbit x j.
Proof.
  intros Hx Hk.
  assert (∀ j, 0 <= j → Z.testbit (Z.lor x (2 ^ k)) j = (k =? j) || Z.testbit x j) as Hj.
  { intros j Hj. rewrite Z.lor_spec, Z.pow2_bits_eqb by lia. by rewrite orb_comm. }
  split; [|done]. apply testbit_byte.
  - intros j ?. rewrite Hj, byte_high by (done || lia).
    destruct (Z.eqb_spec k j); [lia|done].
  - apply Z.lor_nonneg. unfold is_byte in Hx. lia.
Qed.

Lemma clear_bit x k : is_byte x → 0 <= k < 8 →
  is_byte (Z.land x (Z.ldiff 255 (2 ^ k))) ∧
  ∀ j, 0 <= j → Z.testbit (Z.land x (Z.ldiff 255 (2 ^ k))) j = negb (k =? j) && Z.testbit x j.
Proof.
  intros Hx Hk.
  assert (∀ j, 0 <= j → Z.testbit (Z.land x (Z.ldiff 255 (2 ^ k))) j
                        = negb (k =? j) && Z.testbit x j) as Hj.
  { intros j Hj. rewrite Z.land_spec, Z.ldiff_spec, Z.pow2_bits_eqb by lia.
    change 255 with (Z.ones 8). rewrite Z.testbit_ones_nonneg by lia.
    destruct (decide (j < 8)) as [Hlt|].
    - apply Z.ltb_lt in Hlt. rewrite Hlt. by rewrite andb_true_l, andb_comm.
    - by rewrite byte_high, !andb_false_r by (done || lia). }
  split; [|done]. apply testbit_byte.
  - intros j ?. by rewrite Hj, byte_high, andb_false_r by (done || lia).
  - apply Z.land_nonneg. unfold is_byte in Hx. lia.
Qed.

(** ** Operations and the invariant *)

Lemma wf_bytes b i : wf b → 0 <= i < numBits_ b →
  ∃ l x, p_ b = Some l ∧ l !! Z.to_nat (i / 8) = Some x ∧ is_byte x ∧
         x = nth (Z.to_nat (i / 8)) l 0 ∧ i / 8 < Z.of_nat (length l).
Proof.
  intros [Hs Hp] Hi. destruct (p_ b) as [l|]; [|lia].
  destruct Hp as (_ & Hl & Hb). pose proof (idx_in_range _ _ Hs Hi) as Hidx.
  destruct (lookup_lt_is_Some_2 l (Z.to_nat (i / 8))) as [x Hx]; [lia|].
  exists l, x. split_and!; try done; [|symmetry; by apply nth_lookup_Some|lia].
  by eapply Forall_lookup_1.
Qed.

Lemma get_spec b i : wf b → 0 <= i < numBits_ b → get b i = Ok (bit b i).
Proof.
  intros Hwf Hi. destruct (wf_bytes b i Hwf Hi) as (l & x & Hp & Hx & _ & Hn & _).
  unfold get. rewrite (proj2 (Z.ltb_lt _ _)) by lia. simpl.
  unfold read_byte. rewrite Hp, Hx. simpl.
  rewrite mask_single, land_mask by dlia. unfold bit. by rewrite Hp, <- Hn.
Qed.

(** An update of the byte that holds bit [i] changes no other byte. *)
Lemma update_spec b i (F : Z → Z) :
  wf b → 0 <= i < numBits_ b → (∀ x, is_byte x → is_byte (F x)) →
  ∃ b' x, (x ← read_byte b (i / 8); write_byte b (i / 8) (F x)) = Ok b' ∧
    wf b' ∧ numBits_ b' = numBits_ b ∧ is_byte x ∧
    ∀ j, 0 <= j < numBits_ b →
      bit b j = (if decide (j / 8 = i / 8) then Z.testbit x (j mod 8) else bit b j) ∧
      bit b' j = (if decide (j / 8 = i / 8) then Z.testbit (F x) (j mod 8) else bit b j).
Proof.
  intros Hwf Hi HF. destruct (wf_bytes b i Hwf Hi) as (l & x & Hp & Hx & Hb & Hn & Hlt).
  destruct Hwf as [Hs Hwf]. rewrite Hp in Hwf. destruct Hwf as (Hpos & Hl & Hall).
  eexists _, x. unfold read_byte, write_byte. rewrite Hp, Hx. simpl.
  rewrite (proj2 (Z.ltb_lt _ _) Hlt). split_and!; try done.
  - split; [done|]. simpl. rewrite length_insert. split_and!; [done..|].
    apply Forall_insert; auto.
  - intros j Hj. unfold bit. rewrite Hp. simpl. case_decide as Hd.
    + rewrite Hd, <- Hn. split; [done|].
      erewrite nth_lookup_Some; [done|]. apply list_lookup_insert_eq. by apply lookup_lt_Some in Hx.
    + split; [done|]. rewrite !nth_lookup, list_lookup_insert_ne; [done|dlia].
Qed.

Lemma bit_index i j : 0 <= i → 0 <= j → i / 8 = j / 8 →
  (i mod 8 =? j mod 8) = bool_decide (i = j).
Proof.
  intros. destruct (Z.eqb_spec (i mod 8) (j mod 8)); symmetry;
    [apply bool_decide_eq_true|apply bool_decide_eq_false]; dlia.
Qed.

Lemma set_spec b i : wf b → 0 <= i < numBits_ b →
  ∃ b', set b i = Ok b' ∧ wf b' ∧ numBits_ b' = numBits_ b ∧
  ∀ j, 0 <= j < numBits_ b → bit b' j = bool_decide (i = j) || bit b j.
Proof.
  intros Hwf Hi.
  destruct (update_spec b i (fun x => Z.lor x (u8 (Z.shiftl 1 (i mod 8)))) Hwf Hi)
    as (b' & x & He & Hwf' & Hn & Hb & Hj).
  { intros x Hx. rewrite mask_single by dlia. apply set_bit; [done|dlia]. }
  exists b'. unfold set. rewrite (proj2 (Z.ltb_lt _ _)) by lia. simpl.
  split_and!; try done. intros j Hr. destruct (Hj j Hr) as [-> ->].
  case_decide; [|by rewrite bool_decide_eq_false_2 by congruence].
  rewrite mask_single by dlia. rewrite (proj2 (set_bit x (i mod 8) Hb ltac:(dlia))) by dlia.
  rewrite bit_index by (lia || congruence). done.
Qed.

Lemma reset_spec b i : wf b → 0 <= i < numBits_ b →
  ∃ b', reset b i = Ok b' ∧ wf b' ∧ numBits_ b' = numBits_ b ∧
  ∀ j, 0 <= j < numBits_ b → bit b' j = negb (bool_decide (i = j)) && bit b j.
Proof.
  intros Hwf Hi.
  destruct (update_spec b i
    (fun x => Z.land x (u8 (Z.land 255 (Z.lnot (Z.shiftl 1 (i mod 8)))))) Hwf Hi)
    as (b' & x & He & Hwf' & Hn & Hb & Hj).
  { intros x Hx. rewrite mask_clear by dlia. apply clear_bit; [done|dlia]. }
  exists b'. unfold reset. rewrite (proj2 (Z.ltb_lt _ _)) by lia. simpl.
  split_and!; try done. intros j Hr. destruct (Hj j Hr) as [-> ->].
  case_decide; [|by rewrite bool_decide_eq_false_2 by congruence].
  rewrite mask_clear by dlia. rewrite (proj2 (clear_bit x (i mod 8) Hb ltac:(dlia))) by dlia.
  rewrite bit_index by (lia || congruence). done.
Qed.

Lemma realSize_pos n : small n → 0 < n → 0 < realSize n.
Proof. intros Hs Hn. rewrite realSize_small by done. dlia. Qed.

Lemma wf_zeros n : small n → 0 < n →
  wf (mk n (Some (replicate (Z.to_nat (realSize n)) 0))).
Proof.
  intros Hs Hn. pose proof (realSize_pos n Hs Hn). split; [done|]. simpl.
  rewrite length_replicate. split_and!; [done|lia|].
  apply Forall_replicate. by unfold is_byte.
Qed.

Lemma bit_zeros n k j : bit (mk n (Some (replicate k 0))) j = false.
Proof.
  unfold bit. simpl. replace (nth _ _ 0) with 0; [apply Z.bits_0|].
  rewrite nth_lookup. destruct (replicate k 0 !! _) eqn:E; [|done].
  apply lookup_replicate in E as [-> _]. done.
Qed.

Lemma zeroAll_spec b : wf b →
  ∃ b', zeroAll b = Ok b' ∧ wf b' ∧ numBits_ b' = numBits_ b ∧ ∀ j, bit b' j = false.
Proof.
  intros [Hs Hp]. unfold zeroAll. destruct b as [n [l|]]; simpl in *.
  - destruct Hp as (Hpos & _). rewrite (proj2 (Z.ltb_lt _ _)) by (by apply realSize_pos).
    eexists. split; [done|]. split; [by apply wf_zeros|]. split; [done|].
    intros. apply bit_zeros.
  - eexists. split; [done|]. split; [done|]. split; done.
Qed.

Lemma ctor_spec n : small n →
  ∃ b, ctor n = Ok b ∧ wf b ∧ numBits_ b = n ∧ repr b ∅.
Proof.
  intros Hs. unfold ctor. destruct (Z.ltb_spec 0 n) as [Hn|Hn].
  - unfold zeroAll. simpl. rewrite (proj2 (Z.ltb_lt _ _)) by (by apply realSize_pos).
    eexists. split; [done|]. split; [by apply wf_zeros|]. split; [done|].
    intros i _. rewrite bit_zeros. symmetry. apply bool_decide_eq_false. set_solver.
  - eexists. split; [done|]. destruct Hs. split; [|split; [done|]].
    + split; simpl; [split; lia|lia].
    + intros i Hi. simpl in *. lia.
Qed.

Lemma run_op_spec b X o : wf b → repr b X → op_in_range (numBits_ b) o →
  ∃ b', run_op b o = Ok b' ∧ wf b' ∧ numBits_ b' = numBits_ b ∧ repr b' (spec_op X o).
Proof.
  intros Hwf HX Ho. destruct o as [i|i|]; simpl in *.
  - destruct (set_spec b i Hwf Ho) as (b' & -> & Hwf' & Hn & Hj).
    exists b'. split_and!; try done. intros j Hr. rewrite Hn in Hr. rewrite Hj, HX by done.
    rewrite <- bool_decide_or. apply bool_decide_ext. set_solver.
  - destruct (reset_spec b i Hwf Ho) as (b' & -> & Hwf' & Hn & Hj).
    exists b'. split_and!; try done. intros j Hr. rewrite Hn in Hr. rewrite Hj, HX by done.
    rewrite <- bool_decide_not, <- bool_decide_and. apply bool_decide_ext. set_solver.
  - destruct (zeroAll_spec b Hwf) as (b' & -> & Hwf' & Hn & Hj).
    exists b'. split_and!; try done. intros j Hr. rewrite Hj.
    symmetry. apply bool_decide_eq_false. set_solver.
Qed.

(** ** Properties *)

(** any sequence of in-range updates of a well-formed bitmap runs without a
    failed assertion or an access outside the byte array, keeps the
    representation invariant, and leaves exactly the set of indices that the
    same updates produce on a finite set; [get] then answers membership. *)
Theorem bitmap_refines_set b X os :
  wf b → repr b X → Forall (op_in_range (numBits_ b)) os →
  ∃ b', run b os = Ok b' ∧ wf b' ∧ numBits_ b' = numBits_ b ∧
    ∀ i, 0 <= i < numBits_ b → get b' i = Ok (bool_decide (i ∈ foldl spec_op X os)).
Proof.
  revert b X. induction os as [|o os IH]; intros b X Hwf HX Hos; simpl.
  - exists b. split_and!; try done. intros i Hi. by rewrite get_spec, HX.
  - inversion_clear Hos as [|? ? Ho Hos'].
    destruct (run_op_spec b X o Hwf HX Ho) as (b1 & -> & Hwf1 & Hn1 & HX1). simpl.
    rewrite <- Hn1 in Hos'. destruct (IH b1 _ Hwf1 HX1 Hos') as (b2 & -> & Hwf2 & Hn2 & Hg).
    exists b2. split_and!; try done; [congruence|]. rewrite <- Hn1. done.
Qed.

Lemma bitmap_refines_set_witness :
  ∃ b, ctor 20 = Ok b ∧
  ∃ b', run b [OSet 3; OSet 19; OReset 3] = Ok b' ∧ wf b' ∧ numBits_ b' = numBits_ b ∧
    ∀ i, 0 <= i < numBits_ b →
      get b' i = Ok (bool_decide (i ∈ foldl spec_op ∅ [OSet 3; OSet 19; OReset 3])).
Proof.
  destruct (ctor_spec 20 ltac:(unfold small; lia)) as (b & Hb & Hwf & Hn & HX).
  exists b. split; [exact Hb|].
  apply (bitmap_refines_set b ∅ [OSet 3; OSet 19; OReset 3] Hwf HX).
  rewrite Hn. repeat constructor; simpl; lia.
Defined.

Lemma length_default_p b : wf b → Z.of_nat (length (default [] (p_ b))) = realSize (numBits_ b).
Proof.
  intros [Hs Hp]. destruct (p_ b); simpl in *; [tauto|]. rewrite Hp. done.
Qed.

(** writing a well-formed bitmap to a large enough buffer and reading it back
    gives the same bitmap and the same size; the bytes after it are untouched. *)
Theorem bitmap_roundtrip b buffer :
  wf b → sizeNeededInBuffer b <= Z.of_nat (length buffer) →
  ∃ buffer',
    writeToBuffer b buffer (Z.of_nat (length buffer)) = Ok (buffer', sizeNeededInBuffer b) ∧
    drop (Z.to_nat (sizeNeededInBuffer b)) buffer' = drop (Z.to_nat (sizeNeededInBuffer b)) buffer ∧
    createBitmapFromBuffer buffer' (Z.of_nat (length buffer)) = Ok (Some b, sizeNeededInBuffer b).
Proof.
  intros Hwf Hlen. pose proof (length_default_p b Hwf) as Hp.
  destruct Hwf as [[Hs0 Hs1] Hp']. assert (0 <= realSize (numBits_ b) < 2 ^ 29) as Hr.
  { rewrite realSize_small by (split; lia). dlia. }
  assert (sizeNeededInBuffer b = 4 + realSize (numBits_ b)) as Hsz.
  { unfold sizeNeededInBuffer, sizeof_uint32. apply u32_small. lia. }
  rewrite Hsz in *. set (bs := default [] (p_ b)) in *.
  destruct (take_drop_middle_split 4 (length bs) buffer) as (h & o & r & -> & Hh & Ho); [lia|].
  assert (h ++ o ++ r = [] ++ h ++ (o ++ r)) as Hsplit1 by done.
  exists (le_enc 4 (numBits_ b) ++ bs ++ r). split; [|split].
  - unfold writeToBuffer. rewrite (proj2 (Z.leb_le _ _)) by lia. cbn [Assert mbind res_bind].
    unfold put_int. rewrite Hsplit1.
    rewrite (put_bytes_mid [] h) by (simpl; rewrite ?length_le_enc; lia). cbn [mbind res_bind].
    fold bs. rewrite (get_bytes_all bs) by lia. cbn [mbind res_bind]. rewrite app_nil_l.
    rewrite put_bytes_mid by (unfold sizeof_uint32; rewrite ?length_le_enc; lia).
    cbn [mbind res_bind]. by rewrite Hsz.
  - rewrite !drop_app_ge by (rewrite ?length_le_enc; lia).
    rewrite !length_le_enc. do 2 f_equal; lia.
  - unfold createBitmapFromBuffer, get_uint, sizeof_uint32.
    rewrite (proj2 (Z.ltb_ge _ _)) by lia.
    rewrite (get_bytes_mid [] (le_enc 4 (numBits_ b)) (bs ++ r)) by done.
    cbn [fmap res_fmap mbind res_bind]. rewrite le_dec_enc.
    change (8 * Z.of_nat 4) with 32. rewrite wrap_small by lia.
    rewrite u32_small by lia. rewrite (proj2 (Z.ltb_ge _ _)) by lia.
    rewrite get_bytes_mid by (rewrite ?length_le_enc; lia).
    destruct b as [n [l|]]; simpl in *.
    + by rewrite (proj2 (Z.ltb_lt _ _)) by lia.
    + by subst n.
Qed.

Lemma bitmap_roundtrip_witness :
  ∃ buffer',
    writeToBuffer (mk 12 (Some [129; 8])) (replicate 8 7) 8 = Ok (buffer', 6) ∧
    drop 6 buffer' = [7; 7] ∧
    createBitmapFromBuffer buffer' 8 = Ok (Some (mk 12 (Some [129; 8])), 6).
Proof.
  apply (bitmap_roundtrip (mk 12 (Some [129; 8])) (replicate 8 7)).
  - split; [unfold small; simpl; lia|]. simpl. split_and!; [lia|reflexivity|].
    repeat constructor; unfold is_byte; lia.
  - vm_compute. discriminate.
Defined.

(** for the seven largest 32-bit sizes [realSize] wraps to zero: a four-byte
    buffer announcing 2^32-1 bits is accepted, and the bitmap it produces has no
    byte array behind any of its bits, so that reading any bit is out of bounds. *)
Theorem createBitmapFromBuffer_size_wraps :
  realSize (2 ^ 32 - 1) = 0 ∧
  ∃ b, createBitmapFromBuffer [255; 255; 255; 255] 4 = Ok (Some b, 4) ∧
    numBits_ b = 2 ^ 32 - 1 ∧
    ∀ i, 0 <= i < numBits_ b → get b i = Err OutOfBounds.
Proof.
  split; [reflexivity|]. eexists. split; [reflexivity|]. split; [reflexivity|].
  intros i Hi. unfold get. rewrite (proj2 (Z.ltb_lt _ _)) by (simpl in *; lia). reflexivity.
Qed.
End Bitmap.
