(* ===== verification/SysConsts.v ===== *)
(** * System constants and primitive types
    (bftengine/src/bftengine/SysConsts.hpp, PrimitiveTypes.hpp)

    [SeqNum] and [ViewNum] are [int64_t], [ReplicaId] and [NodeIdType] are
    [uint16_t]; all are [Z] here, and every narrowing conversion of the code is
    written out where it happens. *)
From S2P Require Import Prelude.

Definition MaxNumberOfReplicas : Z := 64.
Definition kWorkWindowSize : Z := 300.
Definition checkpointWindowSize : Z := 150.
Definition maxLegalConcurrentAgreementsByPrimary : Z := 16.
Definition MaxConcurrentFastPaths : Z := 75.
Definition maxExternalMessageSize : Z := 64 * 1000.
Definition maxReplyMessageSize : Z := 8 * 1024.
Definition timeToWaitBeforeStartingStateTransferInMainWindowMilli : Z := 2000.
Definition maxNumOfRequestsInBatch : Z := 1024.
Definition sizeOfReservedPage : Z := 4096.
Definition DIGEST_SIZE : Z := 32.

Inductive CommitPath := CP_NA | OPTIMISTIC_FAST | FAST_WITH_THRESHOLD | SLOW.

#[export] Instance CommitPath_eq_dec : EqDecision CommitPath.
Proof. solve_decision. Defined.

(** The [static_assert]s of SysConsts.hpp. *)
Lemma window_is_two_checkpoints : kWorkWindowSize = 2 * checkpointWindowSize.
Proof. reflexivity. Qed.
Lemma window_holds_fast_paths :
  MaxConcurrentFastPaths + checkpointWindowSize < kWorkWindowSize.
Proof. reflexivity. Qed.
Lemma concurrent_agreements_below_fast_paths :
  maxLegalConcurrentAgreementsByPrimary < MaxConcurrentFastPaths.
Proof. reflexivity. Qed.

(** A digest is a 32-byte string. *)
Definition Digest := list Z.
Definition zeroDigest : Digest := replicate (Z.to_nat DIGEST_SIZE) 0.
Definition digest_wf (d : Digest) : Prop :=
  length d = Z.to_nat DIGEST_SIZE ∧ Forall is_byte d.
