(* ===== verification/Digest.v ===== *)
(** * Digest (bftengine/src/bftengine/Digest.hpp)

    [Digest::calcCombination] binds a digest to a view and a sequence number by
    xoring them into two of its 64-bit words; the words are chosen by the digest
    itself.  The result is what replicas sign with their threshold shares.  The
    hash function ([DigestUtil::compute]) is not used here. *)
From S2P Require Import Prelude SysConsts.

Module Digest.

Definition isZero (d : Digest) : bool := forallb (fun x => x =? 0) d.

(** [operator==]: [memcmp] of all bytes. *)
Definition eqb (a b : Digest) : bool := bool_decide (a = b).

(** The [i]-th 64-bit word of the digest: entry [i] of [uint64_t* ptr]. *)
Definition word (d : Digest) (i : Z) : Z := le_dec (take 8 (drop (Z.to_nat (8 * i)) d)).

Definition set_word (d : Digest) (i w : Z) : Digest :=
  take (Z.to_nat (8 * i)) d ++ le_enc 8 w ++ drop (Z.to_nat (8 * i) + 8) d.

Definition X : Z := DIGEST_SIZE / 8 / 2.
Definition locationA (d : Digest) : Z := word d 0 mod X.
Definition locationB (d : Digest) : Z := Z.shiftr (word d 0) 8 mod X.

Definition calcCombination (inDigest : Digest) (inDataA inDataB : Z) : Digest :=
  let d := inDigest in
  let a := locationA d in
  let b := locationB d in
  let d1 := set_word d a (Z.lxor (word d a) (u64 inDataA)) in
  set_word d1 b (Z.lxor (word d1 b) (u64 inDataB)).

(** ** Words *)

Lemma lxor_range a b : 0 <= a < 2 ^ 64 → 0 <= b < 2 ^ 64 → 0 <= Z.lxor a b < 2 ^ 64.
Proof.
  intros Ha Hb. assert (Z.lxor a b = Z.lxor a b mod 2 ^ 64) as ->; [|apply Z.mod_pos_bound; lia].
  rewrite <- (Z.mod_small a (2 ^ 64)) at 1 by done. rewrite <- (Z.mod_small b (2 ^ 64)) at 1 by done.
  apply Z.bits_inj'. intros i Hi. rewrite Z.lxor_spec.
  destruct (decide (i < 64)).
  - rewrite !Z.mod_pow2_bits_low, Z.lxor_spec by lia. done.
  - by rewrite !Z.mod_pow2_bits_high by lia.
Qed.

Lemma lxor_inj w a b : Z.lxor w a = Z.lxor w b ↔ a = b.
Proof.
  split; [|by intros ->]. intros H. apply (f_equal (Z.lxor w)) in H.
  by rewrite <- !Z.lxor_assoc, Z.lxor_nilpotent, !Z.lxor_0_l in H.
Qed.

Lemma u64_range z : 0 <= u64 z < 2 ^ 64.
Proof. apply (wrap_range 64). lia. Qed.

Lemma u64_inj a b : - 2 ^ 63 <= a < 2 ^ 63 → - 2 ^ 63 <= b < 2 ^ 63 → u64 a = u64 b ↔ a = b.
Proof. intros Ha Hb. split; [|by intros ->]. unfold u64, wrap. dlia. Qed.

Lemma le_enc_word_inj a b : 0 <= a < 2 ^ 64 → 0 <= b < 2 ^ 64 → le_enc 8 a = le_enc 8 b ↔ a = b.
Proof.
  intros Ha Hb. split; [|by intros ->]. intros H. apply (f_equal le_dec) in H.
  rewrite !le_dec_enc in H. change (8 * Z.of_nat 8) with 64 in H. by rewrite !wrap_small in H.
Qed.

(** A digest as its first two words and the rest. *)
Lemma split_words d : digest_wf d →
  ∃ a b c, d = a ++ b ++ c ∧ length a = 8%nat ∧ length b = 8%nat ∧ Forall is_byte a ∧ Forall is_byte b.
Proof.
  intros [Hl Hb]. unfold DIGEST_SIZE in Hl.
  destruct (take_drop_middle_split 8 8 d) as (a & b & c & -> & Ha & Hb'); [lia|].
  exists a, b, c. apply Forall_app in Hb as [? [? ?]%Forall_app]. done.
Qed.

Section words.
Context (a b c : list Z) (Ha : length a = 8%nat) (Hb : length b = 8%nat).

Lemma word0 : word (a ++ b ++ c) 0 = le_dec a.
Proof. unfold word. simpl. by rewrite drop_0, take_app_length' by lia. Qed.
Lemma word1 : word (a ++ b ++ c) 1 = le_dec b.
Proof.
  unfold word. change (Z.to_nat (8 * 1)) with 8%nat.
  by rewrite drop_app_length', take_app_length' by lia.
Qed.
Lemma set_word0 w : set_word (a ++ b ++ c) 0 w = le_enc 8 w ++ b ++ c.
Proof.
  unfold set_word. change (Z.to_nat (8 * 0)) with 0%nat. rewrite take_0.
  by rewrite drop_app_length' by lia.
Qed.
Lemma set_word1 w : set_word (a ++ b ++ c) 1 w = a ++ le_enc 8 w ++ c.
Proof.
  unfold set_word. change (Z.to_nat (8 * 1)) with 8%nat.
  rewrite take_app_length' by lia. rewrite (app_assoc a b), drop_app_length'; [done|].
  rewrite length_app. lia.
Qed.
End words.

Lemma loc01 d : digest_wf d → (locationA d = 0 ∨ locationA d = 1) ∧ (locationB d = 0 ∨ locationB d = 1).
Proof. intros _. unfold locationA, locationB. change X with 2. split; dlia. Qed.

(** The word operations on a digest split at its words. *)
Ltac words_simpl :=
  repeat first [ rewrite word0 by (done || apply length_le_enc)
    | rewrite word1 by (done || apply length_le_enc)
    | rewrite set_word0 by (done || apply length_le_enc)
    | rewrite set_word1 by (done || apply length_le_enc) ].

Lemma le_dec_enc_lxor w x : 0 <= w < 2 ^ 64 → 0 <= x < 2 ^ 64 →
  le_dec (le_enc 8 (Z.lxor w x)) = Z.lxor w x.
Proof. intros Hw Hx. rewrite le_dec_enc. apply wrap_small. by apply lxor_range. Qed.

Lemma le_dec8_range a : Forall is_byte a → length a = 8%nat → 0 <= le_dec a < 2 ^ 64.
Proof. intros Fa Ha. pose proof (le_dec_range a Fa) as R. by rewrite Ha in R. Qed.

(** When both words are the same one, only the exclusive-or of the two numbers
    enters the result. *)
Lemma calcCombination_same_word d v s : digest_wf d → locationA d = locationB d →
  calcCombination d v s =
  set_word d (locationA d) (Z.lxor (word d (locationA d)) (Z.lxor (u64 v) (u64 s))).
Proof.
  intros Hd Hl. destruct (loc01 d Hd) as [HA _]. unfold calcCombination. rewrite <- Hl.
  destruct (split_words d Hd) as (a & b & c & -> & Ha & Hb & Fa & Fb).
  pose proof (u64_range v). pose proof (u64_range s).
  set (lA := locationA _) in *.
  destruct HA as [-> | ->]; words_simpl; rewrite le_dec_enc_lxor, Z.lxor_assoc by
    (done || by apply le_dec8_range); done.
Qed.

(** two views and sequence numbers combined with the same digest give the same
    signed value exactly when they are the same, if the digest selects two
    different words; when it selects the same word twice (one digest in two),
    exactly when the exclusive-or of view and sequence number is the same. *)
Theorem calcCombination_eq_iff d v s v' s' :
  digest_wf d →
  - 2 ^ 63 <= v < 2 ^ 63 → - 2 ^ 63 <= s < 2 ^ 63 →
  - 2 ^ 63 <= v' < 2 ^ 63 → - 2 ^ 63 <= s' < 2 ^ 63 →
  calcCombination d v s = calcCombination d v' s' ↔
  (if locationA d =? locationB d then Z.lxor (u64 v) (u64 s) = Z.lxor (u64 v') (u64 s')
   else v = v' ∧ s = s').
Proof.
  intros Hd Hv Hs Hv' Hs'. destruct (loc01 d Hd) as [HA HB].
  pose proof (u64_range v). pose proof (u64_range s). pose proof (u64_range v'). pose proof (u64_range s').
  case_match eqn:E; bool_to_prop.
  { rewrite !calcCombination_same_word by done.
    destruct (split_words d Hd) as (a & b & c & -> & Ha & Hb & Fa & Fb).
    destruct HA as [-> | ->]; words_simpl.
    - rewrite (inj_iff (fun x => x ++ b ++ c)), le_enc_word_inj by
        (repeat apply lxor_range; done || by apply le_dec8_range). apply lxor_inj.
    - rewrite (inj_iff (fun x => a ++ x)), (inj_iff (fun x => x ++ c)), le_enc_word_inj by
        (repeat apply lxor_range; done || by apply le_dec8_range). apply lxor_inj. }
  destruct (split_words d Hd) as (a & b & c & -> & Ha & Hb & Fa & Fb).
  assert (∀ x y, length (le_enc 8 x) = length (le_enc 8 y)) as Hlen by (intros; by rewrite !length_le_enc).
  unfold calcCombination. set (lA := locationA _) in *. set (lB := locationB _) in *.
  split; [|by intros [-> ->]].
  destruct HA as [-> | ->], HB as [-> | ->]; try done; words_simpl;
    intros [E1 [E2 _]%app_inj_1]%app_inj_1; try done;
    rewrite le_enc_word_inj, lxor_inj, u64_inj in E1, E2 by
      (done || apply lxor_range; done || by apply le_dec8_range); done.
Qed.

Lemma calcCombination_eq_iff_witness :
  calcCombination (replicate 32 0) 0 3 = calcCombination (replicate 32 0) 1 2 ↔
  Z.lxor (u64 0) (u64 3) = Z.lxor (u64 1) (u64 2).
Proof.
  apply (calcCombination_eq_iff (replicate 32 0) 0 3 1 2); try lia.
  split; [reflexivity|]. apply Forall_replicate. unfold is_byte. lia.
Defined.

(** The same value is signed for view 0, sequence number 3 and for view 1,
    sequence number 2, for every digest whose first two bytes have equal parity. *)
Lemma calcCombination_collision d :
  digest_wf d → locationA d = locationB d →
  calcCombination d 0 3 = calcCombination d 1 2.
Proof. intros Hd Hl. by rewrite !calcCombination_same_word. Qed.

End Digest.
