(* ===== verification/ReplicasInfo.v ===== *)
(** * ReplicasInfo (bftengine/src/bftengine/ReplicasInfo.hpp, .cpp)

    The static view of the cluster: identities, the fault bounds f and c, the
    primary of a view and the collectors of a sequence number.  Arithmetic is
    the code's: [%] truncates ([Z.rem]), results are stored in [int16_t] or
    [uint16_t].  The signature manager is not read by these operations. *)
From S2P Require Import Prelude SysConsts.

Module ReplicasInfo.

Record t := mk {
  _myId : Z;
  _numberOfReplicas : Z;
  _fVal : Z;
  _cVal : Z;
  _dynamicCollectorForPartialProofs : bool;
  _dynamicCollectorForExecutionProofs : bool;
  _idsOfReplicas : list Z;
  _idsOfPeerReplicas : list Z;
}.

(** [std::set<ReplicaId>] iterates in increasing order: an increasing list. *)
Definition generateSetOfReplicas_helpFunc (numberOfReplicas : Z) : list Z :=
  seqZ 0 numberOfReplicas.

Definition generateSetOfPeerReplicas_helpFunc (myId numberOfReplicas : Z) : list Z :=
  filter (fun i => i ≠ myId) (seqZ 0 numberOfReplicas).

Definition ctor (myId numberOfReplicas fVal cVal : Z) (dynPart dynExec : bool) : res t :=
  assert! (numberOfReplicas =? 3 * fVal + 2 * cVal + 1) ;;
  Ok (mk myId numberOfReplicas fVal cVal dynPart dynExec
        (generateSetOfReplicas_helpFunc numberOfReplicas)
        (generateSetOfPeerReplicas_helpFunc myId numberOfReplicas)).

Definition isIdOfReplica (r : t) (id : Z) : bool := id <? _numberOfReplicas r.
Definition isIdOfPeerReplica (r : t) (id : Z) : bool :=
  (id <? _numberOfReplicas r) && negb (id =? _myId r).

Definition primaryOfView (r : t) (view : Z) : Z := u16 (Z.rem view (_numberOfReplicas r)).

(** "ignore primary": skip over the primary's identifier. *)
Definition skipPrimary (n primary collector : Z) : Z :=
  if primary <=? collector then
    let collector := i16 (Z.rem (collector + 1) n) in
    if collector =? primary then i16 (Z.rem (collector + 1) n) else collector
  else collector.

(** Result: whether [refReplica] is a collector, and the array of collectors. *)
Definition getCollectorsForPartialProofs_ref (r : t) (refReplica v seq : Z) : bool * list Z :=
  if negb (_dynamicCollectorForPartialProofs r) then
    let collector := i16 (primaryOfView r v) in
    (collector =? refReplica, [u16 collector])
  else
    let n := _numberOfReplicas r in
    let c := _cVal r in
    let primary := i16 (primaryOfView r v) in
    if c =? 0 then
      let collector := skipPrimary n primary (i16 (Z.rem seq n)) in
      (collector =? refReplica, [u16 collector])
    else
      let half := i16 (Z.quot n 2) in
      let collector1 := i16 (Z.rem seq half) in
      let collector2 := i16 (collector1 + half) in
      let collector1 := skipPrimary n primary collector1 in
      let collector2 := skipPrimary n primary collector2 in
      ((collector1 =? refReplica) || (collector2 =? refReplica),
       [u16 collector1; u16 collector2]).

Definition getCollectorsForPartialProofs (r : t) (v seq : Z) : bool * list Z :=
  getCollectorsForPartialProofs_ref r (_myId r) v seq.

Definition isCollectorForPartialProofs (r : t) (v n : Z) : bool :=
  fst (getCollectorsForPartialProofs r v n).

Definition getExecutionCollectors (r : t) (v seq : Z) : bool * list Z :=
  if negb (_dynamicCollectorForExecutionProofs r) then
    let collector := i16 (primaryOfView r v) in
    (collector =? _myId r, [u16 collector])
  else getCollectorsForPartialProofs r v seq.

(** ** Configurations the constructor accepts *)

(** Identifiers are [uint16_t] and [numberOfReplicas] is a positive [int16_t]. *)
Record wf (r : t) : Prop := {
  wf_n : _numberOfReplicas r = 3 * _fVal r + 2 * _cVal r + 1;
  wf_f : 0 <= _fVal r;
  wf_c : 0 <= _cVal r;
  wf_i16 : _numberOfReplicas r < 32768;
  wf_my : 0 <= _myId r < _numberOfReplicas r;
  wf_all : _idsOfReplicas r = generateSetOfReplicas_helpFunc (_numberOfReplicas r);
  wf_peers : _idsOfPeerReplicas r =
             generateSetOfPeerReplicas_helpFunc (_myId r) (_numberOfReplicas r);
}.

Lemma ctor_wf myId n f c dp de r :
  0 <= f → 0 <= c → n < 32768 → 0 <= myId < n →
  ctor myId n f c dp de = Ok r → wf r.
Proof.
  intros ? ? ? ? H. unfold ctor in H. res_simpl. bool_to_prop. constructor; simpl; auto; lia.
Qed.

Section facts.
Context (r : t) (Hwf : wf r).
#[local] Abbreviation N := (_numberOfReplicas r).

Lemma N_pos : 1 <= N.
Proof. destruct Hwf. lia. Qed.

Lemma primary_range v : 0 <= v → 0 <= primaryOfView r v < N.
Proof.
  intros. pose proof N_pos. pose proof (wf_i16 r Hwf). unfold primaryOfView.
  rewrite Z.rem_mod_nonneg by lia. pose proof (Z.mod_pos_bound v N). rewrite u16_small; lia.
Qed.

Lemma primary_eq v : 0 <= v → primaryOfView r v = v mod N.
Proof.
  intros. pose proof N_pos. pose proof (wf_i16 r Hwf). unfold primaryOfView.
  rewrite Z.rem_mod_nonneg by lia. pose proof (Z.mod_pos_bound v N). rewrite u16_small; lia.
Qed.

(** [skipPrimary] on an in-range collector, as a case distinction. *)
Lemma skipPrimary_eq p k : 2 <= N → 0 <= p < N → 0 <= k < N →
  skipPrimary N p k =
    (if k <? p then k else if k <? N - 1 then k + 1 else if p =? 0 then 1 else 0).
Proof.
  intros HN Hp Hk. pose proof (wf_i16 r Hwf). unfold skipPrimary.
  destruct (Z.leb_spec p k), (Z.ltb_spec k p); try lia.
  rewrite Z.rem_mod_nonneg by lia. destruct (Z.ltb_spec k (N - 1)).
  - rewrite Z.mod_small by lia. rewrite i16_small by lia.
    destruct (Z.eqb_spec (k + 1) p); lia.
  - replace (k + 1) with N by lia. rewrite Z.mod_same by lia.
    change (i16 0) with 0. destruct (Z.eqb_spec 0 p), (Z.eqb_spec p 0); try lia.
    rewrite Z.rem_mod_nonneg, Z.mod_small by lia. reflexivity.
Qed.

Lemma skipPrimary_spec p k : 2 <= N → 0 <= p < N → 0 <= k < N →
  0 <= skipPrimary N p k < N ∧ skipPrimary N p k ≠ p.
Proof.
  intros HN Hp Hk. rewrite skipPrimary_eq by done.
  repeat case_match; bool_to_prop; lia.
Qed.

Definition half : Z := N / 2.

(** The collectors in closed form, for dynamic collection. *)
Lemma collectors_eq ref v seq :
  _dynamicCollectorForPartialProofs r = true → 0 <= v → 0 <= seq → 2 <= N →
  let sk := skipPrimary N (primaryOfView r v) in
  getCollectorsForPartialProofs_ref r ref v seq =
    if _cVal r =? 0 then (sk (seq mod N) =? ref, [sk (seq mod N)])
    else ((sk (seq mod half) =? ref) || (sk (seq mod half + half) =? ref),
          [sk (seq mod half); sk (seq mod half + half)]).
Proof.
  intros Hd Hv Hs HN sk. pose proof (wf_i16 r Hwf). pose proof (primary_range v Hv) as Hp.
  unfold getCollectorsForPartialProofs_ref. rewrite Hd. simpl negb. cbv iota.
  rewrite (i16_small (primaryOfView r v)) by lia. fold sk. unfold half in *.
  assert (∀ k, 0 <= k < N → 0 <= sk k < N) as Hsk
    by (intros; apply skipPrimary_spec; auto).
  assert (∀ k, 0 <= k < N → u16 (sk k) = sk k) as Hu
    by (intros k Hk; specialize (Hsk k Hk); apply u16_small; lia).
  destruct (Z.eqb_spec (_cVal r) 0).
  - rewrite Z.rem_mod_nonneg by lia. pose proof (Z.mod_pos_bound seq N).
    rewrite i16_small by lia. by rewrite Hu by lia.
  - rewrite Z.quot_div_nonneg by lia.
    assert (1 <= N / 2 <= N) by dlia.
    rewrite (i16_small (N / 2)) by lia. rewrite Z.rem_mod_nonneg by lia.
    pose proof (Z.mod_pos_bound seq (N / 2)).
    rewrite (i16_small (seq mod (N / 2))) by lia.
    assert (seq mod (N / 2) + N / 2 < N) by dlia.
    rewrite (i16_small (_ + _)) by lia. by rewrite !Hu by lia.
Qed.
End facts.

(** ** Properties *)

(** with dynamic collectors and more than one replica, the collectors of a
    sequence number are one (c = 0) or two (c > 0) distinct replicas, none of
    them the primary of the view, and the boolean result says whether the
    reference replica is among them. *)
Theorem collectors_spec r ref v seq :
  wf r → _dynamicCollectorForPartialProofs r = true →
  2 <= _numberOfReplicas r → 0 <= v → 0 <= seq →
  let '(b, cs) := getCollectorsForPartialProofs_ref r ref v seq in
  length cs = (if _cVal r =? 0 then 1%nat else 2%nat) ∧ NoDup cs ∧
  Forall (fun k => 0 <= k < _numberOfReplicas r ∧ k ≠ primaryOfView r v) cs ∧
  (b = true ↔ ref ∈ cs).
Proof.
  intros Hwf Hd HN Hv Hs. pose proof (primary_range r Hwf v Hv) as Hp.
  rewrite collectors_eq by done. destruct (Z.eqb_spec (_cVal r) 0) as [Hc|Hc].
  - pose proof (Z.mod_pos_bound seq (_numberOfReplicas r) ltac:(lia)).
    split_and!; [done|apply NoDup_singleton| |].
    + constructor; [|done]. apply skipPrimary_spec; auto.
    + rewrite Z.eqb_eq, list_elem_of_singleton. split; congruence.
  - pose proof (wf_n r Hwf). pose proof (wf_f r Hwf). pose proof (wf_c r Hwf). unfold half.
    set (n := _numberOfReplicas r) in *. set (p := primaryOfView r v) in *.
    assert (0 <= seq mod (n / 2) < n / 2) by (apply Z.mod_pos_bound; dlia).
    assert (3 <= n ∧ 2 * (n / 2) <= n ∧ (n = 3 ∨ 2 <= n / 2)) as (? & ? & ?) by dlia.
    assert (∀ k, 0 <= k < n → 0 <= skipPrimary n p k < n ∧ skipPrimary n p k ≠ p)
      by (intros; apply skipPrimary_spec; auto).
    split_and!; [done| | |].
    + constructor; [|apply NoDup_singleton]. rewrite list_elem_of_singleton.
      rewrite !(skipPrimary_eq r Hwf) by (fold n; lia). fold n.
      repeat case_match; bool_to_prop; lia.
    + repeat constructor; match goal with H : ∀ _, _ |- _ => apply H; lia end.
    + rewrite orb_true_iff, !Z.eqb_eq, elem_of_cons, list_elem_of_singleton. naive_solver.
Qed.

Definition sample (n f c : Z) : t :=
  mk 0 n f c true true (generateSetOfReplicas_helpFunc n) (generateSetOfPeerReplicas_helpFunc 0 n).

Lemma collectors_spec_witness :
  let '(b, cs) := getCollectorsForPartialProofs_ref (sample 6 1 1) 4 1 7 in
  length cs = 2%nat ∧ NoDup cs ∧
  Forall (fun k => 0 <= k < 6 ∧ k ≠ primaryOfView (sample 6 1 1) 1) cs ∧ (b = true ↔ 4 ∈ cs).
Proof.
  apply (collectors_spec (sample 6 1 1) 4 1 7); simpl; try lia.
  constructor; simpl; try reflexivity; lia.
Defined.

(** The sequence-number residue whose collector is the non-primary replica [k]. *)
Lemma skipPrimary_surj r p k : wf r → 2 <= _numberOfReplicas r →
  0 <= p < _numberOfReplicas r → 0 <= k < _numberOfReplicas r → k ≠ p →
  ∃ x, 0 <= x <= _numberOfReplicas r - 2 ∧ skipPrimary (_numberOfReplicas r) p x = k.
Proof.
  intros Hwf HN Hp Hk Hne. exists (if k <? p then k else k - 1).
  split; [case_match; bool_to_prop; lia|].
  destruct (Z.ltb_spec k p); rewrite (skipPrimary_eq r Hwf) by lia;
    repeat case_match; bool_to_prop; lia.
Qed.

Lemma residue_in_window m k s : 0 < m → 0 <= k < m → ∃ x, s <= x < s + m ∧ x mod m = k.
Proof.
  intros Hm Hk. exists (s + (k - s) mod m).
  pose proof (Z.mod_pos_bound (k - s) m Hm). split; [lia|].
  rewrite Zplus_mod_idemp_r. replace (s + (k - s)) with k by lia. by apply Z.mod_small.
Qed.

(** collector duty rotates: within any window of [numberOfReplicas]
    consecutive sequence numbers every replica but the primary is a collector. *)
Theorem collectors_fair r v s k :
  wf r → _dynamicCollectorForPartialProofs r = true →
  2 <= _numberOfReplicas r → 0 <= v → 0 <= s →
  0 <= k < _numberOfReplicas r → k ≠ primaryOfView r v →
  ∃ seq, s <= seq < s + _numberOfReplicas r ∧
         fst (getCollectorsForPartialProofs_ref r k v seq) = true.
Proof.
  intros Hwf Hd HN Hv Hs Hk Hne. pose proof (primary_range r Hwf v Hv) as Hp.
  destruct (skipPrimary_surj r _ k Hwf HN Hp Hk Hne) as (x & Hx & Hsk).
  destruct (Z.eqb_spec (_cVal r) 0) as [Hc|Hc].
  - destruct (residue_in_window (_numberOfReplicas r) x s) as (seq & Hseq & Hm); [lia..|].
    exists seq. split; [done|]. rewrite collectors_eq by (done || lia).
    rewrite Hc, Hm, Hsk. simpl. apply Z.eqb_refl.
  - assert (1 <= half r ∧ x < 2 * half r ∧ half r <= _numberOfReplicas r) as (? & ? & ?)
      by (unfold half; dlia).
    destruct (residue_in_window (half r) (if x <? half r then x else x - half r) s)
      as (seq & Hseq & Hm); [lia|case_match; bool_to_prop; lia|].
    exists seq. split; [lia|]. rewrite collectors_eq by (done || lia).
    rewrite (proj2 (Z.eqb_neq _ _) Hc), Hm. simpl. apply orb_true_iff.
    destruct (Z.ltb_spec x (half r)); [left|right]; apply Z.eqb_eq; rewrite <- Hsk; f_equal; lia.
Qed.

Lemma collectors_fair_witness :
  ∃ seq, 10 <= seq < 14 ∧ fst (getCollectorsForPartialProofs_ref (sample 4 1 0) 2 1 seq) = true.
Proof.
  apply (collectors_fair (sample 4 1 0) 1 10 2); simpl; try lia; try reflexivity; try discriminate.
  constructor; simpl; try reflexivity; lia.
Defined.
End ReplicasInfo.
