(* ===== verification/ActiveWindow.v ===== *)
(** * SequenceWithActiveWindow
    (bftengine/src/bftengine/SequenceWithActiveWindow.hpp)

    A circular array indexed by sequence numbers: the items of the numbers in
    [beginning, beginning + WindowSize) that are multiples of Resolution.  The
    template's [ItemFuncs] parameter is the class [ItemFuncs] below: its users
    (CheckpointInfo, SeqNumInfo) instantiate it and prove its laws, and the
    window's theorems are proved from the laws alone. *)
From S2P Require Import Prelude SysConsts.

(** [ItemFuncs::init], [ItemFuncs::reset] and what the window relies on: [reset]
    keeps an item well formed and leaves it empty. *)
Class ItemFuncs (I : Type) := {
  item_init : I;
  item_reset : I → I;
  item_wf : I → Prop;
  item_empty : I → Prop;
  item_init_wf : item_wf item_init;
  item_reset_wf x : item_wf x → item_wf (item_reset x);
  item_reset_empty x : item_wf x → item_empty (item_reset x);
}.

(** The [static_assert]s on the template parameters. *)
Class WindowParams (WindowSize Resolution : Z) : Prop := {
  win_min : 8 <= WindowSize;
  win_max : WindowSize < 65535;
  res_pos : 1 <= Resolution;
  res_lt : Resolution < WindowSize;
  res_div : WindowSize mod Resolution = 0;
}.

Module ActiveWindow.
Section defs.
Context (WindowSize Resolution : Z) {I : Type} `{!ItemFuncs I}.

Definition numItems : Z := u16 (WindowSize / Resolution).

Record t := mk { beginningOfActiveWindow : Z; activeWindow : list I }.

Definition ctor (windowFirst : Z) : res t :=
  assert! (Z.rem windowFirst Resolution =? 0) ;;
  Ok (mk windowFirst (replicate (Z.to_nat numItems) (item_reset item_init))).

Definition insideActiveWindow (w : t) (n : Z) : bool :=
  (beginningOfActiveWindow w <=? n) && (n <? beginningOfActiveWindow w + WindowSize).

Definition slot (n : Z) : Z := u16 (Z.rem (Z.quot n Resolution) numItems).

(** [get] returns a reference: [get] reads through it, [modify] writes. *)
Definition get (w : t) (n : Z) : res I :=
  assert! (Z.rem n Resolution =? 0) ;;
  assert! (insideActiveWindow w n) ;;
  match activeWindow w !! Z.to_nat (slot n) with
  | Some x => Ok x
  | None => Err OutOfBounds
  end.

Definition modify (w : t) (n : Z) (f : I → I) : res t :=
  x ← get w n;
  Ok (mk (beginningOfActiveWindow w) (<[Z.to_nat (slot n) := f x]> (activeWindow w))).

Definition currentActiveWindow (w : t) : Z * Z :=
  (beginningOfActiveWindow w, beginningOfActiveWindow w + WindowSize - 1).

Definition resetAll (w : t) (windowFirst : Z) : res t :=
  assert! (Z.rem windowFirst Resolution =? 0) ;;
  Ok (mk windowFirst (item_reset <$> activeWindow w)).

(** [for (i = inactiveBegin; i != activeBegin; i = (i + 1) % numItems)]; the
    fuel bounds the number of iterations. *)
Fixpoint reset_loop (fuel : nat) (i activeBegin : Z) (items : list I) (debugNumOfReset : Z)
  : res (list I * Z) :=
  if i =? activeBegin then Ok (items, debugNumOfReset)
  else match fuel with
       | O => Err OutOfFuel
       | S fuel' =>
           reset_loop fuel' (u16 (Z.rem (i + 1) numItems)) activeBegin
             (alter item_reset (Z.to_nat i) items) (u16 (debugNumOfReset + 1))
       end.

Definition advanceActiveWindow (w : t) (newFirst : Z) : res t :=
  let beg := beginningOfActiveWindow w in
  assert! (Z.rem newFirst Resolution =? 0) ;;
  assert! (beg <=? newFirst) ;;
  if newFirst =? beg then Ok w
  else if WindowSize <=? newFirst - beg then resetAll w newFirst
  else
    let inactiveBegin := u16 (Z.rem (Z.quot beg Resolution) numItems) in
    let activeBegin := u16 (Z.rem (Z.quot newFirst Resolution) numItems) in
    let inactiveEnd := u16 (if 0 <? activeBegin then activeBegin - 1 else numItems - 1) in
    let resetSize :=
      u16 (if inactiveBegin <=? inactiveEnd then inactiveEnd - inactiveBegin + 1
           else inactiveEnd + 1 + numItems - inactiveBegin) in
    assert! ((0 <? resetSize) && (resetSize <? numItems)) ;;
    '(items, debugNumOfReset) ←
      reset_loop (Z.to_nat numItems) inactiveBegin activeBegin (activeWindow w) 0;
    assert! (debugNumOfReset =? resetSize) ;;
    Ok (mk newFirst items).

(** ** Invariant *)
Definition aligned (n : Z) : Prop := 0 <= n ∧ n mod Resolution = 0.

Record wf (w : t) : Prop := {
  wf_beg : aligned (beginningOfActiveWindow w);
  wf_len : Z.of_nat (length (activeWindow w)) = numItems;
  wf_items : Forall item_wf (activeWindow w);
}.
End defs.
Arguments t : clear implicits.
Arguments mk {I}.
Arguments beginningOfActiveWindow {I}.
Arguments activeWindow {I}.

Section facts.
Context (W R : Z) {HP : WindowParams W R} {I : Type} `{!ItemFuncs I}.
#[local] Abbreviation K := (numItems W R).
Implicit Types (w : t I) (items : list I).

Lemma numItems_eq : K = W / R ∧ 2 <= K < 65535 ∧ K * R = W.
Proof.
  destruct HP. unfold numItems.
  assert (W = R * (W / R)) by dlia.
  assert (2 <= W / R < 65535) by nia.
  rewrite u16_small by lia. nia.
Qed.

Lemma aligned_rem n : aligned R n → (Z.rem n R =? 0) = true.
Proof.
  destruct HP. intros [? ?]. apply Z.eqb_eq. rewrite Z.rem_mod_nonneg; lia.
Qed.

Lemma aligned_eq n : aligned R n → n = R * (n / R).
Proof. destruct HP. intros [? ?]. dlia. Qed.

Lemma slot_eq n : 0 <= n → slot W R n = (n / R) mod K.
Proof.
  intros. pose proof numItems_eq. destruct HP. unfold slot.
  rewrite Z.quot_div_nonneg by lia.
  rewrite Z.rem_mod_nonneg by (try apply Z.div_pos; lia).
  pose proof (Z.mod_pos_bound (n / R) K). apply u16_small. lia.
Qed.

(** Positions in units of [Resolution]: a window holds [K] of them. *)
Lemma inside_units w n : aligned R (beginningOfActiveWindow w) → aligned R n →
  insideActiveWindow W w n = true ↔
  beginningOfActiveWindow w / R <= n / R < beginningOfActiveWindow w / R + K.
Proof.
  intros Hb Hn. pose proof (aligned_eq _ Hb). pose proof (aligned_eq _ Hn).
  pose proof numItems_eq as (_ & ? & ?). destruct HP. unfold insideActiveWindow.
  rewrite andb_true_iff, Z.leb_le, Z.ltb_lt.
  set (b := beginningOfActiveWindow w) in *. nia.
Qed.

Lemma mod_inj a b s : s <= a < s + K → s <= b < s + K → a mod K = b mod K → a = b.
Proof.
  intros Ha Hb Hm. pose proof numItems_eq as (_ & ? & _).
  rewrite (Z.div_mod a K), (Z.div_mod b K), Hm by lia.
  rewrite (Z.div_mod a K) in Ha by lia. rewrite (Z.div_mod b K), <- Hm in Hb by lia.
  assert (a / K = b / K); [nia|congruence].
Qed.

(** What the loop does to the array: reset the slots of [m] consecutive units
    starting at [s]. *)
Fixpoint reset_range (s : Z) (m : nat) (items : list I) : list I :=
  match m with
  | O => items
  | S m' => reset_range (s + 1) m' (alter item_reset (Z.to_nat (s mod K)) items)
  end.

Lemma reset_range_length s m items : length (reset_range s m items) = length items.
Proof. revert s items. induction m; intros; simpl; [done|]. by rewrite IHm, length_alter. Qed.

Lemma slot_ne a b s : s <= a < s + K → s <= b < s + K → a ≠ b →
  Z.to_nat (a mod K) ≠ Z.to_nat (b mod K).
Proof.
  intros Ha Hb Hne Heq. pose proof numItems_eq as (_ & ? & _). apply Hne.
  apply (mod_inj a b s); [done..|].
  pose proof (Z.mod_pos_bound a K). pose proof (Z.mod_pos_bound b K). lia.
Qed.

Lemma reset_range_outside s m items x :
  s + Z.of_nat m <= x < s + K →
  reset_range s m items !! Z.to_nat (x mod K) = items !! Z.to_nat (x mod K).
Proof.
  revert s items. induction m as [|m IH]; intros s items Hx; simpl; [done|].
  rewrite IH by lia. apply list_lookup_alter_ne. apply (slot_ne s x s); lia.
Qed.

Lemma reset_range_inside s m items x :
  (Z.of_nat m <= K) → s <= x < s + Z.of_nat m →
  reset_range s m items !! Z.to_nat (x mod K) = item_reset <$> items !! Z.to_nat (x mod K).
Proof.
  pose proof numItems_eq as (_ & ? & _).
  revert s items. induction m as [|m IH]; intros s items Hm Hx; simpl; [lia|].
  destruct (decide (x = s)) as [->|Hne].
  - assert ((s + K) mod K = s mod K) as Hmod
      by (replace (s + K) with (s + 1 * K) by lia; apply Z.mod_add; lia).
    pose proof (reset_range_outside (s + 1) m
      (alter item_reset (Z.to_nat (s mod K)) items) (s + K)) as Ho.
    rewrite Hmod in Ho. rewrite Ho by lia.
    apply list_lookup_alter_eq.
  - rewrite IH by lia. f_equal. apply list_lookup_alter_ne.
    apply (slot_ne s x s); lia.
Qed.

Lemma reset_range_wf s m items :
  Forall item_wf items → Forall item_wf (reset_range s m items).
Proof.
  revert s items. induction m; intros; simpl; [done|]. apply IHm.
  apply Forall_alter; [done|]. intros. by apply item_reset_wf.
Qed.

(** The loop terminates within [numItems] iterations and performs
    [reset_range], counting its iterations. *)
Lemma reset_loop_spec fuel s m items c :
  (m <= fuel)%nat → Z.of_nat m < K → 0 <= s → 0 <= c → c + Z.of_nat m < 65536 →
  reset_loop W R fuel (s mod K) ((s + Z.of_nat m) mod K) items c =
    Ok (reset_range s m items, c + Z.of_nat m).
Proof.
  pose proof numItems_eq as (_ & ? & _).
  revert fuel s items c. induction m as [|m IH]; intros fuel s items c Hf Hm Hs Hc Hcm.
  - replace (s + Z.of_nat 0) with s by lia. destruct fuel; simpl; rewrite Z.eqb_refl;
      do 2 f_equal; lia.
  - destruct fuel as [|fuel]; [lia|]. cbn [reset_loop].
    destruct (Z.eqb_spec (s mod K) ((s + Z.of_nat (S m)) mod K)) as [E|_].
    { apply (mod_inj _ _ s) in E; lia. }
    pose proof (Z.mod_pos_bound s K).
    assert (u16 (Z.rem (s mod K + 1) K) = (s + 1) mod K) as ->.
    { rewrite Z.rem_mod_nonneg by lia. rewrite Zplus_mod_idemp_l.
      pose proof (Z.mod_pos_bound (s + 1) K). apply u16_small. lia. }
    replace (s + Z.of_nat (S m)) with ((s + 1) + Z.of_nat m) by lia.
    rewrite (u16_small (c + 1)) by lia. rewrite IH by lia. do 2 f_equal. lia.
Qed.

(** The number of slots to reset, as the code computes it. *)
Lemma resetSize_spec a d : 0 <= a → 0 < d < K →
  let ib := a mod K in let ab := (a + d) mod K in
  let ie := u16 (if 0 <? ab then ab - 1 else K - 1) in
  u16 (if ib <=? ie then ie - ib + 1 else ie + 1 + K - ib) = d.
Proof.
  intros Ha Hd ib ab ie. pose proof numItems_eq as (_ & ? & _).
  assert (0 <= ib < K) by (apply Z.mod_pos_bound; lia).
  assert (0 <= ab < K) by (apply Z.mod_pos_bound; lia).
  assert (ab = ib + d ∨ ab = ib + d - K) as Hab.
  { subst ib ab. rewrite <- Zplus_mod_idemp_l. set (x := a mod K) in *.
    destruct (decide (x + d < K)); [left; apply Z.mod_small; lia|right].
    replace (x + d) with ((x + d - K) + 1 * K) at 1 by lia.
    rewrite Z.mod_add by lia. apply Z.mod_small. lia. }
  assert (ie = (if 0 <? ab then ab - 1 else K - 1)) as ->
    by (subst ie; case_match; bool_to_prop; apply u16_small; lia).
  repeat case_match; bool_to_prop; rewrite u16_small; lia.
Qed.

(** ** Operations under the invariant *)

Lemma win_ctor_wf n : aligned R n → ∃ w, ctor W R n = Ok w ∧ wf W R w ∧
  beginningOfActiveWindow w = n.
Proof.
  intros Hn. unfold ctor. rewrite aligned_rem by done. eexists. split; [done|].
  pose proof numItems_eq as (_ & ? & _). split; [|done]. constructor; simpl; [done| |].
  - rewrite length_replicate. lia.
  - apply Forall_replicate, item_reset_wf, item_init_wf.
Qed.

Lemma get_ok w n : wf W R w → aligned R n → insideActiveWindow W w n = true →
  ∃ x, get W R w n = Ok x ∧ activeWindow w !! Z.to_nat ((n / R) mod K) = Some x ∧ item_wf x.
Proof.
  intros [Hb Hl Hi] Hn Hin. pose proof numItems_eq as (_ & ? & _). unfold get.
  rewrite aligned_rem, Hin by done. simpl. rewrite slot_eq by (destruct Hn; lia).
  pose proof (Z.mod_pos_bound (n / R) K).
  destruct (lookup_lt_is_Some_2 (activeWindow w) (Z.to_nat ((n / R) mod K))) as [x Hx]; [lia|].
  exists x. rewrite Hx. split_and!; [done..|]. by eapply Forall_lookup_1.
Qed.

Lemma get_lookup w n x : 0 <= n → get W R w n = Ok x →
  activeWindow w !! Z.to_nat ((n / R) mod K) = Some x.
Proof.
  intros Hn H. unfold get in H. res_simpl. rewrite slot_eq in H by done.
  case_match; by simplify_eq.
Qed.

Lemma modify_wf w n f : wf W R w → aligned R n → insideActiveWindow W w n = true →
  (∀ x, item_wf x → item_wf (f x)) →
  ∃ x w', get W R w n = Ok x ∧ modify W R w n f = Ok w' ∧ wf W R w' ∧
    beginningOfActiveWindow w' = beginningOfActiveWindow w ∧ get W R w' n = Ok (f x) ∧
    ∀ m, aligned R m → insideActiveWindow W w m = true → m ≠ n → get W R w' m = get W R w m.
Proof.
  intros Hwf Hn Hin Hf. destruct (get_ok w n Hwf Hn Hin) as (x & Hg & Hx & Hwx).
  eexists x, _. unfold modify. rewrite Hg. simpl. split_and!; [done..| | | |].
  - destruct Hwf as [Hb Hl Hi]. constructor; simpl; [done|by rewrite length_insert|].
    apply Forall_insert; auto.
  - done.
  - unfold get, insideActiveWindow in *. simpl. rewrite aligned_rem, Hin by done. simpl.
    rewrite slot_eq by (apply Hn). rewrite list_lookup_insert_eq; [done|].
    by eapply lookup_lt_Some.
  - intros m Hm Hinm Hne. unfold get, insideActiveWindow in *. simpl.
    rewrite aligned_rem, Hinm by done. simpl.
    rewrite !slot_eq by (apply Hn || apply Hm).
    rewrite list_lookup_insert_ne; [done|].
    apply (inside_units w) in Hin; [|by destruct Hwf|done].
    apply (inside_units w) in Hinm; [|by destruct Hwf|done].
    eapply slot_ne; [apply Hin|apply Hinm|]. intros Heq. apply Hne.
    rewrite (aligned_eq n Hn), (aligned_eq m Hm). congruence.
Qed.

Lemma get_outside w n : insideActiveWindow W w n = false ∨ Z.rem n R ≠ 0 → get W R w n = Err AssertFailed.
Proof. intros Hn. unfold get. destruct (Z.eqb_spec (Z.rem n R) 0) as [|Hr]; [|done]. destruct Hn as [->|]; [done|by exfalso]. Qed.

Lemma get_inside w n x : wf W R w → get W R w n = Ok x → aligned R n ∧ insideActiveWindow W w n = true ∧ item_wf x.
Proof.
  intros Hwf Hg. destruct (insideActiveWindow W w n) eqn:Hin; [|by rewrite get_outside in Hg by (by left)].
  destruct (decide (Z.rem n R = 0)) as [Hr|Hr]; [|by rewrite get_outside in Hg by (by right)].
  assert (Hn : aligned R n).
  { pose proof (wf_beg _ _ _ Hwf) as [Hb _]. unfold insideActiveWindow in Hin. bool_to_prop. destruct HP. split; [lia|]. rewrite <- Z.rem_mod_nonneg by lia. done. }
  split_and!; [done|done|]. destruct (get_ok w n Hwf Hn Hin) as (y & Hy & _ & Hw). congruence.
Qed.

(** Writing an item: all others stay. *)
Lemma modify_const w n x : wf W R w → aligned R n → insideActiveWindow W w n = true → item_wf x →
  ∃ w', modify W R w n (fun _ => x) = Ok w' ∧ wf W R w' ∧ beginningOfActiveWindow w' = beginningOfActiveWindow w ∧
    ∀ m, get W R w' m = if decide (m = n) then Ok x else get W R w m.
Proof.
  intros Hwf Hn Hin Hx. destruct (modify_wf w n (fun _ => x) Hwf Hn Hin ltac:(done)) as (y & w' & _ & Hm & Hwf' & Hb & Hg & Ho).
  exists w'. split_and!; [done..|]. intros m. case_decide as Hd; [by subst|].
  assert (Hi : insideActiveWindow W w' m = insideActiveWindow W w m) by (unfold insideActiveWindow; by rewrite Hb).
  destruct (insideActiveWindow W w m) eqn:Him; [|by rewrite !get_outside by (by left)].
  destruct (decide (Z.rem m R = 0)) as [Hr|Hr]; [|by rewrite !get_outside by (by right)].
  apply Ho; [|done|done]. pose proof (wf_beg _ _ _ Hwf) as [Hb0 _]. unfold insideActiveWindow in Him. bool_to_prop. destruct HP. split; [lia|].
  rewrite <- Z.rem_mod_nonneg by lia. done.
Qed.

(** Advancing by less than a window runs the reset loop. *)
Lemma advance_small w nf :
  wf W R w → aligned R nf →
  beginningOfActiveWindow w < nf < beginningOfActiveWindow w + W →
  let a := beginningOfActiveWindow w / R in
  advanceActiveWindow W R w nf =
    Ok (mk nf (reset_range a (Z.to_nat (nf / R - a)) (activeWindow w))) ∧
    0 < nf / R - a < K.
Proof.
  intros [Hb Hl Hi] Hnf Hr a. pose proof numItems_eq as (_ & HK & HKR). destruct HP.
  pose proof (aligned_eq _ Hb) as Hbe. pose proof (aligned_eq _ Hnf) as Hne.
  set (b := beginningOfActiveWindow w) in *.
  assert (0 <= a) by (apply Z.div_pos; destruct Hb; lia).
  assert (0 < nf / R - a < K) as Hd by (subst a; nia).
  split; [|done]. unfold advanceActiveWindow. fold b.
  rewrite aligned_rem by done. rewrite (proj2 (Z.leb_le b nf)) by lia.
  cbn [Assert mbind res_bind].
  rewrite (proj2 (Z.eqb_neq nf b)) by lia. rewrite (proj2 (Z.leb_gt W (nf - b))) by lia.
  fold (slot W R b) (slot W R nf).
  rewrite (slot_eq b), (slot_eq nf) by (apply Hb || apply Hnf).
  fold a. remember (nf / R - a) as d eqn:Hdd.
  assert (nf / R = a + d) as Hq by lia. rewrite !Hq. cbv zeta.
  rewrite (resetSize_spec a d) by lia.
  rewrite (proj2 (Z.ltb_lt 0 d)), (proj2 (Z.ltb_lt d K)) by lia. cbn [Assert mbind res_bind andb].
  replace d with (Z.of_nat (Z.to_nat d)) at 1 by lia.
  rewrite reset_loop_spec by lia. cbn [mbind res_bind].
  rewrite (proj2 (Z.eqb_eq _ _)) by lia. reflexivity.
Qed.

Lemma advance_far w nf :
  wf W R w → aligned R nf → beginningOfActiveWindow w + W <= nf →
  advanceActiveWindow W R w nf = Ok (mk nf (item_reset <$> activeWindow w)).
Proof.
  intros _ Hnf Hr. destruct HP. unfold advanceActiveWindow, resetAll.
  rewrite aligned_rem by done. rewrite (proj2 (Z.leb_le (beginningOfActiveWindow w) nf)) by lia.
  cbn [Assert mbind res_bind]. rewrite (proj2 (Z.eqb_neq _ _)) by lia.
  by rewrite (proj2 (Z.leb_le W _)) by lia.
Qed.

Lemma wf_reset_all w nf : wf W R w → aligned R nf →
  wf W R (mk nf (item_reset <$> activeWindow w)).
Proof.
  intros [_ Hl Hi] Hnf. constructor; simpl; [done|by rewrite length_fmap|].
  apply Forall_fmap. eapply Forall_impl; [exact Hi|]. intros. by apply item_reset_wf.
Qed.

Lemma get_same_slots w w' n :
  insideActiveWindow W w n = true → insideActiveWindow W w' n = true → 0 <= n →
  activeWindow w' !! Z.to_nat ((n / R) mod K) = activeWindow w !! Z.to_nat ((n / R) mod K) →
  get W R w' n = get W R w n.
Proof.
  intros H1 H2 Hn Heq. unfold get. rewrite H1, H2. by rewrite slot_eq, Heq by done.
Qed.

(** Moving the window: the numbers of both windows keep their items, the others get empty ones. *)
Lemma advance_spec w nf :
  wf W R w → aligned R nf → beginningOfActiveWindow w <= nf →
  ∃ w', advanceActiveWindow W R w nf = Ok w' ∧ wf W R w' ∧
    beginningOfActiveWindow w' = nf ∧
    ∀ n, aligned R n → insideActiveWindow W w' n = true →
      if insideActiveWindow W w n then get W R w' n = get W R w n
      else ∃ x, get W R w' n = Ok x ∧ item_empty x.
Proof.
  intros Hwf Hnf Hle. pose proof (wf_beg _ _ _ Hwf) as Hb.
  destruct (decide (nf = beginningOfActiveWindow w)) as [->|Hne].
  { exists w. unfold advanceActiveWindow. rewrite aligned_rem, Z.leb_refl, Z.eqb_refl by done.
    split_and!; [done..|]. intros n _ ->. done. }
  destruct (decide (nf < beginningOfActiveWindow w + W)) as [Hlt|Hge].
  - destruct (advance_small w nf Hwf Hnf) as [-> Hd]; [lia|].
    set (a := beginningOfActiveWindow w / R) in *. eexists. split; [done|].
    assert (wf W R (mk nf (reset_range a (Z.to_nat (nf / R - a)) (activeWindow w)))) as Hwf'.
    { destruct Hwf. constructor; simpl; [done|by rewrite reset_range_length|by apply reset_range_wf]. }
    split_and!; [done..|]. intros n Hn Hin.
    pose proof (proj1 (inside_units _ n (wf_beg _ _ _ Hwf') Hn) Hin) as Hu'. simpl in Hu'.
    destruct (insideActiveWindow W w n) eqn:Ho.
    + apply (inside_units w n Hb Hn) in Ho as Hu. fold a in Hu.
      apply get_same_slots; [done..|apply Hn|]. apply reset_range_outside. lia.
    + assert (¬ (a <= n / R < a + K)) as Hu
        by (intros Hc; apply (inside_units w n Hb Hn) in Hc; congruence).
      destruct (get_ok _ n Hwf' Hn Hin) as (x & Hg & Hx & _). exists x. split; [done|].
      simpl in Hx. replace (n / R) with ((n / R - K) + 1 * K) in Hx by lia.
      rewrite Z.mod_add, reset_range_inside in Hx by lia.
      apply fmap_Some in Hx as (y & Hy & ->). apply item_reset_empty.
      by eapply Forall_lookup_1; [apply Hwf|].
  - rewrite advance_far by (done || lia). eexists. split; [done|].
    pose proof (wf_reset_all w nf Hwf Hnf) as Hwf'. split_and!; [done..|].
    intros n Hn Hin. destruct (insideActiveWindow W w n) eqn:Ho.
    { unfold insideActiveWindow in *. simpl in *. bool_to_prop. lia. }
    destruct (get_ok _ n Hwf' Hn Hin) as (x & Hg & Hx & _). exists x. split; [done|].
    simpl in Hx. rewrite list_lookup_fmap in Hx.
    apply fmap_Some in Hx as (y & Hy & ->). apply item_reset_empty.
    by eapply Forall_lookup_1; [apply Hwf|].
Qed.

(** moving a window forward never fails an assertion of the code and its
    loop terminates; numbers in both windows keep their items, and every
    number that enters the window gets an item that [reset] has emptied. *)
Theorem advanceActiveWindow_spec w nf :
  wf W R w → aligned R nf → beginningOfActiveWindow w <= nf →
  ∃ w', advanceActiveWindow W R w nf = Ok w' ∧ wf W R w' ∧
    beginningOfActiveWindow w' = nf ∧
    ∀ n, aligned R n → insideActiveWindow W w' n = true →
      if insideActiveWindow W w n then get W R w' n = get W R w n
      else ∃ x, get W R w' n = Ok x ∧ item_empty x.
Proof. apply advance_spec. Qed.
End facts.

(** A small instance, for evaluating the definitions. *)
#[local] Instance counter_items : ItemFuncs Z := {|
  item_init := 1; item_reset := fun _ => 0; item_wf := fun _ => True; item_empty := fun x => x = 0;
  item_init_wf := Logic.I; item_reset_wf := fun _ _ => Logic.I;
  item_reset_empty := fun _ _ => eq_refl |}.
#[local] Instance params_8_2 : WindowParams 8 2.
Proof. constructor; lia || reflexivity. Qed.

Lemma advanceActiveWindow_spec_witness :
  ∃ w', advanceActiveWindow 8 2 (mk 6 [11; 12; 13; 14]) 10 = Ok w' ∧ wf 8 2 w' ∧
    beginningOfActiveWindow w' = 10 ∧
    ∀ n, aligned 2 n → insideActiveWindow 8 w' n = true →
      if insideActiveWindow 8 (mk 6 [11; 12; 13; 14]) n
      then get 8 2 w' n = get 8 2 (mk 6 [11; 12; 13; 14]) n
      else ∃ x, get 8 2 w' n = Ok x ∧ item_empty x.
Proof.
  apply (advanceActiveWindow_spec 8 2 (mk 6 [11; 12; 13; 14]) 10).
  - constructor; [split; [simpl; lia|reflexivity]|reflexivity|repeat constructor].
  - split; [lia|reflexivity].
  - simpl. lia.
Defined.

Example advance_example :
  advanceActiveWindow 8 2 (mk 6 [11; 12; 13; 14]) 10 = Ok (mk 10 [0; 12; 13; 0]).
Proof. vm_compute. reflexivity. Qed.
End ActiveWindow.
