(* ===== verification/MsgsCertificate.v ===== *)
(** * MsgsCertificate (bftengine/src/bftengine/MsgsCertificate.hpp)

    Collects one message per replica, groups the messages into classes of
    equivalent ones and becomes complete when the largest class is large enough.
    The template parameters [SelfTrust], [SelfIsRequired] and
    [ExternalFunc::equivalent] are section variables ([KeepAllMsgs] is statically
    [true]).  Checkpoint certificates use [SelfTrust = SelfIsRequired = true],
    the client's reply certificate uses [false] for both. *)
From S2P Require Import Prelude SysConsts.

(** What a certificate relies on of [ExternalFunc::equivalent]. *)
Class MsgEquiv {T : Type} (equivalent : T → T → bool) : Prop := {
  equivalent_refl m : equivalent m m = true;
  equivalent_sym a b : equivalent a b = equivalent b a;
  equivalent_trans a b c : equivalent a b = true → equivalent b c = true → equivalent a c = true;
}.

Module MsgsCertificate.

Definition NULL_CLASS : Z := 65535.

Record MsgClassInfo := mkClass { size : Z; representativeReplica : Z }.

(** The [const] members. *)
Record config := mkConfig { numOfReps : Z; maxFails : Z; required : Z; selfId : Z }.

Record t (T : Type) := mk {
  msgsFromReplicas : gmap Z T;
  msgClasses : list MsgClassInfo;
  numOfClasses : Z;
  complete : bool;
  bestClass : Z;
  sizeOfBestClass : Z;
  hasTrustedSelfClass : bool;
}.
Arguments mk {T}.
Arguments msgsFromReplicas {T}.
Arguments msgClasses {T}.
Arguments numOfClasses {T}.
Arguments complete {T}.
Arguments bestClass {T}.
Arguments sizeOfBestClass {T}.
Arguments hasTrustedSelfClass {T}.

Section defs.
Context {T : Type} (equivalent : T → T → bool) (SelfTrust SelfIsRequired : bool) (cfg : config).

Definition zeroClass : MsgClassInfo := mkClass 0 0.

Definition ctor : t T :=
  mk ∅ (replicate (Z.to_nat (numOfReps cfg)) zeroClass) 0 false NULL_CLASS 0 false.

Definition isEmpty (c : t T) : bool := bool_decide (msgsFromReplicas c = ∅).

(** [memset(msgClasses, 0, n * sizeof(MsgClassInfo))] *)
Definition memset_classes (n : Z) (l : list MsgClassInfo) : list MsgClassInfo :=
  replicate (Z.to_nat n) zeroClass ++ drop (Z.to_nat n) l.

Definition resetAndFree (c : t T) : t T :=
  if bool_decide (msgsFromReplicas c = ∅) then
    mk (msgsFromReplicas c) (msgClasses c) (numOfClasses c) false (bestClass c)
       (sizeOfBestClass c) (hasTrustedSelfClass c)
  else
    mk ∅ (if 0 <? numOfClasses c then memset_classes (numOfClasses c) (msgClasses c)
          else msgClasses c)
       0 false NULL_CLASS 0 false.

Definition hasMsgFromReplica (c : t T) (replicaId : Z) : bool :=
  bool_decide (is_Some (msgsFromReplicas c !! replicaId)).

Definition isComplete (c : t T) : bool := complete c.
Definition isInconsistent (c : t T) : bool := maxFails cfg + 1 <=? numOfClasses c.
Definition selfMsg (c : t T) : option T := msgsFromReplicas c !! selfId cfg.

Definition tryToMarkComplete (c : t T) : t T :=
  if negb SelfIsRequired || hasMsgFromReplica c (selfId cfg) then
    mk (msgsFromReplicas c) (msgClasses c) (numOfClasses c) true (bestClass c)
       (sizeOfBestClass c) (hasTrustedSelfClass c)
  else c.

Definition class_at (c : t T) (i : Z) : res MsgClassInfo :=
  match msgClasses c !! Z.to_nat i with Some x => Ok x | None => Err OutOfBounds end.

(** [msgsFromReplicas.find(...)->second]: the iterator is not checked. *)
Definition msg_of (c : t T) (replicaId : Z) : res T :=
  match msgsFromReplicas c !! replicaId with Some m => Ok m | None => Err OutOfBounds end.

Definition set_class (c : t T) (i : Z) (x : MsgClassInfo) : t T :=
  mk (msgsFromReplicas c) (<[Z.to_nat i := x]> (msgClasses c)) (numOfClasses c) (complete c)
     (bestClass c) (sizeOfBestClass c) (hasTrustedSelfClass c).

Definition set_best (c : t T) (b s : Z) : t T :=
  mk (msgsFromReplicas c) (msgClasses c) (numOfClasses c) (complete c) b s
     (hasTrustedSelfClass c).

(** [cls.size = cls.size + 1] *)
Definition bump (c : t T) (i : Z) : res (t T) :=
  x ← class_at c i;
  Ok (set_class c i (mkClass (u16 (size x + 1)) (representativeReplica x))).

(** "looking for a class": the first of the [n] classes from index [i] whose
    representative's message is equivalent to [msg]; [NULL_CLASS] if none. *)
Fixpoint find_class (c : t T) (msg : T) (n : nat) (i : Z) : res Z :=
  match n with
  | O => Ok NULL_CLASS
  | S n' =>
      x ← class_at c i;
      rep ← msg_of c (representativeReplica x);
      if equivalent rep msg then Ok i else find_class c msg n' (i + 1)
  end.

(** The tail of [addPeerMsg], after a class has been looked for. *)
Definition addToClass (c : t T) (relevantClass replicaId : Z) : res (t T) :=
  if relevantClass =? NULL_CLASS then
    if numOfReps cfg <=? numOfClasses c then Ok c
    else
      let relevantClass := numOfClasses c in
      let c1 := mk (msgsFromReplicas c) (<[Z.to_nat relevantClass := mkClass 1 replicaId]> (msgClasses c))
                   (u16 (numOfClasses c + 1)) (complete c) (bestClass c) (sizeOfBestClass c)
                   (hasTrustedSelfClass c) in
      if bestClass c1 =? NULL_CLASS then Ok (set_best c1 relevantClass 1) else Ok c1
  else
    cls ← class_at c relevantClass;
    let c1 := if sizeOfBestClass c <? size cls then set_best c relevantClass (size cls) else c in
    if (relevantClass =? bestClass c1) && (required cfg <=? sizeOfBestClass c1)
    then Ok (tryToMarkComplete c1) else Ok c1.

Definition addPeerMsg (c : t T) (msg : T) (replicaId : Z) : res (t T) :=
  if hasTrustedSelfClass c then
    cls ← class_at c 0;
    rep ← msg_of c (representativeReplica cls);
    if negb (equivalent rep msg) then Ok c
    else c1 ← bump c 0; addToClass c1 0 replicaId
  else
    relevantClass ← find_class c msg (Z.to_nat (numOfClasses c)) 0;
    if relevantClass =? NULL_CLASS then addToClass c NULL_CLASS replicaId
    else c1 ← bump c relevantClass; addToClass c1 relevantClass replicaId.

Definition addSelfMsg (c : t T) (msg : T) : res (t T) :=
  relevantClass ← find_class c msg (Z.to_nat (numOfClasses c)) 0;
  c1 ← (if relevantClass =? NULL_CLASS then Ok c else bump c relevantClass);
  classSize ← (if relevantClass =? NULL_CLASS then Ok 1
               else cls ← class_at c1 relevantClass; Ok (u16 (size cls + 1)));
  let classInfo := mkClass classSize (selfId cfg) in
  let classes := <[0%nat := classInfo]> (memset_classes (numOfClasses c1) (msgClasses c1)) in
  let c2 := mk (msgsFromReplicas c1) classes 1 (complete c1) 0 classSize true in
  if required cfg <=? classSize then Ok (tryToMarkComplete c2) else Ok c2.

Definition addMsg (c : t T) (msg : T) (replicaId : Z) : res (bool * t T) :=
  if hasMsgFromReplica c replicaId then Ok (false, c)
  else
    let c1 := mk (<[replicaId := msg]> (msgsFromReplicas c)) (msgClasses c) (numOfClasses c)
                 (complete c) (bestClass c) (sizeOfBestClass c) (hasTrustedSelfClass c) in
    if negb (complete c1) then
      c2 ← (if SelfTrust then
              if replicaId =? selfId cfg then addSelfMsg c1 msg else addPeerMsg c1 msg replicaId
            else addPeerMsg c1 msg replicaId);
      Ok (true, c2)
    else Ok (true, c1).

Definition bestCorrectMsg (c : t T) : res (option T) :=
  if hasTrustedSelfClass c || (maxFails cfg + 1 <=? sizeOfBestClass c) then
    mci ← class_at c (bestClass c);
    m ← msg_of c (representativeReplica mci);
    Ok (Some m)
  else Ok None.

(** A run of the certificate: the messages in order of arrival. *)
Fixpoint addMsgs (c : t T) (ms : list (T * Z)) : res (t T) :=
  match ms with
  | [] => Ok c
  | (m, r) :: ms' => '(_, c') ← addMsg c m r; addMsgs c' ms'
  end.

(** ** Counting and the invariant *)

(** The number of replicas whose recorded message is equivalent to [m]. *)
Definition supporters (msgs : gmap Z T) (m : T) : Z :=
  Z.of_nat (base.size (filter (fun p => equivalent m p.2 = true) msgs)).

(** Double counting of the own message, see [addSelfMsg]. *)
Definition slack (c : t T) : Z := if hasTrustedSelfClass c then 1 else 0.

Record class_ok (c : t T) (x : MsgClassInfo) (m : T) : Prop := {
  co_msg : msgsFromReplicas c !! representativeReplica x = Some m;
  co_pos : 1 <= size x;
  co_size : size x <= supporters (msgsFromReplicas c) m + slack c;
  co_exact : complete c = false → hasTrustedSelfClass c = false →
             size x = supporters (msgsFromReplicas c) m;
}.

Record inv (c : t T) : Prop := {
  inv_len : Z.of_nat (length (msgClasses c)) = numOfReps cfg;
  inv_dom : dom (msgsFromReplicas c) ⊆ list_to_set (seqZ 0 (numOfReps cfg));
  inv_num : 0 <= numOfClasses c <= numOfReps cfg;
  inv_class : ∀ i, 0 <= i < numOfClasses c →
    ∃ x m, msgClasses c !! Z.to_nat i = Some x ∧ class_ok c x m;
  inv_distinct : ∀ i j x y m m', 0 <= i < numOfClasses c → 0 <= j < numOfClasses c →
    msgClasses c !! Z.to_nat i = Some x → msgClasses c !! Z.to_nat j = Some y →
    msgsFromReplicas c !! representativeReplica x = Some m →
    msgsFromReplicas c !! representativeReplica y = Some m' →
    equivalent m m' = true → i = j;
  inv_cover : complete c = false → hasTrustedSelfClass c = false →
    ∀ r m, msgsFromReplicas c !! r = Some m →
    ∃ i x m', 0 <= i < numOfClasses c ∧ msgClasses c !! Z.to_nat i = Some x ∧
      msgsFromReplicas c !! representativeReplica x = Some m' ∧ equivalent m' m = true;
  inv_best0 : numOfClasses c = 0 →
    bestClass c = NULL_CLASS ∧ sizeOfBestClass c = 0 ∧ hasTrustedSelfClass c = false;
  inv_best : 0 < numOfClasses c →
    0 <= bestClass c < numOfClasses c ∧
    (∃ x, msgClasses c !! Z.to_nat (bestClass c) = Some x ∧ size x = sizeOfBestClass c) ∧
    ∀ i x, 0 <= i < numOfClasses c → msgClasses c !! Z.to_nat i = Some x →
      size x <= sizeOfBestClass c;
  inv_complete : complete c = true →
    0 < numOfClasses c ∧ required cfg <= sizeOfBestClass c;
  inv_trusted : hasTrustedSelfClass c = true →
    SelfTrust = true ∧ numOfClasses c = 1 ∧
    ∃ x, msgClasses c !! 0%nat = Some x ∧ representativeReplica x = selfId cfg;
  inv_incomplete : complete c = false →
    SelfIsRequired = false ∨ hasTrustedSelfClass c = true → 2 <= required cfg →
    sizeOfBestClass c < required cfg;
  inv_self : SelfTrust = true → hasTrustedSelfClass c = false → complete c = false →
    msgsFromReplicas c !! selfId cfg = None;
}.

(** Constructor arguments for which no [uint16_t] counter can wrap, and the
    template's [static_assert].  Where the own message is not trusted [selfId] may be
    any number: the certificate of a client is made with its client id. *)
Record cfg_ok : Prop := {
  cfg_reps : 1 <= numOfReps cfg <= 65533;
  cfg_self : SelfTrust = true → 0 <= selfId cfg < numOfReps cfg;
  cfg_req : SelfIsRequired = true → SelfTrust = true;
}.
End defs.

Section facts.
Context {T : Type} (equivalent : T → T → bool) {HE : MsgEquiv equivalent}.
Context (SelfTrust SelfIsRequired : bool) (cfg : config).
Context (Hcfg : cfg_ok SelfTrust SelfIsRequired cfg).
#[local] Abbreviation inv := (inv equivalent SelfTrust SelfIsRequired cfg).
#[local] Abbreviation supporters := (supporters equivalent).
Implicit Types (c : t T) (msgs : gmap Z T).

Lemma supporters_insert msgs r m msg : msgs !! r = None →
  supporters (<[r := msg]> msgs) m = supporters msgs m + (if equivalent m msg then 1 else 0).
Proof.
  intros Hr. unfold MsgsCertificate.supporters.
  destruct (equivalent m msg) eqn:E.
  - rewrite map_filter_insert_True by done.
    rewrite map_size_insert_None; [lia|].
    apply map_lookup_filter_None_2. by left.
  - rewrite map_filter_insert_False by (simpl; congruence).
    rewrite delete_id by done. lia.
Qed.

Lemma supporters_equiv msgs m m' : equivalent m m' = true → supporters msgs m = supporters msgs m'.
Proof.
  intros Hm. unfold MsgsCertificate.supporters. do 2 f_equal. apply map_filter_ext.
  intros i x _. simpl. split; intros Hx.
  - eapply equivalent_trans; [|exact Hx]. by rewrite equivalent_sym.
  - by eapply equivalent_trans.
Qed.

Lemma dom_size msgs : dom msgs ⊆ (list_to_set (seqZ 0 (numOfReps cfg)) : gset Z) →
  Z.of_nat (base.size msgs) <= numOfReps cfg.
Proof.
  intros Hd. destruct Hcfg as [[? ?] _ _].
  rewrite <- size_dom. apply subseteq_size in Hd.
  rewrite size_list_to_set in Hd by apply NoDup_seqZ.
  rewrite length_seqZ in Hd. lia.
Qed.

Lemma supporters_le msgs m : dom msgs ⊆ (list_to_set (seqZ 0 (numOfReps cfg)) : gset Z) →
  supporters msgs m <= numOfReps cfg.
Proof.
  intros Hd. etrans; [|by apply dom_size]. unfold MsgsCertificate.supporters.
  apply Nat2Z.inj_le. apply map_subseteq_size. apply map_filter_subseteq.
Qed.

Lemma supporters_pos msgs r m msg : msgs !! r = Some msg → equivalent m msg = true →
  1 <= supporters msgs m.
Proof.
  intros Hr He. unfold MsgsCertificate.supporters.
  assert (base.size (filter (fun p => equivalent m p.2 = true) msgs) ≠ 0%nat); [|lia].
  intros H0. apply map_size_empty_iff in H0.
  assert (filter (fun p => equivalent m p.2 = true) msgs !! r = None) as Hn by (by rewrite H0).
  rewrite map_lookup_filter_None in Hn. destruct Hn as [Hn|Hn]; [congruence|].
  by apply (Hn msg Hr).
Qed.

Lemma inv_ctor : inv (ctor cfg).
Proof.
  destruct Hcfg as [[? ?] ? ?]. unfold ctor.
  constructor; simpl; try (intros; lia || set_solver || done).
  rewrite length_replicate. lia.
Qed.

(** The class search, given that every class has its representative's message. *)
Lemma find_class_spec c msg n i :
  Z.of_nat n + i < NULL_CLASS → 0 <= i →
  (∀ k, i <= k < i + Z.of_nat n → ∃ x m, msgClasses c !! Z.to_nat k = Some x ∧
     msgsFromReplicas c !! representativeReplica x = Some m) →
  ∃ k, find_class equivalent c msg n i = Ok k ∧
    ((k = NULL_CLASS ∧ ∀ j x m, i <= j < i + Z.of_nat n → msgClasses c !! Z.to_nat j = Some x →
        msgsFromReplicas c !! representativeReplica x = Some m → equivalent m msg = false) ∨
     (i <= k < i + Z.of_nat n ∧ ∃ x m, msgClasses c !! Z.to_nat k = Some x ∧
        msgsFromReplicas c !! representativeReplica x = Some m ∧ equivalent m msg = true)).
Proof.
  revert i. induction n as [|n IH]; intros i Hn Hi Hok; simpl.
  { eexists. split; [done|]. left. split; [done|]. intros. lia. }
  destruct (Hok i) as (x & m & Hx & Hm); [lia|].
  unfold class_at, msg_of. rewrite Hx. simpl. rewrite Hm. simpl.
  destruct (equivalent m msg) eqn:E.
  { exists i. split; [done|]. right. split; [lia|]. eauto. }
  destruct (IH (i + 1)) as (k & -> & Hk); [lia|lia|intros; apply Hok; lia|].
  exists k. split; [done|]. destruct Hk as [[-> Hk]|[Hr Hk]].
  - left. split; [done|]. intros j y m' Hj Hy Hm'.
    destruct (decide (j = i)) as [->|]; [congruence|]. eapply Hk; eauto. lia.
  - right. split; [lia|done].
Qed.

(** *** The state right after the message has been recorded *)
Section step.
Context (c : t T) (msg : T) (r : Z).
Context (Hinv : inv c) (Hr : msgsFromReplicas c !! r = None) (Hrr : 0 <= r < numOfReps cfg).
#[local] Abbreviation msgs' := (<[r := msg]> (msgsFromReplicas c)).

Lemma dom_step : dom msgs' ⊆ (list_to_set (seqZ 0 (numOfReps cfg)) : gset Z).
Proof.
  rewrite dom_insert_L. pose proof (inv_dom _ _ _ _ _ Hinv).
  assert (r ∈ (list_to_set (seqZ 0 (numOfReps cfg)) : gset Z)); [|set_solver].
  apply elem_of_list_to_set, elem_of_seqZ. lia.
Qed.

Lemma rep_ne x m : msgsFromReplicas c !! representativeReplica x = Some m →
  msgs' !! representativeReplica x = Some m.
Proof. intros Hx. rewrite lookup_insert_ne; [done|]. congruence. Qed.

Lemma rep_back x m : msgs' !! representativeReplica x = Some m → representativeReplica x ≠ r →
  msgsFromReplicas c !! representativeReplica x = Some m.
Proof. intros Hx Hne. by rewrite lookup_insert_ne in Hx. Qed.

Lemma num_lt : hasTrustedSelfClass c = false → numOfClasses c < NULL_CLASS.
Proof.
  intros _. pose proof (inv_num _ _ _ _ _ Hinv). destruct Hcfg. unfold NULL_CLASS. lia.
Qed.

(** Sizes stay far from the [uint16_t] limit. *)
Lemma size_bound x m : class_ok equivalent c x m → 1 <= size x <= numOfReps cfg + 1.
Proof.
  intros [? ? Hs _]. pose proof (supporters_le (msgsFromReplicas c) m (inv_dom _ _ _ _ _ Hinv)).
  unfold slack in Hs. destruct (hasTrustedSelfClass c); lia.
Qed.

(** Classes other than the one that grows stay accurate. *)
Lemma class_ok_other x m cp b s h (cls : list MsgClassInfo) n :
  class_ok equivalent c x m → (h = hasTrustedSelfClass c) →
  (complete c = true → cp = true) →
  (equivalent m msg = false ∨ complete c = true ∨ h = true) →
  class_ok equivalent (mk msgs' cls n cp b s h) x m.
Proof.
  intros [Hm Hp Hs He] -> Hcp Hd. constructor; simpl.
  - by apply rep_ne.
  - done.
  - unfold slack in *. simpl. rewrite supporters_insert by done.
    destruct (equivalent m msg); lia.
  - intros -> Hh. destruct Hd as [Hd|[Hd|Hd]]; [|by specialize (Hcp Hd)|congruence].
    rewrite supporters_insert, Hd, Z.add_0_r by done. apply He; [|done].
    destruct (complete c); [by specialize (Hcp eq_refl)|done].
Qed.

Lemma class_ok_grow x m cp b s h (cls : list MsgClassInfo) n :
  class_ok equivalent c x m → complete c = false → (h = hasTrustedSelfClass c) →
  equivalent m msg = true →
  class_ok equivalent (mk msgs' cls n cp b s h)
    (mkClass (size x + 1) (representativeReplica x)) m.
Proof.
  intros [Hm Hp Hs He] Hc -> Hd. constructor; simpl.
  - by apply rep_ne.
  - lia.
  - unfold slack in *. simpl. rewrite supporters_insert, Hd by done. lia.
  - intros _ Hh. rewrite supporters_insert, Hd, He by done. done.
Qed.

(** A message that joins no class: complete certificates and messages that
    disagree with the trusted own message. *)
Lemma inv_record_only :
  complete c = true ∨ hasTrustedSelfClass c = true →
  (SelfTrust = true → complete c = false → r ≠ selfId cfg) →
  inv (mk msgs' (msgClasses c) (numOfClasses c) (complete c) (bestClass c)
          (sizeOfBestClass c) (hasTrustedSelfClass c)).
Proof.
  intros Hd Hself. destruct Hinv as [Hlen Hdom Hnum Hcls Hdis Hcov Hb0 Hb Hco Htr Hinc Hse].
  constructor; simpl; try done.
  - by apply dom_step.
  - intros i Hi. destruct (Hcls i Hi) as (x & m & Hx & Hok). exists x, m. split; [done|].
    by apply class_ok_other; auto.
  - intros i j x y m m' Hi Hj Hx Hy Hm Hm' He.
    destruct (Hcls i Hi) as (x' & mx & Hx' & Hokx). simplify_eq.
    destruct (Hcls j Hj) as (y' & my & Hy' & Hoky). simplify_eq.
    pose proof (rep_ne _ _ (co_msg _ _ _ _ Hokx)). pose proof (rep_ne _ _ (co_msg _ _ _ _ Hoky)).
    simplify_eq. eapply (Hdis i j x y); eauto using co_msg.
  - intros Hc Hh. destruct Hd; congruence.
  - intros HS Hh Hc. destruct Hd; congruence.
Qed.

(** A message that joins class [k]. *)
Lemma inv_grow k x m cp b s :
  complete c = false → 0 <= k < numOfClasses c →
  msgClasses c !! Z.to_nat k = Some x → class_ok equivalent c x m → equivalent m msg = true →
  (b, s) = (if sizeOfBestClass c <? size x + 1 then (k, size x + 1)
            else (bestClass c, sizeOfBestClass c)) →
  (cp = true → required cfg <= s) →
  (cp = false → SelfIsRequired = false ∨ hasTrustedSelfClass c = true →
     2 <= required cfg → s < required cfg) →
  (SelfTrust = true → hasTrustedSelfClass c = false → r ≠ selfId cfg) →
  inv (mk msgs' (<[Z.to_nat k := mkClass (size x + 1) (representativeReplica x)]> (msgClasses c))
          (numOfClasses c) cp b s (hasTrustedSelfClass c)).
Proof.
  intros Hc Hk Hx Hok Hm Hbs Hcp1 Hcp0 Hself.
  destruct Hinv as [Hlen Hdom Hnum Hcls Hdis Hcov Hb0 Hb Hco Htr Hinc Hse].
  assert (Z.to_nat k < length (msgClasses c))%nat as Hlt by (by eapply lookup_lt_Some).
  assert (∀ i y, <[Z.to_nat k := mkClass (size x + 1) (representativeReplica x)]> (msgClasses c)
                   !! Z.to_nat i = Some y → 0 <= i →
            (i = k ∧ y = mkClass (size x + 1) (representativeReplica x)) ∨
            (i ≠ k ∧ msgClasses c !! Z.to_nat i = Some y)) as Hins.
  { intros i y Hy Hi. destruct (decide (i = k)) as [->|Hne].
    - rewrite list_lookup_insert_eq in Hy by done. left. by simplify_eq.
    - right. rewrite list_lookup_insert_ne in Hy by lia. done. }
  constructor; simpl; try done.
  - by rewrite length_insert.
  - by apply dom_step.
  - intros i Hi. destruct (decide (i = k)) as [->|Hne].
    + eexists _, m. rewrite list_lookup_insert_eq by done. split; [done|].
      by apply class_ok_grow.
    + destruct (Hcls i Hi) as (y & my & Hy & Hoky). exists y, my.
      rewrite list_lookup_insert_ne by lia. split; [done|].
      apply class_ok_other; [done|done|congruence|].
      destruct (equivalent my msg) eqn:E; [|by left]. exfalso. apply Hne.
      eapply (Hdis i k); eauto using co_msg. eapply equivalent_trans; [exact E|].
      by rewrite equivalent_sym.
  - intros i j y z my mz Hi Hj Hy Hz Hmy Hmz He.
    destruct (Hcls i Hi) as (y' & my' & Hy' & Hoky). destruct (Hcls j Hj) as (z' & mz' & Hz' & Hokz).
    pose proof (rep_ne _ _ (co_msg _ _ _ _ Hoky)). pose proof (rep_ne _ _ (co_msg _ _ _ _ Hokz)).
    apply Hins in Hy; [|lia]. apply Hins in Hz; [|lia].
    destruct Hy as [[-> ->]|[? Hy]], Hz as [[-> ->]|[? Hz]]; simplify_eq/=;
      eapply Hdis; eauto using co_msg.
  - intros _ Hh r' m'. rewrite lookup_insert_Some. intros [[<- <-]|[Hne Hm']].
    + exists k, (mkClass (size x + 1) (representativeReplica x)), m.
      rewrite list_lookup_insert_eq by done. simpl.
      split_and!; [lia|lia|done|apply rep_ne, Hok|done].
    + destruct (Hcov Hc Hh r' m' Hm') as (i & y & my & Hi & Hy & Hmy & He).
      destruct (decide (i = k)) as [->|Hik].
      * assert (y = x) as -> by congruence.
        exists k, (mkClass (size x + 1) (representativeReplica x)), my.
        rewrite list_lookup_insert_eq by done. simpl. split_and!; try lia; auto using rep_ne.
      * exists i, y, my. rewrite list_lookup_insert_ne by lia.
        split_and!; try lia; auto using rep_ne.
  - intros. lia.
  - intros Hn. destruct (Hb Hn) as (Hbr & (xb & Hxb & Hsb) & Hmax).
    pose proof (Hmax k x Hk Hx) as Hkm.
    destruct (Z.ltb_spec (sizeOfBestClass c) (size x + 1)); simplify_eq.
    + split_and!; [lia|lia| |].
      * eexists. by rewrite list_lookup_insert_eq.
      * intros i y Hi Hy. destruct (Hins i y Hy ltac:(lia)) as [[-> ->]|[? Hy']]; simpl; [lia|].
        pose proof (Hmax i y Hi Hy'). lia.
    + split_and!; [lia|lia| |].
      * destruct (decide (bestClass c = k)) as [Hbk|].
        { rewrite Hbk in Hxb. simplify_eq. lia. }
        exists xb. rewrite list_lookup_insert_ne by lia. done.
      * intros i y Hi Hy. destruct (Hins i y Hy ltac:(lia)) as [[-> ->]|[? Hy']]; simpl; [lia|].
        by eapply Hmax.
  - intros ->. split; [lia|auto].
  - intros Hh. destruct (Htr Hh) as (? & ? & y & Hy & Hsy). split_and!; [done..|].
    assert (k = 0) as -> by lia. change (Z.to_nat 0) with 0%nat in *. simplify_eq.
    eexists. rewrite list_lookup_insert_eq by done. done.
  - intros HS Hh _. rewrite lookup_insert_ne by auto. auto.
Qed.

(** Representatives of different classes are different replicas. *)
Lemma num_classes_le : numOfClasses c <= Z.of_nat (base.size (msgsFromReplicas c)).
Proof.
  pose proof (inv_len _ _ _ _ _ Hinv). pose proof (inv_num _ _ _ _ _ Hinv).
  pose (reps := representativeReplica <$> take (Z.to_nat (numOfClasses c)) (msgClasses c)).
  assert (∀ i rp, reps !! i = Some rp → ∃ x m, (i < Z.to_nat (numOfClasses c))%nat ∧
     msgClasses c !! i = Some x ∧ representativeReplica x = rp ∧
     msgsFromReplicas c !! rp = Some m) as Hreps.
  { intros i rp Hi. apply list_lookup_fmap_Some in Hi as (x & -> & Hx).
    apply lookup_take_Some in Hx as [Hx Hi].
    destruct (inv_class _ _ _ _ _ Hinv (Z.of_nat i)) as (y & m & Hy & Hok); [lia|].
    rewrite Nat2Z.id in Hy. assert (y = x) as -> by congruence.
    exists x, m. split_and!; [lia|done|done|apply Hok]. }
  assert (NoDup reps) as Hnd.
  { apply NoDup_alt. intros i j rp Hi Hj.
    apply Hreps in Hi as (x & m & Hi & Hx & Hrx & Hm).
    apply Hreps in Hj as (y & m' & Hj & Hy & Hry & Hm').
    assert (m' = m) as -> by congruence. apply Nat2Z.inj.
    apply (inv_distinct _ _ _ _ _ Hinv (Z.of_nat i) (Z.of_nat j) x y m m);
      rewrite ?Nat2Z.id; try done; try lia; try congruence. apply equivalent_refl. }
  assert (list_to_set reps ⊆ dom (msgsFromReplicas c)) as Hsub.
  { intros rp. rewrite elem_of_list_to_set, list_elem_of_lookup. intros (i & Hi).
    apply Hreps in Hi as (x & m & _ & _ & _ & Hm). by apply elem_of_dom_2 in Hm. }
  apply subseteq_size in Hsub. rewrite size_list_to_set, size_dom in Hsub by done.
  unfold reps in Hsub. rewrite length_fmap, length_take in Hsub. lia.
Qed.

Lemma num_classes_lt : numOfClasses c < numOfReps cfg.
Proof.
  pose proof num_classes_le. pose proof (dom_size _ dom_step) as Hd.
  rewrite map_size_insert_None in Hd by done. lia.
Qed.

(** No supporter without a class. *)
Lemma no_supporters : complete c = false → hasTrustedSelfClass c = false →
  (∀ j x m, 0 <= j < numOfClasses c → msgClasses c !! Z.to_nat j = Some x →
     msgsFromReplicas c !! representativeReplica x = Some m → equivalent m msg = false) →
  supporters (msgsFromReplicas c) msg = 0.
Proof.
  intros Hc Hh Hno. unfold MsgsCertificate.supporters.
  destruct (decide (filter (fun p => equivalent msg p.2 = true) (msgsFromReplicas c) = ∅))
    as [->|Hne]; [done|].
  apply map_choose in Hne as (r' & m' & Hm'). apply map_lookup_filter_Some in Hm' as [Hm' He].
  destruct (inv_cover _ _ _ _ _ Hinv Hc Hh r' m' Hm') as (i & x & mi & Hi & Hx & Hmi & Hei).
  assert (equivalent mi msg = true) as Ht; [|by rewrite (Hno i x mi) in Ht].
  eapply equivalent_trans; [exact Hei|]. by rewrite equivalent_sym.
Qed.

(** A message that opens a new class. *)
Lemma inv_new_class b s :
  complete c = false → hasTrustedSelfClass c = false →
  (∀ j x m, 0 <= j < numOfClasses c → msgClasses c !! Z.to_nat j = Some x →
     msgsFromReplicas c !! representativeReplica x = Some m → equivalent m msg = false) →
  (b, s) = (if bestClass c =? NULL_CLASS then (numOfClasses c, 1)
            else (bestClass c, sizeOfBestClass c)) →
  (SelfTrust = true → r ≠ selfId cfg) →
  inv (mk msgs' (<[Z.to_nat (numOfClasses c) := mkClass 1 r]> (msgClasses c))
          (numOfClasses c + 1) false b s false).
Proof.
  intros Hc Hh Hno Hbs Hself. pose proof num_classes_lt as Hlt.
  pose proof (no_supporters Hc Hh Hno) as Hsup.
  destruct Hinv as [Hlen Hdom Hnum Hcls Hdis Hcov Hb0 Hb Hco Htr Hinc Hse].
  set (n := numOfClasses c) in *.
  assert (Z.to_nat n < length (msgClasses c))%nat as Hl by lia.
  assert (class_ok equivalent (mk msgs' (<[Z.to_nat n := mkClass 1 r]> (msgClasses c))
            (n + 1) false b s false) (mkClass 1 r) msg) as Hnew.
  { constructor; simpl; [by rewrite lookup_insert_eq|lia| |];
      rewrite supporters_insert, equivalent_refl, Hsup by done; unfold slack; simpl; lia. }
  assert (bestClass c = NULL_CLASS ↔ n = 0) as Hbn.
  { split; [|apply Hb0]. intros Hb'. destruct (decide (n = 0)); [done|].
    destruct (Hb ltac:(lia)) as (? & _). destruct Hcfg. unfold NULL_CLASS in *. lia. }
  constructor; simpl; try done; try lia.
  - by rewrite length_insert.
  - by apply dom_step.
  - intros i Hi. destruct (decide (i = n)) as [->|Hne].
    + eexists _, msg. rewrite list_lookup_insert_eq by done. by split.
    + destruct (Hcls i) as (y & my & Hy & Hoky); [lia|]. exists y, my.
      rewrite list_lookup_insert_ne by lia. split; [done|].
      apply class_ok_other; [done|done|congruence|]. left. eapply Hno; eauto using co_msg. lia.
  - intros i j y z my mz Hi Hj Hy Hz Hmy Hmz He.
    assert (∀ i y m, 0 <= i < n + 1 → i ≠ n →
      <[Z.to_nat n := mkClass 1 r]> (msgClasses c) !! Z.to_nat i = Some y →
      msgs' !! representativeReplica y = Some m →
      0 <= i < n ∧ msgClasses c !! Z.to_nat i = Some y ∧
      msgsFromReplicas c !! representativeReplica y = Some m) as Hold.
    { intros i' y' m' Hi' Hne Hy' Hm'. rewrite list_lookup_insert_ne in Hy' by lia.
      destruct (Hcls i') as (y'' & my' & Hy'' & Hok); [lia|]. simplify_eq.
      pose proof (rep_ne _ _ (co_msg _ _ _ _ Hok)). simplify_eq. split_and!; [lia|lia|done|apply Hok]. }
    destruct (decide (i = n)) as [->|Hin], (decide (j = n)) as [->|Hjn]; [done| | |].
    + destruct (Hold j z mz) as (? & Hz' & Hmz'); [done..|].
      rewrite list_lookup_insert_eq in Hy by done. simplify_eq/=.
      rewrite lookup_insert_eq in Hmy. simplify_eq.
      rewrite equivalent_sym, (Hno j z mz) in He by done. done.
    + destruct (Hold i y my) as (? & Hy' & Hmy'); [done..|].
      rewrite list_lookup_insert_eq in Hz by done. simplify_eq/=.
      rewrite lookup_insert_eq in Hmz. simplify_eq.
      rewrite (Hno i y my) in He by done. done.
    + destruct (Hold i y my) as (? & Hy' & Hmy'); [done..|].
      destruct (Hold j z mz) as (? & Hz' & Hmz'); [done..|]. eapply Hdis; eauto.
  - intros _ _ r' m'. rewrite lookup_insert_Some. intros [[<- <-]|[Hne Hm']].
    + exists n, (mkClass 1 r), msg. rewrite list_lookup_insert_eq by done. simpl.
      rewrite lookup_insert_eq, equivalent_refl. split_and!; done || lia.
    + destruct (Hcov Hc Hh r' m' Hm') as (i & y & my & Hi & Hy & Hmy & He).
      exists i, y, my. rewrite list_lookup_insert_ne by lia. split_and!; try lia; auto using rep_ne.
  - intros _. destruct (Z.eqb_spec (bestClass c) NULL_CLASS) as [E|E]; simplify_eq.
    + apply Hbn in E. split_and!; [lia|lia| |].
      * eexists. rewrite list_lookup_insert_eq by done. done.
      * intros i y Hi Hy. assert (i = n) as -> by lia.
        rewrite list_lookup_insert_eq in Hy by done. simplify_eq/=. lia.
    + destruct (Hb ltac:(lia)) as (Hbr & (xb & Hxb & Hsb) & Hmax). split_and!; [lia|lia| |].
      * exists xb. rewrite list_lookup_insert_ne by lia. done.
      * intros i y Hi Hy. destruct (decide (i = n)) as [->|].
        -- rewrite list_lookup_insert_eq in Hy by done. simplify_eq/=.
           destruct (Hcls (bestClass c) Hbr) as (xb' & mb & Hxb' & Hok). simplify_eq.
           rewrite <- Hsb. by destruct Hok.
        -- rewrite list_lookup_insert_ne in Hy by lia. apply (Hmax i y); [lia|done].
  - intros _ Hsr Hrq. destruct (Z.eqb_spec (bestClass c) NULL_CLASS) as [E|E]; simplify_eq; [lia|].
    apply Hinc; [done|naive_solver|done].
  - intros HS _ _. rewrite lookup_insert_ne by auto. auto.
Qed.

(** The own message, which replaces all classes. *)
Lemma inv_own cs cls cp :
  r = selfId cfg → SelfTrust = true →
  Z.of_nat (length cls) = numOfReps cfg → cls !! 0%nat = Some (mkClass cs r) →
  1 <= cs <= supporters msgs' msg + 1 →
  (cp = true → required cfg <= cs) → (cp = false → cs < required cfg) →
  inv (mk msgs' cls 1 cp 0 cs true).
Proof.
  intros Hrs HS Hl H0 Hcs Hcp1 Hcp0. destruct Hcfg as [[? ?] _ _].
  assert (∀ i x, 0 <= i < 1 → cls !! Z.to_nat i = Some x → x = mkClass cs r) as Hone.
  { intros i x Hi Hx. assert (i = 0) as -> by lia. change (Z.to_nat 0) with 0%nat in Hx. congruence. }
  constructor; simpl; try done; try lia; try (by apply dom_step).
  - intros i Hi. assert (i = 0) as -> by lia. eexists _, msg. split; [done|].
    constructor; simpl; [apply lookup_insert_eq|lia|unfold slack; simpl; lia|done].
  - intros _. split_and!; [lia|lia|by eexists|].
    intros i x Hi Hx. by rewrite (Hone i x).
  - intros ->. split; [lia|auto].
  - intros _. split_and!; [done..|]. eexists. split; [done|]. done.
  - intros -> _ _. auto.
Qed.
End step.

Lemma trusted_has_self c : inv c → hasTrustedSelfClass c = true →
  is_Some (msgsFromReplicas c !! selfId cfg).
Proof.
  intros Hinv Hh. destruct (inv_trusted _ _ _ _ _ Hinv Hh) as (_ & Hn & x & Hx & Hrx).
  destruct (inv_class _ _ _ _ _ Hinv 0) as (y & m & Hy & Hok); [lia|].
  change (Z.to_nat 0) with 0%nat in Hy. simplify_eq. rewrite <- Hrx. eexists. apply Hok.
Qed.

Lemma bump_eq c k x : msgClasses c !! Z.to_nat k = Some x → 0 <= size x <= 65534 →
  bump c k = Ok (set_class c k (mkClass (size x + 1) (representativeReplica x))).
Proof.
  intros Hx Hs. unfold bump, class_at. rewrite Hx. simpl. rewrite u16_small by lia. done.
Qed.

Lemma length_memset n (l : list MsgClassInfo) : (Z.to_nat n <= length l)%nat →
  length (memset_classes n l) = length l.
Proof. intros. unfold memset_classes. rewrite length_app, length_replicate, length_drop. lia. Qed.

Lemma tryToMarkComplete_eq c : SelfIsRequired = false ∨ is_Some (msgsFromReplicas c !! selfId cfg) →
  tryToMarkComplete SelfIsRequired cfg c =
    mk (msgsFromReplicas c) (msgClasses c) (numOfClasses c) true (bestClass c)
       (sizeOfBestClass c) (hasTrustedSelfClass c).
Proof.
  intros Hd. unfold tryToMarkComplete, hasMsgFromReplica.
  destruct Hd as [->|Hd]; [done|]. by rewrite bool_decide_eq_true_2, orb_true_r.
Qed.

Lemma addToClass_known c k r x b s : k ≠ NULL_CLASS → msgClasses c !! Z.to_nat k = Some x →
  (b, s) = (if sizeOfBestClass c <? size x then (k, size x) else (bestClass c, sizeOfBestClass c)) →
  addToClass SelfIsRequired cfg c k r =
    Ok (if (k =? b) && (required cfg <=? s)
        then tryToMarkComplete SelfIsRequired cfg (set_best c b s) else set_best c b s).
Proof.
  intros Hk Hx Hbs. unfold addToClass, class_at. rewrite (proj2 (Z.eqb_neq _ _) Hk), Hx. simpl.
  destruct (sizeOfBestClass c <? size x); simplify_eq; destruct c; simpl; by case_match.
Qed.

(** Joining class [k] through [bump] and the tail of [addPeerMsg]. *)
Lemma join_class c msg r k x m :
  inv c → msgsFromReplicas c !! r = None → 0 <= r < numOfReps cfg →
  complete c = false → 0 <= k < numOfClasses c → msgClasses c !! Z.to_nat k = Some x →
  class_ok equivalent c x m → equivalent m msg = true →
  (SelfTrust = true → r ≠ selfId cfg) →
  let c1 := mk (<[r := msg]> (msgsFromReplicas c)) (msgClasses c) (numOfClasses c) (complete c)
               (bestClass c) (sizeOfBestClass c) (hasTrustedSelfClass c) in
  ∃ c', (c2 ← bump c1 k; addToClass SelfIsRequired cfg c2 k r) = Ok c' ∧ inv c' ∧
        msgsFromReplicas c' = <[r := msg]> (msgsFromReplicas c).
Proof.
  intros Hinv Hr Hrr Hc Hk Hx Hok He Hself c1.
  pose proof (size_bound c Hinv x m Hok) as Hsz. pose proof (cfg_reps _ _ _ Hcfg).
  pose proof (inv_num _ _ _ _ _ Hinv). rewrite (bump_eq c1 k x) by (simpl; done || lia).
  cbn [mbind res_bind].
  destruct (if sizeOfBestClass c <? size x + 1 then (k, size x + 1)
            else (bestClass c, sizeOfBestClass c)) as [b s] eqn:Ebs.
  rewrite (addToClass_known _ k r (mkClass (size x + 1) (representativeReplica x)) b s);
    [|unfold NULL_CLASS; lia|apply list_lookup_insert_eq; by eapply lookup_lt_Some|by rewrite <- Ebs].
  pose (c3 cp := mk (<[r := msg]> (msgsFromReplicas c))
    (<[Z.to_nat k := mkClass (size x + 1) (representativeReplica x)]> (msgClasses c))
    (numOfClasses c) cp b s (hasTrustedSelfClass c)).
  replace (set_best _ b s) with (c3 false) by (unfold c3, c1, set_best, set_class; simpl; by rewrite Hc).
  assert (∀ cp, (cp = true → required cfg <= s) →
    (cp = false → SelfIsRequired = false ∨ hasTrustedSelfClass c = true →
       2 <= required cfg → s < required cfg) → inv (c3 cp)) as Hgrow.
  { intros cp H1 H2. apply (inv_grow c msg r Hinv Hr Hrr k x m); auto. }
  destruct ((k =? b) && (required cfg <=? s)) eqn:Et; bool_to_prop; subst.
  - destruct (decide (SelfIsRequired = false ∨ is_Some (msgsFromReplicas (c3 false) !! selfId cfg)))
      as [Hd|Hd].
    + rewrite tryToMarkComplete_eq by (exact Hd). exists (c3 true). split_and!; [done| |done].
      apply Hgrow; done.
    + unfold tryToMarkComplete, hasMsgFromReplica.
      rewrite bool_decide_eq_false_2 by tauto.
      assert (SelfIsRequired = true) as Hsr.
      { apply not_false_is_true. intros Hf. apply Hd. by left. }
      exists (c3 false). split_and!; [by rewrite Hsr| |done]. apply Hgrow; [done|]. intros _ [?|Hh]; [congruence|].
      exfalso. apply Hd. right. simpl. apply trusted_has_self in Hh; [|done].
      by rewrite lookup_insert_ne by (intros ->; destruct Hh; congruence).
  - exists (c3 false). split_and!; [done| |done]. apply Hgrow; [done|]. intros _ Hd Hrq.
    pose proof (inv_incomplete _ _ _ _ _ Hinv Hc Hd Hrq) as Hlt.
    destruct (Z.ltb_spec (sizeOfBestClass c) (size x + 1)); simplify_eq; [|lia].
    rewrite Z.eqb_refl in Et. simpl in Et. bool_to_prop. lia.
Qed.

(** The classes searched by [find_class], in the state where the new message has
    already been recorded. *)
Lemma find_class_step c msg r : inv c → msgsFromReplicas c !! r = None →
  let c1 := mk (<[r := msg]> (msgsFromReplicas c)) (msgClasses c) (numOfClasses c) (complete c)
               (bestClass c) (sizeOfBestClass c) (hasTrustedSelfClass c) in
  ∃ k, find_class equivalent c1 msg (Z.to_nat (numOfClasses c)) 0 = Ok k ∧
    ((k = NULL_CLASS ∧ ∀ j x m, 0 <= j < numOfClasses c → msgClasses c !! Z.to_nat j = Some x →
        msgsFromReplicas c !! representativeReplica x = Some m → equivalent m msg = false) ∨
     (0 <= k < numOfClasses c ∧ ∃ x m, msgClasses c !! Z.to_nat k = Some x ∧
        class_ok equivalent c x m ∧ equivalent m msg = true)).
Proof.
  intros Hinv Hr c1. pose proof (inv_num _ _ _ _ _ Hinv). pose proof (cfg_reps _ _ _ Hcfg).
  destruct (find_class_spec c1 msg (Z.to_nat (numOfClasses c)) 0) as (k & Hk & Hd).
  - unfold NULL_CLASS. lia.
  - lia.
  - intros i Hi. destruct (inv_class _ _ _ _ _ Hinv i) as (x & m & Hx & Hok); [lia|].
    exists x, m. split; [done|]. apply rep_ne; [done|apply Hok].
  - exists k. split; [done|]. rewrite !Z2Nat.id in Hd by lia. rewrite !Z.add_0_l in Hd.
    destruct Hd as [[-> Hd]|[Hi (x & m & Hx & Hm & He)]].
    + left. split; [done|]. intros j x m Hj Hx Hm. apply (Hd j x m); [lia|done|by apply rep_ne].
    + right. split; [done|]. exists x, m. split; [done|]. split; [|done].
      destruct (inv_class _ _ _ _ _ Hinv k) as (y & my & Hy & Hok); [lia|].
      assert (y = x) as -> by (simpl in Hx; congruence).
      pose proof (rep_ne c msg r Hr _ _ (co_msg _ _ _ _ Hok)).
      by assert (my = m) as -> by (simpl in Hm; congruence).
Qed.

Lemma addPeerMsg_inv c msg r :
  inv c → msgsFromReplicas c !! r = None → 0 <= r < numOfReps cfg → complete c = false →
  (SelfTrust = true → r ≠ selfId cfg) →
  ∃ c', addPeerMsg equivalent SelfIsRequired cfg
          (mk (<[r := msg]> (msgsFromReplicas c)) (msgClasses c) (numOfClasses c) (complete c)
              (bestClass c) (sizeOfBestClass c) (hasTrustedSelfClass c)) msg r = Ok c' ∧
        inv c' ∧ msgsFromReplicas c' = <[r := msg]> (msgsFromReplicas c).
Proof.
  intros Hinv Hr Hrr Hc Hself. unfold addPeerMsg. cbn [hasTrustedSelfClass].
  destruct (hasTrustedSelfClass c) eqn:Hh.
  - destruct (inv_trusted _ _ _ _ _ Hinv Hh) as (_ & Hn & _).
    destruct (inv_class _ _ _ _ _ Hinv 0) as (x & m & Hx & Hok); [lia|].
    unfold class_at at 1. cbn [msgClasses]. rewrite Hx. cbn [mbind res_bind].
    unfold msg_of. cbn [msgsFromReplicas].
    rewrite (rep_ne c msg r Hr _ _ (co_msg _ _ _ _ Hok)). cbn [mbind res_bind].
    destruct (equivalent m msg) eqn:He; simpl negb; cbv iota.
    + rewrite <- Hh. eapply join_class; eauto. lia.
    + eexists. split; [done|]. split; [|done]. rewrite <- Hh.
      apply inv_record_only; auto.
  - rewrite <- Hh. destruct (find_class_step c msg r Hinv Hr) as (k & Hk & Hd).
    cbn [numOfClasses]. rewrite Hk. cbn [mbind res_bind].
    destruct Hd as [[-> Hno]|[Hi (x & m & Hx & Hok & He)]].
    + change (NULL_CLASS =? NULL_CLASS) with true. cbv iota. unfold addToClass.
      change (NULL_CLASS =? NULL_CLASS) with true. cbv iota. cbn [numOfClasses msgClasses].
      pose proof (num_classes_lt c msg r Hinv Hr Hrr). pose proof (inv_num _ _ _ _ _ Hinv).
      pose proof (cfg_reps _ _ _ Hcfg). rewrite (proj2 (Z.leb_gt _ _)) by lia.
      rewrite u16_small by lia. rewrite Hc, Hh.
      destruct (if bestClass c =? NULL_CLASS then (numOfClasses c, 1)
                else (bestClass c, sizeOfBestClass c)) as [b s] eqn:Ebs.
      pose proof (inv_new_class c msg r Hinv Hr Hrr b s Hc Hh Hno (eq_sym Ebs) Hself) as Hnew.
      cbn [bestClass]. destruct (bestClass c =? NULL_CLASS); simplify_eq;
        (eexists; split; [done|]; split; [exact Hnew|done]).
    + rewrite (proj2 (Z.eqb_neq k NULL_CLASS)).
      2: { pose proof (inv_num _ _ _ _ _ Hinv). pose proof (cfg_reps _ _ _ Hcfg).
           unfold NULL_CLASS. lia. }
      eapply join_class; eauto.
Qed.

Lemma addSelfMsg_inv c msg r :
  inv c → msgsFromReplicas c !! r = None → 0 <= r < numOfReps cfg → complete c = false →
  r = selfId cfg → SelfTrust = true →
  ∃ c', addSelfMsg equivalent SelfIsRequired cfg
          (mk (<[r := msg]> (msgsFromReplicas c)) (msgClasses c) (numOfClasses c) (complete c)
              (bestClass c) (sizeOfBestClass c) (hasTrustedSelfClass c)) msg = Ok c' ∧
        inv c' ∧ msgsFromReplicas c' = <[r := msg]> (msgsFromReplicas c).
Proof.
  intros Hinv Hr Hrr Hc Hrs HS. unfold addSelfMsg. cbn [numOfClasses].
  destruct (find_class_step c msg r Hinv Hr) as (k & -> & Hd). cbn [mbind res_bind].
  assert (hasTrustedSelfClass c = false) as Hh.
  { apply not_true_is_false. intros Hh. apply trusted_has_self in Hh as [? ?]; [congruence|done]. }
  pose proof (inv_num _ _ _ _ _ Hinv) as Hn. pose proof (inv_len _ _ _ _ _ Hinv) as Hlen.
  pose proof (cfg_reps _ _ _ Hcfg) as Hreps.
  assert (∀ cs (l : list MsgClassInfo), length l = length (msgClasses c) →
    1 <= cs <= supporters (<[r := msg]> (msgsFromReplicas c)) msg + 1 →
    ∃ c', (if required cfg <=? cs then
             Ok (tryToMarkComplete SelfIsRequired cfg (mk (<[r := msg]> (msgsFromReplicas c))
               (<[0%nat := mkClass cs (selfId cfg)]> (memset_classes (numOfClasses c) l)) 1 (complete c) 0 cs true))
           else Ok (mk (<[r := msg]> (msgsFromReplicas c))
               (<[0%nat := mkClass cs (selfId cfg)]> (memset_classes (numOfClasses c) l)) 1 (complete c) 0 cs true))
          = Ok c' ∧ inv c' ∧ msgsFromReplicas c' = <[r := msg]> (msgsFromReplicas c)) as Hown.
  { intros cs l Hl Hcs. rewrite tryToMarkComplete_eq
      by (right; simpl; rewrite Hrs, lookup_insert_eq; by eexists).
    set (L := <[0%nat := _]> _). assert (length L = length (msgClasses c)) as HL
      by (unfold L; rewrite length_insert, length_memset; lia).
    assert (L !! 0%nat = Some (mkClass cs r)) as HL0.
    { unfold L. rewrite list_lookup_insert_eq; [by rewrite Hrs|]. rewrite length_memset; lia. }
    destruct (Z.leb_spec (required cfg) cs);
      (eexists; split; [done|]; split; [|done]; simpl; rewrite ?Hc;
       apply inv_own; auto; [congruence|lia|..]; intros; done || lia). }
  destruct Hd as [[-> Hno]|[Hi (x & m & Hx & Hok & He)]].
  - change (NULL_CLASS =? NULL_CLASS) with true. cbv iota. cbn [mbind res_bind].
    apply (Hown 1 (msgClasses c)); [done|].
    pose proof (supporters_pos (<[r := msg]> (msgsFromReplicas c)) r msg msg
      (lookup_insert_eq _ _ _) (equivalent_refl msg)). lia.
  - rewrite (proj2 (Z.eqb_neq k NULL_CLASS)) by (unfold NULL_CLASS; lia).
    pose proof (size_bound c Hinv x m Hok) as Hsz.
    pose proof (co_exact _ _ _ _ Hok Hc Hh) as Hex.
    rewrite (supporters_equiv _ m msg He) in Hex.
    pose proof (supporters_le _ msg (inv_dom _ _ _ _ _ Hinv)).
    rewrite (bump_eq _ k x) by (simpl; done || lia). cbn [mbind res_bind].
    unfold class_at, set_class. cbn [msgClasses].
    rewrite list_lookup_insert_eq by (by eapply lookup_lt_Some). cbn [mbind res_bind size].
    rewrite u16_small by lia. apply (Hown (size x + 1 + 1)); [by rewrite length_insert|].
    rewrite supporters_insert, equivalent_refl by done. lia.
Qed.

Lemma addMsg_inv c msg r : inv c → 0 <= r < numOfReps cfg →
  ∃ b c', addMsg equivalent SelfTrust SelfIsRequired cfg c msg r = Ok (b, c') ∧ inv c' ∧
    msgsFromReplicas c' = (if decide (is_Some (msgsFromReplicas c !! r)) then msgsFromReplicas c
                           else <[r := msg]> (msgsFromReplicas c)) ∧
    b = negb (bool_decide (is_Some (msgsFromReplicas c !! r))).
Proof.
  intros Hinv Hrr. unfold addMsg, hasMsgFromReplica. case_decide as Hd.
  { exists false, c. by rewrite bool_decide_eq_true_2. }
  rewrite bool_decide_eq_false_2 by done. apply eq_None_not_Some in Hd. cbn [complete].
  destruct (complete c) eqn:Hc; simpl negb; cbv iota.
  { eexists true, _. split; [done|]. split; [|done]. rewrite <- Hc. apply inv_record_only; auto.
    congruence. }
  pose proof (addSelfMsg_inv c msg r Hinv Hd Hrr Hc) as Hown.
  pose proof (addPeerMsg_inv c msg r Hinv Hd Hrr Hc) as Hpeer. rewrite Hc in Hown, Hpeer.
  destruct SelfTrust; [destruct (Z.eqb_spec r (selfId cfg)) as [Hs|Hs]|].
  - destruct Hown as (c' & -> & ? & ?); [done..|]. by exists true, c'.
  - destruct Hpeer as (c' & -> & ? & ?); [done..|]. by exists true, c'.
  - destruct Hpeer as (c' & -> & ? & ?); [done..|]. by exists true, c'.
Qed.

(** The recorded messages are the first ones of each replica. *)
Fixpoint recorded (acc : gmap Z T) (ms : list (T * Z)) : gmap Z T :=
  match ms with
  | [] => acc
  | (m, r) :: ms' => recorded (if decide (is_Some (acc !! r)) then acc else <[r := m]> acc) ms'
  end.

Lemma addMsgs_inv c ms : inv c → Forall (fun mr => 0 <= mr.2 < numOfReps cfg) ms →
  ∃ c', addMsgs equivalent SelfTrust SelfIsRequired cfg c ms = Ok c' ∧ inv c' ∧
    msgsFromReplicas c' = recorded (msgsFromReplicas c) ms.
Proof.
  revert c. induction ms as [|[m r] ms IH]; intros c Hinv Hms; simpl.
  { by exists c. }
  inversion_clear Hms as [|? ? Hr Hms'].
  destruct (addMsg_inv c m r Hinv Hr) as (b & c1 & -> & Hinv1 & Hm1 & _). simpl.
  destruct (IH c1 Hinv1 Hms') as (c' & -> & Hinv' & Hm'). exists c'.
  by rewrite Hm', Hm1.
Qed.

Lemma best_class_support c : inv c → 0 < numOfClasses c →
  ∃ x m, class_at c (bestClass c) = Ok x ∧ msg_of c (representativeReplica x) = Ok m ∧
    sizeOfBestClass c <= supporters (msgsFromReplicas c) m + slack c.
Proof.
  intros Hinv Hn. destruct (inv_best _ _ _ _ _ Hinv Hn) as (Hb & (x & Hx & Hs) & _).
  destruct (inv_class _ _ _ _ _ Hinv _ Hb) as (y & m & Hy & Hok).
  assert (y = x) as -> by congruence. exists x, m. unfold class_at, msg_of.
  rewrite Hx, (co_msg _ _ _ _ Hok). split_and!; [done..|]. rewrite <- Hs. apply Hok.
Qed.

Lemma bestCorrectMsg_support c : inv c → maxFails cfg + 1 <= required cfg → complete c = true →
  ∃ m, bestCorrectMsg cfg c = Ok (Some m) ∧
    required cfg <= supporters (msgsFromReplicas c) m + slack c.
Proof.
  intros Hinv Hf Hc. destruct (inv_complete _ _ _ _ _ Hinv Hc) as [Hn Hs].
  destruct (best_class_support c Hinv Hn) as (x & m & Hx & Hm & Hsup).
  exists m. unfold bestCorrectMsg. rewrite (proj2 (Z.leb_le _ (sizeOfBestClass c))) by lia.
  rewrite orb_true_r, Hx. simpl. rewrite Hm. split; [done|lia].
Qed.

(** While the certificate is open, every recorded message's class is exact. *)
Lemma open_support_le c r m : inv c → complete c = false → hasTrustedSelfClass c = false →
  msgsFromReplicas c !! r = Some m → supporters (msgsFromReplicas c) m <= sizeOfBestClass c.
Proof.
  intros Hinv Hc Hh Hm.
  destruct (inv_cover _ _ _ _ _ Hinv Hc Hh r m Hm) as (i & x & m' & Hi & Hx & Hm' & He).
  destruct (inv_class _ _ _ _ _ Hinv i Hi) as (y & my & Hy & Hok). simplify_eq.
  assert (my = m') as -> by (pose proof (co_msg _ _ _ _ Hok); congruence).
  rewrite <- (supporters_equiv _ m' m He), <- (co_exact _ _ _ _ Hok Hc Hh).
  by eapply (inv_best _ _ _ _ _ Hinv); eauto; lia.
Qed.
End facts.

(** ** Properties *)

(** C35: a certificate that does not trust the own message (the client's reply
    certificate, whose [selfId] is the id of the client) and requires at least two
    messages, and more than [maxFails], is, for messages of replicas, complete exactly
    when one equivalence class of the recorded messages, at most one per replica, has
    the required number of supporters; no arrival order makes it fail, and
    [bestCorrectMsg] is then such a message.  (With one required message it would stay
    open: the first message of a class is not compared with the required number.) *)
Theorem certificate_complete_iff {T} (equivalent : T → T → bool) {HE : MsgEquiv equivalent}
    (cfg : config) (ms : list (T * Z)) :
  cfg_ok false false cfg → 2 <= required cfg → maxFails cfg + 1 <= required cfg →
  Forall (fun mr => 0 <= mr.2 < numOfReps cfg) ms →
  ∃ c, addMsgs equivalent false false cfg (ctor cfg) ms = Ok c ∧
    msgsFromReplicas c = recorded ∅ ms ∧
    (complete c = true ↔ ∃ m, required cfg <= supporters equivalent (recorded ∅ ms) m) ∧
    (complete c = true → ∃ m, bestCorrectMsg cfg c = Ok (Some m) ∧
       required cfg <= supporters equivalent (recorded ∅ ms) m).
Proof.
  intros Hcfg Hreq Hmf Hms.
  destruct (addMsgs_inv equivalent false false cfg Hcfg (ctor cfg) ms
    (inv_ctor equivalent false false cfg Hcfg) Hms) as (c & Hc & Hinv & Hrec).
  change (msgsFromReplicas (ctor cfg)) with (∅ : gmap Z T) in Hrec.
  exists c. split; [done|]. split; [done|]. rewrite <- Hrec.
  assert (hasTrustedSelfClass c = false) as Hh.
  { apply not_true_is_false. intros Hh. by apply (inv_trusted _ _ _ _ _ Hinv) in Hh as [? _]. }
  assert (complete c = true → ∃ m, bestCorrectMsg cfg c = Ok (Some m) ∧
            required cfg <= supporters equivalent (msgsFromReplicas c) m) as Hsound.
  { intros Hcp. destruct (bestCorrectMsg_support equivalent false false cfg c Hinv Hmf Hcp)
      as (m & Hm & Hs). exists m. split; [done|]. unfold slack in Hs. rewrite Hh in Hs. lia. }
  split; [|done]. split; [intros Hcp; destruct (Hsound Hcp) as (m & _ & ?); eauto|].
  intros (m & Hm). apply not_false_is_true. intros Hcp.
  assert (∃ r m', msgsFromReplicas c !! r = Some m' ∧ equivalent m m' = true) as (r & m' & Hr & He).
  { destruct (decide (filter (fun p => equivalent m p.2 = true) (msgsFromReplicas c) = ∅)) as [E|E].
    - unfold supporters in Hm. rewrite E, map_size_empty in Hm. lia.
    - apply map_choose in E as (r & m' & [? ?]%map_lookup_filter_Some). eauto. }
  rewrite (supporters_equiv equivalent _ m m' He) in Hm.
  pose proof (open_support_le equivalent false false cfg c r m' Hinv Hcp Hh Hr).
  pose proof (inv_incomplete _ _ _ _ _ Hinv Hcp (or_introl eq_refl) Hreq). lia.
Qed.

(** Equality of integers, as a sample [ExternalFunc]. *)
#[local] Instance Zeqb_equiv : MsgEquiv Z.eqb.
Proof.
  constructor; intros; [apply Z.eqb_refl|apply Z.eqb_sym|].
  bool_to_prop. subst. apply Z.eqb_refl.
Qed.

Lemma certificate_complete_iff_witness :
  ∃ c, addMsgs Z.eqb false false (mkConfig 4 1 3 9) (ctor (mkConfig 4 1 3 9))
         [(7, 1); (8, 2); (7, 3); (7, 1); (7, 0)] = Ok c ∧
    msgsFromReplicas c = recorded ∅ [(7, 1); (8, 2); (7, 3); (7, 1); (7, 0)] ∧
    (complete c = true ↔ ∃ m, 3 <= supporters Z.eqb (recorded ∅ [(7, 1); (8, 2); (7, 3); (7, 1); (7, 0)]) m) ∧
    (complete c = true → ∃ m, bestCorrectMsg (mkConfig 4 1 3 9) c = Ok (Some m) ∧
       3 <= supporters Z.eqb (recorded ∅ [(7, 1); (8, 2); (7, 3); (7, 1); (7, 0)]) m).
Proof.
  apply (certificate_complete_iff Z.eqb (mkConfig 4 1 3 9)); simpl; try lia.
  - constructor; simpl; (lia || done).
  - repeat constructor; simpl; lia.
Defined.

(** a certificate that trusts the own message (the checkpoint certificate)
    runs without failure in every arrival order, and when it is complete the
    selected message has at least [required - 1] supporters. *)
Theorem certificate_trusted_support {T} (equivalent : T → T → bool) {HE : MsgEquiv equivalent}
    (cfg : config) (ms : list (T * Z)) :
  cfg_ok true true cfg → maxFails cfg + 1 <= required cfg →
  Forall (fun mr => 0 <= mr.2 < numOfReps cfg) ms →
  ∃ c, addMsgs equivalent true true cfg (ctor cfg) ms = Ok c ∧
    msgsFromReplicas c = recorded ∅ ms ∧
    (complete c = true → ∃ m, bestCorrectMsg cfg c = Ok (Some m) ∧
       required cfg - 1 <= supporters equivalent (recorded ∅ ms) m).
Proof.
  intros Hcfg Hmf Hms.
  destruct (addMsgs_inv equivalent true true cfg Hcfg (ctor cfg) ms
    (inv_ctor equivalent true true cfg Hcfg) Hms) as (c & Hc & Hinv & Hrec).
  change (msgsFromReplicas (ctor cfg)) with (∅ : gmap Z T) in Hrec.
  exists c. split; [done|]. split; [done|]. intros Hcp.
  destruct (bestCorrectMsg_support equivalent true true cfg c Hinv Hmf Hcp) as (m & Hm & Hs).
  exists m. split; [done|]. rewrite <- Hrec. unfold slack in Hs. case_match; lia.
Qed.

Lemma certificate_trusted_support_witness :
  ∃ c, addMsgs Z.eqb true true (mkConfig 4 1 3 0) (ctor (mkConfig 4 1 3 0)) [(7, 1); (7, 0)] = Ok c ∧
    msgsFromReplicas c = recorded ∅ [(7, 1); (7, 0)] ∧
    (complete c = true → ∃ m, bestCorrectMsg (mkConfig 4 1 3 0) c = Ok (Some m) ∧
       2 <= supporters Z.eqb (recorded ∅ [(7, 1); (7, 0)]) m).
Proof.
  apply (certificate_trusted_support Z.eqb (mkConfig 4 1 3 0)); simpl; try lia.
  - constructor; simpl; (lia || done).
  - repeat constructor; simpl; lia.
Defined.

(** the bound of the previous property is reached: [addSelfMsg] increments the
    size of the class it finds and then adds one again, so that with f = 1 and
    three required messages a certificate is complete after the messages of only
    two replicas, when the peer's message arrives before the own one. *)
Theorem own_message_counted_twice :
  ∃ c, addMsgs Z.eqb true true (mkConfig 4 1 3 0) (ctor (mkConfig 4 1 3 0)) [(7, 1); (7, 0)] = Ok c ∧
    complete c = true ∧ required (mkConfig 4 1 3 0) = 3 ∧
    supporters Z.eqb (msgsFromReplicas c) 7 = 2 ∧
    (∃ c', addMsgs Z.eqb true true (mkConfig 4 1 3 0) (ctor (mkConfig 4 1 3 0)) [(7, 0); (7, 1)] = Ok c' ∧
       complete c' = false).
Proof.
  eexists. split; [vm_compute; reflexivity|]. split_and!; [reflexivity..|].
  eexists. split; [vm_compute; reflexivity|]. reflexivity.
Qed.
End MsgsCertificate.
