(* ===== verification/MessageBase.v ===== *)
(** * MessageBase (bftengine/src/bftengine/MessageBase.hpp, .cpp; MsgCode.hpp)

    A message object: its body (bytes, beginning with the message type), the
    logical and the allocated size, the sender and whether the object owns the
    body; and its serialization to and from the local-buffer format of the
    persistent storage. *)
From S2P Require Import Prelude SysConsts.

Inductive MsgCode :=
  | MC_None | MC_Checkpoint | MC_CommitPartial | MC_CommitFull | MC_FullCommitProof
  | MC_FullExecProof | MC_NewView | MC_PrePrepare | MC_PartialCommitProof
  | MC_PartialExecProof | MC_PreparePartial | MC_PrepareFull | MC_ReqMissingData
  | MC_SimpleAckMsg | MC_StartSlowCommit | MC_ViewChange | MC_ReplicaStatus
  | MC_StateTransfer | MC_Request | MC_Reply.

Definition code_of (c : MsgCode) : Z :=
  match c with
  | MC_None => 0 | MC_Checkpoint => 100 | MC_CommitPartial => 101 | MC_CommitFull => 102
  | MC_FullCommitProof => 103 | MC_FullExecProof => 104 | MC_NewView => 105
  | MC_PrePrepare => 106 | MC_PartialCommitProof => 107 | MC_PartialExecProof => 108
  | MC_PreparePartial => 109 | MC_PrepareFull => 110 | MC_ReqMissingData => 111
  | MC_SimpleAckMsg => 112 | MC_StartSlowCommit => 113 | MC_ViewChange => 114
  | MC_ReplicaStatus => 115 | MC_StateTransfer => 116 | MC_Request => 700 | MC_Reply => 800
  end.

Module MessageBase.

Record t := mk {
  msgBody_ : list Z;
  msgSize_ : Z;
  storageSize_ : Z;
  sender_ : Z;
  owner_ : bool;
}.

(** [sizeof(Header)] and [sizeof(RawHeaderOfObjAndMsg)], both packed. *)
Definition sizeof_Header : Z := 2.
Definition sizeof_RawHeader : Z := 10.
Definition magicNumOfRawFormat : Z := 1431669115. (* 0x5555897B *)

(** [MessageBase(NodeIdType, MsgType, MsgSize)]: a zeroed body with its type set. *)
Definition ctor (sender : Z) (type : MsgCode) (size : Z) : res t :=
  assert! (0 <? size) ;;
  body ← put_int 2 (replicate (Z.to_nat size) 0) 0 (code_of type);
  Ok (mk body size size sender true).

(** [MessageBase(NodeIdType, Header*, MsgSize, bool)] *)
Definition ctor_body (sender : Z) (body : list Z) (size : Z) (ownerOfStorage : bool) : t :=
  mk body size size sender ownerOfStorage.

Definition type (m : t) : res Z := get_uint 2 (msgBody_ m) 0.

Definition setMsgSize (m : t) (size : Z) : res t :=
  assert! (size <=? storageSize_ m) ;;
  body ← (if size <? storageSize_ m
          then put_bytes (msgBody_ m) size (replicate (Z.to_nat (storageSize_ m - size)) 0)
          else Ok (msgBody_ m));
  Ok (mk body size (storageSize_ m) (sender_ m) (owner_ m)).

(** [realloc] to the logical size. *)
Definition shrinkToFit (m : t) : res t :=
  assert! (owner_ m) ;;
  Ok (mk (take (Z.to_nat (msgSize_ m)) (msgBody_ m)) (msgSize_ m) (msgSize_ m) (sender_ m) (owner_ m)).

Definition cloneObjAndMsg (m : t) : res t :=
  assert! (owner_ m) ;;
  assert! (0 <? msgSize_ m) ;;
  body ← get_bytes (msgBody_ m) 0 (msgSize_ m);
  Ok (ctor_body (sender_ m) body (msgSize_ m) true).

(** Result: the buffer after the writes and [*actualSize]. *)
Definition writeObjAndMsgToLocalBuffer (m : t) (buffer : list Z) (bufferLength : Z)
  : res (list Z * Z) :=
  assert! (owner_ m) ;;
  assert! (0 <? msgSize_ m) ;;
  let sizeNeeded := sizeof_RawHeader + msgSize_ m in
  assert! (sizeNeeded <=? bufferLength) ;;
  b1 ← put_int 4 buffer 0 magicNumOfRawFormat;
  b2 ← put_int 4 b1 4 (msgSize_ m);
  b3 ← put_int 2 b2 8 (sender_ m);
  body ← get_bytes (msgBody_ m) 0 (msgSize_ m);
  b4 ← put_bytes b3 sizeof_RawHeader body;
  Ok (b4, sizeNeeded).

Definition sizeNeededForObjAndMsgInLocalBuffer (m : t) : res Z :=
  assert! (owner_ m) ;;
  assert! (0 <? msgSize_ m) ;;
  Ok (sizeof_RawHeader + msgSize_ m).

(** Result: the message ([None] for [nullptr]) and [*actualSize]. *)
Definition createObjAndMsgFromLocalBuffer (buffer : list Z) (bufferLength : Z)
  : res (option t * Z) :=
  if bufferLength <=? sizeof_RawHeader then Ok (None, 0)
  else
    magicNum ← get_uint 4 buffer 0;
    if negb (magicNum =? magicNumOfRawFormat) then Ok (None, 0)
    else
      msgSize ← get_uint 4 buffer 4;
      if msgSize =? 0 then Ok (None, 0)
      else if maxExternalMessageSize <? msgSize then Ok (None, 0)
      else if bufferLength <? msgSize + sizeof_RawHeader then Ok (None, 0)
      else
        msgBody ← get_bytes buffer sizeof_RawHeader msgSize;
        sender ← get_uint 2 buffer 8;
        Ok (Some (ctor_body sender msgBody msgSize true), msgSize + sizeof_RawHeader).

(** A message ready to be stored: it owns exactly its body, sizes fit. *)
Record storable (m : t) : Prop := {
  st_owner : owner_ m = true;
  st_size : 0 < msgSize_ m <= maxExternalMessageSize;
  st_storage : storageSize_ m = msgSize_ m;
  st_body : Z.of_nat (length (msgBody_ m)) = msgSize_ m;
  st_sender : 0 <= sender_ m < 65536;
}.

(** The bytes of the local-buffer format. *)
Definition raw_format (m : t) : list Z :=
  le_enc 4 magicNumOfRawFormat ++ le_enc 4 (msgSize_ m) ++ le_enc 2 (sender_ m) ++ msgBody_ m.

Lemma length_raw_format m : storable m → Z.of_nat (length (raw_format m)) = sizeof_RawHeader + msgSize_ m.
Proof.
  intros []. unfold raw_format, sizeof_RawHeader. rewrite !length_app, !length_le_enc. lia.
Qed.

Lemma write_raw_format m old rest : storable m → length old = length (raw_format m) →
  writeObjAndMsgToLocalBuffer m (old ++ rest) (Z.of_nat (length (old ++ rest))) =
    Ok (raw_format m ++ rest, sizeof_RawHeader + msgSize_ m).
Proof.
  intros Hm Hlen. pose proof (length_raw_format m Hm) as Hl. destruct Hm as [Ho Hs Hst Hb Hse].
  unfold sizeof_RawHeader in *.
  destruct (take_drop_middle_split 4 4 old) as (a & b & c & -> & Ha & Hb'); [lia|].
  destruct (take_drop_middle_split 2 (length (msgBody_ m)) c) as (d & e & f & -> & Hd & He).
  { rewrite !length_app in Hlen. lia. }
  assert (f = []) as -> by (apply length_zero_iff_nil; rewrite !length_app in *; lia).
  unfold writeObjAndMsgToLocalBuffer, sizeof_RawHeader. rewrite Ho.
  rewrite (proj2 (Z.ltb_lt _ _)) by lia. rewrite (proj2 (Z.leb_le _ _)) by (rewrite length_app; lia).
  cbn [Assert mbind res_bind]. unfold put_int. rewrite app_nil_r, <- !app_assoc.
  rewrite (put_bytes_head a) by (rewrite ?length_le_enc; done). cbn [mbind res_bind].
  rewrite (put_bytes_mid _ b) by (rewrite ?length_le_enc; done). cbn [mbind res_bind].
  rewrite (app_assoc (le_enc 4 _)), (put_bytes_mid _ d)
    by (rewrite ?length_app, ?length_le_enc; done). cbn [mbind res_bind].
  rewrite (get_bytes_all (msgBody_ m)) by done. cbn [mbind res_bind].
  rewrite (app_assoc (_ ++ _)), (put_bytes_mid _ e)
    by (rewrite ?length_app, ?length_le_enc; done).
  cbn [mbind res_bind]. unfold raw_format. by rewrite <- !app_assoc.
Qed.

(** a stored message is read back unchanged from the local-buffer format, and
    the number of bytes consumed is the number of bytes written. *)
Theorem local_buffer_roundtrip m buffer :
  storable m → sizeof_RawHeader + msgSize_ m <= Z.of_nat (length buffer) →
  ∃ buffer', writeObjAndMsgToLocalBuffer m buffer (Z.of_nat (length buffer)) =
      Ok (buffer', sizeof_RawHeader + msgSize_ m) ∧
    createObjAndMsgFromLocalBuffer buffer' (Z.of_nat (length buffer)) =
      Ok (Some m, msgSize_ m + sizeof_RawHeader).
Proof.
  intros Hm Hlen. pose proof (length_raw_format m Hm) as Hl.
  destruct (take_drop_middle_split 0 (length (raw_format m)) buffer) as (a & old & rest & -> & Ha & Ho);
    [lia|]. apply length_zero_iff_nil in Ha as ->. rewrite app_nil_l in *.
  exists (raw_format m ++ rest). split; [by apply write_raw_format|].
  replace (Z.of_nat (length (old ++ rest))) with (Z.of_nat (length (raw_format m ++ rest)))
    by (rewrite !length_app; lia).
  destruct Hm as [Howner Hs Hst Hb Hse]. unfold createObjAndMsgFromLocalBuffer, sizeof_RawHeader in *.
  unfold maxExternalMessageSize in *.
  rewrite (proj2 (Z.leb_gt _ _)) by (rewrite length_app; lia).
  unfold get_uint, raw_format. rewrite <- !app_assoc.
  rewrite (get_bytes_head (le_enc 4 _) _ (Z.of_nat 4)) by done. cbn [fmap res_fmap mbind res_bind].
  rewrite le_dec_enc. change (wrap _ magicNumOfRawFormat =? magicNumOfRawFormat) with true.
  simpl negb. cbv iota.
  rewrite (get_bytes_mid (le_enc 4 _) (le_enc 4 _) _ 4 (Z.of_nat 4)) by (rewrite ?length_le_enc; done). cbn [fmap res_fmap mbind res_bind].
  rewrite le_dec_enc. change (8 * Z.of_nat 4) with 32. rewrite wrap_small by lia.
  rewrite (proj2 (Z.eqb_neq (msgSize_ m) 0)), (proj2 (Z.ltb_ge _ (msgSize_ m))) by lia.
  rewrite (proj2 (Z.ltb_ge _ _)) by (rewrite !length_app, !length_le_enc; lia).
  set (e1 := le_enc 4 magicNumOfRawFormat). set (e2 := le_enc 4 (msgSize_ m)).
  set (e3 := le_enc 2 (sender_ m)).
  assert (get_bytes (e1 ++ e2 ++ e3 ++ msgBody_ m ++ rest) 10 (msgSize_ m) = Ok (msgBody_ m)) as ->.
  { replace (e1 ++ e2 ++ e3 ++ msgBody_ m ++ rest) with ((e1 ++ e2 ++ e3) ++ msgBody_ m ++ rest)
      by (by rewrite <- !app_assoc). by apply get_bytes_mid. }
  assert (get_bytes (e1 ++ e2 ++ e3 ++ msgBody_ m ++ rest) 8 (Z.of_nat 2) = Ok e3) as ->.
  { replace (e1 ++ e2 ++ e3 ++ msgBody_ m ++ rest) with ((e1 ++ e2) ++ e3 ++ msgBody_ m ++ rest)
      by (by rewrite <- !app_assoc). by apply get_bytes_mid. }
  subst e3.
  cbn [fmap res_fmap mbind res_bind]. rewrite le_dec_enc. change (8 * Z.of_nat 2) with 16.
  rewrite wrap_small by lia. unfold ctor_body. destruct m; simpl in *. by subst.
Qed.

Lemma local_buffer_roundtrip_witness :
  ∃ buffer', writeObjAndMsgToLocalBuffer (mk [100; 0; 5] 3 3 2 true) (replicate 20 9) 20 =
      Ok (buffer', 13) ∧
    createObjAndMsgFromLocalBuffer buffer' 20 = Ok (Some (mk [100; 0; 5] 3 3 2 true), 13).
Proof.
  apply (local_buffer_roundtrip (mk [100; 0; 5] 3 3 2 true) (replicate 20 9)).
  - constructor; simpl; unfold maxExternalMessageSize; lia || reflexivity.
  - vm_compute. discriminate.
Defined.

(** reading the local-buffer format never accesses bytes outside the buffer,
    whatever the buffer holds, and a message it returns is complete: it owns a
    body of exactly the announced size, positive and at most the maximal one. *)
Theorem createObjAndMsg_safe buffer :
  Forall is_byte buffer →
  ∃ o n, createObjAndMsgFromLocalBuffer buffer (Z.of_nat (length buffer)) = Ok (o, n) ∧
    0 <= n <= Z.of_nat (length buffer) ∧
    match o with None => n = 0 | Some m => storable m end.
Proof.
  intros HB. unfold createObjAndMsgFromLocalBuffer, sizeof_RawHeader.
  destruct (Z.leb_spec (Z.of_nat (length buffer)) 10); [eexists _, _; split; [done|lia]|].
  destruct (get_uint_in 4 buffer 0 HB) as (mg & -> & _); [lia..|]. cbn [mbind res_bind].
  case_match; [eexists _, _; split; [done|lia]|].
  destruct (get_uint_in 4 buffer 4 HB) as (sz & -> & Hsz); [lia..|]. cbn [mbind res_bind].
  destruct (Z.eqb_spec sz 0); [eexists _, _; split; [done|lia]|].
  destruct (Z.ltb_spec maxExternalMessageSize sz); [eexists _, _; split; [done|lia]|].
  destruct (Z.ltb_spec (Z.of_nat (length buffer)) (sz + 10)); [eexists _, _; split; [done|lia]|].
  destruct (get_bytes_in buffer 10 sz) as (bs & -> & Hl); [lia..|]. cbn [mbind res_bind].
  destruct (get_uint_in 2 buffer 8 HB) as (se & -> & Hse); [lia..|]. cbn [mbind res_bind].
  eexists _, _. split; [done|]. split; [lia|]. constructor; simpl in *; done || lia.
Qed.

Lemma createObjAndMsg_safe_witness :
  ∃ o n, createObjAndMsgFromLocalBuffer [123; 137; 85; 85; 255; 0; 0; 0; 1; 0; 7] 11 = Ok (o, n) ∧
    0 <= n <= 11 ∧ match o with None => n = 0 | Some m => storable m end.
Proof.
  apply (createObjAndMsg_safe [123; 137; 85; 85; 255; 0; 0; 0; 1; 0; 7]).
  repeat constructor; unfold is_byte; lia.
Defined.
End MessageBase.

(** The object with another body. *)
Definition with_body (m : MessageBase.t) (body : list Z) : MessageBase.t :=
  MessageBase.mk body (MessageBase.msgSize_ m) (MessageBase.storageSize_ m) (MessageBase.sender_ m) (MessageBase.owner_ m).

(** * Fields and bodies of messages

    Shared lemmas about the messages with a fixed header: reading a field that was written,
    the body of a new message and its type. *)
#[local] Abbreviation body := MessageBase.msgBody_.

(** Fields of a message with the body [f1 ++ f2 ++ ...]. *)
Lemma read_int w buf off v : (0 < w)%nat → - 2 ^ (8 * Z.of_nat w - 1) <= v < 2 ^ (8 * Z.of_nat w - 1) →
  get_bytes buf off (Z.of_nat w) = Ok (le_enc w v) → get_int w buf off = Ok v.
Proof. intros Hw Hv Hg. unfold get_int. rewrite Hg. res_step. by rewrite swrap_le_dec_enc, swrap_small by lia. Qed.
Lemma read_uint w buf off v : 0 <= v < 2 ^ (8 * Z.of_nat w) → get_bytes buf off (Z.of_nat w) = Ok (le_enc w v) → get_uint w buf off = Ok v.
Proof. intros Hv Hg. unfold get_uint. rewrite Hg. res_step. by rewrite le_dec_enc, wrap_small. Qed.

(** A zeroed body of [n] bytes more than the header. *)
Lemma new_body sender type h n : 2 <= h → 0 <= n →
  MessageBase.ctor sender type (h + n) = Ok (MessageBase.mk (le_enc 2 (code_of type) ++ replicate (Z.to_nat (h - 2)) 0 ++ replicate (Z.to_nat n) 0) (h + n) (h + n) sender true).
Proof.
  intros Hh Hn. unfold MessageBase.ctor. rewrite (proj2 (Z.ltb_lt 0 _)) by lia. cbn [Assert mbind res_bind]. unfold put_int.
  replace (Z.to_nat (h + n)) with (2 + (Z.to_nat (h - 2) + Z.to_nat n))%nat by lia. rewrite !replicate_add. rewrite (put_bytes_head (replicate 2 0)) by done. done.
Qed.

(** A message that is not accepted. *)
Ltac rejected := exists false; split; [reflexivity|discriminate].

(** The type of a message whose body starts with it. *)
Lemma type_head m type rest : body m = le_enc 2 (code_of type) ++ rest → MessageBase.type m = Ok (code_of type).
Proof.
  intros Hb. unfold MessageBase.type. apply read_uint; [by destruct type|]. rewrite Hb. solve_get.
Qed.

(** * StateTransferMsg (bftengine/src/bftengine/StateTransferMsg.cpp, .hpp)

    The envelope of the messages of state transfer. *)
Module StateTransferMsg.
Definition ToActualMsgType (inMsg : MessageBase.t) : res bool :=
  ty ← MessageBase.type inMsg;
  assert! (ty =? code_of MC_StateTransfer) ;;
  if MessageBase.msgSize_ inMsg <? MessageBase.sizeof_Header then Ok false else Ok true.
End StateTransferMsg.
