(* ===== verification/Checkpoint.v ===== *)
(** * Checkpoint messages and certificates
    (bftengine/src/bftengine/CheckpointMsg.hpp, .cpp, CheckpointInfo.hpp, .cpp)

    [CheckpointMsg] is a message body of 43 bytes; [CheckpointInfo] is what a
    replica keeps per checkpoint: the certificate of checkpoint messages, whether
    the own message was sent to all, and when the sequence number was executed.
    The replica keeps them in a [SequenceWithActiveWindow] ([checkpointsLog]), to
    which this file discharges the [ItemFuncs] laws. *)
From S2P Require Import Prelude SysConsts Digest ReplicasInfo ActiveWindow MsgsCertificate MessageBase.

Module CheckpointMsg.

Definition sizeof_CheckpointMsgHeader : Z := 43.

(** The packed header, as read through [b()]. *)
Record CheckpointMsgHeader := mkHeader { seqNum : Z; stateDigest : Digest; flags : Z }.

Definition b (m : MessageBase.t) : res CheckpointMsgHeader :=
  s ← get_int 8 (MessageBase.msgBody_ m) 2;
  d ← get_bytes (MessageBase.msgBody_ m) 10 DIGEST_SIZE;
  f ← get_uint 1 (MessageBase.msgBody_ m) 42;
  Ok (mkHeader s d f).

Definition seqNumber (m : MessageBase.t) : res Z := seqNum <$> b m.
Definition digestOfState (m : MessageBase.t) : res Digest := stateDigest <$> b m.
Definition isStableState (m : MessageBase.t) : res bool :=
  (fun h => negb (Z.land (flags h) 1 =? 0)) <$> b m.

Definition set_body (m : MessageBase.t) (body : list Z) : MessageBase.t :=
  MessageBase.mk body (MessageBase.msgSize_ m) (MessageBase.storageSize_ m)
    (MessageBase.sender_ m) (MessageBase.owner_ m).

Definition setStateAsStable (m : MessageBase.t) : res MessageBase.t :=
  f ← get_uint 1 (MessageBase.msgBody_ m) 42;
  body ← put_int 1 (MessageBase.msgBody_ m) 42 (Z.lor f 1);
  Ok (set_body m body).

Definition ctor (senderId seqNum : Z) (stateDigest : Digest) (stateIsStable : bool)
  : res MessageBase.t :=
  m ← MessageBase.ctor senderId MC_Checkpoint sizeof_CheckpointMsgHeader;
  b1 ← put_int 8 (MessageBase.msgBody_ m) 2 seqNum;
  b2 ← put_bytes b1 10 stateDigest;
  b3 ← put_int 1 b2 42 0;
  let m := set_body m b3 in
  if stateIsStable then setStateAsStable m else Ok m.

Definition clone (m : MessageBase.t) : res MessageBase.t :=
  s ← seqNumber m; d ← digestOfState m; st ← isStableState m;
  ctor (MessageBase.sender_ m) s d st.

(** Whether the message is accepted as a checkpoint message. *)
Definition ToActualMsgType (repInfo : ReplicasInfo.t) (inMsg : MessageBase.t) : res bool :=
  ty ← MessageBase.type inMsg;
  assert! (ty =? code_of MC_Checkpoint) ;;
  if MessageBase.msgSize_ inMsg <? sizeof_CheckpointMsgHeader then Ok false
  else if MessageBase.sender_ inMsg =? ReplicasInfo._myId repInfo then Ok false
  else if negb (ReplicasInfo.isIdOfReplica repInfo (MessageBase.sender_ inMsg)) then Ok false
  else
    s ← seqNumber inMsg;
    if negb (Z.rem s checkpointWindowSize =? 0) then Ok false
    else
      d ← digestOfState inMsg;
      if Digest.isZero d then Ok false else Ok true.

(** f = 1, c = 0: four replicas, this one is replica 0. *)
Definition sampleInfo : ReplicasInfo.t := ReplicasInfo.sample 4 1 0.

(** ** Layout *)

Definition layout (s : Z) (d : Digest) (f : Z) : list Z :=
  le_enc 2 (code_of MC_Checkpoint) ++ le_enc 8 s ++ d ++ le_enc 1 f.

Lemma cp_b_layout m s d f : MessageBase.msgBody_ m = layout s d f → digest_wf d →
  - 2 ^ 63 <= s < 2 ^ 63 → 0 <= f < 256 → b m = Ok (mkHeader s d f).
Proof.
  intros Hb [Hd _] Hs Hf. unfold b, get_int, get_uint. rewrite Hb. unfold DIGEST_SIZE in *.
  assert (get_bytes (layout s d f) 2 (Z.of_nat 8) = Ok (le_enc 8 s)) as -> by (unfold layout; solve_get).
  assert (get_bytes (layout s d f) 10 32 = Ok d) as -> by (unfold layout; solve_get).
  assert (get_bytes (layout s d f) 42 (Z.of_nat 1) = Ok (le_enc 1 f)) as -> by (unfold layout; solve_get).
  res_step. rewrite swrap_le_dec_enc, swrap_small by (simpl; lia).
  rewrite le_dec_enc. by rewrite wrap_small.
Qed.

Definition flag_of (st : bool) : Z := if st then 1 else 0.

Definition image (senderId s : Z) (d : Digest) (st : bool) : MessageBase.t :=
  MessageBase.mk (layout s d (flag_of st)) 43 43 senderId true.

Lemma cp_ctor_layout senderId s d st : digest_wf d →
  ctor senderId s d st = Ok (image senderId s d st).
Proof.
  intros [Hd _]. unfold ctor, MessageBase.ctor, setStateAsStable, image, layout, put_int, get_uint.
  change (replicate (Z.to_nat sizeof_CheckpointMsgHeader) 0)
    with (replicate 2 0 ++ replicate 8 0 ++ replicate 32 0 ++ [0] ++ []).
  cbn [Assert mbind res_bind Z.ltb Z.compare sizeof_CheckpointMsgHeader].
  rewrite (put_bytes_head (replicate 2 0)) by done. res_step. cbn [MessageBase.msgBody_].
  put_skip 2. rewrite (put_bytes_head (replicate 8 0)) by len_tac. res_step.
  put_skip 2. put_skip 8. rewrite (put_bytes_head (replicate 32 0)) by (rewrite ?Hd; done). res_step.
  put_skip 2. put_skip 8. rewrite (put_bytes_skip 32) by (rewrite ?Hd; done).
  rewrite (put_bytes_head [0]) by done. res_step.
  destruct st; [|by rewrite app_nil_r]. cbn [MessageBase.msgBody_ set_body].
  get_skip 2. get_skip 8. rewrite (get_bytes_skip 32) by (rewrite ?Hd; done).
  rewrite (get_bytes_head (le_enc 1 0)) by done. res_step.
  put_skip 2. put_skip 8. rewrite (put_bytes_skip 32) by (rewrite ?Hd; done).
  rewrite (put_bytes_head (le_enc 1 0)) by done. res_step. by rewrite app_nil_r.
Qed.

Lemma type_layout m s d f : MessageBase.msgBody_ m = layout s d f →
  MessageBase.type m = Ok (code_of MC_Checkpoint).
Proof.
  intros Hb. unfold MessageBase.type, get_uint. rewrite Hb. unfold layout.
  by rewrite (get_bytes_head (le_enc 2 _)).
Qed.

(** the fields of a new checkpoint message are the constructor's arguments,
    [clone] makes an equal message, and a replica accepts the message of a peer
    exactly when its sequence number is a multiple of the checkpoint window and
    its digest is not zero. *)
Theorem checkpointMsg_roundtrip senderId s d st r :
  digest_wf d → - 2 ^ 63 <= s < 2 ^ 63 →
  ∃ m, ctor senderId s d st = Ok m ∧
    seqNumber m = Ok s ∧ digestOfState m = Ok d ∧ isStableState m = Ok st ∧
    clone m = Ok m ∧
    ToActualMsgType r m =
      Ok (negb (senderId =? ReplicasInfo._myId r) && (senderId <? ReplicasInfo._numberOfReplicas r)
          && (Z.rem s checkpointWindowSize =? 0) && negb (Digest.isZero d)).
Proof.
  intros Hd Hs. exists (image senderId s d st). split; [by apply cp_ctor_layout|].
  assert (b (image senderId s d st) = Ok (mkHeader s d (flag_of st))) as Hb.
  { apply (cp_b_layout _ s d (flag_of st)); [done..|]. destruct st; simpl; lia. }
  assert (isStableState (image senderId s d st) = Ok st) as Hst.
  { unfold isStableState. rewrite Hb. by destruct st. }
  split_and!; [by unfold seqNumber; rewrite Hb|by unfold digestOfState; rewrite Hb|done| |].
  - unfold clone, seqNumber, digestOfState. rewrite Hst, Hb. by apply cp_ctor_layout.
  - unfold ToActualMsgType, seqNumber, digestOfState, ReplicasInfo.isIdOfReplica.
    rewrite (type_layout _ s d (flag_of st)), Hb by done. res_step.
    change (MessageBase.msgSize_ _ <? _) with false.
    change (MessageBase.sender_ (image senderId s d st)) with senderId. rewrite Z.eqb_refl. res_step.
    destruct (senderId =? _), (senderId <? _), (Z.rem s _ =? 0) eqn:E, (Digest.isZero d) eqn:E2; cbn [negb andb]; res_step.
    all: cbn [seqNum stateDigest]; rewrite ?E, ?E2; try done.
Qed.

Lemma checkpointMsg_roundtrip_witness :
  ∃ m, ctor 2 300 (replicate 32 7) true = Ok m ∧
    seqNumber m = Ok 300 ∧ digestOfState m = Ok (replicate 32 7) ∧ isStableState m = Ok true ∧
    clone m = Ok m ∧ ToActualMsgType sampleInfo m = Ok true.
Proof.
  apply (checkpointMsg_roundtrip 2 300 (replicate 32 7) true sampleInfo); [|lia].
  split; [reflexivity|]. apply Forall_replicate. unfold is_byte. lia.
Defined.

(** A message as it arrives from the network: a body of at least the two bytes of
    its type, with its size. *)
Record arrived (m : MessageBase.t) : Prop := {
  ar_size : MessageBase.msgSize_ m = Z.of_nat (length (MessageBase.msgBody_ m));
  ar_min : 2 <= MessageBase.msgSize_ m;
  ar_bytes : Forall is_byte (MessageBase.msgBody_ m);
  ar_sender : 0 <= MessageBase.sender_ m < 65536;
}.

Lemma cp_b_in m : arrived m → sizeof_CheckpointMsgHeader <= MessageBase.msgSize_ m →
  ∃ h, b m = Ok h ∧ digest_wf (stateDigest h).
Proof.
  intros [Hs _ HB _] Hl. rewrite Hs in Hl. unfold sizeof_CheckpointMsgHeader in Hl. unfold b.
  destruct (get_int_in 8 (MessageBase.msgBody_ m) 2) as (s & -> & _); [lia..|].
  destruct (get_bytes_in (MessageBase.msgBody_ m) 10 DIGEST_SIZE) as (d & Hd & Hdl); [done..|unfold DIGEST_SIZE; lia|].
  rewrite Hd.
  destruct (get_uint_in 1 (MessageBase.msgBody_ m) 42) as (f & -> & _); [done|lia..|].
  eexists. split; [done|]. split; [done|]. by eapply get_bytes_Forall.
Qed.

(** no body a peer can send makes the validation read outside it, and an
    accepted message has a whole header, comes from another replica, and has an
    aligned sequence number and a non-zero digest. *)
Theorem ToActualMsgType_safe r m :
  arrived m → MessageBase.type m = Ok (code_of MC_Checkpoint) →
  ∃ ok, ToActualMsgType r m = Ok ok ∧
    (ok = true → ∃ h, b m = Ok h ∧ digest_wf (stateDigest h) ∧
       ReplicasInfo.isIdOfPeerReplica r (MessageBase.sender_ m) = true ∧
       Z.rem (seqNum h) checkpointWindowSize = 0 ∧ Digest.isZero (stateDigest h) = false).
Proof.
  intros Ha Hty. unfold ToActualMsgType. rewrite Hty. cbn [mbind res_bind].
  rewrite Z.eqb_refl. cbn [Assert mbind res_bind].
  destruct (Z.ltb_spec (MessageBase.msgSize_ m) sizeof_CheckpointMsgHeader); [by eexists|].
  destruct (cp_b_in m Ha) as (h & Hh & Hd); [done|].
  unfold seqNumber, digestOfState, ReplicasInfo.isIdOfPeerReplica, ReplicasInfo.isIdOfReplica.
  rewrite Hh. cbn [fmap res_fmap mbind res_bind].
  destruct (_ =? ReplicasInfo._myId r) eqn:E1; [by eexists|].
  destruct (_ <? _) eqn:E2; cbn [negb]; [|by eexists].
  destruct (_ =? 0) eqn:E3; cbn [negb]; [|by eexists].
  destruct (Digest.isZero _) eqn:E4; [by eexists|].
  eexists. split; [done|]. intros _. exists h. bool_to_prop. done.
Qed.

Lemma ToActualMsgType_safe_witness :
  ∃ ok, ToActualMsgType sampleInfo (MessageBase.mk [100; 0; 1] 3 3 2 true) = Ok ok ∧
    (ok = true → ∃ h, b (MessageBase.mk [100; 0; 1] 3 3 2 true) = Ok h ∧ digest_wf (stateDigest h) ∧
       ReplicasInfo.isIdOfPeerReplica sampleInfo 2 = true ∧
       Z.rem (seqNum h) checkpointWindowSize = 0 ∧ Digest.isZero (stateDigest h) = false).
Proof.
  apply (ToActualMsgType_safe sampleInfo (MessageBase.mk [100; 0; 1] 3 3 2 true)).
  - constructor; simpl; try lia. repeat constructor; unfold is_byte; lia.
  - reflexivity.
Defined.
End CheckpointMsg.

Module CheckpointInfo.

(** A recorded message is its header and its sender. *)
Record msg := mkMsg { m_sender : Z; m_header : CheckpointMsg.CheckpointMsgHeader }.

Definition equivalent (a b : msg) : bool :=
  (CheckpointMsg.seqNum (m_header a) =? CheckpointMsg.seqNum (m_header b)) &&
  Digest.eqb (CheckpointMsg.stateDigest (m_header a)) (CheckpointMsg.stateDigest (m_header b)).

#[global] Instance equivalent_MsgEquiv : MsgEquiv equivalent.
Proof.
  unfold equivalent, Digest.eqb. constructor.
  - intros m. by rewrite Z.eqb_refl, bool_decide_true.
  - intros a b. rewrite Z.eqb_sym. f_equal. by apply bool_decide_ext.
  - intros a b c ? ?. bool_to_prop. apply andb_true_iff. split; [lia|].
    apply bool_decide_true. congruence.
Qed.

Definition MinTime : Z := 0.

Record t := mk {
  checkpointCertificate : MsgsCertificate.t msg;
  sentToAllOrApproved : bool;
  executed : Z;
}.

(** The certificate's constructor arguments in [init]. *)
Definition cert_config (info : ReplicasInfo.t) : MsgsCertificate.config :=
  let F := ReplicasInfo._fVal info in
  let C := ReplicasInfo._cVal info in
  MsgsCertificate.mkConfig (ReplicasInfo._numberOfReplicas info) F (u16 (2 * F + C + 1))
    (ReplicasInfo._myId info).

Section defs.
Context (info : ReplicasInfo.t).
#[local] Abbreviation cfg := (cert_config info).

(** The constructor followed by [init]. *)
Definition init : res t :=
  let F := ReplicasInfo._fVal info in
  let C := ReplicasInfo._cVal info in
  assert! (ReplicasInfo._numberOfReplicas info =? 3 * F + 2 * C + 1) ;;
  Ok (mk (MsgsCertificate.ctor cfg) false MinTime).

Definition resetAndFree (i : t) : t :=
  mk (MsgsCertificate.resetAndFree (checkpointCertificate i)) false MinTime.

Definition addCheckpointMsg (i : t) (m : msg) (replicaId : Z) : res (bool * t) :=
  '(b, c) ← MsgsCertificate.addMsg equivalent true true cfg (checkpointCertificate i) m replicaId;
  Ok (b, mk c (sentToAllOrApproved i) (executed i)).

Definition isCheckpointCertificateComplete (i : t) : bool :=
  MsgsCertificate.isComplete (checkpointCertificate i).

Definition selfCheckpointMsg (i : t) : option msg :=
  MsgsCertificate.selfMsg cfg (checkpointCertificate i).

Definition tryToMarkCheckpointCertificateCompleted (i : t) : t :=
  mk (MsgsCertificate.tryToMarkComplete true cfg (checkpointCertificate i))
     (sentToAllOrApproved i) (executed i).

Definition setSelfExecutionTime (i : t) (tm : Z) : res t :=
  assert! (executed i =? MinTime) ;;
  Ok (mk (checkpointCertificate i) (sentToAllOrApproved i) tm).

Definition setCheckpointSentAllOrApproved (i : t) : t :=
  mk (checkpointCertificate i) true (executed i).

(** The operations of the replica on one checkpoint, in the order they happen. *)
Inductive op :=
  | Add (m : msg) (replicaId : Z)
  | TryMark
  | SetTime (tm : Z)
  | SetSent
  | Reset.

Definition exec (i : t) (o : op) : res t :=
  match o with
  | Add m r => '(_, i') ← addCheckpointMsg i m r; Ok i'
  | TryMark => Ok (tryToMarkCheckpointCertificateCompleted i)
  | SetTime tm => setSelfExecutionTime i tm
  | SetSent => Ok (setCheckpointSentAllOrApproved i)
  | Reset => Ok (resetAndFree i)
  end.

(** What [resetAndFree] relies on: a certificate without messages is as the
    constructor left it, but for the completion flag. *)
Record wf (i : t) : Prop := {
  wf_len : Z.of_nat (length (MsgsCertificate.msgClasses (checkpointCertificate i))) =
           ReplicasInfo._numberOfReplicas info;
  wf_num : 0 <= MsgsCertificate.numOfClasses (checkpointCertificate i)
           <= ReplicasInfo._numberOfReplicas info;
  wf_empty : MsgsCertificate.msgsFromReplicas (checkpointCertificate i) = ∅ →
    MsgsCertificate.numOfClasses (checkpointCertificate i) = 0 ∧
    MsgsCertificate.bestClass (checkpointCertificate i) = MsgsCertificate.NULL_CLASS ∧
    MsgsCertificate.sizeOfBestClass (checkpointCertificate i) = 0 ∧
    MsgsCertificate.hasTrustedSelfClass (checkpointCertificate i) = false;
}.

(** Indistinguishable from a new item. *)
Record empty (i : t) : Prop := {
  em_msgs : MsgsCertificate.msgsFromReplicas (checkpointCertificate i) = ∅;
  em_num : MsgsCertificate.numOfClasses (checkpointCertificate i) = 0;
  em_best : MsgsCertificate.bestClass (checkpointCertificate i) = MsgsCertificate.NULL_CLASS;
  em_size : MsgsCertificate.sizeOfBestClass (checkpointCertificate i) = 0;
  em_complete : MsgsCertificate.complete (checkpointCertificate i) = false;
  em_self : MsgsCertificate.hasTrustedSelfClass (checkpointCertificate i) = false;
  em_sent : sentToAllOrApproved i = false;
  em_time : executed i = MinTime;
}.
End defs.

Section facts.
Context (info : ReplicasInfo.t) (Hinfo : ReplicasInfo.wf info).
#[local] Abbreviation cfg := (cert_config info).
#[local] Abbreviation wf := (wf info).
Implicit Types i : t.

Lemma memset_length n l : 0 <= n <= Z.of_nat (length l) →
  length (MsgsCertificate.memset_classes n l) = length l.
Proof. intros. unfold MsgsCertificate.memset_classes. rewrite length_app, length_replicate, length_drop. lia. Qed.

Lemma resetAndFree_wf i : wf i → wf (resetAndFree i).
Proof.
  intros [Hl Hn He]. unfold resetAndFree, MsgsCertificate.resetAndFree.
  case_bool_decide as E; constructor; simpl; [done|done|by intros; apply He| |lia|done].
  case_match; [by rewrite memset_length; lia|done].
Qed.

Lemma cp_resetAndFree_empty i : wf i → empty (resetAndFree i).
Proof.
  intros [Hl Hn He]. unfold resetAndFree, MsgsCertificate.resetAndFree.
  case_bool_decide as E; [destruct (He E) as (? & ? & ? & ?)|]; by constructor.
Qed.

Lemma init_wf : ∃ i, init info = Ok i ∧ wf i.
Proof.
  destruct Hinfo. unfold init. rewrite (proj2 (Z.eqb_eq _ _)) by done. eexists. split; [done|].
  constructor; simpl; [rewrite length_replicate|..]; first [done | lia].
Qed.

Lemma cert_cfg_ok : MsgsCertificate.cfg_ok true true cfg.
Proof. destruct Hinfo. constructor; simpl; lia || done. Qed.

#[local] Abbreviation cinv := (MsgsCertificate.inv equivalent true true cfg).

(** The invariant of the replica's checkpoint items: [wf], and the certificate's
    own invariant as long as it is not complete (marking it complete does not
    require the quorum). *)
Definition good (i : t) : Prop :=
  wf i ∧ (isCheckpointCertificateComplete i = false → cinv (checkpointCertificate i)).

Lemma cinv_wf i : cinv (checkpointCertificate i) → wf i.
Proof.
  intros Hi. constructor; [apply Hi|apply Hi|]. intros He.
  assert (MsgsCertificate.numOfClasses (checkpointCertificate i) = 0) as Hn.
  { pose proof (MsgsCertificate.inv_num _ _ _ _ _ Hi).
    destruct (decide (0 < MsgsCertificate.numOfClasses (checkpointCertificate i))); [|lia].
    destruct (MsgsCertificate.inv_class _ _ _ _ _ Hi 0) as (x & m & _ & [Hm _ _ _]); [lia|].
    by rewrite He, lookup_empty in Hm. }
  split; [done|]. by apply Hi.
Qed.

Lemma empty_cinv i : wf i → empty i → cinv (checkpointCertificate i).
Proof.
  intros [Hl _ _] [Em En Eb Es Ec Et _ _]. constructor.
  1: done. 2: { destruct Hinfo. rewrite En. simpl. lia. }
  all: rewrite ?Em, ?En, ?Eb, ?Es, ?Ec, ?Et; try done; try (intros; lia).
Qed.

(** Every operation on a good item succeeds and leaves a good item. *)
Lemma exec_good i o :
  good i →
  match o with
  | Add _ r => 0 <= r < ReplicasInfo._numberOfReplicas info
  | SetTime _ => executed i = MinTime
  | _ => True
  end →
  ∃ i', exec info i o = Ok i' ∧ good i' ∧ (o = Reset → empty i').
Proof.
  intros [Hw Hc] Ho. destruct o as [m r| |tm| |]; simpl.
  - unfold addCheckpointMsg. destruct (isCheckpointCertificateComplete i) eqn:E.
    + unfold MsgsCertificate.addMsg. case_match; simpl.
      { eexists. split; [done|]. split; [|done]. destruct i. split; [done|]. unfold isCheckpointCertificateComplete in *; simpl in *; congruence. }
      unfold isCheckpointCertificateComplete, MsgsCertificate.isComplete in E. rewrite E. simpl.
      eexists. split; [done|]. split; [|done]. split; simpl.
      * destruct Hw. constructor; simpl; [done..|]. intros He. by apply insert_non_empty in He.
      * done.
    + destruct (MsgsCertificate.addMsg_inv equivalent true true cfg cert_cfg_ok _ m r (Hc eq_refl) Ho)
        as (b & c & -> & Hinv & _). simpl. eexists. split; [done|]. split; [|done].
      split; [by apply cinv_wf|done].
  - eexists. split; [done|]. split; [|done].
    unfold tryToMarkCheckpointCertificateCompleted, MsgsCertificate.tryToMarkComplete.
    case_match; simpl; [destruct Hw; by split|destruct i; by split].
  - unfold setSelfExecutionTime. rewrite Ho, Z.eqb_refl. simpl. eexists. split; [done|]. split; [|done]. destruct Hw. by split.
  - eexists. split; [done|]. split; [|done]. destruct Hw. by split.
  - eexists. split; [done|]. split; [|intros _; by apply cp_resetAndFree_empty].
    split; [by apply resetAndFree_wf|]. intros _.
    apply empty_cinv; [by apply resetAndFree_wf|by apply cp_resetAndFree_empty].
Qed.

(** C36: every operation of the replica on a checkpoint item that satisfies its
    invariant, with messages of existing replicas, succeeds and keeps the invariant,
    also when a certificate is marked complete without its quorum and filled further,
    with one exception: setting the execution time fails its assertion when the item
    already has one.  [resetAndFree] makes the item a new one. *)
Theorem checkpointInfo_invariant i o :
  good i → match o with Add _ r => 0 <= r < ReplicasInfo._numberOfReplicas info | _ => True end →
  match o with
  | SetTime _ => if executed i =? MinTime then ∃ i', exec info i o = Ok i' ∧ good i' else exec info i o = Err AssertFailed
  | _ => ∃ i', exec info i o = Ok i' ∧ good i' ∧ (o = Reset → empty i')
  end.
Proof.
  intros Hg Hr. destruct o as [m r| |tm| |]; [by apply (exec_good i (Add m r))|by apply exec_good| |by apply exec_good..].
  cbn [exec]. unfold setSelfExecutionTime. destruct (Z.eqb_spec (executed i) MinTime) as [He|He]; [|done].
  destruct (exec_good i (SetTime tm) Hg He) as (i' & Hx & Hg' & _). exists i'. split; [|done].
  cbn [exec] in Hx. unfold setSelfExecutionTime in Hx. by rewrite He, Z.eqb_refl in Hx.
Qed.

(** The laws [SequenceWithActiveWindow] requires of its items. *)
Definition item0 : t := mk (MsgsCertificate.ctor cfg) false MinTime.

Lemma item0_good : good item0.
Proof.
  pose proof (MsgsCertificate.inv_ctor equivalent true true cfg cert_cfg_ok) as Hi.
  split; [by apply cinv_wf|done].
Qed.

Definition checkpoint_items : ItemFuncs t.
Proof.
  refine {| item_init := item0; item_reset := resetAndFree; item_wf := good; item_empty := empty |}.
  - apply item0_good.
  - intros i [Hw _]. split; [by apply resetAndFree_wf|]. intros _.
    apply empty_cinv; [by apply resetAndFree_wf|by apply cp_resetAndFree_empty].
  - intros i [Hw _]. by apply cp_resetAndFree_empty.
Defined.
End facts.

(** The template parameters of [mainLog] and [checkpointsLog]. *)
#[global] Instance mainLog_params : WindowParams kWorkWindowSize 1.
Proof. by constructor. Qed.
#[global] Instance checkpointsLog_params :
  WindowParams (kWorkWindowSize + checkpointWindowSize) checkpointWindowSize.
Proof. by constructor. Qed.

Lemma checkpointInfo_invariant_witness :
  ∃ i', exec CheckpointMsg.sampleInfo (item0 CheckpointMsg.sampleInfo)
          (Add (mkMsg 2 (CheckpointMsg.mkHeader 150 (replicate 32 7) 0)) 2) = Ok i' ∧
    good CheckpointMsg.sampleInfo i' ∧
    (Add (mkMsg 2 (CheckpointMsg.mkHeader 150 (replicate 32 7) 0)) 2 = Reset → empty i').
Proof.
  assert (ReplicasInfo.wf CheckpointMsg.sampleInfo) as Hi by (constructor; simpl; lia || reflexivity).
  apply (checkpointInfo_invariant CheckpointMsg.sampleInfo Hi _ (Add (mkMsg 2 (CheckpointMsg.mkHeader 150 (replicate 32 7) 0)) 2)); [|simpl; lia].
  by apply item0_good.
Defined.
End CheckpointInfo.
