(* ===== verification/SigManager.v ===== *)
(** * SigManager (bftengine/src/bftengine/SigManager.hpp, .cpp)

    The replica's signer and the verifiers of the other replicas.  The RSA
    primitives (Crypto++ behind [RSASigner] and [RSAVerifier]) are values of the
    two records below: a length and a function on the signed bytes. *)
From S2P Require Import Prelude SysConsts.

Record RSASigner := mkSigner { s_signatureLength : Z; s_sign : list Z → list Z }.
Record RSAVerifier := mkVerifier { v_signatureLength : Z; v_verify : list Z → list Z → bool }.

Module SigManager.

Record t := mk {
  _myId : Z;
  _mySigner : RSASigner;
  _replicasVerifiers : gmap Z RSAVerifier;
}.

(** The loop of the constructor over the public keys. *)
Fixpoint add_verifiers (myId : Z) (signer : RSASigner) (keys : list (Z * RSAVerifier))
    (acc : gmap Z RSAVerifier) : res (gmap Z RSAVerifier) :=
  match keys with
  | [] => Ok acc
  | (r, verifier) :: keys' =>
      assert! (bool_decide (acc !! r = None)) ;;
      let acc := <[r := verifier]> acc in
      assert! (negb (r =? myId) || (s_signatureLength signer =? v_signatureLength verifier)) ;;
      add_verifiers myId signer keys' acc
  end.

Definition ctor (myId : Z) (signer : RSASigner) (keys : list (Z * RSAVerifier)) : res t :=
  vs ← add_verifiers myId signer keys ∅;
  Ok (mk myId signer vs).

Definition find (s : t) (replicaId : Z) : res RSAVerifier :=
  match _replicasVerifiers s !! replicaId with Some v => Ok v | None => Err AssertFailed end.

Definition getSigLength (s : t) (replicaId : Z) : res Z :=
  if replicaId =? _myId s then Ok (u16 (s_signatureLength (_mySigner s)))
  else v ← find s replicaId; Ok (u16 (v_signatureLength v)).

Definition getMySigLength (s : t) : Z := u16 (s_signatureLength (_mySigner s)).

Definition verifySig (s : t) (replicaId : Z) (data sig : list Z) : res bool :=
  v ← find s replicaId; Ok (v_verify v data sig).

(** [sign]: writes the signature at [off] of [body]. *)
Definition sign (s : t) (data : list Z) (body : list Z) (off outSigLength : Z) : res (list Z) :=
  let sg := s_sign (_mySigner s) data in
  body' ← put_bytes body off sg;
  assert! (outSigLength =? Z.of_nat (length sg)) ;;
  Ok body'.

(** What the replica relies on of its own signer: signatures of one length. *)
Record signer_ok (s : t) : Prop := {
  so_len : ∀ d, Z.of_nat (length (s_sign (_mySigner s) d)) = s_signatureLength (_mySigner s);
  so_range : 0 < s_signatureLength (_mySigner s) < 65536;
}.

(** Verifiers of every replica with signatures that fit in a [uint16_t]. *)
Record verifiers_ok (s : t) (n : Z) : Prop := {
  vo_all : ∀ r, 0 <= r < n → ∃ v, _replicasVerifiers s !! r = Some v ∧ 0 <= v_signatureLength v < 65536;
  vo_mine : 0 <= s_signatureLength (_mySigner s) < 65536;
}.

Lemma getMySigLength_eq s : signer_ok s → getMySigLength s = s_signatureLength (_mySigner s).
Proof. intros [_ ?]. unfold getMySigLength. apply u16_small. lia. Qed.

Lemma getSigLength_ok s n r : verifiers_ok s n → 0 <= r < n →
  ∃ l, getSigLength s r = Ok l ∧ 0 <= l < 65536.
Proof.
  intros [Hv Hm] Hr. unfold getSigLength, find. case_match.
  - eexists. split; [done|]. apply u16_range.
  - destruct (Hv r Hr) as (v & -> & _). eexists. split; [done|]. apply u16_range.
Qed.

Lemma add_verifiers_lookup myId signer keys acc vs r v :
  add_verifiers myId signer keys acc = Ok vs →
  vs !! r = Some v ↔ (r, v) ∈ keys ∨ acc !! r = Some v.
Proof.
  revert acc. induction keys as [|[r' v'] keys IH]; intros acc H; simpl in H.
  { res_simpl. rewrite elem_of_nil. tauto. }
  res_simpl. bool_to_prop. rewrite IH, elem_of_cons by done.
  destruct (decide (r = r')) as [->|Hne].
  - rewrite lookup_insert_eq. naive_solver.
  - rewrite lookup_insert_ne by done. naive_solver.
Qed.

(** a signature manager that was constructed finds the verifier of exactly the
    replicas it was given keys for, and the signature length of its own replica
    is the one its peers compute from its public key. *)
Theorem sigManager_lookup myId signer keys s r v :
  ctor myId signer keys = Ok s → (r, v) ∈ keys →
  find s r = Ok v ∧ getSigLength s r = Ok (u16 (v_signatureLength v)).
Proof.
  unfold ctor. intros H Hin. res_simpl.
  assert (r0 !! r = Some v) as Hl by (eapply add_verifiers_lookup; eauto).
  assert (find (mk myId signer r0) r = Ok v) as Hf by (unfold find; simpl; by rewrite Hl).
  split; [done|]. unfold getSigLength. rewrite Hf. simpl. case_match; [|done]. bool_to_prop. subst.
  do 2 f_equal. clear -E Hin. revert E. generalize (∅ : gmap Z RSAVerifier) as acc.
  induction keys as [|[r' v'] keys IH]; intros acc E; [by apply elem_of_nil in Hin|].
  simpl in E. res_simpl. apply elem_of_cons in Hin as [[= -> ->]|Hin]; [|by eapply IH].
  rewrite Z.eqb_refl in *. simpl in *. bool_to_prop. done.
Qed.

Lemma sigManager_lookup_witness :
  ∃ s, ctor 0 (mkSigner 2 (fun d => [1; 2])) [(0, mkVerifier 2 (fun d s => true)); (1, mkVerifier 3 (fun d s => true))] = Ok s ∧
    find s 1 = Ok (mkVerifier 3 (fun d s => true)) ∧ getSigLength s 1 = Ok 3.
Proof.
  eexists. split; [reflexivity|].
  apply (sigManager_lookup 0 (mkSigner 2 (fun d => [1; 2]))
    [(0, mkVerifier 2 (fun d s => true)); (1, mkVerifier 3 (fun d s => true))] _ 1
    (mkVerifier 3 (fun d s => true))); [reflexivity|].
  right. left.
Defined.
End SigManager.
