(* ===== verification/VectorOfShares.v ===== *)
(** * VectorOfShares (threshsign/src/VectorOfShares.cpp, threshsign/include/threshsign/VectorOfShares.h)

    The set of signers of a threshold or multi-signature: a [std::bitset] of fixed
    length with a counter.  Share identifiers are [int]s from 1.  The theorems relate
    it to a finite set, give the order in which the [first]/[next]/[isEnd] loops of the
    library visit it, and show that serialization round-trips. *)
From S2P Require Import Prelude Bitmap.

Module VectorOfShares.

Definition MAX_NUM_OF_SHARES : Z := 2048.

(** [size] is the number of bits set. *)
Record t := mk { data : list bool; size : Z }.

Definition ctor : t := mk (replicate (Z.to_nat MAX_NUM_OF_SHARES) false) 0.

Definition data_size (v : t) : Z := Z.of_nat (length (data v)).

(** [data[pos]] *)
Definition bit (v : t) (pos : Z) : res bool :=
  if pos <? 0 then Err OutOfBounds
  else match data v !! Z.to_nat pos with Some b => Ok b | None => Err OutOfBounds end.

Definition add (v : t) (e : Z) : res t :=
  assert! (1 <=? e) ;;
  assert! (e <=? MAX_NUM_OF_SHARES) ;;
  let pos := e - 1 in
  b ← bit v pos;
  if negb b then Ok (mk (<[Z.to_nat pos := true]> (data v)) (size v + 1)) else Ok v.

Definition remove (v : t) (e : Z) : res t :=
  assert! (1 <=? e) ;;
  assert! (e <=? MAX_NUM_OF_SHARES) ;;
  let pos := e - 1 in
  b ← bit v pos;
  if (b : bool) then Ok (mk (<[Z.to_nat pos := false]> (data v)) (size v - 1)) else Ok v.

Definition contains (v : t) (e : Z) : res bool := bit v (e - 1).

Definition count (v : t) : Z := size v.

Definition clear (v : t) : t := mk (replicate (length (data v)) false) 0.

Definition isEnd (v : t) (e : Z) : res bool :=
  assert! (0 <? e) ;;
  Ok (data_size v <? e).

(** The loop of [next] over the bits from index [i] on; [sz] is the length of [data]. *)
Fixpoint next_loop (sz : Z) (l : list bool) (i : Z) : Z :=
  match l with
  | [] => sz + 1
  | b :: l' => if b then i + 1 else next_loop sz l' (i + 1)
  end.

Definition next (v : t) (current : Z) : res Z :=
  assert! (0 <=? current) ;;
  let sz := data_size v in
  if sz <? current + 1 then Ok (sz + 1)
  else
    assert! (current <? MAX_NUM_OF_SHARES) ;;
    Ok (next_loop sz (drop (Z.to_nat current) (data v)) current).

Definition first (v : t) : res Z := next v 0.

(** The loop of [skip], [n] rounds. *)
Fixpoint skip_loop (v : t) (n : nat) (current : Z) : res Z :=
  match n with
  | O => Ok current
  | S n => current ← next v current; skip_loop v n current
  end.

Definition skip (v : t) (current cnt : Z) : res Z :=
  assert! (0 <? cnt) ;;
  skip_loop v (Z.to_nat cnt) current.

(** The loop of [findFirstGap]. *)
Fixpoint gap_loop (l : list bool) (i : Z) : Z :=
  match l with
  | [] => i + 1
  | b :: l' => if b then gap_loop l' (i + 1) else i + 1
  end.

Definition findFirstGap (v : t) : Z := gap_loop (data v) 0.

(** [for (c = first(); isEnd(c) == false; c = next(c)) { count++; if (i == count) return c; }];
    [None] when the loop ends. *)
Fixpoint ith_loop (fuel : nat) (v : t) (i c cnt : Z) : res (option Z) :=
  match fuel with
  | O => Err OutOfFuel
  | S fuel =>
      e ← isEnd v c;
      if (e : bool) then Ok None
      else
        let cnt := cnt + 1 in
        if u64 i =? cnt then Ok (Some c)
        else c ← next v c; ith_loop fuel v i c cnt
  end.

(** Enough rounds for a loop from [first] to the end. *)
Definition loop_fuel : nat := Z.to_nat (MAX_NUM_OF_SHARES + 1).

(** The test [count > data.size()] of the code compares the fresh counter, which is 0. *)
Definition ith (v : t) (i : Z) : res Z :=
  let cnt := 0 in
  if data_size v <? cnt then Ok (data_size v + 1)
  else
    c ← first v;
    r ← ith_loop loop_fuel v i c cnt;
    match r with
    | Some c => Ok c
    | None => Err AssertFailed
    end.

(** The loop of [last]: [l] are the bits below index [j + 1], highest first. *)
Fixpoint last_loop (sz : Z) (l : list bool) (j : Z) : Z :=
  match l with
  | [] => sz + 1
  | b :: l' => if b then j + 1 else last_loop sz l' (j - 1)
  end.

Definition last (v : t) : Z := last_loop (data_size v) (reverse (data v)) (data_size v - 1).

Definition getByteCount : Z :=
  if MAX_NUM_OF_SHARES mod 8 =? 0 then MAX_NUM_OF_SHARES / 8 else MAX_NUM_OF_SHARES / 8 + 1.

(** [for (id = c; isEnd(id) == false; id = next(id)) a = f(a, id)] *)
Fixpoint iterate {A} (fuel : nat) (v : t) (f : A → Z → res A) (c : Z) (a : A) : res A :=
  match fuel with
  | O => Err OutOfFuel
  | S fuel =>
      e ← isEnd v c;
      if (e : bool) then Ok a
      else a ← f a c; c ← next v c; iterate fuel v f c a
  end.

(** The body of the loop of [toBytes]. *)
Definition setBit (buf : list Z) (id1 : Z) : res (list Z) :=
  let id0 := id1 - 1 in
  let byteOffset := id0 / 8 in
  let mask := Z.shiftl 1 (id0 mod 8) in
  match buf !! Z.to_nat byteOffset with
  | Some x => Ok (<[Z.to_nat byteOffset := u8 (Z.lor x mask)]> buf)
  | None => Err OutOfBounds
  end.

(** Result: the buffer. *)
Definition toBytes (v : t) (buf : list Z) (capacity : Z) : res (list Z) :=
  let byteCount := getByteCount in
  if capacity <? byteCount then Err Thrown
  else
    buf ← put_bytes buf 0 (replicate (Z.to_nat byteCount) 0);
    c ← first v;
    iterate loop_fuel v setBit c buf.

(** The inner loop of [fromBytes]: the bits [c], ..., 7 of the byte at offset [b]. *)
Fixpoint fromByte (n : nat) (v : t) (byte b c : Z) : res t :=
  match n with
  | O => Ok v
  | S n =>
      v ← (if negb (Z.land byte (Z.shiftl 1 c) =? 0) then add v (b * 8 + (c + 1)) else Ok v);
      fromByte n v byte b (c + 1)
  end.

Fixpoint fromBytes_loop (v : t) (bytes : list Z) (b : Z) : res t :=
  match bytes with
  | [] => Ok v
  | byte :: bytes => v ← fromByte 8 v byte b 0; fromBytes_loop v bytes (b + 1)
  end.

Definition fromBytes (v : t) (buf : list Z) (len : Z) : res t :=
  bytes ← get_bytes buf 0 len;
  fromBytes_loop (clear v) bytes 0.

(** ** The set a vector stands for *)
Definition wf (v : t) : Prop :=
  data_size v = MAX_NUM_OF_SHARES ∧ size v = Prelude.count (fun b => b = true) (data v).

(** The positions of the bits set, from [i] on. *)
Fixpoint ids (i : Z) (l : list bool) : list Z :=
  match l with
  | [] => []
  | b :: l' => if b then i :: ids (i + 1) l' else ids (i + 1) l'
  end.

Definition elems (v : t) : list Z := ids 1 (data v).

Definition shares (v : t) : gset Z := list_to_set (elems v).

Lemma elem_of_ids l : ∀ i x, x ∈ ids i l ↔ i <= x ∧ l !! Z.to_nat (x - i) = Some true.
Proof.
  induction l as [|b l IH]; intros i x; simpl; [set_solver|].
  assert (i + 1 <= x ∧ l !! Z.to_nat (x - (i + 1)) = Some true ↔
          i < x ∧ (b :: l) !! Z.to_nat (x - i) = Some true) as Hs.
  { split; intros [Hx Hl]; (split; [lia|]);
      replace (Z.to_nat (x - i)) with (S (Z.to_nat (x - (i + 1)))) in * by lia; done. }
  destruct b; rewrite ?elem_of_cons, IH, Hs.
  - split; [intros [-> | ?]; [rewrite Z.sub_diag|split; [lia|tauto]]|intros [? ?]]; [done|].
    destruct (decide (x = i)); [by left|right; split; [lia|done]].
  - split; [intros ?; split; [lia|tauto]|intros [? Hl]]. split; [|done].
    destruct (decide (x = i)) as [-> |]; [by rewrite Z.sub_diag in Hl|lia].
Qed.

Lemma ids_sorted l : ∀ i, StronglySorted Z.lt (ids i l).
Proof.
  induction l as [|b l IH]; intros i; simpl; [constructor|]. destruct b; [|done].
  constructor; [done|]. apply Forall_forall. intros x [Hx _]%elem_of_ids. lia.
Qed.

Lemma length_ids l : ∀ i, Z.of_nat (length (ids i l)) = Prelude.count (fun b => b = true) l.
Proof. induction l as [|b l IH]; intros i; [done|]. rewrite count_cons. specialize (IH (i + 1)). destruct b; simpl in *; lia. Qed.

Lemma elem_of_shares v x : x ∈ shares v ↔ 1 <= x ∧ data v !! Z.to_nat (x - 1) = Some true.
Proof. unfold shares, elems. by rewrite elem_of_list_to_set, elem_of_ids. Qed.

Lemma shares_range v x : wf v → x ∈ shares v → 1 <= x <= MAX_NUM_OF_SHARES.
Proof.
  intros [Hl _] [Hx Hd]%elem_of_shares. apply lookup_lt_Some in Hd. unfold data_size in Hl. lia.
Qed.

Lemma elems_nodup v : NoDup (elems v).
Proof.
  unfold elems. generalize 1. induction (data v) as [|b l IH]; intros i; simpl; [constructor|].
  destruct b; [|done]. constructor; [|done]. intros [? _]%elem_of_ids. lia.
Qed.

Lemma size_shares v : wf v → size v = Z.of_nat (stdpp.base.size (shares v)).
Proof. intros [_ ->]. unfold shares. rewrite size_list_to_set by apply elems_nodup. unfold elems. by rewrite length_ids. Qed.

Lemma wf_ext v v' : wf v → wf v' → shares v = shares v' → v = v'.
Proof.
  intros [Hl Hs] [Hl' Hs'] Heq. assert (data v = data v') as Hd.
  { apply list_eq. intros k. unfold data_size in *. destruct (decide (k < length (data v))%nat) as [Hk|Hk].
    - destruct (lookup_lt_is_Some_2 (data v) k Hk) as [b Hb].
      destruct (lookup_lt_is_Some_2 (data v') k) as [b' Hb']; [lia|].
      pose proof (elem_of_shares v (Z.of_nat k + 1)) as H1. pose proof (elem_of_shares v' (Z.of_nat k + 1)) as H2.
      replace (Z.to_nat (Z.of_nat k + 1 - 1)) with k in H1, H2 by lia.
      rewrite Heq, Hb in H1. rewrite Hb' in H2. rewrite Hb, Hb'. f_equal.
      destruct b, b'; try done; [assert (Some false = Some true) as E by (apply H2, H1; split; [lia|done])
        |assert (Some false = Some true) as E by (apply H1, H2; split; [lia|done])]; done.
    - rewrite !lookup_ge_None_2 by lia. done. }
  destruct v, v'. simpl in *. by subst.
Qed.

(** Writing one bit. *)
Lemma count_insert (l : list bool) k (b b' : bool) : l !! k = Some b →
  Prelude.count (fun b => b = true) (<[k := b']> l) =
  Prelude.count (fun b => b = true) l - (if b then 1 else 0) + (if b' then 1 else 0).
Proof.
  revert k. induction l as [|c l IH]; intros k Hk; [done|].
  destruct k as [|k]; simpl in *; rewrite !count_cons; [|rewrite (IH k Hk); lia].
  injection Hk as ->. destruct b, b'; simpl; lia.
Qed.

Lemma set_bit_shares v e (b : bool) s : data_size v = MAX_NUM_OF_SHARES → 1 <= e <= MAX_NUM_OF_SHARES →
  shares (mk (<[Z.to_nat (e - 1) := b]> (data v)) s) = if b then {[e]} ∪ shares v else shares v ∖ {[e]}.
Proof.
  intros Hl He. unfold data_size in Hl. apply set_eq. intros x. rewrite elem_of_shares. simpl.
  pose proof (elem_of_shares v x) as Hx.
  destruct (decide (x = e)) as [-> |Hne].
  - rewrite list_lookup_insert_eq by lia. destruct b; set_solver by lia.
  - destruct (decide (1 <= x)) as [H1|H1].
    + rewrite list_lookup_insert_ne by lia. destruct b; set_solver.
    + destruct b; set_solver.
Qed.

Lemma bit_in v e : data_size v = MAX_NUM_OF_SHARES → 1 <= e <= MAX_NUM_OF_SHARES →
  ∃ b, bit v (e - 1) = Ok b ∧ data v !! Z.to_nat (e - 1) = Some b ∧ (b = true ↔ e ∈ shares v).
Proof.
  unfold bit, data_size. intros Hl He. destruct (lookup_lt_is_Some_2 (data v) (Z.to_nat (e - 1))) as [b Hb]; [lia|].
  exists b. rewrite (proj2 (Z.ltb_ge _ _)) by lia. rewrite Hb. split_and!; [done|done|].
  rewrite elem_of_shares, Hb. split; [intros ->; split; [lia|done]|naive_solver].
Qed.

Lemma add_post v e : wf v → 1 <= e <= MAX_NUM_OF_SHARES →
  ∃ v', add v e = Ok v' ∧ wf v' ∧ shares v' = {[e]} ∪ shares v.
Proof.
  intros Hwf He. destruct (bit_in v e (proj1 Hwf) He) as (b & Hb & Hd & Hin). unfold add.
  rewrite (proj2 (Z.leb_le 1 e)), (proj2 (Z.leb_le e _)) by lia. cbn [Assert mbind res_bind]. rewrite Hb. cbn [mbind res_bind].
  destruct b; simpl.
  - exists v. split_and!; [done|done|]. set_solver.
  - eexists. split; [done|]. split.
    + destruct Hwf as [Hl Hs]. split; simpl; [unfold data_size in *; simpl; by rewrite length_insert|].
      rewrite (count_insert _ _ _ _ Hd). lia.
    + by apply set_bit_shares; [apply Hwf|].
Qed.

Lemma remove_post v e : wf v → 1 <= e <= MAX_NUM_OF_SHARES →
  ∃ v', remove v e = Ok v' ∧ wf v' ∧ shares v' = shares v ∖ {[e]}.
Proof.
  intros Hwf He. destruct (bit_in v e (proj1 Hwf) He) as (b & Hb & Hd & Hin). unfold remove.
  rewrite (proj2 (Z.leb_le 1 e)), (proj2 (Z.leb_le e _)) by lia. cbn [Assert mbind res_bind]. rewrite Hb. cbn [mbind res_bind].
  destruct b; simpl.
  - eexists. split; [done|]. split.
    + destruct Hwf as [Hl Hs]. split; simpl; [unfold data_size in *; simpl; by rewrite length_insert|].
      rewrite (count_insert _ _ _ _ Hd). lia.
    + by apply set_bit_shares; [apply Hwf|].
  - exists v. split_and!; [done|done|]. assert (e ∉ shares v) by (intros ?%Hin; done). set_solver.
Qed.

Lemma empty_post n : n = Z.to_nat MAX_NUM_OF_SHARES → wf (mk (replicate n false) 0) ∧ shares (mk (replicate n false) 0) = ∅.
Proof.
  intros ->. split; [split|].
  - unfold data_size. cbn [data]. rewrite length_replicate. by rewrite Z2Nat.id.
  - cbn [data]. generalize (Z.to_nat MAX_NUM_OF_SHARES). induction n as [|n IH]; [done|]. simpl. rewrite count_cons. simpl. exact IH.
  - apply set_eq. intros x. rewrite elem_of_shares. cbn [data]. split; [|by intros ?%not_elem_of_empty].
    intros [_ [? _]%lookup_replicate]. done.
Qed.

Lemma ctor_post : wf ctor ∧ shares ctor = ∅.
Proof. by apply empty_post. Qed.

(** ** Iteration *)
Lemma ids_drop l : ∀ i n, (n <= length l)%nat → ids (i + Z.of_nat n) (drop n l) = filter (fun x => i + Z.of_nat n <= x) (ids i l).
Proof.
  induction l as [|b l IH]; intros i n Hn.
  - simpl in Hn. replace n with 0%nat by lia. done.
  - destruct n as [|n].
    + rewrite Z.add_0_r, drop_0. symmetry. apply filter_all, Forall_forall. intros x [? _]%elem_of_ids. done.
    + cbn [drop]. replace (i + Z.of_nat (S n)) with (i + 1 + Z.of_nat n) by lia. simpl in Hn. rewrite IH by lia.
      cbn [ids]. destruct b; [|done]. rewrite filter_cons_False; [done|]. lia.
Qed.

Lemma next_loop_ids sz l : ∀ i, next_loop sz l i = default (sz + 1) (head (ids (i + 1) l)).
Proof. induction l as [|b l IH]; intros i; simpl; [done|]. destruct b; [done|]. by rewrite IH. Qed.

Lemma next_post v c : wf v → 0 <= c →
  next v c = Ok (default (MAX_NUM_OF_SHARES + 1) (head (filter (fun x => c < x) (elems v)))).
Proof.
  intros [Hl _] Hc. unfold next. rewrite (proj2 (Z.leb_le _ _) Hc). cbn [Assert mbind res_bind]. rewrite Hl.
  destruct (Z.ltb_spec MAX_NUM_OF_SHARES (c + 1)) as [Hlt|Hge].
  - rewrite filter_none; [done|]. apply Forall_forall. intros x [Hx Hd]%elem_of_ids. apply lookup_lt_Some in Hd.
    unfold data_size in Hl. lia.
  - rewrite (proj2 (Z.ltb_lt _ _)) by lia. cbn [Assert mbind res_bind]. rewrite next_loop_ids. do 3 f_equal.
    pose proof (ids_drop (data v) 1 (Z.to_nat c)) as Hd. unfold data_size in Hl.
    replace (1 + Z.of_nat (Z.to_nat c)) with (c + 1) in Hd by lia. rewrite Hd by lia.
    unfold elems. apply list_filter_iff. lia.
Qed.

(** After an element comes the next one. *)
Lemma next_elem v pre x rest : wf v → elems v = pre ++ x :: rest →
  next v x = Ok (default (MAX_NUM_OF_SHARES + 1) (head rest)).
Proof.
  intros Hwf Heq. assert (x ∈ shares v) as Hx by (unfold shares; rewrite Heq; set_solver).
  apply (shares_range _ _ Hwf) in Hx. rewrite next_post by (done || lia). rewrite Heq. do 3 f_equal.
  pose proof (ids_sorted (data v) 1) as Hs. fold (elems v) in Hs. rewrite Heq in Hs.
  apply StronglySorted_app in Hs as (Hpre & _ & Hs). apply StronglySorted_cons in Hs as [Hrest _].
  rewrite filter_app, filter_cons_False by lia. rewrite (filter_all _ rest Hrest), filter_none; [done|].
  apply Forall_forall. intros y Hy. assert (y < x) by (apply Hpre; [done|left]). lia.
Qed.

Lemma isEnd_post v l : wf v → Forall (fun x => 1 <= x <= MAX_NUM_OF_SHARES) l →
  isEnd v (default (MAX_NUM_OF_SHARES + 1) (head l)) = Ok (bool_decide (l = [])).
Proof.
  intros [Hl _] Hr. unfold isEnd. rewrite Hl. destruct l as [|x l]; simpl; [done|].
  apply Forall_cons in Hr as [Hx _]. rewrite (proj2 (Z.ltb_lt 0 x)) by lia. cbn. by rewrite (proj2 (Z.ltb_ge _ x)) by lia.
Qed.

Lemma elems_range v : wf v → Forall (fun x => 1 <= x <= MAX_NUM_OF_SHARES) (elems v).
Proof. intros Hwf. apply Forall_forall. intros x Hx. apply (shares_range v); [done|]. unfold shares. set_solver. Qed.

Lemma iterate_rest {A} v (f : A → Z → res A) fuel : ∀ pre rest a, wf v → elems v = pre ++ rest → (length rest < fuel)%nat →
  iterate fuel v f (default (MAX_NUM_OF_SHARES + 1) (head rest)) a = foldM f a rest.
Proof.
  induction fuel as [|fuel IH]; intros pre rest a Hwf Heq Hf; [lia|]. cbn [iterate].
  pose proof (elems_range v Hwf) as Hr. rewrite Heq in Hr. apply Forall_app in Hr as [_ Hr].
  rewrite isEnd_post by done. cbn [mbind res_bind]. destruct rest as [|x rest]; simpl; [done|].
  destruct (f a x) as [a'|]; simpl; [|done]. rewrite (next_elem v pre x rest Hwf Heq). cbn [mbind res_bind].
  apply (IH (pre ++ [x])); [done|by rewrite <- app_assoc|simpl in Hf; lia].
Qed.

Lemma first_post v : wf v → first v = Ok (default (MAX_NUM_OF_SHARES + 1) (head (elems v))).
Proof.
  intros Hwf. unfold first. rewrite next_post by (done || lia). do 3 f_equal. apply filter_all.
  eapply Forall_impl; [by apply elems_range|]. simpl. lia.
Qed.

Lemma length_elems v : wf v → (length (elems v) < loop_fuel)%nat.
Proof.
  intros [Hl _]. unfold elems, loop_fuel. pose proof (length_ids (data v) 1) as H.
  pose proof (count_le_length (fun b => b = true) (data v)). unfold data_size in Hl. lia.
Qed.

(** The loops of the library over a vector visit its elements in increasing order. *)
Lemma iterate_post {A} v (f : A → Z → res A) a : wf v →
  (c ← first v; iterate loop_fuel v f c a) = foldM f a (elems v).
Proof.
  intros Hwf. rewrite first_post by done. cbn [mbind res_bind].
  apply (iterate_rest v f loop_fuel []); [done|done|by apply length_elems].
Qed.

Lemma ith_rest v i fuel : ∀ pre rest, wf v → elems v = pre ++ rest → (length rest < fuel)%nat → 0 <= i < 2 ^ 64 →
  ith_loop fuel v i (default (MAX_NUM_OF_SHARES + 1) (head rest)) (Z.of_nat (length pre)) =
  Ok (if Z.of_nat (length pre) <? i then rest !! Z.to_nat (i - Z.of_nat (length pre) - 1) else None).
Proof.
  induction fuel as [|fuel IH]; intros pre rest Hwf Heq Hf Hi; [lia|]. cbn [ith_loop].
  pose proof (elems_range v Hwf) as Hr. rewrite Heq in Hr. apply Forall_app in Hr as [_ Hr].
  rewrite isEnd_post by done. cbn [mbind res_bind]. destruct rest as [|x rest].
  { simpl. by destruct (_ <? i). }
  rewrite bool_decide_eq_false_2 by done. unfold u64. rewrite wrap_small by lia.
  destruct (Z.eqb_spec i (Z.of_nat (length pre) + 1)) as [-> |Hne].
  - rewrite (proj2 (Z.ltb_lt _ _)) by lia. replace (Z.to_nat _) with 0%nat by lia. done.
  - cbn [head from_option]. unfold id. rewrite (next_elem v pre x rest Hwf Heq). cbn [mbind res_bind].
    specialize (IH (pre ++ [x]) rest). rewrite length_app in IH. cbn [length] in *.
    replace (Z.of_nat (length pre + 1)) with (Z.of_nat (length pre) + 1) in IH by lia.
    rewrite IH; [|done|by rewrite <- app_assoc|lia|done]. f_equal.
    destruct (Z.ltb_spec (Z.of_nat (length pre)) i), (Z.ltb_spec (Z.of_nat (length pre) + 1) i); try lia; [|done].
    replace (Z.to_nat (i - Z.of_nat (length pre) - 1)) with (S (Z.to_nat (i - (Z.of_nat (length pre) + 1) - 1))) by lia. done.
Qed.

Lemma ids_snoc l b : ∀ i, ids i (l ++ [b]) = ids i l ++ if b then [i + Z.of_nat (length l)] else [].
Proof.
  induction l as [|c l IH]; intros i; simpl.
  - rewrite Z.add_0_r. by destruct b.
  - rewrite IH. replace (i + 1 + Z.of_nat (length l)) with (i + Z.of_nat (S (length l))) by lia. by destruct c.
Qed.

Lemma last_loop_ids sz l : last_loop sz (reverse l) (Z.of_nat (length l) - 1) = default (sz + 1) (list.last (ids 1 l)).
Proof.
  induction l as [|b l IH] using rev_ind; [done|].
  rewrite reverse_app, ids_snoc, length_app. simpl. destruct b.
  - rewrite last_snoc. simpl. lia.
  - rewrite app_nil_r. rewrite <- IH. f_equal. lia.
Qed.

Lemma gap_loop_spec l : ∀ i, let g := gap_loop l i in
  i < g <= i + Z.of_nat (length l) + 1 ∧ l !! Z.to_nat (g - i - 1) ≠ Some true ∧
  ∀ x, i < x < g → l !! Z.to_nat (x - i - 1) = Some true.
Proof.
  induction l as [|b l IH]; intros i; cbn [gap_loop].
  - split_and!; [simpl; lia..|done|lia].
  - destruct b.
    + destruct (IH (i + 1)) as (Hg & Hn & Hall). cbn [length]. split_and!; [lia..| |].
      * replace (Z.to_nat (gap_loop l (i + 1) - i - 1)) with (S (Z.to_nat (gap_loop l (i + 1) - (i + 1) - 1))) by lia. done.
      * intros x Hx. destruct (decide (x = i + 1)) as [-> |]; [by replace (Z.to_nat _) with 0%nat by lia|].
        replace (Z.to_nat (x - i - 1)) with (S (Z.to_nat (x - (i + 1) - 1))) by lia. apply Hall. lia.
    + cbn [length]. split_and!; [lia..| |lia]. by replace (Z.to_nat _) with 0%nat by lia.
Qed.

(** A vector of shares behaves as a finite set of identifiers from 1 to
    [MAX_NUM_OF_SHARES] with a cached size: every operation computes the set operation
    of its name, keeps the counter equal to the size of the set and the identifiers in
    range, and fails exactly on the identifiers out of range. *)
Theorem vectorOfShares_refines_set v e : wf v →
  (wf ctor ∧ shares ctor = ∅) ∧ (wf (clear v) ∧ shares (clear v) = ∅) ∧
  count v = Z.of_nat (stdpp.base.size (shares v)) ∧
  (∀ x, x ∈ shares v → 1 <= x <= MAX_NUM_OF_SHARES) ∧
  (1 <= e <= MAX_NUM_OF_SHARES →
     (∃ v', add v e = Ok v' ∧ wf v' ∧ shares v' = {[e]} ∪ shares v) ∧
     (∃ v', remove v e = Ok v' ∧ wf v' ∧ shares v' = shares v ∖ {[e]}) ∧
     contains v e = Ok (bool_decide (e ∈ shares v))) ∧
  (~ 1 <= e <= MAX_NUM_OF_SHARES → add v e = Err AssertFailed ∧ remove v e = Err AssertFailed).
Proof.
  intros Hwf. split_and!.
  - by apply empty_post.
  - by apply empty_post.
  - apply empty_post. unfold clear. pose proof (proj1 Hwf) as Hl. unfold data_size in Hl. lia.
  - apply empty_post. unfold clear. pose proof (proj1 Hwf) as Hl. unfold data_size in Hl. lia.
  - by apply size_shares.
  - intros x. by apply shares_range.
  - intros He. split_and!; [by apply add_post|by apply remove_post|].
    destruct (bit_in v e (proj1 Hwf) He) as (b & Hb & _ & Hin). unfold contains. rewrite Hb. f_equal.
    destruct b; symmetry; [apply bool_decide_eq_true_2|apply bool_decide_eq_false_2]; naive_solver.
  - intros He. unfold add, remove.
    destruct (Z.leb_spec 1 e); [|done]. destruct (Z.leb_spec e MAX_NUM_OF_SHARES); [lia|done].
Qed.

(** The loops [for (id = first(); !isEnd(id); id = next(id))] of the library end
    and visit the shares of a vector once each in increasing order; [ith] counts in that
    order and stops the process beyond the last one; [last] and [findFirstGap] return the
    greatest share and the least identifier that is not a share. *)
Theorem vectorOfShares_iteration v : wf v →
  StronglySorted Z.lt (elems v) ∧
  (∀ A (f : A → Z → res A) a, (c ← first v; iterate loop_fuel v f c a) = foldM f a (elems v)) ∧
  (∀ i, 0 <= i < 2 ^ 31 →
     ith v i = from_option Ok (Err AssertFailed) (if 0 <? i then elems v !! Z.to_nat (i - 1) else None)) ∧
  last v = default (MAX_NUM_OF_SHARES + 1) (list.last (elems v)) ∧
  (1 <= findFirstGap v <= MAX_NUM_OF_SHARES + 1) ∧ (findFirstGap v ∉ shares v) ∧
  (∀ x, 1 <= x < findFirstGap v → x ∈ shares v).
Proof.
  intros Hwf. split_and!; [apply ids_sorted|..].
  - intros. by apply iterate_post.
  - intros i Hi. unfold ith. rewrite (proj2 (Z.ltb_ge _ _)) by (unfold data_size; lia).
    rewrite first_post by done. cbn [mbind res_bind].
    pose proof (ith_rest v i loop_fuel [] (elems v) Hwf eq_refl (length_elems v Hwf)) as H. cbn [length] in H.
    change (Z.of_nat 0) with 0 in H. rewrite H by lia. cbn [mbind res_bind]. rewrite Z.sub_0_r. done.
  - unfold last, data_size. rewrite last_loop_ids. fold (data_size v). by rewrite (proj1 Hwf).
  - destruct (gap_loop_spec (data v) 0) as (Hg & Hn & _). unfold findFirstGap. lia.
  - destruct (gap_loop_spec (data v) 0) as (Hg & Hn & _). unfold findFirstGap. pose proof (proj1 Hwf) as Hl. unfold data_size in Hl. lia.
  - destruct (gap_loop_spec (data v) 0) as (Hg & Hn & _). rewrite elem_of_shares. unfold findFirstGap. rewrite Z.sub_0_r in Hn. tauto.
  - intros x Hx. destruct (gap_loop_spec (data v) 0) as (_ & _ & Hall). apply elem_of_shares. split; [lia|].
    unfold findFirstGap in Hx. specialize (Hall x). rewrite Z.sub_0_r in Hall. apply Hall. lia.
Qed.

(** ** Serialization *)

(** The bit of a buffer that stands for share [id]. *)
Definition bufbit (buf : list Z) (id : Z) : bool :=
  match buf !! Z.to_nat ((id - 1) / 8) with Some x => Z.testbit x ((id - 1) mod 8) | None => false end.

Lemma setBit_post buf id : Forall is_byte buf → 1 <= id <= 8 * Z.of_nat (length buf) →
  ∃ buf', setBit buf id = Ok buf' ∧ length buf' = length buf ∧ Forall is_byte buf' ∧
    ∀ j, 1 <= j → bufbit buf' j = (id =? j) || bufbit buf j.
Proof.
  intros Hb Hid. unfold setBit. set (o := Z.to_nat ((id - 1) / 8)).
  assert (Z.of_nat o = (id - 1) / 8) as Ho by (unfold o; dlia).
  destruct (lookup_lt_is_Some_2 buf o) as [x Hx]; [dlia|]. rewrite Hx.
  assert (is_byte x) as Hbx by exact (Forall_lookup_1 _ _ _ _ Hb Hx).
  rewrite Z.shiftl_1_l. destruct (Bitmap.set_bit x ((id - 1) mod 8) Hbx) as [Hby Hbits]; [dlia|].
  unfold u8. rewrite wrap_small by (unfold is_byte in Hby; lia).
  eexists. split; [done|]. split; [by rewrite length_insert|]. split; [by apply Forall_insert|].
  intros j Hj. unfold bufbit. destruct (decide (Z.to_nat ((j - 1) / 8) = o)) as [Heq|Hne].
  - rewrite Heq, list_lookup_insert_eq, Hx by (by eapply lookup_lt_Some). rewrite Hbits by dlia. f_equal.
    destruct (Z.eqb_spec id j), (Z.eqb_spec ((id - 1) mod 8) ((j - 1) mod 8)); try done; subst; try dlia.
  - rewrite list_lookup_insert_ne by done. destruct (Z.eqb_spec id j); [|done]. subst. done.
Qed.

Lemma setBits_post l : ∀ buf, Forall is_byte buf → Forall (fun id => 1 <= id <= 8 * Z.of_nat (length buf)) l →
  ∃ buf', foldM setBit buf l = Ok buf' ∧ length buf' = length buf ∧ Forall is_byte buf' ∧
    ∀ j, 1 <= j → bufbit buf' j = bool_decide (j ∈ l) || bufbit buf j.
Proof.
  induction l as [|id l IH]; intros buf Hb Hl; cbn [foldM].
  { exists buf. split_and!; [done..|]. intros j Hj. by rewrite bool_decide_eq_false_2 by set_solver. }
  apply Forall_cons in Hl as [Hid Hl]. destruct (setBit_post buf id Hb Hid) as (b1 & -> & Hlen & Hb1 & Hbit). cbn [mbind res_bind].
  destruct (IH b1 Hb1) as (b2 & -> & Hlen2 & Hb2 & Hbit2); [by rewrite Hlen|]. exists b2. split_and!; [done|lia|done|].
  intros j Hj. rewrite Hbit2, Hbit by done. rewrite orb_assoc. f_equal.
  destruct (Z.eqb_spec id j) as [-> |Hne].
  - rewrite orb_true_r. by rewrite bool_decide_eq_true_2 by left.
  - rewrite orb_false_r. apply bool_decide_ext. set_solver.
Qed.

Lemma fromByte_post byte b n : ∀ v c, wf v → 0 <= c → c + Z.of_nat n = 8 → 0 <= b → 8 * b + 8 <= MAX_NUM_OF_SHARES →
  ∃ v', fromByte n v byte b c = Ok v' ∧ wf v' ∧
    ∀ x, x ∈ shares v' ↔ x ∈ shares v ∨ 8 * b + c < x <= 8 * b + 8 ∧ Z.testbit byte (x - 8 * b - 1) = true.
Proof.
  induction n as [|n IH]; intros v c Hwf Hc Hn Hb Hmax; cbn [fromByte].
  { exists v. split_and!; [done..|]. intros x. split; [by left|intros [?|[? _]]; [done|lia]]. }
  rewrite Z.shiftl_1_l, Bitmap.land_mask by lia.
  assert (∃ v1, (if Z.testbit byte c then add v (b * 8 + (c + 1)) else Ok v) = Ok v1 ∧ wf v1 ∧
    ∀ x, x ∈ shares v1 ↔ x ∈ shares v ∨ x = 8 * b + c + 1 ∧ Z.testbit byte c = true) as (v1 & -> & Hwf1 & Hs1).
  { destruct (Z.testbit byte c).
    - destruct (add_post v (b * 8 + (c + 1)) Hwf) as (v1 & -> & ? & Hs); [lia|]. exists v1. split_and!; [done..|].
      intros x. rewrite Hs, elem_of_union, elem_of_singleton. replace (b * 8 + (c + 1)) with (8 * b + c + 1) by lia. tauto.
    - exists v. split_and!; [done..|]. naive_solver. }
  cbn [mbind res_bind]. destruct (IH v1 (c + 1) Hwf1) as (v2 & -> & Hwf2 & Hs2); [lia..|]. exists v2. split_and!; [done..|].
  intros x. rewrite Hs2, Hs1. destruct (decide (x = 8 * b + c + 1)) as [-> |Hne].
  - replace (8 * b + c + 1 - 8 * b - 1) with c by lia. split; [intros [[?|[_ ?]]|[? _]]|intros [?|[_ ?]]]; [tauto|right; split; [lia|done]|lia|tauto|tauto].
  - split; [intros [[?|[? _]]|[? ?]]|intros [?|[? ?]]]; [tauto|done|right; split; [lia|done]|tauto|right; split; [lia|done]].
Qed.

Lemma fromBytes_loop_post bytes : ∀ v b, wf v → 0 <= b → 8 * (b + Z.of_nat (length bytes)) <= MAX_NUM_OF_SHARES →
  ∃ v', fromBytes_loop v bytes b = Ok v' ∧ wf v' ∧
    ∀ x, x ∈ shares v' ↔ x ∈ shares v ∨ 8 * b < x ∧ bufbit bytes (x - 8 * b) = true.
Proof.
  induction bytes as [|byte bytes IH]; intros v b Hwf Hb Hmax; cbn [fromBytes_loop].
  { exists v. split_and!; [done..|]. intros x. unfold bufbit. rewrite lookup_nil. naive_solver. }
  cbn [length] in Hmax. destruct (fromByte_post byte b 8 v 0 Hwf) as (v1 & -> & Hwf1 & Hs1); [lia..|]. cbn [mbind res_bind].
  destruct (IH v1 (b + 1) Hwf1) as (v2 & -> & Hwf2 & Hs2); [lia..|]. exists v2. split_and!; [done..|].
  intros x. rewrite Hs2, Hs1. unfold bufbit. destruct (decide (8 * b < x <= 8 * b + 8)) as [Hx|Hx].
  - replace (Z.to_nat ((x - 8 * b - 1) / 8)) with 0%nat by dlia. cbn [lookup list_lookup].
    replace ((x - 8 * b - 1) mod 8) with (x - 8 * b - 1) by dlia. rewrite Z.add_0_r.
    split; [intros [[?|[? ?]]|[? _]]; [tauto|right; split; [lia|done]|lia]|intros [?|[_ ?]]; [tauto|left; right; done]].
  - destruct (decide (x <= 8 * b)); [split; [intros [[?|[? _]]|[? _]]; [tauto|lia..]|intros [?|[? _]]; [tauto|lia]]|].
    replace (Z.to_nat ((x - 8 * b - 1) / 8)) with (S (Z.to_nat ((x - 8 * (b + 1) - 1) / 8))) by dlia. cbn [lookup list_lookup].
    replace ((x - 8 * b - 1) mod 8) with ((x - 8 * (b + 1) - 1) mod 8) by dlia.
    split; [intros [[?|[? _]]|[? ?]]; [tauto|lia|right; split; [lia|done]]|intros [?|[? ?]]; [tauto|right; split; [lia|done]]].
Qed.

Lemma setBit_app z tail id : 1 <= id <= 8 * Z.of_nat (length z) →
  setBit (z ++ tail) id = (fun b => b ++ tail) <$> setBit z id.
Proof.
  intros Hid. unfold setBit. assert (Z.to_nat ((id - 1) / 8) < length z)%nat as Hlt by dlia.
  rewrite lookup_app_l by done. destruct (z !! _) as [x|]; [|done]. simpl. by rewrite insert_app_l.
Qed.

Lemma setBits_app tail l : ∀ z, Forall is_byte z → Forall (fun id => 1 <= id <= 8 * Z.of_nat (length z)) l →
  foldM setBit (z ++ tail) l = (fun b => b ++ tail) <$> foldM setBit z l.
Proof.
  induction l as [|id l IH]; intros z Hz Hl; [done|]. apply Forall_cons in Hl as [Hid Hl]. cbn [foldM].
  rewrite setBit_app by done. destruct (setBit_post z id Hz Hid) as (z1 & -> & Hlen & Hz1 & _). cbn.
  apply IH; [done|by rewrite Hlen].
Qed.

Lemma zeros_bufbit n j : bufbit (replicate n 0) j = false.
Proof. unfold bufbit. destruct (replicate n 0 !! _) as [x|] eqn:E; [|done]. apply lookup_replicate in E as [-> _]. apply Z.bits_0. Qed.

(** Serialization: [toBytes] writes [getByteCount()] bytes, one bit per identifier, into
    any buffer with room for them and [fromBytes] rebuilds the same vector from them; with
    less capacity [toBytes] throws. *)
Theorem vectorOfShares_roundtrip v u buf capacity : wf v → wf u → Forall is_byte buf →
  capacity = Z.of_nat (length buf) →
  (capacity < getByteCount → toBytes v buf capacity = Err Thrown) ∧
  (getByteCount <= capacity → ∃ buf', toBytes v buf capacity = Ok buf' ∧
     length buf' = length buf ∧ drop (Z.to_nat getByteCount) buf' = drop (Z.to_nat getByteCount) buf ∧
     fromBytes u buf' getByteCount = Ok v).
Proof.
  intros Hwf Hwfu Hbuf ->. unfold toBytes. split; intros Hcap.
  { by rewrite (proj2 (Z.ltb_lt _ _) Hcap). }
  rewrite (proj2 (Z.ltb_ge _ _) Hcap). change getByteCount with 256 in *.
  set (n := Z.to_nat 256) in *. assert (Z.of_nat n = 256) as Hn by (unfold n; lia). clearbody n.
  assert (put_bytes buf 0 (replicate n 0) = Ok (replicate n 0 ++ drop n buf)) as ->.
  { rewrite <- (take_drop n buf) at 1. apply put_bytes_head. rewrite length_take, length_replicate. lia. }
  cbn [mbind res_bind]. rewrite iterate_post by done.
  assert (Forall is_byte (replicate n 0)) as Hz by (apply Forall_replicate; unfold is_byte; lia).
  assert (Forall (fun id => 1 <= id <= 8 * Z.of_nat (length (replicate n 0))) (elems v)) as Hel.
  { eapply Forall_impl; [by apply elems_range|]. simpl. rewrite length_replicate. change MAX_NUM_OF_SHARES with 2048. lia. }
  rewrite setBits_app by done. destruct (setBits_post _ _ Hz Hel) as (z & -> & Hlen & Hzb & Hbit). cbn.
  rewrite length_replicate in Hlen. eexists. split_and!; [done| | |].
  - rewrite !length_app, length_drop. lia.
  - by rewrite drop_app_length' by done.
  - unfold fromBytes. rewrite get_bytes_head by lia. cbn [mbind res_bind].
    destruct (empty_post (length (data u))) as [Hce Hcs]. { pose proof (proj1 Hwfu) as Hl. unfold data_size in Hl. lia. }
    destruct (fromBytes_loop_post z (clear u) 0 Hce) as (v' & -> & Hwf' & Hs); [lia|change MAX_NUM_OF_SHARES with 2048; lia|].
    f_equal. apply wf_ext; [done|done|]. apply set_eq. intros x. rewrite Hs. unfold clear. rewrite Hcs. rewrite Z.mul_0_r, Z.sub_0_r.
    split; [intros [?%not_elem_of_empty|[Hx Hb]]; [done|]|intros Hx; right].
    + rewrite Hbit, zeros_bufbit, orb_false_r in Hb by lia. apply bool_decide_eq_true in Hb. unfold shares. by apply elem_of_list_to_set.
    + apply (shares_range _ _ Hwf) in Hx as Hr. split; [lia|]. rewrite Hbit by lia. apply orb_true_iff. left.
      apply bool_decide_eq_true. unfold shares in Hx. by apply elem_of_list_to_set in Hx.
Qed.

(** ** Witnesses *)
Definition sample : t :=
  match (v ← add ctor 3; v ← add v 2048; add v 9) with Ok v => v | Err _ => ctor end.

Lemma sample_wf : wf sample.
Proof. split; vm_compute; reflexivity. Qed.

Lemma vectorOfShares_refines_set_witness :
  count sample = 3 ∧ contains sample 9 = Ok true ∧ add sample 2049 = Err AssertFailed.
Proof.
  split; [reflexivity|]. split.
  - destruct (vectorOfShares_refines_set sample 9 sample_wf) as (_ & _ & _ & _ & H & _).
    destruct H as (_ & _ & Hc); [unfold MAX_NUM_OF_SHARES; lia|]. rewrite Hc. vm_compute. reflexivity.
  - destruct (vectorOfShares_refines_set sample 2049 sample_wf) as (_ & _ & _ & _ & _ & H).
    apply H. unfold MAX_NUM_OF_SHARES. lia.
Defined.

Lemma vectorOfShares_iteration_witness :
  (c ← first sample; iterate loop_fuel sample (fun l x => Ok (l ++ [x])) c []) = Ok [3; 9; 2048].
Proof.
  destruct (vectorOfShares_iteration sample sample_wf) as (_ & H & _). rewrite H. vm_compute. reflexivity.
Defined.

Lemma vectorOfShares_roundtrip_witness :
  ∃ buf, toBytes sample (replicate 256 255) 256 = Ok buf ∧ fromBytes ctor buf getByteCount = Ok sample.
Proof.
  destruct (vectorOfShares_roundtrip sample ctor (replicate 256 255) 256 sample_wf) as (_ & H).
  - split; vm_compute; reflexivity.
  - apply Forall_replicate. unfold is_byte. lia.
  - reflexivity.
  - destruct H as (buf & Ht & _ & _ & Hf); [vm_compute; discriminate|]. exists buf. split; [exact Ht|exact Hf].
Defined.
End VectorOfShares.
