(* ===== verification/Collector.v ===== *)
(** * CollectorOfThresholdSignatures
    (bftengine/src/bftengine/CollectorOfThresholdSignatures.hpp)

    Collects the partial threshold signatures of one sequence number, or a combined
    signature made by another replica, and has them combined or verified by
    background jobs.  The collector and the jobs it started are one transition
    system: a job runs on copies of the signatures, at any later time, and its
    result comes back as an internal message. *)
From S2P Require Import Prelude SysConsts.

Module Collector.

(** What the class template asks of its arguments [PART], [FULL] and [ExternalFunc]. *)
Class ExternalFunc (PART FULL : Type) := {
  part_signature : PART → list Z;
  full_signature : FULL → list Z;
  createCombinedSignatureMsg : Z → Z → list Z → FULL;
  numberOfRequiredSignatures : Z;
}.

(** [IThresholdVerifier]: verification of a combined signature, combination of
    shares by an accumulator, and the number of valid shares that an accumulator with
    share verification reports after the given shares were added.  An accumulator can
    fail an assertion or throw, which then ends the job that uses it. *)
Record Verifier := mkVerifier {
  verify : Digest → list Z → bool;
  combine : Digest → list (list Z) → res (list Z);
  numOfValidShares : Digest → list (list Z) → res Z;
}.

(** What the collector relies on.  A share names its signer, and [share_wf] says that the
    number of the signer is in the range that accumulators assert ([addNumById]); no check
    of received messages establishes it.  With such shares an accumulator that verifies
    them counts the signers of the valid ones, and the combination returns a signature,
    which verifies when the shares are valid and of [required] different signers. *)
Class VerifierSpec (V : Verifier) (required : Z) := {
  share_wf : list Z → Prop;
  share_signer : list Z → Z;
  share_ok : Digest → list Z → bool;
  numOfValidShares_spec d l : Forall share_wf l → Z.of_nat (length l) <= required →
    numOfValidShares V d l =
    Ok (Z.of_nat (size (list_to_set (share_signer <$> filter (fun x => share_ok d x = true) l) : gset Z)));
  combine_runs d l : Forall share_wf l → Z.of_nat (length l) = required → ∃ sig, combine V d l = Ok sig;
  combine_spec d l : Forall share_wf l → Z.of_nat (length l) = required →
    NoDup (share_signer <$> l) → Forall (fun x => share_ok d x = true) l →
    ∃ sig, combine V d l = Ok sig ∧ verify V d sig = true;
}.

Inductive SigState := Unknown | Invalid.
#[export] Instance SigState_eq_dec : EqDecision SigState.
Proof. solve_decision. Defined.

Section defs.
Context {PART FULL : Type} `{EF : !ExternalFunc PART FULL} (verifier : Verifier).

Record RepInfo := mkRepInfo { partialSigMsg : PART; state : SigState }.

(** The iteration order of the hash table [replicasInfo]. *)
Context (order : gmap Z RepInfo → list (Z * RepInfo)).

Record t := mk {
  numOfRequiredSigs : Z;
  processingSignaturesInTheBackground : bool;
  numberOfUnknownSignatures : Z;
  replicasInfo : gmap Z RepInfo;
  combinedValidSignatureMsg : option FULL;
  candidateCombinedSignatureMsg : option FULL;
  expectedSeqNumber : Z;
  expectedView : Z;
  expectedDigest : Digest;
}.

(** The jobs, with the values they were created with. *)
Inductive Job :=
  | SignaturesProcessingJob (seqNum view : Z) (digest : Digest) (reqDataItems : Z) (sigDataItems : list (Z * list Z))
  | CombinedSigVerificationJob (seqNum view : Z) (digest : Digest) (combinedSig : list Z).

(** The internal messages of the jobs. *)
Inductive Result :=
  | CombinedSigFailed (seqNum view : Z) (replicasWithBadSigs : list Z)
  | CombinedSigSucceeded (seqNum view : Z) (combinedSig : list Z)
  | VerifyCombinedSigResult (seqNum view : Z) (isValid : bool).

Definition ctor : t := mk 0 false 0 ∅ None None 0 0 zeroDigest.

Definition set_required (s : t) (n : Z) : t :=
  mk n (processingSignaturesInTheBackground s) (numberOfUnknownSignatures s) (replicasInfo s)
    (combinedValidSignatureMsg s) (candidateCombinedSignatureMsg s) (expectedSeqNumber s) (expectedView s) (expectedDigest s).
Definition set_processing (s : t) (b : bool) : t :=
  mk (numOfRequiredSigs s) b (numberOfUnknownSignatures s) (replicasInfo s)
    (combinedValidSignatureMsg s) (candidateCombinedSignatureMsg s) (expectedSeqNumber s) (expectedView s) (expectedDigest s).
Definition set_infos (s : t) (n : Z) (m : gmap Z RepInfo) : t :=
  mk (numOfRequiredSigs s) (processingSignaturesInTheBackground s) n m
    (combinedValidSignatureMsg s) (candidateCombinedSignatureMsg s) (expectedSeqNumber s) (expectedView s) (expectedDigest s).
Definition set_combined (s : t) (valid candidate : option FULL) : t :=
  mk (numOfRequiredSigs s) (processingSignaturesInTheBackground s) (numberOfUnknownSignatures s) (replicasInfo s)
    valid candidate (expectedSeqNumber s) (expectedView s) (expectedDigest s).
Definition set_expected (s : t) (seq view : Z) (d : Digest) : t :=
  mk (numOfRequiredSigs s) (processingSignaturesInTheBackground s) (numberOfUnknownSignatures s) (replicasInfo s)
    (combinedValidSignatureMsg s) (candidateCombinedSignatureMsg s) seq view d.

(** [SignaturesProcessingJob::add] *)
Definition job_add (reqDataItems : Z) (items : list (Z * list Z)) (srcRepId : Z) (sig : list Z) : res (list (Z * list Z)) :=
  assert! (Z.of_nat (length items) <? reqDataItems) ;;
  Ok (items ++ [(srcRepId, sig)]).

(** The loop filling the job; [n] is [numOfPartSigsInJob]. *)
Fixpoint fillJob (req n : Z) (l : list (Z * RepInfo)) (items : list (Z * list Z)) : res (Z * list (Z * list Z)) :=
  match l with
  | [] => Ok (n, items)
  | (id, info) :: l' =>
      '(n, items) ←
        (if negb (bool_decide (state info = Invalid)) then
           items ← job_add req items id (part_signature (partialSigMsg info)); Ok (u16 (n + 1), items)
         else Ok (n, items));
      if n =? req then Ok (n, items) else fillJob req n l' items
  end.

(** Result: the state and the job added to the thread pool, if any. *)
Definition trySendToBkThread (s : t) : res (t * option Job) :=
  assert! (bool_decide (combinedValidSignatureMsg s = None)) ;;
  let s := if numOfRequiredSigs s =? 0 then set_required s numberOfRequiredSignatures else s in
  if processingSignaturesInTheBackground s || (expectedSeqNumber s =? 0) then Ok (s, None)
  else
    match candidateCombinedSignatureMsg s with
    | Some c =>
        Ok (set_processing s true,
            Some (CombinedSigVerificationJob (expectedSeqNumber s) (expectedView s) (expectedDigest s) (full_signature c)))
    | None =>
        if numOfRequiredSigs s <=? numberOfUnknownSignatures s then
          '(n, items) ← fillJob (numOfRequiredSigs s) 0 (order (replicasInfo s)) [];
          assert! (n =? numOfRequiredSigs s) ;;
          Ok (set_processing s true,
              Some (SignaturesProcessingJob (expectedSeqNumber s) (expectedView s) (expectedDigest s)
                      (numOfRequiredSigs s) items))
        else Ok (s, None)
    end.

Definition addMsgWithPartialSignature (s : t) (m : PART) (repId : Z) : res (bool * t * option Job) :=
  if bool_decide (combinedValidSignatureMsg s ≠ None) || bool_decide (is_Some (replicasInfo s !! repId))
  then Ok (false, s, None)
  else
    let s := set_infos s (u16 (numberOfUnknownSignatures s + 1)) (<[repId := mkRepInfo m Unknown]> (replicasInfo s)) in
    '(s, j) ← trySendToBkThread s; Ok (true, s, j).

Definition addMsgWithCombinedSignature (s : t) (m : FULL) : res (bool * t * option Job) :=
  if bool_decide (combinedValidSignatureMsg s ≠ None) || bool_decide (candidateCombinedSignatureMsg s ≠ None)
  then Ok (false, s, None)
  else '(s, j) ← trySendToBkThread (set_combined s (combinedValidSignatureMsg s) (Some m)); Ok (true, s, j).

Definition setExpected (s : t) (seqNumber view : Z) (d : Digest) : res (t * option Job) :=
  assert! (negb (seqNumber =? 0)) ;;
  assert! (expectedSeqNumber s =? 0) ;;
  assert! (negb (processingSignaturesInTheBackground s)) ;;
  trySendToBkThread (set_expected s seqNumber view d).

Definition resetContent (s : t) : t :=
  let s := set_combined (set_infos (set_processing s false) 0 ∅) None None in
  if negb (expectedSeqNumber s =? 0) then set_expected s 0 0 zeroDigest else s.

Definition isEmpty (s : t) : bool :=
  bool_decide (replicasInfo s = ∅) && bool_decide (combinedValidSignatureMsg s = None) &&
  bool_decide (candidateCombinedSignatureMsg s = None) && (expectedSeqNumber s =? 0).

Definition resetAndFree (s : t) : t := if isEmpty s then s else resetContent s.

(** Result: [outcombinedValidSignatureMsg] and the state. *)
Definition getAndReset (s : t) : option FULL * t :=
  (combinedValidSignatureMsg s,
   if isEmpty s then s else resetContent (set_combined s None (candidateCombinedSignatureMsg s))).

Definition hasPartialMsgFromReplica (s : t) (repId : Z) : bool := bool_decide (is_Some (replicasInfo s !! repId)).
Definition getPartialMsgFromReplica (s : t) (repId : Z) : option PART := partialSigMsg <$> replicasInfo s !! repId.
Definition getMsgWithValidCombinedSignature (s : t) : option FULL := combinedValidSignatureMsg s.
Definition isComplete (s : t) : bool := bool_decide (combinedValidSignatureMsg s ≠ None).

(** The loop looking for bad shares: [added] are the shares added to the accumulator,
    [curr] is [currNumOfValidShares]. *)
Fixpoint findBad (d : Digest) (items : list (Z * list Z)) (added : list (list Z)) (curr : Z) : res (list Z) :=
  match items with
  | [] => Ok []
  | (id, sig) :: items' =>
      let added := added ++ [sig] in
      next ← numOfValidShares verifier d added;
      bad ← findBad d items' added (u16 next);
      Ok (if negb (curr + 1 =? u16 next) then id :: bad else bad)
  end.

(** [execute] of the two jobs; the result is the internal message that is pushed. *)
Definition execute (j : Job) : res Result :=
  match j with
  | SignaturesProcessingJob sq v d req items =>
      assert! (Z.of_nat (length items) =? req) ;;
      sig ← combine verifier d (items.*2);
      if verify verifier d sig then Ok (CombinedSigSucceeded sq v sig)
      else bad ← findBad d items [] 0; Ok (CombinedSigFailed sq v bad)
  | CombinedSigVerificationJob sq v d sig => Ok (VerifyCombinedSigResult sq v (verify verifier d sig))
  end.

(** The common assertions of the completion methods. *)
Definition expects (s : t) (seqNumber view : Z) : bool :=
  (expectedSeqNumber s =? seqNumber) && (expectedView s =? view) &&
  processingSignaturesInTheBackground s && bool_decide (combinedValidSignatureMsg s = None).

(** The loop over [replicasWithBadSigs], a set.  [replicasInfo[repId]] of an unknown
    replica would create an entry without a message. *)
Fixpoint markBad (bad : list Z) (n : Z) (m : gmap Z RepInfo) : res (Z * gmap Z RepInfo) :=
  match bad with
  | [] => Ok (n, m)
  | id :: bad' =>
      match m !! id with
      | None => Err OutOfBounds
      | Some info => markBad bad' (u16 (n - 1)) (<[id := mkRepInfo (partialSigMsg info) Invalid]> m)
      end
  end.

(** "if we found bad signatures" *)
Definition onCompletionOfSignaturesProcessing_bad (s : t) (seqNumber view : Z) (bad : list Z) : res (t * option Job) :=
  assert! (expects s seqNumber view) ;;
  let s := set_processing s false in
  '(n, m) ← markBad bad (numberOfUnknownSignatures s) (replicasInfo s);
  trySendToBkThread (set_infos s n m).

(** "if we compute a valid combined signature" *)
Definition onCompletionOfSignaturesProcessing_good (s : t) (seqNumber view : Z) (sig : list Z) : res (t * option Job) :=
  assert! (expects s seqNumber view) ;;
  Ok (set_combined (set_processing s false) (Some (createCombinedSignatureMsg seqNumber view sig)) None, None).

Definition onCompletionOfCombinedSigVerification (s : t) (seqNumber view : Z) (isValid : bool) : res (t * option Job) :=
  assert! (expects s seqNumber view) ;;
  match candidateCombinedSignatureMsg s with
  | None => Err AssertFailed
  | Some c =>
      let s := set_processing s false in
      if isValid then Ok (set_combined s (Some c) None, None)
      else trySendToBkThread (set_combined s (combinedValidSignatureMsg s) None)
  end.

(** Handling an internal message. *)
Definition deliver (s : t) (r : Result) : res (t * option Job) :=
  match r with
  | CombinedSigFailed sq v bad => onCompletionOfSignaturesProcessing_bad s sq v bad
  | CombinedSigSucceeded sq v sig => onCompletionOfSignaturesProcessing_good s sq v sig
  | VerifyCombinedSigResult sq v ok => onCompletionOfCombinedSigVerification s sq v ok
  end.
End defs.

(** ** The collector together with the jobs it started *)
Section facts.
Context {PART FULL : Type} `{EF : !ExternalFunc PART FULL} (verifier : Verifier).
#[local] Abbreviation RepInfo := (@RepInfo PART).
#[local] Abbreviation t := (@t PART FULL).
Context (order : gmap Z RepInfo → list (Z * RepInfo)).
#[local] Abbreviation R := numberOfRequiredSignatures.

Definition job_key (j : Job) : Z * Z :=
  match j with SignaturesProcessingJob sq v _ _ _ => (sq, v) | CombinedSigVerificationJob sq v _ _ => (sq, v) end.

Definition expected (s : t) : Z * Z := (expectedSeqNumber s, expectedView s).

(** [jobs] are the jobs whose internal message has not been handled yet. *)
Record world := mkW { col : t; jobs : list Job }.

Inductive op :=
  | AddPartial (m : PART) (repId : Z)
  | AddCombined (m : FULL)
  | SetExpected (seqNumber view : Z) (d : Digest)
  | ResetAndFree
  | GetAndReset
  | Complete (k : nat).

Definition with_job (w : world) (s : t) (j : option Job) : world := mkW s (option_list j ++ jobs w).

(** The internal message of a job of an earlier view or number is ignored by its
    handler (ReplicaImp.cpp, [onPrepareCombinedSigFailed] and the like). *)
Definition exec (w : world) (o : op) : res world :=
  match o with
  | AddPartial m id => '(_, s, j) ← addMsgWithPartialSignature order (col w) m id; Ok (with_job w s j)
  | AddCombined m => '(_, s, j) ← addMsgWithCombinedSignature order (col w) m; Ok (with_job w s j)
  | SetExpected sq v d => '(s, j) ← setExpected order (col w) sq v d; Ok (with_job w s j)
  | ResetAndFree => Ok (mkW (resetAndFree (col w)) (jobs w))
  | GetAndReset => Ok (mkW (getAndReset (col w)).2 (jobs w))
  | Complete k =>
      match jobs w !! k with
      | None => Ok w
      | Some j =>
          r ← execute verifier j;
          let w' := mkW (col w) (delete k (jobs w)) in
          if bool_decide (job_key j = expected (col w))
          then '(s, j) ← deliver order (col w) r; Ok (with_job w' s j)
          else Ok w'
      end
  end.

Context `{VS : !VerifierSpec verifier R}.

(** A number and view are expected once. *)
Definition op_pre (N : Z) (w : world) (o : op) : Prop :=
  match o with
  | AddPartial m id => 0 <= id < N ∧ share_wf (part_signature m)
  | SetExpected sq v _ => sq ≠ 0 ∧ expectedSeqNumber (col w) = 0 ∧ Forall (fun j => job_key j ≠ (sq, v)) (jobs w)
  | _ => True
  end.

Definition reachable (N : Z) : world → Prop := Prelude.reachable exec (op_pre N) (mkW ctor []).

(** ** The loop filling a job *)
Definition usable (x : Z * RepInfo) : Prop := state x.2 ≠ Invalid.
Definition share (x : Z * RepInfo) : Z * list Z := (x.1, part_signature (partialSigMsg x.2)).

Lemma fillJob_spec req l : ∀ items, Z.of_nat (length items) < req → req < 65536 →
  let items' := items ++ take (Z.to_nat req - length items) (share <$> filter usable l) in
  fillJob req (Z.of_nat (length items)) l items = Ok (Z.of_nat (length items'), items').
Proof.
  induction l as [|[id info] l IH]; intros items Hn Hreq; cbn [fillJob].
  { simpl. by rewrite take_nil, app_nil_r. }
  destruct (decide (usable (id, info))) as [Hu|Hu].
  - rewrite filter_cons_True by done. unfold usable in Hu. cbn [snd] in Hu.
    rewrite bool_decide_eq_false_2 by done. cbn [negb]. unfold job_add.
    rewrite (proj2 (Z.ltb_lt _ _) Hn). cbn [Assert mbind res_bind]. rewrite u16_small by lia.
    rewrite fmap_cons. change (share (id, info)) with (id, part_signature (partialSigMsg info)).
    set (x := (id, part_signature (partialSigMsg info))).
    cbv zeta. set (l' := share <$> filter usable l).
    assert (items ++ take (Z.to_nat req - length items) (x :: l') =
            (items ++ [x]) ++ take (Z.to_nat req - length (items ++ [x])) l') as ->.
    { replace (Z.to_nat req - length items)%nat with (S (Z.to_nat req - length (items ++ [x]))) by (rewrite length_app; simpl; lia).
      by rewrite firstn_cons, <- app_assoc. }
    replace (Z.of_nat (length items) + 1) with (Z.of_nat (length (items ++ [x]))) by (rewrite length_app; simpl; lia).
    destruct (Z.eqb_spec (Z.of_nat (length (items ++ [x]))) req) as [E|E].
    + replace (Z.to_nat req - length (items ++ [x]))%nat with 0%nat by lia. cbn [take]. by rewrite app_nil_r.
    + apply IH; [|done]. rewrite length_app in *. simpl in *. lia.
  - rewrite filter_cons_False by done. unfold usable in Hu. cbn [snd] in Hu. apply dec_stable in Hu.
    rewrite bool_decide_eq_true_2 by done. cbn [negb mbind res_bind].
    rewrite (proj2 (Z.eqb_neq _ _)) by lia. by apply IH.
Qed.

Definition unknown (m : gmap Z RepInfo) : gmap Z RepInfo := filter (fun x => state x.2 ≠ Invalid) m.

Context (N : Z) (HN : 0 <= N < 65536) (HR : 1 <= R < 65536).
Context (order_perm : ∀ m, order m ≡ₚ map_to_list m).

Lemma order_usable m : filter usable (order m) ≡ₚ map_to_list (unknown m).
Proof.
  clear -order_perm. rewrite order_perm. unfold unknown, usable. rewrite map_filter_alt.
  rewrite map_to_list_to_map; [done|].
  eapply sublist_NoDup; [apply (NoDup_fst_map_to_list m)|]. apply fmap_sublist, sublist_filter.
Qed.

Lemma length_usable m : length (filter usable (order m)) = size (unknown m).
Proof. clear -order_perm. by rewrite order_usable, length_map_to_list. Qed.

Lemma col_size_bound (m : gmap Z RepInfo) : (∀ id info, m !! id = Some info → 0 <= id < N) → Z.of_nat (size m) <= N.
Proof.
  intros H. rewrite <- size_dom. transitivity (Z.of_nat (size (list_to_set (seqZ 0 N) : gset Z))).
  - apply Nat2Z.inj_le, subseteq_size. intros id [info Hi]%elem_of_dom. apply H in Hi. apply elem_of_list_to_set, elem_of_seqZ. lia.
  - rewrite size_list_to_set by apply NoDup_seqZ. rewrite length_seqZ. lia.
Qed.

Lemma unknown_lookup m id info : unknown m !! id = Some info ↔ m !! id = Some info ∧ state info ≠ Invalid.
Proof. unfold unknown. by rewrite map_lookup_filter_Some. Qed.

Lemma unknown_bound m : (∀ id info, m !! id = Some info → 0 <= id < N) → Z.of_nat (size (unknown m)) <= N.
Proof. intros H. apply col_size_bound. intros id info [Hi _]%unknown_lookup. eauto. Qed.

Lemma unknown_add m id x : m !! id = None → size (unknown (<[id := mkRepInfo x Unknown]> m)) = S (size (unknown m)).
Proof.
  intros H. unfold unknown. rewrite map_filter_insert_True by done. apply map_size_insert_None.
  apply map_lookup_filter_None. by left.
Qed.

Lemma unknown_mark m id info : m !! id = Some info → state info ≠ Invalid →
  S (size (unknown (<[id := mkRepInfo (partialSigMsg info) Invalid]> m))) = size (unknown m).
Proof.
  intros H Hs. unfold unknown. rewrite map_filter_insert_False by (simpl; tauto).
  rewrite map_filter_delete, map_size_delete_Some by (exists info; by apply map_lookup_filter_Some).
  apply Nat.succ_pred, map_size_ne_0_lookup. exists id, info. by apply map_lookup_filter_Some.
Qed.

(** ** Looking for bad shares *)
Definition signers (d : Digest) (l : list (list Z)) : gset Z :=
  list_to_set (share_signer <$> filter (fun x => share_ok d x = true) l).

Lemma signers_snoc d l x : signers d (l ++ [x]) =
  if share_ok d x then signers d l ∪ {[share_signer x]} else signers d l.
Proof.
  unfold signers. rewrite filter_app. destruct (share_ok d x) eqn:E.
  - rewrite filter_cons_True, filter_nil by done. rewrite fmap_app, list_to_set_app_L. simpl. set_solver.
  - rewrite filter_cons_False, filter_nil by congruence. by rewrite app_nil_r.
Qed.

(** A share counts when it is valid and its signer has not been counted. *)
Definition counts (d : Digest) (added : list (list Z)) (x : list Z) : Prop :=
  share_ok d x = true ∧ share_signer x ∉ signers d added.
#[local] Instance counts_dec d added x : Decision (counts d added x).
Proof. unfold counts. apply _. Defined.

Lemma signers_size d l x : counts d l x → size (signers d (l ++ [x])) = S (size (signers d l)).
Proof.
  intros [E Hn]. rewrite signers_snoc, E. rewrite size_union by set_solver. rewrite size_singleton. lia.
Qed.

Lemma signers_size_bad d l x : ~ counts d l x → size (signers d (l ++ [x])) = size (signers d l).
Proof.
  intros Hn. rewrite signers_snoc. destruct (share_ok d x) eqn:E; [|done].
  f_equal. apply leibniz_equiv. destruct (decide (share_signer x ∈ signers d l)); [set_solver|]. by destruct Hn.
Qed.

Lemma findBad_cons d id sig items added : Forall share_wf (added ++ [sig]) → Z.of_nat (length (added ++ [sig])) <= R →
  findBad verifier d ((id, sig) :: items) added (Z.of_nat (size (signers d added))) =
  (bad ← findBad verifier d items (added ++ [sig]) (Z.of_nat (size (signers d (added ++ [sig]))));
   Ok ((if decide (counts d added sig) then [] else [id]) ++ bad)).
Proof.
  intros Hwf Hlen. cbn [findBad]. rewrite numOfValidShares_spec by done. fold (signers d (added ++ [sig])).
  cbn [mbind res_bind]. rewrite u16_small.
  - destruct (decide _) as [Hc|Hc].
    + rewrite (signers_size _ _ _ Hc). rewrite (proj2 (Z.eqb_eq _ _)) by lia. done.
    + rewrite (signers_size_bad _ _ _ Hc). rewrite (proj2 (Z.eqb_neq _ _)) by lia. done.
  - split; [lia|]. apply Z.le_lt_trans with R; [|lia]. transitivity (Z.of_nat (length (added ++ [sig]))); [|done].
    apply Nat2Z.inj_le. unfold signers. clear. generalize (added ++ [sig]). intros l.
    transitivity (length (share_signer <$> filter (fun x => share_ok d x = true) l)).
    + apply size_list_to_set_le.
    + rewrite length_fmap. apply length_filter.
Qed.

Lemma elem_of_signers d l x : x ∈ signers d l → ∃ sig, sig ∈ l ∧ share_ok d sig = true ∧ share_signer sig = x.
Proof.
  intros (sig & -> & Hs)%elem_of_list_to_set%list_elem_of_fmap.
  apply list_elem_of_filter in Hs as [Hok Hs]. eauto.
Qed.

Lemma signers_intro d l sig : sig ∈ l → share_ok d sig = true → share_signer sig ∈ signers d l.
Proof. intros Hin Hok. apply elem_of_list_to_set, list_elem_of_fmap. exists sig. split; [done|]. by apply list_elem_of_filter. Qed.

(** The shares found to be bad are shares of the job; every signer with a valid share in
    the job keeps a share that is not found to be bad; and when there is none, all shares
    are valid and of different signers. *)
Lemma findBad_spec d items : ∀ added, NoDup items.*1 → Forall share_wf (added ++ items.*2) →
  Z.of_nat (length (added ++ items.*2)) <= R →
  ∃ bad, findBad verifier d items added (Z.of_nat (size (signers d added))) = Ok bad ∧
  bad `sublist_of` items.*1 ∧
  (∀ x, x ∈ signers d (added ++ items.*2) → x ∈ signers d added ∨
     ∃ id sig, (id, sig) ∈ items ∧ (id ∉ bad) ∧ share_ok d sig = true ∧ share_signer sig = x) ∧
  (bad = [] → Forall (fun x => share_ok d x = true) items.*2 ∧ NoDup (share_signer <$> items.*2) ∧
     Forall (fun x => share_signer x ∉ signers d added) items.*2).
Proof.
  induction items as [|[id sig] items IH]; intros added Hids Hwf Hlen.
  { exists []. split_and!; [done|done| |].
    - intros x Hx. simpl in Hx. rewrite app_nil_r in Hx. by left.
    - intros _. split_and!; constructor. }
  rewrite fmap_cons in Hwf, Hlen. cbn [snd] in Hwf, Hlen. rewrite (cons_middle sig added), app_assoc in Hwf, Hlen.
  pose proof (proj1 (proj1 (Forall_app _ _ _) Hwf)) as Hwf1.
  assert (Z.of_nat (length (added ++ [sig])) <= R) as Hlen1 by (rewrite length_app in Hlen; lia).
  rewrite (findBad_cons _ _ _ _ _ Hwf1 Hlen1). rewrite fmap_cons in Hids. apply NoDup_cons in Hids as [Hid Hids].
  destruct (IH (added ++ [sig]) Hids Hwf Hlen) as (bad & -> & Hsub & Hrep & Hnil). clear IH. cbn [fst mbind res_bind] in *.
  eexists. split; [reflexivity|].
  assert (id ∉ bad) as Hidb by (intros Hb; apply Hid; by eapply elem_of_sublist).
  assert (∀ l, (∀ i, i ∈ l → i = id) → ∀ x, x ∈ signers d (added ++ items.*2) ∨ x ∈ signers d (added ++ [sig] ++ items.*2) →
    x ∈ signers d (added ++ [sig]) ∨ ∃ i sg, (i, sg) ∈ items ∧ (i ∉ l ++ bad) ∧ share_ok d sg = true ∧ share_signer sg = x) as Hrep'.
  { intros l Hl x Hx. assert (x ∈ signers d ((added ++ [sig]) ++ items.*2)) as Hx'.
    { rewrite <- app_assoc. destruct Hx as [Hx|Hx]; [|done]. apply elem_of_signers in Hx as (sg & Hin & Hok & <-).
      apply signers_intro; [set_solver|done]. }
    destruct (Hrep x Hx') as [?|(i & sg & Hin & Hnb & Hok & Hs)]; [by left|right]. exists i, sg. split_and!; try done.
    intros [Hi| ?]%elem_of_app; [|done]. apply Hl in Hi as ->. apply Hid. apply list_elem_of_fmap. by exists (id, sg). }
  destruct (decide _) as [[Hok Hnew]|Hc].
  - split_and!.
    + simpl. by constructor.
    + intros x Hx. destruct (Hrep' [] ltac:(set_solver) x (or_intror Hx)) as [Hin|(i & sg & Hin & Hr)].
      * rewrite signers_snoc, Hok in Hin. apply elem_of_union in Hin as [?|Hs%elem_of_singleton]; [by left|right].
        exists id, sig. split_and!; [left|done|done|done].
      * right. exists i, sg. split; [by right|done].
    + intros Hb. destruct (Hnil Hb) as (Ho & Hnd & Hni). simpl. split_and!.
      * by constructor.
      * constructor; [|done]. intros (sg & Hs & Hin)%list_elem_of_fmap.
        rewrite Forall_forall in Hni. apply (Hni _ Hin). rewrite signers_snoc, Hok. set_solver.
      * constructor; [done|]. eapply Forall_impl; [exact Hni|]. cbv beta. intros x. rewrite signers_snoc, Hok. set_solver.
  - split_and!; [simpl; by constructor| |done].
    intros x Hx. destruct (Hrep' [id] ltac:(set_solver) x (or_intror Hx)) as [Hin|(i & sg & Hin & Hr)].
    + left. rewrite signers_snoc in Hin. unfold counts in Hc. destruct (share_ok d sig); [|done].
      apply elem_of_union in Hin as [?|Hs%elem_of_singleton]; [done|]. subst x.
      destruct (decide (share_signer sig ∈ signers d added)); [done|tauto].
    + right. exists i, sg. split; [by right|done].
Qed.

Lemma markBad_spec bad : ∀ m, NoDup bad → Z.of_nat (size (unknown m)) < 65536 →
  (∀ id, id ∈ bad → ∃ info, m !! id = Some info ∧ state info ≠ Invalid) →
  ∃ m', markBad bad (Z.of_nat (size (unknown m))) m = Ok (Z.of_nat (size (unknown m')), m') ∧
    (size (unknown m') + length bad = size (unknown m))%nat ∧
    ∀ id, m' !! id = (fun info => if bool_decide (id ∈ bad) then mkRepInfo (partialSigMsg info) Invalid else info) <$> m !! id.
Proof.
  induction bad as [|b bad IH]; intros m Hnd Hsz Hin; cbn [markBad].
  { exists m. split_and!; [done|simpl; lia|]. intros id. by destruct (m !! id). }
  destruct (Hin b) as (info & Hb & Hs); [left|]. rewrite Hb. apply NoDup_cons in Hnd as [Hnb Hnd].
  pose proof (unknown_mark m b info Hb Hs) as Hsize. set (m1 := <[b := mkRepInfo (partialSigMsg info) Invalid]> m) in *.
  rewrite u16_small by lia.
  replace (Z.of_nat (size (unknown m)) - 1) with (Z.of_nat (size (unknown m1))) by lia.
  destruct (IH m1 Hnd) as (m' & -> & Hlen & Hlook); [lia| |].
  { intros id Hid. unfold m1. rewrite lookup_insert_ne by set_solver. apply Hin. by right. }
  exists m'. split_and!; [done|simpl; lia|]. intros id. rewrite Hlook. unfold m1.
  destruct (decide (id = b)) as [-> |Hne].
  - rewrite lookup_insert_eq, Hb. simpl. rewrite (bool_decide_eq_false_2 (b ∈ bad)), (bool_decide_eq_true_2 (b ∈ b :: bad)); [done|set_solver|done].
  - rewrite lookup_insert_ne by done. destruct (m !! id) as [x|]; [|done]. simpl.
    rewrite (bool_decide_ext (id ∈ bad) (id ∈ b :: bad)); [done|]. set_solver.
Qed.

(** ** The invariant *)
Context (create_sig : ∀ sq v sig, full_signature (createCombinedSignatureMsg sq v sig) = sig).

(** Why a share is marked [Invalid]: it is, or its signer has another valid share. *)
Definition blamed (m : gmap Z RepInfo) (d : Digest) (info : RepInfo) : Prop :=
  share_ok d (part_signature (partialSigMsg info)) = true →
  ∃ id' info', m !! id' = Some info' ∧ state info' ≠ Invalid ∧
    share_ok d (part_signature (partialSigMsg info')) = true ∧
    share_signer (part_signature (partialSigMsg info')) = share_signer (part_signature (partialSigMsg info)).

Record base (s : t) : Prop := {
  base_req : numOfRequiredSigs s = 0 ∨ numOfRequiredSigs s = R;
  base_count : numberOfUnknownSignatures s = Z.of_nat (size (unknown (replicasInfo s)));
  base_ids : ∀ id info, replicasInfo s !! id = Some info → 0 <= id < N ∧ share_wf (part_signature (partialSigMsg info));
  base_bad : ∀ id info, replicasInfo s !! id = Some info → state info = Invalid →
    expectedSeqNumber s ≠ 0 ∧ blamed (replicasInfo s) (expectedDigest s) info;
}.

(** A job that was not forgotten by a reset works on what the collector holds. *)
Definition job_ok (s : t) (j : Job) : Prop :=
  match j with
  | SignaturesProcessingJob _ _ d req items =>
      d = expectedDigest s ∧ NoDup items.*1 ∧
      ∀ id sig, (id, sig) ∈ items → ∃ info, replicasInfo s !! id = Some info ∧ state info ≠ Invalid ∧
        sig = part_signature (partialSigMsg info)
  | CombinedSigVerificationJob _ _ d sig =>
      d = expectedDigest s ∧ ∃ c, candidateCombinedSignatureMsg s = Some c ∧ sig = full_signature c
  end.

Definition job_wf (j : Job) : Prop :=
  (job_key j).1 ≠ 0 ∧
  match j with
  | SignaturesProcessingJob _ _ _ req items => req = R ∧ Z.of_nat (length items) = R ∧ NoDup items.*1 ∧ Forall share_wf items.*2
  | CombinedSigVerificationJob _ _ _ _ => True
  end.

Definition current (s : t) (js : list Job) : list Job := filter (fun j => job_key j = expected s) js.

Inductive phase (s : t) (js : list Job) : Prop :=
  | Waiting : expectedSeqNumber s = 0 → processingSignaturesInTheBackground s = false →
      combinedValidSignatureMsg s = None → current s js = [] → phase s js
  | Idle : expectedSeqNumber s ≠ 0 → processingSignaturesInTheBackground s = false →
      combinedValidSignatureMsg s = None → candidateCombinedSignatureMsg s = None →
      numberOfUnknownSignatures s < R → current s js = [] → phase s js
  | Busy j : expectedSeqNumber s ≠ 0 → processingSignaturesInTheBackground s = true →
      combinedValidSignatureMsg s = None → current s js = [j] → job_ok s j → phase s js
  | Done m : expectedSeqNumber s ≠ 0 → processingSignaturesInTheBackground s = false →
      combinedValidSignatureMsg s = Some m → candidateCombinedSignatureMsg s = None →
      verify verifier (expectedDigest s) (full_signature m) = true → current s js = [] → phase s js.

Record inv (w : world) : Prop := {
  inv_base : base (col w);
  inv_jobs : Forall job_wf (jobs w);
  inv_phase : phase (col w) (jobs w);
}.

Lemma current_waiting s js : Forall job_wf js → expectedSeqNumber s = 0 → current s js = [].
Proof.
  clear. intros Hwf Hs. unfold current. apply filter_none. eapply Forall_impl; [exact Hwf|].
  intros j [Hj _] Hk. rewrite Hk in Hj. by apply Hj.
Qed.

Lemma base_required s : base s → base (set_required s R).
Proof. intros [? ? ? ?]. constructor; simpl; auto. Qed.

Lemma base_processing s b : base s → base (set_processing s b).
Proof. by intros [? ? ? ?]. Qed.

(** Starting a job, when there is something to work on. *)
Lemma trySend_idle s : base s → processingSignaturesInTheBackground s = false → combinedValidSignatureMsg s = None →
  ∃ oj, trySendToBkThread order s = Ok (set_processing (set_required s R) (bool_decide (is_Some oj)), oj) ∧
    match oj with
    | Some j => expectedSeqNumber s ≠ 0 ∧ job_key j = expected s ∧ job_wf j ∧ job_ok s j
    | None => expectedSeqNumber s = 0 ∨ candidateCombinedSignatureMsg s = None ∧ numberOfUnknownSignatures s < R
    end.
Proof.
  intros Hb Hp Hc. unfold trySendToBkThread. rewrite Hc. rewrite bool_decide_eq_true_2 by done. cbn [Assert mbind res_bind].
  set (s1 := if numOfRequiredSigs s =? 0 then _ else _).
  assert (s1 = set_required s R) as ->.
  { unfold s1. destruct (Z.eqb_spec (numOfRequiredSigs s) 0); [done|]. destruct s. simpl in *.
    destruct Hb as [[?|?] _ _ _]; simpl in *; [done|]. by subst. }
  cbn [processingSignaturesInTheBackground set_required expectedSeqNumber candidateCombinedSignatureMsg numOfRequiredSigs numberOfUnknownSignatures].
  rewrite Hp. cbn [orb]. destruct (Z.eqb_spec (expectedSeqNumber s) 0) as [He|He].
  { exists None. rewrite bool_decide_eq_false_2 by (intros [? ?]; done). split; [|by left]. destruct s; simpl in *; by subst. }
  destruct (candidateCombinedSignatureMsg s) as [c|] eqn:Ec.
  { eexists (Some _). split; [rewrite bool_decide_eq_true_2 by eauto; reflexivity|].
    split_and!; [done|done|done|]. split; [done|]. eauto. }
  destruct (Z.leb_spec R (numberOfUnknownSignatures s)) as [Hu|Hu].
  2:{ exists None. rewrite bool_decide_eq_false_2 by (intros [? ?]; done). split; [|by right].
    destruct s; simpl in *; by subst. }
  pose proof (fillJob_spec R (order (replicasInfo s)) []) as Hf. cbn [length app] in Hf.
  change (Z.of_nat 0) with 0 in Hf. rewrite Nat.sub_0_r in Hf. set (items := take (Z.to_nat R) (share <$> filter usable (order (replicasInfo s)))) in *.
  assert (Z.of_nat (length items) = R) as Hlen.
  { unfold items. rewrite length_take, length_fmap, length_usable. rewrite (base_count s Hb) in Hu. lia. }
  change (replicasInfo (set_required s R)) with (replicasInfo s).
  rewrite Hf by lia. cbn [mbind res_bind]. rewrite Hlen, Z.eqb_refl. cbn [Assert mbind res_bind].
  eexists (Some _). split; [rewrite bool_decide_eq_true_2 by eauto; reflexivity|].
  assert (NoDup items.*1) as Hnd.
  { eapply sublist_NoDup; [|apply fmap_sublist, sublist_take].
    assert ((share <$> filter usable (order (replicasInfo s))).*1 = (filter usable (order (replicasInfo s))).*1) as ->
      by (rewrite <- list_fmap_compose; done).
    rewrite order_usable. apply NoDup_fst_map_to_list. }
  assert (∀ id sig, (id, sig) ∈ items → ∃ info, replicasInfo s !! id = Some info ∧ state info ≠ Invalid ∧ sig = part_signature (partialSigMsg info)) as Hitems.
  { intros id sig Hin. assert ((id, sig) ∈ share <$> filter usable (order (replicasInfo s))) as Hs
      by (eapply elem_of_sublist; [exact Hin|apply sublist_take]).
    apply list_elem_of_fmap in Hs as ([id' info] & Heq & [Hu' Hm]%list_elem_of_filter). injection Heq as -> ->.
    rewrite order_perm in Hm. apply elem_of_map_to_list in Hm. eauto. }
  split_and!; [done|done| |by split_and!]. split_and!; [done|done|done|done|].
  apply Forall_forall. intros sig ([i sg] & -> & Hin)%list_elem_of_fmap.
  destruct (Hitems _ _ Hin) as (info & Hi & _ & ->). by destruct (base_ids s Hb _ _ Hi).
Qed.

Lemma trySend_busy s : base s → processingSignaturesInTheBackground s = true → combinedValidSignatureMsg s = None →
  trySendToBkThread order s = Ok (set_required s R, None).
Proof.
  intros Hb Hp Hc. unfold trySendToBkThread. rewrite Hc. rewrite bool_decide_eq_true_2 by done. cbn [Assert mbind res_bind].
  destruct (Z.eqb_spec (numOfRequiredSigs s) 0); simpl; rewrite Hp; [done|].
  destruct s. simpl in *. destruct Hb as [[?|?] _ _ _]; simpl in *; [done|]. by subst.
Qed.

Lemma job_ok_same s s' j : expectedDigest s' = expectedDigest s → candidateCombinedSignatureMsg s' = candidateCombinedSignatureMsg s →
  replicasInfo s' = replicasInfo s → job_ok s j → job_ok s' j.
Proof. intros Hd Hc Hm. destruct j; simpl; by rewrite ?Hd, ?Hc, ?Hm. Qed.

(** Starting a job keeps the invariant. *)
Lemma launch s js : base s → Forall job_wf js → processingSignaturesInTheBackground s = false →
  combinedValidSignatureMsg s = None → current s js = [] →
  ∃ oj, trySendToBkThread order s = Ok (set_processing (set_required s R) (bool_decide (is_Some oj)), oj) ∧
    inv (mkW (set_processing (set_required s R) (bool_decide (is_Some oj))) (option_list oj ++ js)).
Proof.
  intros Hb Hj Hp Hc Hcur. destruct (trySend_idle s Hb Hp Hc) as (oj & Ht & Ho). exists oj. split; [done|].
  constructor; simpl.
  - by apply base_processing, base_required.
  - apply Forall_app. split; [|done]. destruct oj as [j|]; [|constructor]. constructor; [tauto|constructor].
  - destruct oj as [j|]; simpl.
    + destruct Ho as (He & Hk & Hwf & Hok). apply (Busy _ _ j); try done.
      unfold current. rewrite filter_cons_True by done. by f_equal.
    + destruct Ho as [He|[Hca Hu]].
      * by apply Waiting.
      * destruct (decide (expectedSeqNumber s = 0)); [by apply Waiting|by apply Idle].
Qed.

Lemma phase_required s js : phase s js → phase (set_required s R) js.
Proof. intros [? ? ? ?|? ? ? ? ? ?|j ? ? ? ? Hj|m ? ? ? ? ? ?]; [by apply Waiting|by apply Idle|by apply (Busy _ _ j)|by apply (Done _ _ m)]. Qed.

Lemma base_add s m id : base s → replicasInfo s !! id = None → 0 <= id < N → share_wf (part_signature m) →
  base (set_infos s (u16 (numberOfUnknownSignatures s + 1)) (<[id := mkRepInfo m Unknown]> (replicasInfo s))).
Proof.
  intros [Hr Hc Hi Hb] Hn Hid Hwf.
  assert (∀ i x, <[id := mkRepInfo m Unknown]> (replicasInfo s) !! i = Some x → 0 <= i < N ∧ share_wf (part_signature (partialSigMsg x))) as Hids.
  { intros i x [[<- <-]|[Hne Hx]]%lookup_insert_Some; eauto. }
  constructor; simpl; auto.
  - rewrite Hc, unknown_add by done. rewrite u16_small; [lia|].
    assert (Z.of_nat (size (unknown (<[id := mkRepInfo m Unknown]> (replicasInfo s)))) <= N) by (apply unknown_bound; naive_solver).
    rewrite unknown_add in * by done. lia.
  - intros i x [[<- <-]|[Hne Hx]]%lookup_insert_Some; [done|]. intros Hs. destruct (Hb i x Hx Hs) as [He Hbl]. split; [done|].
    intros Hok. destruct (Hbl Hok) as (k & y & Hk & Hrest). exists k, y. split; [|done]. rewrite lookup_insert_ne; [done|]. congruence.
Qed.

Lemma phase_add s js m id : phase s js → combinedValidSignatureMsg s = None → base s → Forall job_wf js →
  replicasInfo s !! id = None → 0 <= id < N → share_wf (part_signature m) →
  let s1 := set_infos s (u16 (numberOfUnknownSignatures s + 1)) (<[id := mkRepInfo m Unknown]> (replicasInfo s)) in
  ∃ s2 oj, trySendToBkThread order s1 = Ok (s2, oj) ∧ inv (mkW s2 (option_list oj ++ js)).
Proof.
  intros Hp Hv Hb Hj Hn Hid Hwf s1. pose proof (base_add s m id Hb Hn Hid Hwf) as Hb1. fold s1 in Hb1.
  destruct Hp as [? ? ? Hcur|? ? ? ? ? Hcur|j He Hpr Hc Hcur Hok|? ? ? Hc ? ? ?]; [| | |congruence].
  1,2: destruct (launch s1 js) as (oj & Ht & Hinv); eauto.
  exists (set_required s1 R), None. split; [by apply trySend_busy|]. constructor; simpl; [by apply base_required|done|].
  apply (Busy _ _ j); try done. destruct j as [sq v d req items|]; simpl in *; [|done].
  destruct Hok as (Hd & Hnd & Hitems). split_and!; [done|done|]. intros i sg Hin.
  destruct (Hitems i sg Hin) as (info & Hi & Hst). exists info. split; [|done]. rewrite lookup_insert_ne; [done|]. congruence.
Qed.

Lemma col_addPartial_inv w m id : inv w → 0 <= id < N → share_wf (part_signature m) →
  ∃ w', exec w (AddPartial m id) = Ok w' ∧ inv w'.
Proof.
  intros [Hb Hj Hp] Hid Hwf. cbn [exec]. unfold addMsgWithPartialSignature.
  destruct (combinedValidSignatureMsg (col w)) as [f|] eqn:Ev.
  { rewrite bool_decide_eq_true_2 by done. exists w. cbn. split; [by destruct w|by constructor]. }
  rewrite bool_decide_eq_false_2 by auto. cbn [orb]. destruct (replicasInfo (col w) !! id) as [x|] eqn:Ei.
  { rewrite bool_decide_eq_true_2 by eauto. exists w. cbn. split; [by destruct w|by constructor]. }
  rewrite bool_decide_eq_false_2 by (intros [? ?]; done).
  destruct (phase_add (col w) (jobs w) m id) as (s2 & oj & Ht & Hinv); try done.
  rewrite Ht. cbn. eauto.
Qed.

Lemma addCombined_inv w m : inv w → ∃ w', exec w (AddCombined m) = Ok w' ∧ inv w'.
Proof.
  intros [Hb Hj Hp]. cbn [exec]. unfold addMsgWithCombinedSignature.
  destruct (combinedValidSignatureMsg (col w)) as [f|] eqn:Ev.
  { rewrite bool_decide_eq_true_2 by done. exists w. cbn. split; [by destruct w|by constructor]. }
  rewrite bool_decide_eq_false_2 by auto. cbn [orb]. destruct (candidateCombinedSignatureMsg (col w)) as [f|] eqn:Ec.
  { rewrite bool_decide_eq_true_2 by done. exists w. cbn. split; [by destruct w|by constructor]. }
  rewrite bool_decide_eq_false_2 by auto. set (s1 := set_combined _ _ _).
  assert (base s1) as Hb1 by (by destruct Hb).
  destruct Hp as [? ? ? Hcur|? ? ? ? ? Hcur|j He Hpr Hc Hcur Hok|? ? ? Hc ? ? ?]; [| | |congruence].
  1,2: destruct (launch s1 (jobs w)) as (oj & -> & Hinv); [done..|]; cbn; eauto.
  rewrite trySend_busy by done. cbn. eexists. split; [done|]. constructor; simpl; [by apply base_required|done|].
  apply (Busy _ _ j); try done. destruct j; simpl in *; [done|]. destruct Hok as (_ & c & ? & _). congruence.
Qed.

Lemma setExpected_inv w sq v d : inv w → op_pre N w (SetExpected sq v d) → ∃ w', exec w (SetExpected sq v d) = Ok w' ∧ inv w'.
Proof.
  intros [Hb Hj Hp] (Hsq & He & Hfresh). cbn [exec]. unfold setExpected.
  rewrite (proj2 (Z.eqb_neq _ _) Hsq), He, Z.eqb_refl. destruct Hp as [_ Hpr Hc Hcur|?|?|?]; [|done..].
  rewrite Hpr. cbn [negb Assert mbind res_bind]. set (s1 := set_expected _ _ _ _).
  destruct (launch s1 (jobs w)) as (oj & -> & Hinv); [|done..|by apply filter_none|cbn; eauto].
  destruct Hb as [? ? ? Hbad]. constructor; simpl; auto. intros id info Hi Hs. by destruct (Hbad _ _ Hi Hs).
Qed.

Lemma reset_inv s js : numOfRequiredSigs s = 0 ∨ numOfRequiredSigs s = R → Forall job_wf js → inv (mkW (resetContent s) js).
Proof.
  intros Hr Hj. assert (expectedSeqNumber (resetContent s) = 0) as He.
  { unfold resetContent. simpl. by destruct (Z.eqb_spec (expectedSeqNumber s) 0). }
  constructor; simpl; [|done|].
  - unfold resetContent. simpl. destruct (negb _); (constructor; simpl; [done|done|set_solver|set_solver]).
  - apply Waiting; [done|unfold resetContent; by destruct (negb _)..|by apply current_waiting].
Qed.

(** ** Completion of a job *)

(** The number of jobs that can still fail. *)
Definition measure (s : t) : nat :=
  size (unknown (replicasInfo s)) + (if candidateCombinedSignatureMsg s is Some _ then 1 else 0).

(** A completed job changes neither what is expected nor the shares. *)
Record same (s s' : t) : Prop := {
  same_expected : expected s' = expected s;
  same_digest : expectedDigest s' = expectedDigest s;
  same_msgs id : partialSigMsg <$> replicasInfo s' !! id = partialSigMsg <$> replicasInfo s !! id;
}.

Lemma same_lookup s s' id info : same s s' → replicasInfo s !! id = Some info →
  ∃ info', replicasInfo s' !! id = Some info' ∧ partialSigMsg info' = partialSigMsg info.
Proof.
  intros Hs Hi. pose proof (same_msgs _ _ Hs id) as H. rewrite Hi in H. simpl in H.
  destruct (replicasInfo s' !! id) as [x|]; simplify_eq/=. eauto.
Qed.

(** The shares of a job. *)
Definition job_items (s : t) (items : list (Z * list Z)) : Prop :=
  NoDup items.*1 ∧ Z.of_nat (length items) = R ∧
  ∀ id sig, (id, sig) ∈ items → ∃ info, replicasInfo s !! id = Some info ∧ state info ≠ Invalid ∧ sig = part_signature (partialSigMsg info).

Lemma job_items_spec s items : base s → job_items s items →
  ∃ bad sig, findBad verifier (expectedDigest s) items [] 0 = Ok bad ∧ combine verifier (expectedDigest s) items.*2 = Ok sig ∧
  bad `sublist_of` items.*1 ∧
  (∀ x, x ∈ signers (expectedDigest s) items.*2 → ∃ id sig, (id, sig) ∈ items ∧ (id ∉ bad) ∧ share_ok (expectedDigest s) sig = true ∧ share_signer sig = x) ∧
  (verify verifier (expectedDigest s) sig = false → bad ≠ []).
Proof.
  intros Hb (Hnd & Hlen & Hitems).
  assert (Forall share_wf items.*2) as Hwf.
  { apply Forall_forall. intros sig ([i sg] & -> & Hin)%list_elem_of_fmap.
    destruct (Hitems _ _ Hin) as (info & Hi & _ & ->). by destruct (base_ids s Hb _ _ Hi). }
  destruct (findBad_spec (expectedDigest s) items [] Hnd) as (bad & Hbad & Hsub & Hrep & Hnil); [done|simpl; rewrite length_fmap; lia|].
  destruct (combine_runs (expectedDigest s) items.*2 Hwf) as [sig Hsig]; [by rewrite length_fmap|].
  exists bad, sig. split_and!; [done|done|done| |].
  - intros x Hx. by destruct (Hrep x Hx).
  - intros Hv Hb0. destruct (Hnil Hb0) as (Hok & Hnds & _).
    destruct (combine_spec (expectedDigest s) items.*2) as (sig' & Hsig' & Hv'); [done|by rewrite length_fmap|done..|]. congruence.
Qed.

Definition progress (w : world) (w' : world) : Prop :=
  inv w' ∧ same (col w) (col w') ∧ (isComplete (col w') = true ∨ (measure (col w') < measure (col w))%nat).

Lemma expects_busy s sq v : (sq, v) = expected s → processingSignaturesInTheBackground s = true →
  combinedValidSignatureMsg s = None → expects s sq v = true.
Proof.
  unfold expected, expects. intros [= -> ->] -> ->. rewrite !Z.eqb_refl. by rewrite bool_decide_eq_true_2.
Qed.

Lemma deliver_bad s js sq v items : base s → Forall job_wf js → (sq, v) = expected s → expectedSeqNumber s ≠ 0 →
  processingSignaturesInTheBackground s = true → combinedValidSignatureMsg s = None → current s js = [] →
  job_items s items → ∀ sig, combine verifier (expectedDigest s) items.*2 = Ok sig → verify verifier (expectedDigest s) sig = false →
  ∃ bad s' oj, findBad verifier (expectedDigest s) items [] 0 = Ok bad ∧ deliver order s (CombinedSigFailed sq v bad) = Ok (s', oj) ∧
    inv (mkW s' (option_list oj ++ js)) ∧ same s s' ∧ (measure s' < measure s)%nat.
Proof.
  intros Hb Hj Hk He Hp Hc Hcur Hji sig Hsig Hv.
  destruct (job_items_spec s items Hb Hji) as (bad & sig' & Hfind & Hsig' & Hsub & Hrep & Hne).
  rewrite Hsig in Hsig'. injection Hsig' as <-. specialize (Hne Hv). destruct Hji as (Hnd & Hlen & Hitems).
  exists bad. setoid_rewrite Hfind.
  assert (NoDup bad) as Hndb by (eapply sublist_NoDup; [exact Hnd|done]).
  assert (∀ id, id ∈ bad → ∃ info, replicasInfo s !! id = Some info ∧ state info ≠ Invalid ∧
    (id, part_signature (partialSigMsg info)) ∈ items) as Hbad.
  { intros id Hid. eapply elem_of_sublist in Hid; [|exact Hsub]. apply list_elem_of_fmap in Hid as ([i sg] & -> & Hin).
    destruct (Hitems i sg Hin) as (info & ? & ? & ->). eauto. }
  cbn [deliver]. unfold onCompletionOfSignaturesProcessing_bad. rewrite expects_busy by done. cbn [Assert mbind res_bind set_processing replicasInfo numberOfUnknownSignatures].
  assert (Z.of_nat (size (unknown (replicasInfo s))) <= N) by (apply unknown_bound; intros id info Hi; by destruct (base_ids s Hb _ _ Hi)).
  destruct (markBad_spec bad (replicasInfo s) Hndb) as (m' & Hm & Hsz & Hlook); [lia| |].
  { intros id Hid. destruct (Hbad id Hid) as (info & ? & ? & _). eauto. }
  rewrite (base_count s Hb), Hm. cbn [mbind res_bind]. set (s1 := set_infos _ _ m').
  assert (same s s1) as Hsame. { constructor; [done|done|]. intros id. simpl. rewrite Hlook. destruct (replicasInfo s !! id); [|done]. simpl. by destruct (bool_decide _). }
  assert (∀ id info, replicasInfo s !! id = Some info → id ∉ bad → m' !! id = Some info) as Hkeep.
  { intros id info Hi Hnb. rewrite Hlook, Hi. simpl. by rewrite bool_decide_eq_false_2. }
  assert (∀ id info, replicasInfo s !! id = Some info → id ∈ bad → blamed m' (expectedDigest s) info) as Hblame.
  { intros id info Hi Hin Hok. destruct (Hbad id Hin) as (x & Hx & _ & Hit). simplify_eq.
    destruct (Hrep (share_signer (part_signature (partialSigMsg info)))) as (i & sg & Hin' & Hnb & Hok' & Hs).
    { apply signers_intro; [|done]. apply list_elem_of_fmap. by exists (id, part_signature (partialSigMsg info)). }
    destruct (Hitems i sg Hin') as (info' & Hi' & Hst & ->). exists i, info'. split; [by apply Hkeep|done]. }
  assert (∀ id info', m' !! id = Some info' → ∃ info, replicasInfo s !! id = Some info ∧ partialSigMsg info' = partialSigMsg info ∧
    (state info' = Invalid → id ∈ bad ∨ state info = Invalid)) as Hback.
  { intros id info' Hi. rewrite Hlook in Hi. destruct (replicasInfo s !! id) as [info|]; [|done]. simpl in Hi. exists info. split; [done|].
    case_bool_decide; simplify_eq/=; eauto. }
  assert (base s1) as Hb1.
  { constructor; simpl; [by apply base_req|done| |].
    - intros id info' (info & Hi & -> & _)%Hback. by apply (base_ids s Hb).
    - intros id info' Hi' Hst. destruct (Hback _ _ Hi') as (info & Hi & Hp' & Hs). split; [done|].
      unfold blamed. rewrite Hp'. destruct (Hs Hst) as [Hin|Hin]; [by apply (Hblame id)|].
      intros Hok. destruct (base_bad s Hb id info Hi Hin) as [_ Hbl]. destruct (Hbl Hok) as (i & x & Hx & Hsx & Hokx & Hsg).
      destruct (decide (i ∈ bad)) as [Hib|Hib]; [|exists i, x; split; [by apply Hkeep|done]].
      rewrite <- Hsg. by apply (Hblame i). }
  destruct (launch s1 js) as (oj & -> & Hinv); try done.
  eexists _, oj. split; [done|]. split; [done|]. split; [done|]. split; [by destruct Hsame|].
  unfold measure. simpl. destruct bad; [done|]. simpl in Hsz. destruct (candidateCombinedSignatureMsg s); lia.
Qed.

Lemma deliver_verified s js sq v c : base s → Forall job_wf js → (sq, v) = expected s → expectedSeqNumber s ≠ 0 →
  processingSignaturesInTheBackground s = true → combinedValidSignatureMsg s = None → current s js = [] →
  candidateCombinedSignatureMsg s = Some c →
  ∃ s' oj, deliver order s (VerifyCombinedSigResult sq v (verify verifier (expectedDigest s) (full_signature c))) = Ok (s', oj) ∧
    progress (mkW s []) (mkW s' (option_list oj ++ js)).
Proof.
  intros Hb Hj Hk He Hp Hv Hcur Hc. cbn [deliver]. unfold onCompletionOfCombinedSigVerification.
  rewrite expects_busy by done. cbn [Assert mbind res_bind]. rewrite Hc.
  assert (∀ valid cand, base (set_combined (set_processing s false) valid cand)) as Hb' by (by destruct Hb).
  destruct (verify verifier _ _) eqn:Ev.
  - eexists _, None. split; [done|]. split; [|split; [done|by left]].
    constructor; simpl; [done|done|]. by apply (Done _ _ c).
  - destruct (launch (set_combined (set_processing s false) (combinedValidSignatureMsg s) None) js) as (oj & Ht & Hinv); try done.
    eexists _, oj. split; [exact Ht|]. split; [done|]. split; [done|right]. unfold measure. simpl. rewrite Hc. lia.
Qed.

Lemma deliver_good s js sq v sig : base s → Forall job_wf js → (sq, v) = expected s → expectedSeqNumber s ≠ 0 →
  processingSignaturesInTheBackground s = true → combinedValidSignatureMsg s = None → current s js = [] →
  verify verifier (expectedDigest s) sig = true →
  ∃ s' oj, deliver order s (CombinedSigSucceeded sq v sig) = Ok (s', oj) ∧
    progress (mkW s []) (mkW s' (option_list oj ++ js)).
Proof.
  intros Hb Hj Hk He Hp Hv Hcur Hs. cbn [deliver]. unfold onCompletionOfSignaturesProcessing_good.
  rewrite expects_busy by done. cbn [Assert mbind res_bind].
  eexists _, None. split; [done|]. split; [|split; [done|by left]].
  constructor; simpl; [by destruct Hb|done|]. eapply Done; try done. simpl. by rewrite create_sig.
Qed.

(** A job that was not forgotten by a reset completes the collector or leaves less to be tried. *)
Lemma complete_current w k j : inv w → jobs w !! k = Some j → job_key j = expected (col w) →
  ∃ w', exec w (Complete k) = Ok w' ∧ progress w w'.
Proof.
  intros [Hb Hj Hp] Hk Hkey. cbn [exec]. rewrite Hk.
  assert (Forall job_wf (delete k (jobs w))) as Hj' by (by apply Forall_delete).
  assert (job_wf j) as Hwf by exact (Forall_lookup_1 _ _ _ _ Hj Hk).
  destruct Hp as [? ? ? Hcur|? ? ? ? ? Hcur|j' He Hpr Hc Hcur Hok|? ? ? Hc ? ? Hcur].
  1,2,4: exfalso; eapply (filter_nil_not_elem_of _ _ j); [exact Hcur|exact Hkey|by eapply list_elem_of_lookup_2].
  destruct (filter_delete_single (fun j => job_key j = expected (col w)) _ _ _ _ Hk Hkey Hcur) as [-> Hcur'].
  destruct w as [s js]. simpl in *.
  destruct j as [sq v d req items|sq v d sig]; cbn [execute].
  - destruct Hwf as (_ & -> & Hlen & _ & Hwf). destruct Hok as (-> & Hnd & Hitems).
    rewrite (proj2 (Z.eqb_eq _ _) Hlen). cbn [Assert mbind res_bind].
    destruct (combine_runs (expectedDigest s) items.*2) as [sig Hsig]; [done|by rewrite length_fmap|].
    rewrite Hsig. cbn [mbind res_bind].
    destruct (verify verifier _ _) eqn:Ev; cbn [mbind res_bind].
    + rewrite bool_decide_eq_true_2 by done. destruct (deliver_good s (delete k js) sq v _ Hb Hj' Hkey He Hpr Hc Hcur' Ev) as (s' & oj & -> & Hprog).
      cbn. eexists. split; [done|]. exact Hprog.
    + destruct (deliver_bad s (delete k js) sq v items) with (sig := sig) as (bad & s' & oj & -> & Hd & Hinv & Hsame & Hm); try done.
      cbn [mbind res_bind]. rewrite bool_decide_eq_true_2, Hd by done. cbn. eexists. split; [done|]. split; [done|]. split; [done|by right].
  - destruct Hok as (-> & c & Hca & ->). cbn [mbind res_bind]. rewrite bool_decide_eq_true_2 by done.
    destruct (deliver_verified s (delete k js) sq v c Hb Hj' Hkey He Hpr Hc Hcur' Hca) as (s' & oj & -> & Hprog).
    cbn. eexists. split; [done|]. exact Hprog.
Qed.

Lemma phase_jobs s js js' : current s js' = current s js → phase s js → phase s js'.
Proof. intros Heq [?|?|j|m]; [apply Waiting|apply Idle|apply (Busy _ _ j)|apply (Done _ _ m)]; congruence. Qed.

Lemma complete_inv w k : inv w → ∃ w', exec w (Complete k) = Ok w' ∧ inv w' ∧ same (col w) (col w').
Proof.
  intros Hinv. destruct (jobs w !! k) as [j|] eqn:Hk; [|cbn [exec]; rewrite Hk; exists w; by split_and!].
  destruct (decide (job_key j = expected (col w))) as [Hkey|Hkey].
  { destruct (complete_current w k j Hinv Hk Hkey) as (w' & ? & ? & ? & _). eauto. }
  cbn [exec]. rewrite Hk. destruct Hinv as [Hb Hj Hp].
  assert (∃ r, execute verifier j = Ok r) as [r ->].
  { apply (Forall_lookup_1 _ _ _ _ Hj) in Hk as [_ Hwf]. destruct j; cbn [execute]; [|eauto].
    destruct Hwf as (-> & Hlen & Hnd & Hwf). rewrite (proj2 (Z.eqb_eq _ _) Hlen). cbn [Assert mbind res_bind].
    match goal with |- context [combine verifier ?d _] => destruct (combine_runs d sigDataItems.*2) as [sig ->];
      [done|by rewrite length_fmap|]; destruct (findBad_spec d sigDataItems [] Hnd) as (bad & Hbad & _); [done|simpl; rewrite length_fmap; lia|] end.
    cbn [mbind res_bind]. destruct (verify _ _ _); [eauto|]. change (findBad verifier digest sigDataItems [] 0 = Ok bad) in Hbad. rewrite Hbad. simpl. eauto. }
  cbn [mbind res_bind]. rewrite bool_decide_eq_false_2 by done. eexists. split; [done|]. split; [|done].
  constructor; simpl; [done|by apply Forall_delete|]. eapply phase_jobs; [|exact Hp].
  by eapply (filter_delete_False (fun j => job_key j = expected (col w))).
Qed.

Lemma col_exec_inv w o : inv w → op_pre N w o → ∃ w', exec w o = Ok w' ∧ inv w'.
Proof.
  intros Hinv Hpre. destruct o as [m id|m|sq v d| | |k].
  - destruct Hpre. by apply col_addPartial_inv.
  - by apply addCombined_inv.
  - by apply setExpected_inv.
  - eexists. split; [done|]. destruct Hinv as [Hb Hj Hp]. unfold resetAndFree.
    destruct (isEmpty (col w)); [by constructor|]. apply reset_inv; [apply (base_req _ Hb)|done].
  - eexists. split; [done|]. destruct Hinv as [Hb Hj Hp]. unfold getAndReset.
    destruct (isEmpty (col w)); [by constructor|]. apply reset_inv; [apply (base_req _ Hb)|done].
  - destruct (complete_inv w k Hinv) as (w' & ? & ? & _). eauto.
Qed.

Lemma col_ctor_inv : inv (mkW ctor []).
Proof.
  constructor; simpl; [|constructor|by apply Waiting].
  constructor; simpl; [by left|done|set_solver|set_solver].
Qed.

Lemma col_reachable_inv w : reachable N w → inv w.
Proof. apply reachable_invariant; [apply col_ctor_inv|apply col_exec_inv]. Qed.

(** ** What the operations do, for their callers *)
Lemma trySend_frame s s' oj : trySendToBkThread order s = Ok (s', oj) →
  (∃ n b, s' = set_processing (set_required s n) b) ∧ (∀ j, oj = Some j → job_key j = expected s).
Proof.
  clear. unfold trySendToBkThread. intros H. apply assert_bind_ok in H as [_ H].
  set (s1 := if numOfRequiredSigs s =? 0 then _ else _) in H.
  assert (∃ n, s1 = set_required s n) as [n Hn] by (unfold s1; destruct (_ =? 0); [by eexists|exists (numOfRequiredSigs s); by destruct s]).
  rewrite Hn in H. clearbody s1. clear Hn.
  assert (∃ n' b, set_required s n = set_processing (set_required s n') b) as Hsame.
  { exists n, (processingSignaturesInTheBackground s). by destruct s. }
  destruct (_ || _); [by injection H as <- <-|].
  destruct (candidateCombinedSignatureMsg _); [injection H as <- <-; split; [eauto|by intros j [= <-]]|].
  destruct (_ <=? _); [|by injection H as <- <-].
  res_simpl. destruct r as [n' items]. res_simpl. split; [eauto|by intros j [= <-]].
Qed.

(** A result of an operation of the collector whose jobs are [js]. *)
Record outcome (s : t) (js : list Job) (s' : t) (oj : option Job) : Prop := {
  out_inv : inv (mkW s' (option_list oj ++ js));
  out_expected : expected s' = expected s;
  out_digest : expectedDigest s' = expectedDigest s;
  out_key j : oj = Some j → job_key j = expected s;
}.

Lemma col_addPartial_post s js m id : inv (mkW s js) → 0 <= id < N → share_wf (part_signature m) →
  ∃ b s' oj, addMsgWithPartialSignature order s m id = Ok (b, s', oj) ∧ outcome s js s' oj ∧
    combinedValidSignatureMsg s' = combinedValidSignatureMsg s ∧
    b = bool_decide (combinedValidSignatureMsg s = None) && bool_decide (replicasInfo s !! id = None) ∧
    replicasInfo s' = (if b then <[id := mkRepInfo m Unknown]> (replicasInfo s) else replicasInfo s).
Proof.
  intros Hinv Hid Hwf. destruct (col_addPartial_inv (mkW s js) m id Hinv Hid Hwf) as (w' & He & Hinv'). cbn [exec col] in He.
  apply bind_ok in He as ([[b s'] oj] & Ha & He). injection He as <-. exists b, s', oj. split; [done|].
  unfold addMsgWithPartialSignature in Ha. destruct (combinedValidSignatureMsg s) as [f|] eqn:Ev.
  { rewrite bool_decide_eq_true_2 in Ha by done. injection Ha as <- <- <-. rewrite (bool_decide_eq_false_2 (Some f = None)) by done. by split_and!. }
  rewrite bool_decide_eq_false_2 in Ha by auto. cbn [orb] in Ha. destruct (replicasInfo s !! id) as [x|] eqn:Ei.
  { rewrite bool_decide_eq_true_2 in Ha by eauto. injection Ha as <- <- <-. rewrite Ev. by split_and!. }
  rewrite bool_decide_eq_false_2 in Ha by (intros [? ?]; done). apply bind_ok in Ha as ([s2 j] & Ht & H). injection H as <- <- <-.
  apply trySend_frame in Ht as ((n & b & ->) & Hk). cbn. rewrite Ev. by split_and!.
Qed.

Lemma addCombined_post s js m : inv (mkW s js) →
  ∃ b s' oj, addMsgWithCombinedSignature order s m = Ok (b, s', oj) ∧ outcome s js s' oj ∧
    combinedValidSignatureMsg s' = combinedValidSignatureMsg s ∧ replicasInfo s' = replicasInfo s.
Proof.
  intros Hinv. destruct (addCombined_inv (mkW s js) m Hinv) as (w' & He & Hinv'). cbn [exec col] in He.
  apply bind_ok in He as ([[b s'] oj] & Ha & He). injection He as <-. exists b, s', oj. split; [done|].
  unfold addMsgWithCombinedSignature in Ha. destruct (_ || _); [injection Ha as <- <- <-; by split_and!|].
  apply bind_ok in Ha as ([s2 j] & Ht & H). injection H as <- <- <-. apply trySend_frame in Ht as ((n & b & ->) & Hk). by split_and!.
Qed.

Lemma setExpected_post s js sq v d : inv (mkW s js) → op_pre N (mkW s js) (SetExpected sq v d) →
  ∃ s' oj, setExpected order s sq v d = Ok (s', oj) ∧ inv (mkW s' (option_list oj ++ js)) ∧
    expected s' = (sq, v) ∧ expectedDigest s' = d ∧ replicasInfo s' = replicasInfo s ∧
    combinedValidSignatureMsg s' = combinedValidSignatureMsg s ∧ (∀ j, oj = Some j → job_key j = (sq, v)).
Proof.
  intros Hinv Hpre. destruct (setExpected_inv (mkW s js) sq v d Hinv Hpre) as (w' & He & Hinv'). cbn [exec col] in He.
  apply bind_ok in He as ([s' oj] & Ha & He). injection He as <-. exists s', oj. split; [done|]. split; [done|].
  unfold setExpected in Ha. apply assert_bind_ok in Ha as [_ Ha]. apply assert_bind_ok in Ha as [_ Ha]. apply assert_bind_ok in Ha as [_ Ha].
  apply trySend_frame in Ha as ((n & b & ->) & Hk). by split_and!.
Qed.

(** A job ends and its result is handled; [good r]: the result makes the collector complete. *)
Definition good (r : Result) : bool :=
  match r with CombinedSigFailed _ _ _ => false | CombinedSigSucceeded _ _ _ => true | VerifyCombinedSigResult _ _ ok => ok end.

Lemma deliver_good_complete s r s' oj : deliver order s r = Ok (s', oj) → good r = true → isComplete s' = true.
Proof.
  clear. destruct r as [sq v bad|sq v sig|sq v []]; cbn [good deliver]; intros H Hg; try done.
  - unfold onCompletionOfSignaturesProcessing_good in H. by res_simpl.
  - unfold onCompletionOfCombinedSigVerification in H. apply assert_bind_ok in H as [_ H].
    destruct (candidateCombinedSignatureMsg s); [|done]. by injection H as <- _.
Qed.

Lemma deliver_key s r s' oj : deliver order s r = Ok (s', oj) → ∀ j, oj = Some j → job_key j = expected s.
Proof.
  clear. intros H j ->. destruct r as [sq v bad|sq v sig|sq v ok]; cbn [deliver] in H.
  - unfold onCompletionOfSignaturesProcessing_bad in H. apply assert_bind_ok in H as [_ H]. apply bind_ok in H as ([n m] & _ & H).
    apply trySend_frame in H as [_ Hk]. by apply Hk.
  - unfold onCompletionOfSignaturesProcessing_good in H. res_simpl.
  - unfold onCompletionOfCombinedSigVerification in H. apply assert_bind_ok in H as [_ H].
    destruct (candidateCombinedSignatureMsg s); [|done]. destruct ok; [done|]. apply trySend_frame in H as [_ Hk]. by apply Hk.
Qed.

Lemma deliver_incomplete s r s' oj : deliver order s r = Ok (s', oj) → isComplete s = false.
Proof.
  clear. intros H. assert (∃ sq v, expects s sq v = true) as (sq & v & He).
  { destruct r as [sq v bad|sq v sig|sq v ok]; cbn [deliver] in H;
      unfold onCompletionOfSignaturesProcessing_bad, onCompletionOfSignaturesProcessing_good, onCompletionOfCombinedSigVerification in H;
      apply assert_bind_ok in H as [H _]; eauto. }
  unfold expects in He. bool_to_prop. unfold isComplete. by apply bool_decide_eq_false_2; intros [].
Qed.

(** Jobs for what is expected are for nothing when nothing is expected. *)
Lemma waiting_no_jobs s js : inv (mkW s js) → expectedSeqNumber s = 0 → Forall (fun j => job_key j = expected s) js → js = [].
Proof.
  intros Hinv H0 Hk. pose proof (current_waiting s js (inv_jobs _ Hinv) H0) as Hc. unfold current in Hc.
  rewrite <- Hc. symmetry. rewrite Forall_forall in Hk. clear -Hk. induction js as [|j js IH]; [done|].
  rewrite filter_cons_True by (apply Hk; left). f_equal. apply IH. intros x Hx. apply Hk. by right.
Qed.

Lemma complete_post s js k j : inv (mkW s js) → js !! k = Some j → job_key j = expected s →
  ∃ r s' oj, execute verifier j = Ok r ∧ deliver order s r = Ok (s', oj) ∧ outcome s (delete k js) s' oj ∧
    same s s' ∧ (good r = true → isComplete s' = true).
Proof.
  intros Hinv Hk Hkey. destruct (complete_current (mkW s js) k j Hinv Hk Hkey) as (w' & He & Hinv' & Hsame & _).
  cbn [exec col jobs] in He. rewrite Hk in He. apply bind_ok in He as (r & Hr & He).
  rewrite bool_decide_eq_true_2 in He by done. apply bind_ok in He as ([s' oj] & Hd & He). injection He as <-. cbn [col with_job] in *.
  exists r, s', oj. split_and!; [done|done| |done|exact (deliver_good_complete s r s' oj Hd)].
  constructor; [exact Hinv'|apply Hsame|apply Hsame|exact (deliver_key s r s' oj Hd)].
Qed.

Lemma valid_post s js m : inv (mkW s js) → combinedValidSignatureMsg s = Some m →
  expectedSeqNumber s ≠ 0 ∧ verify verifier (expectedDigest s) (full_signature m) = true.
Proof.
  intros Hinv Hm. destruct (inv_phase _ Hinv) as [? ? Hc ?|? ? Hc ? ? ?|j ? ? Hc ? ?|m' He ? Hc ? Hv ?]; cbn [col] in *; rewrite Hc in Hm; by simplify_eq.
Qed.

Lemma col_resetAndFree_empty (s : t) : isEmpty (resetAndFree s) = true.
Proof.
  clear. unfold resetAndFree. destruct (isEmpty s) eqn:E; [done|]. unfold resetContent, isEmpty. simpl.
  destruct (Z.eqb_spec (expectedSeqNumber s) 0) as [He|He]; simpl; [rewrite He|]; by rewrite !bool_decide_eq_true_2.
Qed.

(** ** The promises of the collector *)

(** The background threads run until there is no job for what is expected. *)
Fixpoint drain (fuel : nat) (w : world) : res world :=
  match fuel with
  | O => Ok w
  | S fuel =>
      match list_find (fun j => job_key j = expected (col w)) (jobs w) with
      | None => Ok w
      | Some (k, _) => w ← exec w (Complete k); drain fuel w
      end
  end.

(** The collector holds valid shares of [required] different signers. *)
Definition supported (s : t) : Prop :=
  ∃ X : gset Z, R <= Z.of_nat (size X) ∧ ∀ x, x ∈ X → ∃ id info, replicasInfo s !! id = Some info ∧
    share_ok (expectedDigest s) (part_signature (partialSigMsg info)) = true ∧
    share_signer (part_signature (partialSigMsg info)) = x.

Lemma same_supported s s' : same s s' → supported s → supported s'.
Proof.
  intros Hs (X & Hsz & HX). exists X. split; [done|]. intros x Hx. destruct (HX x Hx) as (id & info & Hi & Hok & Hsg).
  destruct (same_lookup _ _ _ _ Hs Hi) as (info' & Hi' & Hp). exists id, info'. by rewrite Hp, (same_digest _ _ Hs).
Qed.

Lemma supported_unknown s : base s → supported s → R <= numberOfUnknownSignatures s.
Proof.
  intros Hb (X & Hsz & HX). rewrite (base_count s Hb). transitivity (Z.of_nat (size X)); [done|].
  apply Nat2Z.inj_le. rewrite <- length_map_to_list.
  rewrite <- (length_fmap (fun x => share_signer (part_signature (partialSigMsg x.2)))).
  etransitivity; [|apply (size_list_to_set_le (A:=Z))]. apply subseteq_size. intros x Hx.
  apply elem_of_list_to_set, list_elem_of_fmap. destruct (HX x Hx) as (id & info & Hi & Hok & <-).
  destruct (state info) eqn:Est.
  - exists (id, info). split; [done|]. apply elem_of_map_to_list, unknown_lookup. rewrite Est. done.
  - destruct (base_bad s Hb id info Hi Est) as [_ Hbl]. destruct (Hbl Hok) as (i & y & Hy & Hsy & _ & Hsg).
    exists (i, y). split; [done|]. by apply elem_of_map_to_list, unknown_lookup.
Qed.

Lemma drain_post n : ∀ w, inv w → (measure (col w) <= n)%nat →
  ∃ w', drain n w = Ok w' ∧ inv w' ∧ same (col w) (col w') ∧ processingSignaturesInTheBackground (col w') = false.
Proof.
  induction n as [|n IH]; intros w Hinv Hm; cbn [drain].
  - exists w. split_and!; [done|done|done|]. destruct Hinv as [Hb Hj Hp]. destruct Hp as [?|?|j He Hpr Hc Hcur Hok|?]; [done..| |done].
    exfalso. assert (j ∈ jobs w) as Hin by (eapply (list_elem_of_filter (fun j => job_key j = expected (col w))); fold (current (col w) (jobs w)); rewrite Hcur; set_solver).
    assert (job_wf j) as Hwf by (by eapply (proj1 (Forall_forall _ _) Hj)).
    unfold measure in Hm. destruct j as [sq v d req items|sq v d sig]; simpl in Hok.
    + destruct Hwf as (_ & _ & Hlen & _). destruct Hok as (_ & _ & Hitems). destruct items as [|[id sg] items]; [simpl in Hlen; lia|].
      destruct (Hitems id sg) as (info & Hi & Hs & _); [left|].
      assert (size (unknown (replicasInfo (col w))) ≠ 0%nat); [|lia].
      apply map_size_ne_0_lookup. exists id, info. by apply unknown_lookup.
    + destruct Hok as (_ & c & Hc' & _). rewrite Hc' in Hm. lia.
  - destruct (list_find _ _) as [[k j]|] eqn:Hf.
    + apply list_find_Some in Hf as (Hk & Hkey & _).
      destruct (complete_current w k j Hinv Hk Hkey) as (w1 & He & Hinv1 & Hsame & Hor). rewrite He. cbn [mbind res_bind].
      destruct (decide ((measure (col w1) < measure (col w))%nat)) as [Hlt|Hge].
      * destruct (IH w1 Hinv1) as (w' & Hd & Hinv' & Hsame' & Hp'); [lia|]. exists w'. split_and!; [done|done| |done].
        destruct Hsame, Hsame'. constructor; intros; congruence.
      * destruct Hor as [Hcomp|]; [|lia]. exists w1.
        assert (processingSignaturesInTheBackground (col w1) = false) as Hp1.
        { destruct (inv_phase w1 Hinv1) as [?|?|? ? ? Hc|?]; [done..| |done]. unfold isComplete in Hcomp. by rewrite Hc in Hcomp. }
        assert (current (col w1) (jobs w1) = []) as Hc1 by (destruct (inv_phase w1 Hinv1); congruence).
        split_and!; [|done|done|done]. destruct n; cbn [drain]; [done|].
        destruct (list_find _ (jobs w1)) as [[k1 j1]|] eqn:Hf1; [|done]. apply list_find_Some in Hf1 as (Hk1 & Hkey1 & _).
        exfalso. eapply (filter_nil_not_elem_of _ _ j1); [exact Hc1|exact Hkey1|by eapply list_elem_of_lookup_2].
    + exists w. split_and!; [done|done|done|]. destruct Hinv as [Hb Hj Hp]. destruct Hp as [?|?|j He Hpr Hc Hcur Hok|?]; [done..| |done].
      apply list_find_None in Hf. exfalso. assert (j ∈ current (col w) (jobs w)) as Hin by (rewrite Hcur; set_solver).
      apply list_elem_of_filter in Hin as [Hkey Hin]. by apply (proj1 (Forall_forall _ _) Hf j Hin).
Qed.

(** C15: The collector and its background jobs, where every share names an existing signer ([share_wf]) and the
    combination of such shares returns ([combine_runs]), in any interleaving of the operations
    with the completion of jobs: no assertion of the collector fails and no counter
    wraps; at most one job works for what is expected, and one does exactly when
    [processingSignaturesInTheBackground] is set; a combined signature the collector
    reports verifies for the expected digest. *)
Theorem collector_safe w : reachable N w →
  (∀ o, op_pre N w o → ∃ w', exec w o = Ok w') ∧
  numberOfUnknownSignatures (col w) = Z.of_nat (size (unknown (replicasInfo (col w)))) ∧
  length (filter (fun j => job_key j = expected (col w)) (jobs w)) =
    (if processingSignaturesInTheBackground (col w) then 1%nat else 0%nat) ∧
  (∀ m, getMsgWithValidCombinedSignature (col w) = Some m →
     expectedSeqNumber (col w) ≠ 0 ∧ verify verifier (expectedDigest (col w)) (full_signature m) = true).
Proof.
  intros Hr. pose proof (col_reachable_inv w Hr) as Hinv. split_and!.
  - intros o Ho. destruct (col_exec_inv w o Hinv Ho) as (w' & ? & _). eauto.
  - apply base_count, Hinv.
  - destruct (inv_phase w Hinv) as [? Hp ? Hc|? Hp ? ? ? Hc|j ? Hp ? Hc ?|m ? Hp ? ? ? Hc]; unfold current in Hc; by rewrite Hc, Hp.
  - unfold getMsgWithValidCombinedSignature. intros m Hm.
    destruct (inv_phase w Hinv) as [? ? Hc ?|? ? Hc ? ? ?|j ? ? Hc ? ?|m' He ? Hc ? Hv ?]; rewrite Hc in Hm; by simplify_eq.
Qed.

(** C16: Termination: with no further message, the background jobs for what is expected
    come to an end after at most as many of them as there are shares not known to be bad
    and candidates; and when valid shares of [required] different signers were received,
    the collector is then complete, whatever else was sent: invalid shares and combined
    signatures, and copies of the shares of others, as long as every share names an existing signer
    ([share_wf]; [Accumulator.foreign_signer_fails_job]) and the combination of such shares returns
    ([combine_runs]; [Accumulator.copied_share_fails_multisig]). *)
Theorem collector_completes w : reachable N w →
  ∃ w', drain (measure (col w)) w = Ok w' ∧ processingSignaturesInTheBackground (col w') = false ∧
    (expectedSeqNumber (col w) ≠ 0 → supported (col w) → isComplete (col w') = true).
Proof.
  intros Hr%col_reachable_inv. destruct (drain_post _ w Hr (le_n _)) as (w' & Hd & Hinv & Hsame & Hp).
  exists w'. split_and!; [done|done|]. intros He Hs. apply (same_supported _ _ Hsame) in Hs.
  apply (supported_unknown _ (inv_base _ Hinv)) in Hs. pose proof (same_expected _ _ Hsame) as Hexp. injection Hexp as He' _.
  destruct (inv_phase w' Hinv) as [?|? ? ? ? Hlt|? ? Hp'|m ? ? Hc]; [congruence|lia|congruence|].
  unfold isComplete. by rewrite Hc.
Qed.
End facts.
End Collector.
