(* ===== verification/Accumulator.v ===== *)
(** * ThresholdAccumulatorBase and BlsMultisigAccumulator
    (threshsign/src/ThresholdAccumulatorBase.tpp, threshsign/include/threshsign/ThresholdAccumulatorBase.h,
    threshsign/src/bls/relic/BlsMultisigAccumulator.cpp)

    Accumulates signature shares, one per signer, until enough signers are found; with
    share verification, shares that come before the digest wait.  The parser of shares,
    the pairing check of one share and the group of the RELIC library are parameters. *)
From S2P Require Import Prelude SysConsts Bitmap VectorOfShares Collector.

Module Accumulator.
Import VectorOfShares (count, contains, first, next, isEnd, shares, wf, elems).

Section defs.
Context {NumType : Type}.
(** [SigShareParserFunc], [verifyShare], [hasShareVerificationEnabled()]; the constants of the constructor. *)
Context (parse : list Z → Z * NumType) (verifyShare : Digest → Z → NumType → bool).
Context (reqSigners totalSigners : Z).

(** [pendingShares] and [validShares] are vectors indexed by signer; [shareVerification] is
    the constant of the constructor. *)
Record t := mk {
  shareVerification : bool;
  expectedDigest : option Digest;
  pendingShares : gmap Z NumType;
  validShares : gmap Z NumType;
  validSharesBits : VectorOfShares.t;
  pendingSharesBits : VectorOfShares.t;
}.

Definition ctor (withShareVerification : bool) : t :=
  mk withShareVerification None ∅ ∅ VectorOfShares.ctor VectorOfShares.ctor.

Definition set_valid (a : t) (id : Z) (s : NumType) (bits : VectorOfShares.t) : t :=
  mk (shareVerification a) (expectedDigest a) (pendingShares a) (<[id := s]> (validShares a)) bits (pendingSharesBits a).

(** The calls of [verifyShare] happen with the digest set, or are skipped. *)
Definition verified (a : t) (id : Z) (s : NumType) : res bool :=
  match expectedDigest a with
  | Some d => Ok (verifyShare d id s)
  | None => Err AssertFailed
  end.

(** Result: the state and the returned count. *)
Definition addNumById (a : t) (signer : Z) (sigShare : NumType) : res (t * Z) :=
  assert! ((1 <=? signer) && (signer <=? totalSigners)) ;;
  assert! (count (validSharesBits a) <=? reqSigners) ;;
  if shareVerification a && bool_decide (expectedDigest a = None) then
    b ← contains (pendingSharesBits a) signer;
    a ← (if negb b then
           bits ← VectorOfShares.add (pendingSharesBits a) signer;
           Ok (mk (shareVerification a) (expectedDigest a) (<[signer := sigShare]> (pendingShares a))
                 (validShares a) (validSharesBits a) bits)
         else Ok a);
    Ok (a, count (pendingSharesBits a))
  else if count (validSharesBits a) =? reqSigners then Ok (a, count (validSharesBits a))
  else
    b ← contains (validSharesBits a) signer;
    a ← (if negb b then
           ok ← (if negb (shareVerification a) then Ok true else verified a signer sigShare);
           if (ok : bool) then
             bits ← VectorOfShares.add (validSharesBits a) signer;
             Ok (set_valid a signer sigShare bits)
           else Ok a
         else Ok a);
    Ok (a, count (validSharesBits a)).

Definition add (a : t) (sigShare : list Z) : res (t * Z) :=
  let '(id, s) := parse sigShare in addNumById a id s.

(** The loop of [verifyPendingShares] from share [id] on. *)
Fixpoint verify_loop (fuel : nat) (a : t) (id : Z) : res t :=
  match fuel with
  | O => Err OutOfFuel
  | S fuel =>
      e ← isEnd (pendingSharesBits a) id;
      if (e : bool) then Ok a
      else if count (validSharesBits a) =? reqSigners then Ok a
      else
        match pendingShares a !! id with
        | None => Err OutOfBounds
        | Some s =>
            ok ← verified a id s;
            a ← (if (ok : bool) then
                   bits ← VectorOfShares.add (validSharesBits a) id;
                   Ok (set_valid a id s bits)
                 else Ok a);
            id ← next (pendingSharesBits a) id;
            verify_loop fuel a id
        end
  end.

Definition verifyPendingShares (a : t) : res t :=
  assert! (shareVerification a) ;;
  assert! (bool_decide (expectedDigest a ≠ None)) ;;
  assert! (count (validSharesBits a) =? 0) ;;
  id ← first (pendingSharesBits a);
  a ← verify_loop VectorOfShares.loop_fuel a id;
  let a := mk (shareVerification a) (expectedDigest a) ∅ (validShares a) (validSharesBits a) (pendingSharesBits a) in
  assert! (count (validSharesBits a) <=? reqSigners) ;;
  Ok a.

(** [setExpectedDigest]; digests have one length here. *)
Definition setExpectedDigest (a : t) (msg : Digest) : res t :=
  match expectedDigest a with
  | None =>
      let a := mk (shareVerification a) (Some msg) (pendingShares a) (validShares a) (validSharesBits a) (pendingSharesBits a) in
      if shareVerification a then verifyPendingShares a else Ok a
  | Some d => if bool_decide (d = msg) then Ok a else Err Thrown
  end.

Definition getNumValidShares (a : t) : Z :=
  if negb (shareVerification a) || bool_decide (expectedDigest a ≠ None) then count (validSharesBits a) else 0.

(** [BlsMultisigAccumulator::aggregateShares], over the group of the library. *)
Definition aggregateShares (g1_add : NumType → NumType → NumType) (identity : NumType) (a : t) : res NumType :=
  assert! (count (validSharesBits a) =? reqSigners) ;;
  id ← first (validSharesBits a);
  VectorOfShares.iterate VectorOfShares.loop_fuel (validSharesBits a)
    (fun acc id => match validShares a !! id with Some s => Ok (g1_add acc s) | None => Err OutOfBounds end) id identity.

(** [BlsMultisigAccumulator::sigToBytes]; [g1_bytes] is [G1T::toBytes], of [getG1PointSize()] bytes. *)
Definition sigToBytes (g1_bytes : NumType → list Z) (threshSig : NumType) (a : t) (threshSigLen : Z) : res (list Z) :=
  let sigSize := Z.of_nat (length (g1_bytes threshSig)) in
  let vectorSize := if negb (reqSigners =? totalSigners) then VectorOfShares.getByteCount else 0 in
  if threshSigLen <? sigSize + vectorSize then Err Thrown
  else if negb (reqSigners =? totalSigners) then
    vec ← VectorOfShares.toBytes (validSharesBits a) (replicate (Z.to_nat vectorSize) 0) vectorSize;
    Ok (g1_bytes threshSig ++ vec)
  else Ok (g1_bytes threshSig).

(** [BlsMultisigAccumulator::getFullSignedData] *)
Definition multisig_getFullSignedData (g1_add : NumType → NumType → NumType) (identity : NumType) (g1_bytes : NumType → list Z)
    (threshSigLen : Z) (a : t) : res (list Z) :=
  threshSig ← aggregateShares g1_add identity a;
  sigToBytes g1_bytes threshSig a threshSigLen.

#[local] Opaque VectorOfShares.ctor.

(** ** Which signers are counted *)
Context (Hreq : 0 <= reqSigners) (Htotal : totalSigners <= VectorOfShares.MAX_NUM_OF_SHARES).

(** [V'] is [V] with signers of [S] added until there are [reqSigners]. *)
Definition grow (V S V' : gset Z) : Prop :=
  V ⊆ V' ∧ V' ⊆ V ∪ S ∧ Z.of_nat (size V') = Z.min reqSigners (Z.of_nat (size (V ∪ S))).

Lemma grow_refl V : Z.of_nat (size V) <= reqSigners → grow V ∅ V.
Proof. intros Hs. split_and!; [set_solver..|]. rewrite (right_id_L ∅ (∪)). lia. Qed.

Lemma grow_full V S : Z.of_nat (size V) = reqSigners → grow V S V.
Proof.
  intros Hs. split_and!; [set_solver..|]. pose proof (subseteq_size V (V ∪ S) ltac:(set_solver)). lia.
Qed.

Lemma grow_trans V S1 V1 S2 V2 : grow V S1 V1 → grow V1 S2 V2 → grow V (S1 ∪ S2) V2.
Proof.
  intros (Ha & Hb & Hc) (Hd & He & Hf). split_and!; [set_solver..|].
  destruct (decide (Z.of_nat (size (V ∪ S1)) <= reqSigners)) as [Hle|Hgt].
  - assert (V1 = V ∪ S1) as -> by (apply leibniz_equiv, set_subseteq_size_equiv; [done|lia]).
    by rewrite (assoc_L (∪)).
  - pose proof (subseteq_size V1 V2 Hd). pose proof (subseteq_size (V ∪ S1) (V ∪ (S1 ∪ S2)) ltac:(set_solver)).
    pose proof (subseteq_size V1 (V1 ∪ S2) ltac:(set_solver)). lia.
Qed.

Lemma size_add_le (V : gset Z) x : (size ({[x]} ∪ V) <= S (size V))%nat.
Proof. rewrite size_union_alt, size_singleton. pose proof (subseteq_size (V ∖ {[x]}) V ltac:(set_solver)). lia. Qed.

Lemma grow_one V x : Z.of_nat (size V) < reqSigners → grow V {[x]} ({[x]} ∪ V).
Proof.
  intros Hs. split_and!; [set_solver..|]. rewrite (comm_L (∪) V).
  pose proof (size_add_le V x). lia.
Qed.

Lemma count_shares v : wf v → count v = Z.of_nat (size (shares v)).
Proof. apply VectorOfShares.size_shares. Qed.

Record ok (a : t) : Prop := {
  ok_valid : wf (validSharesBits a);
  ok_pending : wf (pendingSharesBits a);
  ok_count : Z.of_nat (size (shares (validSharesBits a))) <= reqSigners;
  ok_dom : dom (validShares a) = shares (validSharesBits a);
}.

Lemma ok_ctor b : ok (ctor b).
Proof.
  destruct VectorOfShares.ctor_post as [Hwf Hs]. constructor; [exact Hwf|exact Hwf|..].
  - unfold ctor. simpl validSharesBits. rewrite Hs, size_empty. lia.
  - unfold ctor. simpl validSharesBits. simpl validShares. rewrite Hs. apply dom_empty_L.
Qed.

Lemma contains_post v e : wf v → 1 <= e <= VectorOfShares.MAX_NUM_OF_SHARES → contains v e = Ok (bool_decide (e ∈ shares v)).
Proof.
  intros Hwf He. destruct (VectorOfShares.bit_in v e (proj1 Hwf) He) as (b & Hb & _ & Hin). unfold contains. rewrite Hb. f_equal.
  destruct b; symmetry; [apply bool_decide_eq_true_2|apply bool_decide_eq_false_2]; naive_solver.
Qed.

(** Adding a share that passed its check. *)
Lemma set_valid_post a id s : ok a → 1 <= id <= totalSigners → Z.of_nat (size (shares (validSharesBits a))) < reqSigners →
  ∃ bits, VectorOfShares.add (validSharesBits a) id = Ok bits ∧ ok (set_valid a id s bits) ∧ shares bits = {[id]} ∪ shares (validSharesBits a).
Proof.
  intros [Hv Hp Hc Hd] Hid Hs. destruct (VectorOfShares.add_post _ id Hv) as (bits & Ha & Hwf & Hsh); [lia|].
  exists bits. split_and!; [done| |done]. constructor; simpl; [done|done| |].
  - rewrite Hsh. pose proof (size_add_le (shares (validSharesBits a)) id). lia.
  - rewrite dom_insert_L, Hd. by rewrite Hsh.
Qed.

(** The signers a share counts for: its own, when it is valid or not verified. *)
Definition passes (b : bool) (d : Digest) (x : Z * NumType) : bool := negb b || verifyShare d x.1 x.2.

Definition signer_of (b : bool) (d : Digest) (x : Z * NumType) : gset Z := if passes b d x then {[x.1]} else ∅.

Lemma addNumById_post a d id s : ok a → (shareVerification a = true → expectedDigest a = Some d) → 1 <= id <= totalSigners →
  ∃ a', addNumById a id s = Ok (a', count (validSharesBits a')) ∧ ok a' ∧
    shareVerification a' = shareVerification a ∧ expectedDigest a' = expectedDigest a ∧ pendingSharesBits a' = pendingSharesBits a ∧
    (∀ x y, validShares a' !! x = Some y → validShares a !! x = Some y ∨ (x, y) = (id, s)) ∧
    grow (shares (validSharesBits a)) (signer_of (shareVerification a) d (id, s)) (shares (validSharesBits a')).
Proof.
  intros Hok Hdig Hid. pose proof Hok as [Hv Hp Hc Hd]. unfold addNumById.
  rewrite (proj2 (Z.leb_le 1 id)), (proj2 (Z.leb_le id _)) by lia. cbn [andb Assert mbind res_bind].
  unfold count. rewrite (VectorOfShares.size_shares _ Hv). rewrite (proj2 (Z.leb_le _ _) Hc). cbn [Assert mbind res_bind].
  assert ((shareVerification a && bool_decide (expectedDigest a = None)) = false) as ->.
  { destruct (shareVerification a); [|done]. rewrite Hdig by done. done. }
  destruct (Z.eqb_spec (Z.of_nat (size (shares (validSharesBits a)))) reqSigners) as [Hfull|Hfull].
  { exists a. rewrite (VectorOfShares.size_shares _ Hv). split_and!; [done..|by left|by apply grow_full]. }
  rewrite contains_post by (done || lia). cbn [mbind res_bind].
  destruct (decide (id ∈ shares (validSharesBits a))) as [Hin|Hnin].
  { rewrite bool_decide_eq_true_2 by done. exists a. cbn. split_and!; [done..|by left|].
    unfold signer_of. destruct (passes _ _ _); [|by apply grow_refl].
    split_and!; [set_solver..|]. simpl. assert (shares (validSharesBits a) ∪ {[id]} = shares (validSharesBits a)) as -> by set_solver. lia. }
  rewrite bool_decide_eq_false_2 by done. cbn [negb].
  assert ((if negb (shareVerification a) then Ok true else verified a id s) = Ok (passes (shareVerification a) d (id, s))) as ->.
  { unfold passes, verified. destruct (shareVerification a); [|done]. simpl. by rewrite Hdig. }
  cbn [mbind res_bind]. unfold signer_of. destruct (passes _ _ _).
  - destruct (set_valid_post a id s Hok Hid) as (bits & -> & Hok' & Hsh); [lia|]. cbn. exists (set_valid a id s bits). split; [done|]. split; [done|].
    split_and!; [done..| |].
    + simpl. intros x y [[-> ->]|[_ ?]]%lookup_insert_Some; [by right|by left].
    + simpl. rewrite Hsh. apply grow_one. lia.
  - cbn. exists a. split_and!; [done..|by left|by apply grow_refl].
Qed.

(** Without share verification every share with a signer is taken. *)
Lemma add_unverified a sig : ok a → shareVerification a = false → 1 <= (parse sig).1 <= totalSigners →
  ∃ a' n, add a sig = Ok (a', n) ∧ ok a' ∧ shareVerification a' = false ∧ expectedDigest a' = expectedDigest a.
Proof.
  intros Hok Hv Hwf. unfold add. destruct (parse sig) as [id x]. simpl in Hwf.
  destruct (addNumById_post a zeroDigest id x) as (a' & Ha & Hok' & Hv' & Hd' & _); [done|by rewrite Hv|done|].
  eexists a', _. split; [exact Ha|]. split_and!; [done|congruence|done].
Qed.

Lemma setDigest_unverified a d : ok a → shareVerification a = false → expectedDigest a = None →
  ∃ a', setExpectedDigest a d = Ok a' ∧ ok a' ∧ shareVerification a' = false ∧ expectedDigest a' = Some d.
Proof.
  intros [Hv Hp Hc Hd] Hs Hn. unfold setExpectedDigest. rewrite Hn, Hs. cbn [shareVerification].
  eexists. split; [done|]. split; [by constructor|done].
Qed.

(** The signers of valid shares of a list. *)
Fixpoint counted (b : bool) (d : Digest) (l : list (Z * NumType)) : gset Z :=
  match l with [] => ∅ | x :: l' => signer_of b d x ∪ counted b d l' end.

(** Adding shares one by one; the second component is the result of the last call. *)
Definition addAll (l : list (list Z)) (r : t * Z) : res (t * Z) := foldM (fun r sig => add r.1 sig) r l.

Lemma addAll_cons sig l r : addAll (sig :: l) r = (r ← add r.1 sig; addAll l r).
Proof. done. Qed.

Lemma addAll_app l l' r : addAll (l ++ l') r = (r ← addAll l r; addAll l' r).
Proof. unfold addAll. apply foldM_app. Qed.

Lemma addAll_post d l : ∀ a, ok a → (shareVerification a = true → expectedDigest a = Some d) →
  Forall (fun sig => 1 <= (parse sig).1 <= totalSigners) l →
  ∃ a', addAll l (a, count (validSharesBits a)) = Ok (a', count (validSharesBits a')) ∧ ok a' ∧
    shareVerification a' = shareVerification a ∧ expectedDigest a' = expectedDigest a ∧ pendingSharesBits a' = pendingSharesBits a ∧
    (∀ x y, validShares a' !! x = Some y → validShares a !! x = Some y ∨ (x, y) ∈ parse <$> l) ∧
    grow (shares (validSharesBits a)) (counted (shareVerification a) d (parse <$> l)) (shares (validSharesBits a')).
Proof.
  induction l as [|sig l IH]; intros a Hok Hdig Hl.
  { exists a. split_and!; [done..|by left|apply grow_refl, Hok]. }
  apply Forall_cons in Hl as [Hid Hl]. rewrite addAll_cons, fmap_cons. cbn [fst].
  assert (add a sig = addNumById a (parse sig).1 (parse sig).2) as -> by (unfold add; by destruct (parse sig)).
  destruct (parse sig) as [id s]. cbn [fst snd] in *.
  destruct (addNumById_post a d id s Hok Hdig Hid) as (a1 & -> & Hok1 & Hb1 & Hd1 & Hp1 & Hm1 & Hg1). cbn [mbind res_bind].
  destruct (IH a1 Hok1) as (a2 & Ha2 & Hok2 & Hb2 & Hd2 & Hp2 & Hm2 & Hg2); [by rewrite Hb1, Hd1|done|].
  exists a2. split_and!; [exact Ha2|done|congruence..| |].
  - intros x y Hx. destruct (Hm2 x y Hx) as [Hx1|?]; [|by right; right]. destruct (Hm1 x y Hx1) as [?|[= -> ->]]; [by left|right; left].
  - cbn [counted]. rewrite Hb1 in Hg2. by eapply grow_trans.
Qed.

(** ** Shares that come before the digest *)
Record waiting (a : t) : Prop := {
  waiting_ok : ok a;
  waiting_ver : shareVerification a = true;
  waiting_digest : expectedDigest a = None;
  waiting_valid : shares (validSharesBits a) = ∅;
  waiting_dom : dom (pendingShares a) = shares (pendingSharesBits a);
  waiting_range : ∀ id, id ∈ shares (pendingSharesBits a) → 1 <= id <= totalSigners;
}.

Lemma waiting_ctor : waiting (ctor true).
Proof.
  destruct VectorOfShares.ctor_post as [Hwf Hs].
  constructor; unfold ctor; cbn [shareVerification expectedDigest validSharesBits pendingShares pendingSharesBits].
  - apply ok_ctor.
  - done.
  - done.
  - done.
  - rewrite Hs. apply dom_empty_L.
  - rewrite Hs. by intros id ?%not_elem_of_empty.
Qed.

Lemma addNumById_waiting a id s : waiting a → 1 <= id <= totalSigners → pendingShares a !! id = None →
  ∃ a' n, addNumById a id s = Ok (a', n) ∧ waiting a' ∧ pendingShares a' = <[id := s]> (pendingShares a).
Proof.
  intros [[Hv Hp Hc Hd] Hver Hdig Hval Hdom Hrange] Hid Hnew. unfold addNumById.
  rewrite (proj2 (Z.leb_le 1 id)), (proj2 (Z.leb_le id _)) by lia. cbn [andb Assert mbind res_bind].
  unfold count. rewrite (VectorOfShares.size_shares _ Hv). rewrite (proj2 (Z.leb_le _ _) Hc). cbn [Assert mbind res_bind].
  rewrite Hver, Hdig. rewrite bool_decide_eq_true_2 by done. cbn [andb].
  rewrite contains_post by (done || lia). cbn [mbind res_bind].
  rewrite bool_decide_eq_false_2 by (rewrite <- Hdom; by apply not_elem_of_dom). cbn [negb].
  destruct (VectorOfShares.add_post _ id Hp) as (bits & -> & Hwf & Hsh); [lia|]. cbn [mbind res_bind].
  eexists _, _. split; [reflexivity|]. split; [|done]. constructor; simpl; try done.
  - by rewrite dom_insert_L, Hdom.
  - intros x. rewrite Hsh. set_solver.
Qed.

Lemma addAll_waiting l : ∀ a n, waiting a → Forall (fun sig => 1 <= (parse sig).1 <= totalSigners) l →
  NoDup ((parse <$> l).*1) → (∀ id, id ∈ (parse <$> l).*1 → pendingShares a !! id = None) →
  ∃ a' n', addAll l (a, n) = Ok (a', n') ∧ waiting a' ∧
    ∀ id s, pendingShares a' !! id = Some s ↔ pendingShares a !! id = Some s ∨ (id, s) ∈ parse <$> l.
Proof.
  induction l as [|sig l IH]; intros a n Hw Hl Hnd Hnew.
  { exists a, n. split_and!; [done|done|]. set_solver. }
  apply Forall_cons in Hl as [Hid Hl]. rewrite addAll_cons. cbn [fst].
  assert (add a sig = addNumById a (parse sig).1 (parse sig).2) as -> by (unfold add; by destruct (parse sig)).
  rewrite !fmap_cons in *. destruct (parse sig) as [id s]. cbn [fst snd] in *. apply NoDup_cons in Hnd as [Hni Hnd].
  destruct (addNumById_waiting a id s Hw Hid) as (a1 & n1 & -> & Hw1 & Hp1); [apply Hnew; left|]. cbn [mbind res_bind].
  destruct (IH a1 n1 Hw1 Hl Hnd) as (a2 & n2 & Ha & Hw2 & Hp2).
  { intros x Hx. rewrite Hp1, lookup_insert_ne by set_solver. apply Hnew. by right. }
  exists a2, n2. split_and!; [done|done|]. intros x y. rewrite Hp2, Hp1, elem_of_cons, lookup_insert_Some.
  assert (pendingShares a !! id = None) by (apply Hnew; left).
  split; [intros [[[-> ->]|[? ?]]|?]; tauto|].
  intros [Hx|[[= -> ->]|Hx]]; [|tauto|tauto]. left. right. split; [congruence|done].
Qed.

(** The waiting shares that pass, among the signers of a list. *)
Definition passing (d : Digest) (m : gmap Z NumType) (l : list Z) : gset Z :=
  list_to_set (filter (fun id => from_option (verifyShare d id) false (m !! id) = true) l).

Lemma verify_rest d fuel : ∀ pre rest a, ok a → expectedDigest a = Some d → elems (pendingSharesBits a) = pre ++ rest →
  (length rest < fuel)%nat → (∀ id, id ∈ rest → 1 <= id <= totalSigners ∧ is_Some (pendingShares a !! id)) →
  ∃ a', verify_loop fuel a (default (VectorOfShares.MAX_NUM_OF_SHARES + 1) (head rest)) = Ok a' ∧ ok a' ∧
    shareVerification a' = shareVerification a ∧ expectedDigest a' = expectedDigest a ∧
    grow (shares (validSharesBits a)) (passing d (pendingShares a) rest) (shares (validSharesBits a')).
Proof.
  induction fuel as [|fuel IH]; intros pre rest a Hok Hdig Heq Hf Hin; [lia|]. cbn [verify_loop].
  pose proof Hok as [Hv Hp Hc _]. pose proof (VectorOfShares.elems_range _ Hp) as Hr. rewrite Heq in Hr. apply Forall_app in Hr as [_ Hr].
  rewrite VectorOfShares.isEnd_post by done. cbn [mbind res_bind]. destruct rest as [|id rest].
  { rewrite bool_decide_eq_true_2 by done. exists a. split_and!; try done. by apply grow_refl. }
  rewrite bool_decide_eq_false_2 by done. unfold count at 1. rewrite (VectorOfShares.size_shares _ Hv).
  destruct (Z.eqb_spec (Z.of_nat (size (shares (validSharesBits a)))) reqSigners) as [Hfull|Hfull].
  { exists a. split_and!; try done. by apply grow_full. }
  cbn [head from_option]. change (Datatypes.id id) with id. destruct (Hin id) as [Hid [s Hs]]; [left|]. rewrite Hs.
  unfold verified. rewrite Hdig. cbn [mbind res_bind].
  assert (∃ a1, (if verifyShare d id s then bits ← VectorOfShares.add (validSharesBits a) id; Ok (set_valid a id s bits) else Ok a) = Ok a1 ∧
    ok a1 ∧ shareVerification a1 = shareVerification a ∧ expectedDigest a1 = expectedDigest a ∧ pendingShares a1 = pendingShares a ∧
    pendingSharesBits a1 = pendingSharesBits a ∧
    grow (shares (validSharesBits a)) (if verifyShare d id s then {[id]} else ∅) (shares (validSharesBits a1))) as (a1 & -> & Hok1 & Hb1 & Hd1 & Hm1 & Hp1 & Hg1).
  { destruct (verifyShare d id s); [|exists a; split_and!; try done; by apply grow_refl].
    destruct (set_valid_post a id s Hok Hid) as (bits & -> & Hok' & Hsh); [lia|]. exists (set_valid a id s bits). cbn [mbind res_bind].
    split_and!; try done. simpl. rewrite Hsh. apply grow_one. lia. }
  cbn [mbind res_bind]. rewrite Hp1. rewrite (VectorOfShares.next_elem _ pre id rest Hp Heq). cbn [mbind res_bind].
  destruct (IH (pre ++ [id]) rest a1 Hok1) as (a2 & -> & Hok2 & Hb2 & Hd2 & Hg2).
  { by rewrite Hd1. } { rewrite Hp1. by rewrite <- app_assoc. } { simpl in Hf. lia. }
  { rewrite Hm1. intros x Hx. apply Hin. by right. }
  exists a2. split_and!; [done|done|congruence..|]. rewrite Hm1 in Hg2.
  assert (passing d (pendingShares a) (id :: rest) = (if verifyShare d id s then {[id]} else ∅) ∪ passing d (pendingShares a) rest) as ->.
  { unfold passing. rewrite filter_cons, Hs. simpl from_option. destruct (verifyShare d id s); simpl; set_solver. }
  by eapply grow_trans.
Qed.

(** ** The accumulator as the collectors use it *)
Lemma elem_of_counted b d l x : x ∈ counted b d l ↔ ∃ s, (x, s) ∈ l ∧ passes b d (x, s) = true.
Proof.
  clear. induction l as [|[i s] l IH]; cbn [counted]; [set_solver|]. unfold signer_of.
  setoid_rewrite elem_of_cons. destruct (passes b d (i, s)) eqn:E.
  - rewrite elem_of_union, elem_of_singleton, IH. split; [intros [-> |(y & ? & ?)]; eauto|].
    intros (y & [[= -> ->]|?] & ?); eauto.
  - rewrite (left_id_L ∅ (∪)), IH. split; [intros (y & ? & ?); eauto|]. intros (y & [[= -> ->]|?] & ?); [congruence|eauto].
Qed.

(** [SignaturesProcessingJob::execute], looking for bad shares: what the last [add] returns. *)
Definition numOfValidShares (d : Digest) (l : list (list Z)) : res Z :=
  a ← setExpectedDigest (ctor true) d;
  r ← addAll l (a, 0);
  Ok r.2.

Lemma setDigest_post a d : waiting a → ∃ a', setExpectedDigest a d = Ok a' ∧ ok a' ∧ shareVerification a' = true ∧
  expectedDigest a' = Some d ∧
  grow ∅ (passing d (pendingShares a) (elems (pendingSharesBits a))) (shares (validSharesBits a')).
Proof.
  intros [[Hv Hp Hc Hd] Hver Hdig Hval Hdom Hrange]. unfold setExpectedDigest. rewrite Hdig, Hver.
  set (a1 := mk _ _ _ _ _ _). unfold verifyPendingShares. change (expectedDigest a1) with (Some d).
  change (validSharesBits a1) with (validSharesBits a). change (pendingSharesBits a1) with (pendingSharesBits a).
  change (shareVerification a1) with true.
  rewrite bool_decide_eq_true_2 by done. cbn [Assert mbind res_bind].
  rewrite (count_shares _ Hv), Hval, size_empty. cbn [Assert mbind res_bind Z.of_nat Z.eqb].
  rewrite VectorOfShares.first_post by done. cbn [mbind res_bind].
  destruct (verify_rest d VectorOfShares.loop_fuel [] (elems (pendingSharesBits a)) a1) as (a2 & -> & Hok2 & Hb2 & Hd2 & Hg2); try done.
  { by apply VectorOfShares.length_elems. }
  { intros id Hid. assert (id ∈ shares (pendingSharesBits a)) as Hs by (by apply elem_of_list_to_set).
    split; [by apply Hrange|]. rewrite <- Hdom in Hs. by apply elem_of_dom. }
  cbn [mbind res_bind]. pose proof Hok2 as [Hv2 Hp2 Hc2 Hdm2].
  unfold count. cbn [validSharesBits]. rewrite (VectorOfShares.size_shares _ Hv2). rewrite (proj2 (Z.leb_le _ _) Hc2). cbn [Assert mbind res_bind].
  eexists. split; [done|]. split; [by constructor|]. cbn [shareVerification expectedDigest validSharesBits].
  split_and!; [by rewrite Hb2|by rewrite Hd2|]. unfold a1 in Hg2. cbn [validSharesBits pendingShares] in Hg2. by rewrite Hval in Hg2.
Qed.

#[local] Opaque setExpectedDigest.

Lemma early_digest d : ∃ a, setExpectedDigest (ctor true) d = Ok a ∧ ok a ∧ shareVerification a = true ∧
  expectedDigest a = Some d ∧ shares (validSharesBits a) = ∅ ∧ count (validSharesBits a) = 0.
Proof.
  destruct (setDigest_post (ctor true) d waiting_ctor) as (a & Ha & Hok & Hv & Hd & Hg).
  assert (shares (validSharesBits a) = ∅) as Hs.
  { destruct VectorOfShares.ctor_post as [_ He].
    destruct Hg as (_ & Hg & _). assert (elems (pendingSharesBits (ctor true)) = []) as Hel.
    { cbn [ctor pendingSharesBits]. destruct (elems VectorOfShares.ctor) as [|x l] eqn:E; [done|].
      assert (x ∈ shares VectorOfShares.ctor) as Hx by (unfold shares; rewrite E; set_solver). rewrite He in Hx. set_solver. }
    rewrite Hel in Hg. clear -Hg. set_solver. }
  exists a. split_and!; try done. unfold count. rewrite (VectorOfShares.size_shares _ (ok_valid _ Hok)), Hs. done.
Qed.

Lemma counted_early d l : Forall (fun sig => 1 <= (parse sig).1 <= totalSigners) l →
  ∃ a, (a ← setExpectedDigest (ctor true) d; addAll l (a, 0)) = Ok (a, count (validSharesBits a)) ∧ ok a ∧
    shares (validSharesBits a) ⊆ counted true d (parse <$> l) ∧
    count (validSharesBits a) = Z.min reqSigners (Z.of_nat (size (counted true d (parse <$> l)))).
Proof.
  intros Hl. destruct (early_digest d) as (a0 & -> & Hok0 & Hv0 & Hd0 & Hs0 & Hc0). cbn [mbind res_bind].
  destruct (addAll_post d l a0 Hok0) as (a & Ha & Hok & _ & _ & _ & _ & Hg); [done|done|]. rewrite Hc0 in Ha.
  exists a. split_and!; [done|done|..]; destruct Hg as (_ & Hg & Hsz); rewrite Hs0, Hv0, (left_id_L ∅ (∪)) in *; [done|].
  unfold count. by rewrite (VectorOfShares.size_shares _ (ok_valid _ Hok)).
Qed.

Lemma counted_unverified d l : Forall (fun sig => 1 <= (parse sig).1 <= totalSigners) l →
  ∃ a, addAll l (ctor false, 0) = Ok (a, count (validSharesBits a)) ∧ ok a ∧ shareVerification a = false ∧
    expectedDigest a = None ∧ (∀ id s, validShares a !! id = Some s → (id, s) ∈ parse <$> l) ∧
    count (validSharesBits a) = Z.min reqSigners (Z.of_nat (size (counted false d (parse <$> l)))).
Proof.
  intros Hl. destruct VectorOfShares.ctor_post as [Hwe He].
  assert (count (validSharesBits (ctor false)) = 0) as Hc0.
  { unfold count, ctor. cbn [validSharesBits]. by rewrite (VectorOfShares.size_shares _ Hwe), He. }
  destruct (addAll_post d l (ctor false) (ok_ctor false)) as (a & Ha & Hok & Hv & Hd & _ & Hm & Hg); [done|done|]. rewrite Hc0 in Ha.
  exists a. split_and!; [done|done|done|done|..].
  - intros id s Hi. by destruct (Hm id s Hi).
  - destruct Hg as (_ & _ & Hsz). unfold ctor in Hsz. cbn [validSharesBits shareVerification] in Hsz. rewrite He, (left_id_L ∅ (∪)) in Hsz.
    unfold count. by rewrite (VectorOfShares.size_shares _ (ok_valid _ Hok)).
Qed.

(** C32: For shares whose signers are in range, an accumulator with share verification counts, up to the required number, the
    different signers that sent a valid share, in any order and with duplicates, when the digest is set before the
    shares; when it is set after them it counts the same if no signer sends two
    shares.  Without verification it counts signers. *)
Theorem accumulator_counts d l : Forall (fun sig => 1 <= (parse sig).1 <= totalSigners) l →
  (∃ a, (a ← setExpectedDigest (ctor true) d; addAll l (a, 0)) = Ok (a, getNumValidShares a) ∧
     shares (validSharesBits a) ⊆ counted true d (parse <$> l) ∧
     getNumValidShares a = Z.min reqSigners (Z.of_nat (size (counted true d (parse <$> l))))) ∧
  (NoDup (parse <$> l).*1 →
   ∃ a, (r ← addAll l (ctor true, 0); setExpectedDigest r.1 d) = Ok a ∧
     shares (validSharesBits a) ⊆ counted true d (parse <$> l) ∧
     getNumValidShares a = Z.min reqSigners (Z.of_nat (size (counted true d (parse <$> l))))) ∧
  (∃ a, addAll l (ctor false, 0) = Ok (a, getNumValidShares a) ∧
     getNumValidShares a = Z.min reqSigners (Z.of_nat (size (list_to_set (parse <$> l).*1 : gset Z)))).
Proof.
  intros Hl. split_and!.
  - destruct (counted_early d l Hl) as (a & Ha & Hok & Hsub & Hc). exists a.
    assert (getNumValidShares a = count (validSharesBits a)) as ->; [|done].
    apply bind_ok in Ha as (a0 & H0 & Ha). destruct (early_digest d) as (a0' & H0' & Hok0 & Hv0 & Hd0 & _ & Hc0).
    rewrite H0' in H0. injection H0 as <-. destruct (addAll_post d l a0' Hok0) as (a' & Ha' & _ & Hv & Hd & _); [done|done|].
    rewrite Hc0, Ha in Ha'. injection Ha' as -> _. unfold getNumValidShares. by rewrite Hv, Hd, Hv0, Hd0.
  - intros Hnd. destruct (addAll_waiting l (ctor true) 0 waiting_ctor Hl Hnd) as (a & n & -> & Hw & Hp); [done|]. cbn [mbind res_bind fst].
    destruct (setDigest_post a d Hw) as (a' & -> & Hok & Hv & Hd & Hg). exists a'. split; [done|].
    assert (passing d (pendingShares a) (elems (pendingSharesBits a)) = counted true d (parse <$> l)) as Heq.
    { apply set_eq. intros x. rewrite elem_of_counted. unfold passing. rewrite elem_of_list_to_set, list_elem_of_filter.
      split.
      - intros [Hx _]. destruct (pendingShares a !! x) as [s|] eqn:E; [|done]. exists s. apply Hp in E as [E|E]; [done|]. by split.
      - intros (s & Hin & Hx). assert (pendingShares a !! x = Some s) as E by (apply Hp; by right). rewrite E. split; [done|].
        assert (x ∈ shares (pendingSharesBits a)) as Hs by (rewrite <- (waiting_dom a Hw); by eapply elem_of_dom_2).
        unfold shares in Hs. by apply elem_of_list_to_set in Hs. }
    rewrite Heq in Hg. destruct Hg as (_ & Hsub & Hsz). rewrite (left_id_L ∅ (∪)) in Hsub, Hsz. split; [done|].
    unfold getNumValidShares, count. rewrite Hv, Hd. simpl. by rewrite (VectorOfShares.size_shares _ (ok_valid _ Hok)).
  - destruct (counted_unverified d l Hl) as (a & Ha & Hok & Hv & Hd & _ & Hc). exists a.
    assert (getNumValidShares a = count (validSharesBits a)) as -> by (unfold getNumValidShares; by rewrite Hv).
    split; [done|]. rewrite Hc. do 3 f_equal. apply set_eq. intros x. rewrite elem_of_counted, elem_of_list_to_set, list_elem_of_fmap.
    split; [intros (s & Hin & _); by exists (x, s)|intros ([y s] & -> & Hin); by exists s].
Qed.
End defs.

(** ** The promise to the collectors of signatures *)
Section verifier.
Context {NumType : Type} (parse : list Z → Z * NumType) (verifyShare : Digest → Z → NumType → bool).
Context (reqSigners totalSigners : Z).
(** [IThresholdVerifier::verify] and [IThresholdAccumulator::getFullSignedData]. *)
Context (verify : Digest → list Z → bool) (getFullSignedData : @t NumType → res (list Z)).

(** [SignaturesProcessingJob::execute]: an accumulator without verification is given
    the shares, then the digest. *)
Definition combine (d : Digest) (l : list (list Z)) : res (list Z) :=
  r ← addAll parse verifyShare reqSigners totalSigners l (ctor false, 0);
  a ← setExpectedDigest verifyShare reqSigners r.1 d;
  getFullSignedData a.

Definition verifier : Collector.Verifier :=
  Collector.mkVerifier verify combine (numOfValidShares parse verifyShare reqSigners totalSigners).

Context (Hreq : 0 <= reqSigners) (Htotal : totalSigners <= VectorOfShares.MAX_NUM_OF_SHARES).
(** The threshold signature scheme: valid shares of enough signers make a signature. *)
Context (sound : ∀ a d, expectedDigest a = Some d → wf (validSharesBits a) → dom (validShares a) = shares (validSharesBits a) →
  count (validSharesBits a) = reqSigners → (∀ id s, validShares a !! id = Some s → verifyShare d id s = true) →
  ∃ sig, getFullSignedData a = Ok sig ∧ verify d sig = true).
(** It returns something from fewer signers too (a share can name a signer twice), as [BlsThresholdAccumulator] does;
    [BlsMultisigAccumulator] asserts that there are enough of them ([copied_share_fails_multisig]). *)
Context (returns : ∀ a d, expectedDigest a = Some d → wf (validSharesBits a) → dom (validShares a) = shares (validSharesBits a) →
  ∃ sig, getFullSignedData a = Ok sig).

(** The accumulator of a job after its shares and its digest. *)
Lemma combine_acc d l : Forall (fun sig => 1 <= (parse sig).1 <= totalSigners) l →
  ∃ a, combine d l = getFullSignedData a ∧ expectedDigest a = Some d ∧ wf (validSharesBits a) ∧ dom (validShares a) = shares (validSharesBits a) ∧
    count (validSharesBits a) = Z.min reqSigners (Z.of_nat (size (list_to_set (parse <$> l).*1 : gset Z))) ∧
    (∀ id s, validShares a !! id = Some s → (id, s) ∈ parse <$> l).
Proof.
  intros Hl. destruct (counted_unverified parse verifyShare reqSigners totalSigners Hreq Htotal d l Hl) as (a & Ha & Hok & Hv & Hd & Hm & Hc).
  unfold combine. rewrite Ha. cbn [mbind res_bind fst]. unfold setExpectedDigest. rewrite Hd, Hv. cbn [mbind res_bind shareVerification].
  eexists. split; [done|]. cbn [expectedDigest validSharesBits validShares]. split_and!; [done|apply Hok|apply Hok| |done].
  rewrite Hc. do 3 f_equal. apply set_eq. intros x. rewrite elem_of_counted, elem_of_list_to_set, list_elem_of_fmap.
  split; [intros (s & Hin & _); by exists (x, s)|intros ([y s] & -> & Hin); by exists s].
Qed.

#[export] Program Instance verifier_spec : Collector.VerifierSpec verifier reqSigners := {|
  Collector.share_wf sig := 1 <= (parse sig).1 <= totalSigners;
  Collector.share_signer sig := (parse sig).1;
  Collector.share_ok d sig := verifyShare d (parse sig).1 (parse sig).2;
|}.
Next Obligation.
  intros d l Hl Hlen. unfold verifier, numOfValidShares. cbn [Collector.numOfValidShares].
  destruct (counted_early parse verifyShare reqSigners totalSigners Hreq Htotal d l Hl) as (a & Ha & Hok & _ & Hc).
  apply bind_ok in Ha as (a0 & -> & Ha). cbn [mbind res_bind]. rewrite Ha. cbn [mbind res_bind snd]. f_equal. rewrite Hc.
  set (S := list_to_set _). assert (counted verifyShare true d (parse <$> l) = S) as ->.
  { apply set_eq. intros x. rewrite elem_of_counted. unfold S. rewrite elem_of_list_to_set, list_elem_of_fmap. split.
    - intros (s & (sig & Hp & Hin)%list_elem_of_fmap & Hx). exists sig. rewrite <- Hp. split; [done|].
      apply list_elem_of_filter. rewrite <- Hp. by split.
    - intros (sig & -> & [Hx Hin]%list_elem_of_filter). exists (parse sig).2. split; [|done].
      apply list_elem_of_fmap. exists sig. split; [by destruct (parse sig)|done]. }
  assert (Z.of_nat (size S) <= reqSigners); [|lia]. transitivity (Z.of_nat (length l)); [|done]. apply Nat2Z.inj_le.
  etransitivity; [apply size_list_to_set_le|]. rewrite length_fmap. apply length_filter.
Qed.
Next Obligation.
  intros d l Hl Hlen. destruct (combine_acc d l Hl) as (a & Ha & Hd & Hw & Hdm & _). unfold verifier. cbn [Collector.combine].
  rewrite Ha. by apply (returns a d).
Qed.
Next Obligation.
  intros d l Hl Hlen Hnd Hok. destruct (combine_acc d l Hl) as (a & Ha & Hd & Hw & Hdm & Hc & Hm). unfold verifier. cbn [Collector.combine Collector.verify].
  rewrite Ha. apply sound; try done.
  - rewrite Hc. apply Z.min_l. rewrite <- list_fmap_compose. rewrite size_list_to_set by done. rewrite length_fmap. lia.
  - intros id s Hi. apply Hm in Hi. apply list_elem_of_fmap in Hi as (sg & Hp & Hin). rewrite Forall_forall in Hok. specialize (Hok sg Hin). by rewrite <- Hp in Hok.
Qed.
End verifier.

(** ** Shares that stop a job *)
Section failures.
Context {NumType : Type} (parse : list Z → Z * NumType) (verifyShare : Digest → Z → NumType → bool).
Context (reqSigners totalSigners : Z) (Hreq : 0 <= reqSigners) (Htotal : totalSigners <= VectorOfShares.MAX_NUM_OF_SHARES).

Lemma size_list_to_set_dup (l : list Z) : ~ NoDup l → (size (list_to_set l : gset Z) < length l)%nat.
Proof.
  clear. induction l as [|x l IH]; intros H; [by destruct H; constructor|]. cbn [list_to_set length].
  pose proof (size_list_to_set_le l). destruct (decide (x ∈ l)) as [Hx|Hx].
  - assert ({[x]} ∪ list_to_set l = (list_to_set l : gset Z)) as -> by (apply set_eq; set_solver). lia.
  - rewrite size_union, size_singleton by set_solver.
    assert (~ NoDup l) as Hn by (intros Hn; by destruct H; constructor). specialize (IH Hn). lia.
Qed.

(** The validation of messages with a share checks the sender and the sizes ([SignedShareBase::ToActualMsgType],
    [PartialCommitProofMsg::ToActualMsgType]); a share that names a signer that does not exist fails the assertion of
    the accumulator in the job that combines it. *)
Lemma foreign_signer_fails_job verify getFullSignedData sq v d l id sig rest :
  Forall (fun x => 1 <= (parse x).1 <= totalSigners) l.*2 → ~ 1 <= (parse sig).1 <= totalSigners →
  let items := l ++ (id, sig) :: rest in
  Collector.execute (verifier parse verifyShare reqSigners totalSigners verify getFullSignedData)
    (Collector.SignaturesProcessingJob sq v d (Z.of_nat (length items)) items) = Err AssertFailed.
Proof.
  intros Hl Hsig items. cbn [Collector.execute]. rewrite Z.eqb_refl. cbn [Assert mbind res_bind verifier Collector.combine].
  unfold combine, items. rewrite fmap_app, fmap_cons. cbn [snd].
  destruct (counted_unverified parse verifyShare reqSigners totalSigners Hreq Htotal d l.*2 Hl) as (a & Ha & Hok & Hv & _).
  rewrite addAll_app, Ha. cbn [mbind res_bind]. rewrite addAll_cons. cbn [fst]. unfold add. destruct (parse sig) as [i s]. unfold addNumById.
  assert ((1 <=? i) && (i <=? totalSigners) = false) as -> by (cbn [fst] in Hsig; lia). done.
Qed.

(** With multi-signatures, so does a job in which two replicas sent shares of the same signer. *)
Lemma copied_share_fails_multisig verify g1_add identity g1_bytes len sq v d items :
  Forall (fun x => 1 <= (parse x).1 <= totalSigners) items.*2 → Z.of_nat (length items) = reqSigners →
  ~ NoDup (parse <$> items.*2).*1 →
  Collector.execute (verifier parse verifyShare reqSigners totalSigners verify
      (multisig_getFullSignedData reqSigners totalSigners g1_add identity g1_bytes len))
    (Collector.SignaturesProcessingJob sq v d reqSigners items) = Err AssertFailed.
Proof.
  intros Hwf Hlen Hdup. cbn [Collector.execute]. rewrite Hlen, Z.eqb_refl. cbn [Assert mbind res_bind verifier Collector.combine].
  set (full := multisig_getFullSignedData _ _ _ _ _ _). destruct (combine_acc parse verifyShare reqSigners totalSigners full Hreq Htotal d items.*2 Hwf) as (a & -> & _ & _ & _ & Hc & _).
  assert (size (list_to_set (parse <$> items.*2).*1 : gset Z) < length items)%nat.
  { rewrite <- (length_fmap snd items), <- (length_fmap parse), <- (length_fmap fst). by apply size_list_to_set_dup. }
  unfold full, multisig_getFullSignedData, aggregateShares. rewrite (proj2 (Z.eqb_neq _ _)) by lia. done.
Qed.
End failures.
End Accumulator.
