(* ===== verification/CollectorExamples.v ===== *)
(** * A collector over the accumulators

    [CollectorOfThresholdSignatures] with the accumulators of the threshold signature
    library and a toy share scheme: witnesses of the theorems of Collector, and the
    effect of a share that two replicas send. *)
From S2P Require Import Prelude SysConsts VectorOfShares Collector Accumulator.

Module CollectorExamples.

(** A share is its signer and 1 when it is valid; a signature is 1 when it is made of
    valid shares. *)
Definition toy_parse (sig : list Z) : Z * Z := (nth 0 sig 0, nth 1 sig 0).
Definition toy_verifyShare (d : Digest) (id s : Z) : bool := s =? 1.
Definition toy_verify (d : Digest) (sig : list Z) : bool := bool_decide (sig = [1]).
Definition toy_full (a : @Accumulator.t Z) : res (list Z) :=
  Ok [if bool_decide (map_Forall (fun _ s => s = 1) (Accumulator.validShares a)) && (VectorOfShares.count (Accumulator.validSharesBits a) =? 3)
      then 1 else 0].

Definition toy : Collector.Verifier := Accumulator.verifier toy_parse toy_verifyShare 3 4 toy_verify toy_full.

Lemma toy_sound a d : Accumulator.expectedDigest a = Some d → VectorOfShares.wf (Accumulator.validSharesBits a) →
  dom (Accumulator.validShares a) = VectorOfShares.shares (Accumulator.validSharesBits a) →
  VectorOfShares.count (Accumulator.validSharesBits a) = 3 →
  (∀ id s, Accumulator.validShares a !! id = Some s → toy_verifyShare d id s = true) →
  ∃ sig, toy_full a = Ok sig ∧ toy_verify d sig = true.
Proof.
  intros _ _ _ Hc Hs. unfold toy_full. rewrite Hc. rewrite bool_decide_eq_true_2; [exists [1]; done|].
  intros id s Hi. apply Hs in Hi. unfold toy_verifyShare in Hi. lia.
Qed.

Lemma toy_returns a d : Accumulator.expectedDigest a = Some d → VectorOfShares.wf (Accumulator.validSharesBits a) →
  dom (Accumulator.validShares a) = VectorOfShares.shares (Accumulator.validSharesBits a) → ∃ sig, toy_full a = Ok sig.
Proof. unfold toy_full. eauto. Qed.

#[local] Instance toy_spec : Collector.VerifierSpec toy 3 :=
  Accumulator.verifier_spec toy_parse toy_verifyShare 3 4 toy_verify toy_full ltac:(lia) ltac:(vm_compute; discriminate) toy_sound toy_returns.

(** Messages are their signatures. *)
#[local] Instance toy_func : Collector.ExternalFunc (list Z) (list Z) := {|
  Collector.part_signature m := m;
  Collector.full_signature m := m;
  Collector.createCombinedSignatureMsg _ _ sig := sig;
  Collector.numberOfRequiredSignatures := 3;
|}.

Definition d0 : Digest := zeroDigest.
Definition order : gmap Z (@Collector.RepInfo (list Z)) → list (Z * @Collector.RepInfo (list Z)) := map_to_list.

Abbreviation exec := (Collector.exec toy order).
Abbreviation start := (@Collector.mkW (list Z) (list Z) Collector.ctor []).

(** Replica 1 sends an invalid share; a job is started and fails, and a second one waits. *)
Definition ops : list (@Collector.op (list Z) (list Z)) :=
  [Collector.AddPartial [1; 1] 0; Collector.AddPartial [2; 0] 1; Collector.SetExpected 7 0 d0;
   Collector.AddPartial [3; 1] 2; Collector.AddPartial [4; 1] 3].

Definition world1 : @Collector.world (list Z) (list Z) :=
  match run exec start ops with Ok w => w | Err _ => start end.

Lemma world1_reachable : Collector.reachable toy order 4 world1.
Proof.
  apply (run_reachable _ _ _ ops); [|vm_compute; reflexivity].
  vm_compute. repeat split; try discriminate; repeat constructor; discriminate.
Qed.

Lemma toy_required : 1 <= Collector.numberOfRequiredSignatures (ExternalFunc := toy_func) < 65536.
Proof. simpl. lia. Qed.

Lemma order_perm m : order m ≡ₚ map_to_list m.
Proof. done. Qed.

(** Replicas 0, 2 and 3 sent valid shares. *)
Lemma world1_supported : Collector.supported toy (Collector.col world1).
Proof.
  exists {[1; 3; 4]}. split; [vm_compute; discriminate|]. intros x Hx.
  assert (x = 1 ∨ x = 3 ∨ x = 4) as [-> |[-> | ->]] by set_solver.
  - exists 0, (Collector.mkRepInfo [1; 1] Collector.Unknown). split; vm_compute; auto.
  - exists 2, (Collector.mkRepInfo [3; 1] Collector.Unknown). split; vm_compute; auto.
  - exists 3, (Collector.mkRepInfo [4; 1] Collector.Unknown). split; vm_compute; auto.
Qed.

Lemma collector_safe_witness :
  ∃ w, exec world1 (Collector.Complete 0) = Ok w ∧
    Collector.numberOfUnknownSignatures (Collector.col world1) = 4.
Proof.
  destruct (Collector.collector_safe toy order 4 ltac:(lia) toy_required order_perm (fun _ _ _ => eq_refl) world1 world1_reachable)
    as (H & _ & _ & _).
  destruct (H (Collector.Complete 0) I) as [w Hw]. exists w. split; [exact Hw|vm_compute; reflexivity].
Defined.

Lemma collector_completes_witness :
  ∃ w, Collector.drain toy order (Collector.measure (Collector.col world1)) world1 = Ok w ∧
    Collector.isComplete (Collector.col w) = true.
Proof.
  destruct (Collector.collector_completes toy order 4 ltac:(lia) toy_required order_perm (fun _ _ _ => eq_refl) world1 world1_reachable)
    as (w & Hd & _ & Hc).
  exists w. split; [exact Hd|]. apply Hc; [vm_compute; discriminate|exact world1_supported].
Defined.

Lemma accumulator_counts_witness :
  ∃ a, (a ← Accumulator.setExpectedDigest toy_verifyShare 3 (Accumulator.ctor true) d0;
        Accumulator.addAll toy_parse toy_verifyShare 3 4 [[4; 1]; [2; 0]; [4; 1]; [1; 1]] (a, 0)) = Ok (a, 2).
Proof.
  destruct (Accumulator.accumulator_counts toy_parse toy_verifyShare 3 4 ltac:(lia) ltac:(vm_compute; discriminate)
    d0 [[4; 1]; [2; 0]; [4; 1]; [1; 1]]) as ((a & Ha & _ & Hn) & _).
  - repeat constructor; simpl; lia.
  - exists a. rewrite Ha, Hn. vm_compute. reflexivity.
Defined.
End CollectorExamples.
