(* ===== verification/SignedShareMsgs.v ===== *)
(** * Messages with threshold signatures
    (bftengine/src/bftengine/SignedShareMsgs.hpp, .cpp)

    PreparePartial, PrepareFull, CommitPartial and CommitFull messages: a header of 20
    bytes followed by a signature share or a combined signature. *)
From S2P Require Import Prelude SysConsts Digest ReplicasInfo MsgsCertificate MessageBase Checkpoint.

Module SignedShareMsgs.

Definition sizeof_SignedShareBaseHeader : Z := 20.

(** The packed header, as read through [b()]. *)
Record SignedShareBaseHeader := mkHeader { h_viewNumber : Z; h_seqNumber : Z; thresSigLength : Z }.

Definition b (m : MessageBase.t) : res SignedShareBaseHeader :=
  v ← get_int 8 (MessageBase.msgBody_ m) 2;
  s ← get_int 8 (MessageBase.msgBody_ m) 10;
  l ← get_uint 2 (MessageBase.msgBody_ m) 18;
  Ok (mkHeader v s l).

Definition viewNumber (m : MessageBase.t) : res Z := h_viewNumber <$> b m.
Definition seqNumber (m : MessageBase.t) : res Z := h_seqNumber <$> b m.
Definition signatureLen (m : MessageBase.t) : res Z := thresSigLength <$> b m.

(** The [signatureLen()] bytes at [signatureBody()]. *)
Definition signatureBody (m : MessageBase.t) : res (list Z) :=
  l ← signatureLen m; get_bytes (MessageBase.msgBody_ m) sizeof_SignedShareBaseHeader l.

Definition set_body (m : MessageBase.t) (body : list Z) : MessageBase.t :=
  MessageBase.mk body (MessageBase.msgSize_ m) (MessageBase.storageSize_ m)
    (MessageBase.sender_ m) (MessageBase.owner_ m).

(** The new message with its header written, as both [create] begin. *)
Definition newMsg (type : MsgCode) (v s senderId sigLen : Z) : res MessageBase.t :=
  let size := sizeof_SignedShareBaseHeader + sigLen in
  m ← MessageBase.ctor senderId type size;
  b1 ← put_int 8 (MessageBase.msgBody_ m) 10 s;
  b2 ← put_int 8 b1 2 v;
  b3 ← put_int 2 b2 18 (u16 sigLen);
  Ok (set_body m b3).

(** [SignedShareBase::create] with a signature. *)
Definition create (type : MsgCode) (v s senderId : Z) (sig : list Z) (sigLen : Z) : res MessageBase.t :=
  m ← newMsg type v s senderId sigLen;
  src ← get_bytes sig 0 sigLen;
  body ← put_bytes (MessageBase.msgBody_ m) sizeof_SignedShareBaseHeader src;
  Ok (set_body m body).

(** [SignedShareBase::create] with a signer; [requiredLength] and [signData] are
    [IThresholdSigner::requiredLengthForSignedData] and [signData]. *)
Definition create_signed (requiredLength : Z) (signData : Digest → list Z)
    (type : MsgCode) (v s senderId : Z) (digest : Digest) : res MessageBase.t :=
  let sigLen := requiredLength in
  m ← newMsg type v s senderId sigLen;
  let tmpDigest := Digest.calcCombination digest v s in
  body ← put_bytes (MessageBase.msgBody_ m) sizeof_SignedShareBaseHeader (signData tmpDigest);
  Ok (set_body m body).

(** [SignedShareBase::ToActualMsgType]: whether the message is accepted. *)
Definition ToActualMsgType (repInfo : ReplicasInfo.t) (type : MsgCode) (inMsg : MessageBase.t) : res bool :=
  ty ← MessageBase.type inMsg;
  assert! (ty =? code_of type) ;;
  if MessageBase.msgSize_ inMsg <? sizeof_SignedShareBaseHeader then Ok false
  else
    l ← signatureLen inMsg;
    if MessageBase.msgSize_ inMsg <? sizeof_SignedShareBaseHeader + l then Ok false
    else if MessageBase.sender_ inMsg =? ReplicasInfo._myId repInfo then Ok false
    else if negb (ReplicasInfo.isIdOfReplica repInfo (MessageBase.sender_ inMsg)) then Ok false
    else Ok true.

(** The primary collects the partial messages. *)
Definition PartialMsg_ToActualMsgType (repInfo : ReplicasInfo.t) (type : MsgCode) (inMsg : MessageBase.t) : res bool :=
  r ← ToActualMsgType repInfo type inMsg;
  if negb r then Ok false
  else
    v ← viewNumber inMsg;
    if negb (ReplicasInfo._myId repInfo =? ReplicasInfo.primaryOfView repInfo v) then Ok false else Ok true.

Definition PreparePartialMsg_create (reqLen : Z) (sign : Digest → list Z) (v s senderId : Z) (ppDigest : Digest) :=
  create_signed reqLen sign MC_PreparePartial v s senderId ppDigest.
Definition PreparePartialMsg_ToActualMsgType (r : ReplicasInfo.t) (m : MessageBase.t) := PartialMsg_ToActualMsgType r MC_PreparePartial m.

Definition PrepareFullMsg_create (v s senderId : Z) (sig : list Z) (sigLen : Z) := create MC_PrepareFull v s senderId sig sigLen.
Definition PrepareFullMsg_ToActualMsgType (r : ReplicasInfo.t) (m : MessageBase.t) := ToActualMsgType r MC_PrepareFull m.

Definition CommitPartialMsg_create (reqLen : Z) (sign : Digest → list Z) (v s senderId : Z) (ppDoubleDigest : Digest) :=
  create_signed reqLen sign MC_CommitPartial v s senderId ppDoubleDigest.
Definition CommitPartialMsg_ToActualMsgType (r : ReplicasInfo.t) (m : MessageBase.t) := PartialMsg_ToActualMsgType r MC_CommitPartial m.

(** The sender is an [int16_t] here. *)
Definition CommitFullMsg_create (v s senderId : Z) (sig : list Z) (sigLen : Z) := create MC_CommitFull v s (u16 (i16 senderId)) sig sigLen.
Definition CommitFullMsg_ToActualMsgType (r : ReplicasInfo.t) (m : MessageBase.t) := ToActualMsgType r MC_CommitFull m.

(** ** Layout *)
Definition layout (type : MsgCode) (v s : Z) (sig : list Z) : list Z :=
  le_enc 2 (code_of type) ++ le_enc 8 v ++ le_enc 8 s ++ le_enc 2 (Z.of_nat (length sig)) ++ sig.

Definition image (type : MsgCode) (v s senderId : Z) (sig : list Z) : MessageBase.t :=
  let n := 20 + Z.of_nat (length sig) in MessageBase.mk (layout type v s sig) n n senderId true.

Lemma newMsg_layout type v s senderId n : 0 <= n < 65536 →
  newMsg type v s senderId n =
    Ok (MessageBase.mk (le_enc 2 (code_of type) ++ le_enc 8 v ++ le_enc 8 s ++ le_enc 2 n ++ replicate (Z.to_nat n) 0)
          (20 + n) (20 + n) senderId true).
Proof.
  intros Hl. unfold newMsg, MessageBase.ctor, put_int, sizeof_SignedShareBaseHeader.
  rewrite (proj2 (Z.ltb_lt 0 _)) by lia. cbn [Assert mbind res_bind].
  replace (Z.to_nat (20 + n)) with (2 + (8 + (8 + (2 + Z.to_nat n))))%nat by lia.
  rewrite !replicate_add. rewrite (put_bytes_head (replicate 2 0)) by done. res_step. cbn [MessageBase.msgBody_].
  put_skip 2. put_skip 8. rewrite (put_bytes_head (replicate 8 0)) by len_tac. res_step.
  put_skip 2. rewrite (put_bytes_head (replicate 8 0)) by len_tac. res_step.
  put_skip 2. put_skip 8. put_skip 8. rewrite (put_bytes_head (replicate 2 0)) by len_tac. res_step.
  unfold set_body. cbn [MessageBase.msgSize_ MessageBase.storageSize_ MessageBase.sender_ MessageBase.owner_]. by rewrite u16_small by lia.
Qed.

(** Writing the signature completes the message. *)
Lemma put_signature type v s sig :
  put_bytes (le_enc 2 (code_of type) ++ le_enc 8 v ++ le_enc 8 s ++ le_enc 2 (Z.of_nat (length sig)) ++
             replicate (length sig) 0) 20 sig = Ok (layout type v s sig).
Proof. put_skip 2. put_skip 8. put_skip 8. put_skip 2. by rewrite put_bytes_last by (rewrite ?length_replicate; done). Qed.

Lemma create_layout type v s senderId sig rest : Z.of_nat (length sig) < 65536 →
  create type v s senderId (sig ++ rest) (Z.of_nat (length sig)) = Ok (image type v s senderId sig).
Proof.
  intros Hl. unfold create. rewrite newMsg_layout by lia. cbn [mbind res_bind MessageBase.msgBody_].
  rewrite get_bytes_head by done. cbn [mbind res_bind]. rewrite Nat2Z.id. unfold sizeof_SignedShareBaseHeader. by rewrite put_signature.
Qed.

Lemma create_signed_layout type v s senderId sign digest n : n = Z.of_nat (length (sign (Digest.calcCombination digest v s))) →
  n < 65536 →
  create_signed n sign type v s senderId digest = Ok (image type v s senderId (sign (Digest.calcCombination digest v s))).
Proof.
  intros -> Hl. unfold create_signed. rewrite newMsg_layout by lia. cbn [mbind res_bind MessageBase.msgBody_].
  rewrite Nat2Z.id. unfold sizeof_SignedShareBaseHeader. by rewrite put_signature.
Qed.

Lemma ss_b_layout m type v s sig : MessageBase.msgBody_ m = layout type v s sig →
  - 2 ^ 63 <= v < 2 ^ 63 → - 2 ^ 63 <= s < 2 ^ 63 → Z.of_nat (length sig) < 65536 →
  b m = Ok (mkHeader v s (Z.of_nat (length sig))).
Proof.
  intros Hb Hv Hs Hl. unfold b, get_int, get_uint. rewrite Hb.
  assert (get_bytes (layout type v s sig) 2 (Z.of_nat 8) = Ok (le_enc 8 v)) as -> by (unfold layout; solve_get).
  assert (get_bytes (layout type v s sig) 10 (Z.of_nat 8) = Ok (le_enc 8 s)) as -> by (unfold layout; solve_get).
  assert (get_bytes (layout type v s sig) 18 (Z.of_nat 2) = Ok (le_enc 2 (Z.of_nat (length sig)))) as -> by (unfold layout; solve_get).
  res_step. rewrite !swrap_le_dec_enc, !swrap_small by (simpl; lia). rewrite le_dec_enc. rewrite wrap_small; [done|].
  change (8 * Z.of_nat 2) with 16. lia.
Qed.

Lemma ss_b_in m : CheckpointMsg.arrived m → sizeof_SignedShareBaseHeader <= MessageBase.msgSize_ m →
  ∃ h, b m = Ok h ∧ 0 <= thresSigLength h < 65536.
Proof.
  intros [Hs _ HB _] Hl. rewrite Hs in Hl. unfold sizeof_SignedShareBaseHeader in Hl. unfold b.
  destruct (get_int_in 8 (MessageBase.msgBody_ m) 2) as (v & -> & _); [lia..|].
  destruct (get_int_in 8 (MessageBase.msgBody_ m) 10) as (s & -> & _); [lia..|].
  destruct (get_uint_in 2 (MessageBase.msgBody_ m) 18) as (f & -> & Hf); [done|lia..|].
  eexists. split; [done|]. simpl in *. lia.
Qed.

(** A share signed by [create] is over the digest combined with the view and the
    sequence number, and its fields and its signature are read back; the same for a
    message made of a given signature; a peer that is another replica accepts both. *)
Theorem signedShare_roundtrip type v s senderId digest sign sig r :
  - 2 ^ 63 <= v < 2 ^ 63 → - 2 ^ 63 <= s < 2 ^ 63 →
  Z.of_nat (length (sign (Digest.calcCombination digest v s))) < 65536 → Z.of_nat (length sig) < 65536 →
  let ok m sg := viewNumber m = Ok v ∧ seqNumber m = Ok s ∧ signatureBody m = Ok sg ∧ MessageBase.sender_ m = senderId ∧
    ToActualMsgType r type m =
      Ok (negb (senderId =? ReplicasInfo._myId r) && ReplicasInfo.isIdOfReplica r senderId) in
  (∃ m, create_signed (Z.of_nat (length (sign (Digest.calcCombination digest v s)))) sign type v s senderId digest = Ok m ∧
     ok m (sign (Digest.calcCombination digest v s))) ∧
  (∃ m, create type v s senderId sig (Z.of_nat (length sig)) = Ok m ∧ ok m sig).
Proof.
  intros Hv Hs Hl1 Hl2 ok.
  assert (∀ sg, Z.of_nat (length sg) < 65536 → ok (image type v s senderId sg) sg) as Hok.
  { intros sg Hl. pose proof (ss_b_layout (image type v s senderId sg) type v s sg eq_refl Hv Hs Hl) as Hb.
    unfold ok, viewNumber, seqNumber, signatureBody, ToActualMsgType, signatureLen. rewrite Hb. res_step. split_and!; try done.
    - cbn [image MessageBase.msgBody_]. unfold layout, sizeof_SignedShareBaseHeader. solve_get.
    - assert (MessageBase.type (image type v s senderId sg) = Ok (code_of type)) as ->.
      { unfold MessageBase.type, get_uint. cbn [image MessageBase.msgBody_]. unfold layout. rewrite (get_bytes_head (le_enc 2 _)) by done.
        res_step. rewrite le_dec_enc. by destruct type. }
      res_step. rewrite Z.eqb_refl. res_step. cbn [image MessageBase.msgSize_ MessageBase.sender_ thresSigLength].
      unfold sizeof_SignedShareBaseHeader.
      rewrite (proj2 (Z.ltb_ge (20 + Z.of_nat (length sg)) 20)), (proj2 (Z.ltb_ge (20 + _) (20 + _))) by lia.
      destruct (senderId =? _), (ReplicasInfo.isIdOfReplica r senderId); done. }
  split.
  - eexists. split; [by apply create_signed_layout|]. by apply Hok.
  - eexists. split; [|by apply Hok]. rewrite <- (app_nil_r sig) at 1. by apply create_layout.
Qed.

Lemma signedShare_roundtrip_witness :
  ∃ m, create MC_PrepareFull 3 40 2 [9; 8; 7] 3 = Ok m ∧ signatureBody m = Ok [9; 8; 7] ∧
    ToActualMsgType CheckpointMsg.sampleInfo MC_PrepareFull m = Ok true.
Proof.
  destruct (signedShare_roundtrip MC_PrepareFull 3 40 2 zeroDigest (fun d => d) [9; 8; 7] CheckpointMsg.sampleInfo) as (_ & m & Hm & _ & _ & Hb & _ & Ht).
  - lia.
  - lia.
  - vm_compute. reflexivity.
  - vm_compute. reflexivity.
  - exists m. split; [exact Hm|]. split; [exact Hb|]. rewrite Ht. vm_compute. reflexivity.
Defined.

(** No body a peer can send makes the validation of a threshold-signature message, or
    a later access to the signature of an accepted one, read outside the body; a partial
    message is accepted only by the primary of its view. *)
Theorem signedShare_safe r type m :
  CheckpointMsg.arrived m → MessageBase.type m = Ok (code_of type) →
  ∃ ok, ToActualMsgType r type m = Ok ok ∧
    (ok = true → ∃ sig, signatureBody m = Ok sig ∧ Forall is_byte sig ∧
       ReplicasInfo.isIdOfPeerReplica r (MessageBase.sender_ m) = true) ∧
    ∃ okp, PartialMsg_ToActualMsgType r type m = Ok okp ∧
      (okp = true ↔ ok = true ∧ viewNumber m ≠ Err OutOfBounds ∧
         ∀ v, viewNumber m = Ok v → ReplicasInfo.primaryOfView r v = ReplicasInfo._myId r).
Proof.
  intros Ha Hty. unfold PartialMsg_ToActualMsgType, ToActualMsgType. rewrite Hty. cbn [mbind res_bind].
  rewrite Z.eqb_refl. cbn [Assert mbind res_bind].
  assert (∀ (P : Prop), ∃ ok : bool, Ok false = Ok ok ∧ (ok = true → P) ∧ ∃ okp : bool, Ok false = Ok okp ∧
    (okp = true ↔ ok = true ∧ viewNumber m ≠ Err OutOfBounds ∧
       ∀ v, viewNumber m = Ok v → ReplicasInfo.primaryOfView r v = ReplicasInfo._myId r)) as Hno.
  { intros P. exists false. split; [done|]. split; [done|]. exists false. split; [done|]. naive_solver. }
  destruct (Z.ltb_spec (MessageBase.msgSize_ m) sizeof_SignedShareBaseHeader) as [|Hsz]; [apply Hno|].
  destruct (ss_b_in m Ha Hsz) as (h & Hh & Hlen). unfold signatureBody, signatureLen, viewNumber in *. rewrite Hh in *. cbn [fmap res_fmap mbind res_bind] in *.
  destruct (Z.ltb_spec (MessageBase.msgSize_ m) (sizeof_SignedShareBaseHeader + thresSigLength h)); [apply Hno|].
  destruct (MessageBase.sender_ m =? _) eqn:E1; [apply Hno|]. destruct (ReplicasInfo.isIdOfReplica r _) eqn:E2; cbn [negb]; [|apply Hno].
  exists true. split; [done|]. split.
  - intros _. destruct (get_bytes_in (MessageBase.msgBody_ m) sizeof_SignedShareBaseHeader (thresSigLength h)) as (sig & Hg & _).
    { done. } { lia. } { rewrite <- (CheckpointMsg.ar_size m Ha). done. }
    exists sig. split_and!; [done| |].
    + eapply get_bytes_Forall; [|exact Hg]. apply Ha.
    + unfold ReplicasInfo.isIdOfPeerReplica, ReplicasInfo.isIdOfReplica in *. by rewrite E1, E2.
  - cbn [mbind res_bind negb]. destruct (Z.eqb_spec (ReplicasInfo._myId r) (ReplicasInfo.primaryOfView r (h_viewNumber h))) as [E|E]; cbn [negb].
    + exists true. split; [done|]. split; [|done]. intros _. split_and!; [done|done|]. intros v [= <-]. done.
    + exists false. split; [done|]. split; [done|]. intros (_ & _ & Hv). exfalso. apply E. symmetry. by apply Hv.
Qed.

Lemma signedShare_safe_witness :
  ∃ ok, ToActualMsgType CheckpointMsg.sampleInfo MC_CommitFull (MessageBase.mk [102; 0; 1] 3 3 2 true) = Ok ok.
Proof.
  destruct (signedShare_safe CheckpointMsg.sampleInfo MC_CommitFull (MessageBase.mk [102; 0; 1] 3 3 2 true)) as (ok & Hok & _).
  - constructor; simpl; try lia. repeat constructor; unfold is_byte; lia.
  - reflexivity.
  - exists ok. exact Hok.
Defined.
End SignedShareMsgs.
