(* ===== verification/PartialProofsSet.v ===== *)
(** * PartialProofsSet (bftengine/src/bftengine/PartialProofsSet.hpp, .cpp)

    The collector of the fast commit paths: shares of replicas are given to an
    accumulator (without share verification) per path until there are enough, then a
    background job makes a full commit proof of a copy of the accumulator. *)
From S2P Require Import Prelude SysConsts Digest ReplicasInfo VectorOfShares Collector Accumulator CollectorExamples Checkpoint.

Module PartialProofsSet.

(** The messages, as their accessors give them. *)
Record PartialCommitProofMsg := mkPart { p_sender : Z; p_view : Z; p_seq : Z; p_commitPath : CommitPath; p_sig : list Z }.
Record FullCommitProofMsg := mkFull { f_sender : Z; f_view : Z; f_seq : Z; f_sig : list Z }.
#[export] Instance PartialCommitProofMsg_eq_dec : EqDecision PartialCommitProofMsg.
Proof. solve_decision. Defined.
#[export] Instance FullCommitProofMsg_eq_dec : EqDecision FullCommitProofMsg.
Proof. solve_decision. Defined.

Definition MinTime : Z := 0.

Section defs.
Context (info : ReplicasInfo.t).
(** The threshold signature library, per commit path ([thresholdVerifier(cPath)]). *)
Context {NumType : Type} (parse : list Z → Z * NumType) (verifyShare : Digest → Z → NumType → bool).
Context (verify : CommitPath → Digest → list Z → bool) (getFullSignedData : CommitPath → @Accumulator.t NumType → res (list Z)).
Context (requiredLengthForSignedData : CommitPath → Z).

Definition numOfRquiredPartialProofsForFast : Z := 3 * ReplicasInfo._fVal info + ReplicasInfo._cVal info + 1.
Definition numOfRquiredPartialProofsForOptimisticFast : Z := 3 * ReplicasInfo._fVal info + 2 * ReplicasInfo._cVal info + 1.

(** The path decides between two fields of the state: every path but [OPTIMISTIC_FAST]
    uses those of the fast path. *)
Definition isOptimistic (p : CommitPath) : bool := bool_decide (p = OPTIMISTIC_FAST).
Definition required (p : CommitPath) : Z :=
  if isOptimistic p then numOfRquiredPartialProofsForOptimisticFast else numOfRquiredPartialProofsForFast.

Record t := mk {
  seqNumber : Z;
  fullCommitProof : option FullCommitProofMsg;
  selfPartialCommitProof : option PartialCommitProofMsg;
  participatingReplicasInFast : gset Z;
  participatingReplicasInOptimisticFast : gset Z;
  expectedDigest : Digest;
  timeOfSelfPartialProof : Z;
  thresholdAccumulatorForFast : option (@Accumulator.t NumType);
  thresholdAccumulatorForOptimisticFast : option (@Accumulator.t NumType);
}.

(** [AsynchProofCreationJob] *)
Record Job := mkJob { j_path : CommitPath; j_acc : @Accumulator.t NumType; j_digest : Digest; j_seq : Z; j_view : Z }.

Definition ctor : t := mk 0 None None ∅ ∅ zeroDigest MinTime None None.

Definition resetAndFree (s : t) : t := mk 0 None None ∅ ∅ zeroDigest MinTime None None.

Definition participating (s : t) (p : CommitPath) : gset Z :=
  if isOptimistic p then participatingReplicasInOptimisticFast s else participatingReplicasInFast s.
Definition accumulator (s : t) (p : CommitPath) : option (@Accumulator.t NumType) :=
  if isOptimistic p then thresholdAccumulatorForOptimisticFast s else thresholdAccumulatorForFast s.

Definition set_participating (s : t) (p : CommitPath) (X : gset Z) : t :=
  mk (seqNumber s) (fullCommitProof s) (selfPartialCommitProof s)
    (if isOptimistic p then participatingReplicasInFast s else X)
    (if isOptimistic p then X else participatingReplicasInOptimisticFast s)
    (expectedDigest s) (timeOfSelfPartialProof s) (thresholdAccumulatorForFast s) (thresholdAccumulatorForOptimisticFast s).
Definition set_accumulator (s : t) (p : CommitPath) (a : @Accumulator.t NumType) : t :=
  mk (seqNumber s) (fullCommitProof s) (selfPartialCommitProof s) (participatingReplicasInFast s) (participatingReplicasInOptimisticFast s)
    (expectedDigest s) (timeOfSelfPartialProof s)
    (if isOptimistic p then thresholdAccumulatorForFast s else Some a)
    (if isOptimistic p then Some a else thresholdAccumulatorForOptimisticFast s).
Definition set_self (s : t) (sq : Z) (d : Digest) (m : PartialCommitProofMsg) : t :=
  mk sq (fullCommitProof s) (Some m) (participatingReplicasInFast s) (participatingReplicasInOptimisticFast s)
    d (timeOfSelfPartialProof s) (thresholdAccumulatorForFast s) (thresholdAccumulatorForOptimisticFast s).
Definition set_full (s : t) (m : FullCommitProofMsg) : t :=
  mk (seqNumber s) (Some m) (selfPartialCommitProof s) (participatingReplicasInFast s) (participatingReplicasInOptimisticFast s)
    (expectedDigest s) (timeOfSelfPartialProof s) (thresholdAccumulatorForFast s) (thresholdAccumulatorForOptimisticFast s).

(** [thresholdAccumulator(cPath)]: the accumulator, made when there is none. *)
Definition thresholdAccumulator (s : t) (p : CommitPath) : @Accumulator.t NumType :=
  default (Accumulator.ctor false) (accumulator s p).

Definition acc_add (p : CommitPath) (a : @Accumulator.t NumType) (sig : list Z) : res (@Accumulator.t NumType * Z) :=
  Accumulator.add parse verifyShare (required p) (ReplicasInfo._numberOfReplicas info) a sig.

(** Result: the job given to the thread pool, if any. *)
Definition tryToCreateFullProof (s : t) : res (option Job) :=
  assert! (bool_decide (fullCommitProof s = None)) ;;
  match selfPartialCommitProof s with
  | None => Ok None
  | Some myPCP =>
      let cPath := p_commitPath myPCP in
      let ready := Z.of_nat (size (participating s cPath)) =? required cPath - 1 in
      if negb ready then Ok None
      else
        match accumulator s cPath with
        | None => Err AssertFailed
        | Some acc => Ok (Some (mkJob cPath acc (expectedDigest s) (p_seq myPCP) (p_view myPCP)))
        end
  end.

Definition addImp (s : t) (m : PartialCommitProofMsg) (cPath : CommitPath) : res (t * option Job) :=
  '(a, _) ← acc_add cPath (thresholdAccumulator s cPath) (p_sig m);
  let s := set_accumulator s cPath a in
  if (Z.of_nat (size (participating s cPath)) =? required cPath - 1) && bool_decide (selfPartialCommitProof s ≠ None)
  then j ← tryToCreateFullProof s; Ok (s, j)
  else Ok (s, None).

Definition addSelfMsgAndPPDigest (s : t) (m : PartialCommitProofMsg) (digest : Digest) : res (t * option Job) :=
  assert! (p_sender m =? ReplicasInfo._myId info) ;;
  assert! (seqNumber s =? 0) ;;
  assert! (Digest.isZero (expectedDigest s)) ;;
  assert! (bool_decide (selfPartialCommitProof s = None)) ;;
  assert! (bool_decide (fullCommitProof s = None)) ;;
  a ← Accumulator.setExpectedDigest verifyShare (required (p_commitPath m)) (thresholdAccumulator s (p_commitPath m)) digest;
  let s := set_accumulator s (p_commitPath m) a in
  addImp (set_self s (p_seq m) digest m) m (p_commitPath m).

Definition addMsg_partial (s : t) (m : PartialCommitProofMsg) : res (bool * t * option Job) :=
  let repId := p_sender m in
  assert! (negb (repId =? ReplicasInfo._myId info)) ;;
  assert! ((seqNumber s =? 0) || (seqNumber s =? p_seq m)) ;;
  assert! (ReplicasInfo.isIdOfReplica info repId) ;;
  let cPath := p_commitPath m in
  if bool_decide (fullCommitProof s ≠ None) then Ok (false, s, None)
  else if match selfPartialCommitProof s with Some self => negb (bool_decide (p_commitPath self = cPath)) | None => false end
  then Ok (false, s, None)
  else if bool_decide (repId ∈ participating s cPath) then Ok (false, s, None)
  else if Z.of_nat (size (participating s cPath)) <? required cPath - 1 then
    '(s, j) ← addImp (set_participating s cPath (participating s cPath ∪ {[repId]})) m cPath;
    Ok (true, s, j)
  else Ok (false, s, None).

Definition addMsg_full (s : t) (m : FullCommitProofMsg) : bool * t :=
  if bool_decide (fullCommitProof s ≠ None) then (false, s)
  else
    match selfPartialCommitProof s with
    | None => (false, s)
    | Some myPCP =>
        if negb (f_seq m =? p_seq myPCP) || negb (f_view m =? p_view myPCP) then (false, s)
        else if verify (p_commitPath myPCP) (expectedDigest s) (f_sig m) then (true, set_full s m)
        else (false, s)
    end.

Definition hasPartialProofFromReplica (s : t) (repId : Z) : bool :=
  bool_decide (repId ∈ participatingReplicasInOptimisticFast s) || bool_decide (repId ∈ participatingReplicasInFast s).

Definition setTimeOfSelfPartialProof (s : t) (tm : Z) : t :=
  mk (seqNumber s) (fullCommitProof s) (selfPartialCommitProof s) (participatingReplicasInFast s) (participatingReplicasInOptimisticFast s)
    (expectedDigest s) tm (thresholdAccumulatorForFast s) (thresholdAccumulatorForOptimisticFast s).

Definition hasFullProof (s : t) : bool := bool_decide (fullCommitProof s ≠ None).
Definition getFullProof (s : t) : option FullCommitProofMsg := fullCommitProof s.
Definition getSelfPartialCommitProof (s : t) : option PartialCommitProofMsg := selfPartialCommitProof s.

(** [AsynchProofCreationJob::execute]: the full proof that is passed as an internal
    message, if any. *)
Definition execute (j : Job) : res (option FullCommitProofMsg) :=
  let sigLength := requiredLengthForSignedData (j_path j) in
  if (65535 <? sigLength) || (sigLength =? 0) then Ok None
  else
    sig ← getFullSignedData (j_path j) (j_acc j);
    if negb (verify (j_path j) (j_digest j) sig) then Ok None
    else Ok (Some (mkFull (ReplicasInfo._myId info) (j_view j) (j_seq j) sig)).

(** ** The set with the jobs it made since the last reset *)
Record world := mkW { set : t; created : list Job }.

Inductive op :=
  | AddSelf (m : PartialCommitProofMsg) (digest : Digest)
  | AddPartial (m : PartialCommitProofMsg)
  | AddFull (m : FullCommitProofMsg)
  | Reset.

Definition exec (w : world) (o : op) : res world :=
  match o with
  | AddSelf m d => '(s, j) ← addSelfMsgAndPPDigest (set w) m d; Ok (mkW s (option_list j ++ created w))
  | AddPartial m => '(_, s, j) ← addMsg_partial (set w) m; Ok (mkW s (option_list j ++ created w))
  | AddFull m => Ok (mkW (addMsg_full (set w) m).2 (created w))
  | Reset => Ok (mkW (resetAndFree (set w)) [])
  end.

(** The share names an existing signer: what [addNumById] asserts.  The validation of messages does not look into shares. *)
Definition share_wf (sig : list Z) : Prop := 1 <= (parse sig).1 <= ReplicasInfo._numberOfReplicas info.

(** The own message comes once, from this replica; messages of other replicas are for
    the same sequence number; shares name existing signers. *)
Definition op_pre (w : world) (o : op) : Prop :=
  match o with
  | AddSelf m d => p_sender m = ReplicasInfo._myId info ∧ selfPartialCommitProof (set w) = None ∧ p_seq m ≠ 0 ∧ share_wf (p_sig m)
  | AddPartial m => 0 <= p_sender m < ReplicasInfo._numberOfReplicas info ∧ p_sender m ≠ ReplicasInfo._myId info ∧
      (seqNumber (set w) = 0 ∨ p_seq m = seqNumber (set w)) ∧ share_wf (p_sig m)
  | AddFull _ | Reset => True
  end.

Definition reachable : world → Prop := Prelude.reachable exec op_pre (mkW ctor []).

(** A partial proof of a peer with a signer that does not exist passes the validation of messages
    ([PartialCommitProofMsg.ToActualMsgType]) and stops the replica that adds it. *)
Lemma foreign_signer_fails_handler s m :
  p_sender m ≠ ReplicasInfo._myId info → ReplicasInfo.isIdOfReplica info (p_sender m) = true → seqNumber s = 0 ∨ seqNumber s = p_seq m →
  fullCommitProof s = None → (∀ self, selfPartialCommitProof s = Some self → p_commitPath self = p_commitPath m) →
  p_sender m ∉ participating s (p_commitPath m) → Z.of_nat (size (participating s (p_commitPath m))) < required (p_commitPath m) - 1 →
  ~ share_wf (p_sig m) → addMsg_partial s m = Err AssertFailed.
Proof.
  intros Hme Hid Hseq Hfull Hself Hnew Hroom Hsig. unfold addMsg_partial. rewrite (proj2 (Z.eqb_neq _ _) Hme), Hid.
  assert ((seqNumber s =? 0) || (seqNumber s =? p_seq m) = true) as -> by lia. cbn [negb Assert mbind res_bind].
  rewrite Hfull, (bool_decide_eq_false_2 (None ≠ None)) by naive_solver. cbn [negb].
  assert (match selfPartialCommitProof s with Some self => negb (bool_decide (p_commitPath self = p_commitPath m)) | None => false end = false) as ->.
  { destruct (selfPartialCommitProof s) as [self|]; [|done]. by rewrite bool_decide_eq_true_2 by auto. }
  rewrite (bool_decide_eq_false_2 (_ ∈ _)) by done. rewrite (proj2 (Z.ltb_lt _ _) Hroom). unfold addImp, acc_add, Accumulator.add.
  unfold share_wf in Hsig. destruct (parse (p_sig m)) as [i sg]. cbn [fst] in Hsig. unfold Accumulator.addNumById.
  assert ((1 <=? i) && (i <=? ReplicasInfo._numberOfReplicas info) = false) as -> by lia. done.
Qed.

(** ** The invariant *)
Context (Hinfo : ReplicasInfo.wf info).
Context (Hmax : ReplicasInfo._numberOfReplicas info <= VectorOfShares.MAX_NUM_OF_SHARES).

Definition job_of (s : t) (m : PartialCommitProofMsg) (j : Job) : Prop :=
  j_path j = p_commitPath m ∧ j_digest j = expectedDigest s ∧ j_seq j = p_seq m ∧ j_view j = p_view m.

(** Enough replicas take part on the path of the own message. *)
Definition ready (s : t) (m : PartialCommitProofMsg) : bool :=
  Z.of_nat (size (participating s (p_commitPath m))) =? required (p_commitPath m) - 1.

Record inv (w : world) : Prop := {
  inv_self : match selfPartialCommitProof (set w) with
    | None => seqNumber (set w) = 0 ∧ expectedDigest (set w) = zeroDigest ∧ fullCommitProof (set w) = None ∧ created w = []
    | Some m => seqNumber (set w) = p_seq m ∧ Forall (job_of (set w) m) (created w) ∧
        length (created w) = (if ready (set w) m then 1%nat else 0%nat)
    end;
  inv_parts p : Z.of_nat (size (participating (set w) p)) <= required p - 1 ∧
    ∀ id, id ∈ participating (set w) p → 0 <= id < ReplicasInfo._numberOfReplicas info ∧ id ≠ ReplicasInfo._myId info;
  inv_acc p a : accumulator (set w) p = Some a → Accumulator.ok (required p) a ∧ Accumulator.shareVerification a = false ∧
    (selfPartialCommitProof (set w) = None → Accumulator.expectedDigest a = None);
  inv_full f : fullCommitProof (set w) = Some f → ∃ m, selfPartialCommitProof (set w) = Some m ∧ f_seq f = p_seq m ∧
    f_view f = p_view m ∧ verify (p_commitPath m) (expectedDigest (set w)) (f_sig f) = true;
}.

Lemma required_pos p : 1 <= required p <= ReplicasInfo._numberOfReplicas info.
Proof.
  destruct Hinfo. unfold required, numOfRquiredPartialProofsForFast, numOfRquiredPartialProofsForOptimisticFast.
  destruct (isOptimistic p); lia.
Qed.

Lemma participating_set s p X q :
  participating (set_participating s p X) q = if Bool.eqb (isOptimistic p) (isOptimistic q) then X else participating s q.
Proof. unfold participating, set_participating. simpl. by destruct (isOptimistic p), (isOptimistic q). Qed.

Lemma accumulator_set s p a q :
  accumulator (set_accumulator s p a) q = if Bool.eqb (isOptimistic p) (isOptimistic q) then Some a else accumulator s q.
Proof. unfold accumulator, set_accumulator. simpl. by destruct (isOptimistic p), (isOptimistic q). Qed.

Lemma required_same p q : isOptimistic p = isOptimistic q → required p = required q.
Proof. unfold required. by intros ->. Qed.

Lemma pps_acc_ok s p : (∀ a, accumulator s p = Some a → Accumulator.ok (required p) a ∧ Accumulator.shareVerification a = false) →
  Accumulator.ok (required p) (thresholdAccumulator s p) ∧ Accumulator.shareVerification (thresholdAccumulator s p) = false.
Proof.
  intros H. unfold thresholdAccumulator. destruct (accumulator s p) as [a|]; [by apply H|]. simpl. split; [|done].
  apply Accumulator.ok_ctor. pose proof (required_pos p). lia.
Qed.

Lemma acc_add_ok p a sig : Accumulator.ok (required p) a → Accumulator.shareVerification a = false → share_wf sig →
  ∃ a' n, acc_add p a sig = Ok (a', n) ∧ Accumulator.ok (required p) a' ∧ Accumulator.shareVerification a' = false ∧
    Accumulator.expectedDigest a' = Accumulator.expectedDigest a.
Proof. apply Accumulator.add_unverified; [pose proof (required_pos p); lia|done]. Qed.

(** What [addImp] does: the share is added, and a job is made when the path is complete. *)
Lemma pps_addImp_post s m p : (∀ q a, accumulator s q = Some a → Accumulator.ok (required q) a ∧ Accumulator.shareVerification a = false) →
  share_wf (p_sig m) → fullCommitProof s = None →
  (∀ self, selfPartialCommitProof s = Some self → p_commitPath self = p) →
  ∃ a j, addImp s m p = Ok (set_accumulator s p a, j) ∧ Accumulator.ok (required p) a ∧ Accumulator.shareVerification a = false ∧
    Accumulator.expectedDigest a = Accumulator.expectedDigest (thresholdAccumulator s p) ∧
    match selfPartialCommitProof s with
    | Some self => if ready s self then ∃ jb, j = Some jb ∧ job_of s self jb else j = None
    | None => j = None
    end.
Proof.
  intros Hacc Hwf Hfull Hpath. destruct (pps_acc_ok s p (Hacc p)) as [Hok Hv].
  destruct (acc_add_ok p _ (p_sig m) Hok Hv Hwf) as (a & n & Ha & Hok' & Hv' & Hd').
  unfold addImp. rewrite Ha. cbn [mbind res_bind]. exists a.
  change (selfPartialCommitProof (set_accumulator s p a)) with (selfPartialCommitProof s).
  change (participating (set_accumulator s p a) p) with (participating s p).
  unfold tryToCreateFullProof. change (fullCommitProof (set_accumulator s p a)) with (fullCommitProof s).
  change (selfPartialCommitProof (set_accumulator s p a)) with (selfPartialCommitProof s).
  rewrite Hfull, (bool_decide_eq_true_2 (None = None)) by done. cbn [Assert mbind res_bind].
  destruct (selfPartialCommitProof s) as [self|] eqn:Es.
  - rewrite (bool_decide_eq_true_2 (Some self ≠ None)), andb_true_r by done. unfold ready. rewrite (Hpath self eq_refl).
    change (participating (set_accumulator s p a) p) with (participating s p).
    destruct (Z.of_nat (size (participating s p)) =? required p - 1); cbn [negb]; [|exists None; by split_and!].
    rewrite accumulator_set, Bool.eqb_reflx. cbn [mbind res_bind]. eexists (Some _). split_and!; try done.
    eexists. split; [done|]. by split_and!; rewrite ?(Hpath self eq_refl).
  - rewrite (bool_decide_eq_false_2 (None ≠ None)), andb_false_r by auto. exists None. by split_and!.
Qed.

Lemma pps_addSelf_inv w m d : inv w → op_pre w (AddSelf m d) → ∃ w', exec w (AddSelf m d) = Ok w' ∧ inv w'.
Proof.
  intros [Hself Hparts Hacc Hfull] (Hs & Hnone & Hseq & Hwf). cbn [exec]. unfold addSelfMsgAndPPDigest.
  rewrite Hnone in Hself. destruct Hself as (Hsq & Hd & Hf & Hc). rewrite Hs, Hsq, Hd, Hnone, Hf, !Z.eqb_refl.
  change (Digest.isZero zeroDigest) with true. rewrite !(bool_decide_eq_true_2 (None = None)) by done. cbn [Assert mbind res_bind].
  set (p := p_commitPath m). destruct (pps_acc_ok (set w) p) as [Hok Hv]; [intros a Ha; by destruct (Hacc p a Ha) as (? & ? & _)|].
  assert (Accumulator.expectedDigest (thresholdAccumulator (set w) p) = None) as Hdig.
  { unfold thresholdAccumulator. destruct (accumulator (set w) p) as [a|] eqn:E; [|done]. by apply (Hacc p a E). }
  destruct (Accumulator.setDigest_unverified verifyShare (required p) _ d Hok Hv Hdig) as (a1 & -> & Hok1 & Hv1 & _). cbn [mbind res_bind].
  set (s1 := set_self _ _ _ _).
  assert (∀ q a, accumulator s1 q = Some a → Accumulator.ok (required q) a ∧ Accumulator.shareVerification a = false) as Hacc1.
  { intros q a. change (accumulator s1 q) with (accumulator (set_accumulator (set w) p a1) q). rewrite accumulator_set.
    destruct (Bool.eqb _ _) eqn:Eb; [|intros Ha; by destruct (Hacc q a Ha) as (? & ? & _)].
    apply Bool.eqb_prop in Eb. intros [= <-]. rewrite <- (required_same p q Eb). by split. }
  destruct (pps_addImp_post s1 m p Hacc1 Hwf) as (a & j & -> & Hoka & Hva & _ & Hj); [done|by intros self [= <-]|].
  cbn [mbind res_bind]. eexists. split; [done|]. change (selfPartialCommitProof s1) with (Some m) in Hj. cbn in Hj.
  constructor; cbn [set created].
  - cbn [set_accumulator selfPartialCommitProof s1 set_self]. change (selfPartialCommitProof s1) with (Some m). cbn.
    rewrite Hc, app_nil_r. change (ready (set_accumulator s1 p a) m) with (ready s1 m).
    split; [done|]. destruct (ready s1 m); [destruct Hj as (jb & -> & Hjb)|subst j]; simpl; [|by split].
    split; [|done]. constructor; [done|constructor].
  - intros q. apply (Hparts q).
  - intros q x. rewrite accumulator_set. destruct (Bool.eqb _ _) eqn:Eb; [|intros Ha; destruct (Hacc1 q x Ha); by split_and!].
    apply Bool.eqb_prop in Eb. intros [= <-]. rewrite <- (required_same p q Eb). by split_and!.
  - intros f Hf'. cbn in Hf'. congruence.
Qed.

Lemma ready_other s p X m : isOptimistic (p_commitPath m) ≠ isOptimistic p → ready (set_participating s p X) m = ready s m.
Proof. intros Hne. unfold ready. rewrite participating_set. destruct (isOptimistic p), (isOptimistic (p_commitPath m)); done. Qed.

Lemma pps_addPartial_inv w m : inv w → op_pre w (AddPartial m) → ∃ w', exec w (AddPartial m) = Ok w' ∧ inv w'.
Proof.
  intros Hinv (Hid & Hmy & Hseq & Hwf). pose proof Hinv as [Hself Hparts Hacc Hfull]. cbn [exec]. unfold addMsg_partial.
  rewrite (proj2 (Z.eqb_neq _ _) Hmy). unfold ReplicasInfo.isIdOfReplica. rewrite (proj2 (Z.ltb_lt (p_sender m) _)) by lia.
  assert (((seqNumber (set w) =? 0) || (seqNumber (set w) =? p_seq m)) = true) as ->.
  { destruct Hseq as [-> | ->]; [done|]. by rewrite Z.eqb_refl, orb_true_r. }
  cbn [negb Assert mbind res_bind]. set (p := p_commitPath m).
  assert (∃ w', ('(_, s, j) ← Ok (false, set w, None); Ok (mkW s (option_list j ++ created w))) = Ok w' ∧ inv w') as Hno
    by (exists w; split; [by destruct w|done]).
  destruct (fullCommitProof (set w)) as [f|] eqn:Ef; [by rewrite bool_decide_eq_true_2|]. rewrite bool_decide_eq_false_2 by auto.
  destruct (match selfPartialCommitProof (set w) with Some self => negb (bool_decide (p_commitPath self = p)) | None => false end) eqn:Ep; [done|].
  assert (∀ self, selfPartialCommitProof (set w) = Some self → p_commitPath self = p) as Hpath.
  { intros self Hs. rewrite Hs in Ep. bool_to_prop. done. }
  destruct (decide (p_sender m ∈ participating (set w) p)) as [Hin|Hnin]; [by rewrite bool_decide_eq_true_2|].
  rewrite bool_decide_eq_false_2 by done.
  destruct (Z.ltb_spec (Z.of_nat (size (participating (set w) p))) (required p - 1)) as [Hlt|Hge]; [|done].
  set (X := participating (set w) p ∪ {[p_sender m]}). set (s1 := set_participating (set w) p X).
  assert (size X = S (size (participating (set w) p))) as HX.
  { unfold X. rewrite size_union by set_solver. rewrite size_singleton. lia. }
  destruct (pps_addImp_post s1 m p) as (a & j & -> & Hok & Hv & Hd & Hj); [|done|done|done|].
  { intros q x Hx. by destruct (Hacc q x Hx) as (? & ? & _). }
  cbn [mbind res_bind]. eexists. split; [done|]. change (selfPartialCommitProof s1) with (selfPartialCommitProof (set w)) in Hj.
  constructor; cbn [set created].
  - change (selfPartialCommitProof (set_accumulator s1 p a)) with (selfPartialCommitProof (set w)).
    destruct (selfPartialCommitProof (set w)) as [self|] eqn:Es; [|subst j; destruct Hself as (? & ? & _ & ?); split_and!; [done|done|exact Ef|done]].
    destruct Hself as (Hsq & Hjobs & Hlen). split; [done|].
    assert (ready (set w) self = false) as Hnr.
    { unfold ready. rewrite (Hpath self eq_refl). apply Z.eqb_neq. lia. }
    rewrite Hnr in Hlen. destruct (created w); [|done]. change (ready (set_accumulator s1 p a) self) with (ready s1 self).
    destruct (ready s1 self); [destruct Hj as (jb & -> & Hjb)|subst j]; simpl; [|by split].
    split; [|done]. constructor; [exact Hjb|constructor].
  - intros q. change (participating (set_accumulator s1 p a) q) with (participating s1 q). unfold s1. rewrite participating_set.
    destruct (Bool.eqb _ _) eqn:Eb; [|apply Hparts]. apply Bool.eqb_prop in Eb. rewrite <- (required_same p q Eb). split; [lia|].
    intros id Hid'. unfold X in Hid'. apply elem_of_union in Hid' as [Hid'|Hid'%elem_of_singleton]; [by apply (Hparts p)|]. subst id. done.
  - intros q x. rewrite accumulator_set. destruct (Bool.eqb _ _) eqn:Eb; [|apply (Hacc q x)].
    apply Bool.eqb_prop in Eb. intros [= <-]. rewrite <- (required_same p q Eb). split_and!; [done|done|].
    intros Hnone. rewrite Hd. unfold thresholdAccumulator. change (accumulator s1 p) with (accumulator (set w) p).
    destruct (accumulator (set w) p) as [y|] eqn:E; [|done]. by apply (Hacc p y E).
  - intros f Hf'. cbn in Hf'. congruence.
Qed.

Lemma addFull_inv w m : inv w → inv (mkW (addMsg_full (set w) m).2 (created w)).
Proof.
  intros Hinv. unfold addMsg_full. destruct (fullCommitProof (set w)) as [f|] eqn:Ef; [rewrite bool_decide_eq_true_2 by done; by destruct w|].
  rewrite bool_decide_eq_false_2 by auto. destruct (selfPartialCommitProof (set w)) as [self|] eqn:Es; [|by destruct w].
  destruct (_ || _) eqn:Eq; [by destruct w|]. destruct (verify _ _ _) eqn:Ev; [|by destruct w].
  destruct Hinv as [Hself Hparts Hacc Hfull]. rewrite Es in Hself. constructor; cbn [snd set created].
  - cbn [set_full selfPartialCommitProof]. rewrite Es. exact Hself.
  - exact Hparts.
  - exact Hacc.
  - intros f [= <-]. exists self. bool_to_prop. by split_and!.
Qed.

Lemma pps_empty_inv : inv (mkW ctor []).
Proof.
  constructor; cbn [set created]; [done| |by intros p a; unfold accumulator; destruct (isOptimistic p)|done].
  intros p. assert (participating ctor p = ∅) as -> by (unfold participating; by destruct (isOptimistic p)).
  rewrite size_empty. pose proof (required_pos p). split; [lia|]. set_solver.
Qed.

Lemma pps_exec_inv w o : inv w → op_pre w o → ∃ w', exec w o = Ok w' ∧ inv w'.
Proof.
  intros Hinv Hpre. destruct o as [m d|m|m|].
  - by apply pps_addSelf_inv.
  - by apply pps_addPartial_inv.
  - eexists. split; [done|]. by apply addFull_inv.
  - eexists. split; [done|]. apply pps_empty_inv.
Qed.

Lemma pps_reachable_inv w : reachable w → inv w.
Proof. apply reachable_invariant; [apply pps_empty_inv|apply pps_exec_inv]. Qed.

(** ** What the operations keep, for their callers *)
Lemma addImp_frame s m p s' j : addImp s m p = Ok (s', j) → ∃ a, s' = set_accumulator s p a.
Proof.
  clear. unfold addImp. intros H. apply bind_ok in H as ([a n] & _ & H). exists a.
  destruct (_ && _); [|by injection H as <- _]. apply bind_ok in H as (j' & _ & H). by injection H as <- _.
Qed.

Lemma addSelf_post s js m d : inv (mkW s js) → op_pre (mkW s js) (AddSelf m d) →
  ∃ s' oj, addSelfMsgAndPPDigest s m d = Ok (s', oj) ∧ inv (mkW s' (option_list oj ++ js)) ∧
    selfPartialCommitProof s' = Some m ∧ expectedDigest s' = d ∧ fullCommitProof s' = fullCommitProof s.
Proof.
  intros Hinv Hpre. destruct (pps_addSelf_inv (mkW s js) m d Hinv Hpre) as (w' & He & Hinv'). cbn [exec set created] in He.
  apply bind_ok in He as ([s' oj] & Ha & He). injection He as <-. exists s', oj. split; [done|]. split; [done|].
  unfold addSelfMsgAndPPDigest in Ha. do 5 apply assert_bind_ok in Ha as [_ Ha].
  apply bind_ok in Ha as (a & _ & Ha). apply addImp_frame in Ha as [a' ->]. by split_and!.
Qed.

Lemma pps_addPartial_post s js m : inv (mkW s js) → op_pre (mkW s js) (AddPartial m) →
  ∃ b s' oj, addMsg_partial s m = Ok (b, s', oj) ∧ inv (mkW s' (option_list oj ++ js)) ∧
    selfPartialCommitProof s' = selfPartialCommitProof s ∧ expectedDigest s' = expectedDigest s ∧
    fullCommitProof s' = fullCommitProof s ∧ (b = true → fullCommitProof s = None).
Proof.
  intros Hinv Hpre. destruct (pps_addPartial_inv (mkW s js) m Hinv Hpre) as (w' & He & Hinv'). cbn [exec set created] in He.
  apply bind_ok in He as ([[b s'] oj] & Ha & He). injection He as <-. exists b, s', oj. split; [done|]. split; [done|].
  unfold addMsg_partial in Ha. do 3 apply assert_bind_ok in Ha as [_ Ha].
  destruct (fullCommitProof s) as [f|] eqn:Ef; [rewrite bool_decide_eq_true_2 in Ha by done; injection Ha as <- <- <-; by split_and!|].
  rewrite bool_decide_eq_false_2 in Ha by auto. destruct (match selfPartialCommitProof s with Some _ => _ | None => _ end); [injection Ha as <- <- <-; by split_and!|].
  destruct (bool_decide _); [injection Ha as <- <- <-; by split_and!|]. destruct (_ <? _); [|injection Ha as <- <- <-; by split_and!].
  apply bind_ok in Ha as ([s2 j] & Ha & H). injection H as <- <- <-. apply addImp_frame in Ha as [a ->].
  unfold set_participating, set_accumulator. by destruct (isOptimistic _).
Qed.

Lemma setTime_inv s js tm : inv (mkW s js) → inv (mkW (setTimeOfSelfPartialProof s tm) js).
Proof. intros []. by constructor. Qed.

Lemma addFull_frame s m p : addMsg_full s m = (true, p) →
  p = set_full s m ∧ fullCommitProof s = None ∧ is_Some (selfPartialCommitProof s).
Proof.
  clear. unfold addMsg_full. destruct (fullCommitProof s) eqn:Ef; [by rewrite bool_decide_eq_true_2 by done|].
  rewrite bool_decide_eq_false_2 by auto. destruct (selfPartialCommitProof s); [|done].
  destruct (_ || _); [done|]. destruct (verify _ _ _); [|done]. intros [= <-]. eauto.
Qed.

(** C31: The fast commit paths, in any order of messages of peers for one number, the own message (once) and resets, where
    every share names an existing signer (which the validation of messages does not check): no assertion fails; on each path
    fewer than the required number of other replicas take part, all different from this
    one; exactly one proof job is made, when the own message and the last required one are
    there, and it is for the digest, sequence number and view of the own message; the full
    proof that a job makes is accepted, and an accepted full proof verifies for the expected
    digest and has the sequence number and view of the own message. *)
Theorem partialProofsSet_safe w : reachable w →
  (∀ o, op_pre w o → ∃ w', exec w o = Ok w') ∧
  (∀ p, Z.of_nat (size (participating (set w) p)) < required p ∧ ReplicasInfo._myId info ∉ participating (set w) p) ∧
  length (created w) = match selfPartialCommitProof (set w) with
                       | Some m => if ready (set w) m then 1%nat else 0%nat
                       | None => 0%nat
                       end ∧
  (∀ j f, j ∈ created w → fullCommitProof (set w) = None → execute j = Ok (Some f) →
     addMsg_full (set w) f = (true, set_full (set w) f)) ∧
  (∀ f, getFullProof (set w) = Some f → ∃ m, selfPartialCommitProof (set w) = Some m ∧ f_seq f = p_seq m ∧
     f_view f = p_view m ∧ verify (p_commitPath m) (expectedDigest (set w)) (f_sig f) = true).
Proof.
  intros Hr. pose proof (pps_reachable_inv w Hr) as Hinv. pose proof Hinv as [Hself Hparts Hacc Hfull]. split_and!.
  - intros o Ho. destruct (pps_exec_inv w o Hinv Ho) as (w' & ? & _). eauto.
  - intros p. destruct (Hparts p) as [Hsz Hids]. split; [lia|]. intros Hin. by destruct (Hids _ Hin).
  - destruct (selfPartialCommitProof (set w)); [by destruct Hself as (_ & _ & ?)|by destruct Hself as (_ & _ & _ & ->)].
  - intros j f Hj Hf He. destruct (selfPartialCommitProof (set w)) as [m|] eqn:Es.
    2:{ destruct Hself as (_ & _ & _ & Hc). rewrite Hc in Hj. set_solver. }
    destruct Hself as (_ & Hjobs & _). rewrite Forall_forall in Hjobs. destruct (Hjobs j Hj) as (Hp & Hd & Hs & Hv).
    unfold execute in He. destruct (_ || _); [done|]. res_simpl. destruct (verify _ _ r) eqn:Ev; simplify_eq/=.
    unfold addMsg_full. rewrite Hf, Es. rewrite bool_decide_eq_false_2 by auto. cbn [f_seq f_view f_sig].
    rewrite Hs, Hv, !Z.eqb_refl. cbn [negb orb]. by rewrite <- Hp, <- Hd, Ev.
  - exact Hfull.
Qed.
End defs.

(** ** Witness: four replicas, the optimistic path *)
Definition toy_full (p : CommitPath) (a : @Accumulator.t Z) : res (list Z) := Ok [VectorOfShares.count (Accumulator.validSharesBits a)].
Definition toy_verify (p : CommitPath) (d : Digest) (sig : list Z) : bool := bool_decide (sig = [4]).

Definition share_of (id : Z) : PartialCommitProofMsg := mkPart id 0 7 OPTIMISTIC_FAST [id + 1; 1].

Definition sampleOps : list op := [AddPartial (share_of 2); AddSelf (share_of 0) zeroDigest; AddPartial (share_of 3); AddPartial (share_of 1)].

Abbreviation sampleExec := (exec CheckpointMsg.sampleInfo CollectorExamples.toy_parse CollectorExamples.toy_verifyShare toy_verify).

Definition sample : @world Z :=
  match run sampleExec (mkW ctor []) sampleOps with Ok w => w | Err _ => mkW ctor [] end.

Lemma pps_sample_reachable :
  reachable CheckpointMsg.sampleInfo CollectorExamples.toy_parse CollectorExamples.toy_verifyShare toy_verify sample.
Proof.
  apply (run_reachable _ _ _ sampleOps); [|vm_compute; reflexivity].
  vm_compute. repeat split; try discriminate; auto.
Qed.

Lemma partialProofsSet_safe_witness :
  length (created sample) = 1%nat ∧ 0 ∉ participating (set sample) OPTIMISTIC_FAST.
Proof.
  assert (ReplicasInfo.wf CheckpointMsg.sampleInfo) as Hi by (constructor; simpl; lia || reflexivity).
  destruct (partialProofsSet_safe CheckpointMsg.sampleInfo CollectorExamples.toy_parse CollectorExamples.toy_verifyShare toy_verify
    toy_full (fun _ => 48) Hi ltac:(vm_compute; discriminate) sample pps_sample_reachable) as (_ & Hp & Hc & _).
  split; [exact Hc|]. destruct (Hp OPTIMISTIC_FAST) as [_ Hmy]. exact Hmy.
Defined.
End PartialProofsSet.
