(* ===== verification/PartialExecProofsSet.v ===== *)
(** * PartialExecProofsSet (bftengine/src/bftengine/PartialExecProofsSet.hpp, .cpp)

    Collects shares on the Merkle root of an execution, f + 1 of them, and has them
    combined by a background job; the combined signature completes the execution
    proofs that wait for it. *)
From S2P Require Import Prelude SysConsts Digest ReplicasInfo VectorOfShares Collector Accumulator CollectorExamples Checkpoint.

Module PartialExecProofsSet.

(** [PartialExecProofMsg] as its accessors give it; of a [FullExecProofMsg] only the
    signature is used. *)
Record PartialExecProofMsg := mkPart { p_sender : Z; p_view : Z; p_seq : Z; p_sig : list Z }.
#[export] Instance PartialExecProofMsg_eq_dec : EqDecision PartialExecProofMsg.
Proof. solve_decision. Defined.
Record FullExecProofMsg := mkFull { client : Z; signature : option (list Z) }.

Section defs.
Context (info : ReplicasInfo.t).
Context {NumType : Type} (parse : list Z → Z * NumType) (verifyShare : Digest → Z → NumType → bool).

Definition numOfRquiredPartialProofs : Z := ReplicasInfo._fVal info + 1.

Record t := mk {
  seqNumber : Z;
  myPartialExecProof : option PartialExecProofMsg;
  participatingReplicas : gset Z;
  expectedDigest : Digest;
  accumulator : option (@Accumulator.t NumType);
  setOfFullExecProofs : list FullExecProofMsg;
}.

Record Job := mkJob { j_acc : @Accumulator.t NumType; j_digest : Digest; j_seq : Z; j_view : Z }.

Definition ctor : t := mk 0 None ∅ zeroDigest None [].

Definition resetAndFree (s : t) : t :=
  if bool_decide (myPartialExecProof s = None) && (Z.of_nat (size (participatingReplicas s)) =? 0) then s
  else mk 0 None ∅ zeroDigest None [].

Definition thresholdAccumulator (s : t) : @Accumulator.t NumType := default (Accumulator.ctor false) (accumulator s).

Definition set_accumulator (s : t) (a : @Accumulator.t NumType) : t :=
  mk (seqNumber s) (myPartialExecProof s) (participatingReplicas s) (expectedDigest s) (Some a) (setOfFullExecProofs s).

Definition complete (s : t) : bool :=
  (Z.of_nat (size (participatingReplicas s)) =? numOfRquiredPartialProofs - 1) && bool_decide (myPartialExecProof s ≠ None).

Definition tryToCreateFullProof (s : t) : res (option Job) :=
  match accumulator s with
  | None => Err AssertFailed
  | Some acc =>
      if complete s then
        match myPartialExecProof s with
        | Some myPEP => Ok (Some (mkJob acc (expectedDigest s) (p_seq myPEP) (p_view myPEP)))
        | None => Err OutOfBounds
        end
      else Ok None
  end.

Definition addImp (s : t) (m : PartialExecProofMsg) : res (t * option Job) :=
  '(a, _) ← Accumulator.add parse verifyShare numOfRquiredPartialProofs (ReplicasInfo._numberOfReplicas info) (thresholdAccumulator s) (p_sig m);
  let s := set_accumulator s a in
  if complete s then j ← tryToCreateFullProof s; Ok (s, j) else Ok (s, None).

Definition addSelf (s : t) (m : PartialExecProofMsg) (merkleRoot : Digest) (fullExecProofs : list FullExecProofMsg) : res (t * option Job) :=
  assert! (p_sender m =? ReplicasInfo._myId info) ;;
  assert! (seqNumber s =? 0) ;;
  assert! (bool_decide (myPartialExecProof s = None)) ;;
  a ← Accumulator.setExpectedDigest verifyShare numOfRquiredPartialProofs (thresholdAccumulator s) merkleRoot;
  addImp (mk (p_seq m) (Some m) (participatingReplicas s) merkleRoot (Some a) fullExecProofs) m.

Definition addMsg (s : t) (m : PartialExecProofMsg) : res (bool * t * option Job) :=
  let repId := p_sender m in
  assert! (negb (repId =? ReplicasInfo._myId info)) ;;
  assert! ((seqNumber s =? 0) || (seqNumber s =? p_seq m)) ;;
  assert! (ReplicasInfo.isIdOfReplica info repId) ;;
  if bool_decide (repId ∉ participatingReplicas s) && (Z.of_nat (size (participatingReplicas s)) <? numOfRquiredPartialProofs - 1) then
    '(s, j) ← addImp (mk (seqNumber s) (myPartialExecProof s) (participatingReplicas s ∪ {[repId]}) (expectedDigest s) (accumulator s)
                        (setOfFullExecProofs s)) m;
    Ok (true, s, j)
  else Ok (false, s, None).

Definition setMerkleSignature (s : t) (sig : list Z) : t :=
  mk (seqNumber s) (myPartialExecProof s) (participatingReplicas s) (expectedDigest s) (accumulator s)
    ((fun p => mkFull (client p) (Some sig)) <$> setOfFullExecProofs s).

(** ** The set with the jobs it made since the last reset *)
Record world := mkW { set : t; created : list Job }.

Inductive op :=
  | AddSelf (m : PartialExecProofMsg) (merkleRoot : Digest) (fullExecProofs : list FullExecProofMsg)
  | AddMsg (m : PartialExecProofMsg)
  | SetMerkleSignature (sig : list Z)
  | Reset.

Definition exec (w : world) (o : op) : res world :=
  match o with
  | AddSelf m d l => '(s, j) ← addSelf (set w) m d l; Ok (mkW s (option_list j ++ created w))
  | AddMsg m => '(_, s, j) ← addMsg (set w) m; Ok (mkW s (option_list j ++ created w))
  | SetMerkleSignature sig => Ok (mkW (setMerkleSignature (set w) sig) (created w))
  | Reset => Ok (mkW (resetAndFree (set w)) [])
  end.

Definition share_wf (sig : list Z) : Prop := 1 <= (parse sig).1 <= ReplicasInfo._numberOfReplicas info.

Definition op_pre (w : world) (o : op) : Prop :=
  match o with
  | AddSelf m d l => p_sender m = ReplicasInfo._myId info ∧ myPartialExecProof (set w) = None ∧ share_wf (p_sig m)
  | AddMsg m => 0 <= p_sender m < ReplicasInfo._numberOfReplicas info ∧ p_sender m ≠ ReplicasInfo._myId info ∧
      (seqNumber (set w) = 0 ∨ p_seq m = seqNumber (set w)) ∧ share_wf (p_sig m)
  | SetMerkleSignature _ | Reset => True
  end.

Definition reachable : world → Prop := Prelude.reachable exec op_pre (mkW ctor []).

Context (Hinfo : ReplicasInfo.wf info).
Context (Hmax : ReplicasInfo._numberOfReplicas info <= VectorOfShares.MAX_NUM_OF_SHARES).
#[local] Abbreviation req := numOfRquiredPartialProofs.

Definition job_of (s : t) (m : PartialExecProofMsg) (j : Job) : Prop :=
  j_digest j = expectedDigest s ∧ j_seq j = p_seq m ∧ j_view j = p_view m.

Record inv (w : world) : Prop := {
  inv_self : match myPartialExecProof (set w) with
    | None => seqNumber (set w) = 0 ∧ expectedDigest (set w) = zeroDigest ∧ setOfFullExecProofs (set w) = [] ∧ created w = []
    | Some m => seqNumber (set w) = p_seq m ∧ Forall (job_of (set w) m) (created w) ∧
        length (created w) = (if complete (set w) then 1%nat else 0%nat)
    end;
  inv_parts : Z.of_nat (size (participatingReplicas (set w))) <= req - 1 ∧
    ReplicasInfo._myId info ∉ participatingReplicas (set w);
  inv_empty : myPartialExecProof (set w) = None → participatingReplicas (set w) = ∅ → accumulator (set w) = None;
  inv_acc a : accumulator (set w) = Some a → Accumulator.ok req a ∧ Accumulator.shareVerification a = false ∧
    (myPartialExecProof (set w) = None → Accumulator.expectedDigest a = None);
}.

Lemma req_pos : 1 <= req.
Proof. destruct Hinfo. unfold numOfRquiredPartialProofs. lia. Qed.

Lemma peps_acc_ok s : (∀ a, accumulator s = Some a → Accumulator.ok req a ∧ Accumulator.shareVerification a = false) →
  Accumulator.ok req (thresholdAccumulator s) ∧ Accumulator.shareVerification (thresholdAccumulator s) = false.
Proof.
  intros H. unfold thresholdAccumulator. destruct (accumulator s) as [a|]; [by apply H|]. simpl. split; [|done].
  apply Accumulator.ok_ctor. pose proof req_pos. lia.
Qed.

Lemma peps_addImp_post s m : (∀ a, accumulator s = Some a → Accumulator.ok req a ∧ Accumulator.shareVerification a = false) →
  share_wf (p_sig m) →
  ∃ a j, addImp s m = Ok (set_accumulator s a, j) ∧ Accumulator.ok req a ∧ Accumulator.shareVerification a = false ∧
    Accumulator.expectedDigest a = Accumulator.expectedDigest (thresholdAccumulator s) ∧
    match myPartialExecProof s with
    | Some self => if complete s then ∃ jb, j = Some jb ∧ job_of s self jb else j = None
    | None => j = None
    end.
Proof.
  intros Hacc Hwf. destruct (peps_acc_ok s Hacc) as [Hok Hv].
  destruct (Accumulator.add_unverified parse verifyShare req _ ltac:(pose proof req_pos; lia) Hmax _ (p_sig m) Hok Hv Hwf) as (a & n & Ha & Hok' & Hv' & Hd').
  unfold addImp. rewrite Ha. cbn [mbind res_bind]. exists a. change (complete (set_accumulator s a)) with (complete s).
  unfold tryToCreateFullProof. change (complete (set_accumulator s a)) with (complete s).
  change (myPartialExecProof (set_accumulator s a)) with (myPartialExecProof s). cbn [accumulator set_accumulator].
  destruct (complete s) eqn:Ec; [|exists None; split_and!; try done; by destruct (myPartialExecProof s)].
  destruct (myPartialExecProof s) as [self|] eqn:Es.
  - cbn [mbind res_bind]. eexists (Some _). split_and!; try done. eexists. split; [done|]. by split_and!.
  - unfold complete in Ec. rewrite Es in Ec. rewrite (bool_decide_eq_false_2 (None ≠ None)), andb_false_r in Ec by auto. done.
Qed.

Lemma peps_addSelf_inv w m d l : inv w → op_pre w (AddSelf m d l) → ∃ w', exec w (AddSelf m d l) = Ok w' ∧ inv w'.
Proof.
  intros [Hself Hparts Hempty Hacc] (Hs & Hnone & Hwf). cbn [exec]. unfold addSelf. rewrite Hnone in Hself.
  destruct Hself as (Hsq & Hd & Hl & Hc). rewrite Hs, Hsq, Hnone, !Z.eqb_refl. rewrite (bool_decide_eq_true_2 (None = None)) by done. cbn [Assert mbind res_bind].
  destruct (peps_acc_ok (set w)) as [Hok Hv]; [intros a Ha; by destruct (Hacc a Ha) as (? & ? & _)|].
  assert (Accumulator.expectedDigest (thresholdAccumulator (set w)) = None) as Hdig.
  { unfold thresholdAccumulator. destruct (accumulator (set w)) as [a|] eqn:E; [|done]. by apply (Hacc a eq_refl). }
  destruct (Accumulator.setDigest_unverified verifyShare req _ d Hok Hv Hdig) as (a1 & -> & Hok1 & Hv1 & _). cbn [mbind res_bind].
  set (s1 := mk _ _ _ _ _ _). destruct (peps_addImp_post s1 m) as (a & j & -> & Hoka & Hva & _ & Hj); [by intros a [= <-]|done|].
  cbn [mbind res_bind]. eexists. split; [done|]. cbn in Hj. constructor; cbn [set created].
  - cbn. rewrite Hc, app_nil_r. change (complete (set_accumulator s1 a)) with (complete s1).
    split; [done|]. destruct (complete s1); [destruct Hj as (jb & -> & Hjb)|subst j]; simpl; [|by split].
    split; [|done]. constructor; [done|constructor].
  - exact Hparts.
  - done.
  - intros x [= <-]. by split_and!.
Qed.

Lemma peps_addMsg_inv w m : inv w → op_pre w (AddMsg m) → ∃ w', exec w (AddMsg m) = Ok w' ∧ inv w'.
Proof.
  intros Hinv (Hid & Hmy & Hseq & Hwf). pose proof Hinv as [Hself [Hsz Hnot] Hempty Hacc]. cbn [exec]. unfold addMsg.
  rewrite (proj2 (Z.eqb_neq _ _) Hmy). unfold ReplicasInfo.isIdOfReplica. rewrite (proj2 (Z.ltb_lt (p_sender m) _)) by lia.
  assert (((seqNumber (set w) =? 0) || (seqNumber (set w) =? p_seq m)) = true) as ->.
  { destruct Hseq as [-> | ->]; [done|]. by rewrite Z.eqb_refl, orb_true_r. }
  cbn [negb Assert mbind res_bind]. destruct (_ && _) eqn:Eg; [|exists w; split; [by destruct w|done]]. bool_to_prop.
  set (s1 := mk _ _ _ _ _ _).
  assert (size (participatingReplicas s1) = S (size (participatingReplicas (set w)))) as HX.
  { cbn. rewrite size_union by set_solver. rewrite size_singleton. lia. }
  destruct (peps_addImp_post s1 m) as (a & j & -> & Hok & Hv & Hd & Hj); [|exact Hwf|].
  { intros x Hx. by destruct (Hacc x Hx) as (? & ? & _). }
  cbn [mbind res_bind]. eexists. split; [done|]. change (myPartialExecProof s1) with (myPartialExecProof (set w)) in Hj.
  constructor; cbn [set created].
  - change (myPartialExecProof (set_accumulator s1 a)) with (myPartialExecProof (set w)).
    destruct (myPartialExecProof (set w)) as [self|] eqn:Es; [|subst j; exact Hself].
    destruct Hself as (Hsq & Hjobs & Hlen). split; [done|].
    assert (complete (set w) = false) as Hnr by (unfold complete; rewrite (proj2 (Z.eqb_neq _ _)); [done|lia]).
    rewrite Hnr in Hlen. destruct (created w); [|done]. change (complete (set_accumulator s1 a)) with (complete s1).
    destruct (complete s1); [destruct Hj as (jb & -> & Hjb)|subst j]; simpl; [|by split].
    split; [|done]. constructor; [exact Hjb|constructor].
  - change (participatingReplicas (set_accumulator s1 a)) with (participatingReplicas s1). split; [lia|]. cbn. set_solver.
  - intros _ He. change (participatingReplicas (set_accumulator s1 a)) with (participatingReplicas s1) in He. rewrite He, size_empty in HX. done.
  - intros x [= <-]. split_and!; [done|done|]. intros Hn. change (myPartialExecProof (set_accumulator s1 a)) with (myPartialExecProof (set w)) in Hn.
    rewrite Hd. unfold thresholdAccumulator. change (accumulator s1) with (accumulator (set w)).
    destruct (accumulator (set w)) as [y|] eqn:E; [|done]. by apply (Hacc y eq_refl).
Qed.

Lemma peps_empty_inv : inv (mkW ctor []).
Proof. constructor; cbn; [done| |done|done]. rewrite size_empty. pose proof req_pos. split; [lia|set_solver]. Qed.

(** The early return of [resetAndFree] is taken by a set that is as new. *)
Lemma reset_new w : inv w → resetAndFree (set w) = ctor.
Proof.
  intros [Hself Hparts Hempty Hacc]. unfold resetAndFree. destruct (_ && _) eqn:E; [|done]. bool_to_prop.
  assert (participatingReplicas (set w) = ∅) as Hp by (apply leibniz_equiv, size_empty_inv; lia).
  rewrite H in Hself. destruct Hself as (? & ? & ? & _). specialize (Hempty H Hp). destruct (set w). simpl in *. by subst.
Qed.

Lemma peps_exec_inv w o : inv w → op_pre w o → ∃ w', exec w o = Ok w' ∧ inv w'.
Proof.
  intros Hinv Hpre. destruct o as [m d l|m|sig|].
  - by apply peps_addSelf_inv.
  - by apply peps_addMsg_inv.
  - eexists. split; [done|]. destruct Hinv as [Hself Hparts Hempty Hacc]. constructor; cbn [set created]; [|done|done|done].
    cbn [setMerkleSignature myPartialExecProof]. destruct (myPartialExecProof (set w)); [exact Hself|].
    destruct Hself as (? & ? & Hl & ?). cbn. by rewrite Hl.
  - eexists. split; [done|]. rewrite (reset_new w Hinv). apply peps_empty_inv.
Qed.

Lemma peps_reachable_inv w : reachable w → inv w.
Proof. apply reachable_invariant; [apply peps_empty_inv|apply peps_exec_inv]. Qed.

(** Execution proofs, in any order of messages: no assertion fails, exactly one job is
    made, when the own share and f others are there, for the digest, sequence number and
    view of the own message; and [resetAndFree] always leaves a new set, also when it
    returns early. *)
Theorem partialExecProofsSet_safe w : reachable w →
  (∀ o, op_pre w o → ∃ w', exec w o = Ok w') ∧
  length (created w) = (if complete (set w) then 1%nat else 0%nat) ∧
  (∀ j, j ∈ created w → ∃ m, myPartialExecProof (set w) = Some m ∧ job_of (set w) m j) ∧
  resetAndFree (set w) = ctor.
Proof.
  intros Hr. pose proof (peps_reachable_inv w Hr) as Hinv. pose proof Hinv as [Hself Hparts Hempty Hacc]. split_and!.
  - intros o Ho. destruct (peps_exec_inv w o Hinv Ho) as (w' & ? & _). eauto.
  - destruct (myPartialExecProof (set w)) eqn:E; [by destruct Hself as (_ & _ & ?)|]. destruct Hself as (_ & _ & _ & ->).
    unfold complete. rewrite E. by rewrite (bool_decide_eq_false_2 (None ≠ None)), andb_false_r by auto.
  - intros j Hj. destruct (myPartialExecProof (set w)) as [m|]; [|destruct Hself as (_ & _ & _ & Hc); rewrite Hc in Hj; set_solver].
    destruct Hself as (_ & Hjobs & _). rewrite Forall_forall in Hjobs. eauto.
  - by apply reset_new.
Qed.
End defs.

Section job.
Context {NumType : Type} (verify : Digest → list Z → bool) (getFullSignedData : @Accumulator.t NumType → res (list Z)).
Context (requiredLengthForSignedData : Z).

(** [AsynchExecProofCreationJob::execute]: the view, the sequence number and the signature
    of the internal message, if one is pushed. *)
Definition execute (j : Job) : res (option (Z * Z * list Z)) :=
  if (65535 <? requiredLengthForSignedData) || (requiredLengthForSignedData =? 0) then Ok None
  else
    sig ← getFullSignedData (j_acc j);
    if negb (verify (j_digest j) sig) then Ok None else Ok (Some (j_view j, j_seq j, sig)).

End job.

(** ** Witness *)
Definition share_of (id : Z) : PartialExecProofMsg := mkPart id 0 7 [id + 1; 1].
Definition sampleOps : list op := [AddMsg (share_of 2); AddSelf (share_of 0) zeroDigest []].
Definition sample : @world Z :=
  match run (exec CheckpointMsg.sampleInfo CollectorExamples.toy_parse CollectorExamples.toy_verifyShare) (mkW ctor []) sampleOps
  with Ok w => w | Err _ => mkW ctor [] end.

Lemma peps_sample_reachable : reachable CheckpointMsg.sampleInfo CollectorExamples.toy_parse CollectorExamples.toy_verifyShare sample.
Proof.
  apply (run_reachable _ _ _ sampleOps); [|vm_compute; reflexivity].
  vm_compute. repeat split; try discriminate; auto.
Qed.

Lemma partialExecProofsSet_safe_witness : length (created sample) = 1%nat ∧ resetAndFree (set sample) = ctor.
Proof.
  assert (ReplicasInfo.wf CheckpointMsg.sampleInfo) as Hi by (constructor; simpl; lia || reflexivity).
  destruct (partialExecProofsSet_safe CheckpointMsg.sampleInfo CollectorExamples.toy_parse CollectorExamples.toy_verifyShare
    Hi ltac:(vm_compute; discriminate) sample peps_sample_reachable) as (_ & Hc & _ & Hr).
  split; [exact Hc|exact Hr].
Defined.
End PartialExecProofsSet.
