(* ===== verification/SeqNumInfo.v ===== *)
(** * SeqNumInfo (bftengine/src/bftengine/SeqNumInfo.hpp, .cpp)

    What a replica keeps for one sequence number of its working window: the PrePrepare
    message, the two collectors of the slow path (prepare and commit) and the sets of
    partial proofs of the fast path and of the execution.  The class gives the collectors
    their [ExternalFunc], and [SequenceWithActiveWindow] its [ItemFuncs]. *)
From S2P Require Import Prelude SysConsts Digest ReplicasInfo ActiveWindow VectorOfShares Collector Accumulator PartialProofsSet PartialExecProofsSet.

Module SeqNumInfo.

(** The messages, as their accessors give them: a PrePrepare message, and the four
    messages with threshold signatures. *)
Record PrePrepare := mkPP { pp_sender : Z; pp_view : Z; pp_seq : Z; pp_digest : Digest; pp_firstPath : CommitPath }.
Record Share := mkShare { s_sender : Z; s_view : Z; s_seq : Z; s_sig : list Z }.
#[export] Instance PrePrepare_eq_dec : EqDecision PrePrepare.
Proof. solve_decision. Defined.
#[export] Instance Share_eq_dec : EqDecision Share.
Proof. solve_decision. Defined.

Definition MinTime : Z := 0.

(** [ExFuncForPrepareCollector] and [ExFuncForCommitCollector]: they differ in the type
    of message they create. *)
Definition numberOfRequiredSignatures (info : ReplicasInfo.t) : Z :=
  u16 (ReplicasInfo._fVal info * 2 + ReplicasInfo._cVal info + 1).

Definition exFunc (info : ReplicasInfo.t) : Collector.ExternalFunc Share Share := {|
  Collector.part_signature := s_sig;
  Collector.full_signature := s_sig;
  Collector.createCombinedSignatureMsg sq v sig := mkShare (ReplicasInfo._myId info) v sq sig;
  Collector.numberOfRequiredSignatures := numberOfRequiredSignatures info;
|}.

Section defs.
Context (info : ReplicasInfo.t).
Context {NumType : Type} (parse : list Z → Z * NumType) (verifyShare : Digest → Z → NumType → bool).
(** The iteration order of the collectors' hash tables. *)
Context (order : gmap Z (@Collector.RepInfo Share) → list (Z * @Collector.RepInfo Share)).
#[local] Abbreviation myId := (ReplicasInfo._myId info).
#[local] Abbreviation collector := (@Collector.t Share Share).
#[local] Abbreviation setExpected := (Collector.setExpected (EF := exFunc info) order).
#[local] Abbreviation addMsgWithPartialSignature := (Collector.addMsgWithPartialSignature (EF := exFunc info) order).
#[local] Abbreviation addMsgWithCombinedSignature := (Collector.addMsgWithCombinedSignature (EF := exFunc info) order).
#[local] Abbreviation deliver := (Collector.deliver (EF := exFunc info) order).

Record t := mk {
  prePrepareMsg : option PrePrepare;
  prepareSigCollector : collector;
  commitMsgsCollector : collector;
  partialProofsSet : @PartialProofsSet.t NumType;
  partialExecProofsSet : @PartialExecProofsSet.t NumType;
  primary : bool;
  forcedCompleted : bool;
  slowPathHasStarted : bool;
  firstSeenFromPrimary : Z;
  timeOfLastInfoRequest : Z;
  commitUpdateTime : Z;
}.

(** The constructor followed by [init]. *)
Definition init : t :=
  mk None Collector.ctor Collector.ctor PartialProofsSet.ctor PartialExecProofsSet.ctor false false false MinTime MinTime MinTime.

Definition resetAndFree (now : Z) (i : t) : t :=
  mk None (Collector.resetAndFree (prepareSigCollector i)) (Collector.resetAndFree (commitMsgsCollector i))
    (PartialProofsSet.resetAndFree (partialProofsSet i)) (PartialExecProofsSet.resetAndFree (partialExecProofsSet i))
    false false false MinTime MinTime now.

Definition set_prepare (i : t) (c : collector) : t :=
  mk (prePrepareMsg i) c (commitMsgsCollector i) (partialProofsSet i) (partialExecProofsSet i) (primary i)
    (forcedCompleted i) (slowPathHasStarted i) (firstSeenFromPrimary i) (timeOfLastInfoRequest i) (commitUpdateTime i).
Definition set_commit (i : t) (c : collector) (tm : Z) : t :=
  mk (prePrepareMsg i) (prepareSigCollector i) c (partialProofsSet i) (partialExecProofsSet i) (primary i)
    (forcedCompleted i) (slowPathHasStarted i) (firstSeenFromPrimary i) (timeOfLastInfoRequest i) tm.
Definition set_proofs (i : t) (p : @PartialProofsSet.t NumType) : t :=
  mk (prePrepareMsg i) (prepareSigCollector i) (commitMsgsCollector i) p (partialExecProofsSet i) (primary i)
    (forcedCompleted i) (slowPathHasStarted i) (firstSeenFromPrimary i) (timeOfLastInfoRequest i) (commitUpdateTime i).

(** Result: the PrePrepare message, the valid combined prepare signature, the state. *)
Definition getAndReset (now : Z) (i : t) : option PrePrepare * option Share * t :=
  let '(full, c) := Collector.getAndReset (prepareSigCollector i) in
  (prePrepareMsg i, full,
   resetAndFree now (mk None c (commitMsgsCollector i) (partialProofsSet i) (partialExecProofsSet i) (primary i)
     (forcedCompleted i) (slowPathHasStarted i) (firstSeenFromPrimary i) (timeOfLastInfoRequest i) (commitUpdateTime i))).

(** The common end of the two methods that add a PrePrepare message. *)
Definition setPrePrepare (now : Z) (i : t) (m : PrePrepare) (prim : bool) : res (t * option Collector.Job) :=
  let tmpDigest := Digest.calcCombination (pp_digest m) (pp_view m) (pp_seq m) in
  '(c, j) ← setExpected (prepareSigCollector i) (pp_seq m) (pp_view m) tmpDigest;
  let seen := if firstSeenFromPrimary i =? MinTime then now else firstSeenFromPrimary i in
  Ok (mk (Some m) c (commitMsgsCollector i) (partialProofsSet i) (partialExecProofsSet i) prim
        (forcedCompleted i) (slowPathHasStarted i) seen (timeOfLastInfoRequest i) (commitUpdateTime i), j).

Definition addMsg_PrePrepare (now : Z) (i : t) (m : PrePrepare) : res (bool * t * option Collector.Job) :=
  if bool_decide (prePrepareMsg i ≠ None) then Ok (false, i, None)
  else
    assert! (negb (primary i)) ;;
    assert! (negb (forcedCompleted i)) ;;
    assert! (negb (Collector.hasPartialMsgFromReplica (prepareSigCollector i) myId)) ;;
    '(i, j) ← setPrePrepare now i m (primary i);
    Ok (true, i, j).

Definition addSelfMsg_PrePrepare (now : Z) (i : t) (m : PrePrepare) : res (t * option Collector.Job) :=
  assert! (negb (primary i)) ;;
  assert! (myId =? ReplicasInfo.primaryOfView info (pp_view m)) ;;
  assert! (negb (forcedCompleted i)) ;;
  assert! (bool_decide (prePrepareMsg i = None)) ;;
  setPrePrepare now i m true.

Definition addMsg_PreparePartial (i : t) (m : Share) : res (bool * t * option Collector.Job) :=
  assert! (negb (myId =? s_sender m)) ;;
  assert! (negb (forcedCompleted i)) ;;
  '(r, c, j) ← addMsgWithPartialSignature (prepareSigCollector i) m (s_sender m);
  Ok (r, set_prepare i c, j).

Definition addSelfMsg_PreparePartial (i : t) (m : Share) : res (t * option Collector.Job) :=
  assert! (myId =? s_sender m) ;;
  assert! (negb (forcedCompleted i)) ;;
  '(r, c, j) ← addMsgWithPartialSignature (prepareSigCollector i) m (s_sender m);
  assert! r ;;
  Ok (set_prepare i c, j).

Definition addMsg_PrepareFull (i : t) (m : Share) : res (bool * t * option Collector.Job) :=
  assert! (negb (myId =? s_sender m)) ;;
  assert! (negb (forcedCompleted i)) ;;
  '(r, c, j) ← addMsgWithCombinedSignature (prepareSigCollector i) m;
  Ok (r, set_prepare i c, j).

Definition addMsg_CommitPartial (now : Z) (i : t) (m : Share) : res (bool * t * option Collector.Job) :=
  assert! (negb (myId =? s_sender m)) ;;
  assert! (negb (forcedCompleted i)) ;;
  '(r, c, j) ← addMsgWithPartialSignature (commitMsgsCollector i) m (s_sender m);
  Ok (r, set_commit i c (if (r : bool) then now else commitUpdateTime i), j).

(** The jobs of the two calls of the collector. *)
Definition addSelfCommitPartialMsgAndDigest (now : Z) (i : t) (m : Share) (commitDigest : Digest) : res (t * list Collector.Job) :=
  assert! (myId =? s_sender m) ;;
  assert! (negb (forcedCompleted i)) ;;
  let tmpDigest := Digest.calcCombination commitDigest (s_view m) (s_seq m) in
  '(c, j1) ← setExpected (commitMsgsCollector i) (s_seq m) (s_view m) tmpDigest;
  '(r, c, j2) ← addMsgWithPartialSignature c m (s_sender m);
  assert! r ;;
  Ok (set_commit i c now, option_list j2 ++ option_list j1).

Definition addMsg_CommitFull (now : Z) (i : t) (m : Share) : res (bool * t * option Collector.Job) :=
  assert! (negb (myId =? s_sender m)) ;;
  assert! (negb (forcedCompleted i)) ;;
  '(r, c, j) ← addMsgWithCombinedSignature (commitMsgsCollector i) m;
  Ok (r, set_commit i c (if (r : bool) then now else commitUpdateTime i), j).

Definition hasPrePrepareMsg (i : t) : bool := bool_decide (prePrepareMsg i ≠ None).

Definition forceComplete (now : Z) (i : t) : res t :=
  assert! (negb (forcedCompleted i)) ;;
  assert! (hasPrePrepareMsg i) ;;
  assert! (PartialProofsSet.hasFullProof (partialProofsSet i)) ;;
  Ok (mk (prePrepareMsg i) (prepareSigCollector i) (commitMsgsCollector i) (partialProofsSet i) (partialExecProofsSet i) (primary i)
        true (slowPathHasStarted i) (firstSeenFromPrimary i) (timeOfLastInfoRequest i) now).

Definition getPrePrepareMsg (i : t) : option PrePrepare := prePrepareMsg i.
Definition getSelfPrePrepareMsg (i : t) : option PrePrepare := if primary i then prePrepareMsg i else None.
Definition getSelfPreparePartialMsg (i : t) : option Share := Collector.getPartialMsgFromReplica (prepareSigCollector i) myId.
Definition getValidPrepareFullMsg (i : t) : option Share := Collector.getMsgWithValidCombinedSignature (prepareSigCollector i).
Definition getSelfCommitPartialMsg (i : t) : option Share := Collector.getPartialMsgFromReplica (commitMsgsCollector i) myId.
Definition getValidCommitFullMsg (i : t) : option Share := Collector.getMsgWithValidCombinedSignature (commitMsgsCollector i).

Definition isPrepared (i : t) : bool :=
  forcedCompleted i || (bool_decide (prePrepareMsg i ≠ None) && Collector.isComplete (prepareSigCollector i)).

Definition isCommitted__gg (i : t) : bool := forcedCompleted i || Collector.isComplete (commitMsgsCollector i).

Definition preparedOrHasPreparePartialFromReplica (i : t) (repId : Z) : bool :=
  isPrepared i || Collector.hasPartialMsgFromReplica (prepareSigCollector i) repId.

Definition committedOrHasCommitPartialFromReplica (i : t) (repId : Z) : bool :=
  isCommitted__gg i || Collector.hasPartialMsgFromReplica (commitMsgsCollector i) repId.

Definition startSlowPath (i : t) : t :=
  mk (prePrepareMsg i) (prepareSigCollector i) (commitMsgsCollector i) (partialProofsSet i) (partialExecProofsSet i) (primary i)
    (forcedCompleted i) true (firstSeenFromPrimary i) (timeOfLastInfoRequest i) (commitUpdateTime i).
Definition slowPathStarted (i : t) : bool := slowPathHasStarted i.

Definition setTimeOfLastInfoRequest (i : t) (tm : Z) : t :=
  mk (prePrepareMsg i) (prepareSigCollector i) (commitMsgsCollector i) (partialProofsSet i) (partialExecProofsSet i) (primary i)
    (forcedCompleted i) (slowPathHasStarted i) (firstSeenFromPrimary i) tm (commitUpdateTime i).

(** [onCompletionOf...Prepare...] and [onCompletionOf...Commit...]: the result of a job is
    given to the collector. *)
Definition onCompletionPrepare (i : t) (r : Collector.Result) : res (t * option Collector.Job) :=
  '(c, j) ← deliver (prepareSigCollector i) r; Ok (set_prepare i c, j).
Definition onCompletionCommit (i : t) (r : Collector.Result) : res (t * option Collector.Job) :=
  '(c, j) ← deliver (commitMsgsCollector i) r; Ok (set_commit i c (commitUpdateTime i), j).

(** Indistinguishable from a new item, but for the time of the last commit message. *)
Definition empty (i : t) : Prop :=
  prePrepareMsg i = None ∧ Collector.isEmpty (prepareSigCollector i) = true ∧ Collector.isEmpty (commitMsgsCollector i) = true ∧
  partialProofsSet i = PartialProofsSet.ctor ∧ partialExecProofsSet i = PartialExecProofsSet.ctor ∧
  primary i = false ∧ forcedCompleted i = false ∧ slowPathHasStarted i = false ∧
  firstSeenFromPrimary i = MinTime ∧ timeOfLastInfoRequest i = MinTime.

(** What [resetAndFree] of the execution proofs relies on. *)
Definition item_ok (i : t) : Prop := PartialExecProofsSet.resetAndFree (partialExecProofsSet i) = PartialExecProofsSet.ctor.

Lemma reset_empty now i : item_ok i → empty (resetAndFree now i).
Proof. intros Hi. split_and!; try done; try apply Collector.col_resetAndFree_empty. Qed.

(** The promise to [SequenceWithActiveWindow] (the [mainLog] of the replica). *)
Definition seqNum_items (now : Z) : ItemFuncs t.
Proof.
  refine {| item_init := init; item_reset := resetAndFree now; item_wf := item_ok; item_empty := empty |}.
  - done.
  - intros i Hi. unfold item_ok, resetAndFree. simpl. by rewrite Hi.
  - intros i Hi. by apply reset_empty.
Defined.
End defs.
End SeqNumInfo.
