(* ===== verification/CommitProtocol.v ===== *)
(** * The commit protocol of one sequence number
    (bftengine/src/bftengine/ReplicaImp.cpp: the handlers of PrePrepare, StartSlowCommit,
    PartialCommitProof, FullCommitProof, PreparePartial, PrepareFull, CommitPartial and
    CommitFull messages, of the results of the background jobs, and the methods that send
    the replica's own messages)

    The handlers are taken in an active view [curView], for a sequence number inside the
    active window ([relevantMsgForActiveView] holds), from when the item of the sequence
    number was last reset.  Messages to other replicas and calls of
    [tryToSendReqMissingDataMsg] and [executeReadWriteRequests] are returned as a list.
    Acknowledgements, metrics, logging and the controller's statistics are left out. *)
From S2P Require Import Prelude SysConsts Digest ReplicasInfo ActiveWindow VectorOfShares Collector Accumulator PartialProofsSet PartialExecProofsSet SeqNumInfo.

Module CommitProtocol.
Import SeqNumInfo (PrePrepare, Share, pp_sender, pp_view, pp_seq, pp_digest, pp_firstPath, s_sender, s_view, s_seq, s_sig).
Import PartialProofsSet (PartialCommitProofMsg, FullCommitProofMsg, p_sender, p_view, p_seq, p_commitPath, p_sig).

Inductive Msg :=
  | MPrePrepare (m : PrePrepare)
  | MPartialCommitProof (m : PartialCommitProofMsg)
  | MFullCommitProof (m : FullCommitProofMsg)
  | MStartSlowCommit
  | MPreparePartial (m : Share)
  | MPrepareFull (m : Share)
  | MCommitPartial (m : Share)
  | MCommitFull (m : Share).

(** What a handler does besides changing the item. *)
Inductive Out :=
  | Send (m : Msg) (dest : Z)
  | SendToAllOthers (m : Msg)
  | TryToSendReqMissingDataMsg
  | Execute (askForMissingInfoAboutCommittedItems : bool).

Section defs.
Context (info : ReplicasInfo.t).
Context {NumType : Type} (parse : list Z → Z * NumType) (verifyShare : Digest → Z → NumType → bool).
Context (order : gmap Z (@Collector.RepInfo Share) → list (Z * @Collector.RepInfo Share)).
(** The threshold signature schemes: the slow path's verifier and signer, the fast paths'
    verifiers and signers; [Digest::digestOfDigest]. *)
Context (slowVerifier : Collector.Verifier) (slowSign : Digest → list Z).
Context (fastVerify : CommitPath → Digest → list Z → bool) (fastSign : bool → Digest → list Z).
Context (digestOfDigest : Digest → Digest).
(** [curView], the sequence number and [maxConcurrentAgreementsByPrimary]. *)
Context (curView seqNum maxConcurrentAgreementsByPrimary : Z).

#[local] Abbreviation myId := (ReplicasInfo._myId info).
#[local] Abbreviation item := (@SeqNumInfo.t NumType).
#[local] Abbreviation currentPrimary := (ReplicasInfo.primaryOfView info curView).
#[local] Abbreviation peers := (ReplicasInfo._idsOfPeerReplicas info).

(** The item and the jobs that work for it. *)
Record world := mkW {
  sn : item;
  prepareJobs : list Collector.Job;
  commitJobs : list Collector.Job;
  proofJobs : list (@PartialProofsSet.Job NumType);
}.

Definition isCurrentPrimary : bool := currentPrimary =? myId.

(** Setting the item, with new jobs. *)
Definition with_item (w : world) (i : item) : world := mkW i (prepareJobs w) (commitJobs w) (proofJobs w).
Definition with_prepare (w : world) (i : item) (j : option Collector.Job) : world :=
  mkW i (option_list j ++ prepareJobs w) (commitJobs w) (proofJobs w).
Definition with_commit (w : world) (i : item) (js : list Collector.Job) : world :=
  mkW i (prepareJobs w) (js ++ commitJobs w) (proofJobs w).
Definition with_proofs (w : world) (p : @PartialProofsSet.t NumType) (j : option (@PartialProofsSet.Job NumType)) : world :=
  mkW (SeqNumInfo.set_proofs (sn w) p) (prepareJobs w) (commitJobs w) (option_list j ++ proofJobs w).

Definition commitFullCommitProof (now lastExecuted : Z) (w : world) : res (world * list Out) :=
  i ← SeqNumInfo.forceComplete now (sn w);
  Ok (with_item w i, [Execute (lastExecuted + maxConcurrentAgreementsByPrimary <? seqNum)]).

Definition commitAndSendFullCommitProof (now lastExecuted : Z) (w : world) (fcp : FullCommitProofMsg) : res (world * list Out) :=
  '(w, outs) ← commitFullCommitProof now lastExecuted w;
  Ok (w, SendToAllOthers (MFullCommitProof fcp) :: outs).

(** The own partial proof, made if there is none. *)
Definition getOrMakePartialProof (w : world) (pp : PrePrepare) : res (world * PartialCommitProofMsg) :=
  match PartialProofsSet.getSelfPartialCommitProof (SeqNumInfo.partialProofsSet (sn w)) with
  | Some part => Ok (w, part)
  | None =>
      let commitPath := pp_firstPath pp in
      assert! (negb (ReplicasInfo._cVal info =? 0) || negb (bool_decide (commitPath = FAST_WITH_THRESHOLD))) ;;
      let withThreshold := bool_decide (commitPath = FAST_WITH_THRESHOLD) && (0 <? ReplicasInfo._cVal info) in
      let tmpDigest := Digest.calcCombination (pp_digest pp) curView (pp_seq pp) in
      let part := PartialProofsSet.mkPart myId curView (pp_seq pp) commitPath (fastSign withThreshold tmpDigest) in
      '(p, j) ← PartialProofsSet.addSelfMsgAndPPDigest info parse verifyShare (SeqNumInfo.partialProofsSet (sn w)) part tmpDigest;
      Ok (with_proofs w p j, part)
  end.

Definition sendPartialProof (now lastExecuted : Z) (w : world) : res (world * list Out) :=
  match SeqNumInfo.getPrePrepareMsg (sn w) with
  | None => Ok (w, [])
  | Some pp =>
      '(w, outs) ←
        (if negb (PartialProofsSet.hasFullProof (SeqNumInfo.partialProofsSet (sn w))) then
           '(w, part) ← getOrMakePartialProof w pp;
           let w := with_proofs w (PartialProofsSet.setTimeOfSelfPartialProof (SeqNumInfo.partialProofsSet (sn w)) now) None in
           let routers := (ReplicasInfo.getCollectorsForPartialProofs info curView (pp_seq pp)).2 in
           Ok (w, if pp_seq pp <=? lastExecuted + MaxConcurrentFastPaths
                  then (fun r => Send (MPartialCommitProof part) r) <$> filter (fun r => r ≠ myId) routers else [])
         else Ok (w, []));
      match PartialProofsSet.getFullProof (SeqNumInfo.partialProofsSet (sn w)) with
      | Some fcp => '(w, outs') ← commitAndSendFullCommitProof now lastExecuted w fcp; Ok (w, outs ++ outs')
      | None => Ok (w, outs)
      end
  end.

Definition sendPreparePartial (w : world) : res (world * list Out) :=
  if bool_decide (SeqNumInfo.getSelfPreparePartialMsg info (sn w) = None) && SeqNumInfo.hasPrePrepareMsg (sn w) &&
     negb (SeqNumInfo.isPrepared (sn w))
  then
    match SeqNumInfo.getPrePrepareMsg (sn w) with
    | None => Err AssertFailed
    | Some pp =>
        let p := SeqNumInfo.mkShare myId curView (pp_seq pp) (slowSign (Digest.calcCombination (pp_digest pp) curView (pp_seq pp))) in
        '(i, j) ← SeqNumInfo.addSelfMsg_PreparePartial info order (sn w) p;
        Ok (with_prepare w i j, if negb isCurrentPrimary then [Send (MPreparePartial p) currentPrimary] else [])
    end
  else Ok (w, []).

Definition sendCommitPartial (now : Z) (w : world) : res (world * list Out) :=
  assert! (SeqNumInfo.isPrepared (sn w)) ;;
  match SeqNumInfo.getPrePrepareMsg (sn w) with
  | None => Err AssertFailed
  | Some pp =>
      assert! (pp_seq pp =? seqNum) ;;
      if SeqNumInfo.committedOrHasCommitPartialFromReplica (sn w) myId then Ok (w, [])
      else
        let d := digestOfDigest (pp_digest pp) in
        let c := SeqNumInfo.mkShare myId curView seqNum (slowSign (Digest.calcCombination d curView seqNum)) in
        '(i, js) ← SeqNumInfo.addSelfCommitPartialMsgAndDigest info order now (sn w) c d;
        Ok (with_commit w i js, if negb isCurrentPrimary then [Send (MCommitPartial c) currentPrimary] else [])
  end.

(** The end of [tryToSendPrePrepareMsg], with the new message. *)
Definition primarySends (now lastExecuted : Z) (w : world) (pp : PrePrepare) : res (world * list Out) :=
  let sent := (fun x => Send (MPrePrepare pp) x) <$> peers in
  '(i, j) ← SeqNumInfo.addSelfMsg_PrePrepare info order now (sn w) pp;
  let w := with_prepare w i j in
  '(w, outs) ← (if bool_decide (pp_firstPath pp = SLOW)
                then sendPreparePartial (with_item w (SeqNumInfo.startSlowPath (sn w)))
                else sendPartialProof now lastExecuted w);
  Ok (w, sent ++ outs).

Definition onPrePrepare (now lastExecuted : Z) (w : world) (m : PrePrepare) : res (world * list Out) :=
  if pp_sender m =? currentPrimary then
    '(added, i, j) ← SeqNumInfo.addMsg_PrePrepare info order now (sn w) m;
    let w := with_prepare w i j in
    if (added : bool) then
      if negb (bool_decide (pp_firstPath m = SLOW)) && negb (SeqNumInfo.slowPathStarted (sn w))
      then sendPartialProof now lastExecuted w
      else sendPreparePartial (with_item w (SeqNumInfo.startSlowPath (sn w)))
    else Ok (w, [])
  else Ok (w, []).

(** The body of the loop of [tryToStartSlowPaths]; [late]: enough time has passed since
    the own partial proof. *)
Definition tryToStartSlowPath (late : bool) (w : world) : res (world * list Out) :=
  let proofs := SeqNumInfo.partialProofsSet (sn w) in
  if PartialProofsSet.hasFullProof proofs || SeqNumInfo.slowPathStarted (sn w) ||
     bool_decide (PartialProofsSet.getSelfPartialCommitProof proofs = None) || negb (SeqNumInfo.hasPrePrepareMsg (sn w)) || negb late
  then Ok (w, [])
  else
    '(w, outs) ← sendPreparePartial (with_item w (SeqNumInfo.startSlowPath (sn w)));
    Ok (w, ((fun x => Send MStartSlowCommit x) <$> peers) ++ outs).

Definition onStartSlowCommit (w : world) : res (world * list Out) :=
  if negb (SeqNumInfo.slowPathStarted (sn w)) && negb (SeqNumInfo.isPrepared (sn w)) then
    let w := with_item w (SeqNumInfo.startSlowPath (sn w)) in
    if negb (SeqNumInfo.hasPrePrepareMsg (sn w)) then Ok (w, [TryToSendReqMissingDataMsg])
    else sendPreparePartial w
  else Ok (w, []).

Definition onPartialCommitProof (now lastExecuted : Z) (w : world) (m : PartialCommitProofMsg) : res (world * list Out) :=
  assert! (ReplicasInfo.isIdOfPeerReplica info (p_sender m)) ;;
  assert! (ReplicasInfo.isCollectorForPartialProofs info (p_view m) (p_seq m)) ;;
  if lastExecuted <? p_seq m then
    '(added, p, j) ← PartialProofsSet.addMsg_partial info parse verifyShare (SeqNumInfo.partialProofsSet (sn w)) m;
    let w := with_proofs w p j in
    match (if (added : bool) then PartialProofsSet.getFullProof p else None) with
    | Some fcp =>
        assert! (SeqNumInfo.hasPrePrepareMsg (sn w)) ;;
        commitAndSendFullCommitProof now lastExecuted w fcp
    | None => Ok (w, [])
    end
  else Ok (w, []).

Definition onFullCommitProof (now lastExecuted : Z) (w : world) (m : FullCommitProofMsg) : res (world * list Out) :=
  let proofs := SeqNumInfo.partialProofsSet (sn w) in
  if negb (PartialProofsSet.hasFullProof proofs) then
    let '(added, p) := PartialProofsSet.addMsg_full fastVerify proofs m in
    if added then
      let w := with_proofs w p None in
      assert! (SeqNumInfo.hasPrePrepareMsg (sn w)) ;;
      commitFullCommitProof now lastExecuted w
    else Ok (w, [])
  else Ok (w, []).

(** The internal message of an [AsynchProofCreationJob]. *)
Definition onInternalFullCommitProof (now lastExecuted : Z) (w : world) (m : FullCommitProofMsg) : res (world * list Out) :=
  '(w, outs) ← onFullCommitProof now lastExecuted w m; Ok (w, SendToAllOthers (MFullCommitProof m) :: outs).

(** The answer to a message of the slow path when its work is done already. *)
Definition answer (w : world) (withPrepare : bool) (dest : Z) : option (list Out) :=
  match PartialProofsSet.getFullProof (SeqNumInfo.partialProofsSet (sn w)) with
  | Some fcp => Some [Send (MFullCommitProof fcp) dest]
  | None =>
      match SeqNumInfo.getValidCommitFullMsg (sn w) with
      | Some commitFull => Some [Send (MCommitFull commitFull) dest]
      | None =>
          if withPrepare then
            match SeqNumInfo.getValidPrepareFullMsg (sn w) with
            | Some preFull => Some [Send (MPrepareFull preFull) dest]
            | None => None
            end
          else None
      end
  end.

Definition onPreparePartial (w : world) (m : Share) : res (world * list Out) :=
  assert! isCurrentPrimary ;;
  match answer w true (s_sender m) with
  | Some outs => Ok (w, outs)
  | None => '(_, i, j) ← SeqNumInfo.addMsg_PreparePartial info order (sn w) m; Ok (with_prepare w i j, [])
  end.

Definition onCommitPartial (now : Z) (w : world) (m : Share) : res (world * list Out) :=
  assert! isCurrentPrimary ;;
  match answer w false (s_sender m) with
  | Some outs => Ok (w, outs)
  | None => '(_, i, j) ← SeqNumInfo.addMsg_CommitPartial info order now (sn w) m; Ok (with_commit w i (option_list j), [])
  end.

(** Nothing is sent to the sender of a full message that is known. *)
Definition onPrepareFull (w : world) (m : Share) : res (world * list Out) :=
  match answer w false (s_sender m) with
  | Some outs => Ok (w, outs)
  | None =>
      if bool_decide (SeqNumInfo.getValidPrepareFullMsg (sn w) ≠ None) then Ok (w, [])
      else '(_, i, j) ← SeqNumInfo.addMsg_PrepareFull info order (sn w) m; Ok (with_prepare w i j, [])
  end.

Definition onCommitFull (now : Z) (w : world) (m : Share) : res (world * list Out) :=
  match PartialProofsSet.getFullProof (SeqNumInfo.partialProofsSet (sn w)) with
  | Some fcp => Ok (w, [Send (MFullCommitProof fcp) (s_sender m)])
  | None =>
      if bool_decide (SeqNumInfo.getValidCommitFullMsg (sn w) ≠ None) then Ok (w, [])
      else '(_, i, j) ← SeqNumInfo.addMsg_CommitFull info order now (sn w) m; Ok (with_commit w i (option_list j), [])
  end.

(** [onPrepareCombinedSigFailed], [onPrepareCombinedSigSucceeded] and
    [onPrepareVerifyCombinedSigResult]. *)
Definition onPrepareResult (now : Z) (w : world) (r : Collector.Result) : res (world * list Out) :=
  '(i, j) ← SeqNumInfo.onCompletionPrepare info order (sn w) r;
  let w := with_prepare w i j in
  let fcp := PartialProofsSet.getFullProof (SeqNumInfo.partialProofsSet (sn w)) in
  match r with
  | Collector.CombinedSigFailed _ _ _ => Ok (w, [])
  | Collector.CombinedSigSucceeded _ _ _ =>
      match SeqNumInfo.getValidPrepareFullMsg (sn w) with
      | None => Err AssertFailed
      | Some preFull =>
          if bool_decide (fcp ≠ None) then Ok (w, [])
          else
            assert! (SeqNumInfo.isPrepared (sn w)) ;;
            '(w, outs) ← sendCommitPartial now w;
            Ok (w, ((fun x => Send (MPrepareFull preFull) x) <$> peers) ++ outs)
      end
  | Collector.VerifyCombinedSigResult _ _ isValid =>
      if negb isValid then Ok (w, [])
      else if bool_decide (fcp ≠ None) then Ok (w, [])
      else assert! (SeqNumInfo.isPrepared (sn w)) ;; sendCommitPartial now w
  end.

(** [onCommitCombinedSigFailed], [onCommitCombinedSigSucceeded] and
    [onCommitVerifyCombinedSigResult]. *)
Definition onCommitResult (lastExecuted : Z) (w : world) (r : Collector.Result) : res (world * list Out) :=
  '(i, j) ← SeqNumInfo.onCompletionCommit info order (sn w) r;
  let w := with_commit w i (option_list j) in
  let execute := [Execute (lastExecuted + maxConcurrentAgreementsByPrimary <? seqNum)] in
  match r with
  | Collector.CombinedSigFailed _ _ _ => Ok (w, [])
  | Collector.CombinedSigSucceeded _ _ _ =>
      match SeqNumInfo.getValidCommitFullMsg (sn w) with
      | None => Err AssertFailed
      | Some commitFull =>
          if bool_decide (PartialProofsSet.getFullProof (SeqNumInfo.partialProofsSet (sn w)) ≠ None) then Ok (w, [])
          else
            assert! (SeqNumInfo.isCommitted__gg (sn w)) ;;
            Ok (w, ((fun x => Send (MCommitFull commitFull) x) <$> peers) ++ execute)
      end
  | Collector.VerifyCombinedSigResult _ _ isValid =>
      if negb isValid then Ok (w, [])
      else assert! (SeqNumInfo.isCommitted__gg (sn w)) ;; Ok (w, execute)
  end.
End defs.
End CommitProtocol.
