(* ===== verification/CommitProtocolSafety.v ===== *)
(** * Safety of the commit protocol of one sequence number

    The handlers of CommitProtocol as a transition system: the invariant, that no assertion
    of the handlers, of SeqNumInfo and of the collectors fails, and what being prepared and
    committed means. *)
From S2P Require Import Prelude SysConsts Digest ReplicasInfo ActiveWindow VectorOfShares Collector Accumulator Checkpoint CollectorExamples PartialProofsSet PartialExecProofsSet SeqNumInfo CommitProtocol.

Module CommitProtocolSafety.
Import CommitProtocol.
Import SeqNumInfo (PrePrepare, Share, pp_sender, pp_view, pp_seq, pp_digest, pp_firstPath, s_sender, s_view, s_seq, s_sig).
Import PartialProofsSet (PartialCommitProofMsg, FullCommitProofMsg, p_sender, p_view, p_seq, p_commitPath, p_sig, f_sig).

Section safety.
Context (info : ReplicasInfo.t).
Context {NumType : Type} (parse : list Z → Z * NumType) (verifyShare : Digest → Z → NumType → bool).
Context (order : gmap Z (@Collector.RepInfo Share) → list (Z * @Collector.RepInfo Share)).
Context (slowVerifier : Collector.Verifier) (slowSign : Digest → list Z).
Context (fastVerify : CommitPath → Digest → list Z → bool) (fastSign : bool → Digest → list Z).
Context (digestOfDigest : Digest → Digest).
Context (curView seqNum maxConcurrentAgreementsByPrimary : Z).
#[local] Abbreviation myId := (ReplicasInfo._myId info).
#[local] Abbreviation n := (ReplicasInfo._numberOfReplicas info).
#[local] Abbreviation world := (@CommitProtocol.world NumType).
#[local] Abbreviation currentPrimary := (ReplicasInfo.primaryOfView info curView).

(** A handler, with the time and [lastExecutedSeqNum]. *)
Inductive op :=
  | PrimarySends (now lastExecuted : Z) (pp : PrePrepare)
  | OnPrePrepare (now lastExecuted : Z) (pp : PrePrepare)
  | TryToStartSlowPath (late : bool)
  | OnStartSlowCommit
  | OnPartialCommitProof (now lastExecuted : Z) (m : PartialCommitProofMsg)
  | OnFullCommitProof (now lastExecuted : Z) (m : FullCommitProofMsg)
  | OnInternalFullCommitProof (now lastExecuted : Z) (m : FullCommitProofMsg)
  | OnPreparePartial (m : Share)
  | OnPrepareFull (m : Share)
  | OnCommitPartial (now : Z) (m : Share)
  | OnCommitFull (now : Z) (m : Share)
  | PrepareJobEnds (now : Z) (k : nat)
  | CommitJobEnds (lastExecuted : Z) (k : nat).

Definition handle (w : world) (o : op) : res (world * list Out) :=
  match o with
  | PrimarySends now le pp =>
      primarySends info parse verifyShare order slowSign fastSign curView seqNum maxConcurrentAgreementsByPrimary now le w pp
  | OnPrePrepare now le pp =>
      onPrePrepare info parse verifyShare order slowSign fastSign curView seqNum maxConcurrentAgreementsByPrimary now le w pp
  | TryToStartSlowPath late => tryToStartSlowPath info order slowSign curView late w
  | OnStartSlowCommit => onStartSlowCommit info order slowSign curView w
  | OnPartialCommitProof now le m => onPartialCommitProof info parse verifyShare seqNum maxConcurrentAgreementsByPrimary now le w m
  | OnFullCommitProof now le m => onFullCommitProof fastVerify seqNum maxConcurrentAgreementsByPrimary now le w m
  | OnInternalFullCommitProof now le m => onInternalFullCommitProof fastVerify seqNum maxConcurrentAgreementsByPrimary now le w m
  | OnPreparePartial m => onPreparePartial info order curView w m
  | OnPrepareFull m => onPrepareFull info order w m
  | OnCommitPartial now m => onCommitPartial info order curView now w m
  | OnCommitFull now m => onCommitFull info order now w m
  | PrepareJobEnds now k =>
      match prepareJobs w !! k with
      | None => Ok (w, [])
      | Some j =>
          r ← Collector.execute slowVerifier j;
          onPrepareResult info order slowSign digestOfDigest curView seqNum now
            (mkW (sn w) (delete k (prepareJobs w)) (commitJobs w) (proofJobs w)) r
      end
  | CommitJobEnds le k =>
      match commitJobs w !! k with
      | None => Ok (w, [])
      | Some j =>
          r ← Collector.execute slowVerifier j;
          onCommitResult info order seqNum maxConcurrentAgreementsByPrimary le
            (mkW (sn w) (prepareJobs w) (delete k (commitJobs w)) (proofJobs w)) r
      end
  end.

Definition exec (w : world) (o : op) : res world := fst <$> handle w o.

Context `{VS : !Collector.VerifierSpec slowVerifier (SeqNumInfo.numberOfRequiredSignatures info)}.

(** The fast path of a PrePrepare message exists. *)
Definition pp_ok (pp : PrePrepare) : Prop :=
  pp_seq pp = seqNum ∧ pp_view pp = curView ∧ (pp_firstPath pp = FAST_WITH_THRESHOLD → ReplicasInfo._cVal info ≠ 0).

Definition from_peer (id : Z) : Prop := 0 <= id < n ∧ id ≠ myId.

(** What the handlers are assumed to get.  The validation of messages and the callers establish
    that messages are for this view and sequence number and from peers, that the primary
    uses a sequence number once and that shares are sent to a collector.  That a share names an
    existing signer ([share_wf]) is an assumption: the validation looks at the sender and the
    sizes, not into the share, and a share with another signer fails an assertion of the
    accumulator ([Accumulator.foreign_signer_fails_job], [PartialProofsSet.foreign_signer_fails_handler]). *)
Definition op_pre (w : world) (o : op) : Prop :=
  match o with
  | PrimarySends _ _ pp => pp_ok pp ∧ myId = currentPrimary ∧ SeqNumInfo.prePrepareMsg (sn w) = None
  | OnPrePrepare _ _ pp => pp_ok pp ∧ from_peer (pp_sender pp)
  | OnPartialCommitProof _ _ m => p_seq m = seqNum ∧ from_peer (p_sender m) ∧ PartialProofsSet.share_wf info parse (p_sig m) ∧
      ReplicasInfo.isCollectorForPartialProofs info (p_view m) (p_seq m) = true
  | OnPreparePartial m | OnCommitPartial _ m => myId = currentPrimary ∧ from_peer (s_sender m) ∧ Collector.share_wf (s_sig m)
  | OnPrepareFull m | OnCommitFull _ m => from_peer (s_sender m)
  | _ => True
  end.

Definition start : world := mkW SeqNumInfo.init [] [] [].
Definition reachable : world → Prop := Prelude.reachable exec op_pre start.

(** ** The invariant *)
Context (Hinfo : ReplicasInfo.wf info).
Context (Hmax : n <= VectorOfShares.MAX_NUM_OF_SHARES).
Context (order_perm : ∀ m, order m ≡ₚ map_to_list m).
Context (Hseq : seqNum ≠ 0).
Context (slowSign_wf : ∀ d, Collector.share_wf (slowSign d)).
Context (fastSign_wf : ∀ b d, PartialProofsSet.share_wf info parse (fastSign b d)).
#[local] Abbreviation cinv c js :=
  (Collector.inv (EF := SeqNumInfo.exFunc info) (VS := VS) slowVerifier n (Collector.mkW c js)).
#[local] Abbreviation key := (seqNum, curView).
#[local] Abbreviation prep w := (SeqNumInfo.prepareSigCollector (sn w)).
#[local] Abbreviation comm w := (SeqNumInfo.commitMsgsCollector (sn w)).
#[local] Abbreviation proofs w := (SeqNumInfo.partialProofsSet (sn w)).

Definition ppDigest (pp : PrePrepare) : Digest := Digest.calcCombination (pp_digest pp) curView seqNum.
Definition commitDigest (pp : PrePrepare) : Digest := Digest.calcCombination (digestOfDigest (pp_digest pp)) curView seqNum.

Record inv (w : world) : Prop := {
  inv_prep : cinv (prep w) (prepareJobs w);
  inv_comm : cinv (comm w) (commitJobs w);
  inv_proofs : PartialProofsSet.inv info fastVerify (PartialProofsSet.mkW (proofs w) (proofJobs w));
  inv_prep_keys : Forall (fun j => Collector.job_key j = Collector.expected (prep w)) (prepareJobs w);
  inv_comm_keys : Forall (fun j => Collector.job_key j = Collector.expected (comm w)) (commitJobs w);
  inv_pp : match SeqNumInfo.prePrepareMsg (sn w) with
    | None => Collector.expectedSeqNumber (prep w) = 0 ∧ SeqNumInfo.primary (sn w) = false ∧
        Collector.replicasInfo (prep w) !! myId = None ∧ PartialProofsSet.selfPartialCommitProof (proofs w) = None
    | Some pp => pp_ok pp ∧ Collector.expected (prep w) = key ∧ Collector.expectedDigest (prep w) = ppDigest pp
    end;
  inv_self m : PartialProofsSet.selfPartialCommitProof (proofs w) = Some m →
    p_seq m = seqNum ∧ p_view m = curView ∧
    ∃ pp, SeqNumInfo.prePrepareMsg (sn w) = Some pp ∧ PartialProofsSet.expectedDigest (proofs w) = ppDigest pp;
  inv_forced : SeqNumInfo.forcedCompleted (sn w) = PartialProofsSet.hasFullProof (proofs w);
  inv_commit : Collector.expectedSeqNumber (comm w) ≠ 0 →
    Collector.expected (comm w) = key ∧ is_Some (Collector.replicasInfo (comm w) !! myId) ∧
    SeqNumInfo.isPrepared (sn w) = true ∧
    ∃ pp, SeqNumInfo.prePrepareMsg (sn w) = Some pp ∧ Collector.expectedDigest (comm w) = commitDigest pp;
  inv_own : is_Some (Collector.replicasInfo (comm w) !! myId) → Collector.expectedSeqNumber (comm w) ≠ 0;
}.

Lemma required_ok : 1 <= SeqNumInfo.numberOfRequiredSignatures info < 65536.
Proof. destruct Hinfo. unfold SeqNumInfo.numberOfRequiredSignatures. rewrite u16_small; lia. Qed.

Lemma n_ok : 0 <= n < 65536.
Proof. destruct Hinfo. unfold VectorOfShares.MAX_NUM_OF_SHARES in Hmax. lia. Qed.

Lemma create_ok : ∀ sq v sig, Collector.full_signature (ExternalFunc := SeqNumInfo.exFunc info)
  (Collector.createCombinedSignatureMsg (ExternalFunc := SeqNumInfo.exFunc info) sq v sig) = sig.
Proof. done. Qed.

#[local] Abbreviation c_addPartial := (Collector.col_addPartial_post (EF := SeqNumInfo.exFunc info) slowVerifier order n n_ok required_ok order_perm).
#[local] Abbreviation c_addCombined := (Collector.addCombined_post (EF := SeqNumInfo.exFunc info) slowVerifier order n n_ok required_ok order_perm).
#[local] Abbreviation c_setExpected := (Collector.setExpected_post (EF := SeqNumInfo.exFunc info) slowVerifier order n n_ok required_ok order_perm).
#[local] Abbreviation c_complete := (Collector.complete_post (EF := SeqNumInfo.exFunc info) slowVerifier order n n_ok required_ok order_perm create_ok).
#[local] Abbreviation outcome := (Collector.outcome (EF := SeqNumInfo.exFunc info) (VS := VS) slowVerifier n).

Lemma start_inv : inv start.
Proof.
  constructor; cbn; try done.
  - apply Collector.col_ctor_inv.
  - apply Collector.col_ctor_inv.
  - by apply PartialProofsSet.pps_empty_inv.
  - intros [? ?]. done.
Qed.

(** ** Steps of one part of the item *)
Lemma job_keys js c c' oj : Forall (fun j => Collector.job_key j = Collector.expected c) js → outcome c js c' oj →
  Forall (fun j => Collector.job_key j = Collector.expected c') (option_list oj ++ js).
Proof.
  intros Hk [_ He _ Hoj]. rewrite He. apply Forall_app. split; [|done].
  destruct oj as [j|]; cbn [option_list]; [|constructor]. constructor; [by apply Hoj|constructor].
Qed.

Lemma isPrepared_mono (i : @SeqNumInfo.t NumType) c : (Collector.isComplete (SeqNumInfo.prepareSigCollector i) = true → Collector.isComplete c = true) →
  SeqNumInfo.isPrepared i = true → SeqNumInfo.isPrepared (SeqNumInfo.set_prepare i c) = true.
Proof.
  unfold SeqNumInfo.isPrepared. cbn. intros Hc [->|[-> H]%andb_true_iff]%orb_true_iff; [done|].
  rewrite (Hc H). by rewrite orb_true_r.
Qed.

(** The prepare collector. *)
Lemma prep_step w c js oj : inv w → outcome (prep w) js c oj →
  Forall (fun j => Collector.job_key j = Collector.expected (prep w)) js →
  (SeqNumInfo.prePrepareMsg (sn w) = None → Collector.replicasInfo c !! myId = None) →
  (Collector.isComplete (prep w) = true → Collector.isComplete c = true) →
  inv (mkW (SeqNumInfo.set_prepare (sn w) c) (option_list oj ++ js) (commitJobs w) (proofJobs w)).
Proof.
  intros [] Hout Hk Hmy Hc. pose proof (Collector.out_expected _ _ _ _ _ _ Hout) as He. constructor; cbn; try done.
  - apply Hout.
  - by apply (job_keys js (prep w)).
  - destruct (SeqNumInfo.prePrepareMsg (sn w)) as [pp|].
    + rewrite (Collector.out_digest _ _ _ _ _ _ Hout), He. done.
    + injection He as He _. rewrite He. destruct inv_pp0 as (? & ? & _ & ?). split_and!; auto.
  - intros Hne. destruct (inv_commit0 Hne) as (? & ? & ? & ?). split_and!; try done. by apply isPrepared_mono.
Qed.

(** The commit collector. *)
Lemma comm_step w c js oj tm : inv w → outcome (comm w) js c oj →
  Forall (fun j => Collector.job_key j = Collector.expected (comm w)) js →
  (is_Some (Collector.replicasInfo (comm w) !! myId) ↔ is_Some (Collector.replicasInfo c !! myId)) →
  inv (mkW (SeqNumInfo.set_commit (sn w) c tm) (prepareJobs w) (option_list oj ++ js) (proofJobs w)).
Proof.
  intros [] Hout Hk Hmy. pose proof (Collector.out_expected _ _ _ _ _ _ Hout) as He. constructor; cbn; try done.
  - apply Hout.
  - by apply (job_keys js (comm w)).
  - rewrite He. pose proof He as He'. injection He' as -> _. intros Hne. destruct (inv_commit0 Hne) as (? & ? & ? & ?).
    rewrite (Collector.out_digest _ _ _ _ _ _ Hout). split_and!; try done. by apply Hmy.
  - injection He as -> _. rewrite <- Hmy. done.
Qed.

(** The partial proofs. *)
Lemma proofs_step w p js : inv w → PartialProofsSet.inv info fastVerify (PartialProofsSet.mkW p js) →
  PartialProofsSet.fullCommitProof p = PartialProofsSet.fullCommitProof (proofs w) →
  (∀ m, PartialProofsSet.selfPartialCommitProof p = Some m → p_seq m = seqNum ∧ p_view m = curView ∧
    ∃ pp, SeqNumInfo.prePrepareMsg (sn w) = Some pp ∧ PartialProofsSet.expectedDigest p = ppDigest pp) →
  inv (mkW (SeqNumInfo.set_proofs (sn w) p) (prepareJobs w) (commitJobs w) js).
Proof.
  intros [] Hp Hf Hself. constructor; cbn; try done.
  - destruct (SeqNumInfo.prePrepareMsg (sn w)) as [pp|]; [done|]. destruct inv_pp0 as (? & ? & ? & _). split_and!; try done.
    destruct (PartialProofsSet.selfPartialCommitProof p) as [m|]; [|done]. by destruct (Hself m eq_refl) as (_ & _ & pp & ? & _).
  - unfold PartialProofsSet.hasFullProof in *. by rewrite Hf.
Qed.

Lemma startSlow_step w : inv w → inv (with_item w (SeqNumInfo.startSlowPath (sn w))).
Proof. intros []. by constructor. Qed.

(** ** The handlers *)

(** A handler returns and keeps the invariant. *)
Definition safe (r : res (world * list Out)) : Prop := ∃ w' outs, r = Ok (w', outs) ∧ inv w'.

Lemma safe_ok w outs : inv w → safe (Ok (w, outs)).
Proof. intros H. by exists w, outs. Qed.

Lemma safe_bind r f : safe r → (∀ w' outs, inv w' → safe (f (w', outs))) → safe (r ≫= f).
Proof. intros (w' & outs & -> & H) Hf. by apply Hf. Qed.

Lemma safe_outs r g : safe r → safe ('(w, outs) ← r; Ok (w, g outs)).
Proof. intros H. apply (safe_bind _ _ H). intros w' outs Hw. by apply safe_ok. Qed.

Lemma not_forced w : inv w → PartialProofsSet.getFullProof (proofs w) = None → SeqNumInfo.forcedCompleted (sn w) = false.
Proof. intros Hw Hf. rewrite (inv_forced w Hw). unfold PartialProofsSet.hasFullProof, PartialProofsSet.getFullProof in *. by rewrite Hf. Qed.

Lemma no_full_without_self w : inv w → PartialProofsSet.selfPartialCommitProof (proofs w) = None → PartialProofsSet.fullCommitProof (proofs w) = None.
Proof.
  intros Hw Hs. pose proof (PartialProofsSet.inv_self _ _ _ (inv_proofs w Hw)) as H. cbn in H. rewrite Hs in H. apply H.
Qed.

(** A PrePrepare message of this sequence number and view. *)
Lemma setPrePrepare_post now w pp prim : inv w → pp_ok pp → SeqNumInfo.prePrepareMsg (sn w) = None →
  ∃ i j, SeqNumInfo.setPrePrepare info order now (sn w) pp prim = Ok (i, j) ∧ inv (with_prepare w i j) ∧
    SeqNumInfo.prePrepareMsg i = Some pp ∧ SeqNumInfo.partialProofsSet i = proofs w ∧
    SeqNumInfo.forcedCompleted i = false ∧ SeqNumInfo.isPrepared i = false ∧
    Collector.replicasInfo (SeqNumInfo.prepareSigCollector i) !! myId = None.
Proof.
  intros Hw (Hsq & Hv & Hpath) Hnone. pose proof (inv_pp w Hw) as Hpp. rewrite Hnone in Hpp. destruct Hpp as (Hexp & Hprim & Hmy & Hself).
  pose proof (no_full_without_self w Hw Hself) as Hfull. pose proof (not_forced w Hw Hfull) as Hforced.
  unfold SeqNumInfo.setPrePrepare. rewrite Hsq, Hv. cbv zeta. fold (ppDigest pp).
  pose proof (Collector.waiting_no_jobs slowVerifier n _ _ (inv_prep w Hw) Hexp (inv_prep_keys w Hw)) as Hjobs.
  destruct (c_setExpected (prep w) (prepareJobs w) seqNum curView (ppDigest pp) (inv_prep w Hw)) as (c & j & -> & Hc & He & Hd & Hinfos & Hvalid & Hk).
  { split_and!; [done|done|]. cbn. rewrite Hjobs. constructor. }
  assert (Hv0 : Collector.combinedValidSignatureMsg (prep w) = None).
  { destruct (Collector.combinedValidSignatureMsg (prep w)) as [m|] eqn:E; [|done].
    by destruct (Collector.valid_post (EF := SeqNumInfo.exFunc info) slowVerifier n _ _ m (inv_prep w Hw) E). }
  cbn [mbind res_bind]. do 2 eexists. split; [done|]. cbn. split_and!; try done.
  - destruct Hw. constructor; cbn; try done.
    + rewrite He, Hjobs, app_nil_r. destruct j as [j|]; cbn; [|constructor]. constructor; [by apply Hk|constructor].
    + intros m Hm. congruence.
    + intros Hne. destruct (inv_commit0 Hne) as (_ & _ & _ & pp' & ? & _). congruence.
  - unfold SeqNumInfo.isPrepared. cbn. unfold Collector.isComplete. by rewrite Hforced, Hvalid, Hv0.
  - by rewrite Hinfos.
Qed.

Lemma sendPreparePartial_safe w : inv w → PartialProofsSet.getFullProof (proofs w) = None → safe (sendPreparePartial info order slowSign curView w).
Proof.
  intros Hw Hf. unfold sendPreparePartial. destruct (_ && _) eqn:Hb; [|by apply safe_ok].
  unfold SeqNumInfo.hasPrePrepareMsg, SeqNumInfo.getSelfPreparePartialMsg, Collector.getPartialMsgFromReplica, SeqNumInfo.getPrePrepareMsg in *.
  bool_to_prop. destruct (SeqNumInfo.prePrepareMsg (sn w)) as [pp|] eqn:Epp; [|done].
  pose proof (not_forced w Hw Hf) as Hforced. unfold SeqNumInfo.addSelfMsg_PreparePartial. cbn [s_sender].
  rewrite Z.eqb_refl, Hforced. cbn [negb Assert mbind res_bind].
  set (m := SeqNumInfo.mkShare _ _ _ _). destruct (c_addPartial (prep w) (prepareJobs w) m myId (inv_prep w Hw)) as (b & c & oj & Ha & Hout & Hval & -> & Hri).
  { destruct Hinfo. lia. } { apply slowSign_wf. }
  rewrite Ha. cbn [mbind res_bind].
  assert (Collector.combinedValidSignatureMsg (prep w) = None) as Hnone.
  { destruct (Collector.combinedValidSignatureMsg (prep w)) eqn:E; [|done]. exfalso.
    unfold SeqNumInfo.isPrepared, Collector.isComplete in *. rewrite Epp, E in *. by rewrite orb_true_r in *. }
  assert (Collector.replicasInfo (prep w) !! myId = None) as Hmy by (by destruct (Collector.replicasInfo (prep w) !! myId)).
  rewrite Hnone, Hmy, !bool_decide_eq_true_2 by done. cbn [andb Assert mbind res_bind]. apply safe_ok.
  apply (prep_step w c (prepareJobs w) oj Hw Hout (inv_prep_keys w Hw)); [congruence|].
  unfold Collector.isComplete. by rewrite Hval.
Qed.

(** The own partial proof. *)
Lemma getOrMake_post w pp : inv w → SeqNumInfo.prePrepareMsg (sn w) = Some pp →
  ∃ w' part, getOrMakePartialProof info parse verifyShare fastSign curView w pp = Ok (w', part) ∧ inv w' ∧
    SeqNumInfo.prePrepareMsg (sn w') = Some pp ∧
    PartialProofsSet.fullCommitProof (proofs w') = PartialProofsSet.fullCommitProof (proofs w).
Proof.
  intros Hw Hpp. unfold getOrMakePartialProof, PartialProofsSet.getSelfPartialCommitProof.
  destruct (PartialProofsSet.selfPartialCommitProof (proofs w)) as [part|] eqn:Es; [by exists w, part|].
  pose proof (inv_pp w Hw) as Hok. rewrite Hpp in Hok. destruct Hok as ((Hsq & Hv & Hpath) & _ & _).
  assert (negb (ReplicasInfo._cVal info =? 0) || negb (bool_decide (pp_firstPath pp = FAST_WITH_THRESHOLD)) = true) as ->.
  { destruct (decide (pp_firstPath pp = FAST_WITH_THRESHOLD)) as [E|E]; [|by rewrite (bool_decide_eq_false_2 _ E), orb_true_r].
    rewrite (proj2 (Z.eqb_neq _ _) (Hpath E)). done. }
  cbn [Assert mbind res_bind]. cbv zeta. rewrite Hsq. fold (ppDigest pp). set (part := PartialProofsSet.mkPart _ _ _ _ _).
  destruct (PartialProofsSet.addSelf_post info parse verifyShare fastVerify Hinfo Hmax (proofs w) (proofJobs w) part (ppDigest pp) (inv_proofs w Hw))
    as (p & oj & -> & Hp & Hself & Hd & Hf); [split_and!; try done; apply fastSign_wf|].
  cbn [mbind res_bind]. do 2 eexists. split; [done|]. split_and!; [|done|done].
  apply (proofs_step w p _ Hw Hp Hf). intros m Hm. rewrite Hself in Hm. injection Hm as <-. split_and!; [done|done|]. by exists pp.
Qed.

Lemma sendPartialProof_safe now le w : inv w → PartialProofsSet.fullCommitProof (proofs w) = None →
  safe (sendPartialProof info parse verifyShare fastSign curView seqNum maxConcurrentAgreementsByPrimary now le w).
Proof.
  intros Hw Hf. unfold sendPartialProof, SeqNumInfo.getPrePrepareMsg.
  destruct (SeqNumInfo.prePrepareMsg (sn w)) as [pp|] eqn:Epp; [|by apply safe_ok].
  assert (PartialProofsSet.hasFullProof (proofs w) = false) as -> by (unfold PartialProofsSet.hasFullProof; by rewrite Hf).
  cbn [negb]. destruct (getOrMake_post w pp Hw Epp) as (w' & part & -> & Hw' & Hpp' & Hf'). cbn [mbind res_bind]. cbv zeta.
  unfold PartialProofsSet.getFullProof. cbn. rewrite Hf', Hf. apply safe_ok.
  apply (proofs_step w' _ (proofJobs w') Hw'); [by apply PartialProofsSet.setTime_inv, inv_proofs|done|exact (inv_self w' Hw')].
Qed.

(** The start of the protocol. *)
Lemma primarySends_safe now le w pp : inv w → op_pre w (PrimarySends now le pp) → safe (handle w (PrimarySends now le pp)).
Proof.
  intros Hw (Hok & Hprim & Hnone). cbn [handle]. unfold primarySends, SeqNumInfo.addSelfMsg_PrePrepare.
  pose proof (inv_pp w Hw) as Hpp. rewrite Hnone in Hpp. destruct Hpp as (_ & -> & _ & Hself).
  pose proof (no_full_without_self w Hw Hself) as Hfull. rewrite (not_forced w Hw Hfull), Hnone.
  pose proof Hok as (_ & Hview & _). rewrite Hview, <- Hprim, Z.eqb_refl. cbn [negb Assert mbind res_bind].
  rewrite (bool_decide_eq_true_2 (None = None)) by done. cbn [Assert mbind res_bind].
  destruct (setPrePrepare_post now w pp true Hw Hok Hnone) as (i & j & -> & Hw' & Hpp' & Hpr & _). cbn [mbind res_bind].
  apply (safe_outs _ (fun outs => _ ++ outs)). destruct (bool_decide _).
  - apply sendPreparePartial_safe; [by apply startSlow_step|]. cbn. unfold PartialProofsSet.getFullProof. by rewrite Hpr.
  - apply sendPartialProof_safe; [done|]. cbn. by rewrite Hpr.
Qed.

Lemma onPrePrepare_safe now le w pp : inv w → op_pre w (OnPrePrepare now le pp) → safe (handle w (OnPrePrepare now le pp)).
Proof.
  intros Hw (Hok & Hpeer). cbn [handle]. unfold onPrePrepare. destruct (_ =? _); [|by apply safe_ok].
  unfold SeqNumInfo.addMsg_PrePrepare. destruct (SeqNumInfo.prePrepareMsg (sn w)) as [pp0|] eqn:Epp.
  { rewrite (bool_decide_eq_true_2 (Some pp0 ≠ None)) by done. cbn [mbind res_bind]. apply safe_ok. by destruct w. }
  rewrite (bool_decide_eq_false_2 (None ≠ None)) by auto.
  pose proof (inv_pp w Hw) as Hpp. rewrite Epp in Hpp. destruct Hpp as (_ & Hprim & Hmy & Hself).
  pose proof (no_full_without_self w Hw Hself) as Hfull. unfold Collector.hasPartialMsgFromReplica.
  rewrite (not_forced w Hw Hfull), Hprim, Hmy, (bool_decide_eq_false_2 (is_Some None)) by (intros [? ?]; done).
  cbn [negb Assert mbind res_bind].
  destruct (setPrePrepare_post now w pp false Hw Hok Epp) as (i & j & -> & Hw' & Hpp' & Hpr & _). cbn [mbind res_bind]. cbv zeta.
  destruct (_ && _).
  - apply sendPartialProof_safe; [done|]. cbn. by rewrite Hpr.
  - apply sendPreparePartial_safe; [by apply startSlow_step|]. cbn. unfold PartialProofsSet.getFullProof. by rewrite Hpr.
Qed.

Lemma hasFull_false (p : @PartialProofsSet.t NumType) : PartialProofsSet.hasFullProof p = false → PartialProofsSet.fullCommitProof p = None.
Proof. unfold PartialProofsSet.hasFullProof. by destruct (PartialProofsSet.fullCommitProof p). Qed.

Lemma tryToStartSlowPath_safe late w : inv w → safe (handle w (TryToStartSlowPath late)).
Proof.
  intros Hw. cbn [handle]. unfold tryToStartSlowPath. destruct (_ || _) eqn:E; [by apply safe_ok|].
  repeat (apply orb_false_iff in E as [E ?]). apply (safe_outs _ (fun outs => _ ++ outs)), sendPreparePartial_safe; [by apply startSlow_step|].
  by apply hasFull_false.
Qed.

Lemma onStartSlowCommit_safe w : inv w → safe (handle w OnStartSlowCommit).
Proof.
  intros Hw. cbn [handle]. unfold onStartSlowCommit. destruct (_ && _) eqn:E; [|by apply safe_ok].
  apply andb_true_iff in E as [_ E%negb_true_iff]. cbv zeta. pose proof (startSlow_step w Hw) as Hw'.
  destruct (negb _); [by apply safe_ok|]. apply sendPreparePartial_safe; [done|]. apply hasFull_false. cbn.
  rewrite <- (inv_forced w Hw). unfold SeqNumInfo.isPrepared in E. by apply orb_false_iff in E as [? _].
Qed.

(** The fast path. *)
Lemma commitFull_safe now le w p js m :
  inv w → PartialProofsSet.addMsg_full fastVerify (proofs w) m = (true, p) → js = proofJobs w →
  safe (commitFullCommitProof seqNum maxConcurrentAgreementsByPrimary now le (mkW (SeqNumInfo.set_proofs (sn w) p) (prepareJobs w) (commitJobs w) js)).
Proof.
  intros Hw Hp ->. destruct (PartialProofsSet.addFull_frame _ _ _ _ Hp) as (-> & Hf & [self Hself]).
  pose proof (PartialProofsSet.addFull_inv info fastVerify _ m (inv_proofs w Hw)) as Hpi. cbn in Hpi. rewrite Hp in Hpi. cbn in Hpi.
  destruct (inv_self w Hw self Hself) as (_ & _ & pp & Hpp & _).
  unfold commitFullCommitProof, SeqNumInfo.forceComplete, SeqNumInfo.hasPrePrepareMsg, PartialProofsSet.hasFullProof. cbn.
  rewrite (not_forced w Hw Hf), Hpp. cbn. apply safe_ok. destruct Hw. constructor; cbn; try done.
  - by rewrite Hpp in *.
  - intros m' Hm'. by rewrite Hpp in *; apply inv_self0.
  - intros Hne. destruct (inv_commit0 Hne) as (? & ? & ? & ?). split_and!; try done. by rewrite Hpp in *.
Qed.

Lemma onFullCommitProof_safe now le w m : inv w → safe (handle w (OnFullCommitProof now le m)).
Proof.
  intros Hw. cbn [handle]. unfold onFullCommitProof. destruct (negb _); [|by apply safe_ok].
  destruct (PartialProofsSet.addMsg_full fastVerify (proofs w) m) as [[] p] eqn:Ea; [|by apply safe_ok].
  cbv zeta. unfold SeqNumInfo.hasPrePrepareMsg. cbn [with_proofs sn SeqNumInfo.set_proofs SeqNumInfo.prePrepareMsg].
  destruct (PartialProofsSet.addFull_frame _ _ _ _ Ea) as (_ & _ & [self Hself]).
  destruct (inv_self w Hw self Hself) as (_ & _ & pp & -> & _). rewrite bool_decide_eq_true_2 by done. cbn [Assert mbind res_bind].
  by apply (commitFull_safe now le w p _ m).
Qed.

Lemma onPartialCommitProof_safe now le w m : inv w → op_pre w (OnPartialCommitProof now le m) → safe (handle w (OnPartialCommitProof now le m)).
Proof.
  intros Hw (Hsq & [Hid Hne] & Hwf & Hcol). cbn [handle]. unfold onPartialCommitProof, ReplicasInfo.isIdOfPeerReplica.
  rewrite Hcol. assert ((p_sender m <? n) && negb (p_sender m =? myId) = true) as -> by lia. cbn [Assert mbind res_bind]. destruct (_ <? _); [|by apply safe_ok].
  destruct (PartialProofsSet.pps_addPartial_post info parse verifyShare fastVerify Hinfo Hmax (proofs w) (proofJobs w) m (inv_proofs w Hw))
    as (b & p & oj & -> & Hp & Hself & Hd & Hf & Hb).
  { split_and!; try done; try lia. pose proof (PartialProofsSet.inv_self _ _ _ (inv_proofs w Hw)) as H. cbn in *.
    destruct (PartialProofsSet.selfPartialCommitProof (proofs w)) as [self|] eqn:E; [right|left; apply H].
    destruct H as (-> & _). rewrite Hsq. by destruct (inv_self w Hw self E) as (-> & _). }
  cbn [mbind res_bind]. cbv zeta. unfold PartialProofsSet.getFullProof.
  assert ((if b then PartialProofsSet.fullCommitProof p else None) = None) as -> by (destruct b; [rewrite Hf; auto|done]).
  apply safe_ok. apply (proofs_step w p _ Hw Hp Hf). rewrite Hself, Hd. exact (inv_self w Hw).
Qed.

(** The slow path. *)
Lemma answer_none (w : world) b dest : answer w b dest = None → PartialProofsSet.getFullProof (proofs w) = None.
Proof. unfold answer. by destruct (PartialProofsSet.getFullProof _). Qed.

Lemma sender_neq id : from_peer id → (myId =? id) = false.
Proof. intros [_ H]. apply Z.eqb_neq. congruence. Qed.

Lemma onPreparePartial_safe w m : inv w → op_pre w (OnPreparePartial m) → safe (handle w (OnPreparePartial m)).
Proof.
  intros Hw (Hprim & Hpeer & Hwf). cbn [handle]. unfold onPreparePartial, isCurrentPrimary. rewrite <- Hprim, Z.eqb_refl. cbn [Assert mbind res_bind].
  destruct (answer w true (s_sender m)) as [outs|] eqn:Ea; [by apply safe_ok|]. apply answer_none in Ea.
  unfold SeqNumInfo.addMsg_PreparePartial. rewrite (sender_neq _ Hpeer), (not_forced w Hw Ea). cbn [negb Assert mbind res_bind].
  destruct Hpeer as [Hid Hne].
  destruct (c_addPartial (prep w) (prepareJobs w) m (s_sender m) (inv_prep w Hw) Hid Hwf) as (b & c & oj & -> & Hout & Hval & _ & Hri).
  cbn [mbind res_bind]. apply safe_ok. apply (prep_step w c (prepareJobs w) oj Hw Hout (inv_prep_keys w Hw)).
  - intros Hnone. pose proof (inv_pp w Hw) as Hpp. rewrite Hnone in Hpp. rewrite Hri. destruct b; [|apply Hpp].
    rewrite lookup_insert_ne by done. apply Hpp.
  - unfold Collector.isComplete. by rewrite Hval.
Qed.

Lemma onPrepareFull_safe w m : inv w → op_pre w (OnPrepareFull m) → safe (handle w (OnPrepareFull m)).
Proof.
  intros Hw Hpeer. cbn [handle]. unfold onPrepareFull. destruct (answer w false (s_sender m)) as [outs|] eqn:Ea; [by apply safe_ok|].
  apply answer_none in Ea. destruct (bool_decide _); [by apply safe_ok|].
  unfold SeqNumInfo.addMsg_PrepareFull. rewrite (sender_neq _ Hpeer), (not_forced w Hw Ea). cbn [negb Assert mbind res_bind].
  destruct (c_addCombined (prep w) (prepareJobs w) m (inv_prep w Hw)) as (b & c & oj & -> & Hout & Hval & Hri).
  cbn [mbind res_bind]. apply safe_ok. apply (prep_step w c (prepareJobs w) oj Hw Hout (inv_prep_keys w Hw)).
  - intros Hnone. pose proof (inv_pp w Hw) as Hpp. rewrite Hnone in Hpp. rewrite Hri. apply Hpp.
  - unfold Collector.isComplete. by rewrite Hval.
Qed.

Lemma onCommitPartial_safe now w m : inv w → op_pre w (OnCommitPartial now m) → safe (handle w (OnCommitPartial now m)).
Proof.
  intros Hw (Hprim & Hpeer & Hwf). cbn [handle]. unfold onCommitPartial, isCurrentPrimary. rewrite <- Hprim, Z.eqb_refl. cbn [Assert mbind res_bind].
  destruct (answer w false (s_sender m)) as [outs|] eqn:Ea; [by apply safe_ok|]. apply answer_none in Ea.
  unfold SeqNumInfo.addMsg_CommitPartial. rewrite (sender_neq _ Hpeer), (not_forced w Hw Ea). cbn [negb Assert mbind res_bind].
  destruct Hpeer as [Hid Hne].
  destruct (c_addPartial (comm w) (commitJobs w) m (s_sender m) (inv_comm w Hw) Hid Hwf) as (b & c & oj & -> & Hout & Hval & _ & Hri).
  cbn [mbind res_bind]. apply safe_ok. apply (comm_step w c (commitJobs w) oj _ Hw Hout (inv_comm_keys w Hw)).
  rewrite Hri. destruct b; [|done]. by rewrite lookup_insert_ne by done.
Qed.

Lemma onCommitFull_safe now w m : inv w → op_pre w (OnCommitFull now m) → safe (handle w (OnCommitFull now m)).
Proof.
  intros Hw Hpeer. cbn [handle]. unfold onCommitFull. destruct (PartialProofsSet.getFullProof (proofs w)) eqn:Ea; [by apply safe_ok|].
  destruct (bool_decide _); [by apply safe_ok|].
  unfold SeqNumInfo.addMsg_CommitFull. rewrite (sender_neq _ Hpeer), (not_forced w Hw Ea). cbn [negb Assert mbind res_bind].
  destruct (c_addCombined (comm w) (commitJobs w) m (inv_comm w Hw)) as (b & c & oj & -> & Hout & Hval & Hri).
  cbn [mbind res_bind]. apply safe_ok. apply (comm_step w c (commitJobs w) oj _ Hw Hout (inv_comm_keys w Hw)). by rewrite Hri.
Qed.

Lemma sendCommitPartial_safe now w : inv w → SeqNumInfo.isPrepared (sn w) = true → PartialProofsSet.getFullProof (proofs w) = None →
  safe (sendCommitPartial info order slowSign digestOfDigest curView seqNum now w).
Proof.
  intros Hw Hprep Hf. unfold sendCommitPartial. rewrite Hprep. cbn [Assert mbind res_bind]. unfold SeqNumInfo.getPrePrepareMsg.
  pose proof (not_forced w Hw Hf) as Hforced.
  destruct (SeqNumInfo.prePrepareMsg (sn w)) as [pp|] eqn:Epp; [|unfold SeqNumInfo.isPrepared in Hprep; by rewrite Hforced, Epp in Hprep].
  pose proof (inv_pp w Hw) as Hpp. rewrite Epp in Hpp. destruct Hpp as ((-> & _ & _) & _ & _). rewrite Z.eqb_refl. cbn [Assert mbind res_bind].
  destruct (SeqNumInfo.committedOrHasCommitPartialFromReplica _ _) eqn:Ec; [by apply safe_ok|].
  unfold SeqNumInfo.committedOrHasCommitPartialFromReplica, SeqNumInfo.isCommitted__gg, Collector.isComplete, Collector.hasPartialMsgFromReplica in Ec.
  rewrite !orb_false_iff, !bool_decide_eq_false in Ec. destruct Ec as [[_ Hval] Hmy].
  assert (Hval' : Collector.combinedValidSignatureMsg (comm w) = None) by (destruct (Collector.combinedValidSignatureMsg (comm w)); [by destruct Hval|done]).
  assert (Hmy' : Collector.replicasInfo (comm w) !! myId = None) by (by apply eq_None_not_Some).
  assert (Hexp : Collector.expectedSeqNumber (comm w) = 0).
  { destruct (decide (Collector.expectedSeqNumber (comm w) = 0)) as [|Hne]; [done|]. by destruct (inv_commit w Hw Hne) as (_ & ? & _). }
  pose proof (Collector.waiting_no_jobs slowVerifier n _ _ (inv_comm w Hw) Hexp (inv_comm_keys w Hw)) as Hjobs.
  cbv zeta. unfold SeqNumInfo.addSelfCommitPartialMsgAndDigest. cbn [s_sender s_view s_seq]. rewrite Z.eqb_refl, Hforced. cbn [negb Assert mbind res_bind].
  fold (commitDigest pp). set (m := SeqNumInfo.mkShare _ _ _ _).
  destruct (c_setExpected (comm w) (commitJobs w) seqNum curView (commitDigest pp) (inv_comm w Hw)) as (c & j1 & -> & Hc & He & Hd & Hri & Hv & Hk).
  { split_and!; [done|done|]. cbn. rewrite Hjobs. constructor. }
  cbn [mbind res_bind]. destruct (c_addPartial c _ m myId Hc) as (b & c' & j2 & -> & Hout & Hval2 & -> & Hri').
  { destruct Hinfo. lia. } { apply slowSign_wf. }
  rewrite Hv, Hval', Hri, Hmy', !(bool_decide_eq_true_2 (None = None)) in * by done. cbn [andb Assert mbind res_bind] in *. apply safe_ok.
  assert (Hkeys : Forall (fun j => Collector.job_key j = Collector.expected c) (option_list j1 ++ commitJobs w)).
  { rewrite Hjobs, app_nil_r, He. destruct j1 as [j|]; cbn; [|constructor]. constructor; [by apply Hk|constructor]. }
  pose proof (job_keys _ _ _ _ Hkeys Hout) as Hkeys'. pose proof (Collector.out_expected _ _ _ _ _ _ Hout) as He'.
  destruct Hw. constructor; cbn; rewrite <- ?app_assoc; try done.
  - apply Hout.
  - intros _. rewrite He', He, (Collector.out_digest _ _ _ _ _ _ Hout), Hd, Hri', lookup_insert_eq. split_and!; [done|done|done|]. by exists pp.
  - intros _. by injection (eq_trans He' He) as -> _.
Qed.

(** The ends of jobs. *)
Lemma forall_delete_key (js : list Collector.Job) k P : Forall P js → Forall P (delete k js).
Proof. intros H. rewrite delete_take_drop. apply Forall_app. split; [by apply Forall_take|by apply Forall_drop]. Qed.

Lemma prepareResult_step w k j r c oj : inv w → outcome (prep w) (delete k (prepareJobs w)) c oj → Collector.same (prep w) c →
  Collector.deliver (EF := SeqNumInfo.exFunc info) order (prep w) r = Ok (c, oj) →
  prepareJobs w !! k = Some j →
  inv (mkW (SeqNumInfo.set_prepare (sn w) c) (option_list oj ++ delete k (prepareJobs w)) (commitJobs w) (proofJobs w)).
Proof.
  intros Hw Hout Hsame Hd Hj. apply (prep_step w c _ oj Hw Hout); [apply forall_delete_key, (inv_prep_keys w Hw)| |].
  - intros Hnone. pose proof (inv_pp w Hw) as Hpp. rewrite Hnone in Hpp. destruct Hpp as (_ & _ & Hmy & _).
    pose proof (Collector.same_msgs _ _ Hsame myId) as H. rewrite Hmy in H. by destruct (Collector.replicasInfo c !! myId).
  - apply (Collector.deliver_incomplete (EF := SeqNumInfo.exFunc info)) in Hd. congruence.
Qed.

Lemma prepared_when_complete w : inv w → Collector.isComplete (prep w) = true →
  is_Some (SeqNumInfo.getValidPrepareFullMsg (sn w)) ∧ SeqNumInfo.isPrepared (sn w) = true.
Proof.
  intros Hw Hc. unfold SeqNumInfo.getValidPrepareFullMsg, Collector.getMsgWithValidCombinedSignature, SeqNumInfo.isPrepared.
  rewrite Hc. unfold Collector.isComplete in Hc. bool_to_prop.
  destruct (Collector.combinedValidSignatureMsg (prep w)) as [m|] eqn:Ev; [|done].
  destruct (Collector.valid_post (EF := SeqNumInfo.exFunc info) slowVerifier n _ _ m (inv_prep w Hw) Ev) as [Hne _].
  split; [done|]. pose proof (inv_pp w Hw) as Hpp. destruct (SeqNumInfo.prePrepareMsg (sn w)); [|by destruct Hpp].
  rewrite bool_decide_eq_true_2 by done. by rewrite orb_true_r.
Qed.

Lemma getFull_cases {B} (w : world) (x y : B) : (if bool_decide (PartialProofsSet.getFullProof (proofs w) ≠ None) then x else y) =
  match PartialProofsSet.getFullProof (proofs w) with Some _ => x | None => y end.
Proof. by destruct (PartialProofsSet.getFullProof (proofs w)). Qed.

Lemma prepareJobEnds_safe now k w : inv w → safe (handle w (PrepareJobEnds now k)).
Proof.
  intros Hw. cbn [handle]. destruct (prepareJobs w !! k) as [j|] eqn:Hj; [|by apply safe_ok].
  assert (Hkey : Collector.job_key j = Collector.expected (prep w)).
  { pose proof (inv_prep_keys w Hw) as H. rewrite Forall_lookup in H. by apply (H k). }
  destruct (c_complete (prep w) (prepareJobs w) k j (inv_prep w Hw) Hj Hkey) as (r & c & oj & -> & Hd & Hout & Hsame & Hgood).
  cbn [mbind res_bind]. unfold onPrepareResult, SeqNumInfo.onCompletionPrepare. cbn [sn]. rewrite Hd. cbn [mbind res_bind]. cbv zeta.
  pose proof (prepareResult_step w k j r c oj Hw Hout Hsame Hd Hj) as Hw'. unfold with_prepare. cbn [prepareJobs commitJobs proofJobs].
  set (w1 := mkW (SeqNumInfo.set_prepare (sn w) c) _ _ _) in *.
  destruct r as [sq v bad|sq v sig|sq v []]; cbn [negb]; try by apply safe_ok.
  - destruct (prepared_when_complete w1 Hw' (Hgood eq_refl)) as [[m ->] Hp]. rewrite (getFull_cases w1), Hp.
    destruct (PartialProofsSet.getFullProof (proofs w1)) eqn:Ef; [by apply safe_ok|].
    cbn [Assert mbind res_bind]. apply (safe_outs _ (fun outs => _ ++ outs)). by apply sendCommitPartial_safe.
  - destruct (prepared_when_complete w1 Hw' (Hgood eq_refl)) as [_ Hp]. rewrite (getFull_cases w1), Hp.
    destruct (PartialProofsSet.getFullProof (proofs w1)) eqn:Ef; [by apply safe_ok|].
    cbn [Assert mbind res_bind]. by apply sendCommitPartial_safe.
Qed.

Lemma commitJobEnds_safe le k w : inv w → safe (handle w (CommitJobEnds le k)).
Proof.
  intros Hw. cbn [handle]. destruct (commitJobs w !! k) as [j|] eqn:Hj; [|by apply safe_ok].
  assert (Hkey : Collector.job_key j = Collector.expected (comm w)).
  { pose proof (inv_comm_keys w Hw) as H. rewrite Forall_lookup in H. by apply (H k). }
  destruct (c_complete (comm w) (commitJobs w) k j (inv_comm w Hw) Hj Hkey) as (r & c & oj & -> & Hd & Hout & Hsame & Hgood).
  cbn [mbind res_bind]. unfold onCommitResult, SeqNumInfo.onCompletionCommit. cbn [sn]. rewrite Hd. cbn [mbind res_bind]. cbv zeta.
  assert (inv (mkW (SeqNumInfo.set_commit (sn w) c (SeqNumInfo.commitUpdateTime (sn w))) (prepareJobs w) (option_list oj ++ delete k (commitJobs w)) (proofJobs w))) as Hw'.
  { apply comm_step; [done|done|apply forall_delete_key, (inv_comm_keys w Hw)|].
    pose proof (Collector.same_msgs _ _ Hsame myId) as H. rewrite <- !(fmap_is_Some Collector.partialSigMsg). by rewrite H. }
  unfold with_commit. cbn [prepareJobs commitJobs proofJobs]. set (w1 := mkW (SeqNumInfo.set_commit _ _ _) _ _ _) in *.
  destruct r as [sq v bad|sq v sig|sq v []]; cbn [negb]; try by apply safe_ok.
  - specialize (Hgood eq_refl). unfold SeqNumInfo.getValidCommitFullMsg, Collector.getMsgWithValidCombinedSignature, SeqNumInfo.isCommitted__gg.
    cbn [w1 sn SeqNumInfo.set_commit SeqNumInfo.commitMsgsCollector]. rewrite Hgood, orb_true_r. unfold Collector.isComplete in Hgood.
    bool_to_prop. destruct (Collector.combinedValidSignatureMsg c); [|done]. destruct (bool_decide _); by apply safe_ok.
  - specialize (Hgood eq_refl). unfold SeqNumInfo.isCommitted__gg. cbn [w1 sn SeqNumInfo.set_commit SeqNumInfo.commitMsgsCollector].
    rewrite Hgood, orb_true_r. by apply safe_ok.
Qed.

Lemma handle_safe w o : inv w → op_pre w o → safe (handle w o).
Proof.
  intros Hw Ho. destruct o.
  - by apply primarySends_safe.
  - by apply onPrePrepare_safe.
  - by apply tryToStartSlowPath_safe.
  - by apply onStartSlowCommit_safe.
  - by apply onPartialCommitProof_safe.
  - by apply onFullCommitProof_safe.
  - cbn [handle]. apply (safe_outs _ (fun outs => _ :: outs)). by apply onFullCommitProof_safe.
  - by apply onPreparePartial_safe.
  - by apply onPrepareFull_safe.
  - by apply onCommitPartial_safe.
  - by apply onCommitFull_safe.
  - by apply prepareJobEnds_safe.
  - by apply commitJobEnds_safe.
Qed.

Lemma cps_reachable_inv w : reachable w → inv w.
Proof.
  apply reachable_invariant; [apply start_inv|]. intros w0 o Hw Ho. destruct (handle_safe w0 o Hw Ho) as (w' & outs & He & Hw').
  exists w'. unfold exec. by rewrite He.
Qed.

(** A full proof of the fast path for the PrePrepare message. *)
Definition fastProof (w : world) (pp : PrePrepare) : Prop :=
  ∃ path f, PartialProofsSet.getFullProof (proofs w) = Some f ∧ fastVerify path (ppDigest pp) (f_sig f) = true.

Lemma forced_proof w : inv w → SeqNumInfo.forcedCompleted (sn w) = true →
  ∃ pp, SeqNumInfo.getPrePrepareMsg (sn w) = Some pp ∧ fastProof w pp.
Proof.
  intros Hw Hf. rewrite (inv_forced w Hw) in Hf. unfold PartialProofsSet.hasFullProof in Hf. bool_to_prop.
  destruct (PartialProofsSet.fullCommitProof (proofs w)) as [f|] eqn:Ef; [|done].
  destruct (PartialProofsSet.inv_full _ _ _ (inv_proofs w Hw) f Ef) as (m & Hm & _ & _ & Hver). cbn in Hm.
  destruct (inv_self w Hw m Hm) as (_ & _ & pp & Hpp & Hd). cbn in Hver. rewrite Hd in Hver. exists pp. split; [done|]. by exists (p_commitPath m), f.
Qed.

(** C6: The commit protocol of one sequence number, in any interleaving of the messages of
    peers, the decisions of the primary, the timer and the ends of the background jobs, where
    messages are for this view and number and from peers, every share names an existing signer
    (which the validation of messages does not check) and the combination of such shares
    returns (not so for a multi-signature of copied shares): no handler fails an assertion; a prepared replica has accepted a
    PrePrepare message and holds a combined signature, or a full fast proof, that verifies
    for its digest; a committed one holds a combined commit signature that verifies for the
    digest of that digest, or the full fast proof; and a replica signs a commit only when
    it is prepared. *)
Theorem commitProtocol_safe w : reachable w →
  (∀ o, op_pre w o → ∃ w' outs, handle w o = Ok (w', outs)) ∧
  (SeqNumInfo.isPrepared (sn w) = true → ∃ pp, SeqNumInfo.getPrePrepareMsg (sn w) = Some pp ∧
     (fastProof w pp ∨ ∃ m, SeqNumInfo.getValidPrepareFullMsg (sn w) = Some m ∧ Collector.verify slowVerifier (ppDigest pp) (s_sig m) = true)) ∧
  (SeqNumInfo.isCommitted__gg (sn w) = true → ∃ pp, SeqNumInfo.getPrePrepareMsg (sn w) = Some pp ∧
     (fastProof w pp ∨ ∃ m, SeqNumInfo.getValidCommitFullMsg (sn w) = Some m ∧ Collector.verify slowVerifier (commitDigest pp) (s_sig m) = true)) ∧
  (∀ c, SeqNumInfo.getSelfCommitPartialMsg info (sn w) = Some c → SeqNumInfo.isPrepared (sn w) = true).
Proof.
  intros Hw%cps_reachable_inv. split_and!.
  - intros o Ho. destruct (handle_safe w o Hw Ho) as (w' & outs & He & _). eauto.
  - intros [Hf|[Hpp Hc]%andb_true_iff]%orb_true_iff; [destruct (forced_proof w Hw Hf) as (pp & ? & ?); eauto|].
    unfold Collector.isComplete in Hc. bool_to_prop. pose proof (inv_pp w Hw) as Hp. unfold SeqNumInfo.getPrePrepareMsg.
    destruct (SeqNumInfo.prePrepareMsg (sn w)) as [pp|]; [|done]. exists pp. split; [done|]. right. destruct Hp as (_ & _ & Hd).
    destruct (Collector.combinedValidSignatureMsg (prep w)) as [m|] eqn:Em; [|done]. exists m. split; [done|].
    rewrite <- Hd. by apply (Collector.valid_post (EF := SeqNumInfo.exFunc info) slowVerifier n _ _ m (inv_prep w Hw)).
  - intros [Hf|Hc]%orb_true_iff; [destruct (forced_proof w Hw Hf) as (pp & ? & ?); eauto|].
    unfold Collector.isComplete in Hc. bool_to_prop. destruct (Collector.combinedValidSignatureMsg (comm w)) as [m|] eqn:Em; [|done].
    destruct (Collector.valid_post (EF := SeqNumInfo.exFunc info) slowVerifier n _ _ m (inv_comm w Hw) Em) as [Hne Hv].
    destruct (inv_commit w Hw Hne) as (_ & _ & _ & pp & Hpp & Hd). exists pp. split; [done|]. right. exists m. by rewrite <- Hd.
  - intros c Hc. assert (is_Some (Collector.replicasInfo (comm w) !! myId)) as Hmy.
    { unfold SeqNumInfo.getSelfCommitPartialMsg, Collector.getPartialMsgFromReplica in Hc. apply fmap_Some in Hc as (x & -> & _). eauto. }
    by destruct (inv_commit w Hw (inv_own w Hw Hmy)) as (_ & _ & ? & _).
Qed.
End safety.

(** ** Witness: the slow path at the primary of four replicas *)
Import CollectorExamples (toy, toy_parse, toy_verifyShare, toy_spec).
#[local] Abbreviation sinfo := CheckpointMsg.sampleInfo.
Definition sampleOrder : gmap Z (@Collector.RepInfo Share) → list (Z * @Collector.RepInfo Share) := map_to_list.
Definition sampleSign : Digest → list Z := fun _ => [1; 1].
#[local] Abbreviation sampleHandle :=
  (handle sinfo toy_parse toy_verifyShare sampleOrder toy sampleSign PartialProofsSet.toy_verify (fun _ => sampleSign) (fun d => d) 0 7 10).
#[local] Abbreviation sampleExec :=
  (exec sinfo toy_parse toy_verifyShare sampleOrder toy sampleSign PartialProofsSet.toy_verify (fun _ => sampleSign) (fun d => d) 0 7 10).
#[local] Abbreviation samplePre :=
  (op_pre sinfo toy_parse toy 0 7 (VS := toy_spec)).

Definition samplePP : PrePrepare := SeqNumInfo.mkPP 0 0 7 zeroDigest SLOW.
Definition shareFrom (id : Z) : Share := SeqNumInfo.mkShare id 0 7 [id + 1; 1].

Definition sampleOps : list op :=
  [OnPreparePartial (shareFrom 1); PrimarySends 5 0 samplePP; OnPreparePartial (shareFrom 2); PrepareJobEnds 6 0;
   OnCommitPartial 7 (shareFrom 3); OnCommitPartial 8 (shareFrom 2); CommitJobEnds 0 0].

Definition sample : @CommitProtocol.world Z := match run sampleExec start sampleOps with Ok w => w | Err _ => start end.

Lemma cps_sample_reachable :
  reachable sinfo toy_parse toy_verifyShare sampleOrder toy sampleSign PartialProofsSet.toy_verify (fun _ => sampleSign) (fun d => d) 0 7 10 (VS := toy_spec) sample.
Proof.
  apply (run_reachable _ _ _ sampleOps); [|vm_compute; reflexivity].
  vm_compute. repeat split; try discriminate; auto.
Qed.

Lemma commitProtocol_safe_witness :
  ∃ m, SeqNumInfo.getValidCommitFullMsg (sn sample) = Some m ∧ Collector.verify toy (commitDigest (fun d => d) 0 7 samplePP) (s_sig m) = true.
Proof.
  assert (ReplicasInfo.wf sinfo) as Hi by (constructor; simpl; lia || reflexivity).
  destruct (commitProtocol_safe sinfo toy_parse toy_verifyShare sampleOrder toy sampleSign PartialProofsSet.toy_verify (fun _ => sampleSign)
    (fun d => d) 0 7 10 (VS := toy_spec) Hi ltac:(vm_compute; discriminate) (fun _ => reflexivity _) ltac:(discriminate)
    ltac:(intros; vm_compute; split; discriminate) ltac:(intros; vm_compute; split; discriminate) sample cps_sample_reachable) as (_ & _ & Hc & _).
  destruct (Hc ltac:(vm_compute; reflexivity)) as (pp & Hpp & [(path & f & Hf & _)|H]).
  - exfalso. revert Hf. vm_compute. discriminate.
  - assert (pp = samplePP) as -> by (vm_compute in Hpp; by injection Hpp as <-). exact H.
Defined.
End CommitProtocolSafety.
