(* ===== verification/ViewChangeMsg.v ===== *)
(** * ViewChangeMsg (bftengine/src/bftengine/ViewChangeMsg.hpp, .cpp)

    The message a replica sends to leave a view, at the level of its bytes: a
    packed header of 24 bytes, a sequence of elements (49 bytes each, followed by
    a prepared certificate when the element has one) and a signature.  Reads and
    writes through [body()] go through [get_bytes] and [put_bytes]; the 16-bit
    arithmetic is the code's. *)
From S2P Require Import Prelude SysConsts Digest ReplicasInfo MessageBase SigManager.

Module ViewChangeMsg.

Definition sizeof_Header : Z := 24.
Definition sizeof_Element : Z := 49.
Definition sizeof_PreparedCertificate : Z := 10.

#[local] Abbreviation body := MessageBase.msgBody_.
#[local] Abbreviation msize := MessageBase.msgSize_.

(** The fields of [ViewChangeMsgHeader], through [b()]. *)
Definition idOfGeneratedReplica (m : MessageBase.t) : res Z := get_uint 2 (body m) 2.
Definition newView (m : MessageBase.t) : res Z := get_int 8 (body m) 4.
Definition lastStable (m : MessageBase.t) : res Z := get_int 8 (body m) 12.
Definition numberOfElements (m : MessageBase.t) : res Z := get_uint 2 (body m) 20.
Definition locationAfterLast (m : MessageBase.t) : res Z := get_uint 2 (body m) 22.

Definition set_body (m : MessageBase.t) (bd : list Z) : MessageBase.t :=
  MessageBase.mk bd (msize m) (MessageBase.storageSize_ m) (MessageBase.sender_ m)
    (MessageBase.owner_ m).

Definition write (m : MessageBase.t) (w : nat) (off z : Z) : res MessageBase.t :=
  bd ← put_int w (body m) off z; Ok (set_body m bd).

(** The fields of [Element] and [PreparedCertificate] at offset [p] of the body. *)
Definition el_seqNum (bd : list Z) (p : Z) : res Z := get_int 8 bd p.
Definition el_digest (bd : list Z) (p : Z) : res Digest := get_bytes bd (p + 8) DIGEST_SIZE.
Definition el_originView (bd : list Z) (p : Z) : res Z := get_int 8 bd (p + 40).
Definition el_hasCert (bd : list Z) (p : Z) : res bool :=
  (fun x => negb (x =? 0)) <$> get_uint 1 bd (p + 48).
Definition pc_view (bd : list Z) (p : Z) : res Z := get_int 8 bd p.
Definition pc_sigLength (bd : list Z) (p : Z) : res Z := get_uint 2 bd (p + 8).

Definition ctor (srcReplicaId newView lastStableSeq : Z) : res MessageBase.t :=
  m ← MessageBase.ctor srcReplicaId MC_ViewChange maxExternalMessageSize;
  m ← write m 2 2 srcReplicaId;
  m ← write m 8 4 newView;
  m ← write m 8 12 lastStableSeq;
  m ← write m 2 20 0;
  write m 2 22 0.

Definition setNewViewNumber (m : MessageBase.t) (nv : Z) : res MessageBase.t :=
  v ← newView m;
  assert! (v <=? nv) ;;
  write m 8 4 nv.

(** The bytes whose hash [getMsgDigest] computes. *)
Definition digestInput (m : MessageBase.t) : res (list Z) :=
  l ← locationAfterLast m;
  get_bytes (body m) 0 (if l =? 0 then sizeof_Header else l).

(** [DigestUtil::compute] is a parameter. *)
Definition getMsgDigest (compute : list Z → Digest) (m : MessageBase.t) : res Digest :=
  compute <$> digestInput m.

(** One element: what [addElement] is given and the iterator returns.
    [certificateSig] has [certificateSigLength] bytes. *)
Record Element := mkElement {
  e_seqNum : Z;
  e_prePrepreDigest : Digest;
  e_originView : Z;
  e_certificate : option (Z * list Z);  (* certificateView, certificateSig *)
}.

(** The writes of [addElement] through [pElement], [pCert] and [pSig]. *)
Definition writeElement (m : MessageBase.t) (loc : Z) (e : Element) : res MessageBase.t :=
  m ← write m 8 loc (e_seqNum e);
  bd ← put_bytes (body m) (loc + 8) (e_prePrepreDigest e);
  m ← write (set_body m bd) 8 (loc + 40) (e_originView e);
  m ← write m 1 (loc + 48) (match e_certificate e with Some _ => 1 | None => 0 end);
  match e_certificate e with
  | Some (cv, sg) =>
      m ← write m 8 (loc + sizeof_Element) cv;
      m ← write m 2 (loc + sizeof_Element + 8) (Z.of_nat (length sg));
      bd ← put_bytes (body m) (loc + sizeof_Element + sizeof_PreparedCertificate) sg;
      Ok (set_body m bd)
  | None => Ok m
  end.

Definition addElement (sm : SigManager.t) (m : MessageBase.t) (e : Element) : res MessageBase.t :=
  n ← numberOfElements m;
  loc ← locationAfterLast m;
  ls ← lastStable m;
  assert! (n <? kWorkWindowSize) ;;
  assert! ((0 <? n) || (loc =? 0)) ;;
  assert! (ls <? e_seqNum e) ;;
  assert! (e_seqNum e <=? ls + kWorkWindowSize) ;;
  m ← (if loc =? 0 then assert! (n =? 0) ;; write m 2 22 sizeof_Header else Ok m);
  loc ← locationAfterLast m;
  let requiredSpace := u16 (loc + sizeof_Element) in
  let requiredSpace :=
    match e_certificate e with
    | Some (_, sg) => u16 (requiredSpace + (sizeof_PreparedCertificate + Z.of_nat (length sg)))
    | None => requiredSpace
    end in
  assert! (requiredSpace + SigManager.getMySigLength sm <=? MessageBase.storageSize_ m) ;;
  m ← writeElement m loc e;
  m ← write m 2 22 requiredSpace;
  write m 2 20 (n + 1).

(** The loop of [checkElements]; [n] is [numberOfElements() - numOfActualElements].
    [None]: [return false]; otherwise the final [numOfActualElements] and
    [remainingBytes].  [remainingBytes] is [uint16_t], [s] is [int16_t]. *)
Fixpoint check_loop (n : nat) (bd : list Z) (stable nv lastSeqNumInMsg numOfActualElements
    remainingBytes currLoc : Z) : res (option (Z * Z)) :=
  match n with
  | O => Ok (Some (numOfActualElements, remainingBytes))
  | S n' =>
      if sizeof_Element <=? remainingBytes then
        let numOfActualElements := u16 (numOfActualElements + 1) in
        sq ← el_seqNum bd currLoc;
        if sq <=? lastSeqNumInMsg then Ok None
        else if stable + kWorkWindowSize <? sq then Ok None
        else
          ov ← el_originView bd currLoc;
          if nv <=? ov then Ok None
          else
            hc ← el_hasCert bd currLoc;
            let remainingBytes := u16 (remainingBytes - sizeof_Element) in
            let currLoc := currLoc + sizeof_Element in
            if (hc : bool) then
              if remainingBytes <? sizeof_PreparedCertificate then Ok None
              else
                cv ← pc_view bd currLoc;
                if ov <? cv then Ok None
                else
                  sl ← pc_sigLength bd currLoc;
                  if sl =? 0 then Ok None
                  else
                    let s := i16 (sizeof_PreparedCertificate + sl) in
                    if remainingBytes <? s then Ok None
                    else check_loop n' bd stable nv sq numOfActualElements
                           (u16 (remainingBytes - s)) (currLoc + s)
            else check_loop n' bd stable nv sq numOfActualElements remainingBytes currLoc
      else Ok (Some (numOfActualElements, remainingBytes))
  end.

Definition checkElements (m : MessageBase.t) (sigSize : Z) : res bool :=
  stable ← lastStable m;
  nv ← newView m;
  n ← numberOfElements m;
  let remainingBytes := u16 (msize m - sigSize - sizeof_Header) in
  r ← check_loop (Z.to_nat n) (body m) stable nv stable 0 remainingBytes sizeof_Header;
  match r with
  | None => Ok false
  | Some (numOfActualElements, remainingBytes) =>
      loc ← locationAfterLast m;
      if negb (numOfActualElements =? n) then Ok false
      else if 0 <? numOfActualElements then
        let locationAfterLastElement := i16 (msize m - sigSize - remainingBytes) in
        Ok (loc =? locationAfterLastElement)
      else Ok (loc =? 0)
  end.

Definition finalizeMessage (sm : SigManager.t) (m : MessageBase.t) : res MessageBase.t :=
  loc ← locationAfterLast m;
  let bodySize := if loc =? 0 then sizeof_Header else loc in
  let sigSize := SigManager.getMySigLength sm in
  m ← MessageBase.setMsgSize m (bodySize + sigSize);
  m ← MessageBase.shrinkToFit m;
  data ← get_bytes (body m) 0 bodySize;
  bd ← SigManager.sign sm data (body m) bodySize sigSize;
  let m := set_body m bd in
  b ← checkElements m sigSize;
  assert! b ;;
  Ok m.

Definition ToActualMsgType (repInfo : ReplicasInfo.t) (sm : SigManager.t) (inMsg : MessageBase.t)
  : res bool :=
  ty ← MessageBase.type inMsg;
  assert! (ty =? code_of MC_ViewChange) ;;
  if msize inMsg <? sizeof_Header then Ok false
  else
    gen ← idOfGeneratedReplica inMsg;
    if negb (ReplicasInfo.isIdOfReplica repInfo gen) then Ok false
    else
      dataLength ← locationAfterLast inMsg;
      sigLen ← SigManager.getSigLength sm gen;
      let dataLength := if dataLength <? sizeof_Header then sizeof_Header else dataLength in
      if u16 (msize inMsg) <? u16 (dataLength + sigLen) then Ok false
      else if gen =? ReplicasInfo._myId repInfo then Ok false
      else
        data ← get_bytes (body inMsg) 0 dataLength;
        sg ← get_bytes (body inMsg) dataLength sigLen;
        sigOkay ← SigManager.verifySig sm gen data sg;
        if negb (sigOkay : bool) then Ok false
        else checkElements inMsg sigLen.

(** ** ElementsIterator *)

Record iter := mkIter { endLoc : Z; currLoc : Z; nextElementNum : Z }.

(** [ElementsIterator(m)]; [None] for [nullptr]. *)
Definition iter_ctor (m : option MessageBase.t) : res iter :=
  match m with
  | None => Ok (mkIter 0 0 1)
  | Some m =>
      n ← numberOfElements m;
      if n =? 0 then Ok (mkIter 0 0 1)
      else
        loc ← locationAfterLast m;
        assert! (sizeof_Header <? loc) ;;
        Ok (mkIter loc sizeof_Header 1)
  end.

Definition iter_end (m : MessageBase.t) (it : iter) : res bool :=
  if endLoc it <=? currLoc it then
    n ← numberOfElements m;
    assert! (nextElementNum it - 1 =? n) ;;
    Ok true
  else Ok false.

(** The element a returned [Element*] points to, with its certificate. *)
Definition deref (bd : list Z) (p : Z) : res Element :=
  sq ← el_seqNum bd p;
  d ← el_digest bd p;
  ov ← el_originView bd p;
  hc ← el_hasCert bd p;
  if (hc : bool) then
    cv ← pc_view bd (p + sizeof_Element);
    sl ← pc_sigLength bd (p + sizeof_Element);
    sg ← get_bytes bd (p + sizeof_Element + sizeof_PreparedCertificate) sl;
    Ok (mkElement sq d ov (Some (cv, sg)))
  else Ok (mkElement sq d ov None).

(** [None] for [false] (no element). *)
Definition getCurrent (m : MessageBase.t) (it : iter) : res (option Element) :=
  e ← iter_end m it;
  if (e : bool) then Ok None
  else
    let remainingbytes := u16 (endLoc it - currLoc it) in
    assert! (sizeof_Element <=? remainingbytes) ;;
    hc ← el_hasCert (body m) (currLoc it);
    _ ← (if (hc : bool) then
           assert! (sizeof_Element + sizeof_PreparedCertificate <=? remainingbytes) ;;
           sl ← pc_sigLength (body m) (currLoc it + sizeof_Element);
           Assert (sizeof_Element + sizeof_PreparedCertificate + sl <=? remainingbytes)
         else Ok tt);
    Some <$> deref (body m) (currLoc it).

Definition getAndGoToNext (m : MessageBase.t) (it : iter) : res (option Element * iter) :=
  e ← iter_end m it;
  if (e : bool) then Ok (None, it)
  else
    let remainingbytes := u16 (endLoc it - currLoc it) in
    assert! (sizeof_Element <=? remainingbytes) ;;
    let p := currLoc it in
    let loc := u16 (currLoc it + sizeof_Element) in
    hc ← el_hasCert (body m) p;
    loc ← (if (hc : bool) then
             assert! (sizeof_Element + sizeof_PreparedCertificate <=? remainingbytes) ;;
             sl ← pc_sigLength (body m) loc;
             assert! (sizeof_Element + sizeof_PreparedCertificate + sl <=? remainingbytes) ;;
             Ok (u16 (loc + (sizeof_PreparedCertificate + sl)))
           else Ok loc);
    el ← deref (body m) p;
    Ok (Some el, mkIter (endLoc it) loc (u16 (nextElementNum it + 1))).

Definition gotoNext (m : MessageBase.t) (it : iter) : res iter :=
  '(_, it') ← getAndGoToNext m it; Ok it'.

(** [goToAtLeast]: the number of elements bounds the iterations. *)
Fixpoint goToAtLeast (fuel : nat) (m : MessageBase.t) (it : iter) (lowerBound : Z)
  : res (option Element * iter) :=
  cur ← getCurrent m it;
  match cur with
  | Some e =>
      if e_seqNum e <? lowerBound then
        match fuel with
        | O => Err OutOfFuel
        | S fuel' => it' ← gotoNext m it; goToAtLeast fuel' m it' lowerBound
        end
      else Ok (Some e, it)
  | None => Ok (None, it)
  end.

(** [while (iter.getAndGoToNext(e)) ...]: all elements of a message. *)
Fixpoint iterate (fuel : nat) (m : MessageBase.t) (it : iter) : res (list Element) :=
  '(e, it') ← getAndGoToNext m it;
  match e with
  | None => Ok []
  | Some e =>
      match fuel with
      | O => Err OutOfFuel
      | S fuel' => es ← iterate fuel' m it'; Ok (e :: es)
      end
  end.

Definition elements (m : MessageBase.t) : res (list Element) :=
  n ← numberOfElements m;
  it ← iter_ctor (Some m);
  iterate (Z.to_nat n) m it.

(** ** The abstract message: a header and a list of elements *)

Definition enc_cert (c : option (Z * list Z)) : list Z :=
  match c with
  | None => le_enc 1 0
  | Some (cv, sg) => le_enc 1 1 ++ le_enc 8 cv ++ le_enc 2 (Z.of_nat (length sg)) ++ sg
  end.
Definition enc_elem (e : Element) : list Z :=
  le_enc 8 (e_seqNum e) ++ e_prePrepreDigest e ++ le_enc 8 (e_originView e) ++ enc_cert (e_certificate e).
Definition enc (es : list Element) : list Z := flat_map enc_elem es.

Definition enc_header (gen nv ls n loc : Z) : list Z :=
  le_enc 2 (code_of MC_ViewChange) ++ le_enc 2 gen ++ le_enc 8 nv ++ le_enc 8 ls ++
  le_enc 2 n ++ le_enc 2 loc.

Definition i64_ok (z : Z) : Prop := - 2 ^ 63 <= z < 2 ^ 63.

(** Field values the packed structs can hold. *)
Record elem_wf (e : Element) : Prop := {
  ew_seq : i64_ok (e_seqNum e);
  ew_digest : length (e_prePrepreDigest e) = 32%nat;
  ew_view : i64_ok (e_originView e);
  ew_cert : match e_certificate e with
            | Some (cv, sg) => i64_ok cv ∧ Z.of_nat (length sg) < 65536
            | None => True
            end;
}.

Definition cert_len (e : Element) : Z :=
  match e_certificate e with
  | Some (_, sg) => sizeof_PreparedCertificate + Z.of_nat (length sg)
  | None => 0
  end.
Definition elem_len (e : Element) : Z := sizeof_Element + cert_len e.
Definition enc_len (es : list Element) : Z := Z.of_nat (length (enc es)).

(** [locationAfterLast] of a message with these elements. *)
Definition loc_of (es : list Element) : Z :=
  match es with [] => 0 | _ => sizeof_Header + enc_len es end.

(** The body of [m] starts with the header and [es]; [tail] follows. *)
Record layout (m : MessageBase.t) (gen nv ls : Z) (es : list Element) (tail : list Z) : Prop := {
  la_body : body m = enc_header gen nv ls (Z.of_nat (length es)) (loc_of es) ++ enc es ++ tail;
  la_gen : 0 <= gen < 65536;
  la_nv : i64_ok nv;
  la_ls : i64_ok ls;
  la_num : Z.of_nat (length es) < 65536;
  la_len : sizeof_Header + enc_len es < 65536;
  la_elems : Forall elem_wf es;
}.

Lemma length_enc_elem e : elem_wf e → Z.of_nat (length (enc_elem e)) = elem_len e.
Proof.
  intros [_ Hd _ _]. unfold enc_elem, elem_len, cert_len, enc_cert, sizeof_Element, sizeof_PreparedCertificate.
  destruct (e_certificate e) as [[cv sg]|]; rewrite !length_app, !length_le_enc; lia.
Qed.

Lemma enc_app a b : enc (a ++ b) = enc a ++ enc b.
Proof. apply flat_map_app. Qed.

Lemma enc_len_snoc es e : elem_wf e → enc_len (es ++ [e]) = enc_len es + elem_len e.
Proof.
  intros He. unfold enc_len. rewrite enc_app, length_app. change (enc [e]) with (enc_elem e ++ []).
  rewrite app_nil_r.  rewrite <- length_enc_elem by done. lia.
Qed.

Lemma elem_len_bounds e : 49 <= elem_len e.
Proof.
  unfold elem_len, cert_len, sizeof_Element, sizeof_PreparedCertificate.
  destruct (e_certificate e) as [[cv sg]|]; lia.
Qed.

Lemma length_header gen nv ls n loc : length (enc_header gen nv ls n loc) = 24%nat.
Proof. done. Qed.

Lemma get_int_at w bd off z : (0 < w)%nat →
  - 2 ^ (8 * Z.of_nat w - 1) <= z < 2 ^ (8 * Z.of_nat w - 1) →
  get_bytes bd off (Z.of_nat w) = Ok (le_enc w z) → get_int w bd off = Ok z.
Proof. intros Hw Hz H. unfold get_int. rewrite H. res_step. by rewrite swrap_le_dec_enc, swrap_small by lia. Qed.

Lemma get_uint_at w bd off z :
  0 <= z < 2 ^ (8 * Z.of_nat w) →
  get_bytes bd off (Z.of_nat w) = Ok (le_enc w z) → get_uint w bd off = Ok z.
Proof. intros Hz H. unfold get_uint. rewrite H. res_step. by rewrite le_dec_enc, wrap_small. Qed.

Section reads.
Context (e : Element) (pre post bd : list Z) (p : Z) (He : elem_wf e).
Context (Hbd : bd = pre ++ enc_elem e ++ post) (Hp : p = Z.of_nat (length pre)).

Ltac read := subst bd; unfold enc_elem; rewrite <- ?app_assoc; destruct He; solve_get.

Lemma read_seqNum : el_seqNum bd p = Ok (e_seqNum e).
Proof. apply get_int_at; [lia|apply He|read]. Qed.
Lemma read_digest : el_digest bd p = Ok (e_prePrepreDigest e).
Proof. unfold el_digest, DIGEST_SIZE. read. Qed.
Lemma read_originView : el_originView bd p = Ok (e_originView e).
Proof. apply get_int_at; [lia|apply He|read]. Qed.
Lemma read_hasCert :
  el_hasCert bd p = Ok (match e_certificate e with Some _ => true | None => false end).
Proof.
  unfold el_hasCert.
  rewrite (get_uint_at 1 bd (p + 48) (match e_certificate e with Some _ => 1 | None => 0 end)).
  - by destruct (e_certificate e).
  - destruct (e_certificate e); simpl; lia.
  - subst bd. unfold enc_elem, enc_cert. destruct He. destruct (e_certificate e) as [[cv sg]|];
      rewrite <- ?app_assoc; solve_get.
Qed.

Context (cv : Z) (sg : list Z) (Hc : e_certificate e = Some (cv, sg)).
Ltac read_cert := subst bd; unfold enc_elem, enc_cert; rewrite Hc, <- ?app_assoc; destruct He; solve_get.
Lemma cert_wf : i64_ok cv ∧ 0 <= Z.of_nat (length sg) < 65536.
Proof. destruct He as [_ _ _ H]. rewrite Hc in H. split; [apply H|lia]. Qed.
Lemma read_pc_view : pc_view bd (p + sizeof_Element) = Ok cv.
Proof. apply get_int_at; [lia|apply cert_wf|]. unfold sizeof_Element. read_cert. Qed.
Lemma read_pc_sigLength : pc_sigLength bd (p + sizeof_Element) = Ok (Z.of_nat (length sg)).
Proof. apply get_uint_at; [apply cert_wf|]. unfold sizeof_Element. read_cert. Qed.
Lemma read_sig : get_bytes bd (p + sizeof_Element + sizeof_PreparedCertificate) (Z.of_nat (length sg)) = Ok sg.
Proof. unfold sizeof_Element, sizeof_PreparedCertificate. read_cert. Qed.
End reads.

Lemma deref_at e pre post bd p : elem_wf e → bd = pre ++ enc_elem e ++ post →
  p = Z.of_nat (length pre) → deref bd p = Ok e.
Proof.
  intros He Hbd Hp. unfold deref.
  rewrite (read_seqNum e pre post bd p He Hbd Hp), (read_digest e pre post bd p He Hbd Hp),
    (read_originView e pre post bd p He Hbd Hp), (read_hasCert e pre post bd p He Hbd Hp). res_step.
  destruct (e_certificate e) as [[cv sg]|] eqn:Hc.
  - rewrite (read_pc_view e pre post bd p He Hbd Hp cv sg Hc),
      (read_pc_sigLength e pre post bd p He Hbd Hp cv sg Hc). res_step.
    rewrite (read_sig e pre post bd p He Hbd Hp cv sg Hc). res_step. destruct e; simpl in *; congruence.
  - destruct e; simpl in *; congruence.
Qed.

Section header_reads.
Context (m : MessageBase.t) (gen nv ls : Z) (es : list Element) (tail : list Z).
Context (L : layout m gen nv ls es tail).
Ltac read_h := rewrite (la_body _ _ _ _ _ _ L); unfold enc_header; rewrite <- ?app_assoc; solve_get.
Lemma loc_range : 0 <= loc_of es < 65536.
Proof. destruct L. unfold loc_of, enc_len, sizeof_Header in *. destruct es; lia. Qed.
Lemma read_gen : idOfGeneratedReplica m = Ok gen.
Proof. apply get_uint_at; [apply L|read_h]. Qed.
Lemma read_newView : newView m = Ok nv.
Proof. apply get_int_at; [lia|apply L|read_h]. Qed.
Lemma read_lastStable : lastStable m = Ok ls.
Proof. apply get_int_at; [lia|apply L|read_h]. Qed.
Lemma read_numberOfElements : numberOfElements m = Ok (Z.of_nat (length es)).
Proof. apply get_uint_at; [destruct L; simpl; lia|read_h]. Qed.
Lemma read_locationAfterLast : locationAfterLast m = Ok (loc_of es).
Proof. apply get_uint_at; [apply loc_range|read_h]. Qed.
Lemma read_type : MessageBase.type m = Ok (code_of MC_ViewChange).
Proof. apply get_uint_at; [done|read_h]. Qed.
End header_reads.

(** ** Iteration *)

Lemma enc_cons e es : enc (e :: es) = enc_elem e ++ enc es.
Proof. done. Qed.

(** The iterator after the elements [es1] of [es]. *)
Definition pos (es1 es : list Element) : iter :=
  mkIter (loc_of es) (sizeof_Header + enc_len es1) (1 + Z.of_nat (length es1)).

Lemma loc_of_mid es1 e es2 : elem_wf e →
  loc_of (es1 ++ e :: es2) = sizeof_Header + enc_len es1 + elem_len e + enc_len es2.
Proof.
  intros He. assert (loc_of (es1 ++ e :: es2) = sizeof_Header + enc_len (es1 ++ e :: es2)) as ->
    by (by destruct es1).
  unfold enc_len. rewrite enc_app, enc_cons, !length_app.
  rewrite <- length_enc_elem by done. lia.
Qed.

Lemma enc_len_ge es : Forall elem_wf es → 49 * Z.of_nat (length es) <= enc_len es.
Proof.
  induction 1 as [|x l Hx _ IH]; [done|]. unfold enc_len in *. rewrite enc_cons, length_app.
  pose proof (length_enc_elem x Hx). pose proof (elem_len_bounds x). rewrite length_cons. lia.
Qed.

Section iteration.
Context (m : MessageBase.t) (gen nv ls : Z) (es : list Element) (tail : list Z).
Context (L : layout m gen nv ls es tail).

Lemma split_body es1 e es2 : es = es1 ++ e :: es2 →
  body m = (enc_header gen nv ls (Z.of_nat (length es)) (loc_of es) ++ enc es1) ++
           enc_elem e ++ (enc es2 ++ tail).
Proof. intros ->. rewrite (la_body _ _ _ _ _ _ L), enc_app, enc_cons, <- !app_assoc. done. Qed.

Lemma mid_wf es1 e es2 : es = es1 ++ e :: es2 → elem_wf e.
Proof. intros ->. destruct L as [_ _ _ _ _ _ HF]. by apply Forall_app in HF as [_ [? _]%Forall_cons]. Qed.

Lemma iter_end_mid es1 e es2 : es = es1 ++ e :: es2 → iter_end m (pos es1 es) = Ok false.
Proof.
  intros Hes. unfold iter_end, pos. cbn [endLoc currLoc].
  rewrite (proj2 (Z.leb_gt _ _)); [done|]. pose proof (mid_wf _ _ _ Hes) as He.
  rewrite Hes, loc_of_mid by done. pose proof (elem_len_bounds e). unfold enc_len. lia.
Qed.

Lemma iter_end_last it : endLoc it <= currLoc it → nextElementNum it = 1 + Z.of_nat (length es) →
  iter_end m it = Ok true.
Proof.
  intros H1 H2. unfold iter_end. rewrite (proj2 (Z.leb_le _ _)) by done.
  rewrite (read_numberOfElements _ _ _ _ _ _ L). res_step. rewrite H2, (proj2 (Z.eqb_eq _ _)) by lia. done.
Qed.

Lemma pos_length es1 : Z.of_nat (length (enc_header gen nv ls (Z.of_nat (length es)) (loc_of es) ++ enc es1)) =
  sizeof_Header + enc_len es1.
Proof. rewrite length_app, length_header. unfold enc_len, sizeof_Header. lia. Qed.

Lemma remaining_mid es1 e es2 : es = es1 ++ e :: es2 →
  u16 (endLoc (pos es1 es) - currLoc (pos es1 es)) = elem_len e + enc_len es2 ∧
  sizeof_Header + enc_len es1 + elem_len e + enc_len es2 < 65536.
Proof.
  intros Hes. pose proof (mid_wf _ _ _ Hes) as He. pose proof (la_len _ _ _ _ _ _ L) as Hl.
  assert (loc_of es = sizeof_Header + enc_len es) as Hloc by (subst; by destruct es1).
  unfold pos. cbn [endLoc currLoc]. rewrite <- Hloc in Hl.
  rewrite Hes, loc_of_mid in * by done. split; [|done]. pose proof (elem_len_bounds e).
  unfold enc_len, sizeof_Header in *. rewrite u16_small; lia.
Qed.

(** The assertions of the iterator on an element that is really there. *)
Lemma room es1 e es2 (Hes : es = es1 ++ e :: es2) :
  (sizeof_Element <=? elem_len e + enc_len es2) = true ∧
  (∀ cv sg, e_certificate e = Some (cv, sg) →
     (sizeof_Element + sizeof_PreparedCertificate <=? elem_len e + enc_len es2) = true ∧
     (sizeof_Element + sizeof_PreparedCertificate + Z.of_nat (length sg) <=? elem_len e + enc_len es2) = true).
Proof.
  pose proof (elem_len_bounds e). split; [apply Z.leb_le; unfold sizeof_Element, enc_len; lia|].
  intros cv sg Hc. unfold elem_len, cert_len, enc_len, sizeof_PreparedCertificate. rewrite Hc.
  split; apply Z.leb_le; lia.
Qed.

Lemma getCurrent_mid es1 e es2 : es = es1 ++ e :: es2 → getCurrent m (pos es1 es) = Ok (Some e).
Proof.
  intros Hes. pose proof (mid_wf _ _ _ Hes) as He. pose proof (split_body _ _ _ Hes) as Hb.
  unfold getCurrent. rewrite (iter_end_mid _ _ _ Hes). res_step.
  destruct (remaining_mid _ _ _ Hes) as [-> _]. destruct (room _ _ _ Hes) as [-> Hr]. res_step.
  cbn [currLoc pos]. rewrite (read_hasCert e _ _ _ _ He Hb) by (by rewrite pos_length). res_step.
  assert (deref (body m) (sizeof_Header + enc_len es1) = Ok e) as Hd
    by (eapply deref_at; [done|exact Hb|by rewrite pos_length]).
  destruct (e_certificate e) as [[cv sg]|] eqn:Hc; [|by rewrite Hd].
  destruct (Hr cv sg) as [-> Hr2]; [done|]. res_step.
  rewrite (read_pc_sigLength e _ _ _ _ He Hb) with (cv := cv) (sg := sg) by (done || by rewrite pos_length).
  res_step. rewrite Hr2. res_step. by rewrite Hd.
Qed.

Lemma getAndGoToNext_mid es1 e es2 : es = es1 ++ e :: es2 →
  getAndGoToNext m (pos es1 es) = Ok (Some e, pos (es1 ++ [e]) es).
Proof.
  intros Hes. pose proof (mid_wf _ _ _ Hes) as He. pose proof (split_body _ _ _ Hes) as Hb.
  unfold getAndGoToNext. rewrite (iter_end_mid _ _ _ Hes). res_step.
  destruct (remaining_mid _ _ _ Hes) as [-> Hlt]. destruct (room _ _ _ Hes) as [-> Hr]. res_step.
  cbn [currLoc pos]. rewrite (read_hasCert e _ _ _ _ He Hb) by (by rewrite pos_length). res_step.
  assert (deref (body m) (sizeof_Header + enc_len es1) = Ok e) as Hd
    by (eapply deref_at; [done|exact Hb|by rewrite pos_length]).
  pose proof (elem_len_bounds e) as Hel. assert (0 <= enc_len es1) by (unfold enc_len; lia).
  assert (0 <= enc_len es2) by (unfold enc_len; lia).
  assert (Z.of_nat (length es1) < 65534) as Hn.
  { pose proof (enc_len_ge es (la_elems _ _ _ _ _ _ L)) as Hge. pose proof (la_len _ _ _ _ _ _ L).
    assert (length es1 <= length es)%nat by (rewrite Hes, length_app; lia).
    unfold sizeof_Header in *. lia. }
  assert (pos (es1 ++ [e]) es = mkIter (loc_of es) (sizeof_Header + enc_len es1 + elem_len e)
            (u16 (1 + Z.of_nat (length es1) + 1))) as ->.
  { unfold pos. rewrite enc_len_snoc, length_app, u16_small by (done || simpl; lia). simpl.
    f_equal; lia. }
  unfold sizeof_Header, sizeof_Element in *. unfold elem_len, cert_len, sizeof_Element in *.
  destruct (e_certificate e) as [[cv sg]|] eqn:Hc.
  - unfold sizeof_PreparedCertificate in *. destruct (Hr cv sg) as [-> Hr2]; [done|]. res_step.
    rewrite (u16_small (24 + enc_len es1 + 49)) by lia.
    rewrite (read_pc_sigLength e _ _ _ _ He Hb) with (cv := cv) (sg := sg) by (done || by rewrite pos_length).
    res_step. rewrite Hr2. res_step. rewrite Hd. res_step. rewrite u16_small by lia.
    do 3 f_equal; lia.
  - rewrite Hd. res_step. rewrite u16_small by lia. do 3 f_equal; lia.
Qed.

Lemma getAndGoToNext_end it : endLoc it <= currLoc it → nextElementNum it = 1 + Z.of_nat (length es) →
  getAndGoToNext m it = Ok (None, it) ∧ getCurrent m it = Ok None.
Proof. intros. unfold getAndGoToNext, getCurrent. by rewrite iter_end_last. Qed.

Lemma pos_end : es ≠ [] → endLoc (pos es es) <= currLoc (pos es es).
Proof. intros. unfold pos, loc_of. simpl. destruct es; [done|lia]. Qed.

Lemma iterate_mid es1 es2 : es ≠ [] → es = es1 ++ es2 →
  iterate (length es2) m (pos es1 es) = Ok es2.
Proof.
  intros Hne. revert es1. induction es2 as [|e es2 IH]; intros es1 Hes.
  - rewrite app_nil_r in Hes. rewrite <- Hes. simpl.
    destruct (getAndGoToNext_end (pos es es)) as [-> _]; [by apply pos_end|done|done].
  - simpl. rewrite (getAndGoToNext_mid _ _ _ Hes). res_step.
    rewrite IH; [done|]. by rewrite <- app_assoc.
Qed.

(** The iterator visits exactly the encoded elements, in their order. *)
Lemma elements_layout : elements m = Ok es.
Proof.
  unfold elements, iter_ctor. rewrite (read_numberOfElements _ _ _ _ _ _ L). res_step.
  destruct (decide (es = [])) as [E|Hne].
  - rewrite E. simpl. destruct (getAndGoToNext_end (mkIter 0 0 1)) as [-> _]; [done| |done].
    by rewrite E.
  - rewrite (proj2 (Z.eqb_neq _ _)) by (destruct es; done).
    rewrite (read_locationAfterLast _ _ _ _ _ _ L). res_step.
    assert (loc_of es = sizeof_Header + enc_len es) as Hloc by (by destruct es).
    pose proof (enc_len_ge es (la_elems _ _ _ _ _ _ L)).
    assert (0 < Z.of_nat (length es)) by (destruct es; [done|simpl; lia]).
    rewrite (proj2 (Z.ltb_lt _ _)) by lia. res_step. rewrite Nat2Z.id.
    replace (mkIter (loc_of es) sizeof_Header 1) with (pos [] es); [by apply iterate_mid|].
    unfold pos. f_equal; unfold enc_len; simpl; lia.
Qed.

(** [goToAtLeast] stops at the first element not below the bound. *)
Lemma goToAtLeast_mid a b es1 lb fuel : es = es1 ++ a ++ b → es ≠ [] →
  Forall (fun e => e_seqNum e < lb) a →
  match b with e :: _ => lb <= e_seqNum e | [] => True end →
  (length a <= fuel)%nat →
  goToAtLeast fuel m (pos es1 es) lb = Ok (head b, pos (es1 ++ a) es).
Proof.
  intros Hes Hne Ha Hb. revert es1 fuel Hes. induction Ha as [|e a He _ IH]; intros es1 fuel Hes Hf.
  - rewrite app_nil_r. destruct b as [|e b].
    + simpl in Hes. rewrite app_nil_r in Hes. rewrite <- Hes.
      destruct (getAndGoToNext_end (pos es es)) as [_ Hc]; [by apply pos_end|done|].
      destruct fuel; simpl; by rewrite Hc.
    + destruct fuel; simpl; rewrite (getCurrent_mid _ _ _ Hes); res_step;
        by rewrite (proj2 (Z.ltb_ge _ _)).
  - destruct fuel as [|fuel]; [simpl in Hf; lia|]. simpl.
    rewrite (getCurrent_mid _ _ _ Hes). res_step. rewrite (proj2 (Z.ltb_lt _ _)) by done.
    unfold gotoNext. rewrite (getAndGoToNext_mid _ _ _ Hes). res_step.
    rewrite IH; [by rewrite <- app_assoc|by rewrite <- app_assoc|simpl in Hf; lia].
Qed.
End iteration.

(** ** Validation *)

(** What [checkElements] requires of each element. *)
Definition cert_ok (e : Element) : bool :=
  match e_certificate e with
  | Some (cv, sg) => (cv <=? e_originView e) && negb (Z.of_nat (length sg) =? 0)
  | None => true
  end.

Fixpoint elems_ok (ls nv last : Z) (es : list Element) : bool :=
  match es with
  | [] => true
  | e :: es' =>
      (last <? e_seqNum e) && (e_seqNum e <=? ls + kWorkWindowSize) && (e_originView e <? nv) &&
      cert_ok e && elems_ok ls nv (e_seqNum e) es'
  end.

(** Certificates whose length fits in the [int16_t] the code uses. *)
Definition short_cert (e : Element) : Prop := cert_len e < 32768.

Lemma check_loop_enc es ls nv tail : Forall elem_wf es → Forall short_cert es →
  ∀ pre last k T, 0 <= k → k + Z.of_nat (length es) < 65536 → 0 <= T → enc_len es + T < 65536 →
  check_loop (length es) (pre ++ enc es ++ tail) ls nv last k (enc_len es + T) (Z.of_nat (length pre)) =
    Ok (if elems_ok ls nv last es then Some (k + Z.of_nat (length es), T) else None).
Proof.
  intros HF HS. induction HF as [|e es He HF IH]; intros pre last k T Hk Hn HT HR.
  { simpl. do 3 f_equal; unfold enc_len; simpl; lia. }
  inversion_clear HS as [|? ? Hs HS']. specialize (IH HS').
  assert (enc_len (e :: es) = elem_len e + enc_len es) as Hlen.
  { unfold enc_len. rewrite enc_cons, length_app, <- length_enc_elem by done. lia. }
  rewrite Hlen in *. pose proof (elem_len_bounds e). assert (0 <= enc_len es) by (unfold enc_len; lia).
  rewrite length_cons in *. set (bd := pre ++ enc (e :: es) ++ tail).
  assert (bd = pre ++ enc_elem e ++ (enc es ++ tail)) as Hb by (unfold bd; rewrite enc_cons, <- app_assoc; done).
  assert (bd = (pre ++ enc_elem e) ++ enc es ++ tail) as Hb' by (rewrite Hb, <- app_assoc; done).
  set (p := Z.of_nat (length pre)). assert (p = Z.of_nat (length pre)) as Hp by done.
  assert (Z.of_nat (length (pre ++ enc_elem e)) = p + elem_len e) as Hp'
    by (rewrite length_app, <- length_enc_elem by done; lia).
  cbn [check_loop elems_ok]. unfold sizeof_Element at 1.
  rewrite (proj2 (Z.leb_le 49 _)) by lia.
  rewrite (read_seqNum e pre _ bd p He Hb Hp), (read_originView e pre _ bd p He Hb Hp),
    (read_hasCert e pre _ bd p He Hb Hp). res_step.
  rewrite Z.leb_antisym. destruct (last <? e_seqNum e) eqn:E1; [|done]. cbn [negb andb].
  rewrite Z.ltb_antisym. destruct (e_seqNum e <=? _) eqn:E2; [|done]. cbn [negb andb].
  rewrite Z.leb_antisym. destruct (e_originView e <? nv) eqn:E3; [|done]. cbn [negb andb].
  rewrite (u16_small (k + 1)) by lia. rewrite Nat2Z.inj_succ in *.
  unfold short_cert in Hs. unfold cert_ok. unfold elem_len, cert_len in *.
  unfold sizeof_Element, sizeof_PreparedCertificate in *.
  destruct (e_certificate e) as [[cv sg]|] eqn:Hc.
  - rewrite (u16_small (_ - 49)), (proj2 (Z.ltb_ge _ 10)) by lia.
    pose proof (read_pc_view e pre _ bd p He Hb Hp cv sg Hc) as Hv.
    pose proof (read_pc_sigLength e pre _ bd p He Hb Hp cv sg Hc) as Hl.
    unfold sizeof_Element in Hv, Hl. rewrite Hv, Hl. res_step.
    rewrite Z.ltb_antisym. destruct (cv <=? _) eqn:E4; [|done]. cbn [negb andb].
    destruct (Z.of_nat (length sg) =? 0) eqn:E5; [done|]. cbn [negb andb].
    rewrite i16_small, (proj2 (Z.ltb_ge _ _)) by lia. rewrite u16_small by lia.
    replace (_ - 49 - _) with (enc_len es + T) by lia.
    replace (p + 49 + _) with (Z.of_nat (length (pre ++ enc_elem e))) by lia.
    rewrite Hb', IH by lia. case_match; [|done]. do 3 f_equal. lia.
  - rewrite u16_small by lia. replace (_ - 49) with (enc_len es + T) by lia.
    replace (p + 49) with (Z.of_nat (length (pre ++ enc_elem e))) by lia.
    rewrite Hb', IH by lia. case_match; [|done]. do 3 f_equal. lia.
Qed.

Lemma checkElements_layout m gen nv ls es tail sigSize T :
  layout m gen nv ls es tail → Forall short_cert es →
  0 <= T → msize m - sigSize = sizeof_Header + enc_len es + T → enc_len es + T < 65536 →
  checkElements m sigSize = Ok (elems_ok ls nv ls es && (loc_of es <? 32768)).
Proof.
  intros L HS HT Hsz HR. unfold checkElements.
  rewrite (read_lastStable _ _ _ _ _ _ L), (read_newView _ _ _ _ _ _ L),
    (read_numberOfElements _ _ _ _ _ _ L), (read_locationAfterLast _ _ _ _ _ _ L). res_step.
  rewrite Hsz. unfold sizeof_Header. assert (0 <= enc_len es) by (unfold enc_len; lia).
  replace (24 + enc_len es + T - 24) with (enc_len es + T) by lia.
  rewrite u16_small, Nat2Z.id by lia. rewrite (la_body _ _ _ _ _ _ L).
  change 24 with (Z.of_nat (length (enc_header gen nv ls (Z.of_nat (length es)) (loc_of es)))) at 1.
  rewrite check_loop_enc by (destruct L; done || lia). res_step.
  rewrite length_header. change (Z.of_nat 24) with 24.
  destruct (elems_ok ls nv ls es); [|done]. rewrite Z.add_0_l, Z.eqb_refl. cbn [negb].
  pose proof (la_len _ _ _ _ _ _ L) as Hl. unfold sizeof_Header in Hl.
  destruct es as [|e es']; [done|]. rewrite (proj2 (Z.ltb_lt 0 _)) by (simpl; lia).
  change (loc_of (e :: es')) with (24 + enc_len (e :: es')). f_equal.
  replace (24 + enc_len (e :: es') + T - T) with (24 + enc_len (e :: es')) by lia.
  destruct (Z.ltb_spec (24 + enc_len (e :: es')) 32768) as [Hlt|Hge].
  - rewrite i16_small by lia. apply Z.eqb_refl.
  - apply Z.eqb_neq. unfold i16, swrap. simpl Z.sub. simpl Z.pow. dlia.
Qed.

(** ** Construction *)

Section puts.
Context (gen nv ls n loc : Z) (X : list Z).
#[local] Abbreviation H := (enc_header gen nv ls n loc ++ X).
Ltac put_h := unfold put_int, enc_header; rewrite <- ?app_assoc; solve_put.
Lemma put_newView z : put_int 8 H 4 z = Ok (enc_header gen z ls n loc ++ X).
Proof. put_h. Qed.
Lemma put_number z : put_int 2 H 20 z = Ok (enc_header gen nv ls z loc ++ X).
Proof. put_h. Qed.
Lemma put_location z : put_int 2 H 22 z = Ok (enc_header gen nv ls n z ++ X).
Proof. put_h. Qed.
Lemma get_location : 0 <= loc < 65536 → get_uint 2 H 22 = Ok loc.
Proof. intros. apply get_uint_at; [done|]. unfold enc_header. rewrite <- ?app_assoc. solve_get. Qed.
End puts.

(** A new message: everything zero after the header. *)
Lemma ctor_layout src nv ls : 0 <= src < 65536 → i64_ok nv → i64_ok ls →
  ∃ m, ctor src nv ls = Ok m ∧ layout m src nv ls [] (replicate (Z.to_nat 63976) 0) ∧
    MessageBase.msgSize_ m = 64000 ∧ MessageBase.storageSize_ m = 64000 ∧
    MessageBase.sender_ m = src ∧ MessageBase.owner_ m = true.
Proof.
  intros Hs Hv Hl. unfold ctor, MessageBase.ctor, write, maxExternalMessageSize.
  change (0 <? 64 * 1000) with true. res_step. replace (Z.to_nat (64 * 1000)) with (24 + Z.to_nat 63976)%nat by lia.
  rewrite replicate_add. generalize (replicate (Z.to_nat 63976) 0) as X. intros X.
  assert (put_int 2 (replicate 24 0 ++ X) 0 (code_of MC_ViewChange) = Ok (enc_header 0 0 0 0 0 ++ X)) as ->.
  { unfold put_int. change (replicate 24 0) with (replicate 2 0 ++ replicate 22 0).
    rewrite <- app_assoc. rewrite (put_bytes_head (replicate 2 0)) by done. done. }
  res_step. cbn [MessageBase.msgBody_].
  assert (∀ z, put_int 2 (enc_header 0 0 0 0 0 ++ X) 2 z = Ok (enc_header z 0 0 0 0 ++ X)) as ->
    by (intros; unfold put_int, enc_header; rewrite <- ?app_assoc; solve_put).
  res_step. cbn [MessageBase.msgBody_ set_body]. rewrite put_newView. res_step.
  cbn [MessageBase.msgBody_ set_body].
  assert (∀ z, put_int 8 (enc_header src nv 0 0 0 ++ X) 12 z = Ok (enc_header src nv z 0 0 ++ X)) as ->
    by (intros; unfold put_int, enc_header; rewrite <- ?app_assoc; solve_put).
  res_step. cbn [MessageBase.msgBody_ set_body]. rewrite put_number. res_step.
  cbn [MessageBase.msgBody_ set_body]. rewrite put_location. res_step.
  eexists. split; [done|]. split; [|done]. constructor; first [done | simpl; lia].
Qed.

Lemma setNewViewNumber_layout m gen nv ls es tail nv' :
  layout m gen nv ls es tail → nv <= nv' → i64_ok nv' →
  setNewViewNumber m nv' =
    Ok (set_body m (enc_header gen nv' ls (Z.of_nat (length es)) (loc_of es) ++ enc es ++ tail)) ∧
  layout (set_body m (enc_header gen nv' ls (Z.of_nat (length es)) (loc_of es) ++ enc es ++ tail))
    gen nv' ls es tail.
Proof.
  intros L Hle Hv. split; [|by destruct L; constructor].
  unfold setNewViewNumber, write. rewrite (read_newView _ _ _ _ _ _ L). res_step.
  rewrite (proj2 (Z.leb_le _ _)) by done. res_step.
  by rewrite (la_body _ _ _ _ _ _ L), put_newView.
Qed.

(** The fields of the bytes an element overwrites. *)
Lemma split_element (old : list Z) e : Z.of_nat (length old) = elem_len e →
  ∃ o1 o2 o3 o4 o5, old = o1 ++ o2 ++ o3 ++ o4 ++ o5 ∧
    length o1 = 8%nat ∧ length o2 = 32%nat ∧ length o3 = 8%nat ∧ length o4 = 1%nat ∧
    Z.of_nat (length o5) = cert_len e.
Proof.
  intros Hl. unfold elem_len, sizeof_Element in Hl.
  assert (0 <= cert_len e).
  { unfold cert_len, sizeof_PreparedCertificate. destruct (e_certificate e) as [[? ?]|]; lia. }
  destruct (take_drop_middle_split 8 32 old) as (o1 & o2 & x & -> & H1 & H2); [lia|].
  rewrite !length_app in Hl.
  destruct (take_drop_middle_split 8 1 x) as (o3 & o4 & o5 & -> & H3 & H4); [lia|].
  rewrite !length_app in Hl. exists o1, o2, o3, o4, o5. split_and!; done || lia.
Qed.

Lemma writeElement_spec m pre old rest e :
  body m = pre ++ old ++ rest → elem_wf e → Z.of_nat (length old) = elem_len e →
  writeElement m (Z.of_nat (length pre)) e = Ok (set_body m (pre ++ enc_elem e ++ rest)).
Proof.
  intros Hb He Hold. pose proof (ew_digest e He) as Hd.
  destruct (split_element old e Hold) as (o1 & o2 & o3 & o4 & o5 & -> & H1 & H2 & H3 & H4 & H5).
  unfold writeElement, write, put_int. rewrite Hb, <- !app_assoc.
  set (s := le_enc 8 (e_seqNum e)). assert (length s = 8%nat) as Hs by done.
  set (v := le_enc 8 (e_originView e)). assert (length v = 8%nat) as Hv by done.
  assert (put_bytes (pre ++ o1 ++ o2 ++ o3 ++ o4 ++ o5 ++ rest) (Z.of_nat (length pre)) s =
    Ok (pre ++ s ++ o2 ++ o3 ++ o4 ++ o5 ++ rest)) as -> by solve_put.
  res_step. cbn [MessageBase.msgBody_ set_body].
  set (d := e_prePrepreDigest e) in *.
  assert (put_bytes (pre ++ s ++ o2 ++ o3 ++ o4 ++ o5 ++ rest) (Z.of_nat (length pre) + 8) d =
    Ok (pre ++ s ++ d ++ o3 ++ o4 ++ o5 ++ rest)) as -> by solve_put.
  res_step. cbn [MessageBase.msgBody_ set_body].
  assert (put_bytes (pre ++ s ++ d ++ o3 ++ o4 ++ o5 ++ rest) (Z.of_nat (length pre) + 40) v =
    Ok (pre ++ s ++ d ++ v ++ o4 ++ o5 ++ rest)) as -> by solve_put.
  res_step. cbn [MessageBase.msgBody_ set_body].
  assert (∀ f, put_bytes (pre ++ s ++ d ++ v ++ o4 ++ o5 ++ rest) (Z.of_nat (length pre) + 48) (le_enc 1 f) =
    Ok (pre ++ s ++ d ++ v ++ le_enc 1 f ++ o5 ++ rest)) as -> by (intros; solve_put).
  res_step. cbn [MessageBase.msgBody_ set_body].
  unfold enc_elem, enc_cert. fold s d v. unfold cert_len, sizeof_PreparedCertificate, sizeof_Element in *.
  destruct (e_certificate e) as [[cv sg]|].
  2: { assert (o5 = []) as -> by (apply length_zero_iff_nil; lia). by rewrite <- !app_assoc. }
  destruct (take_drop_middle_split 8 2 o5) as (c1 & c2 & c3 & -> & Hc1 & Hc2); [lia|].
  rewrite !length_app in H5. rewrite <- !app_assoc.
  set (c := le_enc 8 cv). set (l := le_enc 2 (Z.of_nat (length sg))).
  assert (length c = 8%nat ∧ length l = 2%nat) as [Hc Hl] by done.
  set (pre' := pre ++ s ++ d ++ v ++ le_enc 1 1).
  assert (Z.of_nat (length pre') = Z.of_nat (length pre) + 49) as Hp
    by (unfold pre'; rewrite !length_app; simpl; lia).
  replace (pre ++ s ++ d ++ v ++ le_enc 1 1 ++ c1 ++ c2 ++ c3 ++ rest) with (pre' ++ c1 ++ c2 ++ c3 ++ rest)
    by (unfold pre'; by rewrite <- !app_assoc).
  assert (put_bytes (pre' ++ c1 ++ c2 ++ c3 ++ rest) (Z.of_nat (length pre) + 49) c =
    Ok (pre' ++ c ++ c2 ++ c3 ++ rest)) as -> by solve_put.
  res_step. cbn [MessageBase.msgBody_ set_body].
  assert (put_bytes (pre' ++ c ++ c2 ++ c3 ++ rest) (Z.of_nat (length pre) + 49 + 8) l =
    Ok (pre' ++ c ++ l ++ c3 ++ rest)) as -> by solve_put.
  res_step. cbn [MessageBase.msgBody_ set_body].
  assert (put_bytes (pre' ++ c ++ l ++ c3 ++ rest) (Z.of_nat (length pre) + 49 + 10) sg =
    Ok (pre' ++ c ++ l ++ sg ++ rest)) as -> by solve_put.
  res_step. unfold pre'. by rewrite <- !app_assoc.
Qed.

(** The value of [requiredSpace]. *)
Lemma requiredSpace_eq loc e : 0 <= loc → loc + elem_len e < 65536 →
  match e_certificate e with
  | Some (_, sg) => u16 (u16 (loc + sizeof_Element) + (sizeof_PreparedCertificate + Z.of_nat (length sg)))
  | None => u16 (loc + sizeof_Element)
  end = loc + elem_len e.
Proof.
  intros. unfold elem_len, cert_len, sizeof_Element, sizeof_PreparedCertificate in *.
  destruct (e_certificate e) as [[cv sg]|]; rewrite ?u16_small by (rewrite ?u16_small; lia); lia.
Qed.

Lemma addElement_layout sm m gen nv ls es e old rest :
  layout m gen nv ls es (old ++ rest) → elem_wf e → Z.of_nat (length old) = elem_len e →
  Z.of_nat (length es) < kWorkWindowSize → ls < e_seqNum e <= ls + kWorkWindowSize →
  0 <= SigManager.getMySigLength sm →
  sizeof_Header + enc_len (es ++ [e]) + SigManager.getMySigLength sm <= MessageBase.storageSize_ m < 65536 →
  ∃ bd, addElement sm m e = Ok (set_body m bd) ∧ layout (set_body m bd) gen nv ls (es ++ [e]) rest.
Proof.
  intros L He Hold Hn Hseq Hsig Hsz. rewrite enc_len_snoc in Hsz by done.
  pose proof (elem_len_bounds e) as Hel. assert (0 <= enc_len es) as Hes by (unfold enc_len; lia).
  unfold addElement. rewrite (read_lastStable _ _ _ _ _ _ L), (read_numberOfElements _ _ _ _ _ _ L),
    (read_locationAfterLast _ _ _ _ _ _ L). res_step.
  rewrite (proj2 (Z.ltb_lt _ kWorkWindowSize)), (proj2 (Z.ltb_lt ls _)), (proj2 (Z.leb_le (e_seqNum e) _)) by lia.
  assert ((0 <? Z.of_nat (length es)) || (loc_of es =? 0) = true) as -> by (destruct es; done).
  res_step. set (n := Z.of_nat (length es)). set (loc := sizeof_Header + enc_len es).
  set (hdr := enc_header gen nv ls n loc).
  assert ((if loc_of es =? 0 then assert! (n =? 0) ;; write m 2 22 sizeof_Header else Ok m) =
          Ok (set_body m (hdr ++ enc es ++ old ++ rest))) as ->.
  { pose proof (la_body _ _ _ _ _ _ L) as Hb. fold n in Hb.
    destruct es as [|x es']; cbn [loc_of].
    - unfold write. rewrite Hb, put_location. done.
    - rewrite (proj2 (Z.eqb_neq _ 0)) by (unfold sizeof_Header; lia). f_equal.
      unfold hdr, loc. unfold loc_of in Hb. rewrite <- Hb. by destruct m. }
  res_step. assert (0 <= loc < 65536 ∧ loc + elem_len e < 65536) as [Hl1 Hl2] by (unfold loc, sizeof_Header in *; lia).
  assert (locationAfterLast (set_body m (hdr ++ enc es ++ old ++ rest)) = Ok loc) as -> by (by apply get_location).
  res_step. rewrite requiredSpace_eq by lia.
  rewrite (proj2 (Z.leb_le _ _)) by (cbn [MessageBase.storageSize_ set_body]; unfold loc; lia). res_step.
  assert (loc = Z.of_nat (length (hdr ++ enc es))) as Hpre
    by (rewrite length_app; unfold hdr; rewrite length_header; unfold loc, sizeof_Header, enc_len; lia).
  assert (writeElement (set_body m (hdr ++ enc es ++ old ++ rest)) loc e =
          Ok (set_body m ((hdr ++ enc es) ++ enc_elem e ++ rest))) as ->.
  { rewrite Hpre. rewrite (writeElement_spec _ _ old rest) by (done || by rewrite <- app_assoc). done. }
  res_step. unfold write. cbn [MessageBase.msgBody_ set_body]. rewrite <- app_assoc.
  unfold hdr. rewrite put_location. res_step. cbn [MessageBase.msgBody_ set_body].
  rewrite put_number. res_step. eexists. split; [done|].
  destruct L. constructor; try done; cbn [MessageBase.msgBody_ set_body].
  - rewrite length_app, enc_app. change (enc [e]) with (enc_elem e ++ []). rewrite app_nil_r, <- app_assoc.
    f_equal. f_equal; [simpl; lia|]. rewrite loc_of_mid by done. unfold loc, enc_len. simpl. lia.
  - rewrite length_app. simpl. unfold kWorkWindowSize in *. lia.
  - rewrite enc_len_snoc by done. unfold loc in *. lia.
  - apply Forall_app. by split; [|constructor].
Qed.

(** A sequence of [addElement] calls. *)
Fixpoint addElements (sm : SigManager.t) (m : MessageBase.t) (es : list Element) : res MessageBase.t :=
  match es with
  | [] => Ok m
  | e :: es' => m' ← addElement sm m e; addElements sm m' es'
  end.

(** The elements a replica may put into a message: at most a work window of them,
    inside the window, fitting in the message with the signature. *)
Record addable (sm : SigManager.t) (ls : Z) (es : list Element) : Prop := {
  ad_wf : Forall elem_wf es;
  ad_num : Z.of_nat (length es) <= kWorkWindowSize;
  ad_seq : Forall (fun e => ls < e_seqNum e <= ls + kWorkWindowSize) es;
  ad_len : sizeof_Header + enc_len es + SigManager.getMySigLength sm <= maxExternalMessageSize;
}.

Definition built (m : MessageBase.t) : Prop :=
  Z.of_nat (length (body m)) = MessageBase.storageSize_ m ∧
  MessageBase.storageSize_ m = maxExternalMessageSize ∧ MessageBase.owner_ m = true.

Lemma addElements_layout sm gen nv ls es :
  0 <= SigManager.getMySigLength sm → ∀ done_ m tail,
  addable sm ls (done_ ++ es) → layout m gen nv ls done_ tail → built m →
  ∃ m' tail', addElements sm m es = Ok m' ∧ layout m' gen nv ls (done_ ++ es) tail' ∧ built m' ∧
    MessageBase.sender_ m' = MessageBase.sender_ m.
Proof.
  intros Hsig. induction es as [|e es IH]; intros done_ m tail A L B; simpl.
  { exists m, tail. by rewrite app_nil_r. }
  destruct A as [Aw An As Al]. destruct B as (B1 & B2 & B3). unfold maxExternalMessageSize in *.
  apply Forall_app in As as Has. destruct Has as [_ [Hseq _]%Forall_cons].
  apply Forall_app in Aw as Haw. destruct Haw as [_ [He _]%Forall_cons].
  assert (sizeof_Header + enc_len (done_ ++ [e]) + SigManager.getMySigLength sm <= MessageBase.storageSize_ m < 65536) as Hsz.
  { rewrite enc_len_snoc by done. rewrite B2. unfold enc_len in *. rewrite enc_app, enc_cons, !length_app in Al.
    rewrite <- length_enc_elem by done. lia. }
  assert (elem_len e <= Z.of_nat (length tail)) as Htail.
  { rewrite (la_body _ _ _ _ _ _ L), !length_app, length_header in B1. rewrite enc_len_snoc in Hsz by done.
    unfold enc_len, sizeof_Header in *. lia. }
  pose proof (elem_len_bounds e).
  destruct (take_drop_middle_split 0 (Z.to_nat (elem_len e)) tail) as (z & old & rest & -> & Hz & Ho); [lia|].
  apply length_zero_iff_nil in Hz as ->. rewrite app_nil_l in *.
  destruct (addElement_layout sm m gen nv ls done_ e old rest) as (bd & -> & L'); try done; try lia.
  { rewrite length_app in An. simpl in An. lia. }
  res_step.
  destruct (IH (done_ ++ [e]) (set_body m bd) rest) as (m' & tail' & -> & L2 & B' & S').
  - rewrite <- app_assoc. by constructor.
  - done.
  - split; [|done]. rewrite (la_body _ _ _ _ _ _ L'). rewrite (la_body _ _ _ _ _ _ L) in B1.
    rewrite !length_app, !length_header in *. rewrite enc_app. change (enc [e]) with (enc_elem e ++ []).
    rewrite app_nil_r, length_app. pose proof (length_enc_elem e He). cbn [MessageBase.storageSize_ set_body]. lia.
  - exists m', tail'. rewrite <- app_assoc in L2. done.
Qed.

(** the elements put into a view-change message by any sequence of [addElement]
    calls are the ones its iterator returns, byte layout, certificates and
    order included, and neither the construction nor the iteration fails. *)
Theorem viewChange_build_iterate sm src nv ls es :
  0 <= src < 65536 → i64_ok nv → i64_ok ls → addable sm ls es →
  ∃ m m', ctor src nv ls = Ok m ∧ addElements sm m es = Ok m' ∧ elements m' = Ok es ∧
    newView m' = Ok nv ∧ lastStable m' = Ok ls ∧ idOfGeneratedReplica m' = Ok src.
Proof.
  intros Hs Hv Hl A. destruct (ctor_layout src nv ls Hs Hv Hl) as (m & -> & L & Hsz & Hst & Hse & Ho).
  destruct (addElements_layout sm src nv ls es) with (done_ := @nil Element) (m := m)
    (tail := replicate (Z.to_nat 63976) 0) as (m' & tail' & Hadd & L' & _); try done.
  - apply u16_range.
  - split; [|done]. rewrite (la_body _ _ _ _ _ _ L), Hst, !length_app, length_header, length_replicate. simpl. lia.
  - exists m, m'. split; [done|]. split; [done|]. split_and!.
    + by eapply elements_layout.
    + by eapply read_newView.
    + by eapply read_lastStable.
    + by eapply read_gen.
Qed.

(** Example: two elements, one with a certificate, signatures of 4 bytes. *)
Definition sampleSig : SigManager.t :=
  SigManager.mk 1 (mkSigner 4 (fun _ => [1; 2; 3; 4]))
    (<[0 := mkVerifier 4 (fun _ _ => true)]> (<[1 := mkVerifier 4 (fun _ _ => true)]>
      (<[2 := mkVerifier 4 (fun _ _ => true)]> (<[3 := mkVerifier 4 (fun _ _ => true)]> ∅)))).
Definition sampleElements : list Element :=
  [mkElement 151 (replicate 32 7) 3 (Some (2, [9; 9; 9])); mkElement 153 (replicate 32 8) 4 None].

Lemma sample_addable : addable sampleSig 150 sampleElements.
Proof.
  constructor.
  - repeat constructor; unfold i64_ok; simpl; lia.
  - by vm_compute.
  - repeat constructor; vm_compute; done.
  - by vm_compute.
Qed.

Lemma viewChange_build_iterate_witness :
  ∃ m m', ctor 1 5 150 = Ok m ∧ addElements sampleSig m sampleElements = Ok m' ∧
    elements m' = Ok sampleElements ∧
    newView m' = Ok 5 ∧ lastStable m' = Ok 150 ∧ idOfGeneratedReplica m' = Ok 1.
Proof.
  apply (viewChange_build_iterate sampleSig 1 5 150 sampleElements);
    [lia | unfold i64_ok; lia | unfold i64_ok; lia | apply sample_addable].
Defined.

(** ** Finalization and acceptance *)

(** The bytes that are signed: the header and the elements. *)
Definition signed_part (gen nv ls : Z) (es : list Element) : list Z :=
  enc_header gen nv ls (Z.of_nat (length es)) (loc_of es) ++ enc es.

Lemma length_signed_part gen nv ls es :
  Z.of_nat (length (signed_part gen nv ls es)) = sizeof_Header + enc_len es.
Proof. unfold signed_part. rewrite length_app, length_header. unfold enc_len, sizeof_Header. lia. Qed.

Definition final (sm : SigManager.t) (m : MessageBase.t) (gen nv ls : Z) (es : list Element) : MessageBase.t :=
  let p := signed_part gen nv ls es in
  let sg := s_sign (SigManager._mySigner sm) p in
  let n := sizeof_Header + enc_len es + SigManager.getMySigLength sm in
  MessageBase.mk (p ++ sg) n n (MessageBase.sender_ m) true.

Lemma bodySize_eq es : Forall elem_wf es →
  (if loc_of es =? 0 then sizeof_Header else loc_of es) = sizeof_Header + enc_len es.
Proof.
  intros HF. destruct es as [|e es]; [done|]. cbn [loc_of].
  rewrite (proj2 (Z.eqb_neq _ 0)); [done|]. unfold enc_len, sizeof_Header. lia.
Qed.

Lemma final_layout sm m gen nv ls es tail : layout m gen nv ls es tail →
  layout (final sm m gen nv ls es) gen nv ls es (s_sign (SigManager._mySigner sm) (signed_part gen nv ls es)).
Proof.
  intros []. constructor; [|done..]. unfold final, signed_part. cbn [MessageBase.msgBody_].
  by rewrite <- app_assoc.
Qed.

Lemma final_check sm m gen nv ls es tail : layout m gen nv ls es tail → Forall short_cert es →
  checkElements (final sm m gen nv ls es) (SigManager.getMySigLength sm) =
    Ok (elems_ok ls nv ls es && (loc_of es <? 32768)).
Proof.
  intros L HS. pose proof (la_len _ _ _ _ _ _ L) as Hl. unfold sizeof_Header in Hl.
  eapply checkElements_layout with (T := 0); [by eapply final_layout|done|done| |lia].
  unfold final. cbn [MessageBase.msgSize_]. lia.
Qed.

Lemma finalizeMessage_eq sm m gen nv ls es tail :
  layout m gen nv ls es tail → built m → SigManager.signer_ok sm → Forall short_cert es →
  sizeof_Header + enc_len es + SigManager.getMySigLength sm <= maxExternalMessageSize →
  finalizeMessage sm m =
    if elems_ok ls nv ls es && (loc_of es <? 32768) then Ok (final sm m gen nv ls es)
    else Err AssertFailed.
Proof.
  intros L (B1 & B2 & B3) Hsg HS Hfit. rewrite <- B2 in Hfit. unfold finalizeMessage.
  rewrite (read_locationAfterLast _ _ _ _ _ _ L). res_step.
  rewrite bodySize_eq by apply L. pose proof (length_signed_part gen nv ls es) as Hp.
  pose proof (SigManager.getMySigLength_eq sm Hsg) as Hsl. destruct Hsg as [Hsg1 Hsg2].
  set (sl := SigManager.getMySigLength sm) in *. set (bs := sizeof_Header + enc_len es) in *.
  set (p := signed_part gen nv ls es) in *.
  assert (body m = p ++ tail) as Hb by (rewrite (la_body _ _ _ _ _ _ L), app_assoc; done).
  assert (0 <= bs) by lia.
  destruct (take_drop_middle_split 0 (Z.to_nat sl) tail) as (z & t1 & t2 & -> & Hz & Ht1).
  { rewrite Hb, length_app in B1. lia. }
  apply length_zero_iff_nil in Hz as ->. rewrite app_nil_l in *.
  rewrite Hb, !length_app in B1.
  assert (MessageBase.setMsgSize m (bs + sl) ≫= MessageBase.shrinkToFit =
     Ok (MessageBase.mk (p ++ t1) (bs + sl) (bs + sl) (MessageBase.sender_ m) true)) as Hset.
  { unfold MessageBase.setMsgSize. rewrite (proj2 (Z.leb_le _ _)) by lia. res_step.
    assert (take (Z.to_nat (bs + sl)) (p ++ t1 ++ t2) = p ++ t1) as Htk.
    { rewrite app_assoc, take_app_length'; [done|rewrite length_app; lia]. }
    case_match eqn:E; unfold MessageBase.shrinkToFit; rewrite Hb.
    - bool_to_prop.
      rewrite (app_assoc p), (put_bytes_skip (bs + sl)), Z.sub_diag by (rewrite ?length_app; lia).
      rewrite (put_bytes_last t2) by (done || rewrite length_replicate; lia). res_step.
      cbn [MessageBase.owner_ MessageBase.msgBody_ MessageBase.msgSize_ MessageBase.sender_]. rewrite B3. res_step.
      by rewrite take_app_length' by (rewrite length_app; lia).
    - res_step. cbn [MessageBase.owner_ MessageBase.msgBody_ MessageBase.msgSize_ MessageBase.sender_].
      rewrite B3. res_step. by rewrite Htk. }
  destruct (MessageBase.setMsgSize m (bs + sl)) as [m1|]; [|done]. res_step. cbn [mbind res_bind] in Hset.
  rewrite Hset. res_step. cbn [MessageBase.msgBody_].
  rewrite (get_bytes_head p) by lia. res_step. unfold SigManager.sign.
  rewrite (put_bytes_skip bs), Z.sub_diag by lia.
  rewrite (put_bytes_last t1) by (done || (specialize (Hsg1 p); lia)). res_step.
  rewrite (proj2 (Z.eqb_eq _ _)) by (rewrite Hsg1; lia). res_step.
  change (set_body _ _) with (final sm m gen nv ls es).
  unfold sl. rewrite (final_check sm m gen nv ls es (t1 ++ t2)) by done.
  res_step. by destruct (_ && _).
Qed.

(** What a receiver relies on: it has the verifier of the generating replica's
    signer, which accepts that signer's signatures. *)
Definition verifies (receiver sender : SigManager.t) (id : Z) : Prop :=
  id ≠ SigManager._myId receiver ∧
  ∃ v, SigManager._replicasVerifiers receiver !! id = Some v ∧
    v_signatureLength v = s_signatureLength (SigManager._mySigner sender) ∧
    ∀ d, v_verify v d (s_sign (SigManager._mySigner sender) d) = true.

Lemma final_accepted sm sm' repInfo m gen nv ls es tail :
  layout m gen nv ls es tail → SigManager.signer_ok sm → Forall short_cert es →
  sizeof_Header + enc_len es + SigManager.getMySigLength sm <= maxExternalMessageSize →
  verifies sm' sm gen → gen < ReplicasInfo._numberOfReplicas repInfo → gen ≠ ReplicasInfo._myId repInfo →
  ToActualMsgType repInfo sm' (final sm m gen nv ls es) = Ok (elems_ok ls nv ls es && (loc_of es <? 32768)).
Proof.
  intros L Hsg HS Hfit (Hne & v & Hv & Hvl & Hver) Hgen Hmy.
  pose proof (final_layout sm m gen nv ls es tail L) as LF.
  pose proof (final_check sm m gen nv ls es tail L HS) as HC.
  pose proof (SigManager.getMySigLength_eq sm Hsg) as Hsl.
  assert (SigManager.getSigLength sm' gen = Ok (SigManager.getMySigLength sm)) as Hgl.
  { unfold SigManager.getSigLength, SigManager.find. rewrite (proj2 (Z.eqb_neq _ _)), Hv by done. res_step.
    by rewrite Hvl. }
  pose proof (length_signed_part gen nv ls es) as Hp. destruct Hsg as [Hsg1 Hsg2].
  set (p := signed_part gen nv ls es) in *. specialize (Hsg1 p).
  unfold ToActualMsgType. rewrite (read_type _ _ _ _ _ _ LF). res_step. rewrite Z.eqb_refl. res_step.
  cbn [MessageBase.msgSize_ final].
  assert (0 <= enc_len es) by (unfold enc_len; lia). unfold sizeof_Header, maxExternalMessageSize in *.
  rewrite (proj2 (Z.ltb_ge _ 24)) by lia.
  rewrite (read_gen _ _ _ _ _ _ LF). res_step.
  unfold ReplicasInfo.isIdOfReplica. rewrite (proj2 (Z.ltb_lt _ _)) by done. cbn [negb].
  rewrite (read_locationAfterLast _ _ _ _ _ _ LF), Hgl. res_step.
  assert ((if loc_of es <? 24 then 24 else loc_of es) = 24 + enc_len es) as ->.
  { unfold loc_of, sizeof_Header. destruct es; [done|]. rewrite (proj2 (Z.ltb_ge _ _)); lia. }
  rewrite !u16_small, Z.ltb_irrefl, (proj2 (Z.eqb_neq gen _)) by (done || lia).
  cbn [MessageBase.msgBody_ final]. fold p.
  rewrite (get_bytes_head p) by lia. res_step.
  rewrite (get_bytes_skip (24 + enc_len es)), Z.sub_diag, get_bytes_all by lia. res_step.
  unfold SigManager.verifySig, SigManager.find. rewrite Hv. res_step. rewrite Hver. cbn [negb]. done.
Qed.

(** How a replica makes its message: construct, add the elements, finalize. *)
Definition create (sm : SigManager.t) (src nv ls : Z) (es : list Element) : res MessageBase.t :=
  m ← ctor src nv ls; m ← addElements sm m es; finalizeMessage sm m.

(** C33: a replica's own view-change message, whose certificates are shorter than 32768 bytes and which
    fits the maximal size with its signature, is completed by [finalizeMessage] exactly
    when its elements are legal and the offset after the last of them is below 32768 (the signature may
    go beyond), and a completed
    message is accepted, with all its elements, by every peer; otherwise the
    replica fails the assertion at the end of [finalizeMessage]. *)
Theorem viewChange_finalize_accept sm sm' repInfo src nv ls es :
  0 <= src < 65536 → i64_ok nv → i64_ok ls → addable sm ls es → Forall short_cert es →
  SigManager.signer_ok sm → verifies sm' sm src →
  src < ReplicasInfo._numberOfReplicas repInfo → src ≠ ReplicasInfo._myId repInfo →
  if elems_ok ls nv ls es && (loc_of es <? 32768)
  then ∃ m, create sm src nv ls es = Ok m ∧
         ToActualMsgType repInfo sm' m = Ok true ∧ elements m = Ok es
  else create sm src nv ls es = Err AssertFailed.
Proof.
  intros Hs Hv Hl A HS Hsg Hver Hid Hmy. unfold create.
  destruct (ctor_layout src nv ls Hs Hv Hl) as (m & -> & L & Hsz & Hst & Hse & Ho).
  destruct (addElements_layout sm src nv ls es) with (done_ := @nil Element) (m := m)
    (tail := replicate (Z.to_nat 63976) 0) as (m' & tail' & Hadd & L' & B' & _); try done.
  { apply u16_range. }
  { split; [|done]. rewrite (la_body _ _ _ _ _ _ L), Hst, !length_app, length_header, length_replicate. simpl. lia. }
  simpl app in L'. cbn [mbind res_bind]. rewrite Hadd. cbn [mbind res_bind].
  rewrite (finalizeMessage_eq sm m' src nv ls es tail') by (done || apply A).
  pose proof (final_accepted sm sm' repInfo m' src nv ls es tail' L' Hsg HS (ad_len _ _ _ A) Hver Hid Hmy) as HA.
  destruct (_ && _); [|done].
  eexists. split; [done|]. split; [done|]. eapply elements_layout. by eapply final_layout.
Qed.

Definition sampleInfo : ReplicasInfo.t := ReplicasInfo.sample 4 1 0.
Definition sampleReceiver : SigManager.t :=
  SigManager.mk 0 (mkSigner 4 (fun _ => [5; 6; 7; 8])) (SigManager._replicasVerifiers sampleSig).

Lemma viewChange_finalize_accept_witness :
  ∃ m, create sampleSig 1 5 150 sampleElements = Ok m ∧
    ToActualMsgType sampleInfo sampleReceiver m = Ok true ∧ elements m = Ok sampleElements.
Proof.
  apply (viewChange_finalize_accept sampleSig sampleReceiver sampleInfo 1 5 150 sampleElements).
  - lia.
  - unfold i64_ok; lia.
  - unfold i64_ok; lia.
  - apply sample_addable.
  - repeat constructor.
  - constructor; [reflexivity|split; reflexivity].
  - split; [discriminate|]. exists (mkVerifier 4 (fun _ _ => true)). split_and!; reflexivity.
  - reflexivity.
  - discriminate.
Defined.

(** ** Defects of the 16-bit arithmetic *)

(** The message with one element whose certificate claims [L] bytes of signature:
    [fill] zero bytes stand after the certificate's header. *)
Definition crafted (n loc L : Z) (fill : nat) : MessageBase.t :=
  let bd := enc_header 1 5 0 n loc ++ le_enc 8 1 ++ replicate 32 7 ++ le_enc 8 3 ++ le_enc 1 1 ++
            le_enc 8 2 ++ le_enc 2 L ++ replicate fill 0 ++ [1; 2; 3; 4] in
  MessageBase.mk bd (Z.of_nat (length bd)) (Z.of_nat (length bd)) 1 true.

(** a signed message that claims a certificate of 65526 bytes passes the whole
    validation ([s] becomes 0 in [int16_t]), and the iterator then fails its
    assertion: one faulty replica stops the replicas that accept its message. *)
Theorem accepted_message_fails_iterator :
  ToActualMsgType sampleInfo sampleReceiver (crafted 1 73 65526 0) = Ok true ∧
  elements (crafted 1 73 65526 0) = Err AssertFailed.
Proof. split; vm_compute; reflexivity. Qed.

(** a claimed length of 32758 bytes makes [s] negative; the validation itself
    then moves [currLoc] in front of the body and reads outside it. *)
Theorem validation_reads_outside_body :
  ToActualMsgType sampleInfo sampleReceiver (crafted 2 73 32758 0) = Err OutOfBounds.
Proof. vm_compute. reflexivity. Qed.

(** the size test of [ToActualMsgType] wraps in [uint16_t]: with 65532 as
    [locationAfterLast] and 4 bytes of signature it compares with 0, and the
    signature check reads far outside a body of 87 bytes. *)
Theorem size_check_wraps :
  Z.of_nat (length (body (crafted 1 65532 3 0))) = 87 ∧
  ToActualMsgType sampleInfo sampleReceiver (crafted 1 65532 3 0) = Err OutOfBounds.
Proof. split; vm_compute; reflexivity. Qed.
End ViewChangeMsg.
