(* ===== verification/ViewChangeSafety.v ===== *)
(** * ViewChangeSafetyLogic
    (bftengine/src/bftengine/ViewChangeSafetyLogic.hpp, .cpp)

    From the view-change messages of a new view: the lower bound of the last
    stable sequence number, and for every sequence number of the work window
    whether a digest must be proposed again in the new view.  A message is its
    decoded form here (ViewChangeMsg.v proves that the byte-level iterator visits
    exactly the elements of a message that encodes elements, and that there are accepted
    messages which it cannot read), an [ElementsIterator] is the list of elements
    still to visit. *)
From S2P Require Import Prelude SysConsts Digest ViewChangeMsg.

Module ViewChangeSafety.
Export ViewChangeMsg (Element, mkElement, e_seqNum, e_prePrepreDigest, e_originView, e_certificate).

(** A decoded view-change message. *)
Record VC := mkVC { vc_newView : Z; vc_lastStable : Z; vc_elements : list Element }.

Record Restriction := mkRestriction { isNull : bool; digest : Digest }.

(** [SlowElem]: an element with its prepared certificate. *)
Record SlowElem := mkSlow { sl_e : Element; sl_view : Z; sl_sig : list Z }.

(** [memcmp(a, b, n) < 0] *)
Fixpoint memcmp_lt (a b : list Z) : bool :=
  match a, b with
  | x :: a', y :: b' => if x =? y then memcmp_lt a' b' else x <? y
  | _, _ => false
  end.

Definition SlowElemCompare (l r : SlowElem) : bool :=
  if negb (sl_view l =? sl_view r) then sl_view r <? sl_view l
  else memcmp_lt (e_prePrepreDigest (sl_e l)) (e_prePrepreDigest (sl_e r)).

(** [std::set<SlowElem, SlowElemCompare>::insert]: nothing is inserted when an
    equivalent element is present. *)
Fixpoint slow_insert (x : SlowElem) (l : list SlowElem) : list SlowElem :=
  match l with
  | [] => [x]
  | y :: l' =>
      if SlowElemCompare x y then x :: l
      else if SlowElemCompare y x then y :: slow_insert x l' else l
  end.

(** [checkSlowPathCertificates], "for debug only". *)
Fixpoint checkSlowPathCertificates (lastElement : option SlowElem) (l : list SlowElem) : res bool :=
  match l with
  | [] => Ok true
  | e :: l' =>
      match lastElement with
      | None => checkSlowPathCertificates (Some e) l'
      | Some la =>
          if sl_view la <? sl_view e then Ok false
          else
            _ ← (if sl_view e =? sl_view la
                 then Assert (e_seqNum (sl_e e) =? e_seqNum (sl_e la)) else Ok tt);
            checkSlowPathCertificates (Some e) l'
      end
  end.

(** The order of [qsort]: decreasing. *)
Definition compareSeqNumbers (x y : Z) : Z := if y <? x then -1 else if x <? y then 1 else 0.
Definition precedes (x y : Z) : Prop := compareSeqNumbers x y <= 0.
#[export] Instance precedes_dec : RelDecision precedes.
Proof. unfold precedes. solve_decision. Defined.

(** [ElementsIterator::goToAtLeast] on the elements still to visit. *)
Fixpoint goToAtLeast (lowerBound : Z) (es : list Element) : list Element :=
  match es with
  | e :: es' => if e_seqNum e <? lowerBound then goToAtLeast lowerBound es' else es
  | [] => []
  end.

Section defs.
(** [preparedCertVerifier->verify] is a threshold-signature library call. *)
Context (N F C : Z) (verify : Digest → list Z → bool) (nullDigest : Digest).

Definition INC_IN_VC : Z := u16 (2 * F + 2 * C + 1).

(** The loop of [calcLBStableForView] over the messages' array. *)
Fixpoint collectStable (msgs : list (option VC)) (n v : Z) (stableNumbers : list Z)
  : res (Z * list Z) :=
  match msgs with
  | [] => Ok (n, stableNumbers)
  | None :: msgs' => collectStable msgs' n v stableNumbers
  | Some vc :: msgs' =>
      v ← (if n =? 0 then Ok (vc_newView vc)
           else assert! (v =? vc_newView vc) ;; Ok v);
      _ ← (if n <? INC_IN_VC then Ok tt else Err OutOfBounds);
      let n := u16 (n + 1) in
      assert! (n <=? INC_IN_VC) ;;
      collectStable msgs' n v (stableNumbers ++ [vc_lastStable vc])
  end.

(** [qsort] with [compareSeqNumbers]. *)
Definition sortStable (l : list Z) : list Z := merge_sort precedes l.

Definition calcLBStableForView (msgs : list (option VC)) : res Z :=
  '(n, stableNumbers) ← collectStable msgs 0 0 [];
  assert! (n =? INC_IN_VC) ;;
  let sorted := sortStable stableNumbers in
  match sorted !! Z.to_nat 0, sorted !! Z.to_nat (n - 1), sorted !! Z.to_nat (F + 1 - 1) with
  | Some first, Some last, Some lowerBoundOfLastStable =>
      assert! (last <=? first) ;;
      Ok lowerBoundOfLastStable
  | _, _, _ => Err OutOfBounds
  end.

(** An [ElementsIterator]: the elements from the current one on. *)
#[local] Abbreviation iter := (list Element).

(** [getCurrent] followed by [Assert(validElem && elem->seqNum >= s)] *)
Definition current (s : Z) (it : iter) : res Element :=
  match it with
  | e :: _ => assert! (s <=? e_seqNum e) ;; Ok e
  | [] => Err AssertFailed
  end.

Definition toSlow (e : Element) : option SlowElem :=
  match e_certificate e with Some (cv, sg) => Some (mkSlow e cv sg) | None => None end.

(** "collect slow certificates" *)
Fixpoint collectSlow (s : Z) (its : list iter) (set : list SlowElem) : res (list SlowElem) :=
  match its with
  | [] => Ok set
  | it :: its' =>
      e ← current s it;
      let set := if e_seqNum e =? s
                 then match toSlow e with Some x => slow_insert x set | None => set end
                 else set in
      collectSlow s its' set
  end.

Definition certificate_valid (x : SlowElem) : bool :=
  verify (Digest.calcCombination (e_prePrepreDigest (sl_e x)) (sl_view x) (e_seqNum (sl_e x))) (sl_sig x).

(** "Select prepared certificate": the first valid one of the set. *)
Fixpoint selectSlow (s : Z) (set : list SlowElem) : res (option SlowElem) :=
  match set with
  | [] => Ok None
  | x :: set' =>
      assert! (s =? e_seqNum (sl_e x)) ;;
      assert! (0 <? Z.of_nat (length (sl_sig x))) ;;
      if certificate_valid x then Ok (Some x) else selectSlow s set'
  end.

(** "Collect vote of each replicas" *)
Fixpoint collectFast (s minRelevantFastView : Z) (its : list iter) (counters : gmap Digest Z)
  : res (option Digest) :=
  match its with
  | [] => Ok None
  | it :: its' =>
      e ← current s it;
      if (e_seqNum e =? s) && (minRelevantFastView <=? e_originView e) then
        let d := e_prePrepreDigest e in
        match counters !! d with
        | None => collectFast s minRelevantFastView its' (<[d := 1]> counters)
        | Some k =>
            if k + 1 =? u16 (F + C + 1) then Ok (Some d)
            else collectFast s minRelevantFastView its' (<[d := k + 1]> counters)
        end
      else collectFast s minRelevantFastView its' counters
  end.

(** "Advance iterators + delete irrelevant iterators": an iterator that is no longer
    needed is overwritten by the last one, which is popped. *)
Fixpoint advanceLoop (fuel : nat) (s upperBound : Z) (its : list iter) (currentIdx : nat)
  : res (list iter) :=
  match its !! currentIdx with
  | None => Ok its
  | Some it =>
      match fuel with
      | O => Err OutOfFuel
      | S fuel' =>
          match it with
          | [] => Err AssertFailed
          | e :: rest =>
              if s <? e_seqNum e then advanceLoop fuel' s upperBound its (S currentIdx)
              else
                assert! (e_seqNum e =? s) ;;
                let remove := match rest with [] => true | e' :: _ => upperBound <? e_seqNum e' end in
                if remove then
                  match last its with
                  | None => Err OutOfBounds
                  | Some l =>
                      advanceLoop fuel' s upperBound
                        (take (length its - 1) (<[currentIdx := l]> its)) currentIdx
                  end
                else advanceLoop fuel' s upperBound (<[currentIdx := rest]> its) (S currentIdx)
          end
      end
  end.

(** Result: whether there is a restriction, [outRestrictedDigest] and the iterators. *)
Definition computeRestrictionsForSeqNum (s : Z) (its : list iter) (upperBound : Z)
  : res (bool * Digest * list iter) :=
  assert! (negb (bool_decide (its = []))) ;;
  assert! (s <=? upperBound) ;;
  set ← collectSlow s its [];
  chk ← checkSlowPathCertificates None set;
  assert! chk ;;
  selectedSlow ← selectSlow s set;
  let minRelevantFastView := match selectedSlow with Some x => sl_view x + 1 | None => 0 end in
  selectedFast ← collectFast s minRelevantFastView its ∅;
  its' ← advanceLoop (length its) s upperBound its 0;
  match selectedFast, selectedSlow with
  | Some d, _ => Ok (true, d, its')
  | None, Some x => Ok (true, e_prePrepreDigest (sl_e x), its')
  | None, None => Ok (false, zeroDigest, its')
  end.

(** "create iterators": messages without elements from [lowerBound] on are left out. *)
Fixpoint createIterators (lowerBound : Z) (msgs : list (option VC)) : list iter :=
  match msgs with
  | [] => []
  | None :: msgs' => createIterators lowerBound msgs'
  | Some vc :: msgs' =>
      let it := goToAtLeast lowerBound (vc_elements vc) in
      match it with
      | [] => createIterators lowerBound msgs'
      | _ => it :: createIterators lowerBound msgs'
      end
  end.

Definition set_restriction (arr : list Restriction) (i : Z) (r : Restriction) : res (list Restriction) :=
  if (0 <=? i) && (i <? Z.of_nat (length arr)) then Ok (<[Z.to_nat i := r]> arr) else Err OutOfBounds.

(** "reset the remaining elements": [n] entries from index [i] on. *)
Fixpoint resetRemaining (n : nat) (i : Z) (arr : list Restriction) : res (list Restriction) :=
  match n with
  | O => Ok arr
  | S n' =>
      match arr !! Z.to_nat i with
      | None => Err OutOfBounds
      | Some r => arr ← set_restriction arr i (mkRestriction true (digest r));
                  resetRemaining n' (i + 1) arr
      end
  end.

(** "look for safety restrictions"; [n] is [upperBound - currSeqNum + 1].
    Result: the array and [lastRestcitionNum]. *)
Fixpoint restrictionLoop (n : nat) (lowerBound upperBound currSeqNum : Z) (its : list iter)
    (arr : list Restriction) (lastRestcitionNum : Z) : res (list Restriction * Z) :=
  match n with
  | O => Ok (arr, lastRestcitionNum)
  | S n' =>
      match its with
      | [] => arr ← resetRemaining n (currSeqNum - lowerBound) arr; Ok (arr, lastRestcitionNum)
      | _ =>
          '(hasRest, d, its') ← computeRestrictionsForSeqNum currSeqNum its upperBound;
          let restricted := hasRest && negb (Digest.eqb d nullDigest) in
          arr ← set_restriction arr (currSeqNum - lowerBound) (mkRestriction (negb restricted) d);
          restrictionLoop n' lowerBound upperBound (currSeqNum + 1) its' arr
            (if restricted then currSeqNum else lastRestcitionNum)
      end
  end.

(** Result: the array, [outMinRestrictedSeqNum] and [outMaxRestrictedSeqNum].  The messages are
    decoded: the assertions of the byte-level iterator, which some accepted messages fail
    ([ViewChangeMsg.accepted_message_fails_iterator]), are not part of this definition. *)
Definition computeRestrictions (msgs : list (option VC)) (inLBStableForView : Z)
    (arr : list Restriction) : res (list Restriction * Z * Z) :=
  let lowerBound := inLBStableForView + 1 in
  let upperBound := inLBStableForView + kWorkWindowSize in
  let its := createIterators lowerBound msgs in
  let noElements := bool_decide (its = []) in
  '(arr, lastRestcitionNum) ←
    restrictionLoop (Z.to_nat (upperBound - lowerBound + 1)) lowerBound upperBound lowerBound its arr 0;
  if noElements then Ok (arr, 0, 0)
  else if (0 <? lastRestcitionNum) && (lastRestcitionNum <=? upperBound - checkpointWindowSize)
  then Ok (arr, lowerBound, upperBound - checkpointWindowSize)
  else Ok (arr, lowerBound, upperBound).
End defs.

(** ** The lower bound of the stable sequence number *)

Lemma precedes_iff x y : precedes x y ↔ y <= x.
Proof. unfold precedes, compareSeqNumbers. repeat case_match; bool_to_prop; lia. Qed.

#[export] Instance precedes_total : Total precedes.
Proof. intros x y. rewrite !precedes_iff. lia. Qed.
#[export] Instance precedes_trans : Transitive precedes.
Proof. intros x y z. rewrite !precedes_iff. lia. Qed.

Lemma sortStable_perm l : sortStable l ≡ₚ l.
Proof. apply merge_sort_Permutation. Qed.
Lemma sortStable_sorted l : StronglySorted precedes (sortStable l).
Proof. apply StronglySorted_merge_sort; apply _. Qed.

(** In a decreasing list, the entry at [k] bounds the others. *)
Lemma decreasing_counts l k x : StronglySorted precedes l → l !! k = Some x →
  Z.of_nat k + 1 <= count (fun z => x <= z) l ∧ Z.of_nat (length l) - Z.of_nat k <= count (fun z => z <= x) l.
Proof.
  unfold count. revert k. induction l as [|a l IH]; intros k Hs Hk; [done|].
  inversion_clear Hs as [|? ? Hs' Ha]. destruct k as [|k]; simpl in Hk.
  - simplify_eq. rewrite filter_cons_True, filter_cons_True by lia.
    rewrite (filter_all (fun z => z <= x) l); [simpl; lia|].
    eapply Forall_impl; [exact Ha|]. intros y. simpl. by rewrite precedes_iff.
  - destruct (IH k Hs' Hk) as [H1 H2]. apply Forall_lookup_1 with (i := k) (x := x) in Ha; [|done].
    rewrite precedes_iff in Ha. rewrite filter_cons_True by done. simpl length.
    rewrite filter_cons. case_decide; simpl length; lia.
Qed.

(** The first entry of a decreasing list bounds every other one. *)
Lemma decreasing_first l x0 x1 k : StronglySorted precedes l → l !! Z.to_nat 0 = Some x0 →
  l !! k = Some x1 → x1 <= x0.
Proof.
  intros Hs E0 E1. destruct l as [|y s]; [done|]. simpl in E0. simplify_eq.
  destruct k as [|k]; simpl in E1; [simplify_eq; lia|].
  inversion_clear Hs as [|? ? _ Ha]. apply Forall_lookup_1 with (i := k) (x := x1) in Ha; [|done].
  by rewrite precedes_iff in Ha.
Qed.

Section stable.
Context (F C : Z) (HF : 0 <= F) (HC : 0 <= C) (Hw : 2 * F + 2 * C + 1 < 65536).
#[local] Abbreviation INC := (INC_IN_VC F C).

Lemma INC_eq : INC = 2 * F + 2 * C + 1.
Proof. unfold INC_IN_VC. apply u16_small. lia. Qed.

Lemma collectStable_spec v msgs : ∀ n v0 acc,
  Forall (fun vc => vc_newView vc = v) (present msgs) →
  0 <= n → (n ≠ 0 → v0 = v) → n + Z.of_nat (length (present msgs)) <= INC →
  collectStable F C msgs n v0 acc =
    Ok (n + Z.of_nat (length (present msgs)), acc ++ (vc_lastStable <$> present msgs)).
Proof.
  pose proof INC_eq as HI. induction msgs as [|[vc|] msgs IH]; intros n v0 acc Hv Hn Hv0 Hlen; cbn [collectStable].
  - do 2 f_equal; [simpl; lia|by rewrite app_nil_r].
  - rewrite present_some, length_cons, fmap_cons in *. inversion_clear Hv as [|? ? Hvc Hv'].
    assert ((if n =? 0 then Ok (vc_newView vc) else assert! (v0 =? vc_newView vc) ;; Ok v0) = Ok v) as ->.
    { destruct (Z.eqb_spec n 0); [by rewrite Hvc|]. rewrite Hv0, Hvc, Z.eqb_refl by done. done. }
    res_step. rewrite (proj2 (Z.ltb_lt _ _)) by lia. res_step. rewrite u16_small by lia.
    rewrite (proj2 (Z.leb_le _ _)) by lia. res_step. rewrite IH by (done || lia).
    rewrite <- app_assoc. do 2 f_equal. lia.
  - by apply IH.
Qed.

(** The lower bound is the entry [F] of the sorted stable numbers. *)
Lemma calcLB_lookup msgs v :
  Z.of_nat (length (present msgs)) = 2 * F + 2 * C + 1 →
  Forall (fun vc => vc_newView vc = v) (present msgs) →
  ∃ lb, calcLBStableForView F C msgs = Ok lb ∧
    sortStable (vc_lastStable <$> present msgs) !! Z.to_nat F = Some lb.
Proof.
  intros Hlen Hv. pose proof INC_eq as HI. unfold calcLBStableForView.
  rewrite (collectStable_spec v) by (done || lia). res_step. simpl app.
  rewrite Hlen, Z.add_0_l, <- HI, Z.eqb_refl. res_step.
  set (l := vc_lastStable <$> present msgs). pose proof (sortStable_perm l) as Hp.
  assert (Z.of_nat (length (sortStable l)) = INC) as Hl
    by (rewrite Hp; unfold l; rewrite length_fmap; lia).
  pose proof (sortStable_sorted l) as Hs. rewrite Z.add_simpl_r.
  destruct (sortStable l !! Z.to_nat 0) as [x0|] eqn:E0;
    [|apply lookup_ge_None in E0; lia].
  destruct (sortStable l !! Z.to_nat (INC - 1)) as [x1|] eqn:E1;
    [|apply lookup_ge_None in E1; lia].
  destruct (sortStable l !! Z.to_nat F) as [lb|] eqn:E2;
    [|apply lookup_ge_None in E2; lia].
  assert (x1 <= x0) as H01 by (by eapply (decreasing_first (sortStable l))).
  rewrite (proj2 (Z.leb_le _ _)) by done. by exists lb.
Qed.

(** C14: from exactly 2f+2c+1 view-change messages for one view, in any order and
    from any replicas, the lower bound is computed without failure; it is the
    stable number of one of them, at least f+1 messages are at or above it
    (one is from a correct replica) and at least f+2c+1 are at or below it. *)
Theorem calcLBStable_quorum msgs v :
  Z.of_nat (length (present msgs)) = 2 * F + 2 * C + 1 →
  Forall (fun vc => vc_newView vc = v) (present msgs) →
  ∃ lb, calcLBStableForView F C msgs = Ok lb ∧ lb ∈ vc_lastStable <$> present msgs ∧
    F + 1 <= count (fun z => lb <= z) (vc_lastStable <$> present msgs) ∧
    F + 2 * C + 1 <= count (fun z => z <= lb) (vc_lastStable <$> present msgs).
Proof.
  intros Hlen Hv. destruct (calcLB_lookup msgs v Hlen Hv) as (lb & Hc & Hlb). exists lb. split; [done|].
  set (l := vc_lastStable <$> present msgs) in *. pose proof (sortStable_perm l) as Hp.
  destruct (decreasing_counts _ _ _ (sortStable_sorted l) Hlb) as [H1 H2].
  assert (Z.of_nat (length (sortStable l)) = 2 * F + 2 * C + 1) as Hl
    by (rewrite Hp; unfold l; rewrite length_fmap; lia).
  rewrite !(count_perm _ _ _ Hp) in *. split_and!; [|lia|lia].
  rewrite <- Hp. by eapply list_elem_of_lookup_2.
Qed.
End stable.

Lemma calcLBStable_quorum_witness :
  ∃ lb, calcLBStableForView 1 0 [Some (mkVC 5 150 []); None; Some (mkVC 5 0 []); Some (mkVC 5 300 [])] = Ok lb ∧
    lb ∈ [150; 0; 300] ∧ 2 <= count (fun z => lb <= z) [150; 0; 300] ∧ 2 <= count (fun z => z <= lb) [150; 0; 300].
Proof.
  apply (calcLBStable_quorum 1 0) with (v := 5)
    (msgs := [Some (mkVC 5 150 []); None; Some (mkVC 5 0 []); Some (mkVC 5 300 [])]);
    try lia; try reflexivity. repeat constructor.
Defined.

(** ** The restriction of one sequence number, as a function of the votes *)

Definition seq_lt (a b : Element) : Prop := e_seqNum a < e_seqNum b.

(** The current elements of the iterators that are about [s]. *)
Definition headAt (s : Z) (it : list Element) : option Element :=
  match it with e :: _ => if e_seqNum e =? s then Some e else None | [] => None end.
Definition heads (s : Z) (its : list (list Element)) : list Element := omap (headAt s) its.

(** An iterator at or after [s]: what [current] asserts, strictly increasing as
    [checkElements] established, and no certificate with an empty signature. *)
Record live (s : Z) (it : list Element) : Prop := {
  lv_some : it ≠ [];
  lv_sorted : StronglySorted seq_lt it;
  lv_ge : Forall (fun e => s <= e_seqNum e) it;
  lv_cert : Forall (fun e => ∀ cv sg, e_certificate e = Some (cv, sg) → sg ≠ []) it;
}.

Lemma current_live s it : live s it → ∃ e rest, it = e :: rest ∧ current s it = Ok e.
Proof.
  intros [Hn _ Hge _]. destruct it as [|e rest]; [done|]. exists e, rest. split; [done|].
  inversion_clear Hge. simpl. by rewrite (proj2 (Z.leb_le _ _)).
Qed.

Definition slowSet (V : list Element) : list SlowElem :=
  foldl (fun set x => slow_insert x set) [] (omap toSlow V).

(** Facts about the elements of the set. *)
Lemma slow_insert_elem x l y : y ∈ slow_insert x l → y = x ∨ y ∈ l.
Proof.
  induction l as [|a l IH]; simpl.
  - rewrite list_elem_of_singleton. tauto.
  - repeat case_match; rewrite ?elem_of_cons; naive_solver.
Qed.

Lemma slowSet_elem_gen xs : ∀ set y, y ∈ foldl (fun set x => slow_insert x set) set xs → y ∈ xs ∨ y ∈ set.
Proof.
  induction xs as [|x xs IH]; intros set y Hy; simpl in *; [by right|].
  apply IH in Hy as [?|Hy]; [left; by right|].
  apply slow_insert_elem in Hy as [->|?]; [left; by left|by right].
Qed.

Lemma slowSet_elem V x : x ∈ slowSet V → x ∈ omap toSlow V.
Proof. intros [?|?%elem_of_nil]%slowSet_elem_gen; done. Qed.

Lemma toSlow_elem (V : list Element) x : x ∈ omap toSlow V ↔
  sl_e x ∈ V ∧ e_certificate (sl_e x) = Some (sl_view x, sl_sig x).
Proof.
  rewrite list_elem_of_omap. unfold toSlow. split.
  - intros (e & He & Hx). repeat case_match; simplify_eq. done.
  - intros [Hin Hc]. exists (sl_e x). split; [done|]. rewrite Hc. by destruct x.
Qed.

Definition view_ge (a b : SlowElem) : Prop := sl_view b <= sl_view a.

Lemma slow_insert_sorted x l : StronglySorted view_ge l → StronglySorted view_ge (slow_insert x l).
Proof.
  assert (∀ a b, SlowElemCompare a b = true → view_ge a b) as Hc.
  { intros a b. unfold SlowElemCompare, view_ge. case_match; intros; bool_to_prop; lia. }
  induction 1 as [|a l Hl IH Ha]; simpl; [by repeat constructor|].
  destruct (SlowElemCompare x a) eqn:E1.
  - apply Hc in E1. constructor; [by constructor|]. constructor; [done|].
    eapply Forall_impl; [exact Ha|]. unfold view_ge in *. intros; lia.
  - destruct (SlowElemCompare a x) eqn:E2; [|by constructor]. apply Hc in E2.
    constructor; [done|]. apply Forall_forall. intros y [->|Hy]%slow_insert_elem; [done|].
    by eapply Forall_forall in Ha.
Qed.

Lemma slowSet_sorted V : StronglySorted view_ge (slowSet V).
Proof.
  unfold slowSet. generalize (omap toSlow V) as xs. intros xs.
  assert (∀ set, StronglySorted view_ge set →
    StronglySorted view_ge (foldl (fun set x => slow_insert x set) set xs)) as H; [|apply H; constructor].
  induction xs as [|x xs IH]; intros set Hs; simpl; [done|]. apply IH. by apply slow_insert_sorted.
Qed.

Lemma checkSlow_ok s l : StronglySorted view_ge l → Forall (fun x => e_seqNum (sl_e x) = s) l →
  ∀ o, match o with Some la => Forall (view_ge la) l ∧ e_seqNum (sl_e la) = s | None => True end →
  checkSlowPathCertificates o l = Ok true.
Proof.
  intros Hs. induction Hs as [|x l Hl IH Hx]; intros HF o Ho; [done|].
  inversion_clear HF as [|? ? Hxs HF']. cbn [checkSlowPathCertificates].
  destruct o as [la|]; [|by apply IH]. destruct Ho as [[Hv _]%Forall_cons Hla]. unfold view_ge in Hv.
  rewrite (proj2 (Z.ltb_ge _ _)) by done. rewrite Hxs, Hla, Z.eqb_refl.
  destruct (sl_view x =? sl_view la); res_step; by apply IH.
Qed.

Section spec.
Context (F C : Z) (verify : Digest → list Z → bool) (nullDigest : Digest).
#[local] Abbreviation valid := (certificate_valid verify).

Definition slowSelect (V : list Element) : option SlowElem :=
  head (filter (fun x => valid x = true) (slowSet V)).

Fixpoint fastSelect (l : list Digest) (counters : gmap Digest Z) : option Digest :=
  match l with
  | [] => None
  | d :: l' =>
      match counters !! d with
      | None => fastSelect l' (<[d := 1]> counters)
      | Some k => if k + 1 =? u16 (F + C + 1) then Some d else fastSelect l' (<[d := k + 1]> counters)
      end
  end.
Definition fastVotes (minView : Z) (V : list Element) : list Digest :=
  e_prePrepreDigest <$> filter (fun e => minView <= e_originView e) V.

Definition minFastView (V : list Element) : Z :=
  match slowSelect V with Some x => sl_view x + 1 | None => 0 end.
Definition restriction_of (V : list Element) : option Digest :=
  match fastSelect (fastVotes (minFastView V) V) ∅ with
  | Some d => Some d
  | None => (fun x => e_prePrepreDigest (sl_e x)) <$> slowSelect V
  end.

Lemma collectSlow_eq s its : Forall (live s) its → ∀ set,
  collectSlow s its set = Ok (foldl (fun set x => slow_insert x set) set (omap toSlow (heads s its))).
Proof.
  induction 1 as [|it its Hit _ IH]; intros set; [done|]. cbn [collectSlow].
  destruct (current_live s it Hit) as (e & rest & -> & ->). res_step. rewrite IH.
  unfold heads. simpl. destruct (e_seqNum e =? s); [|done]. simpl.
  by destruct (toSlow e).
Qed.

Lemma collectFast_eq s m its : Forall (live s) its → ∀ counters,
  collectFast F C s m its counters = Ok (fastSelect (fastVotes m (heads s its)) counters).
Proof.
  induction 1 as [|it its Hit _ IH]; intros counters; [done|]. cbn [collectFast].
  destruct (current_live s it Hit) as (e & rest & -> & ->). res_step.
  unfold heads. simpl. destruct (e_seqNum e =? s); simpl; [|apply IH].
  unfold fastVotes. rewrite filter_cons.
  destruct (Z.leb_spec m (e_originView e)); [rewrite decide_True by done|rewrite decide_False by lia; apply IH].
  simpl. repeat case_match; try apply IH; done.
Qed.

Lemma selectSlow_eq s l :
  Forall (fun x => e_seqNum (sl_e x) = s) l → Forall (fun x => sl_sig x ≠ []) l →
  selectSlow verify s l = Ok (head (filter (fun x => valid x = true) l)).
Proof.
  induction 1 as [|x l Hx _ IH]; intros HS; [done|]. inversion_clear HS. cbn [selectSlow].
  rewrite Hx, Z.eqb_refl. res_step.
  rewrite (proj2 (Z.ltb_lt _ _)) by (destruct (sl_sig x); [done|simpl; lia]). res_step.
  rewrite filter_cons. destruct (valid x); [done|]. by rewrite decide_False, IH by done.
Qed.
End spec.

(** ** The iterators *)

(** What becomes of one iterator. *)
Definition advance1 (s ub : Z) (it : list Element) : option (list Element) :=
  match it with
  | [] => None
  | e :: rest =>
      if s <? e_seqNum e then Some it
      else if match rest with [] => true | e' :: _ => ub <? e_seqNum e' end then None else Some rest
  end.

Lemma advanceLoop_perm s ub : ∀ fuel pre todo, Forall (live s) todo → (length todo <= fuel)%nat →
  ∃ its', advanceLoop fuel s ub (pre ++ todo) (length pre) = Ok its' ∧
    its' ≡ₚ pre ++ omap (advance1 s ub) todo.
Proof.
  induction fuel as [|fuel IH]; intros pre todo Hl Hf.
  { destruct todo; [|simpl in Hf; lia]. exists pre. simpl. rewrite app_nil_r, lookup_ge_None_2 by lia. done. }
  destruct todo as [|it todo]; cbn [advanceLoop].
  { exists pre. simpl. rewrite app_nil_r, lookup_ge_None_2 by lia. done. }
  rewrite list_lookup_middle by done. inversion_clear Hl as [|? ? Hit Hl'].
  destruct (current_live s it Hit) as (e & rest & -> & _). pose proof (lv_ge _ _ Hit) as Hge.
  inversion_clear Hge as [|? ? Hes _]. simpl in Hf. simpl omap.
  destruct (Z.ltb_spec s (e_seqNum e)) as [Hgt|Hle].
  { destruct (IH (pre ++ [e :: rest]) todo Hl') as (its' & Hr & Hp); [lia|].
    rewrite <- app_assoc, length_app, Nat.add_1_r in Hr. exists its'. split; [done|]. by rewrite Hp, <- app_assoc. }
  rewrite (proj2 (Z.eqb_eq _ _)) by lia. res_step.
  destruct (match rest with [] => true | e' :: _ => ub <? e_seqNum e' end) eqn:Er.
  - destruct todo as [|l todo _] using rev_ind.
    + rewrite last_snoc. exists pre. rewrite length_app. simpl.
      rewrite Nat.add_sub, insert_app_r_alt, Nat.sub_diag by lia. simpl.
      rewrite take_app_length. rewrite app_nil_r. destruct fuel; simpl; by rewrite lookup_ge_None_2 by lia.
    + rewrite app_comm_cons, app_assoc, last_snoc.
      replace (take _ _) with (pre ++ l :: todo).
      2: { rewrite !length_app. simpl. rewrite <- app_assoc. simpl.
           rewrite insert_app_r_alt, Nat.sub_diag by lia. simpl.
           rewrite app_comm_cons, app_assoc, take_app_length'; [done|rewrite length_app; simpl; lia]. }
      destruct (IH pre (l :: todo)) as (its' & Hr & Hp).
      { apply Forall_app in Hl' as [? [? _]%Forall_cons]. by constructor. }
      { rewrite length_app in Hf. simpl in *. lia. }
      exists its'. split; [done|]. rewrite Hp. f_equiv.
      rewrite (omap_app _ todo [l]). simpl. destruct (advance1 s ub l); [|by rewrite app_nil_r].
      by rewrite Permutation_app_comm.
  - destruct (IH (pre ++ [rest]) todo Hl') as (its' & Hr & Hp); [lia|].
    rewrite <- app_assoc, length_app, Nat.add_1_r in Hr.
    rewrite insert_app_r_alt, Nat.sub_diag by lia. exists its'. split; [done|]. by rewrite Hp, <- app_assoc.
Qed.

(** An advanced iterator is past [s]. *)
Lemma advance1_live s ub it it' : live s it → advance1 s ub it = Some it' → live (s + 1) it'.
Proof.
  intros [Hn Hs Hg Hc] Ha. destruct it as [|e rest]; [done|]. simpl in Ha.
  inversion_clear Hs as [|? ? Hs' He]. inversion_clear Hg as [|? ? Hge Hg'].
  destruct (Z.ltb_spec s (e_seqNum e)).
  - simplify_eq. constructor; [done|by constructor| |done]. constructor; [lia|].
    eapply Forall_impl; [exact He|]. unfold seq_lt. intros; lia.
  - inversion_clear Hc. case_match eqn:Er; simplify_eq. destruct it' as [|e' r]; [done|].
    constructor; [done|done| |done]. eapply Forall_impl; [exact He|]. unfold seq_lt. intros; lia.
Qed.

#[local] Abbreviation between a b := (fun e => a <= e_seqNum e ∧ e_seqNum e <= b).

(** Of the elements up to [ub], advancing removes exactly those at [s]. *)
Lemma advance1_elems s ub it : live s it →
  filter (between (s + 1) ub) (default [] (advance1 s ub it)) = filter (between (s + 1) ub) it.
Proof.
  intros [Hn Hs Hg Hc]. destruct it as [|e rest]; [done|]. simpl. inversion_clear Hs as [|? ? Hs' He].
  inversion_clear Hg as [|? ? Hge _]. destruct (Z.ltb_spec s (e_seqNum e)); [done|].
  rewrite (filter_cons_False _ e) by lia. case_match eqn:Er; [|done]. simpl.
  symmetry. apply filter_none. destruct rest as [|e' r]; [done|]. bool_to_prop.
  inversion_clear Hs' as [|? ? _ He']. constructor; [lia|].
  eapply Forall_impl; [exact He'|]. unfold seq_lt. intros; lia.
Qed.

Lemma head_elems s it : live s it →
  filter (fun e => e_seqNum e = s) it = match headAt s it with Some e => [e] | None => [] end.
Proof.
  intros [Hn Hs Hg Hc]. destruct it as [|e rest]; [done|]. simpl. inversion_clear Hs as [|? ? Hs' He].
  inversion_clear Hg as [|? ? Hge _].
  assert (filter (fun e => e_seqNum e = s) rest = []) as Hr.
  { apply filter_none. eapply Forall_impl; [exact He|]. unfold seq_lt. intros; lia. }
  rewrite filter_cons. destruct (Z.eqb_spec (e_seqNum e) s); [by rewrite decide_True, Hr|by rewrite decide_False].
Qed.

Lemma heads_eq s its : Forall (live s) its → heads s its = filter (fun e => e_seqNum e = s) (concat its).
Proof.
  induction 1 as [|it its Hit _ IH]; [done|]. unfold heads in *. simpl. rewrite filter_app, head_elems, <- IH by done.
  by destruct (headAt s it).
Qed.

Lemma filter_concat_default {A} (P : A → Prop) `{!∀ x, Decision (P x)} (f : list A → option (list A)) its :
  Forall (fun it => filter P (default [] (f it)) = filter P it) its →
  filter P (concat (omap f its)) = filter P (concat its).
Proof.
  induction 1 as [|it its Hit _ IH]; [done|]. simpl. rewrite filter_app, <- IH, <- Hit.
  destruct (f it); simpl; [by rewrite filter_app|done].
Qed.

Section step.
Context (F C : Z) (verify : Digest → list Z → bool).

(** One call of [computeRestrictionsForSeqNum]. *)
Lemma computeRestrictionsForSeqNum_spec s ub its : Forall (live s) its → its ≠ [] → s <= ub →
  ∃ its', computeRestrictionsForSeqNum F C verify s its ub =
      Ok (match restriction_of F C verify (heads s its) with
          | Some d => (true, d, its') | None => (false, zeroDigest, its') end) ∧
    Forall (live (s + 1)) its' ∧
    filter (between (s + 1) ub) (concat its') ≡ₚ filter (between (s + 1) ub) (concat its).
Proof.
  intros Hl Hne Hs. unfold computeRestrictionsForSeqNum.
  rewrite bool_decide_eq_false_2 by done. cbn [negb]. rewrite (proj2 (Z.leb_le _ _)) by done. res_step.
  rewrite collectSlow_eq by done. res_step. fold (slowSet (heads s its)).
  assert (∀ x, x ∈ slowSet (heads s its) → e_seqNum (sl_e x) = s ∧ sl_sig x ≠ []) as Hset.
  { intros x Hx. apply slowSet_elem, toSlow_elem in Hx as [Hin Hc].
    unfold heads in Hin. apply list_elem_of_omap in Hin as (it & Hit & Hh).
    apply (proj1 (Forall_forall _ _) Hl) in Hit. destruct it as [|e rest]; [done|]. simpl in Hh.
    destruct (Z.eqb_spec (e_seqNum e) s); simplify_eq. split; [done|].
    pose proof (lv_cert _ _ Hit) as Hce. apply Forall_cons in Hce as [He _]. exact (He _ _ Hc). }
  rewrite (checkSlow_ok s); [|apply slowSet_sorted|apply Forall_forall; naive_solver|done]. res_step.
  rewrite selectSlow_eq by (apply Forall_forall; naive_solver). res_step.
  fold (slowSelect verify (heads s its)).
  rewrite collectFast_eq by done. res_step.
  destruct (advanceLoop_perm s ub (length its) [] its Hl) as (its' & Ha & Hp); [done|].
  simpl in Ha, Hp. rewrite Ha. res_step. exists its'. split; [|split].
  - unfold restriction_of, minFastView. destruct (fastSelect _ _ _ _); [done|].
    by destruct (slowSelect _ _).
  - rewrite Hp. apply Forall_forall. intros it' (it & Hin & Hit)%list_elem_of_omap.
    eapply advance1_live; [|done]. by eapply Forall_forall in Hl.
  - rewrite Hp, filter_concat_default; [done|]. eapply Forall_impl; [exact Hl|].
    intros it. apply advance1_elems.
Qed.
End step.

(** ** All sequence numbers of the window *)

(** The elements about [s] of all the messages. *)
Definition elements_at (s : Z) (msgs : list (option VC)) : list Element :=
  filter (fun e => e_seqNum e = s) (concat (vc_elements <$> present msgs)).

(** Messages as [checkElements] leaves them when the sizes in it do not wrap. *)
Definition vc_legal (vc : VC) : Prop :=
  StronglySorted seq_lt (vc_elements vc) ∧
  Forall (fun e => ∀ cv sg, e_certificate e = Some (cv, sg) → sg ≠ []) (vc_elements vc).

Lemma filter_at_between s a b (l : list Element) : a <= s <= b →
  filter (fun e => e_seqNum e = s) (filter (between a b) l) = filter (fun e => e_seqNum e = s) l.
Proof. intros. apply list_filter_filter_l. intros; lia. Qed.

Lemma perm_at s a b (l l' : list Element) : a <= s <= b → filter (between a b) l ≡ₚ filter (between a b) l' →
  filter (fun e => e_seqNum e = s) l ≡ₚ filter (fun e => e_seqNum e = s) l'.
Proof. intros Hs Hp. rewrite <- (filter_at_between s a b l), <- (filter_at_between s a b l') by done. by rewrite Hp. Qed.

Section window.
Context (F C : Z) (verify : Digest → list Z → bool) (nullDigest : Digest).
#[local] Abbreviation restriction_of := (restriction_of F C verify).

(** The array entry for a computed restriction. *)
Definition entry_ok (o : option Digest) (r : Restriction) : Prop :=
  match o with
  | Some d => if Digest.eqb d nullDigest then isNull r = true else r = mkRestriction false d
  | None => isNull r = true
  end.

Lemma set_restriction_ok arr i r : 0 <= i < Z.of_nat (length arr) →
  set_restriction arr i r = Ok (<[Z.to_nat i := r]> arr).
Proof.
  intros. unfold set_restriction. by rewrite (proj2 (Z.leb_le _ _)), (proj2 (Z.ltb_lt _ _)) by lia.
Qed.

Lemma resetRemaining_spec n : ∀ i arr, 0 <= i → i + Z.of_nat n = Z.of_nat (length arr) →
  ∃ arr', resetRemaining n i arr = Ok arr' ∧ length arr' = length arr ∧
    (∀ j, 0 <= j < i → arr' !! Z.to_nat j = arr !! Z.to_nat j) ∧
    (∀ j, i <= j < i + Z.of_nat n → ∃ r, arr' !! Z.to_nat j = Some r ∧ isNull r = true).
Proof.
  induction n as [|n IH]; intros i arr Hi Hl.
  { exists arr. split_and!; [done..|]. intros; lia. }
  cbn [resetRemaining]. destruct (lookup_lt_is_Some_2 arr (Z.to_nat i)) as [r Hr]; [lia|]. rewrite Hr.
  rewrite set_restriction_ok by lia. res_step.
  destruct (IH (i + 1) (<[Z.to_nat i := mkRestriction true (digest r)]> arr))
    as (arr' & Ha & Hlen & Hlow & Hhigh); [lia|rewrite length_insert; lia|].
  exists arr'. rewrite length_insert in Hlen. split_and!; [done|done| |].
  - intros j Hj. rewrite Hlow by lia. apply list_lookup_insert_ne. lia.
  - intros j Hj. destruct (decide (j = i)) as [->|]; [|apply Hhigh; lia].
    rewrite Hlow by lia. rewrite list_lookup_insert_eq by lia. eauto.
Qed.

(** The state after the loop from [curr] on, entered with [last]. *)
Record loop_post (lb ub curr : Z) (its : list (list Element)) (arr arr' : list Restriction)
    (last last' : Z) : Prop := {
  lp_len : length arr' = length arr;
  lp_low : ∀ j, 0 <= j < curr - lb → arr' !! Z.to_nat j = arr !! Z.to_nat j;
  lp_entry : ∀ s, curr <= s <= ub → ∃ V r, V ≡ₚ filter (fun e => e_seqNum e = s) (concat its) ∧
    arr' !! Z.to_nat (s - lb) = Some r ∧ entry_ok (restriction_of V) r ∧
    (isNull r = false → s <= last');
  lp_last : last <= last';
}.

Lemma restrictionLoop_spec lb ub n : ∀ curr its arr last,
  Z.of_nat n = ub - curr + 1 → lb <= curr → last < curr →
  Z.of_nat (length arr) = ub - lb + 1 → Forall (live curr) its →
  ∃ arr' last', restrictionLoop F C verify nullDigest n lb ub curr its arr last = Ok (arr', last') ∧
    loop_post lb ub curr its arr arr' last last'.
Proof.
  induction n as [|n IH]; intros curr its arr last Hn Hlb Hlast Hlen Hl.
  { exists arr, last. split; [done|]. constructor; [done..|intros; lia|lia]. }
  cbn [restrictionLoop]. destruct (decide (its = [])) as [->|Hne].
  { destruct (resetRemaining_spec (S n) (curr - lb) arr) as (arr' & -> & Hla & Hlow & Hhigh); [lia..|].
    res_step. exists arr', last. split; [done|]. constructor; [done|done| |lia].
    intros s Hs. destruct (Hhigh (s - lb)) as (r & Hr & Hnull); [lia|].
    exists [], r. split; [done|]. split; [done|]. split; [done|]. by rewrite Hnull. }
  destruct (computeRestrictionsForSeqNum_spec F C verify curr ub its) as (its' & Hc & Hl' & Hp); [done|done|lia|].
  replace (match its with [] => _ | _ => _ end) with
    ('(hasRest, d, its') ← computeRestrictionsForSeqNum F C verify curr its ub;
     let restricted := hasRest && negb (Digest.eqb d nullDigest) in
     arr ← set_restriction arr (curr - lb) (mkRestriction (negb restricted) d);
     restrictionLoop F C verify nullDigest n lb ub (curr + 1) its' arr
       (if restricted then curr else last)) by (by destruct its).
  rewrite Hc. set (o := restriction_of (heads curr its)).
  set (r := match o with Some d => mkRestriction (Digest.eqb d nullDigest) d | None => mkRestriction true zeroDigest end).
  set (last1 := if isNull r then last else curr).
  assert (entry_ok o r) as Hr.
  { unfold r, entry_ok. destruct o as [d|]; [|done]. by destruct (Digest.eqb d nullDigest). }
  destruct (IH (curr + 1) its' (<[Z.to_nat (curr - lb) := r]> arr) last1) as (arr' & last' & Hloop & [L1 L2 L3 L4]);
    [lia|lia|unfold last1; destruct (isNull r); lia|rewrite length_insert; lia|done|].
  rewrite length_insert in L1. exists arr', last'. split.
  { unfold r, last1 in Hloop. clear -Hloop Hlen Hn Hlb.
    destruct o as [d|]; res_step; rewrite set_restriction_ok by lia; res_step.
    - unfold r in Hloop. destruct (Digest.eqb d nullDigest); exact Hloop.
    - exact Hloop. }
  constructor; [done| | |unfold last1 in L4; destruct (isNull r); lia].
  - intros j Hj. rewrite L2 by lia. apply list_lookup_insert_ne. lia.
  - intros s Hs. destruct (decide (s = curr)) as [->|].
    + exists (heads curr its), r. split; [by rewrite heads_eq|]. split.
      { rewrite L2 by lia. apply list_lookup_insert_eq. lia. }
      split; [done|]. intros Hnull. unfold last1 in L4. rewrite Hnull in L4. lia.
    + destruct (L3 s) as (V & r' & HV & Hr'); [lia|]. exists V, r'. split; [|done].
      rewrite HV. apply (perm_at s (curr + 1) ub); [lia|done].
Qed.

Lemma goToAtLeast_elems lb es : StronglySorted seq_lt es →
  Forall (fun e => lb <= e_seqNum e) (goToAtLeast lb es) ∧
  (∀ ub, filter (between lb ub) (goToAtLeast lb es) = filter (between lb ub) es) ∧
  StronglySorted seq_lt (goToAtLeast lb es) ∧ ∀ e, e ∈ goToAtLeast lb es → e ∈ es.
Proof.
  induction 1 as [|e es Hs IH He]; [split_and!; [constructor|done|constructor|done]|]. simpl. destruct (Z.ltb_spec (e_seqNum e) lb) as [Hlt|Hge].
  - destruct IH as (I1 & I2 & I3 & I4). split_and!; [done| |done|].
    + intros ub. rewrite I2. by rewrite filter_cons_False by lia.
    + intros x Hx. right. by apply I4.
  - split_and!; [|done|by constructor|done]. constructor; [done|].
    eapply Forall_impl; [exact He|]. unfold seq_lt. intros; lia.
Qed.

Lemma createIterators_spec lb ub msgs : Forall vc_legal (present msgs) →
  Forall (live lb) (createIterators lb msgs) ∧
  filter (between lb ub) (concat (createIterators lb msgs)) =
    filter (between lb ub) (concat (vc_elements <$> present msgs)).
Proof.
  induction msgs as [|[vc|] msgs IH]; intros Hl; [done| |by apply IH].
  rewrite present_some in Hl. inversion_clear Hl as [|? ? [Hs Hc] Hl']. destruct (IH Hl') as [I1 I2].
  cbn [createIterators]. rewrite present_some, fmap_cons. cbn [concat]. rewrite filter_app.
  destruct (goToAtLeast_elems lb _ Hs) as (G1 & G2 & G3 & G4). rewrite <- G2, <- I2.
  destruct (goToAtLeast lb (vc_elements vc)) as [|e es] eqn:E; [done|].
  split; [|by cbn [concat]; rewrite filter_app]. constructor; [|done]. constructor; [done..|].
  apply Forall_forall. intros y Hy. exact (proj1 (Forall_forall _ _) Hc y (G4 y Hy)).
Qed.

(** The entry of each sequence number is the restriction that the elements about
    that number determine, up to the order in which the iterators stand. *)
Lemma computeRestrictions_entries msgs lbStable arr :
  Forall vc_legal (present msgs) → 0 <= lbStable → Z.of_nat (length arr) = kWorkWindowSize →
  ∃ arr' mn mx, computeRestrictions F C verify nullDigest msgs lbStable arr = Ok (arr', mn, mx) ∧
    length arr' = length arr ∧
    ((mn = 0 ∧ mx = 0) ∨
     (mn = lbStable + 1 ∧ (mx = lbStable + 300 ∨ mx = lbStable + 150))) ∧
    ∀ s, lbStable + 1 <= s <= lbStable + kWorkWindowSize →
      ∃ V r, V ≡ₚ elements_at s msgs ∧ arr' !! Z.to_nat (s - (lbStable + 1)) = Some r ∧
        entry_ok (restriction_of V) r ∧ (isNull r = false → mn <= s <= mx).
Proof.
  intros Hl Hlb Hlen. unfold computeRestrictions.
  destruct (createIterators_spec (lbStable + 1) (lbStable + kWorkWindowSize) msgs Hl) as [Hlive Hf].
  set (its := createIterators (lbStable + 1) msgs) in *. set (ub := lbStable + kWorkWindowSize) in *.
  unfold kWorkWindowSize, checkpointWindowSize in *.
  destruct (restrictionLoop_spec (lbStable + 1) ub (Z.to_nat (ub - (lbStable + 1) + 1)) (lbStable + 1) its arr 0)
    as (arr' & last' & -> & [L1 L2 L3 L4]); [unfold ub; lia..|done|]. res_step.
  assert (∀ mn mx, (∀ s, lbStable + 1 <= s <= ub → s <= last' → its ≠ [] → mn <= s <= mx) →
    ∀ s, lbStable + 1 <= s <= ub → ∃ V r, V ≡ₚ elements_at s msgs ∧ arr' !! Z.to_nat (s - (lbStable + 1)) = Some r ∧
        entry_ok (restriction_of V) r ∧ (isNull r = false → mn <= s <= mx)) as Hall.
  { intros mn mx Hrange s Hs. destruct (L3 s Hs) as (V & r & HV & Hr & He & Hnull). exists V, r.
    split. { rewrite HV. apply (perm_at s (lbStable + 1) ub); [done|by rewrite Hf]. }
    split; [done|]. split; [done|]. intros Hn. specialize (Hnull Hn). apply Hrange; [lia|lia|].
    intros E. rewrite E in HV. apply Permutation_nil_r in HV as ->. simpl in He. congruence. }
  case_bool_decide as E; [|destruct ((0 <? last') && _) eqn:E2].
  - eexists _, _, _. split; [done|]. split; [done|]. split; [lia|]. apply Hall. intros; done.
  - eexists _, _, _. split; [done|]. split; [done|]. split; [unfold ub; lia|].
    apply Hall. bool_to_prop. unfold ub in *. intros; lia.
  - eexists _, _, _. split; [done|]. split; [done|]. split; [unfold ub; lia|]. apply Hall. intros; lia.
Qed.
End window.

(** ** What the restriction of a number means *)

Section meaning.
Context (F C : Z) (verify : Digest → list Z → bool).
Context (HF : 0 <= F) (HC : 0 <= C) (HFC : 1 <= F + C) (Hw : F + C + 1 < 65536).
#[local] Abbreviation K := (F + C + 1).
#[local] Abbreviation valid := (certificate_valid verify).

Lemma fastSelect_spec l : ∀ seen counters,
  (∀ d, counters !! d = if decide (count (eq d) seen = 0) then None else Some (count (eq d) seen)) →
  (∀ d, count (eq d) seen < K) →
  match fastSelect F C l counters with
  | Some d => K <= count (eq d) (seen ++ l)
  | None => ∀ d, count (eq d) (seen ++ l) < K
  end.
Proof.
  induction l as [|d l IH]; intros seen counters Hc Hlt; cbn [fastSelect].
  { by rewrite app_nil_r. }
  rewrite u16_small by lia.
  assert (∀ d', count (eq d') (seen ++ [d]) = count (eq d') seen + if decide (d' = d) then 1 else 0) as Hs.
  { intros d'. rewrite count_app, count_cons. change (count (eq d') []) with 0. lia. }
  assert (∀ k, k = count (eq d) seen + 1 → ∀ d', <[d := k]> counters !! d' =
    if decide (count (eq d') (seen ++ [d]) = 0) then None else Some (count (eq d') (seen ++ [d]))) as Hc'.
  { intros k -> d'. rewrite Hs. destruct (decide (d' = d)) as [->|Hne].
    - rewrite lookup_insert_eq, decide_False; [done|]. pose proof (count_nonneg (eq d) seen). lia.
    - rewrite lookup_insert_ne by done. rewrite Z.add_0_r. apply Hc. }
  rewrite cons_middle, app_assoc. rewrite Hc. pose proof (count_nonneg (eq d) seen) as Hnn. case_decide as E.
  - apply IH; [apply Hc'; lia|]. intros d'. rewrite Hs. specialize (Hlt d').
    case_decide; [subst; lia|lia].
  - destruct (Z.eqb_spec (count (eq d) seen + 1) K) as [EK|NK].
    + rewrite count_app, Hs, decide_True by done. pose proof (count_nonneg (eq d) l). lia.
    + apply IH; [by apply Hc'|]. intros d'. rewrite Hs. specialize (Hlt d'). case_decide; [subst; lia|lia].
Qed.

Lemma fastSelect_iff l d : Z.of_nat (length l) < 2 * K →
  fastSelect F C l ∅ = Some d ↔ K <= count (eq d) l.
Proof.
  intros Hl. pose proof (fastSelect_spec l [] ∅) as H. simpl in H.
  assert (∀ d : Digest, count (eq d) (@nil Digest) = 0) as H0 by done.
  destruct (fastSelect F C l ∅) as [d'|].
  - specialize (H (fun d => eq_refl)). split; [intros [= ->]; apply H; intros; rewrite H0; lia|].
    intros Hd. f_equal. destruct (decide (d' = d)) as [|Hne]; [done|].
    pose proof (count_disjoint (eq d) (eq d') l). assert (K <= count (eq d') l) by (apply H; intros; rewrite H0; lia).
    assert (count (eq d) l + count (eq d') l <= Z.of_nat (length l)) by (apply count_disjoint; congruence). lia.
  - split; [done|]. intros Hd. specialize (H (fun d => eq_refl)).
    assert (count (eq d) l < K) by (apply H; intros; rewrite H0; lia). lia.
Qed.

(** Two certificates for one view and one digest are both valid or both not.
    Without this, the set keeps the first of the two (see below). *)
Definition consistent (V : list Element) : Prop := ∀ x y, x ∈ omap toSlow V → y ∈ omap toSlow V →
  sl_view x = sl_view y → e_prePrepreDigest (sl_e x) = e_prePrepreDigest (sl_e y) → valid x = valid y.

Definition digests32 (V : list Element) : Prop := Forall (fun e => length (e_prePrepreDigest e) = 32%nat) V.

Lemma memcmp_total a b : length a = length b → memcmp_lt a b = false → memcmp_lt b a = false → a = b.
Proof.
  revert b. induction a as [|x a IH]; intros [|y b] Hl H1 H2; try done. simpl in *.
  rewrite (Z.eqb_sym y x) in H2. destruct (Z.eqb_spec x y) as [->|]; [f_equal; apply IH; congruence|].
  bool_to_prop. lia.
Qed.

(** An element equal in the set's order to [x]. *)
Definition same_key (x y : SlowElem) : Prop :=
  sl_view x = sl_view y ∧ e_prePrepreDigest (sl_e x) = e_prePrepreDigest (sl_e y).

Lemma slow_insert_key x l : Forall (fun y => length (e_prePrepreDigest (sl_e y)) = 32%nat) (x :: l) →
  ∀ z, z ∈ x :: l → ∃ y, y ∈ slow_insert x l ∧ same_key z y.
Proof.
  induction l as [|a l IH]; intros HF32 z Hz; simpl.
  { exists z. by split. }
  apply Forall_cons in HF32 as [Hx [Ha Hl]%Forall_cons].
  destruct (SlowElemCompare x a) eqn:E1; [by exists z|].
  destruct (SlowElemCompare a x) eqn:E2.
  - assert (z = a ∨ z ∈ x :: l) as [->|Hz'] by (rewrite !elem_of_cons in *; naive_solver).
    + exists a. split; [by left|done].
    + destruct (IH (Forall_cons_2 _ _ _ Hx Hl) z Hz') as (y & Hy & Hk). exists y. split; [by right|done].
  - apply elem_of_cons in Hz as [->|Hz]; [|by exists z]. exists a. split; [by left|].
    unfold SlowElemCompare in E1, E2. rewrite (Z.eqb_sym (sl_view a)) in E2.
    destruct (Z.eqb_spec (sl_view x) (sl_view a)) as [Hv|]; simpl in *; [|bool_to_prop; lia].
    split; [done|]. apply memcmp_total; congruence.
Qed.

Lemma slowSet_key V x : digests32 V → x ∈ omap toSlow V → ∃ y, y ∈ slowSet V ∧ same_key x y.
Proof.
  intros HD. assert (Forall (fun y => length (e_prePrepreDigest (sl_e y)) = 32%nat) (omap toSlow V)) as HX.
  { apply Forall_forall. intros y [Hy _]%toSlow_elem. by eapply Forall_forall in HD. }
  unfold slowSet. revert HX. generalize (omap toSlow V) as xs. intros xs HX Hx.
  assert (∀ set, Forall (fun y => length (e_prePrepreDigest (sl_e y)) = 32%nat) set → x ∈ xs ∨ (∃ y, y ∈ set ∧ same_key x y) →
    ∃ y, y ∈ foldl (fun set x => slow_insert x set) set xs ∧ same_key x y) as H; [|apply H; [constructor|by left]].
  clear Hx. induction HX as [|a xs Ha _ IH]; intros set Hset Hx; simpl.
  { destruct Hx as [?%elem_of_nil|?]; done. }
  assert (Forall (fun y => length (e_prePrepreDigest (sl_e y)) = 32%nat) (slow_insert a set)) as Hset'.
  { apply Forall_forall. intros y [->|Hy]%slow_insert_elem; [done|]. by eapply Forall_forall in Hset. }
  apply IH; [done|]. destruct Hx as [[->|Hx]%elem_of_cons|(y & Hy & Hk)]; [|by left|].
  - right. apply slow_insert_key; [by constructor|by left].
  - right. destruct (slow_insert_key a set) with (z := y) as (y' & Hy' & Hk'); [by constructor|by right|].
    exists y'. split; [done|]. unfold same_key in *. destruct Hk, Hk'. split; congruence.
Qed.

(** The certificates of the votes; [x] is a valid one of the highest view. *)
Definition highest_valid (V : list Element) (x : SlowElem) : Prop :=
  x ∈ omap toSlow V ∧ valid x = true ∧
  ∀ y, y ∈ omap toSlow V → valid y = true → sl_view y <= sl_view x.
Definition no_valid (V : list Element) : Prop := ∀ y, y ∈ omap toSlow V → valid y = false.

Lemma head_filter_sorted l x : StronglySorted view_ge l →
  head (filter (fun x => valid x = true) l) = Some x →
  valid x = true ∧ x ∈ l ∧ ∀ y, y ∈ l → valid y = true → sl_view y <= sl_view x.
Proof.
  induction 1 as [|a l Hl IH Ha]; [done|]. rewrite filter_cons. case_decide as Hv.
  - intros [= ->]. split; [done|]. split; [by left|]. intros y [->|Hy]%elem_of_cons _; [lia|].
    eapply Forall_forall in Ha; [|done]. done.
  - intros H. destruct (IH H) as (H1 & H2 & H3). split; [done|]. split; [by right|].
    intros y [->|Hy]%elem_of_cons Hvy; [done|]. by apply H3.
Qed.

Lemma slowSelect_spec V : digests32 V → consistent V →
  match slowSelect verify V with Some x => highest_valid V x | None => no_valid V end.
Proof.
  intros HD Hcons. unfold slowSelect.
  assert (∀ y, y ∈ omap toSlow V → ∃ z, z ∈ slowSet V ∧ sl_view z = sl_view y ∧ valid z = valid y) as Hrep.
  { intros y Hy. destruct (slowSet_key V y HD Hy) as (z & Hz & Hv & Hd). exists z. split; [done|].
    split; [done|]. symmetry. apply Hcons; [done|by apply slowSet_elem|done|done]. }
  destruct (head (filter (fun x => valid x = true) (slowSet V))) as [x|] eqn:E.
  - apply head_filter_sorted in E as (H1 & H2 & H3); [|apply slowSet_sorted].
    split; [by apply slowSet_elem|]. split; [done|]. intros y Hy Hvy.
    destruct (Hrep y Hy) as (z & Hz & <- & Hzv). apply H3; [done|congruence].
  - intros y Hy. destruct (Hrep y Hy) as (z & Hz & _ & <-). apply not_true_is_false. intros Hv.
    assert (z ∈ filter (fun x => valid x = true) (slowSet V)) as Hf by (by apply list_elem_of_filter).
    destruct (filter _ _); [by apply elem_of_nil in Hf|done].
Qed.

(** The votes for [d] on the fast path: elements of a view above every valid
    certificate. *)
Definition fast_votes (V : list Element) (m : Z) (d : Digest) : Z :=
  count (fun e => d = e_prePrepreDigest e ∧ m <= e_originView e) V.

Lemma fastVotes_count V m d : count (eq d) (fastVotes m V) = fast_votes V m d.
Proof. unfold fastVotes. by rewrite count_fmap, count_filter. Qed.

Lemma fastVotes_length V m : (length (fastVotes m V) <= length V)%nat.
Proof. unfold fastVotes. rewrite length_fmap. apply length_filter. Qed.

(** The specification: [m] is one above the highest view of a valid certificate (0
    without one); f+c+1 votes from view [m] on decide, then the highest valid
    certificate. *)
Inductive restricts (V : list Element) : option Digest → Prop :=
  | restricts_fast m d : is_min_fast V m → K <= fast_votes V m d → restricts V (Some d)
  | restricts_slow x : highest_valid V x → (∀ d, fast_votes V (sl_view x + 1) d < K) →
      restricts V (Some (e_prePrepreDigest (sl_e x)))
  | restricts_none : no_valid V → (∀ d, fast_votes V 0 d < K) → restricts V None
with is_min_fast (V : list Element) : Z → Prop :=
  | min_slow x : highest_valid V x → is_min_fast V (sl_view x + 1)
  | min_none : no_valid V → is_min_fast V 0.

Lemma restriction_of_spec V : digests32 V → consistent V → Z.of_nat (length V) < 2 * K →
  restricts V (restriction_of F C verify V).
Proof.
  intros HD Hcons HL. pose proof (slowSelect_spec V HD Hcons) as Hs. unfold restriction_of.
  assert (∀ m d, fastSelect F C (fastVotes m V) ∅ = Some d ↔ K <= fast_votes V m d) as Hf.
  { intros m d. rewrite fastSelect_iff, fastVotes_count; [done|]. pose proof (fastVotes_length V m). lia. }
  destruct (fastSelect _ _ _ _) as [d|] eqn:E.
  - apply restricts_fast with (m := minFastView verify V).
    + unfold minFastView in *. destruct (slowSelect verify V); by constructor.
    + by apply Hf.
  - assert (∀ d, fast_votes V (minFastView verify V) d < K) as Hlt.
    { intros d. apply Z.nle_gt. rewrite <- Hf. congruence. }
    unfold minFastView in *. destruct (slowSelect verify V); by constructor.
Qed.

Lemma restricts_perm V V' o : V ≡ₚ V' → restricts V o → restricts V' o.
Proof.
  intros Hp. assert (∀ x, x ∈ omap toSlow V ↔ x ∈ omap toSlow V') as Hin by (intros; by rewrite Hp).
  assert (∀ m d, fast_votes V m d = fast_votes V' m d) as Hv by (intros; by apply count_perm).
  assert (∀ x, highest_valid V x → highest_valid V' x) as Hh
    by (intros x (? & ? & ?); split; [by apply Hin|split; [done|]]; intros y Hy; apply Hin in Hy; auto).
  assert (no_valid V → no_valid V') as Hnv by (intros H y Hy; apply Hin in Hy; auto).
  destruct 1 as [m d Hm Hk|x Hx Hk|Hn Hk].
  - apply restricts_fast with (m := m); [destruct Hm; constructor; auto|by rewrite <- Hv].
  - apply restricts_slow; [auto|]. intros d. by rewrite <- Hv.
  - apply restricts_none; [auto|]. intros d. by rewrite <- Hv.
Qed.

(** What the specification gives for a digest that may have been committed. *)
Lemma restricts_prepared V o x : restricts V o → x ∈ omap toSlow V → valid x = true →
  (∀ y, y ∈ omap toSlow V → valid y = true → sl_view x <= sl_view y →
     e_prePrepreDigest (sl_e y) = e_prePrepreDigest (sl_e x)) →
  (∀ d, d ≠ e_prePrepreDigest (sl_e x) → fast_votes V (sl_view x + 1) d < K) →
  o = Some (e_prePrepreDigest (sl_e x)).
Proof.
  intros HR Hx Hv Hsame Hfast. destruct HR as [m d Hm Hk|y (Hy & Hvy & Hmax) Hk|Hn Hk].
  - f_equal. destruct (decide (d = e_prePrepreDigest (sl_e x))) as [|Hne]; [done|].
    specialize (Hfast d Hne). exfalso.
    assert (sl_view x + 1 <= m) as Hm'.
    { destruct Hm as [y (Hy & Hvy & Hmax)|Hn]; [specialize (Hmax x Hx Hv); lia|].
      by rewrite Hn in Hv. }
    assert (fast_votes V m d <= fast_votes V (sl_view x + 1) d); [|lia].
    apply count_mono. intros e [? ?]. split; [done|lia].
  - f_equal. apply Hsame; [done|done|]. by apply Hmax.
  - by rewrite Hn in Hv.
Qed.

Lemma restricts_voted V o v d : restricts V o → 0 <= v → Z.of_nat (length V) < 2 * K →
  K <= fast_votes V v d → (∀ y, y ∈ omap toSlow V → valid y = true → sl_view y < v) →
  o = Some d.
Proof.
  intros HR Hv0 HL Hk Hlow.
  assert (∀ m, is_min_fast V m → K <= fast_votes V m d) as Hmin.
  { intros m Hm. assert (m <= v) by (destruct Hm as [y (Hy & Hvy & _)|]; [specialize (Hlow y Hy Hvy)|]; lia).
    assert (fast_votes V v d <= fast_votes V m d); [|lia].
    apply count_mono. intros e [? ?]. split; [done|lia]. }
  destruct HR as [m d' Hm Hk'|y Hy Hk'|Hn Hk'].
  - specialize (Hmin m Hm). f_equal. destruct (decide (d' = d)) as [|Hne]; [done|].
    assert (fast_votes V m d + fast_votes V m d' <= Z.of_nat (length V)); [|lia].
    apply count_disjoint. intros e [? ?] [? ?]. congruence.
  - specialize (Hmin _ (min_slow V y Hy)). specialize (Hk' d). lia.
  - specialize (Hmin _ (min_none V Hn)). specialize (Hk' d). lia.
Qed.
End meaning.

(** ** Properties *)

(** The hypotheses on the messages of a new view. *)
Record newViewMsgs_ok (F C : Z) (msgs : list (option VC)) : Prop := {
  nv_legal : Forall vc_legal (present msgs);
  nv_digests : Forall (fun vc => digests32 (vc_elements vc)) (present msgs);
  nv_num : Z.of_nat (length (present msgs)) <= 2 * F + 2 * C + 1;
}.

Lemma at_most_one s es : StronglySorted seq_lt es → (length (filter (fun e => e_seqNum e = s) es) <= 1)%nat.
Proof.
  induction 1 as [|e es Hs IH He]; [simpl; lia|]. rewrite filter_cons. case_decide; [|done].
  rewrite filter_none; [done|]. eapply Forall_impl; [exact He|]. unfold seq_lt. intros; lia.
Qed.

Lemma elements_at_length F C s msgs : newViewMsgs_ok F C msgs →
  Z.of_nat (length (elements_at s msgs)) <= 2 * F + 2 * C + 1.
Proof.
  intros [Hl _ Hn]. unfold elements_at.
  assert (length (filter (fun e => e_seqNum e = s) (concat (vc_elements <$> present msgs))) <= length (present msgs))%nat; [|lia].
  clear Hn. induction Hl as [|vc vcs [Hs _] _ IH]; [done|]. rewrite fmap_cons. cbn [concat].
  rewrite filter_app, length_app. pose proof (at_most_one s _ Hs). simpl length. lia.
Qed.

Lemma elements_at_digests F C s msgs : newViewMsgs_ok F C msgs → digests32 (elements_at s msgs).
Proof.
  intros [_ Hd _]. unfold elements_at, digests32.
  assert (Forall (fun e => length (e_prePrepreDigest e) = 32%nat) (concat (vc_elements <$> present msgs))) as H
    by (by apply Forall_concat, Forall_fmap).
  apply Forall_forall. intros e [_ He]%list_elem_of_filter. by eapply Forall_forall in H.
Qed.

Section properties.
Context (F C : Z) (verify : Digest → list Z → bool) (nullDigest : Digest).
Context (HF : 0 <= F) (HC : 0 <= C) (HFC : 1 <= F + C) (Hw : F + C + 1 < 65536).

(** The entry of [s], for consistent certificates. *)
Lemma entry_restricts msgs lbStable arr : newViewMsgs_ok F C msgs → 0 <= lbStable →
  Z.of_nat (length arr) = kWorkWindowSize →
  ∃ arr' mn mx, computeRestrictions F C verify nullDigest msgs lbStable arr = Ok (arr', mn, mx) ∧
    ∀ s, lbStable + 1 <= s <= lbStable + kWorkWindowSize → consistent verify (elements_at s msgs) →
      ∃ o r, restricts F C verify (elements_at s msgs) o ∧
        arr' !! Z.to_nat (s - (lbStable + 1)) = Some r ∧
        entry_ok nullDigest o r ∧ (isNull r = false → mn <= s <= mx).
Proof.
  intros Hok Hlb Hlen. destruct (computeRestrictions_entries F C verify nullDigest msgs lbStable arr)
    as (arr' & mn & mx & Hc & _ & _ & He); [apply Hok|done|done|].
  exists arr', mn, mx. split; [done|]. intros s Hs Hcons. destruct (He s Hs) as (V & r & HV & Hr & Hen & Hrange).
  exists (restriction_of F C verify V), r. split; [|done]. apply (restricts_perm _ _ _ V); [done|].
  pose proof (elements_at_length F C s msgs Hok) as Hl.
  apply restriction_of_spec; try done.
  - unfold digests32. rewrite HV. by eapply elements_at_digests.
  - intros x y Hx Hy. rewrite HV in Hx, Hy. by apply Hcons.
  - rewrite HV. lia.
Qed.
End properties.

(** C12: for up to 2f+2c+1 legal (decoded) view-change messages the restrictions of a new view
    are computed without failure, and the entry of each sequence number of the
    window for which the certificates of the same view and digest are all valid or all invalid ([consistent]) refines
    the specification: f+c+1 votes in views above every valid
    prepared certificate decide, then the valid certificate of the highest view,
    else the entry is null; every restricted number lies in the reported range.
    The iterators, their removal and reordering have no other effect.  For other numbers
    see [invalid_certificate_shadows_valid]. *)
Theorem computeRestrictions_refines F C verify nullDigest msgs lbStable arr :
  0 <= F → 0 <= C → 1 <= F + C → F + C + 1 < 65536 →
  newViewMsgs_ok F C msgs → 0 <= lbStable → Z.of_nat (length arr) = kWorkWindowSize →
  ∃ arr' mn mx, computeRestrictions F C verify nullDigest msgs lbStable arr = Ok (arr', mn, mx) ∧
    ∀ s, lbStable + 1 <= s <= lbStable + kWorkWindowSize → consistent verify (elements_at s msgs) →
      ∃ o r, restricts F C verify (elements_at s msgs) o ∧
        arr' !! Z.to_nat (s - (lbStable + 1)) = Some r ∧
        entry_ok nullDigest o r ∧ (isNull r = false → mn <= s <= mx).
Proof. intros. by apply entry_restricts. Qed.

(** a digest with a valid prepared certificate stays: if [x] is a valid
    certificate for [s], no valid certificate of its view or a later one is for
    another digest, and no other digest has f+c+1 votes from later views, then
    the new view is restricted to the digest of [x] at [s]. *)
Theorem prepared_digest_restricted F C verify nullDigest msgs lbStable arr s x :
  0 <= F → 0 <= C → 1 <= F + C → F + C + 1 < 65536 →
  newViewMsgs_ok F C msgs → 0 <= lbStable → Z.of_nat (length arr) = kWorkWindowSize →
  lbStable + 1 <= s <= lbStable + kWorkWindowSize → consistent verify (elements_at s msgs) →
  x ∈ omap toSlow (elements_at s msgs) → certificate_valid verify x = true →
  e_prePrepreDigest (sl_e x) ≠ nullDigest →
  (∀ y, y ∈ omap toSlow (elements_at s msgs) → certificate_valid verify y = true →
     sl_view x <= sl_view y → e_prePrepreDigest (sl_e y) = e_prePrepreDigest (sl_e x)) →
  (∀ d, d ≠ e_prePrepreDigest (sl_e x) →
     fast_votes (elements_at s msgs) (sl_view x + 1) d < F + C + 1) →
  ∃ arr' mn mx, computeRestrictions F C verify nullDigest msgs lbStable arr = Ok (arr', mn, mx) ∧
    arr' !! Z.to_nat (s - (lbStable + 1)) = Some (mkRestriction false (e_prePrepreDigest (sl_e x))) ∧
    mn <= s <= mx.
Proof.
  intros HF HC HFC Hw Hok Hlb Hlen Hs Hcons Hx Hv Hnn Hsame Hfast.
  destruct (entry_restricts F C verify nullDigest HFC Hw msgs lbStable arr Hok Hlb Hlen)
    as (arr' & mn & mx & Hc & He).
  exists arr', mn, mx. split; [done|]. destruct (He s Hs Hcons) as (o & r & Ho & Hr & Hen & Hrange).
  rewrite (restricts_prepared F C verify _ o x Ho Hx Hv Hsame Hfast) in Hen. simpl in Hen.
  unfold Digest.eqb in Hen. rewrite bool_decide_eq_false_2 in Hen by done. subst r. split; [done|]. by apply Hrange.
Qed.

(** C13: a digest, not that of a null batch, that f+c+1 replicas report for [s] from view [v] on, when every
    valid prepared certificate is from before [v], is the restriction at [s], provided that the certificates for [s]
    with the same view and digest are all valid or all invalid ([consistent]). *)
Theorem fast_digest_restricted F C verify nullDigest msgs lbStable arr s v d :
  0 <= F → 0 <= C → 1 <= F + C → F + C + 1 < 65536 →
  newViewMsgs_ok F C msgs → 0 <= lbStable → Z.of_nat (length arr) = kWorkWindowSize →
  lbStable + 1 <= s <= lbStable + kWorkWindowSize → consistent verify (elements_at s msgs) →
  0 <= v → d ≠ nullDigest → F + C + 1 <= fast_votes (elements_at s msgs) v d →
  (∀ y, y ∈ omap toSlow (elements_at s msgs) → certificate_valid verify y = true → sl_view y < v) →
  ∃ arr' mn mx, computeRestrictions F C verify nullDigest msgs lbStable arr = Ok (arr', mn, mx) ∧
    arr' !! Z.to_nat (s - (lbStable + 1)) = Some (mkRestriction false d) ∧ mn <= s <= mx.
Proof.
  intros HF HC HFC Hw Hok Hlb Hlen Hs Hcons Hv Hnn Hk Hlow.
  destruct (entry_restricts F C verify nullDigest HFC Hw msgs lbStable arr Hok Hlb Hlen)
    as (arr' & mn & mx & Hc & He).
  exists arr', mn, mx. split; [done|]. destruct (He s Hs Hcons) as (o & r & Ho & Hr & Hen & Hrange).
  pose proof (elements_at_length F C s msgs Hok) as Hl.
  rewrite (restricts_voted F C verify _ o v d Ho Hv ltac:(lia) Hk Hlow) in Hen. simpl in Hen.
  unfold Digest.eqb in Hen. rewrite bool_decide_eq_false_2 in Hen by done. subst r. split; [done|]. by apply Hrange.
Qed.

(** ** Examples *)

(** A verifier that accepts the signature [1] only. *)
Definition verify1 (d : Digest) (sg : list Z) : bool := bool_decide (sg = [1]).
Definition dig (k : Z) : Digest := replicate 32 k.
Definition noRestrictions : list Restriction := replicate 300 (mkRestriction true zeroDigest).

Definition sampleSlow : SlowElem := mkSlow (mkElement 151 (dig 7) 3 (Some (2, [1]))) 2 [1].
Definition sampleMsgs : list (option VC) :=
  [Some (mkVC 5 150 [mkElement 151 (dig 7) 3 (Some (2, [1]))]); None;
   Some (mkVC 5 150 [mkElement 151 (dig 8) 1 None]); Some (mkVC 5 0 [])].

Lemma legal_one nv ls sq k ov c : (∀ cv sg, c = Some (cv, sg) → sg ≠ []) →
  vc_legal (mkVC nv ls [mkElement sq (dig k) ov c]) ∧ digests32 [mkElement sq (dig k) ov c].
Proof. intros Hc. repeat split; repeat constructor; simpl; done. Qed.

Lemma sampleMsgs_ok : newViewMsgs_ok 1 0 sampleMsgs.
Proof.
  constructor; [| |done]; repeat (constructor; try (apply legal_one; intros; by simplify_eq));
    repeat constructor.
Qed.

Lemma sample_at : elements_at 151 sampleMsgs =
  [mkElement 151 (dig 7) 3 (Some (2, [1])); mkElement 151 (dig 8) 1 None].
Proof. reflexivity. Qed.

Lemma sample_consistent : consistent verify1 (elements_at 151 sampleMsgs).
Proof.
  rewrite sample_at. simpl. intros x y ->%list_elem_of_singleton ->%list_elem_of_singleton. done.
Qed.

Lemma computeRestrictions_refines_witness :
  ∃ arr' mn mx, computeRestrictions 1 0 verify1 zeroDigest sampleMsgs 150 noRestrictions = Ok (arr', mn, mx) ∧
    ∀ s, 151 <= s <= 450 → consistent verify1 (elements_at s sampleMsgs) →
      ∃ o r, restricts 1 0 verify1 (elements_at s sampleMsgs) o ∧
        arr' !! Z.to_nat (s - 151) = Some r ∧
        entry_ok zeroDigest o r ∧ (isNull r = false → mn <= s <= mx).
Proof.
  apply (computeRestrictions_refines 1 0 verify1 zeroDigest sampleMsgs 150 noRestrictions);
    try lia; [apply sampleMsgs_ok|reflexivity].
Defined.

Lemma prepared_digest_restricted_witness :
  ∃ arr' mn mx, computeRestrictions 1 0 verify1 zeroDigest sampleMsgs 150 noRestrictions = Ok (arr', mn, mx) ∧
    arr' !! Z.to_nat (151 - (150 + 1)) = Some (mkRestriction false (dig 7)) ∧ mn <= 151 <= mx.
Proof.
  apply (prepared_digest_restricted 1 0 verify1 zeroDigest sampleMsgs 150 noRestrictions 151 sampleSlow);
    try lia; try reflexivity; try (unfold kWorkWindowSize; lia).
  - apply sampleMsgs_ok.
  - apply sample_consistent.
  - rewrite sample_at. left.
  - intros H. vm_compute in H. discriminate H.
  - rewrite sample_at. simpl. intros y ->%list_elem_of_singleton _ _. done.
  - intros d Hd. apply Z.le_lt_trans with (count (fun e => 3 <= e_originView e) (elements_at 151 sampleMsgs)).
    + apply count_mono. intros e [_ ?]. done.
    + rewrite sample_at. reflexivity.
Defined.

Definition votedMsgs : list (option VC) :=
  [Some (mkVC 5 150 [mkElement 151 (dig 7) 3 (Some (2, [1]))]); None;
   Some (mkVC 5 150 [mkElement 151 (dig 8) 4 None]); Some (mkVC 5 150 [mkElement 151 (dig 8) 4 None])].

Lemma fast_digest_restricted_witness :
  ∃ arr' mn mx, computeRestrictions 1 0 verify1 zeroDigest votedMsgs 150 noRestrictions = Ok (arr', mn, mx) ∧
    arr' !! Z.to_nat (151 - (150 + 1)) = Some (mkRestriction false (dig 8)) ∧ mn <= 151 <= mx.
Proof.
  apply (fast_digest_restricted 1 0 verify1 zeroDigest votedMsgs 150 noRestrictions 151 3 (dig 8));
    try lia; try reflexivity; try (unfold kWorkWindowSize; lia).
  - constructor; [| |done]; repeat (constructor; try (apply legal_one; intros; by simplify_eq)).
  - simpl. intros x y ->%list_elem_of_singleton ->%list_elem_of_singleton. done.
  - intros H. vm_compute in H. discriminate H.
  - simpl. intros y ->%list_elem_of_singleton _. done.
Defined.

(** f = 2: replica 1 holds a valid certificate; replica 0 is faulty and sends one for
    the same view and digest with a wrong signature. *)
Definition shadowMsgs (sig0 : list Z) : list (option VC) :=
  [Some (mkVC 5 150 [mkElement 151 (dig 7) 2 (Some (2, sig0))]);
   Some (mkVC 5 150 [mkElement 151 (dig 7) 2 (Some (2, [1]))]);
   Some (mkVC 5 150 []); Some (mkVC 5 150 []); Some (mkVC 5 150 []); None; None].

(** C40: the set of certificates is keyed by view and digest only, so that an invalid
    certificate of a lower replica hides a valid one for the same view and
    digest: of five legal messages one holds a valid certificate, and the
    sequence number is left unrestricted; with the valid signature in both it is
    restricted.  One faulty replica can undo a prepared digest. *)
Theorem invalid_certificate_shadows_valid :
  newViewMsgs_ok 2 0 (shadowMsgs [0]) ∧
  (∃ x, highest_valid verify1 (elements_at 151 (shadowMsgs [0])) x ∧ e_prePrepreDigest (sl_e x) = dig 7) ∧
  (∃ arr', computeRestrictions 2 0 verify1 zeroDigest (shadowMsgs [0]) 150 noRestrictions = Ok (arr', 151, 450) ∧
     arr' !! 0%nat = Some (mkRestriction true zeroDigest)) ∧
  (∃ arr', computeRestrictions 2 0 verify1 zeroDigest (shadowMsgs [1]) 150 noRestrictions = Ok (arr', 151, 300) ∧
     arr' !! 0%nat = Some (mkRestriction false (dig 7))).
Proof.
  split_and!.
  - constructor; [| |done]; repeat (constructor; try (apply legal_one; intros; by simplify_eq)); repeat constructor.
  - exists (mkSlow (mkElement 151 (dig 7) 2 (Some (2, [1]))) 2 [1]). split; [|done].
    simpl. split; [right; left|]. split; [done|].
    intros y [->|[->|?%elem_of_nil]%elem_of_cons]%elem_of_cons; done.
  - eexists. split; [vm_compute; reflexivity|]. reflexivity.
  - eexists. split; [vm_compute; reflexivity|]. reflexivity.
Qed.
End ViewChangeSafety.
