(* ===== verification/NewViewMsg.v ===== *)
(** * NewViewMsg (bftengine/src/bftengine/NewViewMsg.hpp, .cpp)

    The message of a new primary: the digests of the 2f+2c+1 view-change messages
    it starts from, as a packed array sorted by replica. *)
From S2P Require Import Prelude SysConsts Digest ReplicasInfo MessageBase.

Module NewViewMsg.

Definition sizeof_Header : Z := 12.
Definition sizeof_Element : Z := 34.

#[local] Abbreviation body := MessageBase.msgBody_.
#[local] Abbreviation msize := MessageBase.msgSize_.

Definition newView (m : MessageBase.t) : res Z := get_int 8 (body m) 2.
Definition elementsCount (m : MessageBase.t) : res Z := get_uint 2 (body m) 10.

Definition set_body (m : MessageBase.t) (bd : list Z) : MessageBase.t :=
  MessageBase.mk bd (msize m) (MessageBase.storageSize_ m) (MessageBase.sender_ m)
    (MessageBase.owner_ m).

(** [elementsArray[i].replicaId] and [elementsArray[i].viewChangeDigest] *)
Definition el_replicaId (bd : list Z) (i : Z) : res Z :=
  get_uint 2 bd (sizeof_Header + i * sizeof_Element).
Definition el_digest (bd : list Z) (i : Z) : res Digest :=
  get_bytes bd (sizeof_Header + i * sizeof_Element + 2) DIGEST_SIZE.

Definition ctor (senderId newView : Z) : res MessageBase.t :=
  m ← MessageBase.ctor senderId MC_NewView maxExternalMessageSize;
  b1 ← put_int 8 (body m) 2 newView;
  b2 ← put_int 2 b1 10 0;
  Ok (set_body m b2).

Definition addElement (m : MessageBase.t) (replicaId : Z) (viewChangeDigest : Digest)
  : res MessageBase.t :=
  currNumOfElements ← elementsCount m;
  let requiredSize := u16 (sizeof_Header + (currNumOfElements + 1) * sizeof_Element) in
  assert! (requiredSize <=? maxExternalMessageSize) ;;
  sorted ← (if currNumOfElements =? 0 then Ok true
            else prev ← el_replicaId (body m) (currNumOfElements - 1); Ok (prev <? replicaId));
  assert! sorted ;;
  let p := sizeof_Header + currNumOfElements * sizeof_Element in
  b1 ← put_int 2 (body m) p replicaId;
  b2 ← put_bytes b1 (p + 2) viewChangeDigest;
  b3 ← put_int 2 b2 10 (currNumOfElements + 1);
  Ok (set_body m b3).

Definition finalizeMessage (repInfo : ReplicasInfo.t) (m : MessageBase.t) : res MessageBase.t :=
  numOfElements ← elementsCount m;
  let F := ReplicasInfo._fVal repInfo in
  let C := ReplicasInfo._cVal repInfo in
  assert! (numOfElements =? 2 * F + 2 * C + 1) ;;
  let tSize := u16 (sizeof_Header + numOfElements * sizeof_Element) in
  m ← MessageBase.setMsgSize m tSize;
  MessageBase.shrinkToFit m.

(** "check elements in message": [n] elements from index [i] on. *)
Fixpoint checkElements (n : nat) (bd : list Z) (i : Z) : res bool :=
  match n with
  | O => Ok true
  | S n' =>
      unsorted ← (if 0 <? i then a ← el_replicaId bd (i - 1); b ← el_replicaId bd i; Ok (b <=? a)
                  else Ok false);
      if (unsorted : bool) then Ok false
      else
        d ← el_digest bd i;
        if Digest.isZero d then Ok false else checkElements n' bd (i + 1)
  end.

Definition ToActualMsgType (repInfo : ReplicasInfo.t) (inMsg : MessageBase.t) : res bool :=
  ty ← MessageBase.type inMsg;
  assert! (ty =? code_of MC_NewView) ;;
  if msize inMsg <? sizeof_Header then Ok false
  else
    let F := ReplicasInfo._fVal repInfo in
    let C := ReplicasInfo._cVal repInfo in
    let expectedElements := u16 (2 * F + 2 * C + 1) in
    let contentSize := u16 (sizeof_Header + expectedElements * sizeof_Element) in
    if msize inMsg <? contentSize then Ok false
    else
      let senderId := MessageBase.sender_ inMsg in
      if negb (ReplicasInfo.isIdOfReplica repInfo senderId) then Ok false
      else if ReplicasInfo._myId repInfo =? senderId then Ok false
      else
        nv ← newView inMsg;
        if negb (ReplicasInfo.primaryOfView repInfo nv =? senderId) then Ok false
        else
          cnt ← elementsCount inMsg;
          if negb (cnt =? expectedElements) then Ok false
          else checkElements (Z.to_nat expectedElements) (body inMsg) 0.

Fixpoint findReplica (n : nat) (bd : list Z) (i replicaId : Z) (viewChangeReplica : Digest) : res bool :=
  match n with
  | O => Ok false
  | S n' =>
      currId ← el_replicaId bd i;
      if currId =? replicaId then d ← el_digest bd i; Ok (Digest.eqb viewChangeReplica d)
      else if replicaId <? currId then Ok false
      else findReplica n' bd (i + 1) replicaId viewChangeReplica
  end.

Definition includesViewChangeFromReplica (m : MessageBase.t) (replicaId : Z) (viewChangeReplica : Digest)
  : res bool :=
  numOfElements ← elementsCount m;
  findReplica (Z.to_nat numOfElements) (body m) 0 replicaId viewChangeReplica.

(** ** The abstract message: a view and a list of (replica, digest) *)

Definition enc_header (nv n : Z) : list Z := le_enc 2 (code_of MC_NewView) ++ le_enc 8 nv ++ le_enc 2 n.
Definition enc_elem (e : Z * Digest) : list Z := le_enc 2 (e.1) ++ e.2.
Definition enc (es : list (Z * Digest)) : list Z := flat_map enc_elem es.

Definition elem_wf (e : Z * Digest) : Prop := 0 <= e.1 < 65536 ∧ length e.2 = 32%nat.

Record layout (m : MessageBase.t) (nv : Z) (es : list (Z * Digest)) (tail : list Z) : Prop := {
  la_body : body m = enc_header nv (Z.of_nat (length es)) ++ enc es ++ tail;
  la_nv : - 2 ^ 63 <= nv < 2 ^ 63;
  la_num : Z.of_nat (length es) < 1800;
  la_elems : Forall elem_wf es;
}.

Lemma length_enc es : Forall elem_wf es → Z.of_nat (length (enc es)) = 34 * Z.of_nat (length es).
Proof.
  induction 1 as [|e es [_ He] _ IH]; [done|]. unfold enc in *. cbn [flat_map].
  rewrite length_app, length_cons. unfold enc_elem at 1. rewrite length_app, length_le_enc. lia.
Qed.

Lemma nvm_enc_app a b : enc (a ++ b) = enc a ++ enc b.
Proof. apply flat_map_app. Qed.

Section reads.
Context (m : MessageBase.t) (nv : Z) (es : list (Z * Digest)) (tail : list Z).
Context (L : layout m nv es tail).

Ltac read_h := rewrite (la_body _ _ _ _ L); unfold enc_header; rewrite <- ?app_assoc; solve_get.

Lemma nvm_read_newView : newView m = Ok nv.
Proof.
  unfold newView, get_int. assert (get_bytes (body m) 2 (Z.of_nat 8) = Ok (le_enc 8 nv)) as -> by read_h.
  res_step. rewrite swrap_le_dec_enc, swrap_small by (destruct L; simpl; lia). done.
Qed.
Lemma read_count : elementsCount m = Ok (Z.of_nat (length es)).
Proof.
  unfold elementsCount, get_uint.
  assert (get_bytes (body m) 10 (Z.of_nat 2) = Ok (le_enc 2 (Z.of_nat (length es)))) as -> by read_h.
  res_step. rewrite le_dec_enc, wrap_small by (destruct L; simpl; lia). done.
Qed.
Lemma nvm_read_type : MessageBase.type m = Ok (code_of MC_NewView).
Proof.
  unfold MessageBase.type, get_uint.
  assert (get_bytes (body m) 0 (Z.of_nat 2) = Ok (le_enc 2 (code_of MC_NewView))) as -> by read_h. done.
Qed.

Lemma read_elem es1 e es2 : es = es1 ++ e :: es2 →
  el_replicaId (body m) (Z.of_nat (length es1)) = Ok (e.1) ∧
  el_digest (body m) (Z.of_nat (length es1)) = Ok (e.2).
Proof.
  intros Hes. pose proof (la_elems _ _ _ _ L) as HF. rewrite Hes in HF.
  apply Forall_app in HF as [H1 [[He1 He2] _]%Forall_cons]. apply length_enc in H1.
  assert (body m = enc_header nv (Z.of_nat (length es)) ++ enc es1 ++ le_enc 2 (e.1) ++ e.2 ++ (enc es2 ++ tail)) as Hb.
  { rewrite (la_body _ _ _ _ L). rewrite Hes at 2. rewrite nvm_enc_app. cbn [enc flat_map]. unfold enc_elem at 1.
    by rewrite <- !app_assoc. }
  assert (length (enc_header nv (Z.of_nat (length es))) = 12%nat) as Hh by done.
  unfold el_replicaId, el_digest, get_uint, sizeof_Header, sizeof_Element, DIGEST_SIZE. rewrite Hb. split.
  - assert (∀ X, get_bytes (enc_header nv (Z.of_nat (length es)) ++ enc es1 ++ le_enc 2 (e.1) ++ X)
      (12 + Z.of_nat (length es1) * 34) (Z.of_nat 2) = Ok (le_enc 2 (e.1))) as -> by (intros; solve_get).
    res_step. by rewrite le_dec_enc, wrap_small by (simpl; lia).
  - solve_get.
Qed.
End reads.

Definition id_lt (a b : Z * Digest) : Prop := a.1 < b.1.
Definition nonzero (e : Z * Digest) : bool := negb (Digest.isZero (e.2)).

Lemma prev_lt es es0 p e es2 : StronglySorted id_lt es → es = es0 ++ p :: e :: es2 → p.1 < e.1.
Proof.
  intros Hs ->. induction es0 as [|x es0 IH]; simpl in Hs; inversion_clear Hs as [|? ? Hs' Hx].
  - by inversion_clear Hx.
  - by apply IH.
Qed.

Section loops.
Context (m : MessageBase.t) (nv : Z) (es : list (Z * Digest)) (tail : list Z).
Context (L : layout m nv es tail) (Hs : StronglySorted id_lt es).

Lemma checkElements_eq es2 : ∀ es1, es = es1 ++ es2 →
  checkElements (length es2) (body m) (Z.of_nat (length es1)) = Ok (forallb nonzero es2).
Proof.
  induction es2 as [|e es2 IH]; intros es1 Hes; [done|]. cbn [length checkElements].
  destruct (read_elem m nv es tail L es1 e es2 Hes) as [Hid Hd].
  assert ((if 0 <? Z.of_nat (length es1)
           then a ← el_replicaId (body m) (Z.of_nat (length es1) - 1);
                b ← el_replicaId (body m) (Z.of_nat (length es1)); Ok (b <=? a)
           else Ok false) = Ok false) as ->.
  { destruct es1 as [|p es0 _] using rev_ind; [done|].
    rewrite (proj2 (Z.ltb_lt _ _)) by (rewrite length_app; simpl; lia).
    rewrite <- app_assoc in Hes. simpl in Hes.
    destruct (read_elem m nv es tail L es0 p (e :: es2) Hes) as [Hp _].
    replace (Z.of_nat (length (es0 ++ [p])) - 1) with (Z.of_nat (length es0)) by (rewrite length_app; simpl; lia).
    rewrite Hp, Hid. res_step. pose proof (prev_lt _ _ _ _ _ Hs Hes).
    by rewrite (proj2 (Z.leb_gt _ _)). }
  res_step. rewrite Hd. res_step. simpl. unfold nonzero at 1.
  destruct (Digest.isZero e.2); simpl; [done|].
  replace (Z.of_nat (length es1) + 1) with (Z.of_nat (length (es1 ++ [e]))) by (rewrite length_app; simpl; lia).
  apply IH. by rewrite <- app_assoc.
Qed.

Lemma findReplica_eq id d es2 : StronglySorted id_lt es2 → ∀ es1, es = es1 ++ es2 →
  findReplica (length es2) (body m) (Z.of_nat (length es1)) id d = Ok (bool_decide ((id, d) ∈ es2)).
Proof.
  induction 1 as [|e es2 Hs2 IH He]; intros es1 Hes.
  { done. }
  cbn [length findReplica]. destruct (read_elem m nv es tail L es1 e es2 Hes) as [-> ->]. res_step.
  destruct (Z.eqb_spec (e.1) id) as [Hid|Hid].
  - unfold Digest.eqb. f_equal. apply bool_decide_ext. rewrite elem_of_cons. split.
    + intros ->. left. destruct e; simpl in *; congruence.
    + intros [<-|Hin]; [done|]. eapply Forall_forall in He; [|done]. unfold id_lt in He. simpl in He. lia.
  - destruct (Z.ltb_spec id (e.1)).
    + rewrite bool_decide_eq_false_2; [done|]. rewrite elem_of_cons. intros [<-|Hin]; [done|].
      eapply Forall_forall in He; [|done]. unfold id_lt in He. simpl in He. lia.
    + replace (Z.of_nat (length es1) + 1) with (Z.of_nat (length (es1 ++ [e]))) by (rewrite length_app; simpl; lia).
      rewrite IH by (by rewrite <- app_assoc). f_equal. apply bool_decide_ext. rewrite elem_of_cons.
      split; [by right|]. intros [<-|?]; done.
Qed.
End loops.

(** ** Construction *)

Lemma nvm_addElement_layout m nv es e old rest :
  layout m nv es (old ++ rest) → elem_wf e → length old = 34%nat →
  StronglySorted id_lt (es ++ [e]) → Z.of_nat (length es) < 1799 →
  ∃ bd, addElement m (e.1) (e.2) = Ok (set_body m bd) ∧ layout (set_body m bd) nv (es ++ [e]) rest.
Proof.
  intros L [He1 He2] Ho Hs Hn. unfold addElement. rewrite (read_count _ _ _ _ L). res_step.
  unfold sizeof_Header, sizeof_Element, maxExternalMessageSize.
  rewrite u16_small, (proj2 (Z.leb_le _ _)) by lia. res_step.
  assert ((if Z.of_nat (length es) =? 0 then Ok true
           else prev ← el_replicaId (body m) (Z.of_nat (length es) - 1); Ok (prev <? e.1)) = Ok true) as ->.
  { destruct es as [|p es0 _] using rev_ind; [done|].
    rewrite (proj2 (Z.eqb_neq _ _)) by (rewrite length_app; simpl; lia).
    destruct (read_elem m nv _ _ L es0 p []) as [Hp _]; [done|].
    replace (Z.of_nat (length (es0 ++ [p])) - 1) with (Z.of_nat (length es0)) by (rewrite length_app; simpl; lia).
    rewrite Hp. res_step. rewrite (proj2 (Z.ltb_lt _ _)); [done|].
    apply (prev_lt ((es0 ++ [p]) ++ [e]) es0 p e [] Hs). by rewrite <- app_assoc. }
  res_step. pose proof (length_enc es (la_elems _ _ _ _ L)) as Hl.
  destruct (take_drop_middle_split 2 32 old) as (o1 & o2 & o3 & -> & H1 & H2); [lia|].
  assert (o3 = []) as -> by (apply length_zero_iff_nil; rewrite !length_app in Ho; lia).
  rewrite app_nil_r in *. rewrite (la_body _ _ _ _ L), <- !app_assoc. unfold put_int.
  set (n := Z.of_nat (length es)) in *.
  assert (length (enc_header nv n) = 12%nat) as Hh by done.
  assert (put_bytes (enc_header nv n ++ enc es ++ o1 ++ o2 ++ rest) (12 + n * 34) (le_enc 2 (e.1)) =
    Ok (enc_header nv n ++ enc es ++ le_enc 2 (e.1) ++ o2 ++ rest)) as -> by solve_put. res_step.
  assert (put_bytes (enc_header nv n ++ enc es ++ le_enc 2 (e.1) ++ o2 ++ rest) (12 + n * 34 + 2) (e.2) =
    Ok (enc_header nv n ++ enc es ++ le_enc 2 (e.1) ++ e.2 ++ rest)) as -> by solve_put. res_step.
  assert (∀ X, put_bytes (enc_header nv n ++ X) 10 (le_enc 2 (n + 1)) = Ok (enc_header nv (n + 1) ++ X)) as ->
    by (intros; unfold enc_header; rewrite <- ?app_assoc; solve_put). res_step.
  eexists. split; [done|]. destruct L. constructor; cbn [MessageBase.msgBody_ set_body]; try done.
  - rewrite length_app, nvm_enc_app. cbn [enc flat_map length]. unfold enc_elem. rewrite app_nil_r, <- !app_assoc.
    f_equal. f_equal. unfold n. lia.
  - rewrite length_app. simpl. lia.
  - apply Forall_app. split; [done|]. constructor; [done|constructor].
Qed.

(** A sequence of [addElement] calls. *)
Fixpoint addElements (m : MessageBase.t) (es : list (Z * Digest)) : res MessageBase.t :=
  match es with
  | [] => Ok m
  | (r, d) :: es' => m' ← addElement m r d; addElements m' es'
  end.

Definition built (m : MessageBase.t) : Prop :=
  Z.of_nat (length (body m)) = MessageBase.storageSize_ m ∧
  MessageBase.storageSize_ m = maxExternalMessageSize ∧ MessageBase.owner_ m = true.

Lemma nvm_ctor_layout sender nv : - 2 ^ 63 <= nv < 2 ^ 63 →
  ∃ m tail, ctor sender nv = Ok m ∧ layout m nv [] tail ∧ built m ∧ MessageBase.sender_ m = sender.
Proof.
  intros Hv. unfold ctor, MessageBase.ctor, maxExternalMessageSize.
  change (0 <? 64 * 1000) with true. res_step.
  replace (Z.to_nat (64 * 1000)) with (2 + (8 + (2 + Z.to_nat 63988)))%nat by lia.
  rewrite !replicate_add. set (X := replicate (Z.to_nat 63988) 0). unfold put_int.
  rewrite (put_bytes_head (replicate 2 0)) by done. res_step. cbn [MessageBase.msgBody_].
  assert (put_bytes (le_enc 2 (code_of MC_NewView) ++ replicate 8 0 ++ replicate 2 0 ++ X) 2 (le_enc 8 nv) =
    Ok (le_enc 2 (code_of MC_NewView) ++ le_enc 8 nv ++ replicate 2 0 ++ X)) as -> by solve_put. res_step.
  assert (put_bytes (le_enc 2 (code_of MC_NewView) ++ le_enc 8 nv ++ replicate 2 0 ++ X) 10 (le_enc 2 0) =
    Ok (le_enc 2 (code_of MC_NewView) ++ le_enc 8 nv ++ le_enc 2 0 ++ X)) as -> by solve_put. res_step.
  eexists _, X. split; [done|]. split; [|split].
  - constructor; [|done|done|done]. cbn [MessageBase.msgBody_ set_body]. unfold enc_header. by rewrite <- !app_assoc.
  - split; [|done]. cbn [MessageBase.msgBody_ MessageBase.storageSize_ set_body].
    rewrite !length_app, !length_le_enc. unfold X. rewrite length_replicate. lia.
  - done.
Qed.

Lemma nvm_addElements_layout nv es : ∀ done_ m tail,
  layout m nv done_ tail → built m → Forall elem_wf es → StronglySorted id_lt (done_ ++ es) →
  Z.of_nat (length (done_ ++ es)) < 1800 →
  ∃ m' tail', addElements m es = Ok m' ∧ layout m' nv (done_ ++ es) tail' ∧ built m' ∧
    MessageBase.sender_ m' = MessageBase.sender_ m.
Proof.
  induction es as [|[r d] es IH]; intros done_ m tail L B HF Hs Hn; simpl.
  { exists m, tail. by rewrite app_nil_r. }
  apply Forall_cons in HF as [He HF]. pose proof B as (B1 & B2 & B3).
  pose proof (length_enc done_ (la_elems _ _ _ _ L)) as Hl. rewrite length_app, length_cons in Hn.
  assert (Z.of_nat (length (body m)) = 12 + 34 * Z.of_nat (length done_) + Z.of_nat (length tail)) as Hbl
    by (rewrite (la_body _ _ _ _ L), !length_app; simpl length; lia).
  unfold maxExternalMessageSize in *.
  destruct (take_drop_middle_split 0 34 tail) as (z & old & rest & -> & Hz & Ho); [lia|].
  apply length_zero_iff_nil in Hz as ->. rewrite app_nil_l in *.
  replace (done_ ++ (r, d) :: es) with ((done_ ++ [(r, d)]) ++ es) in * by (by rewrite <- app_assoc).
  destruct (nvm_addElement_layout m nv done_ (r, d) old rest) as (bd & Ha & L'); try done; [|lia|].
  { clear -Hs. revert Hs. generalize (done_ ++ [(r, d)]). intros l. induction l as [|x l IHl]; intros Hs; [constructor|].
    simpl in Hs. inversion_clear Hs as [|? ? Hs' Hx]. apply Forall_app in Hx as [? _]. constructor; auto. }
  simpl in Ha. rewrite Ha. res_step.
  destruct (IH _ _ _ L') as (m' & tail' & -> & L2 & B' & S'); [|done|done|rewrite !length_app; simpl; lia|].
  - split; [|done]. rewrite (la_body _ _ _ _ L'), nvm_enc_app, !length_app. cbn [MessageBase.storageSize_ set_body].
    rewrite !length_app in Hbl. destruct He as [_ He2]. simpl in He2. cbn [enc flat_map length]. unfold enc_elem.
    rewrite !length_app. simpl length. lia.
  - by exists m', tail'.
Qed.

(** The finished message: exactly the header and the array. *)
Lemma finalize_layout r m nv es tail :
  layout m nv es tail → built m → Z.of_nat (length es) = 2 * ReplicasInfo._fVal r + 2 * ReplicasInfo._cVal r + 1 →
  ∃ m', finalizeMessage r m = Ok m' ∧ layout m' nv es [] ∧
    MessageBase.sender_ m' = MessageBase.sender_ m ∧ msize m' = 12 + 34 * Z.of_nat (length es).
Proof.
  intros L (B1 & B2 & B3) Hn. unfold finalizeMessage. rewrite (read_count _ _ _ _ L). res_step.
  rewrite (proj2 (Z.eqb_eq _ _)) by done. res_step. unfold sizeof_Header, sizeof_Element, maxExternalMessageSize in *.
  pose proof (la_num _ _ _ _ L) as Hm. pose proof (length_enc es (la_elems _ _ _ _ L)) as Hl.
  rewrite u16_small by lia. set (p := enc_header nv (Z.of_nat (length es)) ++ enc es).
  assert (body m = p ++ tail) as Hb by (rewrite (la_body _ _ _ _ L); unfold p; by rewrite <- app_assoc).
  assert (Z.of_nat (length p) = 12 + Z.of_nat (length es) * 34) as Hp by (unfold p; rewrite length_app; simpl length; lia).
  unfold MessageBase.setMsgSize. rewrite (proj2 (Z.leb_le _ _)) by lia. res_step.
  rewrite Hb, length_app in B1.
  assert (∀ X, length X = length tail → layout (MessageBase.mk (take (Z.to_nat (12 + Z.of_nat (length es) * 34)) (p ++ X))
    (12 + Z.of_nat (length es) * 34) (12 + Z.of_nat (length es) * 34) (MessageBase.sender_ m) true) nv es []) as HL.
  { intros X HX. rewrite take_app_length' by lia. destruct L. constructor; try done. cbn [MessageBase.msgBody_].
    unfold p. by rewrite app_nil_r. }
  rewrite Hb. case_match eqn:E; bool_to_prop; unfold MessageBase.shrinkToFit.
  - rewrite (put_bytes_skip (12 + Z.of_nat (length es) * 34)), Z.sub_diag by lia.
    rewrite put_bytes_last by (done || rewrite length_replicate; lia). res_step.
    cbn [MessageBase.owner_ MessageBase.msgBody_ MessageBase.msgSize_ MessageBase.sender_]. rewrite B3. res_step.
    eexists. split; [done|]. split; [apply HL; rewrite length_replicate; lia|]. split; [done|]. simpl. lia.
  - res_step. cbn [MessageBase.owner_ MessageBase.msgBody_ MessageBase.msgSize_ MessageBase.sender_]. rewrite B3. res_step.
    eexists. split; [done|]. split; [by apply HL|]. split; [done|]. simpl. lia.
Qed.

(** How a primary makes the message. *)
Definition create (r : ReplicasInfo.t) (sender nv : Z) (es : list (Z * Digest)) : res MessageBase.t :=
  m ← ctor sender nv; m ← addElements m es; finalizeMessage r m.

(** C34: a new-view message made from 2f+2c+1 entries in increasing order of replicas
    is accepted by a peer exactly when its sender is the view's primary and no
    digest is zero, and it answers [includesViewChangeFromReplica] for exactly
    its entries. *)
Theorem newView_create_accept r sender nv es :
  ReplicasInfo.wf r → 0 <= sender < ReplicasInfo._numberOfReplicas r → sender ≠ ReplicasInfo._myId r →
  - 2 ^ 63 <= nv < 2 ^ 63 → Forall elem_wf es → StronglySorted id_lt es →
  Z.of_nat (length es) = 2 * ReplicasInfo._fVal r + 2 * ReplicasInfo._cVal r + 1 →
  Z.of_nat (length es) < 1800 →
  ∃ m, create r sender nv es = Ok m ∧ newView m = Ok nv ∧
    ToActualMsgType r m = Ok ((ReplicasInfo.primaryOfView r nv =? sender) && forallb nonzero es) ∧
    ∀ id d, includesViewChangeFromReplica m id d = Ok (bool_decide ((id, d) ∈ es)).
Proof.
  intros Hr Hse Hmy Hnv HF Hs Hlen Hn. unfold create.
  destruct (nvm_ctor_layout sender nv Hnv) as (m0 & t0 & -> & L0 & B0 & S0). res_step.
  destruct (nvm_addElements_layout nv es [] m0 t0 L0 B0 HF Hs Hn) as (m1 & t1 & -> & L1 & B1 & S1). res_step.
  simpl app in L1. destruct (finalize_layout r m1 nv es t1 L1 B1 Hlen) as (m & -> & L & S & Hsz).
  exists m. split; [done|]. split; [by eapply nvm_read_newView|]. split.
  - unfold ToActualMsgType. rewrite (nvm_read_type _ _ _ _ L). res_step. rewrite Z.eqb_refl. res_step.
    rewrite (u16_small (2 * _ + _ + _)) by lia. rewrite <- Hlen.
    unfold sizeof_Header, sizeof_Element. rewrite u16_small, Hsz by lia.
    rewrite !(proj2 (Z.ltb_ge _ _)) by lia. rewrite S, S1, S0.
    unfold ReplicasInfo.isIdOfReplica. rewrite (proj2 (Z.ltb_lt sender _)) by lia. cbn [negb].
    rewrite (proj2 (Z.eqb_neq _ _)) by congruence. rewrite (nvm_read_newView _ _ _ _ L). res_step.
    destruct (_ =? sender); [|done]. cbn [negb andb]. rewrite (read_count _ _ _ _ L). res_step.
    rewrite Z.eqb_refl, Nat2Z.id. cbn [negb]. by apply (checkElements_eq m nv es [] L Hs es []).
  - intros id d. unfold includesViewChangeFromReplica. rewrite (read_count _ _ _ _ L). res_step.
    rewrite Nat2Z.id. by apply (findReplica_eq m nv es [] L id d es Hs []).
Qed.

Lemma newView_create_accept_witness :
  ∃ m, create (ReplicasInfo.sample 4 1 0) 2 6 [(0, replicate 32 5); (1, replicate 32 6); (3, replicate 32 7)] = Ok m ∧
    newView m = Ok 6 ∧ ToActualMsgType (ReplicasInfo.sample 4 1 0) m = Ok true ∧
    ∀ id d, includesViewChangeFromReplica m id d =
      Ok (bool_decide ((id, d) ∈ [(0, replicate 32 5); (1, replicate 32 6); (3, replicate 32 7)])).
Proof.
  apply (newView_create_accept (ReplicasInfo.sample 4 1 0) 2 6 [(0, replicate 32 5); (1, replicate 32 6); (3, replicate 32 7)]).
  - constructor; simpl; lia || reflexivity.
  - simpl. lia.
  - discriminate.
  - lia.
  - repeat constructor; simpl; lia.
  - repeat constructor; unfold id_lt; simpl; lia.
  - reflexivity.
  - simpl. lia.
Defined.
End NewViewMsg.
