(* ===== verification/ViewsManager.v ===== *)
(** * ViewsManager (bftengine/src/bftengine/ViewsManager.hpp, .cpp)

    The state machine of view changes: collecting view-change and new-view
    messages, moving to a pending view, computing its restrictions, entering it
    and leaving it.  View-change and new-view messages have one owner each and
    are values; pre-prepare messages are shared between two collections and the
    caller, so they live in a heap and are pointers (addresses), [delete] is an
    operation that fails on an address that is not allocated.

    Parameters: the hash of a view-change message ([getMsgDigest]), the threshold
    verifier of prepared certificates, the digest of the null pre-prepare message
    and the length of the replica's signature. *)
From S2P Require Import Prelude SysConsts Digest ReplicasInfo ViewChangeMsg ViewChangeSafety.
Export ViewChangeSafety.

Module ViewsManager.

Inductive Stat := NO_VIEW | PENDING | PENDING_WITH_RESTRICTIONS | IN_VIEW.

#[export] Instance Stat_eq_dec : EqDecision Stat.
Proof. solve_decision. Defined.

(** A view-change message with its generating replica, and a new-view message. *)
Record VCM := mkVCM { vm_gen : Z; vm_vc : VC }.
Record NV := mkNV { nv_sender : Z; nv_view : Z; nv_elems : list (Z * Digest) }.

(** A pre-prepare message object; [pf] is a [PrepareFullMsg]. *)
Record PP := mkPP { pp_seq : Z; pp_view : Z; pp_digest : Digest; pp_null : bool }.
Record PF := mkPF { pf_seq : Z; pf_view : Z; pf_sig : list Z }.
Record PrevViewInfo := mkPrev { prePrepare : option Z; hasAllRequests : bool; prepareFull : option PF }.

Record t := mk {
  stat : Stat;
  myLatestActiveView : Z;
  myLatestPendingView : Z;
  viewChangeMessages : list (option VCM);
  newViewMessages : list (option NV);
  collectionOfPrePrepareMsgs : gmap Z Z;
  viewChangeMsgsOfPendingView : list (option VCM);
  newViewMsgOfOfPendingView : option NV;
  minRestrictionOfPendingView : Z;
  maxRestrictionOfPendingView : Z;
  restrictionsOfPendingView : list Restriction;
  prePrepareMsgsOfRestrictions : list (option Z);
  lowerBoundStableForPendingView : Z;
  debugHighestKnownStable : Z;
  debugHighestViewNumberPassedByClient : Z;
  heap : gmap Z PP;
  nextAddr : Z;
}.

(** Field updates. *)
Definition set_stat (s : t) (x : Stat) : t :=
  mk x (myLatestActiveView s) (myLatestPendingView s) (viewChangeMessages s) (newViewMessages s)
    (collectionOfPrePrepareMsgs s) (viewChangeMsgsOfPendingView s) (newViewMsgOfOfPendingView s)
    (minRestrictionOfPendingView s) (maxRestrictionOfPendingView s) (restrictionsOfPendingView s)
    (prePrepareMsgsOfRestrictions s) (lowerBoundStableForPendingView s) (debugHighestKnownStable s)
    (debugHighestViewNumberPassedByClient s) (heap s) (nextAddr s).
Definition set_views (s : t) (active pending : Z) : t :=
  mk (stat s) active pending (viewChangeMessages s) (newViewMessages s)
    (collectionOfPrePrepareMsgs s) (viewChangeMsgsOfPendingView s) (newViewMsgOfOfPendingView s)
    (minRestrictionOfPendingView s) (maxRestrictionOfPendingView s) (restrictionsOfPendingView s)
    (prePrepareMsgsOfRestrictions s) (lowerBoundStableForPendingView s) (debugHighestKnownStable s)
    (debugHighestViewNumberPassedByClient s) (heap s) (nextAddr s).
Definition set_vc (s : t) (vcs : list (option VCM)) : t :=
  mk (stat s) (myLatestActiveView s) (myLatestPendingView s) vcs (newViewMessages s)
    (collectionOfPrePrepareMsgs s) (viewChangeMsgsOfPendingView s) (newViewMsgOfOfPendingView s)
    (minRestrictionOfPendingView s) (maxRestrictionOfPendingView s) (restrictionsOfPendingView s)
    (prePrepareMsgsOfRestrictions s) (lowerBoundStableForPendingView s) (debugHighestKnownStable s)
    (debugHighestViewNumberPassedByClient s) (heap s) (nextAddr s).
Definition set_nv (s : t) (nvs : list (option NV)) : t :=
  mk (stat s) (myLatestActiveView s) (myLatestPendingView s) (viewChangeMessages s) nvs
    (collectionOfPrePrepareMsgs s) (viewChangeMsgsOfPendingView s) (newViewMsgOfOfPendingView s)
    (minRestrictionOfPendingView s) (maxRestrictionOfPendingView s) (restrictionsOfPendingView s)
    (prePrepareMsgsOfRestrictions s) (lowerBoundStableForPendingView s) (debugHighestKnownStable s)
    (debugHighestViewNumberPassedByClient s) (heap s) (nextAddr s).
Definition set_pending (s : t) (vcs : list (option VCM)) (nv : option NV) : t :=
  mk (stat s) (myLatestActiveView s) (myLatestPendingView s) (viewChangeMessages s) (newViewMessages s)
    (collectionOfPrePrepareMsgs s) vcs nv
    (minRestrictionOfPendingView s) (maxRestrictionOfPendingView s) (restrictionsOfPendingView s)
    (prePrepareMsgsOfRestrictions s) (lowerBoundStableForPendingView s) (debugHighestKnownStable s)
    (debugHighestViewNumberPassedByClient s) (heap s) (nextAddr s).
Definition set_restr (s : t) (mn mx : Z) (rs : list Restriction) : t :=
  mk (stat s) (myLatestActiveView s) (myLatestPendingView s) (viewChangeMessages s) (newViewMessages s)
    (collectionOfPrePrepareMsgs s) (viewChangeMsgsOfPendingView s) (newViewMsgOfOfPendingView s)
    mn mx rs (prePrepareMsgsOfRestrictions s) (lowerBoundStableForPendingView s) (debugHighestKnownStable s)
    (debugHighestViewNumberPassedByClient s) (heap s) (nextAddr s).
Definition set_pps (s : t) (coll : gmap Z Z) (pps : list (option Z)) (h : gmap Z PP) (next : Z) : t :=
  mk (stat s) (myLatestActiveView s) (myLatestPendingView s) (viewChangeMessages s) (newViewMessages s)
    coll (viewChangeMsgsOfPendingView s) (newViewMsgOfOfPendingView s)
    (minRestrictionOfPendingView s) (maxRestrictionOfPendingView s) (restrictionsOfPendingView s)
    pps (lowerBoundStableForPendingView s) (debugHighestKnownStable s)
    (debugHighestViewNumberPassedByClient s) h next.
Definition set_bounds (s : t) (lb known passed : Z) : t :=
  mk (stat s) (myLatestActiveView s) (myLatestPendingView s) (viewChangeMessages s) (newViewMessages s)
    (collectionOfPrePrepareMsgs s) (viewChangeMsgsOfPendingView s) (newViewMsgOfOfPendingView s)
    (minRestrictionOfPendingView s) (maxRestrictionOfPendingView s) (restrictionsOfPendingView s)
    (prePrepareMsgsOfRestrictions s) lb known passed (heap s) (nextAddr s).

(** The decoded messages of the pending view. *)
Definition pendingVCs (s : t) : list (option VC) := map (option_map vm_vc) (viewChangeMsgsOfPendingView s).

(** Array and heap accesses. *)
Definition at_ {A} (l : list A) (i : Z) : res A :=
  if i <? 0 then Err OutOfBounds
  else match l !! Z.to_nat i with Some x => Ok x | None => Err OutOfBounds end.
Definition put_ {A} (l : list A) (i : Z) (x : A) : res (list A) :=
  if (0 <=? i) && (i <? Z.of_nat (length l)) then Ok (<[Z.to_nat i := x]> l) else Err OutOfBounds.
Definition deref (h : gmap Z PP) (a : Z) : res PP :=
  match h !! a with Some p => Ok p | None => Err OutOfBounds end.
(** [delete p]; nothing happens for [nullptr]. *)
Definition free (h : gmap Z PP) (p : option Z) : res (gmap Z PP) :=
  match p with
  | None => Ok h
  | Some a => _ ← deref h a; Ok (base.delete a h)
  end.

Section defs.
Context (info : ReplicasInfo.t) (msgDigest : VCM → Digest) (verify : Digest → list Z → bool)
        (nullDigest : Digest) (mySigLength : Z).
#[local] Abbreviation N := (ReplicasInfo._numberOfReplicas info).
#[local] Abbreviation F := (ReplicasInfo._fVal info).
#[local] Abbreviation C := (ReplicasInfo._cVal info).
#[local] Abbreviation myId := (ReplicasInfo._myId info).

Definition SMAJOR : Z := u16 (2 * F + 2 * C + 1).

Definition ctor : res t :=
  assert! (N =? 3 * F + 2 * C + 1) ;;
  let n := Z.to_nat N in
  let w := Z.to_nat kWorkWindowSize in
  Ok (mk IN_VIEW 0 0 (replicate n None) (replicate n None) ∅ (replicate n None) None 0 0
        (replicate w (mkRestriction true zeroDigest)) (replicate w None) 0 0 0 ∅ 0).

Definition inView (s : t) : bool := bool_decide (stat s = IN_VIEW).
Definition viewIsActive (s : t) (v : Z) : bool := inView s && (myLatestActiveView s =? v).
Definition viewIsPending (s : t) (v : Z) : bool :=
  (v =? myLatestPendingView s) && (myLatestActiveView s <? v).
Definition waitingForMsgs (s : t) : bool := bool_decide (stat s = PENDING_WITH_RESTRICTIONS).

Definition vm_newView (m : VCM) : Z := vc_newView (vm_vc m).

(** [vc = viewChangeMsgsOfPendingView[myId]; if (vc == nullptr) vc = viewChangeMessages[myId];] *)
Definition myViewChange (s : t) : res (option VCM) :=
  p ← at_ (viewChangeMsgsOfPendingView s) myId;
  match p with Some _ => Ok p | None => at_ (viewChangeMessages s) myId end.

Definition getMyLatestViewChangeMsg (s : t) : res (option VCM) :=
  vc ← myViewChange s;
  assert! (bool_decide (vc ≠ None) || (myLatestPendingView s =? 0)) ;;
  Ok vc.

(** [ReplicaImp::MoveToHigherView] on a replica that has left its view:
    [getMyLatestViewChangeMsg()->setNewViewNumber(nextView)]. *)
Definition setNewViewNumber (m : VCM) (newView : Z) : res VCM :=
  assert! (vm_newView m <=? newView) ;;
  Ok (mkVCM (vm_gen m) (mkVC newView (vc_lastStable (vm_vc m)) (vc_elements (vm_vc m)))).

Definition moveMyViewChange (s : t) (nextView : Z) : res t :=
  vc ← getMyLatestViewChangeMsg s;
  match vc with
  | None => Err AssertFailed
  | Some m =>
      m ← setNewViewNumber m nextView;
      p ← at_ (viewChangeMsgsOfPendingView s) myId;
      match p with
      | Some _ => pend ← put_ (viewChangeMsgsOfPendingView s) myId (Some m);
                  Ok (set_pending s pend (newViewMsgOfOfPendingView s))
      | None => vcs ← put_ (viewChangeMessages s) myId (Some m); Ok (set_vc s vcs)
      end
  end.

(** [includesViewChangeFromReplica] (NewViewMsg.v) *)
Definition includes (nv : NV) (id : Z) (d : Digest) : bool := bool_decide ((id, d) ∈ nv_elems nv).

(** [bool add(NewViewMsg* m)] *)
Definition addNewView (s : t) (m : NV) : res (bool * t) :=
  let sId := nv_sender m in
  let v := nv_view m in
  assert! (negb (sId =? myId)) ;;
  assert! (sId =? ReplicasInfo.primaryOfView info v) ;;
  if v <=? myLatestPendingView s then Ok (false, s)
  else
    nvs ← put_ (newViewMessages s) sId (Some m);
    Ok (true, set_nv s nvs).

(** [bool add(ViewChangeMsg* m)] *)
Definition addViewChange (s : t) (m : VCM) : res (bool * t) :=
  let v := vm_newView m in
  let id := vm_gen m in
  assert! (negb (id =? myId)) ;;
  if v <=? myLatestPendingView s then Ok (false, s)
  else
    let relPrimary := ReplicasInfo.primaryOfView info v in
    relatedNewView ← at_ (newViewMessages s) relPrimary;
    ignoreMsg ← match relatedNewView with
      | None => Ok false
      | Some nv =>
          if v <? nv_view nv then Ok true
          else if nv_view nv =? v then
            prevVC ← at_ (viewChangeMessages s) id;
            match prevVC with
            | Some p => if vm_newView p =? v then Ok (includes nv id (msgDigest p)) else Ok false
            | None => Ok false
            end
          else Ok false
      end;
    if (ignoreMsg : bool) then Ok (false, s)
    else
      vcs ← put_ (viewChangeMessages s) id (Some m);
      Ok (true, set_vc s vcs).

(** [compareViews] is the comparison of [compareSeqNumbers]. *)
Definition compareViews (x y : Z) : Z := compareSeqNumbers x y.

(** The loop filling [viewNumbers]; [i] is the index of the first message. *)
Fixpoint collectViews (my : option VCM) (vcs : list (option VCM)) (i pending : Z) : list Z :=
  match vcs with
  | [] => []
  | vc :: vcs' =>
      let vc := if i =? myId then my else vc in
      match vc with
      | Some m => if pending <? vm_newView m
                  then vm_newView m :: collectViews my vcs' (i + 1) pending
                  else collectViews my vcs' (i + 1) pending
      | None => collectViews my vcs' (i + 1) pending
      end
  end.

(** Result: [outMaxKnownCorrectView] and [outMaxKnownAgreedView]. *)
Definition computeCorrectRelevantViewNumbers (s : t) : res (Z * Z) :=
  let CORRECT := u16 (F + 1) in
  my ← getMyLatestViewChangeMsg s;
  let viewNumbers := collectViews my (viewChangeMessages s) 0 (myLatestPendingView s) in
  let numOfVC := Z.of_nat (length viewNumbers) in
  if numOfVC <? CORRECT then Ok (myLatestPendingView s, myLatestPendingView s)
  else
    let sorted := sortStable viewNumbers in
    first ← at_ sorted 0;
    last ← at_ sorted (numOfVC - 1);
    assert! (last <=? first) ;;
    correct ← at_ sorted (CORRECT - 1);
    if numOfVC <? SMAJOR then Ok (correct, myLatestPendingView s)
    else agreed ← at_ sorted (SMAJOR - 1); Ok (correct, agreed).

Definition hasNewViewMessage (s : t) (v : Z) : res bool :=
  assert! (myLatestPendingView s <=? v) ;;
  if v =? myLatestPendingView s then Ok true
  else
    nv ← at_ (newViewMessages s) (ReplicasInfo.primaryOfView info v);
    Ok (match nv with Some m => nv_view m =? v | None => false end).

Definition hasViewChangeMessageForFutureView (s : t) (repId : Z) : res bool :=
  assert! (repId <? N) ;;
  if negb (bool_decide (stat s = NO_VIEW)) then Ok true
  else
    vc ← at_ (viewChangeMessages s) repId;
    Ok (match vc with Some m => myLatestPendingView s <? vm_newView m | None => false end).

Definition getMyNewViewMsgForCurrentView (s : t) : res NV :=
  assert! (inView s) ;;
  assert! (myId =? ReplicasInfo.primaryOfView info (myLatestActiveView s)) ;;
  match newViewMsgOfOfPendingView s with
  | None => Err AssertFailed
  | Some r =>
      assert! (nv_sender r =? myId) ;;
      assert! (nv_view r =? myLatestActiveView s) ;;
      Ok r
  end.

(** The loop of [getViewChangeMsgsForCurrentView]. *)
Fixpoint collectCurrent (vcs : list (option VCM)) (active : Z) (j : Z) : res (list VCM) :=
  match vcs with
  | [] => assert! (j =? SMAJOR) ;; Ok []
  | vc :: vcs' =>
      if j <? SMAJOR then
        match vc with
        | None => collectCurrent vcs' active j
        | Some m =>
            assert! (vm_newView m =? active) ;;
            l ← collectCurrent vcs' active (u16 (j + 1)); Ok (m :: l)
        end
      else assert! (j =? SMAJOR) ;; Ok []
  end.

Definition getViewChangeMsgsForCurrentView (s : t) : res (list VCM) :=
  assert! (inView s) ;;
  collectCurrent (viewChangeMsgsOfPendingView s) (myLatestActiveView s) 0.

Definition getNewViewMsgForCurrentView (s : t) : res NV :=
  assert! (inView s) ;;
  match newViewMsgOfOfPendingView s with
  | None => Err AssertFailed
  | Some r => assert! (nv_view r =? myLatestActiveView s) ;; Ok r
  end.

Definition stableLowerBoundWhenEnteredToView (s : t) : res Z :=
  assert! (inView s) ;; Ok (lowerBoundStableForPendingView s).

(** [resetDataOfLatestPendingAndKeepMyViewChange]: the loop over the restrictions from
    number [i] on ([n] of them). *)
Fixpoint resetPPs (n : nat) (i mn : Z) (coll : gmap Z Z) (pps : list (option Z)) (h : gmap Z PP)
  : res (list (option Z) * gmap Z PP) :=
  match n with
  | O => Ok (pps, h)
  | S n' =>
      let idx := i - mn in
      assert! (idx <? kWorkWindowSize) ;;
      p ← at_ pps idx;
      h ← (if bool_decide (is_Some (coll !! i)) && bool_decide (coll !! i = p) then Ok h else free h p);
      pps ← put_ pps idx None;
      resetPPs n' (i + 1) mn coll pps h
  end.

(** "we don't want to delete my VC message" *)
Definition keepMyViewChange (s : t) : res t :=
  mine ← at_ (viewChangeMsgsOfPendingView s) myId;
  match mine with
  | None => Ok s
  | Some _ =>
      vcs ← put_ (viewChangeMessages s) myId mine;
      pend ← put_ (viewChangeMsgsOfPendingView s) myId None;
      Ok (set_pending (set_vc s vcs) pend (newViewMsgOfOfPendingView s))
  end.

(** "delete messages in prePrepareMsgsOfRestrictions" *)
Definition resetRestrictions (s : t) : res t :=
  let mn := minRestrictionOfPendingView s in
  let mx := maxRestrictionOfPendingView s in
  if negb (mn =? 0) then
    '(pps, h) ← resetPPs (Z.to_nat (mx - mn + 1)) mn mn (collectionOfPrePrepareMsgs s)
                  (prePrepareMsgsOfRestrictions s) (heap s);
    Ok (set_restr (set_pps s (collectionOfPrePrepareMsgs s) pps h (nextAddr s)) 0 0
          (restrictionsOfPendingView s))
  else Ok s.

Definition resetDataOfLatestPendingAndKeepMyViewChange (s : t) : res t :=
  match newViewMsgOfOfPendingView s with
  | None => Ok s
  | Some _ =>
      s ← keepMyViewChange s;
      s ← resetRestrictions s;
      Ok (set_pending s (replicate (length (viewChangeMsgsOfPendingView s)) None) None)
  end.

(** [locationAfterLast] of a view-change message with the elements [es]. *)
Definition locationAfter (es : list Element) : Z :=
  foldr (fun e n => ViewChangeMsg.elem_len e + n) ViewChangeMsg.sizeof_Header es.

(** [ViewChangeMsg::addElement] on the decoded message (ViewChangeMsg.v). *)
Definition addElement (ls : Z) (es : list Element) (e : Element) : res (list Element) :=
  assert! (Z.of_nat (length es) <? kWorkWindowSize) ;;
  assert! (ls <? e_seqNum e) ;;
  assert! (e_seqNum e <=? ls + kWorkWindowSize) ;;
  let requiredSpace := u16 (locationAfter es + ViewChangeMsg.sizeof_Element) in
  let requiredSpace :=
    match e_certificate e with
    | Some (_, sg) => u16 (requiredSpace + (ViewChangeMsg.sizeof_PreparedCertificate + Z.of_nat (length sg)))
    | None => requiredSpace
    end in
  assert! (requiredSpace + mySigLength <=? maxExternalMessageSize) ;;
  Ok (es ++ [e]).

(** The certificate of the previous view-change message for [s] and [digest], and the
    iterator after the search. *)
Definition previousCertificate (active sq : Z) (digest : Digest) (it : list Element)
  : res (option (Z * list Z) * list Element) :=
  match it with
  | [] => Ok (None, it)
  | _ =>
      let it := goToAtLeast sq it in
      match it with
      | e :: _ =>
          match e_certificate e with
          | Some (cv, sg) =>
              if (e_seqNum e =? sq) && Digest.eqb (e_prePrepreDigest e) digest then
                assert! (e_originView e <=? active) ;;
                assert! (cv <=? e_originView e) ;;
                Ok (Some (cv, sg), it)
              else Ok (None, it)
          | None => Ok (None, it)
          end
      | [] => Ok (None, it)
      end
  end.

(** The element that is added for [pp], if any. *)
Definition exitElement (active currentLastStable currentLastExecuted : Z) (it : PrevViewInfo) (pp : PP)
    (prevCert : option (Z * list Z)) (es : list Element) : res (list Element) :=
  match prepareFull it, prevCert with
  | Some pf, _ =>
      assert! (hasAllRequests it) ;;
      assert! (pp_seq pp =? pf_seq pf) ;;
      assert! (pf_view pf =? active) ;;
      addElement currentLastStable es
        (mkElement (pp_seq pp) (pp_digest pp) active (Some (active, pf_sig pf)))
  | None, Some (cv, sg) =>
      addElement currentLastStable es (mkElement (pp_seq pp) (pp_digest pp) active (Some (cv, sg)))
  | None, None =>
      if hasAllRequests it && negb (pp_null pp) then
        addElement currentLastStable es (mkElement (pp_seq pp) (pp_digest pp) active None)
      else assert! ((currentLastExecuted <? pp_seq pp) || pp_null pp) ;; Ok es
  end.

(** One iteration of [exitFromCurrentView]: the elements, the iterator over the
    previous message, [debugExpected], the collection and the heap. *)
Definition exitStep (st : t) (currentLastStable currentLastExecuted : Z) (it : PrevViewInfo)
    (es iterPrev : list Element) (debugExpected : Z) (coll : gmap Z Z) (h : gmap Z PP)
  : res (list Element * list Element * Z * gmap Z Z * gmap Z PP) :=
  match prePrepare it with
  | None => Err AssertFailed
  | Some a =>
      pp ← deref h a;
      let active := myLatestActiveView st in
      assert! (pp_view pp =? active) ;;
      let sq := pp_seq pp in
      assert! (lowerBoundStableForPendingView st <? sq) ;;
      assert! (debugExpected <? sq) ;;
      let allRequests := hasAllRequests it in
      assert! (bool_decide (prepareFull it = None) || allRequests) ;;
      '(prevCert, iterPrev) ←
        (if allRequests && bool_decide (prepareFull it = None)
         then previousCertificate active sq (pp_digest pp) iterPrev else Ok (None, iterPrev));
      es ← exitElement active currentLastStable currentLastExecuted it pp prevCert es;
      if allRequests && negb (pp_null pp)
      then Ok (es, iterPrev, sq, <[sq := a]> coll, h)
      else h ← free h (Some a); Ok (es, iterPrev, sq, coll, h)
  end.

Fixpoint exitLoop (st : t) (currentLastStable currentLastExecuted : Z) (l : list PrevViewInfo)
    (es iterPrev : list Element) (debugExpected : Z) (coll : gmap Z Z) (h : gmap Z PP)
  : res (list Element * Z * gmap Z Z * gmap Z PP) :=
  match l with
  | [] => Ok (es, debugExpected, coll, h)
  | it :: l' =>
      '(es, iterPrev, debugExpected, coll, h) ←
        exitStep st currentLastStable currentLastExecuted it es iterPrev debugExpected coll h;
      exitLoop st currentLastStable currentLastExecuted l' es iterPrev debugExpected coll h
  end.

Definition exitFromCurrentView (st : t) (currentLastStable currentLastExecuted : Z)
    (prevViewInfo : list PrevViewInfo) : res (VCM * t) :=
  assert! (inView st) ;;
  assert! (myLatestActiveView st =? myLatestPendingView st) ;;
  assert! (Z.of_nat (length prevViewInfo) <=? kWorkWindowSize) ;;
  assert! (bool_decide (collectionOfPrePrepareMsgs st = ∅)) ;;
  assert! (debugHighestKnownStable st <=? currentLastStable) ;;
  let st := set_bounds st (lowerBoundStableForPendingView st) currentLastStable
              (debugHighestViewNumberPassedByClient st) in
  let st := set_stat st NO_VIEW in
  myPreviousVC ← myViewChange st;
  let active := myLatestActiveView st in
  assert! ((active =? 0) || bool_decide (myPreviousVC ≠ None)) ;;
  assert! ((active =? 0) || match myPreviousVC with Some m => vm_newView m =? active | None => false end) ;;
  let iterPrevVC := match myPreviousVC with Some m => vc_elements (vm_vc m) | None => [] end in
  '(es, debugExpected, coll, h) ←
    exitLoop st currentLastStable currentLastExecuted prevViewInfo [] iterPrevVC currentLastStable
      (collectionOfPrePrepareMsgs st) (heap st);
  let myNewVC := mkVCM myId (mkVC (active + 1) currentLastStable es) in
  let st := set_pps st coll (prePrepareMsgsOfRestrictions st) h (nextAddr st) in
  assert! (debugExpected - currentLastStable <=? kWorkWindowSize) ;;
  st ← resetDataOfLatestPendingAndKeepMyViewChange st;
  vcs ← put_ (viewChangeMessages st) myId (Some myNewVC);
  Ok (myNewVC, set_vc st vcs).

(** ** Moving to a pending view *)

(** The loop choosing messages for [v]: indexes from [i] on, until [relatedVCMsgs] has
    [SMAJOR] elements; [size] is its size. *)
Fixpoint chooseVC (vcs : list (option VCM)) (i v size : Z) : list Z :=
  match vcs with
  | [] => []
  | vc :: vcs' =>
      if i =? myId then chooseVC vcs' (i + 1) v size
      else
        match vc with
        | Some m =>
            if vm_newView m =? v
            then i :: (if size + 1 =? SMAJOR then [] else chooseVC vcs' (i + 1) v (size + 1))
            else chooseVC vcs' (i + 1) v size
        | None => chooseVC vcs' (i + 1) v size
        end
  end.

(** [std::set<uint16_t>]: increasing. *)
Definition insertSorted (x : Z) (l : list Z) : list Z :=
  filter (fun y => y < x) l ++ [x] ++ filter (fun y => x < y) l.

(** The loop building [nv] and moving the chosen messages. *)
Fixpoint moveChosen (ids : list Z) (v : Z) (vcs pend : list (option VCM)) (elems : list (Z * Digest))
  : res (list (option VCM) * list (option VCM) * list (Z * Digest)) :=
  match ids with
  | [] => Ok (vcs, pend, elems)
  | i :: ids' =>
      vc ← at_ vcs i;
      match vc with
      | None => Err OutOfBounds
      | Some m =>
          assert! (vm_newView m =? v) ;;
          let d := msgDigest m in
          assert! (negb (Digest.isZero d)) ;;
          assert! (u16 (12 + (Z.of_nat (length elems) + 1) * 34) <=? maxExternalMessageSize) ;;
          assert! (match last elems with Some (r, _) => r <? i | None => true end) ;;
          old ← at_ pend i;
          assert! (bool_decide (old = None)) ;;
          pend ← put_ pend i (Some m);
          vcs ← put_ vcs i None;
          moveChosen ids' v vcs pend (elems ++ [(i, d)])
      end
  end.

Definition tryMoveToPendingViewAsPrimary (s : t) (v : Z) : res (bool * t) :=
  assert! (myLatestPendingView s <? v) ;;
  assert! (ReplicasInfo.primaryOfView info v =? myId) ;;
  s ← resetDataOfLatestPendingAndKeepMyViewChange s;
  myLastVC ← at_ (viewChangeMessages s) myId;
  assert! (match myLastVC with Some m => vm_newView m =? v | None => false end) ;;
  prevNewView ← at_ (newViewMessages s) myId;
  assert! (match prevNewView with Some m => nv_view m <? v | None => true end) ;;
  nvs ← put_ (newViewMessages s) myId None;
  let s := set_nv s nvs in
  let chosen := insertSorted myId (chooseVC (viewChangeMessages s) 0 v 1) in
  if Z.of_nat (length chosen) <? SMAJOR then Ok (false, s)
  else
    assert! (Z.of_nat (length chosen) =? SMAJOR) ;;
    '(vcs, pend, elems) ← moveChosen chosen v (viewChangeMessages s) (viewChangeMsgsOfPendingView s) [];
    assert! (bool_decide (newViewMsgOfOfPendingView s = None)) ;;
    let s := set_pending (set_vc s vcs) pend (Some (mkNV myId v elems)) in
    Ok (true, set_views s (myLatestActiveView s) v).

(** The indexes of the messages that [nv] includes. *)
Fixpoint relatedVC (nv : NV) (vcs : list (option VCM)) (i v : Z) : list Z :=
  match vcs with
  | [] => []
  | vc :: vcs' =>
      match vc with
      | Some m =>
          if (vm_newView m =? v) && includes nv (vm_gen m) (msgDigest m)
          then i :: relatedVC nv vcs' (i + 1) v else relatedVC nv vcs' (i + 1) v
      | None => relatedVC nv vcs' (i + 1) v
      end
  end.

Fixpoint moveRelated (ids : list Z) (vcs pend : list (option VCM))
  : res (list (option VCM) * list (option VCM)) :=
  match ids with
  | [] => Ok (vcs, pend)
  | i :: ids' =>
      old ← at_ pend i;
      assert! (bool_decide (old = None)) ;;
      vc ← at_ vcs i;
      pend ← put_ pend i vc;
      vcs ← put_ vcs i None;
      moveRelated ids' vcs pend
  end.

Definition tryMoveToPendingViewAsNonPrimary (s : t) (v : Z) : res (bool * t) :=
  assert! (myLatestPendingView s <? v) ;;
  let relevantPrimary := ReplicasInfo.primaryOfView info v in
  assert! (negb (relevantPrimary =? myId)) ;;
  s ← resetDataOfLatestPendingAndKeepMyViewChange s;
  nv ← at_ (newViewMessages s) relevantPrimary;
  match nv with
  | None => Ok (false, s)
  | Some nv =>
      if negb (nv_view nv =? v) then Ok (false, s)
      else
        let related := relatedVC nv (viewChangeMessages s) 0 v in
        if Z.of_nat (length related) <? SMAJOR then Ok (false, s)
        else
          assert! (Z.of_nat (length related) =? SMAJOR) ;;
          assert! (bool_decide (newViewMsgOfOfPendingView s = None)) ;;
          nvs ← put_ (newViewMessages s) relevantPrimary None;
          '(vcs, pend) ← moveRelated related (viewChangeMessages s) (viewChangeMsgsOfPendingView s);
          let s := set_pending (set_vc (set_nv s nvs) vcs) pend (Some nv) in
          Ok (true, set_views s (myLatestActiveView s) v)
  end.

(** The loop of [computeRestrictionsOfNewView]. *)
Fixpoint fillPPs (n : nat) (i mn : Z) (coll : gmap Z Z) (h : gmap Z PP) (rs : list Restriction)
    (pps : list (option Z)) : res (list (option Z)) :=
  match n with
  | O => Ok pps
  | S n' =>
      let idx := i - mn in
      assert! (idx <? kWorkWindowSize) ;;
      old ← at_ pps idx;
      assert! (bool_decide (old = None)) ;;
      r ← at_ rs idx;
      pps ← (if isNull r then Ok pps
             else match coll !! i with
                  | None => Ok pps
                  | Some a =>
                      pp ← deref h a;
                      if Digest.eqb (pp_digest pp) (digest r) then put_ pps idx (Some a) else Ok pps
                  end);
      fillPPs n' (i + 1) mn coll h rs pps
  end.

Definition computeRestrictionsOfNewView (s : t) (v : Z) : res t :=
  assert! (bool_decide (stat s = PENDING)) ;;
  assert! (myLatestPendingView s =? v) ;;
  match newViewMsgOfOfPendingView s with
  | None => Err AssertFailed
  | Some nv =>
      assert! (nv_view nv =? v) ;;
      '(rs, mn, mx) ← computeRestrictions F C verify nullDigest
        (pendingVCs s) (lowerBoundStableForPendingView s)
        (restrictionsOfPendingView s);
      let s := set_restr s mn mx rs in
      if negb (mn =? 0) then
        pps ← fillPPs (Z.to_nat (mx - mn + 1)) mn mn (collectionOfPrePrepareMsgs s) (heap s) rs
                (prePrepareMsgsOfRestrictions s);
        Ok (set_pps s (collectionOfPrePrepareMsgs s) pps (heap s) (nextAddr s))
      else Ok s
  end.

(** The numbers in [i], ..., [i + n - 1] whose message is missing. *)
Fixpoint missingFrom (n : nat) (i mn : Z) (rs : list Restriction) (pps : list (option Z)) : res (list Z) :=
  match n with
  | O => Ok []
  | S n' =>
      let idx := i - mn in
      r ← at_ rs idx;
      missing ← (if isNull r then Ok false else p ← at_ pps idx; Ok (bool_decide (p = None)));
      l ← missingFrom n' (i + 1) mn rs pps;
      Ok (if (missing : bool) then i :: l else l)
  end.

(** The loop of [hasMissingMsgs], which stops at the first missing message. *)
Fixpoint anyMissing (n : nat) (i mn : Z) (rs : list Restriction) (pps : list (option Z)) : res bool :=
  match n with
  | O => Ok false
  | S n' =>
      let idx := i - mn in
      r ← at_ rs idx;
      missing ← (if isNull r then Ok false else p ← at_ pps idx; Ok (bool_decide (p = None)));
      if (missing : bool) then Ok true else anyMissing n' (i + 1) mn rs pps
  end.

Definition missingNumbers (s : t) (currentLastStable : Z) : res (list Z) :=
  let mn := minRestrictionOfPendingView s in
  let firstRelevant := Z.max mn (currentLastStable + 1) in
  missingFrom (Z.to_nat (maxRestrictionOfPendingView s - firstRelevant + 1)) firstRelevant mn
    (restrictionsOfPendingView s) (prePrepareMsgsOfRestrictions s).

Definition hasMissingMsgs (s : t) (currentLastStable : Z) : res bool :=
  assert! (bool_decide (stat s = PENDING_WITH_RESTRICTIONS)) ;;
  if minRestrictionOfPendingView s =? 0 then Ok false
  else
    let mn := minRestrictionOfPendingView s in
    let firstRelevant := Z.max mn (currentLastStable + 1) in
    anyMissing (Z.to_nat (maxRestrictionOfPendingView s - firstRelevant + 1)) firstRelevant mn
      (restrictionsOfPendingView s) (prePrepareMsgsOfRestrictions s).

(** Result: the returned flag and [outMissingPPNumbers]. *)
Definition getNumbersOfMissingPP (s : t) (currentLastStable : Z) : res (bool * list Z) :=
  if negb (bool_decide (stat s = PENDING_WITH_RESTRICTIONS)) then Ok (false, [])
  else if minRestrictionOfPendingView s =? 0 then Ok (false, [])
  else l ← missingNumbers s currentLastStable; Ok (negb (bool_decide (l = [])), l).

(** ** Entering a view *)

(** The first loop of "fill outPrePrepareMsgsOfView": messages that are no longer
    needed. *)
Fixpoint dropOld (n : nat) (i mn : Z) (coll : gmap Z Z) (rs : list Restriction) (pps : list (option Z))
    (h : gmap Z PP) : res (list (option Z) * gmap Z PP) :=
  match n with
  | O => Ok (pps, h)
  | S n' =>
      let idx := i - mn in
      r ← at_ rs idx;
      if isNull r then dropOld n' (i + 1) mn coll rs pps h
      else
        p ← at_ pps idx;
        match p with
        | None => dropOld n' (i + 1) mn coll rs pps h
        | Some a =>
            pp ← deref h a;
            assert! (pp_seq pp =? i) ;;
            pps ← put_ pps idx None;
            h ← (if bool_decide (coll !! i = Some a) then Ok h else free h (Some a));
            dropOld n' (i + 1) mn coll rs pps h
        end
  end.

(** The second loop: the messages of the new view, null ones for null restrictions. *)
Fixpoint fillOut (n : nat) (i mn active : Z) (coll : gmap Z Z) (rs : list Restriction)
    (pps : list (option Z)) (h : gmap Z PP) (next : Z)
  : res (list Z * gmap Z Z * list (option Z) * gmap Z PP * Z) :=
  match n with
  | O => Ok ([], coll, pps, h, next)
  | S n' =>
      let idx := i - mn in
      r ← at_ rs idx;
      p ← at_ pps idx;
      if isNull r then
        assert! (bool_decide (p = None)) ;;
        let h := <[next := mkPP i active nullDigest true]> h in
        '(out, coll, pps, h, next') ← fillOut n' (i + 1) mn active coll rs pps h (next + 1);
        Ok (next :: out, coll, pps, h, next')
      else
        match p with
        | None => Err AssertFailed
        | Some a =>
            pp ← deref h a;
            assert! (pp_seq pp =? i) ;;
            let h := <[a := mkPP (pp_seq pp) active (pp_digest pp) (pp_null pp)]> h in
            pps ← put_ pps idx None;
            let coll := if bool_decide (coll !! i = Some a) then base.delete i coll else coll in
            '(out, coll, pps, h, next') ← fillOut n' (i + 1) mn active coll rs pps h next;
            Ok (a :: out, coll, pps, h, next')
        end
  end.

(** [for (auto it : collectionOfPrePrepareMsgs) delete it.second] *)
Fixpoint freeAll (l : list (Z * Z)) (h : gmap Z PP) : res (gmap Z PP) :=
  match l with
  | [] => Ok h
  | (_, a) :: l' => h ← free h (Some a); freeAll l' h
  end.

(** "fill outPrePrepareMsgsOfView": the messages, and what is left of the collections. *)
Definition fillMsgsOfView (s : t) (v currentLastStable : Z)
  : res (list Z * gmap Z Z * list (option Z) * gmap Z PP * Z) :=
  let mn := minRestrictionOfPendingView s in
  let mx := maxRestrictionOfPendingView s in
  let coll := collectionOfPrePrepareMsgs s in
  if negb (mn =? 0) then
    let firstRelevant := Z.min (mx + 1) (Z.max mn (currentLastStable + 1)) in
    '(pps, h) ← dropOld (Z.to_nat (firstRelevant - mn)) mn mn coll (restrictionsOfPendingView s)
                  (prePrepareMsgsOfRestrictions s) (heap s);
    fillOut (Z.to_nat (mx - firstRelevant + 1)) firstRelevant mn v coll
      (restrictionsOfPendingView s) pps h (nextAddr s)
  else Ok ([], coll, prePrepareMsgsOfRestrictions s, heap s, nextAddr s).

(** "enter to view v": fills [*outPrePrepareMsgsOfView] and clears the collections. *)
Definition enterView (s : t) (v currentLastStable : Z) : res (list Z * t) :=
  '(out, coll, pps, h, next) ← fillMsgsOfView s v currentLastStable;
  h ← freeAll (map_to_list coll) h;
  Ok (out, set_pps (set_stat (set_views s v (myLatestPendingView s)) IN_VIEW) ∅ pps h next).

(** "if we need a new pending view"; the result says whether [tryToEnterView] goes on. *)
Definition newPendingView (s : t) (v currentLastStable : Z) : res (bool * t) :=
  let s := set_stat s NO_VIEW in
  '(moved, s) ←
    (if ReplicasInfo.primaryOfView info v =? myId then tryMoveToPendingViewAsPrimary s v
     else tryMoveToPendingViewAsNonPrimary s v);
  if negb moved then Ok (false, s)
  else
    t1 ← calcLBStableForView F C (pendingVCs s);
    let t2 := Z.max currentLastStable (lowerBoundStableForPendingView s) in
    let lb := Z.max t1 t2 in
    let s := set_stat (set_bounds s lb (debugHighestKnownStable s)
                         (debugHighestViewNumberPassedByClient s)) PENDING in
    Ok (negb (currentLastStable <? lb), s).

(** From [Assert(v == myLatestPendingView)] on. *)
Definition enterPendingView (s : t) (v currentLastStable : Z) : res (bool * list Z * t) :=
  assert! (v =? myLatestPendingView s) ;;
  s ← (if bool_decide (stat s = PENDING) then
         s ← computeRestrictionsOfNewView s v;
         Ok (set_stat s PENDING_WITH_RESTRICTIONS)
       else Ok s);
  missing ← (if negb (bool_decide (stat s = PENDING_WITH_RESTRICTIONS)) then Ok true
             else hasMissingMsgs s currentLastStable);
  if (missing : bool) then Ok (false, [], s)
  else '(out, s) ← enterView s v currentLastStable; Ok (true, out, s).

(** Result: whether the view was entered, [*outPrePrepareMsgsOfView] and the state. *)
Definition tryToEnterView (s : t) (v currentLastStable currentLastExecuted : Z)
  : res (bool * list Z * t) :=
  assert! (negb (inView s)) ;;
  assert! (myLatestActiveView s <? v) ;;
  assert! (myLatestPendingView s <=? v) ;;
  assert! ((debugHighestViewNumberPassedByClient s <=? v) &&
           (debugHighestKnownStable s <=? currentLastStable)) ;;
  let s := set_bounds s (lowerBoundStableForPendingView s) currentLastStable v in
  if currentLastExecuted <? currentLastStable then Ok (false, [], s)
  else if currentLastStable <? lowerBoundStableForPendingView s then Ok (false, [], s)
  else
    '(continue, s) ←
      (if myLatestPendingView s <? v then newPendingView s v currentLastStable else Ok (true, s));
    if negb continue then Ok (false, [], s) else enterPendingView s v currentLastStable.

(** Result: whether the message was taken. *)
Definition addPotentiallyMissingPP (s : t) (p : Z) (currentLastStable : Z) : res (bool * t) :=
  assert! (bool_decide (stat s = PENDING_WITH_RESTRICTIONS)) ;;
  pp ← deref (heap s) p;
  assert! (negb (pp_null pp)) ;;
  let sq := pp_seq pp in
  let mn := minRestrictionOfPendingView s in
  let hasRelevantRestriction :=
    negb (mn =? 0) && (mn <=? sq) && (sq <=? maxRestrictionOfPendingView s) in
  taken ← (if hasRelevantRestriction then
             let idx := sq - mn in
             assert! (idx <? kWorkWindowSize) ;;
             r ← at_ (restrictionsOfPendingView s) idx;
             q ← at_ (prePrepareMsgsOfRestrictions s) idx;
             if bool_decide (q = None) && negb (isNull r) && Digest.eqb (digest r) (pp_digest pp)
             then pps ← put_ (prePrepareMsgsOfRestrictions s) idx (Some p);
                  Ok (Some pps)
             else Ok None
           else Ok None);
  match taken with
  | Some pps => Ok (true, set_pps s (collectionOfPrePrepareMsgs s) pps (heap s) (nextAddr s))
  | None =>
      h ← free (heap s) (Some p);
      Ok (false, set_pps s (collectionOfPrePrepareMsgs s) (prePrepareMsgsOfRestrictions s) h (nextAddr s))
  end.

(** The destructor: "delete messages from prePrepareMsgsOfRestrictions which are not in
    collectionOfPrePrepareMsgs (we don't want to delete twice)", then the collection. *)
Fixpoint deletePPs (n : nat) (i mn : Z) (coll : gmap Z Z) (pps : list (option Z)) (h : gmap Z PP)
  : res (gmap Z PP) :=
  match n with
  | O => Ok h
  | S n' =>
      p ← at_ pps (i - mn);
      match p with
      | None => deletePPs n' (i + 1) mn coll pps h
      | Some a =>
          h ← (if bool_decide (coll !! i = None) || negb (bool_decide (coll !! i = Some a))
               then free h (Some a) else Ok h);
          deletePPs n' (i + 1) mn coll pps h
      end
  end.

Definition dtor (s : t) : res (gmap Z PP) :=
  let mn := minRestrictionOfPendingView s in
  h ← (if 0 <? mn then
         deletePPs (Z.to_nat (maxRestrictionOfPendingView s - mn + 1)) mn mn (collectionOfPrePrepareMsgs s)
           (prePrepareMsgsOfRestrictions s) (heap s)
       else Ok (heap s));
  freeAll (map_to_list (collectionOfPrePrepareMsgs s)) h.

(** The assertion of [getPrePrepare] on the message it returns. *)
Definition checkPP (h : gmap Z PP) (sq : Z) (p : option Z) : res (option Z) :=
  match p with
  | None => Ok None
  | Some a =>
      pp ← deref h a;
      assert! ((pp_seq pp =? sq) && negb (pp_null pp)) ;;
      Ok (Some a)
  end.

Definition getPrePrepare (s : t) (sq : Z) : res (option Z) :=
  assert! (negb (inView s)) ;;
  if bool_decide (stat s = PENDING_WITH_RESTRICTIONS) then
    let mn := minRestrictionOfPendingView s in
    if negb (negb (mn =? 0) && (mn <=? sq) && (sq <=? maxRestrictionOfPendingView s)) then Ok None
    else
      let idx := sq - mn in
      assert! (idx <? kWorkWindowSize) ;;
      r ← at_ (restrictionsOfPendingView s) idx;
      if isNull r then Ok None
      else p ← at_ (prePrepareMsgsOfRestrictions s) idx; checkPP (heap s) sq p
  else checkPP (heap s) sq (collectionOfPrePrepareMsgs s !! sq).
End defs.
End ViewsManager.
