(* ===== verification/ViewsManagerFacts.v ===== *)
(** * The loops of ViewsManager (ViewsManager.v)

    Array accesses, the ownership of pre-prepare messages on the heap (what is
    released is deallocated once, everything else keeps its contents) and the
    specification of every loop of the class. *)
From S2P Require Import Prelude SysConsts Digest ReplicasInfo ViewChangeMsg ViewChangeSafety ViewsManager.

Module ViewsManagerFacts.
Export ViewsManager.

(** ** Arrays *)
Lemma at_ok {A} (l : list A) i x : 0 <= i → l !! Z.to_nat i = Some x → at_ l i = Ok x.
Proof. intros ? E. unfold at_. rewrite (proj2 (Z.ltb_ge _ _)) by done. by rewrite E. Qed.

Lemma at_in {A} (l : list A) i : 0 <= i < Z.of_nat (length l) →
  ∃ x, l !! Z.to_nat i = Some x ∧ at_ l i = Ok x.
Proof.
  intros. destruct (lookup_lt_is_Some_2 l (Z.to_nat i)) as [x E]; [lia|].
  exists x. split; [done|]. apply at_ok; [lia|done].
Qed.

Lemma put_in {A} (l : list A) i x : 0 <= i < Z.of_nat (length l) →
  put_ l i x = Ok (<[Z.to_nat i := x]> l).
Proof.
  intros. unfold put_. by rewrite (proj2 (Z.leb_le _ _)), (proj2 (Z.ltb_lt _ _)) by lia.
Qed.

(** Array entries by their distance from [mn]. *)
Lemma lookup_put {A} (l : list A) mn i j x : mn <= i → mn <= j → i - mn < Z.of_nat (length l) →
  <[Z.to_nat (i - mn) := x]> l !! Z.to_nat (j - mn) =
  if decide (j = i) then Some x else l !! Z.to_nat (j - mn).
Proof.
  intros. case_decide as E; [subst; rewrite list_lookup_insert_eq by lia; done|].
  rewrite list_lookup_insert_ne by lia. done.
Qed.

Lemma replicate_none {A} (l : list (option A)) :
  (∀ i x, l !! i = Some (Some x) → False) → l = replicate (length l) None.
Proof.
  induction l as [|[x|] l IH]; intros H; [done|by destruct (H 0%nat x)|].
  simpl. f_equal. apply IH. intros i x E. by apply (H (S i) x).
Qed.

Lemma replicate_none_lookup {A} n i (x : A) : replicate n None !! i = Some (Some x) → False.
Proof. by intros [? ?]%lookup_replicate. Qed.

(** ** The heap of pre-prepare messages *)

(** [a] is in the array of the restrictions, or in the collection. *)
Definition owned (pps : list (option Z)) (coll : gmap Z Z) (a : Z) : Prop :=
  Some a ∈ pps ∨ a ∈ (map_to_list coll).*2.

Lemma elem_coll (coll : gmap Z Z) a : a ∈ (map_to_list coll).*2 ↔ ∃ k, coll !! k = Some a.
Proof.
  rewrite list_elem_of_fmap. split.
  - intros ([k a'] & -> & H%elem_of_map_to_list). eauto.
  - intros [k H]. exists (k, a). split; [done|]. by apply elem_of_map_to_list.
Qed.

(** The message at [a] in [h] satisfies [P]. *)
Definition live (h : gmap Z PP) (a : Z) (P : PP → Prop) : Prop := ∃ pp, h !! a = Some pp ∧ P pp.

(** What the array entry for the number [i] may point to. *)
Definition wanted (i : Z) (r : Restriction) (pp : PP) : Prop :=
  pp_seq pp = i ∧ pp_null pp = false ∧ isNull r = false ∧ pp_digest pp = digest r.

Definition pps_ok (mn : Z) (rs : list Restriction) (pps : list (option Z)) (h : gmap Z PP) : Prop :=
  ∀ i a, mn <= i → pps !! Z.to_nat (i - mn) = Some (Some a) →
    ∃ r, rs !! Z.to_nat (i - mn) = Some r ∧ live h a (wanted i r).

Definition coll_ok (coll : gmap Z Z) (h : gmap Z PP) : Prop :=
  ∀ k a, coll !! k = Some a → live h a (fun pp => pp_seq pp = k ∧ pp_null pp = false).

Definition cleared (mn lo hi : Z) (pps pps' : list (option Z)) : Prop :=
  length pps' = length pps ∧
  ∀ j, mn <= j → pps' !! Z.to_nat (j - mn) =
    if decide (lo <= j < hi ∧ j - mn < Z.of_nat (length pps)) then Some None else pps !! Z.to_nat (j - mn).

Lemma cleared_refl mn lo pps : cleared mn lo lo pps pps.
Proof. split; [done|]. intros. case_decide; [lia|done]. Qed.

(** Clearing the entry [i] and then those from [i + 1] on. *)
Lemma cleared_step mn i hi pps pps' : mn <= i < hi → i - mn < Z.of_nat (length pps) →
  cleared mn (i + 1) hi (<[Z.to_nat (i - mn) := None]> pps) pps' → cleared mn i hi pps pps'.
Proof.
  intros Hi Hl [Hlen Hc]. rewrite length_insert in Hlen, Hc. split; [done|]. intros j Hj.
  rewrite Hc by done. rewrite lookup_put by lia.
  repeat case_decide; try done; try lia.
Qed.

(** Skipping an entry that is null already. *)
Lemma cleared_skip mn i hi pps pps' : mn <= i → pps !! Z.to_nat (i - mn) = Some None →
  cleared mn (i + 1) hi pps pps' → cleared mn i hi pps pps'.
Proof.
  intros Hi Hn [Hlen Hc]. split; [done|]. intros j Hj. rewrite Hc by done.
  repeat case_decide; try done; try lia. by replace j with i by lia.
Qed.

Lemma cleared_sub mn lo hi pps pps' a : cleared mn lo hi pps pps' → Some a ∈ pps' → Some a ∈ pps.
Proof.
  intros [Hlen Hc] [k Hk]%list_elem_of_lookup. specialize (Hc (mn + Z.of_nat k) ltac:(lia)).
  replace (Z.to_nat (mn + Z.of_nat k - mn)) with k in Hc by lia. rewrite Hk in Hc.
  case_decide; [done|]. apply list_elem_of_lookup. eauto.
Qed.

Lemma pps_ok_cleared mn lo hi rs pps pps' h : cleared mn lo hi pps pps' → pps_ok mn rs pps h →
  pps_ok mn rs pps' h.
Proof.
  intros [Hlen Hc] H i a Hi. rewrite Hc by done. case_decide; [done|]. by apply H.
Qed.

(** The owned cells shrink from [own] to [own']; those given up are deallocated, all
    others keep their contents. *)
Record released (own own' : Z → Prop) (h h' : gmap Z PP) : Prop := {
  rel_sub : ∀ a, own' a → own a;
  rel_freed : ∀ a, own a → ¬ own' a → h' !! a = None;
  rel_kept : ∀ a, own' a → h' !! a = h !! a;
  rel_frame : ∀ a, ¬ own a → h' !! a = h !! a;
}.

Lemma released_refl own h : released own own h h.
Proof. by constructor. Qed.

Lemma released_trans own own1 own2 h h1 h2 `{!∀ a, Decision (own1 a)} :
  released own own1 h h1 → released own1 own2 h1 h2 → released own own2 h h2.
Proof.
  intros [S1 F1 K1 R1] [S2 F2 K2 R2]. constructor; intros a.
  - auto.
  - intros Ha Ha'. destruct (decide (own1 a)); [auto|]. rewrite R2 by done. auto.
  - intros Ha. rewrite K2 by done. auto.
  - intros Ha. rewrite R2 by naive_solver. auto.
Qed.

Lemma released_pps_ok mn lo hi rs pps pps' coll h h' : cleared mn lo hi pps pps' →
  released (owned pps coll) (owned pps' coll) h h' → pps_ok mn rs pps h → pps_ok mn rs pps' h'.
Proof.
  intros Hc HR H i a Hi Ha. destruct (pps_ok_cleared mn lo hi rs pps pps' h Hc H i a Hi Ha) as (r & Hr & pp & Hpp & Hw).
  exists r. split; [done|]. exists pp. split; [|done]. rewrite (rel_kept _ _ _ _ HR); [done|].
  left. apply list_elem_of_lookup. eauto.
Qed.

Lemma released_coll_ok pps pps' coll h h' :
  released (owned pps coll) (owned pps' coll) h h' → coll_ok coll h → coll_ok coll h'.
Proof.
  intros HR H k a Ha. destruct (H k a Ha) as (pp & Hpp & Hw).
  exists pp. split; [|done]. rewrite (rel_kept _ _ _ _ HR); [done|]. right. apply elem_coll. eauto.
Qed.

Section entry.
Context (mn : Z) (rs : list Restriction) (pps : list (option Z)) (coll : gmap Z Z) (h : gmap Z PP).
Context (i : Z) (Hi : mn <= i) (Hl : i - mn < Z.of_nat (length pps)).
#[local] Abbreviation pps' := (<[Z.to_nat (i - mn) := None]> pps).

Lemma elem_clear a : Some a ∈ pps → Some a ∈ pps' ∨ pps !! Z.to_nat (i - mn) = Some (Some a).
Proof.
  intros [k Hk]%list_elem_of_lookup. destruct (decide (k = Z.to_nat (i - mn))) as [->|Hne]; [by right|].
  left. apply list_elem_of_lookup. exists k. by rewrite list_lookup_insert_ne.
Qed.

Lemma elem_clear_sub a : Some a ∈ pps' → ∃ j, mn <= j ∧ j ≠ i ∧ pps !! Z.to_nat (j - mn) = Some (Some a).
Proof.
  intros [k Hk]%list_elem_of_lookup. exists (mn + Z.of_nat k).
  destruct (decide (k = Z.to_nat (i - mn))) as [->|Hne].
  { rewrite list_lookup_insert_eq in Hk by lia. done. }
  rewrite list_lookup_insert_ne in Hk by done. split_and!; [lia|lia|].
  by replace (Z.to_nat (mn + Z.of_nat k - mn)) with k by lia.
Qed.

Lemma owned_clear_sub a : owned pps' coll a → owned pps coll a.
Proof.
  intros [(j & ? & ? & ?)%elem_clear_sub|?]; [left|by right]. apply list_elem_of_lookup. eauto.
Qed.

(** Deleting the message of the entry [i]. *)
Lemma released_free a : pps_ok mn rs pps h → coll_ok coll h →
  pps !! Z.to_nat (i - mn) = Some (Some a) → coll !! i ≠ Some a →
  released (owned pps coll) (owned pps' coll) h (base.delete a h).
Proof.
  intros HP HC Ha Hn. destruct (HP i a Hi Ha) as (r & _ & pp & Hpp & Hs & _).
  assert (∀ x, owned pps' coll x → x ≠ a) as Hne.
  { intros x [(j & Hj & Hji & Hx)%elem_clear_sub|[k Hk]%elem_coll] ->.
    - destruct (HP j a Hj Hx) as (? & _ & pp' & Hpp' & Hs' & _). simplify_eq.
    - destruct (HC k a Hk) as (pp' & Hpp' & Hs' & _). simplify_eq. }
  constructor; intros x Hx.
  - by apply owned_clear_sub.
  - intros Hx'. destruct Hx as [[?|?]%elem_clear|?]; [by destruct Hx'; left| |by destruct Hx'; right].
    simplify_eq. by apply lookup_delete_eq.
  - rewrite lookup_delete_ne; [done|]. intros <-. by apply (Hne a).
  - rewrite lookup_delete_ne; [done|]. intros <-. apply Hx. left. apply list_elem_of_lookup. eauto.
Qed.

(** Dropping the entry [i] when it is null or the collection holds the message too. *)
Lemma released_keep : (∀ a, pps !! Z.to_nat (i - mn) = Some (Some a) → coll !! i = Some a) →
  released (owned pps coll) (owned pps' coll) h h.
Proof.
  intros Hk. constructor; try done.
  - apply owned_clear_sub.
  - intros a [[?|?]%elem_clear|?] Hn; exfalso; apply Hn; [by left| |by right].
    right. apply elem_coll. exists i. by apply Hk.
Qed.
End entry.

(** ** The loops over the restrictions *)
Lemma resetPPs_spec mn rs coll n : ∀ i pps h, mn <= i → i - mn + Z.of_nat n <= 300 →
  length pps = 300%nat → pps_ok mn rs pps h → coll_ok coll h →
  ∃ pps' h', resetPPs n i mn coll pps h = Ok (pps', h') ∧ cleared mn i (i + Z.of_nat n) pps pps' ∧
    released (owned pps coll) (owned pps' coll) h h'.
Proof.
  induction n as [|n IH]; intros i pps h Hi Hn Hlen HP HC.
  { exists pps, h. replace (i + Z.of_nat 0) with i by lia. split_and!; [done|apply cleared_refl|apply released_refl]. }
  cbn [resetPPs]. rewrite (proj2 (Z.ltb_lt (i - mn) kWorkWindowSize)) by (unfold kWorkWindowSize; lia). res_step.
  destruct (at_in pps (i - mn)) as (p & Hp & ->); [lia|]. res_step.
  rewrite put_in by lia.
  set (pps1 := <[Z.to_nat (i - mn) := None]> pps).
  assert (∃ h1, (if bool_decide (is_Some (coll !! i)) && bool_decide (coll !! i = p) then Ok h else free h p) = Ok h1
    ∧ released (owned pps coll) (owned pps1 coll) h h1) as (h1 & -> & HR).
  { destruct p as [a|].
    - case_bool_decide as E1; [case_bool_decide as E2|]; simpl.
      + exists h. split; [done|]. apply released_keep; [lia..|]. intros a' ?. by simplify_eq.
      + unfold free, deref. destruct (HP i a Hi Hp) as (r & _ & pp & -> & _). eexists. split; [done|].
        eapply released_free; [done|lia|done..].
      + unfold free, deref. destruct (HP i a Hi Hp) as (r & _ & pp & -> & _). eexists. split; [done|].
        eapply released_free; [done|lia|done..|]. intros E. apply E1. by rewrite E.
    - exists h. split; [by case_match|]. apply released_keep; [lia..|]. intros a' ?. by simplify_eq. }
  res_step. assert (cleared mn i (i + 1) pps pps1) as Hc1.
  { apply cleared_step; [lia..|]. apply cleared_refl. }
  destruct (IH (i + 1) pps1 h1) as (pps' & h' & E & Hc & HR'); [lia|lia|unfold pps1; by rewrite length_insert| | |].
  { by eapply released_pps_ok. }
  { by eapply released_coll_ok. }
  exists pps', h'. split_and!; [done| |].
  - apply cleared_step; [lia..|]. by replace (i + Z.of_nat (S n)) with (i + 1 + Z.of_nat n) by lia.
  - eapply released_trans; [|done|done]. intros a. unfold owned. apply _.
Qed.

Lemma dropOld_spec mn rs coll n : ∀ i pps h, mn <= i → i - mn + Z.of_nat n <= 300 →
  length pps = 300%nat → length rs = 300%nat → pps_ok mn rs pps h → coll_ok coll h →
  ∃ pps' h', dropOld n i mn coll rs pps h = Ok (pps', h') ∧ cleared mn i (i + Z.of_nat n) pps pps' ∧
    released (owned pps coll) (owned pps' coll) h h'.
Proof.
  induction n as [|n IH]; intros i pps h Hi Hn Hlen Hrs HP HC.
  { exists pps, h. replace (i + Z.of_nat 0) with i by lia. split_and!; [done|apply cleared_refl|apply released_refl]. }
  replace (i + Z.of_nat (S n)) with (i + 1 + Z.of_nat n) by lia.
  cbn [dropOld]. destruct (at_in rs (i - mn)) as (r & Hr & ->); [lia|]. res_step.
  destruct (at_in pps (i - mn)) as (p & Hp & ->); [lia|].
  assert (∀ pps', p = None → cleared mn (i + 1) (i + 1 + Z.of_nat n) pps pps' →
    cleared mn i (i + 1 + Z.of_nat n) pps pps') as Hskip.
  { intros pps' ->. by apply cleared_skip. }
  destruct (isNull r) eqn:Er.
  - destruct (IH (i + 1) pps h) as (pps' & h' & E & Hc & HR); [lia|lia|done..|].
    exists pps', h'. split_and!; [done| |done]. apply Hskip; [|done].
    destruct p as [a|]; [|done]. destruct (HP i a Hi Hp) as (r' & ? & pp & _ & _ & _ & ? & _). congruence.
  - res_step. destruct p as [a|]; [|].
    2: { destruct (IH (i + 1) pps h) as (pps' & h' & E & Hc & HR); [lia|lia|done..|].
         exists pps', h'. split_and!; [done|by apply Hskip|done]. }
    destruct (HP i a Hi Hp) as (r' & _ & pp & Hpp & Hs & _). unfold deref at 1. rewrite Hpp. res_step.
    rewrite Hs, Z.eqb_refl. res_step. rewrite put_in by lia. res_step.
    set (pps1 := <[Z.to_nat (i - mn) := None]> pps).
    assert (∃ h1, (if bool_decide (coll !! i = Some a) then Ok h else free h (Some a)) = Ok h1
      ∧ released (owned pps coll) (owned pps1 coll) h h1) as (h1 & -> & HR).
    { case_bool_decide as E1.
      - exists h. split; [done|]. apply released_keep; [lia..|]. intros a' ?. by simplify_eq.
      - unfold free, deref. rewrite Hpp. eexists. split; [done|]. eapply released_free; [done|lia|done..]. }
    res_step. assert (cleared mn i (i + 1) pps pps1) as Hc1.
    { apply cleared_step; [lia..|]. apply cleared_refl. }
    destruct (IH (i + 1) pps1 h1) as (pps' & h' & E & Hc & HR'); [lia|lia|unfold pps1; by rewrite length_insert|done| | |].
    { by eapply released_pps_ok. }
    { by eapply released_coll_ok. }
    exists pps', h'. split_and!; [done|apply cleared_step; [lia..|done]|].
    eapply released_trans; [|done|done]. intros x. unfold owned. apply _.
Qed.

(** A message handed to the caller for the number [j] of the view [v]. *)
Definition entered (nullDigest : Digest) (v j : Z) (r : Restriction) (pp : PP) : Prop :=
  pp_seq pp = j ∧ pp_view pp = v ∧ pp_null pp = isNull r ∧
  pp_digest pp = if isNull r then nullDigest else digest r.

Definition fresh (h : gmap Z PP) (next : Z) : Prop := ∀ a, is_Some (h !! a) → a < next.

Definition with_view (v : Z) (pp : PP) : PP := mkPP (pp_seq pp) v (pp_digest pp) (pp_null pp).

Lemma live_insert_fresh h next pp a P : fresh h next → live h a P → live (<[next := pp]> h) a P.
Proof.
  intros Hf (x & Hx & HP). exists x. split; [|done]. rewrite lookup_insert_ne; [done|].
  assert (a < next) by (apply Hf; eauto). lia.
Qed.

Lemma live_with_view h a0 pp0 v a (P : PP → Prop) : h !! a0 = Some pp0 → (∀ pp, P pp → P (with_view v pp)) →
  live h a P → live (<[a0 := with_view v pp0]> h) a P.
Proof.
  intros H0 HP (x & Hx & Hw). destruct (decide (a = a0)) as [->|Hne].
  - simplify_eq. eexists. rewrite lookup_insert_eq. eauto.
  - exists x. by rewrite lookup_insert_ne.
Qed.

Lemma pps_ok_live mn rs pps h h' : (∀ a i r, live h a (wanted i r) → live h' a (wanted i r)) →
  pps_ok mn rs pps h → pps_ok mn rs pps h'.
Proof. intros HL H i a Hi Ha. destruct (H i a Hi Ha) as (r & ? & ?). eauto. Qed.

Section fill.
Context (nullDigest : Digest) (mn v : Z) (rs : list Restriction) (Hrs : length rs = 300%nat).

Record filled (i n : Z) (coll : gmap Z Z) (pps : list (option Z)) (h : gmap Z PP) (next : Z)
    (out : list Z) (coll' : gmap Z Z) (pps' : list (option Z)) (h' : gmap Z PP) (next' : Z) : Prop := {
  fill_out : Forall2 (fun j a => ∃ r, rs !! Z.to_nat (j - mn) = Some r ∧
                        live h' a (entered nullDigest v j r)) (seqZ i n) out;
  fill_pps : cleared mn i (i + n) pps pps';
  fill_coll : ∀ k a, coll' !! k = Some a ↔ coll !! k = Some a ∧ a ∉ out;
  fill_heap : ∀ a, a ∉ out → h' !! a = h !! a;
  fill_from : ∀ a, a ∈ out → next <= a ∨ ∃ j, i <= j ∧ pps !! Z.to_nat (j - mn) = Some (Some a);
  fill_taken : ∀ j a, i <= j < i + n → pps !! Z.to_nat (j - mn) = Some (Some a) → a ∈ out;
  fill_fresh : fresh h' next' ∧ next <= next';
}.

Section fill_step.
Context (i n : Z) (Hi : mn <= i) (Hn : 0 <= n) (coll : gmap Z Z) (pps : list (option Z)) (h : gmap Z PP) (next : Z).
Context (HP : pps_ok mn rs pps h) (HC : coll_ok coll h) (HF : fresh h next).
Context (r : Restriction) (Hr : rs !! Z.to_nat (i - mn) = Some r).
Context (out : list Z) (coll' : gmap Z Z) (pps' : list (option Z)) (h' : gmap Z PP) (next' : Z).

Lemma slot_below j a : mn <= j → pps !! Z.to_nat (j - mn) = Some (Some a) → a < next.
Proof. intros Hj Ha. destruct (HP j a Hj Ha) as (? & _ & pp & Hpp & _). apply HF. eauto. Qed.

Lemma filled_null : isNull r = true → pps !! Z.to_nat (i - mn) = Some None →
  filled (i + 1) n coll pps (<[next := mkPP i v nullDigest true]> h) (next + 1) out coll' pps' h' next' →
  filled i (Z.succ n) coll pps h next (next :: out) coll' pps' h' next'.
Proof.
  intros Hnull Hp [F1 F2 F3 F4 F5 F5' [F6 F6']].
  assert (next ∉ out) as Hout.
  { intros [?|(j & Hj & Ha)]%F5; [lia|]. apply slot_below in Ha; lia. }
  constructor.
  - rewrite seqZ_cons by lia. rewrite Z.pred_succ. constructor; [|by rewrite <- Z.add_1_r].
    exists r. split; [done|]. eexists. rewrite F4, lookup_insert_eq by done. split; [done|].
    unfold entered. by rewrite Hnull.
  - apply cleared_skip; [done..|]. by replace (i + Z.succ n) with (i + 1 + n) by lia.
  - intros k a. rewrite F3, not_elem_of_cons. split; [|tauto]. intros [Hk ?]. split_and!; [done| |done].
    intros ->. destruct (HC k next Hk) as (pp & Hpp & _). assert (next < next) by (apply HF; eauto). lia.
  - intros a [Ha Ha']%not_elem_of_cons. by rewrite F4, lookup_insert_ne by congruence.
  - intros a [->|[?|(j & ? & ?)]%F5]%elem_of_cons; [left; lia|left; lia|right; exists j; split; [lia|done]].
  - intros j a Hj Ha. right. destruct (decide (j = i)) as [->|]; [congruence|]. by apply (F5' j); [lia|].
  - split; [done|lia].
Qed.

Lemma filled_msg a pp : i - mn < Z.of_nat (length pps) → isNull r = false →
  pps !! Z.to_nat (i - mn) = Some (Some a) →
  h !! a = Some pp →
  filled (i + 1) n (if bool_decide (coll !! i = Some a) then base.delete i coll else coll)
    (<[Z.to_nat (i - mn) := None]> pps) (<[a := with_view v pp]> h) next out coll' pps' h' next' →
  filled i (Z.succ n) coll pps h next (a :: out) coll' pps' h' next'.
Proof.
  intros Hlen Hnull Hp Hpp [F1 F2 F3 F4 F5 F5' F6].
  destruct (HP i a Hi Hp) as (r' & Hr' & pp' & Hpp' & Hs & Hn' & _ & Hd).
  assert (pp' = pp) as -> by congruence. assert (r' = r) as -> by congruence. clear Hpp' Hr'.
  assert (a ∉ out) as Hout.
  { intros [?|(j & Hj & Ha)]%F5; [apply slot_below in Hp; lia|].
    rewrite lookup_put in Ha by lia. case_decide; [lia|].
    destruct (HP j a ltac:(lia) Ha) as (? & _ & pp' & Hpp' & Hs' & _). congruence. }
  constructor.
  - rewrite seqZ_cons by lia. rewrite Z.pred_succ. constructor; [|by rewrite <- Z.add_1_r].
    exists r. split; [done|]. eexists. rewrite F4, lookup_insert_eq by done. split; [done|].
    unfold entered. by rewrite Hnull.
  - apply cleared_step; [lia..|]. by replace (i + Z.succ n) with (i + 1 + n) by lia.
  - intros k b. rewrite F3, not_elem_of_cons.
    assert (coll !! k = Some a → k = i) as Hka.
    { intros Hk. destruct (HC k a Hk) as (pp' & ? & ? & _). congruence. }
    case_bool_decide as E; [rewrite lookup_delete_Some|]; naive_solver.
  - intros b [Hb Hb']%not_elem_of_cons. by rewrite F4, lookup_insert_ne by congruence.
  - intros b [->|[?|(j & Hj & Hb)]%F5]%elem_of_cons; [right; exists i; split; [lia|done]|by left|].
    right. exists j. split; [lia|]. rewrite lookup_put in Hb by lia. by case_decide.
  - intros j b Hj Hb. destruct (decide (j = i)) as [->|Hne]; [assert (b = a) as -> by congruence; left|].
    right. apply (F5' j); [lia|]. rewrite lookup_put by lia. by rewrite decide_False.
  - done.
Qed.
End fill_step.

Lemma fillOut_spec n : ∀ i coll pps h next, mn <= i → i - mn + Z.of_nat n <= 300 →
  length pps = 300%nat → pps_ok mn rs pps h → coll_ok coll h → fresh h next →
  (∀ j r, i <= j < i + Z.of_nat n → rs !! Z.to_nat (j - mn) = Some r → isNull r = false →
     ∃ a, pps !! Z.to_nat (j - mn) = Some (Some a)) →
  ∃ out coll' pps' h' next', fillOut nullDigest n i mn v coll rs pps h next = Ok (out, coll', pps', h', next') ∧
    filled i (Z.of_nat n) coll pps h next out coll' pps' h' next'.
Proof.
  induction n as [|n IH]; intros i coll pps h next Hi Hn Hlen HP HC HF Hall.
  { exists [], coll, pps, h, next. split; [done|]. constructor; try done.
    - rewrite Z.add_0_r. apply cleared_refl.
    - intros k a. rewrite elem_of_nil. tauto.
    - intros a ?%elem_of_nil. done.
    - intros j a ?. lia. }
  cbn [fillOut]. destruct (at_in rs (i - mn)) as (r & Hr & ->); [lia|]. res_step.
  destruct (at_in pps (i - mn)) as (p & Hp & ->); [lia|]. res_step.
  replace (Z.of_nat (S n)) with (Z.succ (Z.of_nat n)) in * by lia.
  destruct (isNull r) eqn:Er.
  - assert (p = None) as ->.
    { destruct p as [a|]; [|done]. destruct (HP i a Hi Hp) as (r' & ? & pp & _ & _ & _ & ? & _). congruence. }
    rewrite bool_decide_eq_true_2 by done. res_step.
    set (h1 := <[next := mkPP i v nullDigest true]> h).
    destruct (IH (i + 1) coll pps h1 (next + 1)) as (out & coll' & pps' & h' & next' & -> & Hf); [lia|lia|done| | | | |].
    + eapply pps_ok_live; [|done]. intros. by apply live_insert_fresh.
    + intros k a Ha. apply live_insert_fresh; auto.
    + intros a. unfold h1. destruct (decide (a = next)) as [->|]; [lia|]. rewrite lookup_insert_ne by done.
      intros ?%HF. lia.
    + intros j r' ?. apply Hall. lia.
    + exists (next :: out), coll', pps', h', next'. split; [done|]. eapply filled_null; try done; lia.
  - destruct (Hall i r ltac:(lia) Hr Er) as [a Ha]. simplify_eq.
    destruct (HP i a Hi Hp) as (r' & _ & pp & Hpp & Hs & _). unfold deref. rewrite Hpp. res_step.
    rewrite Hs, Z.eqb_refl. res_step. rewrite put_in by lia. res_step. rewrite <- Hs.
    fold (with_view v pp). rewrite Hs. set (h1 := <[a := with_view v pp]> h).
    set (pps1 := <[Z.to_nat (i - mn) := None]> pps).
    set (coll1 := if bool_decide (coll !! i = Some a) then base.delete i coll else coll).
    assert (cleared mn i (i + 1) pps pps1) as Hc1.
    { apply cleared_step; [lia..|]. apply cleared_refl. }
    destruct (IH (i + 1) coll1 pps1 h1 next) as (out & coll' & pps' & h' & next' & -> & Hf);
      [lia|lia|unfold pps1; by rewrite length_insert| | | | |].
    + eapply pps_ok_live; [|by eapply pps_ok_cleared]. intros. by apply live_with_view.
    + intros k x Hx. apply live_with_view; [done|done|]. apply HC. unfold coll1 in Hx.
      case_bool_decide; [|done]. by apply lookup_delete_Some in Hx as [_ ?].
    + intros x. unfold h1. destruct (decide (x = a)) as [->|]; [|rewrite lookup_insert_ne by done; apply HF].
      intros _. apply HF. eauto.
    + intros j r1 ? ? ?. unfold pps1. rewrite lookup_put by lia. case_decide; [lia|]. eapply Hall; [lia|done..].
    + exists (a :: out), coll', pps', h', next'. split; [done|]. eapply filled_msg; try done; lia.
Qed.
End fill.

Lemma freeAll_list l : ∀ h, NoDup l.*2 → (∀ a, a ∈ l.*2 → is_Some (h !! a)) →
  ∃ h', freeAll l h = Ok h' ∧ ∀ a, h' !! a = if decide (a ∈ l.*2) then None else h !! a.
Proof.
  induction l as [|[k a] l IH]; intros h Hnd Hl; cbn [freeAll].
  { exists h. split; [done|]. intros a. by rewrite decide_False by apply not_elem_of_nil. }
  rewrite fmap_cons in Hnd, Hl |- *. apply NoDup_cons in Hnd as [Ha Hnd].
  destruct (Hl a) as [pp Hpp]; [left|]. unfold free, deref. simpl in Hpp. rewrite Hpp. res_step.
  destruct (IH (base.delete a h)) as (h' & -> & Hh'); [done| |].
  { intros b Hb. rewrite lookup_delete_ne by (intros ->; done). apply Hl. by right. }
  exists h'. split; [done|]. intros b. rewrite Hh'. destruct (decide (b = a)) as [->|Hne].
  - rewrite (decide_True (P := a ∈ _ :: _)) by left. case_decide; [done|]. by rewrite lookup_delete_eq.
  - rewrite lookup_delete_ne by done. apply decide_ext. rewrite elem_of_cons. naive_solver.
Qed.

Lemma coll_inj coll h k k' a : coll_ok coll h → coll !! k = Some a → coll !! k' = Some a → k = k'.
Proof.
  intros HC H1 H2. destruct (HC k a H1) as (pp & ? & ? & _). destruct (HC k' a H2) as (pp' & ? & ? & _).
  congruence.
Qed.

Lemma freeAll_spec coll h : coll_ok coll h →
  ∃ h', freeAll (map_to_list coll) h = Ok h' ∧
    ∀ a, h' !! a = if decide (a ∈ (map_to_list coll).*2) then None else h !! a.
Proof.
  intros HC. apply freeAll_list.
  - apply NoDup_fmap_2_strong; [|apply NoDup_map_to_list].
    intros [k a] [k' a'] H1%elem_of_map_to_list H2%elem_of_map_to_list E. simpl in E. subst a'.
    f_equal. by eapply coll_inj.
  - intros a [k Hk]%elem_coll. destruct (HC k a Hk) as (pp & ? & _). eauto.
Qed.

(** The message of the number [j] is restricted and missing. *)
Definition missing (mn : Z) (rs : list Restriction) (pps : list (option Z)) (j : Z) : Prop :=
  ∃ r, rs !! Z.to_nat (j - mn) = Some r ∧ isNull r = false ∧ pps !! Z.to_nat (j - mn) = Some None.

Section missing_facts.
Context (mn : Z) (rs : list Restriction) (pps : list (option Z)).
Context (Hrs : length rs = 300%nat) (Hpps : length pps = 300%nat).

Lemma missing_test i : mn <= i → i - mn < 300 →
  ∃ r b, at_ rs (i - mn) = Ok r ∧
    (if isNull r then Ok false else p ← at_ pps (i - mn); Ok (bool_decide (p = None))) = Ok b ∧
    (b = true ↔ missing mn rs pps i).
Proof.
  intros. destruct (at_in rs (i - mn)) as (r & Hr & ->); [lia|].
  destruct (at_in pps (i - mn)) as (p & Hp & ->); [lia|]. exists r. unfold missing.
  destruct (isNull r) eqn:E; res_step; eexists; (split_and!; [done..|]).
  - split; [done|]. intros (r' & ? & ? & _). congruence.
  - rewrite bool_decide_eq_true. split; [intros ->; eauto|]. intros (r' & ? & ? & ?). congruence.
Qed.

Lemma anyMissing_spec n : ∀ i, mn <= i → i - mn + Z.of_nat n <= 300 →
  ∃ b, anyMissing n i mn rs pps = Ok b ∧
    (b = true ↔ ∃ j, i <= j < i + Z.of_nat n ∧ missing mn rs pps j).
Proof.
  induction n as [|n IH]; intros i Hi Hn; cbn [anyMissing].
  { exists false. split; [done|]. split; [done|]. intros (j & ? & _). lia. }
  destruct (missing_test i) as (r & b & -> & E & Hb); [lia..|]. res_step. rewrite E. res_step.
  destruct b.
  - exists true. split; [done|]. split; [|done]. intros _. exists i. split; [lia|]. by apply Hb.
  - destruct (IH (i + 1)) as (b & -> & Hb'); [lia..|]. exists b. split; [done|]. rewrite Hb'. split.
    + intros (j & ? & ?). exists j. split; [lia|done].
    + intros (j & ? & Hj). exists j. split; [|done]. destruct (decide (j = i)) as [->|]; [|lia].
      by apply Hb in Hj.
Qed.

Lemma missingFrom_spec n : ∀ i, mn <= i → i - mn + Z.of_nat n <= 300 →
  ∃ l, missingFrom n i mn rs pps = Ok l ∧
    (∀ j, j ∈ l ↔ i <= j < i + Z.of_nat n ∧ missing mn rs pps j) ∧ StronglySorted Z.lt l.
Proof.
  induction n as [|n IH]; intros i Hi Hn; cbn [missingFrom].
  { exists []. split_and!; [done| |constructor]. intros j. rewrite elem_of_nil. split; [done|]. lia. }
  destruct (missing_test i) as (r & b & -> & E & Hb); [lia..|]. res_step. rewrite E. res_step.
  destruct (IH (i + 1)) as (l & -> & Hl & Hs); [lia..|]. res_step. eexists. split_and!; [done| |].
  - intros j. destruct b; rewrite ?elem_of_cons, Hl; (destruct (decide (j = i)) as [->|]; [|naive_solver lia]);
      naive_solver lia.
  - destruct b; [|done]. constructor; [done|]. apply Forall_forall. intros j [? _]%Hl. lia.
Qed.
End missing_facts.

Lemma fillPPs_spec mn rs coll h (Hrs : length rs = 300%nat) (HC : coll_ok coll h) n : ∀ i pps,
  mn <= i → i - mn + Z.of_nat n <= 300 → length pps = 300%nat → pps_ok mn rs pps h →
  (∀ j, i <= j < i + Z.of_nat n → pps !! Z.to_nat (j - mn) = Some None) →
  ∃ pps', fillPPs n i mn coll h rs pps = Ok pps' ∧ length pps' = 300%nat ∧ pps_ok mn rs pps' h ∧
    (∀ a, Some a ∈ pps' → Some a ∈ pps ∨ a ∈ (map_to_list coll).*2) ∧
    (∀ j, mn <= j → i + Z.of_nat n <= j → pps' !! Z.to_nat (j - mn) = pps !! Z.to_nat (j - mn)).
Proof.
  induction n as [|n IH]; intros i pps Hi Hn Hlen HP Hnone; cbn [fillPPs].
  { exists pps. split_and!; auto. }
  rewrite (proj2 (Z.ltb_lt (i - mn) kWorkWindowSize)) by (unfold kWorkWindowSize; lia). res_step.
  rewrite (at_ok pps _ None) by (apply Hnone || idtac; lia). res_step. rewrite bool_decide_eq_true_2 by done. res_step.
  destruct (at_in rs (i - mn)) as (r & Hr & ->); [lia|]. res_step.
  assert (∃ pps1, (if isNull r then Ok pps
    else match coll !! i with
         | None => Ok pps
         | Some a => pp ← deref h a;
             if Digest.eqb (pp_digest pp) (digest r) then put_ pps (i - mn) (Some a) else Ok pps
         end) = Ok pps1 ∧ (pps1 = pps ∨ ∃ a, isNull r = false ∧ coll !! i = Some a ∧
      live h a (fun pp => pp_digest pp = digest r) ∧ pps1 = <[Z.to_nat (i - mn) := Some a]> pps)) as (pps1 & -> & Hp1).
  { destruct (isNull r); [by eauto|]. destruct (coll !! i) as [a|] eqn:Ea; [|by eauto].
    destruct (HC i a Ea) as (pp & Hpp & Hs & Hnull). unfold deref. rewrite Hpp. res_step.
    unfold Digest.eqb. case_bool_decide; [|by eauto]. rewrite put_in by lia. eexists. split; [done|].
    right. exists a. unfold live. eauto 10. }
  res_step. destruct Hp1 as [->|(a & Er & Ea & (pp & Hpp & Hd) & ->)].
  { destruct (IH (i + 1) pps) as (pps' & -> & ? & ? & ? & Hrest); [lia|lia|done|done|intros; apply Hnone; lia|].
    exists pps'. split_and!; [done..|]. intros. apply Hrest; lia. }
  destruct (IH (i + 1) (<[Z.to_nat (i - mn) := Some a]> pps)) as (pps' & -> & ? & ? & Hsub & Hrest);
    [lia|lia|by rewrite length_insert| | |].
  - intros j b Hj. rewrite lookup_put by lia. case_decide; [|by apply HP]. intros [= <-]. subst j.
    exists r. split; [done|]. exists pp. split; [done|]. destruct (HC i a Ea) as (pp' & ? & ? & ?).
    unfold wanted. naive_solver.
  - intros j ?. rewrite lookup_put by lia. case_decide; [lia|]. apply Hnone. lia.
  - exists pps'. split_and!; [done..| |].
    + intros b [Hb|?]%Hsub; [|by right]. apply list_elem_of_lookup in Hb as [k Hk].
      apply list_lookup_insert_Some in Hk as [(_ & [= ->] & _)|[_ Hk]].
      * right. apply elem_coll. eauto.
      * left. apply list_elem_of_lookup. eauto.
    + intros j ? ?. rewrite Hrest, lookup_put by lia. by case_decide; [lia|].
Qed.

(** ** Moving view-change messages to the pending view *)
Lemma present_insert {A} (l : list (option A)) i x : l !! i = Some None →
  length (present (<[i := Some x]> l)) = S (length (present l)).
Proof.
  revert i. induction l as [|[y|] l IH]; intros [|i] H; try done; simpl in *.
  - by rewrite (IH i H).
  - by apply IH.
Qed.

Record moved (ids : list Z) (vcs pend vcs' pend' : list (option VCM)) : Prop := {
  mv_len : length vcs' = length vcs ∧ length pend' = length pend;
  mv_vcs : ∀ i, vcs' !! i = if decide (Z.of_nat i ∈ ids) then Some None else vcs !! i;
  mv_pend : ∀ i, pend' !! i = if decide (Z.of_nat i ∈ ids) then vcs !! i else pend !! i;
  mv_present : length (present pend') = (length ids + length (present pend))%nat;
}.

Lemma moveRelated_spec ids : ∀ vcs pend, NoDup ids →
  (∀ i, i ∈ ids → 0 <= i ∧ pend !! Z.to_nat i = Some None ∧ ∃ m, vcs !! Z.to_nat i = Some (Some m)) →
  ∃ vcs' pend', moveRelated ids vcs pend = Ok (vcs', pend') ∧ moved ids vcs pend vcs' pend'.
Proof.
  induction ids as [|i ids IH]; intros vcs pend Hnd Hids; cbn [moveRelated].
  { exists vcs, pend. split; [done|]. constructor; [done|..]; intros; try done;
      (rewrite decide_False; [done|by intros ?%elem_of_nil]). }
  apply NoDup_cons in Hnd as [Hni Hnd]. destruct (Hids i) as (Hi & Hp & m & Hm); [left|].
  rewrite (at_ok pend i None) by done. res_step. rewrite bool_decide_eq_true_2 by done. res_step.
  rewrite (at_ok vcs i (Some m)) by done. res_step.
  pose proof (lookup_lt_Some _ _ _ Hp). pose proof (lookup_lt_Some _ _ _ Hm).
  rewrite !put_in by lia. res_step.
  destruct (IH (<[Z.to_nat i := None]> vcs) (<[Z.to_nat i := Some m]> pend)) as (vcs' & pend' & -> & [Hl Hv Hp' Hn]).
  { done. }
  { intros j Hj. destruct (Hids j) as (? & ? & m' & ?); [by right|]. assert (j ≠ i) by (intros ->; done).
    split; [done|]. rewrite !list_lookup_insert_ne by lia. eauto. }
  exists vcs', pend'. split; [done|]. rewrite !length_insert in Hl. constructor; [done|..].
  - intros k. rewrite Hv. destruct (decide (k = Z.to_nat i)) as [->|Hk].
    + rewrite list_lookup_insert_eq by done. rewrite Z2Nat.id by done.
      rewrite (decide_True (P := i ∈ i :: ids)) by left. by case_decide.
    + rewrite list_lookup_insert_ne by done. apply decide_ext. rewrite elem_of_cons. naive_solver lia.
  - intros k. rewrite Hp'. destruct (decide (k = Z.to_nat i)) as [->|Hk].
    + rewrite !list_lookup_insert_eq by done. rewrite Z2Nat.id by done.
      rewrite (decide_True (P := i ∈ i :: ids)) by left. by rewrite decide_False.
    + rewrite !list_lookup_insert_ne by done. apply decide_ext. rewrite elem_of_cons. naive_solver lia.
  - rewrite Hn, present_insert by done. simpl. lia.
Qed.

Section choose.
Context (info : ReplicasInfo.t) (msgDigest : VCM → Digest).
Context (Hwf : ReplicasInfo.wf info).
#[local] Abbreviation N := (ReplicasInfo._numberOfReplicas info).
#[local] Abbreviation F := (ReplicasInfo._fVal info).
#[local] Abbreviation C := (ReplicasInfo._cVal info).
#[local] Abbreviation myId := (ReplicasInfo._myId info).
#[local] Abbreviation SMAJOR := (SMAJOR info).

Lemma SMAJOR_eq : SMAJOR = 2 * F + 2 * C + 1.
Proof.
  unfold ViewsManager.SMAJOR. destruct Hwf. rewrite u16_small; lia.
Qed.

(** [l] increases and holds indexes from [i] on of messages satisfying [P]; [vcs] starts at [i]. *)
Definition picks (P : Z → VCM → Prop) (vcs : list (option VCM)) (i : Z) (l : list Z) : Prop :=
  StronglySorted Z.lt l ∧
  ∀ j, j ∈ l → i <= j ∧ ∃ m, vcs !! Z.to_nat (j - i) = Some (Some m) ∧ P j m.

Lemma picks_skip P vc vcs i l : picks P vcs (i + 1) l → picks P (vc :: vcs) i l.
Proof.
  intros [Hs H]. split; [done|]. intros j Hj. destruct (H j Hj) as (? & m & ? & ?). split; [lia|].
  exists m. by replace (Z.to_nat (j - i)) with (S (Z.to_nat (j - (i + 1)))) by lia.
Qed.

Lemma picks_take (P : Z → VCM → Prop) m vcs i l : P i m → picks P vcs (i + 1) l → picks P (Some m :: vcs) i (i :: l).
Proof.
  intros HP H. pose proof (picks_skip P (Some m) vcs i l H) as [_ H']. destruct H as [Hs H]. split.
  - constructor; [done|]. apply Forall_forall. intros j (? & _)%H. lia.
  - intros j [->|Hj]%elem_of_cons; [|by apply H']. split; [lia|]. exists m. by rewrite Z.sub_diag.
Qed.

Lemma picks_nil P vcs i : picks P vcs i [].
Proof. split; [constructor|]. by intros j ?%elem_of_nil. Qed.

Lemma picks_lookup P vcs l : picks P vcs 0 l → NoDup l ∧
  ∀ j, j ∈ l → 0 <= j ∧ ∃ m, vcs !! Z.to_nat j = Some (Some m) ∧ P j m.
Proof.
  intros [Hs H]. split.
  - induction Hs as [|x l Hs IH Hx]; constructor.
    + intros Hin. rewrite Forall_forall in Hx. apply Hx in Hin. lia.
    + apply IH. intros j Hj. apply H. by right.
  - intros j Hj. destruct (H j Hj) as (? & m & Hm & ?). rewrite Z.sub_0_r in Hm. eauto.
Qed.

Lemma chooseVC_spec v vcs : ∀ i size, size < SMAJOR →
  picks (fun j m => j ≠ myId ∧ vm_newView m = v) vcs i (chooseVC info vcs i v size) ∧
  size + Z.of_nat (length (chooseVC info vcs i v size)) <= SMAJOR.
Proof.
  induction vcs as [|vc vcs IH]; intros i size Hsize; cbn [chooseVC].
  { split; [apply picks_nil|simpl; lia]. }
  assert (∀ k, k < SMAJOR → picks (fun j m => j ≠ myId ∧ vm_newView m = v) (vc :: vcs) i (chooseVC info vcs (i + 1) v k) ∧
    k + Z.of_nat (length (chooseVC info vcs (i + 1) v k)) <= SMAJOR) as Hskip.
  { intros k Hk. destruct (IH (i + 1) k Hk). split; [by apply picks_skip|done]. }
  case_match eqn:Ei; [by apply Hskip|].
  destruct vc as [m|]; [|by apply Hskip]. case_match eqn:Ev; [|by apply Hskip]. bool_to_prop.
  case_match eqn:Es; bool_to_prop.
  - split; [apply picks_take; [done|apply picks_nil]|simpl; lia].
  - destruct (IH (i + 1) (size + 1)) as [H1 H2]; [lia|]. split; [by apply picks_take|simpl length; lia].
Qed.

Lemma relatedVC_spec nv v vcs : ∀ i,
  picks (fun j m => vm_newView m = v ∧ includes nv (vm_gen m) (msgDigest m) = true) vcs i
    (relatedVC msgDigest nv vcs i v).
Proof.
  induction vcs as [|[m|] vcs IH]; intros i; cbn [relatedVC]; [apply picks_nil| |by apply picks_skip].
  case_match eqn:E; [|by apply picks_skip]. bool_to_prop. by apply picks_take.
Qed.

(** The messages of a new-view message are at most as many as its elements. *)
Lemma relatedVC_length nv v vcs : (∀ i m, vcs !! i = Some (Some m) → vm_gen m = Z.of_nat i) →
  (length (relatedVC msgDigest nv vcs 0 v) <= length (nv_elems nv))%nat.
Proof.
  intros Hgen. destruct (picks_lookup _ _ _ (relatedVC_spec nv v vcs 0)) as [Hnd Hin].
  rewrite <- (length_fmap fst (nv_elems nv)). apply submseteq_length, NoDup_submseteq; [done|].
  intros j Hj. destruct (Hin j Hj) as (? & m & Hm & _ & Hi). apply Hgen in Hm.
  unfold includes in Hi. apply bool_decide_eq_true in Hi. apply list_elem_of_fmap.
  eexists. split; [|done]. simpl. lia.
Qed.

Lemma insertSorted_sorted x l : StronglySorted Z.lt l → StronglySorted Z.lt (insertSorted x l).
Proof.
  intros Hl. unfold insertSorted. apply StronglySorted_app. split_and!.
  - intros a b [? _]%list_elem_of_filter Hb. apply elem_of_app in Hb as [->%list_elem_of_singleton|[? _]%list_elem_of_filter]; lia.
  - by apply sorted_filter.
  - simpl. constructor; [by apply sorted_filter|]. apply Forall_forall. by intros a [? _]%list_elem_of_filter.
Qed.

Lemma insertSorted_perm x l : x ∉ l → insertSorted x l ≡ₚ x :: l.
Proof.
  intros Hx. unfold insertSorted. cbn [app]. rewrite <- Permutation_middle. constructor.
  induction l as [|y l IH]; [done|]. apply not_elem_of_cons in Hx as [Hxy Hx]. rewrite !filter_cons.
  repeat case_decide; try lia; simpl; [|rewrite <- Permutation_middle]; by rewrite IH.
Qed.

(** Building the new-view message moves the same messages. *)
Lemma moveChosen_eq v ids : ∀ vcs pend elems,
  (∀ m, Digest.isZero (msgDigest m) = false) →
  StronglySorted Z.lt (elems.*1 ++ ids) → Z.of_nat (length elems + length ids) <= 1800 →
  (∀ i m, i ∈ ids → vcs !! Z.to_nat i = Some (Some m) → vm_newView m = v) →
  (∀ i, i ∈ ids → 0 <= i ∧ pend !! Z.to_nat i = Some None ∧ ∃ m, vcs !! Z.to_nat i = Some (Some m)) →
  ∃ vcs' pend' elems', moveChosen msgDigest ids v vcs pend elems = Ok (vcs', pend', elems') ∧
    moveRelated ids vcs pend = Ok (vcs', pend') ∧ length elems' = (length elems + length ids)%nat.
Proof.
  induction ids as [|i ids IH]; intros vcs pend elems Hd Hs Hlen Hv Hids; cbn [moveChosen moveRelated].
  { exists vcs, pend, elems. split_and!; [done..|]. simpl. lia. }
  destruct (Hids i) as (Hi & Hp & m & Hm); [left|].
  rewrite (at_ok vcs i (Some m)), (at_ok pend i None) by done. res_step.
  rewrite (Hv i m) by (done || left). rewrite Z.eqb_refl, Hd. res_step. simpl length in Hlen.
  rewrite (proj2 (Z.leb_le _ _)) by (rewrite u16_small; unfold maxExternalMessageSize; lia). res_step.
  replace (match last elems with Some (r, _) => r <? i | None => true end) with true.
  2: { destruct (last elems) as [[r d]|] eqn:El; [|done]. symmetry. apply Z.ltb_lt.
       apply StronglySorted_app in Hs as (Hs & _). apply Hs; [|left].
       apply list_elem_of_fmap. exists (r, d). split; [done|]. by apply last_Some_elem_of. }
  res_step. rewrite bool_decide_eq_true_2 by done. res_step.
  pose proof (lookup_lt_Some _ _ _ Hp). pose proof (lookup_lt_Some _ _ _ Hm).
  rewrite !put_in by lia. res_step.
  assert (i ∉ ids) as Hni.
  { apply StronglySorted_app in Hs as (_ & _ & Hs). apply StronglySorted_inv in Hs as [_ Hs].
    intros Hin. rewrite Forall_forall in Hs. apply Hs in Hin. lia. }
  destruct (IH (<[Z.to_nat i := None]> vcs) (<[Z.to_nat i := Some m]> pend) (elems ++ [(i, msgDigest m)]))
    as (vcs' & pend' & elems' & E1 & E2 & E3); [done| | | | |].
  - by rewrite fmap_app, <- app_assoc.
  - rewrite length_app. simpl. lia.
  - intros j m' Hj. assert (j ≠ i) by (intros ->; done). destruct (Hids j) as (? & _); [by right|].
    rewrite list_lookup_insert_ne by lia. apply Hv. by right.
  - intros j Hj. destruct (Hids j) as (? & ? & m' & ?); [by right|]. assert (j ≠ i) by (intros ->; done).
    split; [done|]. rewrite !list_lookup_insert_ne by lia. eauto.
  - exists vcs', pend', elems'. split_and!; [done..|]. rewrite E3, length_app. simpl. lia.
Qed.
End choose.
End ViewsManagerFacts.
