(* ===== verification/ViewsManagerSafety.v ===== *)
(** * Correctness of the view-change state machine (ViewsManager.v)

    The invariant of [ViewsManager], the ownership discipline of pre-prepare
    messages (nothing is freed twice, nothing that the manager took is lost,
    nothing of the caller is touched) and the behaviour of the operations. *)
From S2P Require Import Prelude SysConsts Digest ReplicasInfo ViewChangeMsg ViewChangeSafety ViewsManager ViewsManagerFacts.

Module ViewsManagerSafety.
Export ViewsManagerFacts.

(** The pre-prepare messages of the manager. *)
Definition owns (s : t) (a : Z) : Prop :=
  owned (prePrepareMsgsOfRestrictions s) (collectionOfPrePrepareMsgs s) a.
#[export] Instance owns_dec s a : Decision (owns s a).
Proof. unfold owns, owned. apply _. Defined.

Lemma ok_bind {A B} (x : A) (f : A → res B) : (Ok x ≫= f) = f x.
Proof. done. Qed.
Ltac ok_step := rewrite ok_bind; cbv beta.

Section inv.
Context (info : ReplicasInfo.t) (msgDigest : VCM → Digest) (verify : Digest → list Z → bool)
        (nullDigest : Digest) (mySigLength maxSig : Z).
#[local] Abbreviation N := (ReplicasInfo._numberOfReplicas info).
#[local] Abbreviation F := (ReplicasInfo._fVal info).
#[local] Abbreviation C := (ReplicasInfo._cVal info).
#[local] Abbreviation myId := (ReplicasInfo._myId info).
#[local] Abbreviation SMAJOR := (SMAJOR info).

(** A stored view-change message: the index is its generating replica. *)
Definition vcm_ok (i : nat) (m : VCM) : Prop := vm_gen m = Z.of_nat i ∧ vc_legal (vm_vc m).

(** My latest view-change message. *)
Definition myVC (s : t) : option VCM :=
  match viewChangeMsgsOfPendingView s !! Z.to_nat myId with
  | Some (Some m) => Some m
  | _ => mjoin (viewChangeMessages s !! Z.to_nat myId)
  end.

(** The elements of my own messages come from views up to [active], and their
    signatures have at most [maxSig] bytes. *)
Definition mine_elem (active : Z) (e : Element) : Prop :=
  e_originView e <= active ∧
  ∀ cv sg, e_certificate e = Some (cv, sg) → cv <= e_originView e ∧ Z.of_nat (length sg) <= maxSig.
Definition mine_ok (active : Z) (m : VCM) : Prop := Forall (mine_elem active) (vc_elements (vm_vc m)).

Record core (s : t) : Prop := {
  c_vcs_len : length (viewChangeMessages s) = Z.to_nat N;
  c_nvs_len : length (newViewMessages s) = Z.to_nat N;
  c_pend_len : length (viewChangeMsgsOfPendingView s) = Z.to_nat N;
  c_rs_len : length (restrictionsOfPendingView s) = 300%nat;
  c_pps_len : length (prePrepareMsgsOfRestrictions s) = 300%nat;
  c_vcs : ∀ i m, viewChangeMessages s !! i = Some (Some m) → vcm_ok i m;
  c_pend : ∀ i m, viewChangeMsgsOfPendingView s !! i = Some (Some m) →
             vcm_ok i m ∧ (i ≠ Z.to_nat myId → vm_newView m = myLatestPendingView s);
  c_mine : ∀ m, myVC s = Some m → mine_ok (myLatestActiveView s) m;
  c_nvs : ∀ i m, newViewMessages s !! i = Some (Some m) → Z.of_nat (length (nv_elems m)) = SMAJOR;
  c_nvs_my : newViewMessages s !! Z.to_nat myId = Some None;
  c_views : 0 <= myLatestActiveView s <= myLatestPendingView s;
  c_lb : 0 <= lowerBoundStableForPendingView s;
  c_range : minRestrictionOfPendingView s = 0 ∨
    0 < minRestrictionOfPendingView s <= maxRestrictionOfPendingView s + 1 ∧
    maxRestrictionOfPendingView s - minRestrictionOfPendingView s < 300;
  c_slots : ∀ j a, minRestrictionOfPendingView s <= j →
    prePrepareMsgsOfRestrictions s !! Z.to_nat (j - minRestrictionOfPendingView s) = Some (Some a) →
    minRestrictionOfPendingView s ≠ 0 ∧ j <= maxRestrictionOfPendingView s;
  c_pps : pps_ok (minRestrictionOfPendingView s) (restrictionsOfPendingView s)
            (prePrepareMsgsOfRestrictions s) (heap s);
  c_coll : coll_ok (collectionOfPrePrepareMsgs s) (heap s);
  c_fresh : fresh (heap s) (nextAddr s);
  c_nv : match newViewMsgOfOfPendingView s with
         | None => (∀ i m, viewChangeMsgsOfPendingView s !! i = Some (Some m) → False) ∧
                   minRestrictionOfPendingView s = 0
         | Some nv => nv_view nv = myLatestPendingView s ∧
                      Z.of_nat (length (present (viewChangeMsgsOfPendingView s))) = SMAJOR
         end;
}.

(** The restrictions of the state are those of its pending view-change messages. *)
Definition restricted (s : t) : Prop :=
  ∃ arr, length arr = 300%nat ∧
    computeRestrictions F C verify nullDigest (pendingVCs s) (lowerBoundStableForPendingView s) arr =
      Ok (restrictionsOfPendingView s, minRestrictionOfPendingView s, maxRestrictionOfPendingView s).

Definition stat_ok (s : t) : Prop :=
  match stat s with
  | NO_VIEW => newViewMsgOfOfPendingView s = None
  | PENDING => newViewMsgOfOfPendingView s ≠ None ∧ minRestrictionOfPendingView s = 0
  | PENDING_WITH_RESTRICTIONS => newViewMsgOfOfPendingView s ≠ None ∧ restricted s
  | IN_VIEW => collectionOfPrePrepareMsgs s = ∅ ∧
      (∀ a, Some a ∉ prePrepareMsgsOfRestrictions s) ∧
      myLatestActiveView s = myLatestPendingView s ∧
      (myLatestActiveView s = 0 ∨ ∃ m, myVC s = Some m ∧ vm_newView m = myLatestActiveView s) ∧
      (newViewMsgOfOfPendingView s ≠ None → restricted s)
  end.

Definition inv (s : t) : Prop := core s ∧ stat_ok s.

(** Every cell that the manager owned and gave up is deallocated or handed to the
    caller in [out]; the cells of the caller are untouched. *)
Definition accounted (s s' : t) (out : list Z) : Prop :=
  (∀ a, owns s' a → a ∉ out) ∧
  ∀ a, a ∉ out → ¬ owns s' a → heap s' !! a = if decide (owns s a) then None else heap s !! a.

Context (Hwf : ReplicasInfo.wf info) (HFC : 1 <= F + C) (HN : N <= 1800)
        (Hdig : ∀ m, Digest.isZero (msgDigest m) = false).

Lemma myId_lt s : core s → (Z.to_nat myId < length (viewChangeMessages s))%nat.
Proof. intros H. rewrite (c_vcs_len s H). destruct Hwf. lia. Qed.

Lemma no_slots s : core s → minRestrictionOfPendingView s = 0 → ∀ a, Some a ∉ prePrepareMsgsOfRestrictions s.
Proof.
  intros H Hm a [k Hk]%list_elem_of_lookup. destruct (c_slots s H (Z.of_nat k) a) as [? _]; [lia| |done].
  rewrite Hm, Z.sub_0_r, Nat2Z.id. done.
Qed.

Lemma lookup_none_elem (pps : list (option Z)) j : (∀ a, Some a ∉ pps) → (j < length pps)%nat → pps !! j = Some None.
Proof.
  intros H Hj. apply lookup_lt_is_Some_2 in Hj as [[a|] E]; [|done].
  destruct (H a). apply list_elem_of_lookup. eauto.
Qed.

(** ** Dropping the pending view *)
Record reset_post (s s' : t) : Prop := {
  r_core : core s';
  r_nv : newViewMsgOfOfPendingView s' = None;
  r_stat : stat s' = stat s;
  r_views : myLatestActiveView s' = myLatestActiveView s ∧ myLatestPendingView s' = myLatestPendingView s;
  r_nvs : newViewMessages s' = newViewMessages s;
  r_coll : collectionOfPrePrepareMsgs s' = collectionOfPrePrepareMsgs s;
  r_bounds : lowerBoundStableForPendingView s' = lowerBoundStableForPendingView s ∧
    debugHighestKnownStable s' = debugHighestKnownStable s ∧
    debugHighestViewNumberPassedByClient s' = debugHighestViewNumberPassedByClient s;
  r_vcs : ∀ i, viewChangeMessages s' !! i =
    if decide (i = Z.to_nat myId) then Some (myVC s) else viewChangeMessages s !! i;
  r_mine : myVC s' = myVC s;
  r_rel : released (owns s) (owns s') (heap s) (heap s');
}.

Lemma reset_none s : core s → newViewMsgOfOfPendingView s = None → reset_post s s.
Proof.
  intros H Hn. constructor; try done.
  - intros i. case_decide as E; [subst|done]. unfold myVC. pose proof (c_nv s H) as Hc. rewrite Hn in Hc.
    destruct (viewChangeMsgsOfPendingView s !! Z.to_nat myId) as [[m|]|] eqn:E.
    + by destruct Hc as [Hc _]; apply Hc in E.
    + destruct (lookup_lt_is_Some_2 _ _ (myId_lt s H)) as [x ->]. done.
    + destruct (lookup_lt_is_Some_2 _ _ (myId_lt s H)) as [x ->]. done.
Qed.

(** Clearing the numbers from [lo] on leaves nothing when the ones before are null. *)
Lemma cleared_none mn lo hi (pps pps' : list (option Z)) : mn <= lo → cleared mn lo hi pps pps' →
  (∀ j a, mn <= j → pps !! Z.to_nat (j - mn) = Some (Some a) → lo <= j < hi) → ∀ a, Some a ∉ pps'.
Proof.
  intros Hlo [Hl Hc] H a [k Hk]%list_elem_of_lookup. pose proof (lookup_lt_Some _ _ _ Hk).
  specialize (Hc (mn + Z.of_nat k) ltac:(lia)).
  replace (Z.to_nat (mn + Z.of_nat k - mn)) with k in Hc by lia. rewrite Hk in Hc.
  case_decide as E; [done|]. apply E. split; [|lia]. apply (H _ a); [lia|].
  by replace (Z.to_nat (mn + Z.of_nat k - mn)) with k by lia.
Qed.

Lemma resetRestrictions_spec s0 vcs pend nv : core s0 → let s := set_pending (set_vc s0 vcs) pend nv in
  ∃ mx' pps' h', resetRestrictions s =
    Ok (set_restr (set_pps s (collectionOfPrePrepareMsgs s0) pps' h' (nextAddr s)) 0 mx' (restrictionsOfPendingView s)) ∧
  length pps' = 300%nat ∧ (∀ a, Some a ∉ pps') ∧
  released (owns s0) (owned pps' (collectionOfPrePrepareMsgs s0)) (heap s0) h'.
Proof.
  intros H s. unfold resetRestrictions. subst s. simpl. case_match eqn:E; bool_to_prop.
  - destruct (c_range s0 H) as [?|[? ?]]; [lia|].
    edestruct (resetPPs_spec (minRestrictionOfPendingView s0) (restrictionsOfPendingView s0)
      (collectionOfPrePrepareMsgs s0) (Z.to_nat (maxRestrictionOfPendingView s0 - minRestrictionOfPendingView s0 + 1)))
      as (pps' & h' & -> & Hc & HR); [done|lia|by apply c_pps_len|by apply c_pps|by apply c_coll|].
    res_step. exists 0, pps', h'. split_and!; [done|by rewrite (proj1 Hc), c_pps_len| |done].
    eapply cleared_none; [|done|]; [done|]. intros j a Hj Ha. destruct (c_slots s0 H j a Hj Ha). lia.
  - exists (maxRestrictionOfPendingView s0), (prePrepareMsgsOfRestrictions s0), (heap s0). split_and!.
    + destruct s0; simpl in *; by subst.
    + by apply c_pps_len.
    + by apply no_slots.
    + apply released_refl.
Qed.

Lemma keepMyViewChange_spec s : core s → ∃ vcs pend,
  keepMyViewChange info s = Ok (set_pending (set_vc s vcs) pend (newViewMsgOfOfPendingView s)) ∧
  length pend = Z.to_nat N ∧ length vcs = Z.to_nat N ∧ (∀ i m, vcs !! i = Some (Some m) → vcm_ok i m) ∧
  ∀ i, vcs !! i = if decide (i = Z.to_nat myId) then Some (myVC s) else viewChangeMessages s !! i.
Proof.
  intros H. pose proof (c_vcs_len s H) as Hvl. pose proof (c_pend_len s H) as Hpl.
  pose proof (ReplicasInfo.wf_my _ Hwf) as Hmy. unfold keepMyViewChange, myVC.
  destruct (at_in (viewChangeMsgsOfPendingView s) myId) as (mine & Hmine & ->); [lia|]. rewrite Hmine. res_step.
  destruct mine as [m|].
  - rewrite !put_in by lia. res_step. do 2 eexists. split; [reflexivity|]. rewrite !length_insert. split_and!; [done..| |].
    + intros i m' [(<- & [= <-] & _)|[_ ?]]%list_lookup_insert_Some; [by apply (c_pend s H)|by apply (c_vcs s H)].
    + intros i. case_decide; [subst; by rewrite list_lookup_insert_eq by lia|by rewrite list_lookup_insert_ne].
  - exists (viewChangeMessages s), (viewChangeMsgsOfPendingView s). split_and!; [by destruct s|done..|by apply c_vcs|].
    intros i. case_decide; [subst|done]. destruct (lookup_lt_is_Some_2 _ _ (myId_lt s H)) as [x ->]. done.
Qed.

Lemma released_fresh own own' h h' next `{!∀ a, Decision (own a), !∀ a, Decision (own' a)} :
  released own own' h h' → fresh h next → fresh h' next.
Proof.
  intros HR Hf a Ha. destruct (decide (own a)) as [Ho|Ho]; [destruct (decide (own' a))|].
  - apply Hf. by rewrite (rel_kept _ _ _ _ HR) in Ha.
  - rewrite (rel_freed _ _ _ _ HR) in Ha by done. by destruct Ha.
  - apply Hf. by rewrite (rel_frame _ _ _ _ HR) in Ha.
Qed.

Lemma resetData_spec s : core s →
  ∃ s', resetDataOfLatestPendingAndKeepMyViewChange info s = Ok s' ∧ reset_post s s'.
Proof.
  intros H. unfold resetDataOfLatestPendingAndKeepMyViewChange.
  destruct (newViewMsgOfOfPendingView s) as [nv|] eqn:En; [|by eauto using reset_none].
  destruct (keepMyViewChange_spec s H) as (vcs1 & pend1 & -> & Hp1 & Hv1 & Hok1 & Hl1). res_step.
  destruct (resetRestrictions_spec s vcs1 pend1 (newViewMsgOfOfPendingView s) H) as (mx' & pps' & h' & -> & Hpps & Hno & HR).
  res_step. assert (∀ P j a, pps' !! j = Some (Some a) → P) as Hno'.
  { intros P j a ?. destruct (Hno a). apply list_elem_of_lookup. eauto. }
  eexists. split; [done|].
  set (s' := set_pending _ _ None).
  assert (myVC s' = myVC s) as Hmine.
  { unfold myVC at 1. simpl. rewrite (Hl1 (Z.to_nat myId)), decide_True by done.
    by destruct (replicate _ _ !! _) as [[]|] eqn:E; [apply replicate_none_lookup in E| |]. }
  constructor; try done.
  destruct H. constructor; simpl; try done.
  - by rewrite length_replicate.
  - intros i m []%replicate_none_lookup.
  - rewrite Hmine. done.
  - by left.
  - intros j a _. apply Hno'.
  - intros j a _. apply Hno'.
  - by eapply released_coll_ok.
  - eapply released_fresh; [..|done|done]; apply _ || (intros a; unfold owned; apply _).
  - split; [|done]. intros i m []%replicate_none_lookup.
Qed.

(** ** Moving to a pending view *)
Lemma present_empty (l : list (option VCM)) : (∀ i m, l !! i = Some (Some m) → False) → present l = [].
Proof. intros H. rewrite (replicate_none l H). by induction (length l). Qed.

Lemma myVC_moved s ids nvs vcs' pend' nv active v : core s → newViewMsgOfOfPendingView s = None →
  moved ids (viewChangeMessages s) (viewChangeMsgsOfPendingView s) vcs' pend' →
  myVC (set_views (set_pending (set_vc (set_nv s nvs) vcs') pend' nv) active v) = myVC s.
Proof.
  intros H Hn [_ Hm3 Hm4 _]. pose proof (c_nv s H) as Hc. rewrite Hn in Hc. destruct Hc as [Hpend _].
  unfold myVC. simpl. rewrite Hm3, Hm4. specialize (Hpend (Z.to_nat myId)).
  repeat case_decide; try done.
  destruct (viewChangeMsgsOfPendingView s !! Z.to_nat myId) as [[m|]|]; [by destruct (Hpend m)| |];
    by destruct (viewChangeMessages s !! Z.to_nat myId) as [[m|]|].
Qed.

(** The messages of a view that a replica has just moved to. *)
Definition allForView (s : t) (v : Z) : Prop :=
  ∀ i m, viewChangeMsgsOfPendingView s !! i = Some (Some m) → vm_newView m = v.

Lemma core_moved s v ids nvs vcs' pend' nv : core s → newViewMsgOfOfPendingView s = None →
  myLatestPendingView s < v →
  length nvs = Z.to_nat N → nvs !! Z.to_nat myId = Some None →
  (∀ i m, nvs !! i = Some (Some m) → Z.of_nat (length (nv_elems m)) = SMAJOR) →
  moved ids (viewChangeMessages s) (viewChangeMsgsOfPendingView s) vcs' pend' →
  (∀ i m, i ∈ ids → viewChangeMessages s !! Z.to_nat i = Some (Some m) → vm_newView m = v) →
  Z.of_nat (length ids) = SMAJOR → nv_view nv = v →
  let s' := set_views (set_pending (set_vc (set_nv s nvs) vcs') pend' (Some nv)) (myLatestActiveView s) v in
  core s' ∧ myVC s' = myVC s ∧ allForView s' v.
Proof.
  intros H Hn Hv Hl1 Hl2 Hl3 Hmv Hids Hlen Hnv s'.
  pose proof (myVC_moved s ids nvs vcs' pend' (Some nv) (myLatestActiveView s) v H Hn Hmv) as Hmine.
  destruct Hmv as [[Hm1 Hm2] Hm3 Hm4 Hm5].
  pose proof (c_nv s H) as Hc. rewrite Hn in Hc. destruct Hc as [Hpend Hmin].
  assert (∀ i m, pend' !! i = Some (Some m) → vcm_ok i m ∧ vm_newView m = v) as Hall.
  { intros i m. rewrite Hm4. case_decide as E; [|intros Hi; by apply Hpend in Hi].
    intros Hi. split; [by apply (c_vcs s H)|]. apply (Hids _ m E). by rewrite Nat2Z.id. }
  split_and!; [|done|intros i m Hi; by apply (Hall i)].
  destruct H. constructor; simpl; try done; try lia.
  - intros i m. rewrite Hm3. case_decide; [done|]. by apply c_vcs0.
  - intros i m Hi. by destruct (Hall i m Hi).
  - intros m Hm. apply c_mine0. rewrite <- Hmine. exact Hm.
  - split; [done|]. rewrite Hm5, present_empty by done. simpl. lia.
Qed.

Lemma core_set_nv s nvs : core s → length nvs = Z.to_nat N → nvs !! Z.to_nat myId = Some None →
  (∀ i m, nvs !! i = Some (Some m) → Z.of_nat (length (nv_elems m)) = SMAJOR) → core (set_nv s nvs).
Proof. intros [] ? ? ?. by constructor. Qed.

Record move_post (s : t) (v : Z) (b : bool) (s' : t) : Prop := {
  m_core : core s';
  m_stat : stat s' = stat s;
  m_min : minRestrictionOfPendingView s' = 0;
  m_active : myLatestActiveView s' = myLatestActiveView s;
  m_bounds : lowerBoundStableForPendingView s' = lowerBoundStableForPendingView s ∧
    debugHighestKnownStable s' = debugHighestKnownStable s ∧
    debugHighestViewNumberPassedByClient s' = debugHighestViewNumberPassedByClient s;
  m_rel : released (owns s) (owns s') (heap s) (heap s');
  m_mine : myVC s' = myVC s;
  m_nv : if b then newViewMsgOfOfPendingView s' ≠ None ∧ myLatestPendingView s' = v ∧ allForView s' v
         else newViewMsgOfOfPendingView s' = None ∧ myLatestPendingView s' = myLatestPendingView s;
}.

Lemma pend_lookup_none s i : core s → newViewMsgOfOfPendingView s = None → (i < Z.to_nat N)%nat →
  viewChangeMsgsOfPendingView s !! i = Some None.
Proof.
  intros H Hn Hi. pose proof (c_nv s H) as Hc. rewrite Hn in Hc. rewrite <- (c_pend_len s H) in Hi.
  apply lookup_lt_is_Some_2 in Hi as [[m|] E]; [|done]. by apply (proj1 Hc) in E.
Qed.

Lemma ids_movable s (P : Z → VCM → Prop) (ids : list Z) : core s → newViewMsgOfOfPendingView s = None →
  (∀ j, j ∈ ids → 0 <= j ∧ ∃ m, viewChangeMessages s !! Z.to_nat j = Some (Some m) ∧ P j m) →
  ∀ i, i ∈ ids → 0 <= i ∧ viewChangeMsgsOfPendingView s !! Z.to_nat i = Some None ∧
    ∃ m, viewChangeMessages s !! Z.to_nat i = Some (Some m).
Proof.
  intros H Hn Hids i Hi. destruct (Hids i Hi) as (? & m & Hm & _). split_and!; [done| |by eauto].
  apply pend_lookup_none; [done..|]. rewrite <- (c_vcs_len s H). by eapply lookup_lt_Some.
Qed.

Lemma moveAsNonPrimary_spec s v : core s → myLatestPendingView s < v →
  ReplicasInfo.primaryOfView info v ≠ myId →
  ∃ b s', tryMoveToPendingViewAsNonPrimary info msgDigest s v = Ok (b, s') ∧ move_post s v b s'.
Proof.
  intros H Hv Hprim. pose proof (c_views s H) as Hviews.
  pose proof (ReplicasInfo.primary_range info Hwf v ltac:(lia)) as Hpr.
  unfold tryMoveToPendingViewAsNonPrimary.
  rewrite (proj2 (Z.ltb_lt _ _)), (proj2 (Z.eqb_neq _ _)) by done. cbn [Assert negb]. ok_step. ok_step.
  destruct (resetData_spec s H) as (s1 & -> & [H1 R1 R2 [R3 R3'] R4 R5 R6 R7 R8 R9]). ok_step.
  pose proof (c_nv s1 H1) as Hc. rewrite R1 in Hc. destruct Hc as [_ Hmin].
  assert (move_post s v false s1) as Hfalse by (constructor; try done; congruence).
  destruct (at_in (newViewMessages s1) (ReplicasInfo.primaryOfView info v)) as (nv & Hnv & ->).
  { rewrite c_nvs_len by done. lia. }
  ok_step. destruct nv as [nv|]; [|by eauto]. case_match eqn:Ev; [by eauto|]. bool_to_prop.
  destruct (picks_lookup _ _ _ (relatedVC_spec msgDigest nv v (viewChangeMessages s1) 0)) as [Hnd Hids].
  pose proof (relatedVC_length msgDigest nv v (viewChangeMessages s1)) as Hlen.
  set (ids := relatedVC msgDigest nv (viewChangeMessages s1) 0 v) in *.
  case_match eqn:El; [by eauto|]. bool_to_prop. specialize (Hlen ltac:(intros; by apply (c_vcs s1 H1))).
  pose proof (c_nvs s1 H1 _ _ Hnv) as Hel.
  assert (Z.of_nat (length ids) = SMAJOR) as Hids_len by lia.
  rewrite Hids_len, Z.eqb_refl, R1. rewrite bool_decide_eq_true_2 by done. cbn [Assert]. do 2 ok_step.
  rewrite put_in by (rewrite c_nvs_len by done; lia). ok_step.
  destruct (moveRelated_spec ids (viewChangeMessages s1) (viewChangeMsgsOfPendingView s1) Hnd
    (ids_movable s1 _ ids H1 R1 Hids)) as (vcs' & pend' & -> & Hm). ok_step.
  do 2 eexists. split; [done|].
  edestruct (core_moved s1 v ids) as (K1 & K2 & K3); [..|constructor; [exact K1|done..|by rewrite <- R8|by split_and!]]; try done.
  - congruence.
  - by rewrite length_insert, c_nvs_len.
  - rewrite list_lookup_insert_ne by (destruct Hwf; lia). by apply c_nvs_my.
  - intros i m [(<- & ? & _)|[_ ?]]%list_lookup_insert_Some; [done|by apply (c_nvs s1 H1 i)].
  - intros i m Hi Hvc. destruct (Hids i Hi) as (_ & m' & ? & ? & _). congruence.
Qed.

(** The messages chosen by the primary, its own one included. *)
Lemma chosen_spec s v m : core s → viewChangeMessages s !! Z.to_nat myId = Some (Some m) → vm_newView m = v →
  let ids := insertSorted myId (chooseVC info (viewChangeMessages s) 0 v 1) in
  StronglySorted Z.lt ids ∧ NoDup ids ∧ Z.of_nat (length ids) <= SMAJOR ∧
  ∀ j, j ∈ ids → 0 <= j ∧ ∃ m, viewChangeMessages s !! Z.to_nat j = Some (Some m) ∧ vm_newView m = v.
Proof.
  intros H Hm Hv ids. pose proof (SMAJOR_eq info Hwf). pose proof (ReplicasInfo.wf_my _ Hwf).
  destruct (chooseVC_spec info v (viewChangeMessages s) 0 1) as [Hp Hl]; [lia|].
  pose proof (proj1 Hp) as Hs. apply picks_lookup in Hp as [Hnd Hin].
  assert (myId ∉ chooseVC info (viewChangeMessages s) 0 v 1) as Hmy.
  { intros Hin'. destruct (Hin _ Hin') as (_ & ? & _ & ? & _). done. }
  pose proof (insertSorted_perm myId _ Hmy) as Hperm. subst ids. split_and!.
  - by apply insertSorted_sorted.
  - rewrite Hperm. by constructor.
  - rewrite Hperm. simpl length. lia.
  - intros j. rewrite Hperm. intros [->|Hj]%elem_of_cons; [split; [lia|by eauto]|].
    destruct (Hin j Hj) as (? & m' & ? & _ & ?). eauto.
Qed.

Lemma moveAsPrimary_spec s v m : core s → myLatestPendingView s < v →
  ReplicasInfo.primaryOfView info v = myId → myVC s = Some m → vm_newView m = v →
  ∃ b s', tryMoveToPendingViewAsPrimary info msgDigest s v = Ok (b, s') ∧ move_post s v b s'.
Proof.
  intros H Hv Hprim Hm Hmv. pose proof (ReplicasInfo.wf_my _ Hwf) as Hmy. pose proof (SMAJOR_eq info Hwf).
  unfold tryMoveToPendingViewAsPrimary.
  rewrite Hprim, Z.eqb_refl, (proj2 (Z.ltb_lt _ _)) by done. cbn [Assert]. do 2 ok_step.
  destruct (resetData_spec s H) as (s1 & -> & [H1 R1 R2 [R3 R3'] R4 R5 R6 R7 R8 R9]). ok_step.
  pose proof (c_nv s1 H1) as Hc. rewrite R1 in Hc. destruct Hc as [_ Hmin].
  assert (viewChangeMessages s1 !! Z.to_nat myId = Some (Some m)) as Hm1.
  { rewrite R7, decide_True by done. by rewrite Hm. }
  rewrite (at_ok _ _ _ (proj1 Hmy) Hm1). ok_step. rewrite Hmv, Z.eqb_refl. cbn [Assert]. ok_step.
  rewrite (at_ok _ _ _ (proj1 Hmy) (c_nvs_my s1 H1)). ok_step. cbn [Assert]. ok_step.
  rewrite put_in by (rewrite c_nvs_len by done; lia). ok_step. cbv zeta.
  rewrite (list_insert_id (newViewMessages s1)) by (by apply c_nvs_my).
  assert (move_post s v false (set_nv s1 (newViewMessages s1))) as Hfalse.
  { constructor; try done. apply core_set_nv; [done|by apply c_nvs_len|by apply c_nvs_my|by apply c_nvs]. }
  change (viewChangeMessages (set_nv s1 (newViewMessages s1))) with (viewChangeMessages s1).
  destruct (chosen_spec s1 v m H1 Hm1 Hmv) as (Hs & Hnd & Hl & Hids).
  set (ids := insertSorted myId _) in *.
  case_match eqn:El; [by eauto|]. bool_to_prop.
  assert (Z.of_nat (length ids) = SMAJOR) as Hlen by lia. rewrite Hlen, Z.eqb_refl. cbn [Assert]. ok_step.
  change (viewChangeMsgsOfPendingView (set_nv _ _)) with (viewChangeMsgsOfPendingView s1).
  pose proof (ids_movable s1 (fun _ m => vm_newView m = v) ids H1 R1 Hids) as Hmov.
  assert (∀ i m, i ∈ ids → viewChangeMessages s1 !! Z.to_nat i = Some (Some m) → vm_newView m = v) as Hall.
  { intros i m' Hi Hvc. destruct (Hids i Hi) as (_ & m2 & ? & ?). congruence. }
  destruct (moveChosen_eq msgDigest v ids (viewChangeMessages s1) (viewChangeMsgsOfPendingView s1) [])
    as (vcs' & pend' & elems' & -> & E2 & Hel); [done|done|simpl; destruct Hwf; lia|done|done|].
  destruct (moveRelated_spec ids (viewChangeMessages s1) (viewChangeMsgsOfPendingView s1) Hnd Hmov)
    as (vcs2 & pend2 & E3 & Hm2). rewrite E2 in E3. injection E3 as <- <-.
  ok_step. change (newViewMsgOfOfPendingView (set_nv _ _)) with (newViewMsgOfOfPendingView s1).
  rewrite R1. rewrite bool_decide_eq_true_2 by done. cbn [Assert]. ok_step.
  do 2 eexists. split; [done|].
  edestruct (core_moved s1 v ids) as (K1 & K2 & K3); [..|constructor; [exact K1|done..|by rewrite <- R8|by split_and!]]; try done;
    [congruence|by apply c_nvs_len|by apply c_nvs_my|by apply c_nvs].
Qed.

(** ** The pending view and its restrictions *)
Lemma pendingVCs_present s : present (pendingVCs s) = vm_vc <$> present (viewChangeMsgsOfPendingView s).
Proof.
  unfold pendingVCs. induction (viewChangeMsgsOfPendingView s) as [|[m|] l IH]; [done| |done].
  cbn [map option_map]. by rewrite !present_some, fmap_cons, IH.
Qed.

Lemma Forall_present {A} (P : A → Prop) (l : list (option A)) :
  (∀ i x, l !! i = Some (Some x) → P x) → Forall P (present l).
Proof.
  intros H. apply Forall_forall. intros x (o & [i Hi]%list_elem_of_lookup & Ho)%list_elem_of_omap.
  simpl in Ho. subst o. by eapply H.
Qed.

Lemma pending_ok s nv : core s → newViewMsgOfOfPendingView s = Some nv →
  Z.of_nat (length (present (pendingVCs s))) = 2 * F + 2 * C + 1 ∧ Forall vc_legal (present (pendingVCs s)).
Proof.
  intros H Hn. pose proof (c_nv s H) as Hc. rewrite Hn in Hc. destruct Hc as [_ Hc].
  rewrite pendingVCs_present, length_fmap, Hc, SMAJOR_eq by done. split; [done|].
  apply Forall_fmap, Forall_present. intros i m [[_ ?] _]%(c_pend s H). done.
Qed.

(** A state in which only the restrictions and their messages changed. *)
Definition with_restrictions (s : t) (mn mx : Z) (rs : list Restriction) (pps : list (option Z)) : t :=
  set_pps (set_restr s mn mx rs) (collectionOfPrePrepareMsgs s) pps (heap s) (nextAddr s).

Lemma computeRestrictionsOfNewView_spec s : core s → stat s = PENDING →
  newViewMsgOfOfPendingView s ≠ None → minRestrictionOfPendingView s = 0 →
  ∃ mn mx rs pps, let s' := with_restrictions s mn mx rs pps in
    computeRestrictionsOfNewView info verify nullDigest s (myLatestPendingView s) = Ok s' ∧
    core s' ∧ restricted s' ∧ (∀ a, owns s' a ↔ owns s a).
Proof.
  intros H Hst Hnv Hmin. destruct (newViewMsgOfOfPendingView s) as [nv|] eqn:En; [|done].
  destruct (pending_ok s nv H En) as [Hlen Hall]. pose proof (c_nv s H) as Hc. rewrite En in Hc.
  destruct (computeRestrictions_entries F C verify nullDigest (pendingVCs s) (lowerBoundStableForPendingView s)
    (restrictionsOfPendingView s)) as (rs & mn & mx & Ecr & Hrl & Hrange & _).
  { done. }
  { by apply c_lb. }
  { by rewrite c_rs_len. }
  pose proof (c_rs_len s H) as Hrs. rewrite Hrs in Hrl. pose proof (c_lb s H) as Hlb.
  pose proof (no_slots s H Hmin) as Hno.
  assert (pps_ok mn rs (prePrepareMsgsOfRestrictions s) (heap s)) as HP.
  { intros i a _ Ha. destruct (Hno a). apply list_elem_of_lookup. eauto. }
  assert (∃ pps, (if negb (mn =? 0) then
      fillPPs (Z.to_nat (mx - mn + 1)) mn mn (collectionOfPrePrepareMsgs s) (heap s) rs (prePrepareMsgsOfRestrictions s)
      else Ok (prePrepareMsgsOfRestrictions s)) = Ok pps ∧ length pps = 300%nat ∧ pps_ok mn rs pps (heap s) ∧
      (∀ a, Some a ∈ pps → a ∈ (map_to_list (collectionOfPrePrepareMsgs s)).*2) ∧
      (∀ j a, mn <= j → pps !! Z.to_nat (j - mn) = Some (Some a) → mn ≠ 0 ∧ j <= mx)) as (pps & E & Hpl & HP' & Hsub & Hslots).
  { case_match eqn:Em; bool_to_prop.
    - destruct (fillPPs_spec mn rs (collectionOfPrePrepareMsgs s) (heap s) Hrl (c_coll s H) (Z.to_nat (mx - mn + 1)) mn
        (prePrepareMsgsOfRestrictions s)) as (pps & -> & Hl & HP' & Hsub & Hrest); [done|lia|by apply c_pps_len|done| |].
      { intros j ?. apply lookup_none_elem; [done|]. rewrite c_pps_len by done. lia. }
      exists pps. split_and!; [done..| |].
      + intros a [?|?]%Hsub; [by destruct (Hno a)|done].
      + intros j a Hj Ha. split; [done|]. destruct (decide (j <= mx)); [done|]. rewrite Hrest in Ha by lia.
        destruct (Hno a). apply list_elem_of_lookup. eauto.
    - exists (prePrepareMsgsOfRestrictions s). split_and!; [done|by apply c_pps_len|done|intros a ?; by destruct (Hno a)|].
      intros j a _ Ha. destruct (Hno a). apply list_elem_of_lookup. eauto. }
  exists mn, mx, rs, pps. split_and!.
  - unfold computeRestrictionsOfNewView. rewrite Hst, En, (proj1 Hc), Z.eqb_refl.
    rewrite bool_decide_eq_true_2 by done. cbn [Assert]. do 3 ok_step.
    rewrite Ecr. ok_step. cbn. case_match; [by rewrite E|]. injection E as <-. by destruct s.
  - destruct H. constructor; simpl; try done; [lia|]. by rewrite En.
  - exists (restrictionsOfPendingView s). done.
  - intros a. unfold owns, owned. simpl. split; [intros [?%Hsub|?]; by right|intros [?|?]; [by destruct (Hno a)|by right]].
Qed.

(** ** Entering the view *)

(** What [tryToEnterView] needs of its caller to try the view [v]. *)
Definition my_vote_ready (s : t) (v : Z) : Prop := ∃ m, myVC s = Some m ∧ vm_newView m = v.

(** The numbers for which a message of the new view is handed out. *)
Definition relevant (s : t) (currentLastStable : Z) : list Z :=
  let mn := minRestrictionOfPendingView s in
  let mx := maxRestrictionOfPendingView s in
  if mn =? 0 then []
  else let first := Z.min (mx + 1) (Z.max mn (currentLastStable + 1)) in seqZ first (mx - first + 1).

(** [out] has, for every relevant number, the message its restriction asks for. *)
Definition out_ok (s : t) (v currentLastStable : Z) (h : gmap Z PP) (out : list Z) : Prop :=
  Forall2 (fun j a => ∃ r, restrictionsOfPendingView s !! Z.to_nat (j - minRestrictionOfPendingView s) = Some r ∧
    live h a (entered nullDigest v j r)) (relevant s currentLastStable) out.

(** Nothing is missing from the relevant numbers. *)
Definition complete (s : t) (currentLastStable : Z) : Prop :=
  ∀ j, j ∈ relevant s currentLastStable →
    ¬ missing (minRestrictionOfPendingView s) (restrictionsOfPendingView s) (prePrepareMsgsOfRestrictions s) j.

Record fill_post (s : t) (v cls : Z) (out : list Z) (coll : gmap Z Z) (pps : list (option Z))
    (h : gmap Z PP) (next : Z) : Prop := {
  f_out : out_ok s v cls h out;
  f_pps : length pps = 300%nat ∧ ∀ a, Some a ∉ pps;
  f_coll : coll_ok coll h;
  f_fresh : fresh h next;
  f_disjoint : ∀ a, a ∈ out → a ∉ (map_to_list coll).*2;
  f_heap : ∀ a, a ∉ out → a ∉ (map_to_list coll).*2 →
    h !! a = if decide (owns s a) then None else heap s !! a;
  f_owned : ∀ a, a ∈ (map_to_list coll).*2 → owns s a;
}.

Lemma fill_nothing s v cls : core s → minRestrictionOfPendingView s = 0 →
  fill_post s v cls [] (collectionOfPrePrepareMsgs s) (prePrepareMsgsOfRestrictions s) (heap s) (nextAddr s).
Proof.
  intros H Hm. constructor.
  - unfold out_ok, relevant. rewrite Hm. constructor.
  - split; [by apply c_pps_len|by apply no_slots].
  - by apply c_coll.
  - by apply c_fresh.
  - by intros a ?%elem_of_nil.
  - intros a _ Ha. rewrite decide_False; [done|]. intros [?|?]; [by eapply no_slots|done].
  - intros a Ha. by right.
Qed.

Lemma fillMsgsOfView_spec s v cls : core s → complete s cls →
  ∃ out coll pps h next, fillMsgsOfView nullDigest s v cls = Ok (out, coll, pps, h, next) ∧
    fill_post s v cls out coll pps h next.
Proof.
  intros H Hcomp. unfold fillMsgsOfView. unfold complete, relevant in Hcomp.
  destruct (minRestrictionOfPendingView s =? 0) eqn:Em; bool_to_prop.
  { do 5 eexists. split; [done|]. by apply fill_nothing. }
  cbn [negb]. destruct (c_range s H) as [?|[? ?]]; [lia|].
  set (mn := minRestrictionOfPendingView s) in *. set (mx := maxRestrictionOfPendingView s) in *.
  set (first := Z.min (mx + 1) (Z.max mn (cls + 1))) in *.
  set (coll := collectionOfPrePrepareMsgs s). pose proof (c_pps_len s H) as Hpl. pose proof (c_rs_len s H) as Hrl.
  destruct (dropOld_spec mn (restrictionsOfPendingView s) coll (Z.to_nat (first - mn)) mn
    (prePrepareMsgsOfRestrictions s) (heap s)) as (pps1 & h1 & -> & Hc1 & HR1);
    [done|lia|done|done|by apply c_pps|by apply c_coll|]. ok_step.
  pose proof (released_pps_ok _ _ _ _ _ _ _ _ _ Hc1 HR1 (c_pps s H)) as HP1.
  pose proof (released_coll_ok _ _ _ _ _ HR1 (c_coll s H)) as HC1.
  assert (fresh h1 (nextAddr s)) as Hf1.
  { eapply released_fresh; [..|exact HR1|by apply c_fresh]; intros a; unfold owned; apply _. }
  replace (mn + Z.of_nat (Z.to_nat (first - mn))) with first in Hc1 by lia.
  destruct (fillOut_spec nullDigest mn v (restrictionsOfPendingView s) Hrl (Z.to_nat (mx - first + 1)) first coll pps1 h1 (nextAddr s))
    as (out & coll' & pps' & h' & next' & -> & [F1 F2 F3 F4 F5 F5' [F6 _]]); [lia|lia|by rewrite (proj1 Hc1)|done..| |].
  { intros j r Hj Hr Hnull. rewrite (proj2 Hc1) by lia. rewrite decide_False by lia.
    destruct (lookup_lt_is_Some_2 (prePrepareMsgsOfRestrictions s) (Z.to_nat (j - mn))) as [[a|] Ea]; [lia|by eauto|].
    destruct (Hcomp j); [apply elem_of_seqZ; lia|]. by exists r. }
  replace (first + Z.of_nat (Z.to_nat (mx - first + 1))) with (mx + 1) in * by lia.
  rewrite Z2Nat.id in F1 by lia. do 5 eexists. split; [done|].
  assert (∀ a, a ∈ (map_to_list coll').*2 ↔ a ∈ (map_to_list coll).*2 ∧ a ∉ out) as Hcoll.
  { intros a. rewrite !elem_coll. setoid_rewrite F3. naive_solver. }
  assert (∀ j a, mn <= j → pps1 !! Z.to_nat (j - mn) = Some (Some a) → first <= j < mx + 1) as Hrange.
  { intros j a Hj. rewrite (proj2 Hc1) by done. case_decide as Ed; [done|]. intros Ha.
    pose proof (lookup_lt_Some _ _ _ Ha). destruct (c_slots s H j a Hj Ha) as [_ Hle]. fold mx in Hle. lia. }
  assert (∀ a, Some a ∈ pps1 → a ∈ out) as Hpps1.
  { intros a [k Hk]%list_elem_of_lookup.
    replace k with (Z.to_nat (mn + Z.of_nat k - mn)) in Hk by lia. eapply F5'; [|exact Hk].
    eapply Hrange; [lia|exact Hk]. }
  constructor.
  - unfold out_ok, relevant. fold mn mx. rewrite (proj2 (Z.eqb_neq _ _)) by done. exact F1.
  - split; [by rewrite (proj1 F2), (proj1 Hc1)|]. eapply cleared_none; [|exact F2|done]. lia.
  - intros k a [Hk Ha]%F3. destruct (HC1 k a Hk) as (pp & ? & ?). exists pp. by rewrite F4.
  - done.
  - intros a Ha [_ ?]%Hcoll. done.
  - intros a Ha Hn. rewrite F4 by done. case_decide as Ho.
    + apply (rel_freed _ _ _ _ HR1); [done|]. intros [?%Hpps1|?]; [done|]. apply Hn, Hcoll. done.
    + by apply (rel_frame _ _ _ _ HR1).
  - intros a [? _]%Hcoll. by right.
Qed.

Lemma Forall2_impl_in {A B} (P Q : A → B → Prop) l k : Forall2 P l k →
  (∀ x y, y ∈ k → P x y → Q x y) → Forall2 Q l k.
Proof.
  induction 1 as [|x y l k Hxy _ IH]; intros HQ; constructor; [apply HQ; [left|done]|].
  apply IH. intros. apply HQ; [by right|done].
Qed.

Lemma mine_ok_mono a b m : a <= b → mine_ok a m → mine_ok b m.
Proof. intros ? H. eapply Forall_impl; [exact H|]. intros e [? ?]. split; [lia|done]. Qed.

Lemma enterView_spec s cls : core s → restricted s → newViewMsgOfOfPendingView s ≠ None →
  my_vote_ready s (myLatestPendingView s) → complete s cls →
  ∃ out s', enterView nullDigest s (myLatestPendingView s) cls = Ok (out, s') ∧ inv s' ∧
    accounted s s' out ∧ out_ok s' (myLatestPendingView s) cls (heap s') out ∧
    stat s' = IN_VIEW ∧ myLatestActiveView s' = myLatestPendingView s ∧
    newViewMsgOfOfPendingView s' ≠ None ∧ restricted s' ∧ myVC s' = myVC s ∧
    lowerBoundStableForPendingView s' = lowerBoundStableForPendingView s.
Proof.
  intros H Hres Hnv Hmy Hcomp. unfold enterView.
  destruct (fillMsgsOfView_spec s (myLatestPendingView s) cls H Hcomp) as (out & coll & pps & h & next & -> & [F1 [F2 F2'] F3 F4 F5 F6 F7]).
  ok_step. destruct (freeAll_spec coll h F3) as (h' & -> & Hh'). ok_step.
  do 2 eexists. split; [done|].
  assert (∀ a, Some a ∉ pps) as Hno by done.
  assert (∀ P j a, pps !! j = Some (Some a) → P) as Hno'.
  { intros P j a ?. destruct (Hno a). apply list_elem_of_lookup. eauto. }
  split_and!; [split| | |done..].
  - pose proof (c_views s H). destruct H. constructor; simpl; try done; try lia.
    + intros m Hm. eapply mine_ok_mono; [|by apply c_mine0]. lia.
    + intros j a _. apply Hno'.
    + intros j a _. apply Hno'.
    + intros a. rewrite Hh'. case_decide; [by intros []|apply F4].
  - simpl. split_and!; [done|done|done|by right|done].
  - split.
    + intros a [?|[k Hk]%elem_coll]; [by destruct (Hno a)|done].
    + intros a Ha _. simpl. rewrite Hh'. case_decide as E; [rewrite decide_True; [done|by apply F7]|by apply F6].
  - eapply Forall2_impl_in; [exact F1|].
    intros j a Ha%F5 (r & Hr & pp & Hpp & He). exists r. split; [done|].
    exists pp. split; [|done]. simpl. by rewrite Hh', decide_False.
Qed.

(** ** Trying to enter a view *)
Lemma core_set_stat s x : core s → core (set_stat s x).
Proof. intros []. by constructor. Qed.
Lemma core_set_bounds s lb known passed : core s → 0 <= lb → core (set_bounds s lb known passed).
Proof. intros [] ?. by constructor. Qed.

Lemma elem_relevant s cls j : j ∈ relevant s cls ↔
  minRestrictionOfPendingView s ≠ 0 ∧
  Z.max (minRestrictionOfPendingView s) (cls + 1) <= j <= maxRestrictionOfPendingView s.
Proof.
  clear -s. unfold relevant. destruct (Z.eqb_spec (minRestrictionOfPendingView s) 0); [rewrite elem_of_nil; tauto|].
  rewrite elem_of_seqZ. lia.
Qed.

Lemma hasMissingMsgs_spec s cls : core s → stat s = PENDING_WITH_RESTRICTIONS →
  ∃ b, hasMissingMsgs s cls = Ok b ∧ (b = false ↔ complete s cls).
Proof.
  clear Hwf HFC HN Hdig msgDigest verify nullDigest mySigLength. intros H Hst. unfold hasMissingMsgs. rewrite Hst. rewrite bool_decide_eq_true_2 by done. cbn [Assert]. ok_step.
  unfold complete. setoid_rewrite elem_relevant.
  case_match eqn:E; bool_to_prop; [exists false; split; [done|]; naive_solver|].
  destruct (c_range s H) as [?|[? ?]]; [lia|].
  set (mn := minRestrictionOfPendingView s) in *. set (mx := maxRestrictionOfPendingView s) in *.
  destruct (decide (Z.max mn (cls + 1) <= mx)).
  2: { replace (Z.to_nat (mx - Z.max mn (cls + 1) + 1)) with 0%nat by lia. exists false. split; [done|].
       split; [|done]. intros _ j ?. lia. }
  destruct (anyMissing_spec mn _ _ (c_rs_len s H) (c_pps_len s H) (Z.to_nat (mx - Z.max mn (cls + 1) + 1)) (Z.max mn (cls + 1)))
    as (b & Hb & Hiff); [lia|lia|].
  exists b. split; [done|]. rewrite <- not_true_iff_false, Hiff. split.
  - intros Hn j [_ ?] Hm. apply Hn. exists j. split; [lia|done].
  - intros Hn (j & ? & ?). apply (Hn j); [lia|done].
Qed.

Lemma released_accounted s s' : released (owns s) (owns s') (heap s) (heap s') → accounted s s' [].
Proof.
  intros HR. split; [intros; apply not_elem_of_nil|]. intros a _ Hn. case_decide.
  - by apply (rel_freed _ _ _ _ HR).
  - by apply (rel_frame _ _ _ _ HR).
Qed.

Lemma newPendingView_spec s v cls : core s → myLatestPendingView s < v → my_vote_ready s v →
  ∃ b s', newPendingView info msgDigest s v cls = Ok (b, s') ∧ inv s' ∧
    released (owns s) (owns s') (heap s) (heap s') ∧ stat s' ≠ IN_VIEW ∧
    myLatestActiveView s' = myLatestActiveView s ∧ myVC s' = myVC s ∧
    if b then stat s' = PENDING ∧ myLatestPendingView s' = v ∧ lowerBoundStableForPendingView s' <= cls
    else stat s' = NO_VIEW ∨ cls < lowerBoundStableForPendingView s'.
Proof.
  intros H Hv Hmy. unfold newPendingView. pose proof (core_set_stat s NO_VIEW H) as H0. cbv zeta.
  assert (∃ b s1, (if ReplicasInfo.primaryOfView info v =? myId
    then tryMoveToPendingViewAsPrimary info msgDigest (set_stat s NO_VIEW) v
    else tryMoveToPendingViewAsNonPrimary info msgDigest (set_stat s NO_VIEW) v) = Ok (b, s1) ∧
    move_post (set_stat s NO_VIEW) v b s1) as (b & s1 & -> & [M1 M2 M3 M4 M5 M6 M7 M8]).
  { case_match eqn:E; bool_to_prop; [|by apply moveAsNonPrimary_spec].
    destruct Hmy as (m & ? & ?). by eapply moveAsPrimary_spec. }
  ok_step. destruct b; cbn [negb].
  - destruct M8 as (Hnv & Hp & Hall'). destruct (newViewMsgOfOfPendingView s1) as [nv|] eqn:En; [|done].
    destruct (pending_ok s1 nv M1 En) as [Hlen Hall]. pose proof (ReplicasInfo.wf_f _ Hwf). pose proof (ReplicasInfo.wf_c _ Hwf).
    pose proof (c_lb s1 M1).
    destruct (calcLB_lookup F C ltac:(lia) ltac:(lia) ltac:(destruct Hwf; lia) (pendingVCs s1) v) as (t1 & -> & _);
      [done|rewrite pendingVCs_present; by apply Forall_fmap, Forall_present|]. ok_step.
    do 2 eexists. split; [done|]. split_and!; try done.
    + split; [|unfold stat_ok; simpl; by rewrite En]. apply core_set_stat, core_set_bounds; [done|lia].
    + simpl. destruct (Z.ltb_spec cls (Z.max t1 (Z.max cls (lowerBoundStableForPendingView s1)))); simpl; [by right|].
      split_and!; [done|done|lia].
  - destruct M8 as [Hnv Hp]. do 2 eexists. split; [done|]. split_and!; try done.
    + split; [done|]. unfold stat_ok. by rewrite M2.
    + by rewrite M2.
    + left. by rewrite M2.
Qed.

Lemma released_then_accounted s s1 s2 out : released (owns s) (owns s1) (heap s) (heap s1) →
  accounted s1 s2 out → accounted s s2 out.
Proof.
  intros HR [H1 H2]. split; [done|]. intros a Ha Hn. rewrite H2 by done.
  destruct (decide (owns s1 a)) as [E|E]; [rewrite decide_True; [done|by apply (rel_sub _ _ _ _ HR)]|].
  case_decide; [by apply (rel_freed _ _ _ _ HR)|by apply (rel_frame _ _ _ _ HR)].
Qed.

(** The outcome of trying to enter the view [v]. *)
Record enter_post (s : t) (v cls cle : Z) (b : bool) (out : list Z) (s' : t) : Prop := {
  e_inv : inv s';
  e_accounted : accounted s s' out;
  e_result : if b then
      stat s' = IN_VIEW ∧ myLatestActiveView s' = v ∧ myLatestPendingView s' = v ∧
      newViewMsgOfOfPendingView s' ≠ None ∧ restricted s' ∧
      lowerBoundStableForPendingView s' <= cls <= cle ∧ out_ok s' v cls (heap s') out
    else
      out = [] ∧ stat s' ≠ IN_VIEW ∧ myLatestActiveView s' = myLatestActiveView s ∧
      (cle < cls ∨ cls < lowerBoundStableForPendingView s' ∨ stat s' = NO_VIEW ∨
       (stat s' = PENDING_WITH_RESTRICTIONS ∧ ¬ complete s' cls));
}.

Lemma released_same s s' : (∀ a, owns s' a ↔ owns s a) → heap s' = heap s →
  released (owns s) (owns s') (heap s) (heap s').
Proof. intros Ho ->. constructor; try done; intros a; rewrite Ho; tauto. Qed.

Lemma enterRestricted_spec s cls cle : inv s → stat s = PENDING_WITH_RESTRICTIONS →
  my_vote_ready s (myLatestPendingView s) → lowerBoundStableForPendingView s <= cls <= cle →
  ∃ b out s', (missing ← hasMissingMsgs s cls;
      if (missing : bool) then Ok (false, [], s)
      else '(out, s) ← enterView nullDigest s (myLatestPendingView s) cls; Ok (true, out, s)) = Ok (b, out, s') ∧
    enter_post s (myLatestPendingView s) cls cle b out s'.
Proof.
  intros [H Hs] Hst Hmy Hlb. pose proof Hs as Hs'. unfold stat_ok in Hs. rewrite Hst in Hs. destruct Hs as [Hnv Hres].
  destruct (hasMissingMsgs_spec s cls H Hst) as (b & -> & Hb). ok_step. destruct b.
  - do 3 eexists. split; [done|]. constructor; [done|by apply released_accounted, released_refl|].
    split_and!; [done|by rewrite Hst|done|]. right; right; right. split; [done|]. intros Hc%Hb. done.
  - destruct (enterView_spec s cls H Hres Hnv Hmy) as (out & s' & -> & Hi & Ha & Ho & Hs1 & Hs2 & Hn' & Hr' & Hm' & Hs3); [by apply Hb|].
    ok_step. do 3 eexists. split; [done|]. constructor; [done|done|].
    pose proof Hi as [Hc' Hst']. unfold stat_ok in Hst'. rewrite Hs1 in Hst'. destruct Hst' as (_ & _ & Hv & _).
    split_and!; [done|done|congruence|done|done|lia|lia|done].
Qed.

(** Weakening the starting state of an outcome. *)
Lemma enter_post_from s s1 v cls cle b out s' : released (owns s) (owns s1) (heap s) (heap s1) →
  myLatestActiveView s1 = myLatestActiveView s →
  enter_post s1 v cls cle b out s' → enter_post s v cls cle b out s'.
Proof.
  intros HR Ha [E1 E2 E3]. constructor; [done|by eapply released_then_accounted|].
  destruct b; [done|]. by rewrite <- Ha.
Qed.

Lemma enterPendingView_spec s cls cle : inv s → stat s ≠ IN_VIEW →
  my_vote_ready s (myLatestPendingView s) → lowerBoundStableForPendingView s <= cls <= cle →
  ∃ b out s', enterPendingView info verify nullDigest s (myLatestPendingView s) cls = Ok (b, out, s') ∧
    enter_post s (myLatestPendingView s) cls cle b out s'.
Proof.
  intros [H Hs] Hin Hmy Hlb. unfold enterPendingView. rewrite Z.eqb_refl. cbn [Assert]. ok_step.
  unfold stat_ok in Hs. destruct (stat s) eqn:Est; [| | |done].
  - rewrite bool_decide_eq_false_2 by done. ok_step. rewrite Est. rewrite bool_decide_eq_false_2 by done. cbn [negb]. ok_step.
    do 3 eexists. split; [done|]. constructor; [split; [done|by unfold stat_ok; rewrite Est]|by apply released_accounted, released_refl|].
    split_and!; [done|by rewrite Est|done|by auto].
  - destruct Hs as [Hnv Hmin]. rewrite bool_decide_eq_true_2 by done.
    destruct (computeRestrictionsOfNewView_spec s H Est Hnv Hmin) as (mn & mx & rs & pps & -> & Hc & Hr & Ho).
    do 2 ok_step. set (s1 := set_stat (with_restrictions s mn mx rs pps) PENDING_WITH_RESTRICTIONS).
    destruct (enterRestricted_spec s1 cls cle) as (b & out & s' & E & HE); [split; [by apply core_set_stat|done]|done|done|done|].
    do 3 eexists. split; [exact E|]. eapply (enter_post_from s s1); [|done|exact HE]. by apply released_same.
  - rewrite bool_decide_eq_false_2 by done. ok_step. rewrite Est. rewrite bool_decide_eq_true_2 by done. cbn [negb].
    apply enterRestricted_spec; [split; [done|by unfold stat_ok; rewrite Est]|done|done|done].
Qed.

Lemma tryToEnterView_post s v cls cle : inv s → stat s ≠ IN_VIEW →
  myLatestActiveView s < v → myLatestPendingView s <= v →
  debugHighestViewNumberPassedByClient s <= v → debugHighestKnownStable s <= cls → my_vote_ready s v →
  ∃ b out s', tryToEnterView info msgDigest verify nullDigest s v cls cle = Ok (b, out, s') ∧
    enter_post s v cls cle b out s'.
Proof.
  intros [H Hs] Hin Ha Hp Hd1 Hd2 Hmy. unfold tryToEnterView, inView.
  rewrite bool_decide_eq_false_2 by done. rewrite (proj2 (Z.ltb_lt _ _) Ha), (proj2 (Z.leb_le _ _) Hp).
  rewrite (proj2 (Z.leb_le _ _) Hd1), (proj2 (Z.leb_le _ _) Hd2). cbn [Assert negb andb]. do 4 ok_step. cbv zeta.
  set (s0 := set_bounds s (lowerBoundStableForPendingView s) cls v).
  assert (inv s0) as Hi0 by (split; [apply core_set_bounds; [done|by apply c_lb]|done]).
  assert (released (owns s) (owns s0) (heap s) (heap s0)) as HR0 by apply released_refl.
  case_match eqn:E1; bool_to_prop.
  { do 3 eexists. split; [done|]. constructor; [done|by apply released_accounted|]. split_and!; [done..|by auto]. }
  case_match eqn:E2; bool_to_prop.
  { do 3 eexists. split; [done|]. constructor; [done|by apply released_accounted|]. split_and!; [done..|by auto]. }
  case_match eqn:E3; bool_to_prop.
  - destruct (newPendingView_spec s0 v cls (proj1 Hi0)) as (b & s1 & -> & Hi1 & HR1 & Hst1 & Ha1 & Hm1 & Hb); [done|done|].
    ok_step. destruct b; cbn [negb].
    + destruct Hb as (Hst & Hp1 & Hlb).
      destruct (enterPendingView_spec s1 cls cle Hi1 Hst1) as (b & out & s' & E & HE);
        [by unfold my_vote_ready; rewrite Hm1, Hp1|lia|]. rewrite Hp1 in E, HE.
      do 3 eexists. split; [exact E|]. eapply (enter_post_from s s1); [exact HR1|done|done].
    + do 3 eexists. split; [done|]. constructor; [done|by apply released_accounted|].
      split_and!; [done..|]. destruct Hb; auto.
  - ok_step. cbn [negb]. assert (myLatestPendingView s0 = v) as Hv by (simpl in *; lia).
    destruct (enterPendingView_spec s0 cls cle Hi0 Hin) as (b & out & s' & E & HE); [by rewrite Hv|lia|]. rewrite Hv in E, HE.
    do 3 eexists. split; [exact E|]. eapply (enter_post_from s s0); [exact HR0|done|done].
Qed.
End inv.
End ViewsManagerSafety.
