(* ===== verification/ViewsManagerExit.v ===== *)
(** * Leaving a view (ViewsManager::exitFromCurrentView)

    The view-change message that a replica builds when it leaves a view reports
    every prepared certificate of the view and every pre-prepare message it holds
    completely; the pre-prepare messages are kept for the next views or
    deallocated, each exactly once. *)
From S2P Require Import Prelude SysConsts Digest ReplicasInfo ViewChangeMsg ViewChangeSafety ViewsManager ViewsManagerFacts ViewsManagerSafety.

Module ViewsManagerExit.
Export ViewsManagerSafety.

Section exit.
Context (info : ReplicasInfo.t) (mySigLength maxSig : Z).
Context (Hmax : 0 <= maxSig) (Hmy : 0 <= mySigLength)
        (Hsize : 24 + 300 * (59 + maxSig) + mySigLength <= maxExternalMessageSize).
Context (s : t) (cls cle : Z).
#[local] Abbreviation active := (myLatestActiveView s).

(** What the caller passes for one sequence number. *)
Record item_ok (h : gmap Z PP) (it : PrevViewInfo) (x : Z * PP) : Prop := {
  it_pp : prePrepare it = Some x.1;
  it_live : h !! x.1 = Some x.2;
  it_view : pp_view x.2 = active;
  it_seq : lowerBoundStableForPendingView s < pp_seq x.2 ∧ cls < pp_seq x.2 <= cls + 300;
  it_full : ∀ pf, prepareFull it = Some pf → hasAllRequests it = true ∧
    pf_seq pf = pp_seq x.2 ∧ pf_view pf = active ∧ pf_sig pf ≠ [] ∧ Z.of_nat (length (pf_sig pf)) <= maxSig;
  it_exec : hasAllRequests it = false → cle < pp_seq x.2 ∨ pp_null x.2 = true;
}.

Definition elem_legal (e : Element) : Prop :=
  mine_elem maxSig active e ∧ ∀ cv sg, e_certificate e = Some (cv, sg) → sg ≠ [].

(** The elements built so far, up to the number [last]. *)
Record elems_ok (last : Z) (n : Z) (es : list Element) : Prop := {
  el_sorted : StronglySorted seq_lt es;
  el_last : Forall (fun e => e_seqNum e <= last) es;
  el_legal : Forall elem_legal es;
  el_count : Z.of_nat (length es) <= n;
}.

Lemma elem_len_le e : elem_legal e → 49 <= ViewChangeMsg.elem_len e <= 59 + maxSig.
Proof.
  intros [[_ H] _]. unfold ViewChangeMsg.elem_len, ViewChangeMsg.cert_len, ViewChangeMsg.sizeof_Element,
    ViewChangeMsg.sizeof_PreparedCertificate. destruct (e_certificate e) as [[cv sg]|]; [|lia].
  destruct (H cv sg eq_refl). lia.
Qed.

Lemma locationAfter_le es : Forall elem_legal es →
  24 <= locationAfter es <= 24 + Z.of_nat (length es) * (59 + maxSig).
Proof.
  unfold locationAfter. induction 1 as [|e es He _ IH]; cbn [foldr length]; [unfold ViewChangeMsg.sizeof_Header; lia|].
  apply elem_len_le in He. lia.
Qed.

Lemma addElement_spec last n es e : elems_ok last n es → n < 300 → last < e_seqNum e →
  cls < e_seqNum e <= cls + 300 → elem_legal e →
  addElement mySigLength cls es e = Ok (es ++ [e]) ∧ elems_ok (e_seqNum e) (n + 1) (es ++ [e]).
Proof.
  intros [E1 E2 E3 E4] Hn Hlast Hs He. split.
  - unfold addElement, kWorkWindowSize. rewrite (proj2 (Z.ltb_lt (Z.of_nat (length es)) _)), (proj2 (Z.ltb_lt cls _)), (proj2 (Z.leb_le (e_seqNum e) _)) by lia.
    cbn [Assert]. do 3 ok_step. pose proof (locationAfter_le es E3) as Hloc. pose proof (elem_len_le e He) as Hel.
    unfold ViewChangeMsg.elem_len, ViewChangeMsg.cert_len, ViewChangeMsg.sizeof_Element,
      ViewChangeMsg.sizeof_PreparedCertificate in *. unfold maxExternalMessageSize in *.
    assert (locationAfter es <= 24 + 299 * (59 + maxSig)) by nia.
    destruct (e_certificate e) as [[cv sg]|]; rewrite ?u16_small by (rewrite ?u16_small by lia; lia);
      rewrite (proj2 (Z.leb_le _ _)) by lia; done.
  - constructor.
    + apply StronglySorted_app. split_and!; [|done|repeat constructor].
      intros a b Ha ->%list_elem_of_singleton. rewrite Forall_forall in E2. apply E2 in Ha. unfold seq_lt. lia.
    + apply Forall_app. split; [eapply Forall_impl; [exact E2|]; simpl; lia|]. by repeat constructor.
    + apply Forall_app. split; [done|]. by apply Forall_singleton.
    + rewrite length_app. simpl. lia.
Qed.

Lemma goToAtLeast_Forall (P : Element → Prop) sq es : Forall P es → Forall P (goToAtLeast sq es).
Proof. induction 1; simpl; [constructor|]. case_match; [done|]. by constructor. Qed.

Lemma previousCertificate_spec sq d it : Forall elem_legal it →
  ∃ c it', previousCertificate active sq d it = Ok (c, it') ∧ Forall elem_legal it' ∧
    ∀ cv sg, c = Some (cv, sg) → cv <= active ∧ sg ≠ [] ∧ Z.of_nat (length sg) <= maxSig.
Proof.
  intros H. unfold previousCertificate. destruct it as [|e0 it0] eqn:E0; [do 2 eexists; split_and!; done|]. rewrite <- E0 in *. clear E0.
  pose proof (goToAtLeast_Forall elem_legal sq it H) as H'. destruct (goToAtLeast sq it) as [|e rest]; [do 2 eexists; split_and!; done|].
  pose proof (Forall_inv H') as [[Ho Hc] Hn].
  destruct (e_certificate e) as [[cv sg]|] eqn:Ec; [|do 2 eexists; split_and!; done].
  case_match; [|do 2 eexists; split_and!; done]. destruct (Hc cv sg eq_refl) as [? ?].
  rewrite !(proj2 (Z.leb_le _ _)) by lia. cbn [Assert]. do 2 ok_step.
  do 2 eexists. split_and!; [done|done|]. intros ? ? [= <- <-]. split_and!; [lia| |done]. by eapply Hn.
Qed.

(** Whether the message is kept for the next views. *)
Definition kept (it : PrevViewInfo) (pp : PP) : bool := hasAllRequests it && negb (pp_null pp).

(** What the new elements report of one number. *)
Definition reports (it : PrevViewInfo) (pp : PP) (es : list Element) : Prop :=
  (∀ pf, prepareFull it = Some pf →
     mkElement (pp_seq pp) (pp_digest pp) active (Some (active, pf_sig pf)) ∈ es) ∧
  (kept it pp = true → ∃ c, mkElement (pp_seq pp) (pp_digest pp) active c ∈ es).

Lemma exitElement_spec h it a pp c es last n : item_ok h it (a, pp) → elems_ok last n es → n < 300 →
  last < pp_seq pp →
  (∀ cv sg, c = Some (cv, sg) → cv <= active ∧ sg ≠ [] ∧ Z.of_nat (length sg) <= maxSig) →
  ∃ es', exitElement mySigLength active cls cle it pp c es = Ok es' ∧
    elems_ok (pp_seq pp) (n + 1) es' ∧ es ⊆ es' ∧ reports it pp es'.
Proof.
  intros [_ _ _ [_ P4] P5 P6] He Hn Hlast Hc. cbn [fst snd] in *. unfold exitElement.
  assert (∀ c, (∀ cv sg, c = Some (cv, sg) → cv <= active ∧ sg ≠ [] ∧ Z.of_nat (length sg) <= maxSig) →
    let e := mkElement (pp_seq pp) (pp_digest pp) active c in
    addElement mySigLength cls es e = Ok (es ++ [e]) ∧ elems_ok (pp_seq pp) (n + 1) (es ++ [e]) ∧
    es ⊆ es ++ [e] ∧ e ∈ es ++ [e]) as Hadd.
  { intros c0 Hc0 e. destruct (addElement_spec last n es e) as [? ?]; try done.
    - split; [split; [simpl; lia|]|]; simpl; naive_solver.
    - split_and!; [done..|set_solver|set_solver]. }
  unfold reports. destruct (prepareFull it) as [pf|].
  { destruct (P5 pf eq_refl) as (-> & -> & -> & ? & ?). rewrite !Z.eqb_refl. cbn [Assert]. do 3 ok_step.
    destruct (Hadd (Some (active, pf_sig pf))) as (-> & ? & ? & ?); [intros ? ? [= <- <-]; split_and!; [lia|done|done]|].
    eexists. split_and!; [done..| |by eauto]. by intros ? [= <-]. }
  destruct c as [[cv sg]|].
  { destruct (Hadd (Some (cv, sg)) Hc) as (-> & ? & ? & ?). eexists. split_and!; [done..|by eauto]. }
  fold (kept it pp). destruct (kept it pp) eqn:Ek.
  { destruct (Hadd None ltac:(done)) as (-> & ? & ? & ?). eexists. split_and!; [done..|by eauto]. }
  assert ((cle <? pp_seq pp) || pp_null pp = true) as ->.
  { unfold kept in Ek. destruct (pp_null pp); [by rewrite orb_true_r|]. destruct (hasAllRequests it); [done|].
    destruct P6; [done| |done]. rewrite orb_false_r. by apply Z.ltb_lt. }
  cbn [Assert]. ok_step. exists es. split_and!; [done| |done|done|done].
  destruct He as [E1 E2 E3 E4]. constructor; [done| |done|lia]. eapply Forall_impl; [exact E2|]. simpl. lia.
Qed.

Lemma exitStep_spec h it a pp es iter last n coll : item_ok h it (a, pp) → elems_ok last n es → n < 300 →
  last < pp_seq pp → Forall elem_legal iter →
  ∃ es' iter', exitStep mySigLength s cls cle it es iter last coll h =
      Ok (es', iter', pp_seq pp, if kept it pp then <[pp_seq pp := a]> coll else coll,
          if kept it pp then h else base.delete a h) ∧
    elems_ok (pp_seq pp) (n + 1) es' ∧ Forall elem_legal iter' ∧ es ⊆ es' ∧ reports it pp es'.
Proof.
  intros HI He Hn Hlast Hit. pose proof HI as [P1 P2 P3 [P4 P4'] P5 P6]. cbn [fst snd] in *.
  unfold exitStep. rewrite P1. unfold deref at 1. rewrite P2. ok_step. cbv zeta.
  rewrite P3, Z.eqb_refl, !(proj2 (Z.ltb_lt _ _)) by lia. cbn [Assert]. do 3 ok_step.
  assert (bool_decide (prepareFull it = None) || hasAllRequests it = true) as ->.
  { case_bool_decide as E; [done|]. destruct (prepareFull it) as [pf|]; [|done]. by destruct (P5 pf eq_refl) as [-> _]. }
  cbn [Assert]. ok_step.
  assert (∃ c iter', (if hasAllRequests it && bool_decide (prepareFull it = None)
      then previousCertificate active (pp_seq pp) (pp_digest pp) iter else Ok (None, iter)) = Ok (c, iter') ∧
    Forall elem_legal iter' ∧ ∀ cv sg, c = Some (cv, sg) → cv <= active ∧ sg ≠ [] ∧ Z.of_nat (length sg) <= maxSig)
    as (c & iter' & -> & Hit' & Hc).
  { case_match; [by apply previousCertificate_spec|]. do 2 eexists; split_and!; done. }
  ok_step. destruct (exitElement_spec h it a pp c es last n HI He Hn Hlast Hc) as (es' & -> & He' & Hsub & Hrep). ok_step.
  fold (kept it pp). destruct (kept it pp).
  - do 2 eexists. split_and!; done.
  - unfold free, deref. rewrite P2. do 2 ok_step. do 2 eexists. split_and!; done.
Qed.

(** The heap and the collection after the loop over the messages [xs]. *)
Record exit_heap (xs : list (Z * PP)) (coll : gmap Z Z) (h : gmap Z PP) (coll' : gmap Z Z) (h' : gmap Z PP) : Prop := {
  x_ok : coll_ok coll' h';
  x_frame : ∀ b, b ∉ xs.*1 → h' !! b = h !! b;
  x_done : ∀ b, b ∈ xs.*1 → (∃ k, coll' !! k = Some b) ∨ h' !! b = None;
  x_keep : ∀ k b, coll !! k = Some b → coll' !! k = Some b;
  x_new : ∀ k b, coll' !! k = Some b → coll !! k = Some b ∨ b ∈ xs.*1;
}.

Lemma exit_heap_kept a pp xs coll h coll' h' last : a ∉ xs.*1 →
  (∀ k, is_Some (coll !! k) → k <= last) → last < pp_seq pp →
  exit_heap xs (<[pp_seq pp := a]> coll) h coll' h' → exit_heap ((a, pp) :: xs) coll h coll' h'.
Proof.
  intros Ha Hk Hlast [X1 X2 X3 X4 X5]. constructor; [done|..]; rewrite ?fmap_cons; cbn [fst].
  - intros b [_ ?]%not_elem_of_cons. auto.
  - intros b [->|?]%elem_of_cons; [|by auto]. left. exists (pp_seq pp). apply X4. apply lookup_insert_eq.
  - intros k b Hb. apply X4. rewrite lookup_insert_ne; [done|]. assert (k <= last) by eauto. lia.
  - intros k b Hb. destruct (X5 k b Hb) as [Hb'|?]; [|right; by right].
    apply lookup_insert_Some in Hb' as [[_ <-]|[_ ?]]; [right; left|by left].
Qed.

Lemma exit_heap_dropped a pp xs coll h coll' h' : a ∉ xs.*1 →
  exit_heap xs coll (base.delete a h) coll' h' → exit_heap ((a, pp) :: xs) coll h coll' h'.
Proof.
  intros Ha [X1 X2 X3 X4 X5]. constructor; [done|..]; rewrite ?fmap_cons; cbn [fst]; [| |done|].
  - intros b [? ?]%not_elem_of_cons. rewrite X2 by done. by rewrite lookup_delete_ne.
  - intros b [->|?]%elem_of_cons; [|by auto]. right. rewrite X2 by done. apply lookup_delete_eq.
  - intros k b Hb. destruct (X5 k b Hb) as [?|?]; [by left|right; by right].
Qed.

Definition seqs (xs : list (Z * PP)) : list Z := (fun x => pp_seq x.2) <$> xs.

Lemma later_addr h l xs a pp : Forall2 (item_ok h) l xs → h !! a = Some pp →
  Forall (Z.lt (pp_seq pp)) (seqs xs) → a ∉ xs.*1.
Proof.
  induction 1 as [|it x l xs Hx _ IH]; intros Ha Hlt; [apply not_elem_of_nil|].
  apply Forall_cons in Hlt as [Hlt Hlt']. rewrite fmap_cons. apply not_elem_of_cons. split; [|by apply IH].
  intros ->. rewrite (it_live _ _ _ Hx) in Ha. injection Ha as Ha. rewrite Ha in Hlt. lia.
Qed.

Lemma items_delete h l xs a : Forall2 (item_ok h) l xs → a ∉ xs.*1 → Forall2 (item_ok (base.delete a h)) l xs.
Proof.
  induction 1 as [|it x l xs Hx _ IH]; intros Ha; [constructor|].
  rewrite fmap_cons in Ha. apply not_elem_of_cons in Ha as [Ha Ha']. constructor; [|by apply IH].
  destruct Hx. constructor; try done. by rewrite lookup_delete_ne.
Qed.

Lemma exitLoop_spec l : ∀ xs h es iter last n coll, Forall2 (item_ok h) l xs →
  StronglySorted Z.lt (last :: seqs xs) → n + Z.of_nat (length l) <= 300 → elems_ok last n es →
  Forall elem_legal iter → coll_ok coll h → (∀ k, is_Some (coll !! k) → k <= last) → last <= cls + 300 →
  ∃ es' last' coll' h', exitLoop mySigLength s cls cle l es iter last coll h = Ok (es', last', coll', h') ∧
    last' <= cls + 300 ∧ elems_ok last' (n + Z.of_nat (length l)) es' ∧ es ⊆ es' ∧
    Forall2 (fun it x => reports it x.2 es') l xs ∧ exit_heap xs coll h coll' h'.
Proof.
  induction l as [|it l IH]; intros xs h es iter last n coll HF Hs Hn He Hit HC Hk Hlast.
  { apply Forall2_nil_inv_l in HF as ->. exists es, last, coll, h. rewrite Z.add_0_r. split_and!; try done.
    constructor; try done; [by intros b ?%elem_of_nil|]. by left. }
  apply Forall2_cons_inv_l in HF as ([a pp] & xs' & Hx & HF & ->). cbn [exitLoop].
  apply StronglySorted_cons in Hs as [Hs1 Hs]. cbn [seqs fmap list_fmap] in Hs, Hs1.
  apply Forall_cons in Hs1 as [Hlt _]. simpl length in Hn. simpl in Hlt. pose proof (it_live _ _ _ Hx) as Ha. cbn [fst snd] in Ha.
  destruct (exitStep_spec h it a pp es iter last n coll Hx He ltac:(lia) Hlt Hit) as (es1 & iter1 & -> & He1 & Hit1 & Hsub1 & Hr1).
  ok_step. assert (a ∉ xs'.*1) as Hna.
  { apply StronglySorted_cons in Hs as [Hs _]. by eapply later_addr. }
  pose proof (it_seq _ _ _ Hx) as [_ Hseq]. cbn [snd] in Hseq.
  destruct (IH xs' (if kept it pp then h else base.delete a h) es1 iter1 (pp_seq pp) (n + 1)
     (if kept it pp then <[pp_seq pp := a]> coll else coll)) as (es' & last' & coll' & h' & E & Hl' & He' & Hsub & Hrep & Hh);
    [|done|lia|done|done|..].
  - destruct (kept it pp); [done|]. by apply items_delete.
  - intros k b. destruct (kept it pp) eqn:Ek; intros Hb.
    + unfold kept in Ek. bool_to_prop. apply lookup_insert_Some in Hb as [[<- <-]|[_ Hb]]; [by exists pp|by apply HC].
    + destruct (HC k b Hb) as (pp' & Hpp' & Hk' & ?). exists pp'. split; [|done]. rewrite lookup_delete_ne; [done|].
      intros <-. assert (k <= last) by eauto. simplify_eq. lia.
  - intros k. destruct (kept it pp); intros [b Hb].
    + apply lookup_insert_Some in Hb as [[<- _]|[_ Hb]]; [lia|]. assert (k <= last) by eauto. lia.
    + assert (k <= last) by eauto. lia.
  - lia.
  - exists es', last', coll', h'. simpl length. replace (n + Z.of_nat (S (length l))) with (n + 1 + Z.of_nat (length l)) by lia.
    split_and!; [done..|by etrans| |].
    + constructor; [|done]. destruct Hr1 as [H1 H2]. split; naive_solver.
    + destruct (kept it pp); [by eapply exit_heap_kept|by apply exit_heap_dropped].
Qed.
End exit.

Section exit_view.
Context (info : ReplicasInfo.t) (verify : Digest → list Z → bool) (nullDigest : Digest) (mySigLength maxSig : Z).
Context (Hmax : 0 <= maxSig) (Hmy : 0 <= mySigLength)
        (Hsize : 24 + 300 * (59 + maxSig) + mySigLength <= maxExternalMessageSize).
Context (Hwf : ReplicasInfo.wf info).
#[local] Abbreviation inv := (inv info verify nullDigest maxSig).
#[local] Abbreviation myId := (ReplicasInfo._myId info).

(** What the caller owes when it leaves the view: it has seen no stable point
    beyond [cls], and passes its own messages in the order of their numbers. *)
Record exit_pre (s : t) (cls cle : Z) (l : list PrevViewInfo) (xs : list (Z * PP)) : Prop := {
  xp_stat : stat s = IN_VIEW;
  xp_stable : debugHighestKnownStable s <= cls;
  xp_length : Z.of_nat (length l) <= 300;
  xp_items : Forall2 (item_ok maxSig s cls cle (heap s)) l xs;
  xp_sorted : StronglySorted Z.lt (cls :: seqs xs);
}.

(** The outcome: the new message reports every item, and every message passed
    is owned by the manager or deallocated. *)
Record exit_post (s : t) (cls : Z) (l : list PrevViewInfo) (xs : list (Z * PP)) (m : VCM) (s' : t) : Prop := {
  xo_inv : inv s';
  xo_stat : stat s' = NO_VIEW;
  xo_mine : myVC info s' = Some m ∧ vm_gen m = myId;
  xo_msg : vm_newView m = myLatestActiveView s + 1 ∧ vc_lastStable (vm_vc m) = cls;
  xo_reports : Forall2 (fun it x => reports s it x.2 (vc_elements (vm_vc m))) l xs;
  xo_heap : ∀ a, ¬ owns s' a → heap s' !! a = if decide (a ∈ xs.*1) then None else heap s !! a;
}.

Lemma myVC_lookup s : core info maxSig s →
  myViewChange info s = Ok (myVC info s).
Proof.
  intros H. pose proof (ReplicasInfo.wf_my _ Hwf). unfold myViewChange, myVC.
  destruct (at_in (viewChangeMsgsOfPendingView s) myId) as (p & Hp & ->); [rewrite (c_pend_len _ _ s H); lia|].
  ok_step. rewrite Hp. destruct p; [done|].
  destruct (at_in (viewChangeMessages s) myId) as (p & -> & ->); [rewrite (c_vcs_len _ _ s H); lia|]. done.
Qed.

Lemma myVC_ok s m : core info maxSig s → myVC info s = Some m → vcm_ok (Z.to_nat myId) m.
Proof.
  intros H. unfold myVC. destruct (viewChangeMsgsOfPendingView s !! Z.to_nat myId) as [[m'|]|] eqn:E.
  - intros [= <-]. by apply (c_pend _ _ s H) in E as [? _].
  - destruct (viewChangeMessages s !! Z.to_nat myId) as [[m'|]|] eqn:E'; [|done..]. intros [= <-]. by apply (c_vcs _ _ s H) in E'.
  - destruct (viewChangeMessages s !! Z.to_nat myId) as [[m'|]|] eqn:E'; [|done..]. intros [= <-]. by apply (c_vcs _ _ s H) in E'.
Qed.

(** The elements of my previous message. *)
Definition previousElements (s : t) : list Element :=
  match myVC info s with Some m => vc_elements (vm_vc m) | None => [] end.

Lemma previousElements_legal s : core info maxSig s → Forall (elem_legal maxSig s) (previousElements s).
Proof.
  intros H. unfold previousElements. destruct (myVC info s) as [m|] eqn:E; [|constructor].
  pose proof (c_mine _ _ s H m E) as Hm. destruct (myVC_ok s m H E) as [_ [_ Hc]].
  apply Forall_forall. intros e He. unfold mine_ok in Hm. rewrite Forall_forall in Hm, Hc. split; [by apply Hm|by apply Hc].
Qed.

(** The state after the loop, before the pending view is dropped. *)
Lemma core_exit s cls cle l xs coll h : inv s → exit_pre s cls cle l xs →
  exit_heap xs ∅ (heap s) coll h → let s1 := set_pps (set_stat (set_bounds s (lowerBoundStableForPendingView s) cls
      (debugHighestViewNumberPassedByClient s)) NO_VIEW) coll (prePrepareMsgsOfRestrictions s) h (nextAddr s) in
  core info maxSig s1 ∧ ∀ a, owns s1 a ↔ ∃ k, coll !! k = Some a.
Proof.
  intros [H Hs] [P1 P2 P3 P4 P5] [X1 X2 X3 X4 X5] s1. unfold stat_ok in Hs. rewrite P1 in Hs. destruct Hs as (_ & Hno & _ & _ & _).
  split; [|intros a; unfold owns, owned; simpl; rewrite elem_coll; naive_solver].
  destruct H. constructor; simpl; try done.
  - intros i a _ Ha. destruct (Hno a). apply list_elem_of_lookup. eauto.
  - intros a Ha. apply c_fresh0. destruct (decide (a ∈ xs.*1)) as [Hx|Hx]; [|by rewrite <- X2].
    apply list_elem_of_fmap in Hx as (x & -> & Hx). apply list_elem_of_lookup in Hx as [i Hi].
    destruct (Forall2_lookup_r _ _ _ _ _ P4 Hi) as (it & _ & Hit). rewrite (it_live _ _ _ _ _ _ _ Hit). eauto.
Qed.

(** Storing the new message after the pending view was dropped. *)
Lemma core_store s m : core info maxSig s → newViewMsgOfOfPendingView s = None → vcm_ok (Z.to_nat myId) m →
  mine_ok maxSig (myLatestActiveView s) m →
  let s' := set_vc s (<[Z.to_nat myId := Some m]> (viewChangeMessages s)) in
  core info maxSig s' ∧ myVC info s' = Some m.
Proof.
  intros H Hn Hm1 Hm2 s'. pose proof (ReplicasInfo.wf_my _ Hwf).
  assert (myVC info s' = Some m) as Hmine.
  { unfold myVC, s'. simpl. rewrite (pend_lookup_none info maxSig s) by (done || lia).
    rewrite list_lookup_insert_eq; [done|]. rewrite (c_vcs_len _ _ s H). lia. }
  split; [|done]. destruct H. constructor; simpl; try done.
  - by rewrite length_insert.
  - intros i m' [(<- & [= <-] & _)|[_ ?]]%list_lookup_insert_Some; [done|by apply c_vcs0].
  - intros m' Hm'. assert (m' = m) as -> by (rewrite Hmine in Hm'; congruence). done.
Qed.

Lemma exitFromCurrentView_post s cls cle l xs : inv s → exit_pre s cls cle l xs →
  ∃ m s', exitFromCurrentView info mySigLength s cls cle l = Ok (m, s') ∧ exit_post s cls l xs m s'.
Proof.
  intros HI HP. pose proof HI as [H Hs]. pose proof HP as [P1 P2 P3 P4 P5]. unfold stat_ok in Hs. rewrite P1 in Hs.
  destruct Hs as (Hcoll & Hno & Hact & Hvote & _). unfold exitFromCurrentView, inView.
  rewrite P1. rewrite bool_decide_eq_true_2 by done. cbn [Assert]. ok_step.
  rewrite (proj2 (Z.eqb_eq _ _) Hact). cbn [Assert]. ok_step.
  rewrite (proj2 (Z.leb_le _ kWorkWindowSize)) by (unfold kWorkWindowSize; lia). cbn [Assert]. ok_step.
  rewrite bool_decide_eq_true_2 by done. cbn [Assert]. ok_step.
  rewrite (proj2 (Z.leb_le _ _) P2). cbn [Assert]. ok_step. cbv zeta.
  set (s1 := set_stat (set_bounds s _ _ _) NO_VIEW).
  assert (core info maxSig s1) as H1 by (apply core_set_stat, core_set_bounds; [done|by apply (c_lb _ _ s H)]).
  rewrite (myVC_lookup s1 H1). ok_step. change (myVC info s1) with (myVC info s).
  change (myLatestActiveView s1) with (myLatestActiveView s).
  assert ((myLatestActiveView s =? 0) || bool_decide (myVC info s ≠ None) = true) as ->.
  { destruct Hvote as [->|(m & -> & _)]; [done|]. by rewrite bool_decide_eq_true_2, orb_true_r. }
  assert ((myLatestActiveView s =? 0) || match myVC info s with Some m => vm_newView m =? myLatestActiveView s | None => false end = true) as ->.
  { destruct Hvote as [->|(m & -> & ->)]; [done|]. by rewrite Z.eqb_refl, orb_true_r. }
  cbn [Assert]. do 2 ok_step. fold (previousElements s).
  destruct (exitLoop_spec mySigLength maxSig Hmax Hmy Hsize s1 cls cle l xs (heap s) [] (previousElements s) cls 0 ∅)
    as (es & last & coll & h & E & Hlast & He & _ & Hrep & Hh).
  { eapply Forall2_impl; [exact P4|]. intros it x []. by constructor. }
  { done. }
  { lia. }
  { constructor; [constructor..|done]. }
  { exact (previousElements_legal s H). }
  { by intros k a Ha. }
  { intros k [? ?]. done. }
  { lia. }
  change (collectionOfPrePrepareMsgs s1) with (collectionOfPrePrepareMsgs s). rewrite Hcoll.
  change (heap s1) with (heap s). rewrite E. ok_step.
  rewrite (proj2 (Z.leb_le _ kWorkWindowSize)) by (unfold kWorkWindowSize; lia). cbn [Assert]. ok_step.
  destruct (core_exit s cls cle l xs coll h HI HP Hh) as [H2 Hown].
  change (prePrepareMsgsOfRestrictions s1) with (prePrepareMsgsOfRestrictions s).
  change (nextAddr s1) with (nextAddr s). set (s2 := set_pps s1 _ _ _ _) in *.
  destruct (resetData_spec info maxSig Hwf s2 H2) as (s3 & -> & HR). ok_step.
  set (m := mkVCM myId _). pose proof (ReplicasInfo.wf_my _ Hwf) as Hid.
  rewrite put_in by (rewrite (c_vcs_len _ _ s3 (r_core _ _ _ _ HR)); lia). ok_step.
  destruct He as [L1 L2 L3 L4]. destruct HR as [R1 R2 R3 [R4 R4'] R5 R6 R7 R8 R9 R10].
  assert (vcm_ok (Z.to_nat myId) m) as Hm.
  { split; [simpl; lia|]. split; [done|]. eapply Forall_impl; [exact L3|]. by intros e [_ ?]. }
  assert (mine_ok maxSig (myLatestActiveView s3) m) as Hm'.
  { rewrite R4. eapply Forall_impl; [exact L3|]. by intros e [? _]. }
  destruct (core_store s3 m R1 R2 Hm Hm') as [Hc Hmine].
  do 2 eexists. split; [done|]. constructor; [split; [done|]|done|done|done|done|].
  - unfold stat_ok. simpl. by rewrite R3.
  - intros a Ha. change (¬ owns s3 a) in Ha. change (heap s3 !! a = if decide (a ∈ xs.*1) then None else heap s !! a).
    assert (¬ owns s2 a) as Ha2.
    { intros [k Hk]%Hown. apply Ha. right. apply elem_coll. exists k. by rewrite R6. }
    rewrite (rel_frame _ _ _ _ R10) by done. change (heap s2) with h. case_decide as Ex; [|by apply (x_frame _ _ _ _ _ Hh)].
    destruct (x_done _ _ _ _ _ Hh a Ex) as [?|?]; [|done]. by destruct Ha2; apply Hown.
Qed.
End exit_view.
End ViewsManagerExit.
