(* ===== verification/ViewsManagerProps.v ===== *)
(** * Properties of the view-change state machine

    Every operation of [ViewsManager] as one transition relation, and what holds
    of all its runs. *)
From S2P Require Import Prelude SysConsts Digest ReplicasInfo ViewChangeMsg ViewChangeSafety ViewsManager ViewsManagerFacts ViewsManagerSafety ViewsManagerExit.

Module ViewsManagerProps.
Export ViewsManagerExit.

Lemma present_replace {A} (l : list (option A)) i x y : l !! i = Some (Some x) →
  length (present (<[i := Some y]> l)) = length (present l).
Proof.
  revert i. induction l as [|[z|] l IH]; intros [|i] H; try done; simpl in *; [|by apply IH].
  by rewrite (IH i H).
Qed.

(** The restrictions depend on the elements of the messages only. *)
Lemma createIterators_ext lb msgs : ∀ msgs',
  option_map vc_elements <$> msgs = option_map vc_elements <$> msgs' → createIterators lb msgs = createIterators lb msgs'.
Proof.
  induction msgs as [|[vc|] msgs IH]; intros [|[vc'|] msgs'] E; try done; simpl in E; injection E.
  - intros E' Ee. simpl. by rewrite Ee, (IH msgs' E').
  - intros E'. simpl. by apply IH.
Qed.

Lemma computeRestrictions_ext F C verify nullDigest msgs msgs' lb arr :
  option_map vc_elements <$> msgs = option_map vc_elements <$> msgs' →
  computeRestrictions F C verify nullDigest msgs lb arr = computeRestrictions F C verify nullDigest msgs' lb arr.
Proof. intros E. unfold computeRestrictions. by rewrite (createIterators_ext _ _ _ E). Qed.

Section ops.
Context (info : ReplicasInfo.t) (msgDigest : VCM → Digest) (verify : Digest → list Z → bool)
        (nullDigest : Digest) (mySigLength maxSig : Z).
Context (Hwf : ReplicasInfo.wf info).
#[local] Abbreviation N := (ReplicasInfo._numberOfReplicas info).
#[local] Abbreviation F := (ReplicasInfo._fVal info).
#[local] Abbreviation C := (ReplicasInfo._cVal info).
#[local] Abbreviation myId := (ReplicasInfo._myId info).
#[local] Abbreviation core := (core info maxSig).
#[local] Abbreviation inv := (inv info verify nullDigest maxSig).

Lemma ctor_inv : ∃ s, ctor info = Ok s ∧ inv s.
Proof.
  unfold ctor. rewrite (proj2 (Z.eqb_eq _ _) (ReplicasInfo.wf_n _ Hwf)). cbn [Assert]. ok_step.
  pose proof (ReplicasInfo.wf_my _ Hwf) as Hid.
  assert (Z.to_nat kWorkWindowSize = 300%nat) as Hw by done. cbv zeta.
  generalize dependent (Z.to_nat kWorkWindowSize). intros w Hw.
  eexists. split; [done|]. split.
  - constructor; simpl; rewrite ?length_replicate; try done; try lia; try (by left);
      try (by intros i m []%replicate_none_lookup).
    + unfold myVC. simpl. intros m. destruct (replicate _ _ !! _) as [[]|] eqn:E;
        [by apply replicate_none_lookup in E|..]; destruct (replicate _ _ !! _) as [[]|] eqn:E'; try done;
        by apply replicate_none_lookup in E'.
    + apply lookup_replicate_2. lia.
    + intros j a _ []%replicate_none_lookup.
    + intros j a _ []%replicate_none_lookup.
    + intros a [? ?]. done.
    + split; [|done]. by intros i m []%replicate_none_lookup.
  - split_and!; [done| |done|by left|done]. intros a Ha. simpl in Ha. by apply elem_of_replicate in Ha as [? _].
Qed.

(** ** Collecting messages *)
Lemma addNewView_ok s m : inv s → nv_sender m ≠ myId → nv_sender m = ReplicasInfo.primaryOfView info (nv_view m) →
  0 <= nv_view m → Z.of_nat (length (nv_elems m)) = SMAJOR info →
  ∃ b s', addNewView info s m = Ok (b, s') ∧ inv s'.
Proof.
  intros [H Hs] Hid Hp Hv Hl. unfold addNewView. rewrite (proj2 (Z.eqb_neq _ _) Hid), (proj2 (Z.eqb_eq _ _) Hp).
  cbn [Assert negb]. do 2 ok_step. case_match; [by do 2 eexists|].
  pose proof (ReplicasInfo.primary_range info Hwf _ Hv) as Hr.
  rewrite put_in by (rewrite (c_nvs_len _ _ s H), Hp; lia). ok_step. do 2 eexists. split; [done|].
  split; [|done]. apply core_set_nv; [done|by rewrite length_insert, (c_nvs_len _ _ s H)| |].
  - rewrite list_lookup_insert_ne by (destruct Hwf; lia). by apply (c_nvs_my _ _ s H).
  - intros i m' [(_ & [= <-] & _)|[_ ?]]%list_lookup_insert_Some; [done|by eapply (c_nvs _ _ s H)].
Qed.

Lemma core_set_vc_other s id m : core s → 0 <= id → id ≠ myId → vcm_ok (Z.to_nat id) m →
  core (set_vc s (<[Z.to_nat id := Some m]> (viewChangeMessages s))) ∧
  myVC info (set_vc s (<[Z.to_nat id := Some m]> (viewChangeMessages s))) = myVC info s.
Proof.
  intros H Hid Hne Hm. pose proof (ReplicasInfo.wf_my _ Hwf).
  assert (myVC info (set_vc s (<[Z.to_nat id := Some m]> (viewChangeMessages s))) = myVC info s) as Hmine.
  { unfold myVC. simpl. by rewrite list_lookup_insert_ne by lia. }
  split; [|done]. destruct H. constructor; simpl; try done.
  - by rewrite length_insert.
  - intros i m' [(<- & [= <-] & _)|[_ ?]]%list_lookup_insert_Some; [done|by apply c_vcs0].
  - intros m' Hm'. apply c_mine0. rewrite <- Hmine. exact Hm'.
Qed.

(** [stat_ok] does not look at the messages of other replicas. *)
Lemma stat_ok_vc s vcs : myVC info (set_vc s vcs) = myVC info s →
  stat_ok info verify nullDigest s → stat_ok info verify nullDigest (set_vc s vcs).
Proof. unfold stat_ok. simpl. destruct (stat s); try done. intros ->. done. Qed.

Lemma addViewChange_ok s m : inv s → 0 <= vm_gen m < N → vm_gen m ≠ myId → 0 <= vm_newView m →
  vc_legal (vm_vc m) → ∃ b s', addViewChange info msgDigest s m = Ok (b, s') ∧ inv s'.
Proof.
  intros [H Hs] Hid Hne Hv Hl. unfold addViewChange. rewrite (proj2 (Z.eqb_neq _ _) Hne). cbn [Assert negb]. ok_step.
  case_match; [by do 2 eexists|]. pose proof (ReplicasInfo.primary_range info Hwf _ Hv) as Hr.
  destruct (at_in (newViewMessages s) (ReplicasInfo.primaryOfView info (vm_newView m))) as (nv & _ & ->);
    [rewrite (c_nvs_len _ _ s H); lia|]. ok_step.
  destruct (at_in (viewChangeMessages s) (vm_gen m)) as (prev & _ & Hprev); [rewrite (c_vcs_len _ _ s H); lia|].
  assert (∃ ign : bool, match nv with
      | None => Ok false
      | Some nv =>
          if vm_newView m <? nv_view nv then Ok true
          else if nv_view nv =? vm_newView m then
            prevVC ← at_ (viewChangeMessages s) (vm_gen m);
            match prevVC with
            | Some p => if vm_newView p =? vm_newView m then Ok (includes nv (vm_gen m) (msgDigest p)) else Ok false
            | None => Ok false
            end
          else Ok false
      end = Ok ign) as [ign ->].
  { destruct nv; [|by eauto]. case_match; [by eauto|]. case_match; [|by eauto]. rewrite Hprev. ok_step.
    repeat case_match; by eauto. }
  ok_step. destruct ign; [by do 2 eexists|]. rewrite put_in by (rewrite (c_vcs_len _ _ s H); lia). ok_step.
  destruct (core_set_vc_other s (vm_gen m) m) as [? ?]; [done|lia|done|split; [lia|done]|].
  do 2 eexists. split; [done|]. split; [done|]. by apply stat_ok_vc.
Qed.

(** ** Missing pre-prepare messages *)

(** The restriction that [pp] satisfies and that has no message yet. *)
Definition fills (s : t) (pp : PP) : Prop :=
  let mn := minRestrictionOfPendingView s in
  mn ≠ 0 ∧ mn <= pp_seq pp <= maxRestrictionOfPendingView s ∧
  restrictionsOfPendingView s !! Z.to_nat (pp_seq pp - mn) = Some (mkRestriction false (pp_digest pp)) ∧
  prePrepareMsgsOfRestrictions s !! Z.to_nat (pp_seq pp - mn) = Some None.

Lemma core_fill s p pp : core s → heap s !! p = Some pp → pp_null pp = false → fills s pp →
  let idx := Z.to_nat (pp_seq pp - minRestrictionOfPendingView s) in
  core (set_pps s (collectionOfPrePrepareMsgs s) (<[idx := Some p]> (prePrepareMsgsOfRestrictions s)) (heap s) (nextAddr s)).
Proof.
  intros H Hp Hn (Hmn & Hr & Hrs & Hpp) idx. pose proof (c_pps_len _ _ s H).
  destruct (c_range _ _ s H) as [?|[? ?]]; [done|].
  destruct H. constructor; simpl; try done.
  - by rewrite length_insert.
  - intros j a Hj. unfold idx. rewrite lookup_put by lia. case_decide; [|by apply c_slots0]. intros _. split; [done|lia].
  - intros j a Hj. unfold idx. rewrite lookup_put by lia. case_decide; [|by apply c_pps0]. intros [= <-]. subst j.
    eexists. split; [done|]. exists pp. split; [done|]. done.
Qed.

Lemma core_free s p : core s → ¬ owns s p →
  core (set_pps s (collectionOfPrePrepareMsgs s) (prePrepareMsgsOfRestrictions s) (base.delete p (heap s)) (nextAddr s)).
Proof.
  intros H Hn.
  assert (∀ a P, owns s a → live (heap s) a P → live (base.delete p (heap s)) a P) as Hl.
  { intros a P Ha (x & Hx & HP). exists x. split; [|done]. rewrite lookup_delete_ne; [done|]. by intros ->. }
  destruct H. constructor; simpl; try done.
  - intros i a Hi Ha. destruct (c_pps0 i a Hi Ha) as (r & ? & ?). exists r. split; [done|]. apply Hl; [|done].
    left. apply list_elem_of_lookup. eauto.
  - intros k a Ha. apply Hl; [|by apply c_coll0]. right. apply elem_coll. eauto.
  - intros a [x Hx]. apply c_fresh0. apply lookup_delete_Some in Hx as [_ ?]. eauto.
Qed.

(** The predicates on the status that do not depend on the heap. *)
Lemma stat_ok_pps s pps h next : stat s ≠ IN_VIEW → stat_ok info verify nullDigest s →
  stat_ok info verify nullDigest (set_pps s (collectionOfPrePrepareMsgs s) pps h next).
Proof. unfold stat_ok. simpl. by destruct (stat s). Qed.

Definition missingNo (s : t) (j : Z) : Prop :=
  minRestrictionOfPendingView s <= j ∧
  missing (minRestrictionOfPendingView s) (restrictionsOfPendingView s) (prePrepareMsgsOfRestrictions s) j.

Lemma elem_insert_none (pps : list (option Z)) i p a : pps !! i = Some None →
  Some a ∈ <[i := Some p]> pps ↔ Some a ∈ pps ∨ a = p.
Proof.
  intros Hi. rewrite !list_elem_of_lookup. split.
  - intros (k & Hk). apply list_lookup_insert_Some in Hk as [(_ & [= <-] & _)|[_ ?]]; eauto.
  - intros [[k Hk]| ->]; [exists k|exists i].
    + rewrite list_lookup_insert_ne; [done|]. congruence.
    + apply list_lookup_insert_eq. by eapply lookup_lt_Some.
Qed.

(** The message [p] is taken over, or deallocated when it is not needed. *)
Definition addPP_post (s : t) (p : Z) (pp : PP) (b : bool) (s' : t) : Prop :=
  inv s' ∧ stat s' = PENDING_WITH_RESTRICTIONS ∧ (b = true ↔ fills s pp) ∧
  (∀ a, owns s' a ↔ owns s a ∨ (b = true ∧ a = p)) ∧
  heap s' = (if b then heap s else base.delete p (heap s)) ∧
  ∀ j, missingNo s' j ↔ missingNo s j ∧ (b = true → j ≠ pp_seq pp).

Lemma addPotentiallyMissingPP_post s p pp cls : inv s → stat s = PENDING_WITH_RESTRICTIONS →
  heap s !! p = Some pp → pp_null pp = false → ¬ owns s p →
  ∃ b s', addPotentiallyMissingPP s p cls = Ok (b, s') ∧ addPP_post s p pp b s'.
Proof.
  intros [H Hs] Hst Hp Hn Hown. unfold addPotentiallyMissingPP. rewrite Hst. rewrite bool_decide_eq_true_2 by done.
  cbn [Assert]. ok_step. unfold deref at 1. rewrite Hp. ok_step. rewrite Hn. cbn [Assert negb]. ok_step. cbv zeta.
  assert (¬ fills s pp → ∃ b s', (h ← free (heap s) (Some p);
      Ok (false, set_pps s (collectionOfPrePrepareMsgs s) (prePrepareMsgsOfRestrictions s) h (nextAddr s))) = Ok (b, s') ∧
    addPP_post s p pp b s') as Hfree.
  { intros Hnf. unfold free, deref. rewrite Hp. do 2 ok_step. do 2 eexists. split; [done|].
    split_and!; [split; [by apply core_free|by apply stat_ok_pps; [rewrite Hst|]]|done|done|simpl; naive_solver|done|by intros j; split; [|intros [? _]]]. }
  case_match eqn:Er.
  2: { ok_step. apply Hfree. intros (? & ? & _). rewrite !andb_false_iff in Er. destruct Er as [[Er|Er]|Er]; bool_to_prop; lia. }
  bool_to_prop. destruct (c_range _ _ s H) as [?|[? ?]]; [done|].
  rewrite (proj2 (Z.ltb_lt _ kWorkWindowSize)) by (unfold kWorkWindowSize; lia). cbn [Assert]. ok_step.
  destruct (at_in (restrictionsOfPendingView s) (pp_seq pp - minRestrictionOfPendingView s)) as (r & Hr & ->);
    [rewrite (c_rs_len _ _ s H); lia|]. ok_step.
  destruct (at_in (prePrepareMsgsOfRestrictions s) (pp_seq pp - minRestrictionOfPendingView s)) as (q & Hq & ->);
    [rewrite (c_pps_len _ _ s H); lia|]. ok_step.
  case_match eqn:Eq.
  - bool_to_prop. unfold Digest.eqb in *. bool_to_prop. subst q. rewrite put_in by (rewrite (c_pps_len _ _ s H); lia). do 2 ok_step.
    assert (fills s pp) as Hf.
    { split_and!; try done. rewrite Hr. f_equal. destruct r; simpl in *; congruence. }
    do 2 eexists. split; [done|]. split_and!; [split; [by apply core_fill|by apply stat_ok_pps; [rewrite Hst|]]|done|done| |done|].
    + intros a. unfold owns, owned. simpl. rewrite elem_insert_none by done. naive_solver.
    + intros j. unfold missingNo, missing. simpl. pose proof (c_pps_len _ _ s H).
      split; intros [Hj Hm].
      * setoid_rewrite lookup_put in Hm; [|lia..]. case_decide; naive_solver.
      * destruct Hj as [Hj Hm']. split; [done|]. setoid_rewrite lookup_put; [|lia..]. rewrite decide_False by auto. done.
  - ok_step. apply Hfree. intros (_ & _ & Hr' & Hq'). rewrite Hr in Hr'. rewrite Hq in Hq'. simplify_eq.
    unfold Digest.eqb in Eq. simpl in Eq. by rewrite !bool_decide_eq_true_2 in Eq by done.
Qed.

Lemma getNumbersOfMissingPP_post s cls : core s → stat s = PENDING_WITH_RESTRICTIONS →
  ∃ l, getNumbersOfMissingPP s cls = Ok (negb (bool_decide (l = [])), l) ∧ StronglySorted Z.lt l ∧
    ∀ j, j ∈ l ↔ j ∈ relevant s cls ∧ missingNo s j.
Proof.
  clear msgDigest verify nullDigest Hwf. intros H Hst. unfold getNumbersOfMissingPP, missingNumbers, missingNo. rewrite Hst. rewrite bool_decide_eq_true_2 by done. cbn [negb].
  setoid_rewrite elem_relevant. cbv zeta.
  destruct (Z.eqb_spec (minRestrictionOfPendingView s) 0) as [Hm|Hm].
  { exists []. split_and!; [done|constructor|]. intros j. rewrite elem_of_nil. naive_solver. }
  destruct (c_range _ _ s H) as [?|[? ?]]; [done|].
  set (mn := minRestrictionOfPendingView s) in *. set (mx := maxRestrictionOfPendingView s) in *.
  destruct (decide (Z.max mn (cls + 1) <= mx)) as [Hle|Hgt].
  - destruct (missingFrom_spec mn _ _ (c_rs_len _ _ s H) (c_pps_len _ _ s H) (Z.to_nat (mx - Z.max mn (cls + 1) + 1)) (Z.max mn (cls + 1)))
      as (l & -> & Hl & Hs); [lia|lia|]. ok_step. exists l. split_and!; [done|done|]. intros j. rewrite Hl. naive_solver lia.
  - replace (Z.to_nat (mx - Z.max mn (cls + 1) + 1)) with 0%nat by lia. cbn [missingFrom]. ok_step. exists [].
    split_and!; [done|constructor|]. intros j. rewrite elem_of_nil. split; [done|]. lia.
Qed.

(** ** Destruction *)

(** The destructor's loop deletes what resetting the pending view deletes. *)
Lemma deletePPs_eq mn coll n : ∀ i pps pps' h r, mn <= i → length pps = length pps' →
  (∀ j, i <= j → pps !! Z.to_nat (j - mn) = pps' !! Z.to_nat (j - mn)) →
  resetPPs n i mn coll pps' h = Ok r → deletePPs n i mn coll pps h = Ok r.2.
Proof.
  induction n as [|n IH]; intros i pps pps' h r Hi Hl Heq E; cbn [resetPPs deletePPs] in *; [by injection E as <-|].
  apply assert_bind_ok in E as [Hlt E]. apply bind_ok in E as (p & Hp & E). apply bind_ok in E as (h1 & Hh & E).
  apply bind_ok in E as (pps1 & Hput & E).
  assert (0 <= i - mn < Z.of_nat (length pps')) as Hrange.
  { unfold put_ in Hput. case_match eqn:Eb; [|done]. bool_to_prop. lia. }
  assert (at_ pps (i - mn) = Ok p) as ->.
  { destruct (at_in pps' (i - mn)) as (p' & Hp' & E'); [lia|]. rewrite E' in Hp. injection Hp as <-.
    apply at_ok; [lia|]. by rewrite Heq by lia. }
  rewrite put_in in Hput by lia. injection Hput as <-. ok_step.
  assert (∀ h0, h0 = h1 → deletePPs n (i + 1) mn coll pps h0 = Ok r.2) as Hrest.
  { intros h0 ->. eapply IH; [lia| | |exact E]; [by rewrite length_insert|].
    intros j Hj. rewrite lookup_put by lia. rewrite decide_False by lia. apply Heq. lia. }
  destruct p as [a|].
  - assert ((if bool_decide (coll !! i = None) || negb (bool_decide (coll !! i = Some a)) then free h (Some a) else Ok h) = Ok h1) as ->;
      [|by apply Hrest].
    destruct (coll !! i) as [b|] eqn:Ec.
    + rewrite (bool_decide_eq_false_2 (Some b = None)) by done. rewrite (bool_decide_eq_true_2 (is_Some (Some b))) in Hh by eauto.
      simpl in *. by destruct (bool_decide (Some b = Some a)).
    + rewrite (bool_decide_eq_true_2 (None = None)) by done. rewrite (bool_decide_eq_false_2 (is_Some None)) in Hh by (by intros []).
      done.
  - apply Hrest. by case_match; injection Hh as <-.
Qed.

Lemma dtor_post s : core s → ∃ h, dtor s = Ok h ∧ ∀ a, h !! a = if decide (owns s a) then None else heap s !! a.
Proof.
  intros H. unfold dtor. cbv zeta.
  assert (∃ pps' h1, (if 0 <? minRestrictionOfPendingView s then
      deletePPs (Z.to_nat (maxRestrictionOfPendingView s - minRestrictionOfPendingView s + 1)) (minRestrictionOfPendingView s)
        (minRestrictionOfPendingView s) (collectionOfPrePrepareMsgs s) (prePrepareMsgsOfRestrictions s) (heap s)
      else Ok (heap s)) = Ok h1 ∧ (∀ a, Some a ∉ pps') ∧
    released (owns s) (owned pps' (collectionOfPrePrepareMsgs s)) (heap s) h1) as (pps' & h1 & -> & Hno & HR).
  { destruct (Z.ltb_spec 0 (minRestrictionOfPendingView s)); destruct (c_range _ _ s H) as [Hm|[? ?]]; try lia.
    - destruct (resetPPs_spec (minRestrictionOfPendingView s) (restrictionsOfPendingView s) (collectionOfPrePrepareMsgs s)
        (Z.to_nat (maxRestrictionOfPendingView s - minRestrictionOfPendingView s + 1)) (minRestrictionOfPendingView s)
        (prePrepareMsgsOfRestrictions s) (heap s)) as (pps' & h' & E & Hc & HR);
        [done|lia|by apply (c_pps_len _ _ s H)|by apply (c_pps _ _ s H)|by apply (c_coll _ _ s H)|].
      exists pps', h'. split_and!; [|eapply cleared_none; [|exact Hc|]; [done|]|done].
      + eapply deletePPs_eq in E; [exact E|done|done|done].
      + intros j a Hj Ha. destruct (c_slots _ _ s H j a Hj Ha). lia.
    - exists (prePrepareMsgsOfRestrictions s), (heap s). split_and!; [done|by eapply no_slots|apply released_refl]. }
  ok_step. destruct (freeAll_spec (collectionOfPrePrepareMsgs s) h1) as (h & -> & Hh).
  { eapply released_coll_ok; [exact HR|by apply (c_coll _ _ s H)]. }
  exists h. split; [done|]. intros a. rewrite Hh. case_decide as E; [rewrite decide_True; [done|by right]|].
  case_decide as Eo; [|by apply (rel_frame _ _ _ _ HR)].
  apply (rel_freed _ _ _ _ HR); [done|]. intros [?|?]; [by destruct (Hno a)|done].
Qed.

(** ** Voting for a higher view *)
Definition with_newView (v : Z) (m : VCM) : VCM :=
  mkVCM (vm_gen m) (mkVC v (vc_lastStable (vm_vc m)) (vc_elements (vm_vc m))).

Lemma with_newView_ok v m i : vcm_ok i m → vcm_ok i (with_newView v m).
Proof. done. Qed.

Lemma getMyLatest_ok s m : core s → myVC info s = Some m → getMyLatestViewChangeMsg info s = Ok (Some m).
Proof.
  intros H Hm. unfold getMyLatestViewChangeMsg. rewrite (myVC_lookup info maxSig Hwf s H), Hm. ok_step. done.
Qed.

Lemma pendingVCs_replace s v m nv i : viewChangeMsgsOfPendingView s !! i = Some (Some m) →
  option_map vc_elements <$> pendingVCs (set_pending s (<[i := Some (with_newView v m)]> (viewChangeMsgsOfPendingView s)) nv) =
  option_map vc_elements <$> pendingVCs s.
Proof.
  intros Hi. unfold pendingVCs. simpl. change (@map ?A ?B ?f ?l) with (f <$> l).
  rewrite !list_fmap_insert. apply list_insert_id. by rewrite !list_lookup_fmap, Hi.
Qed.

Lemma moveMyViewChange_ok s v m : inv s → stat s ≠ IN_VIEW → myVC info s = Some m → vm_newView m <= v →
  ∃ s', moveMyViewChange info s v = Ok s' ∧ inv s' ∧ myVC info s' = Some (with_newView v m) ∧
    myLatestActiveView s' = myLatestActiveView s ∧ myLatestPendingView s' = myLatestPendingView s.
Proof.
  intros [H Hs] Hst Hm Hv. pose proof (ReplicasInfo.wf_my _ Hwf) as Hid.
  pose proof (c_pend_len _ _ s H) as Hpl. pose proof (c_vcs_len _ _ s H) as Hvl.
  unfold moveMyViewChange. rewrite (getMyLatest_ok s m H Hm). ok_step. unfold setNewViewNumber.
  rewrite (proj2 (Z.leb_le _ _) Hv). cbn [Assert]. do 2 ok_step. fold (with_newView v m).
  pose proof (c_mine _ _ s H m Hm) as Hmine. pose proof (myVC_ok info maxSig s m H Hm) as Hmok.
  destruct (at_in (viewChangeMsgsOfPendingView s) myId) as (q & Hq & ->); [lia|]. ok_step.
  destruct q as [m0|].
  - assert (m0 = m) as ->. { unfold myVC in Hm. rewrite Hq in Hm. congruence. }
    rewrite put_in by lia. ok_step. eexists. split; [done|].
    assert (myVC info (set_pending s (<[Z.to_nat myId := Some (with_newView v m)]> (viewChangeMsgsOfPendingView s))
      (newViewMsgOfOfPendingView s)) = Some (with_newView v m)) as Hnew.
    { unfold myVC. simpl. by rewrite list_lookup_insert_eq by lia. }
    split_and!; try done. split.
    + pose proof (c_nv _ _ s H) as Hnv. destruct H. constructor; simpl; try done.
      * by rewrite length_insert.
      * intros i m' [(<- & [= <-] & _)|[? ?]]%list_lookup_insert_Some; [done|by apply c_pend0].
      * intros m' Hm'. rewrite Hnew in Hm'. by injection Hm' as <-.
      * destruct (newViewMsgOfOfPendingView s); [|by destruct Hnv as [Hnv _]; apply Hnv in Hq].
        destruct Hnv as [? <-]. split; [done|]. by rewrite (present_replace _ _ _ _ Hq).
    + unfold stat_ok in *. simpl. destruct (stat s); try done. destruct Hs as [? (arr & ? & E)]. split; [done|].
      exists arr. split; [done|]. etrans; [|exact E]. apply computeRestrictions_ext. by apply pendingVCs_replace.
  - rewrite put_in by lia. ok_step. eexists. split; [done|].
    assert (myVC info (set_vc s (<[Z.to_nat myId := Some (with_newView v m)]> (viewChangeMessages s)))
      = Some (with_newView v m)) as Hnew.
    { unfold myVC. simpl. rewrite Hq. by rewrite list_lookup_insert_eq by lia. }
    split_and!; try done. split.
    + destruct H. constructor; simpl; try done.
      * by rewrite length_insert.
      * intros i m' [(<- & [= <-] & _)|[_ ?]]%list_lookup_insert_Some; [done|by apply c_vcs0].
      * intros m' Hm'. rewrite Hnew in Hm'. by injection Hm' as <-.
    + unfold stat_ok in *. simpl. by destruct (stat s).
Qed.

(** ** The views known to be requested *)

(** The view numbers beyond [pending] of the given messages. *)
Definition viewsBeyond (pending : Z) (vcs : list (option VCM)) : list Z :=
  filter (fun v => pending < v) (vm_newView <$> present vcs).

(** The latest message of every replica, my own one included. *)
Definition latestVCs (s : t) : list (option VCM) := <[Z.to_nat myId := myVC info s]> (viewChangeMessages s).

Lemma viewsBeyond_cons pending vc vcs : viewsBeyond pending (vc :: vcs) =
  match vc with
  | Some m => if pending <? vm_newView m then vm_newView m :: viewsBeyond pending vcs else viewsBeyond pending vcs
  | None => viewsBeyond pending vcs
  end.
Proof.
  unfold viewsBeyond. destruct vc as [m|]; [|done]. rewrite present_some, fmap_cons, filter_cons.
  destruct (Z.ltb_spec pending (vm_newView m)); case_decide; done || lia.
Qed.

Lemma collectViews_other my pending vcs : ∀ i, myId < i → collectViews info my vcs i pending = viewsBeyond pending vcs.
Proof.
  induction vcs as [|vc vcs IH]; intros i Hi; [done|]. cbn [collectViews]. rewrite (proj2 (Z.eqb_neq _ _)) by lia.
  by rewrite IH, viewsBeyond_cons by lia.
Qed.

Lemma collectViews_eq my pending vcs : ∀ i, i <= myId →
  collectViews info my vcs i pending = viewsBeyond pending (<[Z.to_nat (myId - i) := my]> vcs).
Proof.
  induction vcs as [|vc vcs IH]; intros i Hi; [done|]. cbn [collectViews]. destruct (Z.eqb_spec i myId).
  - replace (Z.to_nat (myId - i)) with 0%nat by lia. cbn [insert list_insert]. rewrite viewsBeyond_cons.
    by rewrite collectViews_other by lia.
  - replace (Z.to_nat (myId - i)) with (S (Z.to_nat (myId - (i + 1)))) by lia. cbn [insert list_insert].
    rewrite viewsBeyond_cons. by rewrite IH by lia.
Qed.

(** The [k]-th highest requested view (from 0). *)
Lemma kth_view l k : 0 <= k < Z.of_nat (length l) → ∃ x, at_ (sortStable l) k = Ok x ∧ x ∈ l ∧
  k + 1 <= count (fun v => x <= v) l ∧ count (fun v => x < v) l <= k.
Proof.
  intros Hk. pose proof (sortStable_perm l) as Hp.
  destruct (at_in (sortStable l) k) as (x & Hx & ->); [rewrite Hp; lia|].
  destruct (decreasing_counts _ _ x (sortStable_sorted l) Hx) as [H1 H2].
  pose proof (count_disjoint (fun z => z <= x) (fun v => x < v) (sortStable l) ltac:(intros z Hz Hz'; simpl in *; lia)) as H3.
  rewrite (count_perm (fun z => x <= z) _ _ Hp) in H1. rewrite (count_perm (fun z => z <= x) _ _ Hp) in H2, H3.
  rewrite (count_perm (fun v => x < v) _ _ Hp) in H3. rewrite (Permutation_length Hp) in H2, H3. exists x. split_and!; [done| |lia|lia].
  rewrite <- Hp. apply list_elem_of_lookup. eauto.
Qed.

Lemma viewNumbers_post s : core s → (myLatestPendingView s = 0 ∨ myVC info s ≠ None) →
  let views := viewsBeyond (myLatestPendingView s) (latestVCs s) in
  ∃ c a, computeCorrectRelevantViewNumbers info s = Ok (c, a) ∧
    (if Z.of_nat (length views) <? F + 1 then c = myLatestPendingView s
     else c ∈ views ∧ F + 1 <= count (fun v => c <= v) views ∧ count (fun v => c < v) views <= F) ∧
    (if Z.of_nat (length views) <? 2 * F + 2 * C + 1 then a = myLatestPendingView s
     else a ∈ views ∧ 2 * F + 2 * C + 1 <= count (fun v => a <= v) views ∧
          count (fun v => a < v) views <= 2 * F + 2 * C).
Proof.
  intros H Hmy views. pose proof (ReplicasInfo.wf_my _ Hwf). pose proof (SMAJOR_eq info Hwf) as HS.
  assert (u16 (F + 1) = F + 1) as HF by (rewrite u16_small; destruct Hwf; lia).
  unfold computeCorrectRelevantViewNumbers. cbv zeta. rewrite HF.
  unfold getMyLatestViewChangeMsg. rewrite (myVC_lookup info maxSig Hwf s H). ok_step.
  assert (bool_decide (myVC info s ≠ None) || (myLatestPendingView s =? 0) = true) as ->.
  { destruct Hmy as [->|?]; [by rewrite orb_true_r|]. by rewrite bool_decide_eq_true_2. }
  cbn [Assert]. do 2 ok_step. rewrite collectViews_eq by lia. rewrite Z.sub_0_r. fold (latestVCs s). fold views.
  pose proof (ReplicasInfo.wf_f _ Hwf). pose proof (ReplicasInfo.wf_c _ Hwf).
  destruct (Z.ltb_spec (Z.of_nat (length views)) (F + 1)).
  { do 2 eexists. split_and!; [done|done|]. by rewrite (proj2 (Z.ltb_lt _ _)) by lia. }
  destruct (kth_view views 0 ltac:(lia)) as (x0 & -> & Hx0 & _ & Hmax). ok_step.
  destruct (kth_view views (Z.of_nat (length views) - 1) ltac:(lia)) as (x1 & -> & Hx1 & _). ok_step.
  assert (x1 <= x0) as Hle.
  { destruct (decide (x1 <= x0)); [done|]. pose proof (count_pos (fun v => x0 < v) x1 views Hx1 ltac:(simpl; lia)). lia. }
  rewrite (proj2 (Z.leb_le _ _) Hle). cbn [Assert]. ok_step.
  destruct (kth_view views (F + 1 - 1) ltac:(lia)) as (c & -> & Hc1 & Hc2 & Hc3). ok_step. rewrite HS.
  destruct (Z.ltb_spec (Z.of_nat (length views)) (2 * F + 2 * C + 1)).
  { do 2 eexists. split_and!; [done|done|lia|lia|done]. }
  destruct (kth_view views (2 * F + 2 * C + 1 - 1) ltac:(lia)) as (a & -> & Ha1 & Ha2 & Ha3). ok_step.
  do 2 eexists. split_and!; [done|done|lia|lia|done|lia|lia].
Qed.
End ops.

(** ** Runs *)

(** The calls of the replica, and its own allocations and deallocations. *)
Inductive op :=
  | AddNewView (m : NV)
  | AddViewChange (m : VCM)
  | ExitView (currentLastStable currentLastExecuted : Z) (l : list PrevViewInfo)
  | VoteForView (v : Z)
  | TryToEnter (v currentLastStable currentLastExecuted : Z)
  | AddMissing (p currentLastStable : Z)
  | Allocate (pp : PP)
  | Deallocate (a : Z).

Section runs.
Context (info : ReplicasInfo.t) (msgDigest : VCM → Digest) (verify : Digest → list Z → bool)
        (nullDigest : Digest) (mySigLength maxSig : Z).
#[local] Abbreviation N := (ReplicasInfo._numberOfReplicas info).
#[local] Abbreviation F := (ReplicasInfo._fVal info).
#[local] Abbreviation C := (ReplicasInfo._cVal info).
#[local] Abbreviation myId := (ReplicasInfo._myId info).
#[local] Abbreviation inv := (inv info verify nullDigest maxSig).

Definition exec (s : t) (o : op) : res t :=
  match o with
  | AddNewView m => snd <$> addNewView info s m
  | AddViewChange m => snd <$> addViewChange info msgDigest s m
  | ExitView cls cle l => snd <$> exitFromCurrentView info mySigLength s cls cle l
  | VoteForView v => moveMyViewChange info s v
  | TryToEnter v cls cle => snd <$> tryToEnterView info msgDigest verify nullDigest s v cls cle
  | AddMissing p cls => snd <$> addPotentiallyMissingPP s p cls
  | Allocate pp =>
      Ok (set_pps s (collectionOfPrePrepareMsgs s) (prePrepareMsgsOfRestrictions s)
            (<[nextAddr s := pp]> (heap s)) (nextAddr s + 1))
  | Deallocate a =>
      Ok (set_pps s (collectionOfPrePrepareMsgs s) (prePrepareMsgsOfRestrictions s)
            (base.delete a (heap s)) (nextAddr s))
  end.

(** The obligations of the caller of [tryToEnterView]. *)
Record enter_pre (s : t) (v cls : Z) : Prop := {
  en_stat : stat s ≠ IN_VIEW;
  en_views : myLatestActiveView s < v ∧ myLatestPendingView s <= v ∧ debugHighestViewNumberPassedByClient s <= v;
  en_stable : debugHighestKnownStable s <= cls;
  en_vote : my_vote_ready info s v;
}.

(** The obligations of the caller of every operation, and what is assumed of messages.  The checks of
    [ToActualMsgType] give the sender and the number of elements of a new-view message; that a
    view-change message can be decoded, to legal elements ([vc_legal]), is assumed: the checks accept
    messages that the elements iterator cannot read ([ViewChangeMsg.accepted_message_fails_iterator]).
    A message passed is not yet the manager's. *)
Definition op_pre (s : t) (o : op) : Prop :=
  match o with
  | AddNewView m => nv_sender m ≠ myId ∧ nv_sender m = ReplicasInfo.primaryOfView info (nv_view m) ∧
      0 <= nv_view m ∧ Z.of_nat (length (nv_elems m)) = SMAJOR info
  | AddViewChange m => 0 <= vm_gen m < N ∧ vm_gen m ≠ myId ∧ 0 <= vm_newView m ∧ vc_legal (vm_vc m)
  | ExitView cls cle l => ∃ xs, exit_pre maxSig s cls cle l xs
  | VoteForView v => stat s ≠ IN_VIEW ∧ ∃ m, myVC info s = Some m ∧ vm_newView m <= v
  | TryToEnter v cls cle => enter_pre s v cls
  | AddMissing p cls => stat s = PENDING_WITH_RESTRICTIONS ∧ ¬ owns s p ∧
      ∃ pp, heap s !! p = Some pp ∧ pp_null pp = false
  | Allocate pp => True
  | Deallocate a => ¬ owns s a
  end.

Inductive reachable : t → Prop :=
  | reachable_init s : ctor info = Ok s → reachable s
  | reachable_step s o s' : reachable s → op_pre s o → exec s o = Ok s' → reachable s'.

Context (Hwf : ReplicasInfo.wf info) (HFC : 1 <= F + C) (HN : N <= 1800)
        (Hdig : ∀ m, Digest.isZero (msgDigest m) = false)
        (Hmax : 0 <= maxSig) (Hsig : 0 <= mySigLength)
        (Hsize : 24 + 300 * (59 + maxSig) + mySigLength <= maxExternalMessageSize).

Lemma tryToEnterView_enter s v cls cle : inv s → enter_pre s v cls →
  ∃ b out s', tryToEnterView info msgDigest verify nullDigest s v cls cle = Ok (b, out, s') ∧
    enter_post info verify nullDigest maxSig s v cls cle b out s'.
Proof. intros HI [H1 (H2 & H3 & H4) H5 H6]. by apply tryToEnterView_post. Qed.

Lemma stat_ok_heap s h next : stat_ok info verify nullDigest s →
  stat_ok info verify nullDigest (set_pps s (collectionOfPrePrepareMsgs s) (prePrepareMsgsOfRestrictions s) h next).
Proof. done. Qed.

Lemma alloc_ok s pp : inv s → ∃ s', exec s (Allocate pp) = Ok s' ∧ inv s'.
Proof.
  intros [H Hs]. eexists. split; [done|]. split; [|by apply stat_ok_heap].
  pose proof (c_fresh _ _ s H) as Hf. destruct H. constructor; simpl; try done.
  - eapply pps_ok_live; [|done]. intros. by apply live_insert_fresh.
  - intros k a Ha. apply live_insert_fresh; [done|]. by apply c_coll0.
  - intros a. destruct (decide (a = nextAddr s)) as [->|]; [lia|]. rewrite lookup_insert_ne by done. intros ?%Hf. lia.
Qed.

Lemma exec_ok s o : inv s → op_pre s o → ∃ s', exec s o = Ok s' ∧ inv s'.
Proof.
  intros HI Hpre. destruct o; cbn [exec op_pre] in *.
  - destruct (addNewView_ok info verify nullDigest maxSig Hwf s m HI) as (b & s' & -> & ?); [naive_solver..|]. by exists s'.
  - destruct (addViewChange_ok info msgDigest verify nullDigest maxSig Hwf s m HI) as (b & s' & -> & ?); [naive_solver..|]. by exists s'.
  - destruct Hpre as [xs Hx]. destruct (exitFromCurrentView_post info verify nullDigest mySigLength maxSig Hmax Hsig Hsize Hwf s _ _ _ xs HI Hx)
      as (m & s' & -> & [? _]). by exists s'.
  - destruct Hpre as (? & m & ? & ?). destruct (moveMyViewChange_ok info verify nullDigest maxSig Hwf s v m HI) as (s' & -> & ? & _); [done..|].
    by exists s'.
  - destruct (tryToEnterView_enter s v currentLastStable currentLastExecuted HI Hpre) as (b & out & s' & -> & [? _]). by exists s'.
  - destruct Hpre as (? & ? & pp & ? & ?).
    destruct (addPotentiallyMissingPP_post info verify nullDigest maxSig s p pp currentLastStable HI) as (b & s' & -> & [? _]); [done..|].
    by exists s'.
  - by apply alloc_ok.
  - eexists. split; [done|]. destruct HI as [H Hs]. split; [by apply core_free|by apply stat_ok_heap].
Qed.

Lemma reachable_inv s : reachable s → inv s.
Proof.
  induction 1 as [s Hs|s o s' _ IH Hpre He].
  - destruct (ctor_inv info verify nullDigest maxSig Hwf) as (s0 & E & ?). congruence.
  - destruct (exec_ok s o IH Hpre) as (s1 & E & ?). congruence.
Qed.

(** Running a list of operations. *)
Fixpoint runOps (s : t) (os : list op) : res t :=
  match os with
  | [] => Ok s
  | o :: os' => s' ← exec s o; runOps s' os'
  end.
End runs.

(** The configuration: a legal number of replicas, digests that are not all zero,
    and signatures short enough for a view-change message of a full window. *)
Record config_ok (info : ReplicasInfo.t) (msgDigest : VCM → Digest) (mySigLength maxSig : Z) : Prop := {
  cfg_wf : ReplicasInfo.wf info;
  cfg_fc : 1 <= ReplicasInfo._fVal info + ReplicasInfo._cVal info;
  cfg_n : ReplicasInfo._numberOfReplicas info <= 1800;
  cfg_digest : ∀ m, Digest.isZero (msgDigest m) = false;
  cfg_sig : 0 <= maxSig ∧ 0 <= mySigLength;
  cfg_size : 24 + 300 * (59 + maxSig) + mySigLength <= maxExternalMessageSize;
}.

(** ** Properties *)
Section properties.
Context (info : ReplicasInfo.t) (msgDigest : VCM → Digest) (verify : Digest → list Z → bool)
        (nullDigest : Digest) (mySigLength maxSig : Z).
#[local] Abbreviation F := (ReplicasInfo._fVal info).
#[local] Abbreviation C := (ReplicasInfo._cVal info).
#[local] Abbreviation exec := (exec info msgDigest verify nullDigest mySigLength).
#[local] Abbreviation op_pre := (op_pre info maxSig).
#[local] Abbreviation reachable := (reachable info msgDigest verify nullDigest mySigLength maxSig).
#[local] Abbreviation inv := (inv info verify nullDigest maxSig).

(** The message handed out for a restricted number. *)
Lemma out_restricted s v cls h out sq d : core info maxSig s → restricted info verify nullDigest s →
  out_ok nullDigest s v cls h out → cls < sq →
  lowerBoundStableForPendingView s + 1 <= sq →
  restrictionsOfPendingView s !! Z.to_nat (sq - (lowerBoundStableForPendingView s + 1)) = Some (mkRestriction false d) →
  minRestrictionOfPendingView s <= sq <= maxRestrictionOfPendingView s →
  newViewMsgs_ok F C (pendingVCs s) →
  ∃ a pp, a ∈ out ∧ h !! a = Some pp ∧ pp_seq pp = sq ∧ pp_view pp = v ∧ pp_digest pp = d.
Proof.
  intros H (arr & Harr & E) Ho Hcls Hlb Hr Hrange Hok. pose proof (c_lb _ _ s H).
  destruct (computeRestrictions_entries F C verify nullDigest (pendingVCs s) (lowerBoundStableForPendingView s) arr)
    as (rs & mn & mx & E' & _ & Hmn & _); [apply Hok|done|by rewrite Harr|].
  rewrite E in E'. injection E' as <- <- <-.
  destruct Hmn as [[? ?]|[Hmn _]]; [lia|].
  assert (sq ∈ relevant s cls) as [i Hi]%list_elem_of_lookup by (rewrite elem_relevant; lia).
  destruct (Forall2_lookup_l _ _ _ _ _ Ho Hi) as (a & Ha & r & Hr' & pp & Hpp & He1 & He2 & _ & He4).
  rewrite Hmn, Hr in Hr'. injection Hr' as <-. exists a, pp. split_and!; try done. apply list_elem_of_lookup. eauto.
Qed.

Lemma pending_msgs_ok s nv : ReplicasInfo.wf info → core info maxSig s → newViewMsgOfOfPendingView s = Some nv →
  Forall (fun vc => digests32 (vc_elements vc)) (present (pendingVCs s)) → newViewMsgs_ok F C (pendingVCs s).
Proof. intros Hwf H Hn Hd. destruct (pending_ok info maxSig Hwf s nv H Hn) as [? ?]. constructor; [done|done|lia]. Qed.

(** C4: in every run in which the caller keeps its obligations, no operation of
    the views manager fails an assertion, leaves an array or touches or frees a
    message that is not allocated, and the invariant holds throughout. *)
Theorem viewsManager_safe s : config_ok info msgDigest mySigLength maxSig → reachable s →
  inv s ∧ ∀ o, op_pre s o → ∃ s', exec s o = Ok s' ∧ inv s'.
Proof.
  intros [H1 H2 H3 H4 [H5 H6] H7] Hr. assert (inv s) as HI by (by eapply reachable_inv).
  split; [done|]. intros o Ho. by eapply exec_ok.
Qed.

(** C9: trying to enter a view, in a state that satisfies the invariant (in particular the view-change messages received are
    legal messages that can be decoded) and with the obligations of the caller kept ([enter_pre]: the replica is in no view, the
    view is new, the stable number does not go back, the own view-change message is for the view), does not fail; when it succeeds the replica is in
    the view, and hands out, for every number of the restrictions above the
    last stable one, in order, the message with the digest of its restriction (a
    null message where there is none); it fails to enter only when the state or
    the stable point is behind, the view has not enough messages, or a restricted
    message is missing.  Every message given up is handed out or deallocated. *)
Theorem tryToEnterView_spec s v cls cle : config_ok info msgDigest mySigLength maxSig →
  inv s → enter_pre info s v cls →
  ∃ b out s', tryToEnterView info msgDigest verify nullDigest s v cls cle = Ok (b, out, s') ∧
    enter_post info verify nullDigest maxSig s v cls cle b out s'.
Proof. intros [H1 H2 H3 H4 [H5 H6] H7] HI Hp. by eapply tryToEnterView_enter. Qed.

(** C5: safety of the view change: when a replica enters a view (in a state that satisfies the invariant, with the obligations of the caller
    kept), a digest for which one of the view's messages has a valid prepared certificate is proposed again for its number, in the new
    view, under these conditions: the number is above the last stable one and in the window; no valid certificate of the same or a later
    view is for another digest and no other digest has f+c+1 votes from later views; the digest is not that of a null batch; and
    the certificates for the number with the same view and digest are all valid or all invalid ([consistent]; without it the property
    fails, see [invalid_certificate_shadows_valid]). *)
Theorem prepared_proposed_again s v cls cle out s' sq x : config_ok info msgDigest mySigLength maxSig →
  inv s → enter_pre info s v cls →
  tryToEnterView info msgDigest verify nullDigest s v cls cle = Ok (true, out, s') →
  Forall (fun vc => digests32 (vc_elements vc)) (present (pendingVCs s')) →
  cls < sq <= lowerBoundStableForPendingView s' + kWorkWindowSize →
  consistent verify (elements_at sq (pendingVCs s')) →
  x ∈ omap toSlow (elements_at sq (pendingVCs s')) → certificate_valid verify x = true →
  e_prePrepreDigest (sl_e x) ≠ nullDigest →
  (∀ y, y ∈ omap toSlow (elements_at sq (pendingVCs s')) → certificate_valid verify y = true →
     sl_view x <= sl_view y → e_prePrepreDigest (sl_e y) = e_prePrepreDigest (sl_e x)) →
  (∀ d, d ≠ e_prePrepreDigest (sl_e x) →
     fast_votes (elements_at sq (pendingVCs s')) (sl_view x + 1) d < F + C + 1) →
  ∃ a pp, a ∈ out ∧ heap s' !! a = Some pp ∧ pp_seq pp = sq ∧ pp_view pp = v ∧
    pp_digest pp = e_prePrepreDigest (sl_e x).
Proof.
  intros [H1 H2 H3 H4 [H5 H6] H7] HI Hp Htry Hd Hsq Hcons Hx Hv Hnn Hsame Hfast.
  destruct (tryToEnterView_enter info msgDigest verify nullDigest maxSig H1 H2 H3 H4 s v cls cle HI Hp)
    as (b & out' & s'' & E & [[Hc _] _ Hres]). rewrite Htry in E. injection E as <- <- <-.
  destruct Hres as (_ & _ & _ & Hnv' & Hr & Hlb & Ho).
  destruct (newViewMsgOfOfPendingView s') as [nv|] eqn:Hnv; [|done].
  pose proof (pending_msgs_ok s' nv H1 Hc Hnv Hd) as Hok. pose proof (c_lb _ _ s' Hc).
  pose proof Hr as (arr & Harr & Ecr).
  destruct (entry_restricts F C verify nullDigest ltac:(lia) ltac:(destruct H1; lia) (pendingVCs s') (lowerBoundStableForPendingView s') arr)
    as (rs & mn & mx & E & He); [done|done|by rewrite Harr|]. rewrite Ecr in E. injection E as <- <- <-.
  destruct (He sq ltac:(lia) Hcons) as (o & r & Hor & Hrs & Hen & Hrange).
  rewrite (restricts_prepared F C verify _ o x Hor Hx Hv Hsame Hfast) in Hen. simpl in Hen.
  unfold Digest.eqb in Hen. rewrite bool_decide_eq_false_2 in Hen by done. subst r.
  eapply out_restricted; try done; [lia|lia|by apply Hrange].
Qed.

(** C11: in a pending view whose restrictions are known (status [PENDING_WITH_RESTRICTIONS]), when the lower bound of the
    view is at most the last stable number and this at most the last executed one, the reported
    missing numbers are exactly the restricted numbers above the last stable one that
    have no message, and the view is entered exactly when there are none. *)
Theorem missing_numbers_block_entry s cls cle : config_ok info msgDigest mySigLength maxSig →
  inv s → stat s = PENDING_WITH_RESTRICTIONS → enter_pre info s (myLatestPendingView s) cls →
  lowerBoundStableForPendingView s <= cls <= cle →
  ∃ l out s', getNumbersOfMissingPP s cls = Ok (negb (bool_decide (l = [])), l) ∧
    (∀ j, j ∈ l ↔ j ∈ relevant s cls ∧ missingNo s j) ∧
    tryToEnterView info msgDigest verify nullDigest s (myLatestPendingView s) cls cle =
      Ok (bool_decide (l = []), out, s').
Proof.
  intros [H1 H2 H3 H4 [H5 H6] H7] HI Hst [E1 (E2 & E3 & E4) E5 E6] Hlb.
  destruct (getNumbersOfMissingPP_post info maxSig s cls (proj1 HI) Hst) as (l & El & _ & Hl).
  exists l. pose proof HI as [H Hs]. unfold stat_ok in Hs. rewrite Hst in Hs. destruct Hs as [Hnv Hr].
  set (s0 := set_bounds s (lowerBoundStableForPendingView s) cls (myLatestPendingView s)).
  assert (core info maxSig s0) as Hc0 by (apply core_set_bounds; [done|by apply (c_lb _ _ s H)]).
  destruct (hasMissingMsgs_spec info maxSig s0 cls Hc0 Hst) as (b & Eb & Hb).
  assert (b = false ↔ l = []) as Hbl.
  { rewrite Hb. unfold complete. change (relevant s0 cls) with (relevant s cls). split.
    - intros Hcomp. apply elem_of_nil_inv. intros j [Hj [_ Hm]]%Hl. by apply (Hcomp j).
    - intros -> j Hj Hm. apply (not_elem_of_nil j), Hl. split; [done|]. split; [|done].
      rewrite elem_relevant in Hj. lia. }
  assert (∃ out s', enterPendingView info verify nullDigest s0 (myLatestPendingView s) cls = Ok (negb b, out, s')) as (out & s' & E).
  { unfold enterPendingView. rewrite Z.eqb_refl. cbn [Assert]. ok_step. change (stat s0) with (stat s). rewrite Hst.
    rewrite bool_decide_eq_false_2 by done. ok_step. change (stat s0) with (stat s). rewrite Hst.
    rewrite bool_decide_eq_true_2 by done. cbn [negb]. rewrite Eb. ok_step. destruct b; [by do 2 eexists|].
    destruct (enterView_spec info verify nullDigest maxSig s0 cls Hc0) as (out & s' & Ev & _); [done|done|done|by apply Hb|].
    change (myLatestPendingView s0) with (myLatestPendingView s) in Ev. rewrite Ev. ok_step. by do 2 eexists. }
  exists out, s'. split_and!; [done|done|]. unfold tryToEnterView, inView. rewrite Hst.
  rewrite (bool_decide_eq_false_2 (_ = IN_VIEW)) by done.
  rewrite (proj2 (Z.ltb_lt (myLatestActiveView s) _)), (proj2 (Z.leb_le (myLatestPendingView s) _)) by done.
  rewrite (proj2 (Z.leb_le (debugHighestViewNumberPassedByClient s) _)), (proj2 (Z.leb_le (debugHighestKnownStable s) _)) by done.
  cbn [Assert negb andb]. do 4 ok_step. cbv zeta. fold s0. rewrite (proj2 (Z.ltb_ge cle cls)) by lia.
  change (lowerBoundStableForPendingView s0) with (lowerBoundStableForPendingView s).
  rewrite (proj2 (Z.ltb_ge cls _)) by lia. change (myLatestPendingView s0) with (myLatestPendingView s).
  rewrite Z.ltb_irrefl. ok_step. cbn [negb]. rewrite E. do 3 f_equal.
  destruct b; [rewrite bool_decide_eq_false_2; [done|]; intros Hl0; by apply Hbl in Hl0|by rewrite bool_decide_eq_true_2 by (by apply Hbl)].
Qed.

(** C10: leaving a view never fails; the view-change message reports every prepared
    certificate of the view and every complete message that is not null, and
    every message passed in is kept or deallocated. *)
Theorem exitFromCurrentView_spec s cls cle l xs : config_ok info msgDigest mySigLength maxSig →
  inv s → exit_pre maxSig s cls cle l xs →
  ∃ m s', exitFromCurrentView info mySigLength s cls cle l = Ok (m, s') ∧
    exit_post info verify nullDigest maxSig s cls l xs m s'.
Proof. intros [H1 H2 H3 H4 [H5 H6] H7] HI Hp. by eapply exitFromCurrentView_post. Qed.

(** a message is taken exactly when it fills a missing restriction, and is
    deallocated otherwise; exactly its number stops being missing. *)
Theorem addPotentiallyMissingPP_spec s p pp cls : inv s → stat s = PENDING_WITH_RESTRICTIONS →
  heap s !! p = Some pp → pp_null pp = false → ¬ owns s p →
  ∃ b s', addPotentiallyMissingPP s p cls = Ok (b, s') ∧ addPP_post info verify nullDigest maxSig s p pp b s'.
Proof. apply addPotentiallyMissingPP_post. Qed.

(** destroying the manager in any state of a run deallocates every message it
    owns exactly once, and nothing else. *)
Theorem destructor_frees_owned s : config_ok info msgDigest mySigLength maxSig → reachable s →
  ∃ h, dtor s = Ok h ∧ ∀ a, h !! a = if decide (owns s a) then None else heap s !! a.
Proof.
  intros [H1 H2 H3 H4 [H5 H6] H7] Hr. apply (dtor_post info maxSig).
  by eapply (reachable_inv info msgDigest verify nullDigest mySigLength maxSig).
Qed.

(** of the views beyond the pending one that the latest view-change messages ask
    for, the reported ones are the (f+1)-th and the (2f+2c+1)-th highest. *)
Theorem viewNumbers_spec s : ReplicasInfo.wf info → core info maxSig s →
  (myLatestPendingView s = 0 ∨ myVC info s ≠ None) →
  let views := viewsBeyond (myLatestPendingView s) (latestVCs info s) in
  ∃ c a, computeCorrectRelevantViewNumbers info s = Ok (c, a) ∧
    (if Z.of_nat (length views) <? F + 1 then c = myLatestPendingView s
     else c ∈ views ∧ F + 1 <= count (fun v => c <= v) views ∧ count (fun v => c < v) views <= F) ∧
    (if Z.of_nat (length views) <? 2 * F + 2 * C + 1 then a = myLatestPendingView s
     else a ∈ views ∧ 2 * F + 2 * C + 1 <= count (fun v => a <= v) views ∧
          count (fun v => a < v) views <= 2 * F + 2 * C).
Proof. intros Hwf. by apply viewNumbers_post. Qed.
End properties.

(** ** A run of replica 1 of four: it leaves view 0 with a prepared request and
    becomes the primary of view 1. *)
Definition sampleInfo : ReplicasInfo.t :=
  ReplicasInfo.mk 1 4 1 0 true true (ReplicasInfo.generateSetOfReplicas_helpFunc 4)
    (ReplicasInfo.generateSetOfPeerReplicas_helpFunc 1 4).
Definition sampleHash (m : VCM) : Digest := dig 1.
Definition sampleNull : Digest := dig 9.

Lemma sample_config : config_ok sampleInfo sampleHash 64 100.
Proof. constructor; simpl; unfold maxExternalMessageSize; try lia; try done. Qed.

Definition emptyState : t := mk NO_VIEW 0 0 [] [] ∅ [] None 0 0 [] [] 0 0 0 ∅ 0.
Definition sampleState (os : list op) : t :=
  match ctor sampleInfo ≫= fun s => runOps sampleInfo sampleHash verify1 sampleNull 64 s os with
  | Ok s => s
  | Err _ => emptyState
  end.

Definition samplePP : PP := mkPP 1 0 (dig 7) false.
Definition sampleExit : list PrevViewInfo := [mkPrev (Some 0) true (Some (mkPF 1 0 [1]))].
Definition sampleVC2 : VCM := mkVCM 2 (mkVC 1 0 [mkElement 1 (dig 7) 0 (Some (0, [1]))]).
Definition sampleVC3 : VCM := mkVCM 3 (mkVC 1 0 []).

#[local] Abbreviation sample_reachable := (reachable sampleInfo sampleHash verify1 sampleNull 64 100).
#[local] Abbreviation sample_inv := (inv sampleInfo verify1 sampleNull 100).

Lemma sample_step os o : sample_reachable (sampleState os) → op_pre sampleInfo 100 (sampleState os) o →
  exec sampleInfo sampleHash verify1 sampleNull 64 (sampleState os) o = Ok (sampleState (os ++ [o])) →
  sample_reachable (sampleState (os ++ [o])).
Proof. intros. by eapply reachable_step. Qed.

Lemma sample_exit_pre : exit_pre 100 (sampleState [Allocate samplePP]) 0 0 sampleExit [(0, samplePP)].
Proof.
  constructor; [vm_compute; done|vm_compute; done|vm_compute; done| |repeat constructor].
  constructor; [|constructor]. constructor; try (vm_compute; done).
  intros pf [= <-]. repeat split; vm_compute; done.
Qed.

Definition sampleVotes : list op :=
  [Allocate samplePP; ExitView 0 0 sampleExit; AddViewChange sampleVC2; AddViewChange sampleVC3].

Lemma sampleVotes_reachable : sample_reachable (sampleState sampleVotes).
Proof.
  assert (sample_reachable (sampleState [])) as H0 by (by apply reachable_init).
  apply (sample_step [] (Allocate samplePP)) in H0; [|done|vm_compute; reflexivity].
  apply (sample_step [Allocate samplePP] (ExitView 0 0 sampleExit)) in H0;
    [|eexists; apply sample_exit_pre|vm_compute; reflexivity].
  apply (sample_step [Allocate samplePP; ExitView 0 0 sampleExit] (AddViewChange sampleVC2)) in H0;
    [| |vm_compute; reflexivity].
  2: { cbn. split_and!; try done. apply legal_one. intros ? ? [= <- <-]. done. }
  apply (sample_step [Allocate samplePP; ExitView 0 0 sampleExit; AddViewChange sampleVC2] (AddViewChange sampleVC3)) in H0;
    [done| |vm_compute; reflexivity].
  cbn. split_and!; try done; repeat constructor.
Qed.

Lemma sampleVotes_inv : sample_inv (sampleState sampleVotes).
Proof. destruct sample_config as [? ? ? ? [? ?] ?]. eapply reachable_inv; try done. apply sampleVotes_reachable. Qed.

Lemma sample_enter_pre : enter_pre sampleInfo (sampleState sampleVotes) 1 0.
Proof.
  constructor; [vm_compute; done|vm_compute; repeat split; congruence|vm_compute; done|].
  eexists. split; [vm_compute; reflexivity|reflexivity].
Qed.

Lemma viewsManager_safe_witness : sample_inv (sampleState sampleVotes) ∧
  ∃ s', exec sampleInfo sampleHash verify1 sampleNull 64 (sampleState sampleVotes) (TryToEnter 1 0 0) = Ok s' ∧ sample_inv s'.
Proof.
  destruct (viewsManager_safe _ _ _ _ _ _ _ sample_config sampleVotes_reachable) as [H1 H2].
  split; [exact H1|]. apply (H2 (TryToEnter 1 0 0)). exact sample_enter_pre.
Defined.

Lemma tryToEnterView_spec_witness : ∃ b out s',
  tryToEnterView sampleInfo sampleHash verify1 sampleNull (sampleState sampleVotes) 1 0 0 = Ok (b, out, s') ∧
  enter_post sampleInfo verify1 sampleNull 100 (sampleState sampleVotes) 1 0 0 b out s'.
Proof. exact (tryToEnterView_spec _ _ _ _ _ _ _ 1 0 0 sample_config sampleVotes_inv sample_enter_pre). Defined.

Lemma exitFromCurrentView_spec_witness : ∃ m s',
  exitFromCurrentView sampleInfo 64 (sampleState [Allocate samplePP]) 0 0 sampleExit = Ok (m, s') ∧
  exit_post sampleInfo verify1 sampleNull 100 (sampleState [Allocate samplePP]) 0 sampleExit [(0, samplePP)] m s'.
Proof.
  apply (exitFromCurrentView_spec _ sampleHash _ _ _ _ _ 0 0 _ _ sample_config); [|exact sample_exit_pre].
  destruct sample_config as [? ? ? ? [? ?] ?]. eapply (reachable_inv sampleInfo sampleHash verify1 sampleNull 64 100); try done.
  apply (sample_step [] (Allocate samplePP)); [by apply reachable_init|done|vm_compute; reflexivity].
Defined.

(** The outcome of entering view 1. *)
Definition sampleEntered : bool * list Z * t :=
  match tryToEnterView sampleInfo sampleHash verify1 sampleNull (sampleState sampleVotes) 1 0 0 with
  | Ok r => r
  | Err _ => (false, [], emptyState)
  end.
Definition sampleSlowElem : SlowElem := mkSlow (mkElement 1 (dig 7) 0 (Some (0, [1]))) 0 [1].

Lemma sampleEntered_slow : omap toSlow (elements_at 1 (pendingVCs sampleEntered.2)) = [sampleSlowElem; sampleSlowElem].
Proof. vm_compute. reflexivity. Qed.

Lemma prepared_proposed_again_witness : ∃ a pp, a ∈ sampleEntered.1.2 ∧ heap sampleEntered.2 !! a = Some pp ∧
  pp_seq pp = 1 ∧ pp_view pp = 1 ∧ pp_digest pp = dig 7.
Proof.
  apply (prepared_proposed_again sampleInfo sampleHash verify1 sampleNull 64 100 (sampleState sampleVotes) 1 0 0
    sampleEntered.1.2 sampleEntered.2 1 sampleSlowElem sample_config sampleVotes_inv sample_enter_pre).
  - vm_compute. reflexivity.
  - vm_compute. repeat constructor.
  - vm_compute. split; [reflexivity|congruence].
  - intros y z. rewrite sampleEntered_slow. set_solver.
  - rewrite sampleEntered_slow. left.
  - reflexivity.
  - discriminate.
  - intros y. rewrite sampleEntered_slow. set_solver.
  - intros d _. apply Z.le_lt_trans with (count (fun e => 1 <= e_originView e) (elements_at 1 (pendingVCs sampleEntered.2))).
    + apply count_mono. intros e [_ He]. exact He.
    + vm_compute. reflexivity.
Defined.

(** The same replica without the prepared message: it waits for it. *)
Definition sampleWaiting : list op :=
  [ExitView 0 0 []; AddViewChange sampleVC2; AddViewChange sampleVC3; TryToEnter 1 0 0; Allocate samplePP].

Lemma sampleWaiting_inv : sample_inv (sampleState sampleWaiting).
Proof.
  destruct sample_config as [? ? ? ? [? ?] ?]. eapply (reachable_inv sampleInfo sampleHash verify1 sampleNull 64 100); try done.
  assert (sample_reachable (sampleState [])) as Hrun by (by apply reachable_init).
  apply (sample_step [] (ExitView 0 0 [])) in Hrun; [| |vm_compute; reflexivity].
  2: { exists []. constructor; try (vm_compute; done); repeat constructor. }
  apply (sample_step [ExitView 0 0 []] (AddViewChange sampleVC2)) in Hrun; [| |vm_compute; reflexivity].
  2: { cbn. split_and!; try done. apply legal_one. intros ? ? [= <- <-]. done. }
  apply (sample_step [ExitView 0 0 []; AddViewChange sampleVC2] (AddViewChange sampleVC3)) in Hrun; [| |vm_compute; reflexivity].
  2: { cbn. split_and!; try done; repeat constructor. }
  apply (sample_step [ExitView 0 0 []; AddViewChange sampleVC2; AddViewChange sampleVC3] (TryToEnter 1 0 0)) in Hrun;
    [| |vm_compute; reflexivity].
  2: { constructor; [vm_compute; done|vm_compute; repeat split; congruence|vm_compute; done|].
       eexists. split; [vm_compute; reflexivity|reflexivity]. }
  apply (sample_step [ExitView 0 0 []; AddViewChange sampleVC2; AddViewChange sampleVC3; TryToEnter 1 0 0] (Allocate samplePP)) in Hrun;
    [done|done|vm_compute; reflexivity].
Qed.

Lemma missing_numbers_block_entry_witness : ∃ l out s',
  getNumbersOfMissingPP (sampleState sampleWaiting) 0 = Ok (negb (bool_decide (l = [])), l) ∧
  (∀ j, j ∈ l ↔ j ∈ relevant (sampleState sampleWaiting) 0 ∧ missingNo (sampleState sampleWaiting) j) ∧
  tryToEnterView sampleInfo sampleHash verify1 sampleNull (sampleState sampleWaiting) 1 0 0 =
    Ok (bool_decide (l = []), out, s').
Proof.
  apply (missing_numbers_block_entry sampleInfo sampleHash verify1 sampleNull 64 100 (sampleState sampleWaiting) 0 0
    sample_config sampleWaiting_inv).
  - vm_compute. reflexivity.
  - constructor; [vm_compute; done|vm_compute; repeat split; congruence|vm_compute; done|].
    eexists. split; [vm_compute; reflexivity|reflexivity].
  - vm_compute. split; congruence.
Defined.

Lemma addPotentiallyMissingPP_spec_witness : ∃ b s',
  addPotentiallyMissingPP (sampleState sampleWaiting) 0 0 = Ok (b, s') ∧
  addPP_post sampleInfo verify1 sampleNull 100 (sampleState sampleWaiting) 0 samplePP b s'.
Proof.
  apply (addPotentiallyMissingPP_spec sampleInfo verify1 sampleNull 100 (sampleState sampleWaiting) 0 samplePP 0 sampleWaiting_inv).
  - vm_compute. reflexivity.
  - vm_compute. reflexivity.
  - reflexivity.
  - apply (bool_decide_unpack _). vm_compute. exact I.
Defined.

Lemma destructor_frees_owned_witness : ∃ h, dtor (sampleState sampleVotes) = Ok h ∧
  ∀ a, h !! a = if decide (owns (sampleState sampleVotes) a) then None else heap (sampleState sampleVotes) !! a.
Proof. exact (destructor_frees_owned _ _ _ _ _ _ _ sample_config sampleVotes_reachable). Defined.

Lemma viewNumbers_spec_witness : let s := sampleState sampleVotes in
  ∃ c a, computeCorrectRelevantViewNumbers sampleInfo s = Ok (c, a) ∧ c = 1 ∧ a = 1.
Proof.
  destruct (viewNumbers_spec sampleInfo 100 (sampleState sampleVotes)) as (c & a & E & Hc & Ha).
  - exact (cfg_wf _ _ _ _ sample_config).
  - exact (proj1 sampleVotes_inv).
  - left. vm_compute. reflexivity.
  - exists c, a. split; [exact E|]. vm_compute in E. by injection E as <- <-.
Defined.
End ViewsManagerProps.
