(* ===== verification/DataStore.v ===== *)
(** * InMemoryDataStore
    (bftengine/src/bcstatetransfer/InMemoryDataStore.hpp, .cpp, DataStore.hpp)

    What state transfer keeps besides the blocks of the application: its configuration,
    the descriptors of the stored checkpoints, the reserved pages written since the last
    checkpoint ([pendingPages]) and the versions of the pages by checkpoint ([pages], an
    ordered map: by page, and the latest checkpoint first). *)
From S2P Require Import Prelude SysConsts.

Module InMemoryDataStore.

Record CheckpointDesc := mkDesc {
  checkpointNum : Z;
  lastBlock : Z;
  digestOfLastBlock : Digest;
  digestOfResPagesDescriptor : Digest;
}.
#[export] Instance CheckpointDesc_eq_dec : EqDecision CheckpointDesc.
Proof. solve_decision. Defined.

(** An element of [map<ResPageKey, ResPageVal> pages]. *)
Record Version := mkVersion { pageId : Z; checkpoint : Z; pageDigest : Digest; page : list Z }.

(** [ResPageKey::operator<] *)
Definition key_lt (id1 c1 id2 c2 : Z) : bool :=
  if negb (id1 =? id2) then id1 <? id2 else c2 <? c1.

Record SingleResPageDesc := mkSingle { d_pageId : Z; relevantCheckpoint : Z; d_pageDigest : Digest }.

Record t := mk {
  sizeOfReservedPage_ : Z;
  wasInit_ : bool;
  replicas_ : gset Z;
  myReplicaId_ : Z;
  fVal_ : Z;
  maxNumOfStoredCheckpoints_ : Z;
  numberOfReservedPages_ : Z;
  lastStoredCheckpoint : Z;
  firstStoredCheckpoint : Z;
  descMap : gmap Z CheckpointDesc;
  fetching : bool;
  checkpointBeingFetched : option CheckpointDesc;
  firstRequiredBlock : Z;
  lastRequiredBlock : Z;
  pendingPages : gmap Z (list Z);
  pages : list Version;
}.

Definition UINT16_MAX : Z := 65535.
Definition UINT32_MAX : Z := 4294967295.
Definition UINT64_MAX : Z := 18446744073709551615.

Definition ctor (sizeOfReservedPage : Z) : t :=
  mk sizeOfReservedPage false ∅ UINT16_MAX UINT16_MAX UINT64_MAX UINT32_MAX UINT64_MAX UINT64_MAX ∅ false None
    UINT64_MAX UINT64_MAX ∅ [].

(** ** Configuration *)
Definition set_config (s : t) (init : bool) (reps : gset Z) (my f mx num : Z) : t :=
  mk (sizeOfReservedPage_ s) init reps my f mx num (lastStoredCheckpoint s) (firstStoredCheckpoint s) (descMap s) (fetching s)
    (checkpointBeingFetched s) (firstRequiredBlock s) (lastRequiredBlock s) (pendingPages s) (pages s).

Definition initialized (s : t) : bool := wasInit_ s.
Definition setAsInitialized (s : t) : t :=
  set_config s true (replicas_ s) (myReplicaId_ s) (fVal_ s) (maxNumOfStoredCheckpoints_ s) (numberOfReservedPages_ s).

Definition setReplicas (s : t) (reps : gset Z) : res t :=
  assert! (bool_decide (replicas_ s = ∅)) ;;
  Ok (set_config s (wasInit_ s) reps (myReplicaId_ s) (fVal_ s) (maxNumOfStoredCheckpoints_ s) (numberOfReservedPages_ s)).
Definition getReplicas (s : t) : res (gset Z) := assert! (negb (bool_decide (replicas_ s = ∅))) ;; Ok (replicas_ s).

Definition setMyReplicaId (s : t) (id : Z) : res t :=
  assert! (myReplicaId_ s =? UINT16_MAX) ;;
  Ok (set_config s (wasInit_ s) (replicas_ s) id (fVal_ s) (maxNumOfStoredCheckpoints_ s) (numberOfReservedPages_ s)).
Definition getMyReplicaId (s : t) : res Z := assert! (negb (myReplicaId_ s =? UINT16_MAX)) ;; Ok (myReplicaId_ s).

Definition setFVal (s : t) (f : Z) : res t :=
  assert! (fVal_ s =? UINT16_MAX) ;;
  Ok (set_config s (wasInit_ s) (replicas_ s) (myReplicaId_ s) f (maxNumOfStoredCheckpoints_ s) (numberOfReservedPages_ s)).
Definition getFVal (s : t) : res Z := assert! (negb (fVal_ s =? UINT16_MAX)) ;; Ok (fVal_ s).

Definition setMaxNumOfStoredCheckpoints (s : t) (n : Z) : res t :=
  assert! (0 <? n) ;;
  assert! (maxNumOfStoredCheckpoints_ s =? UINT64_MAX) ;;
  Ok (set_config s (wasInit_ s) (replicas_ s) (myReplicaId_ s) (fVal_ s) n (numberOfReservedPages_ s)).
Definition getMaxNumOfStoredCheckpoints (s : t) : res Z :=
  assert! (negb (maxNumOfStoredCheckpoints_ s =? UINT64_MAX)) ;; Ok (maxNumOfStoredCheckpoints_ s).

Definition setNumberOfReservedPages (s : t) (n : Z) : res t :=
  assert! (0 <? n) ;;
  assert! (numberOfReservedPages_ s =? UINT32_MAX) ;;
  Ok (set_config s (wasInit_ s) (replicas_ s) (myReplicaId_ s) (fVal_ s) (maxNumOfStoredCheckpoints_ s) n).
Definition getNumberOfReservedPages (s : t) : res Z :=
  assert! (negb (numberOfReservedPages_ s =? UINT32_MAX)) ;; Ok (numberOfReservedPages_ s).

(** ** Stored checkpoints *)
Definition set_stored (s : t) (last first : Z) (m : gmap Z CheckpointDesc) : t :=
  mk (sizeOfReservedPage_ s) (wasInit_ s) (replicas_ s) (myReplicaId_ s) (fVal_ s) (maxNumOfStoredCheckpoints_ s)
    (numberOfReservedPages_ s) last first m (fetching s) (checkpointBeingFetched s) (firstRequiredBlock s) (lastRequiredBlock s)
    (pendingPages s) (pages s).

Definition setLastStoredCheckpoint (s : t) (c : Z) : t := set_stored s c (firstStoredCheckpoint s) (descMap s).
Definition getLastStoredCheckpoint (s : t) : Z := lastStoredCheckpoint s.
Definition setFirstStoredCheckpoint (s : t) (c : Z) : t := set_stored s (lastStoredCheckpoint s) c (descMap s).
Definition getFirstStoredCheckpoint (s : t) : Z := firstStoredCheckpoint s.

Definition setCheckpointDesc (s : t) (c : Z) (desc : CheckpointDesc) : res t :=
  assert! (c =? checkpointNum desc) ;;
  assert! (bool_decide (descMap s !! c = None)) ;;
  Ok (set_stored s (lastStoredCheckpoint s) (firstStoredCheckpoint s) (<[c := desc]> (descMap s))).

Definition getCheckpointDesc (s : t) (c : Z) : res CheckpointDesc :=
  match descMap s !! c with
  | None => Err AssertFailed
  | Some desc => assert! (c =? checkpointNum desc) ;; Ok desc
  end.

Definition hasCheckpointDesc (s : t) (c : Z) : bool := bool_decide (is_Some (descMap s !! c)).

(** The loop erases from the beginning of the ordered map, up to the first descriptor
    that is kept. *)
Definition deleteDescOfSmallerCheckpoints (s : t) (c : Z) : res t :=
  assert! (bool_decide (map_Forall (fun k desc => k < c → k = checkpointNum desc) (descMap s))) ;;
  Ok (set_stored s (lastStoredCheckpoint s) (firstStoredCheckpoint s) (filter (fun x => ~ (x.1 < c)) (descMap s))).

(** ** Fetching *)
Definition set_fetch (s : t) (f : bool) (d : option CheckpointDesc) (first last : Z) : t :=
  mk (sizeOfReservedPage_ s) (wasInit_ s) (replicas_ s) (myReplicaId_ s) (fVal_ s) (maxNumOfStoredCheckpoints_ s)
    (numberOfReservedPages_ s) (lastStoredCheckpoint s) (firstStoredCheckpoint s) (descMap s) f d first last
    (pendingPages s) (pages s).

Definition setIsFetchingState (s : t) (b : bool) : t :=
  set_fetch s b (checkpointBeingFetched s) (firstRequiredBlock s) (lastRequiredBlock s).
Definition getIsFetchingState (s : t) : bool := fetching s.

(** [checkpointBeingFetched.checkpointNum == 0] means that there is none. *)
Definition setCheckpointBeingFetched (s : t) (c : CheckpointDesc) : res t :=
  assert! (bool_decide (checkpointBeingFetched s = None)) ;;
  Ok (set_fetch s (fetching s) (if checkpointNum c =? 0 then None else Some c) (firstRequiredBlock s) (lastRequiredBlock s)).
Definition getCheckpointBeingFetched (s : t) : res CheckpointDesc :=
  match checkpointBeingFetched s with None => Err AssertFailed | Some c => Ok c end.
Definition hasCheckpointBeingFetched (s : t) : bool := bool_decide (checkpointBeingFetched s ≠ None).
Definition deleteCheckpointBeingFetched (s : t) : t :=
  set_fetch s (fetching s) None (firstRequiredBlock s) (lastRequiredBlock s).

Definition setFirstRequiredBlock (s : t) (i : Z) : t := set_fetch s (fetching s) (checkpointBeingFetched s) i (lastRequiredBlock s).
Definition getFirstRequiredBlock (s : t) : Z := firstRequiredBlock s.
Definition setLastRequiredBlock (s : t) (i : Z) : t := set_fetch s (fetching s) (checkpointBeingFetched s) (firstRequiredBlock s) i.
Definition getLastRequiredBlock (s : t) : Z := lastRequiredBlock s.

(** ** Reserved pages *)
Definition set_pages (s : t) (pend : gmap Z (list Z)) (l : list Version) : t :=
  mk (sizeOfReservedPage_ s) (wasInit_ s) (replicas_ s) (myReplicaId_ s) (fVal_ s) (maxNumOfStoredCheckpoints_ s)
    (numberOfReservedPages_ s) (lastStoredCheckpoint s) (firstStoredCheckpoint s) (descMap s) (fetching s)
    (checkpointBeingFetched s) (firstRequiredBlock s) (lastRequiredBlock s) pend l.

(** [inPage] are the [inPageLen] bytes that are copied. *)
Definition setPendingResPage (s : t) (inPageId : Z) (inPage : list Z) : res t :=
  let inPageLen := Z.of_nat (length inPage) in
  assert! (inPageLen <=? sizeOfReservedPage_ s) ;;
  let p := inPage ++ replicate (Z.to_nat (sizeOfReservedPage_ s - inPageLen)) 0 in
  Ok (set_pages s (<[inPageId := p]> (pendingPages s)) (pages s)).

Definition hasPendingResPage (s : t) (inPageId : Z) : bool := bool_decide (is_Some (pendingPages s !! inPageId)).

Definition getPendingResPage (s : t) (inPageId pageLen : Z) : res (list Z) :=
  assert! (pageLen <=? sizeOfReservedPage_ s) ;;
  match pendingPages s !! inPageId with
  | None => Err AssertFailed
  | Some p => get_bytes p 0 pageLen
  end.

Definition numOfAllPendingResPage (s : t) : Z := Z.of_nat (size (pendingPages s)).
(** In increasing order. *)
Definition getNumbersOfPendingResPages (s : t) : list Z := merge_sort Z.le (elements (dom (pendingPages s))).
Definition deleteAllPendingPages (s : t) : t := set_pages s ∅ (pages s).

(** [pages.count(key)], [pages[key] = val] and [pages.lower_bound(key)] *)
Definition has_key (id c : Z) (l : list Version) : bool := existsb (fun v => (pageId v =? id) && (checkpoint v =? c)) l.

Fixpoint insert_version (v : Version) (l : list Version) : list Version :=
  match l with
  | [] => [v]
  | x :: l' => if key_lt (pageId x) (checkpoint x) (pageId v) (checkpoint v) then x :: insert_version v l' else v :: l
  end.

Fixpoint lower_bound (id c : Z) (l : list Version) : option Version :=
  match l with
  | [] => None
  | x :: l' => if key_lt (pageId x) (checkpoint x) id c then lower_bound id c l' else Some x
  end.

Definition associatePendingResPageWithCheckpoint (s : t) (inPageId inCheckpoint : Z) (inPageDigest : Digest) : res t :=
  match pendingPages s !! inPageId with
  | None => Err AssertFailed
  | Some p =>
      assert! (negb (has_key inPageId inCheckpoint (pages s))) ;;
      Ok (set_pages s (delete inPageId (pendingPages s))
            (insert_version (mkVersion inPageId inCheckpoint inPageDigest p) (pages s)))
  end.

(** [inPage] has [sizeOfReservedPage_] bytes. *)
Definition setResPage (s : t) (inPageId inCheckpoint : Z) (inPageDigest : Digest) (inPage : list Z) : res t :=
  assert! (negb (has_key inPageId inCheckpoint (pages s))) ;;
  p ← get_bytes inPage 0 (sizeOfReservedPage_ s);
  Ok (set_pages s (pendingPages s) (insert_version (mkVersion inPageId inCheckpoint inPageDigest p) (pages s))).

(** Result: [*outActualCheckpoint], [*outPageDigest] and the bytes at [outPage];
    [copylength] is [None] when [outPage] is null. *)
Definition getResPage (s : t) (inPageId inCheckpoint : Z) (copylength : option Z) : res (Z * Digest * list Z) :=
  assert! (default 0 copylength <=? sizeOfReservedPage_ s) ;;
  assert! (inCheckpoint <=? lastStoredCheckpoint s) ;;
  match lower_bound inPageId inCheckpoint (pages s) with
  | None => Err AssertFailed
  | Some v =>
      assert! (pageId v =? inPageId) ;;
      assert! (checkpoint v <=? inCheckpoint) ;;
      match copylength with
      | None => Ok (checkpoint v, pageDigest v, [])
      | Some n => assert! (0 <? n) ;; out ← get_bytes (page v) 0 n; Ok (checkpoint v, pageDigest v, out)
      end
  end.

(** The loop of [deleteCoveredResPageInSmallerCheckpoints]. *)
Fixpoint deleteCovered (m prevItemPageId : Z) (prevItemIsInLastRelevantCheckpoint : bool) (l : list Version) : list Version :=
  match l with
  | [] => []
  | x :: l' =>
      if (pageId x =? prevItemPageId) && prevItemIsInLastRelevantCheckpoint
      then deleteCovered m prevItemPageId prevItemIsInLastRelevantCheckpoint l'
      else x :: deleteCovered m (pageId x) (checkpoint x <=? m) l'
  end.

Definition deleteCoveredResPageInSmallerCheckpoints (s : t) (inMinRelevantCheckpoint : Z) : res t :=
  if inMinRelevantCheckpoint <=? 1 then Ok s
  else
    assert! (numberOfReservedPages_ s <=? Z.of_nat (length (pages s))) ;;
    match pages s with
    | [] => Err OutOfBounds
    | x :: l =>
        assert! (pageId x =? 0) ;;
        let l := x :: deleteCovered inMinRelevantCheckpoint (pageId x) (checkpoint x <=? inMinRelevantCheckpoint) l in
        assert! (numberOfReservedPages_ s <=? Z.of_nat (length l)) ;;
        assert! (Z.of_nat (length l) <=? numberOfReservedPages_ s * (maxNumOfStoredCheckpoints_ s + 1)) ;;
        Ok (set_pages s (pendingPages s) l)
    end.

(** The loop of [getResPagesDescriptor]: the entries from [nextPage] on. *)
Fixpoint describe (num c nextPage : Z) (l : list Version) : res (Z * list SingleResPageDesc) :=
  match l with
  | [] => Ok (nextPage, [])
  | x :: l' =>
      if (nextPage =? pageId x) && (checkpoint x <=? c) then
        if nextPage <? num then
          '(n, ds) ← describe num c (nextPage + 1) l';
          Ok (n, mkSingle nextPage (checkpoint x) (pageDigest x) :: ds)
        else Err OutOfBounds
      else describe num c nextPage l'
  end.

Definition getResPagesDescriptor (s : t) (inCheckpoint : Z) : res (list SingleResPageDesc) :=
  assert! (0 <? numberOfReservedPages_ s) ;;
  if 1 <=? inCheckpoint then
    '(nextPage, ds) ← describe (numberOfReservedPages_ s) inCheckpoint 0 (pages s);
    assert! (nextPage =? numberOfReservedPages_ s) ;;
    Ok ds
  else Ok ((fun i => mkSingle i 0 zeroDigest) <$> seqZ 0 (numberOfReservedPages_ s)).

(** ** The ordered map *)
Definition before (x y : Version) : Prop := key_lt (pageId x) (checkpoint x) (pageId y) (checkpoint y) = true.
Definition ordered (l : list Version) : Prop := StronglySorted before l.

Lemma key_lt_spec i1 c1 i2 c2 : key_lt i1 c1 i2 c2 = true ↔ i1 < i2 ∨ (i1 = i2 ∧ c2 < c1).
Proof. unfold key_lt. destruct (Z.eqb_spec i1 i2); cbn [negb]; lia. Qed.

Lemma key_lt_false i1 c1 i2 c2 : key_lt i1 c1 i2 c2 = false ↔ i2 < i1 ∨ (i1 = i2 ∧ c1 <= c2).
Proof. unfold key_lt. destruct (Z.eqb_spec i1 i2); cbn [negb]; lia. Qed.

Lemma ordered_inv x l : ordered (x :: l) →
  ordered l ∧ ∀ y, y ∈ l → pageId x < pageId y ∨ (pageId x = pageId y ∧ checkpoint y < checkpoint x).
Proof.
  intros [H1 H2]%StronglySorted_inv. split; [done|]. intros y Hy. rewrite Forall_forall in H2. by apply key_lt_spec, H2.
Qed.

(** The version of a page that a checkpoint sees: the first one that is not later. *)
Fixpoint version (id c : Z) (l : list Version) : option Version :=
  match l with
  | [] => None
  | x :: l' => if (pageId x =? id) && (checkpoint x <=? c) then Some x else version id c l'
  end.

Lemma version_in id c l v : version id c l = Some v → v ∈ l ∧ pageId v = id ∧ checkpoint v <= c.
Proof.
  induction l as [|x l IH]; [done|]. cbn [version]. destruct (_ && _) eqn:E.
  - intros [= <-]. bool_to_prop. split_and!; [left|lia|lia].
  - intros H. destruct (IH H) as (? & ? & ?). split_and!; [by right|done|done].
Qed.

Lemma version_None id c l : version id c l = None ↔ ∀ v, v ∈ l → pageId v = id → c < checkpoint v.
Proof.
  induction l as [|x l IH]; cbn [version]; [split; [intros _ v Hv; by apply elem_of_nil in Hv|done]|].
  destruct (_ && _) eqn:E.
  - split; [done|]. intros H. bool_to_prop. specialize (H x ltac:(left)). lia.
  - rewrite IH. split; intros H v; [intros [-> |Hv]%elem_of_cons Hid|intros Hv Hid].
    + bool_to_prop. lia.
    + by apply H.
    + apply H; [by right|done].
Qed.

(** [lower_bound] finds it. *)
Lemma lower_bound_version id c l v : ordered l → version id c l = Some v → lower_bound id c l = Some v.
Proof.
  induction l as [|x l IH]; [done|]. intros [Ho Hx]%ordered_inv Hv. cbn [lower_bound]. cbn [version] in Hv.
  destruct (key_lt _ _ _ _) eqn:E.
  - apply key_lt_spec in E. destruct (_ && _) eqn:E2; [bool_to_prop; lia|]. by apply IH.
  - apply key_lt_false in E. destruct (_ && _) eqn:E2; [done|]. exfalso.
    destruct (version_in _ _ _ _ Hv) as (Hin & Hid & Hc). specialize (Hx v Hin). bool_to_prop. lia.
Qed.

Lemma has_key_false id c l : has_key id c l = false ↔ ∀ v, v ∈ l → pageId v = id → checkpoint v ≠ c.
Proof.
  unfold has_key. rewrite <- not_true_iff_false, existsb_exists. split.
  - intros H v Hv Hid Hc. apply H. exists v. split; [by apply list_elem_of_In|]. bool_to_prop. lia.
  - intros H (v & Hv%list_elem_of_In & E). bool_to_prop. by apply (H v).
Qed.

Lemma elem_of_insert_version v l x : x ∈ insert_version v l ↔ x = v ∨ x ∈ l.
Proof.
  induction l as [|y l IH]; cbn [insert_version]; [by rewrite list_elem_of_singleton, elem_of_nil; tauto|].
  destruct (key_lt _ _ _ _); rewrite !elem_of_cons; [rewrite IH|]; tauto.
Qed.

Lemma insert_ordered v l : ordered l → has_key (pageId v) (checkpoint v) l = false → ordered (insert_version v l).
Proof.
  induction l as [|x l IH]; cbn [insert_version]; intros Ho Hk; [repeat constructor|].
  pose proof (ordered_inv _ _ Ho) as [Ho' Hx]. rewrite has_key_false in Hk.
  destruct (key_lt _ _ _ _) eqn:E.
  - constructor; [apply IH; [done|]; apply has_key_false; intros y Hy; apply Hk; by right|].
    apply Forall_forall. intros y [-> |Hy]%elem_of_insert_version; [done|]. apply key_lt_spec. by apply Hx.
  - apply key_lt_false in E. specialize (Hk x ltac:(left)).
    assert (before v x) as Hvx by (apply key_lt_spec; lia). constructor; [done|]. constructor; [done|].
    apply Forall_forall. intros y Hy. apply key_lt_spec in Hvx. apply key_lt_spec. specialize (Hx y Hy). lia.
Qed.

(** A new version, later than all of its page. *)
Lemma version_insert v l id c : ordered l → (∀ x, x ∈ l → pageId x = pageId v → checkpoint x < checkpoint v) →
  version id c (insert_version v l) = if (pageId v =? id) && (checkpoint v <=? c) then Some v else version id c l.
Proof.
  induction l as [|x l IH]; cbn [insert_version]; intros Ho Hk; [done|]. pose proof (ordered_inv _ _ Ho) as [Ho' Hx].
  destruct (key_lt _ _ _ _) eqn:E; [|done]. cbn [version]. rewrite IH by (auto || intros y Hy; apply Hk; by right).
  apply key_lt_spec in E. specialize (Hk x ltac:(left)).
  destruct ((pageId x =? id) && _) eqn:E1, ((pageId v =? id) && _) eqn:E2; try done. bool_to_prop. lia.
Qed.

(** ** Deleting covered versions *)
Definition covered (m : Z) (x y : Version) : Prop :=
  pageId x < pageId y ∨ (pageId x = pageId y ∧ checkpoint y < checkpoint x ∧ m < checkpoint x).

Lemma elem_of_deleteCovered m l : ∀ id b x, x ∈ deleteCovered m id b l → x ∈ l.
Proof.
  induction l as [|y l IH]; intros id b x; cbn [deleteCovered]; [done|]. destruct (_ && _).
  - intros H%IH. by right.
  - intros [-> |H%IH]%elem_of_cons; [left|by right].
Qed.

(** The previous item [p] has page [id] and [b] tells whether it covers the older ones. *)
Lemma deleteCovered_same m l : ∀ id b x, x ∈ deleteCovered m id b l → b = true → ordered l →
  (∀ y, y ∈ l → id <= pageId y) → id < pageId x.
Proof.
  induction l as [|y l IH]; intros id b x; cbn [deleteCovered]; [intros Hx; by apply elem_of_nil in Hx|].
  intros Hx -> [Ho Hy]%ordered_inv Hid. destruct (Z.eqb_spec (pageId y) id) as [E|E]; cbn [andb] in Hx.
  - apply (IH id true); [done|done|done|]. intros z Hz. apply Hid. by right.
  - pose proof (Hid y ltac:(left)). apply elem_of_cons in Hx as [-> |Hx]; [lia|].
    apply elem_of_deleteCovered in Hx. destruct (Hy x Hx); lia.
Qed.

Lemma deleteCovered_sorted m l : ∀ id b, ordered l → StronglySorted (covered m) (deleteCovered m id b l).
Proof.
  induction l as [|y l IH]; intros id b Ho; cbn [deleteCovered]; [constructor|].
  pose proof (ordered_inv _ _ Ho) as [Ho' Hy]. destruct (_ && _); [by apply IH|].
  constructor; [by apply IH|]. apply Forall_forall. intros x Hx. pose proof (elem_of_deleteCovered _ _ _ _ _ Hx) as Hin.
  destruct (Hy x Hin) as [?|[Hid Hc]]; [by left|]. right. split_and!; [done|done|].
  destruct (Z.leb_spec (checkpoint y) m) as [Hm|Hm]; [|done]. exfalso.
  pose proof (deleteCovered_same m l (pageId y) true x Hx eq_refl Ho') as H.
  enough (pageId y < pageId x) by lia. apply H. intros z Hz. destruct (Hy z Hz); lia.
Qed.

(** What a checkpoint from [m] on sees is kept. *)
Lemma deleteCovered_version m l : ∀ p b id c, m <= c → ordered l → (b = true → id ≠ p) →
  version id c (deleteCovered m p b l) = version id c l.
Proof.
  induction l as [|y l IH]; intros p b id c Hm Ho Hb; cbn [deleteCovered]; [done|]. pose proof (ordered_inv _ _ Ho) as [Ho' Hy].
  destruct (Z.eqb_spec (pageId y) p) as [E|E]; destruct b; cbn [andb version].
  - rewrite IH by done. destruct (Z.eqb_spec (pageId y) id); [destruct (Hb eq_refl); lia|done].
  - destruct (_ && _) eqn:E2; [done|]. apply IH; [done|done|]. intros Hc Hid. bool_to_prop. lia.
  - destruct (_ && _) eqn:E2; [done|]. apply IH; [done|done|]. intros Hc Hid. bool_to_prop. lia.
  - destruct (_ && _) eqn:E2; [done|]. apply IH; [done|done|]. intros Hc Hid. bool_to_prop. lia.
Qed.

Lemma deleteCovered_first_version m x l id c : m <= c → ordered (x :: l) →
  version id c (x :: deleteCovered m (pageId x) (checkpoint x <=? m) l) = version id c (x :: l).
Proof.
  intros Hm Ho. pose proof (ordered_inv _ _ Ho) as [Ho' _]. cbn [version]. destruct (_ && _) eqn:E; [done|].
  apply deleteCovered_version; [done|done|]. intros Hc Hid. bool_to_prop. lia.
Qed.

Lemma covered_ordered m l : StronglySorted (covered m) l → ordered l.
Proof.
  induction 1 as [|x l Hs IH Hx]; constructor; [done|]. eapply Forall_impl; [exact Hx|].
  intros y [?|(? & ? & _)]; apply key_lt_spec; lia.
Qed.

(** Later checkpoints than all versions see the same. *)
Lemma version_after id c1 c2 l : (∀ v, v ∈ l → checkpoint v <= c1) → c1 <= c2 → version id c2 l = version id c1 l.
Proof.
  induction l as [|x l IH]; intros Hl Hc; [done|]. cbn [version].
  rewrite IH by (try done; intros v Hv; apply Hl; by right). pose proof (Hl x ltac:(left)).
  by rewrite (proj2 (Z.leb_le (checkpoint x) c1)), (proj2 (Z.leb_le (checkpoint x) c2)) by lia.
Qed.

(** ** The description of a checkpoint *)
Definition single (v : Version) : SingleResPageDesc := mkSingle (pageId v) (checkpoint v) (pageDigest v).

Lemma omap_seqZ_ext {A} (f g : Z → option A) k n : (∀ id, k <= id < k + n → f id = g id) → omap f (seqZ k n) = omap g (seqZ k n).
Proof.
  intros H. apply list_omap_ext, Forall2_same_length_lookup_2; [done|]. intros i a b Ha Hb. assert (a = b) as -> by congruence.
  apply H. by apply list_elem_of_lookup_2, elem_of_seqZ in Ha.
Qed.

Lemma describe_spec num c l : ∀ k, ordered l → k <= num → (∀ v, v ∈ l → pageId v < num) →
  (∀ id, k <= id < num → is_Some (version id c l)) →
  describe num c k l = Ok (num, omap (fun id => single <$> version id c l) (seqZ k (num - k))).
Proof.
  induction l as [|x l IH]; intros k Ho Hk Hlt Hall; cbn [describe].
  { assert (k = num) as ->; [|by rewrite Z.sub_diag]. destruct (decide (k = num)); [done|]. by destruct (Hall k ltac:(lia)). }
  pose proof (ordered_inv _ _ Ho) as [Ho' Hx]. pose proof (Hlt x ltac:(left)) as Hxn.
  assert (Hlt' : ∀ v, v ∈ l → pageId v < num) by (intros v Hv; apply Hlt; by right).
  destruct ((k =? pageId x) && (checkpoint x <=? c)) eqn:E.
  - apply andb_true_iff in E as [->%Z.eqb_eq Ec]. rewrite (proj2 (Z.ltb_lt _ _) Hxn).
    assert (Hne : ∀ id, pageId x + 1 <= id → version id c (x :: l) = version id c l).
    { intros id Hid. cbn [version]. by rewrite (proj2 (Z.eqb_neq (pageId x) id)) by lia. }
    rewrite IH; [|done|lia|done|intros id Hid; rewrite <- Hne by lia; apply Hall; lia].
    cbn [mbind res_bind]. rewrite (seqZ_cons (pageId x)) by lia. cbn [omap list_omap]. cbn [version]. rewrite Z.eqb_refl, Ec.
    cbn [andb fmap option_fmap option_map]. do 3 f_equal. replace (num - (pageId x + 1)) with (Z.pred (num - pageId x)) by lia.
    apply omap_seqZ_ext. intros id Hid. by rewrite (proj2 (Z.eqb_neq (pageId x) id)) by lia.
  - assert (Hne : ∀ id, k <= id < num → version id c (x :: l) = version id c l).
    { intros id Hid. cbn [version]. destruct ((pageId x =? id) && _) eqn:E2; [|done]. exfalso. apply andb_true_iff in E2 as [<-%Z.eqb_eq E2].
      rewrite E2, andb_true_r in E. apply Z.eqb_neq in E. destruct (Hall k ltac:(lia)) as [v Hv]. cbn [version] in Hv.
      rewrite (proj2 (Z.eqb_neq (pageId x) k)) in Hv by lia. destruct (version_in _ _ _ _ Hv) as (Hin & Hvk & _). destruct (Hx v Hin); lia. }
    rewrite IH; [|done|lia|done|intros id Hid; rewrite <- Hne by done; by apply Hall].
    do 2 f_equal. apply omap_seqZ_ext. intros id Hid. by rewrite Hne by lia.
Qed.

(** A version of a page that does not exist is written past the end. *)
Lemma describe_overflow num c l : ∀ k, ordered l → k <= num → (∀ id, k <= id <= num → is_Some (version id c l)) → describe num c k l = Err OutOfBounds.
Proof.
  induction l as [|x l IH]; intros k Ho Hk Hall; cbn [describe]; [by destruct (Hall k ltac:(lia))|].
  pose proof (ordered_inv _ _ Ho) as [Ho' Hx]. destruct ((k =? pageId x) && (checkpoint x <=? c)) eqn:E.
  - apply andb_true_iff in E as [->%Z.eqb_eq Ec]. destruct (Z.ltb_spec (pageId x) num) as [Hlt|]; [|done]. rewrite IH; [done|done|lia|].
    intros id Hid. specialize (Hall id ltac:(lia)). cbn [version] in Hall. by rewrite (proj2 (Z.eqb_neq (pageId x) id)) in Hall by lia.
  - apply IH; [done|done|]. intros id Hid. pose proof (Hall id Hid) as Hs. cbn [version] in Hs. destruct ((pageId x =? id) && _) eqn:E2; [|done].
    exfalso. apply andb_true_iff in E2 as [<-%Z.eqb_eq E2]. rewrite E2, andb_true_r in E. apply Z.eqb_neq in E. destruct (Hall k ltac:(lia)) as [v Hv].
    cbn [version] in Hv. rewrite (proj2 (Z.eqb_neq (pageId x) k)) in Hv by lia. destruct (version_in _ _ _ _ Hv) as (Hin & Hvk & _). destruct (Hx v Hin); lia.
Qed.

(** ** Counting versions *)
Lemma NoDup_length_le (l k : list Z) : NoDup l → (∀ x, x ∈ l → x ∈ k) → (length l <= length k)%nat.
Proof. intros Hn Hs. by apply submseteq_length, NoDup_submseteq. Qed.

Lemma versions_ge num c l : 0 <= num → (∀ id, 0 <= id < num → is_Some (version id c l)) → num <= Z.of_nat (length l).
Proof.
  intros Hn Hall. pose proof (NoDup_length_le (seqZ 0 num) (pageId <$> l) (NoDup_seqZ 0 num)) as H.
  rewrite length_fmap, length_seqZ in H. enough (Z.to_nat num <= length l)%nat by lia. apply H.
  intros id Hid%elem_of_seqZ. destruct (Hall id ltac:(lia)) as [v Hv]. destruct (version_in _ _ _ _ Hv) as (Hin & <- & _).
  by apply list_elem_of_fmap_2.
Qed.

Lemma versions_le m num mx l : 0 <= m → 0 <= mx → 0 <= num → StronglySorted (covered m) l →
  (∀ v, v ∈ l → 0 <= pageId v < num ∧ checkpoint v <= m + mx) → Z.of_nat (length l) <= num * (mx + 1).
Proof.
  intros Hm Hmx Hnum Hs Hl. set (f v := pageId v * (mx + 1) + (Z.max (checkpoint v) m - m)).
  assert (Hf : ∀ v, v ∈ l → 0 <= f v < num * (mx + 1)) by (intros v Hv; destruct (Hl v Hv); unfold f; nia).
  assert (Hnd : NoDup (f <$> l)).
  { clear Hf. induction Hs as [|x l Hs IH Hx]; cbn; constructor.
    - intros (y & Hy & Hin)%list_elem_of_fmap. rewrite Forall_forall in Hx. specialize (Hx y Hin).
      destruct (Hl x ltac:(left)), (Hl y ltac:(by right)). unfold covered, f in *. destruct Hx as [?|(? & ? & ?)]; nia.
    - apply IH. intros v Hv. apply Hl. by right. }
  pose proof (NoDup_length_le (f <$> l) (seqZ 0 (num * (mx + 1))) Hnd) as H. rewrite length_fmap, length_seqZ in H.
  enough (length l <= Z.to_nat (num * (mx + 1)))%nat by nia. apply H.
  intros z (v & -> & Hv)%list_elem_of_fmap. apply elem_of_seqZ. specialize (Hf v Hv). lia.
Qed.
End InMemoryDataStore.
