(* ===== verification/ReservedPages.v ===== *)
(** * Reserved pages
    (bftengine/include/bftengine/IStateTransfer.hpp, bftengine/src/bftengine/NullStateTransfer.cpp)

    The part of [IStateTransfer] through which replicas keep data that state transfer
    copies: an interface with its laws, and the implementation that is used when no state
    transfer module is loaded. *)
From S2P Require Import Prelude SysConsts.

(** The methods; the bytes passed to [saveReservedPage] are the [copyLength] bytes that
    are copied, [loadReservedPage] returns the bytes it copies. *)
Class ReservedPages (S : Type) := {
  loadReservedPage : S → Z → Z → res (list Z);
  saveReservedPage : S → Z → list Z → res S;
  zeroReservedPage : S → Z → res S;
}.

(** What the clients of [num] pages of [size] bytes rely on: a page has a content, of
    which a save replaces the beginning. *)
Class ReservedPagesSpec (S : Type) {RP : ReservedPages S} (num size : Z) := {
  rp_ok : S → Prop;
  rp_page : S → Z → list Z;
  rp_length s id : rp_ok s → 0 <= id < num → Z.of_nat (length (rp_page s id)) = size;
  rp_load s id n : rp_ok s → 0 <= id < num → 0 < n <= size → loadReservedPage s id n = Ok (take (Z.to_nat n) (rp_page s id));
  rp_save s id data : rp_ok s → 0 <= id < num → Z.of_nat (length data) <= size →
    ∃ s', saveReservedPage s id data = Ok s' ∧ rp_ok s' ∧ take (length data) (rp_page s' id) = data ∧
      ∀ id', 0 <= id' < num → id' ≠ id → rp_page s' id' = rp_page s id';
  rp_zero s id : rp_ok s → 0 <= id < num →
    ∃ s', zeroReservedPage s id = Ok s' ∧ rp_ok s' ∧ rp_page s' id = replicate (Z.to_nat size) 0 ∧
      ∀ id', 0 <= id' < num → id' ≠ id → rp_page s' id' = rp_page s id';
}.

(** [IStateTransfer], besides the reserved pages; a checkpoint also covers the state [A] of the application. *)
Class StateTransfer (A S : Type) := {
  createCheckpointOfCurrentState : A → S → Z → res S;
  markCheckpointAsStable : S → Z → res S;
  getDigestOfCheckpoint : S → Z → Z → res (list Z);
  startCollectingState : S → res S;
  isCollectingState : S → bool;
}.

Module NullStateTransfer.

Record t := mk { numOfReservedPages : Z; sizeOfPage : Z; reservedPages : list Z; running : bool; errorReport : bool }.

(** [memory] is what [malloc] returns. *)
Definition init (numberOfRequiredReservedPages sizeOfReservedPage : Z) (memory : list Z) : t :=
  mk numberOfRequiredReservedPages sizeOfReservedPage memory false false.

Definition startRunning (s : t) : res t :=
  assert! (negb (running s)) ;; Ok (mk (numOfReservedPages s) (sizeOfPage s) (reservedPages s) true (errorReport s)).
Definition stopRunning (s : t) : res t :=
  assert! (running s) ;; Ok (mk (numOfReservedPages s) (sizeOfPage s) (reservedPages s) false (errorReport s)).

Definition address (s : t) (reservedPageId : Z) : Z := u32 (reservedPageId * sizeOfPage s).

Definition load (s : t) (reservedPageId copyLength : Z) : res (list Z) :=
  assert! (copyLength <=? sizeOfPage s) ;;
  get_bytes (reservedPages s) (address s reservedPageId) copyLength.

Definition save (s : t) (reservedPageId : Z) (data : list Z) : res t :=
  assert! (Z.of_nat (length data) <=? sizeOfPage s) ;;
  m ← put_bytes (reservedPages s) (address s reservedPageId) data;
  Ok (mk (numOfReservedPages s) (sizeOfPage s) m (running s) (errorReport s)).

Definition zero (s : t) (reservedPageId : Z) : res t :=
  m ← put_bytes (reservedPages s) (address s reservedPageId) (replicate (Z.to_nat (sizeOfPage s)) 0);
  Ok (mk (numOfReservedPages s) (sizeOfPage s) m (running s) (errorReport s)).

Definition isRunning (s : t) : bool := running s.

(** Nothing is stored for checkpoints; the digest is the one of the number ([H] is [DigestUtil::compute]). *)
Definition createCheckpoint (s : t) (checkpointNumber : Z) : res t := Ok s.
Definition markAsStable (s : t) (checkpointNumber : Z) : res t := Ok s.
Definition digestOfCheckpoint (H : list Z → list Z) (s : t) (checkpointNumber sizeOfDigestBuffer : Z) : res (list Z) :=
  assert! (DIGEST_SIZE <=? sizeOfDigestBuffer) ;;
  put_bytes (replicate (Z.to_nat sizeOfDigestBuffer) 0) 0 (H (le_enc 8 checkpointNumber)).
Definition startCollecting (s : t) : res t :=
  if errorReport s then Ok s else Ok (mk (numOfReservedPages s) (sizeOfPage s) (reservedPages s) (running s) true).
Definition isCollecting (s : t) : bool := false.

#[export] Instance reserved_pages : ReservedPages t :=
  {| loadReservedPage := load; saveReservedPage := save; zeroReservedPage := zero |}.

#[export] Instance state_transfer {A} (H : list Z → list Z) : StateTransfer A t := {|
  createCheckpointOfCurrentState a := createCheckpoint; markCheckpointAsStable := markAsStable;
  getDigestOfCheckpoint := digestOfCheckpoint H; startCollectingState := startCollecting; isCollectingState := isCollecting |}.

Section spec.
Context (num size : Z) (Hnum : 0 < num) (Hsize : 0 < size) (Hfit : num * size < 4294967296).

Definition ok (s : t) : Prop :=
  numOfReservedPages s = num ∧ sizeOfPage s = size ∧ Z.of_nat (length (reservedPages s)) = num * size.

Definition content (s : t) (id : Z) : list Z := take (Z.to_nat size) (drop (Z.to_nat (id * size)) (reservedPages s)).

Lemma address_ok s id : ok s → 0 <= id < num → address s id = id * size ∧ 0 <= id * size ∧ id * size + size <= Z.of_nat (length (reservedPages s)).
Proof. intros (_ & Hs & Hl) Hid. unfold address. rewrite Hs, Hl, u32_small by nia. nia. Qed.

(** Writing at the beginning of a page. *)
Lemma put_page s id data : ok s → 0 <= id < num → Z.of_nat (length data) <= size →
  ∃ m, put_bytes (reservedPages s) (address s id) data = Ok m ∧
    let s' := mk num size m (running s) (errorReport s) in
    ok s' ∧ content s' id = data ++ drop (length data) (content s id) ∧
    ∀ id', 0 <= id' < num → id' ≠ id → content s' id' = content s id'.
Proof.
  intros Hok Hid Hd. destruct (address_ok s id Hok Hid) as (-> & Ha & Hb). destruct Hok as (_ & Hs & Hl).
  unfold put_bytes. assert (in_buf (reservedPages s) (id * size) (Z.of_nat (length data)) = true) as -> by (apply in_buf_true; lia).
  eexists. split; [done|]. set (m := take _ _ ++ _). cbv zeta. set (a := Z.to_nat (id * size)) in *.
  assert (Hlm : length m = length (reservedPages s)).
  { unfold m. rewrite !length_app, length_take, length_drop. lia. }
  split_and!; [by unfold ok; simpl; rewrite Hlm| |].
  - unfold content. simpl. unfold m. rewrite drop_app_length' by (rewrite length_take; lia).
    rewrite take_app_ge by lia. f_equal. rewrite <- drop_drop, take_drop_commute. do 2 f_equal. lia.
  - intros id' Hid' Hne. unfold content. simpl. apply list_eq. intros i. destruct (decide (i < Z.to_nat size)%nat) as [Hi|Hi].
    2: { rewrite !lookup_take_ge by lia. done. }
    rewrite !lookup_take_lt, !lookup_drop by done. unfold m. set (j := (Z.to_nat (id' * size) + i)%nat).
    assert (j < a ∨ a + Z.to_nat size <= j)%nat as [Hj|Hj].
    { unfold j, a. destruct (Z.lt_trichotomy id' id) as [?|[?|?]]; [left|done|right]; nia. }
    + rewrite lookup_app_l by (rewrite length_take; lia). by rewrite lookup_take_lt by lia.
    + rewrite lookup_app_r by (rewrite length_take; lia). rewrite length_take, lookup_app_r by lia.
      rewrite lookup_drop. f_equal. lia.
Qed.

#[export] Program Instance spec : ReservedPagesSpec t num size := {| rp_ok := ok; rp_page := content |}.
Next Obligation.
  intros s id Hok Hid. destruct (address_ok s id Hok Hid) as (_ & Ha & Hb). unfold content. rewrite length_take, length_drop. lia.
Qed.
Next Obligation.
  intros s id n Hok Hid Hn. destruct (address_ok s id Hok Hid) as (He & Ha & Hb). destruct Hok as (_ & Hs & Hl). cbn. unfold load.
  rewrite Hs, (proj2 (Z.leb_le n size)) by lia. cbn [Assert mbind res_bind]. rewrite He. unfold content.
  rewrite take_take, Nat.min_l by lia. apply get_bytes_ok. split; [lia|done].
Qed.
Next Obligation.
  intros s id data Hok Hid Hd. destruct (put_page s id data Hok Hid Hd) as (m & Hm & Hok' & Hc & Ho). destruct Hok as (Hn & Hs & _).
  cbn. unfold save. rewrite Hs, (proj2 (Z.leb_le _ size) Hd), Hm, Hn. cbn [Assert mbind res_bind].
  eexists. split_and!; [done|done| |done]. by rewrite Hc, take_app_length.
Qed.
Next Obligation.
  intros s id Hok Hid. destruct (put_page s id (replicate (Z.to_nat size) 0) Hok Hid) as (m & Hm & Hok' & Hc & Ho); [rewrite length_replicate; lia|].
  destruct (address_ok s id Hok Hid) as (_ & Ha & Hb).
  destruct Hok as (Hn & Hs & _). cbn. unfold zero. rewrite Hs, Hm, Hn. cbn [mbind res_bind].
  eexists. split_and!; [done|done| |done]. rewrite Hc. rewrite drop_ge; [by rewrite app_nil_r|].
  unfold content. rewrite length_replicate, length_take. lia.
Qed.
End spec.
End NullStateTransfer.
