(* ===== verification/BCStateTran.v ===== *)
(** * Checkpoints of the reserved pages
    (bftengine/src/bcstatetransfer/BCStateTran.cpp)

    The part of the blockchain state transfer that a replica uses when it does not fetch
    state: initialization, reading and writing reserved pages, making checkpoints,
    deleting old ones, and the consistency check of the stored data.  The application's
    blocks are given by [IAppState]. *)
From S2P Require Import Prelude SysConsts DataStore ReservedPages.

Module BCStateTran.
Module D := InMemoryDataStore.

Definition kMaxNumOfStoredCheckpoints : Z := 10.
Definition kSizeOfReservedPage : Z := 4096.

(** [IAppState], the blocks of the application. *)
Record IAppState := mkApp {
  getLastReachableBlockNum : Z;
  getLastBlockNum : Z;
  hasBlock : Z → bool;
  getBlock : Z → list Z;
  getPrevDigestFromBlock : Z → Digest;
}.

Inductive FetchingState := NotFetching | GettingCheckpointSummaries | GettingMissingBlocks | GettingMissingResPages.
#[export] Instance FetchingState_eq_dec : EqDecision FetchingState.
Proof. solve_decision. Defined.

Record t := mk {
  psd_ : D.t;
  replicas_ : gset Z;
  myId_ : Z;
  fVal_ : Z;
  maxNumOfReservedPages_ : Z;
  maxNumOfStoredCheckpoints_ : Z;
  numberOfReservedPages_ : Z;
  running_ : bool;
}.

Definition with_psd (s : t) (d : D.t) : t :=
  mk d (replicas_ s) (myId_ s) (fVal_ s) (maxNumOfReservedPages_ s) (maxNumOfStoredCheckpoints_ s) (numberOfReservedPages_ s) (running_ s).

(** [CH(COND)] of [checkConsistency] *)
Notation "'ch!' b ;; k" := (if (b : bool) then k else Ok false) (at level 100, b at level 0, k at level 200, right associativity).

Section defs.
(** The hash of [DigestContext]. *)
Context (H : list Z → Digest).

(** ** Digests *)
Definition computeDigestOfPage (pageId checkpointNumber : Z) (page : list Z) : Digest :=
  H (le_enc 4 pageId ++ le_enc 8 checkpointNumber ++ (if 0 <? checkpointNumber then page else [])).

Definition enc_single (d : D.SingleResPageDesc) : list Z :=
  le_enc 4 (D.d_pageId d) ++ replicate 4 0 ++ le_enc 8 (D.relevantCheckpoint d) ++ D.d_pageDigest d.

(** The bytes of [ResPagesDescriptor], with the padding of its fields. *)
Definition computeDigestOfPagesDescriptor (ds : list D.SingleResPageDesc) : Digest :=
  H (le_enc 4 (Z.of_nat (length ds)) ++ replicate 4 0 ++ (ds ≫= enc_single)).

Definition computeDigestOfBlock (blockNum : Z) (block : list Z) : res Digest :=
  assert! (0 <? blockNum) ;;
  assert! (0 <? Z.of_nat (length block)) ;;
  Ok (H (le_enc 8 blockNum ++ block)).

Definition digestOfDesc (d : D.CheckpointDesc) : Digest :=
  H (le_enc 8 (D.checkpointNum d) ++ le_enc 8 (D.lastBlock d) ++ D.digestOfLastBlock d ++ D.digestOfResPagesDescriptor d).

(** ** State *)
Definition isFetching (s : t) : bool := D.getIsFetchingState (psd_ s).

Definition getFetchingState (s : t) : res FetchingState :=
  if negb (D.getIsFetchingState (psd_ s)) then Ok NotFetching
  else
    assert! (D.numOfAllPendingResPage (psd_ s) =? 0) ;;
    if negb (D.hasCheckpointBeingFetched (psd_ s)) then Ok GettingCheckpointSummaries
    else if 0 <? D.getLastRequiredBlock (psd_ s) then Ok GettingMissingBlocks
    else assert! (D.getFirstRequiredBlock (psd_ s) =? 0) ;; Ok GettingMissingResPages.

Definition startRunning (s : t) : res t :=
  assert! (negb (running_ s)) ;;
  Ok (mk (psd_ s) (replicas_ s) (myId_ s) (fVal_ s) (maxNumOfReservedPages_ s) (maxNumOfStoredCheckpoints_ s) (numberOfReservedPages_ s) true).

(** The change of the data store; then the other replicas are asked for summaries of their checkpoints. *)
Definition startCollectingState (s : t) : res t :=
  assert! (running_ s) ;;
  assert! (negb (isFetching s)) ;;
  Ok (with_psd s (D.setIsFetchingState (D.deleteAllPendingPages (psd_ s)) true)).

(** ** Reserved pages *)
Definition load (s : t) (reservedPageId copyLength : Z) : res (list Z) :=
  assert! (running_ s) ;;
  assert! (negb (isFetching s)) ;;
  assert! (reservedPageId <? numberOfReservedPages_ s) ;;
  assert! (copyLength <=? kSizeOfReservedPage) ;;
  if D.hasPendingResPage (psd_ s) reservedPageId then D.getPendingResPage (psd_ s) reservedPageId copyLength
  else
    let lastCheckpoint := D.getLastStoredCheckpoint (psd_ s) in
    '(t, _, p) ← D.getResPage (psd_ s) reservedPageId lastCheckpoint (Some copyLength);
    assert! (t <=? lastCheckpoint) ;;
    Ok p.

Definition save (s : t) (reservedPageId : Z) (inReservedPage : list Z) : res t :=
  assert! (negb (isFetching s)) ;;
  assert! (reservedPageId <? numberOfReservedPages_ s) ;;
  assert! (Z.of_nat (length inReservedPage) <=? kSizeOfReservedPage) ;;
  d ← D.setPendingResPage (psd_ s) reservedPageId inReservedPage;
  Ok (with_psd s d).

Definition zero (s : t) (reservedPageId : Z) : res t :=
  assert! (negb (isFetching s)) ;;
  assert! (reservedPageId <? numberOfReservedPages_ s) ;;
  d ← D.setPendingResPage (psd_ s) reservedPageId (replicate (Z.to_nat kSizeOfReservedPage) 0);
  Ok (with_psd s d).

(** ** Checkpoints *)
Definition createCheckpointDesc (as_ : IAppState) (checkpointNumber : Z) (digestOfResPagesDescriptor : Digest) : res D.CheckpointDesc :=
  let lastBlock := getLastReachableBlockNum as_ in
  assert! (lastBlock =? getLastBlockNum as_) ;;
  digestOfLastBlock ← (if 0 <? lastBlock then computeDigestOfBlock lastBlock (getBlock as_ lastBlock) else Ok zeroDigest);
  Ok (D.mkDesc checkpointNumber lastBlock digestOfLastBlock digestOfResPagesDescriptor).

(** The body of the loop over the pending pages. *)
Definition checkpointPage (checkpointNumber : Z) (d : D.t) (p : Z) : res D.t :=
  page ← D.getPendingResPage d p kSizeOfReservedPage;
  D.associatePendingResPageWithCheckpoint d p checkpointNumber (computeDigestOfPage p checkpointNumber page).

Definition checkpointReservedPages (s : t) (checkpointNumber : Z) : res (t * Digest) :=
  d ← foldM (checkpointPage checkpointNumber) (psd_ s) (D.getNumbersOfPendingResPages (psd_ s));
  assert! (D.numOfAllPendingResPage d =? 0) ;;
  allPagesDesc ← D.getResPagesDescriptor d checkpointNumber;
  assert! (Z.of_nat (length allPagesDesc) =? numberOfReservedPages_ s) ;;
  Ok (with_psd s d, computeDigestOfPagesDescriptor allPagesDesc).

Definition deleteOldCheckpoints (s : t) (checkpointNumber : Z) : res t :=
  let minRelevantCheckpoint :=
    if maxNumOfStoredCheckpoints_ s <? checkpointNumber then checkpointNumber - maxNumOfStoredCheckpoints_ s else 0 in
  let oldFirstStoredCheckpoint := D.getFirstStoredCheckpoint (psd_ s) in
  d ← (if (2 <=? minRelevantCheckpoint) && (oldFirstStoredCheckpoint <? minRelevantCheckpoint) then
         d ← D.deleteDescOfSmallerCheckpoints (psd_ s) minRelevantCheckpoint;
         D.deleteCoveredResPageInSmallerCheckpoints d minRelevantCheckpoint
       else Ok (psd_ s));
  let d := if oldFirstStoredCheckpoint <? minRelevantCheckpoint then D.setFirstStoredCheckpoint d minRelevantCheckpoint else d in
  Ok (with_psd s (D.setLastStoredCheckpoint d checkpointNumber)).

Definition createCheckpointOfCurrentState (as_ : IAppState) (s : t) (checkpointNumber : Z) : res t :=
  assert! (running_ s) ;;
  assert! (negb (isFetching s)) ;;
  assert! (0 <? checkpointNumber) ;;
  assert! (D.getLastStoredCheckpoint (psd_ s) <? checkpointNumber) ;;
  '(s, digestOfResPagesDescriptor) ← checkpointReservedPages s checkpointNumber;
  checkDesc ← createCheckpointDesc as_ checkpointNumber digestOfResPagesDescriptor;
  d ← D.setCheckpointDesc (psd_ s) checkpointNumber checkDesc;
  deleteOldCheckpoints (with_psd s d) checkpointNumber.

Definition markCheckpointAsStable (s : t) (checkpointNumber : Z) : res unit :=
  assert! (running_ s) ;;
  assert! (negb (isFetching s)) ;;
  assert! (0 <? checkpointNumber) ;;
  let lastStoredCheckpoint := D.getLastStoredCheckpoint (psd_ s) in
  assert! ((lastStoredCheckpoint <? maxNumOfStoredCheckpoints_ s) ||
           (lastStoredCheckpoint - maxNumOfStoredCheckpoints_ s + 1 <=? checkpointNumber)) ;;
  assert! (checkpointNumber <=? lastStoredCheckpoint) ;;
  Ok tt.

(** The digest written to a buffer of [sizeOfDigestBuffer] bytes. *)
Definition getDigestOfCheckpoint (s : t) (checkpointNumber sizeOfDigestBuffer : Z) : res (list Z) :=
  assert! (running_ s) ;;
  assert! (negb (isFetching s)) ;;
  assert! (DIGEST_SIZE <=? sizeOfDigestBuffer) ;;
  assert! (0 <? checkpointNumber) ;;
  assert! (D.getFirstStoredCheckpoint (psd_ s) <=? checkpointNumber) ;;
  assert! (checkpointNumber <=? D.getLastStoredCheckpoint (psd_ s)) ;;
  assert! (D.hasCheckpointDesc (psd_ s) checkpointNumber) ;;
  desc ← D.getCheckpointDesc (psd_ s) checkpointNumber;
  Ok (digestOfDesc desc ++ replicate (Z.to_nat (sizeOfDigestBuffer - DIGEST_SIZE)) 0).

(** ** Consistency *)

(** The blocks [n], ..., 1 (the last one down to [stop + 1]) hash to what their successors say. *)
Fixpoint checkBlocks (as_ : IAppState) (n : nat) (currBlock : Z) : res bool :=
  match n with
  | O => Ok true
  | S n' =>
      currDigest ← computeDigestOfBlock currBlock (getBlock as_ currBlock);
      ch! (negb (bool_decide (currDigest = zeroDigest))) ;;
      ch! (bool_decide (currDigest = getPrevDigestFromBlock as_ (currBlock + 1))) ;;
      checkBlocks as_ n' (currBlock - 1)
  end.

Fixpoint findHole (as_ : IAppState) (fuel : nat) (x : Z) : res Z :=
  match fuel with
  | O => Err OutOfFuel
  | S fuel' => if hasBlock as_ x then findHole as_ fuel' (x - 1) else Ok x
  end.

(** The pages of checkpoint [i] against its description. *)
Fixpoint checkPages (d : D.t) (i : Z) (ds : list D.SingleResPageDesc) (j : Z) : res bool :=
  match ds with
  | [] => Ok true
  | x :: ds' =>
      ch! (D.d_pageId x =? j) ;;
      ch! (D.relevantCheckpoint x <=? i) ;;
      ch! (0 <? D.relevantCheckpoint x) ;;
      '(actualCheckpoint, _, p) ← D.getResPage d j i (Some kSizeOfReservedPage);
      ch! (D.relevantCheckpoint x =? actualCheckpoint) ;;
      ch! (bool_decide (computeDigestOfPage j actualCheckpoint p = D.d_pageDigest x)) ;;
      checkPages d i ds' (j + 1)
  end.

Definition checkCheckpoint (as_ : IAppState) (s : t) (i prevLastBlockNum : Z) (desc : D.CheckpointDesc) : res bool :=
  ch! (D.checkpointNum desc =? i) ;;
  ch! (D.lastBlock desc <=? getLastReachableBlockNum as_) ;;
  ch! (prevLastBlockNum <=? D.lastBlock desc) ;;
  okBlock ← (if 0 <? D.lastBlock desc then
               dg ← computeDigestOfBlock (D.lastBlock desc) (getBlock as_ (D.lastBlock desc));
               Ok (bool_decide (dg = D.digestOfLastBlock desc))
             else Ok true);
  ch! okBlock ;;
  allPagesDesc ← D.getResPagesDescriptor (psd_ s) i;
  ch! (Z.of_nat (length allPagesDesc) =? numberOfReservedPages_ s) ;;
  ch! (bool_decide (computeDigestOfPagesDescriptor allPagesDesc = D.digestOfResPagesDescriptor desc)) ;;
  checkPages (psd_ s) i allPagesDesc 0.

Fixpoint checkCheckpoints (as_ : IAppState) (s : t) (n : nat) (i prevLastBlockNum : Z) : res bool :=
  match n with
  | O => Ok true
  | S n' =>
      if negb (D.hasCheckpointDesc (psd_ s) i) then checkCheckpoints as_ s n' (i + 1) prevLastBlockNum
      else
        desc ← D.getCheckpointDesc (psd_ s) i;
        ok ← checkCheckpoint as_ s i prevLastBlockNum desc;
        ch! ok ;;
        checkCheckpoints as_ s n' (i + 1) (D.lastBlock desc)
  end.

(** The part of the check about blocks that are being fetched. *)
Definition checkUnreachable (as_ : IAppState) (s : t) (checkAllBlocks : bool) : res bool :=
  let lastReachableBlockNum := getLastReachableBlockNum as_ in
  let lastBlockNum := getLastBlockNum as_ in
  if lastReachableBlockNum <? lastBlockNum then
    fs ← getFetchingState s;
    ch! (bool_decide (fs = GettingMissingResPages)) ;;
    x ← findHole as_ (Z.to_nat lastBlockNum) (lastBlockNum - 1);
    ch! (lastReachableBlockNum <? x) ;;
    ch! (forallb (fun i => negb (hasBlock as_ i)) (seqZ (lastReachableBlockNum + 1) (x - lastReachableBlockNum))) ;;
    ch! (D.getIsFetchingState (psd_ s) && D.hasCheckpointBeingFetched (psd_ s)) ;;
    ch! (D.getFirstRequiredBlock (psd_ s) - 1 =? lastReachableBlockNum) ;;
    ch! (D.getFirstRequiredBlock (psd_ s) <=? D.getLastRequiredBlock (psd_ s)) ;;
    if checkAllBlocks
    then checkBlocks as_ (Z.to_nat (lastBlockNum - 1 - D.getLastRequiredBlock (psd_ s))) (lastBlockNum - 1)
    else Ok true
  else Ok true.

Definition checkConsistency (as_ : IAppState) (s : t) (checkAllBlocks : bool) : res bool :=
  let d := psd_ s in
  ch! (D.initialized d) ;;
  reps ← D.getReplicas d;
  ch! (bool_decide (replicas_ s = reps)) ;;
  my ← D.getMyReplicaId d;
  ch! (myId_ s =? my) ;;
  f ← D.getFVal d;
  ch! (fVal_ s =? f) ;;
  mx ← D.getMaxNumOfStoredCheckpoints d;
  ch! (maxNumOfStoredCheckpoints_ s =? mx) ;;
  num ← D.getNumberOfReservedPages d;
  ch! (numberOfReservedPages_ s =? num) ;;
  let first := D.getFirstStoredCheckpoint d in
  let last := D.getLastStoredCheckpoint d in
  ch! (first <=? last) ;;
  ch! (last - first + 1 <=? maxNumOfStoredCheckpoints_ s) ;;
  ch! ((last =? 0) || D.hasCheckpointDesc d last) ;;
  ch! ((first =? 0) || (first =? last) || D.hasCheckpointDesc d first) ;;
  blocksOk ← (if checkAllBlocks && (0 <? getLastReachableBlockNum as_)
              then checkBlocks as_ (Z.to_nat (getLastReachableBlockNum as_ - 1)) (getLastReachableBlockNum as_ - 1) else Ok true);
  ch! blocksOk ;;
  ch! (getLastReachableBlockNum as_ <=? getLastBlockNum as_) ;;
  fetchedOk ← checkUnreachable as_ s checkAllBlocks;
  ch! fetchedOk ;;
  storedOk ← (if 0 <? last then checkCheckpoints as_ s (Z.to_nat (last - first + 1)) first 0 else Ok true);
  ch! storedOk ;;
  if negb (D.getIsFetchingState d) then
    ch! (negb (D.hasCheckpointBeingFetched d)) ;;
    ch! (D.getFirstRequiredBlock d =? 0) ;;
    ch! (D.getLastRequiredBlock d =? 0) ;; Ok true
  else if negb (D.hasCheckpointBeingFetched d) then
    ch! (D.getFirstRequiredBlock d =? 0) ;;
    ch! (D.getLastRequiredBlock d =? 0) ;;
    ch! (D.numOfAllPendingResPage d =? 0) ;; Ok true
  else if 0 <? D.getLastRequiredBlock d then
    ch! (0 <? D.getFirstRequiredBlock d) ;;
    ch! (D.numOfAllPendingResPage d =? 0) ;; Ok true
  else ch! (D.numOfAllPendingResPage d =? 0) ;; Ok true.

(** ** Initialization *)
Definition ctor (reps : gset Z) (myId fVal maxNumOfReservedPages : Z) : res t :=
  assert! (3 * fVal + 1 <=? Z.of_nat (size reps)) ;;
  assert! (bool_decide (myId ∈ reps)) ;;
  assert! (2 <=? maxNumOfReservedPages) ;;
  Ok (mk (D.ctor kSizeOfReservedPage) reps myId fVal maxNumOfReservedPages 0 0 false).

Definition init (as_ : IAppState) (pedanticChecks : bool) (s : t)
    (maxNumOfRequiredStoredCheckpoints numberOfRequiredReservedPages sizeOfReservedPage : Z) : res t :=
  assert! (negb (running_ s)) ;;
  assert! (sizeOfReservedPage =? kSizeOfReservedPage) ;;
  let s := mk (psd_ s) (replicas_ s) (myId_ s) (fVal_ s) (maxNumOfReservedPages_ s)
             maxNumOfRequiredStoredCheckpoints numberOfRequiredReservedPages (running_ s) in
  if D.initialized (psd_ s) then
    consistent ← checkConsistency as_ s pedanticChecks;
    assert! consistent ;;
    Ok s
  else
    assert! ((2 <=? maxNumOfRequiredStoredCheckpoints) && (maxNumOfRequiredStoredCheckpoints <=? kMaxNumOfStoredCheckpoints)) ;;
    assert! ((2 <=? numberOfRequiredReservedPages) && (numberOfRequiredReservedPages <=? maxNumOfReservedPages_ s)) ;;
    d ← D.setReplicas (psd_ s) (replicas_ s);
    d ← D.setMyReplicaId d (myId_ s);
    d ← D.setFVal d (fVal_ s);
    d ← D.setMaxNumOfStoredCheckpoints d maxNumOfRequiredStoredCheckpoints;
    d ← D.setNumberOfReservedPages d numberOfRequiredReservedPages;
    let d := D.setFirstStoredCheckpoint (D.setLastStoredCheckpoint d 0) 0 in
    d ← foldM (fun d i => D.setPendingResPage d i (replicate (Z.to_nat kSizeOfReservedPage) 0)) d (seqZ 0 numberOfRequiredReservedPages);
    let d := D.setLastRequiredBlock (D.setFirstRequiredBlock (D.setIsFetchingState d false) 0) 0 in
    let s := with_psd s (D.setAsInitialized d) in
    fs ← getFetchingState s;
    assert! (bool_decide (fs = NotFetching)) ;;
    Ok s.
End defs.
End BCStateTran.
