(* ===== verification/BCStateTranFacts.v ===== *)
(** * The checkpoints of the reserved pages are snapshots (BCStateTran.v)

    Between fetching, the state transfer is a store of pages with snapshots: an abstract
    state keeps the current contents of the pages and their contents at every checkpoint,
    and the versions of the data store represent it, also after old versions are deleted. *)
From S2P Require Import Prelude SysConsts DataStore ReservedPages BCStateTran.

Module BCStateTranFacts.
Import BCStateTran.

Section facts.
Context (H : list Z → Digest).
#[local] Abbreviation size := kSizeOfReservedPage.

Definition newVersion (n id : Z) (p : list Z) : D.Version := D.mkVersion id n (computeDigestOfPage H id n p) p.

(** What a checkpoint of the pending pages sees. *)
Definition seen (n : Z) (pend : gmap Z (list Z)) (l : list D.Version) (id c : Z) : option D.Version :=
  match pend !! id with
  | Some p => if n <=? c then Some (newVersion n id p) else D.version id c l
  | None => D.version id c l
  end.

Lemma checkpointPage_post n d id p : D.pendingPages d !! id = Some p → Z.of_nat (length p) = size → D.sizeOfReservedPage_ d = size →
  D.has_key id n (D.pages d) = false →
  checkpointPage H n d id =
    Ok (D.set_pages d (delete id (D.pendingPages d)) (D.insert_version (newVersion n id p) (D.pages d))).
Proof.
  intros Hp Hl Hs Hk. unfold checkpointPage, D.getPendingResPage, D.associatePendingResPageWithCheckpoint. rewrite Hp, Hs.
  rewrite (proj2 (Z.leb_le size size)) by done. cbn [Assert mbind res_bind]. rewrite get_bytes_all by lia. cbn [mbind res_bind].
  by rewrite Hk.
Qed.

Lemma checkpointPages_spec n l : ∀ d, NoDup l → (∀ id, id ∈ l ↔ is_Some (D.pendingPages d !! id)) →
  D.sizeOfReservedPage_ d = size →
  (∀ id p, D.pendingPages d !! id = Some p → Z.of_nat (length p) = size) → D.ordered (D.pages d) →
  (∀ v, v ∈ D.pages d → D.pageId v ∈ l → D.checkpoint v < n) →
  ∃ vs, foldM (checkpointPage H n) d l = Ok (D.set_pages d ∅ vs) ∧ D.ordered vs ∧
    (∀ v, v ∈ vs ↔ v ∈ D.pages d ∨ ∃ id p, D.pendingPages d !! id = Some p ∧ v = newVersion n id p) ∧
    (∀ id c, D.version id c vs = seen n (D.pendingPages d) (D.pages d) id c).
Proof.
  induction l as [|id l IH]; intros d Hnd Hdom Hs Hlen Ho Hlt; cbn [foldM].
  - assert (D.pendingPages d = ∅) as He.
    { apply map_empty. intros id. apply eq_None_not_Some. rewrite <- Hdom. apply not_elem_of_nil. }
    exists (D.pages d). split_and!; [by destruct d; cbn in *; rewrite He|done| |].
    + intros v. rewrite He. split; [by left|]. intros [?|(id & p & Hp & _)]; [done|]. by rewrite lookup_empty in Hp.
    + intros id c. unfold seen. by rewrite He, lookup_empty.
  - apply NoDup_cons in Hnd as [Hid Hnd]. destruct (proj1 (Hdom id) ltac:(left)) as [p Hp].
    assert (Hk : ∀ v, v ∈ D.pages d → D.pageId v = id → D.checkpoint v < n).
    { intros v Hv Hi. apply Hlt; [done|]. rewrite Hi. left. }
    rewrite (checkpointPage_post n d id p Hp (Hlen id p Hp) Hs).
    2: { apply D.has_key_false. intros v Hv Hi. specialize (Hk v Hv Hi). lia. }
    cbn [mbind res_bind]. set (d1 := D.set_pages _ _ _).
    destruct (IH d1) as (vs & Hf & Ho' & Hin & Hver); [done| |done| | | |].
    { intros id'. cbn. rewrite lookup_delete_is_Some, <- Hdom, elem_of_cons. split; [|naive_solver].
      intros Hi. split; [|by right]. intros ->. done. }
    { intros id' p'. cbn. intros [_ Hp']%lookup_delete_Some. by apply (Hlen id'). }
    { apply D.insert_ordered; [done|]. apply D.has_key_false. intros v Hv Hi. specialize (Hk v Hv Hi). cbn. lia. }
    { intros v. cbn. intros [-> |Hv]%D.elem_of_insert_version Hi; [done|]. apply Hlt; [done|by right]. }
    exists vs. split_and!; [done|done| |].
    + intros v. rewrite Hin. cbn. rewrite D.elem_of_insert_version. split.
      * intros [[-> |Hv]|(id' & p' & [_ Hp']%lookup_delete_Some & ->)]; [right; eauto|by left|right; eauto].
      * intros [Hv|(id' & p' & Hp' & ->)]; [by left; right|]. destruct (decide (id' = id)) as [-> |Hne].
        { left. left. congruence. }
        right. exists id', p'. by rewrite lookup_delete_ne.
    + intros id' c. rewrite Hver. unfold seen. cbn. destruct (decide (id' = id)) as [-> |Hne].
      * rewrite lookup_delete_eq, Hp, D.version_insert by done. cbn. by rewrite Z.eqb_refl.
      * rewrite lookup_delete_ne by done. rewrite D.version_insert by done. cbn.
        rewrite (proj2 (Z.eqb_neq id id')) by done. done.
Qed.

(** ** Snapshots *)
Record abs := mkAbs { cur : gmap Z (list Z); snaps : gmap Z (gmap Z (list Z)); height : Z }.
Record world := mkW { st : t; ghost : abs }.

Inductive op :=
  | Save (id : Z) (data : list Z)
  | Zero (id : Z)
  | CreateCheckpoint (as_ : IAppState) (n : Z).

Definition padded (data : list Z) : list Z := data ++ replicate (Z.to_nat (size - Z.of_nat (length data))) 0.

Definition abs_step (a : abs) (o : op) : abs :=
  match o with
  | Save id data => mkAbs (<[id := padded data]> (cur a)) (snaps a) (height a)
  | Zero id => mkAbs (<[id := padded []]> (cur a)) (snaps a) (height a)
  | CreateCheckpoint as_ n => mkAbs (cur a) (<[n := cur a]> (snaps a)) (getLastReachableBlockNum as_)
  end.

Definition step (s : t) (o : op) : res t :=
  match o with
  | Save id data => save s id data
  | Zero id => zero s id
  | CreateCheckpoint as_ n => createCheckpointOfCurrentState H as_ s n
  end.

Definition exec (w : world) (o : op) : res world := s ← step (st w) o; Ok (mkW s (abs_step (ghost w) o)).

Context (num mx : Z) (Hnum : 2 <= num) (Hmx : 2 <= mx).
(** The blocks of the application do not change once they are there. *)
Context (blocks : Z → list Z).
Record app_ok (as_ : IAppState) : Prop := {
  app_reachable : getLastReachableBlockNum as_ = getLastBlockNum as_;
  app_pos : 0 <= getLastReachableBlockNum as_;
  app_blocks i : 0 < i <= getLastReachableBlockNum as_ → getBlock as_ i = blocks i ∧ blocks i ≠ [];
}.

#[local] Abbreviation last s := (D.lastStoredCheckpoint (psd_ s)).
#[local] Abbreviation first s := (D.firstStoredCheckpoint (psd_ s)).
#[local] Abbreviation pend s := (D.pendingPages (psd_ s)).
#[local] Abbreviation vs s := (D.pages (psd_ s)).

Definition op_pre (w : world) (o : op) : Prop :=
  match o with
  | Save id data => 0 <= id < num ∧ Z.of_nat (length data) <= size
  | Zero id => 0 <= id < num
  | CreateCheckpoint as_ n => last (st w) < n ∧ app_ok as_ ∧ height (ghost w) <= getLastReachableBlockNum as_
  end.

(** What does not change, and what only fetching changes. *)
Record conf (s : t) : Prop := {
  conf_running : running_ s = true;
  conf_fetching : D.fetching (psd_ s) = false ∧ D.checkpointBeingFetched (psd_ s) = None ∧
    D.firstRequiredBlock (psd_ s) = 0 ∧ D.lastRequiredBlock (psd_ s) = 0;
  conf_size : D.sizeOfReservedPage_ (psd_ s) = size;
  conf_num : numberOfReservedPages_ s = num ∧ D.numberOfReservedPages_ (psd_ s) = num ∧ num ≠ D.UINT32_MAX;
  conf_mx : maxNumOfStoredCheckpoints_ s = mx ∧ D.maxNumOfStoredCheckpoints_ (psd_ s) = mx ∧ mx ≠ D.UINT64_MAX;
  conf_ids : D.wasInit_ (psd_ s) = true ∧ D.replicas_ (psd_ s) = replicas_ s ∧ replicas_ s ≠ ∅ ∧
    D.myReplicaId_ (psd_ s) = myId_ s ∧ myId_ s ≠ D.UINT16_MAX ∧ D.fVal_ (psd_ s) = fVal_ s ∧ fVal_ s ≠ D.UINT16_MAX;
}.

(** The description of checkpoint [c]. *)
Definition description (c : Z) (l : list D.Version) : list D.SingleResPageDesc :=
  omap (fun id => D.single <$> D.version id c l) (seqZ 0 num).

Definition version_ok (n : Z) (v : D.Version) : Prop :=
  0 <= D.pageId v < num ∧ 0 < D.checkpoint v <= n ∧ Z.of_nat (length (D.page v)) = size ∧
  D.pageDigest v = computeDigestOfPage H (D.pageId v) (D.checkpoint v) (D.page v).

(** A page as the reader finds it. *)
Definition current (s : t) (id : Z) (p : list Z) : Prop :=
  pend s !! id = Some p ∨ (pend s !! id = None ∧ ∃ v, D.version id (last s) (vs s) = Some v ∧ D.page v = p).

Definition snapshot (l : list D.Version) (c : Z) (m : gmap Z (list Z)) : Prop :=
  ∀ id, 0 <= id < num → ∃ v, D.version id c l = Some v ∧ m !! id = Some (D.page v).

Definition desc_ok (l : list D.Version) (c h : Z) (d : D.CheckpointDesc) : Prop :=
  D.checkpointNum d = c ∧ 0 <= D.lastBlock d <= h ∧
  D.digestOfResPagesDescriptor d = computeDigestOfPagesDescriptor H (description c l) ∧
  D.digestOfLastBlock d = (if 0 <? D.lastBlock d then H (le_enc 8 (D.lastBlock d) ++ blocks (D.lastBlock d)) else zeroDigest).

Record inv (w : world) : Prop := {
  inv_conf : conf (st w);
  inv_ordered : D.ordered (vs (st w));
  inv_versions v : v ∈ vs (st w) → version_ok (last (st w)) v;
  inv_pending id p : pend (st w) !! id = Some p → 0 <= id < num ∧ Z.of_nat (length p) = size;
  inv_cur id : 0 <= id < num → ∃ p, cur (ghost w) !! id = Some p ∧ Z.of_nat (length p) = size ∧ current (st w) id p;
  inv_stored : 0 <= last (st w) ∧ first (st w) = Z.max 0 (last (st w) - mx);
  inv_snaps c m : snaps (ghost w) !! c = Some m → 0 < c <= last (st w) ∧ (first (st w) <= c → snapshot (vs (st w)) c m);
  inv_descs c : is_Some (D.descMap (psd_ (st w)) !! c) ↔ first (st w) <= c ∧ is_Some (snaps (ghost w) !! c);
  inv_desc c d : D.descMap (psd_ (st w)) !! c = Some d → desc_ok (vs (st w)) c (height (ghost w)) d;
  inv_mono c1 c2 d1 d2 : c1 < c2 → D.descMap (psd_ (st w)) !! c1 = Some d1 → D.descMap (psd_ (st w)) !! c2 = Some d2 →
    D.lastBlock d1 <= D.lastBlock d2;
  inv_last : last (st w) ≠ 0 → is_Some (snaps (ghost w) !! last (st w));
}.

Lemma length_padded data : Z.of_nat (length data) <= size → Z.of_nat (length (padded data)) = size.
Proof. intros. unfold padded. rewrite length_app, length_replicate. lia. Qed.

(** ** Writing pages *)
Definition with_pending (s : t) (id : Z) (p : list Z) : t := with_psd s (D.set_pages (psd_ s) (<[id := p]> (pend s)) (vs s)).

Lemma pending_inv w id p : inv w → 0 <= id < num → Z.of_nat (length p) = size →
  inv (mkW (with_pending (st w) id p) (mkAbs (<[id := p]> (cur (ghost w))) (snaps (ghost w)) (height (ghost w)))).
Proof.
  intros [] Hid Hp. constructor; cbn; try done.
  - by destruct inv_conf0.
  - intros id' p' [[<- <-]|[Hne Hp']]%lookup_insert_Some; [done|]. by apply (inv_pending0 id').
  - intros id' Hid'. unfold current. cbn. destruct (decide (id' = id)) as [-> |Hne].
    + exists p. rewrite !lookup_insert_eq. auto.
    + rewrite !lookup_insert_ne by done. by apply inv_cur0.
Qed.

(** What reading and writing pages needs. *)
Record usable (s : t) : Prop := {
  us_running : running_ s = true;
  us_fetching : D.fetching (psd_ s) = false;
  us_size : D.sizeOfReservedPage_ (psd_ s) = size;
  us_num : numberOfReservedPages_ s = num;
}.

Lemma conf_usable s : conf s → usable s.
Proof. intros [? (? & _) ? (? & _) _ _]. by constructor. Qed.

Lemma save_usable s id data : usable s → 0 <= id < num → Z.of_nat (length data) <= size →
  save s id data = Ok (with_pending s id (padded data)).
Proof.
  intros [? Hf Hs Hn] Hid Hd. unfold save, isFetching, D.getIsFetchingState, D.setPendingResPage. rewrite Hf, Hn, Hs.
  rewrite (proj2 (Z.ltb_lt id num)), (proj2 (Z.leb_le _ size)) by lia. done.
Qed.

Lemma zero_usable s id : usable s → 0 <= id < num → zero s id = Ok (with_pending s id (padded [])).
Proof.
  intros Hc Hid. pose proof (save_usable s id (replicate (Z.to_nat size) 0) Hc Hid ltac:(by rewrite length_replicate)) as E.
  unfold save in E. rewrite length_replicate in E. change (Z.of_nat (Z.to_nat size) <=? size) with true in E. unfold zero.
  destruct (Assert (negb (isFetching s))); [|done]. destruct (Assert (id <? numberOfReservedPages_ s)); [|done]. cbn [Assert mbind res_bind] in *.
  rewrite E. unfold padded. rewrite length_replicate. done.
Qed.

Lemma save_post s id data : conf s → 0 <= id < num → Z.of_nat (length data) <= size →
  save s id data = Ok (with_pending s id (padded data)).
Proof. intros Hc. by apply save_usable, conf_usable. Qed.

Lemma zero_post s id : conf s → 0 <= id < num → zero s id = Ok (with_pending s id (padded [])).
Proof. intros Hc. by apply zero_usable, conf_usable. Qed.

(** ** Making a checkpoint *)
Lemma description_ext c l1 l2 : (∀ id, 0 <= id < num → D.version id c l1 = D.version id c l2) → description c l1 = description c l2.
Proof. intros He. apply D.omap_seqZ_ext. intros id Hid. by rewrite He by lia. Qed.

Lemma getDescriptor_post d c : D.numberOfReservedPages_ d = num → D.ordered (D.pages d) → 1 <= c →
  (∀ v, v ∈ D.pages d → D.pageId v < num) → (∀ id, 0 <= id < num → is_Some (D.version id c (D.pages d))) →
  D.getResPagesDescriptor d c = Ok (description c (D.pages d)).
Proof.
  intros Hn Ho Hc Hlt Hall. unfold D.getResPagesDescriptor. rewrite Hn, (proj2 (Z.ltb_lt 0 num)), (proj2 (Z.leb_le 1 c)) by lia.
  cbn [Assert mbind res_bind]. rewrite D.describe_spec by (done || lia). cbn [mbind res_bind]. rewrite Z.eqb_refl. cbn [Assert mbind res_bind].
  by rewrite Z.sub_0_r.
Qed.

Lemma length_omap_some {A B} (f : A → option B) l : (∀ x, x ∈ l → is_Some (f x)) → length (omap f l) = length l.
Proof.
  induction l as [|x l IH]; intros Hl; [done|]. cbn. destruct (Hl x ltac:(left)) as [y ->]. cbn. f_equal. apply IH.
  intros z Hz. apply Hl. by right.
Qed.

Lemma length_description c l : (∀ id, 0 <= id < num → is_Some (D.version id c l)) → Z.of_nat (length (description c l)) = num.
Proof.
  intros Hall. unfold description. rewrite length_omap_some; [rewrite length_seqZ; lia|].
  intros id Hid%elem_of_seqZ. destruct (Hall id ltac:(lia)) as [v ->]. by eexists.
Qed.

Lemma pending_elements s id : id ∈ D.getNumbersOfPendingResPages (psd_ s) ↔ is_Some (pend s !! id).
Proof.
  unfold D.getNumbersOfPendingResPages. rewrite (merge_sort_Permutation Z.le), elem_of_elements. apply elem_of_dom.
Qed.

Lemma NoDup_pending s : NoDup (D.getNumbersOfPendingResPages (psd_ s)).
Proof. unfold D.getNumbersOfPendingResPages. rewrite (merge_sort_Permutation Z.le). apply NoDup_elements. Qed.

Lemma checkpointReservedPages_post w n : inv w → last (st w) < n →
  ∃ l, checkpointReservedPages H (st w) n =
      Ok (with_psd (st w) (D.set_pages (psd_ (st w)) ∅ l), computeDigestOfPagesDescriptor H (description n l)) ∧
    D.ordered l ∧ (∀ v, v ∈ l → version_ok n v) ∧
    (∀ id c, c < n → D.version id c l = D.version id c (vs (st w))) ∧ snapshot l n (cur (ghost w)).
Proof.
  intros [] Hn. destruct inv_stored0 as [Hlast _].
  destruct (checkpointPages_spec n (D.getNumbersOfPendingResPages (psd_ (st w))) (psd_ (st w)) (NoDup_pending (st w)) (pending_elements (st w))
    (conf_size _ inv_conf0)) as (l & Hf & Ho & Hin & Hver).
  { intros id p Hp. by apply (inv_pending0 id p). } { done. }
  { intros v Hv _. destruct (inv_versions0 v Hv) as (_ & ? & _). lia. }
  assert (Hsnap : snapshot l n (cur (ghost w))).
  { intros id Hid. destruct (inv_cur0 id Hid) as (p & -> & Hlen & [Hp|(Hp & v & Hv & <-)]); rewrite Hver; unfold seen; rewrite Hp.
    - rewrite (proj2 (Z.leb_le n n)) by lia. by eexists.
    - exists v. rewrite (D.version_after id (last (st w)) n); [done| |lia]. intros v' Hv'. destruct (inv_versions0 v' Hv') as (_ & ? & _). lia. }
  assert (Hok : ∀ v, v ∈ l → version_ok n v).
  { intros v [Hv|(id & p & Hp & ->)]%Hin.
    - destruct (inv_versions0 v Hv) as (? & ? & ? & ?). split_and!; try done; lia.
    - destruct (inv_pending0 id p Hp). split_and!; cbn; try done; lia. }
  assert (Hall : ∀ id, 0 <= id < num → is_Some (D.version id n l)) by (intros id Hid; destruct (Hsnap id Hid) as (v & -> & _); eauto).
  exists l. split_and!; [|done|done| |done].
  - unfold checkpointReservedPages. rewrite Hf. cbn [mbind res_bind]. unfold D.numOfAllPendingResPage. cbn. rewrite map_size_empty. cbn.
    rewrite (getDescriptor_post (D.set_pages (psd_ (st w)) ∅ l) n); cbn; [| |done|lia| |done].
    + rewrite length_description by done. destruct (conf_num _ inv_conf0) as (-> & _). by rewrite Z.eqb_refl.
    + by apply conf_num.
    + intros v Hv. destruct (Hok v Hv). lia.
  - intros id c Hc. rewrite Hver. unfold seen. rewrite (proj2 (Z.leb_gt n c)) by lia. by destruct (pend (st w) !! id).
Qed.

(** ** Deleting old checkpoints *)
Lemma deleteCoveredResPage_post d m l : 2 <= m → D.numberOfReservedPages_ d = num → D.maxNumOfStoredCheckpoints_ d = mx → D.pages d = l →
  D.ordered l → (∀ v, v ∈ l → version_ok (m + mx) v) → (∀ id, 0 <= id < num → is_Some (D.version id (m + mx) l)) →
  ∃ l', D.deleteCoveredResPageInSmallerCheckpoints d m = Ok (D.set_pages d (D.pendingPages d) l') ∧ D.ordered l' ∧
    (∀ v, v ∈ l' → v ∈ l) ∧ (∀ id c, m <= c → D.version id c l' = D.version id c l).
Proof.
  intros Hm Hn Hx Hl Ho Hok Hall. unfold D.deleteCoveredResPageInSmallerCheckpoints. rewrite Hn, Hx, Hl, (proj2 (Z.leb_gt m 1)) by lia.
  rewrite (proj2 (Z.leb_le num _) (D.versions_ge num _ l ltac:(lia) Hall)). cbn [Assert mbind res_bind].
  destruct l as [|x l]. { by destruct (Hall 0 ltac:(lia)). }
  assert (D.pageId x = 0) as Hx0.
  { destruct (Hall 0 ltac:(lia)) as [v Hv]. destruct (D.version_in _ _ _ _ Hv) as (Hin & Hv0 & _).
    destruct (Hok x ltac:(left)) as (? & _). apply elem_of_cons in Hin as [-> |Hin]; [done|].
    destruct (proj2 (D.ordered_inv _ _ Ho) v Hin); lia. }
  rewrite Hx0. cbn [Z.eqb Assert mbind res_bind]. set (l' := x :: _).
  assert (l' = D.deleteCovered m 1 false (x :: l)) as Hl'. { cbn. by rewrite andb_false_r, Hx0. }
  assert (Hs : StronglySorted (D.covered m) l') by (rewrite Hl'; by apply D.deleteCovered_sorted).
  assert (Hsub : ∀ v, v ∈ l' → v ∈ x :: l) by (intros v; rewrite Hl'; apply D.elem_of_deleteCovered).
  assert (Hver : ∀ id c, m <= c → D.version id c l' = D.version id c (x :: l)).
  { intros id c Hc. rewrite Hl'. by apply D.deleteCovered_version. }
  assert (num <= Z.of_nat (length l')) as Hge.
  { apply (D.versions_ge num (m + mx)); [lia|]. intros id Hid. rewrite Hver by lia. by apply Hall. }
  assert (Z.of_nat (length l') <= num * (mx + 1)) as Hle.
  { apply (D.versions_le m); try lia; [done|]. intros v Hv%Hsub. destruct (Hok v Hv) as (? & ? & _). lia. }
  rewrite (proj2 (Z.leb_le _ _) Hge), (proj2 (Z.leb_le _ _) Hle). cbn [Assert mbind res_bind].
  exists l'. split_and!; try done. by apply (D.covered_ordered m).
Qed.

Lemma deleteOld_post s n l : conf s → vs s = l → D.ordered l → (∀ v, v ∈ l → version_ok n v) →
  (∀ id, 0 <= id < num → is_Some (D.version id n l)) → 0 <= last s < n → first s = Z.max 0 (last s - mx) →
  (∀ c d, D.descMap (psd_ s) !! c = Some d → 0 < c ∧ D.checkpointNum d = c) →
  ∃ l', deleteOldCheckpoints s n =
      Ok (with_psd s (D.set_stored (D.set_pages (psd_ s) (pend s) l') n (Z.max 0 (n - mx))
            (filter (fun x => Z.max 0 (n - mx) <= x.1) (D.descMap (psd_ s))))) ∧
    D.ordered l' ∧ (∀ v, v ∈ l' → v ∈ l) ∧ (∀ id c, Z.max 0 (n - mx) <= c → D.version id c l' = D.version id c l).
Proof.
  intros Hc Hl Ho Hok Hall Hlast Hfirst Hdesc. unfold deleteOldCheckpoints, D.getFirstStoredCheckpoint.
  destruct (conf_mx _ Hc) as (-> & Hx & _). destruct (conf_num _ Hc) as (_ & Hn & _). rewrite Hfirst.
  set (m := Z.max 0 (n - mx)). assert ((if mx <? n then n - mx else 0) = m) as -> by (unfold m; destruct (Z.ltb_spec mx n); lia).
  assert (Hfm : Z.max 0 (last s - mx) < m ∨ (Z.max 0 (last s - mx) = m ∧ m = 0)) by lia.
  destruct (Z.leb_spec 2 m) as [Hm|Hm]; cbn [andb].
  - rewrite (proj2 (Z.ltb_lt _ m)) by lia. unfold D.deleteDescOfSmallerCheckpoints. rewrite bool_decide_eq_true_2.
    2: { intros c d Hd _. by destruct (Hdesc c d Hd). }
    cbn [Assert mbind res_bind]. set (d1 := D.set_stored _ _ _ _).
    destruct (deleteCoveredResPage_post d1 m l) as (l' & -> & Ho' & Hsub & Hver); try done.
    { replace (m + mx) with n by lia. done. } { replace (m + mx) with n by lia. done. }
    cbn [mbind res_bind]. exists l'. split_and!; try done.
    assert (filter (fun x => m <= x.1) (D.descMap (psd_ s)) = filter (fun x => ~ (x.1 < m)) (D.descMap (psd_ s))) as ->; [|done].
    apply map_filter_strong_ext. intros c d. cbn. rewrite Z.nlt_ge. done.
  - cbn [mbind res_bind]. exists l. split_and!; try done. do 2 f_equal.
    assert (filter (fun x => m <= x.1) (D.descMap (psd_ s)) = D.descMap (psd_ s)) as ->.
    { apply map_filter_id. intros c d Hd. cbn. destruct (Hdesc c d Hd). lia. }
    rewrite <- Hl. destruct (Z.ltb_spec (Z.max 0 (last s - mx)) m); [done|]. unfold D.setLastStoredCheckpoint, D.set_stored. rewrite Hfirst.
    cbn. f_equal. lia.
Qed.

(** ** The invariant *)
Definition newDesc (as_ : IAppState) (n : Z) (l : list D.Version) : D.CheckpointDesc :=
  let h := getLastReachableBlockNum as_ in
  D.mkDesc n h (if 0 <? h then H (le_enc 8 h ++ blocks h) else zeroDigest) (computeDigestOfPagesDescriptor H (description n l)).

Lemma createDesc_post as_ n l : app_ok as_ →
  createCheckpointDesc H as_ n (computeDigestOfPagesDescriptor H (description n l)) = Ok (newDesc as_ n l).
Proof.
  intros [Hr Hp Hb]. unfold createCheckpointDesc, newDesc. rewrite <- Hr, Z.eqb_refl. cbn [Assert mbind res_bind].
  destruct (Z.ltb_spec 0 (getLastReachableBlockNum as_)) as [H0|H0]; [|done]. destruct (Hb _ ltac:(split; [exact H0|lia])) as [-> Hne].
  unfold computeDigestOfBlock. rewrite (proj2 (Z.ltb_lt _ _) H0). rewrite (proj2 (Z.ltb_lt 0 _)); [done|].
  destruct (blocks _); [done|]. cbn. lia.
Qed.

(** The state after a checkpoint. *)
Definition checkpointed (s : t) (as_ : IAppState) (n : Z) (l l' : list D.Version) : t :=
  with_psd s (D.set_stored (D.set_pages (psd_ s) ∅ l') n (Z.max 0 (n - mx))
    (filter (fun x => Z.max 0 (n - mx) <= x.1) (<[n := newDesc as_ n l]> (D.descMap (psd_ s))))).

Lemma snaps_bound w c : inv w → is_Some (snaps (ghost w) !! c) → 0 < c <= last (st w).
Proof. intros Hw [m Hm]. by apply (inv_snaps w Hw c m). Qed.

Lemma desc_bound w c d : inv w → D.descMap (psd_ (st w)) !! c = Some d → 0 < c <= last (st w).
Proof. intros Hw Hd. apply (snaps_bound w c Hw). apply (inv_descs w Hw). by rewrite Hd. Qed.

Lemma createCheckpoint_post w as_ n : inv w → op_pre w (CreateCheckpoint as_ n) →
  ∃ l l', createCheckpointOfCurrentState H as_ (st w) n = Ok (checkpointed (st w) as_ n l l') ∧
    D.ordered l' ∧ (∀ v, v ∈ l' → version_ok n v) ∧
    (∀ id c, Z.max 0 (n - mx) <= c → D.version id c l' = D.version id c l) ∧
    (∀ id c, c < n → D.version id c l = D.version id c (vs (st w))) ∧ snapshot l n (cur (ghost w)).
Proof.
  intros Hw (Hn & Happ & Hh). pose proof Hw as [Hconf _ _ _ _ [Hlast Hfirst] _ _ _ _ _].
  destruct (checkpointReservedPages_post w n Hw Hn) as (l & Hl & Ho & Hok & Hver & Hsnap).
  unfold createCheckpointOfCurrentState, isFetching, D.getIsFetchingState, D.getLastStoredCheckpoint.
  rewrite (conf_running _ Hconf), (proj1 (conf_fetching _ Hconf)), (proj2 (Z.ltb_lt 0 n)), (proj2 (Z.ltb_lt _ n) Hn) by lia.
  cbn [negb Assert mbind res_bind]. rewrite Hl. cbn [mbind res_bind]. rewrite createDesc_post by done. cbn [mbind res_bind].
  unfold D.setCheckpointDesc. cbn [newDesc D.checkpointNum]. rewrite Z.eqb_refl. cbn [Assert mbind res_bind].
  rewrite bool_decide_eq_true_2.
  2: { cbn. destruct (D.descMap (psd_ (st w)) !! n) as [d|] eqn:Ed; [|done]. pose proof (desc_bound w n d Hw Ed). lia. }
  cbn [Assert mbind res_bind]. set (s2 := with_psd _ _).
  destruct (deleteOld_post s2 n l) as (l' & -> & Ho' & Hsub & Hver'); try done.
  - by destruct Hconf.
  - intros id Hid. destruct (Hsnap id Hid) as (v & -> & _). eauto.
  - intros c d. cbn. intros [[<- <-]|[Hne Hd]]%lookup_insert_Some; [split; [lia|done]|].
    pose proof (desc_bound w c d Hw Hd). destruct (inv_desc w Hw c d Hd). lia.
  - exists l, l'. split_and!; try done. intros v Hv. by apply Hok, Hsub.
Qed.

Lemma checkpoint_inv w as_ n l l' : inv w → op_pre w (CreateCheckpoint as_ n) →
  D.ordered l' → (∀ v, v ∈ l' → version_ok n v) →
  (∀ id c, Z.max 0 (n - mx) <= c → D.version id c l' = D.version id c l) →
  (∀ id c, c < n → D.version id c l = D.version id c (vs (st w))) → snapshot l n (cur (ghost w)) →
  inv (mkW (checkpointed (st w) as_ n l l') (abs_step (ghost w) (CreateCheckpoint as_ n))).
Proof.
  intros Hw (Hn & Happ & Hh) Ho Hok Hver1 Hver2 Hsnap. pose proof (desc_bound w) as Hdb. pose proof (snaps_bound w) as Hsb.
  pose proof Hw as [Hconf _ _ _ Hcur [Hlast Hfirst] Hsnaps Hdescs Hdesc Hmono _].
  assert (Hsame : ∀ id c, Z.max 0 (n - mx) <= c → c < n → D.version id c l' = D.version id c (vs (st w))).
  { intros id c H1 H2. by rewrite Hver1, Hver2. }
  assert (Hlook : ∀ c d, filter (fun x => Z.max 0 (n - mx) <= x.1) (<[n := newDesc as_ n l]> (D.descMap (psd_ (st w)))) !! c = Some d →
    Z.max 0 (n - mx) <= c ∧ ((c = n ∧ d = newDesc as_ n l) ∨ (c < n ∧ D.descMap (psd_ (st w)) !! c = Some d))).
  { intros c d [Hd Hc]%map_lookup_filter_Some. cbn in Hc. split; [done|]. apply lookup_insert_Some in Hd as [[<- <-]|[Hne Hd]]; [by left|].
    right. pose proof (Hdb c d Hw Hd). split; [lia|done]. }
  constructor; cbn; try done.
  - by destruct Hconf.
  - intros id Hid. destruct (Hcur id Hid) as (p & Hp & Hlen & _). exists p. split_and!; [done|done|]. right. split; [done|].
    destruct (Hsnap id Hid) as (v & Hv & Hpv). exists v. cbn. rewrite Hver1 by lia. split; [done|]. rewrite Hp in Hpv. by injection Hpv.
  - split; lia.
  - intros c m [[<- <-]|[Hne Hm]]%lookup_insert_Some.
    + split; [lia|]. intros _ id Hid. rewrite Hver1 by lia. by apply Hsnap.
    + destruct (Hsnaps c m Hm) as [Hc Hs]. split; [lia|]. intros Hf id Hid. rewrite Hsame by lia. apply Hs; [lia|done].
  - intros c. split.
    + intros [d Hd]. destruct (Hlook c d Hd) as [Hc [[-> _]|[_ Hd']]]; (split; [done|]); [by rewrite lookup_insert_eq|].
      rewrite lookup_insert_is_Some. right. pose proof (Hdb c d Hw Hd'). split; [lia|]. apply Hdescs. by rewrite Hd'.
    + intros [Hc Hs]. apply lookup_insert_is_Some in Hs as [<-|[Hne Hs]].
      * eexists. apply map_lookup_filter_Some. rewrite lookup_insert_eq. done.
      * destruct (proj2 (Hdescs c)) as [d Hd]; [split; [lia|done]|]. exists d. apply map_lookup_filter_Some. by rewrite lookup_insert_ne.
  - intros c d Hd. destruct (Hlook c d Hd) as [Hc [[-> ->]|[Hlt Hd']]].
    + unfold desc_ok, newDesc. cbn. split_and!; try done; [apply Happ|]. f_equal. apply description_ext. intros id Hid. by rewrite Hver1.
    + destruct (Hdesc c d Hd') as (? & ? & ? & ?). split_and!; try done; try lia. rewrite (description_ext c l' (vs (st w))); [done|].
      intros id Hid. by apply Hsame.
  - intros c1 c2 d1 d2 Hc H1 H2. destruct (Hlook _ _ H1) as [? [[-> _]|[? H1']]], (Hlook _ _ H2) as [? [[-> ->]|[? H2']]]; try lia.
    + destruct (Hdesc _ _ H1') as (_ & ? & _). cbn. lia.
    + by apply (Hmono c1 c2).
  - intros _. rewrite lookup_insert_eq. done.
Qed.

Lemma run_op_ok w o : inv w → op_pre w o → ∃ w', exec w o = Ok w' ∧ inv w'.
Proof.
  intros Hw Ho. unfold exec, step. destruct o as [id data|id|as_ n].
  - destruct Ho as [Hid Hd]. rewrite (save_post (st w) id data (inv_conf w Hw) Hid Hd). eexists. split; [done|].
    apply pending_inv; [done|done|]. by apply length_padded.
  - rewrite (zero_post (st w) id (inv_conf w Hw) Ho). eexists. split; [done|]. apply pending_inv; [done|done|]. by apply length_padded.
  - destruct (createCheckpoint_post w as_ n Hw Ho) as (l & l' & -> & ? & ? & ? & ? & ?). eexists. split; [done|].
    by apply checkpoint_inv.
Qed.
End facts.
End BCStateTranFacts.
