(* ===== verification/BCStateTranSpec.v ===== *)
(** * What state transfer promises about the reserved pages (BCStateTran.v)

    The states a replica can reach from start without fetching; in all of them the
    operations succeed, the pages hold what was written last and the stored checkpoints
    what the pages held then.  [BCStateTran] also implements the interface of
    [ReservedPages.v]. *)
From S2P Require Import Prelude SysConsts DataStore ReservedPages BCStateTran BCStateTranFacts.

Module BCStateTranSpec.
Import BCStateTran BCStateTranFacts.

(** ** Start *)
Definition boot (H : list Z → Digest) (as_ : IAppState) (pedantic : bool) (reps : gset Z) (my f maxPages mx num : Z) : res t :=
  s ← ctor reps my f maxPages;
  s ← init H as_ pedantic s mx num kSizeOfReservedPage;
  startRunning s.

Record params_ok (reps : gset Z) (my f maxPages mx num : Z) : Prop := {
  par_replicas : 3 * f + 1 <= Z.of_nat (size reps);
  par_my : my ∈ reps;
  par_pages : 2 <= num <= maxPages;
  par_mx : 2 <= mx <= kMaxNumOfStoredCheckpoints;
  par_width : my < D.UINT16_MAX ∧ f < D.UINT16_MAX ∧ maxPages < D.UINT32_MAX;
}.

Definition zeroPages (num : Z) : gmap Z (list Z) := gset_to_gmap (padded []) (list_to_set (seqZ 0 num)).
Definition abs_start (num : Z) : abs := mkAbs (zeroPages num) ∅ 0.

Lemma lookup_zeroPages num id : 0 <= id < num → zeroPages num !! id = Some (padded []).
Proof. intros Hid. apply lookup_gset_to_gmap_Some. split; [|done]. apply elem_of_list_to_set, elem_of_seqZ. lia. Qed.

Lemma zero_loop l : ∀ d, D.sizeOfReservedPage_ d = kSizeOfReservedPage →
  ∃ m, foldM (fun d i => D.setPendingResPage d i (replicate (Z.to_nat kSizeOfReservedPage) 0)) d l = Ok (D.set_pages d m (D.pages d)) ∧
    ∀ id, m !! id = if bool_decide (id ∈ l) then Some (padded []) else D.pendingPages d !! id.
Proof.
  induction l as [|i l IH]; intros d Hs; cbn [foldM].
  - exists (D.pendingPages d). split; [by destruct d|]. intros id. by rewrite bool_decide_eq_false_2 by apply not_elem_of_nil.
  - unfold D.setPendingResPage at 2. rewrite Hs, length_replicate. change (Z.of_nat (Z.to_nat kSizeOfReservedPage) <=? kSizeOfReservedPage) with true.
    cbn [Assert mbind res_bind]. set (d1 := D.set_pages _ _ _). destruct (IH d1) as (m & -> & Hm); [done|].
    exists m. split; [done|]. intros id. rewrite Hm. destruct (decide (id ∈ l)) as [Hin|Hin].
    + rewrite !bool_decide_eq_true_2; [done|by right|done].
    + rewrite bool_decide_eq_false_2 by done. cbn. destruct (decide (id = i)) as [-> |Hne].
      * rewrite lookup_insert_eq, bool_decide_eq_true_2 by left. f_equal.
      * rewrite lookup_insert_ne by done. rewrite bool_decide_eq_false_2; [done|]. by intros [?|?]%elem_of_cons.
Qed.

Section spec.
Context (H : list Z → Digest) (num mx : Z) (blocks : Z → list Z).

Lemma boot_inv as_ pedantic reps my f maxPages : params_ok reps my f maxPages mx num →
  ∃ s, boot H as_ pedantic reps my f maxPages mx num = Ok s ∧ inv H num mx blocks (mkW s (abs_start num)).
Proof.
  intros [Hr Hmy Hp Hmx Hw]. unfold boot, ctor.
  rewrite (proj2 (Z.leb_le _ _) Hr), (bool_decide_eq_true_2 _ Hmy), (proj2 (Z.leb_le 2 maxPages)) by lia. cbn [Assert mbind res_bind].
  unfold init. cbn [running_ negb psd_ D.ctor D.initialized D.wasInit_ Assert mbind res_bind].
  change (kSizeOfReservedPage =? kSizeOfReservedPage) with true. cbn [Assert mbind res_bind maxNumOfReservedPages_].
  rewrite (proj2 (Z.leb_le 2 mx)), (proj2 (Z.leb_le mx kMaxNumOfStoredCheckpoints)), (proj2 (Z.leb_le 2 num)),
    (proj2 (Z.leb_le num maxPages)) by lia. cbn [andb Assert mbind res_bind].
  remember (seqZ 0 num) as l eqn:El. unfold D.setReplicas. cbn. unfold D.setMaxNumOfStoredCheckpoints, D.setNumberOfReservedPages. cbn.
  rewrite (proj2 (Z.ltb_lt 0 mx)), (proj2 (Z.ltb_lt 0 num)) by lia. cbn [Assert mbind res_bind].
  rewrite (bool_decide_eq_true_2 (∅ = ∅)) by done. cbn.
  match goal with |- context [foldM _ ?d l] => destruct (zero_loop l d) as (m & -> & Hm); [done|] end. cbn.
  eexists. split; [done|].
  assert (Hpend : ∀ id, m !! id = if bool_decide (0 <= id < num) then Some (padded []) else None).
  { intros id. rewrite Hm. cbn. rewrite lookup_empty. rewrite (bool_decide_ext (id ∈ l) (0 <= id < num)); [done|].
    rewrite El, elem_of_seqZ. lia. }
  constructor; cbn.
  - constructor; cbn; try done.
    + unfold D.UINT32_MAX in *. split_and!; lia.
    + unfold kMaxNumOfStoredCheckpoints, D.UINT64_MAX in *. split_and!; lia.
    + split_and!; try done; try lia. intros He. rewrite He in Hmy. set_solver.
  - constructor.
  - intros v Hv. by apply elem_of_nil in Hv.
  - intros id p. rewrite Hpend. case_bool_decide; [|done]. intros [= <-]. split; [lia|]. by apply length_padded.
  - intros id Hid. exists (padded []). split_and!; [by apply lookup_zeroPages|by apply length_padded|]. left. cbn. rewrite Hpend.
    by rewrite bool_decide_eq_true_2.
  - lia.
  - intros c p Hc. by rewrite lookup_empty in Hc.
  - intros c. rewrite !lookup_empty. split; [by intros []|by intros [_ []]].
  - intros c d'. by rewrite lookup_empty.
  - intros c1 c2 d1 d2 _. by rewrite lookup_empty.
  - done.
Qed.

(** ** Reachable states *)
Inductive reach : world → Prop :=
  | reach_boot as_ pedantic reps my f maxPages s : params_ok reps my f maxPages mx num →
      boot H as_ pedantic reps my f maxPages mx num = Ok s → reach (mkW s (abs_start num))
  | reach_exec w o w' : reach w → op_pre num blocks w o → exec H w o = Ok w' → reach w'.

Lemma reach_params w : reach w → 2 <= num ∧ 2 <= mx.
Proof. induction 1 as [as_ ped reps my f maxPages s [] _|]; [lia|done]. Qed.

Lemma reach_inv w : reach w → inv H num mx blocks w.
Proof.
  intros Hw. pose proof (reach_params w Hw) as [Hn Hx]. induction Hw as [as_ ped reps my f maxPages s Hp Hs|w o w' Hw IH Ho He].
  - destruct (boot_inv as_ ped reps my f maxPages Hp) as (s' & Hs' & Hi). congruence.
  - destruct (run_op_ok H num mx Hn Hx blocks w o IH Ho) as (w2 & E & Hi). congruence.
Qed.

(** ** Reading *)
Definition pageOf (s : t) (id : Z) : list Z :=
  match D.pendingPages (psd_ s) !! id with
  | Some p => p
  | None => match D.version id (D.lastStoredCheckpoint (psd_ s)) (D.pages (psd_ s)) with Some v => D.page v | None => [] end
  end.

Lemma current_pageOf s id p : current s id p → pageOf s id = p.
Proof. unfold pageOf. intros [-> |(-> & v & -> & <-)]; done. Qed.

Lemma take_bytes l n : 0 <= n <= Z.of_nat (length l) → get_bytes l 0 n = Ok (take (Z.to_nat n) l).
Proof. intros Hn. apply get_bytes_ok. split; [lia|done]. Qed.

Lemma getResPage_post d id c v n : D.ordered (D.pages d) → D.sizeOfReservedPage_ d = kSizeOfReservedPage → c <= D.lastStoredCheckpoint d →
  D.version id c (D.pages d) = Some v → Z.of_nat (length (D.page v)) = kSizeOfReservedPage → 0 < n <= kSizeOfReservedPage →
  D.getResPage d id c (Some n) = Ok (D.checkpoint v, D.pageDigest v, take (Z.to_nat n) (D.page v)).
Proof.
  intros Ho Hs Hc Hv Hlen Hn. unfold D.getResPage. cbn [default]. rewrite Hs. rewrite (proj2 (Z.leb_le n _)), (proj2 (Z.leb_le c _)) by (simpl; lia).
  cbn [Assert mbind res_bind]. rewrite (D.lower_bound_version id c _ v Ho Hv). destruct (D.version_in _ _ _ _ Hv) as (_ & -> & Hvc).
  rewrite Z.eqb_refl, (proj2 (Z.leb_le _ c) Hvc), (proj2 (Z.ltb_lt 0 n)) by lia. cbn [Assert mbind res_bind].
  by rewrite take_bytes by lia.
Qed.

(** A state whose pages can be read. *)
Definition ready (s : t) : Prop :=
  usable num s ∧ D.ordered (D.pages (psd_ s)) ∧ ∀ id, 0 <= id < num → ∃ p, current s id p ∧ Z.of_nat (length p) = kSizeOfReservedPage.

Lemma inv_ready w : inv H num mx blocks w → ready (st w).
Proof.
  intros Hw. unfold ready. split_and!; [apply (conf_usable num mx), Hw|apply Hw|]. intros id Hid. destruct (inv_cur _ _ _ _ _ Hw id Hid) as (p & _ & Hlen & Hc). eauto.
Qed.

Lemma load_ready s id n : ready s → 0 <= id < num → 0 < n <= kSizeOfReservedPage → load s id n = Ok (take (Z.to_nat n) (pageOf s id)).
Proof.
  intros ([Hr Hf Hs Hnum] & Ho & Hc) Hid Hn. destruct (Hc id Hid) as (p & Hcur & Hlen).
  rewrite (current_pageOf _ _ _ Hcur). unfold load, isFetching, D.getIsFetchingState, D.hasPendingResPage. rewrite Hr, Hf, Hnum.
  rewrite (proj2 (Z.ltb_lt id num)), (proj2 (Z.leb_le n kSizeOfReservedPage)) by lia. cbn [negb Assert mbind res_bind].
  destruct Hcur as [Hp|(Hp & v & Hv & <-)].
  - rewrite bool_decide_eq_true_2 by eauto. unfold D.getPendingResPage. rewrite Hs, Hp, (proj2 (Z.leb_le n _)) by lia. cbn [Assert mbind res_bind].
    by rewrite take_bytes by lia.
  - rewrite bool_decide_eq_false_2 by (by rewrite Hp; intros []). unfold D.getLastStoredCheckpoint.
    rewrite (getResPage_post _ id _ v n) by (done || lia). cbn [mbind res_bind].
    destruct (D.version_in _ _ _ _ Hv) as (_ & _ & Hvc). by rewrite (proj2 (Z.leb_le _ _) Hvc).
Qed.

Lemma load_post w id n : inv H num mx blocks w → 0 <= id < num → 0 < n <= kSizeOfReservedPage →
  load (st w) id n = Ok (take (Z.to_nat n) (pageOf (st w) id)).
Proof. intros Hw. apply load_ready. by apply inv_ready. Qed.

(** A stored checkpoint is read as it was made. *)
Lemma snapshot_read w c m id n : inv H num mx blocks w → snaps (ghost w) !! c = Some m → D.lastStoredCheckpoint (psd_ (st w)) - mx <= c →
  0 <= id < num → 0 < n <= kSizeOfReservedPage →
  ∃ p c', m !! id = Some p ∧ 0 < c' <= c ∧
    D.getResPage (psd_ (st w)) id c (Some n) = Ok (c', computeDigestOfPage H id c' p, take (Z.to_nat n) p).
Proof.
  intros Hw Hm Hc Hid Hn. destruct (inv_snaps _ _ _ _ _ Hw c m Hm) as [Hb Hs]. destruct (inv_stored _ _ _ _ _ Hw) as [_ Hf].
  destruct (Hs ltac:(lia) id Hid) as (v & Hv & Hp). destruct (D.version_in _ _ _ _ Hv) as (Hin & <- & Hvc).
  destruct (inv_versions _ _ _ _ _ Hw v Hin) as (_ & Hpos & Hlen & Hdig).
  exists (D.page v), (D.checkpoint v). split_and!; [done|lia|lia|]. rewrite <- Hdig.
  apply getResPage_post; try done; [apply Hw|apply Hw|lia].
Qed.

Lemma stored_desc w c : inv H num mx blocks w → is_Some (snaps (ghost w) !! c) → D.lastStoredCheckpoint (psd_ (st w)) - mx <= c →
  ∃ d, D.descMap (psd_ (st w)) !! c = Some d ∧ desc_ok H num blocks (D.pages (psd_ (st w))) c (height (ghost w)) d.
Proof.
  intros Hw Hs Hc. pose proof (snaps_bound _ _ _ _ w c Hw Hs) as Hb. destruct (inv_stored _ _ _ _ _ Hw) as [_ Hf].
  destruct (proj2 (inv_descs _ _ _ _ _ Hw c)) as [d Hd]; [split; [lia|done]|]. exists d. split; [done|]. by apply Hw.
Qed.

(** ** The checks of the stored data *)
Lemma checkBlocks_ok as_ n : ∀ i, app_ok blocks as_ → i <= getLastReachableBlockNum as_ - 1 → Z.of_nat n <= i →
  (∀ j, 0 < j < getLastReachableBlockNum as_ → let d := H (le_enc 8 j ++ blocks j) in d ≠ zeroDigest ∧ getPrevDigestFromBlock as_ (j + 1) = d) →
  checkBlocks H as_ n i = Ok true.
Proof.
  induction n as [|n IH]; intros i Ha Hi Hn Hp; cbn [checkBlocks]; [done|]. destruct Ha as [Hr Hpos Hb].
  destruct (Hb i ltac:(lia)) as [-> Hne]. destruct (Hp i ltac:(lia)) as [Hz Hd]. unfold computeDigestOfBlock.
  rewrite (proj2 (Z.ltb_lt 0 i)), (proj2 (Z.ltb_lt 0 _)) by (lia || (destruct (blocks i); [done|cbn; lia])). cbn [Assert mbind res_bind].
  rewrite bool_decide_eq_false_2 by done. rewrite bool_decide_eq_true_2 by done. cbn [negb]. apply IH; try done; lia.
Qed.

Lemma checkPages_ok d i ds : ∀ j, D.ordered (D.pages d) → D.sizeOfReservedPage_ d = kSizeOfReservedPage → i <= D.lastStoredCheckpoint d →
  (∀ v, v ∈ D.pages d → version_ok H num (D.lastStoredCheckpoint d) v) → 0 <= j →
  (∀ id, j <= id < j + Z.of_nat (length ds) → ∃ v, D.version id i (D.pages d) = Some v ∧ ds !! Z.to_nat (id - j) = Some (D.single v)) →
  checkPages H d i ds j = Ok true.
Proof.
  induction ds as [|x ds IH]; intros j Ho Hs Hi Hok Hj Hds; cbn [checkPages]; [done|].
  destruct (Hds j ltac:(cbn; lia)) as (v & Hv & Hx). rewrite Z.sub_diag in Hx. injection Hx as ->.
  destruct (D.version_in _ _ _ _ Hv) as (Hin & Hvj & Hvi). destruct (Hok v Hin) as (_ & Hpos & Hlen & Hdig). cbn [D.single D.d_pageId D.relevantCheckpoint D.d_pageDigest].
  rewrite (proj2 (Z.eqb_eq _ j) Hvj), (proj2 (Z.leb_le _ i) Hvi), (proj2 (Z.ltb_lt 0 _)) by lia.
  rewrite (getResPage_post d j i v kSizeOfReservedPage) by done. cbn [mbind res_bind]. rewrite Z.eqb_refl.
  rewrite firstn_all2 by lia. rewrite Hdig, Hvj, bool_decide_eq_true_2 by done. apply IH; try done; [lia|].
  intros id Hid. destruct (Hds id ltac:(cbn; lia)) as (u & Hu & Hl). exists u. split; [done|].
  replace (Z.to_nat (id - j)) with (S (Z.to_nat (id - (j + 1)))) in Hl by lia. done.
Qed.

Lemma lookup_omap_some {A B} (f : A → option B) (l : list A) : ∀ k : nat, (∀ x, x ∈ l → is_Some (f x)) → omap f l !! k = l !! k ≫= f.
Proof.
  induction l as [|x l IH]; intros k Hl; [done|]. cbn. destruct (Hl x ltac:(left)) as [y Hy]. rewrite Hy.
  destruct k; cbn; [done|]. apply IH. intros z Hz. apply Hl. by right.
Qed.

Lemma description_lookup l c id v : (∀ id, 0 <= id < num → is_Some (D.version id c l)) → 0 <= id < num →
  D.version id c l = Some v → description num c l !! Z.to_nat id = Some (D.single v).
Proof.
  intros Hall Hid Hv. unfold description. rewrite lookup_omap_some.
  - rewrite lookup_seqZ_lt by lia. cbn. replace (0 + Z.of_nat (Z.to_nat id)) with id by lia. by rewrite Hv.
  - intros x Hx%elem_of_seqZ. destruct (Hall x ltac:(lia)) as [u ->]. eauto.
Qed.

Lemma checkCheckpoint_ok as_ w c d prev : inv H num mx blocks w → 2 <= num → app_ok blocks as_ → height (ghost w) <= getLastReachableBlockNum as_ →
  D.descMap (psd_ (st w)) !! c = Some d → prev <= D.lastBlock d → checkCheckpoint H as_ (st w) c prev d = Ok true.
Proof.
  intros Hw Hnum [Hr Hpos Hb] Hh Hd Hprev. destruct (inv_desc _ _ _ _ _ Hw c d Hd) as (Hc & Hlb & Hdp & Hdb).
  pose proof (desc_bound _ _ _ _ w c d Hw Hd) as Hbound.
  destruct (proj1 (inv_descs _ _ _ _ _ Hw c) ltac:(by rewrite Hd)) as [Hfirst [m Hm]].
  destruct (inv_snaps _ _ _ _ _ Hw c m Hm) as [_ Hsnap]. specialize (Hsnap Hfirst).
  assert (Hall : ∀ id, 0 <= id < num → is_Some (D.version id c (D.pages (psd_ (st w))))) by (intros id Hid; destruct (Hsnap id Hid) as (v & -> & _); eauto).
  pose proof (inv_conf _ _ _ _ _ Hw) as Hconf. destruct (conf_num _ _ _ Hconf) as (Hn & Hn' & _).
  unfold checkCheckpoint. rewrite Hc, Z.eqb_refl, (proj2 (Z.leb_le _ (getLastReachableBlockNum as_))), (proj2 (Z.leb_le prev _)) by lia.
  assert ((if 0 <? D.lastBlock d then dg ← computeDigestOfBlock H (D.lastBlock d) (getBlock as_ (D.lastBlock d));
             Ok (bool_decide (dg = D.digestOfLastBlock d)) else Ok true) = Ok true) as ->.
  { destruct (Z.ltb_spec 0 (D.lastBlock d)) as [H0|H0]; [|done]. destruct (Hb _ ltac:(split; [exact H0|lia])) as [-> Hne].
    unfold computeDigestOfBlock. rewrite (proj2 (Z.ltb_lt 0 _) H0), (proj2 (Z.ltb_lt 0 _)) by (destruct (blocks _); [done|cbn; lia]).
    cbn [Assert mbind res_bind]. by rewrite bool_decide_eq_true_2. }
  cbn [mbind res_bind]. rewrite (getDescriptor_post num Hnum) by (try done; try apply Hw; try lia; intros v Hv; destruct (inv_versions _ _ _ _ _ Hw v Hv); lia).
  cbn [mbind res_bind]. rewrite (length_description num Hnum) by done. rewrite Hn, Z.eqb_refl, bool_decide_eq_true_2 by done.
  apply checkPages_ok; try apply Hw; try done; [lia|]. rewrite Z.add_0_l, (length_description num Hnum) by done.
  intros id Hid. destruct (Hsnap id Hid) as (v & Hv & _). exists v. split; [done|]. rewrite Z.sub_0_r. by apply description_lookup.
Qed.

Lemma checkCheckpoints_ok as_ w n : ∀ i prev, inv H num mx blocks w → 2 <= num → app_ok blocks as_ → height (ghost w) <= getLastReachableBlockNum as_ →
  (∀ c d, i <= c → D.descMap (psd_ (st w)) !! c = Some d → prev <= D.lastBlock d) → checkCheckpoints H as_ (st w) n i prev = Ok true.
Proof.
  induction n as [|n IH]; intros i prev Hw Hnum Ha Hh Hprev; cbn [checkCheckpoints]; [done|]. unfold D.hasCheckpointDesc, D.getCheckpointDesc.
  destruct (D.descMap (psd_ (st w)) !! i) as [d|] eqn:Hd.
  - rewrite bool_decide_eq_true_2 by done. cbn [negb]. destruct (inv_desc _ _ _ _ _ Hw i d Hd) as (Hc & _). rewrite Hc, Z.eqb_refl.
    cbn [Assert mbind res_bind]. rewrite (checkCheckpoint_ok as_ w i d prev) by (try done; by apply (Hprev i)). cbn [mbind res_bind].
    apply IH; try done. intros c d' Hi Hd'. apply (inv_mono _ _ _ _ _ Hw i c); [lia|done|done].
  - rewrite bool_decide_eq_false_2 by by intros []. apply IH; try done. intros c d' Hi. apply Hprev. lia.
Qed.

(** Blocks whose successors hold their digests, none of which is zero. *)
Definition chained (as_ : IAppState) : Prop :=
  ∀ j, 0 < j < getLastReachableBlockNum as_ → let d := H (le_enc 8 j ++ blocks j) in d ≠ zeroDigest ∧ getPrevDigestFromBlock as_ (j + 1) = d.

Lemma checkConsistency_post as_ w b : inv H num mx blocks w → 2 <= num → app_ok blocks as_ →
  height (ghost w) <= getLastReachableBlockNum as_ → (b = true → chained as_) →
  checkConsistency H as_ (st w) b = Ok (D.lastStoredCheckpoint (psd_ (st w)) <? mx).
Proof.
  intros Hw Hnum Ha Hh Hb. pose proof (inv_conf _ _ _ _ _ Hw) as [_ (Hf & Hcb & Hfr & Hlr) _ (Hn & Hn' & Hnw) (Hx & Hx' & Hxw) (Hi & Hr & Hrne & Hmy & Hmyw & Hfv & Hfw)].
  destruct (inv_stored _ _ _ _ _ Hw) as [Hlast Hfirst].
  unfold checkConsistency, D.initialized, D.getReplicas, D.getMyReplicaId, D.getFVal, D.getMaxNumOfStoredCheckpoints, D.getNumberOfReservedPages.
  rewrite Hi, Hr, Hmy, Hfv, Hx', Hn', Hx, Hn, bool_decide_eq_false_2 by done. rewrite (proj2 (Z.eqb_neq _ _) Hmyw), (proj2 (Z.eqb_neq _ _) Hfw), (proj2 (Z.eqb_neq _ _) Hnw), (proj2 (Z.eqb_neq _ _) Hxw).
  cbn [negb Assert mbind res_bind]. rewrite bool_decide_eq_true_2 by done. rewrite !Z.eqb_refl. unfold D.getFirstStoredCheckpoint, D.getLastStoredCheckpoint.
  rewrite Hfirst. destruct (Z.ltb_spec (D.lastStoredCheckpoint (psd_ (st w))) mx) as [Hlt|Hge].
  2: { destruct (_ <=? D.lastStoredCheckpoint (psd_ (st w))); [|done]. by rewrite (proj2 (Z.leb_gt (_ - _ + 1) mx)) by lia. }
  rewrite Z.max_l by lia. rewrite (proj2 (Z.leb_le 0 _)), (proj2 (Z.leb_le (_ - 0 + 1) mx)) by lia. rewrite Z.eqb_refl. cbn [orb].
  assert ((D.lastStoredCheckpoint (psd_ (st w)) =? 0) || D.hasCheckpointDesc (psd_ (st w)) (D.lastStoredCheckpoint (psd_ (st w))) = true) as ->.
  { destruct (Z.eqb_spec (D.lastStoredCheckpoint (psd_ (st w))) 0) as [|Hz]; [done|]. cbn [orb]. apply bool_decide_eq_true_2, (inv_descs _ _ _ _ _ Hw).
    split; [lia|]. by apply (inv_last _ _ _ _ _ Hw). }
  assert ((if b && (0 <? getLastReachableBlockNum as_) then checkBlocks H as_ (Z.to_nat (getLastReachableBlockNum as_ - 1)) (getLastReachableBlockNum as_ - 1)
           else Ok true) = Ok true) as ->.
  { destruct b; [|done]. destruct (Z.ltb_spec 0 (getLastReachableBlockNum as_)); [|done]. cbn [andb]. apply checkBlocks_ok; [done|lia|lia|by apply Hb]. }
  cbn [mbind res_bind]. unfold checkUnreachable. rewrite <- (app_reachable _ _ Ha), Z.leb_refl, Z.ltb_irrefl. cbn [mbind res_bind].
  assert ((if 0 <? D.lastStoredCheckpoint (psd_ (st w)) then checkCheckpoints H as_ (st w) (Z.to_nat (D.lastStoredCheckpoint (psd_ (st w)) - 0 + 1)) 0 0
           else Ok true) = Ok true) as ->.
  { destruct (0 <? _); [|done]. apply checkCheckpoints_ok; try done. intros c d _ Hd. destruct (inv_desc _ _ _ _ _ Hw c d Hd) as (_ & ? & _). lia. }
  cbn [mbind res_bind]. unfold D.getIsFetchingState, D.hasCheckpointBeingFetched, D.getFirstRequiredBlock, D.getLastRequiredBlock.
  rewrite Hf, Hcb, Hfr, Hlr. rewrite (bool_decide_eq_false_2 (None ≠ None)) by naive_solver. done.
Qed.

(** The module that is created when a replica starts again with the data of [s]. *)
Definition restarted (s : t) : t := mk (psd_ s) (replicas_ s) (myId_ s) (fVal_ s) (maxNumOfReservedPages_ s) 0 0 false.
Definition stopped (s : t) : t :=
  mk (psd_ s) (replicas_ s) (myId_ s) (fVal_ s) (maxNumOfReservedPages_ s) (maxNumOfStoredCheckpoints_ s) (numberOfReservedPages_ s) false.

Lemma checkCheckpoints_stopped as_ s n : ∀ i prev, checkCheckpoints H as_ (stopped s) n i prev = checkCheckpoints H as_ s n i prev.
Proof.
  induction n as [|n IH]; intros i prev; [done|]. cbn [checkCheckpoints]. rewrite IH. change (psd_ (stopped s)) with (psd_ s).
  destruct (negb _); [done|]. destruct (D.getCheckpointDesc (psd_ s) i) as [d|]; [|done]. cbn [mbind res_bind].
  change (checkCheckpoint H as_ (stopped s) i prev d) with (checkCheckpoint H as_ s i prev d). by rewrite IH.
Qed.

Lemma checkConsistency_stopped as_ s b : checkConsistency H as_ (stopped s) b = checkConsistency H as_ s b.
Proof. unfold checkConsistency. rewrite checkCheckpoints_stopped. done. Qed.

Lemma init_restarted as_ w b : inv H num mx blocks w → 2 <= num → app_ok blocks as_ →
  height (ghost w) <= getLastReachableBlockNum as_ → (b = true → chained as_) →
  init H as_ b (restarted (st w)) mx num kSizeOfReservedPage =
    if D.lastStoredCheckpoint (psd_ (st w)) <? mx then Ok (stopped (st w)) else Err AssertFailed.
Proof.
  intros Hw Hnum Ha Hh Hb. destruct (inv_conf _ _ _ _ _ Hw) as [_ _ _ (Hn & _) (Hx & _) (Hi & _)]. unfold init. cbn [restarted running_ negb Assert mbind res_bind psd_].
  change (kSizeOfReservedPage =? kSizeOfReservedPage) with true. cbn [Assert mbind res_bind restarted psd_ running_ replicas_ myId_ fVal_ maxNumOfReservedPages_].
  unfold D.initialized. rewrite Hi. assert (mk (psd_ (st w)) (replicas_ (st w)) (myId_ (st w)) (fVal_ (st w)) (maxNumOfReservedPages_ (st w)) mx num false
    = stopped (st w)) as -> by (unfold stopped; by rewrite Hn, Hx).
  rewrite checkConsistency_stopped, (checkConsistency_post as_ w b) by done. cbn [mbind res_bind]. by destruct (_ <? mx).
Qed.
End spec.

(** ** The interface *)
#[export] Instance reserved_pages : ReservedPages t :=
  {| loadReservedPage := load; saveReservedPage := save; zeroReservedPage := zero |}.

Section interface.
Context (num : Z).

(** The state after page [id] is set to [p]. *)
Lemma pending_ready s id p : ready num s → 0 <= id < num → Z.of_nat (length p) = kSizeOfReservedPage →
  ready num (with_pending s id p) ∧ pageOf (with_pending s id p) id = p ∧
  ∀ id', 0 <= id' < num → id' ≠ id → pageOf (with_pending s id p) id' = pageOf s id'.
Proof.
  intros ([] & Ho & Hc) Hid Hp. unfold ready. split_and!.
  - by constructor.
  - done.
  - intros id' Hid'. unfold current. cbn. destruct (decide (id' = id)) as [-> |Hne]; [exists p; rewrite lookup_insert_eq; auto|].
    rewrite lookup_insert_ne by done. by apply Hc.
  - unfold pageOf. cbn. by rewrite lookup_insert_eq.
  - intros id' _ Hne. unfold pageOf. cbn. by rewrite lookup_insert_ne.
Qed.

#[export] Program Instance spec : ReservedPagesSpec t num kSizeOfReservedPage := {| rp_ok := ready num; rp_page := pageOf |}.
Next Obligation. intros s id (_ & _ & Hc) Hid. destruct (Hc id Hid) as (p & Hp & Hlen). by rewrite (current_pageOf s id p Hp). Qed.
Next Obligation. intros s id n Hs Hid Hn. by apply (load_ready num). Qed.
Next Obligation.
  intros s id data Hok Hid Hd. destruct (pending_ready s id (padded data) Hok Hid) as (H1 & H2 & H3); [by apply length_padded|].
  exists (with_pending s id (padded data)). split_and!; [|done| |done].
  - apply (save_usable num); [apply Hok|done|done].
  - rewrite H2. unfold padded. by rewrite take_app_length.
Qed.
Next Obligation.
  intros s id Hok Hid. destruct (pending_ready s id (padded []) Hok Hid) as (H1 & H2 & H3); [by apply length_padded|].
  exists (with_pending s id (padded [])). split_and!; [|done|done|done]. apply (zero_usable num); [apply Hok|done].
Qed.
End interface.
End BCStateTranSpec.

(** * Digests of checkpoints (BCStateTran.v)

    What equal digests say about the descriptors, the pages and the checkpoints that were
    hashed, for a hash without collisions. *)
Module BCStateTranDigests.
Import BCStateTran BCStateTranFacts BCStateTranSpec.

#[local] Abbreviation last w := (D.lastStoredCheckpoint (psd_ (st w))).

(** ** Digests *)
Section digests.
Context (H : list Z → Digest) (num mx : Z) (blocks : Z → list Z).

Lemma getDigest_post w c : inv H num mx blocks w → is_Some (snaps (ghost w) !! c) → last w - mx <= c →
  ∃ d, D.descMap (psd_ (st w)) !! c = Some d ∧ desc_ok H num blocks (D.pages (psd_ (st w))) c (height (ghost w)) d ∧
    getDigestOfCheckpoint H (st w) c DIGEST_SIZE = Ok (digestOfDesc H d).
Proof.
  intros Hw Hs Hc. destruct (stored_desc H num mx blocks w c Hw Hs Hc) as (d & Hd & Hok). exists d. split_and!; [done|done|].
  pose proof (snaps_bound _ _ _ _ w c Hw Hs). destruct (inv_conf _ _ _ _ _ Hw) as [Hr (Hf & _) _ _ _ _].
  destruct (inv_stored _ _ _ _ _ Hw) as [_ Hfirst]. destruct Hok as (Hnum & _).
  unfold getDigestOfCheckpoint, isFetching, D.getIsFetchingState, D.getFirstStoredCheckpoint, D.getLastStoredCheckpoint, D.hasCheckpointDesc, D.getCheckpointDesc.
  rewrite Hr, Hf, Hfirst, Hd, Hnum, Z.eqb_refl, (proj2 (Z.ltb_lt 0 c)), (proj2 (Z.leb_le _ c)), (proj2 (Z.leb_le c _)) by lia.
  rewrite (bool_decide_eq_true_2 (is_Some (Some d))) by done. cbn [negb Assert mbind res_bind]. change (DIGEST_SIZE <=? DIGEST_SIZE) with true.
  cbn [negb Assert mbind res_bind]. by rewrite Z.sub_diag, app_nil_r.
Qed.
End digests.

Section injective.
Context (H : list Z → Digest) (Hlen : ∀ x, length (H x) = Z.to_nat DIGEST_SIZE) (Hinj : ∀ x y, H x = H y → x = y).

Lemma app_inj_len {A} (l1 l2 k1 k2 : list A) : length l1 = length l2 → l1 ++ k1 = l2 ++ k2 → l1 = l2 ∧ k1 = k2.
Proof. intros Hl He. by apply app_inj_1. Qed.

Lemma digestOfDesc_inj c d1 d2 : D.checkpointNum d1 = c → D.checkpointNum d2 = c → length (D.digestOfLastBlock d1) = length (D.digestOfLastBlock d2) →
  digestOfDesc H d1 = digestOfDesc H d2 → D.digestOfResPagesDescriptor d1 = D.digestOfResPagesDescriptor d2.
Proof.
  intros <- E Hl He. apply Hinj in He. rewrite E in He. apply app_inj_len in He as [_ He]; [|done]. apply app_inj_len in He as [_ He]; [|by rewrite !length_le_enc].
  by apply app_inj_len in He as [_ He].
Qed.

(** Two entries of descriptors with the same bytes. *)
Definition same_entry (d1 d2 : D.SingleResPageDesc) : Prop :=
  le_enc 8 (D.relevantCheckpoint d1) = le_enc 8 (D.relevantCheckpoint d2) ∧ D.d_pageDigest d1 = D.d_pageDigest d2.

Lemma enc_single_inj d1 d2 : length (D.d_pageDigest d1) = length (D.d_pageDigest d2) → ∀ r1 r2,
  enc_single d1 ++ r1 = enc_single d2 ++ r2 → same_entry d1 d2 ∧ r1 = r2.
Proof.
  intros Hl r1 r2 He. apply app_inj_len in He as [He1 He2]; [|unfold enc_single; rewrite !length_app, !length_le_enc, Hl; done].
  split; [|done]. unfold enc_single in He1. apply app_inj_len in He1 as [_ He1]; [|by rewrite !length_le_enc].
  apply app_inj_len in He1 as [_ He1]; [|done]. by apply app_inj_len in He1; [|by rewrite !length_le_enc].
Qed.

Definition digest_lengths (ds : list D.SingleResPageDesc) : Prop := ∀ d, d ∈ ds → length (D.d_pageDigest d) = Z.to_nat DIGEST_SIZE.

Lemma enc_singles_inj ds1 : ∀ ds2, length ds1 = length ds2 → digest_lengths ds1 → digest_lengths ds2 →
  ds1 ≫= enc_single = ds2 ≫= enc_single → Forall2 same_entry ds1 ds2.
Proof.
  induction ds1 as [|d1 ds1 IH]; intros [|d2 ds2] Hl H1 H2 He; try done. rewrite !bind_cons in He.
  apply enc_single_inj in He as [? ?]; [|by rewrite H1, H2 by left].
  constructor; [done|]. apply IH; [by injection Hl|intros d Hd; apply H1; by right|intros d Hd; apply H2; by right|done].
Qed.

Lemma descriptor_inj ds1 ds2 : length ds1 = length ds2 → digest_lengths ds1 → digest_lengths ds2 →
  computeDigestOfPagesDescriptor H ds1 = computeDigestOfPagesDescriptor H ds2 → Forall2 same_entry ds1 ds2.
Proof.
  intros Hl H1 H2 He. apply Hinj in He. apply app_inj_len in He as [_ He]; [|by rewrite !length_le_enc].
  apply app_inj_len in He as [_ He]; [|done]. by apply enc_singles_inj.
Qed.

Context (num : Z) (Hnum : 2 <= num).

Lemma desc_digest_length blocks l c h d : desc_ok H num blocks l c h d → length (D.digestOfLastBlock d) = Z.to_nat DIGEST_SIZE.
Proof. intros (_ & _ & _ & ->). by destruct (0 <? _); [apply Hlen|]. Qed.

Lemma description_digest_length l c : (∀ v, v ∈ l → D.pageDigest v = computeDigestOfPage H (D.pageId v) (D.checkpoint v) (D.page v)) →
  digest_lengths (description num c l).
Proof.
  intros Hl d (id & _ & Hd)%list_elem_of_omap. destruct (D.version id c l) as [v|] eqn:Ev; [|done]. injection Hd as <-. cbn.
  rewrite (Hl v) by (by eapply D.version_in). apply Hlen.
Qed.

Lemma page_digest_inj id c1 c2 p1 p2 : 0 < c1 → 0 < c2 → computeDigestOfPage H id c1 p1 = computeDigestOfPage H id c2 p2 → p1 = p2.
Proof.
  intros H1 H2 He. apply Hinj in He. rewrite (proj2 (Z.ltb_lt 0 c1) H1), (proj2 (Z.ltb_lt 0 c2) H2) in He.
  apply app_inj_len in He as [_ He]; [|done]. by apply app_inj_len in He as [_ He]; [|by rewrite !length_le_enc].
Qed.

Lemma snapshot_versions mx blocks w c m : inv H num mx blocks w → snaps (ghost w) !! c = Some m → last w - mx <= c →
  ∀ id, 0 <= id < num → ∃ v, D.version id c (D.pages (psd_ (st w))) = Some v ∧ m !! id = Some (D.page v) ∧ 0 < D.checkpoint v ∧
    D.pageDigest v = computeDigestOfPage H id (D.checkpoint v) (D.page v).
Proof.
  intros Hw Hm Hc id Hid. destruct (inv_snaps _ _ _ _ _ Hw c m Hm) as [? Hs]. destruct (inv_stored _ _ _ _ _ Hw) as [_ Hf].
  destruct (Hs ltac:(lia) id Hid) as (v & Hv & Hp). exists v. destruct (D.version_in _ _ _ _ Hv) as (Hin & <- & _).
  destruct (inv_versions _ _ _ _ _ Hw v Hin) as (_ & ? & _ & ?). split_and!; [done|done|lia|done].
Qed.

Lemma equal_digests mx1 mx2 blocks1 blocks2 w1 w2 c m1 m2 : inv H num mx1 blocks1 w1 → inv H num mx2 blocks2 w2 →
  snaps (ghost w1) !! c = Some m1 → snaps (ghost w2) !! c = Some m2 → last w1 - mx1 <= c → last w2 - mx2 <= c →
  getDigestOfCheckpoint H (st w1) c DIGEST_SIZE = getDigestOfCheckpoint H (st w2) c DIGEST_SIZE →
  ∀ id, 0 <= id < num → m1 !! id = m2 !! id.
Proof.
  intros Hw1 Hw2 Hm1 Hm2 Hc1 Hc2 He id Hid.
  destruct (getDigest_post H num mx1 blocks1 w1 c Hw1 ltac:(by rewrite Hm1) Hc1) as (d1 & _ & Hok1 & E1).
  destruct (getDigest_post H num mx2 blocks2 w2 c Hw2 ltac:(by rewrite Hm2) Hc2) as (d2 & _ & Hok2 & E2).
  rewrite E1, E2 in He. injection He as He. apply (digestOfDesc_inj c) in He; [|apply Hok1|apply Hok2|by rewrite (desc_digest_length _ _ _ _ _ Hok1), (desc_digest_length _ _ _ _ _ Hok2)].
  destruct Hok1 as (_ & _ & R1 & _), Hok2 as (_ & _ & R2 & _). rewrite R1, R2 in He.
  pose proof (snapshot_versions mx1 blocks1 w1 c m1 Hw1 Hm1 Hc1) as Hv1. pose proof (snapshot_versions mx2 blocks2 w2 c m2 Hw2 Hm2 Hc2) as Hv2.
  assert (Ha1 : ∀ id, 0 <= id < num → is_Some (D.version id c (D.pages (psd_ (st w1))))) by (intros i Hi; destruct (Hv1 i Hi) as (v & -> & _); eauto).
  assert (Ha2 : ∀ id, 0 <= id < num → is_Some (D.version id c (D.pages (psd_ (st w2))))) by (intros i Hi; destruct (Hv2 i Hi) as (v & -> & _); eauto).
  pose proof (length_description num Hnum c _ Ha1) as L1. pose proof (length_description num Hnum c _ Ha2) as L2.
  apply descriptor_inj in He; [|lia|apply description_digest_length; intros v Hv; by apply (inv_versions _ _ _ _ _ Hw1)
    |apply description_digest_length; intros v Hv; by apply (inv_versions _ _ _ _ _ Hw2)].
  destruct (Hv1 id Hid) as (v1 & V1 & -> & P1 & D1), (Hv2 id Hid) as (v2 & V2 & -> & P2 & D2).
  destruct (Forall2_lookup_lr _ _ _ _ _ _ He (description_lookup num _ c id v1 Ha1 Hid V1) (description_lookup num _ c id v2 Ha2 Hid V2)) as [_ Hd].
  cbn in Hd. rewrite D1, D2 in Hd. by rewrite (page_digest_inj _ _ _ _ _ P1 P2 Hd).
Qed.
End injective.

End BCStateTranDigests.
