(* ===== verification/BCStateTranProps.v ===== *)
(** * The theorems about the reserved pages of state transfer (BCStateTranSpec.v) *)
From S2P Require Import Prelude SysConsts DataStore ReservedPages BCStateTran BCStateTranFacts BCStateTranSpec.

Module BCStateTranProps.
Import BCStateTran BCStateTranFacts BCStateTranSpec BCStateTranDigests.

#[local] Abbreviation last w := (D.lastStoredCheckpoint (psd_ (st w))).

(** ** Properties *)

(** C22: In every state that is reached without fetching, making a checkpoint and writing a page succeed, a page is read as it
    was written last, and each of the latest checkpoints is read as the pages were when it was made. *)
Theorem reservedPages_snapshots H num mx blocks w : reach H num mx blocks w →
  (∀ o, op_pre num blocks w o → is_ok (step H (st w) o) = true) ∧
  (∀ id n, 0 <= id < num → 0 < n <= kSizeOfReservedPage →
     ∃ p, cur (ghost w) !! id = Some p ∧ load (st w) id n = Ok (take (Z.to_nat n) p)) ∧
  (∀ c m id n, snaps (ghost w) !! c = Some m → last w - mx <= c → 0 <= id < num → 0 < n <= kSizeOfReservedPage →
     ∃ p c', m !! id = Some p ∧ 0 < c' <= c ∧
       D.getResPage (psd_ (st w)) id c (Some n) = Ok (c', computeDigestOfPage H id c' p, take (Z.to_nat n) p)).
Proof.
  intros Hr. pose proof (reach_inv H num mx blocks w Hr) as Hw. destruct (reach_params H num mx blocks w Hr) as [Hn Hx]. split_and!.
  - intros o Ho. destruct (run_op_ok H num mx Hn Hx blocks w o Hw Ho) as (w' & He & _). unfold exec in He. by destruct (step H (st w) o).
  - intros id n Hid Hl. destruct (inv_cur _ _ _ _ _ Hw id Hid) as (p & Hp & _ & Hc). exists p. split; [done|].
    rewrite (load_post H num mx blocks w id n Hw Hid Hl). by rewrite (current_pageOf _ _ _ Hc).
  - intros c m id n. by apply (snapshot_read H num mx blocks w).
Qed.

(** C25: With a collision-free hash, replicas that report the same digest of a checkpoint hold the same pages in it. *)
Theorem equal_digests_equal_pages H num mx1 mx2 blocks1 blocks2 w1 w2 c m1 m2 :
  (∀ x, length (H x) = Z.to_nat DIGEST_SIZE) → (∀ x y, H x = H y → x = y) →
  reach H num mx1 blocks1 w1 → reach H num mx2 blocks2 w2 →
  snaps (ghost w1) !! c = Some m1 → snaps (ghost w2) !! c = Some m2 → last w1 - mx1 <= c → last w2 - mx2 <= c →
  getDigestOfCheckpoint H (st w1) c DIGEST_SIZE = getDigestOfCheckpoint H (st w2) c DIGEST_SIZE →
  ∀ id, 0 <= id < num → m1 !! id = m2 !! id.
Proof.
  intros Hl Hi Hr1 Hr2. destruct (reach_params _ _ _ _ _ Hr1) as [Hn _]. apply (equal_digests H Hl Hi num Hn mx1 mx2 blocks1 blocks2).
  - by apply reach_inv.
  - by apply reach_inv.
Qed.

(** A replica that starts again with its stored data fails the consistency check as soon as it has made
    [maxNumOfStoredCheckpoints_] checkpoints: one more is kept than the check allows. *)
Theorem restart_fails_after_max_checkpoints H num mx blocks w as_ b : reach H num mx blocks w → app_ok blocks as_ →
  height (ghost w) <= getLastReachableBlockNum as_ → (b = true → chained H blocks as_) →
  init H as_ b (restarted (st w)) mx num kSizeOfReservedPage = if last w <? mx then Ok (stopped (st w)) else Err AssertFailed.
Proof.
  intros Hr. destruct (reach_params _ _ _ _ _ Hr) as [Hn _]. apply (init_restarted H num mx blocks as_ w b); [by apply reach_inv|done].
Qed.

(** One condition of a check that succeeded. *)
#[local] Ltac check_step E :=
  match type of E with
  | (if ?c then _ else Ok false) = Ok true => destruct c eqn:?; [|discriminate E]
  | (?m ≫= _) = Ok true => let x := fresh "x" in let Hx := fresh "Hx" in apply bind_ok in E as (x & Hx & E)
  end.

(** The consistency check fails for all data with blocks above a gap, such as a replica has while it fetches blocks: it requires
    the state of fetching pages and also a block that is still required, which together are impossible. *)
Theorem consistency_check_rejects_gaps H as_ s b : 0 <= getLastReachableBlockNum as_ < getLastBlockNum as_ → checkConsistency H as_ s b ≠ Ok true.
Proof.
  intros Hb E. assert (checkUnreachable H as_ s b ≠ Ok true) as Hu.
  { clear E. unfold checkUnreachable. rewrite (proj2 (Z.ltb_lt _ _)) by lia. intros E. repeat check_step E.
    unfold getFetchingState in *. repeat match goal with HE : bool_decide _ = true |- _ => apply bool_decide_eq_true_1 in HE end. subst. bool_to_prop.
    match goal with HE : (if negb (D.getIsFetchingState _) then _ else _) = _ |- _ => rename HE into Efs end. repeat check_step Efs.
    destruct (negb _); [done|]. apply assert_bind_ok in Efs as [_ Efs]. destruct (negb _); [done|]. by rewrite (proj2 (Z.ltb_lt 0 _)) in Efs by lia. }
  unfold checkConsistency in E. cbv zeta in E. repeat check_step E. by apply Hu.
Qed.

(** ** Examples *)

(** An application with one block, and a hash without collisions on lists of integers. *)
Definition ex_blocks (i : Z) : list Z := [i].
Definition ex_app : IAppState := mkApp 1 1 (fun i => i =? 1) ex_blocks (fun _ => zeroDigest).
Definition ex_hash (l : list Z) : Digest := Z.pos (encode l) :: replicate 31 0.
Definition ex_reps : gset Z := list_to_set [0; 1; 2; 3].

Lemma ex_app_ok : app_ok ex_blocks ex_app.
Proof. constructor; cbn; try lia. intros i Hi. done. Qed.

Lemma ex_params : params_ok ex_reps 0 1 8 2 3.
Proof. constructor; [by vm_compute|set_solver| | |]; unfold kMaxNumOfStoredCheckpoints, D.UINT16_MAX, D.UINT32_MAX; lia. Qed.

Lemma ex_hash_inj x y : ex_hash x = ex_hash y → x = y.
Proof. intros E. unfold ex_hash in E. injection E as E. by apply (inj encode). Qed.

(** A replica that makes checkpoint 1, writes page 1 and makes checkpoint 2. *)
Definition ex_ops : list op := [CreateCheckpoint ex_app 1; Save 1 [7; 8]; CreateCheckpoint ex_app 2].

Lemma reach_exec_ok H num mx blocks w o : reach H num mx blocks w → op_pre num blocks w o →
  ∃ w', exec H w o = Ok w' ∧ reach H num mx blocks w' ∧ ghost w' = abs_step (ghost w) o ∧
    last w' = (match o with CreateCheckpoint _ n => n | _ => last w end).
Proof.
  intros Hr Ho. pose proof (reach_inv H num mx blocks w Hr) as Hw. destruct (reach_params H num mx blocks w Hr) as [Hn Hx].
  destruct (run_op_ok H num mx Hn Hx blocks w o Hw Ho) as (w' & He & _). exists w'. split_and!; [done|by eapply reach_exec| |].
  - unfold exec in He. destruct (step H (st w) o); [|done]. by injection He as <-.
  - unfold exec, step in He. destruct o as [id data|id|as_ n].
    + rewrite (save_post num mx (st w) id data (inv_conf _ _ _ _ _ Hw)) in He by apply Ho. by injection He as <-.
    + rewrite (zero_post num mx (st w) id (inv_conf _ _ _ _ _ Hw)) in He by apply Ho. by injection He as <-.
    + destruct (createCheckpoint_post H num mx Hn Hx blocks w as_ n Hw Ho) as (l & l' & E & _). rewrite E in He. by injection He as <-.
Qed.

Lemma boot_reach H num mx blocks (as_ : IAppState) (b : bool) reps my f maxPages : params_ok reps my f maxPages mx num →
  ∃ s, reach H num mx blocks (mkW s (abs_start num)) ∧ D.lastStoredCheckpoint (psd_ s) = 0.
Proof.
  intros Hp. destruct (boot_inv H num mx blocks as_ b reps my f maxPages Hp) as (s & Hs & Hi). exists s. split; [by eapply reach_boot|].
  destruct (decide (D.lastStoredCheckpoint (psd_ s) = 0)) as [|Hne]; [done|]. destruct (inv_last _ _ _ _ _ Hi Hne) as [m Hm]. done.
Qed.

Lemma ex_run H : ∃ w, reach H 3 2 ex_blocks w ∧ last w = 2 ∧ ghost w = foldl abs_step (abs_start 3) ex_ops.
Proof.
  destruct (boot_reach H 3 2 ex_blocks ex_app false _ _ _ _ ex_params) as (s0 & R0 & L0).
  destruct (reach_exec_ok _ _ _ _ _ (CreateCheckpoint ex_app 1) R0) as (w1 & _ & R1 & G1 & L1); [split_and!; [cbn; lia|apply ex_app_ok|done]|].
  destruct (reach_exec_ok _ _ _ _ _ (Save 1 [7; 8]) R1) as (w2 & _ & R2 & G2 & L2); [split; [lia|done]|].
  destruct (reach_exec_ok _ _ _ _ _ (CreateCheckpoint ex_app 2) R2) as (w3 & _ & R3 & G3 & L3).
  { split_and!; [lia|apply ex_app_ok|]. by rewrite G2, G1. }
  exists w3. split_and!; [done|done|]. by rewrite G3, G2, G1.
Qed.

Lemma ex_snap w c : ghost w = foldl abs_step (abs_start 3) ex_ops → c = 1 ∨ c = 2 →
  snaps (ghost w) !! c = Some (if c =? 1 then zeroPages 3 else <[1 := padded [7; 8]]> (zeroPages 3)).
Proof. intros -> [-> | ->]; [|by cbn; rewrite lookup_insert_eq]. cbn. by rewrite lookup_insert_ne, lookup_insert_eq. Qed.

Lemma reservedPages_snapshots_witness : ∃ w m, reach ex_hash 3 2 ex_blocks w ∧ snaps (ghost w) !! 1 = Some m ∧
  ∃ p c', m !! 1 = Some p ∧ 0 < c' <= 1 ∧
    D.getResPage (psd_ (st w)) 1 1 (Some 2) = Ok (c', computeDigestOfPage ex_hash 1 c' p, take (Z.to_nat 2) p).
Proof.
  destruct (ex_run ex_hash) as (w & R & L & G). exists w, (zeroPages 3). pose proof (ex_snap w 1 G ltac:(by left)) as S. split_and!; [done|done|].
  apply (proj2 (proj2 (reservedPages_snapshots ex_hash 3 2 ex_blocks w R)) 1 (zeroPages 3) 1 2 S); [lia|lia|]. unfold kSizeOfReservedPage. lia.
Defined.

(** The second replica has written a page since the checkpoint. *)
Lemma equal_digests_equal_pages_witness : ∃ w1 w2 m1 m2, reach ex_hash 3 2 ex_blocks w1 ∧ reach ex_hash 3 2 ex_blocks w2 ∧
  cur (ghost w1) !! 0 ≠ cur (ghost w2) !! 0 ∧ snaps (ghost w1) !! 2 = Some m1 ∧ snaps (ghost w2) !! 2 = Some m2 ∧ m1 !! 1 = m2 !! 1.
Proof.
  destruct (ex_run ex_hash) as (w & R & L & G). pose proof (ex_snap w 2 G ltac:(by right)) as S. cbn [Z.eqb Pos.eqb] in S.
  pose proof (save_post 3 2 (st w) 0 [5] (inv_conf _ _ _ _ _ (reach_inv _ _ _ _ _ R)) ltac:(lia) ltac:(done)) as E.
  set (w2 := mkW (with_pending (st w) 0 (padded [5])) (abs_step (ghost w) (Save 0 [5]))).
  assert (R2 : reach ex_hash 3 2 ex_blocks w2).
  { apply (reach_exec _ _ _ _ w (Save 0 [5])); [done|split; [lia|done]|]. unfold exec, step. by rewrite E. }
  exists w, w2, (<[1 := padded [7; 8]]> (zeroPages 3)), (<[1 := padded [7; 8]]> (zeroPages 3)). split_and!; [done|done| |done|done|].
  - rewrite G. cbn. rewrite lookup_insert_eq, lookup_insert_ne, lookup_zeroPages by lia. intros [=].
  - apply (equal_digests_equal_pages ex_hash 3 2 2 ex_blocks ex_blocks w w2 2 _ _ ltac:(done) ex_hash_inj R R2 S S); [lia|cbn; lia|done|lia].
Defined.

Lemma restart_fails_after_max_checkpoints_witness : ∃ w, reach ex_hash 3 2 ex_blocks w ∧
  init ex_hash ex_app false (restarted (st w)) 2 3 kSizeOfReservedPage = Err AssertFailed.
Proof.
  destruct (ex_run ex_hash) as (w & R & L & G). exists w. split; [done|].
  rewrite (restart_fails_after_max_checkpoints ex_hash 3 2 ex_blocks w ex_app false R ex_app_ok); [by rewrite L|by rewrite G|done].
Defined.
End BCStateTranProps.
