(* ===== verification/VirtualBlock.v ===== *)
(** * Virtual blocks
    (bftengine/src/bcstatetransfer/BCStateTran.cpp)

    A replica that fetches a checkpoint gets the reserved pages that changed in one
    virtual block: a header and an element per page.  The source makes it from its data
    store; the requester, who does not trust the source, checks it against the digest of
    the descriptor of the pages, installs the pages and makes the checkpoint its last one. *)
From S2P Require Import Prelude SysConsts DataStore ReservedPages BCStateTran.

Module VirtualBlock.
Import BCStateTran.

(** [sizeof(HeaderOfVirtualBlock)], [sizeof(ElementOfVirtualBlock)] and the size of an
    element with its page *)
Definition sizeofHeader : Z := 12.
Definition sizeofElement : Z := 45.
Definition elementSize : Z := sizeofElement + kSizeOfReservedPage - 1.

Record ElementOfVirtualBlock := mkElem { pageId : Z; checkpointNumber : Z; pageDigest : Digest; page : list Z }.

Definition calcMaxVBlockSize (maxNumberOfPages : Z) : Z := u32 (sizeofHeader + u32 (elementSize * maxNumberOfPages)).

Definition getNumberOfElements (vblock : list Z) : res Z := get_uint 4 vblock 0.
Definition getLastKnown (vblock : list Z) : res Z := get_uint 8 vblock 4.

Definition getSizeOfVirtualBlock (vblock : list Z) : res Z :=
  n ← getNumberOfElements vblock;
  Ok (u32 (sizeofHeader + u32 (n * elementSize))).

(** The element at a position. *)
Definition readElement (vblock : list Z) (off : Z) : res ElementOfVirtualBlock :=
  id ← get_uint 4 vblock off;
  c ← get_uint 8 vblock (off + 4);
  d ← get_bytes vblock (off + 12) DIGEST_SIZE;
  p ← get_bytes vblock (off + 44) kSizeOfReservedPage;
  Ok (mkElem id c d p).

Definition getVirtualElement (index : Z) (vblock : list Z) : res ElementOfVirtualBlock :=
  n ← getNumberOfElements vblock;
  assert! (index <? n) ;;
  readElement vblock (sizeofHeader + u32 (index * elementSize)).

(** The loop over the elements; [lastPageId] is the page of the previous element. *)
Fixpoint checkElements (vblock : list Z) (lastKnown : Z) (n : nat) (i lastPageId : Z) : res bool :=
  match n with
  | O => Ok true
  | S n' =>
      e ← readElement vblock (sizeofHeader + u32 (i * elementSize));
      if checkpointNumber e <=? lastKnown then Ok false
      else if bool_decide (pageDigest e = zeroDigest) then Ok false
      else if (0 <? i) && (pageId e <=? lastPageId) then Ok false
      else checkElements vblock lastKnown n' (i + 1) (pageId e)
  end.

Definition checkStructureOfVirtualBlock (vblock : list Z) (vblockSize : Z) : res bool :=
  if vblockSize <? sizeofHeader then Ok false
  else
    let arrayBlockSize := vblockSize - sizeofHeader in
    if negb (arrayBlockSize mod elementSize =? 0) then Ok false
    else
      let numOfElements := arrayBlockSize / elementSize in
      n ← getNumberOfElements vblock;
      if negb (numOfElements =? n) then Ok false
      else
        lastKnown ← getLastKnown vblock;
        checkElements vblock lastKnown (Z.to_nat numOfElements) 0 D.UINT32_MAX.

(** ** The source *)
Record DescOfVBlockForResPages := mkDescV { vCheckpointNum : Z; lastCheckpointKnownToRequester : Z }.
#[export] Instance DescOfVBlock_eq_dec : EqDecision DescOfVBlockForResPages.
Proof. solve_decision. Defined.

Definition isUpdated (d : D.t) (desc : DescOfVBlockForResPages) (i : Z) : res bool :=
  '(actualPageCheckpoint, _, _) ← D.getResPage d i (vCheckpointNum desc) None;
  assert! (actualPageCheckpoint <=? vCheckpointNum desc) ;;
  Ok (lastCheckpointKnownToRequester desc <? actualPageCheckpoint).

Fixpoint findUpdated (d : D.t) (desc : DescOfVBlockForResPages) (l : list Z) : res (list Z) :=
  match l with
  | [] => Ok []
  | i :: l' => b ← isUpdated d desc i; r ← findUpdated d desc l'; Ok (if b : bool then i :: r else r)
  end.

(** The body of the loop that writes the elements; [idx] has 16 bits. *)
Definition writeElement (d : D.t) (desc : DescOfVBlockForResPages) (numberOfUpdatedPages : Z) (x : list Z * Z) (id : Z) : res (list Z * Z) :=
  let '(vb, idx) := x in
  assert! (idx <? numberOfUpdatedPages) ;;
  '(actualPageCheckpoint, dg, p) ← D.getResPage d id (vCheckpointNum desc) (Some kSizeOfReservedPage);
  assert! (actualPageCheckpoint <=? vCheckpointNum desc) ;;
  assert! (lastCheckpointKnownToRequester desc <? actualPageCheckpoint) ;;
  assert! (negb (bool_decide (dg = zeroDigest))) ;;
  let off := sizeofHeader + u32 (idx * elementSize) in
  vb ← put_int 4 vb off id;
  vb ← put_int 8 vb (off + 4) actualPageCheckpoint;
  vb ← put_bytes vb (off + 12) dg;
  vb ← put_bytes vb (off + 44) p;
  Ok (vb, u16 (idx + 1)).

(** [malloc] gives the contents of new memory. *)
Definition createVBlock (malloc : Z → list Z) (pedantic : bool) (s : t) (desc : DescOfVBlockForResPages) : res (list Z) :=
  assert! (D.hasCheckpointDesc (psd_ s) (vCheckpointNum desc)) ;;
  updatedPages ← findUpdated (psd_ s) desc (seqZ 0 (numberOfReservedPages_ s));
  let numberOfUpdatedPages := Z.of_nat (length updatedPages) in
  let size := u32 (sizeofHeader + u32 (numberOfUpdatedPages * elementSize)) in
  vb ← put_int 8 (malloc size) 4 (lastCheckpointKnownToRequester desc);
  vb ← put_int 4 vb 0 numberOfUpdatedPages;
  if numberOfUpdatedPages =? 0 then
    b ← checkStructureOfVirtualBlock vb size;
    assert! b ;;
    Ok vb
  else
    '(vb, idx) ← foldM (writeElement (psd_ s) desc numberOfUpdatedPages) (vb, 0) updatedPages;
    assert! (idx =? numberOfUpdatedPages) ;;
    b ← (if pedantic then checkStructureOfVirtualBlock vb size else Ok true);
    assert! b ;;
    Ok vb.

(** ** The requester *)

(** The loop over the descriptor: the pages from [i] on, the next update. *)
Fixpoint patchDesc (vblock : list Z) (n lastKnown : Z) (ds : list D.SingleResPageDesc) (i nextUpdateIndex : Z) (nextUpdate : ElementOfVirtualBlock) :
    res (list D.SingleResPageDesc) :=
  match ds with
  | [] => Ok []
  | x :: ds' =>
      assert! (D.d_pageId x =? i) ;;
      assert! (D.relevantCheckpoint x <=? lastKnown) ;;
      if i =? pageId nextUpdate then
        let x' := D.mkSingle (D.d_pageId x) (checkpointNumber nextUpdate) (pageDigest nextUpdate) in
        if nextUpdateIndex + 1 <? n then
          e ← getVirtualElement (nextUpdateIndex + 1) vblock;
          r ← patchDesc vblock n lastKnown ds' (i + 1) (nextUpdateIndex + 1) e;
          Ok (x' :: r)
        else Ok (x' :: ds')
      else
        r ← patchDesc vblock n lastKnown ds' (i + 1) nextUpdateIndex nextUpdate;
        Ok (x :: r)
  end.

Section defs.
Context (H : list Z → Digest).

(** The digests of the new pages. *)
Fixpoint checkDigests (vblock : list Z) (n : nat) (i : Z) : res bool :=
  match n with
  | O => Ok true
  | S n' =>
      e ← getVirtualElement i vblock;
      assert! (0 <? checkpointNumber e) ;;
      if bool_decide (computeDigestOfPage H (pageId e) (checkpointNumber e) (page e) = pageDigest e)
      then checkDigests vblock n' (i + 1) else Ok false
  end.

Definition checkVirtualBlockOfResPages (s : t) (expectedDigestOfResPagesDescriptor : Digest) (vblock : list Z) (vblockSize : Z) : res bool :=
  wellFormed ← checkStructureOfVirtualBlock vblock vblockSize;
  if negb wellFormed then Ok false
  else
    numberOfUpdatedPages ← getNumberOfElements vblock;
    lastKnown ← getLastKnown vblock;
    if negb (D.getLastStoredCheckpoint (psd_ s) =? lastKnown) then Ok false
    else
      pagesDesc ← D.getResPagesDescriptor (psd_ s) lastKnown;
      assert! (Z.of_nat (length pagesDesc) =? numberOfReservedPages_ s) ;;
      pagesDesc ← (if 0 <? numberOfUpdatedPages then
                     e ← getVirtualElement 0 vblock;
                     patchDesc vblock numberOfUpdatedPages lastKnown pagesDesc 0 0 e
                   else Ok pagesDesc);
      if negb (bool_decide (computeDigestOfPagesDescriptor H pagesDesc = expectedDigestOfResPagesDescriptor)) then Ok false
      else checkDigests vblock (Z.to_nat numberOfUpdatedPages) 0.
End defs.

(** Setting the updated pages. *)
Definition installPage (vblock : list Z) (d : D.t) (i : Z) : res D.t :=
  e ← getVirtualElement i vblock;
  D.setResPage d (pageId e) (checkpointNumber e) (pageDigest e) (page e).

Definition installPages (vblock : list Z) (d : D.t) : res D.t :=
  n ← getNumberOfElements vblock;
  foldM (installPage vblock) d (seqZ 0 n).

(** From [minRelevantCheckpoint] to the next checkpoint that is stored. *)
Fixpoint skipMissing (d : D.t) (n : nat) (m c : Z) : Z :=
  match n with
  | O => m
  | S n' => if (m <? c) && negb (D.hasCheckpointDesc d m) then skipMissing d n' (m + 1) c else m
  end.

(** The data store after a valid virtual block: the part of [processData] that ends fetching, up to the
    new first stored checkpoint.  What follows there is not part of it: the variables of fetching are
    reset, and [checkConsistency], which reads the blocks of the application, is asserted. *)
Definition completeFetch (s : t) (vblock : list Z) : res t :=
  d ← installPages vblock (psd_ s);
  cp ← D.getCheckpointBeingFetched d;
  let c := D.checkpointNum cp in
  assert! (D.getFirstRequiredBlock d =? 0) ;;
  assert! (D.getLastRequiredBlock d =? 0) ;;
  assert! (D.getLastStoredCheckpoint d <? c) ;;
  d ← D.setCheckpointDesc d c cp;
  let d := D.setIsFetchingState (D.deleteCheckpointBeingFetched (D.setLastStoredCheckpoint d c)) false in
  let minRelevantCheckpoint := if maxNumOfStoredCheckpoints_ s <=? c then c - maxNumOfStoredCheckpoints_ s + 1 else 0 in
  let minRelevantCheckpoint :=
    if 0 <? minRelevantCheckpoint then skipMissing d (Z.to_nat (c - minRelevantCheckpoint)) minRelevantCheckpoint c else minRelevantCheckpoint in
  let oldFirstStoredCheckpoint := D.getFirstStoredCheckpoint d in
  d ← (if (2 <=? minRelevantCheckpoint) && (oldFirstStoredCheckpoint <? minRelevantCheckpoint) then
         d ← D.deleteDescOfSmallerCheckpoints d minRelevantCheckpoint;
         D.deleteCoveredResPageInSmallerCheckpoints d minRelevantCheckpoint
       else Ok d);
  let d := if oldFirstStoredCheckpoint <? minRelevantCheckpoint then D.setFirstStoredCheckpoint d minRelevantCheckpoint else d in
  Ok (with_psd s d).
End VirtualBlock.
