(* ===== verification/VirtualBlockFacts.v ===== *)
(** * Virtual blocks are sound (VirtualBlock.v)

    Whoever sends it, a virtual block that passes the checks of the requester holds the
    pages that the descriptor with the expected digest describes. *)
From S2P Require Import Prelude SysConsts DataStore ReservedPages BCStateTran BCStateTranFacts BCStateTranSpec VirtualBlock.

Module VirtualBlockFacts.
Import BCStateTran BCStateTranFacts BCStateTranSpec BCStateTranDigests VirtualBlock.

(** ** The elements of a block *)
Definition earlier (e1 e2 : ElementOfVirtualBlock) : Prop := pageId e1 < pageId e2.

Record elem_ok (k : Z) (e : ElementOfVirtualBlock) : Prop := {
  el_id : 0 <= pageId e < 2 ^ 32;
  el_checkpoint : k < checkpointNumber e < 2 ^ 64;
  el_digest : length (pageDigest e) = Z.to_nat DIGEST_SIZE ∧ pageDigest e ≠ zeroDigest;
  el_page : Z.of_nat (length (page e)) = kSizeOfReservedPage;
}.

Lemma readElement_lengths vb off e : readElement vb off = Ok e →
  length (pageDigest e) = Z.to_nat DIGEST_SIZE ∧ Z.of_nat (length (page e)) = kSizeOfReservedPage.
Proof.
  unfold readElement. intros (id & Hid & He)%bind_ok. apply bind_ok in He as (c & Hc & He). apply bind_ok in He as (d & Hd & He).
  apply bind_ok in He as (p & Hp & He). injection He as <-. cbn.
  apply get_bytes_length in Hd, Hp. split; [done|]. by rewrite Hp.
Qed.

(** The integers that are read have their ranges. *)
Record ints_ok (vb : list Z) : Prop := {
  io_number n : getNumberOfElements vb = Ok n → 0 <= n;
  io_elem n i e : getNumberOfElements vb = Ok n → 0 <= i < n → readElement vb (sizeofHeader + u32 (i * elementSize)) = Ok e → 0 <= pageId e < 2 ^ 32 ∧ 0 <= checkpointNumber e < 2 ^ 64;
}.

(** This holds for all buffers of bytes. *)
Lemma bytes_ints_ok vb : Forall is_byte vb → ints_ok vb.
Proof.
  intros Hb. constructor; [intros n Hn; apply (get_uint_range _ _ _ _ Hb) in Hn; lia|]. intros n i e _ _ He. unfold readElement in He.
  apply bind_ok in He as (id & Hid & He). apply bind_ok in He as (c & Hc & He). apply bind_ok in He as (d & Hd & He).
  apply bind_ok in He as (p & Hp & He). injection He as <-. split; [by apply (get_uint_range 4 _ _ _ Hb Hid)|by apply (get_uint_range 8 _ _ _ Hb Hc)].
Qed.

Lemma checkElements_view vb k n : ∀ i last N, ints_ok vb → getNumberOfElements vb = Ok N → 0 <= i → i + Z.of_nat n <= N → checkElements vb k n i last = Ok true →
  ∃ es, length es = n ∧ StronglySorted earlier es ∧ (0 < i → Forall (fun e => last < pageId e) es) ∧ Forall (elem_ok k) es ∧
    ∀ j e, es !! j = Some e → readElement vb (sizeofHeader + u32 ((i + Z.of_nat j) * elementSize)) = Ok e.
Proof.
  induction n as [|n IH]; intros i last N Hb HN Hi HiN Hc; cbn [checkElements] in Hc.
  { exists []. split_and!; try done; constructor. }
  apply bind_ok in Hc as (e & He & Hc). destruct (io_elem _ Hb N i e HN ltac:(lia) He) as (Hid & Hcp). destruct (readElement_lengths _ _ _ He) as (Hdg & Hpg).
  destruct (Z.leb_spec (checkpointNumber e) k) as [|Hk]; [done|]. case_bool_decide as Hz; [done|].
  destruct ((0 <? i) && (pageId e <=? last)) eqn:Hl; [done|].
  destruct (IH (i + 1) (pageId e) N Hb HN ltac:(lia) ltac:(lia) Hc) as (es & Hlen & Hs & Hlast & Hok & Hread).
  specialize (Hlast ltac:(lia)). exists (e :: es). split_and!.
  - cbn. by rewrite Hlen.
  - constructor; [done|exact Hlast].
  - intros H0. rewrite (proj2 (Z.ltb_lt 0 i) H0) in Hl. cbn [andb] in Hl. apply Z.leb_gt in Hl.
    constructor; [done|]. eapply Forall_impl; [exact Hlast|]. cbn. lia.
  - constructor; [|done]. constructor; [lia|lia|done|done].
  - intros [|j] e'; [intros [= <-]; by rewrite Z.add_0_r|]. intros Hj%Hread.
    by replace (i + Z.of_nat (S j)) with (i + 1 + Z.of_nat j) by lia.
Qed.

(** What the structural check gives. *)
Record view (vb : list Z) (k : Z) (es : list ElementOfVirtualBlock) : Prop := {
  view_number : getNumberOfElements vb = Ok (Z.of_nat (length es));
  view_known : getLastKnown vb = Ok k;
  view_sorted : StronglySorted earlier es;
  view_ok : Forall (elem_ok k) es;
  view_get j e : es !! j = Some e → getVirtualElement (Z.of_nat j) vb = Ok e;
}.

Lemma checkStructure_view vb size : ints_ok vb → checkStructureOfVirtualBlock vb size = Ok true → ∃ k es, view vb k es.
Proof.
  intros Hb. unfold checkStructureOfVirtualBlock. destruct (Z.ltb_spec size sizeofHeader) as [|Hs]; [done|]. destruct (negb _); [done|].
  intros (n & Hn & Hc)%bind_ok. destruct (Z.eqb_spec ((size - sizeofHeader) / elementSize) n) as [He|]; [|done]. cbn [negb] in Hc.
  apply bind_ok in Hc as (k & Hk & Hc). assert (0 <= n) as H0 by by apply (io_number _ Hb).
  rewrite He in Hc. destruct (checkElements_view vb k (Z.to_nat n) 0 D.UINT32_MAX n Hb Hn (Z.le_refl 0) ltac:(lia) Hc) as (es & Hlen & Hsort & _ & Hok & Hread).
  exists k, es. constructor; try done.
  - rewrite Hn. f_equal. lia.
  - intros j e Hj. unfold getVirtualElement. rewrite Hn. cbn [mbind res_bind]. pose proof (lookup_lt_Some _ _ _ Hj).
    rewrite (proj2 (Z.ltb_lt _ n)) by lia. cbn [Assert mbind res_bind]. by apply Hread in Hj.
Qed.

(** ** The patched descriptor *)
Fixpoint findElem (id : Z) (es : list ElementOfVirtualBlock) : option ElementOfVirtualBlock :=
  match es with [] => None | e :: es' => if pageId e =? id then Some e else findElem id es' end.

Definition patch (es : list ElementOfVirtualBlock) (x : D.SingleResPageDesc) : D.SingleResPageDesc :=
  match findElem (D.d_pageId x) es with
  | Some e => D.mkSingle (D.d_pageId x) (checkpointNumber e) (pageDigest e)
  | None => x
  end.

Lemma findElem_None id es : (∀ e, e ∈ es → pageId e ≠ id) → findElem id es = None.
Proof.
  induction es as [|e es IH]; intros He; [done|]. cbn. destruct (Z.eqb_spec (pageId e) id) as [E|]; [by destruct (He e ltac:(left))|].
  apply IH. intros e' Hin. apply He. by right.
Qed.

Lemma findElem_Some id es e : findElem id es = Some e → e ∈ es ∧ pageId e = id.
Proof.
  induction es as [|x es IH]; [done|]. cbn. destruct (Z.eqb_spec (pageId x) id); [intros [= <-]; by split; [left|]|].
  intros Hf. destruct (IH Hf). by split; [right|].
Qed.

Lemma findElem_elem id es e : StronglySorted earlier es → e ∈ es → pageId e = id → findElem id es = Some e.
Proof.
  induction 1 as [|x es Hs IH Hx]; intros Hin <-; [by apply elem_of_nil in Hin|]. cbn. apply elem_of_cons in Hin as [-> |Hin].
  - by rewrite Z.eqb_refl.
  - rewrite Forall_forall in Hx. specialize (Hx e Hin). unfold earlier in Hx. rewrite (proj2 (Z.eqb_neq _ _)) by lia. by apply IH.
Qed.

Definition indexed (i : Z) (ds : list D.SingleResPageDesc) : Prop := ∀ j x, ds !! j = Some x → D.d_pageId x = i + Z.of_nat j.

Lemma indexed_cons i x ds : indexed i (x :: ds) → D.d_pageId x = i ∧ indexed (i + 1) ds.
Proof.
  intros Hi. split; [rewrite (Hi 0%nat x eq_refl); lia|]. intros j y Hj. rewrite (Hi (S j) y Hj). lia.
Qed.

(** Entries before the first update stay. *)
Lemma patch_none es i ds : indexed i ds → (∀ e, e ∈ es → pageId e < i) → patch es <$> ds = ds.
Proof.
  revert i. induction ds as [|x ds IH]; intros i Hi He; [done|]. apply indexed_cons in Hi as [Hx Hi]. cbn. f_equal.
  - unfold patch. rewrite findElem_None; [done|]. intros e Hin. specialize (He e Hin). lia.
  - apply (IH (i + 1)); [done|]. intros e Hin. specialize (He e Hin). lia.
Qed.

Lemma patchDesc_spec vb k all ds : ∀ i idx done_ e es, view vb k all → all = done_ ++ e :: es → idx = Z.of_nat (length done_) →
  (∀ e', e' ∈ done_ → pageId e' < i) → i <= pageId e → indexed i ds → (∀ x, x ∈ ds → D.relevantCheckpoint x <= k) →
  patchDesc vb (Z.of_nat (length all)) k ds i idx e = Ok (patch all <$> ds).
Proof.
  induction ds as [|x ds IH]; intros i idx done_ e es Hv Hall Hidx Hdone Hi Hind Hrel; cbn [patchDesc]; [done|].
  apply indexed_cons in Hind as [Hx Hind]. rewrite Hx, Z.eqb_refl, (proj2 (Z.leb_le _ k)) by (apply Hrel; left). cbn [Assert mbind res_bind].
  pose proof (view_sorted _ _ _ Hv) as Hsort. assert (Hrel' : ∀ x, x ∈ ds → D.relevantCheckpoint x <= k) by (intros y Hy; apply Hrel; by right).
  destruct (Z.eqb_spec i (pageId e)) as [E|E].
  - assert (Hp : patch all x = D.mkSingle i (checkpointNumber e) (pageDigest e)).
    { unfold patch. rewrite Hx, (findElem_elem i all e); [done|done| |done]. rewrite Hall. apply elem_of_app. right. left. }
    assert (Hlen : Z.of_nat (length all) = idx + 1 + Z.of_nat (length es)) by (rewrite Hall, length_app, Hidx; cbn; lia).
    rewrite Hlen, fmap_cons, Hp. destruct es as [|e2 es].
    + rewrite (proj2 (Z.ltb_ge _ _)) by (cbn; lia). do 2 f_equal. symmetry. apply (patch_none _ (i + 1)); [done|].
      rewrite Hall. intros e' [Hin|Hin]%elem_of_app; [specialize (Hdone e' Hin); lia|]. apply list_elem_of_singleton in Hin as ->. lia.
    + rewrite (proj2 (Z.ltb_lt _ _)) by (cbn; lia).
      assert (Hget : getVirtualElement (idx + 1) vb = Ok e2).
      { replace (idx + 1) with (Z.of_nat (S (length done_))) by lia. apply (view_get _ _ _ Hv).
        rewrite Hall, lookup_app_r by lia. by replace (S (length done_) - length done_)%nat with 1%nat by lia. }
      rewrite Hget. cbn [mbind res_bind]. rewrite <- Hlen. rewrite (IH (i + 1) (idx + 1) (done_ ++ [e]) e2 es); try done.
      * rewrite Hall. by rewrite <- app_assoc.
      * rewrite length_app. cbn. lia.
      * intros e' [Hin|Hin]%elem_of_app; [specialize (Hdone e' Hin); lia|]. apply list_elem_of_singleton in Hin as ->. lia.
      * rewrite Hall in Hsort. apply StronglySorted_app_1_r in Hsort. apply StronglySorted_inv in Hsort as [_ Hf].
        apply Forall_cons in Hf as [Hf _]. unfold earlier in Hf. lia.
  - rewrite (IH (i + 1) idx done_ e es); try done; [| |lia].
    + cbn [mbind res_bind]. rewrite fmap_cons. do 2 f_equal. unfold patch. rewrite Hx, findElem_None; [done|].
      rewrite Hall. intros e' [Hin|Hin]%elem_of_app; [specialize (Hdone e' Hin); lia|].
      rewrite Hall in Hsort. apply StronglySorted_app_1_r in Hsort. apply StronglySorted_inv in Hsort as [_ Hf]. rewrite Forall_forall in Hf.
      apply elem_of_cons in Hin as [-> |Hin]; [lia|]. specialize (Hf e' Hin). unfold earlier in Hf. lia.
    + intros e' Hin. specialize (Hdone e' Hin). lia.
Qed.

(** ** Installing the pages *)
Definition setElem (d : D.t) (e : ElementOfVirtualBlock) : res D.t := D.setResPage d (pageId e) (checkpointNumber e) (pageDigest e) (page e).
Definition versionOf (e : ElementOfVirtualBlock) : D.Version := D.mkVersion (pageId e) (checkpointNumber e) (pageDigest e) (page e).

Lemma install_elements vb es : ∀ j d, (∀ i e, es !! i = Some e → getVirtualElement (j + Z.of_nat i) vb = Ok e) →
  foldM (installPage vb) d (seqZ j (Z.of_nat (length es))) = foldM setElem d es.
Proof.
  induction es as [|e es IH]; intros j d Hg; [done|]. cbn [length]. rewrite seqZ_cons by lia. cbn [foldM].
  pose proof (Hg 0%nat e eq_refl) as He. rewrite Z.add_0_r in He. assert (installPage vb d j = setElem d e) as -> by (unfold installPage; by rewrite He).
  destruct (setElem d e) as [d'|]; [|done]. cbn [mbind res_bind]. replace (Z.pred (Z.of_nat (S (length es)))) with (Z.of_nat (length es)) by lia.
  rewrite <- Z.add_1_r. apply IH. intros i e' Hi. rewrite <- (Hg (S i) e' Hi). f_equal. lia.
Qed.

Lemma setElems_spec k es : ∀ d, StronglySorted earlier es → Forall (elem_ok k) es → D.sizeOfReservedPage_ d = kSizeOfReservedPage →
  D.ordered (D.pages d) → (∀ v e, v ∈ D.pages d → e ∈ es → pageId e = D.pageId v → D.checkpoint v <= k) →
  ∃ l, foldM setElem d es = Ok (D.set_pages d (D.pendingPages d) l) ∧ D.ordered l ∧
    (∀ v, v ∈ l ↔ v ∈ D.pages d ∨ ∃ e, e ∈ es ∧ v = versionOf e) ∧
    ∀ id c, D.version id c l = match findElem id es with
                               | Some e => if checkpointNumber e <=? c then Some (versionOf e) else D.version id c (D.pages d)
                               | None => D.version id c (D.pages d)
                               end.
Proof.
  induction es as [|e es IH]; intros d Hs Hok Hsize Ho Hk; cbn [foldM].
  { exists (D.pages d). split_and!; [by destruct d|done| |done]. intros v. split; [by left|]. intros [?|(e & He & _)]; [done|]. by apply elem_of_nil in He. }
  apply StronglySorted_inv in Hs as [Hs He]. rewrite Forall_forall in He. apply Forall_cons in Hok as [[_ Hcp _ Hpg] Hok].
  assert (Hold : ∀ v, v ∈ D.pages d → D.pageId v = pageId e → D.checkpoint v < checkpointNumber e).
  { intros v Hv Hid. specialize (Hk v e Hv ltac:(left) (eq_sym Hid)). lia. }
  assert (Hnew : setElem d e = Ok (D.set_pages d (D.pendingPages d) (D.insert_version (versionOf e) (D.pages d)))).
  { unfold setElem, D.setResPage. rewrite (proj2 (D.has_key_false _ _ _)); [|intros v Hv Hid; specialize (Hold v Hv Hid); lia].
    cbn [negb Assert mbind res_bind]. rewrite Hsize, get_bytes_all by done. done. }
  rewrite Hnew. cbn [mbind res_bind]. set (d1 := D.set_pages _ _ _). destruct (IH d1) as (l & -> & Ho' & Hin & Hver); try done.
  - apply D.insert_ordered; [done|]. apply D.has_key_false. intros v Hv Hid. specialize (Hold v Hv Hid). cbn. lia.
  - intros v e' [-> |Hv]%D.elem_of_insert_version He' Hid.
    + specialize (He e' He'). unfold earlier in He. cbn in Hid. lia.
    + apply (Hk v e'); [done|by right|done].
  - exists l. split_and!; [done|done| |].
    + intros v. rewrite Hin. cbn. rewrite D.elem_of_insert_version. split.
      * intros [[-> |Hv]|(e' & He' & ->)]; [right; exists e; split; [left|done]|by left|right; exists e'; split; [by right|done]].
      * intros [Hv|(e' & [-> |He']%elem_of_cons & ->)]; [auto|auto|]. right. eauto.
    + intros id c. rewrite Hver. cbn [findElem D.pages d1 D.set_pages]. rewrite D.version_insert by done. cbn [versionOf D.pageId D.checkpoint].
      destruct (Z.eqb_spec (pageId e) id) as [<-|Hne]; [|done]. cbn [andb].
      rewrite findElem_None; [done|]. intros e' He'. specialize (He e' He'). unfold earlier in He. lia.
Qed.

Lemma elems_count k es num : Forall (elem_ok k) es → StronglySorted earlier es → 0 <= num → (∀ e, e ∈ es → pageId e < num) → Z.of_nat (length es) <= num.
Proof.
  intros Hok Hs H0 Hids. assert (Hnd : NoDup (pageId <$> es)).
  { clear Hok Hids. induction Hs as [|e es Hs IH He]; [constructor|]. rewrite fmap_cons. constructor; [|done].
    intros (e' & Heq & Hin)%list_elem_of_fmap. rewrite Forall_forall in He. specialize (He e' Hin). unfold earlier in He. lia. }
  pose proof (D.NoDup_length_le (pageId <$> es) (seqZ 0 num) Hnd) as Hl. rewrite length_fmap, length_seqZ in Hl.
  enough (length es <= Z.to_nat num)%nat by lia. apply Hl. intros i (e & -> & He)%list_elem_of_fmap. rewrite Forall_forall in Hok.
  apply elem_of_seqZ. destruct (Hok e He) as [? _ _ _]. specialize (Hids e He). lia.
Qed.

Lemma checkDigests_from H k vb es n : 0 <= k → view vb k es → ∀ i, (i + n <= length es)%nat →
  (∀ e, e ∈ es → pageDigest e = computeDigestOfPage H (pageId e) (checkpointNumber e) (page e)) → checkDigests H vb n (Z.of_nat i) = Ok true.
Proof.
  intros Hk Hv. pose proof (view_ok _ _ _ Hv) as Hok. rewrite Forall_forall in Hok. induction n as [|n IH]; intros i Hi Hd; cbn [checkDigests]; [done|].
  destruct (lookup_lt_is_Some_2 es i ltac:(lia)) as [e He]. rewrite (view_get _ _ _ Hv i e He). cbn [mbind res_bind].
  pose proof (list_elem_of_lookup_2 _ _ _ He) as Hin. destruct (Hok e Hin) as [_ Hc _ _]. rewrite (proj2 (Z.ltb_lt 0 _)), bool_decide_eq_true_2 by (lia || by rewrite (Hd e Hin)).
  cbn [Assert mbind res_bind]. replace (Z.of_nat i + 1) with (Z.of_nat (S i)) by lia. apply IH; [lia|done].
Qed.

(** ** The store of the requester *)
Section requester.
Context (H : list Z → Digest) (num : Z) (Hnum : 2 <= num).

Record store_ok (d : D.t) (k : Z) : Prop := {
  so_size : D.sizeOfReservedPage_ d = kSizeOfReservedPage;
  so_num : D.numberOfReservedPages_ d = num;
  so_last : D.lastStoredCheckpoint d = k ∧ 0 <= k < 2 ^ 64;
  so_ordered : D.ordered (D.pages d);
  so_versions v : v ∈ D.pages d → version_ok H num k v;
  so_all id : 0 < k → 0 <= id < num → is_Some (D.version id k (D.pages d));
}.

(** The descriptor of the last checkpoint, 0 for none. *)
Definition lastDesc (d : D.t) (k : Z) : list D.SingleResPageDesc :=
  if 1 <=? k then description num k (D.pages d) else (fun i => D.mkSingle i 0 zeroDigest) <$> seqZ 0 num.

Lemma lastDesc_post d k : store_ok d k → D.getResPagesDescriptor d k = Ok (lastDesc d k).
Proof.
  intros [? Hn [_ Hk] Ho Hv Ha]. unfold lastDesc. destruct (Z.leb_spec 1 k) as [H1|H1].
  - apply getDescriptor_post; try done; [intros v Hin; destruct (Hv v Hin); lia|]. intros id Hid. apply Ha; [lia|done].
  - unfold D.getResPagesDescriptor. rewrite Hn, (proj2 (Z.ltb_lt 0 num)), (proj2 (Z.leb_gt 1 k)) by lia. done.
Qed.

(** Its entries. *)
Lemma lastDesc_lookup d k id : store_ok d k → 0 <= id < num → ∃ x, lastDesc d k !! Z.to_nat id = Some x ∧ D.d_pageId x = id ∧
  ((k = 0 ∧ x = D.mkSingle id 0 zeroDigest) ∨ (0 < k ∧ ∃ u, D.version id k (D.pages d) = Some u ∧ x = D.single u)).
Proof.
  intros [? Hn [_ Hk] Ho Hv Ha] Hid. unfold lastDesc. destruct (Z.leb_spec 1 k) as [H1|H1].
  - destruct (Ha id ltac:(lia) Hid) as [u Hu]. exists (D.single u). destruct (D.version_in _ _ _ _ Hu) as (_ & Hi & _).
    split_and!; [|done|right; split; [lia|eauto]]. apply (description_lookup num _ k id u); [|done|done]. intros i Hi'. apply Ha; [lia|done].
  - exists (D.mkSingle id 0 zeroDigest). split_and!; try done; [|left; split; [lia|done]].
    rewrite list_lookup_fmap, lookup_seqZ_lt by lia. cbn. by replace (0 + Z.of_nat (Z.to_nat id)) with id by lia.
Qed.

Lemma length_lastDesc d k : store_ok d k → Z.of_nat (length (lastDesc d k)) = num.
Proof.
  intros [? Hn [_ Hk] Ho Hv Ha]. unfold lastDesc. destruct (Z.leb_spec 1 k) as [H1|H1].
  - apply (length_description num Hnum). intros id Hid. apply Ha; [lia|done].
  - rewrite length_fmap, length_seqZ. lia.
Qed.

Lemma lastDesc_inv d k j x : store_ok d k → lastDesc d k !! j = Some x → 0 <= Z.of_nat j < num ∧ D.d_pageId x = Z.of_nat j ∧ D.relevantCheckpoint x <= k.
Proof.
  intros Hd Hx. pose proof (lookup_lt_Some _ _ _ Hx). pose proof (length_lastDesc d k Hd).
  destruct (lastDesc_lookup d k (Z.of_nat j) Hd) as (y & Hy & Hid & Hc); [lia|]. rewrite Nat2Z.id, Hx in Hy. injection Hy as <-.
  split_and!; [lia|lia|done|]. destruct Hc as [[-> ->]|(_ & u & Hu & ->)]; [done|]. by destruct (D.version_in _ _ _ _ Hu) as (_ & _ & ?).
Qed.

(** ** What the check accepts *)
Lemma checkDigests_spec vb n : ∀ i, checkDigests H vb n i = Ok true → ∀ j e, (j < n)%nat →
  getVirtualElement (i + Z.of_nat j) vb = Ok e → pageDigest e = computeDigestOfPage H (pageId e) (checkpointNumber e) (page e).
Proof.
  induction n as [|n IH]; intros i Hc j e Hj He; [lia|]. cbn [checkDigests] in Hc. apply bind_ok in Hc as (e' & He' & Hc).
  apply assert_bind_ok in Hc as [_ Hc]. case_bool_decide as Hd; [|done]. destruct j as [|j].
  - rewrite Z.add_0_r in He. congruence.
  - apply (IH (i + 1) Hc j e); [lia|]. by replace (i + 1 + Z.of_nat j) with (i + Z.of_nat (S j)) by lia.
Qed.

Lemma lastDesc_indexed d k : store_ok d k → indexed 0 (lastDesc d k).
Proof. intros Hd j x Hx. apply (lastDesc_inv _ _ _ _ Hd) in Hx. lia. Qed.

(** The check of a block with elements [es]. *)
Lemma check_view s k vb size dg es : store_ok (psd_ s) k → numberOfReservedPages_ s = num → view vb k es → checkStructureOfVirtualBlock vb size = Ok true →
  checkVirtualBlockOfResPages H s dg vb size =
    if bool_decide (computeDigestOfPagesDescriptor H (patch es <$> lastDesc (psd_ s) k) = dg) then checkDigests H vb (length es) 0 else Ok false.
Proof.
  intros Hs Hn Hv Hst. unfold checkVirtualBlockOfResPages. rewrite Hst. cbn [mbind res_bind negb].
  rewrite (view_number _ _ _ Hv), (view_known _ _ _ Hv). cbn [mbind res_bind]. unfold D.getLastStoredCheckpoint. destruct (so_last _ _ Hs) as [-> _].
  rewrite Z.eqb_refl. cbn [negb]. rewrite (lastDesc_post _ _ Hs). cbn [mbind res_bind]. rewrite (length_lastDesc _ _ Hs), Hn, Z.eqb_refl. cbn [Assert mbind res_bind].
  assert (Hp : (if 0 <? Z.of_nat (length es) then e ← getVirtualElement 0 vb; patchDesc vb (Z.of_nat (length es)) k (lastDesc (psd_ s) k) 0 0 e
                else Ok (lastDesc (psd_ s) k)) = Ok (patch es <$> lastDesc (psd_ s) k)).
  { pose proof (lastDesc_indexed _ _ Hs) as Hind.
    destruct es as [|e es]. { cbn. rewrite (patch_none [] 0); [done|done|]. intros e He. by apply elem_of_nil in He. }
    rewrite (proj2 (Z.ltb_lt 0 _)) by (cbn; lia). rewrite (view_get _ _ _ Hv 0 e eq_refl : getVirtualElement 0 vb = Ok e). cbn [mbind res_bind].
    apply (patchDesc_spec vb k (e :: es) _ 0 0 [] e es); try done.
    - intros e' He'. by apply elem_of_nil in He'.
    - pose proof (view_ok _ _ _ Hv) as Hok. apply Forall_cons in Hok as [[] _]. lia.
    - intros x [j Hx]%list_elem_of_lookup. by destruct (lastDesc_inv _ _ _ _ Hs Hx) as (_ & _ & ?). }
  rewrite Hp. cbn [mbind res_bind]. rewrite Nat2Z.id. by case_bool_decide.
Qed.

Lemma check_accepts s k vb size dg : store_ok (psd_ s) k → numberOfReservedPages_ s = num → ints_ok vb →
  checkVirtualBlockOfResPages H s dg vb size = Ok true →
  ∃ es, view vb k es ∧ computeDigestOfPagesDescriptor H (patch es <$> lastDesc (psd_ s) k) = dg ∧
    ∀ e, e ∈ es → pageDigest e = computeDigestOfPage H (pageId e) (checkpointNumber e) (page e).
Proof.
  intros Hs Hn Hb Hc. pose proof Hc as Hc'. unfold checkVirtualBlockOfResPages in Hc'. apply bind_ok in Hc' as (wf & Hwf & Hc'). destruct wf; [|done]. cbn [negb] in Hc'.
  destruct (checkStructure_view vb size Hb Hwf) as (k' & es & Hv). rewrite (view_number _ _ _ Hv), (view_known _ _ _ Hv) in Hc'. cbn [mbind res_bind] in Hc'.
  unfold D.getLastStoredCheckpoint in Hc'. destruct (so_last _ _ Hs) as [Hk _]. rewrite Hk in Hc'. destruct (Z.eqb_spec k k') as [E|]; [|done]. destruct E.
  rewrite (check_view s k vb size dg es Hs Hn Hv Hwf) in Hc. case_bool_decide as Hd; [|done]. exists es. split_and!; [done|done|].
  intros e [j Hj]%list_elem_of_lookup. pose proof (lookup_lt_Some _ _ _ Hj).
  apply (checkDigests_spec vb _ 0 Hc j e); [lia|]. by apply (view_get _ _ _ Hv).
Qed.

Context (Hlen : ∀ x, length (H x) = Z.to_nat DIGEST_SIZE) (Hinj : ∀ x y, H x = H y → x = y).

Lemma le_enc8_inj a b : 0 <= a < 2 ^ 64 → 0 <= b < 2 ^ 64 → le_enc 8 a = le_enc 8 b → a = b.
Proof. intros Ha Hb E%(f_equal le_dec). rewrite !le_dec_enc, !wrap_small in E by done. done. Qed.

Lemma patch_lengths s k es : store_ok (psd_ s) k → Forall (elem_ok k) es → digest_lengths (patch es <$> lastDesc (psd_ s) k).
Proof.
  intros Hs Hok x (y & -> & Hy)%list_elem_of_fmap. apply list_elem_of_lookup in Hy as [j Hj]. unfold patch.
  destruct (findElem (D.d_pageId y) es) as [e|] eqn:He.
  - apply findElem_Some in He as [He _]. rewrite Forall_forall in Hok. by destruct (Hok e He) as [_ _ [? _] _].
  - destruct (lastDesc_inv _ _ _ _ Hs Hj) as (Hb & _). destruct (lastDesc_lookup _ _ _ Hs Hb) as (z & Hz & _ & Hc). rewrite Nat2Z.id, Hj in Hz.
    injection Hz as <-. destruct Hc as [[_ ->]|(_ & u & Hu & ->)]; [done|]. destruct (D.version_in _ _ _ _ Hu) as (Hin & _).
    destruct (so_versions _ _ Hs u Hin) as (_ & _ & _ & Hd). cbn. rewrite Hd. apply Hlen.
Qed.

(** The pages that the requester has after an accepted block are those of the descriptor. *)
Lemma accepted_pages s k vb es l c c0 : store_ok (psd_ s) k → view vb k es → 0 < c < 2 ^ 64 →
  (∀ e, e ∈ es → pageDigest e = computeDigestOfPage H (pageId e) (checkpointNumber e) (page e)) →
  (∀ v, v ∈ l → version_ok H num c0 v) → (∀ id, 0 <= id < num → is_Some (D.version id c l)) →
  computeDigestOfPagesDescriptor H (patch es <$> lastDesc (psd_ s) k) = computeDigestOfPagesDescriptor H (description num c l) →
  ∀ id v, 0 <= id < num → D.version id c l = Some v →
    match findElem id es with
    | Some e => checkpointNumber e = D.checkpoint v ∧ page e = D.page v
    | None => ∃ u, D.version id k (D.pages (psd_ s)) = Some u ∧ D.checkpoint u = D.checkpoint v ∧ D.page u = D.page v
    end.
Proof.
  intros Hs Hv Hc Hdg Hl Hall He id v Hid Hver. destruct (D.version_in _ _ _ _ Hver) as (Hin & Hvid & Hvc).
  destruct (Hl v Hin) as (_ & Hpos & Hpl & Hvd). rewrite Hvid in Hvd. apply (descriptor_inj H Hinj) in He.
  - destruct (lastDesc_lookup _ _ _ Hs Hid) as (x & Hx & Hxid & Hcase).
    assert (Hpx : (patch es <$> lastDesc (psd_ s) k) !! Z.to_nat id = Some (patch es x)) by by rewrite list_lookup_fmap, Hx.
    destruct (Forall2_lookup_lr _ _ _ _ _ _ He Hpx (description_lookup num l c id v Hall Hid Hver)) as [Hrc Hd]. unfold patch in *. rewrite Hxid in *.
    destruct (findElem id es) as [e|] eqn:Hf; cbn in Hrc, Hd.
    + apply findElem_Some in Hf as [Hine Hide]. pose proof (view_ok _ _ _ Hv) as Hok. rewrite Forall_forall in Hok. destruct (Hok e Hine) as [_ Hce _ _].
      destruct (so_last _ _ Hs) as [_ Hk]. apply le_enc8_inj in Hrc; [|lia|lia]. split; [done|]. rewrite (Hdg e Hine), Hide, Hvd in Hd.
      apply (page_digest_inj H Hinj) in Hd; [done|lia|lia].
    + destruct Hcase as [[-> ->]|(Hk0 & u & Hu & ->)]; [apply le_enc8_inj in Hrc; cbn in *; lia|]. cbn in Hrc, Hd.
      destruct (D.version_in _ _ _ _ Hu) as (Hinu & Huid & Huk). destruct (so_versions _ _ Hs u Hinu) as (_ & Hup & _ & Hud).
      destruct (so_last _ _ Hs) as [_ Hk]. exists u. split; [done|]. apply le_enc8_inj in Hrc; [|lia|lia]. split; [done|].
      rewrite Hud, Huid, Hvd in Hd. apply (page_digest_inj H Hinj) in Hd; [done|lia|lia].
  - rewrite length_fmap. pose proof (length_lastDesc _ _ Hs). pose proof (length_description num Hnum c l Hall). lia.
  - by apply (patch_lengths s k es Hs), Hv.
  - apply (description_digest_length H Hlen). intros u Hu. by apply Hl.
Qed.

(** ** The end of fetching *)
Lemma skipMissing_bounds d n : ∀ m c, m <= c → m <= skipMissing d n m c <= c.
Proof.
  induction n as [|n IH]; intros m c Hm; cbn [skipMissing]; [lia|]. destruct (Z.ltb_spec m c) as [Hlt|]; cbn [andb]; [|lia].
  destruct (negb _); [|lia]. specialize (IH (m + 1) c ltac:(lia)). lia.
Qed.

Context (mx : Z) (Hmx : 2 <= mx).

(** A replica that waits for the pages of checkpoint [cp]. *)
Record waiting (s : t) (k : Z) (cp : D.CheckpointDesc) : Prop := {
  w_store : store_ok (psd_ s) k;
  w_running : running_ s = true;
  w_num : numberOfReservedPages_ s = num;
  w_mx : maxNumOfStoredCheckpoints_ s = mx ∧ D.maxNumOfStoredCheckpoints_ (psd_ s) = mx;
  w_fetched : D.checkpointBeingFetched (psd_ s) = Some cp ∧ D.firstRequiredBlock (psd_ s) = 0 ∧ D.lastRequiredBlock (psd_ s) = 0;
  w_pending : D.pendingPages (psd_ s) = ∅;
  w_new : k < D.checkpointNum cp < 2 ^ 64;
  w_descs c d : D.descMap (psd_ s) !! c = Some d → D.checkpointNum d = c ∧ c <= k;
}.

(** The contents of the pages after the block. *)
Definition sees (l' : list D.Version) (c : Z) (l : list D.Version) : Prop :=
  ∀ id v, 0 <= id < num → D.version id c l = Some v → ∃ u, D.version id c l' = Some u ∧ D.checkpoint u = D.checkpoint v ∧ D.page u = D.page v.

Lemma install_post s k cp vb es l c0 : waiting s k cp → view vb k es → (∀ e, e ∈ es → pageId e < num) →
  (∀ e, e ∈ es → pageDigest e = computeDigestOfPage H (pageId e) (checkpointNumber e) (page e)) →
  (∀ v, v ∈ l → version_ok H num c0 v) → (∀ id, 0 <= id < num → is_Some (D.version id (D.checkpointNum cp) l)) →
  computeDigestOfPagesDescriptor H (patch es <$> lastDesc (psd_ s) k) = computeDigestOfPagesDescriptor H (description num (D.checkpointNum cp) l) →
  ∃ l', installPages vb (psd_ s) = Ok (D.set_pages (psd_ s) ∅ l') ∧ D.ordered l' ∧ (∀ v, v ∈ l' → version_ok H num (D.checkpointNum cp) v) ∧
    sees l' (D.checkpointNum cp) l.
Proof.
  intros Hw Hv Hids Hdg Hl Hall He. pose proof (w_store _ _ _ Hw) as Hs. pose proof (view_ok _ _ _ Hv) as Hok.
  pose proof (accepted_pages s k vb es l _ c0 Hs Hv (conj (Z.le_lt_trans _ _ _ (proj1 (proj2 (so_last _ _ Hs))) (proj1 (w_new _ _ _ Hw))) (proj2 (w_new _ _ _ Hw)))
    Hdg Hl Hall He) as Hacc. pose proof (w_new _ _ _ Hw) as Hnew.
  destruct (setElems_spec k es (psd_ s) (view_sorted _ _ _ Hv) Hok (so_size _ _ Hs) (so_ordered _ _ Hs)) as (l' & Hf & Ho & Hin & Hver).
  { intros v e Hv' _ _. destruct (so_versions _ _ Hs v Hv') as (_ & ? & _). lia. }
  exists l'. rewrite Forall_forall in Hok. split_and!; [|done| |].
  - unfold installPages. rewrite (view_number _ _ _ Hv). cbn [mbind res_bind]. rewrite (install_elements vb es 0), Hf; [by rewrite (w_pending _ _ _ Hw)|].
    intros i e Hi. rewrite Z.add_0_l. by apply (view_get _ _ _ Hv).
  - intros v [Hv'|(e & Hine & ->)]%Hin.
    + destruct (so_versions _ _ Hs v Hv') as (? & ? & ? & ?). split_and!; try done; lia.
    + destruct (Hok e Hine) as [Hid Hce _ Hpg]. specialize (Hids e Hine). destruct (Hall (pageId e) ltac:(lia)) as [v Hv'].
      pose proof (Hacc (pageId e) v ltac:(lia) Hv') as Ha. rewrite (findElem_elem _ es e) in Ha by (done || apply Hv). destruct Ha as [Ha _].
      destruct (D.version_in _ _ _ _ Hv') as (_ & _ & Hvc). destruct (so_last _ _ Hs) as [_ Hk]. unfold version_ok. cbn. split_and!; try lia. by apply Hdg.
  - intros id v Hid Hv'. specialize (Hacc id v Hid Hv'). rewrite Hver. destruct (D.version_in _ _ _ _ Hv') as (_ & _ & Hvc).
    destruct (findElem id es) as [e|] eqn:Ef.
    + destruct Hacc as [Hce Hp]. rewrite (proj2 (Z.leb_le _ _)) by lia. by exists (versionOf e).
    + destruct Hacc as (u & Hu & Hcu & Hp). exists u. split; [|done]. rewrite (D.version_after id k); [done| |lia].
      intros x Hx. destruct (so_versions _ _ Hs x Hx) as (_ & ? & _). lia.
Qed.

Record completed (s' : t) (c : Z) (l : list D.Version) : Prop := {
  c_store : store_ok (psd_ s') c;
  c_running : running_ s' = true ∧ isFetching s' = false ∧ numberOfReservedPages_ s' = num;
  c_pending : D.pendingPages (psd_ s') = ∅;
  c_sees : sees (D.pages (psd_ s')) c l;
}.

(** Deleting what the checkpoints from [m] on do not need. *)
Lemma deleteSmaller_post d m c l' : (∀ c d', D.descMap d !! c = Some d' → D.checkpointNum d' = c) →
  D.numberOfReservedPages_ d = num → D.maxNumOfStoredCheckpoints_ d = mx → D.pages d = l' → D.ordered l' → (∀ v, v ∈ l' → version_ok H num c v) →
  (∀ id, 0 <= id < num → is_Some (D.version id c l')) → 2 <= m <= c → c <= m + mx →
  ∃ l2 M, (d' ← D.deleteDescOfSmallerCheckpoints d m; D.deleteCoveredResPageInSmallerCheckpoints d' m) =
      Ok (D.set_stored (D.set_pages d (D.pendingPages d) l2) (D.lastStoredCheckpoint d) (D.firstStoredCheckpoint d) M) ∧ D.ordered l2 ∧
    (∀ v, v ∈ l2 → v ∈ l') ∧ (∀ id, D.version id c l2 = D.version id c l').
Proof.
  intros Hdesc Hn Hx Hp Ho Hok Hall Hm Hc. unfold D.deleteDescOfSmallerCheckpoints. rewrite bool_decide_eq_true_2.
  2: { intros c' d' Hd' _. by rewrite (Hdesc c' d' Hd'). }
  cbn [Assert mbind res_bind]. set (d1 := D.set_stored _ _ _ _).
  assert (Hafter : ∀ id, D.version id (m + mx) l' = D.version id c l').
  { intros id. apply D.version_after; [|lia]. intros v Hv. destruct (Hok v Hv) as (_ & ? & _). lia. }
  destruct (deleteCoveredResPage_post H num mx Hnum Hmx d1 m l') as (l2 & -> & Ho2 & Hsub & Hver); try done; [lia| | |].
  - intros v Hv. destruct (Hok v Hv) as (? & ? & ? & ?). split_and!; try done; lia.
  - intros id Hid. rewrite Hafter. by apply Hall.
  - exists l2, (filter (fun x => ~ (x.1 < m)) (D.descMap d)). split_and!; [done|done|done|]. intros id. apply Hver. lia.
Qed.

Lemma completed_mk s k cp l l' d' : waiting s k cp → D.ordered l' → (∀ v, v ∈ l' → version_ok H num (D.checkpointNum cp) v) →
  sees l' (D.checkpointNum cp) l → (∀ id, 0 <= id < num → is_Some (D.version id (D.checkpointNum cp) l)) →
  D.sizeOfReservedPage_ d' = kSizeOfReservedPage → D.numberOfReservedPages_ d' = num → D.lastStoredCheckpoint d' = D.checkpointNum cp →
  D.fetching d' = false → D.pendingPages d' = ∅ → D.pages d' = l' → completed (with_psd s d') (D.checkpointNum cp) l.
Proof.
  intros Hw Ho Hok Hsee Hall H1 H2 H3 H4 H5 <-. pose proof (so_last _ _ (w_store _ _ _ Hw)) as [_ Hk]. pose proof (w_new _ _ _ Hw). constructor; cbn; try done.
  - constructor; try done; [split; [done|lia]|]. intros id _ Hid. destruct (Hall id Hid) as [v Hv]. destruct (Hsee id v Hid Hv) as (u & -> & _). eauto.
  - split_and!; [apply Hw|done|apply Hw].
Qed.

Lemma completeFetch_post s k cp vb es l c0 : waiting s k cp → view vb k es → (∀ e, e ∈ es → pageId e < num) →
  (∀ e, e ∈ es → pageDigest e = computeDigestOfPage H (pageId e) (checkpointNumber e) (page e)) →
  (∀ v, v ∈ l → version_ok H num c0 v) → (∀ id, 0 <= id < num → is_Some (D.version id (D.checkpointNum cp) l)) →
  computeDigestOfPagesDescriptor H (patch es <$> lastDesc (psd_ s) k) = computeDigestOfPagesDescriptor H (description num (D.checkpointNum cp) l) →
  ∃ s', completeFetch s vb = Ok s' ∧ completed s' (D.checkpointNum cp) l.
Proof.
  intros Hw Hv Hids Hdg Hl Hall He. destruct (install_post s k cp vb es l c0 Hw Hv Hids Hdg Hl Hall He) as (l' & Hi & Ho & Hok & Hsee).
  set (c := D.checkpointNum cp) in *. unfold completeFetch. rewrite Hi. cbn [mbind res_bind]. pose proof (w_new _ _ _ Hw) as Hnew.
  destruct (w_fetched _ _ _ Hw) as (Hcp & Hfr & Hlr). pose proof (w_store _ _ _ Hw) as Hs. destruct (so_last _ _ Hs) as [Hlast Hk]. destruct (w_mx _ _ _ Hw) as [Hx Hx'].
  unfold D.getCheckpointBeingFetched, D.getFirstRequiredBlock, D.getLastRequiredBlock, D.getLastStoredCheckpoint. cbn [D.checkpointBeingFetched D.set_pages D.firstRequiredBlock D.lastRequiredBlock D.lastStoredCheckpoint].
  rewrite Hcp, Hfr, Hlr, Hlast. cbn [mbind res_bind Assert]. fold c. cbn [Z.eqb]. cbn [mbind res_bind Assert]. rewrite (proj2 (Z.ltb_lt k c)) by lia. cbn [mbind res_bind Assert].
  unfold D.setCheckpointDesc. fold c. rewrite Z.eqb_refl, bool_decide_eq_true_2.
  2: { cbn. destruct (D.descMap (psd_ s) !! c) as [d'|] eqn:E; [|done]. destruct (w_descs _ _ _ Hw c d' E). lia. }
  cbn [mbind res_bind Assert]. rewrite Hx. match goal with |- context [D.getFirstStoredCheckpoint ?d] => set (d2 := d) end.
  set (m0 := if mx <=? c then c - mx + 1 else 0). set (m := if 0 <? m0 then _ else m0).
  assert (Hm : m = 0 ∨ (c - mx + 1 <= m <= c)).
  { unfold m. destruct (Z.ltb_spec 0 m0) as [H0|H0]; [|left; unfold m0 in *; destruct (Z.leb_spec mx c); lia]. right.
    pose proof (skipMissing_bounds d2 (Z.to_nat (c - m0)) m0 c) as Hb. unfold m0 in *. destruct (Z.leb_spec mx c); lia. }
  destruct ((2 <=? m) && _) eqn:Eb.
  - apply andb_true_iff in Eb as [H2%Z.leb_le Hold]. rewrite Hold.
    destruct (deleteSmaller_post d2 m c l') as (l2 & M & -> & Ho2 & Hsub & Hver); try done; [|apply Hs| |lia|lia|].
    + intros c' d'. cbn. intros [[<- <-]|[_ Hd']]%lookup_insert_Some; [done|]. by apply (w_descs _ _ _ Hw).
    + intros id Hid. destruct (Hall id Hid) as [v Hv']. destruct (Hsee id v Hid Hv') as (u & -> & _). eauto.
    + cbn [mbind res_bind]. eexists. split; [done|]. apply (completed_mk s k cp l l2); try done; try apply Hs.
      * intros v Hv'. by apply Hok, Hsub.
      * intros id v Hid Hv'. fold c. rewrite Hver. by apply Hsee.
  - cbn [mbind res_bind]. eexists. split; [done|]. apply (completed_mk s k cp l l'); try done; by destruct (_ <? m); try apply Hs.
Qed.

Lemma completed_load s' c l id n v : completed s' c l → 0 <= id < num → 0 < n <= kSizeOfReservedPage → D.version id c l = Some v →
  load s' id n = Ok (take (Z.to_nat n) (D.page v)).
Proof.
  intros [Hs (Hr & Hf & Hn) Hp Hsee] Hid Hl Hv. destruct (Hsee id v Hid Hv) as (u & Hu & _ & <-). unfold load. rewrite Hr, Hf, Hn.
  rewrite (proj2 (Z.ltb_lt id num)), (proj2 (Z.leb_le n kSizeOfReservedPage)) by lia. cbn [negb Assert mbind res_bind].
  unfold D.hasPendingResPage, D.getLastStoredCheckpoint. rewrite Hp, bool_decide_eq_false_2 by by intros [].
  destruct (so_last _ _ Hs) as [-> _]. destruct (D.version_in _ _ _ _ Hu) as (Hin & _ & Huc). destruct (so_versions _ _ Hs u Hin) as (_ & _ & Hlu & _).
  rewrite (getResPage_post (psd_ s') id c u n); [|apply Hs|apply Hs|by rewrite (proj1 (so_last _ _ Hs))|done|done|done].
  cbn [mbind res_bind]. by rewrite (proj2 (Z.leb_le _ c) Huc).
Qed.

(** The pages can be used again, and are those of the checkpoint. *)
Lemma completed_current s' c l id v : completed s' c l → 0 <= id < num → D.version id c l = Some v → current s' id (D.page v) ∧ Z.of_nat (length (D.page v)) = kSizeOfReservedPage.
Proof.
  intros [Hs _ Hp Hsee] Hid Hv. destruct (Hsee id v Hid Hv) as (u & Hu & _ & <-). destruct (so_last _ _ Hs) as [Hl _].
  destruct (D.version_in _ _ _ _ Hu) as (Hin & _ & _). destruct (so_versions _ _ Hs u Hin) as (_ & _ & Hlu & _).
  split; [|done]. right. rewrite Hp, Hl. split; [done|]. eauto.
Qed.

Lemma completed_ready s' c l : completed s' c l → (∀ id, 0 <= id < num → is_Some (D.version id c l)) → ready num s'.
Proof.
  intros Hc Hall. pose proof Hc as [Hs (Hr & Hf & Hn) Hp _]. unfold ready. split_and!; [constructor; try done; apply Hs|apply Hs|].
  intros id Hid. destruct (Hall id Hid) as [v Hv]. destruct (completed_current s' c l id v Hc Hid Hv). eauto.
Qed.
End requester.
End VirtualBlockFacts.

(** * Virtual blocks are complete (VirtualBlock.v)

    The bytes of a virtual block, that [createVBlock] makes them from the pages that changed
    since the checkpoint of the requester, and that the requester accepts them. *)
Module VirtualBlockCreate.
Import BCStateTran BCStateTranFacts BCStateTranSpec BCStateTranDigests VirtualBlock VirtualBlockFacts.

(** ** Bytes *)
Definition enc_elem (e : ElementOfVirtualBlock) : list Z :=
  le_enc 4 (pageId e) ++ le_enc 8 (checkpointNumber e) ++ pageDigest e ++ page e.

Definition enc_vblock (k : Z) (es : list ElementOfVirtualBlock) : list Z :=
  le_enc 4 (Z.of_nat (length es)) ++ le_enc 8 k ++ (es ≫= enc_elem).

Lemma length_enc_element k e : elem_ok k e → Z.of_nat (length (enc_elem e)) = elementSize.
Proof. intros [_ _ [Hd _] Hp]. unfold enc_elem. rewrite !length_app, !length_le_enc, Hd. unfold elementSize, sizeofElement. cbn -[Z.of_nat]. change (Z.to_nat DIGEST_SIZE) with 32%nat. lia. Qed.

Lemma length_enc_elems k es : Forall (elem_ok k) es → Z.of_nat (length (es ≫= enc_elem)) = Z.of_nat (length es) * elementSize.
Proof.
  induction 1 as [|e es He _ IH]; [done|]. rewrite bind_cons, length_app, Nat2Z.inj_add, IH, (length_enc_element k e He). cbn [length]. lia.
Qed.

Lemma get_uint_mid w pre z post off : off = Z.of_nat (length pre) → 0 <= z < 2 ^ (8 * Z.of_nat w) →
  get_uint w (pre ++ le_enc w z ++ post) off = Ok z.
Proof.
  intros -> Hz. unfold get_uint. rewrite (get_bytes_mid pre (le_enc w z)) by (done || by rewrite length_le_enc).
  cbn [fmap res_fmap]. by rewrite le_dec_enc, wrap_small.
Qed.

Lemma readElement_mid k pre e post off : elem_ok k e → 0 <= k → off = Z.of_nat (length pre) → readElement (pre ++ enc_elem e ++ post) off = Ok e.
Proof.
  intros [Hi Hc [Hd _] Hp] Hk ->. assert (0 <= checkpointNumber e < 2 ^ (8 * Z.of_nat 8)) as Hc' by (split; [lia|apply Hc]). unfold readElement, enc_elem. rewrite <- !app_assoc. rewrite (get_uint_mid 4 pre) by done. cbn [mbind res_bind].
  rewrite (app_assoc pre (le_enc 4 (pageId e))). rewrite (get_uint_mid 8 (pre ++ le_enc 4 (pageId e))) by (done || (rewrite ?length_app, ?length_le_enc; lia)). cbn [mbind res_bind].
  rewrite (app_assoc _ (le_enc 8 (checkpointNumber e))).
  rewrite (get_bytes_mid _ (pageDigest e) _ _ DIGEST_SIZE) by (rewrite ?length_app, ?length_le_enc, ?Hd; (done || lia)). cbn [mbind res_bind].
  rewrite (app_assoc _ (pageDigest e)). rewrite (get_bytes_mid _ (page e)); [by destruct e| |done].
  rewrite !length_app, !length_le_enc, Hd. change (Z.to_nat DIGEST_SIZE) with 32%nat. lia.
Qed.

Lemma sorted_next es i e e' : StronglySorted earlier es → es !! i = Some e → es !! S i = Some e' → pageId e < pageId e'.
Proof.
  intros Hs He He'. rewrite <- (take_drop_middle es i e He) in Hs. apply StronglySorted_app_1_r, StronglySorted_inv in Hs as [_ Hf].
  rewrite Forall_forall in Hf. apply Hf. apply list_elem_of_lookup. exists 0%nat. by rewrite lookup_drop, Nat.add_0_r.
Qed.

(** ** Well-formed blocks *)
Section encoded.
Context (k : Z) (es : list ElementOfVirtualBlock) (Hk : 0 <= k < 2 ^ 64) (Hok : Forall (elem_ok k) es) (Hs : StronglySorted earlier es)
  (Hlen : sizeofHeader + Z.of_nat (length es) * elementSize < 2 ^ 32).

Definition vbSize : Z := sizeofHeader + Z.of_nat (length es) * elementSize.

Lemma number_enc : getNumberOfElements (enc_vblock k es) = Ok (Z.of_nat (length es)).
Proof.
  unfold getNumberOfElements, enc_vblock. apply (get_uint_mid 4 []); [done|]. change elementSize with 4140 in Hlen. change sizeofHeader with 12 in Hlen. lia.
Qed.

Lemma known_enc : getLastKnown (enc_vblock k es) = Ok k.
Proof. unfold getLastKnown, enc_vblock. by apply (get_uint_mid 8 (le_enc 4 _)). Qed.

Lemma read_enc j e : es !! j = Some e → readElement (enc_vblock k es) (sizeofHeader + u32 (Z.of_nat j * elementSize)) = Ok e.
Proof.
  intros Hj. pose proof (lookup_lt_Some _ _ _ Hj). rewrite Forall_forall in Hok. pose proof (take_drop_middle es j e Hj) as He.
  assert (Hpre : Forall (elem_ok k) (take j es)) by (apply Forall_take, Forall_forall, Hok).
  pose proof (length_enc_elems k _ Hpre) as Hl. rewrite length_take, Nat.min_l in Hl by lia.
  rewrite u32_small by (change elementSize with 4140 in *; change sizeofHeader with 12 in *; lia).
  unfold enc_vblock. rewrite <- He at 2. rewrite bind_app, bind_cons, !app_assoc, <- (app_assoc _ (enc_elem e)).
  apply (readElement_mid k); [by apply Hok, list_elem_of_lookup_2 with j|lia|].
  rewrite !length_app, !length_le_enc, <- Hl. change sizeofHeader with 12. lia.
Qed.

Lemma checkElements_enc n : ∀ i lst, (∀ e, es !! i = Some e → (0 < i)%nat → lst < pageId e) → (i + n = length es)%nat →
  checkElements (enc_vblock k es) k n (Z.of_nat i) lst = Ok true.
Proof.
  induction n as [|n IH]; intros i lst Hlst Hi; cbn [checkElements]; [done|].
  destruct (lookup_lt_is_Some_2 es i ltac:(lia)) as [e He]. rewrite (read_enc i e He). cbn [mbind res_bind].
  rewrite Forall_forall in Hok. destruct (Hok e (list_elem_of_lookup_2 _ _ _ He)) as [_ Hc [_ Hd] _].
  rewrite (proj2 (Z.leb_gt _ k)), bool_decide_eq_false_2 by (done || lia).
  assert ((0 <? Z.of_nat i) && (pageId e <=? lst) = false) as ->.
  { apply andb_false_iff. destruct (decide (i = 0%nat)) as [-> |]; [by left|]. right. specialize (Hlst e He ltac:(lia)). lia. }
  replace (Z.of_nat i + 1) with (Z.of_nat (S i)) by lia. apply IH; [|lia].
  intros e' He' _. by apply (sorted_next es i).
Qed.

Lemma structure_enc : checkStructureOfVirtualBlock (enc_vblock k es) vbSize = Ok true.
Proof.
  unfold checkStructureOfVirtualBlock, vbSize. rewrite (proj2 (Z.ltb_ge _ sizeofHeader)) by (change elementSize with 4140; lia).
  replace (sizeofHeader + Z.of_nat (length es) * elementSize - sizeofHeader) with (Z.of_nat (length es) * elementSize) by lia.
  rewrite Z.mod_mul, Z.div_mul by done. cbn [Z.eqb negb]. rewrite number_enc. cbn [mbind res_bind]. rewrite Z.eqb_refl. cbn [negb].
  rewrite known_enc. cbn [mbind res_bind]. rewrite Nat2Z.id. apply (checkElements_enc _ 0); [lia|done].
Qed.

Lemma ints_enc : ints_ok (enc_vblock k es).
Proof.
  constructor; [rewrite number_enc; intros n [= <-]; lia|]. rewrite number_enc. intros n i e [= <-] Hi He.
  destruct (lookup_lt_is_Some_2 es (Z.to_nat i) ltac:(lia)) as [e' Hl]. pose proof (read_enc _ _ Hl) as Hr. rewrite Z2Nat.id in Hr by lia. rewrite Hr in He.
  injection He as <-. rewrite Forall_forall in Hok. destruct (Hok e' (list_elem_of_lookup_2 _ _ _ Hl)) as [? ? _ _]. lia.
Qed.

Lemma view_enc : view (enc_vblock k es) k es.
Proof.
  constructor; [apply number_enc|apply known_enc|done|done|]. intros j e Hj. unfold getVirtualElement. rewrite number_enc. cbn [mbind res_bind].
  pose proof (lookup_lt_Some _ _ _ Hj). rewrite (proj2 (Z.ltb_lt _ _)) by lia. cbn [Assert mbind res_bind]. by apply read_enc.
Qed.
End encoded.

(** ** Making a block *)
Section create.
Context (H : list Z → Digest) (num c k : Z) (s : t).
#[local] Abbreviation d := (psd_ s).
#[local] Abbreviation l := (D.pages (psd_ s)).
Context (Hsize : D.sizeOfReservedPage_ d = kSizeOfReservedPage) (Hn : numberOfReservedPages_ s = num) (Ho : D.ordered l)
  (Hc : 0 < c < 2 ^ 64 ∧ c <= D.lastStoredCheckpoint d) (Hk : 0 <= k) (Hnum : num < 65536)
  (Hlen : ∀ x, length (H x) = Z.to_nat DIGEST_SIZE) (Hnz : ∀ x, H x ≠ zeroDigest)
  (Hall : ∀ id, 0 <= id < num → ∃ v, D.version id c l = Some v ∧ version_ok H num c v).

Definition elemOf (id : Z) : option ElementOfVirtualBlock :=
  v ← D.version id c l; if k <? D.checkpoint v then Some (mkElem id (D.checkpoint v) (D.pageDigest v) (D.page v)) else None.

(** The elements of the pages that changed. *)
Definition updatedElems (ids : list Z) : list ElementOfVirtualBlock := omap elemOf ids.

Lemma elemOf_spec id e : 0 <= id < num → elemOf id = Some e →
  pageId e = id ∧ k < checkpointNumber e <= c ∧ pageDigest e = computeDigestOfPage H id (checkpointNumber e) (page e) ∧
  Z.of_nat (length (page e)) = kSizeOfReservedPage ∧ D.version id c l = Some (versionOf e).
Proof.
  intros Hid He. unfold elemOf in He. destruct (Hall id Hid) as (v & Hv & _ & Hp & Hl & Hd). rewrite Hv in He. cbn in He.
  destruct (Z.ltb_spec k (D.checkpoint v)); [|done]. injection He as <-. cbn. destruct (D.version_in _ _ _ _ Hv) as (_ & Hvi & _).
  split_and!; try done; try lia; [by rewrite <- Hvi|]. unfold versionOf. cbn. rewrite Hv, <- Hvi. by destruct v.
Qed.

Lemma getResPage_None id v : D.version id c l = Some v → D.getResPage d id c None = Ok (D.checkpoint v, D.pageDigest v, []).
Proof.
  intros Hv. unfold D.getResPage. cbn [default]. rewrite Hsize, (proj2 (Z.leb_le c _)) by lia. cbn [Assert mbind res_bind Z.leb Z.compare].
  rewrite (D.lower_bound_version id c l v Ho Hv). destruct (D.version_in _ _ _ _ Hv) as (_ & -> & Hvc).
  by rewrite Z.eqb_refl, (proj2 (Z.leb_le _ c) Hvc).
Qed.

Lemma findUpdated_spec ids : (∀ id, id ∈ ids → 0 <= id < num) → findUpdated d (mkDescV c k) ids = Ok (pageId <$> updatedElems ids).
Proof.
  induction ids as [|id ids IH]; intros Hids; [done|]. cbn [findUpdated]. rewrite IH by (intros i Hi; apply Hids; by right).
  pose proof (Hids id ltac:(left)) as Hid. destruct (Hall id Hid) as (v & Hv & _). unfold isUpdated. cbn [vCheckpointNum lastCheckpointKnownToRequester].
  rewrite (getResPage_None id v Hv). cbn [mbind res_bind]. destruct (D.version_in _ _ _ _ Hv) as (_ & _ & Hvc). rewrite (proj2 (Z.leb_le _ c) Hvc).
  cbn [Assert mbind res_bind]. unfold updatedElems. cbn [omap list_omap]. 
  assert (elemOf id = if k <? D.checkpoint v then Some (mkElem id (D.checkpoint v) (D.pageDigest v) (D.page v)) else None) as ->
    by (unfold elemOf; by rewrite Hv). by destruct (k <? D.checkpoint v).
Qed.

Lemma put_int_mid w pre old z post off : off = Z.of_nat (length pre) → length old = w → put_int w (pre ++ old ++ post) off z = Ok (pre ++ le_enc w z ++ post).
Proof. intros -> Hl. unfold put_int. apply put_bytes_mid; [done|]. by rewrite length_le_enc. Qed.

Lemma put_elem e pre old post off : off = Z.of_nat (length pre) → Z.of_nat (length old) = elementSize → length (pageDigest e) = Z.to_nat DIGEST_SIZE →
  Z.of_nat (length (page e)) = kSizeOfReservedPage →
  (vb ← put_int 4 (pre ++ old ++ post) off (pageId e); vb ← put_int 8 vb (off + 4) (checkpointNumber e); vb ← put_bytes vb (off + 12) (pageDigest e);
   put_bytes vb (off + 44) (page e)) = Ok (pre ++ enc_elem e ++ post).
Proof.
  intros -> Hl Hd Hp. change (Z.to_nat DIGEST_SIZE) with 32%nat in Hd. change elementSize with 4140 in Hl. change kSizeOfReservedPage with 4096 in Hp.
  rewrite <- (take_drop 4 old). set (a := take 4 old). set (r1 := drop 4 old). rewrite <- (take_drop 8 r1). set (b := take 8 r1). set (r2 := drop 8 r1).
  rewrite <- (take_drop 32 r2). set (x := take 32 r2). set (r3 := drop 32 r2).
  assert (La : length a = 4%nat) by (unfold a; rewrite length_take; lia). assert (L1 : length r1 = 4136%nat) by (unfold r1; rewrite length_drop; lia).
  assert (Lb : length b = 8%nat) by (unfold b; rewrite length_take; lia). assert (L2 : length r2 = 4128%nat) by (unfold r2; rewrite length_drop; lia).
  assert (Lx : length x = 32%nat) by (unfold x; rewrite length_take; lia). assert (L3 : length r3 = 4096%nat) by (unfold r3; rewrite length_drop; lia).
  rewrite <- !app_assoc. rewrite (put_int_mid 4 pre a) by done. cbn [mbind res_bind]. rewrite (app_assoc pre).
  rewrite (put_int_mid 8 _ b) by (done || (rewrite length_app, length_le_enc; lia)). cbn [mbind res_bind]. rewrite (app_assoc (pre ++ _)).
  rewrite (put_bytes_mid _ x) by (done || lia || (rewrite !length_app, !length_le_enc; lia)). cbn [mbind res_bind]. rewrite (app_assoc ((pre ++ _) ++ _)).
  rewrite (put_bytes_mid _ r3) by (lia || (rewrite !length_app, !length_le_enc; lia)). unfold enc_elem. by rewrite <- !app_assoc.
Qed.

Lemma updated_in ids e : (∀ id, id ∈ ids → 0 <= id < num) → e ∈ updatedElems ids → 0 <= pageId e < num ∧ elemOf (pageId e) = Some e.
Proof.
  intros Hids (id & Hid & He)%list_elem_of_omap. specialize (Hids id Hid). destruct (elemOf_spec id e Hids He) as (Hi & _). by rewrite Hi.
Qed.

Lemma updated_elem_ok e : 0 <= pageId e < num → elemOf (pageId e) = Some e → elem_ok k e.
Proof.
  intros Hid He. destruct (elemOf_spec _ e Hid He) as (_ & Hce & Hdg & Hpg & _).
  constructor; [lia|lia|split; [rewrite Hdg; apply Hlen|rewrite Hdg; apply Hnz]|done].
Qed.

Lemma writeElement_post n e pre o1 o2 idx : 0 <= pageId e < num → elemOf (pageId e) = Some e → 0 <= idx < n → n < 65536 →
  Z.of_nat (length pre) = sizeofHeader + idx * elementSize → Z.of_nat (length o1) = elementSize →
  writeElement d (mkDescV c k) n (pre ++ o1 ++ o2, idx) (pageId e) = Ok (pre ++ enc_elem e ++ o2, idx + 1).
Proof.
  intros Hid He Hidx Hb Hpre L1. unfold writeElement. cbn [vCheckpointNum lastCheckpointKnownToRequester].
  destruct (elemOf_spec _ e Hid He) as (_ & Hce & Hdg & Hpg & Hv). rewrite (proj2 (Z.ltb_lt idx n)) by lia. cbn [Assert mbind res_bind].
  rewrite (getResPage_post d (pageId e) c (versionOf e) kSizeOfReservedPage) by (done || lia). cbn [mbind res_bind versionOf D.checkpoint D.pageDigest D.page].
  rewrite (proj2 (Z.leb_le _ c)), (proj2 (Z.ltb_lt k _)), bool_decide_eq_false_2 by (lia || (rewrite Hdg; apply Hnz)). cbn [negb Assert mbind res_bind].
  rewrite firstn_all2 by (change kSizeOfReservedPage with 4096 in *; lia). rewrite u32_small by (change elementSize with 4140; lia).
  pose proof (put_elem e pre o1 o2 _ (eq_sym Hpre) L1 ltac:(rewrite Hdg; apply Hlen) Hpg) as Hput.
  apply bind_ok in Hput as (vb1 & -> & Hput). cbn [mbind res_bind]. apply bind_ok in Hput as (vb2 & -> & Hput). cbn [mbind res_bind].
  apply bind_ok in Hput as (vb3 & -> & Hput). cbn [mbind res_bind]. rewrite Hput. cbn [mbind res_bind]. by rewrite u16_small by lia.
Qed.

Lemma writeElements_spec n es : ∀ pre old idx, (∀ e, e ∈ es → 0 <= pageId e < num ∧ elemOf (pageId e) = Some e) →
  Z.of_nat (length pre) = sizeofHeader + idx * elementSize → Z.of_nat (length old) = Z.of_nat (length es) * elementSize →
  0 <= idx → idx + Z.of_nat (length es) = n → n < 65536 →
  foldM (writeElement d (mkDescV c k) n) (pre ++ old, idx) (pageId <$> es) = Ok (pre ++ (es ≫= enc_elem), n).
Proof.
  induction es as [|e es IH]; intros pre old idx Hes Hpre Hold Hidx Hsum Hb.
  { cbn in *. destruct old; [|done]. do 3 f_equal. lia. }
  destruct (Hes e ltac:(left)) as [Hid He]. rewrite fmap_cons. cbn [foldM length] in *.
  rewrite <- (take_drop (Z.to_nat elementSize) old). set (o1 := take _ old). set (o2 := drop _ old).
  assert (L1 : Z.of_nat (length o1) = elementSize) by (unfold o1; rewrite length_take; change elementSize with 4140 in *; lia).
  rewrite (writeElement_post n e pre o1 o2 idx Hid He) by (done || lia). cbn [mbind res_bind].
  rewrite bind_cons, !app_assoc. apply IH; [intros e' He'; apply Hes; by right| | |lia|lia|done].
  - rewrite length_app, Nat2Z.inj_add, Hpre, (length_enc_element k e); [lia|by apply updated_elem_ok].
  - unfold o2. rewrite length_drop. change elementSize with 4140 in *. lia.
Qed.

Lemma updated_sorted ids : StronglySorted Z.lt ids → (∀ id, id ∈ ids → 0 <= id < num) → StronglySorted earlier (updatedElems ids).
Proof.
  induction 1 as [|id ids Hs IH Hf]; intros Hids; [constructor|]. assert (Hids' : ∀ id, id ∈ ids → 0 <= id < num) by (intros i Hi; apply Hids; by right).
  unfold updatedElems. cbn [omap list_omap]. destruct (elemOf id) as [e|] eqn:He; [|by apply IH]. constructor; [by apply IH|].
  apply Forall_forall. intros e' Hin. destruct (elemOf_spec id e (Hids id ltac:(left)) He) as (Hi & _). rewrite Forall_forall in Hf.
  unfold earlier. rewrite Hi. apply list_elem_of_omap in Hin as (id' & Hid' & He'). destruct (elemOf_spec id' e' (Hids' id' Hid') He') as (-> & _). by apply Hf.
Qed.

#[local] Abbreviation es := (updatedElems (seqZ 0 num)).

Lemma ids_range id : id ∈ seqZ 0 num → 0 <= id < num.
Proof. rewrite elem_of_seqZ. lia. Qed.

Lemma seqZ_sorted n : ∀ i, StronglySorted Z.lt (seqZ i (Z.of_nat n)).
Proof.
  induction n as [|n IH]; intros i; [constructor|]. rewrite seqZ_cons by lia. replace (Z.pred (Z.of_nat (S n))) with (Z.of_nat n) by lia.
  constructor; [apply IH|]. apply Forall_forall. intros j Hj%elem_of_seqZ. lia.
Qed.

Lemma es_ok : Forall (elem_ok k) es.
Proof. apply Forall_forall. intros e He. destruct (updated_in _ e ids_range He). by apply updated_elem_ok. Qed.

Lemma es_sorted : 0 <= num → StronglySorted earlier es.
Proof. intros H0. apply updated_sorted; [|apply ids_range]. rewrite <- (Z2Nat.id num H0). apply seqZ_sorted. Qed.

Lemma es_length : 0 <= num → Z.of_nat (length es) <= num.
Proof.
  intros H0. assert (Hl : ∀ ids, (length (updatedElems ids) <= length ids)%nat).
  { induction ids as [|id ids IH]; [done|]. unfold updatedElems in *. cbn [omap list_omap]. destruct (elemOf id); cbn; lia. }
  specialize (Hl (seqZ 0 num)). rewrite length_seqZ in Hl. lia.
Qed.

(** The source makes the block of the pages that changed. *)
Lemma createVBlock_post malloc pedantic : 0 <= num → (∀ n, 0 <= n → Z.of_nat (length (malloc n)) = n) → k < 2 ^ 64 →
  D.hasCheckpointDesc d c = true → createVBlock malloc pedantic s (mkDescV c k) = Ok (enc_vblock k es).
Proof.
  intros H0 Hmal Hk64 Hdesc. unfold createVBlock. cbn [vCheckpointNum lastCheckpointKnownToRequester]. rewrite Hdesc. cbn [Assert mbind res_bind].
  rewrite Hn, (findUpdated_spec _ ids_range). cbn [mbind res_bind]. rewrite length_fmap. pose proof (es_length H0) as Hel.
  assert (Hfit : sizeofHeader + Z.of_nat (length es) * elementSize < 2 ^ 32) by (change elementSize with 4140; change sizeofHeader with 12; lia).
  pose proof (structure_enc k es (conj Hk Hk64) es_ok (es_sorted H0) Hfit) as Hst. unfold vbSize in Hst.
  rewrite (u32_small (Z.of_nat (length es) * _)), u32_small by (change elementSize with 4140 in *; change sizeofHeader with 12 in *; lia).
  set (size := sizeofHeader + Z.of_nat (length es) * elementSize) in *.
  assert (Hs0 : 12 <= size) by (unfold size; change elementSize with 4140; change sizeofHeader with 12; lia).
  pose proof (Hmal size ltac:(lia)) as Hm. rewrite <- (take_drop 4 (malloc size)). set (a := take 4 _). set (r := drop 4 _).
  rewrite <- (take_drop 8 r). set (b := take 8 r). set (old := drop 8 r).
  assert (La : length a = 4%nat) by (unfold a; rewrite length_take; lia). assert (Lr : Z.of_nat (length r) = size - 4) by (unfold r; rewrite length_drop; lia).
  assert (Lb : length b = 8%nat) by (unfold b; rewrite length_take; lia).
  assert (Lo : Z.of_nat (length old) = Z.of_nat (length es) * elementSize).
  { unfold old. rewrite length_drop. unfold size in *. change elementSize with 4140 in *; change sizeofHeader with 12 in *. lia. }
  rewrite (put_int_mid 8 a b) by (done || lia). cbn [mbind res_bind]. 
  match goal with |- context [put_int 4 (a ++ ?x) 0 ?z] => rewrite (put_int_mid 4 [] a z x 0 eq_refl La : put_int 4 (a ++ x) 0 z = _) end. cbn [mbind res_bind app].
  destruct (Z.eqb_spec (Z.of_nat (length es)) 0) as [He|He].
  - assert (es = []) as Hnil by (destruct es; [done|cbn in He; lia]). assert (old = []) as -> by (destruct old; [done|rewrite He in Lo; cbn in Lo; lia]).
    unfold enc_vblock in Hst |- *. rewrite Hnil in Hst |- *. cbn [mbind list_bind] in Hst |- *. rewrite Hst. done.
  - rewrite app_assoc. rewrite (writeElements_spec _ es) by (try done; try lia; try (intros e; apply updated_in, ids_range); by rewrite length_app, !length_le_enc).
    cbn [mbind res_bind]. rewrite Z.eqb_refl. cbn [Assert mbind res_bind]. rewrite <- app_assoc. fold (enc_vblock k es). rewrite Hst. by destruct pedantic.
Qed.

(** ** The requester accepts it *)
Context (Hn2 : 2 <= num) (r : t) (Hr : store_ok H num (psd_ r) k) (Hrn : numberOfReservedPages_ r = num)
  (Hagree : ∀ id v, 0 <= id < num → D.version id c l = Some v → D.checkpoint v <= k →
     ∃ u, D.version id k (D.pages (psd_ r)) = Some u ∧ D.single u = D.single v).

Lemma findElem_updated id v : 0 <= id < num → D.version id c l = Some v →
  findElem id es = if k <? D.checkpoint v then Some (mkElem id (D.checkpoint v) (D.pageDigest v) (D.page v)) else None.
Proof.
  intros Hid Hv. assert (He : elemOf id = if k <? D.checkpoint v then Some (mkElem id (D.checkpoint v) (D.pageDigest v) (D.page v)) else None)
    by (unfold elemOf; by rewrite Hv). destruct (k <? D.checkpoint v).
  - apply findElem_elem; [apply es_sorted; lia| |done]. apply list_elem_of_omap. exists id. split; [apply elem_of_seqZ; lia|done].
  - apply findElem_None. intros e Hin Heid. destruct (updated_in _ e ids_range Hin) as [_ Hee]. rewrite Heid in Hee. congruence.
Qed.

Lemma patched : patch es <$> lastDesc num (psd_ r) k = description num c l.
Proof.
  assert (Hsome : ∀ id, 0 <= id < num → is_Some (D.version id c l)) by (intros id Hid; destruct (Hall id Hid) as (v & -> & _); eauto).
  pose proof (length_lastDesc H num Hn2 _ _ Hr) as L1. pose proof (length_description num Hn2 c l Hsome) as L2.
  apply list_eq. intros j. destruct (decide (Z.of_nat j < num)) as [Hj|Hj].
  2: { rewrite !lookup_ge_None_2; [done| |rewrite length_fmap]; lia. }
  assert (Hj' : 0 <= Z.of_nat j < num) by lia.
  destruct (lastDesc_lookup H num Hn2 _ _ (Z.of_nat j) Hr Hj') as (x & Hx & Hxid & Hcase). rewrite Nat2Z.id in Hx.
  destruct (Hsome (Z.of_nat j) Hj') as [v Hv]. pose proof (description_lookup num l c (Z.of_nat j) v Hsome Hj' Hv) as Hd. rewrite Nat2Z.id in Hd.
  rewrite list_lookup_fmap, Hx, Hd. cbn. f_equal. unfold patch. rewrite Hxid, (findElem_updated _ v Hj' Hv).
  destruct (D.version_in _ _ _ _ Hv) as (_ & Hvid & _). destruct (Z.ltb_spec k (D.checkpoint v)) as [Hlt|Hge]; [by rewrite <- Hvid|].
  destruct (Hagree (Z.of_nat j) v Hj' Hv Hge) as (u & Hu & <-). destruct Hcase as [[-> _]|(_ & u' & Hu' & ->)]; [|congruence].
  exfalso. destruct (Hall (Z.of_nat j) Hj') as (v' & Hv' & _ & Hp & _). rewrite Hv in Hv'. injection Hv' as <-. lia.
Qed.

Lemma check_created : checkVirtualBlockOfResPages H r (computeDigestOfPagesDescriptor H (description num c l)) (enc_vblock k es) (vbSize es) = Ok true.
Proof.
  destruct (so_last _ _ _ _ Hr) as [_ Hk']. pose proof (es_length ltac:(lia)) as Hel.
  assert (Hfit : sizeofHeader + Z.of_nat (length es) * elementSize < 2 ^ 32) by (change elementSize with 4140; change sizeofHeader with 12; lia).
  pose proof (view_enc k es Hk' es_ok (es_sorted ltac:(lia)) Hfit) as Hv.
  rewrite (check_view H num Hn2 r k _ _ _ es Hr Hrn Hv) by (by apply structure_enc; [|apply es_ok|apply es_sorted; lia|]).
  rewrite patched, bool_decide_eq_true_2 by done. 
  apply (checkDigests_from H k _ es _ Hk Hv 0); [lia|]. intros e He. destruct (updated_in _ e ids_range He) as [Hid Hee].
  by destruct (elemOf_spec _ e Hid Hee) as (_ & _ & ? & _).
Qed.
End create.
End VirtualBlockCreate.
