(* ===== verification/VirtualBlockProps.v ===== *)
(** * The theorems about virtual blocks (VirtualBlock.v) *)
From S2P Require Import Prelude SysConsts DataStore ReservedPages BCStateTran BCStateTranFacts BCStateTranSpec BCStateTranProps VirtualBlock VirtualBlockFacts.

Module VirtualBlockProps.
Import BCStateTran BCStateTranFacts BCStateTranSpec BCStateTranDigests BCStateTranProps VirtualBlock VirtualBlockFacts VirtualBlockCreate.

#[local] Abbreviation last w := (D.lastStoredCheckpoint (psd_ (st w))).

(** What an accepted block leads to. *)
Lemma virtualBlock_completed H num mx mx' blocks ws s k cp m vb vbSize :
  (∀ x, length (H x) = Z.to_nat DIGEST_SIZE) → (∀ x y, H x = H y → x = y) → 2 <= mx →
  reach H num mx' blocks ws → snaps (ghost ws) !! D.checkpointNum cp = Some m → last ws - mx' <= D.checkpointNum cp →
  D.descMap (psd_ (st ws)) !! D.checkpointNum cp = Some cp →
  waiting H num mx s k cp → ints_ok vb → (∀ i e, 0 <= i → getVirtualElement i vb = Ok e → pageId e < num) →
  checkVirtualBlockOfResPages H s (D.digestOfResPagesDescriptor cp) vb vbSize = Ok true →
  ∃ s', completeFetch s vb = Ok s' ∧ completed H num s' (D.checkpointNum cp) (D.pages (psd_ (st ws))) ∧
    ∀ id, 0 <= id < num → ∃ v, D.version id (D.checkpointNum cp) (D.pages (psd_ (st ws))) = Some v ∧ m !! id = Some (D.page v).
Proof.
  intros Hlen Hinj Hmx Hr Hm Hc Hd Hw Hb Hids Hcheck. pose proof (reach_inv _ _ _ _ _ Hr) as Hi. destruct (reach_params _ _ _ _ _ Hr) as [Hnum _].
  destruct (check_accepts H num Hnum s k vb vbSize _ (w_store _ _ _ _ _ _ Hw) (w_num _ _ _ _ _ _ Hw) Hb Hcheck) as (es & Hv & He & Hdg).
  pose proof (snapshot_versions H num mx' blocks ws _ m Hi Hm Hc) as Hsnap. destruct (inv_desc _ _ _ _ _ Hi _ _ Hd) as (_ & _ & Hdesc & _). rewrite Hdesc in He.
  destruct (completeFetch_post H num Hnum Hlen Hinj mx Hmx s k cp vb es (D.pages (psd_ (st ws))) (last ws) Hw Hv) as (s' & Hs' & Hcomp); try done.
  - intros e [j Hj]%list_elem_of_lookup. apply (Hids (Z.of_nat j)); [lia|]. by apply (view_get _ _ _ Hv).
  - intros v. apply (inv_versions _ _ _ _ _ Hi).
  - intros id Hid. destruct (Hsnap id Hid) as (v & -> & _). eauto.
  - exists s'. split_and!; [done|done|]. intros id Hid. destruct (Hsnap id Hid) as (v & Hver & Hp & _). eauto.
Qed.

(** C24: With a collision-free hash, whoever sent it, a virtual block that passes the checks of a replica that fetches
    checkpoint [cp] of a correct replica, and names only existing pages, installs the pages that the correct replica
    had in the checkpoint. *)
Theorem virtualBlock_sound H num mx mx' blocks ws s k cp m vb vbSize :
  (∀ x, length (H x) = Z.to_nat DIGEST_SIZE) → (∀ x y, H x = H y → x = y) → 2 <= mx →
  reach H num mx' blocks ws → snaps (ghost ws) !! D.checkpointNum cp = Some m → last ws - mx' <= D.checkpointNum cp →
  D.descMap (psd_ (st ws)) !! D.checkpointNum cp = Some cp →
  waiting H num mx s k cp → ints_ok vb → (∀ i e, 0 <= i → getVirtualElement i vb = Ok e → pageId e < num) →
  checkVirtualBlockOfResPages H s (D.digestOfResPagesDescriptor cp) vb vbSize = Ok true →
  ∃ s', completeFetch s vb = Ok s' ∧ isFetching s' = false ∧ D.lastStoredCheckpoint (psd_ s') = D.checkpointNum cp ∧
    ∀ id n, 0 <= id < num → 0 < n <= kSizeOfReservedPage → ∃ p, m !! id = Some p ∧ load s' id n = Ok (take (Z.to_nat n) p).
Proof.
  intros Hlen Hinj Hmx Hr Hm Hc Hd Hw Hb Hids Hcheck.
  destruct (virtualBlock_completed H num mx mx' blocks ws s k cp m vb vbSize) as (s' & Hs' & Hcomp & Hsnap); try done.
  exists s'. split_and!; [done|apply Hcomp|apply (so_last _ _ _ _ (c_store _ _ _ _ _ Hcomp))|]. intros id n Hid Hn.
  destruct (Hsnap id Hid) as (v & Hver & Hp). exists (D.page v). split; [done|].
  by apply (completed_load H num s' (D.checkpointNum cp) (D.pages (psd_ (st ws)))).
Qed.

(** ** Fetching from a correct replica *)

(** Replica [ws] has checkpoint [cp] with pages [m]; replica [s], whose last checkpoint is [k], waits for its pages, and
    the pages that did not change since [k] are the same. *)
Record transfer (H : list Z → Digest) (num mx mx' : Z) (blocks : Z → list Z) (ws : world) (s : t) (k : Z) (cp : D.CheckpointDesc)
    (m : gmap Z (list Z)) : Prop := {
  tr_reach : reach H num mx' blocks ws;
  tr_snap : snaps (ghost ws) !! D.checkpointNum cp = Some m ∧ last ws - mx' <= D.checkpointNum cp;
  tr_desc : D.descMap (psd_ (st ws)) !! D.checkpointNum cp = Some cp;
  tr_waiting : waiting H num mx s k cp;
  tr_agree id v : 0 <= id < num → D.version id (D.checkpointNum cp) (D.pages (psd_ (st ws))) = Some v → D.checkpoint v <= k →
    ∃ u, D.version id k (D.pages (psd_ s)) = Some u ∧ D.single u = D.single v;
}.

Section transfer.
Context (H : list Z → Digest) (num mx mx' : Z) (blocks : Z → list Z) (ws : world) (s : t) (k : Z) (cp : D.CheckpointDesc) (m : gmap Z (list Z)).
Context (Hlen : ∀ x, length (H x) = Z.to_nat DIGEST_SIZE) (Hinj : ∀ x y, H x = H y → x = y) (Hnz : ∀ x, H x ≠ zeroDigest) (Hmx : 2 <= mx)
  (Hnum : num < 65536) (Htr : transfer H num mx mx' blocks ws s k cp m).
#[local] Abbreviation c := (D.checkpointNum cp).
#[local] Abbreviation es := (updatedElems c k (st ws) (seqZ 0 num)).

Lemma tr_inv : inv H num mx' blocks ws.
Proof. apply reach_inv, Htr. Qed.

Lemma tr_versions id : 0 <= id < num → ∃ v, D.version id c (D.pages (psd_ (st ws))) = Some v ∧ version_ok H num c v.
Proof.
  intros Hid. destruct (tr_snap _ _ _ _ _ _ _ _ _ _ Htr) as [Hm Hc]. destruct (snapshot_versions H num mx' blocks ws _ m tr_inv Hm Hc id Hid) as (v & Hv & _).
  exists v. split; [done|]. destruct (D.version_in _ _ _ _ Hv) as (Hin & _ & Hvc). destruct (inv_versions _ _ _ _ _ tr_inv v Hin) as (? & ? & ? & ?).
  split_and!; try done; lia.
Qed.

Lemma tr_bounds : 2 <= num ∧ 0 <= k < 2 ^ 64 ∧ (0 < c < 2 ^ 64 ∧ c <= last ws) ∧ k < c.
Proof.
  destruct (reach_params _ _ _ _ _ (tr_reach _ _ _ _ _ _ _ _ _ _ Htr)) as [Hn _]. pose proof (tr_waiting _ _ _ _ _ _ _ _ _ _ Htr) as Hw.
  destruct (so_last _ _ _ _ (w_store _ _ _ _ _ _ Hw)) as [_ Hk]. pose proof (w_new _ _ _ _ _ _ Hw).
  destruct (desc_bound _ _ _ _ _ _ _ tr_inv (tr_desc _ _ _ _ _ _ _ _ _ _ Htr)). lia.
Qed.

Lemma tr_elems : Forall (elem_ok k) es ∧ StronglySorted earlier es ∧ Z.of_nat (length es) <= num.
Proof.
  destruct tr_bounds as (Hn & Hk & Hc & _). split_and!.
  - by apply (es_ok H num c k (st ws) Hc Hnum Hlen Hnz tr_versions).
  - apply (es_sorted H num c k (st ws) tr_versions). lia.
  - apply (es_length num c k (st ws)). lia.
Qed.

Lemma tr_view : view (enc_vblock k es) k es ∧ checkStructureOfVirtualBlock (enc_vblock k es) (vbSize es) = Ok true.
Proof.
  destruct tr_bounds as (Hn & Hk & Hc & _), tr_elems as (H1 & H2 & H3).
  assert (sizeofHeader + Z.of_nat (length es) * elementSize < 2 ^ 32) by (change elementSize with 4140; change sizeofHeader with 12; lia).
  split; [by apply view_enc|by apply structure_enc].
Qed.

Lemma tr_create malloc pedantic : (∀ n, 0 <= n → Z.of_nat (length (malloc n)) = n) →
  createVBlock malloc pedantic (st ws) (mkDescV c k) = Ok (enc_vblock k es).
Proof.
  intros Hmal. destruct tr_bounds as (Hn & Hk & Hc & _). destruct (inv_conf _ _ _ _ _ tr_inv) as [_ _ Hs (Hnn & _) _ _].
  apply (createVBlock_post H num c k (st ws) Hs Hnn (inv_ordered _ _ _ _ _ tr_inv) Hc (proj1 Hk) Hnum Hlen Hnz tr_versions); [lia|done|apply Hk|].
  apply bool_decide_eq_true_2. rewrite (tr_desc _ _ _ _ _ _ _ _ _ _ Htr). eauto.
Qed.

Lemma tr_check : checkVirtualBlockOfResPages H s (D.digestOfResPagesDescriptor cp) (enc_vblock k es) (vbSize es) = Ok true.
Proof.
  destruct tr_bounds as (Hn & Hk & Hc & _). pose proof (tr_waiting _ _ _ _ _ _ _ _ _ _ Htr) as Hw.
  destruct (inv_desc _ _ _ _ _ tr_inv _ _ (tr_desc _ _ _ _ _ _ _ _ _ _ Htr)) as (_ & _ & -> & _).
  apply (check_created H num c k (st ws) Hc (proj1 Hk) Hnum Hlen Hnz tr_versions Hn s (w_store _ _ _ _ _ _ Hw) (w_num _ _ _ _ _ _ Hw)). apply Htr.
Qed.

Lemma tr_complete : ∃ s', completeFetch s (enc_vblock k es) = Ok s' ∧ completed H num s' c (D.pages (psd_ (st ws))).
Proof.
  destruct tr_bounds as (Hn & Hk & Hc & _), tr_view as [Hv _]. pose proof (tr_waiting _ _ _ _ _ _ _ _ _ _ Htr) as Hw.
  assert (Hin : ∀ e, e ∈ es → 0 <= pageId e < num ∧ pageDigest e = computeDigestOfPage H (pageId e) (checkpointNumber e) (page e)).
  { intros e He. destruct (updated_in H num c k (st ws) tr_versions _ e (ids_range num) He) as [Hid Hee]. split; [done|].
    by destruct (elemOf_spec H num c k (st ws) tr_versions _ e Hid Hee) as (_ & _ & ? & _). }
  apply (completeFetch_post H num Hn Hlen Hinj mx Hmx s k cp _ es _ (last ws) Hw Hv).
  - intros e He. by apply Hin.
  - intros e He. by apply Hin.
  - intros v. apply (inv_versions _ _ _ _ _ tr_inv).
  - intros id Hid. destruct (tr_versions id Hid) as (v & -> & _). eauto.
  - f_equal. apply (patched H num c k (st ws) (proj1 Hk) tr_versions Hn s (w_store _ _ _ _ _ _ Hw)). apply Htr.
Qed.
End transfer.

(** ** Pages that do not exist *)
Lemma findElem_app id es x : pageId x ≠ id → findElem id (es ++ [x]) = findElem id es.
Proof. intros Hx. induction es as [|e es IH]; cbn; [by rewrite (proj2 (Z.eqb_neq _ _) Hx)|]. by destruct (pageId e =? id). Qed.

(** A virtual block that passes the checks passes them also with one more element for a page that does not exist, whatever
    the page holds.  Once it is installed, making the descriptor of a checkpoint writes past the end of its array. *)
Theorem unknown_page_accepted H num s k dg es x c :
  2 <= num < 65535 → store_ok H num (psd_ s) k → numberOfReservedPages_ s = num → 0 < k <= c →
  Forall (elem_ok k) es → StronglySorted earlier es → (∀ e, e ∈ es → pageId e < num) →
  elem_ok k x → pageId x = num → checkpointNumber x <= c → pageDigest x = computeDigestOfPage H (pageId x) (checkpointNumber x) (page x) →
  checkVirtualBlockOfResPages H s dg (enc_vblock k es) (vbSize es) = Ok true →
  checkVirtualBlockOfResPages H s dg (enc_vblock k (es ++ [x])) (vbSize (es ++ [x])) = Ok true ∧
  ∃ d, installPages (enc_vblock k (es ++ [x])) (psd_ s) = Ok d ∧ D.getResPagesDescriptor d c = Err OutOfBounds.
Proof.
  intros Hn Hs Hsn Hk Hok Hsort Hids Hx Hxid Hxc Hxd Hcheck. pose proof (so_last _ _ _ _ Hs) as [Hlast Hk64].
  assert (Hel : Z.of_nat (length es) <= num) by (apply (elems_count k); done || lia).
  assert (Hok' : Forall (elem_ok k) (es ++ [x])) by (apply Forall_app; split; [done|by constructor]).
  assert (Hsort' : StronglySorted earlier (es ++ [x])).
  { apply StronglySorted_app_2; [|done|repeat constructor]. intros e e' He ->%list_elem_of_singleton. unfold earlier. rewrite Hxid. by apply Hids. }
  assert (Hfit : sizeofHeader + Z.of_nat (length es) * elementSize < 2 ^ 32) by (change elementSize with 4140; change sizeofHeader with 12; lia).
  assert (Hfit' : sizeofHeader + Z.of_nat (length (es ++ [x])) * elementSize < 2 ^ 32) by (rewrite length_app; cbn; change elementSize with 4140; change sizeofHeader with 12; lia).
  pose proof (view_enc k es Hk64 Hok Hsort Hfit) as Hv. pose proof (view_enc k _ Hk64 Hok' Hsort' Hfit') as Hv'.
  rewrite (check_view H num ltac:(lia) s k _ _ dg es Hs Hsn Hv) in Hcheck by (by apply structure_enc). case_bool_decide as Hd; [|done].
  rewrite (check_view H num ltac:(lia) s k _ _ dg _ Hs Hsn Hv') by (by apply structure_enc). split.
  - rewrite bool_decide_eq_true_2.
    + apply (checkDigests_from H k _ _ _ ltac:(lia) Hv' 0); [lia|]. intros e [He|He]%elem_of_app; [|by apply list_elem_of_singleton in He as ->].
      apply list_elem_of_lookup in He as [j Hj]. pose proof (lookup_lt_Some _ _ _ Hj). apply (checkDigests_spec H _ _ 0 Hcheck j e); [lia|]. by apply (view_get _ _ _ Hv).
    + rewrite <- Hd. f_equal. apply list_fmap_ext. intros j y Hy. destruct (lastDesc_inv H num ltac:(lia) _ _ _ _ Hs Hy) as (Hb & Hid & _).
      unfold patch. rewrite findElem_app; [done|]. lia.
  - destruct (setElems_spec k (es ++ [x]) (psd_ s) Hsort' Hok' (so_size _ _ _ _ Hs) (so_ordered _ _ _ _ Hs)) as (l & Hf & Ho & _ & Hver).
    { intros v e Hin _ _. destruct (so_versions _ _ _ _ Hs v Hin) as (_ & ? & _). lia. }
    exists (D.set_pages (psd_ s) (D.pendingPages (psd_ s)) l). split.
    + unfold installPages. rewrite (view_number _ _ _ Hv'). cbn [mbind res_bind]. rewrite (install_elements _ (es ++ [x]) 0); [done|].
      intros i e Hi. rewrite Z.add_0_l. by apply (view_get _ _ _ Hv').
    + unfold D.getResPagesDescriptor. cbn [D.numberOfReservedPages_ D.set_pages D.pages]. rewrite (so_num _ _ _ _ Hs), (proj2 (Z.ltb_lt 0 num)), (proj2 (Z.leb_le 1 c)) by lia.
      cbn [Assert mbind res_bind]. rewrite D.describe_overflow; [done|done|lia|]. intros id Hid. rewrite Hver. destruct (decide (id = num)) as [-> |Hne].
      * rewrite (findElem_elem num _ x Hsort'); [|apply elem_of_app; right; left|done]. rewrite (proj2 (Z.leb_le _ c) Hxc). eauto.
      * assert (is_Some (D.version id c (D.pages (psd_ s)))) as Hsome.
        { rewrite (D.version_after id k c); [apply (so_all _ _ _ _ Hs); lia| |lia]. intros v Hin. destruct (so_versions _ _ _ _ Hs v Hin) as (_ & ? & _). lia. }
        destruct (findElem id (es ++ [x])) as [e|]; [|done]. by destruct (_ <=? c).
Qed.

(** ** Examples *)

(** The store of a replica that does not fetch. *)
Lemma reach_store_ok H num mx blocks w : reach H num mx blocks w → last w < 2 ^ 64 → store_ok H num (psd_ (st w)) (last w).
Proof.
  intros Hr Hl. pose proof (reach_inv _ _ _ _ _ Hr) as Hi. destruct (reach_params _ _ _ _ _ Hr) as [_ Hx].
  destruct (inv_conf _ _ _ _ _ Hi) as [_ _ Hs (_ & Hn & _) _ _]. destruct (inv_stored _ _ _ _ _ Hi) as [H0 Hf].
  constructor; try done; [apply Hi|apply Hi|]. intros id Hpos Hid. destruct (inv_last _ _ _ _ _ Hi ltac:(lia)) as [m Hm].
  destruct (inv_snaps _ _ _ _ _ Hi _ m Hm) as [_ Hsn]. destruct (Hsn ltac:(lia) id Hid) as (v & -> & _). eauto.
Qed.

(** A replica without checkpoints that starts to collect state and finds out about [cp]. *)
Lemma fresh_waiting H num mx blocks w cp : reach H num mx blocks w → last w = 0 → 0 < D.checkpointNum cp < 2 ^ 64 →
  ∃ s d, startCollectingState (st w) = Ok s ∧ D.setCheckpointBeingFetched (psd_ s) cp = Ok d ∧ waiting H num mx (with_psd s d) 0 cp.
Proof.
  intros Hr Hl Hcp. pose proof (reach_inv _ _ _ _ _ Hr) as Hi. pose proof (reach_store_ok _ _ _ _ _ Hr ltac:(lia)) as Hst. rewrite Hl in Hst.
  destruct (inv_conf _ _ _ _ _ Hi) as [Hrun (Hf & Hb & Hfr & Hlr) Hs (Hn & Hn' & _) (Hx & Hx' & _) _].
  unfold startCollectingState, isFetching, D.getIsFetchingState. rewrite Hrun, Hf. cbn [negb Assert mbind res_bind]. eexists _, _. split; [done|].
  unfold D.setCheckpointBeingFetched. cbn. rewrite Hb. rewrite (bool_decide_eq_true_2 (None = None)) by done. cbn [Assert mbind res_bind].
  rewrite (proj2 (Z.eqb_neq _ 0)) by lia. split; [done|]. constructor; cbn; try done; [by destruct Hst|].
  intros c d Hd. pose proof (desc_bound _ _ _ _ _ c d Hi Hd) as Hbd. destruct (inv_desc _ _ _ _ _ Hi c d Hd) as (? & _). split; [done|lia].
Qed.

Lemma ex_hash_length x : length (ex_hash x) = Z.to_nat DIGEST_SIZE.
Proof. done. Qed.

Lemma ex_hash_nonzero x : ex_hash x ≠ zeroDigest.
Proof. intros [=]. Qed.

(** A new replica fetches the last checkpoint of another one. *)
Lemma fresh_transfer ws c m : reach ex_hash 3 2 ex_blocks ws → last ws = c → 0 < c < 2 ^ 64 → snaps (ghost ws) !! c = Some m →
  ∃ s cp, transfer ex_hash 3 2 2 ex_blocks ws s 0 cp m ∧ D.checkpointNum cp = c.
Proof.
  intros R L Hpos S. pose proof (reach_inv _ _ _ _ _ R) as Hi.
  destruct (stored_desc _ _ _ _ _ c Hi ltac:(by rewrite S) ltac:(lia)) as (cp & Hd & (Hc & _)).
  destruct (boot_reach ex_hash 3 2 ex_blocks ex_app false _ _ _ _ ex_params) as (s0 & R0 & L0).
  destruct (fresh_waiting _ _ _ _ _ cp R0 L0 ltac:(lia)) as (s & d & _ & _ & Hw). exists (with_psd s d), cp.
  split; [|done]. constructor; [done|by rewrite Hc; split; [|lia]|by rewrite Hc|done|].
  intros id v Hid Hv Hle. destruct (D.version_in _ _ _ _ Hv) as (Hin & _). destruct (inv_versions _ _ _ _ _ Hi v Hin) as (_ & ? & _). lia.
Qed.

(** The replica of [ex_run] is the source. *)
Lemma ex_transfer : ∃ ws s cp m, transfer ex_hash 3 2 2 ex_blocks ws s 0 cp m ∧ D.checkpointNum cp = 2.
Proof.
  destruct (ex_run ex_hash) as (ws & R & L & G). pose proof (ex_snap ws 2 G ltac:(by right)) as S.
  destruct (fresh_transfer ws 2 _ R L ltac:(lia) S) as (s & cp & Htr & Hc). eauto 10.
Qed.

(** The block that the source makes. *)
Lemma ex_block ws s cp m : transfer ex_hash 3 2 2 ex_blocks ws s 0 cp m → ∃ vb vbSize,
  ints_ok vb ∧ (∀ i e, 0 <= i → getVirtualElement i vb = Ok e → pageId e < 3) ∧
  checkVirtualBlockOfResPages ex_hash s (D.digestOfResPagesDescriptor cp) vb vbSize = Ok true.
Proof.
  intros Htr. destruct (tr_elems ex_hash 3 2 2 ex_blocks ws s 0 cp m ex_hash_length ex_hash_nonzero ltac:(lia) Htr) as (E1 & E2 & E3).
  set (es := updatedElems _ _ _ _) in *.
  assert (Hfit : sizeofHeader + Z.of_nat (length es) * elementSize < 2 ^ 32) by (change elementSize with 4140; change sizeofHeader with 12; lia).
  pose proof (view_enc 0 es ltac:(lia) E1 E2 Hfit) as Hv. exists (enc_vblock 0 es), (vbSize es). split_and!.
  - by apply ints_enc.
  - intros i e Hi He. unfold getVirtualElement in He. rewrite (view_number _ _ _ Hv) in He. cbn [mbind res_bind] in He. apply assert_bind_ok in He as [Hlt%Z.ltb_lt He].
    destruct (lookup_lt_is_Some_2 es (Z.to_nat i) ltac:(lia)) as [e' He']. pose proof (read_enc 0 es ltac:(lia) E1 Hfit _ _ He') as Hr.
    rewrite Z2Nat.id in Hr by lia. rewrite Hr in He. injection He as <-.
    destruct (updated_in ex_hash 3 _ 0 (st ws) (tr_versions _ _ _ _ _ _ _ _ _ _ Htr) _ e' (ids_range 3) (list_elem_of_lookup_2 _ _ _ He')) as [Hb _]. lia.
  - by apply (tr_check ex_hash 3 2 2 ex_blocks ws s 0 cp m ex_hash_length ex_hash_nonzero).
Qed.

Lemma virtualBlock_sound_witness : ∃ ws s cp m vb s', reach ex_hash 3 2 ex_blocks ws ∧ snaps (ghost ws) !! D.checkpointNum cp = Some m ∧
  completeFetch s vb = Ok s' ∧ ∃ p, m !! 1 = Some p ∧ load s' 1 4 = Ok (take (Z.to_nat 4) p).
Proof.
  destruct ex_transfer as (ws & s & cp & m & Htr & Hcp). destruct (tr_snap _ _ _ _ _ _ _ _ _ _ Htr) as [Hm Hc].
  destruct (ex_block ws s cp m Htr) as (vb & vbSize & Hints & Hids & Hcheck).
  destruct (virtualBlock_sound ex_hash 3 2 2 ex_blocks ws s 0 cp m vb vbSize ex_hash_length ex_hash_inj ltac:(lia)
    (tr_reach _ _ _ _ _ _ _ _ _ _ Htr) Hm Hc (tr_desc _ _ _ _ _ _ _ _ _ _ Htr) (tr_waiting _ _ _ _ _ _ _ _ _ _ Htr) Hints Hids Hcheck) as (s' & Hs' & _ & _ & Hl).
  exists ws, s, cp, m, vb, s'. split_and!; [apply Htr|done|done|]. apply Hl; [lia|]. unfold kSizeOfReservedPage. lia.
Defined.

(** The replica of [ex_run] takes a block with a page 3, although it has 3 pages. *)
Definition ex_extra : ElementOfVirtualBlock := mkElem 3 3 (computeDigestOfPage ex_hash 3 3 (padded [9])) (padded [9]).

Lemma unknown_page_accepted_witness : ∃ w dg, reach ex_hash 3 2 ex_blocks w ∧
  checkVirtualBlockOfResPages ex_hash (st w) dg (enc_vblock 2 [ex_extra]) (vbSize [ex_extra]) = Ok true ∧
  ∃ d, installPages (enc_vblock 2 [ex_extra]) (psd_ (st w)) = Ok d ∧ D.getResPagesDescriptor d 3 = Err OutOfBounds.
Proof.
  destruct (ex_run ex_hash) as (w & R & L & G). exists w, (computeDigestOfPagesDescriptor ex_hash (lastDesc 3 (psd_ (st w)) 2)). split; [done|].
  pose proof (reach_store_ok _ _ _ _ _ R ltac:(lia)) as Hs. rewrite L in Hs.
  pose proof (proj1 (conf_num _ _ _ (inv_conf _ _ _ _ _ (reach_inv _ _ _ _ _ R)))) as Hn.
  assert (Hx : elem_ok 2 ex_extra) by (constructor; cbn -[padded]; [lia|lia|split; [done|apply ex_hash_nonzero]|by apply length_padded]).
  assert (Hv : view (enc_vblock 2 []) 2 []) by (apply view_enc; (done || constructor)).
  apply (unknown_page_accepted ex_hash 3 (st w) 2 _ [] ex_extra 3); [lia|done|done|lia|constructor|constructor|intros e He; by apply elem_of_nil in He|done|done|cbn; lia|done|].
  rewrite (check_view ex_hash 3 ltac:(lia) (st w) 2 _ _ _ [] Hs Hn Hv) by (apply structure_enc; (done || constructor)).
  rewrite bool_decide_eq_true_2; [done|]. f_equal. apply (patch_none [] 0); [by apply (lastDesc_indexed ex_hash 3)|]. intros e He. by apply elem_of_nil in He.
Defined.
End VirtualBlockProps.
