(* ===== verification/StateTransferFetch.v ===== *)
(** * Serving and receiving items
    (bftengine/src/bcstatetransfer/BCStateTran.cpp, Messages.hpp)

    The source side of fetching: the handlers of [FetchBlocksMsg] and [FetchResPagesMsg],
    with the cache of virtual blocks and the check of message sequence numbers, send the
    chunks of blocks.  The requester side: the handler of [ItemDataMsg] keeps chunks in
    order and [getNextFullBlock] puts the chunks of a block together.  Times are arguments,
    the messages that are sent are results. *)
From S2P Require Import Prelude SysConsts DataStore ReservedPages BCStateTran VirtualBlock.

Module StateTransferFetch.
Import BCStateTran VirtualBlock.

Definition kMaxVBlocksInCache : Z := 28.
Definition ID_OF_VBLOCK_RES_PAGES : Z := D.UINT64_MAX.

Record ItemDataMsg := mkItem {
  requestMsgSeqNum : Z;
  blockNumber : Z;
  totalNumberOfChunksInBlock : Z;
  chunkNumber : Z;
  data : list Z;
}.
Definition dataSize (m : ItemDataMsg) : Z := Z.of_nat (length (data m)).

Record FetchBlocksMsg := mkFetchBlocks { fb_msgSeqNum : Z; firstRequiredBlock : Z; lastRequiredBlock : Z; lastKnownChunkInLastRequiredBlock : Z }.
Record FetchResPagesMsg := mkFetchPages { fp_msgSeqNum : Z; fp_lastKnown : Z; requiredCheckpointNum : Z; lastKnownChunk : Z }.
Definition sizeofFetchBlocksMsg : Z := 28.
Definition sizeofFetchResPagesMsg : Z := 28.
Definition sizeofItemDataMsg : Z := 27.

Inductive output := Item (m : ItemDataMsg) | RejectFetching (requestMsgSeqNum : Z).

Record config := mkConfig {
  maxChunkSize_ : Z;
  maxNumberOfChunksInBatch_ : Z;
  maxAcceptableMsgDelayMilli_ : Z;
  maxPendingDataFromSourceReplica_ : Z;
  maxBlockSize_ : Z;
  maxVBlockSize_ : Z;
  maxNumOfChunksInAppBlock_ : Z;
  maxNumOfChunksInVBlock_ : Z;
  pedanticChecks_ : bool;
}.

Definition calcMaxItemSize (maxBlockSize maxNumberOfPages : Z) : Z := Z.max maxBlockSize (calcMaxVBlockSize maxNumberOfPages).

Definition calcMaxNumOfChunksInBlock (maxItemSize maxBlockSize maxChunkSize : Z) (isVBlock : bool) : Z :=
  if negb isVBlock then u16 (if maxBlockSize mod maxChunkSize =? 0 then maxBlockSize / maxChunkSize else maxBlockSize / maxChunkSize + 1)
  else u16 (if maxItemSize mod maxChunkSize =? 0 then maxItemSize / maxChunkSize else maxItemSize / maxChunkSize + 1).

(** The part of the state that the source uses. *)
Record source := mkSource {
  core : t;
  cacheOfVirtualBlockForResPages : list (DescOfVBlockForResPages * list Z);
  lastMsgSeqNumOfReplicas_ : gmap Z Z;
}.

(** ** Sequence numbers *)
Definition checkValidityAndSaveMsgSeqNum (cfg : config) (milliNow : Z) (m : gmap Z Z) (replicaId msgSeqNum : Z) : option (gmap Z Z) :=
  let milliMsgTime := Z.shiftr msgSeqNum (64 - 42) in
  let diffMilli := if milliNow <? milliMsgTime then milliMsgTime - milliNow else milliNow - milliMsgTime in
  if maxAcceptableMsgDelayMilli_ cfg <? diffMilli then None
  else
    match m !! replicaId with
    | Some x => if msgSeqNum <=? x then None else Some (<[replicaId := msgSeqNum]> m)
    | None => Some (<[replicaId := msgSeqNum]> m)
    end.

(** [uniqueMsgSeqNum]: 42 bits of time and a 22 bit counter. *)
Definition uniqueMsgSeqNum (milli lastMilli lastCount : Z) : res (Z * Z * Z) :=
  let '(lm, lc) :=
    if lastMilli <? milli then (milli, 0)
    else (if lastCount =? 4194303 then u64 (lastMilli + 1) else lastMilli, u32 (lastCount + 1)) in
  let r := u64 (Z.shiftl lm (64 - 42)) in
  assert! (lc <=? 4194303) ;;
  Ok (Z.lor r lc, lm, lc).

(** ** The cache of virtual blocks *)
(** [DescOfVBlockForResPages::operator<] *)
Definition desc_lt (a b : DescOfVBlockForResPages) : bool :=
  if negb (vCheckpointNum a =? vCheckpointNum b) then vCheckpointNum a <? vCheckpointNum b
  else lastCheckpointKnownToRequester a <? lastCheckpointKnownToRequester b.

Fixpoint find_block (desc : DescOfVBlockForResPages) (l : list (DescOfVBlockForResPages * list Z)) : option (list Z) :=
  match l with [] => None | (x, vb) :: l' => if bool_decide (x = desc) then Some vb else find_block desc l' end.

Fixpoint insert_block (desc : DescOfVBlockForResPages) (vb : list Z) (l : list (DescOfVBlockForResPages * list Z)) :=
  match l with
  | [] => [(desc, vb)]
  | x :: l' => if desc_lt (x.1) desc then x :: insert_block desc vb l' else (desc, vb) :: l
  end.

Definition getVBlockFromCache (l : list (DescOfVBlockForResPages * list Z)) (desc : DescOfVBlockForResPages) : res (option (list Z)) :=
  match find_block desc l with
  | None => Ok None
  | Some vBlock =>
      k ← getLastKnown vBlock;
      assert! (lastCheckpointKnownToRequester desc =? k) ;;
      Ok (Some vBlock)
  end.

Definition setVBlockInCache (l : list (DescOfVBlockForResPages * list Z)) (desc : DescOfVBlockForResPages) (vBlock : list Z) :=
  assert! (bool_decide (find_block desc l = None)) ;;
  let l := if kMaxVBlocksInCache <=? Z.of_nat (length l) then tail l else l in
  let l := insert_block desc vBlock l in
  assert! (Z.of_nat (length l) <=? kMaxVBlocksInCache) ;;
  Ok l.

(** ** Sending chunks *)

(** The size of the last chunk and the number of chunks. *)
Definition chunks_of (cfg : config) (size : Z) : Z * Z :=
  if size mod maxChunkSize_ cfg =? 0 then (maxChunkSize_ cfg, size / maxChunkSize_ cfg)
  else (size mod maxChunkSize_ cfg, size / maxChunkSize_ cfg + 1).

Definition makeChunk (cfg : config) (seqNum block : Z) (raw : list Z) (sizeOfLastChunk numOfChunks nextChunk : Z) : res ItemDataMsg :=
  let chunkSize := if nextChunk <? numOfChunks then maxChunkSize_ cfg else sizeOfLastChunk in
  assert! (0 <? chunkSize) ;;
  chunk ← get_bytes raw (u32 ((nextChunk - 1) * maxChunkSize_ cfg)) chunkSize;
  Ok (mkItem seqNum block (u16 numOfChunks) nextChunk chunk).

(** [n] more chunks can be sent in the batch, after this one [n - 1]. *)
Fixpoint sendVBlock (cfg : config) (seqNum : Z) (vblock : list Z) (sizeOfLastChunk numOfChunks : Z) (n : nat) (nextChunk : Z) : res (list output) :=
  match n with
  | O => Ok []
  | S n' =>
      m ← makeChunk cfg seqNum ID_OF_VBLOCK_RES_PAGES vblock sizeOfLastChunk numOfChunks nextChunk;
      r ← (match n' with
           | O => Ok []
           | _ => if u16 (nextChunk + 1) <=? numOfChunks then sendVBlock cfg seqNum vblock sizeOfLastChunk numOfChunks n' (u16 (nextChunk + 1)) else Ok []
           end);
      Ok (Item m :: r)
  end.

Fixpoint sendBlocks (cfg : config) (as_ : IAppState) (seqNum first nextBlock : Z) (raw : list Z) (sizeOfLastChunk numOfChunks : Z) (n : nat) (nextChunk : Z) :
    res (list output) :=
  match n with
  | O => Ok []
  | S n' =>
      m ← makeChunk cfg seqNum nextBlock raw sizeOfLastChunk numOfChunks nextChunk;
      r ← (match n' with
           | O => Ok []
           | _ =>
               if u16 (nextChunk + 1) <=? numOfChunks
               then sendBlocks cfg as_ seqNum first nextBlock raw sizeOfLastChunk numOfChunks n' (u16 (nextChunk + 1))
               else if nextBlock - 1 <? first then Ok []
               else
                 let raw := getBlock as_ (nextBlock - 1) in
                 assert! (0 <? Z.of_nat (length raw)) ;;
                 let '(lastSize, num) := chunks_of cfg (Z.of_nat (length raw)) in
                 sendBlocks cfg as_ seqNum first (nextBlock - 1) raw lastSize num n' 1
           end);
      Ok (Item m :: r)
  end.

Definition batch (cfg : config) : nat := Z.to_nat (Z.max 1 (maxNumberOfChunksInBatch_ cfg)).

Definition onFetchBlocksMsg (cfg : config) (as_ : IAppState) (milliNow : Z) (s : source) (m : FetchBlocksMsg) (msgLen replicaId : Z) :
    res (source * list output) :=
  if (msgLen <? sizeofFetchBlocksMsg) || (fb_msgSeqNum m =? 0) || (firstRequiredBlock m =? 0) || (lastRequiredBlock m <? firstRequiredBlock m)
  then Ok (s, [])
  else
    match checkValidityAndSaveMsgSeqNum cfg milliNow (lastMsgSeqNumOfReplicas_ s) replicaId (fb_msgSeqNum m) with
    | None => Ok (s, [])
    | Some seqs =>
        let s := mkSource (core s) (cacheOfVirtualBlockForResPages s) seqs in
        fs ← getFetchingState (core s);
        if negb (bool_decide (fs = NotFetching)) || (getLastReachableBlockNum as_ <? lastRequiredBlock m)
        then Ok (s, [RejectFetching (fb_msgSeqNum m)])
        else
          let raw := getBlock as_ (lastRequiredBlock m) in
          assert! (0 <? Z.of_nat (length raw)) ;;
          let '(sizeOfLastChunk, numOfChunksInNextBlock) := chunks_of cfg (Z.of_nat (length raw)) in
          let nextChunk := u16 (lastKnownChunkInLastRequiredBlock m + 1) in
          if numOfChunksInNextBlock <? nextChunk then Ok (s, [])
          else
            outs ← sendBlocks cfg as_ (fb_msgSeqNum m) (firstRequiredBlock m) (lastRequiredBlock m) raw sizeOfLastChunk numOfChunksInNextBlock (batch cfg) nextChunk;
            Ok (s, outs)
    end.

(** The block of the cache, made when it is not there. *)
Definition findVBlock (malloc : Z → list Z) (cfg : config) (s : source) (desc : DescOfVBlockForResPages) : res (source * list Z) :=
  vblock ← getVBlockFromCache (cacheOfVirtualBlockForResPages s) desc;
  match vblock with
  | Some vb => Ok (s, vb)
  | None =>
      vb ← createVBlock malloc (pedanticChecks_ cfg) (core s) desc;
      l ← setVBlockInCache (cacheOfVirtualBlockForResPages s) desc vb;
      assert! (Z.of_nat (length l) <=? kMaxVBlocksInCache) ;;
      Ok (mkSource (core s) l (lastMsgSeqNumOfReplicas_ s), vb)
  end.

Definition onFetchResPagesMsg (malloc : Z → list Z) (cfg : config) (milliNow : Z) (s : source) (m : FetchResPagesMsg) (msgLen replicaId : Z) :
    res (source * list output) :=
  if (msgLen <? sizeofFetchResPagesMsg) || (fp_msgSeqNum m =? 0) || (requiredCheckpointNum m =? 0) then Ok (s, [])
  else
    match checkValidityAndSaveMsgSeqNum cfg milliNow (lastMsgSeqNumOfReplicas_ s) replicaId (fp_msgSeqNum m) with
    | None => Ok (s, [])
    | Some seqs =>
        let s := mkSource (core s) (cacheOfVirtualBlockForResPages s) seqs in
        fs ← getFetchingState (core s);
        if negb (bool_decide (fs = NotFetching)) || negb (D.hasCheckpointDesc (psd_ (core s)) (requiredCheckpointNum m))
        then Ok (s, [RejectFetching (fp_msgSeqNum m)])
        else
          '(s, vblock) ← findVBlock malloc cfg s (mkDescV (requiredCheckpointNum m) (fp_lastKnown m));
          vblockSize ← getSizeOfVirtualBlock vblock;
          assert! (sizeofHeader <? vblockSize) ;;
          b ← checkStructureOfVirtualBlock vblock vblockSize;
          assert! b ;;
          let '(sizeOfLastChunk, numOfChunksInVBlock) := chunks_of cfg vblockSize in
          let nextChunk := u16 (lastKnownChunk m + 1) in
          if numOfChunksInVBlock <? nextChunk then Ok (s, [])
          else
            outs ← sendVBlock cfg (fp_msgSeqNum m) vblock sizeOfLastChunk numOfChunksInVBlock (batch cfg) nextChunk;
            Ok (s, outs)
    end.

(** ** Receiving chunks *)
Record pending := mkPending { pendingItemDataMsgs : list ItemDataMsg; totalSizeOfPendingItemDataMsgs : Z }.

(** [compareItemDataMsg] *)
Definition item_lt (l r : ItemDataMsg) : bool :=
  if negb (blockNumber l =? blockNumber r) then blockNumber r <? blockNumber l else chunkNumber l <? chunkNumber r.

(** [pendingItemDataMsgs.insert(m)]: nothing for an equivalent message. *)
Fixpoint insert_item (m : ItemDataMsg) (l : list ItemDataMsg) : option (list ItemDataMsg) :=
  match l with
  | [] => Some [m]
  | x :: l' => if item_lt x m then cons x <$> insert_item m l' else if item_lt m x then Some (m :: l) else None
  end.

Definition clearAllPendingItemsData (p : pending) : pending := mkPending [] 0.

Fixpoint dropUntil (l : list ItemDataMsg) (total untilBlock : Z) : res pending :=
  match l with
  | [] => Ok (mkPending [] total)
  | x :: l' =>
      if untilBlock <=? blockNumber x then assert! (dataSize x <=? total) ;; dropUntil l' (total - dataSize x) untilBlock
      else Ok (mkPending l total)
  end.

Definition clearPendingItemsData (p : pending) (untilBlock : Z) : res pending :=
  if untilBlock =? 0 then Ok p else dropUntil (pendingItemDataMsgs p) (totalSizeOfPendingItemDataMsgs p) untilBlock.

(** What the requester waits for, and from whom. *)
Record expecting := mkExpecting { currentSourceReplica_ : Z; lastMsgSeqNum_ : Z; x_firstRequired : Z; x_lastRequired : Z; preferredReplicas_ : gset Z }.

(** The part of the handler before [processData]: [None] when the message is dropped. *)
Definition onItemDataMsg (cfg : config) (fs : FetchingState) (x : expecting) (p : pending) (m : ItemDataMsg) (msgLen replicaId : Z) : res (option pending) :=
  assert! (bool_decide (fs = GettingMissingBlocks) || bool_decide (fs = GettingMissingResPages)) ;;
  let maxNumOfChunksInBlock := if bool_decide (fs = GettingMissingBlocks) then maxNumOfChunksInAppBlock_ cfg else maxNumOfChunksInVBlock_ cfg in
  if (msgLen <? u32 (sizeofItemDataMsg - 1 + dataSize m)) || (requestMsgSeqNum m =? 0) || (blockNumber m =? 0) || (totalNumberOfChunksInBlock m =? 0) ||
     (maxNumOfChunksInBlock <? totalNumberOfChunksInBlock m) || (chunkNumber m =? 0) || (dataSize m =? 0)
  then Ok None
  else
    irrelevant ← (if bool_decide (fs = GettingMissingBlocks) then
        Ok (negb (currentSourceReplica_ x =? replicaId) || negb (requestMsgSeqNum m =? lastMsgSeqNum_ x) || (x_lastRequired x <? blockNumber m) ||
            (blockNumber m <? x_firstRequired x) || (u64 (blockNumber m + maxNumberOfChunksInBatch_ cfg + 1) <? x_lastRequired x) ||
            (maxPendingDataFromSourceReplica_ cfg <? u32 (dataSize m + totalSizeOfPendingItemDataMsgs p)))
      else
        assert! (x_firstRequired x =? 0) ;;
        assert! (x_lastRequired x =? 0) ;;
        Ok (negb (currentSourceReplica_ x =? replicaId) || negb (requestMsgSeqNum m =? lastMsgSeqNum_ x) ||
            negb (blockNumber m =? ID_OF_VBLOCK_RES_PAGES) ||
            (maxPendingDataFromSourceReplica_ cfg <? u32 (dataSize m + totalSizeOfPendingItemDataMsgs p))));
    if irrelevant : bool then Ok None
    else
      assert! (bool_decide (replicaId ∈ preferredReplicas_ x)) ;;
      match insert_item m (pendingItemDataMsgs p) with
      | None => Ok None
      | Some l => Ok (Some (mkPending l (u32 (totalSizeOfPendingItemDataMsgs p + dataSize m))))
      end.

(** The first loop of [getNextFullBlock]. *)
Inductive scan := BadData | Partial (maxAvailableChunk : Z) | FullBlock (totalNumberOfChunks : Z).

Fixpoint scanChunks (maxSize requiredBlock : Z) (l : list ItemDataMsg) (total maxAvailableChunk blockSize : Z) : res scan :=
  match l with
  | [] => Ok (Partial maxAvailableChunk)
  | msg :: l' =>
      if negb (blockNumber msg =? requiredBlock) then Ok (Partial maxAvailableChunk)
      else
        assert! (0 <? totalNumberOfChunksInBlock msg) ;;
        assert! (1 <=? chunkNumber msg) ;;
        let total := if total =? 0 then totalNumberOfChunksInBlock msg else total in
        let blockSize := u32 (blockSize + dataSize msg) in
        if negb (total =? totalNumberOfChunksInBlock msg) || (total <? chunkNumber msg) || (maxSize <? blockSize) then Ok BadData
        else if maxAvailableChunk + 1 <? chunkNumber msg then Ok (Partial maxAvailableChunk)
        else
          assert! (maxAvailableChunk + 1 =? chunkNumber msg) ;;
          assert! (chunkNumber msg <=? total) ;;
          if chunkNumber msg =? total then Ok (FullBlock total) else scanChunks maxSize requiredBlock l' total (chunkNumber msg) blockSize
  end.

(** The second loop: it erases the chunks and copies them. *)
Fixpoint buildBlock (maxSize requiredBlock total : Z) (l : list ItemDataMsg) (pendingSize currentChunk : Z) (out : list Z) : res (pending * list Z) :=
  match l with
  | [] => Err AssertFailed
  | msg :: l' =>
      assert! (blockNumber msg =? requiredBlock) ;;
      assert! (1 <=? chunkNumber msg) ;;
      assert! (totalNumberOfChunksInBlock msg =? total) ;;
      assert! (currentChunk + 1 =? chunkNumber msg) ;;
      assert! (u32 (Z.of_nat (length out) + dataSize msg) <=? maxSize) ;;
      let out := out ++ data msg in
      let pendingSize := u32 (pendingSize - dataSize msg) in
      if chunkNumber msg =? total then Ok (mkPending l' pendingSize, out)
      else buildBlock maxSize requiredBlock total l' pendingSize (chunkNumber msg) out
  end.

(** Result: the new block, if any, [outBadDataDetected] and [outLastChunkInRequiredBlock]. *)
Definition getNextFullBlock (cfg : config) (p : pending) (requiredBlock : Z) (isVBlock : bool) : res (pending * option (list Z) * bool * Z) :=
  assert! (1 <=? requiredBlock) ;;
  let maxSize := if isVBlock then maxVBlockSize_ cfg else maxBlockSize_ cfg in
  p ← clearPendingItemsData p (u64 (requiredBlock + 1));
  r ← scanChunks maxSize requiredBlock (pendingItemDataMsgs p) 0 0 0;
  match r with
  | BadData => Ok (p, None, true, 0)
  | Partial c => Ok (p, None, false, i16 c)
  | FullBlock total =>
      '(p, block) ← buildBlock maxSize requiredBlock total (pendingItemDataMsgs p) (totalSizeOfPendingItemDataMsgs p) 0 [];
      Ok (p, Some block, false, i16 total)
  end.
End StateTransferFetch.
