(* ===== verification/StateTransferProps.v ===== *)
(** * Fetching the pages of a checkpoint (StateTransferFetch.v)

    Chunks are put together again ([StateTransferFetchFacts]), and the theorems about
    fetching ([StateTransferProps]). *)
From S2P Require Import Prelude SysConsts DataStore ReservedPages BCStateTran BCStateTranFacts BCStateTranSpec BCStateTranProps VirtualBlock VirtualBlockFacts VirtualBlockProps StateTransferFetch.

Module StateTransferFetchFacts.
Import BCStateTran VirtualBlock StateTransferFetch.

(** ** The order of the pending messages *)
Definition item_before (x y : ItemDataMsg) : Prop := item_lt x y = true.

Lemma item_lt_spec x y : item_lt x y = true ↔ blockNumber y < blockNumber x ∨ (blockNumber x = blockNumber y ∧ chunkNumber x < chunkNumber y).
Proof. unfold item_lt. destruct (Z.eqb_spec (blockNumber x) (blockNumber y)); cbn [negb]; lia. Qed.

Lemma item_lt_false x y : item_lt x y = false ↔ blockNumber x < blockNumber y ∨ (blockNumber x = blockNumber y ∧ chunkNumber y <= chunkNumber x).
Proof. unfold item_lt. destruct (Z.eqb_spec (blockNumber x) (blockNumber y)); cbn [negb]; lia. Qed.

Definition same_key (x y : ItemDataMsg) : Prop := blockNumber x = blockNumber y ∧ chunkNumber x = chunkNumber y.

Lemma insert_item_spec m l : StronglySorted item_before l → (∀ x, x ∈ l → ~ same_key x m) →
  ∃ l', insert_item m l = Some l' ∧ StronglySorted item_before l' ∧ l' ≡ₚ m :: l.
Proof.
  induction 1 as [|x l Hs IH Hx]; intros Hk; cbn [insert_item]; [by eexists; split_and!; [done|repeat constructor|done]|].
  destruct (item_lt x m) eqn:E1.
  - destruct IH as (l' & -> & Hs' & Hp); [intros y Hy; apply Hk; by right|]. exists (x :: l'). split_and!; [done| |rewrite Hp; apply Permutation_swap].
    constructor; [done|]. apply Forall_forall. intros y Hy. rewrite Hp in Hy. apply elem_of_cons in Hy as [-> |Hy]; [done|].
    rewrite Forall_forall in Hx. by apply Hx.
  - destruct (item_lt m x) eqn:E2.
    + exists (m :: x :: l). split_and!; [done| |done]. constructor; [by constructor|]. constructor; [done|]. rewrite Forall_forall in Hx. apply Forall_forall.
      intros y Hy. specialize (Hx y Hy). apply item_lt_spec in Hx, E2. apply item_lt_spec. lia.
    + exfalso. apply (Hk x); [left|]. apply item_lt_false in E1, E2. unfold same_key. lia.
Qed.

Definition insertAll (ms l : list ItemDataMsg) : option (list ItemDataMsg) := foldl (fun o m => l ← o; insert_item m l) (Some l) ms.

Lemma insertAll_spec ms : ∀ l, StronglySorted item_before l → NoDup ((fun m => (blockNumber m, chunkNumber m)) <$> ms ++ l) →
  ∃ l', insertAll ms l = Some l' ∧ StronglySorted item_before l' ∧ l' ≡ₚ ms ++ l.
Proof.
  induction ms as [|m ms IH]; intros l Hs Hnd; [by exists l|]. cbn in Hnd. apply NoDup_cons in Hnd as [Hm Hnd].
  destruct (insert_item_spec m l Hs) as (l1 & E & Hs1 & Hp1).
  { intros x Hx [Hb Hc]. apply Hm. apply list_elem_of_fmap. exists x. split; [by rewrite Hb, Hc|]. apply elem_of_app. by right. }
  unfold insertAll. cbn [foldl mbind option_bind]. rewrite E. destruct (IH l1 Hs1) as (l' & El & Hs' & Hp').
  { rewrite Hp1. rewrite <- (Permutation_middle ms l m). cbn. by constructor. }
  exists l'. split_and!; [done|done|]. rewrite Hp', Hp1. by rewrite <- (Permutation_middle ms l m).
Qed.

(** ** Chunks of a block *)
Section chunks.
Context (cfg : config) (seqNum block : Z) (raw : list Z).
#[local] Abbreviation max := (maxChunkSize_ cfg).
#[local] Abbreviation size := (Z.of_nat (length raw)).
Context (Hmax : 0 < max) (Hsize : 0 < size < 2 ^ 32).

Definition numChunks : Z := (chunks_of cfg size).2.
Definition lastSize : Z := (chunks_of cfg size).1.

Lemma chunks_arith : 1 <= numChunks ∧ 0 < lastSize <= max ∧ (numChunks - 1) * max + lastSize = size.
Proof.
  unfold numChunks, lastSize, chunks_of. pose proof (Z.div_mod size max ltac:(lia)). pose proof (Z.mod_pos_bound size max Hmax).
  pose proof (Z.div_pos size max ltac:(lia) Hmax). set (q := size / max) in *. set (r := size mod max) in *.
  destruct (Z.eqb_spec r 0) as [E|E]; cbn [fst snd]; [|split_and!; nia].
  assert (q ≠ 0) by (intros ->; nia). split_and!; nia.
Qed.

Definition chunkSize (i : Z) : Z := if i <? numChunks then max else lastSize.

Definition item (i : Z) : ItemDataMsg :=
  mkItem seqNum block numChunks i (take (Z.to_nat (chunkSize i)) (drop (Z.to_nat ((i - 1) * max)) raw)).

Lemma chunk_fits i : 1 <= i <= numChunks → 0 < chunkSize i ∧ (i - 1) * max + chunkSize i <= size ∧ (i < numChunks → (i - 1) * max + chunkSize i = i * max).
Proof. pose proof chunks_arith. unfold chunkSize. intros Hi. destruct (Z.ltb_spec i numChunks); nia. Qed.

Lemma item_size i : 1 <= i <= numChunks → dataSize (item i) = chunkSize i.
Proof. intros Hi. destruct (chunk_fits i Hi) as (? & ? & _). unfold dataSize, item. cbn. rewrite length_take, length_drop. nia. Qed.

Context (Hnum : numChunks < 65535).

Lemma makeChunk_post i : 1 <= i <= numChunks → makeChunk cfg seqNum block raw lastSize numChunks i = Ok (item i).
Proof.
  intros Hi. destruct (chunk_fits i Hi) as (H1 & H2 & _). unfold makeChunk. fold (chunkSize i). rewrite (proj2 (Z.ltb_lt 0 _) H1). cbn [Assert mbind res_bind].
  rewrite u32_small by nia. 
  assert (get_bytes raw ((i - 1) * max) (chunkSize i) = Ok (data (item i))) as -> by (apply get_bytes_ok; split; [nia|done]). cbn [mbind res_bind].
  rewrite u16_small by lia. done.
Qed.

(** The chunks [j], ..., [numChunks]. *)
Definition itemsFrom (n : nat) (j : Z) : list ItemDataMsg := item <$> seqZ j (Z.of_nat n).

Lemma itemsFrom_S n j : itemsFrom (S n) j = item j :: itemsFrom n (j + 1).
Proof. unfold itemsFrom. rewrite seqZ_cons by lia. cbn. by replace (Z.pred (Z.of_nat (S n))) with (Z.of_nat n) by lia. Qed.

Lemma items_sorted n : ∀ j, StronglySorted item_before (itemsFrom n j).
Proof.
  induction n as [|n IH]; intros j; [constructor|]. rewrite itemsFrom_S. constructor; [apply IH|]. apply Forall_forall.
  intros m (i & -> & Hi%elem_of_seqZ)%list_elem_of_fmap. apply item_lt_spec. cbn. lia.
Qed.

Lemma items_keys n : ∀ j, NoDup ((fun m => (blockNumber m, chunkNumber m)) <$> itemsFrom n j).
Proof.
  induction n as [|n IH]; intros j; [constructor|]. rewrite itemsFrom_S. cbn. constructor; [|apply IH].
  intros (m & [= _ Hm] & Hin)%list_elem_of_fmap. apply list_elem_of_fmap in Hin as (i & -> & Hi%elem_of_seqZ). cbn in Hm. lia.
Qed.

(** ** Reading them back *)
Context (maxSize : Z) (Hfit : size <= maxSize < 2 ^ 32).

Lemma scan_step t a b i rest : t = 0 ∨ t = numChunks → 1 <= i <= numChunks → 0 <= b → b + chunkSize i <= maxSize → a + 1 <= i →
  scanChunks maxSize block (item i :: rest) t a b =
    if a + 1 <? i then Ok (Partial a) else if i =? numChunks then Ok (FullBlock numChunks) else scanChunks maxSize block rest numChunks i (b + chunkSize i).
Proof.
  intros Ht Hi Hb Hs Ha. destruct (chunk_fits i Hi) as (S1 & _). cbn [scanChunks blockNumber totalNumberOfChunksInBlock chunkNumber item].
  rewrite Z.eqb_refl. cbn [negb]. rewrite (proj2 (Z.ltb_lt 0 numChunks)), (proj2 (Z.leb_le 1 i)) by lia. cbn [Assert mbind res_bind].
  assert ((if t =? 0 then numChunks else t) = numChunks) as -> by (destruct (Z.eqb_spec t 0); lia).
  change (dataSize _) with (dataSize (item i)). rewrite item_size, (u32_small (b + chunkSize i)) by lia.
  rewrite Z.eqb_refl, (proj2 (Z.ltb_ge numChunks i)), (proj2 (Z.ltb_ge maxSize _)) by lia. cbn [negb orb].
  destruct (Z.ltb_spec (a + 1) i); [done|]. by rewrite (proj2 (Z.eqb_eq (a + 1) i)), (proj2 (Z.leb_le i numChunks)) by lia.
Qed.

Lemma scan_items n : ∀ j t rest, t = 0 ∨ t = numChunks → 1 <= j → j + Z.of_nat n = numChunks + 1 → n ≠ 0%nat →
  scanChunks maxSize block (itemsFrom n j ++ rest) t (j - 1) ((j - 1) * max) = Ok (FullBlock numChunks).
Proof.
  induction n as [|n IH]; intros j t rest Ht Hj Hn H0; [done|]. rewrite itemsFrom_S. cbn [app]. destruct (chunk_fits j ltac:(lia)) as (S1 & S2 & S3).
  rewrite scan_step, (proj2 (Z.ltb_ge _ j)) by (done || nia). destruct (Z.eqb_spec j numChunks) as [E|E]; [done|].
  rewrite S3 by lia. replace j with (j + 1 - 1) at 2 3 by lia. apply IH; [by right|lia|lia|lia].
Qed.

(** While a chunk is missing, the ones before the first gap are available. *)
Lemma scan_partial n : ∀ j t m, t = 0 ∨ t = numChunks → 1 <= j → j + Z.of_nat n <= numChunks → (∀ x, x ∈ m → ∃ i, x = item i ∧ j + Z.of_nat n < i <= numChunks) →
  scanChunks maxSize block (itemsFrom n j ++ m) t (j - 1) ((j - 1) * max) = Ok (Partial (j + Z.of_nat n - 1)).
Proof.
  induction n as [|n IH]; intros j t m Ht Hj Hn Hm.
  - change (itemsFrom 0 j) with (@nil ItemDataMsg). cbn [app]. replace (j + Z.of_nat 0 - 1) with (j - 1) by lia. destruct m as [|x m]; [done|].
    destruct (Hm x ltac:(left)) as (i & -> & Hi). destruct (chunk_fits i ltac:(lia)) as (S1 & S2 & _).
    by rewrite scan_step, (proj2 (Z.ltb_lt _ i)) by (done || nia).
  - rewrite itemsFrom_S. cbn [app]. destruct (chunk_fits j ltac:(lia)) as (S1 & S2 & S3).
    rewrite scan_step, (proj2 (Z.ltb_ge _ j)), (proj2 (Z.eqb_neq j numChunks)) by (done || nia).
    rewrite S3 by lia. replace j with (j + 1 - 1) at 2 3 by lia. rewrite IH; [do 2 f_equal; lia|by right|lia|lia|].
    intros x Hx. destruct (Hm x Hx) as (i & -> & Hi). exists i. split; [done|lia].
Qed.

Lemma take_chunk j : 1 <= j <= numChunks → take (Z.to_nat ((j - 1) * max)) raw ++ data (item j) = take (Z.to_nat ((j - 1) * max + chunkSize j)) raw.
Proof.
  intros Hj. destruct (chunk_fits j Hj) as (S1 & S2 & _). cbn. rewrite Z2Nat.inj_add by nia. by rewrite take_take_drop.
Qed.

Lemma build_items n : ∀ j rest pend, 1 <= j → j + Z.of_nat n = numChunks + 1 → n ≠ 0%nat →
  ∃ pend', buildBlock maxSize block numChunks (itemsFrom n j ++ rest) pend (j - 1) (take (Z.to_nat ((j - 1) * max)) raw) = Ok (mkPending rest pend', raw).
Proof.
  induction n as [|n IH]; intros j rest pend Hj Hn H0; [done|]. rewrite itemsFrom_S. cbn [app buildBlock]. destruct (chunk_fits j ltac:(lia)) as (S1 & S2 & S3).
  cbn [blockNumber totalNumberOfChunksInBlock chunkNumber item]. rewrite Z.eqb_refl. rewrite (proj2 (Z.leb_le 1 j)), Z.eqb_refl, (proj2 (Z.eqb_eq (j - 1 + 1) j)) by lia.
  cbn [Assert mbind res_bind]. 
  assert (Z.of_nat (length (take (Z.to_nat ((j - 1) * max)) raw)) = (j - 1) * max) as -> by (rewrite length_take; nia).
  rewrite item_size by lia. rewrite (u32_small ((j - 1) * max + chunkSize j)) by (split; [nia|lia]). rewrite (proj2 (Z.leb_le ((j - 1) * max + chunkSize j) maxSize)) by lia. cbn [Assert mbind res_bind]. rewrite take_chunk by lia.
  destruct (Z.eqb_spec j numChunks) as [E|E].
  - assert (n = 0%nat) as -> by lia. exists (u32 (pend - chunkSize j)). rewrite (take_ge raw); [done|]. pose proof chunks_arith. unfold chunkSize. rewrite E, Z.ltb_irrefl. nia.
  - rewrite S3 by lia. destruct (IH (j + 1) rest (u32 (pend - chunkSize j)) ltac:(lia) ltac:(lia) ltac:(lia)) as (pend' & IH').
    exists pend'. replace (j + 1 - 1) with j in IH' by lia. done.
Qed.


(** ** Sending and receiving *)
Lemma send_items n : ∀ j, block = ID_OF_VBLOCK_RES_PAGES → 1 <= j → ∀ k, (k <= n)%nat → k ≠ 0%nat → j + Z.of_nat k = numChunks + 1 →
  sendVBlock cfg seqNum raw lastSize numChunks n j = Ok (Item <$> itemsFrom k j).
Proof.
  induction n as [|n IH]; intros j Hb Hj k Hk H0 Hs; [lia|]. destruct k as [|k]; [done|]. cbn [sendVBlock]. rewrite <- Hb, makeChunk_post by lia.
  cbn [mbind res_bind]. rewrite itemsFrom_S, fmap_cons. destruct n as [|n]; [by assert (k = 0%nat) as -> by lia|].
  rewrite u16_small by lia. destruct (Z.leb_spec (j + 1) numChunks) as [H1|H1].
  - rewrite (IH (j + 1) Hb ltac:(lia) k) by lia. done.
  - by assert (k = 0%nat) as -> by lia.
Qed.

Lemma items_data n : ∀ j, 1 <= j → j + Z.of_nat n = numChunks + 1 → itemsFrom n j ≫= data = drop (Z.to_nat ((j - 1) * max)) raw.
Proof.
  pose proof chunks_arith as Hc. induction n as [|n IH]; intros j Hj Hn.
  - rewrite drop_ge; [done|]. assert (j = numChunks + 1) as -> by lia. assert (size <= numChunks * max) by nia. nia.
  - rewrite itemsFrom_S, bind_cons. destruct (chunk_fits j ltac:(lia)) as (S1 & S2 & S3). rewrite IH by lia. cbn [data item].
    destruct (decide (j = numChunks)) as [-> |E].
    + rewrite (drop_ge raw (Z.to_nat ((numChunks + 1 - 1) * max))), app_nil_r by nia. apply take_ge. rewrite length_drop. unfold chunkSize. rewrite Z.ltb_irrefl. nia.
    + replace ((j + 1 - 1) * max) with ((j - 1) * max + chunkSize j) by (rewrite S3; lia). rewrite Z2Nat.inj_add by nia.
      rewrite <- drop_drop. apply take_drop.
Qed.

(** The chunks that the handler stores, one message after the other.  The handler also calls [processData] after
    each of them; of that call only what follows when the block is full is modelled ([getNextFullBlock],
    [checkVirtualBlockOfResPages], [completeFetch]), not the requests it sends while chunks are missing. *)
Definition receiveAll (x : expecting) (rid : Z) (p : pending) (ms : list ItemDataMsg) : res pending :=
  foldM (fun p m => o ← onItemDataMsg cfg GettingMissingResPages x p m (sizeofItemDataMsg - 1 + dataSize m) rid; Ok (default p o)) p ms.

Definition awaits (x : expecting) (rid : Z) : Prop :=
  currentSourceReplica_ x = rid ∧ lastMsgSeqNum_ x = seqNum ∧ seqNum ≠ 0 ∧ x_firstRequired x = 0 ∧ x_lastRequired x = 0 ∧ rid ∈ preferredReplicas_ x.

Lemma receive_one x rid l i l' tot : block = ID_OF_VBLOCK_RES_PAGES → awaits x rid → numChunks <= maxNumOfChunksInVBlock_ cfg →
  1 <= i <= numChunks → 0 <= tot → tot + chunkSize i <= size → size <= maxPendingDataFromSourceReplica_ cfg → size < 2 ^ 32 - 26 → insert_item (item i) l = Some l' →
  onItemDataMsg cfg GettingMissingResPages x (mkPending l tot) (item i) (sizeofItemDataMsg - 1 + dataSize (item i)) rid = Ok (Some (mkPending l' (tot + chunkSize i))).
Proof.
  intros Hb (Hr & Hm & Hz & Hf & Hl & Hp) Hn Hi Ht Hs Hpend H32 Hins. destruct (chunk_fits i Hi) as (S1 & S2 & _). unfold onItemDataMsg.
  rewrite (bool_decide_eq_false_2 (GettingMissingResPages = GettingMissingBlocks)), (bool_decide_eq_true_2 (GettingMissingResPages = GettingMissingResPages)) by done.
  cbn [orb Assert mbind res_bind requestMsgSeqNum blockNumber totalNumberOfChunksInBlock chunkNumber item pendingItemDataMsgs totalSizeOfPendingItemDataMsgs].
  rewrite item_size by done. change sizeofItemDataMsg with 27. rewrite (u32_small (27 - 1 + chunkSize i)), (u32_small (chunkSize i + tot)), (u32_small (tot + chunkSize i)) by lia.
  rewrite Z.ltb_irrefl, !(proj2 (Z.eqb_neq _ 0)), (proj2 (Z.ltb_ge _ numChunks)), Hr, Hm, Hf, Hl, Z.eqb_refl by (rewrite ?Hb; done || lia).
  cbn [orb Assert mbind res_bind Z.eqb]. rewrite Z.eqb_refl, Hb, Z.eqb_refl, (proj2 (Z.ltb_ge (maxPendingDataFromSourceReplica_ cfg) _)) by lia.
  cbn [orb negb Assert mbind res_bind]. rewrite bool_decide_eq_true_2 by done. cbn [Assert mbind res_bind]. by rewrite Hins.
Qed.

Definition keys (ms : list ItemDataMsg) : list (Z * Z) := (fun m => (blockNumber m, chunkNumber m)) <$> ms.

Lemma receive_all x rid : block = ID_OF_VBLOCK_RES_PAGES → awaits x rid → numChunks <= maxNumOfChunksInVBlock_ cfg →
  size <= maxPendingDataFromSourceReplica_ cfg → size < 2 ^ 32 - 26 → ∀ ms l,
  (∀ m, m ∈ ms → ∃ i, 1 <= i <= numChunks ∧ m = item i) → NoDup (keys (ms ++ l)) → StronglySorted item_before l →
  Z.of_nat (length ((ms ++ l) ≫= data)) <= size →
  ∃ l', receiveAll x rid (mkPending l (Z.of_nat (length (l ≫= data)))) ms = Ok (mkPending l' (Z.of_nat (length (l' ≫= data)))) ∧
    StronglySorted item_before l' ∧ l' ≡ₚ ms ++ l.
Proof.
  intros Hb Hx Hn Hpend H32 ms. induction ms as [|m ms IH]; intros l Hms Hnd Hs Hlen; [by exists l|].
  destruct (Hms m ltac:(left)) as (i & Hi & ->). cbn in Hnd. apply NoDup_cons in Hnd as [Hm Hnd].
  destruct (insert_item_spec (item i) l Hs) as (l1 & E & Hs1 & Hp1).
  { intros y Hy [H1 H2]. apply Hm. apply list_elem_of_fmap. exists y. split; [by rewrite H1, H2|]. apply elem_of_app. by right. }
  assert (Hl1 : Z.of_nat (length (l1 ≫= data)) = Z.of_nat (length (l ≫= data)) + chunkSize i).
  { rewrite Hp1, bind_cons, length_app, Nat2Z.inj_add. fold (dataSize (item i)). rewrite item_size by done. lia. }
  cbn [app] in Hlen. rewrite bind_cons, length_app, Nat2Z.inj_add in Hlen. fold (dataSize (item i)) in Hlen. rewrite item_size in Hlen by done.
  assert (Hsub : Z.of_nat (length (l ≫= data)) <= Z.of_nat (length ((ms ++ l) ≫= data))) by (rewrite bind_app, length_app; lia).
  destruct (IH l1) as (l' & El & Hs' & Hp'); [intros m Hin; apply Hms; by right| |done| |].
  - unfold keys. rewrite Hp1, <- (Permutation_middle ms l (item i)). cbn. by constructor.
  - rewrite Hp1, <- (Permutation_middle ms l (item i)), bind_cons, length_app, Nat2Z.inj_add. fold (dataSize (item i)). rewrite item_size by done. lia.
  - exists l'. split_and!; [|done|by rewrite Hp', Hp1, <- (Permutation_middle ms l (item i))].
    unfold receiveAll. cbn [foldM]. rewrite (receive_one x rid l i l1) by (done || lia). cbn [mbind res_bind default]. rewrite <- Hl1. apply El.
Qed.

Lemma all_items_unique l : StronglySorted item_before l → l ≡ₚ itemsFrom (Z.to_nat numChunks) 1 → l = itemsFrom (Z.to_nat numChunks) 1.
Proof.
  intros Hs Hp. apply (StronglySorted_unique_strong item_before); [|done|apply items_sorted|done].
  intros a b _ _ H1%item_lt_spec H2%item_lt_spec. lia.
Qed.
End chunks.
End StateTransferFetchFacts.

(** * The theorems about fetching (StateTransferFetch.v, VirtualBlock.v)

    From the request of the pages of a checkpoint to the pages: a correct source answers
    with chunks, which in any order make the virtual block that the requester accepts and
    installs.  And what a request of a faulty replica does to a correct source. *)
Module StateTransferProps.
Import BCStateTran BCStateTranFacts BCStateTranSpec BCStateTranDigests BCStateTranProps VirtualBlock VirtualBlockFacts VirtualBlockCreate VirtualBlockProps StateTransferFetch StateTransferFetchFacts.

#[local] Abbreviation last w := (D.lastStoredCheckpoint (psd_ (st w))).

(** ** The cache *)
Lemma length_insert_block desc vb l : length (insert_block desc vb l) = S (length l).
Proof. induction l as [|x l IH]; [done|]. cbn. destruct (desc_lt _ _); cbn; lia. Qed.

Lemma find_tail desc l : find_block desc l = None → find_block desc (tail l) = None.
Proof. destruct l as [|[x vb] l]; [done|]. cbn. by case_bool_decide. Qed.

Lemma setVBlock_post l desc vb : find_block desc l = None → Z.of_nat (length l) <= kMaxVBlocksInCache →
  ∃ l', setVBlockInCache l desc vb = Ok l' ∧ Z.of_nat (length l') <= kMaxVBlocksInCache.
Proof.
  intros Hf Hl. unfold setVBlockInCache. rewrite bool_decide_eq_true_2 by done. cbn [Assert mbind res_bind].
  set (l1 := if _ <=? _ then tail l else l). assert (Z.of_nat (length (insert_block desc vb l1)) <= kMaxVBlocksInCache) as Hle.
  { rewrite length_insert_block. unfold l1. unfold kMaxVBlocksInCache in *. destruct (Z.leb_spec 28 (Z.of_nat (length l))); destruct l; cbn in *; lia. }
  rewrite (proj2 (Z.leb_le _ _) Hle). by eexists.
Qed.

(** ** The answer of the source *)
Section serve.
Context (malloc : Z → list Z) (Hmal : ∀ n, 0 <= n → Z.of_nat (length (malloc n)) = n) (cfg : config) (Hmax : 0 < maxChunkSize_ cfg < 2 ^ 32).

(** The request passes the checks that do not depend on what it asks for. *)
Record request_ok (now : Z) (src : source) (m : FetchResPagesMsg) (msgLen rid : Z) : Prop := {
  rq_len : sizeofFetchResPagesMsg <= msgLen;
  rq_seq : fp_msgSeqNum m ≠ 0 ∧ is_Some (checkValidityAndSaveMsgSeqNum cfg now (lastMsgSeqNumOfReplicas_ src) rid (fp_msgSeqNum m));
  rq_cache : find_block (mkDescV (requiredCheckpointNum m) (fp_lastKnown m)) (cacheOfVirtualBlockForResPages src) = None ∧
    Z.of_nat (length (cacheOfVirtualBlockForResPages src)) <= kMaxVBlocksInCache;
}.

(** What is left of the handler once the block is there. *)
Definition answer (m : FetchResPagesMsg) (vblock : list Z) : res (list output) :=
  vblockSize ← getSizeOfVirtualBlock vblock;
  assert! (sizeofHeader <? vblockSize) ;;
  b ← checkStructureOfVirtualBlock vblock vblockSize;
  assert! b ;;
  let '(sizeOfLastChunk, numOfChunksInVBlock) := chunks_of cfg vblockSize in
  let nextChunk := u16 (lastKnownChunk m + 1) in
  if numOfChunksInVBlock <? nextChunk then Ok []
  else sendVBlock cfg (fp_msgSeqNum m) vblock sizeOfLastChunk numOfChunksInVBlock (batch cfg) nextChunk.

Lemma handler_answer now src m msgLen rid vb : request_ok now src m msgLen rid → getFetchingState (core src) = Ok NotFetching →
  requiredCheckpointNum m ≠ 0 → D.hasCheckpointDesc (psd_ (core src)) (requiredCheckpointNum m) = true →
  createVBlock malloc (pedanticChecks_ cfg) (core src) (mkDescV (requiredCheckpointNum m) (fp_lastKnown m)) = Ok vb →
  ∃ src', onFetchResPagesMsg malloc cfg now src m msgLen rid = (outs ← answer m vb; Ok (src', outs)).
Proof.
  intros [Hl [Hz [seqs Hs]] [Hf Hc]] Hfs Hr Hd Hcreate. destruct (setVBlock_post _ _ vb Hf Hc) as (l & El & Hle).
  exists (mkSource (core src) l seqs). unfold onFetchResPagesMsg.
  rewrite (proj2 (Z.ltb_ge msgLen _)), (proj2 (Z.eqb_neq _ 0) Hz), (proj2 (Z.eqb_neq _ 0) Hr) by done. cbn [orb]. rewrite Hs. cbn [core].
  rewrite Hfs. cbn [mbind res_bind]. rewrite bool_decide_eq_true_2, Hd by done. cbn [negb orb]. unfold findVBlock, getVBlockFromCache.
  cbn [cacheOfVirtualBlockForResPages core lastMsgSeqNumOfReplicas_]. rewrite Hf. cbn [mbind res_bind]. rewrite Hcreate. cbn [mbind res_bind]. rewrite El.
  cbn [mbind res_bind]. rewrite (proj2 (Z.leb_le _ _) Hle). cbn [Assert mbind res_bind]. unfold answer.
  destruct (getSizeOfVirtualBlock vb) as [sz|]; [|done]. cbn [mbind res_bind]. destruct (Assert (sizeofHeader <? sz)); [|done]. cbn [mbind res_bind].
  destruct (checkStructureOfVirtualBlock vb sz) as [b|]; [|done]. cbn [mbind res_bind]. destruct (Assert b); [|done]. cbn [mbind res_bind].
  destruct (chunks_of cfg sz) as [sl nc]. by destruct (nc <? _).
Qed.

Section encoded_answer.
Context (k : Z) (es : list ElementOfVirtualBlock) (Hk : 0 <= k < 2 ^ 64) (Hok : Forall (elem_ok k) es) (Hsort : StronglySorted earlier es)
  (Hlen : Z.of_nat (length es) < 65536).
#[local] Abbreviation raw := (enc_vblock k es).

Lemma vbSize_fits : 12 <= vbSize es < 2 ^ 32 - 26.
Proof. unfold vbSize. change elementSize with 4140. change sizeofHeader with 12. lia. Qed.

Lemma length_enc_vblock : Z.of_nat (length raw) = vbSize es.
Proof.
  unfold enc_vblock, vbSize. rewrite !length_app, !length_le_enc, !Nat2Z.inj_add, (length_enc_elems k es Hok). change sizeofHeader with 12. lia.
Qed.

Lemma answer_enc m : answer m raw =
  if 0 <? Z.of_nat (length es) then
    if numChunks cfg raw <? u16 (lastKnownChunk m + 1) then Ok []
    else sendVBlock cfg (fp_msgSeqNum m) raw (lastSize cfg raw) (numChunks cfg raw) (batch cfg) (u16 (lastKnownChunk m + 1))
  else Err AssertFailed.
Proof.
  pose proof vbSize_fits as Hfit. unfold answer, getSizeOfVirtualBlock. rewrite number_enc by (unfold vbSize in Hfit; lia). cbn [mbind res_bind].
  rewrite (u32_small (_ * _)), u32_small by (unfold vbSize in Hfit; change elementSize with 4140 in *; change sizeofHeader with 12 in *; lia).
  fold (vbSize es). destruct (Z.ltb_spec 0 (Z.of_nat (length es))) as [H0|H0].
  - rewrite (proj2 (Z.ltb_lt sizeofHeader _)) by (unfold vbSize; change elementSize with 4140; lia). cbn [Assert mbind res_bind].
    rewrite structure_enc by (done || (unfold vbSize in Hfit; lia)). cbn [Assert mbind res_bind]. unfold numChunks, lastSize. rewrite length_enc_vblock.
    by destruct (chunks_of cfg (vbSize es)).
  - rewrite (proj2 (Z.ltb_ge sizeofHeader _)) by (unfold vbSize; change elementSize with 4140; lia). done.
Qed.

(** A chunk number that wraps around to 0. *)
Lemma answer_chunk_zero m : 0 < Z.of_nat (length es) → u16 (lastKnownChunk m + 1) = 0 → answer m raw = Err OutOfBounds.
Proof.
  intros H0 Hm. rewrite answer_enc, (proj2 (Z.ltb_lt 0 _) H0), Hm. pose proof vbSize_fits as Hfit. pose proof length_enc_vblock as Hl.
  pose proof (chunks_arith cfg raw (proj1 Hmax) ltac:(lia)) as (Hc & _ & _). rewrite (proj2 (Z.ltb_ge _ 0)) by lia.
  unfold batch. destruct (Z.to_nat (Z.max 1 (maxNumberOfChunksInBatch_ cfg))) as [|n] eqn:En; [lia|]. cbn [sendVBlock]. unfold makeChunk.
  rewrite (proj2 (Z.ltb_lt 0 (numChunks cfg raw))), (proj2 (Z.ltb_lt 0 (maxChunkSize_ cfg))) by lia. cbn [Assert mbind res_bind].
  assert (u32 ((0 - 1) * maxChunkSize_ cfg) = 2 ^ 32 - maxChunkSize_ cfg) as ->.
  { unfold u32, wrap. symmetry. apply Z.mod_unique with (-1); lia. }
  unfold get_bytes. replace (in_buf _ _ _) with false; [done|]. symmetry. apply not_true_iff_false. rewrite in_buf_true. lia.
Qed.
End encoded_answer.
End serve.

(** ** Requests to a correct replica *)
Section correct_source.
Context (H : list Z → Digest) (num mx : Z) (blocks : Z → list Z) (ws : world) (c : Z) (m : gmap Z (list Z)).
Context (Hlen : ∀ x, length (H x) = Z.to_nat DIGEST_SIZE) (Hnz : ∀ x, H x ≠ zeroDigest) (Hnum : num < 65536)
  (Hr : reach H num mx blocks ws) (Hm : snaps (ghost ws) !! c = Some m) (Hc : last ws - mx <= c) (Hc64 : c < 2 ^ 64).

Lemma source_facts : inv H num mx blocks ws ∧ 2 <= num ∧ 0 < c <= last ws ∧ D.hasCheckpointDesc (psd_ (st ws)) c = true ∧ getFetchingState (st ws) = Ok NotFetching ∧
  ∀ id, 0 <= id < num → ∃ v, D.version id c (D.pages (psd_ (st ws))) = Some v ∧ version_ok H num c v.
Proof.
  pose proof (reach_inv _ _ _ _ _ Hr) as Hi. destruct (reach_params _ _ _ _ _ Hr) as [Hn _]. destruct (inv_snaps _ _ _ _ _ Hi c m Hm) as [Hb _].
  split_and!; try done; try lia.
  - destruct (stored_desc _ _ _ _ _ c Hi ltac:(by rewrite Hm) Hc) as (d & Hd & _). apply bool_decide_eq_true_2. by rewrite Hd.
  - unfold getFetchingState, D.getIsFetchingState. by rewrite (proj1 (conf_fetching _ _ _ (inv_conf _ _ _ _ _ Hi))).
  - intros id Hid. destruct (snapshot_versions H num mx blocks ws _ m Hi Hm Hc id Hid) as (v & Hv & _). exists v. split; [done|].
    destruct (D.version_in _ _ _ _ Hv) as (Hin & _ & Hvc). destruct (inv_versions _ _ _ _ _ Hi v Hin) as (? & ? & ? & ?). split_and!; try done; lia.
Qed.

Lemma source_answer malloc cfg now src rq msgLen rid : (∀ n, 0 <= n → Z.of_nat (length (malloc n)) = n) → request_ok cfg now src rq msgLen rid →
  core src = st ws → requiredCheckpointNum rq = c → 0 <= fp_lastKnown rq < 2 ^ 64 →
  ∃ src' es, onFetchResPagesMsg malloc cfg now src rq msgLen rid = (outs ← answer cfg rq (enc_vblock (fp_lastKnown rq) es); Ok (src', outs)) ∧
    es = updatedElems c (fp_lastKnown rq) (st ws) (seqZ 0 num) ∧ Forall (elem_ok (fp_lastKnown rq)) es ∧ StronglySorted earlier es ∧ Z.of_nat (length es) < 65536.
Proof.
  intros Hmal Hrq Hcore Hreq Hk. destruct source_facts as (Hi & Hn & Hb & Hd & Hf & Hv). destruct (inv_conf _ _ _ _ _ Hi) as [_ _ Hs (Hnn & _) _ _].
  assert (Hc' : 0 < c < 2 ^ 64 ∧ c <= last ws) by lia. set (k := fp_lastKnown rq) in *.
  destruct (handler_answer malloc cfg now src rq msgLen rid (enc_vblock k (updatedElems c k (st ws) (seqZ 0 num)))) as (src' & E); try done; rewrite ?Hcore, ?Hreq; try done; [lia| |].
  - apply (createVBlock_post H num c k (st ws) Hs Hnn (inv_ordered _ _ _ _ _ Hi) Hc' (proj1 Hk) Hnum Hlen Hnz Hv); [lia|done|apply Hk|done].
  - exists src', (updatedElems c k (st ws) (seqZ 0 num)). split_and!; [done|done|by apply (es_ok H num c k (st ws) Hc' Hnum Hlen Hnz Hv)| |].
    + apply (es_sorted H num c k (st ws) Hv). lia.
    + pose proof (es_length num c k (st ws) ltac:(lia)). lia.
Qed.
End correct_source.

(** ** Chunks *)
Lemma chunks_back cfg x rid seqNum raw : 0 < maxChunkSize_ cfg → 0 < Z.of_nat (length raw) < 2 ^ 32 - 26 → Z.of_nat (length raw) <= maxVBlockSize_ cfg < 2 ^ 32 →
  Z.of_nat (length raw) <= maxPendingDataFromSourceReplica_ cfg → Z.of_nat (length raw) <= maxChunkSize_ cfg * maxNumberOfChunksInBatch_ cfg →
  maxNumberOfChunksInBatch_ cfg < 65535 → maxNumberOfChunksInBatch_ cfg <= maxNumOfChunksInVBlock_ cfg → awaits seqNum x rid →
  let items := itemsFrom cfg seqNum ID_OF_VBLOCK_RES_PAGES raw (Z.to_nat (numChunks cfg raw)) 1 in
  1 <= numChunks cfg raw ∧
  sendVBlock cfg seqNum raw (lastSize cfg raw) (numChunks cfg raw) (batch cfg) 1 = Ok (Item <$> items) ∧
  ∀ ms, ms ≡ₚ items → ∃ p p' n, receiveAll cfg x rid (mkPending [] 0) ms = Ok p ∧
    getNextFullBlock cfg p ID_OF_VBLOCK_RES_PAGES true = Ok (p', Some raw, false, n).
Proof.
  intros Hmax Hs Hv Hp Hb Hb16 Hbv Hx items. destruct (chunks_arith cfg raw Hmax ltac:(lia)) as (Hc1 & Hc2 & Hc3).
  assert (Hnb : numChunks cfg raw <= maxNumberOfChunksInBatch_ cfg) by nia. split_and!; [done| |].
  - apply (send_items cfg seqNum ID_OF_VBLOCK_RES_PAGES raw Hmax ltac:(lia) ltac:(lia) (batch cfg) 1); try done; unfold batch; lia.
  - intros ms Hms. destruct (receive_all cfg seqNum ID_OF_VBLOCK_RES_PAGES raw Hmax ltac:(lia) x rid eq_refl Hx ltac:(lia) Hp ltac:(lia) ms []) as (l & Hl & Hsl & Hpl).
    + intros y Hy. rewrite Hms in Hy. apply list_elem_of_fmap in Hy as (i & -> & Hi%elem_of_seqZ). exists i. split; [lia|done].
    + rewrite app_nil_r. unfold keys. rewrite Hms. apply items_keys.
    + constructor.
    + rewrite app_nil_r, Hms. unfold items. rewrite items_data by lia. rewrite length_drop. lia.
    + rewrite app_nil_r in Hpl. rewrite Hms in Hpl. apply all_items_unique in Hpl; [|done]. subst l. eexists. destruct (build_items cfg seqNum ID_OF_VBLOCK_RES_PAGES raw Hmax ltac:(lia)
        (maxVBlockSize_ cfg) Hv (Z.to_nat (numChunks cfg raw)) 1 [] (Z.of_nat (length (items ≫= data)))) as (pend' & Hbuild); [lia|lia|lia|].
      eexists _, _. split; [done|]. unfold getNextFullBlock. change (1 <=? ID_OF_VBLOCK_RES_PAGES) with true. change (u64 (ID_OF_VBLOCK_RES_PAGES + 1)) with 0.
      cbn [Assert mbind res_bind clearPendingItemsData Z.eqb pendingItemDataMsgs totalSizeOfPendingItemDataMsgs].
      pose proof (scan_items cfg seqNum ID_OF_VBLOCK_RES_PAGES raw Hmax ltac:(lia) (maxVBlockSize_ cfg) Hv (Z.to_nat (numChunks cfg raw)) 1 0 []) as Hscan.
      rewrite app_nil_r in Hscan, Hbuild. fold items in Hscan, Hbuild.
      change ((1 - 1) * maxChunkSize_ cfg) with 0 in Hscan, Hbuild. change (1 - 1) with 0 in Hscan, Hbuild. change (take (Z.to_nat 0) raw) with (@nil Z) in Hbuild.
      fold items. rewrite Hscan by (lia || by left). cbn [mbind res_bind pendingItemDataMsgs totalSizeOfPendingItemDataMsgs]. rewrite Hbuild. done.
Qed.

(** ** Properties *)

Lemma updated_nonempty c k s num id v : 0 <= id < num → D.version id c (D.pages (psd_ s)) = Some v → k < D.checkpoint v → updatedElems c k s (seqZ 0 num) ≠ [].
Proof.
  intros Hid Hver Hnew Hes. assert (mkElem id (D.checkpoint v) (D.pageDigest v) (D.page v) ∈ updatedElems c k s (seqZ 0 num)) as Hin.
  { apply list_elem_of_omap. exists id. split; [apply elem_of_seqZ; lia|]. unfold elemOf. rewrite Hver. cbn. by rewrite (proj2 (Z.ltb_lt _ _) Hnew). }
  rewrite Hes in Hin. by apply elem_of_nil in Hin.
Qed.

(** A single request that claims to know the checkpoint it asks for makes a correct replica fail an assertion: no page
    is newer, and the handler requires a block with pages. *)
Theorem fetch_of_known_checkpoint_aborts H num mx blocks ws c m malloc cfg now src rq msgLen rid :
  (∀ x, length (H x) = Z.to_nat DIGEST_SIZE) → (∀ x, H x ≠ zeroDigest) → num < 65536 → (∀ n, 0 <= n → Z.of_nat (length (malloc n)) = n) →
  reach H num mx blocks ws → snaps (ghost ws) !! c = Some m → last ws - mx <= c → core src = st ws →
  request_ok cfg now src rq msgLen rid → requiredCheckpointNum rq = c → c <= fp_lastKnown rq < 2 ^ 64 →
  onFetchResPagesMsg malloc cfg now src rq msgLen rid = Err AssertFailed.
Proof.
  intros Hlen Hnz Hnum Hmal Hr Hm Hc Hcore Hrq Hreq Hk. destruct (source_facts H num mx blocks ws c m Hr Hm Hc) as (_ & _ & Hb & _ & _ & Hv).
  destruct (source_answer H num mx blocks ws c m Hlen Hnz Hnum Hr Hm Hc ltac:(lia) malloc cfg now src rq msgLen rid Hmal Hrq Hcore Hreq ltac:(lia))
    as (src' & es & -> & Hes & Hok & Hs & Hl).
  assert (es = []) as ->.
  { destruct es as [|e es]; [done|]. exfalso. assert (e ∈ e :: es) as Hin by left. rewrite Hes in Hin.
    destruct (updated_in H num c _ (st ws) Hv _ e (ids_range num) Hin) as [Hid He]. destruct (elemOf_spec H num c _ (st ws) Hv _ e Hid He) as (_ & ? & _). lia. }
  rewrite (answer_enc cfg _ []) by (done || lia). done.
Qed.

(** A request for the chunk after number 65535 makes a correct replica read outside the block: the 16 bit number of the
    chunk becomes 0, which passes the check, and the position of the chunk before the first is used. *)
Theorem fetch_of_chunk_zero_reads_outside H num mx blocks ws c m malloc cfg now src rq msgLen rid id v :
  (∀ x, length (H x) = Z.to_nat DIGEST_SIZE) → (∀ x, H x ≠ zeroDigest) → num < 65536 → (∀ n, 0 <= n → Z.of_nat (length (malloc n)) = n) →
  0 < maxChunkSize_ cfg < 2 ^ 32 → reach H num mx blocks ws → snaps (ghost ws) !! c = Some m → last ws - mx <= c → c < 2 ^ 64 → core src = st ws →
  request_ok cfg now src rq msgLen rid → requiredCheckpointNum rq = c → 0 <= fp_lastKnown rq → lastKnownChunk rq = 65535 →
  0 <= id < num → D.version id c (D.pages (psd_ (st ws))) = Some v → fp_lastKnown rq < D.checkpoint v →
  onFetchResPagesMsg malloc cfg now src rq msgLen rid = Err OutOfBounds.
Proof.
  intros Hlen Hnz Hnum Hmal Hmax Hr Hm Hc Hc64 Hcore Hrq Hreq Hk Hchunk Hid Hver Hnew. destruct (D.version_in _ _ _ _ Hver) as (_ & _ & Hvc).
  destruct (source_facts H num mx blocks ws c m Hr Hm Hc) as (_ & Hn & Hb & _ & _ & Hv).
  destruct (source_answer H num mx blocks ws c m Hlen Hnz Hnum Hr Hm Hc Hc64 malloc cfg now src rq msgLen rid Hmal Hrq Hcore Hreq ltac:(lia))
    as (src' & es & -> & Hes & Hok & Hs & Hl).
  rewrite (answer_chunk_zero cfg Hmax (fp_lastKnown rq) es); [done|lia|done|done|done| |by rewrite Hchunk].
  destruct es as [|e es]; [|cbn; lia]. exfalso. symmetry in Hes. by eapply (updated_nonempty c (fp_lastKnown rq) (st ws) num).
Qed.

(** C23: The pages of a checkpoint of a correct replica reach a replica that asks for them, when the block with the pages fits one batch of chunks
    and the other limits of the configuration, the request is fresh and the source has no block for it in its cache, at least one page changed, and the hash
    is collision-free and never zero: the source answers with the chunks
    of a virtual block, which the requester puts together whatever the order in which they arrive; the block passes its
    checks, and then its pages are those of the source at the checkpoint.  (Of the data handler the storing of chunks is modelled, and of
    [processData], which it calls after each chunk, taking the block once it is full, checking and installing it, without the consistency
    check that is asserted afterwards.) *)
Theorem fetch_pages_from_correct_source H num mx mx' blocks ws s k cp m malloc cfg now src msgLen rid seqNum x id0 v0 :
  (∀ x, length (H x) = Z.to_nat DIGEST_SIZE) → (∀ x y, H x = H y → x = y) → (∀ x, H x ≠ zeroDigest) → 2 <= mx → num < 65536 →
  (∀ n, 0 <= n → Z.of_nat (length (malloc n)) = n) → transfer H num mx mx' blocks ws s k cp m →
  0 <= id0 < num → D.version id0 (D.checkpointNum cp) (D.pages (psd_ (st ws))) = Some v0 → k < D.checkpoint v0 →
  core src = st ws → request_ok cfg now src (mkFetchPages seqNum k (D.checkpointNum cp) 0) msgLen rid →
  0 < maxChunkSize_ cfg < 2 ^ 32 → sizeofHeader + num * elementSize <= maxVBlockSize_ cfg < 2 ^ 32 →
  sizeofHeader + num * elementSize <= maxPendingDataFromSourceReplica_ cfg →
  sizeofHeader + num * elementSize <= maxChunkSize_ cfg * maxNumberOfChunksInBatch_ cfg →
  maxNumberOfChunksInBatch_ cfg < 65535 → maxNumberOfChunksInBatch_ cfg <= maxNumOfChunksInVBlock_ cfg → awaits seqNum x rid →
  ∃ src' items, onFetchResPagesMsg malloc cfg now src (mkFetchPages seqNum k (D.checkpointNum cp) 0) msgLen rid = Ok (src', Item <$> items) ∧
    ∀ ms, ms ≡ₚ items → ∃ p p' vb n s', receiveAll cfg x rid (mkPending [] 0) ms = Ok p ∧
      getNextFullBlock cfg p ID_OF_VBLOCK_RES_PAGES true = Ok (p', Some vb, false, n) ∧
      checkVirtualBlockOfResPages H s (D.digestOfResPagesDescriptor cp) vb (Z.of_nat (length vb)) = Ok true ∧
      completeFetch s vb = Ok s' ∧
      ∀ id n, 0 <= id < num → 0 < n <= kSizeOfReservedPage → ∃ page, m !! id = Some page ∧ load s' id n = Ok (take (Z.to_nat n) page).
Proof.
  intros Hlen Hinj Hnz Hmx Hnum Hmal Htr Hid0 Hv0 Hnew0 Hcore Hrq Hmax HmV HmP HmB HB16 HBv Hx. set (c := D.checkpointNum cp) in *.
  destruct (tr_bounds H num mx mx' blocks ws s k cp m Htr) as (Hn & Hk & Hcb & _). destruct (tr_snap _ _ _ _ _ _ _ _ _ _ Htr) as [Hm Hc].
  destruct (source_answer H num mx' blocks ws c m Hlen Hnz Hnum (tr_reach _ _ _ _ _ _ _ _ _ _ Htr) Hm Hc ltac:(apply Hcb) malloc cfg now src _ msgLen rid Hmal Hrq Hcore eq_refl Hk)
    as (src' & es & Hans & Hes & Hok & Hs & Hl). cbn [fp_lastKnown] in *.
  assert (Hpos : 0 < Z.of_nat (length es)).
  { destruct es as [|e es]; [|cbn; lia]. exfalso. symmetry in Hes. eapply (updated_nonempty c k (st ws) num); done. }
  assert (Hle : Z.of_nat (length es) <= num) by (rewrite Hes; apply (es_length num c k (st ws)); lia).
  pose proof (length_enc_vblock k es Hok) as Hraw. pose proof (vbSize_fits es Hl) as Hfit. set (vb := enc_vblock k es) in *.
  assert (Hbnd : vbSize es <= sizeofHeader + num * elementSize) by (unfold vbSize; change elementSize with 4140; lia).
  destruct (chunks_back cfg x rid seqNum vb (proj1 Hmax) ltac:(lia) ltac:(lia) ltac:(lia) ltac:(lia) HB16 HBv Hx) as (Hn1 & Hsend & Hback).
  exists src', (itemsFrom cfg seqNum ID_OF_VBLOCK_RES_PAGES vb (Z.to_nat (numChunks cfg vb)) 1). split.
  - rewrite Hans. unfold vb. rewrite (answer_enc cfg k es) by done. fold vb. rewrite (proj2 (Z.ltb_lt 0 _) Hpos). cbn [lastKnownChunk fp_msgSeqNum].
    change (u16 (0 + 1)) with 1. rewrite (proj2 (Z.ltb_ge _ 1) Hn1), Hsend. done.
  - intros ms Hms. destruct (Hback ms Hms) as (p & p' & n & Hp & Hfull). destruct (tr_complete H num mx mx' blocks ws s k cp m Hlen Hinj Hnz Hmx Hnum Htr) as (s' & Hs' & Hcomp).
    exists p, p', vb, n, s'. rewrite Hraw. unfold vb. rewrite Hes. split_and!; [done|by rewrite <- Hes|by apply (tr_check H num mx mx' blocks ws s k cp m)|done|].
    intros id n' Hid Hn'. destruct (snapshot_versions H num mx' blocks ws _ m (tr_inv _ _ _ _ _ _ _ _ _ _ Htr) Hm Hc id Hid) as (v & Hver & Hpv & _).
    exists (D.page v). split; [done|]. by apply (completed_load H num s' c (D.pages (psd_ (st ws)))).
Qed.

(** ** Examples *)
Definition ex_malloc (n : Z) : list Z := replicate (Z.to_nat n) 0.
Definition ex_cfg : config := mkConfig 1000 100 10 1000000 1000 1000000 1 100 true.
Definition ex_source (s : t) : source := mkSource s [] ∅.

Lemma ex_malloc_length n : 0 <= n → Z.of_nat (length (ex_malloc n)) = n.
Proof. intros. unfold ex_malloc. rewrite length_replicate. lia. Qed.

(** The message of time 5 (milliseconds) with counter 1. *)
Definition ex_seq : Z := 5 * 4194304 + 1.

Lemma ex_request s k c n : request_ok ex_cfg 7 (ex_source s) (mkFetchPages ex_seq k c n) 28 1.
Proof. constructor; [done| |done]. split; [done|]. by eexists. Qed.

Lemma fetch_of_known_checkpoint_aborts_witness : ∃ w, reach ex_hash 3 2 ex_blocks w ∧
  onFetchResPagesMsg ex_malloc ex_cfg 7 (ex_source (st w)) (mkFetchPages ex_seq 2 2 0) 28 1 = Err AssertFailed.
Proof.
  destruct (ex_run ex_hash) as (w & R & L & G). exists w. split; [done|]. pose proof (ex_snap w 2 G ltac:(by right)) as S.
  apply (fetch_of_known_checkpoint_aborts ex_hash 3 2 ex_blocks w 2 _ ex_malloc ex_cfg 7 (ex_source (st w)) _ 28 1 ex_hash_length ex_hash_nonzero ltac:(lia)
    ex_malloc_length R S ltac:(lia) eq_refl (ex_request _ _ _ _) eq_refl). cbn. lia.
Defined.

Lemma fetch_of_chunk_zero_reads_outside_witness : ∃ w, reach ex_hash 3 2 ex_blocks w ∧
  onFetchResPagesMsg ex_malloc ex_cfg 7 (ex_source (st w)) (mkFetchPages ex_seq 0 2 65535) 28 1 = Err OutOfBounds.
Proof.
  destruct (ex_run ex_hash) as (w & R & L & G). exists w. split; [done|]. pose proof (ex_snap w 2 G ltac:(by right)) as S.
  destruct (source_facts ex_hash 3 2 ex_blocks w 2 _ R S ltac:(lia)) as (_ & _ & _ & _ & _ & Hv). destruct (Hv 0 ltac:(lia)) as (v & V & _ & Hp & _).
  apply (fetch_of_chunk_zero_reads_outside ex_hash 3 2 ex_blocks w 2 _ ex_malloc ex_cfg 7 (ex_source (st w)) _ 28 1 0 v ex_hash_length ex_hash_nonzero ltac:(lia)
    ex_malloc_length ltac:(cbn; lia) R S ltac:(lia) ltac:(lia) eq_refl (ex_request _ _ _ _) eq_refl); cbn; try done; lia.
Defined.

Definition ex_expecting : expecting := mkExpecting 1 ex_seq 0 0 {[1]}.

Lemma fetch_pages_from_correct_source_witness : ∃ ws s cp m src' items, transfer ex_hash 3 2 2 ex_blocks ws s 0 cp m ∧
  onFetchResPagesMsg ex_malloc ex_cfg 7 (ex_source (st ws)) (mkFetchPages ex_seq 0 (D.checkpointNum cp) 0) 28 1 = Ok (src', Item <$> items) ∧
  ∃ p p' vb n s', receiveAll ex_cfg ex_expecting 1 (mkPending [] 0) (reverse items) = Ok p ∧
    getNextFullBlock ex_cfg p ID_OF_VBLOCK_RES_PAGES true = Ok (p', Some vb, false, n) ∧ completeFetch s vb = Ok s' ∧
    ∃ page, m !! 1 = Some page ∧ load s' 1 4 = Ok (take (Z.to_nat 4) page).
Proof.
  destruct ex_transfer as (ws & s & cp & m & Htr & Hcp). destruct (tr_versions _ _ _ _ _ _ _ _ _ _ Htr 0 ltac:(lia)) as (v & V & _ & Hp & _).
  destruct (fetch_pages_from_correct_source ex_hash 3 2 2 ex_blocks ws s 0 cp m ex_malloc ex_cfg 7 (ex_source (st ws)) 28 1 ex_seq ex_expecting 0 v
    ex_hash_length ex_hash_inj ex_hash_nonzero) as (src' & items & Hon & Hall); try done; try (cbn; lia).
  - apply ex_malloc_length.
  - exists ws, s, cp, m, src', items. split_and!; [done|done|]. destruct (Hall (reverse items) (reverse_Permutation items)) as (p & p' & vb & n & s' & H1 & H2 & _ & H4 & H5).
    exists p, p', vb, n, s'. split_and!; [done|done|done|]. apply H5; [lia|]. unfold kSizeOfReservedPage. lia.
Defined.
End StateTransferProps.
