(* ===== verification/Controller.v ===== *)
(** * Controllers (bftengine/src/bftengine/ControllerBase.hpp, .cpp)

    A controller chooses the path that the primary tries first for a batch, and the time
    after which it starts the slow path.  [Controller] is the interface; [SimpleController]
    implements it with a counter, ControllerWithSimpleHistory.v with the recent batches. *)
From S2P Require Import Prelude SysConsts.

(** [ControllerBase]; the events also get the time.  [onNewSeqNumberExecution] tells
    whether the path was changed; [onPreparePartial] is [onMessage], with the number and
    the sender of the message. *)
Class Controller (Ct : Type) := {
  getCurrentFirstPath : Ct → CommitPath;
  timeToStartSlowPathMilli : Ct → Z;
  slowPathsTimerMilli : Ct → Z;
  onNewView : Ct → Z → Z → res Ct;
  onNewSeqNumberExecution : Z → Ct → Z → res (Ct * bool);
  onSendingPrePrepare : Z → Ct → Z → CommitPath → res Ct;
  onStartingSlowCommit : Ct → Z → res Ct;
  onPreparePartial : Ct → Z → Z → res Ct;
}.

Module SimpleController.

Record t := mk { currentFirstPath : CommitPath; numberOfSlowCommitPaths : Z; dThreshold : Z; onlyOptimisticFast : bool }.

Definition ctor (degradationThreshold C : Z) : t := mk OPTIMISTIC_FAST 0 degradationThreshold (C =? 0).

Definition startingSlowCommit (s : t) (n : Z) : t :=
  let k := u64 (numberOfSlowCommitPaths s + 1) in
  let path :=
    if onlyOptimisticFast s then
      if bool_decide (currentFirstPath s = OPTIMISTIC_FAST) && (k =? dThreshold s) then SLOW else currentFirstPath s
    else if bool_decide (currentFirstPath s = OPTIMISTIC_FAST) && (k =? dThreshold s) then FAST_WITH_THRESHOLD
    else if bool_decide (currentFirstPath s = FAST_WITH_THRESHOLD) && (k =? u64 (dThreshold s * 2)) then SLOW
    else currentFirstPath s in
  mk path k (dThreshold s) (onlyOptimisticFast s).

#[export] Instance controller : Controller t := {|
  getCurrentFirstPath := currentFirstPath;
  timeToStartSlowPathMilli _ := 150;
  slowPathsTimerMilli _ := 150;
  onNewView s _ _ := Ok s;
  onNewSeqNumberExecution _ s _ := Ok (s, false);
  onSendingPrePrepare _ s _ _ := Ok s;
  onStartingSlowCommit s n := Ok (startingSlowCommit s n);
  onPreparePartial s _ _ := Ok s;
|}.
End SimpleController.
