(* ===== verification/RollingAvgAndVar.v ===== *)
(** * Average and variance (bftengine/src/bftengine/RollingAvgAndVar.hpp)

    Floating-point numbers are those of [SpecFloat] (IEEE 754, rounding to nearest; [float]
    has 24 bits, [double] 53).  C++ leaves the conversion of a floating-point number to
    [uint32_t] undefined when the integer does not fit: the result is the argument
    [undefined] then, of which nothing is assumed. *)
From Stdlib Require Import SpecFloat.
From S2P Require Import Prelude.

(** ** Floating-point numbers *)
Module Float.
Definition double (n : Z) : spec_float := binary_normalize 53 1024 n 0 false.
Definition float (n : Z) : spec_float := binary_normalize 24 128 n 0 false.
(** The literal [n / d] of type [float]. *)
Definition literal (n d : Z) : spec_float := SFdiv 24 128 (float n) (float d).

(** The integer part. *)
Definition truncate (x : spec_float) : option Z :=
  match x with
  | S754_zero _ => Some 0
  | S754_finite s m e => let v := Z.shiftl (Z.pos m) e in Some (if s then - v else v)
  | _ => None
  end.

Definition toUint32 (undefined : spec_float → Z) (x : spec_float) : Z :=
  match truncate x with
  | Some v => if (0 <=? v) && (v <? 2 ^ 32) then v else undefined x
  | None => undefined x
  end.
End Float.

Module RollingAvgAndVar.
#[local] Abbreviation add64 := (SFadd 53 1024).
#[local] Abbreviation sub64 := (SFsub 53 1024).
#[local] Abbreviation mul64 := (SFmul 53 1024).
#[local] Abbreviation div64 := (SFdiv 53 1024).

Record t := mk { k : Z; prevM : spec_float; prevS : spec_float; currM : spec_float; currS : spec_float }.

(** The other members are not initialised. *)
Definition ctor (m : t) : t := mk 0 (prevM m) (prevS m) (currM m) (currS m).
Definition reset (s : t) : t := mk 0 (prevM s) (prevS s) (currM s) (currS s).

Definition add (s : t) (x : spec_float) : t :=
  let k := u32 (k s + 1) in
  if k =? 1 then mk k x (Float.double 0) x (currS s)
  else
    let m := add64 (prevM s) (div64 (sub64 x (prevM s)) (Float.double k)) in
    let v := add64 (prevS s) (mul64 (sub64 x (prevM s)) (sub64 x m)) in
    mk k m v m v.

Definition avg (s : t) : spec_float := if 0 <? k s then currM s else Float.double 0.
Definition var (s : t) : spec_float := if 1 <? k s then div64 (currS s) (Float.double (u32 (k s - 1))) else Float.double 0.
End RollingAvgAndVar.
