(* ===== verification/ControllerWithSimpleHistory.v ===== *)
(** * The controller with a history (bftengine/src/bftengine/ControllerWithSimpleHistory.hpp, .cpp)

    The controller that replicas use: it decides on the first path and on the time before
    the slow path from what happened to the last 64 batches. *)
From Stdlib Require Import SpecFloat.
From S2P Require Import Prelude SysConsts ActiveWindow Controller RollingAvgAndVar.

Module ControllerWithSimpleHistory.
#[local] Abbreviation EvaluationPeriod := 64.

Record SeqNoInfo := mkInfo { switchToSlowPath : bool; prePrepareTime : Z; durationMicro : Z; replicas : gset Z }.
Definition newInfo : SeqNoInfo := mkInfo false 0 0 ∅.
Definition resetAndFree (i : SeqNoInfo) : SeqNoInfo := newInfo.

#[export] Program Instance activity_items : ItemFuncs SeqNoInfo :=
  {| item_init := newInfo; item_reset := resetAndFree; item_wf _ := True; item_empty i := i = newInfo |}.
Solve All Obligations with done.

Record t := mk {
  onlyOptimisticFast : bool;
  c : Z;
  f : Z;
  numOfReplicas : Z;
  myId : Z;
  recentActivity : ActiveWindow.t SeqNoInfo;
  currentFirstPath : CommitPath;
  currentView : Z;
  isPrimary : bool;
  avgAndStdOfExecTime : RollingAvgAndVar.t;
  currentTimeToStartSlowPathMilli : Z;
}.

Definition with_activity (s : t) (a : ActiveWindow.t SeqNoInfo) : t :=
  mk (onlyOptimisticFast s) (c s) (f s) (numOfReplicas s) (myId s) a (currentFirstPath s) (currentView s) (isPrimary s)
    (avgAndStdOfExecTime s) (currentTimeToStartSlowPathMilli s).
Definition with_path (s : t) (p : CommitPath) : t :=
  mk (onlyOptimisticFast s) (c s) (f s) (numOfReplicas s) (myId s) (recentActivity s) p (currentView s) (isPrimary s)
    (avgAndStdOfExecTime s) (currentTimeToStartSlowPathMilli s).
Definition with_view (s : t) (v : Z) (p : bool) : t :=
  mk (onlyOptimisticFast s) (c s) (f s) (numOfReplicas s) (myId s) (recentActivity s) (currentFirstPath s) v p
    (avgAndStdOfExecTime s) (currentTimeToStartSlowPathMilli s).
Definition with_stats (s : t) (a : RollingAvgAndVar.t) : t :=
  mk (onlyOptimisticFast s) (c s) (f s) (numOfReplicas s) (myId s) (recentActivity s) (currentFirstPath s) (currentView s)
    (isPrimary s) a (currentTimeToStartSlowPathMilli s).
Definition with_time (s : t) (x : Z) : t :=
  mk (onlyOptimisticFast s) (c s) (f s) (numOfReplicas s) (myId s) (recentActivity s) (currentFirstPath s) (currentView s)
    (isPrimary s) (avgAndStdOfExecTime s) x.

Definition debugInitialFirstPath : CommitPath := OPTIMISTIC_FAST.
Definition debugDowngradeFactor : spec_float := Float.literal 85 100.
Definition debugUpgradeFactorForFastOptimisticPath : spec_float := Float.literal 95 100.
Definition debugUpgradeFactorForFastPath : spec_float := Float.literal 85 100.
Definition debugDowngradeEnabled : bool := true.
Definition debugUpgradeEnabled : bool := true.

Definition defaultTimeToStartSlowPathMilli : Z := 150.
Definition minTimeToStartSlowPathMilli : Z := 20.
Definition maxTimeToStartSlowPathMilli : Z := 2000.
Definition maxUpdateInTimeToStartSlowPath : spec_float := Float.literal 20 100.
Definition MAX_DURATION_MICRO : Z := 2 * 1000 * 1000.
Definition MIN_DURATION_MICRO : Z := 100.

#[local] Abbreviation inside := (ActiveWindow.insideActiveWindow EvaluationPeriod).
#[local] Abbreviation get := (ActiveWindow.get EvaluationPeriod 1).

Definition onBecomePrimary (s : t) (v n : Z) : res t :=
  assert! (isPrimary s) ;;
  let nextFirstRelevantSeqNum :=
    if n mod EvaluationPeriod =? 0 then n + 1 else n / EvaluationPeriod * EvaluationPeriod + EvaluationPeriod + 1 in
  a ← ActiveWindow.resetAll 1 (recentActivity s) nextFirstRelevantSeqNum;
  Ok (with_time (with_activity s a) defaultTimeToStartSlowPathMilli).

(** [numOfReplicas] is a [size_t]: the signed view number is converted to 64 bits without sign. *)
Definition primaryOf (numOfReplicas myId v : Z) : bool := u64 v mod numOfReplicas =? myId.

Definition ctor (C F replicaId initialView initialSeq : Z) (memory : RollingAvgAndVar.t) : res t :=
  a ← ActiveWindow.ctor EvaluationPeriod 1 1;
  let n := 3 * F + 2 * C + 1 in
  let s := mk (C =? 0) C F n replicaId a debugInitialFirstPath initialView (primaryOf n replicaId initialView)
    (RollingAvgAndVar.ctor memory) defaultTimeToStartSlowPathMilli in
  if isPrimary s then onBecomePrimary s initialView initialSeq else Ok s.

Definition slowPathsTimer (s : t) : Z :=
  let minUsefulTimerRes := 10 in
  let retVal := currentTimeToStartSlowPathMilli s / 2 in
  if retVal <? minUsefulTimerRes then minUsefulTimerRes else retVal.

Definition newView (s : t) (v n : Z) : res t :=
  assert! (currentView s <=? v) ;;
  let s := with_view s v (primaryOf (numOfReplicas s) (myId s) v) in
  if isPrimary s then onBecomePrimary s v n else Ok s.

(** The numbers from [lo] to [hi] whose information has [p]. *)
Definition countIf (p : SeqNoInfo → bool) (a : ActiveWindow.t SeqNoInfo) (lo hi : Z) : res Z :=
  foldM (fun k i => x ← get a i; Ok (if p x then k + 1 else k)) 0 (seqZ lo (hi - lo + 1)).

Definition fullCooperation (s : t) (i : SeqNoInfo) : bool := Z.of_nat (size (replicas i)) =? numOfReplicas s - 1.
Definition partialCooperation (s : t) (i : SeqNoInfo) : bool :=
  negb (fullCooperation s i) && (3 * f s + c s <=? Z.of_nat (size (replicas i))).

(** [factor * EvaluationPeriod] *)
Definition ofPeriod (factor : spec_float) : spec_float := SFmul 24 128 factor (Float.float EvaluationPeriod).

(** The path after the period from [minSeq] to [maxSeq], and whether it was downgraded and changed. *)
Definition evaluatePath (s : t) (minSeq maxSeq : Z) : res (CommitPath * bool * bool) :=
  if bool_decide (currentFirstPath s = SLOW) then
    cyclesWithFullCooperation ← countIf (fullCooperation s) (recentActivity s) minSeq maxSeq;
    cyclesWithPartialCooperation ← countIf (partialCooperation s) (recentActivity s) minSeq maxSeq;
    if debugUpgradeEnabled then
      if SFleb (ofPeriod debugUpgradeFactorForFastOptimisticPath) (Float.float cyclesWithFullCooperation)
      then Ok (OPTIMISTIC_FAST, false, true)
      else if negb (onlyOptimisticFast s) &&
              SFleb (ofPeriod debugUpgradeFactorForFastPath) (Float.float (cyclesWithFullCooperation + cyclesWithPartialCooperation))
      then Ok (FAST_WITH_THRESHOLD, false, true)
      else Ok (currentFirstPath s, false, false)
    else Ok (currentFirstPath s, false, false)
  else
    assert! (bool_decide (currentFirstPath s = OPTIMISTIC_FAST) || bool_decide (currentFirstPath s = FAST_WITH_THRESHOLD)) ;;
    successfulFastPaths ← countIf (fun i => negb (switchToSlowPath i)) (recentActivity s) minSeq maxSeq;
    if debugDowngradeEnabled && SFltb (Float.float successfulFastPaths) (ofPeriod debugDowngradeFactor)
    then Ok (if negb (onlyOptimisticFast s) && bool_decide (currentFirstPath s = OPTIMISTIC_FAST) then FAST_WITH_THRESHOLD else SLOW, true, true)
    else Ok (currentFirstPath s, false, false).

Section defs.
Context (undefined : spec_float → Z).
#[local] Abbreviation toUint32 := (Float.toUint32 undefined).

(** The new time to start the slow path, from the statistics. *)
Definition newSlowPathTime (s : t) : Z :=
  let execAvg := RollingAvgAndVar.avg (avgAndStdOfExecTime s) in
  let execVar := RollingAvgAndVar.var (avgAndStdOfExecTime s) in
  let execStd := if SFltb (Float.double 0) execVar then SFsqrt 53 1024 execVar else Float.double 0 in
  let scaled factor := toUint32 (SFmul 24 128 factor (Float.float (currentTimeToStartSlowPathMilli s))) in
  let relMin := scaled (SFsub 24 128 (Float.float 1) maxUpdateInTimeToStartSlowPath) in
  let relMax := scaled (SFadd 24 128 (Float.float 1) maxUpdateInTimeToStartSlowPath) in
  let t := toUint32 (SFdiv 53 1024 (SFadd 53 1024 execAvg (SFmul 53 1024 (Float.double 2) execStd)) (Float.double 1000)) in
  let t := if t <? relMin then relMin else if relMax <? t then relMax else t in
  if t <? minTimeToStartSlowPathMilli then minTimeToStartSlowPathMilli
  else if maxTimeToStartSlowPathMilli <? t then maxTimeToStartSlowPathMilli else t.

Definition onEndOfEvaluationPeriod (s : t) : res (t * bool) :=
  let (minSeq, maxSeq) := ActiveWindow.currentActiveWindow EvaluationPeriod (recentActivity s) in
  '(path, downgraded, currentFirstPathChanged) ← evaluatePath s minSeq maxSeq;
  a ← ActiveWindow.resetAll 1 (recentActivity s) (maxSeq + 1);
  let s := with_activity (with_path s path) a in
  Ok (if (downgraded : bool) then s else with_time s (newSlowPathTime s), currentFirstPathChanged).

Definition newSeqNumberExecution (now : Z) (s : t) (n : Z) : res (t * bool) :=
  if negb (isPrimary s) || negb (inside (recentActivity s) n) then Ok (s, false)
  else
    i ← get (recentActivity s) n;
    let duration := if prePrepareTime i <? now then u64 (now - prePrepareTime i) else 0 in
    let duration := if MAX_DURATION_MICRO <? duration then MAX_DURATION_MICRO
                    else if duration <? MIN_DURATION_MICRO then MIN_DURATION_MICRO else duration in
    a ← ActiveWindow.modify EvaluationPeriod 1 (recentActivity s) n (fun i => mkInfo (switchToSlowPath i) (prePrepareTime i) (u16 duration) (replicas i));
    let stats := if Z.rem n 1000 =? 0 then RollingAvgAndVar.reset (avgAndStdOfExecTime s) else avgAndStdOfExecTime s in
    let s := with_stats (with_activity s a) (RollingAvgAndVar.add stats (Float.double duration)) in
    if n =? (ActiveWindow.currentActiveWindow EvaluationPeriod (recentActivity s)).2 then onEndOfEvaluationPeriod s else Ok (s, false).

Definition sendingPrePrepare (now : Z) (s : t) (n : Z) (commitPath : CommitPath) : res t :=
  if negb (isPrimary s) || negb (inside (recentActivity s) n) then Ok s
  else
    a ← ActiveWindow.modify EvaluationPeriod 1 (recentActivity s) n (fun i =>
      if prePrepareTime i =? 0 then mkInfo (switchToSlowPath i) now (durationMicro i) (replicas i) else i);
    Ok (with_activity s a).

Definition startingSlowCommit (s : t) (n : Z) : res t :=
  if negb (isPrimary s) || negb (inside (recentActivity s) n) then Ok s
  else if bool_decide (currentFirstPath s = SLOW) then Ok s
  else
    a ← ActiveWindow.modify EvaluationPeriod 1 (recentActivity s) n (fun i => mkInfo true (prePrepareTime i) (durationMicro i) (replicas i));
    Ok (with_activity s a).

Definition preparePartial (s : t) (n id : Z) : res t :=
  if negb (isPrimary s) then Ok s
  else if negb (bool_decide (currentFirstPath s = SLOW)) then Ok s
  else if negb (inside (recentActivity s) n) then Ok s
  else
    i ← get (recentActivity s) n;
    if switchToSlowPath i then Ok s
    else if bool_decide (id ∈ replicas i) then Ok s
    else
      a ← ActiveWindow.modify EvaluationPeriod 1 (recentActivity s) n (fun i => mkInfo (switchToSlowPath i) (prePrepareTime i) (durationMicro i) ({[id]} ∪ replicas i));
      Ok (with_activity s a).

#[export] Instance controller : Controller t := {|
  getCurrentFirstPath := currentFirstPath;
  timeToStartSlowPathMilli := currentTimeToStartSlowPathMilli;
  slowPathsTimerMilli := slowPathsTimer;
  onNewView := newView;
  onNewSeqNumberExecution := newSeqNumberExecution;
  onSendingPrePrepare := sendingPrePrepare;
  onStartingSlowCommit := startingSlowCommit;
  onPreparePartial := preparePartial;
|}.
End defs.
End ControllerWithSimpleHistory.
