(* ===== verification/ControllerProps.v ===== *)
(** * The controllers are safe (Controller.v)

    The events of a controller in any order: no assertion fails, the path is one that the
    replicas can use, the time to start the slow path stays in its bounds; and what an
    evaluation period decides. *)
From Stdlib Require Import SpecFloat.
From S2P Require Import Prelude SysConsts ActiveWindow Controller RollingAvgAndVar ControllerWithSimpleHistory.

Module ControllerProps.

#[export] Instance activity_params : WindowParams 64 1.
Proof. by constructor. Qed.

(** ** SimpleController *)
Lemma simple_path (s : SimpleController.t) n : SimpleController.currentFirstPath s ≠ CP_NA →
  (SimpleController.onlyOptimisticFast s = true → SimpleController.currentFirstPath s ≠ FAST_WITH_THRESHOLD) →
  let s' := SimpleController.startingSlowCommit s n in
  SimpleController.onlyOptimisticFast s' = SimpleController.onlyOptimisticFast s ∧ SimpleController.currentFirstPath s' ≠ CP_NA ∧
  (SimpleController.onlyOptimisticFast s' = true → SimpleController.currentFirstPath s' ≠ FAST_WITH_THRESHOLD).
Proof.
  intros Hna Hopt. unfold SimpleController.startingSlowCommit. cbn. destruct (SimpleController.onlyOptimisticFast s); cbn; repeat case_match; naive_solver.
Qed.

Import ControllerWithSimpleHistory.

(** ** Events *)
Inductive Event :=
  | NewView (v n : Z)
  | Executed (now n : Z)
  | Sending (now n : Z) (path : CommitPath)
  | SlowCommit (n : Z)
  | PreparePartial (n id : Z).

Section history.
Context (undefined : spec_float → Z).
#[local] Abbreviation get := (ActiveWindow.get 64 1).
#[local] Abbreviation beg s := (ActiveWindow.beginningOfActiveWindow (recentActivity s)).

Definition exec (s : t) (e : Event) : res t :=
  match e with
  | NewView v n => newView s v n
  | Executed now n => fst <$> newSeqNumberExecution undefined now s n
  | Sending now n p => sendingPrePrepare now s n p
  | SlowCommit n => startingSlowCommit s n
  | PreparePartial n id => preparePartial s n id
  end.

(** Views do not go back. *)
Definition pre (s : t) (e : Event) : Prop :=
  match e with NewView v n => currentView s <= v ∧ 0 <= n | _ => True end.

Record inv (s : t) : Prop := {
  inv_only : onlyOptimisticFast s = (c s =? 0);
  inv_na : currentFirstPath s ≠ CP_NA;
  inv_path : c s = 0 → currentFirstPath s ≠ FAST_WITH_THRESHOLD;
  inv_time : minTimeToStartSlowPathMilli <= currentTimeToStartSlowPathMilli s <= maxTimeToStartSlowPathMilli;
  inv_activity : ActiveWindow.wf 64 1 (recentActivity s);
}.

Lemma aligned_1 n : 0 <= n → ActiveWindow.aligned 1 n.
Proof. split; [done|apply Z.mod_1_r]. Qed.

Lemma inv_inside s n : inv s → ActiveWindow.insideActiveWindow 64 (recentActivity s) n = true → ActiveWindow.aligned 1 n.
Proof.
  intros Hi Hn. destruct (ActiveWindow.wf_beg _ _ _ (inv_activity s Hi)) as [Hb _]. apply aligned_1.
  unfold ActiveWindow.insideActiveWindow in Hn. bool_to_prop. lia.
Qed.

Lemma inv_with_activity s a : inv s → ActiveWindow.wf 64 1 a → inv (with_activity s a).
Proof. intros [] Ha. by constructor. Qed.

Lemma activity_modified s n g : inv s → ActiveWindow.insideActiveWindow 64 (recentActivity s) n = true →
  ∃ x a, get (recentActivity s) n = Ok x ∧ ActiveWindow.modify 64 1 (recentActivity s) n g = Ok a ∧ inv (with_activity s a) ∧
    ActiveWindow.beginningOfActiveWindow a = beg s ∧ ∀ m, get a m = if decide (m = n) then Ok (g x) else get (recentActivity s) m.
Proof.
  intros Hi Hn. pose proof (inv_inside s n Hi Hn) as Ha. destruct (ActiveWindow.get_ok 64 1 _ n (inv_activity s Hi) Ha Hn) as (x & Hx & _ & _).
  destruct (ActiveWindow.modify_const 64 1 _ n (g x) (inv_activity s Hi) Ha Hn ltac:(done)) as (a & Hm & Hwf & Hb & Hg).
  exists x, a. unfold ActiveWindow.modify in Hm |- *. rewrite Hx in Hm |- *. cbn [mbind res_bind] in Hm |- *. split_and!; [done|done|by apply inv_with_activity|done|done].
Qed.

Lemma becomePrimary_inv s v n : inv s → isPrimary s = true → 0 <= n → ∃ s', onBecomePrimary s v n = Ok s' ∧ inv s'.
Proof.
  intros Hi Hp Hn. unfold onBecomePrimary. rewrite Hp. cbn [Assert mbind res_bind]. match goal with |- context [ActiveWindow.resetAll 1 _ ?x] => set (first := x) end.
  assert (Hf : 0 <= first) by (unfold first; case_match; dlia). unfold ActiveWindow.resetAll. rewrite Z.rem_1_r. cbn [Z.eqb Assert mbind res_bind].
  eexists. split; [done|]. destruct Hi. constructor; cbn; try done. apply ActiveWindow.wf_reset_all; [done|]. by apply aligned_1.
Qed.

(** ** Counting *)
Definition holdsAt (p : SeqNoInfo → bool) (a : ActiveWindow.t SeqNoInfo) (n : Z) : bool := match get a n with Ok x => p x | Err _ => false end.
Definition countOf (p : SeqNoInfo → bool) (s : t) : Z :=
  Z.of_nat (length (filter (fun n => holdsAt p (recentActivity s) n = true) (seqZ (beg s) 64))).

Lemma countIf_ok (p : SeqNoInfo → bool) a l : ∀ k, (∀ n, n ∈ l → is_ok (get a n) = true) →
  foldM (fun k i => x ← get a i; Ok (if p x then k + 1 else k)) k l =
  Ok (k + Z.of_nat (length (filter (fun n => holdsAt p a n = true) l))).
Proof.
  induction l as [|n l IH]; intros k Hl; cbn [foldM]; [cbn; by rewrite Z.add_0_r|].
  pose proof (Hl n ltac:(set_solver)) as Hn. destruct (get a n) as [x|] eqn:E; [|done]. cbn [mbind res_bind]. rewrite IH by set_solver. rewrite filter_cons.
  assert (holdsAt p a n = p x) as -> by (unfold holdsAt; by rewrite E). destruct (p x); [rewrite decide_True by done; cbn [length]; f_equal; lia|by rewrite decide_False by done].
Qed.

Lemma countOf_spec p s : inv s → countIf p (recentActivity s) (beg s) (beg s + 64 - 1) = Ok (countOf p s) ∧ 0 <= countOf p s <= 64.
Proof.
  intros Hi. unfold countIf, countOf. replace (beg s + 64 - 1 - beg s + 1) with 64 by lia. split.
  - rewrite countIf_ok; [done|]. intros n Hn%elem_of_seqZ.
    destruct (ActiveWindow.get_ok 64 1 (recentActivity s) n (inv_activity s Hi)) as (x & -> & _); [|unfold ActiveWindow.insideActiveWindow; rewrite (proj2 (Z.leb_le _ _)), (proj2 (Z.ltb_lt _ _)) by lia; done|done].
    apply aligned_1. destruct (ActiveWindow.wf_beg _ _ _ (inv_activity s Hi)). lia.
  - pose proof (length_filter (fun n => holdsAt p (recentActivity s) n = true) (seqZ (beg s) 64)) as Hl.
    rewrite length_seqZ in Hl. lia.
Qed.

(** A count does not depend on what [p] does not look at. *)
Lemma countOf_ext p s s' : beg s' = beg s → (∀ n, match get (recentActivity s') n, get (recentActivity s) n with Ok x, Ok y => p x = p y | Err _, Err _ => True | _, _ => False end) → countOf p s' = countOf p s.
Proof.
  intros Hb Hg. unfold countOf. rewrite Hb. f_equal. f_equal. apply list_filter_iff. intros n. specialize (Hg n). unfold holdsAt. by destruct (get (recentActivity s') n), (get (recentActivity s) n); rewrite ?Hg.
Qed.

(** ** The decision at the end of a period *)
Definition newPath (s : t) (full partially ok : Z) : CommitPath :=
  match currentFirstPath s with
  | SLOW => if 61 <=? full then OPTIMISTIC_FAST else if negb (c s =? 0) && (55 <=? full + partially) then FAST_WITH_THRESHOLD else SLOW
  | OPTIMISTIC_FAST => if ok <? 55 then if c s =? 0 then SLOW else FAST_WITH_THRESHOLD else OPTIMISTIC_FAST
  | FAST_WITH_THRESHOLD => if ok <? 55 then SLOW else FAST_WITH_THRESHOLD
  | CP_NA => CP_NA
  end.

Lemma factors k : 0 <= k <= 128 →
  SFleb (ofPeriod debugUpgradeFactorForFastOptimisticPath) (Float.float k) = (61 <=? k) ∧
  SFleb (ofPeriod debugUpgradeFactorForFastPath) (Float.float k) = (55 <=? k) ∧
  SFltb (Float.float k) (ofPeriod debugDowngradeFactor) = (k <? 55).
Proof.
  intros Hk. assert (Hall : forallb (fun k => eqb (SFleb (ofPeriod debugUpgradeFactorForFastOptimisticPath) (Float.float k)) (61 <=? k) &&
    eqb (SFleb (ofPeriod debugUpgradeFactorForFastPath) (Float.float k)) (55 <=? k) && eqb (SFltb (Float.float k) (ofPeriod debugDowngradeFactor)) (k <? 55)) (seqZ 0 129) = true) by (by vm_compute).
  assert (Hin : k ∈ seqZ 0 129) by (rewrite elem_of_seqZ; lia). rewrite list_elem_of_In in Hin. rewrite forallb_forall in Hall. specialize (Hall k Hin). cbv beta in Hall.
  apply andb_true_iff in Hall as [[? ?]%andb_true_iff ?]. split_and!; by apply eqb_true_iff.
Qed.

Definition counts (s : t) : Z * Z * Z := (countOf (fullCooperation s) s, countOf (partialCooperation s) s, countOf (fun i => negb (switchToSlowPath i)) s).

Lemma evaluatePath_ok s : inv s → let '(full, partially, ok) := counts s in let path := newPath s full partially ok in
  ∃ down, evaluatePath s (beg s) (beg s + 64 - 1) = Ok (path, down, bool_decide (path ≠ currentFirstPath s)) ∧
    path ≠ CP_NA ∧ (c s = 0 → path ≠ FAST_WITH_THRESHOLD).
Proof.
  intros Hi. cbn [counts]. pose proof Hi as [Ho Hna Hp _ _]. unfold evaluatePath. rewrite Ho.
  destruct (countOf_spec (fullCooperation s) s Hi) as [-> H1]. destruct (countOf_spec (partialCooperation s) s Hi) as [-> H2].
  destruct (countOf_spec (fun i => negb (switchToSlowPath i)) s Hi) as [-> H3]. cbn [mbind res_bind debugUpgradeEnabled debugDowngradeEnabled andb].
  rewrite (proj1 (factors (countOf (fullCooperation s) s) ltac:(lia))), (proj1 (proj2 (factors (countOf (fullCooperation s) s + countOf (partialCooperation s) s) ltac:(lia)))),
    (proj2 (proj2 (factors (countOf (fun i => negb (switchToSlowPath i)) s) ltac:(lia)))).
  unfold newPath. destruct (currentFirstPath s) eqn:E; [done| | |]; cbn [bool_decide decide_rel]; rewrite ?bool_decide_eq_true_2, ?bool_decide_eq_false_2 by done;
    cbn [orb Assert mbind res_bind andb]; rewrite ?andb_true_r, ?andb_false_r; destruct (Z.eqb_spec (c s) 0); cbn [negb andb]; repeat case_match; eexists; (split; [done|]); naive_solver.
Qed.

Lemma newSlowPathTime_bounds s : minTimeToStartSlowPathMilli <= newSlowPathTime undefined s <= maxTimeToStartSlowPathMilli.
Proof.
  unfold newSlowPathTime. cbv zeta. match goal with |- context [if ?a <? minTimeToStartSlowPathMilli then _ else _] => generalize a end. intros x.
  unfold minTimeToStartSlowPathMilli, maxTimeToStartSlowPathMilli. repeat case_match; bool_to_prop; lia.
Qed.

Lemma endOfPeriod_ok s : inv s → let '(full, partially, ok) := counts s in let path := newPath s full partially ok in
  ∃ s', onEndOfEvaluationPeriod undefined s = Ok (s', bool_decide (path ≠ currentFirstPath s)) ∧ inv s' ∧ currentFirstPath s' = path ∧
    beg s' = beg s + 64 ∧ Forall (eq newInfo) (ActiveWindow.activeWindow (recentActivity s')).
Proof.
  intros Hi. pose proof (evaluatePath_ok s Hi) as He. cbn [counts] in *. destruct He as (down & He & Hna & Hp).
  unfold onEndOfEvaluationPeriod. cbn [ActiveWindow.currentActiveWindow]. rewrite He. cbn [mbind res_bind]. unfold ActiveWindow.resetAll. rewrite Z.rem_1_r. cbn [Z.eqb Assert mbind res_bind].
  replace (beg s + 64 - 1 + 1) with (beg s + 64) by lia. pose proof Hi as [Ho _ _ Ht Ha]. destruct (ActiveWindow.wf_beg _ _ _ Ha) as [Hb _].
  assert (Hwf : ActiveWindow.wf 64 1 (ActiveWindow.mk (beg s + 64) (item_reset <$> ActiveWindow.activeWindow (recentActivity s)))) by (apply ActiveWindow.wf_reset_all; [done|apply aligned_1; lia]).
  eexists. split; [done|]. assert (Forall (eq newInfo) (item_reset <$> ActiveWindow.activeWindow (recentActivity s))) by (apply Forall_fmap, Forall_true; done).
  destruct down; split_and!; try done; constructor; cbn; try done. apply newSlowPathTime_bounds.
Qed.

Lemma executed_ok now s n : inv s → ∃ s' b, newSeqNumberExecution undefined now s n = Ok (s', b) ∧ inv s'.
Proof.
  intros Hi. unfold newSeqNumberExecution. destruct (isPrimary s) eqn:Hp; cbn [negb orb]; [|by exists s, false].
  destruct (ActiveWindow.insideActiveWindow 64 (recentActivity s) n) eqn:Hn; cbn [negb]; [|by exists s, false].
  destruct (ActiveWindow.get_ok 64 1 _ n (inv_activity s Hi) (inv_inside s n Hi Hn) Hn) as (x & Hx & _ & _). rewrite Hx. cbn [mbind res_bind].
  match goal with |- context [ActiveWindow.modify 64 1 (recentActivity s) n ?g] => destruct (activity_modified s n g Hi Hn) as (y & a & _ & -> & Ha & _) end.
  cbn [mbind res_bind]. match goal with |- context [with_stats (with_activity s a) ?st] => set (s1 := with_stats (with_activity s a) st) end.
  assert (Hi1 : inv s1) by (destruct Ha; by constructor). destruct (n =? _); [|by exists s1, false].
  pose proof (endOfPeriod_ok s1 Hi1) as (s' & -> & Hi' & _). eauto.
Qed.

Lemma newView_ok s v n : inv s → currentView s <= v → 0 <= n → ∃ s', newView s v n = Ok s' ∧ inv s'.
Proof.
  intros Hi Hv Hn. unfold newView. rewrite (proj2 (Z.leb_le _ _) Hv). cbn [Assert mbind res_bind]. set (s1 := with_view _ _ _).
  assert (Hi1 : inv s1) by (destruct Hi; by constructor). destruct (isPrimary s1) eqn:Hp; [by apply becomePrimary_inv|eauto].
Qed.

Lemma sending_ok now s n p : inv s → ∃ s', sendingPrePrepare now s n p = Ok s' ∧ inv s'.
Proof.
  intros Hi. unfold sendingPrePrepare. destruct (_ || _) eqn:E; [eauto|]. bool_to_prop.
  match goal with |- context [ActiveWindow.modify 64 1 (recentActivity s) n ?g] => destruct (activity_modified s n g Hi ltac:(done)) as (y & a & _ & -> & Ha & _) end. cbn. eauto.
Qed.

Lemma event_inv s e : inv s → pre s e → ∃ s', exec s e = Ok s' ∧ inv s'.
Proof.
  intros Hi He. destruct e as [v n|now n|now n p|n|n id]; cbn [exec pre] in *.
  - destruct He. by apply newView_ok.
  - destruct (executed_ok now s n Hi) as (s' & b & -> & Hi'). eauto.
  - by apply sending_ok.
  - unfold startingSlowCommit. destruct (_ || _) eqn:E; [eauto|]. destruct (bool_decide _); [eauto|]. bool_to_prop.
    match goal with |- context [ActiveWindow.modify 64 1 (recentActivity s) n ?g] => destruct (activity_modified s n g Hi ltac:(done)) as (y & a & _ & -> & Ha & _) end. cbn. eauto.
  - unfold preparePartial. destruct (negb (isPrimary s)); [eauto|]. destruct (negb (bool_decide _)); [eauto|]. destruct (negb _) eqn:E; [eauto|]. bool_to_prop.
    match goal with |- context [ActiveWindow.modify 64 1 (recentActivity s) n ?g] => destruct (activity_modified s n g Hi ltac:(done)) as (y & a & -> & Hm & Ha & _) end.
    cbn [mbind res_bind]. destruct (switchToSlowPath y); [eauto|]. case_bool_decide; [eauto|]. rewrite Hm. cbn. eauto.
Qed.

(** The parameters do not change. *)
Lemma becomePrimary_c s v n s' : onBecomePrimary s v n = Ok s' → c s' = c s.
Proof. intros H. unfold onBecomePrimary in H. res_simpl. done. Qed.

Lemma exec_c s e s' : exec s e = Ok s' → c s' = c s.
Proof.
  intros He. destruct e as [v n|now n|now n p|n|n id]; cbn [exec] in He.
  - unfold newView in He. res_simpl. case_match; [by apply becomePrimary_c in He|by injection He as <-].
  - destruct (newSeqNumberExecution undefined now s n) as [[s1 b]|] eqn:E; [|done]. injection He as <-. unfold newSeqNumberExecution in E. case_match; [by injection E as <-|].
    res_simpl. case_match; [|by injection E as <-]. unfold onEndOfEvaluationPeriod in E. cbn [ActiveWindow.currentActiveWindow] in E. apply bind_ok in E as ([[p d] ch] & _ & E).
    apply bind_ok in E as (a & _ & E). injection E as <- <-. by destruct d.
  - unfold sendingPrePrepare in He. case_match; [by injection He as <-|]. res_simpl. done.
  - unfold startingSlowCommit in He. repeat case_match; [by injection He as <-..|]. res_simpl. done.
  - unfold preparePartial in He. repeat (case_match; [by injection He as <-|]). apply bind_ok in He as (i & _ & He). repeat (case_match; [by injection He as <-|]). res_simpl. done.
Qed.

Lemma ctor_ok C F id v n m : 0 <= n → ∃ s, ctor C F id v n m = Ok s ∧ inv s ∧ c s = C.
Proof.
  intros Hn. unfold ctor. destruct (ActiveWindow.win_ctor_wf 64 1 1 (aligned_1 1 ltac:(lia))) as (a & -> & Ha & _). cbn [mbind res_bind]. set (s := mk _ _ _ _ _ _ _ _ _ _ _).
  assert (Hi : inv s) by (by constructor). destruct (isPrimary s) eqn:Hp; [|by exists s].
  destruct (becomePrimary_inv s v n Hi Hp Hn) as (s' & Hs & Hi'). exists s'. split_and!; [done|done|]. by apply becomePrimary_c in Hs.
Qed.

(** The last number of a period decides. *)
Lemma period_spec now s n : inv s → isPrimary s = true → n = beg s + 64 - 1 →
  let '(full, partially, ok) := counts s in let path := newPath s full partially ok in
  ∃ s', newSeqNumberExecution undefined now s n = Ok (s', bool_decide (path ≠ currentFirstPath s)) ∧ currentFirstPath s' = path ∧
    beg s' = n + 1 ∧ Forall (eq newInfo) (ActiveWindow.activeWindow (recentActivity s')).
Proof.
  intros Hi Hp Hlast. assert (Hn : ActiveWindow.insideActiveWindow 64 (recentActivity s) n = true)
    by (unfold ActiveWindow.insideActiveWindow; rewrite (proj2 (Z.leb_le _ _)), (proj2 (Z.ltb_lt _ _)) by lia; done).
  unfold newSeqNumberExecution. rewrite Hp, Hn. cbn [negb orb].
  destruct (ActiveWindow.get_ok 64 1 _ n (inv_activity s Hi) (inv_inside s n Hi Hn) Hn) as (x & Hx & _ & _). rewrite Hx. cbn [mbind res_bind].
  match goal with |- context [ActiveWindow.modify 64 1 (recentActivity s) n ?g] => destruct (activity_modified s n g Hi Hn) as (y & a & Hy & -> & Ha & Hb & Hg) end.
  cbn [mbind res_bind]. match goal with |- context [with_stats (with_activity s a) ?st] => set (s1 := with_stats (with_activity s a) st) end.
  assert (Hi1 : inv s1) by (destruct Ha; by constructor).
  assert (Hc : ∀ p, (∀ d (i : SeqNoInfo), p (mkInfo (switchToSlowPath i) (prePrepareTime i) d (replicas i)) = p i) → countOf p s1 = countOf p s).
  { intros p Hq. apply countOf_ext; [done|]. intros m. cbn [s1 with_stats with_activity recentActivity]. rewrite Hg. case_decide as Hd; [subst m; rewrite Hy; apply Hq|].
    by destruct (get (recentActivity s) m). }
  cbn [s1 with_stats with_activity recentActivity ActiveWindow.currentActiveWindow snd]. fold s1. rewrite Hb, (proj2 (Z.eqb_eq _ _) Hlast).
  pose proof (endOfPeriod_ok s1 Hi1) as He. unfold counts in *. rewrite !Hc in He by done. cbn [counts]. destruct He as (s' & He & _ & Hpath & Hbeg & Hall).
  exists s'. split_and!; [exact He|exact Hpath|change (beg s1) with (ActiveWindow.beginningOfActiveWindow a) in Hbeg; lia|done].
Qed.
End history.

(** ** Properties *)

(** C26: The controller of the replica, with its events in any order: no assertion fails and no information about a number
    outside the window is used; the path it gives is never one that the replicas cannot use (the fast path with a threshold
    needs [c > 0]), the time to start the slow path stays between 20 and 2000 milliseconds and the period of its timer
    between 10 and 1000. *)
Theorem controller_safe undefined C F id v n memory : 0 <= n →
  ∃ s0, ctor C F id v n memory = Ok s0 ∧ ∀ s, reachable (exec undefined) pre s0 s →
    (∀ e, pre s e → ∃ s', exec undefined s e = Ok s') ∧
    getCurrentFirstPath (Controller := controller undefined) s ≠ CP_NA ∧ (C = 0 → getCurrentFirstPath (Controller := controller undefined) s ≠ FAST_WITH_THRESHOLD) ∧
    20 <= timeToStartSlowPathMilli (Controller := controller undefined) s <= 2000 ∧ 10 <= slowPathsTimerMilli (Controller := controller undefined) s <= 1000.
Proof.
  intros Hn. destruct (ctor_ok C F id v n memory Hn) as (s0 & H0 & Hi0 & Hc0). exists s0. split; [done|]. intros s Hr.
  assert (Hi : inv s ∧ c s = C).
  { apply (reachable_invariant (exec undefined) pre s0 (fun s => inv s ∧ c s = C)); [done| |done]. intros w e [Hw Hcw] He.
    destruct (event_inv undefined w e Hw He) as (w' & Hx & Hw'). exists w'. split_and!; [done|done|]. rewrite <- Hcw. by eapply exec_c. }
  destruct Hi as [Hi Hc]. pose proof Hi as [_ Hna Hp Ht _]. unfold minTimeToStartSlowPathMilli, maxTimeToStartSlowPathMilli in Ht. cbn. split_and!; try lia; try done.
  - intros e He. destruct (event_inv undefined s e Hi He) as (s' & ? & _). eauto.
  - rewrite Hc in Hp. done.
  - unfold slowPathsTimer. case_match; bool_to_prop; dlia.
  - unfold slowPathsTimer. case_match; bool_to_prop; dlia.
Qed.

Definition ex_stats : RollingAvgAndVar.t := RollingAvgAndVar.mk 0 S754_nan S754_nan S754_nan S754_nan.
Definition ex_undefined (x : spec_float) : Z := 0.

Lemma controller_safe_witness : ∃ s0, ctor 0 1 0 0 0 ex_stats = Ok s0 ∧ currentFirstPath s0 ≠ FAST_WITH_THRESHOLD.
Proof.
  destruct (controller_safe ex_undefined 0 1 0 0 0 ex_stats ltac:(lia)) as (s0 & H0 & Hall). exists s0. split; [done|].
  destruct (Hall s0 (reachable_init _ _ _)) as (_ & _ & Hp & _). by apply Hp.
Defined.

(** What an evaluation period of 64 numbers decides, when the primary executes its last number: from the slow path it goes to
    the optimistic fast path when all replicas took part in at least 61 of the numbers, or, with [c > 0], to the fast path
    with a threshold when all or [3f + c] of them took part in at least 55; from a fast path it goes to the next slower one
    when fewer than 55 numbers did without the slow path.  The result tells whether the path changed, and the next period
    starts after the number with no information. *)
Theorem evaluation_period_spec undefined C F id v n memory s0 s now :
  0 <= n → ctor C F id v n memory = Ok s0 → reachable (exec undefined) pre s0 s → isPrimary s = true →
  let last := (ActiveWindow.currentActiveWindow 64 (recentActivity s)).2 in
  let '(full, partially, ok) := counts s in let path := newPath s full partially ok in
  ∃ s', newSeqNumberExecution undefined now s last = Ok (s', bool_decide (path ≠ currentFirstPath s)) ∧ currentFirstPath s' = path ∧
    ActiveWindow.beginningOfActiveWindow (recentActivity s') = last + 1 ∧ Forall (eq newInfo) (ActiveWindow.activeWindow (recentActivity s')).
Proof.
  intros Hn H0 Hr Hp last. destruct (ctor_ok C F id v n memory Hn) as (s0' & H0' & Hi0 & _). assert (s0' = s0) as -> by congruence.
  apply period_spec; [|done|done]. revert Hr. apply reachable_invariant; [done|]. intros w e Hw He. by apply event_inv.
Qed.

(** The primary with [c = 0] starts the slow path for ten of the numbers. *)
Definition ex_start : res t := ctor 0 1 0 0 0 ex_stats.

Lemma slowCommits_reachable undefined ns : ∀ s0 s s', reachable (exec undefined) pre s0 s → run (exec undefined) s (SlowCommit <$> ns) = Ok s' → reachable (exec undefined) pre s0 s'.
Proof.
  induction ns as [|n ns IH]; intros s0 s s' Hr He; [by injection He as <-|]. rewrite fmap_cons in He. cbn [run] in He. apply bind_ok in He as (s1 & H1 & He).
  eapply IH; [|exact He]. by apply (reachable_step _ _ _ s (SlowCommit n)).
Qed.

Definition ex_period_ok (s : t) : bool := isPrimary s && bool_decide (counts s = (0, 0, 54)) && bool_decide (currentFirstPath s = OPTIMISTIC_FAST) && (c s =? 0) &&
  ((ActiveWindow.currentActiveWindow 64 (recentActivity s)).2 =? 64).
Lemma ex_period_check : (match s ← ex_start; run (exec ex_undefined) s (SlowCommit <$> seqZ 1 10) with Ok s => ex_period_ok s | Err _ => false end) = true.
Proof. vm_compute. reflexivity. Qed.

Lemma checked_reachable undefined (r : res t) ns (ok : t → bool) : (match s ← r; run (exec undefined) s (SlowCommit <$> ns) with Ok s => ok s | Err _ => false end) = true →
  ∃ s0 s, r = Ok s0 ∧ reachable (exec undefined) pre s0 s ∧ ok s = true.
Proof.
  intros Hb. destruct r as [s0|]; [|done]. cbn [mbind res_bind] in Hb. destruct (run _ s0 _) as [s|] eqn:Hs; [|done]. exists s0, s. split_and!; [done| |done].
  by eapply slowCommits_reachable; [apply reachable_init|].
Qed.

Lemma evaluation_period_spec_witness : ∃ s s', newSeqNumberExecution ex_undefined 5000 s 64 = Ok (s', true) ∧ currentFirstPath s = OPTIMISTIC_FAST ∧ currentFirstPath s' = SLOW.
Proof.
  destruct (checked_reachable ex_undefined ex_start (seqZ 1 10) ex_period_ok ex_period_check) as (s0 & s & H0 & Hr & Hok). unfold ex_period_ok in Hok. apply andb_true_iff in Hok as [[[[Hp Hc%bool_decide_eq_true]%andb_true_iff Hpath%bool_decide_eq_true]%andb_true_iff Hcc%Z.eqb_eq]%andb_true_iff Hlast%Z.eqb_eq].
  pose proof (evaluation_period_spec ex_undefined 0 1 0 0 0 ex_stats s0 s 5000 ltac:(lia) H0 Hr Hp) as He. cbv zeta in He. rewrite Hc, Hlast in He. unfold newPath in He. rewrite Hpath, Hcc in He.
  destruct He as (s' & He & Hp' & _). by exists s, s'.
Defined.
End ControllerProps.
