(* ===== verification/ClientReplyMsg.v ===== *)
(** * ClientReplyMsg (bftengine/src/bftengine/ClientReplyMsg.hpp, .cpp;
    bftengine/include/bftengine/ClientMsgs.hpp)

    A reply to a client: a header of 16 bytes followed by data.  [ReqId] is [uint64_t],
    the length is an [uint32_t]. *)
From S2P Require Import Prelude SysConsts ReplicasInfo MessageBase.

Module ClientReplyMsg.

Definition sizeof_ClientReplyMsgHeader : Z := 16.

Definition currentPrimaryId (m : MessageBase.t) : res Z := get_uint 2 (MessageBase.msgBody_ m) 2.
Definition reqSeqNum (m : MessageBase.t) : res Z := get_uint 8 (MessageBase.msgBody_ m) 4.
Definition replyLength (m : MessageBase.t) : res Z := get_uint 4 (MessageBase.msgBody_ m) 12.
Definition maxReplyLength (m : MessageBase.t) : Z := u32 (MessageBase.storageSize_ m - sizeof_ClientReplyMsgHeader).

(** The three fields after the type. *)
Definition writeHeader (m : MessageBase.t) (primaryId seqNum length : Z) : res MessageBase.t :=
  b1 ← put_int 8 (MessageBase.msgBody_ m) 4 seqNum;
  b2 ← put_int 2 b1 2 primaryId;
  b3 ← put_int 4 b2 12 length;
  Ok (with_body m b3).

(** [ClientReplyMsg(ReplicaId, ReqId, ReplicaId)] *)
Definition ctor_primary (primaryId seqNum replicaId : Z) : res MessageBase.t :=
  m ← MessageBase.ctor replicaId MC_Reply maxExternalMessageSize;
  m ← writeHeader m primaryId seqNum 0;
  MessageBase.setMsgSize m sizeof_ClientReplyMsgHeader.

(** [ClientReplyMsg(ReplicaId, ReqId, char*, uint32_t)] *)
Definition ctor (replicaId seqNum : Z) (reply : list Z) (replyLength : Z) : res MessageBase.t :=
  m ← MessageBase.ctor replicaId MC_Reply (u32 (sizeof_ClientReplyMsgHeader + replyLength));
  m ← writeHeader m 0 seqNum replyLength;
  src ← get_bytes reply 0 replyLength;
  body ← put_bytes (MessageBase.msgBody_ m) sizeof_ClientReplyMsgHeader src;
  MessageBase.setMsgSize (with_body m body) (u32 (sizeof_ClientReplyMsgHeader + replyLength)).

(** [ClientReplyMsg(ReplicaId, uint32_t)] *)
Definition ctor_empty (replicaId replyLength : Z) : res MessageBase.t :=
  m ← MessageBase.ctor replicaId MC_Reply (u32 (sizeof_ClientReplyMsgHeader + replyLength));
  m ← writeHeader m 0 0 replyLength;
  MessageBase.setMsgSize m (u32 (sizeof_ClientReplyMsgHeader + replyLength)).

Definition setReplyLength (m : MessageBase.t) (replyLength : Z) : res MessageBase.t :=
  assert! (replyLength <=? maxReplyLength m) ;;
  body ← put_int 4 (MessageBase.msgBody_ m) 12 replyLength;
  MessageBase.setMsgSize (with_body m body) (u32 (sizeof_ClientReplyMsgHeader + replyLength)).

Definition setPrimaryId (m : MessageBase.t) (primaryId : Z) : res MessageBase.t :=
  body ← put_int 2 (MessageBase.msgBody_ m) 2 primaryId; Ok (with_body m body).

(** The bytes of the reply, at [replyBuf()]. *)
Definition replyBytes (m : MessageBase.t) : res (list Z) :=
  l ← replyLength m; get_bytes (MessageBase.msgBody_ m) sizeof_ClientReplyMsgHeader l.

(** The sum of the sizes is an [uint32_t]. *)
Definition ToActualMsgType (inMsg : MessageBase.t) : res bool :=
  ty ← MessageBase.type inMsg;
  assert! (ty =? code_of MC_Reply) ;;
  if MessageBase.msgSize_ inMsg <? sizeof_ClientReplyMsgHeader then Ok false
  else
    l ← replyLength inMsg;
    if MessageBase.msgSize_ inMsg <? u32 (sizeof_ClientReplyMsgHeader + l) then Ok false else Ok true.

(** The remaining words of the reply, [n] of them, from [off]. *)
Fixpoint xorWords (buf : list Z) (n : nat) (off retVal : Z) : res Z :=
  match n with
  | O => Ok retVal
  | S n' => w ← get_uint 8 buf off; xorWords buf n' (off + 8) (Z.lxor retVal w)
  end.

Definition debugHash (m : MessageBase.t) : res Z :=
  replyLen ← replyLength m;
  assert! (0 <? replyLen) ;;
  let firstWordLen := if replyLen mod 8 =? 0 then 8 else replyLen mod 8 in
  assert! ((replyLen - firstWordLen) mod 8 =? 0) ;;
  let numberOfWords := (replyLen - firstWordLen) / 8 + 1 in
  first ← get_bytes (MessageBase.msgBody_ m) sizeof_ClientReplyMsgHeader firstWordLen;
  xorWords (MessageBase.msgBody_ m) (Z.to_nat (numberOfWords - 1)) (sizeof_ClientReplyMsgHeader + firstWordLen) (le_dec first).

(** ** Layout *)
Definition layout (primaryId seqNum : Z) (reply : list Z) : list Z :=
  le_enc 2 (code_of MC_Reply) ++ le_enc 2 primaryId ++ le_enc 8 seqNum ++ le_enc 4 (Z.of_nat (length reply)) ++ reply.

Definition image (sender primaryId seqNum : Z) (reply : list Z) : MessageBase.t :=
  let n := sizeof_ClientReplyMsgHeader + Z.of_nat (length reply) in
  MessageBase.mk (layout primaryId seqNum reply) n n sender true.

Lemma length_layout p s r : Z.of_nat (length (layout p s r)) = sizeof_ClientReplyMsgHeader + Z.of_nat (length r).
Proof. unfold layout, sizeof_ClientReplyMsgHeader. rewrite !length_app, !length_le_enc. lia. Qed.

#[local] Abbreviation small n := (0 <= n < 4294967296 - sizeof_ClientReplyMsgHeader).

Lemma writeHeader_layout sender size st own t0 f1 f2 f3 data p s n : length t0 = 2%nat → length f1 = 2%nat → length f2 = 8%nat → length f3 = 4%nat →
  writeHeader (MessageBase.mk (t0 ++ f1 ++ f2 ++ f3 ++ data) size st sender own) p s n =
    Ok (MessageBase.mk (t0 ++ le_enc 2 p ++ le_enc 8 s ++ le_enc 4 n ++ data) size st sender own).
Proof.
  intros H0 H1 H2 H3. unfold writeHeader, put_int. cbn [MessageBase.msgBody_].
  rewrite (put_bytes_skip_to t0 _ _ _ (f1 ++ le_enc 8 s ++ f3 ++ data)); [|lia|rewrite H0; apply put_bytes_skip_to; [lia|rewrite H1; by apply put_bytes_here]].
  res_step. rewrite (put_bytes_skip_to t0 _ _ _ (le_enc 2 p ++ le_enc 8 s ++ f3 ++ data)); [|lia|rewrite H0; by apply put_bytes_here].
  res_step. rewrite (put_bytes_skip_to t0 _ _ _ (le_enc 2 p ++ le_enc 8 s ++ le_enc 4 n ++ data)); [done|lia|rewrite H0].
  apply put_bytes_skip_to; [len_tac|]. apply put_bytes_skip_to; [len_tac|]. apply put_bytes_here; len_tac.
Qed.

(** A new message before its data is written. *)
Lemma new_layout sender n k p s l : k = 16 + n → 0 <= n →
  (m ← MessageBase.ctor sender MC_Reply k; writeHeader m p s l) =
    Ok (MessageBase.mk (le_enc 2 (code_of MC_Reply) ++ le_enc 2 p ++ le_enc 8 s ++ le_enc 4 l ++ replicate (Z.to_nat n) 0) k k sender true).
Proof.
  intros -> Hn. unfold MessageBase.ctor, put_int. rewrite (proj2 (Z.ltb_lt 0 _)) by lia. res_step.
  replace (Z.to_nat (16 + n)) with (2 + (2 + (8 + (4 + Z.to_nat n))))%nat by lia.
  rewrite !replicate_add. rewrite (put_bytes_head (replicate 2 0)) by done. res_step. by apply writeHeader_layout.
Qed.

Lemma setMsgSize_full body n sender own : MessageBase.setMsgSize (MessageBase.mk body n n sender own) n = Ok (MessageBase.mk body n n sender own).
Proof. unfold MessageBase.setMsgSize. cbn. by rewrite Z.leb_refl, Z.ltb_irrefl. Qed.

Lemma ctor_image sender seqNum reply buf : small (Z.of_nat (length reply)) →
  ctor sender seqNum (reply ++ buf) (Z.of_nat (length reply)) = Ok (image sender 0 seqNum reply).
Proof.
  intros Hs. unfold ctor. rewrite u32_small by (unfold sizeof_ClientReplyMsgHeader in *; lia). set (n := Z.of_nat (length reply)).
  pose proof (new_layout sender n (sizeof_ClientReplyMsgHeader + n) 0 seqNum n eq_refl ltac:(lia)) as E.
  destruct (MessageBase.ctor sender MC_Reply _) as [m|] eqn:Em; [|done]. cbn [mbind res_bind] in E |- *. rewrite E. res_step.
  rewrite get_bytes_head by done. res_step. cbn [MessageBase.msgBody_].
  rewrite (put_bytes_skip_to (le_enc 2 (code_of MC_Reply)) _ _ _ (le_enc 2 0 ++ le_enc 8 seqNum ++ le_enc 4 n ++ reply)); [|done|].
  - res_step. unfold with_body. cbn [MessageBase.msgSize_ MessageBase.storageSize_ MessageBase.sender_ MessageBase.owner_]. by rewrite setMsgSize_full.
  - apply put_bytes_skip_to; [done|]. apply put_bytes_skip_to; [done|]. apply put_bytes_skip_to; [done|].
    apply put_bytes_last; [done|]. rewrite length_replicate. unfold n. lia.
Qed.

Lemma ctor_empty_image sender n : small n →
  ctor_empty sender n = Ok (image sender 0 0 (replicate (Z.to_nat n) 0)).
Proof.
  intros Hs. unfold ctor_empty. rewrite u32_small by (unfold sizeof_ClientReplyMsgHeader in *; lia).
  pose proof (new_layout sender n (sizeof_ClientReplyMsgHeader + n) 0 0 n eq_refl ltac:(lia)) as E.
  destruct (MessageBase.ctor sender MC_Reply _) as [m|] eqn:Em; [|done]. cbn [mbind res_bind] in E |- *. rewrite E. res_step.
  rewrite setMsgSize_full. unfold image, layout. rewrite length_replicate, Z2Nat.id by lia. done.
Qed.

Lemma setPrimaryId_image sender p p' s r : setPrimaryId (image sender p s r) p' = Ok (image sender p' s r).
Proof.
  unfold setPrimaryId, put_int, image, layout. cbn [MessageBase.msgBody_].
  rewrite (put_bytes_skip_to (le_enc 2 (code_of MC_Reply)) _ _ _ (le_enc 2 p' ++ le_enc 8 s ++ le_enc 4 (Z.of_nat (length r)) ++ r)); [done|done|].
  apply put_bytes_here; len_tac.
Qed.

(** The fields of a header in front of any data. *)
Lemma header_fields ty p s n data sender size st own : 0 <= ty < 65536 → 0 <= p < 65536 → 0 <= s < 2 ^ 64 → 0 <= n < 2 ^ 32 →
  let m := MessageBase.mk (le_enc 2 ty ++ le_enc 2 p ++ le_enc 8 s ++ le_enc 4 n ++ data) size st sender own in
  MessageBase.type m = Ok ty ∧ currentPrimaryId m = Ok p ∧ reqSeqNum m = Ok s ∧ replyLength m = Ok n.
Proof.
  intros Ht Hp Hs Hn m. unfold MessageBase.type, currentPrimaryId, reqSeqNum, replyLength, get_uint, m. cbn [MessageBase.msgBody_]. split_and!.
  - rewrite get_bytes_head by done. cbn [fmap res_fmap]. rewrite le_dec_enc. f_equal. by apply (wrap_small 16).
  - rewrite (get_bytes_skip_to _ _ _ _ (Ok (le_enc 2 p))); [|done|solve_get]. cbn [fmap res_fmap]. rewrite le_dec_enc. f_equal. by apply (wrap_small 16).
  - rewrite (get_bytes_skip_to _ _ _ _ (Ok (le_enc 8 s))); [|done|solve_get]. cbn [fmap res_fmap]. rewrite le_dec_enc. f_equal. by apply (wrap_small 64).
  - rewrite (get_bytes_skip_to _ _ _ _ (Ok (le_enc 4 n))); [|done|solve_get]. cbn [fmap res_fmap]. rewrite le_dec_enc. f_equal. by apply (wrap_small 32).
Qed.

Lemma xorWords_ok buf n off r : 0 <= off → off + 8 * Z.of_nat n <= Z.of_nat (length buf) → is_ok (xorWords buf n off r) = true.
Proof.
  revert off r. induction n as [|n IH]; intros off r H0 H; [done|]. cbn [xorWords]. unfold get_uint.
  destruct (get_bytes_in buf off 8) as (bs & E & _); [lia|lia|lia|]. change (Z.of_nat 8) with 8. rewrite E. cbn [fmap res_fmap mbind res_bind]. apply IH; lia.
Qed.

Lemma debugHash_ok sender p s r : 0 < Z.of_nat (length r) < 2 ^ 32 → 0 <= p < 65536 → 0 <= s < 2 ^ 64 → is_ok (debugHash (image sender p s r)) = true.
Proof.
  intros Hr Hp Hs. destruct (header_fields (code_of MC_Reply) p s (Z.of_nat (length r)) r sender (16 + Z.of_nat (length r)) (16 + Z.of_nat (length r)) true ltac:(done) Hp Hs ltac:(lia)) as (_ & _ & _ & E).
  unfold debugHash. change (replyLength (image sender p s r)) with (replyLength (MessageBase.mk
    (le_enc 2 (code_of MC_Reply) ++ le_enc 2 p ++ le_enc 8 s ++ le_enc 4 (Z.of_nat (length r)) ++ r) (16 + Z.of_nat (length r)) (16 + Z.of_nat (length r)) sender true)).
  cbv zeta in E. rewrite E. cbn [mbind res_bind].
  set (n := Z.of_nat (length r)) in *. rewrite (proj2 (Z.ltb_lt 0 n)) by lia. cbn [Assert mbind res_bind].
  set (f := if n mod 8 =? 0 then 8 else n mod 8).
  assert (Hf : 0 < f <= n ∧ (n - f) mod 8 = 0) by (unfold f; destruct (Z.eqb_spec (n mod 8) 0); dlia).
  rewrite (proj2 (Z.eqb_eq _ 0) (proj2 Hf)). cbn [Assert mbind res_bind].
  pose proof (length_layout p s r) as Hlen. unfold sizeof_ClientReplyMsgHeader in *.
  destruct (get_bytes_in (layout p s r) 16 f) as (bs & Eb & _); [lia|lia|lia|].
  change (MessageBase.msgBody_ (image sender p s r)) with (layout p s r). rewrite Eb. cbn [mbind res_bind].
  apply xorWords_ok; [lia|]. rewrite Hlen. dlia.
Qed.
End ClientReplyMsg.
