(* ===== verification/ClientRequestMsg.v ===== *)
(** * ClientRequestMsg (bftengine/src/bftengine/ClientRequestMsg.hpp, .cpp;
    bftengine/include/bftengine/ClientMsgs.hpp)

    A request of a client: a header of 17 bytes followed by data.  The fields are read at an
    offset of a buffer, because requests also lie inside pre-prepare messages. *)
From S2P Require Import Prelude SysConsts ReplicasInfo MessageBase.

Module ClientRequestMsg.

Definition sizeof_ClientRequestMsgHeader : Z := 17.

(** The fields of a header at offset [off] of a buffer: requests also lie inside batches. *)
Definition idOfClientProxy (buf : list Z) (off : Z) : res Z := get_uint 2 buf (off + 2).
Definition flags (buf : list Z) (off : Z) : res Z := get_uint 1 buf (off + 4).
Definition reqSeqNum (buf : list Z) (off : Z) : res Z := get_uint 8 buf (off + 5).
Definition requestLength (buf : list Z) (off : Z) : res Z := get_uint 4 buf (off + 13).

Definition clientProxyId (m : MessageBase.t) : res Z := idOfClientProxy (MessageBase.msgBody_ m) 0.
Definition isReadOnly (m : MessageBase.t) : res bool := (fun f => negb (Z.land f 1 =? 0)) <$> flags (MessageBase.msgBody_ m) 0.
Definition requestSeqNum (m : MessageBase.t) : res Z := reqSeqNum (MessageBase.msgBody_ m) 0.
(** The bytes at [requestBuf()]. *)
Definition requestBytes (m : MessageBase.t) : res (list Z) :=
  l ← requestLength (MessageBase.msgBody_ m) 0; get_bytes (MessageBase.msgBody_ m) sizeof_ClientRequestMsgHeader l.

(** [compRequestMsgSize] returns an [int32_t], which is converted to [uint32_t]. *)
Definition compRequestMsgSize (buf : list Z) (off : Z) : res Z :=
  l ← requestLength buf off; Ok (swrap 32 (sizeof_ClientRequestMsgHeader + l)).
Definition getRequestSizeTemp (buf : list Z) (off : Z) : res Z := u32 <$> compRequestMsgSize buf off.

(** The fields after the type. *)
Definition writeHeader (m : MessageBase.t) (sender fl seqNum length : Z) : res MessageBase.t :=
  b1 ← put_int 2 (MessageBase.msgBody_ m) 2 sender;
  b2 ← put_int 1 b1 4 fl;
  b3 ← put_int 8 b2 5 seqNum;
  b4 ← put_int 4 b3 13 length;
  Ok (with_body m b4).

(** The constructor from the fields and the data of a request. *)
Definition ctor (sender : Z) (readOnly : bool) (seqNum reqLength : Z) (request : list Z) : res MessageBase.t :=
  m ← MessageBase.ctor sender MC_Request (u32 (sizeof_ClientRequestMsgHeader + reqLength));
  m ← writeHeader m sender (if readOnly then Z.lor 0 1 else 0) seqNum reqLength;
  src ← get_bytes request 0 reqLength;
  body ← put_bytes (MessageBase.msgBody_ m) sizeof_ClientRequestMsgHeader src;
  Ok (with_body m body).

(** [ClientRequestMsg(NodeIdType)] *)
Definition ctor_empty (sender : Z) : res MessageBase.t :=
  m ← MessageBase.ctor sender MC_Request maxExternalMessageSize;
  m ← writeHeader m sender 0 0 0;
  MessageBase.setMsgSize m sizeof_ClientRequestMsgHeader.

(** The constructor from a header: the object for the request at [off] in a buffer it does not own. *)
Definition ctor_header (buf : list Z) (off : Z) : res MessageBase.t :=
  c ← idOfClientProxy buf off;
  n ← getRequestSizeTemp buf off;
  Ok (MessageBase.ctor_body c (drop (Z.to_nat off) buf) n false).

Definition set (m : MessageBase.t) (seqNum reqLength : Z) (readOnly : bool) : res MessageBase.t :=
  assert! (0 <? reqLength) ;;
  assert! (reqLength <=? u64 (MessageBase.storageSize_ m - sizeof_ClientRequestMsgHeader)) ;;
  b1 ← put_int 8 (MessageBase.msgBody_ m) 5 seqNum;
  b2 ← put_int 1 b1 4 (if readOnly then Z.lor 0 1 else 0);
  b3 ← put_int 4 b2 13 reqLength;
  MessageBase.setMsgSize (with_body m b3) (u32 (sizeof_ClientRequestMsgHeader + reqLength)).

Definition setAsReadWrite (m : MessageBase.t) : res MessageBase.t :=
  f ← flags (MessageBase.msgBody_ m) 0;
  body ← put_int 1 (MessageBase.msgBody_ m) 4 (Z.land f 254);
  Ok (with_body m body).

(** The sum of the sizes is a [size_t]. *)
Definition ToActualMsgType (inMsg : MessageBase.t) : res bool :=
  ty ← MessageBase.type inMsg;
  assert! (ty =? code_of MC_Request) ;;
  if MessageBase.msgSize_ inMsg <? sizeof_ClientRequestMsgHeader then Ok false
  else
    l ← requestLength (MessageBase.msgBody_ inMsg) 0;
    if MessageBase.msgSize_ inMsg <? sizeof_ClientRequestMsgHeader + l then Ok false else Ok true.

(** ** Layout *)
Record Request := mkRequest { r_client : Z; r_readOnly : bool; r_seqNum : Z; r_data : list Z }.

Definition request_ok (r : Request) : Prop :=
  0 <= r_client r < 65536 ∧ 0 <= r_seqNum r < 2 ^ 64 ∧ Z.of_nat (length (r_data r)) < 2 ^ 31 - 17.

Definition flag_of (b : bool) : Z := if b then 1 else 0.

Definition layout (r : Request) : list Z :=
  le_enc 2 (code_of MC_Request) ++ le_enc 2 (r_client r) ++ le_enc 1 (flag_of (r_readOnly r)) ++ le_enc 8 (r_seqNum r) ++
  le_enc 4 (Z.of_nat (length (r_data r))) ++ r_data r.

Definition reqSize (r : Request) : Z := sizeof_ClientRequestMsgHeader + Z.of_nat (length (r_data r)).

Definition image (r : Request) : MessageBase.t := MessageBase.mk (layout r) (reqSize r) (reqSize r) (r_client r) true.

Lemma length_request r : Z.of_nat (length (layout r)) = reqSize r.
Proof. unfold layout, reqSize, sizeof_ClientRequestMsgHeader. rewrite !length_app, !length_le_enc. lia. Qed.

Lemma ctor_request r : request_ok r → ctor (r_client r) (r_readOnly r) (r_seqNum r) (Z.of_nat (length (r_data r))) (r_data r) = Ok (image r).
Proof.
  intros (_ & _ & Hn). unfold ctor, image, reqSize, sizeof_ClientRequestMsgHeader. set (n := Z.of_nat (length (r_data r))) in *.
  rewrite u32_small by lia. unfold MessageBase.ctor, writeHeader, put_int. rewrite (proj2 (Z.ltb_lt 0 _)) by lia. res_step.
  replace (Z.to_nat (17 + n)) with (2 + (2 + (1 + (8 + (4 + Z.to_nat n)))))%nat by lia.
  rewrite !replicate_add. rewrite (put_bytes_head (replicate 2 0)) by done. res_step. cbn [MessageBase.msgBody_].
  put_skip 2. rewrite (put_bytes_head (replicate 2 0)) by len_tac. res_step.
  put_skip 2. put_skip 2. rewrite (put_bytes_head (replicate 1 0)) by len_tac. res_step.
  put_skip 2. put_skip 2. put_skip 1. rewrite (put_bytes_head (replicate 8 0)) by len_tac. res_step.
  put_skip 2. put_skip 2. put_skip 1. put_skip 8. rewrite (put_bytes_head (replicate 4 0)) by len_tac. res_step.
  rewrite get_bytes_all by done. res_step. cbn [with_body MessageBase.msgBody_].
  put_skip 2. put_skip 2. put_skip 1. put_skip 8. put_skip 4. rewrite put_bytes_last; [|done|rewrite length_replicate; unfold n; lia].
  res_step. unfold layout. by destruct (r_readOnly r).
Qed.

(** The fields of a request that lies in a buffer. *)
Lemma fields_at pre r post off : request_ok r → off = Z.of_nat (length pre) →
  let buf := pre ++ layout r ++ post in
  idOfClientProxy buf off = Ok (r_client r) ∧ flags buf off = Ok (flag_of (r_readOnly r)) ∧
  reqSeqNum buf off = Ok (r_seqNum r) ∧ requestLength buf off = Ok (Z.of_nat (length (r_data r))) ∧ getRequestSizeTemp buf off = Ok (reqSize r).
Proof.
  intros (Hc & Hs & Hn) Ho buf. assert (Hl : requestLength buf off = Ok (Z.of_nat (length (r_data r)))).
  { unfold requestLength, get_uint, buf. rewrite (get_bytes_skip off) by lia. unfold layout. rewrite <- !(assoc_L (++)).
    replace (off + 13 - off) with 13 by lia. rewrite (get_bytes_skip_to _ _ _ _ (Ok (le_enc 4 (Z.of_nat (length (r_data r)))))); [|done|solve_get].
    cbn [fmap res_fmap]. rewrite le_dec_enc. f_equal. apply (wrap_small 32). lia. }
  split_and!; [| | |done|].
  - unfold idOfClientProxy, get_uint, buf. rewrite (get_bytes_skip off) by lia. unfold layout. rewrite <- !(assoc_L (++)).
    replace (off + 2 - off) with 2 by lia. rewrite (get_bytes_skip_to _ _ _ _ (Ok (le_enc 2 (r_client r)))); [|done|solve_get].
    cbn [fmap res_fmap]. rewrite le_dec_enc. f_equal. by apply (wrap_small 16).
  - unfold flags, get_uint, buf. rewrite (get_bytes_skip off) by lia. unfold layout. rewrite <- !(assoc_L (++)).
    replace (off + 4 - off) with 4 by lia. rewrite (get_bytes_skip_to _ _ _ _ (Ok (le_enc 1 (flag_of (r_readOnly r))))); [|done|solve_get].
    by destruct (r_readOnly r).
  - unfold reqSeqNum, get_uint, buf. rewrite (get_bytes_skip off) by lia. unfold layout. rewrite <- !(assoc_L (++)).
    replace (off + 5 - off) with 5 by lia. rewrite (get_bytes_skip_to _ _ _ _ (Ok (le_enc 8 (r_seqNum r)))); [|done|solve_get].
    cbn [fmap res_fmap]. rewrite le_dec_enc. f_equal. by apply (wrap_small 64).
  - unfold getRequestSizeTemp, compRequestMsgSize. rewrite Hl. cbn [mbind res_bind fmap res_fmap]. unfold sizeof_ClientRequestMsgHeader.
    rewrite swrap_small by lia. unfold reqSize, sizeof_ClientRequestMsgHeader. by rewrite u32_small by lia.
Qed.

Lemma image_fields r : request_ok r →
  clientProxyId (image r) = Ok (r_client r) ∧ isReadOnly (image r) = Ok (r_readOnly r) ∧ requestSeqNum (image r) = Ok (r_seqNum r) ∧ requestBytes (image r) = Ok (r_data r).
Proof.
  intros Hr. destruct (fields_at [] r [] 0 Hr eq_refl) as (H1 & H2 & H3 & H4 & _). cbv zeta in *. cbn [app] in *. rewrite app_nil_r in *.
  unfold clientProxyId, isReadOnly, requestSeqNum, requestBytes, image. cbn [MessageBase.msgBody_]. split_and!; [done| |done|].
  - rewrite H2. by destruct (r_readOnly r).
  - rewrite H4. cbn [mbind res_bind]. unfold layout, sizeof_ClientRequestMsgHeader. rewrite (get_bytes_skip_to _ _ _ _ (Ok (r_data r))); [done|done|solve_get].
Qed.
End ClientRequestMsg.
