(* ===== verification/ClientsManager.v ===== *)
(** * ClientsManager (bftengine/src/bftengine/ClientsManager.hpp, .cpp)

    The pending request of each client, and the latest reply to it, which lies in reserved
    pages: client number [i] (in the order of identifiers) owns [reservedPagesPerClient_]
    pages from [i * reservedPagesPerClient_].  The pages belong to the state transfer
    module; they are used through the interface [ReservedPages] and passed around with the
    manager.  [at] of a map or a vector throws when there is no element; using the pages
    before [init] dereferences a null pointer.  [scratchPage_] is a buffer that only holds
    the page just loaded. *)
From S2P Require Import Prelude SysConsts ReservedPages MessageBase ClientReplyMsg ClientRequestMsg.

Module ClientsManager.

Definition MinTime : Z := 0.
Definition MaxTime : Z := 2 ^ 64 - 1.

Record ClientInfo := mkInfo {
  currentPendingRequest : Z;
  timeOfCurrentPendingRequest : Z;
  lastSeqNumberOfReply : Z;
  latestReplyTime : Z;
}.

Record t := mk {
  myId_ : Z;
  sizeOfReservedPage_ : Z;
  stateTransfer_ : bool; (* whether the pointer was set *)
  reservedPagesPerClient_ : Z;
  requiredNumberOfPages_ : Z;
  clientIdToIndex_ : list (Z * Z); (* in the order of the keys *)
  indexToClientInfo_ : list ClientInfo;
}.

Definition with_infos (s : t) (l : list ClientInfo) : t :=
  mk (myId_ s) (sizeOfReservedPage_ s) (stateTransfer_ s) (reservedPagesPerClient_ s) (requiredNumberOfPages_ s) (clientIdToIndex_ s) l.

Definition ctor (myId : Z) (clientsSet : gset Z) (sizeOfReservedPage : Z) : res t :=
  let clients := merge_sort Z.le (elements clientsSet) in
  let numOfClients := Z.of_nat (length clients) in
  assert! (1 <=? numOfClients) ;;
  let perClient := maxReplyMessageSize / sizeOfReservedPage + (if negb (maxReplyMessageSize mod sizeOfReservedPage =? 0) then 1 else 0) in
  Ok (mk myId sizeOfReservedPage false perClient (u32 (u16 numOfClients * perClient))
        (zip clients (seqZ 0 numOfClients)) ((fun _ => mkInfo 0 MinTime 0 MinTime) <$> clients)).

Definition init (s : t) : res t :=
  assert! (negb (stateTransfer_ s)) ;;
  Ok (mk (myId_ s) (sizeOfReservedPage_ s) true (reservedPagesPerClient_ s) (requiredNumberOfPages_ s) (clientIdToIndex_ s) (indexToClientInfo_ s)).

Definition numberOfRequiredReservedPages (s : t) : Z := requiredNumberOfPages_ s.

(** [clientIdToIndex_.find], [clientIdToIndex_.at] and [indexToClientInfo_.at]. *)
Fixpoint findClient (l : list (Z * Z)) (clientId : Z) : option Z :=
  match l with [] => None | (c, i) :: l' => if c =? clientId then Some i else findClient l' clientId end.

Definition at_index (s : t) (clientId : Z) : res Z :=
  match findClient (clientIdToIndex_ s) clientId with Some i => Ok i | None => Err Thrown end.
Definition at_info (s : t) (idx : Z) : res ClientInfo :=
  match indexToClientInfo_ s !! Z.to_nat idx with Some c => Ok c | None => Err Thrown end.
Definition set_info (s : t) (idx : Z) (c : ClientInfo) : t := with_infos s (<[Z.to_nat idx := c]> (indexToClientInfo_ s)).

Definition isValidClient (s : t) (clientId : Z) : bool := bool_decide (is_Some (findClient (clientIdToIndex_ s) clientId)).

Definition seqNumberOfLastReplyToClient (s : t) (clientId : Z) : res Z :=
  idx ← at_index s clientId; c ← at_info s idx; Ok (lastSeqNumberOfReply c).

Definition getInfoAboutLastReplyToClient (s : t) (clientId : Z) : res (Z * Z) :=
  idx ← at_index s clientId; c ← at_info s idx; Ok (lastSeqNumberOfReply c, latestReplyTime c).

(** ** Requests *)
Definition noPendingAndRequestCanBecomePending (s : t) (clientId reqSeqNum : Z) : res bool :=
  idx ← at_index s clientId; c ← at_info s idx;
  if negb (currentPendingRequest c =? 0) then Ok false
  else if reqSeqNum <=? lastSeqNumberOfReply c then Ok false
  else Ok true.

(** [now] is the value of [getMonotonicTime()]. *)
Definition addPendingRequest (now : Z) (s : t) (clientId reqSeqNum : Z) : res t :=
  idx ← at_index s clientId; c ← at_info s idx;
  assert! ((lastSeqNumberOfReply c <? reqSeqNum) && (currentPendingRequest c <? reqSeqNum)) ;;
  Ok (set_info s idx (mkInfo reqSeqNum now (lastSeqNumberOfReply c) (latestReplyTime c))).

Definition noPending (c : ClientInfo) : ClientInfo := mkInfo 0 MinTime (lastSeqNumberOfReply c) (latestReplyTime c).

Definition removePendingRequestOfClient (s : t) (clientId : Z) : res t :=
  idx ← at_index s clientId; c ← at_info s idx;
  Ok (if negb (currentPendingRequest c =? 0) then set_info s idx (noPending c) else s).

Definition clearAllPendingRequests (s : t) : res t :=
  let s := with_infos s (noPending <$> indexToClientInfo_ s) in
  match indexToClientInfo_ s with
  | [] => Err OutOfBounds
  | c :: _ => assert! (currentPendingRequest c =? 0) ;; Ok s
  end.

Definition timeOfEarliestPendingRequest (s : t) : Z :=
  foldl (fun tm c => if negb (timeOfCurrentPendingRequest c =? MinTime) && (timeOfCurrentPendingRequest c <? tm)
                     then timeOfCurrentPendingRequest c else tm) MaxTime (indexToClientInfo_ s).

(** ** Replies *)
Section pages.
Context {S : Type} {RP : ReservedPages S}.

Definition deref (s : t) : res unit := if stateTransfer_ s then Ok tt else Err OutOfBounds.

Definition clearReservedPages (s : t) (pages : S) : res S :=
  _ ← (if requiredNumberOfPages_ s =? 0 then Ok tt else deref s);
  foldM zeroReservedPage pages (seqZ 0 (requiredNumberOfPages_ s)).

(** The number of pages of a message and the size of the last one. *)
Definition numOfPages (s : t) (size : Z) : Z :=
  size / sizeOfReservedPage_ s + (if negb (size mod sizeOfReservedPage_ s =? 0) then 1 else 0).
Definition sizeLastPage (s : t) (size : Z) : Z :=
  if negb (size mod sizeOfReservedPage_ s =? 0) then size mod sizeOfReservedPage_ s else sizeOfReservedPage_ s.

(** The size of page [i] of a message. *)
Definition sizePage (s : t) (size i : Z) : Z :=
  if i <? numOfPages s size - 1 then sizeOfReservedPage_ s else sizeLastPage s size.

Definition writePage (s : t) (firstPageId : Z) (r : MessageBase.t) (pages : S) (i : Z) : res S :=
  page ← get_bytes (MessageBase.msgBody_ r) (i * sizeOfReservedPage_ s) (sizePage s (MessageBase.msgSize_ r) i);
  saveReservedPage pages (u32 (firstPageId + i)) page.

Definition allocateNewReplyMsgAndWriteToStorage (now : Z) (s : t) (pages : S) (clientId requestSeqNum currentPrimaryId : Z)
    (reply : list Z) (replyLength : Z) : res (MessageBase.t * t * S) :=
  clientIdx ← at_index s clientId;
  c ← at_info s clientIdx;
  assert! (lastSeqNumberOfReply c <? requestSeqNum) ;;
  let s := set_info s clientIdx (mkInfo (currentPendingRequest c) (timeOfCurrentPendingRequest c) requestSeqNum now) in
  r ← ClientReplyMsg.ctor (myId_ s) requestSeqNum reply replyLength;
  let firstPageId := u32 (clientIdx * reservedPagesPerClient_ s) in
  _ ← deref s;
  pages ← foldM (writePage s firstPageId r) pages (seqZ 0 (numOfPages s (MessageBase.msgSize_ r)));
  r ← ClientReplyMsg.setPrimaryId r currentPrimaryId;
  _ ← ClientReplyMsg.debugHash r;
  Ok (r, s, pages).

(** The checks of a stored header, read from the first page: [strict] for the one of an existing reply. *)
Definition checkHeader (strict : bool) (page : list Z) : res (Z * Z) :=
  let h := MessageBase.ctor_body 0 page (Z.of_nat (length page)) false in
  ty ← MessageBase.type h;
  assert! ((negb strict && (ty =? 0)) || (ty =? code_of MC_Reply)) ;;
  p ← ClientReplyMsg.currentPrimaryId h;
  assert! (p =? 0) ;;
  n ← ClientReplyMsg.replyLength h;
  assert! (if strict then 0 <? n else 0 <=? n) ;;
  assert! (n + ClientReplyMsg.sizeof_ClientReplyMsgHeader <=? maxReplyMessageSize) ;;
  q ← ClientReplyMsg.reqSeqNum h;
  Ok (q, n).

Definition readPage (s : t) (pages : S) (firstPageId : Z) (r : MessageBase.t) (i : Z) : res MessageBase.t :=
  page ← loadReservedPage pages (u32 (firstPageId + i)) (sizePage s (MessageBase.msgSize_ r) i);
  body ← put_bytes (MessageBase.msgBody_ r) (i * sizeOfReservedPage_ s) page;
  Ok (with_body r body).

Definition allocateMsgWithLatestReply (s : t) (pages : S) (clientId currentPrimaryId : Z) : res MessageBase.t :=
  clientIdx ← at_index s clientId;
  info ← at_info s clientIdx;
  assert! (negb (lastSeqNumberOfReply info =? 0)) ;;
  let firstPageId := u32 (clientIdx * reservedPagesPerClient_ s) in
  _ ← deref s;
  scratchPage ← loadReservedPage pages firstPageId (sizeOfReservedPage_ s);
  '(_, replyLength) ← checkHeader true scratchPage;
  r ← ClientReplyMsg.ctor_empty (myId_ s) replyLength;
  r ← foldM (readPage s pages firstPageId) r (seqZ 0 (numOfPages s (MessageBase.msgSize_ r)));
  r ← ClientReplyMsg.setPrimaryId r currentPrimaryId;
  _ ← ClientReplyMsg.debugHash r;
  Ok r.

(** The entry of one client in [loadInfoFromReservedPages]. *)
Definition loadInfoOfClient (pages : S) (s : t) (e : Z * Z) : res t :=
  let firstPageId := u32 (e.2 * reservedPagesPerClient_ s) in
  _ ← deref s;
  scratchPage ← loadReservedPage pages firstPageId (sizeOfReservedPage_ s);
  '(reqSeqNum, _) ← checkHeader false scratchPage;
  ci ← at_info s e.2;
  let done := negb (currentPendingRequest ci =? 0) && (currentPendingRequest ci <=? reqSeqNum) in
  Ok (set_info s e.2 (mkInfo (if done then 0 else currentPendingRequest ci)
                             (if done then MinTime else timeOfCurrentPendingRequest ci) reqSeqNum MinTime)).

Definition loadInfoFromReservedPages (s : t) (pages : S) : res t := foldM (loadInfoOfClient pages) s (clientIdToIndex_ s).
End pages.
End ClientsManager.
