(* ===== verification/ClientsManagerSpec.v ===== *)
(** * The clients manager implements a cache of replies (ClientsManager.v)

    The abstract state has the latest reply and the pending request of each client.  The
    reserved pages are any implementation of [ReservedPagesSpec]. *)
From S2P Require Import Prelude SysConsts ReservedPages MessageBase ClientReplyMsg ClientRequestMsg ClientsManager.

Module ClientsManagerSpec.
Import ClientsManager.

(** Replies are pairs of the number of the request and the data; pending requests have a number and a time. *)
Record abs := mkAbs { cache : gmap Z (Z * list Z); pend : gmap Z (Z * Z) }.

Section spec.
Context {S : Type} {RP : ReservedPages S} (num size : Z) {RPS : ReservedPagesSpec S num size}.
Context (myId : Z) (clients : list Z).

Definition per : Z := maxReplyMessageSize / size + (if negb (maxReplyMessageSize mod size =? 0) then 1 else 0).
#[local] Abbreviation hdr := ClientReplyMsg.sizeof_ClientReplyMsgHeader.
#[local] Abbreviation numClients := (Z.of_nat (length clients)).

(** The pages hold the replies of all clients. *)
Context (Hsize : hdr <= size) (Hclients : NoDup clients) (Hpages : numClients * per <= num) (Hnum : num < 4294967296).

(** Page [i] of a message. *)
Definition chunk (body : list Z) (i : Z) : list Z := take (Z.to_nat size) (drop (Z.to_nat (i * size)) body).
Definition pagesOf (n : Z) : Z := n / size + (if negb (n mod size =? 0) then 1 else 0).

(** The pages from [first] hold the message of a reply, or nothing that looks like one. *)
Definition stored (page : Z → list Z) (first : Z) (o : option (Z * list Z)) : Prop :=
  match o with
  | None => take (Z.to_nat hdr) (page first) = replicate (Z.to_nat hdr) 0
  | Some (q, reply) =>
      let body := ClientReplyMsg.layout 0 q reply in
      0 < q < 2 ^ 64 ∧ 0 < Z.of_nat (length reply) <= maxReplyMessageSize - hdr ∧
      ∀ j, 0 <= j < pagesOf (Z.of_nat (length body)) → take (length (chunk body j)) (page (first + j)) = chunk body j
  end.

Definition holds (page : Z → list Z) (m : gmap Z (Z * list Z)) : Prop :=
  ∀ i c, clients !! i = Some c → stored page (Z.of_nat i * per) (m !! c).

Definition lastOf (o : option (Z * list Z)) : Z := match o with Some (q, _) => q | None => 0 end.

(** The information about a client. *)
Definition info_ok (o : option (Z * list Z)) (p : option (Z * Z)) (c : ClientInfo) : Prop :=
  lastSeqNumberOfReply c = lastOf o ∧
  match p with
  | None => currentPendingRequest c = 0 ∧ timeOfCurrentPendingRequest c = MinTime
  | Some (q, tm) => 0 < q ∧ currentPendingRequest c = q ∧ timeOfCurrentPendingRequest c = tm
  end.

(** [M] and [P] give the latest reply and the pending request of a client. *)
Record wf (s : t) (M : Z → option (Z * list Z)) (P : Z → option (Z * Z)) : Prop := {
  wf_id : myId_ s = myId;
  wf_ready : stateTransfer_ s = true;
  wf_size : sizeOfReservedPage_ s = size;
  wf_per : reservedPagesPerClient_ s = per;
  wf_index : clientIdToIndex_ s = zip clients (seqZ 0 numClients);
  wf_length : length (indexToClientInfo_ s) = length clients;
  wf_infos i c info : clients !! i = Some c → indexToClientInfo_ s !! i = Some info → info_ok (M c) (P c) info;
}.

Record world := mkW { mgr : t; pgs : S; ghost : abs }.

Definition inv (w : world) : Prop := wf (mgr w) (fun c => cache (ghost w) !! c) (fun c => pend (ghost w) !! c) ∧ rp_ok (pgs w) ∧ holds (rp_page (pgs w)) (cache (ghost w)).

(** ** Arithmetic of pages *)
#[local] Lemma size_pos : 0 < size.
Proof. unfold ClientReplyMsg.sizeof_ClientReplyMsgHeader in Hsize. lia. Qed.
#[local] Hint Resolve size_pos : core.

Lemma pagesOf_spec n : 0 < n → 1 <= pagesOf n ∧ (pagesOf n - 1) * size < n <= pagesOf n * size.
Proof. intros Hn. pose proof size_pos. unfold pagesOf. destruct (Z.eqb_spec (n mod size) 0); cbn [negb]; Z.to_euclidean_division_equations; nia. Qed.

Lemma pagesOf_per n : 0 < n <= maxReplyMessageSize → pagesOf n <= per.
Proof.
  intros Hn. pose proof size_pos. pose proof (pagesOf_spec n ltac:(lia)) as (H1 & H2). change per with (pagesOf maxReplyMessageSize).
  pose proof (pagesOf_spec maxReplyMessageSize ltac:(unfold maxReplyMessageSize; lia)) as (H3 & H4). nia.
Qed.

Lemma per_pos : 1 <= per.
Proof. apply (pagesOf_spec maxReplyMessageSize). unfold maxReplyMessageSize. lia. Qed.

Lemma length_chunk body j : 0 <= j → Z.of_nat (length (chunk body j)) = Z.max 0 (Z.min size (Z.of_nat (length body) - j * size)).
Proof. intros Hj. pose proof size_pos. unfold chunk. rewrite length_take, length_drop. nia. Qed.

Lemma sizePage_chunk s body j : sizeOfReservedPage_ s = size → 0 < Z.of_nat (length body) → 0 <= j < pagesOf (Z.of_nat (length body)) →
  sizePage s (Z.of_nat (length body)) j = Z.of_nat (length (chunk body j)) ∧ 0 < Z.of_nat (length (chunk body j)) <= size ∧
  j * size + Z.of_nat (length (chunk body j)) <= Z.of_nat (length body).
Proof.
  intros Hs Hb Hj. set (n := Z.of_nat (length body)) in *. rewrite length_chunk by lia. fold n. pose proof size_pos. pose proof (pagesOf_spec n Hb) as (H1 & H2).
  unfold sizePage, numOfPages, sizeLastPage. rewrite Hs. fold (pagesOf n).
  assert (Hlast : n - (pagesOf n - 1) * size = if negb (n mod size =? 0) then n mod size else size).
  { unfold pagesOf. destruct (Z.eqb_spec (n mod size) 0); cbn [negb]; Z.to_euclidean_division_equations; nia. }
  rewrite <- Hlast. destruct (Z.ltb_spec j (pagesOf n - 1)); [nia|]. assert (j = pagesOf n - 1) as -> by lia. nia.
Qed.

Lemma get_chunk body j : 0 <= j → j * size + Z.of_nat (length (chunk body j)) <= Z.of_nat (length body) →
  get_bytes body (j * size) (Z.of_nat (length (chunk body j))) = Ok (chunk body j).
Proof. intros Hj Hl. pose proof size_pos. apply get_bytes_ok. split; [nia|]. unfold chunk. by rewrite Nat2Z.id, take_length_take. Qed.

(** The pages of a client. *)
Lemma client_pages i c j : clients !! i = Some c → 0 <= j < per → 0 <= Z.of_nat i * per + j < num ∧ Z.of_nat i * per + j < (Z.of_nat i + 1) * per.
Proof. intros Hi%lookup_lt_Some Hj. pose proof per_pos. nia. Qed.

Lemma client_first i c : clients !! i = Some c → u32 (Z.of_nat i * per) = Z.of_nat i * per.
Proof. intros Hi. pose proof per_pos. destruct (client_pages i c 0 Hi ltac:(lia)). apply u32_small. nia. Qed.

(** ** Writing a message to pages *)
Lemma write_pages s first r pages (body := MessageBase.msgBody_ r) (n := pagesOf (Z.of_nat (length body))) (k : nat) :
  sizeOfReservedPage_ s = size → MessageBase.msgSize_ r = Z.of_nat (length body) → 0 < Z.of_nat (length body) → rp_ok pages →
  0 <= first → first + n <= num → Z.of_nat k <= n →
  ∃ pages', foldM (writePage s first r) pages (seqZ 0 (Z.of_nat k)) = Ok pages' ∧ rp_ok pages' ∧
    (∀ j, 0 <= j < Z.of_nat k → take (length (chunk body j)) (rp_page pages' (first + j)) = chunk body j) ∧
    (∀ id, 0 <= id < num → id < first ∨ first + Z.of_nat k <= id → rp_page pages' id = rp_page pages id).
Proof.
  intros Hs Hr Hb Hok Hf Hn. induction k as [|k IH]; intros Hk.
  { exists pages. split_and!; [done|done|lia|done]. }
  destruct IH as (pages1 & E1 & Hok1 & H1 & H1'); [lia|]. destruct (sizePage_chunk s body (Z.of_nat k) Hs Hb ltac:(lia)) as (Hc1 & Hc2 & Hc3).
  destruct (rp_save pages1 (first + Z.of_nat k) (chunk body (Z.of_nat k)) Hok1) as (pages2 & E2 & Hok2 & H2 & H2'); [lia|lia|].
  exists pages2. split_and!; [|done| |].
  - rewrite seqZ_S, Z.add_0_l, foldM_app, E1. cbn [mbind res_bind foldM]. unfold writePage. rewrite Hr. fold body. rewrite Hs, Hc1.
    rewrite get_chunk by lia. cbn [mbind res_bind]. rewrite u32_small by lia. by rewrite E2.
  - intros j Hj. destruct (decide (j = Z.of_nat k)) as [->|Hne]; [done|]. rewrite H2' by lia. apply H1. lia.
  - intros id Hid Hout. rewrite H2' by lia. apply H1'; lia.
Qed.

(** ** Reading a message from pages *)
Lemma put_chunk body old j : 0 <= j → length old = length body → j * size + Z.of_nat (length (chunk body j)) <= Z.of_nat (length body) →
  put_bytes (take (Z.to_nat (j * size)) body ++ drop (Z.to_nat (j * size)) old) (j * size) (chunk body j) =
    Ok (take (Z.to_nat ((j + 1) * size)) body ++ drop (Z.to_nat ((j + 1) * size)) old).
Proof.
  intros Hj Hl Hc. pose proof size_pos. set (a := Z.to_nat (j * size)). assert (Ha : j * size = Z.of_nat a) by (unfold a; nia). rewrite Ha in *.
  assert (Ht : length (take a body) = a) by (rewrite length_take; lia).
  assert (Hin : in_buf (take a body ++ drop a old) (Z.of_nat a) (Z.of_nat (length (chunk body j))) = true) by (apply in_buf_true; rewrite length_app, Ht, length_drop; lia).
  unfold put_bytes. rewrite Hin, Nat2Z.id, <- drop_drop, take_app_length', drop_app_length' by done. f_equal.
  replace (Z.to_nat ((j + 1) * size)) with (a + Z.to_nat size)%nat by nia. rewrite <- take_take_drop, <- (assoc_L (++)). fold a.
  unfold chunk. fold a. do 2 f_equal. rewrite drop_drop. destruct (decide (a + Z.to_nat size <= length body)%nat) as [Hf|Hf].
  - rewrite length_take, length_drop. f_equal. lia.
  - rewrite !drop_ge; [done|lia|]. rewrite length_take, length_drop. lia.
Qed.

Lemma read_pages s pages first r body (n := pagesOf (Z.of_nat (length body))) (k : nat) :
  sizeOfReservedPage_ s = size → MessageBase.msgSize_ r = Z.of_nat (length body) → length (MessageBase.msgBody_ r) = length body →
  0 < Z.of_nat (length body) → rp_ok pages → 0 <= first → first + n <= num → Z.of_nat k <= n →
  (∀ j, 0 <= j < n → take (length (chunk body j)) (rp_page pages (first + j)) = chunk body j) →
  foldM (readPage s pages first) r (seqZ 0 (Z.of_nat k)) =
    Ok (with_body r (take (Z.to_nat (Z.of_nat k * size)) body ++ drop (Z.to_nat (Z.of_nat k * size)) (MessageBase.msgBody_ r))).
Proof.
  intros Hs Hr Hlr Hb Hok Hf Hn Hk Hp. induction k as [|k IH]; [by destruct r|].
  rewrite seqZ_S, Z.add_0_l, foldM_app, IH by lia. cbn [mbind res_bind foldM]. unfold readPage. cbn [with_body MessageBase.msgSize_ MessageBase.msgBody_].
  destruct (sizePage_chunk s body (Z.of_nat k) Hs Hb ltac:(lia)) as (Hc1 & Hc2 & Hc3).
  rewrite Hr, Hs, Hc1, u32_small, rp_load, Nat2Z.id, Hp by (done || lia). cbn [mbind res_bind].
  rewrite put_chunk by (done || lia). cbn [mbind res_bind]. by rewrite Nat2Z.inj_succ, <- Z.add_1_r.
Qed.

(** All pages of a message. *)
Lemma read_all s pages first r body (n := pagesOf (Z.of_nat (length body))) :
  sizeOfReservedPage_ s = size → MessageBase.msgSize_ r = Z.of_nat (length body) → length (MessageBase.msgBody_ r) = length body →
  0 < Z.of_nat (length body) → rp_ok pages → 0 <= first → first + n <= num →
  (∀ j, 0 <= j < n → take (length (chunk body j)) (rp_page pages (first + j)) = chunk body j) →
  foldM (readPage s pages first) r (seqZ 0 n) = Ok (with_body r body).
Proof.
  intros Hs Hr Hlr Hb Hok Hf Hn Hp. destruct (pagesOf_spec (Z.of_nat (length body)) Hb) as (H1 & H2). pose proof size_pos.
  rewrite <- (Z2Nat.id n) by (unfold n; lia). rewrite (read_pages s pages first r body) by (done || unfold n; lia).
  do 2 f_equal. rewrite take_ge, drop_ge by (unfold n; nia). by rewrite app_nil_r.
Qed.

(** ** The index of a client *)
Lemma findClient_zip l base c i : NoDup l → l !! i = Some c → findClient (zip l (seqZ base (Z.of_nat (length l)))) c = Some (base + Z.of_nat i).
Proof.
  revert base i. induction l as [|x l IH]; intros base i Hnd Hi; [done|]. apply NoDup_cons in Hnd as [Hx Hnd].
  rewrite length_cons, Nat2Z.inj_succ, seqZ_cons by lia. cbn [zip zip_with findClient]. destruct i as [|i]; cbn in Hi.
  - injection Hi as ->. rewrite Z.eqb_refl. f_equal. lia.
  - rewrite (proj2 (Z.eqb_neq x c)); [|intros ->; apply Hx; by apply list_elem_of_lookup_2 in Hi].
    replace (Z.pred (Z.succ (Z.of_nat (length l)))) with (Z.of_nat (length l)) by lia. rewrite (IH (Z.succ base) i) by done. f_equal. lia.
Qed.

Lemma findClient_none l base n c : c ∉ l → findClient (zip l (seqZ base n)) c = None.
Proof.
  revert base n. induction l as [|x l IH]; intros base n Hc; [done|]. apply not_elem_of_cons in Hc as [Hx Hc].
  destruct (decide (0 < n)); [|by rewrite seqZ_nil by lia]. rewrite seqZ_cons by lia. cbn. rewrite (proj2 (Z.eqb_neq x c)) by congruence. by apply IH.
Qed.

Lemma at_index_ok s M P i c : wf s M P → clients !! i = Some c → at_index s c = Ok (Z.of_nat i).
Proof. intros Hw Hi. unfold at_index. rewrite (wf_index _ _ _ Hw), (findClient_zip clients 0 c i) by done. done. Qed.

Lemma isValidClient_spec s M P c : wf s M P → isValidClient s c = bool_decide (c ∈ clients).
Proof.
  intros Hw. unfold isValidClient. rewrite (wf_index _ _ _ Hw). apply bool_decide_ext. split.
  - intros [i Hi]. destruct (decide (c ∈ clients)); [done|]. by rewrite findClient_none in Hi.
  - intros [i Hi]%list_elem_of_lookup. by rewrite (findClient_zip clients 0 c i).
Qed.

Lemma at_info_ok s M P i c : wf s M P → clients !! i = Some c →
  ∃ info, indexToClientInfo_ s !! i = Some info ∧ at_info s (Z.of_nat i) = Ok info ∧ info_ok (M c) (P c) info.
Proof.
  intros Hw Hi. assert (is_Some (indexToClientInfo_ s !! i)) as [info Hinfo].
  { apply lookup_lt_is_Some. rewrite (wf_length _ _ _ Hw). by eapply lookup_lt_Some. }
  exists info. unfold at_info. rewrite Nat2Z.id, Hinfo. split_and!; [done|done|by eapply wf_infos].
Qed.

(** A client is found, with its information. *)
Ltac find_client Hw Hi info :=
  let E := fresh "Hinfo" in let E2 := fresh "Hat" in let Hok := fresh "Hiok" in
  rewrite (at_index_ok _ _ _ _ _ Hw Hi); cbn [mbind res_bind];
  destruct (at_info_ok _ _ _ _ _ Hw Hi) as (info & E & E2 & Hok); rewrite E2; cbn [mbind res_bind].

(** Changing the information of one client, in both states. *)
Lemma wf_set s M P i c info' M' P' : wf s M P → clients !! i = Some c → info_ok (M' c) (P' c) info' →
  (∀ c', c' ≠ c → M' c' = M c' ∧ P' c' = P c') → wf (set_info s (Z.of_nat i) info') M' P'.
Proof.
  intros Hw Hi Hinfo Hother. destruct Hw. constructor; cbn; try done; rewrite ?length_insert; try done.
  rewrite Nat2Z.id. intros j c' inf Hj Hl. destruct (decide (j = i)) as [->|Hne].
  - rewrite list_lookup_insert_eq in Hl by (rewrite wf_length0; by eapply lookup_lt_Some). injection Hl as <-. by assert (c' = c) as -> by congruence.
  - rewrite list_lookup_insert_ne in Hl by done. destruct (Hother c') as [-> ->]; [|by eapply wf_infos0].
    intros ->. apply Hne. by eapply NoDup_lookup.
Qed.

(** ** The header in the first page *)
Lemma checkHeader_fields strict ty q n data : 0 <= ty < 65536 → 0 <= q < 2 ^ 64 → 0 <= n → n + hdr <= maxReplyMessageSize →
  (ty = 0 ∧ strict = false ∨ ty = code_of MC_Reply) → (strict = true → 0 < n) →
  checkHeader strict (le_enc 2 ty ++ le_enc 2 0 ++ le_enc 8 q ++ le_enc 4 n ++ data) = Ok (q, n).
Proof.
  intros Ht Hq Hn Hm Hty Hs. unfold checkHeader, MessageBase.ctor_body, ClientReplyMsg.sizeof_ClientReplyMsgHeader, maxReplyMessageSize in *.
  destruct (ClientReplyMsg.header_fields ty 0 q n data 0 (Z.of_nat (length (le_enc 2 ty ++ le_enc 2 0 ++ le_enc 8 q ++ le_enc 4 n ++ data)))
    (Z.of_nat (length (le_enc 2 ty ++ le_enc 2 0 ++ le_enc 8 q ++ le_enc 4 n ++ data))) false Ht ltac:(lia) Hq ltac:(lia)) as (E1 & E2 & E3 & E4).
  cbv zeta in *. rewrite E1. cbn [mbind res_bind]. assert ((negb strict && (ty =? 0)) || (ty =? code_of MC_Reply) = true) as ->.
  { destruct Hty as [[-> ->]| ->]; [done|]. by rewrite Z.eqb_refl, orb_true_r. }
  cbn [Assert mbind res_bind]. rewrite E2. cbn [mbind res_bind Z.eqb Assert]. rewrite E4. cbn [mbind res_bind].
  assert ((if strict then 0 <? n else 0 <=? n) = true) as -> by (destruct strict; [apply Z.ltb_lt; auto|by apply Z.leb_le]).
  cbn [Assert mbind res_bind]. rewrite (proj2 (Z.leb_le _ _) Hm). cbn [Assert mbind res_bind]. by rewrite E3.
Qed.

Lemma first_page pages first q reply : stored (rp_page pages) first (Some (q, reply)) →
  ∃ data, rp_page pages first = le_enc 2 (code_of MC_Reply) ++ le_enc 2 0 ++ le_enc 8 q ++ le_enc 4 (Z.of_nat (length reply)) ++ data.
Proof.
  intros (Hq & Hr & Hp). unfold ClientReplyMsg.sizeof_ClientReplyMsgHeader in *. pose proof (ClientReplyMsg.length_layout 0 q reply) as Hl.
  unfold ClientReplyMsg.sizeof_ClientReplyMsgHeader in Hl. set (body := ClientReplyMsg.layout 0 q reply) in *.
  destruct (pagesOf_spec (Z.of_nat (length body)) ltac:(lia)) as [Hn _]. specialize (Hp 0 ltac:(lia)). rewrite Z.add_0_r in Hp.
  set (h := le_enc 2 (code_of MC_Reply) ++ le_enc 2 0 ++ le_enc 8 q ++ le_enc 4 (Z.of_nat (length reply))).
  assert (Hh : take 16 body = h) by (unfold body, ClientReplyMsg.layout; rewrite !(assoc_L (++)), <- !(assoc_L (++)), !(assoc_L (++)); fold h; by rewrite take_app_length').
  assert (Hp16 : take 16 (rp_page pages first) = h).
  { rewrite <- Hh. apply (f_equal (take 16)) in Hp. assert (16 <= length (chunk body 0))%nat.
    { pose proof (length_chunk body 0 ltac:(lia)). lia. }
    rewrite take_take, Nat.min_l in Hp by done. rewrite Hp. unfold chunk. cbn [Z.mul Z.to_nat drop]. by rewrite take_take, Nat.min_l by lia. }
  exists (drop 16 (rp_page pages first)). rewrite <- (take_drop 16 (rp_page pages first)) at 1. rewrite Hp16. unfold h. by rewrite <- !(assoc_L (++)).
Qed.

Lemma load_first pages i c : rp_ok pages → clients !! i = Some c → loadReservedPage pages (Z.of_nat i * per) size = Ok (rp_page pages (Z.of_nat i * per)).
Proof.
  intros Hok Hi. pose proof size_pos. pose proof per_pos. destruct (client_pages i c 0 Hi ltac:(lia)) as [Hr _]. rewrite Z.add_0_r in Hr.
  rewrite rp_load by (done || lia). f_equal. apply take_ge. pose proof (rp_length pages _ Hok Hr). lia.
Qed.

(** The header of a client's pages, as the two operations that load it check it. *)
Lemma stored_header strict pages i c o : rp_ok pages → clients !! i = Some c → stored (rp_page pages) (Z.of_nat i * per) o → (strict = true → is_Some o) →
  (p ← loadReservedPage pages (Z.of_nat i * per) size; checkHeader strict p) =
    Ok (lastOf o, match o with Some (_, reply) => Z.of_nat (length reply) | None => 0 end).
Proof.
  intros Hok Hi Hst Hs. rewrite (load_first pages i c Hok Hi). cbn [mbind res_bind]. destruct o as [[q reply]|].
  - destruct (first_page _ _ _ _ Hst) as [data ->]. destruct Hst as (Hq & Hr & _). cbn [lastOf]. apply checkHeader_fields; (done || lia || by right).
  - destruct strict; [destruct (Hs eq_refl); done|]. cbn [stored] in Hst.
    rewrite <- (take_drop (Z.to_nat hdr) (rp_page pages (Z.of_nat i * per))), Hst.
    change (replicate (Z.to_nat hdr) 0) with (le_enc 2 0 ++ le_enc 2 0 ++ le_enc 8 0 ++ le_enc 4 0). rewrite <- !(assoc_L (++)).
    apply checkHeader_fields; (done || lia || by left).
Qed.

(** Pages with the same contents hold the same replies. *)
Lemma holds_agree page page' m : (∀ id, 0 <= id < num → page id = page' id) → holds page m → holds page' m.
Proof.
  intros He Hh i c Hi. specialize (Hh i c Hi). pose proof per_pos as Hper.
  assert (Hp : ∀ j, 0 <= j < per → page (Z.of_nat i * per + j) = page' (Z.of_nat i * per + j)).
  { intros j Hj. apply He. by apply (client_pages i c j). }
  destruct (m !! c) as [[q reply]|]; cbn [stored] in *.
  - destruct Hh as (Hq & Hr & Hst). split_and!; try done; try lia. intros j Hj. rewrite <- Hp; [by apply Hst|].
    pose proof (ClientReplyMsg.length_layout 0 q reply). pose proof (pagesOf_per (Z.of_nat (length (ClientReplyMsg.layout 0 q reply))) ltac:(unfold ClientReplyMsg.sizeof_ClientReplyMsgHeader, maxReplyMessageSize in *; lia)). lia.
  - specialize (Hp 0 ltac:(lia)). rewrite Z.add_0_r in Hp. by rewrite <- Hp.
Qed.

Lemma inv_pages s pages pages' a : (∀ id, 0 <= id < num → rp_page pages id = rp_page pages' id) → rp_ok pages' → inv (mkW s pages a) → inv (mkW s pages' a).
Proof. intros He Hok (Hw & _ & Hh). split_and!; [done|done|]. by eapply holds_agree. Qed.

(** ** The operations *)
Lemma latestReply_ok w i c q reply primary : inv w → clients !! i = Some c → cache (ghost w) !! c = Some (q, reply) → 0 <= primary < 65536 →
  allocateMsgWithLatestReply (mgr w) (pgs w) c primary = Ok (ClientReplyMsg.image myId primary q reply).
Proof.
  intros (Hw & Hok & Hh) Hi Hc Hp. specialize (Hh i c Hi). rewrite Hc in Hh. pose proof Hh as (Hq & Hr & Hst).
  unfold allocateMsgWithLatestReply. find_client Hw Hi info. destruct Hiok as [Hlast _]. cbn beta in Hlast. rewrite Hlast, Hc. cbn [lastOf].
  rewrite (proj2 (Z.eqb_neq q 0)) by lia. cbn [negb Assert mbind res_bind]. unfold deref. rewrite (wf_ready _ _ _ Hw), (wf_per _ _ _ Hw), (wf_size _ _ _ Hw). cbn [mbind res_bind].
  rewrite (client_first i c Hi). pose proof (stored_header true (pgs w) i c _ Hok Hi Hh ltac:(eauto)) as E.
  destruct (loadReservedPage _ _ _) as [page|]; [|done]. cbn [mbind res_bind] in E |- *. rewrite E. cbn [mbind res_bind].
  pose proof (ClientReplyMsg.length_layout 0 q reply) as Hl. unfold ClientReplyMsg.sizeof_ClientReplyMsgHeader, maxReplyMessageSize in *.
  rewrite ClientReplyMsg.ctor_empty_image by (unfold ClientReplyMsg.sizeof_ClientReplyMsgHeader; lia). cbn [mbind res_bind]. rewrite (wf_id _ _ _ Hw).
  set (body := ClientReplyMsg.layout 0 q reply) in *. set (r := ClientReplyMsg.image myId 0 0 _).
  assert (Hsz : MessageBase.msgSize_ r = Z.of_nat (length body)).
  { rewrite Hl. unfold r, ClientReplyMsg.image. cbn. rewrite length_replicate. unfold ClientReplyMsg.sizeof_ClientReplyMsgHeader. lia. }
  assert (Hn : numOfPages (mgr w) (MessageBase.msgSize_ r) = pagesOf (Z.of_nat (length body))) by (unfold numOfPages; by rewrite (wf_size _ _ _ Hw), Hsz).
  assert (Hnp : pagesOf (Z.of_nat (length body)) <= per) by (apply pagesOf_per; unfold maxReplyMessageSize; lia).
  destruct (pagesOf_spec (Z.of_nat (length body)) ltac:(lia)) as [Hn1 _].
  destruct (client_pages i c (pagesOf (Z.of_nat (length body)) - 1) Hi ltac:(lia)) as [Hrange _]. pose proof per_pos.
  rewrite Hn, (read_all _ _ _ r body); try done; try nia; [|apply (wf_size _ _ _ Hw)|].
  - cbn [mbind res_bind]. assert (with_body r body = ClientReplyMsg.image myId 0 q reply) as ->.
    { unfold with_body, ClientReplyMsg.image. fold body. rewrite Hsz, Hl. unfold r, ClientReplyMsg.image. cbn. rewrite length_replicate. unfold ClientReplyMsg.sizeof_ClientReplyMsgHeader. f_equal; lia. }
    rewrite ClientReplyMsg.setPrimaryId_image. cbn [mbind res_bind]. pose proof (ClientReplyMsg.debugHash_ok myId primary q reply ltac:(lia) Hp ltac:(lia)) as Hd.
    destruct (ClientReplyMsg.debugHash _); done.
  - unfold r, ClientReplyMsg.image. cbn [MessageBase.msgBody_]. apply Nat2Z.inj. rewrite ClientReplyMsg.length_layout, Hl, length_replicate.
    unfold ClientReplyMsg.sizeof_ClientReplyMsgHeader. lia.
Qed.

Lemma noReply_fails w i c primary : inv w → clients !! i = Some c → cache (ghost w) !! c = None →
  allocateMsgWithLatestReply (mgr w) (pgs w) c primary = Err AssertFailed.
Proof.
  intros (Hw & Hok & Hh) Hi Hc. unfold allocateMsgWithLatestReply. find_client Hw Hi info. destruct Hiok as [E _]. cbn beta in E. by rewrite E, Hc.
Qed.

Lemma newReply_ok w i c q primary reply rest now : inv w → clients !! i = Some c → lastOf (cache (ghost w) !! c) < q < 2 ^ 64 →
  0 < Z.of_nat (length reply) <= maxReplyMessageSize - hdr → 0 <= primary < 65536 → 0 <= lastOf (cache (ghost w) !! c) →
  ∃ s' pages', allocateNewReplyMsgAndWriteToStorage now (mgr w) (pgs w) c q primary (reply ++ rest) (Z.of_nat (length reply)) =
      Ok (ClientReplyMsg.image myId primary q reply, s', pages') ∧
    inv (mkW s' pages' (mkAbs (<[c := (q, reply)]> (cache (ghost w))) (pend (ghost w)))).
Proof.
  intros (Hw & Hok & Hh) Hi Hq Hr Hp H0. unfold allocateNewReplyMsgAndWriteToStorage. find_client Hw Hi info. destruct Hiok as [Hlast Hpend].
  rewrite (proj2 (Z.ltb_lt _ q)) by lia. cbn [Assert mbind res_bind]. set (s' := set_info _ _ _).
  change (myId_ s') with (myId_ (mgr w)). rewrite (wf_id _ _ _ Hw).
  unfold ClientReplyMsg.sizeof_ClientReplyMsgHeader, maxReplyMessageSize in *.
  rewrite ClientReplyMsg.ctor_image by (unfold ClientReplyMsg.sizeof_ClientReplyMsgHeader; lia). cbn [mbind res_bind].
  unfold deref. change (stateTransfer_ s') with (stateTransfer_ (mgr w)). change (reservedPagesPerClient_ s') with (reservedPagesPerClient_ (mgr w)).
  rewrite (wf_ready _ _ _ Hw), (wf_per _ _ _ Hw), (client_first i c Hi). cbn [mbind res_bind].
  pose proof (ClientReplyMsg.length_layout 0 q reply) as Hl. unfold ClientReplyMsg.sizeof_ClientReplyMsgHeader in Hl.
  set (r := ClientReplyMsg.image myId 0 q reply). set (body := ClientReplyMsg.layout 0 q reply) in *. change (MessageBase.msgSize_ r) with (16 + Z.of_nat (length reply)).
  rewrite <- Hl. assert (Hn : numOfPages s' (Z.of_nat (length body)) = pagesOf (Z.of_nat (length body))).
  { unfold numOfPages. change (sizeOfReservedPage_ s') with (sizeOfReservedPage_ (mgr w)). by rewrite (wf_size _ _ _ Hw). }
  assert (Hnp : pagesOf (Z.of_nat (length body)) <= per) by (apply pagesOf_per; unfold maxReplyMessageSize; lia).
  destruct (pagesOf_spec (Z.of_nat (length body)) ltac:(lia)) as [Hn1 _]. pose proof per_pos as Hper.
  destruct (client_pages i c (pagesOf (Z.of_nat (length body)) - 1) Hi ltac:(lia)) as [Hrange _].
  destruct (write_pages s' (Z.of_nat i * per) r (pgs w) (Z.to_nat (pagesOf (Z.of_nat (length body))))) as (pages' & E & Hok' & Hin & Hout);
    [apply (wf_size _ _ _ Hw)|symmetry; exact Hl|change (MessageBase.msgBody_ r) with body; lia|done|nia|change (MessageBase.msgBody_ r) with body; lia|change (MessageBase.msgBody_ r) with body; lia|].
  rewrite Z2Nat.id in E, Hin, Hout by lia. change (MessageBase.msgBody_ r) with body in Hin.
  rewrite Hn, E. cbn [mbind res_bind]. unfold r. rewrite ClientReplyMsg.setPrimaryId_image. cbn [mbind res_bind].
  pose proof (ClientReplyMsg.debugHash_ok myId primary q reply ltac:(lia) Hp ltac:(lia)) as Hd. destruct (ClientReplyMsg.debugHash _); [|done]. cbn [mbind res_bind].
  exists s', pages'. split; [done|]. split_and!; [|done|].
  - apply (wf_set _ _ _ i c _ _ _ Hw Hi); cbn [ghost cache pend]; [by rewrite lookup_insert_eq|]. intros c' Hc'. by rewrite lookup_insert_ne.
  - cbn [pgs ghost cache]. intros i' c' Hi'. destruct (decide (c' = c)) as [->|Hne].
    + assert (i' = i) as -> by (by eapply NoDup_lookup). rewrite lookup_insert_eq. cbn [stored]. fold body. unfold ClientReplyMsg.sizeof_ClientReplyMsgHeader, maxReplyMessageSize. split_and!; [lia|lia|lia|lia|done].
    + rewrite lookup_insert_ne by done. specialize (Hh i' c' Hi').
      assert (Hkeep : ∀ j, 0 <= j < per → rp_page pages' (Z.of_nat i' * per + j) = rp_page (pgs w) (Z.of_nat i' * per + j)).
      { intros j Hj. destruct (client_pages i' c' j Hi' Hj) as [Hjr Hjl]. apply Hout; [done|]. assert (i' ≠ i) by (intros ->; congruence). nia. }
      destruct (cache (ghost w) !! c') as [[q' r']|] eqn:E'; cbn [stored] in Hh |- *.
      * destruct Hh as (? & Hr' & Hst). split_and!; try done; try lia. intros j Hj. rewrite Hkeep; [by apply Hst|].
        pose proof (ClientReplyMsg.length_layout 0 q' r') as Hl'. unfold ClientReplyMsg.sizeof_ClientReplyMsgHeader, maxReplyMessageSize in *.
        pose proof (pagesOf_per (Z.of_nat (length (ClientReplyMsg.layout 0 q' r'))) ltac:(unfold maxReplyMessageSize; lia)). lia.
      * specialize (Hkeep 0 ltac:(lia)). rewrite Z.add_0_r in Hkeep. by rewrite Hkeep.
Qed.

Lemma wf_agree s M P M' P' : wf s M P → (∀ c, c ∈ clients → M c = M' c ∧ P c = P' c) → wf s M' P'.
Proof. intros [] HE. constructor; try done. intros i c info Hi Hinfo. destruct (HE c) as [<- <-]; [by eapply list_elem_of_lookup_2|by eapply wf_infos0]. Qed.

Lemma lastReply_spec s M P i c : wf s M P → clients !! i = Some c → seqNumberOfLastReplyToClient s c = Ok (lastOf (M c)).
Proof. intros Hw Hi. unfold seqNumberOfLastReplyToClient. find_client Hw Hi info. by destruct Hiok as [-> _]. Qed.

Lemma canBecomePending_spec s M P i c q : wf s M P → clients !! i = Some c →
  noPendingAndRequestCanBecomePending s c q = Ok (bool_decide (P c = None ∧ lastOf (M c) < q)).
Proof.
  intros Hw Hi. unfold noPendingAndRequestCanBecomePending. find_client Hw Hi info. destruct Hiok as [-> Hp].
  destruct (P c) as [[q' tm]|]; [destruct Hp as (? & -> & _)|destruct Hp as [-> _]].
  - rewrite (proj2 (Z.eqb_neq q' 0)) by lia. by rewrite bool_decide_eq_false_2 by naive_solver.
  - cbn [Z.eqb negb]. destruct (Z.leb_spec q (lastOf (M c))); [rewrite bool_decide_eq_false_2 by lia|rewrite bool_decide_eq_true_2 by done]; done.
Qed.

Lemma addPending_ok s M P i c q now : wf s M P → clients !! i = Some c → P c = None → 0 <= lastOf (M c) < q →
  ∃ s', addPendingRequest now s c q = Ok s' ∧ wf s' M (fun c' => if decide (c' = c) then Some (q, now) else P c').
Proof.
  intros Hw Hi HP Hq. unfold addPendingRequest. find_client Hw Hi info. destruct Hiok as [Hl Hp]. rewrite HP in Hp. destruct Hp as [-> _]. rewrite Hl.
  rewrite !(proj2 (Z.ltb_lt _ q)) by lia. cbn [andb Assert mbind res_bind]. eexists. split; [done|].
  eapply wf_set; [done|done| |].
  - split; [done|]. rewrite decide_True by done. split_and!; [lia|done|done].
  - intros c' Hc'. by rewrite decide_False.
Qed.

Lemma removePending_ok s M P i c : wf s M P → clients !! i = Some c →
  ∃ s', removePendingRequestOfClient s c = Ok s' ∧ wf s' M (fun c' => if decide (c' = c) then None else P c').
Proof.
  intros Hw Hi. unfold removePendingRequestOfClient. find_client Hw Hi info. eexists. split; [done|]. destruct Hiok as [Hl Hp].
  destruct (P c) as [[q tm]|] eqn:E.
  - destruct Hp as (Hq & -> & Ht). rewrite (proj2 (Z.eqb_neq q 0)) by lia. cbn [negb]. eapply wf_set; [done|done| |].
    + split; [done|]. by rewrite decide_True.
    + intros c' Hc'. by rewrite decide_False.
  - destruct Hp as [-> _]. cbn [Z.eqb negb]. eapply wf_agree; [done|]. intros c' _. split; [done|]. case_decide; [by subst|done].
Qed.

Lemma clearAll_ok s M P : wf s M P → clients ≠ [] → ∃ s', clearAllPendingRequests s = Ok s' ∧ wf s' M (fun _ => None).
Proof.
  intros Hw Hne. destruct Hw as [? ? ? ? ? Hlen Hinfos]. unfold clearAllPendingRequests. cbn. destruct (indexToClientInfo_ s) as [|c l] eqn:E; [by destruct clients|].
  cbn. eexists. split; [done|]. constructor; try done; cbn; rewrite ?length_fmap; [done|]. intros i c' info Hi Hinfo.
  change (noPending c :: (noPending <$> l)) with (noPending <$> (c :: l)) in Hinfo. apply list_lookup_fmap_Some in Hinfo as (info0 & -> & Hinfo0).
  destruct (Hinfos i c' info0 Hi Hinfo0) as [Hl _]. by split.
Qed.

(** A pending request that was answered is not pending any more. *)
Definition settled (o : option (Z * list Z)) (p : option (Z * Z)) : option (Z * Z) :=
  match p with Some (q, tm) => if q <=? lastOf o then None else Some (q, tm) | None => None end.

(** *** Loading the information after the pages were replaced *)
Lemma loadInfo_client s M P pages (m : gmap Z (Z * list Z)) i c : wf s M P → rp_ok pages → clients !! i = Some c → stored (rp_page pages) (Z.of_nat i * per) (m !! c) →
  ∃ s', loadInfoOfClient pages s (c, Z.of_nat i) = Ok s' ∧
    wf s' (fun c' => if decide (c' = c) then m !! c else M c')
          (fun c' => if decide (c' = c) then settled (m !! c) (P c) else P c').
Proof.
  intros Hw Hok Hi Hst. unfold loadInfoOfClient. cbn [snd]. unfold deref. rewrite (wf_ready _ _ _ Hw), (wf_per _ _ _ Hw), (wf_size _ _ _ Hw). cbn [mbind res_bind].
  rewrite (client_first i c Hi). pose proof (stored_header false pages i c _ Hok Hi Hst ltac:(done)) as E.
  destruct (loadReservedPage _ _ _) as [page|]; [|done]. cbn [mbind res_bind] in E |- *. rewrite E. cbn [mbind res_bind].
  destruct (at_info_ok _ _ _ _ _ Hw Hi) as (info & _ & Hat & Hl & Hp). rewrite Hat. cbn [mbind res_bind]. eexists. split; [done|].
  eapply wf_set; [done|done| |].
  - rewrite !decide_True by done. split; [done|]. unfold settled. destruct (P c) as [[q tm]|]; [destruct Hp as (Hq & -> & ->)|destruct Hp as [-> ->]]; [|done].
    rewrite (proj2 (Z.eqb_neq q 0)) by lia. cbn [negb andb]. destruct (q <=? lastOf (m !! c)); done.
  - intros c' Hc'. by rewrite !decide_False.
Qed.

Lemma loadInfo_clients pages (m : gmap Z (Z * list Z)) M P l2 : ∀ s l1, clients = l1 ++ l2 → rp_ok pages → holds (rp_page pages) m →
  wf s (fun c => if decide (c ∈ l1) then m !! c else M c) (fun c => if decide (c ∈ l1) then settled (m !! c) (P c) else P c) →
  ∃ s', foldM (loadInfoOfClient pages) s (zip l2 (seqZ (Z.of_nat (length l1)) (Z.of_nat (length l2)))) = Ok s' ∧
    wf s' (fun c => m !! c) (fun c => settled (m !! c) (P c)).
Proof.
  induction l2 as [|c l2 IH]; intros s l1 Hcl Hok Hh Hw.
  - exists s. split; [done|]. eapply wf_agree; [done|]. intros c Hc. rewrite Hcl, app_nil_r in Hc. cbn beta. by rewrite !(decide_True (P := c ∈ l1)).
  - assert (Hi : clients !! length l1 = Some c) by (rewrite Hcl; by apply list_lookup_middle).
    assert (Hc : c ∉ l1) by (rewrite Hcl in Hclients; apply NoDup_app in Hclients as (_ & Hd & _); intros Hc; apply (Hd c Hc); left).
    rewrite length_cons, Nat2Z.inj_succ, seqZ_cons by lia. cbn [zip zip_with foldM].
    destruct (loadInfo_client s _ _ pages m (length l1) c Hw Hok Hi (Hh _ _ Hi)) as (s1 & -> & Hw1). cbn [mbind res_bind].
    destruct (IH s1 (l1 ++ [c])) as (s' & E & Hw'); [by rewrite Hcl, <- (assoc_L (++))|done|done| |].
    + eapply wf_agree; [done|]. intros c' _. cbn beta. destruct (decide (c' = c)) as [->|Hne].
      * rewrite !(decide_True (P := c ∈ l1 ++ [c])) by set_solver. by rewrite !(decide_False (P := c ∈ l1)).
      * destruct (decide (c' ∈ l1)); [rewrite !decide_True by set_solver|rewrite !decide_False by set_solver]; done.
    + rewrite length_app in E. cbn in E. exists s'. split; [|done]. rewrite <- E. do 3 f_equal; lia.
Qed.

Lemma loadInfo_ok s M P pages m : wf s M P → rp_ok pages → holds (rp_page pages) m →
  ∃ s', loadInfoFromReservedPages s pages = Ok s' ∧ wf s' (fun c => m !! c) (fun c => settled (m !! c) (P c)).
Proof.
  intros Hw Hok Hh. unfold loadInfoFromReservedPages. rewrite (wf_index _ _ _ Hw). apply (loadInfo_clients pages m M P clients s []); try done.
Qed.

(** ** Runs *)

(** [Replace] stands for the end of a state transfer: the pages were replaced by those of another replica. *)
Inductive op :=
  | NewReply (c q primary : Z) (reply rest : list Z) (now : Z)
  | AddPending (c q now : Z)
  | RemovePending (c : Z)
  | ClearPending
  | Replace (pages : S) (m : gmap Z (Z * list Z)).

(** What the caller takes care of: clients are known; a new reply is newer than the latest one (asserted at
    ClientsManager.cpp:136) and fits; a request becomes pending only when none is and it is newer than the latest reply
    (the handler of requests checks it; line 258 asserts that it is newer than the reply and a pending request); and
    the pages after a state transfer hold valid replies (asserted at lines 88-91). *)
Definition op_pre (w : world) (o : op) : Prop :=
  match o with
  | NewReply c q primary reply rest now => c ∈ clients ∧ lastOf (cache (ghost w) !! c) < q < 2 ^ 64 ∧ 0 <= primary < 65536 ∧
      0 < Z.of_nat (length reply) <= maxReplyMessageSize - hdr
  | AddPending c q now => c ∈ clients ∧ pend (ghost w) !! c = None ∧ lastOf (cache (ghost w) !! c) < q
  | RemovePending c => c ∈ clients
  | ClearPending => True
  | Replace pages m => rp_ok pages ∧ holds (rp_page pages) m
  end.

Definition abs_step (a : abs) (o : op) : abs :=
  match o with
  | NewReply c q _ reply _ _ => mkAbs (<[c := (q, reply)]> (cache a)) (pend a)
  | AddPending c q now => mkAbs (cache a) (<[c := (q, now)]> (pend a))
  | RemovePending c => mkAbs (cache a) (delete c (pend a))
  | ClearPending => mkAbs (cache a) ∅
  | Replace _ m => mkAbs m (map_imap (fun c p => settled (m !! c) (Some p)) (pend a))
  end.

Definition step (s : t) (pages : S) (o : op) : res (t * S) :=
  match o with
  | NewReply c q primary reply rest now =>
      '(_, s, pages) ← allocateNewReplyMsgAndWriteToStorage now s pages c q primary (reply ++ rest) (Z.of_nat (length reply)); Ok (s, pages)
  | AddPending c q now => s ← addPendingRequest now s c q; Ok (s, pages)
  | RemovePending c => s ← removePendingRequestOfClient s c; Ok (s, pages)
  | ClearPending => s ← clearAllPendingRequests s; Ok (s, pages)
  | Replace pages' _ => s ← loadInfoFromReservedPages s pages'; Ok (s, pages')
  end.

Definition exec (w : world) (o : op) : res world :=
  '(s, p) ← step (mgr w) (pgs w) o; Ok (mkW s p (abs_step (ghost w) o)).

Lemma lastOf_nonneg w i c : inv w → clients !! i = Some c → 0 <= lastOf (cache (ghost w) !! c).
Proof. intros (_ & _ & Hh) Hi. specialize (Hh i c Hi). destruct (cache (ghost w) !! c) as [[q r]|]; cbn; [|done]. destruct Hh as [? _]. lia. Qed.

Lemma exec_inv w o : clients ≠ [] → inv w → op_pre w o → ∃ w', exec w o = Ok w' ∧ inv w'.
Proof.
  intros Hne Hw Hpre. pose proof Hw as (Hwf & Hok & Hh). destruct o as [c q primary reply rest now|c q now|c| |pages m]; unfold exec; cbn [step].
  - destruct Hpre as ([i Hi]%list_elem_of_lookup & Hq & Hp & Hr). destruct (newReply_ok w i c q primary reply rest now Hw Hi Hq Hr Hp) as (s' & p' & -> & Hinv); [by eapply lastOf_nonneg|].
    eexists. split; [done|exact Hinv].
  - destruct Hpre as ([i Hi]%list_elem_of_lookup & HP & Hq). destruct (addPending_ok _ _ _ i c q now Hwf Hi HP) as (s' & -> & Hw').
    { split; [by eapply lastOf_nonneg|done]. }
    eexists. split; [done|]. split_and!; [|done|done]. eapply wf_agree; [done|]. intros c' _. split; [done|]. cbn. case_decide; [subst; by rewrite lookup_insert_eq|by rewrite lookup_insert_ne].
  - apply list_elem_of_lookup in Hpre as [i Hi]. destruct (removePending_ok _ _ _ i c Hwf Hi) as (s' & -> & Hw').
    eexists. split; [done|]. split_and!; [|done|done]. eapply wf_agree; [done|]. intros c' _. split; [done|]. cbn. case_decide; [subst; by rewrite lookup_delete_eq|by rewrite lookup_delete_ne].
  - destruct (clearAll_ok _ _ _ Hwf Hne) as (s' & -> & Hw'). eexists. split; [done|]. split_and!; done.
  - destruct Hpre as [Hok' Hh']. destruct (loadInfo_ok _ _ _ pages m Hwf Hok' Hh') as (s' & -> & Hw').
    eexists. split; [done|]. split_and!; [|done|done]. eapply wf_agree; [done|]. intros c' _. split; [done|]. cbn. rewrite map_lookup_imap. by destruct (pend (ghost w) !! c').
Qed.

(** ** The start of a replica *)
Lemma zero_pages pages k : rp_ok pages → Z.of_nat k <= num →
  ∃ pages', foldM zeroReservedPage pages (seqZ 0 (Z.of_nat k)) = Ok pages' ∧ rp_ok pages' ∧
    ∀ j, 0 <= j < Z.of_nat k → rp_page pages' j = replicate (Z.to_nat size) 0.
Proof.
  intros Hok. induction k as [|k IH]; intros Hk; [exists pages; split_and!; [done|done|lia]|].
  destruct IH as (p1 & E1 & Hok1 & H1); [lia|]. destruct (rp_zero p1 (Z.of_nat k) Hok1) as (p2 & E2 & Hok2 & H2 & H2'); [lia|].
  exists p2. split_and!; [|done|].
  - rewrite seqZ_S, Z.add_0_l, foldM_app, E1. cbn [mbind res_bind foldM]. by rewrite E2.
  - intros j Hj. destruct (decide (j = Z.of_nat k)) as [->|Hne]; [done|]. rewrite H2' by lia. apply H1. lia.
Qed.

(** As [ReplicaImp] does it: construction, [init], and clearing the pages when messages are first processed. *)
Definition boot (clientsSet : gset Z) (pages : S) : res world :=
  s ← ctor myId clientsSet size; s ← init s; pages ← clearReservedPages s pages; Ok (mkW s pages (mkAbs ∅ ∅)).

Lemma boot_clients clientsSet pages : clients = merge_sort Z.le (elements clientsSet) → clients ≠ [] → numClients < 65536 → rp_ok pages →
  ∃ w, boot clientsSet pages = Ok w ∧ inv w ∧ ghost w = mkAbs ∅ ∅.
Proof.
  intros Hcl Hne H16 Hok. pose proof per_pos as Hper. assert (1 <= numClients) by (destruct clients; [done|cbn; lia]).
  unfold boot, ctor. rewrite <- Hcl. rewrite (proj2 (Z.leb_le 1 _)) by done. cbn [Assert mbind res_bind]. fold per. unfold init. cbn [stateTransfer_ negb Assert mbind res_bind].
  rewrite (u16_small numClients) by lia. rewrite u32_small by nia. unfold clearReservedPages, deref.
  cbn [requiredNumberOfPages_ stateTransfer_ mbind res_bind myId_ sizeOfReservedPage_ reservedPagesPerClient_ clientIdToIndex_ indexToClientInfo_].
  rewrite (proj2 (Z.eqb_neq _ 0)) by nia. cbn [mbind res_bind].
  destruct (zero_pages pages (Z.to_nat (numClients * per)) Hok ltac:(lia)) as (p & E & Hok' & Hz). rewrite Z2Nat.id in E, Hz by lia. rewrite E. cbn [mbind res_bind].
  eexists. split; [done|]. split; [|done]. split_and!; [|done|].
  - constructor; cbn; try done; [by rewrite length_fmap|]. intros i c info Hi Hinfo. apply list_lookup_fmap_Some in Hinfo as (x & -> & _). by rewrite !lookup_empty.
  - intros i c Hi. cbn. rewrite lookup_empty. cbn [stored]. destruct (client_pages i c 0 Hi ltac:(lia)) as [Hr Hl]. rewrite Z.add_0_r in *. apply lookup_lt_Some in Hi. rewrite Hz by nia.
    unfold ClientReplyMsg.sizeof_ClientReplyMsgHeader in *. rewrite take_replicate. f_equal. lia.
Qed.
End spec.
End ClientsManagerSpec.
