(* ===== verification/ClientsManagerProps.v ===== *)
(** * The theorems about the clients manager (ClientsManager.v) *)
From S2P Require Import Prelude SysConsts DataStore ReservedPages MessageBase ClientReplyMsg ClientRequestMsg ClientsManager ClientsManagerSpec BCStateTran BCStateTranFacts BCStateTranSpec BCStateTranProps VirtualBlock VirtualBlockFacts VirtualBlockProps.

Module ClientsManagerProps.
Import ClientsManager ClientsManagerSpec.

(** The clients in the order of their pages, and the sizes of pages and numbers that fit. *)
Definition clientsOf (clientsSet : gset Z) : list Z := merge_sort Z.le (elements clientsSet).

Record setup (num size : Z) (clientsSet : gset Z) : Prop := {
  su_size : ClientReplyMsg.sizeof_ClientReplyMsgHeader <= size;
  su_pages : Z.of_nat (length (clientsOf clientsSet)) * per size <= num;
  su_num : num < 4294967296;
  su_some : clientsSet ≠ ∅;
  su_few : Z.of_nat (length (clientsOf clientsSet)) < 65536;
}.

Lemma clientsOf_elem c clientsSet : c ∈ clientsOf clientsSet ↔ c ∈ clientsSet.
Proof. unfold clientsOf. rewrite merge_sort_Permutation. apply elem_of_elements. Qed.
Lemma clientsOf_nodup clientsSet : NoDup (clientsOf clientsSet).
Proof. unfold clientsOf. rewrite merge_sort_Permutation. apply NoDup_elements. Qed.
Lemma clientsOf_nonempty clientsSet : clientsSet ≠ ∅ → clientsOf clientsSet ≠ [].
Proof. intros [c Hc]%set_choose_L E. apply clientsOf_elem in Hc. rewrite E in Hc. by apply elem_of_nil in Hc. Qed.

Section runs.
Context {S : Type} {RP : ReservedPages S} (num size : Z) {RPS : ReservedPagesSpec S num size}.
Context (myId : Z) (clientsSet : gset Z) (Hsetup : setup num size clientsSet).
#[local] Abbreviation clients := (clientsOf clientsSet).
#[local] Abbreviation INV := (inv num size myId clients).
#[local] Abbreviation RUN := (reachable exec (op_pre num size clients)).

Lemma step_inv w o : INV w → op_pre num size clients w o → ∃ w', exec w o = Ok w' ∧ INV w'.
Proof. destruct Hsetup. apply exec_inv; try done; [apply clientsOf_nodup|by apply clientsOf_nonempty]. Qed.

Lemma run_inv w0 w : INV w0 → RUN w0 w → INV w.
Proof. intros H0. apply (reachable_invariant exec (op_pre num size clients) w0 INV H0). intros w' o. apply step_inv. Qed.

(** What a manager answers about a client. *)
Lemma answers w c : INV w → c ∈ clientsSet →
  seqNumberOfLastReplyToClient (mgr w) c = Ok (lastOf (cache (ghost w) !! c)) ∧
  (∀ q, noPendingAndRequestCanBecomePending (mgr w) c q = Ok (bool_decide (pend (ghost w) !! c = None ∧ lastOf (cache (ghost w) !! c) < q))) ∧
  (∀ primary, 0 <= primary < 65536 → allocateMsgWithLatestReply (mgr w) (pgs w) c primary =
     match cache (ghost w) !! c with Some (q, reply) => Ok (ClientReplyMsg.image myId primary q reply) | None => Err AssertFailed end).
Proof.
  intros Hw Hc. destruct Hsetup. apply clientsOf_elem, list_elem_of_lookup in Hc as [i Hi]. pose proof Hw as (Hwf & _). split_and!.
  - by apply (lastReply_spec size myId clients (clientsOf_nodup _) (mgr w) (fun c => cache (ghost w) !! c) (fun c => pend (ghost w) !! c) i).
  - intros q. by apply (canBecomePending_spec size myId clients (clientsOf_nodup _) (mgr w) (fun c => cache (ghost w) !! c) (fun c => pend (ghost w) !! c) i).
  - intros primary Hp. destruct (cache (ghost w) !! c) as [[q reply]|] eqn:E.
    + by apply (latestReply_ok num size myId clients su_size0 (clientsOf_nodup _) su_pages0 su_num0 w i).
    + by apply (noReply_fails num size myId clients (clientsOf_nodup _) w i).
Qed.
End runs.

(** ** Properties *)

(** C17: The clients manager implements a cache of the latest reply and a pending request for each client, with any implementation
    of the reserved pages: after a start, in every order of operations whose callers keep their obligations ([op_pre]: known clients;
    a new reply has a greater number than the latest one and fits; a request becomes pending only when none is and it is newer than the
    latest reply; pages that replace the current ones at the end of a state transfer hold valid replies), no operation that changes it
    fails; the latest reply is the one made last, whatever was written for other clients, and a
    request can become pending exactly when none is and it is newer than the latest reply.  Asking for the latest reply of a client
    without one fails its assertion. *)
Theorem clientsManager_refines_cache {S} {RP : ReservedPages S} num size {RPS : ReservedPagesSpec S num size} myId clientsSet pages :
  setup num size clientsSet → rp_ok pages →
  ∃ w0, boot size myId clientsSet pages = Ok w0 ∧ ghost w0 = mkAbs ∅ ∅ ∧
    ∀ w, reachable exec (op_pre num size (clientsOf clientsSet)) w0 w →
      (∀ o, op_pre num size (clientsOf clientsSet) w o → ∃ w', exec w o = Ok w' ∧ ghost w' = abs_step (ghost w) o) ∧
      ∀ c, (c ∈ clientsSet ↔ isValidClient (mgr w) c = true) ∧ (c ∈ clientsSet →
        seqNumberOfLastReplyToClient (mgr w) c = Ok (lastOf (cache (ghost w) !! c)) ∧
        (∀ q, noPendingAndRequestCanBecomePending (mgr w) c q = Ok (bool_decide (pend (ghost w) !! c = None ∧ lastOf (cache (ghost w) !! c) < q))) ∧
        (∀ primary, 0 <= primary < 65536 → allocateMsgWithLatestReply (mgr w) (pgs w) c primary =
           match cache (ghost w) !! c with Some (q, reply) => Ok (ClientReplyMsg.image myId primary q reply) | None => Err AssertFailed end)).
Proof.
  intros Hs Hok. pose proof Hs as []. destruct (boot_clients num size myId (clientsOf clientsSet)) with clientsSet pages as (w0 & Hb & H0 & Hg); try done; [apply clientsOf_nodup|by apply clientsOf_nonempty|].
  exists w0. split_and!; [done|done|]. intros w Hr. pose proof (run_inv num size myId clientsSet Hs w0 w H0 Hr) as Hw. split; [|intros c; split].
  - intros o Ho. destruct (step_inv num size myId clientsSet Hs w o Hw Ho) as (w' & He & _). exists w'. split; [done|].
    unfold exec in He. destruct (step _ _ o) as [[s' p']|]; [|done]. by injection He as <-.
  - destruct Hw as [Hwf _]. rewrite (isValidClient_spec size myId (clientsOf clientsSet) (clientsOf_nodup _) _ _ _ c Hwf), bool_decide_eq_true. symmetry. apply clientsOf_elem.
  - intros Hc. by apply (answers num size myId clientsSet Hs).
Qed.

(** ** State transfer *)

(** The same message from another replica. *)
Definition sent_by (id : Z) (m : MessageBase.t) : MessageBase.t :=
  MessageBase.mk (MessageBase.msgBody_ m) (MessageBase.msgSize_ m) (MessageBase.storageSize_ m) id (MessageBase.owner_ m).

#[local] Existing Instance BCStateTranSpec.reserved_pages.
#[local] Existing Instance BCStateTranSpec.spec.
#[local] Abbreviation pageSize := BCStateTran.kSizeOfReservedPage.

(** A state of replica [id] that is reached from a start, with the pages of the state transfer module. *)
Definition manager_run (num id : Z) (clients : gset Z) (w : world) : Prop :=
  ∃ pages w0, BCStateTranSpec.ready num pages ∧ boot pageSize id clients pages = Ok w0 ∧
    reachable exec (op_pre num pageSize (clientsOf clients)) w0 w.

Lemma manager_run_inv num id clients w : setup num pageSize clients → manager_run num id clients w → inv num pageSize id (clientsOf clients) w.
Proof.
  intros Hs (pages & w0 & Hp & Hb & Hr). pose proof Hs as []. destruct (boot_clients num pageSize id (clientsOf clients)) with clients pages as (w' & Hb' & Hi & _);
    try done; [apply clientsOf_nodup|by apply clientsOf_nonempty|]. apply (run_inv num pageSize id clients Hs w0); [congruence|done].
Qed.

(** C18: With a collision-free hash, a replica that fetched a checkpoint of a correct replica with a virtual block that names only existing
    pages (the checks do not ensure this, see [unknown_page_accepted]) answers clients as that replica did when it made the checkpoint:
    the pages of an accepted block hold its replies, and loading the information about clients from them succeeds.  (The consistency
    check that the code asserts after the installation is not part of [completeFetch].) *)
Theorem replies_survive_state_transfer H num mx mx' blocks ws s k cp m vb vbSize myId myId' clients wc wr :
  (∀ x, length (H x) = Z.to_nat DIGEST_SIZE) → (∀ x y, H x = H y → x = y) → 2 <= mx → setup num pageSize clients →
  BCStateTranSpec.reach H num mx' blocks ws → BCStateTranFacts.snaps (BCStateTranFacts.ghost ws) !! BCStateTran.D.checkpointNum cp = Some m →
  BCStateTran.D.lastStoredCheckpoint (BCStateTran.psd_ (BCStateTranFacts.st ws)) - mx' <= BCStateTran.D.checkpointNum cp →
  BCStateTran.D.descMap (BCStateTran.psd_ (BCStateTranFacts.st ws)) !! BCStateTran.D.checkpointNum cp = Some cp →
  manager_run num myId clients wc → (∀ id, 0 <= id < num → m !! id = Some (BCStateTranSpec.pageOf (pgs wc) id)) →
  manager_run num myId' clients wr →
  VirtualBlockFacts.waiting H num mx s k cp → VirtualBlockFacts.ints_ok vb → (∀ i e, 0 <= i → VirtualBlock.getVirtualElement i vb = Ok e → VirtualBlock.pageId e < num) →
  VirtualBlock.checkVirtualBlockOfResPages H s (BCStateTran.D.digestOfResPagesDescriptor cp) vb vbSize = Ok true →
  ∃ s' mgr', VirtualBlock.completeFetch s vb = Ok s' ∧ loadInfoFromReservedPages (mgr wr) s' = Ok mgr' ∧
    ∀ c, c ∈ clients → seqNumberOfLastReplyToClient mgr' c = seqNumberOfLastReplyToClient (mgr wc) c ∧
      ∀ primary, 0 <= primary < 65536 → allocateMsgWithLatestReply mgr' s' c primary = sent_by myId' <$> allocateMsgWithLatestReply (mgr wc) (pgs wc) c primary.
Proof.
  intros Hlen Hinj Hmx Hsu Hr Hm Hc Hd Hrc Hpages Hrr Hwait Hints Hids Hcheck. pose proof Hsu as [].
  pose proof (manager_run_inv num myId clients wc Hsu Hrc) as Hwc. pose proof (manager_run_inv num myId' clients wr Hsu Hrr) as Hwr.
  destruct (VirtualBlockProps.virtualBlock_completed H num mx mx' blocks ws s k cp m vb vbSize) as (s' & Hs' & Hcomp & Hsnap); try done.
  assert (Hready : BCStateTranSpec.ready num s').
  { apply (VirtualBlockFacts.completed_ready H num s' _ _ Hcomp). intros id Hid. destruct (Hsnap id Hid) as (v & -> & _). eauto. }
  assert (Hholds : holds pageSize (clientsOf clients) (BCStateTranSpec.pageOf s') (cache (ghost wc))).
  { eapply (holds_agree num pageSize (clientsOf clients)); [done|done|done| |apply Hwc]. intros id Hid. destruct (Hsnap id Hid) as (v & Hv & Hmv). rewrite (Hpages id Hid) in Hmv. injection Hmv as Hmv.
    etransitivity; [exact Hmv|]. symmetry. apply (BCStateTranSpec.current_pageOf s' id). by apply (VirtualBlockFacts.completed_current H num s' _ _ id v Hcomp). }
  destruct (step_inv num pageSize myId' clients Hsu wr (Replace s' (cache (ghost wc))) Hwr (conj Hready Hholds)) as (w' & He & Hw').
  unfold exec in He. cbn [step] in He. destruct (loadInfoFromReservedPages (mgr wr) s') as [mgr'|] eqn:E; [|done]. cbn [mbind res_bind] in He. injection He as <-.
  exists s', mgr'. split_and!; [done|done|]. intros c Hcl.
  destruct (answers num pageSize myId clients Hsu wc c Hwc Hcl) as (A1 & _ & A2). destruct (answers num pageSize myId' clients Hsu _ c Hw' Hcl) as (B1 & _ & B2). cbn [mgr ghost pgs abs_step cache] in B1, B2.
  split; [by rewrite A1, B1|]. intros primary Hp. rewrite (A2 primary Hp), (B2 primary Hp). by destruct (cache (ghost wc) !! c) as [[q' reply']|].
Qed.

(** ** Examples *)

(** Two clients, with pages in memory. *)
Definition ex_clients : gset Z := {[7; 9]}.
Definition ex_memory : NullStateTransfer.t := NullStateTransfer.init 4 4096 (replicate (Z.to_nat 16384) 0).

Lemma ex_setup : setup 4 4096 ex_clients.
Proof. constructor; [by vm_compute|by vm_compute|lia|by vm_compute|by vm_compute]. Qed.

#[local] Existing Instance NullStateTransfer.reserved_pages.
#[local] Instance ex_spec : ReservedPagesSpec NullStateTransfer.t 4 4096 :=
  NullStateTransfer.spec 4 4096 ltac:(lia) ltac:(lia) ltac:(lia).

Lemma ex_memory_ok : rp_ok ex_memory.
Proof. change (NullStateTransfer.ok 4 4096 ex_memory). unfold NullStateTransfer.ok, ex_memory. cbn [NullStateTransfer.init NullStateTransfer.numOfReservedPages NullStateTransfer.sizeOfPage NullStateTransfer.reservedPages]. rewrite length_replicate. lia. Qed.

Lemma clientsManager_refines_cache_witness : ∃ w0 w, boot 4096 2 ex_clients ex_memory = Ok w0 ∧ exec w0 (NewReply 7 5 0 [10; 20] [] 1) = Ok w ∧
  allocateMsgWithLatestReply (mgr w) (pgs w) 7 1 = Ok (ClientReplyMsg.image 2 1 5 [10; 20]) ∧ seqNumberOfLastReplyToClient (mgr w) 9 = Ok 0.
Proof.
  destruct (clientsManager_refines_cache 4 4096 2 ex_clients ex_memory ex_setup ex_memory_ok) as (w0 & Hb & Hg & Hall).
  assert (Hpre : op_pre 4 4096 (clientsOf ex_clients) w0 (NewReply 7 5 0 [10; 20] [] 1)).
  { split_and!; [by apply clientsOf_elem; vm_compute|rewrite Hg; by vm_compute|lia|lia|lia|cbn; lia|by vm_compute]. }
  destruct (Hall w0 (reachable_init _ _ _)) as [Hstep _]. destruct (Hstep _ Hpre) as (w & He & Hgw). exists w0, w. split_and!; [done|done| |].
  - destruct (Hall w (reachable_step _ _ _ _ _ _ (reachable_init _ _ _) Hpre He)) as [_ Hans]. destruct (proj2 (Hans 7) ltac:(by vm_compute)) as (_ & _ & Hl).
    rewrite (Hl 1 ltac:(lia)), Hgw, Hg. done.
  - destruct (Hall w (reachable_step _ _ _ _ _ _ (reachable_init _ _ _) Hpre He)) as [_ Hans]. destruct (proj2 (Hans 9) ltac:(by vm_compute)) as (Hq & _).
    rewrite Hq, Hgw, Hg. done.
Defined.

(** Client 5 has the reply [42] to its request 9 in pages that are part of a checkpoint. *)
Definition ex_client : gset Z := {[5]}.
Definition ex_replies : gmap Z (Z * list Z) := {[5 := (9, [42])]}.
Definition ex_page : list Z := BCStateTranFacts.padded (ClientReplyMsg.layout 0 9 [42]).
Definition ex_pages : gmap Z (list Z) := <[0 := ex_page]> (BCStateTranSpec.zeroPages 3).

Lemma ex_client_setup : setup 3 pageSize ex_client.
Proof. constructor; [by vm_compute|by vm_compute|lia|by vm_compute|by vm_compute]. Qed.

Lemma ex_checkpointed : ∃ ws, BCStateTranSpec.reach BCStateTranProps.ex_hash 3 2 BCStateTranProps.ex_blocks ws ∧
  BCStateTran.D.lastStoredCheckpoint (BCStateTran.psd_ (BCStateTranFacts.st ws)) = 1 ∧
  BCStateTranFacts.snaps (BCStateTranFacts.ghost ws) !! 1 = Some ex_pages ∧ BCStateTranFacts.cur (BCStateTranFacts.ghost ws) = ex_pages.
Proof.
  destruct (BCStateTranProps.boot_reach BCStateTranProps.ex_hash 3 2 BCStateTranProps.ex_blocks BCStateTranProps.ex_app false _ _ _ _ BCStateTranProps.ex_params) as (s0 & R0 & L0).
  destruct (BCStateTranProps.reach_exec_ok _ _ _ _ _ (BCStateTranFacts.Save 0 (ClientReplyMsg.layout 0 9 [42])) R0) as (w1 & _ & R1 & G1 & L1); [split; [lia|done]|].
  destruct (BCStateTranProps.reach_exec_ok _ _ _ _ _ (BCStateTranFacts.CreateCheckpoint BCStateTranProps.ex_app 1) R1) as (w2 & _ & R2 & G2 & L2).
  { split_and!; [rewrite L1; cbn; lia|apply BCStateTranProps.ex_app_ok|]. rewrite G1. by vm_compute. }
  exists w2. split_and!; [done|done| |]; rewrite G2, G1; [|done]. apply lookup_insert_eq.
Qed.

Lemma ex_manager id ws : BCStateTranSpec.reach BCStateTranProps.ex_hash 3 2 BCStateTranProps.ex_blocks ws → BCStateTranFacts.cur (BCStateTranFacts.ghost ws) = ex_pages →
  ∃ w, manager_run 3 id ex_client w ∧ pgs w = BCStateTranFacts.st ws ∧ cache (ghost w) = ex_replies.
Proof.
  intros R G. pose proof (BCStateTranSpec.reach_inv _ _ _ _ _ R) as Hi. pose proof (BCStateTranSpec.inv_ready _ _ _ _ _ Hi) as Hready.
  destruct (boot_clients 3 pageSize id (clientsOf ex_client)) with ex_client (BCStateTranFacts.st ws) as (w0 & Hb & H0 & _); try done; try apply ex_client_setup; [apply clientsOf_nodup|].
  assert (Hpage : BCStateTranSpec.pageOf (BCStateTranFacts.st ws) 0 = ex_page).
  { destruct (BCStateTranFacts.inv_cur _ _ _ _ _ Hi 0 ltac:(lia)) as (p & Hp & _ & Hc). rewrite G in Hp. unfold ex_pages in Hp. rewrite lookup_insert_eq in Hp.
    injection Hp as <-. by apply BCStateTranSpec.current_pageOf. }
  assert (Hpre : op_pre 3 pageSize (clientsOf ex_client) w0 (Replace (BCStateTranFacts.st ws) ex_replies)).
  { split; [done|]. intros [|i] c Hc; [|by destruct i]. injection Hc as <-. change (ex_replies !! 5) with (Some (9, [42])). refine (conj _ (conj _ _)); [lia|split; [cbn; lia|by vm_compute]|].
    intros j Hj. assert (j = 0) as -> by (change (pagesOf pageSize _) with 1 in Hj; lia). change (Z.of_nat 0 * per pageSize + 0) with 0.
    change (rp_page (BCStateTranFacts.st ws) 0) with (BCStateTranSpec.pageOf (BCStateTranFacts.st ws) 0). rewrite Hpage. by vm_compute. }
  destruct (step_inv 3 pageSize id ex_client ex_client_setup w0 _ H0 Hpre) as (w & He & _). exists w. split_and!.
  - exists (BCStateTranFacts.st ws), w0. split_and!; [done|done|]. eapply reachable_step; [apply reachable_init|done|done].
  - unfold exec in He. cbn [step] in He. destruct (loadInfoFromReservedPages _ _); [|done]. by injection He as <-.
  - unfold exec in He. cbn [step] in He. destruct (loadInfoFromReservedPages _ _); [|done]. by injection He as <-.
Qed.

Lemma replies_survive_state_transfer_witness : ∃ s vb s' (wr : @world BCStateTran.t) mgr', VirtualBlock.completeFetch s vb = Ok s' ∧ loadInfoFromReservedPages (mgr wr) s' = Ok mgr' ∧
  allocateMsgWithLatestReply mgr' s' 5 0 = Ok (ClientReplyMsg.image 1 0 9 [42]).
Proof.
  destruct ex_checkpointed as (ws & R & L & G & C). destruct (VirtualBlockProps.fresh_transfer ws 1 _ R L ltac:(lia) G) as (s & cp & Htr & Hcp).
  destruct (VirtualBlockProps.tr_snap _ _ _ _ _ _ _ _ _ _ Htr) as [Hm Hc]. destruct (VirtualBlockProps.ex_block ws s cp _ Htr) as (vb & vbSize & Hints & Hids & Hcheck).
  destruct (ex_manager 2 ws R C) as (wc & Rc & Pc & Gc). destruct (ex_manager 1 ws R C) as (wr & Rr & _ & _).
  destruct (replies_survive_state_transfer BCStateTranProps.ex_hash 3 2 2 BCStateTranProps.ex_blocks ws s 0 cp ex_pages vb vbSize 2 1 ex_client wc wr
    VirtualBlockProps.ex_hash_length BCStateTranProps.ex_hash_inj ltac:(lia) ex_client_setup R Hm Hc (VirtualBlockProps.tr_desc _ _ _ _ _ _ _ _ _ _ Htr) Rc) as (s' & mgr' & Hs' & Hl & Hans);
    [|done|apply (VirtualBlockProps.tr_waiting _ _ _ _ _ _ _ _ _ _ Htr)|done|done|done|].
  - intros id Hid. rewrite Pc. destruct (BCStateTranFacts.inv_cur _ _ _ _ _ (BCStateTranSpec.reach_inv _ _ _ _ _ R) id Hid) as (p & Hp & _ & Hcur).
    rewrite C in Hp. by rewrite (BCStateTranSpec.current_pageOf _ _ _ Hcur).
  - exists s, vb, s', wr, mgr'. split_and!; [done|done|]. destruct (Hans 5 ltac:(by vm_compute)) as [_ ->]; [|lia].
    destruct (answers 3 pageSize 2 ex_client ex_client_setup wc 5 (manager_run_inv _ _ _ _ ex_client_setup Rc) ltac:(by vm_compute)) as (_ & _ & ->); [|lia]. by rewrite Gc.
Defined.
End ClientsManagerProps.
