(* ===== verification/PrePrepareMsg.v ===== *)
(** * PrePrepareMsg (bftengine/src/bftengine/PrePrepareMsg.hpp, .cpp)

    A batch of requests for one sequence number: a header of 58 bytes, whose end holds the
    number of requests and the position after the last one, followed by the requests
    (ClientRequestMsg.v).  Positions are [uint32_t].  [H] is [DigestUtil::compute]. *)
From S2P Require Import Prelude SysConsts ReplicasInfo MessageBase ClientReplyMsg ClientRequestMsg.

Module PrePrepareMsg.

Definition sizeof_PrePrepareMsgHeader : Z := 58.
Definition prePrepareHeaderPrefix : Z := sizeof_PrePrepareMsgHeader - 2 - 4.

#[local] Abbreviation body := MessageBase.msgBody_.
#[local] Abbreviation getRequestSizeTemp := ClientRequestMsg.getRequestSizeTemp.

Definition nullDigest : Digest := replicate (Z.to_nat DIGEST_SIZE) 24.

(** ** Fields *)
Definition viewNumber (m : MessageBase.t) : res Z := get_int 8 (body m) 2.
Definition seqNumber (m : MessageBase.t) : res Z := get_int 8 (body m) 10.
Definition flags (m : MessageBase.t) : res Z := get_uint 2 (body m) 18.
Definition digestOfRequests (m : MessageBase.t) : res Digest := get_bytes (body m) 20 DIGEST_SIZE.
Definition numberOfRequests (m : MessageBase.t) : res Z := get_uint 2 (body m) 52.
Definition endLocationOfLastRequest (m : MessageBase.t) : res Z := get_uint 4 (body m) 54.

Definition isNull_flags (f : Z) : bool := Z.land f 1 =? 0.
Definition isReady_flags (f : Z) : bool := Z.land (Z.shiftr f 1) 1 =? 1.
Definition firstPath_flags (f : Z) : Z := Z.land (Z.shiftr f 2) 3.

Definition isNull (m : MessageBase.t) : res bool := isNull_flags <$> flags m.
Definition isReady (m : MessageBase.t) : res bool := isReady_flags <$> flags m.

(** The values of the enumeration [CommitPath]. *)
Definition num_of_path (p : CommitPath) : Z :=
  match p with CP_NA => -1 | OPTIMISTIC_FAST => 0 | FAST_WITH_THRESHOLD => 1 | SLOW => 2 end.
Definition path_of_num (n : Z) : CommitPath :=
  if n =? 0 then OPTIMISTIC_FAST else if n =? 1 then FAST_WITH_THRESHOLD else SLOW.

Definition firstPath (m : MessageBase.t) : res CommitPath :=
  f ← flags m; assert! (firstPath_flags f <=? 2) ;; Ok (path_of_num (firstPath_flags f)).

Definition computeFlagsForPrePrepareMsg (null ready : bool) (path : CommitPath) : res Z :=
  assert! (negb null || ready) ;;
  assert! (num_of_path path <=? 2) ;;
  Ok (i16 (Z.lor (Z.lor (Z.shiftl (num_of_path path) 2) (if ready then 2 else 0)) (if null then 0 else 1))).

(** ** Construction *)
Definition ctor (sender v s : Z) (path : CommitPath) (null : bool) : res MessageBase.t :=
  m ← MessageBase.ctor sender MC_PrePrepare (if null then sizeof_PrePrepareMsgHeader else maxExternalMessageSize);
  b1 ← put_int 8 (body m) 2 v;
  b2 ← put_int 8 b1 10 s;
  f ← computeFlagsForPrePrepareMsg null null path;
  b3 ← put_int 2 b2 18 f;
  b4 ← put_bytes b3 20 (if null then nullDigest else zeroDigest);
  b5 ← put_int 2 b4 52 0;
  b6 ← put_int 4 b5 54 sizeof_PrePrepareMsgHeader;
  Ok (with_body m b6).

Definition createNullPrePrepareMsg (sender v s : Z) (path : CommitPath) : res MessageBase.t := ctor sender v s path true.

Definition remainingSizeForRequests (m : MessageBase.t) : res Z :=
  ready ← isReady m; assert! (negb ready) ;;
  null ← isNull m; assert! (negb null) ;;
  e ← endLocationOfLastRequest m; assert! (sizeof_PrePrepareMsgHeader <=? e) ;;
  Ok (u32 (MessageBase.storageSize_ m - e)).

Definition addRequest (m : MessageBase.t) (pRequest : list Z) (requestSize : Z) : res MessageBase.t :=
  n ← getRequestSizeTemp pRequest 0; assert! (n =? requestSize) ;;
  null ← isNull m; assert! (negb null) ;;
  ready ← isReady m; assert! (negb ready) ;;
  r ← remainingSizeForRequests m; assert! (requestSize <=? r) ;;
  e ← endLocationOfLastRequest m;
  src ← get_bytes pRequest 0 requestSize;
  b1 ← put_bytes (body m) e src;
  b2 ← put_int 4 b1 54 (u32 (e + requestSize));
  k ← numberOfRequests (with_body m b2);
  b3 ← put_int 2 b2 52 (u16 (k + 1));
  Ok (with_body m b3).

(** The loop of [checkRequests], with the number of requests that remain. *)
Fixpoint checkFrom (bd : list Z) (endLoc : Z) (remainReqs : nat) (i : Z) : res bool :=
  match remainReqs with
  | O => Err AssertFailed
  | S n =>
      reqSize ← getRequestSizeTemp bd i;
      let i := u32 (i + reqSize) in
      match n with
      | O => Ok (i =? endLoc)
      | _ => if endLoc <=? i then Ok false else checkFrom bd endLoc n i
      end
  end.

Definition checkRequests (m : MessageBase.t) : res bool :=
  remainReqs ← numberOfRequests m;
  e ← endLocationOfLastRequest m;
  if remainReqs =? 0 then Ok (e =? sizeof_PrePrepareMsgHeader)
  else if e <=? sizeof_PrePrepareMsgHeader then Ok false
  else checkFrom (body m) e (Z.to_nat remainReqs) sizeof_PrePrepareMsgHeader.

Section digest.
Context (H : list Z → Digest).

(** The digest of the requests: from [numberOfRequests] in the header to the end of the last request. *)
Definition computeDigest (m : MessageBase.t) : res Digest :=
  e ← endLocationOfLastRequest m;
  bytes ← get_bytes (body m) prePrepareHeaderPrefix (u32 (e - prePrepareHeaderPrefix));
  Ok (H bytes).

Definition finishAddingRequests (m : MessageBase.t) : res MessageBase.t :=
  null ← isNull m; assert! (negb null) ;;
  ready ← isReady m; assert! (negb ready) ;;
  k ← numberOfRequests m; assert! (0 <? k) ;;
  e ← endLocationOfLastRequest m; assert! (sizeof_PrePrepareMsgHeader <? e) ;;
  d ← digestOfRequests m; assert! (bool_decide (d = zeroDigest)) ;;
  c ← checkRequests m; assert! c ;;
  f ← flags m;
  b1 ← put_int 2 (body m) 18 (Z.lor f 2);
  ready ← isReady (with_body m b1); assert! ready ;;
  d ← computeDigest (with_body m b1);
  b2 ← put_bytes b1 20 d;
  m ← MessageBase.setMsgSize (with_body m b2) e;
  MessageBase.shrinkToFit m.

Definition updateView (m : MessageBase.t) (v : Z) (path : CommitPath) : res MessageBase.t :=
  b1 ← put_int 8 (body m) 2 v;
  null ← isNull m;
  ready ← isReady m;
  f ← computeFlagsForPrePrepareMsg null ready path;
  b2 ← put_int 2 b1 18 f;
  Ok (with_body m b2).

Definition ToActualMsgType (repInfo : ReplicasInfo.t) (inMsg : MessageBase.t) : res bool :=
  ty ← MessageBase.type inMsg;
  assert! (ty =? code_of MC_PrePrepare) ;;
  assert! (negb (MessageBase.sender_ inMsg =? ReplicasInfo._myId repInfo)) ;;
  if MessageBase.msgSize_ inMsg <? sizeof_PrePrepareMsgHeader then Ok false
  else if negb (ReplicasInfo.isIdOfReplica repInfo (MessageBase.sender_ inMsg)) then Ok false
  else
    s ← seqNumber inMsg;
    if s =? 0 then Ok false
    else
      f ← flags inMsg;
      if isNull_flags f then Ok false
      else if negb (isReady_flags f) then Ok false
      else if 3 <=? firstPath_flags f then Ok false
      else
        path ← firstPath inMsg;
        if bool_decide (path = FAST_WITH_THRESHOLD) && (ReplicasInfo._cVal repInfo =? 0) then Ok false
        else if negb (Z.shiftr f 4 =? 0) then Ok false
        else
          e ← endLocationOfLastRequest inMsg;
          if MessageBase.msgSize_ inMsg <? e then Ok false
          else
            k ← numberOfRequests inMsg;
            if k =? 0 then Ok false
            else if e <=? k then Ok false
            else
              c ← checkRequests inMsg;
              if negb c then Ok false
              else
                d ← computeDigest inMsg;
                dm ← digestOfRequests inMsg;
                Ok (bool_decide (d = dm)).
End digest.

(** ** [RequestsIterator]: the state is [currLoc], a request is returned by its position. *)
Definition iter_ctor (m : MessageBase.t) : res Z :=
  ready ← isReady m; assert! ready ;; Ok sizeof_PrePrepareMsgHeader.

Definition iter_end (m : MessageBase.t) (currLoc : Z) : res bool :=
  e ← endLocationOfLastRequest m; assert! (currLoc <=? e) ;; Ok (currLoc =? e).

Definition getCurrent (m : MessageBase.t) (currLoc : Z) : res (option Z) :=
  e ← iter_end m currLoc; Ok (if (e : bool) then None else Some currLoc).

Definition gotoNext (m : MessageBase.t) (currLoc : Z) : res Z :=
  atEnd ← iter_end m currLoc; assert! (negb atEnd) ;;
  size ← getRequestSizeTemp (body m) currLoc;
  let currLoc := u32 (currLoc + size) in
  e ← endLocationOfLastRequest m; assert! (currLoc <=? e) ;;
  Ok currLoc.

Definition getAndGoToNext (m : MessageBase.t) (currLoc : Z) : res (option Z * Z) :=
  p ← getCurrent m currLoc;
  match p with
  | None => Ok (None, currLoc)
  | Some off => currLoc ← gotoNext m currLoc; Ok (Some off, currLoc)
  end.

(** The loop [while (iter.getAndGoToNext(p))]; it makes at most [fuel] rounds. *)
Fixpoint iterate (m : MessageBase.t) (fuel : nat) (currLoc : Z) : res (list Z) :=
  match fuel with
  | O => Err OutOfFuel
  | S n =>
      '(p, currLoc) ← getAndGoToNext m currLoc;
      match p with
      | None => Ok []
      | Some off => l ← iterate m n currLoc; Ok (off :: l)
      end
  end.

(** One round more than there are requests is enough ([accepted_requests]). *)
Definition requests (m : MessageBase.t) : res (list Z) :=
  k ← numberOfRequests m; loc ← iter_ctor m; iterate m (S (Z.to_nat k)) loc.

(** The request at a position, with its data ([requestBuf()] and [requestLength()]). *)
Definition readRequest (bd : list Z) (off : Z) : res ClientRequestMsg.Request :=
  c ← ClientRequestMsg.idOfClientProxy bd off;
  f ← ClientRequestMsg.flags bd off;
  q ← ClientRequestMsg.reqSeqNum bd off;
  l ← ClientRequestMsg.requestLength bd off;
  data ← get_bytes bd (off + ClientRequestMsg.sizeof_ClientRequestMsgHeader) l;
  Ok (ClientRequestMsg.mkRequest c (negb (Z.land f 1 =? 0)) q data).

Fixpoint readAll (bd : list Z) (offs : list Z) : res (list ClientRequestMsg.Request) :=
  match offs with [] => Ok [] | off :: offs' => r ← readRequest bd off; rs ← readAll bd offs'; Ok (r :: rs) end.

(** The requests of a message, in the order of the iterator. *)
Definition readRequests (m : MessageBase.t) : res (list ClientRequestMsg.Request) := offs ← requests m; readAll (body m) offs.
End PrePrepareMsg.
