(* ===== verification/PrePrepareMsgProps.v ===== *)
(** * The theorems about PrePrepare messages (PrePrepareMsg.v) *)
From S2P Require Import Prelude SysConsts ReplicasInfo MessageBase ClientReplyMsg ClientRequestMsg PrePrepareMsg.

Module PrePrepareMsgProps.
Import PrePrepareMsg.

#[local] Abbreviation body := MessageBase.msgBody_.
#[local] Abbreviation getRequestSizeTemp := ClientRequestMsg.getRequestSizeTemp.
#[local] Abbreviation requestLength := ClientRequestMsg.requestLength.

(** ** The positions of requests *)

(** Stepping from [i] over the requests at [offs] one arrives at [e]. *)
Fixpoint walk (bd : list Z) (e i : Z) (offs : list Z) : Prop :=
  match offs with
  | [] => i = e
  | off :: offs' => off = i ∧ i < e ∧ ∃ sz, getRequestSizeTemp bd i = Ok sz ∧ walk bd e (u32 (i + sz)) offs'
  end.

Lemma checkFrom_walk bd e n i : checkFrom bd e n i = Ok true → i < e → ∃ offs, length offs = n ∧ walk bd e i offs.
Proof.
  revert i. induction n as [|n IH]; intros i Hc Hi; [done|]. cbn [checkFrom] in Hc. apply bind_ok in Hc as (sz & Hsz & Hc).
  destruct n as [|n].
  - injection Hc as Hc%Z.eqb_eq. exists [i]. cbn. eauto 10.
  - destruct (Z.leb_spec e (u32 (i + sz))) as [|Hlt]; [done|]. destruct (IH _ Hc Hlt) as (offs & Hl & Hw). exists (i :: offs). cbn. split; [by rewrite Hl|]. eauto 10.
Qed.

Lemma iterate_S m n loc : iterate m (S n) loc =
  ('(p, loc) ← getAndGoToNext m loc; match p with None => Ok [] | Some off => l ← iterate m n loc; Ok (off :: l) end).
Proof. done. Qed.

Lemma walk_iterate m e i offs : endLocationOfLastRequest m = Ok e → walk (body m) e i offs → iterate m (S (length offs)) i = Ok offs.
Proof.
  intros He. revert i. induction offs as [|off offs IH]; intros i Hw; rewrite iterate_S; unfold getAndGoToNext, getCurrent, iter_end; rewrite He; cbn [mbind res_bind].
  - cbn in Hw. subst i. by rewrite Z.leb_refl, Z.eqb_refl.
  - destruct Hw as (-> & Hlt & sz & Hsz & Hw). rewrite (proj2 (Z.leb_le i e)), (proj2 (Z.eqb_neq i e)) by lia. cbn [Assert mbind res_bind].
    unfold gotoNext, iter_end. rewrite He. cbn [mbind res_bind]. rewrite (proj2 (Z.leb_le i e)), (proj2 (Z.eqb_neq i e)) by lia. cbn [Assert mbind res_bind negb].
    rewrite Hsz. cbn [mbind res_bind]. assert (Hle : u32 (i + sz) <= e) by (destruct offs; cbn in Hw; [lia|destruct Hw as (_ & ? & _); lia]).
    rewrite (proj2 (Z.leb_le _ e) Hle). cbn [Assert mbind res_bind length]. by rewrite (IH _ Hw).
Qed.

(** ** What acceptance means *)
Record accepted_facts (H : list Z → Digest) (m : MessageBase.t) (n e : Z) : Prop := {
  af_number : numberOfRequests m = Ok n ∧ 0 < n;
  af_end : endLocationOfLastRequest m = Ok e ∧ sizeof_PrePrepareMsgHeader < e;
  af_size : e <= MessageBase.msgSize_ m;
  af_ready : isReady m = Ok true;
  af_check : checkFrom (body m) e (Z.to_nat n) sizeof_PrePrepareMsgHeader = Ok true;
  af_digest : ∃ d, computeDigest H m = Ok d ∧ digestOfRequests m = Ok d;
}.

(** The result of a check that goes on. *)
Lemma if_false_ok (c : bool) (k : res bool) : (if c then Ok false else k) = Ok true → c = false ∧ k = Ok true.
Proof. by destruct c. Qed.

Lemma accepted H info m : Forall is_byte (body m) → ToActualMsgType H info m = Ok true → ∃ n e, accepted_facts H m n e.
Proof.
  intros Hb Ht. unfold ToActualMsgType in Ht. apply bind_ok in Ht as (ty & _ & Ht). apply assert_bind_ok in Ht as [_ Ht]. apply assert_bind_ok in Ht as [_ Ht].
  apply if_false_ok in Ht as [_ Ht]. apply if_false_ok in Ht as [_ Ht]. apply bind_ok in Ht as (s & _ & Ht). apply if_false_ok in Ht as [_ Ht].
  apply bind_ok in Ht as (f & Hf & Ht). apply if_false_ok in Ht as [_ Ht]. apply if_false_ok in Ht as [Hready Ht]. apply if_false_ok in Ht as [_ Ht].
  apply bind_ok in Ht as (p & _ & Ht). apply if_false_ok in Ht as [_ Ht]. apply if_false_ok in Ht as [_ Ht].
  apply bind_ok in Ht as (e & He & Ht). apply if_false_ok in Ht as [Hsize Ht]. apply bind_ok in Ht as (n & Hn & Ht). apply if_false_ok in Ht as [Hn0 Ht].
  apply if_false_ok in Ht as [_ Ht]. apply bind_ok in Ht as (c & Hc & Ht). apply if_false_ok in Ht as [Hct Ht]. apply bind_ok in Ht as (d & Hd & Ht).
  apply bind_ok in Ht as (dm & Hdm & Ht). injection Ht as Ht. bool_to_prop. subst dm c.
  pose proof (get_uint_range 2 _ _ _ Hb Hn) as Hnr. exists n, e. unfold checkRequests in Hc. rewrite Hn, He in Hc. cbn [mbind res_bind] in Hc.
  rewrite (proj2 (Z.eqb_neq n 0)) in Hc by done. apply if_false_ok in Hc as [Hce%Z.leb_gt Hc].
  constructor; try done; [split; [done|lia]|unfold isReady; rewrite Hf; cbn; by rewrite Hready|eauto].
Qed.

(** The step over a request whose length is small. *)
Lemma small_step bd e i sz l : 0 <= i < e → e < 2 ^ 31 → getRequestSizeTemp bd i = Ok sz → requestLength bd i = Ok l → 0 <= l < 2 ^ 31 - 17 → u32 (i + sz) = i + 17 + l.
Proof.
  intros Hi He Hsz Hl Hr. unfold getRequestSizeTemp, ClientRequestMsg.compRequestMsgSize in Hsz. rewrite Hl in Hsz. injection Hsz as <-.
  unfold ClientRequestMsg.sizeof_ClientRequestMsgHeader. rewrite swrap_small, (u32_small (17 + l)), u32_small by lia. lia.
Qed.

Lemma walk_le bd e i offs : walk bd e i offs → i <= e.
Proof. destruct offs; cbn; [lia|intros (_ & ? & _); lia]. Qed.

(** A request that starts before [e] and whose length is small lies in front of [e]. *)
Lemma walk_bounds bd e i offs : 0 <= i → e < 2 ^ 31 → walk bd e i offs →
  ∀ off l, off ∈ offs → requestLength bd off = Ok l → 0 <= l < 2 ^ 31 - 17 → 0 <= off ∧ off + 17 + l <= e.
Proof.
  revert i. induction offs as [|x offs IH]; intros i Hi He Hw off l Hin Hl Hr; [by apply elem_of_nil in Hin|].
  destruct Hw as (-> & Hlt & sz & Hsz & Hw). apply elem_of_cons in Hin as [->|Hin].
  - apply walk_le in Hw. rewrite (small_step bd e i sz l) in Hw by done. lia.
  - eapply (IH (u32 (i + sz))); [apply u32_range|done|done|done|done|done].
Qed.

(** When all lengths are small the positions increase. *)
Lemma walk_above bd e i offs : 0 <= i → e < 2 ^ 31 → walk bd e i offs →
  (∀ off, off ∈ offs → ∃ l, requestLength bd off = Ok l ∧ 0 <= l < 2 ^ 31 - 17) → ∀ off, off ∈ offs → i <= off.
Proof.
  revert i. induction offs as [|x offs IH]; intros i Hi He Hw Hall off Hin; [by apply elem_of_nil in Hin|].
  destruct Hw as (-> & Hlt & sz & Hsz & Hw). apply elem_of_cons in Hin as [->|Hin]; [done|].
  destruct (Hall i ltac:(left)) as (l & Hl & Hr). rewrite (small_step bd e i sz l) in Hw by done.
  assert (i + 17 + l <= off); [|lia]. apply (IH (i + 17 + l)); [lia|done|done| |done]. intros off' Hoff'. apply Hall. by right.
Qed.

(** ** Messages that agree on a range *)
Definition agree (bd1 bd2 : list Z) (lo hi : Z) : Prop := ∀ off len, lo <= off → 0 <= len → off + len <= hi → get_bytes bd1 off len = get_bytes bd2 off len.

Lemma get_bytes_sub bd lo n bs off len : get_bytes bd lo n = Ok bs → lo <= off → 0 <= len → off + len <= lo + n →
  get_bytes bd off len = get_bytes bs (off - lo) len.
Proof.
  intros [(H1 & H2 & H3) ->]%get_bytes_ok Ho Hl Hn. unfold get_bytes.
  rewrite (proj2 (in_buf_true bd off len)) by lia. rewrite (proj2 (in_buf_true _ (off - lo) len)) by (rewrite length_take, length_drop; lia).
  f_equal. replace (Z.to_nat off) with (Z.to_nat lo + Z.to_nat (off - lo))%nat by lia. rewrite <- drop_drop.
  set (d := drop (Z.to_nat lo) bd). apply list_eq. intros j. destruct (decide (j < Z.to_nat len)%nat).
  - rewrite !lookup_take_lt, !lookup_drop, lookup_take_lt by lia. done.
  - rewrite !lookup_take_ge by lia. done.
Qed.

Lemma agree_from bd1 bd2 lo n bs : get_bytes bd1 lo n = Ok bs → get_bytes bd2 lo n = Ok bs → agree bd1 bd2 lo (lo + n).
Proof. intros E1 E2 off len Ho Hl Hh. by rewrite (get_bytes_sub bd1 lo n bs), (get_bytes_sub bd2 lo n bs). Qed.

Lemma agree_request bd1 bd2 lo hi off l : agree bd1 bd2 lo hi → lo <= off → requestLength bd1 off = Ok l → 0 <= l → off + 17 + l <= hi →
  getRequestSizeTemp bd1 off = getRequestSizeTemp bd2 off ∧ readRequest bd1 off = readRequest bd2 off.
Proof.
  intros Ha Ho Hl Hl0 Hh. assert (El : requestLength bd1 off = requestLength bd2 off) by (unfold requestLength, get_uint; rewrite Ha; [done|lia..]).
  unfold getRequestSizeTemp, ClientRequestMsg.compRequestMsgSize, readRequest. rewrite <- El, Hl. split; [done|].
  unfold ClientRequestMsg.idOfClientProxy, ClientRequestMsg.flags, ClientRequestMsg.reqSeqNum, get_uint.
  rewrite !(Ha (off + 2)), !(Ha (off + 4)), !(Ha (off + 5)) by lia. cbn [mbind res_bind].
  unfold ClientRequestMsg.sizeof_ClientRequestMsgHeader. by rewrite (Ha (off + 17)) by lia.
Qed.

Lemma agree_walk bd1 bd2 lo e offs : ∀ i, agree bd1 bd2 lo e → lo <= i →
  (∀ off, off ∈ offs → lo <= off ∧ ∃ l, requestLength bd1 off = Ok l ∧ 0 <= l ∧ off + 17 + l <= e) →
  walk bd1 e i offs → walk bd2 e i offs ∧ readAll bd1 offs = readAll bd2 offs.
Proof.
  induction offs as [|off offs IH]; intros i Ha Hi Hin Hw; [done|]. destruct Hw as (-> & Hlt & sz & Hsz & Hw).
  destruct (Hin i ltac:(left)) as (_ & l & Hl & Hl0 & Hle). destruct (agree_request bd1 bd2 lo e i l Ha Hi Hl Hl0 Hle) as [E1 E2].
  assert (Hnext : lo <= u32 (i + sz)).
  { destruct offs as [|y offs]; [cbn in Hw; lia|]. destruct Hw as (-> & _). by apply (Hin (u32 (i + sz))); right; left. }
  destruct (IH (u32 (i + sz)) Ha Hnext) as [Hw2 Hr]; [intros off Hoff; apply Hin; by right|done|].
  split; [|cbn [readAll]; by rewrite E2, Hr]. cbn. split_and!; [done|done|]. exists sz. by rewrite <- E1.
Qed.

(** ** The layout *)
Definition bodyOf (v s f : Z) (d : Digest) (k e : Z) (data : list Z) : list Z :=
  le_enc 2 (code_of MC_PrePrepare) ++ le_enc 8 v ++ le_enc 8 s ++ le_enc 2 f ++ d ++ le_enc 2 k ++ le_enc 4 e ++ data.

Lemma length_bodyOf v s f d k e data : length d = Z.to_nat DIGEST_SIZE → Z.of_nat (length (bodyOf v s f d k e data)) = 58 + Z.of_nat (length data).
Proof. intros Hd. change (Z.to_nat DIGEST_SIZE) with 32%nat in Hd. unfold bodyOf. rewrite !length_app, !length_le_enc. lia. Qed.

Record fields_ok (v s f k e : Z) (d : Digest) : Prop := {
  fo_v : - 2 ^ 63 <= v < 2 ^ 63;
  fo_s : - 2 ^ 63 <= s < 2 ^ 63;
  fo_f : 0 <= f < 65536;
  fo_k : 0 <= k < 65536;
  fo_e : 0 <= e < 2 ^ 32;
  fo_d : length d = 32%nat;
}.

Lemma fields v s f d k e data size st sender own : fields_ok v s f k e d →
  let m := MessageBase.mk (bodyOf v s f d k e data) size st sender own in
  MessageBase.type m = Ok (code_of MC_PrePrepare) ∧ viewNumber m = Ok v ∧ seqNumber m = Ok s ∧ flags m = Ok f ∧ digestOfRequests m = Ok d ∧
  numberOfRequests m = Ok k ∧ endLocationOfLastRequest m = Ok e.
Proof.
  intros [Hv Hs Hf Hk He Hd] m. unfold m, MessageBase.type, viewNumber, seqNumber, flags, digestOfRequests, numberOfRequests, endLocationOfLastRequest, get_uint, get_int, bodyOf.
  cbn [MessageBase.msgBody_]. change (Z.of_nat 8) with 8. change (Z.of_nat 2) with 2. change (Z.of_nat 4) with 4. change DIGEST_SIZE with 32. split_and!.
  - rewrite get_bytes_head by done. done.
  - rewrite (get_bytes_skip_to _ _ _ _ (Ok (le_enc 8 v))); [|done|solve_get]. cbn [fmap res_fmap]. rewrite (swrap_le_dec_enc 8) by lia. f_equal. by apply swrap_small.
  - rewrite (get_bytes_skip_to _ _ _ _ (Ok (le_enc 8 s))); [|done|solve_get]. cbn [fmap res_fmap]. rewrite (swrap_le_dec_enc 8) by lia. f_equal. by apply swrap_small.
  - rewrite (get_bytes_skip_to _ _ _ _ (Ok (le_enc 2 f))); [|done|solve_get]. cbn [fmap res_fmap]. rewrite le_dec_enc. f_equal. by apply (wrap_small 16).
  - rewrite (get_bytes_skip_to _ _ _ _ (Ok d)); [done|done|solve_get].
  - rewrite (get_bytes_skip_to _ _ _ _ (Ok (le_enc 2 k))); [|done|solve_get]. cbn [fmap res_fmap]. rewrite le_dec_enc. f_equal. by apply (wrap_small 16).
  - rewrite (get_bytes_skip_to _ _ _ _ (Ok (le_enc 4 e))); [|done|solve_get]. cbn [fmap res_fmap]. rewrite le_dec_enc. f_equal. by apply (wrap_small 32).
Qed.

(** The bytes that the digest covers. *)
Lemma digest_bytes v s f d k e data n : length d = 32%nat → 58 <= e → e = 58 + Z.of_nat n → (n <= length data)%nat →
  get_bytes (bodyOf v s f d k e data) 52 (e - 52) = Ok (le_enc 2 k ++ le_enc 4 e ++ take n data).
Proof.
  intros Hd He Hn Hl. unfold bodyOf. rewrite <- (take_drop n data) at 1.
  rewrite !(assoc_L (++)), <- !(assoc_L (++)).
  replace (le_enc 2 (code_of MC_PrePrepare) ++ le_enc 8 v ++ le_enc 8 s ++ le_enc 2 f ++ d ++ le_enc 2 k ++ le_enc 4 e ++ take n data ++ drop n data)
    with ((le_enc 2 (code_of MC_PrePrepare) ++ le_enc 8 v ++ le_enc 8 s ++ le_enc 2 f ++ d) ++ (le_enc 2 k ++ le_enc 4 e ++ take n data) ++ drop n data) by by rewrite <- !(assoc_L (++)).
  apply get_bytes_mid; rewrite !length_app, !length_le_enc; [lia|]. rewrite length_take. lia.
Qed.

(** The checks of the header of a message of this layout. *)
Record header_ok (info : ReplicasInfo.t) (s f k e size sender : Z) : Prop := {
  ho_s : s ≠ 0;
  ho_k : 0 < k < e;
  ho_e : 58 < e <= size;
  ho_sender : sender ≠ ReplicasInfo._myId info ∧ ReplicasInfo.isIdOfReplica info sender = true;
  ho_flags : isNull_flags f = false ∧ isReady_flags f = true ∧ firstPath_flags f <= 2 ∧ Z.shiftr f 4 = 0;
  ho_path : firstPath_flags f = 1 → ReplicasInfo._cVal info ≠ 0;
}.

Lemma bodyOf_validate H info v s f d k e data size sender own (m := MessageBase.mk (bodyOf v s f d k e data) size size sender own) :
  fields_ok v s f k e d → header_ok info s f k e size sender →
  ToActualMsgType H info m = (c ← checkFrom (bodyOf v s f d k e data) e (Z.to_nat k) 58;
    if negb c then Ok false else d' ← computeDigest H m; Ok (bool_decide (d' = d))).
Proof.
  intros Hfo [Hs Hk He [Hsend Hrep] (Hnull & Hready & Hpath & Hres) Hc].
  destruct (fields v s f d k e data size size sender own Hfo) as (E1 & E2 & E3 & E4 & E5 & E6 & E7). cbv zeta in *. fold m in E1, E2, E3, E4, E5, E6, E7.
  unfold ToActualMsgType. rewrite E1. cbn [mbind res_bind]. rewrite Z.eqb_refl. cbn [Assert mbind res_bind]. change (MessageBase.sender_ m) with sender.
  rewrite (proj2 (Z.eqb_neq sender _) Hsend). cbn [negb Assert mbind res_bind]. change (MessageBase.msgSize_ m) with size. unfold sizeof_PrePrepareMsgHeader.
  rewrite (proj2 (Z.ltb_ge size 58)) by lia. rewrite Hrep. cbn [negb]. rewrite E3. cbn [mbind res_bind]. rewrite (proj2 (Z.eqb_neq s 0) Hs), E4. cbn [mbind res_bind].
  rewrite Hnull, Hready. cbn [negb]. rewrite (proj2 (Z.leb_gt 3 _)) by lia. unfold firstPath. rewrite E4. cbn [mbind res_bind]. rewrite (proj2 (Z.leb_le _ 2) Hpath). cbn [Assert mbind res_bind].
  assert (bool_decide (path_of_num (firstPath_flags f) = FAST_WITH_THRESHOLD) && (ReplicasInfo._cVal info =? 0) = false) as ->.
  { apply andb_false_iff. destruct (decide (firstPath_flags f = 1)) as [E|E]; [right; apply Z.eqb_neq; auto|left]. apply bool_decide_eq_false. unfold path_of_num.
    destruct (Z.eqb_spec (firstPath_flags f) 0); [done|]. by rewrite (proj2 (Z.eqb_neq _ 1) E). }
  rewrite Hres. cbn [Z.eqb negb]. rewrite E7. cbn [mbind res_bind]. rewrite (proj2 (Z.ltb_ge size e)), E6 by lia. cbn [mbind res_bind].
  rewrite (proj2 (Z.eqb_neq k 0)), (proj2 (Z.leb_gt e k)) by lia. unfold checkRequests. rewrite E6, E7. cbn [mbind res_bind]. unfold sizeof_PrePrepareMsgHeader.
  rewrite (proj2 (Z.eqb_neq k 0)), (proj2 (Z.leb_gt e 58)) by lia. change (body m) with (bodyOf v s f d k e data). rewrite E5. done.
Qed.

(** Acceptance of a message of this layout. *)
Lemma bodyOf_accepted H info v s f d k e data n size sender own : fields_ok v s f k e d → header_ok info s f k e size sender →
  e = 58 + Z.of_nat n → (n <= length data)%nat →
  checkFrom (bodyOf v s f d k e data) e (Z.to_nat k) 58 = Ok true → d = H (le_enc 2 k ++ le_enc 4 e ++ take n data) →
  ToActualMsgType H info (MessageBase.mk (bodyOf v s f d k e data) size size sender own) = Ok true.
Proof.
  intros Hfo Hho Hn Hl Hcheck Hd. rewrite bodyOf_validate by done. rewrite Hcheck. cbn [mbind res_bind negb].
  destruct (fields v s f d k e data size size sender own Hfo) as (_ & _ & _ & _ & _ & _ & E7). cbv zeta in E7.
  unfold computeDigest. rewrite E7. cbn [mbind res_bind MessageBase.msgBody_]. change prePrepareHeaderPrefix with 52. destruct Hfo, Hho. rewrite u32_small by lia.
  rewrite (digest_bytes v s f d k e data n) by (done || lia). cbn [mbind res_bind]. f_equal. by apply bool_decide_eq_true_2.
Qed.

(** ** A batch of requests *)
#[local] Abbreviation Request := ClientRequestMsg.Request.
#[local] Abbreviation request_ok := ClientRequestMsg.request_ok.
#[local] Abbreviation layout := ClientRequestMsg.layout.

Definition batch (rs : list Request) : list Z := rs ≫= layout.
#[local] Abbreviation bsize rs := (Z.of_nat (length (batch rs))).

Fixpoint offsets (i : Z) (rs : list Request) : list Z :=
  match rs with [] => [] | r :: rs' => i :: offsets (i + ClientRequestMsg.reqSize r) rs' end.

Lemma batch_cons r rs : batch (r :: rs) = layout r ++ batch rs.
Proof. done. Qed.
Lemma batch_app rs rs' : batch (rs ++ rs') = batch rs ++ batch rs'.
Proof. apply bind_app. Qed.
Lemma bsize_cons r rs : bsize (r :: rs) = ClientRequestMsg.reqSize r + bsize rs.
Proof. rewrite batch_cons, length_app, Nat2Z.inj_add. by rewrite ClientRequestMsg.length_request. Qed.
Lemma reqSize_pos r : 17 <= ClientRequestMsg.reqSize r.
Proof. unfold ClientRequestMsg.reqSize, ClientRequestMsg.sizeof_ClientRequestMsgHeader. lia. Qed.
Lemma length_offsets i rs : length (offsets i rs) = length rs.
Proof. revert i. induction rs; intros; cbn; auto. Qed.
Lemma bsize_length rs : 17 * Z.of_nat (length rs) <= bsize rs.
Proof. induction rs as [|r rs IH]; [done|]. rewrite bsize_cons, length_cons. pose proof (reqSize_pos r). lia. Qed.

(** Reading the requests of a batch that lies in a buffer. *)
Lemma read_at pre r post off : request_ok r → off = Z.of_nat (length pre) → readRequest (pre ++ layout r ++ post) off = Ok r.
Proof.
  intros Hr Ho. destruct (ClientRequestMsg.fields_at pre r post off Hr Ho) as (E1 & E2 & E3 & E4 & _). cbv zeta in *.
  unfold readRequest. rewrite E1, E2, E3, E4. cbn [mbind res_bind].
  rewrite (get_bytes_skip off) by (unfold ClientRequestMsg.sizeof_ClientRequestMsgHeader; lia). replace (off + _ - off) with 17 by (unfold ClientRequestMsg.sizeof_ClientRequestMsgHeader; lia).
  unfold layout. rewrite <- !(assoc_L (++)). rewrite (get_bytes_skip_to _ _ _ _ (Ok (ClientRequestMsg.r_data r))); [|done|solve_get]. cbn [mbind res_bind].
  destruct r as [c [] q data]; done.
Qed.

Lemma batch_read pre rs post i : Forall request_ok rs → i = Z.of_nat (length pre) → readAll (pre ++ batch rs ++ post) (offsets i rs) = Ok rs.
Proof.
  revert pre i. induction rs as [|r rs IH]; intros pre i Hok Hi; [done|]. apply Forall_cons in Hok as [Hr Hok]. cbn [offsets readAll]. rewrite batch_cons, <- (assoc_L (++)).
  rewrite read_at by done. cbn [mbind res_bind]. rewrite (assoc_L (++)). rewrite (IH (pre ++ layout r)); [done|done|]. rewrite length_app, Nat2Z.inj_add, ClientRequestMsg.length_request. lia.
Qed.

Lemma batch_walk pre rs post i e : Forall request_ok rs → i = Z.of_nat (length pre) → e = i + bsize rs → e < 2 ^ 32 → walk (pre ++ batch rs ++ post) e i (offsets i rs).
Proof.
  revert pre i. induction rs as [|r rs IH]; intros pre i Hok Hi He Hlt; cbn [offsets walk]; [cbn in He; lia|]. apply Forall_cons in Hok as [Hr Hok].
  rewrite bsize_cons in He. pose proof (reqSize_pos r). rewrite batch_cons, <- (assoc_L (++)).
  destruct (ClientRequestMsg.fields_at pre r (batch rs ++ post) i Hr Hi) as (_ & _ & _ & _ & E). cbv zeta in E. split_and!; [done|lia|].
  exists (ClientRequestMsg.reqSize r). split; [done|]. rewrite u32_small by lia. rewrite (assoc_L (++)). apply IH; [done| |lia|done].
  rewrite length_app, Nat2Z.inj_add, ClientRequestMsg.length_request. lia.
Qed.

Lemma walk_checkFrom bd e i off offs : walk bd e i (off :: offs) → checkFrom bd e (length (off :: offs)) i = Ok true.
Proof.
  revert i off. induction offs as [|y offs IH]; intros i off (-> & Hlt & sz & Hsz & Hw); cbn [length checkFrom]; rewrite Hsz; cbn [mbind res_bind].
  - cbn in Hw. by rewrite (proj2 (Z.eqb_eq _ _) Hw).
  - pose proof Hw as (_ & Hlt' & _). rewrite (proj2 (Z.leb_gt e _)) by lia. exact (IH _ _ Hw).
Qed.

Lemma offsets_cons i rs : rs ≠ [] → ∃ off offs, offsets i rs = off :: offs.
Proof. destruct rs; [done|]. cbn. eauto. Qed.

Lemma batch_check pre rs post i e k : Forall request_ok rs → rs ≠ [] → i = Z.of_nat (length pre) → e = i + bsize rs → e < 2 ^ 32 → k = Z.of_nat (length rs) →
  checkFrom (pre ++ batch rs ++ post) e (Z.to_nat k) i = Ok true.
Proof.
  intros Hok Hne Hi He Hlt ->. pose proof (batch_walk pre rs post i e Hok Hi He Hlt) as Hw. rewrite Nat2Z.id, <- (length_offsets i rs).
  destruct (offsets_cons i rs Hne) as (off & offs & E). rewrite E in Hw |- *. by apply walk_checkFrom.
Qed.

(** *** Building *)
Definition flagsOf (path : CommitPath) (ready : bool) : Z := 4 * num_of_path path + (if ready then 2 else 0) + 1.

(** The message after some requests were added. *)
Definition partial (sender v s : Z) (path : CommitPath) (rs : list Request) : MessageBase.t :=
  MessageBase.mk (bodyOf v s (flagsOf path false) zeroDigest (Z.of_nat (length rs)) (58 + bsize rs)
    (batch rs ++ replicate (Z.to_nat (maxExternalMessageSize - 58 - bsize rs)) 0)) maxExternalMessageSize maxExternalMessageSize sender true.

Lemma ctor_partial sender v s path : path ≠ CP_NA → ctor sender v s path false = Ok (partial sender v s path []).
Proof.
  intros Hp. unfold ctor, partial. cbn [batch mbind list_bind length app]. rewrite Z.sub_0_r. change (58 + Z.of_nat 0) with 58.
  assert (HN : Z.to_nat maxExternalMessageSize = (2 + (8 + (8 + (2 + (32 + (2 + (4 + Z.to_nat (maxExternalMessageSize - 58))))))))%nat) by (unfold maxExternalMessageSize; lia).
  revert HN. generalize (Z.to_nat (maxExternalMessageSize - 58)). intros N HN. unfold MessageBase.ctor, put_int.
  change (0 <? maxExternalMessageSize) with true. rewrite HN. cbn [Assert mbind res_bind].
  assert (computeFlagsForPrePrepareMsg false false path = Ok (flagsOf path false)) as -> by (by destruct path).
  rewrite !replicate_add. rewrite (put_bytes_head (replicate 2 0)) by done. res_step. cbn [MessageBase.msgBody_].
  put_skip 2. rewrite (put_bytes_head (replicate 8 0)) by len_tac. res_step.
  put_skip 2. put_skip 8. rewrite (put_bytes_head (replicate 8 0)) by len_tac. res_step.
  put_skip 2. put_skip 8. put_skip 8. rewrite (put_bytes_head (replicate 2 0)) by len_tac. res_step.
  put_skip 2. put_skip 8. put_skip 8. put_skip 2. rewrite (put_bytes_head (replicate 32 0)) by done. res_step.
  put_skip 2. put_skip 8. put_skip 8. put_skip 2. rewrite (put_bytes_skip 32) by done. norm_sub 32. rewrite (put_bytes_head (replicate 2 0)) by len_tac. res_step.
  put_skip 2. put_skip 8. put_skip 8. put_skip 2. rewrite (put_bytes_skip 32) by done. norm_sub 32. put_skip 2. rewrite (put_bytes_head (replicate 4 0)) by len_tac. res_step.
  done.
Qed.

(** Writing one field. *)
Lemma put_fields v s f d k e data : length d = 32%nat →
  (∀ f', put_int 2 (bodyOf v s f d k e data) 18 f' = Ok (bodyOf v s f' d k e data)) ∧
  (∀ d', length d' = 32%nat → put_bytes (bodyOf v s f d k e data) 20 d' = Ok (bodyOf v s f d' k e data)) ∧
  (∀ k', put_int 2 (bodyOf v s f d k e data) 52 k' = Ok (bodyOf v s f d k' e data)) ∧
  (∀ e', put_int 4 (bodyOf v s f d k e data) 54 e' = Ok (bodyOf v s f d k e' data)).
Proof. intros Hd. unfold put_int, bodyOf. split_and!; intros; apply put_bytes_skip_to; [len_tac|solve_put|len_tac|solve_put|len_tac|solve_put|len_tac|solve_put]. Qed.

Lemma put_data v s f d k e data old new rest off : length d = 32%nat → off = 58 + Z.of_nat (length data) → length old = length new →
  put_bytes (bodyOf v s f d k e (data ++ old ++ rest)) off new = Ok (bodyOf v s f d k e (data ++ new ++ rest)).
Proof.
  intros Hd Ho Hl. unfold bodyOf. pose proof (put_bytes_mid (bodyOf v s f d k e data) old new rest off) as E. unfold bodyOf in E. rewrite <- !(assoc_L (++)) in E. apply E; [|done].
  rewrite Ho. symmetry. exact (length_bodyOf v s f d k e data Hd).
Qed.

Lemma partial_fields sender v s path rs (m := partial sender v s path rs) : path ≠ CP_NA → - 2 ^ 63 <= v < 2 ^ 63 → - 2 ^ 63 <= s < 2 ^ 63 →
  58 + bsize rs <= maxExternalMessageSize →
  isNull m = Ok false ∧ isReady m = Ok false ∧ flags m = Ok (flagsOf path false) ∧ digestOfRequests m = Ok zeroDigest ∧
  numberOfRequests m = Ok (Z.of_nat (length rs)) ∧ endLocationOfLastRequest m = Ok (58 + bsize rs).
Proof.
  intros Hp Hv Hs Hb. unfold maxExternalMessageSize in Hb. pose proof (bsize_length rs).
  destruct (fields v s (flagsOf path false) zeroDigest (Z.of_nat (length rs)) (58 + bsize rs) (batch rs ++ replicate (Z.to_nat (maxExternalMessageSize - 58 - bsize rs)) 0)
    maxExternalMessageSize maxExternalMessageSize sender true) as (_ & _ & _ & E4 & E5 & E6 & E7).
  { constructor; try lia; [|done]. destruct path; unfold flagsOf, num_of_path; (lia || done). }
  cbv zeta in *. unfold m. split_and!; try done; [unfold isNull|unfold isReady]; change (flags (partial sender v s path rs)) with (Ok (A := Z) (flagsOf path false)) || (unfold partial; rewrite E4); by destruct path.
Qed.

Lemma addRequest_partial sender v s path rs r : path ≠ CP_NA → - 2 ^ 63 <= v < 2 ^ 63 → - 2 ^ 63 <= s < 2 ^ 63 → request_ok r →
  58 + bsize rs + ClientRequestMsg.reqSize r <= maxExternalMessageSize →
  addRequest (partial sender v s path rs) (layout r) (ClientRequestMsg.reqSize r) = Ok (partial sender v s path (rs ++ [r])).
Proof.
  intros Hp Hv Hs Hr Hb. pose proof (reqSize_pos r). destruct (partial_fields sender v s path rs Hp Hv Hs ltac:(lia)) as (P1 & P2 & P3 & P4 & P5 & P6).
  destruct (ClientRequestMsg.fields_at [] r [] 0 Hr eq_refl) as (_ & _ & _ & _ & E). cbv zeta in E. cbn [app] in E. rewrite app_nil_r in E.
  unfold addRequest. rewrite E. cbn [mbind res_bind]. rewrite Z.eqb_refl, P1. cbn [Assert mbind res_bind negb]. rewrite P2. cbn [mbind res_bind negb Assert].
  unfold remainingSizeForRequests. rewrite P2, P1, P6. cbn [mbind res_bind negb Assert]. unfold sizeof_PrePrepareMsgHeader. rewrite (proj2 (Z.leb_le 58 _)) by lia. cbn [Assert mbind res_bind].
  change (MessageBase.storageSize_ (partial sender v s path rs)) with maxExternalMessageSize. unfold maxExternalMessageSize in *. rewrite (u32_small (64 * 1000 - _)), (proj2 (Z.leb_le (ClientRequestMsg.reqSize r) _)) by lia. cbn [Assert mbind res_bind].
  rewrite get_bytes_all by (by rewrite ClientRequestMsg.length_request). cbn [mbind res_bind]. change (body (partial sender v s path rs)) with (bodyOf v s (flagsOf path false) zeroDigest (Z.of_nat (length rs)) (58 + bsize rs)
    (batch rs ++ replicate (Z.to_nat (64 * 1000 - 58 - bsize rs)) 0)).
  set (z := 64 * 1000 - 58 - bsize rs). assert (Hz : Z.to_nat z = (length (layout r) + Z.to_nat (z - ClientRequestMsg.reqSize r))%nat) by (pose proof (ClientRequestMsg.length_request r); lia).
  rewrite Hz, replicate_add. rewrite put_data by (done || by rewrite length_replicate). cbn [mbind res_bind].
  rewrite (proj2 (proj2 (proj2 (put_fields _ _ _ zeroDigest _ _ _ eq_refl)))). cbn [mbind res_bind]. pose proof (bsize_length rs). rewrite (u32_small (_ + _)) by lia.
  match goal with |- context [numberOfRequests ?x] => set (m2 := x) end.
  assert (numberOfRequests m2 = Ok (Z.of_nat (length rs))) as ->.
  { apply (fields v s (flagsOf path false) zeroDigest (Z.of_nat (length rs)) (58 + bsize rs + ClientRequestMsg.reqSize r)).
    constructor; try lia; [|done]. destruct path; unfold flagsOf, num_of_path; (lia || done). }
  cbn [mbind res_bind]. rewrite (proj1 (proj2 (proj2 (put_fields _ _ _ zeroDigest _ _ _ eq_refl)))). cbn [mbind res_bind]. rewrite u16_small by lia.
  unfold partial, with_body. f_equal. rewrite batch_app, length_app, !length_app. replace (batch [r]) with (layout r) by (unfold batch; cbn; by rewrite app_nil_r).
  rewrite <- (assoc_L (++)). cbn [length MessageBase.msgSize_ MessageBase.storageSize_ MessageBase.sender_ MessageBase.owner_]. f_equal.
  pose proof (ClientRequestMsg.length_request r). unfold maxExternalMessageSize, z. f_equal; [lia|lia|]. do 2 f_equal. f_equal. lia.
Qed.

(** The bytes that are hashed, and the finished message. *)
Lemma remaining_partial sender v s path rs : path ≠ CP_NA → - 2 ^ 63 <= v < 2 ^ 63 → - 2 ^ 63 <= s < 2 ^ 63 → 58 + bsize rs <= maxExternalMessageSize →
  remainingSizeForRequests (partial sender v s path rs) = Ok (maxExternalMessageSize - 58 - bsize rs).
Proof.
  intros Hp Hv Hs Hb. pose proof (bsize_length rs). destruct (partial_fields sender v s path rs Hp Hv Hs Hb) as (P1 & P2 & _ & _ & _ & P6).
  unfold remainingSizeForRequests. rewrite P2, P1, P6. cbn [mbind res_bind negb Assert]. unfold sizeof_PrePrepareMsgHeader. rewrite (proj2 (Z.leb_le 58 _)) by lia.
  cbn [Assert mbind res_bind]. change (MessageBase.storageSize_ (partial sender v s path rs)) with maxExternalMessageSize. unfold maxExternalMessageSize in *. rewrite u32_small by lia. f_equal. lia.
Qed.

Definition hashed (rs : list Request) : list Z := le_enc 2 (Z.of_nat (length rs)) ++ le_enc 4 (58 + bsize rs) ++ batch rs.

Definition finished (H : list Z → Digest) (sender v s : Z) (path : CommitPath) (rs : list Request) : MessageBase.t :=
  MessageBase.mk (bodyOf v s (flagsOf path true) (H (hashed rs)) (Z.of_nat (length rs)) (58 + bsize rs) (batch rs)) (58 + bsize rs) (58 + bsize rs) sender true.

Lemma bodyOf_split v s f d k e data : ∃ pre, ∀ post, bodyOf v s f d k e (data ++ post) = pre ++ data ++ post ∧ (length d = 32%nat → Z.of_nat (length pre) = 58).
Proof.
  eexists. intros post. split; [unfold bodyOf; rewrite !(assoc_L (++)); reflexivity|]. intros Hd. rewrite !length_app, !length_le_enc, Hd. lia.
Qed.

Lemma finish_partial H sender v s path rs : (∀ x, length (H x) = 32%nat) → path ≠ CP_NA → - 2 ^ 63 <= v < 2 ^ 63 → - 2 ^ 63 <= s < 2 ^ 63 →
  Forall request_ok rs → rs ≠ [] → 58 + bsize rs <= maxExternalMessageSize →
  finishAddingRequests H (partial sender v s path rs) = Ok (finished H sender v s path rs).
Proof.
  intros Hlen Hp Hv Hs Hok Hne Hb. assert (Hpos : 0 < Z.of_nat (length rs)) by (destruct rs; [done|cbn; lia]).
  destruct (partial_fields sender v s path rs Hp Hv Hs Hb) as (P1 & P2 & P3 & P4 & P5 & P6). pose proof (bsize_length rs). unfold maxExternalMessageSize in Hb.
  set (zs := replicate (Z.to_nat (maxExternalMessageSize - 58 - bsize rs)) 0). assert (Hzs : length zs = Z.to_nat (maxExternalMessageSize - 58 - bsize rs)) by apply length_replicate.
  assert (Hc : checkRequests (partial sender v s path rs) = Ok true).
  { unfold checkRequests. rewrite P5, P6. cbn [mbind res_bind]. unfold sizeof_PrePrepareMsgHeader. rewrite (proj2 (Z.eqb_neq _ 0)), (proj2 (Z.leb_gt _ 58)) by lia.
    change (body (partial sender v s path rs)) with (bodyOf v s (flagsOf path false) zeroDigest (Z.of_nat (length rs)) (58 + bsize rs) (batch rs ++ zs)). clearbody zs.
    destruct (bodyOf_split v s (flagsOf path false) zeroDigest (Z.of_nat (length rs)) (58 + bsize rs) (batch rs)) as (pre & Hpre).
    destruct (Hpre zs) as [-> Hl]. apply (batch_check pre rs zs); [done|done|by rewrite Hl|done|lia|done]. }
  unfold finishAddingRequests. rewrite P1, P2. cbn [mbind res_bind negb Assert]. rewrite P5. cbn [mbind res_bind]. rewrite (proj2 (Z.ltb_lt 0 _) Hpos). cbn [Assert mbind res_bind].
  rewrite P6. cbn [mbind res_bind]. unfold sizeof_PrePrepareMsgHeader. rewrite (proj2 (Z.ltb_lt 58 _)) by lia. cbn [Assert mbind res_bind]. rewrite P4. cbn [mbind res_bind].
  rewrite bool_decide_eq_true_2 by done. cbn [Assert mbind res_bind]. rewrite Hc. cbn [mbind res_bind Assert]. rewrite P3. cbn [mbind res_bind].
  change (body (partial sender v s path rs)) with (bodyOf v s (flagsOf path false) zeroDigest (Z.of_nat (length rs)) (58 + bsize rs) (batch rs ++ zs)).
  rewrite (proj1 (put_fields _ _ _ zeroDigest _ _ _ eq_refl)). cbn [mbind res_bind]. replace (Z.lor (flagsOf path false) 2) with (flagsOf path true) by (by destruct path).
  set (m1 := with_body _ _). assert (Hfo : fields_ok v s (flagsOf path true) (Z.of_nat (length rs)) (58 + bsize rs) zeroDigest).
  { constructor; try lia; [|done]. destruct path; unfold flagsOf, num_of_path; (lia || done). }
  destruct (fields v s (flagsOf path true) zeroDigest (Z.of_nat (length rs)) (58 + bsize rs) (batch rs ++ zs) maxExternalMessageSize maxExternalMessageSize sender true Hfo) as (_ & _ & _ & E4 & _ & _ & E7).
  cbv zeta in *. change (MessageBase.mk _ _ _ _ _) with m1 in E4, E7. unfold isReady. rewrite E4. cbn [fmap res_fmap mbind res_bind]. assert (isReady_flags (flagsOf path true) = true) as -> by (by destruct path). cbn [Assert mbind res_bind].
  unfold computeDigest. rewrite E7. cbn [mbind res_bind]. change prePrepareHeaderPrefix with 52. rewrite u32_small by lia.
  change (body m1) with (bodyOf v s (flagsOf path true) zeroDigest (Z.of_nat (length rs)) (58 + bsize rs) (batch rs ++ zs)).
  rewrite (digest_bytes _ _ _ _ _ _ _ (length (batch rs))) by (done || lia || rewrite length_app; lia). rewrite take_app_length. cbn [mbind res_bind]. fold (hashed rs).
  rewrite (proj1 (proj2 (put_fields _ _ _ zeroDigest _ _ _ eq_refl))) by done. cbn [mbind res_bind]. unfold MessageBase.setMsgSize, with_body.
  cbn [MessageBase.storageSize_ m1 with_body partial MessageBase.msgBody_ MessageBase.sender_ MessageBase.owner_]. unfold maxExternalMessageSize in Hzs |- *. rewrite (proj2 (Z.leb_le _ (64 * 1000))) by lia. cbn [Assert mbind res_bind].
  pose proof (length_bodyOf v s (flagsOf path true) (H (hashed rs)) (Z.of_nat (length rs)) (58 + bsize rs) (batch rs) (Hlen _)) as Hlb.
  assert (Hput : (if 58 + bsize rs <? 64 * 1000 then put_bytes (bodyOf v s (flagsOf path true) (H (hashed rs)) (Z.of_nat (length rs)) (58 + bsize rs) (batch rs ++ zs)) (58 + bsize rs)
      (replicate (Z.to_nat (64 * 1000 - (58 + bsize rs))) 0) else Ok (bodyOf v s (flagsOf path true) (H (hashed rs)) (Z.of_nat (length rs)) (58 + bsize rs) (batch rs ++ zs))) =
      Ok (bodyOf v s (flagsOf path true) (H (hashed rs)) (Z.of_nat (length rs)) (58 + bsize rs) (batch rs ++ zs))).
  { destruct (_ <? _) eqn:E; [|done]. rewrite <- (app_nil_r zs). unfold zs, maxExternalMessageSize. rewrite put_data; [|apply Hlen|done|by rewrite !length_replicate; lia]. do 4 f_equal. f_equal. lia. }
  rewrite Hput. cbn [mbind res_bind]. unfold MessageBase.shrinkToFit. cbn [MessageBase.owner_ Assert mbind res_bind MessageBase.msgSize_ MessageBase.msgBody_ MessageBase.sender_].
  unfold finished. do 2 f_equal. unfold bodyOf in *. rewrite !(assoc_L (++)) in *. rewrite take_app_length'; [done|]. lia.
Qed.

(** The calls of a primary that sends a batch. *)
Definition build (H : list Z → Digest) (sender v s : Z) (path : CommitPath) (rs : list Request) : res MessageBase.t :=
  m ← ctor sender v s path false;
  m ← foldM (fun m r => addRequest m (layout r) (ClientRequestMsg.reqSize r)) m rs;
  finishAddingRequests H m.

Lemma add_all sender v s path rs : path ≠ CP_NA → - 2 ^ 63 <= v < 2 ^ 63 → - 2 ^ 63 <= s < 2 ^ 63 → ∀ done_, Forall request_ok rs →
  58 + bsize (done_ ++ rs) <= maxExternalMessageSize →
  foldM (fun m r => addRequest m (layout r) (ClientRequestMsg.reqSize r)) (partial sender v s path done_) rs = Ok (partial sender v s path (done_ ++ rs)).
Proof.
  intros Hp Hv Hs. induction rs as [|r rs IH]; intros dn Hok Hb; [by rewrite app_nil_r|]. apply Forall_cons in Hok as [Hr Hok].
  assert (bsize (dn ++ r :: rs) = bsize dn + ClientRequestMsg.reqSize r + bsize rs) as E by (rewrite batch_app, length_app, Nat2Z.inj_add, bsize_cons; lia).
  cbn [foldM]. rewrite addRequest_partial by (done || lia). cbn [mbind res_bind]. rewrite (IH (dn ++ [r])); [by rewrite <- (assoc_L (++))|done|]. by rewrite <- (assoc_L (++)).
Qed.

Lemma finished_reads H sender v s path rs (m := finished H sender v s path rs) : (∀ x, length (H x) = 32%nat) → path ≠ CP_NA → - 2 ^ 63 <= v < 2 ^ 63 → - 2 ^ 63 <= s < 2 ^ 63 →
  Forall request_ok rs → rs ≠ [] → 58 + bsize rs <= maxExternalMessageSize →
  viewNumber m = Ok v ∧ seqNumber m = Ok s ∧ firstPath m = Ok path ∧ digestOfRequests m = Ok (H (hashed rs)) ∧ readRequests m = Ok rs ∧
  checkFrom (body m) (58 + bsize rs) (Z.to_nat (Z.of_nat (length rs))) 58 = Ok true ∧ fields_ok v s (flagsOf path true) (Z.of_nat (length rs)) (58 + bsize rs) (H (hashed rs)).
Proof.
  intros Hlen Hp Hv Hs Hok Hne Hb. unfold maxExternalMessageSize in Hb. pose proof (bsize_length rs).
  assert (Hfo : fields_ok v s (flagsOf path true) (Z.of_nat (length rs)) (58 + bsize rs) (H (hashed rs))).
  { constructor; try lia; [|apply Hlen]. destruct path; unfold flagsOf, num_of_path; (lia || done). }
  destruct (fields v s (flagsOf path true) (H (hashed rs)) (Z.of_nat (length rs)) (58 + bsize rs) (batch rs) (58 + bsize rs) (58 + bsize rs) sender true Hfo) as (_ & E2 & E3 & E4 & E5 & E6 & E7).
  cbv zeta in *. change (MessageBase.mk _ _ _ _ _) with m in E2, E3, E4, E5, E6, E7.
  destruct (bodyOf_split v s (flagsOf path true) (H (hashed rs)) (Z.of_nat (length rs)) (58 + bsize rs) (batch rs)) as (pre & Hpre). destruct (Hpre []) as [Hbody Hl]. rewrite !app_nil_r in Hbody.
  specialize (Hl (Hlen _)). assert (Hbm : body m = pre ++ batch rs ++ []) by (rewrite app_nil_r; exact Hbody). split_and!; try done.
  - unfold firstPath. rewrite E4. cbn [mbind res_bind]. by destruct path.
  - unfold readRequests, requests. rewrite E6. cbn [mbind res_bind]. unfold iter_ctor, isReady. rewrite E4. cbn [fmap res_fmap mbind res_bind].
    assert (isReady_flags (flagsOf path true) = true) as -> by (by destruct path). cbn [Assert mbind res_bind]. rewrite Nat2Z.id, <- (length_offsets 58 rs).
    rewrite (walk_iterate m (58 + bsize rs)); [|done|rewrite Hbm; apply batch_walk; (done || lia)]. cbn [mbind res_bind]. rewrite Hbm. by apply batch_read.
  - rewrite Hbm. apply batch_check; (done || lia).
Qed.

Lemma finished_number H sender v s path rs : (∀ x, length (H x) = 32%nat) → path ≠ CP_NA → - 2 ^ 63 <= v < 2 ^ 63 → - 2 ^ 63 <= s < 2 ^ 63 →
  Forall request_ok rs → rs ≠ [] → 58 + bsize rs <= maxExternalMessageSize →
  viewNumber (finished H sender v s path rs) = Ok v ∧ seqNumber (finished H sender v s path rs) = Ok s ∧ numberOfRequests (finished H sender v s path rs) = Ok (Z.of_nat (length rs)).
Proof.
  intros Hlen Hp Hv Hs Hok Hne Hb. destruct (finished_reads H sender v s path rs Hlen Hp Hv Hs Hok Hne Hb) as (Ev & Es & _ & _ & _ & _ & Hfo). split_and!; [done|done|].
  destruct (fields v s (flagsOf path true) (H (hashed rs)) (Z.of_nat (length rs)) (58 + bsize rs) (batch rs) (58 + bsize rs) (58 + bsize rs) sender true Hfo) as (_ & _ & _ & _ & _ & E6 & _). exact E6.
Qed.

(** ** Properties *)

(** C19: The message that a primary builds from requests that fit has the view, number, path and requests it was built with: every
    replica accepts it and its iterator returns exactly the requests, in order. *)
Theorem prePrepare_build_iterate H sender v s path rs info : (∀ x, length (H x) = 32%nat) → path ≠ CP_NA → - 2 ^ 63 <= v < 2 ^ 63 → 0 < s < 2 ^ 63 →
  Forall request_ok rs → rs ≠ [] → 58 + bsize rs <= maxExternalMessageSize →
  sender ≠ ReplicasInfo._myId info → ReplicasInfo.isIdOfReplica info sender = true → (path = FAST_WITH_THRESHOLD → ReplicasInfo._cVal info ≠ 0) →
  ∃ m, build H sender v s path rs = Ok m ∧ ToActualMsgType H info m = Ok true ∧
    viewNumber m = Ok v ∧ seqNumber m = Ok s ∧ firstPath m = Ok path ∧ digestOfRequests m = Ok (H (hashed rs)) ∧ readRequests m = Ok rs.
Proof.
  intros Hlen Hp Hv Hs Hok Hne Hb Hsend Hrep Hc. exists (finished H sender v s path rs).
  destruct (finished_reads H sender v s path rs Hlen Hp Hv ltac:(lia) Hok Hne Hb) as (F1 & F2 & F3 & F4 & F5 & F6 & F7).
  split; [|split; [|split_and!; assumption]].
  - unfold build. rewrite ctor_partial by done. cbn [mbind res_bind]. rewrite add_all by (done || lia). cbn [mbind res_bind app]. apply finish_partial; (done || lia).
  - pose proof (bsize_length rs). assert (0 < Z.of_nat (length rs)) by (destruct rs; [done|cbn; lia]).
    apply (bodyOf_accepted H info _ _ _ _ _ _ _ (length (batch rs))); [done| |lia|lia|exact F6|by rewrite take_ge by lia].
    constructor; [lia|lia|lia|done| |]; destruct path; done || (by split_and!) || (intros ?; by apply Hc).
Qed.

(** C20: Whatever the bytes of a message are, when it is accepted the iterator returns exactly as many requests as the header says and
    no assertion of it fails; and a request whose length fits an int32 lies between the header and the end that the
    digest covers. *)
Theorem accepted_requests H info m : Forall is_byte (body m) → MessageBase.msgSize_ m < 2 ^ 31 → ToActualMsgType H info m = Ok true →
  ∃ offs n e, requests m = Ok offs ∧ numberOfRequests m = Ok n ∧ Z.of_nat (length offs) = n ∧ endLocationOfLastRequest m = Ok e ∧ e <= MessageBase.msgSize_ m ∧
    ∀ off l, off ∈ offs → requestLength (body m) off = Ok l → l < 2 ^ 31 - 17 → 0 <= off ∧ off + 17 + l <= e.
Proof.
  intros Hb Hm Ht. destruct (accepted H info m Hb Ht) as (n & e & [[Hn Hn0] [He He0] Hs Hr Hc _]). destruct (checkFrom_walk _ _ _ _ Hc He0) as (offs & Hl & Hw).
  exists offs, n, e. split_and!; [|done|lia|done|done|].
  - unfold requests. rewrite Hn. cbn [mbind res_bind]. unfold iter_ctor. rewrite Hr. cbn [mbind res_bind Assert]. rewrite <- Hl. by apply (walk_iterate m e).
  - intros off l Hin Hlen Hlt. eapply (walk_bounds (body m) e sizeof_PrePrepareMsgHeader offs); try done; [lia|]. split; [|done]. by apply (get_uint_range 4 _ _ _ Hb Hlen).
Qed.

(** C21: With a collision-free hash, two accepted messages with the same digest hold the same requests in the same order, when the lengths of
    the requests of one of them fit an int32. *)
Theorem equal_digests_equal_requests H info1 info2 m1 m2 d offs : (∀ x y, H x = H y → x = y) →
  Forall is_byte (body m1) → Forall is_byte (body m2) → MessageBase.msgSize_ m1 < 2 ^ 31 → MessageBase.msgSize_ m2 < 2 ^ 31 →
  ToActualMsgType H info1 m1 = Ok true → ToActualMsgType H info2 m2 = Ok true → digestOfRequests m1 = Ok d → digestOfRequests m2 = Ok d →
  requests m1 = Ok offs → (∀ off, off ∈ offs → ∃ l, requestLength (body m1) off = Ok l ∧ l < 2 ^ 31 - 17) →
  requests m2 = Ok offs ∧ readRequests m1 = readRequests m2.
Proof.
  intros Hinj Hb1 Hb2 Hm1 Hm2 Ht1 Ht2 Hd1 Hd2 Hoffs Hlen.
  destruct (accepted H info1 m1 Hb1 Ht1) as (n1 & e1 & [[Hn1 Hn01] [He1 He01] Hs1 Hr1 Hc1 (d1 & Hcd1 & Hdd1)]).
  destruct (accepted H info2 m2 Hb2 Ht2) as (n2 & e2 & [[Hn2 Hn02] [He2 He02] Hs2 Hr2 Hc2 (d2 & Hcd2 & Hdd2)]).
  destruct (checkFrom_walk _ _ _ _ Hc1 He01) as (offs1 & Hl1 & Hw1).
  assert (offs1 = offs) as ->.
  { unfold requests in Hoffs. rewrite Hn1 in Hoffs. cbn [mbind res_bind] in Hoffs. unfold iter_ctor in Hoffs. rewrite Hr1 in Hoffs. cbn [mbind res_bind Assert] in Hoffs.
    rewrite <- Hl1, (walk_iterate m1 e1 _ _ He1 Hw1) in Hoffs. by injection Hoffs. }
  unfold computeDigest in Hcd1, Hcd2. rewrite He1 in Hcd1. rewrite He2 in Hcd2. cbn [mbind res_bind] in Hcd1, Hcd2. unfold sizeof_PrePrepareMsgHeader in *.
  change prePrepareHeaderPrefix with 52 in *. rewrite u32_small in Hcd1, Hcd2 by lia.
  apply bind_ok in Hcd1 as (bs1 & Hbs1 & [= Hh1]). apply bind_ok in Hcd2 as (bs2 & Hbs2 & [= Hh2]).
  assert (bs1 = bs2) as -> by (apply Hinj; congruence). pose proof (get_bytes_length _ _ _ _ Hbs1) as HL1. pose proof (get_bytes_length _ _ _ _ Hbs2) as HL2.
  assert (e1 = e2) as -> by lia. pose proof (agree_from _ _ _ _ _ Hbs1 Hbs2) as Ha. replace (52 + (e2 - 52)) with e2 in Ha by lia.
  assert (n1 = n2) as ->.
  { unfold numberOfRequests, get_uint in Hn1, Hn2. change (Z.of_nat 2) with 2 in *. rewrite (Ha 52 2) in Hn1 by lia. rewrite Hn2 in Hn1. by injection Hn1. }
  destruct (agree_walk (body m1) (body m2) 52 e2 offs 58 Ha ltac:(lia)) as [Hw2 Hread]; [|done|].
  - assert (Hall : ∀ off, off ∈ offs → ∃ l, requestLength (body m1) off = Ok l ∧ 0 <= l < 2 ^ 31 - 17).
    { intros off Hin. destruct (Hlen off Hin) as (l & Hl & Hlt). exists l. split; [done|]. pose proof (get_uint_range 4 _ _ _ Hb1 Hl). lia. }
    intros off Hin. destruct (Hall off Hin) as (l & Hl & Hlt). pose proof (walk_above (body m1) e2 58 offs ltac:(lia) ltac:(lia) Hw1 Hall off Hin).
    destruct (walk_bounds (body m1) e2 58 offs ltac:(lia) ltac:(lia) Hw1 off l Hin Hl Hlt) as [_ Hle].
    split; [lia|]. exists l. split_and!; [done|lia|done].
  - assert (requests m2 = Ok offs) as E2.
    { unfold requests. rewrite Hn2. cbn [mbind res_bind]. unfold iter_ctor. rewrite Hr2. cbn [mbind res_bind Assert]. rewrite <- Hl1. by apply (walk_iterate m2 e2). }
    split; [done|]. unfold readRequests. rewrite Hoffs, E2. exact Hread.
Qed.

(** A request of client [c] whose length is 2^32 - 16, so that its size is 1 when it is computed in 32 bits, in a message of 75 bytes. *)
Definition wrapped_data (c : Z) : list Z := le_enc 2 (code_of MC_Request) ++ le_enc 2 c ++ le_enc 1 0 ++ le_enc 8 1 ++ le_enc 4 (2 ^ 32 - 16).
Definition wrapped_msg (H : list Z → Digest) (sender v s c : Z) : MessageBase.t :=
  MessageBase.mk (bodyOf v s 3 (H (le_enc 2 1 ++ le_enc 4 59 ++ take 1 (wrapped_data 0))) 1 59 (wrapped_data c)) 75 75 sender true.

Lemma wrapped_fields pre c : 0 <= c < 65536 → Z.of_nat (length pre) = 58 →
  getRequestSizeTemp (pre ++ wrapped_data c) 58 = Ok 1 ∧ ClientRequestMsg.idOfClientProxy (pre ++ wrapped_data c) 58 = Ok c ∧
  requestLength (pre ++ wrapped_data c) 58 = Ok (2 ^ 32 - 16).
Proof.
  intros Hc Hp. unfold getRequestSizeTemp, ClientRequestMsg.compRequestMsgSize, ClientRequestMsg.idOfClientProxy, requestLength, get_uint, wrapped_data.
  rewrite !(get_bytes_skip 58) by lia. split_and!; [done| |done].
  rewrite (get_bytes_skip 58) by lia. change (58 + 2 - 58) with 2. rewrite (get_bytes_skip_to _ _ _ _ (Ok (le_enc 2 c))); [|done|solve_get]. cbn [fmap res_fmap]. rewrite le_dec_enc. f_equal. by apply (wrap_small 16).
Qed.

(** The digest of an accepted message does not determine its requests: the size of a request is computed in 32 bits, and with a length close
    to 2^32 the end of the requests, up to which the digest is computed, lies inside the header of a request.  A primary can send
    requests of different clients, under one digest, to different replicas; the length of the request is also far
    outside the message. *)
Theorem digest_misses_wrapped_request H info sender v s c : (∀ x, length (H x) = 32%nat) → - 2 ^ 63 <= v < 2 ^ 63 → 0 < s < 2 ^ 63 → 0 <= c < 65536 →
  sender ≠ ReplicasInfo._myId info → ReplicasInfo.isIdOfReplica info sender = true →
  let m := wrapped_msg H sender v s c in
  ToActualMsgType H info m = Ok true ∧ digestOfRequests m = Ok (H (le_enc 2 1 ++ le_enc 4 59 ++ take 1 (wrapped_data 0))) ∧
  requests m = Ok [58] ∧ ClientRequestMsg.idOfClientProxy (body m) 58 = Ok c ∧ readRequests m = Err OutOfBounds.
Proof.
  intros Hlen Hv Hs Hc Hsend Hrep m. unfold m, wrapped_msg. set (d := H _). cbn [MessageBase.msgBody_].
  assert (Hfo : fields_ok v s 3 1 59 d) by (constructor; (lia || apply Hlen)).
  assert (Hpre : ∃ pre, bodyOf v s 3 d 1 59 (wrapped_data c) = pre ++ wrapped_data c ∧ Z.of_nat (length pre) = 58).
  { eexists. split; [unfold bodyOf; rewrite !(assoc_L (++)); reflexivity|]. rewrite !length_app, !length_le_enc. destruct Hfo as [_ _ _ _ _ ->]. lia. }
  destruct Hpre as (pre & Hbody & Hpre). destruct (wrapped_fields pre c Hc Hpre) as (W1 & W2 & W3).
  destruct (fields v s 3 d 1 59 (wrapped_data c) 75 75 sender true Hfo) as (_ & _ & _ & E4 & E5 & E6 & E7). cbv zeta in *. rewrite Hbody in *. split_and!.
  - rewrite <- Hbody. apply (bodyOf_accepted H info v s 3 d 1 59 (wrapped_data c) 1); try done; try lia.
    + constructor; (done || lia).
    + unfold wrapped_data. rewrite !length_app, !length_le_enc. lia.
    + rewrite Hbody. change (Z.to_nat 1) with 1%nat. cbn [checkFrom]. rewrite W1. done.
  - done.
  - unfold requests. rewrite E6. cbn [mbind res_bind]. unfold iter_ctor, isReady. rewrite E4. cbn [mbind res_bind fmap res_fmap]. change (isReady_flags 3) with true. cbn [Assert mbind res_bind].
    apply (walk_iterate _ 59 58 [58]); [done|]. cbn [MessageBase.msgBody_]. cbn [walk]. split_and!; [done|lia|]. exists 1. split; [done|done].
  - done.
  - unfold readRequests, requests. rewrite E6. cbn [mbind res_bind]. unfold iter_ctor, isReady. rewrite E4. cbn [mbind res_bind fmap res_fmap]. change (isReady_flags 3) with true. cbn [Assert mbind res_bind].
    rewrite (walk_iterate _ 59 58 [58]); [|done|cbn [walk MessageBase.msgBody_]; split_and!; [done|lia|]; by exists 1].
    cbn [mbind res_bind readAll MessageBase.msgBody_]. unfold readRequest. rewrite W2, W3. cbn [mbind res_bind].
    assert (Hlb : Z.of_nat (length (pre ++ wrapped_data c)) = 75) by (rewrite length_app; unfold wrapped_data; rewrite !length_app, !length_le_enc; lia).
    destruct (get_bytes_in (pre ++ wrapped_data c) (58 + 4) (Z.of_nat 1)) as (b1 & B1 & _); [lia|lia|lia|]. unfold ClientRequestMsg.flags, get_uint. rewrite B1. cbn [fmap res_fmap mbind res_bind].
    destruct (get_bytes_in (pre ++ wrapped_data c) (58 + 5) (Z.of_nat 8)) as (b2 & B2 & _); [lia|lia|lia|]. unfold ClientRequestMsg.reqSeqNum, get_uint. rewrite B2. cbn [fmap res_fmap mbind res_bind].
    unfold get_bytes, in_buf. rewrite Hlb. done.
Qed.

(** Validation reads outside a message that is shorter than the header of the request it announces. *)
Theorem checkRequests_reads_outside H info sender v s d : length d = 32%nat → - 2 ^ 63 <= v < 2 ^ 63 → 0 < s < 2 ^ 63 →
  sender ≠ ReplicasInfo._myId info → ReplicasInfo.isIdOfReplica info sender = true →
  ToActualMsgType H info (MessageBase.mk (bodyOf v s 3 d 1 59 [0]) 59 59 sender true) = Err OutOfBounds.
Proof.
  intros Hd Hv Hs Hsend Hrep. set (m := MessageBase.mk _ _ _ _ _). assert (Hfo : fields_ok v s 3 1 59 d) by (constructor; (lia || done)).
  unfold m. rewrite bodyOf_validate; [|done|constructor; (done || lia)]. change (Z.to_nat 1) with 1%nat. cbn [checkFrom].
  unfold getRequestSizeTemp, ClientRequestMsg.compRequestMsgSize, requestLength, get_uint, get_bytes, in_buf.
  rewrite length_bodyOf by done. done.
Qed.

(** ** Examples *)
Definition ex_hash (l : list Z) : Digest := le_enc 32 (foldr Z.add 0 l).
Definition ex_info : ReplicasInfo.t := ReplicasInfo.mk 1 4 1 0 true false [0; 1; 2; 3] [0; 2; 3].
Definition ex_request (c : Z) : Request := ClientRequestMsg.mkRequest c false 6 [c; c].
Definition ex_batch : list Request := [ex_request 9; ex_request 8].

Lemma ex_batch_ok : Forall request_ok ex_batch.
Proof. repeat constructor; cbn; lia. Qed.

Lemma ex_digest_length x : length (ex_hash x) = 32%nat.
Proof. apply length_le_enc. Qed.

Lemma prePrepare_build_iterate_witness : ∃ m, build ex_hash 0 5 7 SLOW ex_batch = Ok m ∧ ToActualMsgType ex_hash ex_info m = Ok true ∧ readRequests m = Ok ex_batch.
Proof.
  destruct (prePrepare_build_iterate ex_hash 0 5 7 SLOW ex_batch ex_info ex_digest_length ltac:(discriminate) ltac:(lia) ltac:(lia) ex_batch_ok
    ltac:(discriminate) ltac:(by vm_compute) ltac:(discriminate) eq_refl ltac:(discriminate)) as (m & Hb & Ht & _ & _ & _ & _ & Hr).
  exists m. split; [exact Hb|split; [exact Ht|exact Hr]].
Defined.

Definition ex_msg (v : Z) (H : list Z → Digest) : MessageBase.t := finished H 0 v 7 SLOW ex_batch.

Lemma ex_bytes l : forallb (fun z => (0 <=? z) && (z <? 256)) l = true → Forall is_byte l.
Proof. induction l as [|z l IH]; cbn; [constructor|]. intros E. bool_to_prop. constructor; [unfold is_byte; lia|auto]. Qed.

Lemma accepted_requests_witness : ∃ offs, requests (ex_msg 5 ex_hash) = Ok offs ∧ length offs = 2%nat.
Proof.
  destruct (accepted_requests ex_hash ex_info (ex_msg 5 ex_hash)) as (offs & n & e & H1 & H2 & H3 & _).
  - apply ex_bytes. by vm_compute.
  - by vm_compute.
  - by vm_compute.
  - exists offs. split; [done|]. vm_compute in H2. injection H2 as <-. lia.
Defined.

(** A hash without collisions that gives a digest of 32 bytes for the example. *)
Definition ex_inj (l : list Z) : Digest := if decide (l = hashed ex_batch) then replicate 32 1 else [Z.pos (encode l)].

Lemma ex_inj_inj x y : ex_inj x = ex_inj y → x = y.
Proof. unfold ex_inj. destruct (decide _) as [->|], (decide _) as [->|]; intros [=]; [done|]. by apply (inj encode). Qed.

Lemma equal_digests_equal_requests_witness : ex_msg 5 ex_inj ≠ ex_msg 6 ex_inj ∧ readRequests (ex_msg 5 ex_inj) = readRequests (ex_msg 6 ex_inj).
Proof.
  split; [by vm_compute; intros [=]|].
  apply (equal_digests_equal_requests ex_inj ex_info ex_info (ex_msg 5 ex_inj) (ex_msg 6 ex_inj) (replicate 32 1) [58; 77] ex_inj_inj);
    [apply ex_bytes; by vm_compute|apply ex_bytes; by vm_compute|reflexivity|reflexivity|vm_compute; reflexivity|vm_compute; reflexivity|vm_compute; reflexivity
    |vm_compute; reflexivity|vm_compute; reflexivity|].
  intros off [->|[->|Hin%elem_of_nil]%elem_of_cons]%elem_of_cons; [| |done]; exists 2; by vm_compute.
Defined.

(** Replicas accept requests of clients 7 and 8 under the same digest. *)
Lemma digest_misses_wrapped_request_witness : ∃ m7 m8, ToActualMsgType ex_hash ex_info m7 = Ok true ∧ ToActualMsgType ex_hash ex_info m8 = Ok true ∧
  digestOfRequests m7 = digestOfRequests m8 ∧ ClientRequestMsg.idOfClientProxy (body m7) 58 = Ok 7 ∧ ClientRequestMsg.idOfClientProxy (body m8) 58 = Ok 8.
Proof.
  destruct (digest_misses_wrapped_request ex_hash ex_info 0 5 7 7 ex_digest_length ltac:(lia) ltac:(lia) ltac:(lia) ltac:(discriminate) eq_refl) as (A1 & A2 & _ & A4 & _).
  destruct (digest_misses_wrapped_request ex_hash ex_info 0 5 7 8 ex_digest_length ltac:(lia) ltac:(lia) ltac:(lia) ltac:(discriminate) eq_refl) as (B1 & B2 & _ & B4 & _).
  exists (wrapped_msg ex_hash 0 5 7 7), (wrapped_msg ex_hash 0 5 7 8). split_and!; [done|done|by rewrite A2, B2|done|done].
Defined.

Lemma checkRequests_reads_outside_witness :
  ToActualMsgType ex_hash ex_info (MessageBase.mk (bodyOf 5 7 3 zeroDigest 1 59 [0]) 59 59 0 true) = Err OutOfBounds.
Proof. apply (checkRequests_reads_outside ex_hash ex_info 0 5 7 zeroDigest); (done || lia). Defined.
End PrePrepareMsgProps.
