(* ===== verification/ReplicaExecution.v ===== *)
(** * Requests, execution and checkpoints of a replica
    (bftengine/src/bftengine/ReplicaImp.cpp: the handlers of ClientRequest and Checkpoint
    messages, [tryToSendPrePrepareMsg], [executeReadOnlyRequest],
    [executeRequestsInPrePrepareMsg], [executeReadWriteRequests], [sendCheckpointIfNeeded],
    [onSeqNumIsStable], [onSeqNumIsStableWithoutRefCheckpoint] and
    [onTransferringCompleteImp])

    The handlers run in a state and error monad over the members of the replica they use.
    What they call is behind interfaces: an item of [mainLog] ([LogItem], which the commit
    protocol implements), the state transfer module ([StateTransfer]), the controller
    ([Controller]); the application's [execute] is a parameter.  Messages to others and
    calls of [tryToSendReqMissingDataMsg] and of the reports about other replicas are
    collected in [outs].  The time does not change during a handler ([now]); metrics,
    logging and the statistics [dynamicUpperLimitOfRounds] are left out, and
    [supportDirectProofs] is [false] as the constructor sets it. *)
From S2P Require Import Prelude SysConsts Digest ReplicasInfo ActiveWindow MsgsCertificate MessageBase Checkpoint ReservedPages ClientReplyMsg ClientRequestMsg ClientsManager PrePrepareMsg Controller.

(** ** Interfaces *)

(** What the replica uses of [SeqNumInfo] here; [fullProof] is the signature of the full
    commit proof, [primarySends] the end of [tryToSendPrePrepareMsg] (the message is sent
    to the peers, added to the item, and the first path is started): it gives the new item
    and the messages sent. *)
Class LogItem (I Pr : Type) := {
  getPrePrepareMsg : I → option MessageBase.t;
  isCommitted__gg : I → bool;
  fullProof : I → option (list Z);
  lastUpdateTimeOfCommitMsgs : I → Z;
  primarySends : Z → Z → I → MessageBase.t → res (I * list Pr);
}.

Module ReplicaExecution.

(** What a handler does besides changing the state. *)
Inductive Out {Pr : Type} :=
  | SendToClient (clientId : Z) (m : MessageBase.t)
  | ForwardRequest (dest : Z) (m : MessageBase.t)
  | SendCheckpointToAll (m : CheckpointInfo.msg)
  | Protocol (o : Pr)
  | TryToSendReqMissingDataMsg (seqNumber : Z)
  | ReportAboutInvalidMessage
  | ReportAboutAdvancedReplica (id seqNumber : Z)
  | ReportAboutLateReplica (id seqNumber : Z).
Arguments Out : clear implicits.

(** [uint8_t] of the hexadecimal digit. *)
Definition hexDigit (n : Z) : Z := if n <? 10 then 48 + n else 87 + n.

(** The bytes of the result; [NULL] for an empty signature. *)
Definition atoh (bin : list Z) : list Z := bin ≫= fun b => [hexDigit (Z.land (Z.shiftr b 4) 15); hexDigit (Z.land b 15)].

Section defs.
Context (info : ReplicasInfo.t) (Hinfo : ReplicasInfo.wf info).
Context (H : list Z → Digest) (maxConcurrentAgreementsByPrimary : Z).
Context {I Pr S A Ct : Type} {IF : ItemFuncs I} {LI : LogItem I Pr} {RP : ReservedPages S} {ST : StateTransfer A S} {CO : Controller Ct}.
(** [RequestsHandler::execute]: the state of the application, the arguments and the content
    of the reply buffer and of [outActualReplySize] give the new state, the error code, the
    buffer and the size. *)
Context (execute : A → Z → Z → bool → list Z → Z → list Z → Z → A * Z * list Z * Z).

Record t := mk {
  curView : Z;
  viewActive : bool;
  lastStableSeqNum : Z;
  lastExecutedSeqNum : Z;
  strictLowerBoundOfSeqNums : Z;
  primaryLastUsedSeqNum : Z;
  maxSeqNumTransferredFromPrevViews : Z;
  lastViewThatTransferredSeqNumbersFullyExecuted : Z;
  timeOfLastStateSynch : Z;
  mainLog : ActiveWindow.t I;
  checkpointsLog : ActiveWindow.t CheckpointInfo.t;
  tableOfStableCheckpoints : gmap Z CheckpointInfo.msg;
  clientsManager : ClientsManager.t;
  stateTransfer : S;
  requestsHandler : A;
  controller : Ct;
  replyBuffer : list Z;
  requestsQueueOfPrimary : list MessageBase.t;
  maxNumberOfPendingRequestsInRecentHistory : Z;
  batchingFactor : Z;
  outs : list (Out Pr);
}.

Definition set_lastStableSeqNum (w : t) (x : Z) : t :=
  mk (curView w) (viewActive w) x (lastExecutedSeqNum w) (strictLowerBoundOfSeqNums w) (primaryLastUsedSeqNum w)
    (maxSeqNumTransferredFromPrevViews w) (lastViewThatTransferredSeqNumbersFullyExecuted w) (timeOfLastStateSynch w)
    (mainLog w) (checkpointsLog w) (tableOfStableCheckpoints w) (clientsManager w) (stateTransfer w) (requestsHandler w)
    (controller w) (replyBuffer w) (requestsQueueOfPrimary w) (maxNumberOfPendingRequestsInRecentHistory w)
    (batchingFactor w) (outs w).
Definition set_lastExecutedSeqNum (w : t) (x : Z) : t :=
  mk (curView w) (viewActive w) (lastStableSeqNum w) x (strictLowerBoundOfSeqNums w) (primaryLastUsedSeqNum w)
    (maxSeqNumTransferredFromPrevViews w) (lastViewThatTransferredSeqNumbersFullyExecuted w) (timeOfLastStateSynch w)
    (mainLog w) (checkpointsLog w) (tableOfStableCheckpoints w) (clientsManager w) (stateTransfer w) (requestsHandler w)
    (controller w) (replyBuffer w) (requestsQueueOfPrimary w) (maxNumberOfPendingRequestsInRecentHistory w)
    (batchingFactor w) (outs w).
Definition set_strictLowerBoundOfSeqNums (w : t) (x : Z) : t :=
  mk (curView w) (viewActive w) (lastStableSeqNum w) (lastExecutedSeqNum w) x (primaryLastUsedSeqNum w)
    (maxSeqNumTransferredFromPrevViews w) (lastViewThatTransferredSeqNumbersFullyExecuted w) (timeOfLastStateSynch w)
    (mainLog w) (checkpointsLog w) (tableOfStableCheckpoints w) (clientsManager w) (stateTransfer w) (requestsHandler w)
    (controller w) (replyBuffer w) (requestsQueueOfPrimary w) (maxNumberOfPendingRequestsInRecentHistory w)
    (batchingFactor w) (outs w).
Definition set_primaryLastUsedSeqNum (w : t) (x : Z) : t :=
  mk (curView w) (viewActive w) (lastStableSeqNum w) (lastExecutedSeqNum w) (strictLowerBoundOfSeqNums w) x
    (maxSeqNumTransferredFromPrevViews w) (lastViewThatTransferredSeqNumbersFullyExecuted w) (timeOfLastStateSynch w)
    (mainLog w) (checkpointsLog w) (tableOfStableCheckpoints w) (clientsManager w) (stateTransfer w) (requestsHandler w)
    (controller w) (replyBuffer w) (requestsQueueOfPrimary w) (maxNumberOfPendingRequestsInRecentHistory w)
    (batchingFactor w) (outs w).
Definition set_lastViewThatTransferredSeqNumbersFullyExecuted (w : t) (x : Z) : t :=
  mk (curView w) (viewActive w) (lastStableSeqNum w) (lastExecutedSeqNum w) (strictLowerBoundOfSeqNums w)
    (primaryLastUsedSeqNum w) (maxSeqNumTransferredFromPrevViews w) x (timeOfLastStateSynch w) (mainLog w) (checkpointsLog w)
    (tableOfStableCheckpoints w) (clientsManager w) (stateTransfer w) (requestsHandler w) (controller w) (replyBuffer w)
    (requestsQueueOfPrimary w) (maxNumberOfPendingRequestsInRecentHistory w) (batchingFactor w) (outs w).
Definition set_timeOfLastStateSynch (w : t) (x : Z) : t :=
  mk (curView w) (viewActive w) (lastStableSeqNum w) (lastExecutedSeqNum w) (strictLowerBoundOfSeqNums w)
    (primaryLastUsedSeqNum w) (maxSeqNumTransferredFromPrevViews w) (lastViewThatTransferredSeqNumbersFullyExecuted w) x
    (mainLog w) (checkpointsLog w) (tableOfStableCheckpoints w) (clientsManager w) (stateTransfer w) (requestsHandler w)
    (controller w) (replyBuffer w) (requestsQueueOfPrimary w) (maxNumberOfPendingRequestsInRecentHistory w)
    (batchingFactor w) (outs w).
Definition set_mainLog (w : t) (x : ActiveWindow.t I) : t :=
  mk (curView w) (viewActive w) (lastStableSeqNum w) (lastExecutedSeqNum w) (strictLowerBoundOfSeqNums w)
    (primaryLastUsedSeqNum w) (maxSeqNumTransferredFromPrevViews w) (lastViewThatTransferredSeqNumbersFullyExecuted w)
    (timeOfLastStateSynch w) x (checkpointsLog w) (tableOfStableCheckpoints w) (clientsManager w) (stateTransfer w)
    (requestsHandler w) (controller w) (replyBuffer w) (requestsQueueOfPrimary w)
    (maxNumberOfPendingRequestsInRecentHistory w) (batchingFactor w) (outs w).
Definition set_checkpointsLog (w : t) (x : ActiveWindow.t CheckpointInfo.t) : t :=
  mk (curView w) (viewActive w) (lastStableSeqNum w) (lastExecutedSeqNum w) (strictLowerBoundOfSeqNums w)
    (primaryLastUsedSeqNum w) (maxSeqNumTransferredFromPrevViews w) (lastViewThatTransferredSeqNumbersFullyExecuted w)
    (timeOfLastStateSynch w) (mainLog w) x (tableOfStableCheckpoints w) (clientsManager w) (stateTransfer w)
    (requestsHandler w) (controller w) (replyBuffer w) (requestsQueueOfPrimary w)
    (maxNumberOfPendingRequestsInRecentHistory w) (batchingFactor w) (outs w).
Definition set_tableOfStableCheckpoints (w : t) (x : gmap Z CheckpointInfo.msg) : t :=
  mk (curView w) (viewActive w) (lastStableSeqNum w) (lastExecutedSeqNum w) (strictLowerBoundOfSeqNums w)
    (primaryLastUsedSeqNum w) (maxSeqNumTransferredFromPrevViews w) (lastViewThatTransferredSeqNumbersFullyExecuted w)
    (timeOfLastStateSynch w) (mainLog w) (checkpointsLog w) x (clientsManager w) (stateTransfer w) (requestsHandler w)
    (controller w) (replyBuffer w) (requestsQueueOfPrimary w) (maxNumberOfPendingRequestsInRecentHistory w)
    (batchingFactor w) (outs w).
Definition set_clientsManager (w : t) (x : ClientsManager.t) : t :=
  mk (curView w) (viewActive w) (lastStableSeqNum w) (lastExecutedSeqNum w) (strictLowerBoundOfSeqNums w)
    (primaryLastUsedSeqNum w) (maxSeqNumTransferredFromPrevViews w) (lastViewThatTransferredSeqNumbersFullyExecuted w)
    (timeOfLastStateSynch w) (mainLog w) (checkpointsLog w) (tableOfStableCheckpoints w) x (stateTransfer w)
    (requestsHandler w) (controller w) (replyBuffer w) (requestsQueueOfPrimary w)
    (maxNumberOfPendingRequestsInRecentHistory w) (batchingFactor w) (outs w).
Definition set_stateTransfer (w : t) (x : S) : t :=
  mk (curView w) (viewActive w) (lastStableSeqNum w) (lastExecutedSeqNum w) (strictLowerBoundOfSeqNums w)
    (primaryLastUsedSeqNum w) (maxSeqNumTransferredFromPrevViews w) (lastViewThatTransferredSeqNumbersFullyExecuted w)
    (timeOfLastStateSynch w) (mainLog w) (checkpointsLog w) (tableOfStableCheckpoints w) (clientsManager w) x
    (requestsHandler w) (controller w) (replyBuffer w) (requestsQueueOfPrimary w)
    (maxNumberOfPendingRequestsInRecentHistory w) (batchingFactor w) (outs w).
Definition set_requestsHandler (w : t) (x : A) : t :=
  mk (curView w) (viewActive w) (lastStableSeqNum w) (lastExecutedSeqNum w) (strictLowerBoundOfSeqNums w)
    (primaryLastUsedSeqNum w) (maxSeqNumTransferredFromPrevViews w) (lastViewThatTransferredSeqNumbersFullyExecuted w)
    (timeOfLastStateSynch w) (mainLog w) (checkpointsLog w) (tableOfStableCheckpoints w) (clientsManager w) (stateTransfer w)
    x (controller w) (replyBuffer w) (requestsQueueOfPrimary w) (maxNumberOfPendingRequestsInRecentHistory w)
    (batchingFactor w) (outs w).
Definition set_controller (w : t) (x : Ct) : t :=
  mk (curView w) (viewActive w) (lastStableSeqNum w) (lastExecutedSeqNum w) (strictLowerBoundOfSeqNums w)
    (primaryLastUsedSeqNum w) (maxSeqNumTransferredFromPrevViews w) (lastViewThatTransferredSeqNumbersFullyExecuted w)
    (timeOfLastStateSynch w) (mainLog w) (checkpointsLog w) (tableOfStableCheckpoints w) (clientsManager w) (stateTransfer w)
    (requestsHandler w) x (replyBuffer w) (requestsQueueOfPrimary w) (maxNumberOfPendingRequestsInRecentHistory w)
    (batchingFactor w) (outs w).
Definition set_replyBuffer (w : t) (x : list Z) : t :=
  mk (curView w) (viewActive w) (lastStableSeqNum w) (lastExecutedSeqNum w) (strictLowerBoundOfSeqNums w)
    (primaryLastUsedSeqNum w) (maxSeqNumTransferredFromPrevViews w) (lastViewThatTransferredSeqNumbersFullyExecuted w)
    (timeOfLastStateSynch w) (mainLog w) (checkpointsLog w) (tableOfStableCheckpoints w) (clientsManager w) (stateTransfer w)
    (requestsHandler w) (controller w) x (requestsQueueOfPrimary w) (maxNumberOfPendingRequestsInRecentHistory w)
    (batchingFactor w) (outs w).
Definition set_requestsQueueOfPrimary (w : t) (x : list MessageBase.t) : t :=
  mk (curView w) (viewActive w) (lastStableSeqNum w) (lastExecutedSeqNum w) (strictLowerBoundOfSeqNums w)
    (primaryLastUsedSeqNum w) (maxSeqNumTransferredFromPrevViews w) (lastViewThatTransferredSeqNumbersFullyExecuted w)
    (timeOfLastStateSynch w) (mainLog w) (checkpointsLog w) (tableOfStableCheckpoints w) (clientsManager w) (stateTransfer w)
    (requestsHandler w) (controller w) (replyBuffer w) x (maxNumberOfPendingRequestsInRecentHistory w) (batchingFactor w)
    (outs w).
Definition set_maxNumberOfPendingRequestsInRecentHistory (w : t) (x : Z) : t :=
  mk (curView w) (viewActive w) (lastStableSeqNum w) (lastExecutedSeqNum w) (strictLowerBoundOfSeqNums w)
    (primaryLastUsedSeqNum w) (maxSeqNumTransferredFromPrevViews w) (lastViewThatTransferredSeqNumbersFullyExecuted w)
    (timeOfLastStateSynch w) (mainLog w) (checkpointsLog w) (tableOfStableCheckpoints w) (clientsManager w) (stateTransfer w)
    (requestsHandler w) (controller w) (replyBuffer w) (requestsQueueOfPrimary w) x (batchingFactor w) (outs w).
Definition set_batchingFactor (w : t) (x : Z) : t :=
  mk (curView w) (viewActive w) (lastStableSeqNum w) (lastExecutedSeqNum w) (strictLowerBoundOfSeqNums w)
    (primaryLastUsedSeqNum w) (maxSeqNumTransferredFromPrevViews w) (lastViewThatTransferredSeqNumbersFullyExecuted w)
    (timeOfLastStateSynch w) (mainLog w) (checkpointsLog w) (tableOfStableCheckpoints w) (clientsManager w) (stateTransfer w)
    (requestsHandler w) (controller w) (replyBuffer w) (requestsQueueOfPrimary w)
    (maxNumberOfPendingRequestsInRecentHistory w) x (outs w).
Definition set_outs (w : t) (x : list (Out Pr)) : t :=
  mk (curView w) (viewActive w) (lastStableSeqNum w) (lastExecutedSeqNum w) (strictLowerBoundOfSeqNums w)
    (primaryLastUsedSeqNum w) (maxSeqNumTransferredFromPrevViews w) (lastViewThatTransferredSeqNumbersFullyExecuted w)
    (timeOfLastStateSynch w) (mainLog w) (checkpointsLog w) (tableOfStableCheckpoints w) (clientsManager w) (stateTransfer w)
    (requestsHandler w) (controller w) (replyBuffer w) (requestsQueueOfPrimary w)
    (maxNumberOfPendingRequestsInRecentHistory w) (batchingFactor w) x.
(** ** The monad *)
Definition M (X : Type) : Type := t → res (X * t).
#[export] Instance M_ret : MRet M := fun X x w => Ok (x, w).
#[export] Instance M_bind : MBind M := fun X Y f m w => match m w with Ok (x, w') => f x w' | Err e => Err e end.

Definition get : M t := fun w => Ok (w, w).
Definition modify (f : t → t) : M unit := fun w => Ok (tt, f w).
Definition lift {X} (r : res X) : M X := fun w => x ← r; Ok (x, w).
Definition check (b : bool) : M unit := lift (Assert b).
Definition emit (o : Out Pr) : M unit := modify (fun w => set_outs w (outs w ++ [o])).

#[local] Abbreviation myId := (ReplicasInfo._myId info).
#[local] Abbreviation mainSize := kWorkWindowSize.
#[local] Abbreviation cpSize := (kWorkWindowSize + checkpointWindowSize).
#[local] Hint Extern 0 (ItemFuncs CheckpointInfo.t) => exact (CheckpointInfo.checkpoint_items info Hinfo) : typeclass_instances.
#[local] Abbreviation mainGet := (ActiveWindow.get mainSize 1).
#[local] Abbreviation cpGet := (ActiveWindow.get cpSize checkpointWindowSize).

Definition currentPrimary (w : t) : Z := ReplicasInfo.primaryOfView info (curView w).
Definition isCurrentPrimary (w : t) : bool := currentPrimary w =? myId.
Definition currentViewIsActive (w : t) : bool := viewActive w.

(** Writing through the reference [checkpointsLog->get(n)]. *)
Definition writeCheckpoint (n : Z) (i : CheckpointInfo.t) : M unit :=
  w ← get;
  l ← lift (ActiveWindow.modify cpSize checkpointWindowSize (checkpointsLog w) n (fun _ => i));
  modify (fun w => set_checkpointsLog w l).
Definition updateCheckpoint (n : Z) (f : CheckpointInfo.t → res CheckpointInfo.t) : M unit :=
  w ← get;
  i ← lift (cpGet (checkpointsLog w) n);
  i' ← lift (f i);
  writeCheckpoint n i'.

(** A new [CheckpointMsg] of this replica. *)
Definition newCheckpointMsg (seqNum : Z) (d : Digest) (stable : bool) : CheckpointInfo.msg :=
  CheckpointInfo.mkMsg myId (CheckpointMsg.mkHeader seqNum d (CheckpointMsg.flag_of stable)).

Definition addSelfCheckpoint (m : CheckpointInfo.msg) (i : CheckpointInfo.t) : res CheckpointInfo.t :=
  '(_, i) ← CheckpointInfo.addCheckpointMsg info i m myId; Ok i.

(** [checkpointMsg->setStateAsStable()] on the message inside the certificate. *)
Definition setSelfStateAsStable (i : CheckpointInfo.t) : CheckpointInfo.t :=
  let c := CheckpointInfo.checkpointCertificate i in
  let stable m := CheckpointInfo.mkMsg (CheckpointInfo.m_sender m)
    (CheckpointMsg.mkHeader (CheckpointMsg.seqNum (CheckpointInfo.m_header m)) (CheckpointMsg.stateDigest (CheckpointInfo.m_header m))
       (Z.lor (CheckpointMsg.flags (CheckpointInfo.m_header m)) 1)) in
  CheckpointInfo.mk (MsgsCertificate.mk (alter stable myId (MsgsCertificate.msgsFromReplicas c)) (MsgsCertificate.msgClasses c)
      (MsgsCertificate.numOfClasses c) (MsgsCertificate.complete c) (MsgsCertificate.bestClass c) (MsgsCertificate.sizeOfBestClass c)
      (MsgsCertificate.hasTrustedSelfClass c)) (CheckpointInfo.sentToAllOrApproved i) (CheckpointInfo.executed i).

(** ** The primary's batches *)

(** Irrelevant requests at the head of the queue are removed. *)
Fixpoint dropIrrelevant (cm : ClientsManager.t) (q : list MessageBase.t) : res (list MessageBase.t) :=
  match q with
  | [] => Ok []
  | first :: q' =>
      c ← ClientRequestMsg.clientProxyId first;
      s ← ClientRequestMsg.requestSeqNum first;
      can ← ClientsManager.noPendingAndRequestCanBecomePending cm c s;
      if (can : bool) then Ok q else dropIrrelevant cm q'
  end.

(** The requests that still fit are moved into the message. *)
Fixpoint fillBatch (now : Z) (cm : ClientsManager.t) (pp : MessageBase.t) (q : list MessageBase.t) : res (ClientsManager.t * MessageBase.t * list MessageBase.t) :=
  match q with
  | [] => Ok (cm, pp, [])
  | nextRequest :: q' =>
      r ← PrePrepareMsg.remainingSizeForRequests pp;
      if MessageBase.msgSize_ nextRequest <=? r then
        c ← ClientRequestMsg.clientProxyId nextRequest;
        s ← ClientRequestMsg.requestSeqNum nextRequest;
        can ← ClientsManager.noPendingAndRequestCanBecomePending cm c s;
        '(cm, pp) ← (if (can : bool) then
                       pp ← PrePrepareMsg.addRequest pp (MessageBase.msgBody_ nextRequest) (MessageBase.msgSize_ nextRequest);
                       cm ← ClientsManager.addPendingRequest now cm c s;
                       Ok (cm, pp)
                     else Ok (cm, pp));
        fillBatch now cm pp q'
      else Ok (cm, pp, q)
  end.

Definition maxReasonableMinBatchSize : Z := 350.

Definition minBatchSizeOf (batchingLogic : bool) (concurrentDiff factor : Z) : Z :=
  if batchingLogic && (2 <=? concurrentDiff) then
    let minBatchSize := u64 (concurrentDiff * factor) in
    if maxReasonableMinBatchSize <? minBatchSize then maxReasonableMinBatchSize else minBatchSize
  else 1.

(** The batch of the next sequence number is built and sent. *)
Definition sendNextPrePrepare (now : Z) : M unit :=
  modify (fun w => set_primaryLastUsedSeqNum w (primaryLastUsedSeqNum w + 1));;
  modify (fun w => if Z.rem (primaryLastUsedSeqNum w) kWorkWindowSize =? 0
                   then let b := maxNumberOfPendingRequestsInRecentHistory w / 4 in
                        set_maxNumberOfPendingRequestsInRecentHistory (set_batchingFactor w (if b <? 1 then 1 else b)) 0
                   else w);;
  w ← get;
  check (primaryLastUsedSeqNum w <=? lastExecutedSeqNum w + MaxConcurrentFastPaths);;
  let firstPath := getCurrentFirstPath (controller w) in
  check (negb (ReplicasInfo._cVal info =? 0) || negb (bool_decide (firstPath = FAST_WITH_THRESHOLD)));;
  ct ← lift (onSendingPrePrepare now (controller w) (primaryLastUsedSeqNum w) firstPath);
  modify (fun w => set_controller w ct);;
  pp ← lift (PrePrepareMsg.ctor myId (curView w) (primaryLastUsedSeqNum w) firstPath false);
  r ← lift (fillBatch now (clientsManager w) pp (requestsQueueOfPrimary w));
  let '(cm, pp, q) := r in
  modify (fun w => set_requestsQueueOfPrimary (set_clientsManager w cm) q);;
  pp ← lift (PrePrepareMsg.finishAddingRequests H pp);
  k ← lift (PrePrepareMsg.numberOfRequests pp);
  check (0 <? k);;
  i ← lift (mainGet (mainLog w) (primaryLastUsedSeqNum w));
  r ← lift (primarySends now (lastExecutedSeqNum w) i pp);
  l ← lift (ActiveWindow.modify mainSize 1 (mainLog w) (primaryLastUsedSeqNum w) (fun _ => r.1));
  modify (fun w => set_outs (set_mainLog w l) (outs w ++ (Protocol <$> r.2))).

Definition tryToSendPrePrepareMsg (now : Z) (batchingLogic : bool) : M unit :=
  w ← get;
  check (isCurrentPrimary w && currentViewIsActive w);;
  if lastStableSeqNum w + kWorkWindowSize <? primaryLastUsedSeqNum w + 1 then mret tt
  else if lastExecutedSeqNum w + maxConcurrentAgreementsByPrimary <? primaryLastUsedSeqNum w + 1 then mret tt
  else match requestsQueueOfPrimary w with
  | [] => mret tt
  | _ =>
      q ← lift (dropIrrelevant (clientsManager w) (requestsQueueOfPrimary w));
      modify (fun w => set_requestsQueueOfPrimary w q);;
      let requestsInQueue := Z.of_nat (length q) in
      if requestsInQueue =? 0 then mret tt
      else
        check (lastExecutedSeqNum w <=? primaryLastUsedSeqNum w);;
        let concurrentDiff := u64 (primaryLastUsedSeqNum w + 1 - lastExecutedSeqNum w) in
        modify (fun w => if maxNumberOfPendingRequestsInRecentHistory w <? requestsInQueue
                         then set_maxNumberOfPendingRequestsInRecentHistory w requestsInQueue else w);;
        if requestsInQueue <? minBatchSizeOf batchingLogic concurrentDiff (batchingFactor w) then mret tt
        else sendNextPrePrepare now
  end.

(** ** Stable checkpoints *)
Definition setLastStable (newStableSeqNum : Z) : M unit :=
  modify (fun w => set_lastStableSeqNum w newStableSeqNum);;
  modify (fun w => if strictLowerBoundOfSeqNums w <? lastStableSeqNum w then set_strictLowerBoundOfSeqNums w (lastStableSeqNum w) else w).

Definition advanceWindows : M unit :=
  modify (fun w => if primaryLastUsedSeqNum w <? lastStableSeqNum w then set_primaryLastUsedSeqNum w (lastStableSeqNum w) else w);;
  w ← get;
  l ← lift (ActiveWindow.advanceActiveWindow mainSize 1 (mainLog w) (lastStableSeqNum w + 1));
  modify (fun w => set_mainLog w l);;
  c ← lift (ActiveWindow.advanceActiveWindow cpSize checkpointWindowSize (checkpointsLog w) (lastStableSeqNum w));
  modify (fun w => set_checkpointsLog w c);;
  s ← lift (markCheckpointAsStable (stateTransfer w) (Z.quot (lastStableSeqNum w) checkpointWindowSize));
  modify (fun w => set_stateTransfer w s).

Definition onSeqNumIsStableWithoutRefCheckpoint (newStableSeqNum : Z) : M unit :=
  check (Z.rem newStableSeqNum checkpointWindowSize =? 0);;
  w ← get;
  if newStableSeqNum <=? lastStableSeqNum w then mret tt
  else setLastStable newStableSeqNum;; advanceWindows.

Definition onSeqNumIsStable (now newStableSeqNum : Z) : M unit :=
  check (Z.rem newStableSeqNum checkpointWindowSize =? 0);;
  w ← get;
  if newStableSeqNum <=? lastStableSeqNum w then mret tt
  else
    setLastStable newStableSeqNum;;
    w ← get;
    (if lastExecutedSeqNum w <? lastStableSeqNum w then
       modify (fun w => set_lastExecutedSeqNum w (lastStableSeqNum w));;
       cm ← lift (ClientsManager.loadInfoFromReservedPages (clientsManager w) (stateTransfer w));
       modify (fun w => set_clientsManager w cm)
     else mret tt);;
    advanceWindows;;
    w ← get;
    i ← lift (cpGet (checkpointsLog w) (lastStableSeqNum w));
    i ← match CheckpointInfo.selfCheckpointMsg info i with
        | None =>
            d ← lift (getDigestOfCheckpoint (stateTransfer w) (Z.quot (lastStableSeqNum w) checkpointWindowSize) DIGEST_SIZE);
            lift (addSelfCheckpoint (newCheckpointMsg (lastStableSeqNum w) d true) i)
        | Some _ => mret (setSelfStateAsStable i)
        end;
    let i := if negb (CheckpointInfo.isCheckpointCertificateComplete i) then CheckpointInfo.tryToMarkCheckpointCertificateCompleted info i else i in
    check (CheckpointInfo.isCheckpointCertificateComplete i);;
    writeCheckpoint (lastStableSeqNum w) i;;
    w ← get;
    if currentViewIsActive w && negb (isCollectingState (stateTransfer w)) && (currentPrimary w =? myId)
    then tryToSendPrePrepareMsg now false else mret tt.

(** ** Checkpoint messages *)

(** [subtract] of two times. *)
Definition subtract (t1 t2 : Z) : Z := i64 (t1 - t2).
Definition absDifference (t1 t2 : Z) : Z := if t2 <? t1 then i64 (t1 - t2) else i64 (t2 - t1).

Definition sendCheckpointIfNeeded (now : Z) : M unit :=
  w ← get;
  if isCollectingState (stateTransfer w) || negb (currentViewIsActive w) then mret tt
  else
    let lastCheckpointNumber := Z.quot (lastExecutedSeqNum w) checkpointWindowSize * checkpointWindowSize in
    if lastCheckpointNumber =? 0 then mret tt
    else
      check (ActiveWindow.insideActiveWindow cpSize (checkpointsLog w) lastCheckpointNumber);;
      checkInfo ← lift (cpGet (checkpointsLog w) lastCheckpointNumber);
      match CheckpointInfo.selfCheckpointMsg info checkInfo with
      | None => mret tt
      | Some checkpointMessage =>
          let markSent := updateCheckpoint lastCheckpointNumber (fun i => Ok (CheckpointInfo.setCheckpointSentAllOrApproved i)) in
          let sendIt := markSent;; emit (SendCheckpointToAll checkpointMessage) in
          if CheckpointInfo.sentToAllOrApproved checkInfo then mret tt
          else if 3 * 1000 * 1000 <=? subtract now (CheckpointInfo.executed checkInfo) then sendIt
          else if lastExecutedSeqNum w <? lastCheckpointNumber + MaxConcurrentFastPaths then mret tt
          else
            proved ← (if ActiveWindow.insideActiveWindow mainSize (mainLog w) (lastExecutedSeqNum w)
                      then i ← lift (mainGet (mainLog w) (lastExecutedSeqNum w)); mret (bool_decide (is_Some (fullProof i)))
                      else mret false);
            if (proved : bool) then
              updateCheckpoint lastCheckpointNumber (fun i =>
                let i := CheckpointInfo.tryToMarkCheckpointCertificateCompleted info i in
                assert! (CheckpointInfo.isCheckpointCertificateComplete i) ;; Ok i);;
              onSeqNumIsStable now lastCheckpointNumber;;
              markSent
            else sendIt
      end.

(** The messages of the table that are not above [n] are removed. *)
Definition relevantAbove (n : Z) (table : gmap Z CheckpointInfo.msg) : gmap Z CheckpointInfo.msg :=
  filter (fun e => n < CheckpointMsg.seqNum (CheckpointInfo.m_header e.2)) table.

Definition isStableState (m : CheckpointInfo.msg) : bool := negb (Z.land (CheckpointMsg.flags (CheckpointInfo.m_header m)) 1 =? 0).

(** Whether the table shows that the state has to be fetched. *)
Definition needsState (now : Z) : M bool :=
  w ← get;
  if u16 (Z.of_nat (size (tableOfStableCheckpoints w))) <? ReplicasInfo._fVal info + 1 then mret false
  else
    let table := relevantAbove (lastExecutedSeqNum w) (tableOfStableCheckpoints w) in
    let numRelevant := u16 (Z.of_nat (size table)) in
    let numRelevantAboveWindow := u16 (Z.of_nat (size (relevantAbove (lastStableSeqNum w + kWorkWindowSize) table))) in
    modify (fun w => set_tableOfStableCheckpoints w table);;
    check (numRelevant =? Z.of_nat (size table));;
    if ReplicasInfo._fVal info + 1 <=? numRelevantAboveWindow then mret true
    else if ReplicasInfo._fVal info + 1 <=? numRelevant then
      timeOfLastCommit ← (if ActiveWindow.insideActiveWindow mainSize (mainLog w) (lastExecutedSeqNum w)
                          then i ← lift (mainGet (mainLog w) (lastExecutedSeqNum w)); mret (lastUpdateTimeOfCommitMsgs i)
                          else mret 0);
      mret (1000 * timeToWaitBeforeStartingStateTransferInMainWindowMilli <? absDifference now timeOfLastCommit)
    else mret false.

(** The second half of the handler of Checkpoint messages: the table of stable checkpoints of the peers. *)
Definition recordStableCheckpoint (now : Z) (m : CheckpointInfo.msg) : M bool :=
  let msgSenderId := CheckpointInfo.m_sender m in
  let msgSeqNum := CheckpointMsg.seqNum (CheckpointInfo.m_header m) in
  w ← get;
  if isStableState m && (lastExecutedSeqNum w <? msgSeqNum) &&
     match tableOfStableCheckpoints w !! msgSenderId with
     | None => true
     | Some old => CheckpointMsg.seqNum (CheckpointInfo.m_header old) <? msgSeqNum
     end
  then
    let x := CheckpointInfo.mkMsg msgSenderId
      (CheckpointMsg.mkHeader msgSeqNum (CheckpointMsg.stateDigest (CheckpointInfo.m_header m)) (CheckpointMsg.flag_of (isStableState m))) in
    modify (fun w => set_tableOfStableCheckpoints w (<[msgSenderId := x]> (tableOfStableCheckpoints w)));;
    needsState now
  else mret false.

Definition onCheckpoint (now : Z) (m : CheckpointInfo.msg) : M unit :=
  let msgSenderId := CheckpointInfo.m_sender m in
  let msgSeqNum := CheckpointMsg.seqNum (CheckpointInfo.m_header m) in
  w ← get;
  stable ← (if (lastStableSeqNum w <? msgSeqNum) && (msgSeqNum <=? lastStableSeqNum w + kWorkWindowSize) then
              check (ActiveWindow.insideActiveWindow mainSize (mainLog w) msgSeqNum);;
              updateCheckpoint msgSeqNum (fun i => '(_, i) ← CheckpointInfo.addCheckpointMsg info i m msgSenderId; Ok i);;
              w ← get;
              i ← lift (cpGet (checkpointsLog w) msgSeqNum);
              if CheckpointInfo.isCheckpointCertificateComplete i then
                check (bool_decide (is_Some (CheckpointInfo.selfCheckpointMsg info i)));;
                onSeqNumIsStable now msgSeqNum;;
                mret true
              else mret false
            else mret false);
  if (stable : bool) then mret tt
  else
    askForStateTransfer ← recordStableCheckpoint now m;
    w ← get;
    if (askForStateTransfer : bool) then
      s ← lift (startCollectingState (stateTransfer w)); modify (fun w => set_stateTransfer w s)
    else if lastStableSeqNum w + kWorkWindowSize <? msgSeqNum then emit (ReportAboutAdvancedReplica msgSenderId msgSeqNum)
    else if msgSeqNum + kWorkWindowSize <? lastStableSeqNum w then emit (ReportAboutLateReplica msgSenderId msgSeqNum)
    else mret tt.

(** ** Execution *)
Definition maxReplyLength : Z := maxReplyMessageSize - ClientReplyMsg.sizeof_ClientReplyMsgHeader.

Definition sendLatestReply (clientId : Z) : M unit :=
  w ← get;
  r ← lift (ClientsManager.allocateMsgWithLatestReply (clientsManager w) (stateTransfer w) clientId (currentPrimary w));
  emit (SendToClient clientId r).

Definition executeReadOnlyRequest (m : MessageBase.t) : M unit :=
  ro ← lift (ClientRequestMsg.isReadOnly m);
  check ro;;
  w ← get;
  check (negb (isCollectingState (stateTransfer w)));;
  q ← lift (ClientRequestMsg.requestSeqNum m);
  reply ← lift (ClientReplyMsg.ctor_primary (currentPrimary w) q myId);
  clientId ← lift (ClientRequestMsg.clientProxyId m);
  data ← lift (ClientRequestMsg.requestBytes m);
  replyBuf ← lift (get_bytes (MessageBase.msgBody_ reply) ClientReplyMsg.sizeof_ClientReplyMsgHeader (ClientReplyMsg.maxReplyLength reply));
  let '(a, error, buf, actualReplyLength) :=
    execute (requestsHandler w) clientId (lastExecutedSeqNum w) true data (ClientReplyMsg.maxReplyLength reply) replyBuf 0 in
  modify (fun w => set_requestsHandler w a);;
  body ← lift (put_bytes (MessageBase.msgBody_ reply) ClientReplyMsg.sizeof_ClientReplyMsgHeader buf);
  if (error =? 0) && (0 <? actualReplyLength) then
    reply ← lift (ClientReplyMsg.setReplyLength (with_body reply body) actualReplyLength);
    emit (SendToClient clientId reply)
  else mret tt.

(** A request that was not executed before. *)
Definition executeNewRequest (now clientId : Z) (req : MessageBase.t) (reqSeqNum : Z) : M unit :=
  w ← get;
  i ← lift (mainGet (mainLog w) (lastExecutedSeqNum w + 1));
  sig ← lift (match fullProof i with Some sig => Ok sig | None => Err AssertFailed end);
  buf ← lift (put_bytes (replyBuffer w) 0 (atoh sig));
  ro ← lift (ClientRequestMsg.isReadOnly req);
  data ← lift (ClientRequestMsg.requestBytes req);
  let '(a, error, buf, actualReplyLength) :=
    execute (requestsHandler w) clientId (lastExecutedSeqNum w + 1) ro data maxReplyLength buf (2 * Z.of_nat (length sig)) in
  modify (fun w => set_replyBuffer (set_requestsHandler w a) buf);;
  check (error =? 0);;
  check (0 <? actualReplyLength);;
  r ← lift (ClientsManager.allocateNewReplyMsgAndWriteToStorage now (clientsManager w) (stateTransfer w) clientId reqSeqNum (currentPrimary w) buf actualReplyLength);
  let '(reply, cm, s) := r in
  modify (fun w => set_stateTransfer (set_clientsManager w cm) s);;
  (if negb (actualReplyLength =? 0) then emit (SendToClient clientId reply) else mret tt);;
  cm ← lift (ClientsManager.removePendingRequestOfClient cm clientId);
  modify (fun w => set_clientsManager w cm).

(** One round of the loop over the requests of a batch. *)
Definition executeRequest (now : Z) (ppMsg : MessageBase.t) (off : Z) : M unit :=
  req ← lift (ClientRequestMsg.ctor_header (MessageBase.msgBody_ ppMsg) off);
  clientId ← lift (ClientRequestMsg.clientProxyId req);
  w ← get;
  if negb (ClientsManager.isValidClient (clientsManager w) clientId) then mret tt
  else
    last ← lift (ClientsManager.seqNumberOfLastReplyToClient (clientsManager w) clientId);
    q ← lift (ClientRequestMsg.requestSeqNum req);
    if q <=? last then sendLatestReply clientId
    else executeNewRequest now clientId req q.

(** The loop over the requests, with at most [fuel] rounds. *)
Fixpoint executeLoop (now : Z) (ppMsg : MessageBase.t) (fuel : nat) (currLoc : Z) : M unit :=
  match fuel with
  | O => lift (Err OutOfFuel)
  | Datatypes.S n =>
      p ← lift (PrePrepareMsg.getAndGoToNext ppMsg currLoc);
      match p.1 with
      | None => mret tt
      | Some off => executeRequest now ppMsg off;; executeLoop now ppMsg n p.2
      end
  end.

(** The own checkpoint message of the number just executed. *)
Definition makeCheckpoint (now : Z) : M unit :=
  w ← get;
  let n := lastExecutedSeqNum w in
  if Z.rem n checkpointWindowSize =? 0 then
    d ← lift (getDigestOfCheckpoint (stateTransfer w) (Z.quot n checkpointWindowSize) DIGEST_SIZE);
    updateCheckpoint n (addSelfCheckpoint (newCheckpointMsg n d false));;
    w ← get;
    i ← lift (cpGet (checkpointsLog w) n);
    (if CheckpointInfo.isCheckpointCertificateComplete i then onSeqNumIsStable now n else mret tt);;
    updateCheckpoint n (fun i => CheckpointInfo.setSelfExecutionTime i now)
  else mret tt.

(** The number is executed. *)
Definition finishNumber (now : Z) : M unit :=
  w ← get;
  s ← lift (if Z.rem (lastExecutedSeqNum w + 1) checkpointWindowSize =? 0
            then createCheckpointOfCurrentState (requestsHandler w) (stateTransfer w) (Z.quot (lastExecutedSeqNum w + 1) checkpointWindowSize)
            else Ok (stateTransfer w));
  modify (fun w => set_lastExecutedSeqNum (set_stateTransfer w s) (lastExecutedSeqNum w + 1));;
  w ← get;
  r ← lift (onNewSeqNumberExecution now (controller w) (lastExecutedSeqNum w));
  modify (fun w => set_controller w r.1);;
  modify (fun w => if (lastViewThatTransferredSeqNumbersFullyExecuted w <? curView w) && (maxSeqNumTransferredFromPrevViews w <=? lastExecutedSeqNum w)
                   then set_lastViewThatTransferredSeqNumbersFullyExecuted w (curView w) else w);;
  w ← get;
  _ ← lift (mainGet (mainLog w) (lastExecutedSeqNum w));
  makeCheckpoint now;;
  sendCheckpointIfNeeded now.

Definition executeRequestsInPrePrepareMsg (now : Z) (ppMsg : MessageBase.t) : M unit :=
  w ← get;
  check (negb (isCollectingState (stateTransfer w)) && currentViewIsActive w);;
  v ← lift (PrePrepareMsg.viewNumber ppMsg);
  check (v =? curView w);;
  k ← lift (PrePrepareMsg.numberOfRequests ppMsg);
  loc ← lift (PrePrepareMsg.iter_ctor ppMsg);
  executeLoop now ppMsg (Datatypes.S (Z.to_nat k)) loc;;
  finishNumber now.

(** One round of the loop of [executeReadWriteRequests]; [continue] is the rest of the loop. *)
Definition executeNext (now : Z) (requestMissingInfo : bool) (continue : M unit) : M unit :=
  w ← get;
  if lastExecutedSeqNum w <? lastStableSeqNum w + kWorkWindowSize then
    i ← lift (mainGet (mainLog w) (lastExecutedSeqNum w + 1));
    let ask := if requestMissingInfo then emit (TryToSendReqMissingDataMsg (lastExecutedSeqNum w + 1)) else mret tt in
    match getPrePrepareMsg i with
    | Some pp =>
        if isCommitted__gg i then
          s ← lift (PrePrepareMsg.seqNumber pp);
          check (s =? lastExecutedSeqNum w + 1);;
          v ← lift (PrePrepareMsg.viewNumber pp);
          check (v =? curView w);;
          executeRequestsInPrePrepareMsg now pp;;
          continue
        else ask
    | None => ask
    end
  else mret tt.

(** The loop, with at most [fuel] rounds. *)
Fixpoint executeReady (now : Z) (requestMissingInfo : bool) (fuel : nat) : M unit :=
  match fuel with
  | O => lift (Err OutOfFuel)
  | Datatypes.S n => executeNext now requestMissingInfo (executeReady now requestMissingInfo n)
  end.

(** The window holds [kWorkWindowSize] numbers, the loop makes one round more ([requests_executed_in_order]). *)
Definition executeReadWriteRequests (now : Z) (requestMissingInfo : bool) : M unit :=
  w ← get;
  check (negb (isCollectingState (stateTransfer w)) && currentViewIsActive w);;
  check (lastStableSeqNum w <=? lastExecutedSeqNum w);;
  executeReady now requestMissingInfo (Datatypes.S (Z.to_nat kWorkWindowSize));;
  w ← get;
  if isCurrentPrimary w && (0 <? Z.of_nat (length (requestsQueueOfPrimary w))) then tryToSendPrePrepareMsg now true else mret tt.

(** ** Requests of clients *)
Definition maxRequestsInQueue : Z := 700.

Definition onClientRequest (now : Z) (m : MessageBase.t) : M unit :=
  let senderId := MessageBase.sender_ m in
  clientId ← lift (ClientRequestMsg.clientProxyId m);
  readOnly ← lift (ClientRequestMsg.isReadOnly m);
  reqSeqNum ← lift (ClientRequestMsg.requestSeqNum m);
  w ← get;
  if isCollectingState (stateTransfer w) then mret tt
  else if negb (ClientsManager.isValidClient (clientsManager w) clientId) || (ReplicasInfo.isIdOfReplica info senderId && negb (isCurrentPrimary w))
  then emit ReportAboutInvalidMessage
  else if (readOnly : bool) then executeReadOnlyRequest m
  else if negb (currentViewIsActive w) then mret tt
  else
    seqNumberOfLastReply ← lift (ClientsManager.seqNumberOfLastReplyToClient (clientsManager w) clientId);
    if seqNumberOfLastReply <? reqSeqNum then
      can ← lift (ClientsManager.noPendingAndRequestCanBecomePending (clientsManager w) clientId reqSeqNum);
      if isCurrentPrimary w then
        if can && (Z.of_nat (length (requestsQueueOfPrimary w)) <? maxRequestsInQueue) then
          modify (fun w => set_requestsQueueOfPrimary w (requestsQueueOfPrimary w ++ [m]));;
          tryToSendPrePrepareMsg now true
        else mret tt
      else if (can : bool) then
        cm ← lift (ClientsManager.addPendingRequest now (clientsManager w) clientId reqSeqNum);
        modify (fun w => set_clientsManager w cm);;
        emit (ForwardRequest (currentPrimary w) m)
      else mret tt
    else if seqNumberOfLastReply =? reqSeqNum then sendLatestReply clientId
    else mret tt.

(** ** The start *)

(** The constructor, for the members above: the state transfer module [s] is initialised, [ct] is the new controller and
    [memory] what [malloc] returns for the reply buffer. *)
Definition ctor (numOfClientProxies sizeOfReservedPage now : Z) (memory : list Z) (s : S) (app : A) (ct : Ct) : res t :=
  let numOfReplicas := ReplicasInfo._numberOfReplicas info in
  cm ← ClientsManager.ctor myId (list_to_set (seqZ numOfReplicas numOfClientProxies)) sizeOfReservedPage;
  cm ← ClientsManager.init cm;
  s ← ClientsManager.clearReservedPages cm s;
  l ← ActiveWindow.ctor mainSize 1 1;
  c ← ActiveWindow.ctor cpSize checkpointWindowSize 0;
  Ok (mk 0 true 0 0 0 0 0 0 now l c ∅ cm s app ct memory [] 0 1 []).

(** ** The end of state transfer *)
Definition takeNewState (now newStateCheckpoint : Z) : M unit :=
  modify (fun w => set_lastExecutedSeqNum w newStateCheckpoint);;
  w ← get;
  cm ← lift (ClientsManager.loadInfoFromReservedPages (clientsManager w) (stateTransfer w));
  modify (fun w => set_clientsManager w cm);;
  (if lastStableSeqNum w + kWorkWindowSize <? newStateCheckpoint then
     let refPoint := newStateCheckpoint - kWorkWindowSize in
     withRefCheckpoint ← (if ActiveWindow.insideActiveWindow cpSize (checkpointsLog w) refPoint
                          then i ← lift (cpGet (checkpointsLog w) refPoint); mret (bool_decide (is_Some (CheckpointInfo.selfCheckpointMsg info i)))
                          else mret false);
     if (withRefCheckpoint : bool) then onSeqNumIsStable now refPoint else onSeqNumIsStableWithoutRefCheckpoint refPoint
   else mret tt);;
  w ← get;
  d ← lift (getDigestOfCheckpoint (stateTransfer w) (Z.quot newStateCheckpoint checkpointWindowSize) DIGEST_SIZE);
  let checkpointMsg := newCheckpointMsg newStateCheckpoint d false in
  updateCheckpoint newStateCheckpoint (fun i => i ← addSelfCheckpoint checkpointMsg i; Ok (CheckpointInfo.setCheckpointSentAllOrApproved i));;
  emit (SendCheckpointToAll checkpointMsg).

(** The table of stable checkpoints shows whether the new state is stable, and whether it is already old. *)
Definition reviewStableCheckpoints (now newStateCheckpoint : Z) : M bool :=
  w ← get;
  let enough n := ReplicasInfo._fVal info + 1 <=? n in
  if enough (u16 (Z.of_nat (size (tableOfStableCheckpoints w)))) then
    let numOfStableCheckpoints := u16 (Z.of_nat (size (relevantAbove (newStateCheckpoint - 1) (tableOfStableCheckpoints w)))) in
    let table := relevantAbove (lastExecutedSeqNum w) (tableOfStableCheckpoints w) in
    modify (fun w => set_tableOfStableCheckpoints w table);;
    (if enough numOfStableCheckpoints then onSeqNumIsStable now newStateCheckpoint else mret tt);;
    mret (enough (u16 (Z.of_nat (size table))))
  else mret false.

Definition onTransferringCompleteImp (now newStateCheckpoint : Z) : M unit :=
  check (Z.rem newStateCheckpoint checkpointWindowSize =? 0);;
  modify (fun w => set_timeOfLastStateSynch w now);;
  w ← get;
  (if lastExecutedSeqNum w <? newStateCheckpoint then takeNewState now newStateCheckpoint else mret tt);;
  askAnotherStateTransfer ← reviewStableCheckpoints now newStateCheckpoint;
  modify (fun w => if primaryLastUsedSeqNum w <? newStateCheckpoint then set_primaryLastUsedSeqNum w newStateCheckpoint else w);;
  w ← get;
  (if currentViewIsActive w && negb (isCollectingState (stateTransfer w)) then
     executeReadWriteRequests now false;;
     w ← get;
     if isCurrentPrimary w && (0 <? Z.of_nat (length (requestsQueueOfPrimary w))) then tryToSendPrePrepareMsg now false else mret tt
   else mret tt);;
  if (askAnotherStateTransfer : bool) then
    w ← get;
    s ← lift (startCollectingState (stateTransfer w)); modify (fun w => set_stateTransfer w s)
  else mret tt.
End defs.
End ReplicaExecution.
