(* ===== verification/ReplicaExecutionSpec.v ===== *)
(** * What execution promises (ReplicaExecution.v)

    The laws of the interfaces of ReplicaExecution.v, the abstract state that execution
    refines (a cache of replies, the state of the application, the reply buffer), the
    invariant of a replica between handlers, and rules for proving that a handler returns:
    [runs m w Q] says that [m] does not fail in [w] and ends in a state with [Q]. *)
From S2P Require Import Prelude SysConsts Digest ReplicasInfo ActiveWindow MsgsCertificate MessageBase Checkpoint ReservedPages ClientReplyMsg ClientRequestMsg ClientsManager ClientsManagerSpec PrePrepareMsg PrePrepareMsgProps Controller ReplicaExecution.

(** ** Laws of the interfaces *)

(** The requests of a PrePrepare message can be read, and none has number 0. *)
Definition readable (pp : MessageBase.t) : Prop :=
  ∃ rs, PrePrepareMsg.readRequests pp = Ok rs ∧ Forall (fun r => 0 < ClientRequestMsg.r_seqNum r < 2 ^ 64) rs.

(** Items of the log, for the replica [info]; [li_at v n i]: the item is used for number [n]
    in view [v].  An empty item has no message and can be used for any number; the primary
    can add its message to an item without one, which does not commit it. *)
Class LogItemSpec (info : ReplicasInfo.t) (I Pr : Type) {IF : ItemFuncs I} {LI : LogItem I Pr} := {
  li_at : Z → Z → I → Prop;
  li_empty i : item_empty i → getPrePrepareMsg i = None;
  li_fresh v n i : item_wf i → item_empty i → 0 < n → li_at v n i;
  li_sends now le i pp v n path d : item_wf i → li_at v n i → getPrePrepareMsg i = None → PrePrepareMsg.viewNumber pp = Ok v → PrePrepareMsg.seqNumber pp = Ok n →
    PrePrepareMsg.firstPath pp = Ok path → PrePrepareMsg.digestOfRequests pp = Ok d → (path = FAST_WITH_THRESHOLD → ReplicasInfo._cVal info ≠ 0) →
    readable pp → ReplicasInfo.primaryOfView info v = ReplicasInfo._myId info →
    ∃ i' outs, primarySends now le i pp = Ok (i', outs) ∧ item_wf i' ∧ li_at v n i' ∧ isCommitted__gg i' = false;
}.

(** State transfer that stores the last three checkpoints; [st_ok a k s]: the module can be
    used with the application in state [a], and [k] is the last checkpoint. *)
Class StateTransferSpec (A S : Type) {RP : ReservedPages S} {ST : StateTransfer A S} (num size : Z) {RPS : ReservedPagesSpec S num size} := {
  st_ok : A → Z → S → Prop;
  st_pages a l s : st_ok a l s → rp_ok s;
  st_idle a l s : st_ok a l s → isCollectingState s = false;
  st_save a l s id data s' : st_ok a l s → 0 <= id → saveReservedPage s id data = Ok s' → st_ok a l s';
  st_zero a l s id s' : st_ok a l s → 0 <= id → zeroReservedPage s id = Ok s' → st_ok a l s';
  st_create a l s k : st_ok a l s → 0 < k → l < k →
    ∃ s', createCheckpointOfCurrentState a s k = Ok s' ∧ st_ok a k s' ∧ ∀ id, 0 <= id < num → rp_page s' id = rp_page s id;
  st_digest a l s : st_ok a l s → 0 < l → ∃ d, getDigestOfCheckpoint s l DIGEST_SIZE = Ok d;
  st_mark a l s k : st_ok a l s → 0 < k → l - 2 <= k <= l →
    ∃ s', markCheckpointAsStable s k = Ok s' ∧ st_ok a l s' ∧ ∀ id, 0 <= id < num → rp_page s' id = rp_page s id;
  st_start a l s : st_ok a l s → ∃ s', startCollectingState s = Ok s' ∧
    (isCollectingState s' = false → st_ok a l s' ∧ ∀ id, 0 <= id < num → rp_page s' id = rp_page s id);
}.

(** Controllers: the first path is one that the replicas can use. *)
Class ControllerSpec (info : ReplicasInfo.t) (Ct : Type) {CO : Controller Ct} := {
  ct_ok : Ct → Prop;
  ct_path c : ct_ok c → getCurrentFirstPath c ≠ CP_NA ∧ (ReplicasInfo._cVal info = 0 → getCurrentFirstPath c ≠ FAST_WITH_THRESHOLD);
  ct_sending now c n p : ct_ok c → 0 <= n → ∃ c', onSendingPrePrepare now c n p = Ok c' ∧ ct_ok c';
  ct_executed now c n : ct_ok c → 0 <= n → ∃ c' b, onNewSeqNumberExecution now c n = Ok (c', b) ∧ ct_ok c';
}.

Module ReplicaExecutionSpec.
Import ReplicaExecution.
Import ClientsManagerSpec (cache, pend).
#[local] Abbreviation Request := ClientRequestMsg.Request.

(** ** Total correctness *)
Section runs.
Context {I Pr S A Ct : Type}.
#[local] Abbreviation t := (@t I Pr S A Ct).
#[local] Abbreviation M := (@M I Pr S A Ct).

Definition runs {X} (m : M X) (w : t) (Q : X → t → Prop) : Prop := ∃ x w', m w = Ok (x, w') ∧ Q x w'.

Lemma runs_ret {X} (x : X) w (Q : X → t → Prop) : Q x w → runs (mret x) w Q.
Proof. intros HQ. by exists x, w. Qed.

Lemma runs_bind {X Y} (m : M X) (k : X → M Y) w Q : runs m w (fun x w' => runs (k x) w' Q) → runs (m ≫= k) w Q.
Proof. intros (x & w' & Hm & y & w'' & Hk & HQ). exists y, w''. split; [|done]. unfold mbind, M_bind. by rewrite Hm. Qed.

Lemma runs_mono {X} (m : M X) w (Q Q' : X → t → Prop) : runs m w Q → (∀ x w', Q x w' → Q' x w') → runs m w Q'.
Proof. intros (x & w' & Hm & HQ) Hi. exists x, w'. auto. Qed.

Lemma runs_get w (Q : t → t → Prop) : Q w w → runs get w Q.
Proof. intros HQ. by exists w, w. Qed.

Lemma runs_modify f w (Q : () → t → Prop) : Q tt (f w) → runs (modify f) w Q.
Proof. intros HQ. by exists tt, (f w). Qed.

Lemma runs_emit o w (Q : () → t → Prop) : Q tt (set_outs w (outs w ++ [o])) → runs (emit o) w Q.
Proof. intros HQ. by exists tt, (set_outs w (outs w ++ [o])). Qed.

Lemma runs_lift {X} (r : res X) x w (Q : X → t → Prop) : r = Ok x → Q x w → runs (lift r) w Q.
Proof. intros -> HQ. by exists x, w. Qed.

Lemma runs_check b w (Q : () → t → Prop) : b = true → Q tt w → runs (check b) w Q.
Proof. intros -> HQ. by exists tt, w. Qed.

Lemma runs_if {X} (b : bool) (m1 m2 : M X) w Q : (b = true → runs m1 w Q) → (b = false → runs m2 w Q) → runs (if b then m1 else m2) w Q.
Proof. destruct b; auto. Qed.
End runs.

(** Steps that need no argument. *)
Ltac rstep :=
  cbv beta iota; match goal with
  | |- runs (_ ≫= _) _ _ => apply runs_bind
  | |- runs get _ _ => apply runs_get
  | |- runs (modify _) _ _ => apply runs_modify
  | |- runs (emit _) _ _ => apply runs_emit
  | |- runs (mret _) _ _ => apply runs_ret
  end; cbv beta iota.
Ltac rsteps := repeat rstep.

(** ** The abstract state *)
Section spec.
Context (info : ReplicasInfo.t) (Hinfo : ReplicasInfo.wf info) (clients : list Z).
Context {A : Type} (execute : A → Z → Z → bool → list Z → Z → list Z → Z → A * Z * list Z * Z).

Record abs := mkAbs { a_cache : gmap Z (Z * list Z); a_app : A; a_buf : list Z }.

(** The reply buffer when the application is called. *)
Definition withProof (sig buf : list Z) : list Z := atoh sig ++ drop (2 * length sig) buf.

(** Whether a request is executed. *)
Definition isNew (a : abs) (r : Request) : bool :=
  bool_decide (ClientRequestMsg.r_client r ∈ clients) && (ClientsManagerSpec.lastOf (a_cache a !! ClientRequestMsg.r_client r) <? ClientRequestMsg.r_seqNum r).

Definition callApp (n : Z) (sig : list Z) (a : abs) (r : Request) : A * Z * list Z * Z :=
  execute (a_app a) (ClientRequestMsg.r_client r) n (ClientRequestMsg.r_readOnly r) (ClientRequestMsg.r_data r) maxReplyLength
    (withProof sig (a_buf a)) (2 * Z.of_nat (length sig)).

Definition serve (n : Z) (sig : list Z) (a : abs) (r : Request) : abs :=
  if isNew a r then
    let '(app, _, buf, len) := callApp n sig a r in
    mkAbs (<[ClientRequestMsg.r_client r := (ClientRequestMsg.r_seqNum r, take (Z.to_nat len) buf)]> (a_cache a)) app buf
  else a.

(** A batch: the signature that committed it and its requests. *)
Definition serveBatch (n : Z) (a : abs) (b : list Z * list Request) : abs := foldl (serve n b.1) a b.2.

(** The batches of the numbers from [n]. *)
Fixpoint serveBatches (n : Z) (a : abs) (bs : list (list Z * list Request)) : abs :=
  match bs with [] => a | b :: bs' => serveBatches (n + 1) (serveBatch n a b) bs' end.
End spec.
Arguments abs : clear implicits.

(** ** The invariant *)
Section inv.
Context (info : ReplicasInfo.t) (Hinfo : ReplicasInfo.wf info) (H : list Z → Digest) (maxConcurrent : Z) (clients : list Z) (num size : Z).
Context {I Pr S A Ct : Type} {IF : ItemFuncs I} {LI : LogItem I Pr} {RP : ReservedPages S} {ST : StateTransfer A S} {CO : Controller Ct}.
Context {RPS : ReservedPagesSpec S num size} {LIS : LogItemSpec info I Pr} {STS : StateTransferSpec A S num size} {CTS : ControllerSpec info Ct}.
#[local] Abbreviation t := (@t I Pr S A Ct).
#[local] Abbreviation mainGet := (ActiveWindow.get kWorkWindowSize 1).
#[local] Abbreviation cpSize := (kWorkWindowSize + checkpointWindowSize).
#[local] Abbreviation cpGet := (ActiveWindow.get cpSize checkpointWindowSize).
#[local] Hint Extern 0 (ItemFuncs CheckpointInfo.t) => exact (CheckpointInfo.checkpoint_items info Hinfo) : typeclass_instances.

(** The batch of an item that is ready to be executed. *)
Definition ready (i : I) : option (list Z * list Request) :=
  match getPrePrepareMsg i, fullProof i with
  | Some pp, Some sig =>
      if isCommitted__gg i then match PrePrepareMsg.readRequests pp with Ok rs => Some (sig, rs) | Err _ => None end else None
  | _, _ => None
  end.
Definition batchAt (w : t) (n : Z) : option (list Z * list Request) :=
  match mainGet (mainLog w) n with Ok i => ready i | Err _ => None end.

(** What the commit protocol gives: a committed item has its full proof and the message of
    its number and view, whose requests can be read; no request has number 0. *)
Record committed_ok (view n : Z) (i : I) (pp : MessageBase.t) (sig : list Z) (rs : list Request) : Prop := {
  co_proof : fullProof i = Some sig;
  co_length : 2 * Z.of_nat (length sig) <= maxReplyLength;
  co_seq : PrePrepareMsg.seqNumber pp = Ok n;
  co_view : PrePrepareMsg.viewNumber pp = Ok view;
  co_requests : PrePrepareMsg.readRequests pp = Ok rs;
  co_numbers : Forall (fun r => 0 < ClientRequestMsg.r_seqNum r < 2 ^ 64) rs;
}.
Definition entry_ok (view n : Z) (i : I) : Prop :=
  ∀ pp, getPrePrepareMsg i = Some pp → isCommitted__gg i = true → ∃ sig rs, committed_ok view n i pp sig rs.

(** A request in the queue of the primary: it fits into a batch and has a number. *)
Definition queued (m : MessageBase.t) : Prop := ∃ r,
  MessageBase.msgBody_ m = ClientRequestMsg.layout r ∧ MessageBase.msgSize_ m = ClientRequestMsg.reqSize r ∧ ClientRequestMsg.request_ok r ∧
  ClientRequestMsg.reqSize r <= maxExternalMessageSize - PrePrepareMsg.sizeof_PrePrepareMsgHeader ∧ ClientRequestMsg.r_client r ∈ clients ∧ 0 < ClientRequestMsg.r_seqNum r.

(** A checkpoint that this replica has not made. *)
Definition unmade (i : CheckpointInfo.t) : Prop :=
  CheckpointInfo.executed i = CheckpointInfo.MinTime ∧ CheckpointInfo.selfCheckpointMsg info i = None.

(** A complete certificate has the own message. *)
Definition closed (i : CheckpointInfo.t) : Prop :=
  CheckpointInfo.isCheckpointCertificateComplete i = true → is_Some (CheckpointInfo.selfCheckpointMsg info i).

(** Between handlers, with the replies [g] in the reserved pages. *)
Record inv (g : gmap Z (Z * list Z)) (w : t) : Prop := {
  inv_view : 0 <= curView w < 2 ^ 63;
  inv_stable : 0 <= lastStableSeqNum w ∧ lastStableSeqNum w mod checkpointWindowSize = 0;
  inv_executed : lastStableSeqNum w <= lastExecutedSeqNum w <= lastStableSeqNum w + kWorkWindowSize;
  inv_main : ActiveWindow.wf kWorkWindowSize 1 (mainLog w);
  inv_main_beg : ActiveWindow.beginningOfActiveWindow (mainLog w) = lastStableSeqNum w + 1;
  inv_cp : ActiveWindow.wf cpSize checkpointWindowSize (checkpointsLog w);
  inv_cp_beg : ActiveWindow.beginningOfActiveWindow (checkpointsLog w) = lastStableSeqNum w;
  inv_cp_time n i : lastExecutedSeqNum w < n → cpGet (checkpointsLog w) n = Ok i → unmade i;
  inv_cp_closed n i : cpGet (checkpointsLog w) n = Ok i → closed i;
  inv_table k m : tableOfStableCheckpoints w !! k = Some m → 0 <= k < ReplicasInfo._numberOfReplicas info;
  inv_log n i : lastExecutedSeqNum w < n → mainGet (mainLog w) n = Ok i → li_at (curView w) n i ∧ entry_ok (curView w) n i;
  inv_clients : ∃ p, ClientsManagerSpec.inv num size (ReplicasInfo._myId info) clients
    (ClientsManagerSpec.mkW (clientsManager w) (stateTransfer w) (ClientsManagerSpec.mkAbs g p));
  inv_st : st_ok (requestsHandler w) (lastExecutedSeqNum w / checkpointWindowSize) (stateTransfer w);
  inv_buffer : Z.of_nat (length (replyBuffer w)) = maxReplyLength;
  inv_controller : ct_ok (controller w);
  inv_queue : Forall queued (requestsQueueOfPrimary w);
  inv_primary : isCurrentPrimary info w = true → viewActive w = true → lastExecutedSeqNum w <= primaryLastUsedSeqNum w ∧
    ∀ n i, primaryLastUsedSeqNum w < n → mainGet (mainLog w) n = Ok i → getPrePrepareMsg i = None;
}.

(** What does not change outside execution. *)
Record quiet (w w' : t) : Prop := {
  q_view : curView w' = curView w ∧ viewActive w' = viewActive w;
  q_executed : lastExecutedSeqNum w' = lastExecutedSeqNum w;
  q_app : requestsHandler w' = requestsHandler w ∧ replyBuffer w' = replyBuffer w;
  q_batches n : lastExecutedSeqNum w' < n → batchAt w' n = batchAt w n;
}.

#[export] Instance quiet_preorder : PreOrder quiet.
Proof.
  split; [by intros w|]. intros w1 w2 w3 [[] ? [] Hb] [[] ? [] Hb']. constructor; [split; congruence|congruence|split; congruence|].
  intros n Hn. rewrite Hb' by done. apply Hb. lia.
Qed.
End inv.
End ReplicaExecutionSpec.
