(* ===== verification/ReplicaExecutionFacts.v ===== *)
(** * Execution of batches (ReplicaExecution.v, ReplicaExecutionSpec.v)

    Each operation of ReplicaExecution.v runs from a state with the invariant, keeps it and
    has its abstract effect. *)
From S2P Require Import Prelude SysConsts Digest ReplicasInfo ActiveWindow MsgsCertificate MessageBase Checkpoint ReservedPages Controller ClientReplyMsg ClientRequestMsg ClientsManager ClientsManagerSpec PrePrepareMsg PrePrepareMsgProps ReplicaExecution ReplicaExecutionSpec.

Module ReplicaExecutionFacts.
Import ReplicaExecution ReplicaExecutionSpec.
#[local] Abbreviation Request := ClientRequestMsg.Request.
#[local] Abbreviation r_client := ClientRequestMsg.r_client.
#[local] Abbreviation r_seqNum := ClientRequestMsg.r_seqNum.

(** ** Requests inside a message *)
Lemma get_bytes_drop b off o n : 0 <= off → 0 <= o → 0 <= n → is_ok (get_bytes b (off + o) n) = true →
  get_bytes (drop (Z.to_nat off) b) o n = get_bytes b (off + o) n.
Proof.
  intros Ho Ho' Hn He. unfold get_bytes, in_buf in *. rewrite length_drop.
  destruct ((0 <=? off + o) && (0 <=? n) && (off + o + n <=? Z.of_nat (length b))) eqn:E; [|done].
  bool_to_prop. rewrite !(proj2 (Z.leb_le _ _)) by lia. cbn [andb]. rewrite drop_drop. do 3 f_equal. lia.
Qed.

Lemma get_uint_drop k b off o x : 0 <= off → 0 <= o → get_uint k b (off + o) = Ok x → get_uint k (drop (Z.to_nat off) b) o = Ok x.
Proof.
  intros Ho Ho' He. unfold get_uint in *. destruct (get_bytes b (off + o) (Z.of_nat k)) as [bs|] eqn:E; [|done].
  by rewrite get_bytes_drop, E by (first [lia | by rewrite E]).
Qed.

(** The object the code makes for a request of a batch. *)
Lemma header_object bd off r : PrePrepareMsg.readRequest bd off = Ok r → 0 <= off →
  ∃ req, ClientRequestMsg.ctor_header bd off = Ok req ∧ ClientRequestMsg.clientProxyId req = Ok (r_client r) ∧
    ClientRequestMsg.isReadOnly req = Ok (ClientRequestMsg.r_readOnly r) ∧ ClientRequestMsg.requestSeqNum req = Ok (r_seqNum r) ∧
    ClientRequestMsg.requestBytes req = Ok (ClientRequestMsg.r_data r).
Proof.
  intros Hr Ho. unfold PrePrepareMsg.readRequest in Hr. apply bind_ok in Hr as (c & Hc & Hr). apply bind_ok in Hr as (f & Hf & Hr).
  apply bind_ok in Hr as (q & Hq & Hr). apply bind_ok in Hr as (l & Hl & Hr). apply bind_ok in Hr as (data & Hd & Hr). injection Hr as <-.
  unfold ClientRequestMsg.ctor_header, ClientRequestMsg.getRequestSizeTemp, ClientRequestMsg.compRequestMsgSize. rewrite Hc, Hl. cbn [mbind res_bind fmap res_fmap].
  eexists. split; [done|]. unfold ClientRequestMsg.clientProxyId, ClientRequestMsg.isReadOnly, ClientRequestMsg.requestSeqNum, ClientRequestMsg.requestBytes.
  cbn [MessageBase.ctor_body MessageBase.msgBody_ ClientRequestMsg.r_client ClientRequestMsg.r_readOnly ClientRequestMsg.r_seqNum ClientRequestMsg.r_data].
  unfold ClientRequestMsg.idOfClientProxy, ClientRequestMsg.flags, ClientRequestMsg.reqSeqNum, ClientRequestMsg.requestLength in *. rewrite !Z.add_0_l.
  split_and!; [by apply get_uint_drop| |by apply get_uint_drop|].
  - by rewrite (get_uint_drop 1 bd off 4 f).
  - rewrite (get_uint_drop 4 bd off 13 l) by done. cbn [mbind res_bind].
    assert (0 <= l) by (destruct (Z.ltb_spec l 0); [|done]; exfalso; unfold get_bytes, in_buf in Hd; rewrite (proj2 (Z.leb_gt 0 l)), andb_false_r in Hd by lia; done).
    rewrite get_bytes_drop; [done|lia|unfold ClientRequestMsg.sizeof_ClientRequestMsgHeader; lia|done|by rewrite Hd].
Qed.

Lemma iterate_nonneg m fuel : ∀ loc offs, PrePrepareMsg.iterate m fuel loc = Ok offs → 0 <= loc → Forall (fun o => 0 <= o) offs.
Proof.
  induction fuel as [|n IH]; intros loc offs Hi Hl; [done|]. cbn [PrePrepareMsg.iterate] in Hi. apply bind_ok in Hi as ([p loc'] & Hp & Hi). destruct p as [off|].
  - apply bind_ok in Hi as (l & Hl' & Hi). injection Hi as <-. unfold PrePrepareMsg.getAndGoToNext, PrePrepareMsg.getCurrent in Hp.
    apply bind_ok in Hp as (p & Hc & Hp). apply bind_ok in Hc as (e & _ & Hc). destruct p as [o|]; [|done]. destruct e; [done|]. injection Hc as <-.
    apply bind_ok in Hp as (l2 & Hg & Hp). injection Hp as <- <-. constructor; [done|]. eapply IH; [done|].
    unfold PrePrepareMsg.gotoNext in Hg. res_simpl. apply (wrap_range 32). lia.
  - by injection Hi as <-.
Qed.

Lemma length_atoh sig : length (atoh sig) = (2 * length sig)%nat.
Proof. induction sig as [|b sig IH]; [done|]. unfold atoh in *. rewrite bind_cons, length_app, IH. cbn. lia. Qed.

Lemma put_withProof sig buf : (2 * length sig <= length buf)%nat → put_bytes buf 0 (atoh sig) = Ok (withProof sig buf).
Proof.
  intros Hl. unfold put_bytes, withProof, in_buf. rewrite length_atoh. cbn [Z.leb Z.compare]. rewrite !(proj2 (Z.leb_le _ _)) by lia. cbn [andb].
  by rewrite Z2Nat.inj_0, take_0, Nat.add_0_l.
Qed.

Lemma length_withProof sig buf : (2 * length sig <= length buf)%nat → length (withProof sig buf) = length buf.
Proof. intros Hl. unfold withProof. rewrite length_app, length_atoh, length_drop. lia. Qed.

Section facts.
Context (info : ReplicasInfo.t) (Hinfo : ReplicasInfo.wf info) (H : list Z → Digest) (maxConcurrent : Z) (clients : list Z) (num size : Z).
Context {I Pr S A Ct : Type} {IF : ItemFuncs I} {LI : LogItem I Pr} {RP : ReservedPages S} {ST : StateTransfer A S} {CO : Controller Ct}.
Context {RPS : ReservedPagesSpec S num size} {LIS : LogItemSpec info I Pr} {STS : StateTransferSpec A S num size} {CTS : ControllerSpec info Ct}.
Context (execute : A → Z → Z → bool → list Z → Z → list Z → Z → A * Z * list Z * Z).
#[local] Abbreviation t := (@t I Pr S A Ct).
#[local] Abbreviation mainGet := (ActiveWindow.get kWorkWindowSize 1).
#[local] Abbreviation cpSize := (kWorkWindowSize + checkpointWindowSize).
#[local] Abbreviation cpGet := (ActiveWindow.get cpSize checkpointWindowSize).
#[local] Hint Extern 0 (ItemFuncs CheckpointInfo.t) => exact (CheckpointInfo.checkpoint_items info Hinfo) : typeclass_instances.
#[local] Abbreviation INV := (inv info Hinfo clients num size).
#[local] Abbreviation cinv w g p := (ClientsManagerSpec.inv num size (ReplicasInfo._myId info) clients
  (ClientsManagerSpec.mkW (clientsManager w) (stateTransfer w) (ClientsManagerSpec.mkAbs g p))).

(** The pages hold the replies of the clients. *)
Context (Hsize : ClientReplyMsg.sizeof_ClientReplyMsgHeader <= size) (Hclients : NoDup clients) (Hne : clients ≠ []).
Context (Hpages : Z.of_nat (length clients) * ClientsManagerSpec.per size <= num) (Hnum : num < 4294967296).

(** What the application promises: no error and a reply that fits the buffer. *)
Definition app_contract : Prop := ∀ a c n ro data buf len, Z.of_nat (length buf) = maxReplyLength → 0 <= len <= maxReplyLength →
  match execute a c n ro data maxReplyLength buf len with
  | (a', error, buf', len') => error = 0 ∧ 0 < len' <= maxReplyLength ∧ Z.of_nat (length buf') = maxReplyLength ∧ ∀ l s, st_ok a l s → st_ok a' l s
  end.
Context (Happ : app_contract).

Lemma foldM_keeps {X Y} (f : X → Y → res X) (P : X → Prop) l : (∀ x y x', P x → f x y = Ok x' → P x') → ∀ x x', P x → foldM f x l = Ok x' → P x'.
Proof.
  intros Hf. induction l as [|y l IH]; intros x x' Hx He; cbn [foldM] in He; [by injection He as <-|].
  apply bind_ok in He as (x1 & H1 & He). eauto.
Qed.

Lemma newReply_st now cm s c q primary reply len r cm' s' a l : st_ok a l s →
  ClientsManager.allocateNewReplyMsgAndWriteToStorage now cm s c q primary reply len = Ok (r, cm', s') → st_ok a l s'.
Proof.
  intros Hs He. unfold ClientsManager.allocateNewReplyMsgAndWriteToStorage in He. do 5 (apply bind_ok in He as (? & _ & He)).
  apply bind_ok in He as (s1 & Hp & He). do 2 (apply bind_ok in He as (? & _ & He)). injection He as _ _ <-.
  eapply (foldM_keeps _ (fun x => st_ok a l x)); [|done|done]. intros y i y' Hy Hw. unfold ClientsManager.writePage in Hw.
  apply bind_ok in Hw as (page & _ & Hw). apply (st_save a l) in Hw; [done|done|apply u32_range].
Qed.

(** What a request does not change. *)
Record same (w w' : t) : Prop := {
  same_view : curView w' = curView w ∧ viewActive w' = viewActive w;
  same_log : mainLog w' = mainLog w;
  same_numbers : lastExecutedSeqNum w' = lastExecutedSeqNum w ∧ lastStableSeqNum w' = lastStableSeqNum w;
}.
#[local] Instance same_preorder : PreOrder same.
Proof. split; [by intros w|]. intros w1 w2 w3 [[] ? []] [[] ? []]. by constructor; [split| |split]; congruence. Qed.

(** A state that stands for an abstract one. *)
Definition represents (w : t) (a : abs A) : Prop := INV (a_cache a) w ∧ requestsHandler w = a_app a ∧ replyBuffer w = a_buf a.

Lemma inv_outs g w o : INV g w → INV g (set_outs w o).
Proof. intros []. by constructor. Qed.

Lemma currentPrimary_range w g : INV g w → 0 <= currentPrimary info w < 65536.
Proof. intros Hi. destruct (inv_view _ _ _ _ _ _ _ Hi) as [Hv _]. pose proof (ReplicasInfo.primary_range info Hinfo (curView w) Hv). pose proof (ReplicasInfo.wf_i16 info Hinfo). unfold currentPrimary. lia. Qed.

Lemma executeNewRequest_runs now w a r req i sig : represents w a → r_client r ∈ clients →
  ClientsManagerSpec.lastOf (a_cache a !! r_client r) < r_seqNum r < 2 ^ 64 →
  mainGet (mainLog w) (lastExecutedSeqNum w + 1) = Ok i → fullProof i = Some sig → 2 * Z.of_nat (length sig) <= maxReplyLength →
  ClientRequestMsg.isReadOnly req = Ok (ClientRequestMsg.r_readOnly r) → ClientRequestMsg.requestBytes req = Ok (ClientRequestMsg.r_data r) →
  runs (executeNewRequest info execute now (r_client r) req (r_seqNum r)) w
    (fun _ w' => represents w' (serve clients execute (lastExecutedSeqNum w + 1) sig a r) ∧ same w w').
Proof.
  intros (Hi & Ha & Hb) Hc Hq Hit Hsig Hlen Hro Hdata. pose proof (inv_buffer _ _ _ _ _ _ _ Hi) as Hbuf.
  unfold executeNewRequest. rsteps. eapply runs_lift; [done|]. rstep. eapply runs_lift; [by rewrite Hsig|]. rstep.
  eapply runs_lift; [apply put_withProof; lia|]. rstep. eapply runs_lift; [done|]. rstep. eapply runs_lift; [done|].
  unfold serve, isNew. rewrite bool_decide_eq_true_2, (proj2 (Z.ltb_lt _ _)) by (done || lia). cbn [andb]. unfold callApp. rewrite <- Ha, <- Hb.
  pose proof (Happ (requestsHandler w) (r_client r) (lastExecutedSeqNum w + 1) (ClientRequestMsg.r_readOnly r) (ClientRequestMsg.r_data r)
    (withProof sig (replyBuffer w)) (2 * Z.of_nat (length sig))) as Hx.
  rewrite length_withProof in Hx by lia. specialize (Hx Hbuf ltac:(lia)). destruct (execute _ _ _ _ _ _ _ _) as [[[a' e] buf'] len]. destruct Hx as (-> & Hl & Hbl & Hst).
  rsteps. apply runs_check; [done|]. rstep. apply runs_check; [apply Z.ltb_lt; lia|]. rstep.
  destruct (inv_clients _ _ _ _ _ _ _ Hi) as [p Hcl]. set (reply := take (Z.to_nat len) buf').
  assert (Hrl : Z.of_nat (length reply) = len) by (unfold reply; rewrite length_take; lia).
  apply list_elem_of_lookup in Hc as Hk. destruct Hk as [k Hk].
  destruct (ClientsManagerSpec.newReply_ok num size (ReplicasInfo._myId info) clients Hsize Hclients Hpages Hnum _ k (r_client r) (r_seqNum r) (currentPrimary info w) reply
    (drop (Z.to_nat len) buf') now Hcl Hk) as (cm & s & He & Hcl'); [done|unfold maxReplyLength in Hl; lia|by eapply currentPrimary_range|by eapply (ClientsManagerSpec.lastOf_nonneg num size (ReplicasInfo._myId info) clients); [apply Hcl|apply Hk]|].
  cbn [ClientsManagerSpec.mgr ClientsManagerSpec.pgs ClientsManagerSpec.ghost ClientsManagerSpec.cache ClientsManagerSpec.pend] in He, Hcl'. unfold reply in He. rewrite take_drop in He. fold reply in He. rewrite Hrl in He.
  eapply runs_lift; [exact He|]. rsteps. rewrite (proj2 (Z.eqb_neq len 0)) by lia. cbn [negb]. rsteps.
  pose proof Hcl' as (Hwf & Hok & Hh). cbn in Hwf, Hok, Hh.
  destruct (ClientsManagerSpec.exec_inv num size (ReplicasInfo._myId info) clients Hsize Hclients Hpages Hnum _ (ClientsManagerSpec.RemovePending (r_client r)) Hne Hcl' Hc) as (w1 & Hex & Hcl2).
  unfold ClientsManagerSpec.exec in Hex. cbn [ClientsManagerSpec.step ClientsManagerSpec.mgr ClientsManagerSpec.pgs] in Hex.
  destruct (ClientsManager.removePendingRequestOfClient cm (r_client r)) as [cm'|] eqn:Hrm; [|done]. injection Hex as <-.
  eapply runs_lift; [done|]. rsteps. split; [|by constructor]. split; [|done].
  pose proof (newReply_st _ _ _ _ _ _ _ _ _ _ _ a' _ ltac:(by apply Hst, Hi) He) as Hst'.
  destruct Hi. constructor; cbn; try done; by eexists.
Qed.

Lemma sendLatestReply_runs w a c q reply : represents w a → c ∈ clients → a_cache a !! c = Some (q, reply) →
  runs (sendLatestReply info c) w (fun _ w' => represents w' a ∧ same w w').
Proof.
  intros (Hi & Ha & Hb) [k Hk]%list_elem_of_lookup Hq. destruct (inv_clients _ _ _ _ _ _ _ Hi) as [p Hcl]. unfold sendLatestReply. rsteps.
  eapply runs_lift.
  - apply (ClientsManagerSpec.latestReply_ok num size (ReplicasInfo._myId info) clients Hsize Hclients Hpages Hnum _ k c q reply (currentPrimary info w) Hcl Hk Hq).
    by eapply currentPrimary_range.
  - rsteps. split; [|by constructor]. split; [by apply inv_outs|done].
Qed.

Lemma executeRequest_runs now w a pp off r i sig : represents w a → PrePrepareMsg.readRequest (MessageBase.msgBody_ pp) off = Ok r → 0 <= off →
  0 < r_seqNum r < 2 ^ 64 → mainGet (mainLog w) (lastExecutedSeqNum w + 1) = Ok i → fullProof i = Some sig → 2 * Z.of_nat (length sig) <= maxReplyLength →
  runs (executeRequest info execute now pp off) w (fun _ w' => represents w' (serve clients execute (lastExecutedSeqNum w + 1) sig a r) ∧ same w w').
Proof.
  intros Hr Hread Hoff Hpos Hit Hsig Hlen. destruct (header_object _ _ _ Hread Hoff) as (req & Hctor & Hid & Hro & Hq & Hdata).
  unfold executeRequest. rsteps. eapply runs_lift; [done|]. rstep. eapply runs_lift; [done|]. rsteps.
  pose proof Hr as (Hi & _ & _). destruct (inv_clients _ _ _ _ _ _ _ Hi) as [p (Hwf & _ & _)]. cbn [ClientsManagerSpec.mgr ClientsManagerSpec.ghost ClientsManagerSpec.cache ClientsManagerSpec.pend] in Hwf.
  rewrite (ClientsManagerSpec.isValidClient_spec size (ReplicasInfo._myId info) clients Hclients _ _ _ (r_client r) Hwf).
  destruct (decide (r_client r ∈ clients)) as [Hin|Hout].
  2: { rewrite bool_decide_eq_false_2 by done. cbn [negb]. apply runs_ret. unfold serve, isNew. rewrite bool_decide_eq_false_2 by done. cbn [andb]. by split. }
  rewrite bool_decide_eq_true_2 by done. cbn [negb]. apply list_elem_of_lookup in Hin as Hk. destruct Hk as [k Hk]. rstep.
  eapply runs_lift; [by eapply ClientsManagerSpec.lastReply_spec|]. rstep. eapply runs_lift; [done|]. cbn beta.
  destruct (Z.leb_spec (r_seqNum r) (ClientsManagerSpec.lastOf (a_cache a !! r_client r))) as [Hle|Hgt].
  - unfold serve, isNew. rewrite bool_decide_eq_true_2, (proj2 (Z.ltb_ge _ _)) by done. cbn [andb].
    destruct (a_cache a !! r_client r) as [[q reply]|] eqn:Ec; cbn in Hle; [|lia]. by eapply sendLatestReply_runs.
  - eapply executeNewRequest_runs; [done|done|lia|done..].
Qed.

(** The loop over the requests of a batch. *)
Lemma executeLoop_runs now pp i sig : fullProof i = Some sig → 2 * Z.of_nat (length sig) <= maxReplyLength → ∀ fuel loc offs rs w a, represents w a →
  PrePrepareMsg.iterate pp fuel loc = Ok offs → Forall (fun o => 0 <= o) offs → PrePrepareMsg.readAll (MessageBase.msgBody_ pp) offs = Ok rs →
  Forall (fun r => 0 < r_seqNum r < 2 ^ 64) rs → mainGet (mainLog w) (lastExecutedSeqNum w + 1) = Ok i →
  runs (executeLoop info execute now pp fuel loc) w
    (fun _ w' => represents w' (serveBatch clients execute (lastExecutedSeqNum w + 1) a (sig, rs)) ∧ same w w').
Proof.
  intros Hsig Hlen. induction fuel as [|n IH]; intros loc offs rs w a Hr Hit Hoff Hread Hpos Hg; [done|]. cbn [executeLoop PrePrepareMsg.iterate] in *. rstep.
  apply bind_ok in Hit as ([p loc'] & Hp & Hit). eapply runs_lift; [done|]. cbn [fst snd]. destruct p as [off|].
  - apply bind_ok in Hit as (l & Hl & Hit). injection Hit as <-. inversion Hoff as [|? ? Ho Hoff']; subst. cbn [PrePrepareMsg.readAll] in Hread.
    apply bind_ok in Hread as (r & Hr1 & Hread). apply bind_ok in Hread as (rs' & Hr2 & Hread). injection Hread as <-.
    inversion Hpos as [|? ? Hq Hpos']; subst. rstep. eapply runs_mono; [by eapply executeRequest_runs|]. intros [] w1 [Hr1' Hs1]. cbv beta.
    pose proof Hs1 as [_ Hml [Hle _]]. eapply runs_mono; [eapply (IH loc' l rs' w1); [done|done|done|done|done|by rewrite Hml, Hle]|].
    intros [] w2 [Hr2' Hs2]. rewrite Hle in Hr2'. split; [done|by etrans].
  - injection Hit as <-. injection Hread as <-. apply runs_ret. by split.
Qed.
End facts.
End ReplicaExecutionFacts.

(** * The batches of the primary (ReplicaExecution.v)

    [tryToSendPrePrepareMsg] runs, keeps the invariant and changes nothing that execution
    depends on. *)
Module ReplicaExecutionPrimary.
Import ReplicaExecution ReplicaExecutionSpec.
#[local] Abbreviation Request := ClientRequestMsg.Request.
#[local] Abbreviation r_client := ClientRequestMsg.r_client.
#[local] Abbreviation r_seqNum := ClientRequestMsg.r_seqNum.
#[local] Abbreviation bsize rs := (Z.of_nat (length (PrePrepareMsgProps.batch rs))).

Section facts.
Context (info : ReplicasInfo.t) (Hinfo : ReplicasInfo.wf info) (H : list Z → Digest) (HH : ∀ x, length (H x) = 32%nat).
Context (maxConcurrent : Z) (Hmax : 0 <= maxConcurrent <= maxLegalConcurrentAgreementsByPrimary) (clients : list Z) (num size : Z).
Context {I Pr S A Ct : Type} {IF : ItemFuncs I} {LI : LogItem I Pr} {RP : ReservedPages S} {ST : StateTransfer A S} {CO : Controller Ct}.
Context {RPS : ReservedPagesSpec S num size} {LIS : LogItemSpec info I Pr} {STS : StateTransferSpec A S num size} {CTS : ControllerSpec info Ct}.
#[local] Abbreviation t := (@t I Pr S A Ct).
#[local] Abbreviation mainGet := (ActiveWindow.get kWorkWindowSize 1).
#[local] Hint Extern 0 (ItemFuncs CheckpointInfo.t) => exact (CheckpointInfo.checkpoint_items info Hinfo) : typeclass_instances.
#[local] Abbreviation INV := (inv info Hinfo clients num size).
#[local] Abbreviation cinv cm s g p := (ClientsManagerSpec.inv num size (ReplicasInfo._myId info) clients
  (ClientsManagerSpec.mkW cm s (ClientsManagerSpec.mkAbs g p))).
Context (Hsize : ClientReplyMsg.sizeof_ClientReplyMsgHeader <= size) (Hclients : NoDup clients) (Hne : clients ≠ []).
Context (Hpages : Z.of_nat (length clients) * ClientsManagerSpec.per size <= num) (Hnum : num < 4294967296).

(** ** The queue *)
Definition stands (m : MessageBase.t) (r : Request) : Prop :=
  MessageBase.msgBody_ m = ClientRequestMsg.layout r ∧ MessageBase.msgSize_ m = ClientRequestMsg.reqSize r ∧ ClientRequestMsg.request_ok r ∧
  ClientRequestMsg.reqSize r <= maxExternalMessageSize - PrePrepareMsg.sizeof_PrePrepareMsgHeader ∧ r_client r ∈ clients ∧ 0 < r_seqNum r.

Lemma stands_fields m r : stands m r → ClientRequestMsg.clientProxyId m = Ok (r_client r) ∧ ClientRequestMsg.requestSeqNum m = Ok (r_seqNum r).
Proof.
  intros (Hb & _ & Hok & _). destruct (ClientRequestMsg.image_fields r Hok) as (E1 & _ & E2 & _).
  unfold ClientRequestMsg.clientProxyId, ClientRequestMsg.requestSeqNum in *. rewrite Hb. done.
Qed.

(** The request can become the pending one of its client. *)
Definition eligible (g : gmap Z (Z * list Z)) (p : gmap Z (Z * Z)) (r : Request) : Prop :=
  p !! r_client r = None ∧ ClientsManagerSpec.lastOf (g !! r_client r) < r_seqNum r.
#[local] Instance eligible_dec g p r : Decision (eligible g p r).
Proof. apply _. Defined.

Lemma canBecome cm s g p r : cinv cm s g p → r_client r ∈ clients →
  ClientsManager.noPendingAndRequestCanBecomePending cm (r_client r) (r_seqNum r) = Ok (bool_decide (eligible g p r)).
Proof.
  intros (Hwf & _) [k Hk]%list_elem_of_lookup.
  by apply (ClientsManagerSpec.canBecomePending_spec size (ReplicasInfo._myId info) clients Hclients cm (fun c => g !! c) (fun c => p !! c) k).
Qed.

Lemma dropIrrelevant_ok cm s g p q : cinv cm s g p → Forall (queued clients) q →
  ∃ q', dropIrrelevant cm q = Ok q' ∧ Forall (queued clients) q' ∧ (∀ m q2, q' = m :: q2 → ∃ r, stands m r ∧ eligible g p r).
Proof.
  intros Hc. induction q as [|m q IH]; intros Hq; [by exists []|]. apply Forall_cons in Hq as [[r Hm] Hq]. cbn [dropIrrelevant].
  destruct (stands_fields m r Hm) as [-> ->]. cbn [mbind res_bind]. rewrite (canBecome _ _ _ _ _ Hc) by apply Hm. cbn [mbind res_bind].
  case_bool_decide as He; [|by apply IH]. exists (m :: q). split_and!; [done|constructor; [by exists r|done]|]. intros ? ? [= <- <-]. eauto.
Qed.

(** ** The batch *)

(** A request of a batch. *)
Definition good (r : Request) : Prop := ClientRequestMsg.request_ok r ∧ 0 < r_seqNum r.
Lemma good_ok rs : Forall good rs → Forall ClientRequestMsg.request_ok rs ∧ Forall (fun r => 0 < r_seqNum r < 2 ^ 64) rs.
Proof. intros Hrs. split; (eapply Forall_impl; [exact Hrs|]); intros r [(? & ? & ?) ?]; [done|lia]. Qed.

Lemma fillBatch_ok now sender v n path : path ≠ CP_NA → - 2 ^ 63 <= v < 2 ^ 63 → - 2 ^ 63 <= n < 2 ^ 63 → ∀ q cm s g p rs, cinv cm s g p →
  Forall (queued clients) q → Forall good rs → 58 + bsize rs <= maxExternalMessageSize →
  (∀ m q2, q = m :: q2 → rs = [] → ∃ r, stands m r ∧ eligible g p r) → (q = [] → rs ≠ []) →
  ∃ cm' p' rs' q', fillBatch now cm (PrePrepareMsgProps.partial sender v n path rs) q = Ok (cm', PrePrepareMsgProps.partial sender v n path rs', q') ∧
    cinv cm' s g p' ∧ Forall (queued clients) q' ∧ Forall good rs' ∧ rs' ≠ [] ∧ 58 + bsize rs' <= maxExternalMessageSize.
Proof.
  intros Hp Hv Hn. induction q as [|m q IH]; intros cm s g p rs Hc Hq Hrs Hb Hhead Hlast; cbn [fillBatch].
  { exists cm, p, rs, []. split_and!; auto. }
  apply Forall_cons in Hq as [[r Hm] Hq]. rewrite PrePrepareMsgProps.remaining_partial by done. cbn [mbind res_bind]. pose proof Hm as (Hbody & Hsz & Hrok & Hfit & Hcl & Hpos).
  destruct (Z.leb_spec (MessageBase.msgSize_ m) (maxExternalMessageSize - 58 - bsize rs)) as [Hle|Hgt].
  2: { exists cm, p, rs, (m :: q). split_and!; [done|done|constructor; [by exists r|done]|done| |done]. intros ->. cbn in Hgt. unfold PrePrepareMsg.sizeof_PrePrepareMsgHeader in Hfit. lia. }
  destruct (stands_fields m r Hm) as [-> ->]. cbn [mbind res_bind]. rewrite (canBecome _ _ _ _ _ Hc) by done. cbn [mbind res_bind]. rewrite Hbody, Hsz.
  case_bool_decide as He.
  - rewrite PrePrepareMsgProps.addRequest_partial by (done || lia). cbn [mbind res_bind].
    destruct (ClientsManagerSpec.exec_inv num size (ReplicasInfo._myId info) clients Hsize Hclients Hpages Hnum _ (ClientsManagerSpec.AddPending (r_client r) (r_seqNum r) now) Hne Hc) as (w1 & Hex & Hc1);
      [by split_and!; [|apply He..]|].
    unfold ClientsManagerSpec.exec in Hex. cbn [ClientsManagerSpec.step ClientsManagerSpec.mgr ClientsManagerSpec.pgs] in Hex.
    destruct (ClientsManager.addPendingRequest now cm (r_client r) (r_seqNum r)) as [cm1|]; [|done]. injection Hex as <-. cbn [mbind res_bind].
    apply (IH _ _ _ _ _ Hc1 Hq).
    + apply Forall_app; split; [done|]. by constructor; [split|].
    + rewrite PrePrepareMsgProps.batch_app, length_app. cbn [PrePrepareMsgProps.batch]. rewrite PrePrepareMsgProps.batch_cons, app_nil_r. pose proof (ClientRequestMsg.length_request r). lia.
    + intros ? ? _ Hnil. by destruct rs.
    + intros _. by destruct rs.
  - cbn [mbind res_bind]. assert (rs ≠ []) as Hrne.
    { intros ->. destruct (Hhead m q eq_refl eq_refl) as (r' & (Hb' & _ & Hok' & _) & He'). destruct He. destruct (ClientRequestMsg.image_fields r Hrok) as (E1 & _ & E2 & _), (ClientRequestMsg.image_fields r' Hok') as (E1' & _ & E2' & _).
      unfold ClientRequestMsg.clientProxyId, ClientRequestMsg.requestSeqNum, ClientRequestMsg.image in *. cbn [MessageBase.msgBody_] in *. rewrite <- Hbody, Hb' in E1, E2.
      assert (Hc' : r_client r = r_client r') by congruence. assert (Hs' : r_seqNum r = r_seqNum r') by congruence. unfold eligible in *. by rewrite Hc', Hs'. }
    apply (IH _ _ _ _ _ Hc Hq Hrs Hb); [intros; done|done].
Qed.

(** ** Sending *)

(** What sending a batch changes: the queue, the log at one number without a message, the pending requests. *)
Record sent (w w' : t) : Prop := {
  sent_quiet : quiet w w';
  sent_stable : lastStableSeqNum w' = lastStableSeqNum w;
  sent_cp : checkpointsLog w' = checkpointsLog w;
}.
Lemma sent_refl w : sent w w.
Proof. constructor; [reflexivity|done|done]. Qed.
Lemma sent_trans w1 w2 w3 : sent w1 w2 → sent w2 w3 → sent w1 w3.
Proof. intros [? ? ?] [? ? ?]. constructor; [by etrans|congruence|congruence]. Qed.

(** The invariant does not depend on the variables of the batching heuristic and on the outputs. *)
Lemma inv_batching g w b m : INV g w → INV g (set_maxNumberOfPendingRequestsInRecentHistory (set_batchingFactor w b) m).
Proof. intros []. by constructor. Qed.

Lemma sendNext_inv g w i' l n ct cm q p o b m : INV g w → isCurrentPrimary info w = true → n = primaryLastUsedSeqNum w + 1 →
  lastExecutedSeqNum w < n → (∃ i, mainGet (mainLog w) n = Ok i) → item_wf i' → li_at (curView w) n i' → isCommitted__gg i' = false → ct_ok ct →
  cinv cm (stateTransfer w) g p → Forall (queued clients) q →
  ActiveWindow.modify kWorkWindowSize 1 (mainLog w) n (fun _ => i') = Ok l →
  let w' := set_outs (set_mainLog (set_requestsQueueOfPrimary (set_clientsManager (set_controller
    (set_maxNumberOfPendingRequestsInRecentHistory (set_batchingFactor (set_primaryLastUsedSeqNum w n) b) m) ct) cm) q) l) o in
  viewActive w = true → INV g w' ∧ sent w w'.
Proof.
  intros Hi Hp Hn Hle [i Hg] Hwi Hat Hci Hct Hcm Hq Hm w' Hact. pose proof Hi as [].
  destruct (ActiveWindow.get_inside _ _ _ _ _ inv_main0 Hg) as (Hal & Hin & Hiw).
  destruct (ActiveWindow.modify_const kWorkWindowSize 1 (mainLog w) n i' inv_main0 Hal Hin Hwi) as (l' & Hm' & Hwf' & Hb' & Hget). assert (l' = l) as -> by congruence.
  destruct (inv_primary0 Hp Hact) as [Hple Hnone].
  split; [|constructor; [|done|done]].
  - constructor; cbn; try done.
    + by rewrite Hb'.
    + intros k j Hk. rewrite Hget. case_decide as Hd; [|by apply inv_log0]. intros [= <-]. split; [by rewrite Hd|]. intros pp Hpp Hcom. congruence.
    + eauto.
    + intros _ _. split; [lia|]. intros k j Hk. rewrite Hget. case_decide; [lia|]. apply Hnone. lia.
  - constructor; [done|done|done|]. intros k Hk. cbn in Hk. unfold batchAt. cbn. rewrite Hget. case_decide as Hd; [|done]. subst k. rewrite Hg. unfold ready.
    rewrite (Hnone n i) by (done || lia). rewrite Hci. by destruct (getPrePrepareMsg i'), (fullProof i').
Qed.

Lemma sendNextPrePrepare_runs now g w p : INV g w → cinv (clientsManager w) (stateTransfer w) g p → isCurrentPrimary info w = true → viewActive w = true →
  (∃ m q2, requestsQueueOfPrimary w = m :: q2 ∧ ∃ r, stands m r ∧ eligible g p r) → primaryLastUsedSeqNum w + 1 <= lastStableSeqNum w + kWorkWindowSize →
  primaryLastUsedSeqNum w + 1 <= lastExecutedSeqNum w + maxConcurrent → lastExecutedSeqNum w + kWorkWindowSize < 2 ^ 63 →
  runs (sendNextPrePrepare info H now) w (fun _ w' => INV g w' ∧ sent w w').
Proof.
  intros Hi Hc Hp Hact (m & q2 & Hq & r & Hst & Hel) Hwin Hcon Hbound. pose proof Hi as []. destruct (inv_primary0 Hp Hact) as [Hple Hnone].
  set (n := primaryLastUsedSeqNum w + 1). unfold maxLegalConcurrentAgreementsByPrimary, MaxConcurrentFastPaths, kWorkWindowSize, checkpointWindowSize in *.
  unfold sendNextPrePrepare. rsteps. match goal with |- runs _ ?x _ => set (w0 := x) end.
  assert (∃ b mx, w0 = set_maxNumberOfPendingRequestsInRecentHistory (set_batchingFactor (set_primaryLastUsedSeqNum w n) b) mx) as (b & mx & Hw0).
  { unfold w0. case_match; [by do 2 eexists|]. exists (batchingFactor w), (maxNumberOfPendingRequestsInRecentHistory w). by destruct w. }
  clearbody w0. subst w0. cbn. apply runs_check; [apply Z.leb_le; unfold MaxConcurrentFastPaths; lia|]. rstep.
  destruct (ct_path (controller w) inv_controller0) as [Hpath Hpath0]. apply runs_check.
  { destruct (Z.eqb_spec (ReplicasInfo._cVal info) 0) as [E|]; [|done]. cbn [negb orb]. by rewrite bool_decide_eq_false_2 by auto. }
  rstep. destruct (ct_sending now (controller w) n (getCurrentFirstPath (controller w)) inv_controller0 ltac:(lia)) as (ct & Hct & Hctok).
  eapply runs_lift; [exact Hct|]. rsteps. eapply runs_lift; [by apply PrePrepareMsgProps.ctor_partial|]. rstep.
  destruct (fillBatch_ok now (ReplicasInfo._myId info) (curView w) n (getCurrentFirstPath (controller w)) Hpath ltac:(lia) ltac:(lia) (requestsQueueOfPrimary w)
    (clientsManager w) (stateTransfer w) g p [] Hc inv_queue0) as (cm & p' & rs & q' & Hfill & Hc' & Hq' & Hgood & Hrne & Hbs); [done|done|rewrite Hq; intros ? ? [= <- <-] _; eauto|by rewrite Hq|].
  destruct (good_ok rs Hgood) as [Hrs Hnum0]. eapply runs_lift; [exact Hfill|]. rsteps. eapply runs_lift; [apply PrePrepareMsgProps.finish_partial; (done || lia)|]. rstep.
  destruct (PrePrepareMsgProps.finished_number H (ReplicasInfo._myId info) (curView w) n (getCurrentFirstPath (controller w)) rs HH Hpath ltac:(lia) ltac:(lia) Hrs Hrne Hbs) as (Hv & Hsq & Hk).
  destruct (PrePrepareMsgProps.finished_reads H (ReplicasInfo._myId info) (curView w) n (getCurrentFirstPath (controller w)) rs HH Hpath ltac:(lia) ltac:(lia) Hrs Hrne Hbs) as (_ & _ & Hfp & Hdg & Hrd & _).
  eapply runs_lift; [exact Hk|]. rstep. apply runs_check; [apply Z.ltb_lt; destruct rs; [done|cbn; lia]|]. rstep.
  assert (Hin : ActiveWindow.insideActiveWindow 300 (mainLog w) n = true) by (unfold ActiveWindow.insideActiveWindow; rewrite inv_main_beg0; apply andb_true_iff; split; [apply Z.leb_le|apply Z.ltb_lt]; lia).
  assert (Hal : ActiveWindow.aligned 1 n) by (split; [lia|apply Z.mod_1_r]).
  destruct (ActiveWindow.get_ok 300 1 (mainLog w) n inv_main0 Hal Hin) as (i & Hg & _ & Hwi). eapply runs_lift; [exact Hg|]. rstep.
  assert (Hprim : ReplicasInfo.primaryOfView info (curView w) = ReplicasInfo._myId info) by (unfold isCurrentPrimary, currentPrimary in Hp; lia).
  destruct (li_sends now (lastExecutedSeqNum w) i (PrePrepareMsgProps.finished H (ReplicasInfo._myId info) (curView w) n (getCurrentFirstPath (controller w)) rs) (curView w) n _ _ Hwi
    ltac:(apply inv_log0; [lia|done]) ltac:(apply (Hnone n); [lia|done]) Hv Hsq Hfp Hdg ltac:(intros Hft Hc0; by apply Hpath0) ltac:(by exists rs) Hprim) as (i' & outs' & Hs & Hwi' & Hat & Hci). eapply runs_lift; [exact Hs|]. rstep. cbn [fst snd].
  destruct (ActiveWindow.modify_const 300 1 (mainLog w) n i' inv_main0 Hal Hin Hwi') as (l & Hm & _). eapply runs_lift; [exact Hm|]. rsteps.
  eapply (sendNext_inv g w i' l n ct cm q' p'); try done; [lia|eauto].
Qed.

Lemma tryToSend_runs now batching g w : INV g w → isCurrentPrimary info w = true → viewActive w = true → lastExecutedSeqNum w + kWorkWindowSize < 2 ^ 63 →
  runs (tryToSendPrePrepareMsg info H maxConcurrent now batching) w (fun _ w' => INV g w' ∧ sent w w').
Proof.
  intros Hi Hp Hact Hbound. pose proof Hi as []. destruct inv_clients0 as [p Hc]. unfold tryToSendPrePrepareMsg. rsteps.
  apply runs_check; [unfold currentViewIsActive; by rewrite Hp, Hact|].
  apply runs_if; [intros _; apply runs_ret; split; [done|apply sent_refl]|intros Hwin%Z.ltb_ge].
  apply runs_if; [intros _; apply runs_ret; split; [done|apply sent_refl]|intros Hcon%Z.ltb_ge].
  destruct (requestsQueueOfPrimary w) as [|m0 q0] eqn:Eq; [apply runs_ret; split; [done|apply sent_refl]|]. rewrite <- Eq in *. rstep.
  destruct (dropIrrelevant_ok _ _ _ _ _ Hc inv_queue0) as (q & Hd & Hq & Hhead). eapply runs_lift; [exact Hd|]. rsteps.
  set (w1 := set_requestsQueueOfPrimary w q). assert (Hi1 : INV g w1 ∧ sent w w1) by (split; [by destruct Hi; constructor|constructor; [by constructor|done|done]]).
  apply runs_if; [intros _; by apply runs_ret|intros Hlen%Z.eqb_neq]. rstep. destruct (inv_primary0 Hp Hact) as [Hple _].
  apply runs_check; [by apply Z.leb_le|]. rsteps. match goal with |- runs _ ?x _ => set (w2 := x) end.
  assert (∃ mx, w2 = set_maxNumberOfPendingRequestsInRecentHistory w1 mx) as (mx & Hw2).
  { unfold w2. case_match; [by eexists|]. exists (maxNumberOfPendingRequestsInRecentHistory w1). by destruct w. }
  clearbody w2. destruct Hi1 as [Hi1 Hs1]. assert (Hi2 : INV g w2 ∧ sent w w2) by (subst w2; destruct Hi1; split; [by constructor|constructor; [by constructor|done|done]]).
  apply runs_if; [intros _; by apply runs_ret|intros _]. destruct Hi2 as [Hi2 Hs2].
  eapply runs_mono; [apply (sendNextPrePrepare_runs now g w2 p Hi2)|]; subst w2; try done.
  - destruct q as [|m q2]; [done|]. destruct (Hhead m q2 eq_refl) as (r & Hr & He). exists m, q2. split; [done|]. eauto.
  - intros [] w3 [Hi3 Hs3]. split; [done|]. by eapply sent_trans.
Qed.
End facts.
End ReplicaExecutionPrimary.

(** * Stable checkpoints (ReplicaExecution.v)

    Marking a checkpoint as stable, making the own checkpoint message and sending it run,
    keep the invariant and change nothing that execution depends on. *)
Module ReplicaExecutionStable.
Import ReplicaExecution ReplicaExecutionSpec.

Section facts.
Context (info : ReplicasInfo.t) (Hinfo : ReplicasInfo.wf info) (H : list Z → Digest) (HH : ∀ x, length (H x) = 32%nat).
Context (maxConcurrent : Z) (Hmax : 0 <= maxConcurrent <= maxLegalConcurrentAgreementsByPrimary) (clients : list Z) (num size : Z).
Context {I Pr S A Ct : Type} {IF : ItemFuncs I} {LI : LogItem I Pr} {RP : ReservedPages S} {ST : StateTransfer A S} {CO : Controller Ct}.
Context {RPS : ReservedPagesSpec S num size} {LIS : LogItemSpec info I Pr} {STS : StateTransferSpec A S num size} {CTS : ControllerSpec info Ct}.
#[local] Abbreviation t := (@t I Pr S A Ct).
#[local] Abbreviation mainGet := (ActiveWindow.get kWorkWindowSize 1).
#[local] Abbreviation cpSize := (kWorkWindowSize + checkpointWindowSize).
#[local] Abbreviation cpGet := (ActiveWindow.get cpSize checkpointWindowSize).
#[local] Hint Extern 0 (ItemFuncs CheckpointInfo.t) => exact (CheckpointInfo.checkpoint_items info Hinfo) : typeclass_instances.
#[local] Abbreviation INV := (inv info Hinfo clients num size).
#[local] Abbreviation good := (CheckpointInfo.good info).
#[local] Abbreviation self := (CheckpointInfo.selfCheckpointMsg info).
#[local] Abbreviation time := CheckpointInfo.executed.
Context (Hsize : ClientReplyMsg.sizeof_ClientReplyMsgHeader <= size) (Hclients : NoDup clients) (Hne : clients ≠ []).
Context (Hpages : Z.of_nat (length clients) * ClientsManagerSpec.per size <= num) (Hnum : num < 4294967296).

(** ** Items of the checkpoint window *)
Lemma addSelf_ok m i : good i → ∃ i', addSelfCheckpoint info m i = Ok i' ∧ good i' ∧ is_Some (self i') ∧ time i' = time i.
Proof.
  intros Hg. pose proof (ReplicasInfo.wf_my info Hinfo) as Hmy.
  destruct (CheckpointInfo.exec_good info Hinfo i (CheckpointInfo.Add m (ReplicasInfo._myId info)) Hg Hmy) as (i' & He & Hg' & _).
  exists i'. unfold addSelfCheckpoint. unfold CheckpointInfo.exec in He. split_and!; [done|done| |].
  - unfold CheckpointInfo.addCheckpointMsg in He. apply bind_ok in He as ([b j] & He & Hj). injection Hj as <-.
    apply bind_ok in He as ([b' c] & He & Hj). injection Hj as <- <-. unfold CheckpointInfo.selfCheckpointMsg, MsgsCertificate.selfMsg. cbn [CheckpointInfo.checkpointCertificate].
    destruct Hg as [_ Hc]. destruct (CheckpointInfo.isCheckpointCertificateComplete i) eqn:Ec.
    + unfold MsgsCertificate.addMsg in He. destruct (MsgsCertificate.hasMsgFromReplica _ _) eqn:Eh.
      * injection He as _ <-. unfold MsgsCertificate.hasMsgFromReplica in Eh. by apply bool_decide_eq_true in Eh.
      * unfold CheckpointInfo.isCheckpointCertificateComplete, MsgsCertificate.isComplete in Ec. cbn [MsgsCertificate.complete] in He. rewrite Ec in He. injection He as _ <-. cbn.
        by rewrite lookup_insert_eq.
    + destruct (MsgsCertificate.addMsg_inv CheckpointInfo.equivalent true true (CheckpointInfo.cert_config info) (CheckpointInfo.cert_cfg_ok info Hinfo) _ m (ReplicasInfo._myId info) (Hc eq_refl) Hmy) as (b2 & c2 & He2 & _ & Hmsgs & _).
      rewrite He2 in He. injection He as _ <-. rewrite Hmsgs. cbn. case_decide as Hd; [done|by rewrite lookup_insert_eq].
  - unfold CheckpointInfo.addCheckpointMsg in He. apply bind_ok in He as ([b j] & He & Hj). injection Hj as <-. apply bind_ok in He as ([b' c] & _ & Hj). by injection Hj as <- <-.
Qed.

(** A certificate with the own message can be marked complete. *)
Lemma mark_ok i : CheckpointInfo.wf info i → is_Some (self i) →
  let i' := CheckpointInfo.tryToMarkCheckpointCertificateCompleted info i in
  CheckpointInfo.isCheckpointCertificateComplete i' = true ∧ good i' ∧ self i' = self i ∧ time i' = time i.
Proof.
  intros Hw Hs. unfold CheckpointInfo.tryToMarkCheckpointCertificateCompleted, MsgsCertificate.tryToMarkComplete, MsgsCertificate.hasMsgFromReplica.
  unfold CheckpointInfo.selfCheckpointMsg, MsgsCertificate.selfMsg in Hs. rewrite (bool_decide_eq_true_2 _ Hs). cbn [negb orb]. split_and!; try done. split; [|done]. destruct Hw. by constructor.
Qed.

Lemma setStable_ok i : good i → is_Some (self i) →
  let i' := setSelfStateAsStable info i in CheckpointInfo.wf info i' ∧ is_Some (self i') ∧ time i' = time i.
Proof.
  intros [[Hl Hn He] _] [m Hs]. unfold setSelfStateAsStable. split_and!; [|cbn|done].
  - constructor; cbn; [done|done|]. intros Hemp. apply He. apply map_eq. intros k. rewrite lookup_empty. apply (f_equal (.!! k)) in Hemp.
    rewrite lookup_empty in Hemp. destruct (decide (k = ReplicasInfo._myId info)) as [->|Hk]; [rewrite lookup_alter_eq in Hemp|by rewrite lookup_alter_ne in Hemp].
    by apply fmap_None in Hemp.
  - unfold CheckpointInfo.selfCheckpointMsg, MsgsCertificate.selfMsg in *. cbn in *. rewrite lookup_alter_eq, Hs. by eexists.
Qed.

(** The item of a number of the window. *)
Lemma cp_item g w n : INV g w → lastStableSeqNum w <= n < lastStableSeqNum w + cpSize → n mod checkpointWindowSize = 0 →
  ActiveWindow.aligned checkpointWindowSize n ∧ ActiveWindow.insideActiveWindow cpSize (checkpointsLog w) n = true ∧
  ∃ i, cpGet (checkpointsLog w) n = Ok i ∧ good i ∧ closed info i.
Proof.
  intros Hi Hn Hm. destruct Hi. assert (Hal : ActiveWindow.aligned checkpointWindowSize n) by (split; [lia|done]).
  assert (Hin : ActiveWindow.insideActiveWindow cpSize (checkpointsLog w) n = true).
  { unfold ActiveWindow.insideActiveWindow. rewrite inv_cp_beg0. apply andb_true_iff. split; [apply Z.leb_le|apply Z.ltb_lt]; lia. }
  destruct (ActiveWindow.get_ok _ _ _ _ inv_cp0 Hal Hin) as (i & Hg & _ & Hw). split_and!; [done|done|]. exists i. split_and!; [done|done|by eapply inv_cp_closed0].
Qed.

Definition cp_changed (w w' : t) (n : Z) (i : CheckpointInfo.t) : Prop :=
  ∀ m, cpGet (checkpointsLog w') m = if decide (m = n) then Ok i else cpGet (checkpointsLog w) m.

Lemma writeCheckpoint_runs g w n i : INV g w → lastStableSeqNum w <= n < lastStableSeqNum w + cpSize → n mod checkpointWindowSize = 0 → good i → closed info i →
  (n <= lastExecutedSeqNum w ∨ unmade info i) →
  runs (writeCheckpoint n i) w (fun _ w' => INV g w' ∧ quiet w w' ∧ lastStableSeqNum w' = lastStableSeqNum w ∧ cp_changed w w' n i).
Proof.
  intros Hi Hn Hm Hg Hclo Ht. destruct (cp_item g w n Hi Hn Hm) as (Hal & Hin & _). pose proof (inv_cp _ _ _ _ _ _ _ Hi) as Hwf.
  destruct (ActiveWindow.modify_const cpSize checkpointWindowSize (checkpointsLog w) n i Hwf Hal Hin Hg) as (l & Hl & Hwf' & Hb & Hget).
  unfold writeCheckpoint. rsteps. eapply runs_lift; [exact Hl|]. rsteps. split_and!; [|by constructor|done|exact Hget].
  destruct Hi. constructor; cbn; try done; [by rewrite Hb| |].
  - intros m j Hmn. rewrite Hget. case_decide; [|by apply inv_cp_time0]. intros [= <-]. destruct Ht; [lia|done].
  - intros m j. rewrite Hget. case_decide; [by intros [= <-]|apply inv_cp_closed0].
Qed.

Lemma updateCheckpoint_runs g w n f i i' : INV g w → lastStableSeqNum w <= n < lastStableSeqNum w + cpSize → n mod checkpointWindowSize = 0 →
  cpGet (checkpointsLog w) n = Ok i → f i = Ok i' → good i' → closed info i' → (n <= lastExecutedSeqNum w ∨ unmade info i') →
  runs (updateCheckpoint n f) w (fun _ w' => INV g w' ∧ quiet w w' ∧ lastStableSeqNum w' = lastStableSeqNum w ∧ cp_changed w w' n i').
Proof.
  intros Hi Hn Hm Hg Hf Hok Hclo Ht. unfold updateCheckpoint. rsteps. eapply runs_lift; [exact Hg|]. rstep. eapply runs_lift; [exact Hf|]. by apply writeCheckpoint_runs.
Qed.

(** ** Moving the windows *)
Lemma empty_unmade i : CheckpointInfo.empty i → unmade info i.
Proof. intros []. split; [done|]. unfold CheckpointInfo.selfCheckpointMsg, MsgsCertificate.selfMsg. by rewrite em_msgs. Qed.
Definition cp_times (w w' : t) : Prop := ∀ m i', cpGet (checkpointsLog w') m = Ok i' →
  time i' = CheckpointInfo.MinTime ∨ ∃ i, cpGet (checkpointsLog w) m = Ok i ∧ time i' = time i.

Lemma cp_times_trans w1 w2 w3 : cp_times w1 w2 → cp_times w2 w3 → cp_times w1 w3.
Proof. intros H1 H2 m i' Hg. destruct (H2 m i' Hg) as [->|(i & Hg2 & ->)]; [by left|]. by apply H1. Qed.

(** The state after the windows moved to [n]. *)
Definition moved (w : t) (n used : Z) (l : ActiveWindow.t I) (c : ActiveWindow.t CheckpointInfo.t) (s : S) (sb : Z) : t :=
  set_stateTransfer (set_checkpointsLog (set_mainLog (set_primaryLastUsedSeqNum (set_strictLowerBoundOfSeqNums (set_lastStableSeqNum w n) sb) used) l) c) s.

Lemma moved_inv g w n used l c s sb : INV g w → lastStableSeqNum w < n <= lastExecutedSeqNum w → n mod checkpointWindowSize = 0 →
  primaryLastUsedSeqNum w <= used → 
  ActiveWindow.advanceActiveWindow kWorkWindowSize 1 (mainLog w) (n + 1) = Ok l →
  ActiveWindow.advanceActiveWindow cpSize checkpointWindowSize (checkpointsLog w) n = Ok c →
  st_ok (requestsHandler w) (lastExecutedSeqNum w / checkpointWindowSize) s → (∀ id, 0 <= id < num → rp_page s id = rp_page (stateTransfer w) id) →
  let w' := moved w n used l c s sb in
  INV g w' ∧ quiet w w' ∧ cp_times w w' ∧ ∀ m i, n <= m → cpGet (checkpointsLog w) m = Ok i → cpGet (checkpointsLog w') m = Ok i.
Proof.
  intros Hi Hn Hm Hu Hl Hc Hs Hpg w'. pose proof Hi as []. unfold kWorkWindowSize, checkpointWindowSize in *.
  destruct (ActiveWindow.advance_spec 300 1 (mainLog w) (n + 1) inv_main0) as (l' & Hl' & Hwf & Hb & Hget); [split; [lia|apply Z.mod_1_r]|lia|]. assert (l' = l) as -> by congruence.
  destruct (ActiveWindow.advance_spec (300 + 150) 150 (checkpointsLog w) n inv_cp0) as (c' & Hc' & Hwfc & Hbc & Hgetc); [split; [lia|done]|lia|]. assert (c' = c) as -> by congruence.
  (* an item of the new windows is an old one or empty *)
  assert (Hmain : ∀ m i, ActiveWindow.get 300 1 l m = Ok i → ActiveWindow.get 300 1 (mainLog w) m = Ok i ∨ item_empty i ∧ lastStableSeqNum w + 300 < m).
  { intros m i Hg. destruct (ActiveWindow.get_inside _ _ _ _ _ Hwf Hg) as (Hal & Hin & _). specialize (Hget m Hal Hin).
    destruct (ActiveWindow.insideActiveWindow 300 (mainLog w) m) eqn:E; [left; congruence|right]. destruct Hget as (x & Hx & He). assert (x = i) as -> by congruence. split; [done|].
    unfold ActiveWindow.insideActiveWindow in Hin, E. rewrite Hb in Hin. rewrite inv_main_beg0 in E. bool_to_prop. apply andb_false_iff in E as [E|E]; bool_to_prop; lia. }
  assert (Hcp : ∀ m i, ActiveWindow.get (300 + 150) 150 c m = Ok i → ActiveWindow.get (300 + 150) 150 (checkpointsLog w) m = Ok i ∨ CheckpointInfo.empty i).
  { intros m i Hg. destruct (ActiveWindow.get_inside _ _ _ _ _ Hwfc Hg) as (Hal & Hin & _). specialize (Hgetc m Hal Hin).
    destruct (ActiveWindow.insideActiveWindow (300 + 150) (checkpointsLog w) m) eqn:E; [left; congruence|right]. destruct Hgetc as (x & Hx & He). assert (x = i) as -> by congruence. done. }
  split_and!.
  - constructor; cbn; try done.
    + split; [lia|done].
    + unfold kWorkWindowSize. lia.
    + intros m i Hlt Hg. destruct (Hcp m i Hg) as [Ho|He]; [by eapply inv_cp_time0|by apply empty_unmade].
    + intros m i Hg. destruct (Hcp m i Hg) as [Ho|[]]; [by eapply inv_cp_closed0|]. intros Hco. unfold CheckpointInfo.isCheckpointCertificateComplete, MsgsCertificate.isComplete in Hco. congruence.
    + intros m i Hlt Hg. destruct (Hmain m i Hg) as [Ho|[He _]]; [by eapply inv_log0|]. split; [|intros pp Hpp; by rewrite (li_empty i He) in Hpp].
      apply li_fresh; [by apply (ActiveWindow.get_inside _ _ _ _ _ Hwf Hg)|done|lia].
    + destruct inv_clients0 as [p Hcl]. exists p. eapply (ClientsManagerSpec.inv_pages num size (ReplicasInfo._myId info) clients Hsize Hpages Hnum); [|by eapply st_pages|exact Hcl]. intros id Hid. by rewrite Hpg.
    + intros Hp Ha. destruct (inv_primary0 Hp Ha) as [Hple Hnone]. split; [lia|]. intros m i Hlt Hg. destruct (Hmain m i Hg) as [Ho|[He _]]; [apply (Hnone m); [lia|done]|by apply li_empty].
  - constructor; [done|done|done|]. intros m Hlt. cbn in Hlt. unfold batchAt, kWorkWindowSize. change (mainLog w') with l.
    destruct (ActiveWindow.get 300 1 l m) as [i|e] eqn:Eg.
    + destruct (Hmain m i Eg) as [Ho|[He Hbig]]; [by rewrite Ho|]. unfold ready. rewrite (li_empty i He). rewrite ActiveWindow.get_outside; [done|].
      left. unfold ActiveWindow.insideActiveWindow. rewrite inv_main_beg0. apply andb_false_iff. right. apply Z.ltb_ge. lia.
    + destruct (ActiveWindow.get 300 1 (mainLog w) m) as [j|] eqn:Ej; [|done]. exfalso. destruct (ActiveWindow.get_inside _ _ _ _ _ inv_main0 Ej) as (Hal & Hin & _).
      assert (Hin' : ActiveWindow.insideActiveWindow 300 l m = true).
      { unfold ActiveWindow.insideActiveWindow in *. rewrite Hb. rewrite inv_main_beg0 in Hin. bool_to_prop. apply andb_true_iff. split; [apply Z.leb_le|apply Z.ltb_lt]; lia. }
      specialize (Hget m Hal Hin'). rewrite Hin in Hget. congruence.
  - intros m i Hg. destruct (Hcp m i Hg) as [Ho|[]]; [right; eauto|by left].
  - intros m i Hle Hg. cbn. destruct (ActiveWindow.get_inside _ _ _ _ _ inv_cp0 Hg) as (Hal & Hin & _).
    assert (Hin' : ActiveWindow.insideActiveWindow (300 + 150) c m = true).
    { unfold ActiveWindow.insideActiveWindow in *. rewrite Hbc. rewrite inv_cp_beg0 in Hin. bool_to_prop. apply andb_true_iff. split; [apply Z.leb_le|apply Z.ltb_lt]; lia. }
    specialize (Hgetc m Hal Hin'). unfold kWorkWindowSize, checkpointWindowSize in *. rewrite Hin in Hgetc. congruence.
Qed.

(** ** Marking a checkpoint as stable *)

(** What the operations on checkpoints change. *)
Record steady (g : gmap Z (Z * list Z)) (w w' : t) : Prop := {
  sd_inv : INV g w';
  sd_quiet : quiet w w';
  sd_times : cp_times w w';
  sd_stable : lastStableSeqNum w <= lastStableSeqNum w';
}.
Lemma steady_refl g w : INV g w → steady g w w.
Proof. intros Hi. constructor; [done|reflexivity| |lia]. intros m i Hg. right. eauto. Qed.
Lemma steady_trans g w1 w2 w3 : steady g w1 w2 → steady g w2 w3 → steady g w1 w3.
Proof. intros [] []. constructor; [done|by etrans|by eapply cp_times_trans|lia]. Qed.

Lemma onSeqNumIsStable_runs now g w n i : INV g w → lastExecutedSeqNum w + kWorkWindowSize < 2 ^ 63 → n <= lastExecutedSeqNum w → 0 <= n →
  n mod checkpointWindowSize = 0 → (lastStableSeqNum w < n → cpGet (checkpointsLog w) n = Ok i ∧ is_Some (self i)) →
  runs (onSeqNumIsStable info Hinfo H maxConcurrent now n) w (fun _ w' => steady g w w' ∧ n <= lastStableSeqNum w').
Proof.
  intros Hi Hbound Hle H0 Hm Hself. unfold onSeqNumIsStable. rstep. apply runs_check; [apply Z.eqb_eq; rewrite Z.rem_mod_nonneg by (unfold checkpointWindowSize; lia); done|]. rsteps.
  apply runs_if; [intros Hs%Z.leb_le; apply runs_ret; split; [by apply steady_refl|done]|intros Hs%Z.leb_gt]. destruct (Hself Hs) as [Hg Hsome]. clear Hself.
  pose proof Hi as []. unfold setLastStable, advanceWindows. rsteps.
  match goal with |- runs _ ?x _ => set (w1 := x) end.
  assert (∃ sb, w1 = set_strictLowerBoundOfSeqNums (set_lastStableSeqNum w n) sb) as (sb & Hw1).
  { unfold w1. case_match; [by eexists|]. exists (strictLowerBoundOfSeqNums w). by destruct w. }
  clearbody w1. subst w1. cbn. rewrite (proj2 (Z.ltb_ge (lastExecutedSeqNum w) n)) by lia. rsteps.
  match goal with |- runs _ ?x _ => set (w2 := x) end.
  assert (∃ used, primaryLastUsedSeqNum w <= used ∧ w2 = set_primaryLastUsedSeqNum (set_strictLowerBoundOfSeqNums (set_lastStableSeqNum w n) sb) used) as (used & Hu & Hw2).
  { unfold w2. cbn. destruct (Z.ltb_spec (primaryLastUsedSeqNum w) n); [exists n; split; [lia|done]|]. exists (primaryLastUsedSeqNum w). split; [lia|]. by destruct w. }
  clearbody w2. subst w2. cbn. unfold kWorkWindowSize, checkpointWindowSize in *.
  destruct (ActiveWindow.advance_spec 300 1 (mainLog w) (n + 1) inv_main0) as (l & Hl & _); [split; [lia|apply Z.mod_1_r]|lia|].
  destruct (ActiveWindow.advance_spec (300 + 150) 150 (checkpointsLog w) n inv_cp0) as (c & Hc & _); [split; [lia|done]|lia|].
  eapply runs_lift; [exact Hl|]. rsteps. eapply runs_lift; [exact Hc|]. rsteps. rewrite Z.quot_div_nonneg by lia.
  destruct (st_mark (requestsHandler w) _ (stateTransfer w) (n / 150) inv_st0) as (s & Hs' & Hsok & Hsp); [dlia|unfold checkpointWindowSize; dlia|].
  eapply runs_lift; [exact Hs'|]. rsteps.
  destruct (moved_inv g w n used l c s sb Hi ltac:(lia) Hm Hu Hl Hc Hsok Hsp) as (Hi3 & Hq3 & Ht3 & Hk3).
  change (set_stateTransfer _ _) with (moved w n used l c s sb). set (w3 := moved w n used l c s sb) in *. change (lastStableSeqNum w3) with n.
  specialize (Hk3 n i ltac:(lia) Hg). eapply runs_lift; [exact Hk3|]. rstep. destruct Hsome as [sm Hsm]. unfold CheckpointInfo.selfCheckpointMsg, MsgsCertificate.selfMsg in Hsm; cbn in Hsm. rewrite Hsm. rsteps.
  destruct (cp_item g w3 n Hi3) as (_ & _ & j & Hj & Hgood & _); [change (lastStableSeqNum w3) with n; unfold kWorkWindowSize, checkpointWindowSize; lia|done|].
  assert (j = i) as -> by congruence. destruct (setStable_ok i Hgood ltac:(eauto)) as (Hwf4 & Hs4 & Ht4). cbv zeta in *.
  set (i4 := setSelfStateAsStable info i) in *. destruct (mark_ok i4 Hwf4 Hs4) as (Hcomp & Hgood5 & Hself5 & Ht5). cbv zeta in *.
  set (i5 := if negb _ then _ else i4).
  assert (Hi5 : CheckpointInfo.isCheckpointCertificateComplete i5 = true ∧ good i5 ∧ time i5 = time i ∧ is_Some (self i5)).
  { unfold i5. destruct (CheckpointInfo.isCheckpointCertificateComplete i4) eqn:E4; cbn [negb]; [|split_and!; [done|done|congruence|by rewrite Hself5]]. split_and!; [done| |done|done]. split; [done|]. by rewrite E4. }
  clearbody i5. destruct Hi5 as (Hc5 & Hg5 & Hti5 & Hse5). apply runs_check; [done|]. rstep.
  eapply runs_mono; [apply (writeCheckpoint_runs g w3 n i5 Hi3); [change (lastStableSeqNum w3) with n; unfold kWorkWindowSize, checkpointWindowSize; lia|done|done|by intros _|left; change (lastExecutedSeqNum w3) with (lastExecutedSeqNum w); lia]|].
  intros [] w6 (Hi6 & Hq6 & Hst6 & Hcp6). rsteps. change (lastStableSeqNum w3) with n in Hst6.
  assert (Hsteady : steady g w w6).
  { constructor; [done|by etrans| |rewrite Hst6; lia]. intros m j Hj'. rewrite Hcp6 in Hj'. case_decide as Hd; [subst m; injection Hj' as <-; right; exists i; split; [done|congruence]|by apply Ht3]. }
  apply runs_if; [intros Hp|intros _; apply runs_ret; split; [done|lia]]. apply andb_true_iff in Hp as [Hp Hpr]. apply andb_true_iff in Hp as [Hact _].
  eapply runs_mono; [apply (ReplicaExecutionPrimary.tryToSend_runs info Hinfo H HH maxConcurrent Hmax clients num size Hsize Hclients Hne Hpages Hnum now false g w6 Hi6)|].
  - done.
  - done.
  - rewrite (q_executed _ _ Hq6). change (lastExecutedSeqNum w3) with (lastExecutedSeqNum w). done.
  - intros [] w7 [Hi7 [Hq7 Hst7 Hcp7]]. split; [|lia]. eapply steady_trans; [exact Hsteady|]. constructor; [done|done| |lia]. intros m j. rewrite Hcp7. intros Hj'. right. eauto.
Qed.

(** ** The own checkpoint *)
Lemma quot_checkpoint n : 0 <= n → Z.quot n checkpointWindowSize = n / checkpointWindowSize ∧ Z.rem n checkpointWindowSize = n mod checkpointWindowSize.
Proof. intros Hn. split; [apply Z.quot_div_nonneg|apply Z.rem_mod_nonneg]; unfold checkpointWindowSize; lia. Qed.

Lemma makeCheckpoint_runs now g w : INV g w → lastExecutedSeqNum w + kWorkWindowSize < 2 ^ 63 → 0 < lastExecutedSeqNum w → lastStableSeqNum w < lastExecutedSeqNum w →
  (∀ i, cpGet (checkpointsLog w) (lastExecutedSeqNum w) = Ok i → time i = CheckpointInfo.MinTime) →
  runs (makeCheckpoint info Hinfo H maxConcurrent now) w (fun _ w' => INV g w' ∧ quiet w w').
Proof.
  intros Hi Hbound Hpos Hlt Htime. pose proof Hi as []. unfold makeCheckpoint. rsteps. destruct (quot_checkpoint (lastExecutedSeqNum w) ltac:(lia)) as [-> ->].
  apply runs_if; [intros Hm%Z.eqb_eq|intros _; apply runs_ret; split; [done|reflexivity]]. rstep. set (n := lastExecutedSeqNum w) in *.
  destruct (st_digest (requestsHandler w) _ (stateTransfer w) inv_st0) as (d & Hd); [unfold checkpointWindowSize in *; dlia|].
  eapply runs_lift; [exact Hd|]. rstep. assert (Hwin : lastStableSeqNum w <= n < lastStableSeqNum w + cpSize) by (unfold kWorkWindowSize, checkpointWindowSize in *; lia).
  destruct (cp_item g w n Hi Hwin Hm) as (_ & _ & i & Hg & Hgood & _).
  destruct (addSelf_ok (newCheckpointMsg info n d false) i Hgood) as (i' & Hadd & Hgood' & Hself & Ht).
  eapply runs_mono; [apply (updateCheckpoint_runs g w n _ i i' Hi Hwin Hm Hg Hadd Hgood'); [by intros _|left; lia]|]. intros [] w1 (Hi1 & Hq1 & Hst1 & Hcp1). rsteps.
  eapply runs_lift; [rewrite Hcp1; by rewrite decide_True|]. rstep.
  assert (Hg1 : cpGet (checkpointsLog w1) n = Ok i') by (rewrite Hcp1; by rewrite decide_True).
  assert (Hle1 : lastExecutedSeqNum w1 = n) by apply (q_executed _ _ Hq1).
  eapply (runs_mono _ _ (fun _ w2 => steady g w1 w2 ∧ lastStableSeqNum w2 <= n)).
  { apply runs_if; [intros _|intros _; apply runs_ret; split; [by apply steady_refl|lia]].
    eapply runs_mono; [apply (onSeqNumIsStable_runs now g w1 n i' Hi1); [lia|lia|lia|done|done]|]. intros [] w2 [Hs2 _]. split; [done|].
    pose proof (inv_executed _ _ _ _ _ _ _ (sd_inv _ _ _ Hs2)). rewrite (q_executed _ _ (sd_quiet _ _ _ Hs2)) in *. lia. }
  intros [] w2 [[Hi2 Hq2 Ht2 Hst2] Hle2]. assert (Hex2 : lastExecutedSeqNum w2 = n) by (rewrite (q_executed _ _ Hq2); done).
  assert (Hwin2 : lastStableSeqNum w2 <= n < lastStableSeqNum w2 + cpSize) by lia.
  destruct (cp_item g w2 n Hi2 Hwin2 Hm) as (_ & _ & i2 & Hg2 & Hgood2 & Hclo2).
  assert (Htime2 : time i2 = CheckpointInfo.MinTime).
  { destruct (Ht2 n i2 Hg2) as [->|(j & Hj & ->)]; [done|]. assert (j = i') as -> by congruence. rewrite Ht. by apply Htime. }
  destruct (CheckpointInfo.exec_good info Hinfo i2 (CheckpointInfo.SetTime now) Hgood2 Htime2) as (i3 & Hex3 & Hgood3 & _).
  eapply runs_mono; [apply (updateCheckpoint_runs g w2 n _ i2 i3 Hi2 Hwin2 Hm Hg2 Hex3 Hgood3); [|left; lia]|].
  { unfold CheckpointInfo.exec, CheckpointInfo.setSelfExecutionTime in Hex3. rewrite Htime2 in Hex3. injection Hex3 as <-. exact Hclo2. }
  intros [] w3 (Hi3 & Hq3 & _ & _). split; [done|]. etrans; [exact Hq1|]. etrans; [exact Hq2|exact Hq3].
Qed.

Lemma sendCheckpointIfNeeded_runs now g w : INV g w → lastExecutedSeqNum w + kWorkWindowSize < 2 ^ 63 →
  runs (sendCheckpointIfNeeded info Hinfo H maxConcurrent now) w (fun _ w' => INV g w' ∧ quiet w w').
Proof.
  intros Hi Hbound. pose proof Hi as []. unfold sendCheckpointIfNeeded. rsteps.
  apply runs_if; [intros _; apply runs_ret; split; [done|reflexivity]|intros _]. destruct (quot_checkpoint (lastExecutedSeqNum w) ltac:(lia)) as [-> _].
  set (n := lastExecutedSeqNum w / checkpointWindowSize * checkpointWindowSize).
  apply runs_if; [intros _; apply runs_ret; split; [done|reflexivity]|intros Hn0%Z.eqb_neq].
  assert (Hm : n mod checkpointWindowSize = 0) by (unfold n; apply Z.mod_mul; done).
  assert (Hwin : lastStableSeqNum w <= n <= lastExecutedSeqNum w ∧ n < lastStableSeqNum w + cpSize) by (unfold n, kWorkWindowSize, checkpointWindowSize in *; dlia).
  destruct (cp_item g w n Hi ltac:(lia) Hm) as (_ & Hin & i & Hg & Hgood & Hclo). rstep. apply runs_check; [done|]. rstep. eapply runs_lift; [exact Hg|]. cbv beta.
  destruct (self i) as [sm|] eqn:Hself; [|apply runs_ret; split; [done|reflexivity]].
  assert (Hsent : ∀ w1, INV g w1 → quiet w w1 → lastStableSeqNum w1 <= n → lastStableSeqNum w <= lastStableSeqNum w1 →
    runs (updateCheckpoint n (fun i => Ok (CheckpointInfo.setCheckpointSentAllOrApproved i))) w1 (fun _ w' => INV g w' ∧ quiet w w')).
  { intros w1 Hi1 Hq1 Hs1 Hs1'. destruct (cp_item g w1 n Hi1 ltac:(lia) Hm) as (_ & _ & j & Hj & Hjg & Hjc).
    destruct (CheckpointInfo.exec_good info Hinfo j CheckpointInfo.SetSent Hjg Logic.I) as (j' & Hj' & Hjg' & _).
    eapply runs_mono; [apply (updateCheckpoint_runs g w1 n _ j j' Hi1 ltac:(lia) Hm Hj Hj' Hjg'); [injection Hj' as <-; exact Hjc|left; rewrite (q_executed _ _ Hq1); lia]|].
    intros [] w2 (Hi2 & Hq2 & _ & _). split; [done|by etrans]. }
  assert (Hsend : runs (updateCheckpoint n (fun i => Ok (CheckpointInfo.setCheckpointSentAllOrApproved i)) ;; emit (SendCheckpointToAll sm)) w (fun _ w' => INV g w' ∧ quiet w w')).
  { rstep. eapply runs_mono; [apply (Hsent w); [done|reflexivity|lia|lia]|]. intros [] w2 [Hi2 Hq2]. rsteps. split; [by destruct Hi2; constructor|].
    etrans; [exact Hq2|]. by constructor. }
  apply runs_if; [intros _; apply runs_ret; split; [done|reflexivity]|intros _]. apply runs_if; [intros _; exact Hsend|intros _].
  apply runs_if; [intros _; apply runs_ret; split; [done|reflexivity]|intros _]. rstep.
  eapply (runs_mono _ _ (fun _ w' => w' = w)).
  { apply runs_if; [intros Hin2|intros _; by apply runs_ret]. rstep.
    destruct (ActiveWindow.get_ok _ _ _ (lastExecutedSeqNum w) inv_main0 ltac:(split; [lia|apply Z.mod_1_r]) Hin2) as (x & Hx & _). eapply runs_lift; [exact Hx|]. by apply runs_ret. }
  intros proved w' ->. destruct proved; [|exact Hsend]. rstep.
  destruct (mark_ok i (proj1 Hgood) ltac:(eauto)) as (Hcomp & Hgood1 & Hself1 & Ht1). cbv zeta in *. set (i1 := CheckpointInfo.tryToMarkCheckpointCertificateCompleted info i) in *.
  eapply runs_mono; [apply (updateCheckpoint_runs g w n _ i i1 Hi ltac:(lia) Hm Hg); [|done|intros _; rewrite Hself1; eauto|left; lia]|].
  { fold i1. by rewrite Hcomp. }
  intros [] w1 (Hi1 & Hq1 & Hst1 & Hcp1). rstep. pose proof (q_executed _ _ Hq1) as Hex1.
  eapply runs_mono; [apply (onSeqNumIsStable_runs now g w1 n i1 Hi1); [lia|lia|lia|done|]|].
  { intros _. rewrite Hcp1, decide_True by done. split; [done|]. rewrite Hself1. eauto. }
  intros [] w2 [[Hi2 Hq2 _ Hst2] _]. pose proof (inv_executed _ _ _ _ _ _ _ Hi2) as Hex2. rewrite (q_executed _ _ Hq2) in Hex2.
  apply Hsent; [done|by etrans| |lia]. pose proof (inv_stable _ _ _ _ _ _ _ Hi2). rewrite Hex1 in Hex2. unfold n, checkpointWindowSize in *. dlia.
Qed.

(** ** The end of the execution of a number *)
Record advanced (w w' : t) : Prop := {
  ad_view : curView w' = curView w ∧ viewActive w' = viewActive w;
  ad_executed : lastExecutedSeqNum w' = lastExecutedSeqNum w + 1;
  ad_app : requestsHandler w' = requestsHandler w ∧ replyBuffer w' = replyBuffer w;
  ad_batches n : lastExecutedSeqNum w' < n → batchAt w' n = batchAt w n;
}.

Lemma advanced_quiet w1 w2 w3 : advanced w1 w2 → quiet w2 w3 → advanced w1 w3.
Proof.
  intros [[] ? [] Hb] [[] ? [] Hb']. constructor; [split; congruence|congruence|split; congruence|]. intros n Hn. rewrite Hb' by done. apply Hb. lia.
Qed.

Lemma finishNumber_runs now g w i pp : INV g w → lastExecutedSeqNum w + 1 + kWorkWindowSize < 2 ^ 63 → lastExecutedSeqNum w + 1 <= lastStableSeqNum w + kWorkWindowSize →
  mainGet (mainLog w) (lastExecutedSeqNum w + 1) = Ok i → getPrePrepareMsg i = Some pp →
  runs (finishNumber info Hinfo H maxConcurrent now) w (fun _ w' => INV g w' ∧ advanced w w').
Proof.
  intros Hi Hbound Hwin Hg Hpp. pose proof Hi as []. unfold finishNumber. rsteps. set (n := lastExecutedSeqNum w + 1) in *.
  destruct (quot_checkpoint n ltac:(lia)) as [-> ->].
  assert (∃ s, (if n mod checkpointWindowSize =? 0 then createCheckpointOfCurrentState (requestsHandler w) (stateTransfer w) (n / checkpointWindowSize) else Ok (stateTransfer w)) = Ok s ∧
    st_ok (requestsHandler w) (n / checkpointWindowSize) s ∧ ∀ id, 0 <= id < num → rp_page s id = rp_page (stateTransfer w) id) as (s & Hs & Hsok & Hsp).
  { destruct (Z.eqb_spec (n mod checkpointWindowSize) 0) as [E|E].
    - destruct (st_create (requestsHandler w) _ (stateTransfer w) (n / checkpointWindowSize) inv_st0) as (s & Hc & ? & ?); [unfold n, checkpointWindowSize in *; dlia|unfold n, checkpointWindowSize in *; dlia|]. eauto.
    - exists (stateTransfer w). split_and!; [done| |done]. replace (n / checkpointWindowSize) with (lastExecutedSeqNum w / checkpointWindowSize) by (unfold n, checkpointWindowSize in *; dlia). done. }
  eapply runs_lift; [exact Hs|]. rsteps. cbn [controller set_lastExecutedSeqNum set_stateTransfer lastExecutedSeqNum]. fold n.
  destruct (ct_executed now (controller w) n inv_controller0 ltac:(lia)) as (ct & b & Hct & Hctok). eapply runs_lift; [exact Hct|]. rsteps. cbn [fst].
  match goal with |- runs _ ?x _ => set (w1 := x) end.
  assert (∃ v, w1 = set_lastViewThatTransferredSeqNumbersFullyExecuted (set_controller (set_lastExecutedSeqNum (set_stateTransfer w s) n) ct) v) as (v & Hw1).
  { unfold w1, n. clear. match goal with |- context [if ?b then _ else _] => destruct b end; [exists (curView w)|exists (lastViewThatTransferredSeqNumbersFullyExecuted w)]; by destruct w. }
  clearbody w1. assert (Hi1 : INV g w1).
  { subst w1. constructor; cbn; try done.
    - lia.
    - intros m j Hm. apply inv_cp_time0. lia.
    - intros m j Hm. apply inv_log0. lia.
    - destruct inv_clients0 as [p Hcl]. exists p. eapply (ClientsManagerSpec.inv_pages num size (ReplicasInfo._myId info) clients Hsize Hpages Hnum); [|by eapply st_pages|exact Hcl]. intros id Hid. by rewrite Hsp.
    - intros Hp Ha. destruct (inv_primary0 Hp Ha) as [Hple Hnone]. split; [|done]. destruct (decide (n <= primaryLastUsedSeqNum w)) as [|Hgt]; [done|]. rewrite (Hnone n i) in Hpp by (done || lia). done. }
  assert (Ha1 : advanced w w1) by (subst w1; by constructor).
  assert (Hlog : mainLog w1 = mainLog w) by (by subst w1). assert (Hcp : checkpointsLog w1 = checkpointsLog w) by (by subst w1).
  assert (Hex : lastExecutedSeqNum w1 = n) by (by subst w1). assert (Hst : lastStableSeqNum w1 = lastStableSeqNum w) by (by subst w1). clear Hw1.
  eapply runs_lift; [rewrite Hex, Hlog; exact Hg|]. rstep.
  eapply runs_mono; [apply (makeCheckpoint_runs now g w1 Hi1)|]; [lia|lia|lia| |].
  { rewrite Hex, Hcp. intros j Hj. apply (inv_cp_time0 n j); [lia|done]. }
  intros [] w2 [Hi2 Hq2]. eapply runs_mono; [apply (sendCheckpointIfNeeded_runs now g w2 Hi2); rewrite (q_executed _ _ Hq2); lia|].
  intros [] w3 [Hi3 Hq3]. split; [done|]. eapply advanced_quiet; [exact Ha1|]. by etrans.
Qed.
End facts.
End ReplicaExecutionStable.
