(* ===== verification/ReplicaExecutionLoop.v ===== *)
(** * The loop of execution (ReplicaExecution.v)

    [executeReadWriteRequests] executes the batches that are ready, in order, until the
    first number without one. *)
From S2P Require Import Prelude SysConsts Digest ReplicasInfo ActiveWindow MsgsCertificate MessageBase Checkpoint ReservedPages ClientReplyMsg ClientRequestMsg ClientsManager ClientsManagerSpec PrePrepareMsg Controller ReplicaExecution ReplicaExecutionSpec ReplicaExecutionFacts.

Module ReplicaExecutionLoop.
Import ReplicaExecution ReplicaExecutionSpec ReplicaExecutionFacts.
#[local] Abbreviation Request := ClientRequestMsg.Request.

Section facts.
Context (info : ReplicasInfo.t) (Hinfo : ReplicasInfo.wf info) (H : list Z → Digest) (HH : ∀ x, length (H x) = 32%nat).
Context (maxConcurrent : Z) (Hmax : 0 <= maxConcurrent <= maxLegalConcurrentAgreementsByPrimary) (clients : list Z) (num size : Z).
Context {I Pr S A Ct : Type} {IF : ItemFuncs I} {LI : LogItem I Pr} {RP : ReservedPages S} {ST : StateTransfer A S} {CO : Controller Ct}.
Context {RPS : ReservedPagesSpec S num size} {LIS : LogItemSpec info I Pr} {STS : StateTransferSpec A S num size} {CTS : ControllerSpec info Ct}.
Context (execute : A → Z → Z → bool → list Z → Z → list Z → Z → A * Z * list Z * Z).
#[local] Abbreviation t := (@t I Pr S A Ct).
#[local] Abbreviation mainGet := (ActiveWindow.get kWorkWindowSize 1).
#[local] Hint Extern 0 (ItemFuncs CheckpointInfo.t) => exact (CheckpointInfo.checkpoint_items info Hinfo) : typeclass_instances.
#[local] Abbreviation INV := (inv info Hinfo clients num size).
#[local] Abbreviation REP := (represents info Hinfo clients num size).
Context (Hsize : ClientReplyMsg.sizeof_ClientReplyMsgHeader <= size) (Hclients : NoDup clients) (Hne : clients ≠ []).
Context (Hpages : Z.of_nat (length clients) * ClientsManagerSpec.per size <= num) (Hnum : num < 4294967296).
Context (Happ : app_contract num size execute).

(** The batches from number [n] that are ready, at most [k] of them. *)
Fixpoint readyFrom (w : t) (n : Z) (k : nat) : list (list Z * list Request) :=
  match k with
  | O => []
  | Datatypes.S k' => match batchAt w n with Some b => b :: readyFrom w (n + 1) k' | None => [] end
  end.

Lemma readyFrom_ext w w' k : ∀ n, (∀ m, n <= m → batchAt w' m = batchAt w m) → readyFrom w' n k = readyFrom w n k.
Proof.
  induction k as [|k IH]; intros n Hb; [done|]. cbn. rewrite Hb by lia. destruct (batchAt w n); [|done]. f_equal. apply IH. intros m Hm. apply Hb. lia.
Qed.

Lemma readyFrom_next w k : ∀ n, readyFrom w n k = [] → (0 < k)%nat → batchAt w n = None.
Proof. destruct k as [|k]; [lia|]. intros n. cbn. by destruct (batchAt w n). Qed.

(** ** One batch *)
Lemma executeBatch_runs now w a i pp sig rs : REP w a → viewActive w = true → lastExecutedSeqNum w + 1 + kWorkWindowSize < 2 ^ 63 →
  lastExecutedSeqNum w < lastStableSeqNum w + kWorkWindowSize →
  mainGet (mainLog w) (lastExecutedSeqNum w + 1) = Ok i → getPrePrepareMsg i = Some pp → committed_ok (curView w) (lastExecutedSeqNum w + 1) i pp sig rs →
  runs (executeRequestsInPrePrepareMsg info Hinfo H maxConcurrent execute now pp) w
    (fun _ w' => REP w' (serveBatch clients execute (lastExecutedSeqNum w + 1) a (sig, rs)) ∧ lastExecutedSeqNum w' = lastExecutedSeqNum w + 1 ∧
       (curView w' = curView w ∧ viewActive w' = viewActive w) ∧ ∀ n, lastExecutedSeqNum w + 1 < n → batchAt w' n = batchAt w n).
Proof.
  intros Hr Hact Hbound Hwin Hg Hpp [Hsig Hlen Hs Hv Hrd Hpos]. pose proof Hr as (Hi & _ & _). unfold executeRequestsInPrePrepareMsg. rsteps.
  apply runs_check; [unfold currentViewIsActive; by rewrite (st_idle _ _ _ (inv_st _ _ _ _ _ _ _ Hi)), Hact|]. rstep. eapply runs_lift; [exact Hv|]. rstep. apply runs_check; [apply Z.eqb_refl|].
  unfold PrePrepareMsg.readRequests in Hrd. apply bind_ok in Hrd as (offs & Hoffs & Hrd). unfold PrePrepareMsg.requests in Hoffs.
  apply bind_ok in Hoffs as (k & Hk & Hoffs). apply bind_ok in Hoffs as (loc & Hloc & Hoffs).
  assert (Hloc0 : loc = 58) by (unfold PrePrepareMsg.iter_ctor in Hloc; apply bind_ok in Hloc as (b & _ & Hloc); by destruct b; [injection Hloc as <-|]).
  rstep. eapply runs_lift; [exact Hk|]. rstep. eapply runs_lift; [exact Hloc|]. rstep.
  eapply runs_mono; [eapply (executeLoop_runs info Hinfo clients num size execute Hsize Hclients Hne Hpages Hnum Happ now pp i sig Hsig Hlen _ loc offs rs w a Hr Hoffs)|].
  - eapply iterate_nonneg; [exact Hoffs|lia].
  - done.
  - done.
  - done.
  - intros [] w1 [(Hi1 & Ha1 & Hb1) [[Hv1 Hv1'] Hl1 [He1 Hs1]]].
    eapply runs_mono; [apply (ReplicaExecutionStable.finishNumber_runs info Hinfo H HH maxConcurrent Hmax clients num size Hsize Hclients Hne Hpages Hnum now _ w1 i pp Hi1)|].
    + lia.
    + lia.
    + by rewrite Hl1, He1.
    + done.
    + intros [] w2 [Hi2 [[] Hex [Hap Hbu] Hba]]. split_and!; [split; [done|split; congruence]|lia|congruence|congruence|].
      intros n Hn. rewrite Hba by lia. unfold batchAt. by rewrite Hl1.
Qed.

(** ** The loop *)
Lemma batchAt_outside g w n : INV g w → lastStableSeqNum w + kWorkWindowSize < n → batchAt w n = None.
Proof.
  intros Hi Hn. unfold batchAt. rewrite ActiveWindow.get_outside; [done|]. left. unfold ActiveWindow.insideActiveWindow. rewrite (inv_main_beg _ _ _ _ _ _ _ Hi).
  apply andb_false_iff. right. apply Z.ltb_ge. lia.
Qed.

(** The state in which the loop stops. *)
Definition stopped (w w' : t) (a : abs A) (k : nat) : Prop :=
  let bs := readyFrom w (lastExecutedSeqNum w + 1) k in
  REP w' (serveBatches clients execute (lastExecutedSeqNum w + 1) a bs) ∧ lastExecutedSeqNum w' = lastExecutedSeqNum w + Z.of_nat (length bs) ∧
  (curView w' = curView w ∧ viewActive w' = viewActive w) ∧ batchAt w' (lastExecutedSeqNum w' + 1) = None.

Lemma executeReady_runs now b B : B + kWorkWindowSize < 2 ^ 63 → ∀ k w a, REP w a → viewActive w = true → (∀ n, B < n → batchAt w n = None) →
  B - lastExecutedSeqNum w <= Z.of_nat k →
  runs (executeReady info Hinfo H maxConcurrent execute now b (Datatypes.S k)) w (fun _ w' => stopped w w' a k).
Proof.
  intros HB. induction k as [|k IH]; intros w a Hr Hact Hnone Hk; pose proof Hr as (Hi & Ha & Hb); pose proof Hi as [].
  all: assert (Hstop : batchAt w (lastExecutedSeqNum w + 1) = None → ∀ o k, stopped w (set_outs w o) a k)
    by (intros E o k'; unfold stopped; destruct k'; cbn [readyFrom]; rewrite ?E; cbn; (split_and!; [split; [by apply inv_outs|done]|lia|done|done|exact E])).
  all: assert (Hsame : set_outs w (outs w) = w) by (by destruct w).
  all: match goal with |- runs (executeReady _ _ _ _ _ _ _ (Datatypes.S ?n)) _ _ => change (executeReady info Hinfo H maxConcurrent execute now b (Datatypes.S n)) with (executeNext info Hinfo H maxConcurrent execute now b (executeReady info Hinfo H maxConcurrent execute now b n)) end.
  all: unfold executeNext; rstep; rstep.
  all: destruct (Z.ltb_spec (lastExecutedSeqNum w) (lastStableSeqNum w + kWorkWindowSize)) as [Hlt|Hge];
    [|apply runs_ret; rewrite <- Hsame at 2; apply Hstop; apply (batchAt_outside _ w _ Hi); lia].
  all: assert (Hin : ActiveWindow.insideActiveWindow kWorkWindowSize (mainLog w) (lastExecutedSeqNum w + 1) = true)
    by (unfold ActiveWindow.insideActiveWindow; rewrite inv_main_beg0; apply andb_true_iff; split; [apply Z.leb_le|apply Z.ltb_lt]; lia).
  all: destruct (ActiveWindow.get_ok _ _ _ (lastExecutedSeqNum w + 1) inv_main0 ltac:(split; [lia|apply Z.mod_1_r]) Hin) as (i & Hg & _ & _).
  all: rstep; eapply runs_lift; [exact Hg|]; cbv beta.
  all: assert (Hbat : batchAt w (lastExecutedSeqNum w + 1) = ready i) by (unfold batchAt; by rewrite Hg).
  all: assert (Hask : ready i = None → ∀ k, runs (if b then emit (TryToSendReqMissingDataMsg (lastExecutedSeqNum w + 1)) else mret tt) w (fun _ w' => stopped w w' a k))
    by (intros E k'; rewrite E in Hbat; destruct b; [rstep|apply runs_ret; rewrite <- Hsame at 2]; by apply Hstop).
  all: destruct (getPrePrepareMsg i) as [pp|] eqn:Hpp; [|apply Hask; unfold ready; by rewrite Hpp].
  all: destruct (isCommitted__gg i) eqn:Hcom; [|apply Hask; unfold ready; rewrite Hpp, Hcom; by destruct (fullProof i)].
  all: destruct (proj2 (inv_log0 (lastExecutedSeqNum w + 1) i ltac:(lia) Hg) pp Hpp Hcom) as (sig & rs & Hco); pose proof Hco as [Hsig _ Hsq Hvw Hrd _].
  all: assert (Hsome : ready i = Some (sig, rs)) by (unfold ready; by rewrite Hpp, Hsig, Hcom, Hrd).
  { exfalso. rewrite Hsome in Hbat. rewrite Hnone in Hbat by lia. done. }
  assert (Hle : lastExecutedSeqNum w < B).
  { destruct (decide (lastExecutedSeqNum w < B)); [done|]. rewrite Hsome in Hbat. rewrite Hnone in Hbat by lia. done. }
  rstep. eapply runs_lift; [exact Hsq|]. rstep. apply runs_check; [apply Z.eqb_refl|]. rstep. eapply runs_lift; [exact Hvw|]. rstep. apply runs_check; [apply Z.eqb_refl|]. rstep.
  eapply runs_mono; [eapply (executeBatch_runs now w a i pp sig rs); try done; lia|]. intros [] w1 (Hr1 & Hex1 & [Hv1 Hv1'] & Hb1).
  eapply runs_mono; [apply (IH w1 _ Hr1)|].
  - congruence.
  - intros n Hn. rewrite Hb1 by lia. by apply Hnone.
  - lia.
  - intros [] w2 (Hr2 & Hex2 & [Hv2 Hv2'] & Hn2). unfold stopped. cbn [readyFrom]. rewrite Hbat, Hsome. cbn [serveBatches length]. rewrite Hex1 in *.
    rewrite (readyFrom_ext w w1) in * by (intros m Hm; apply Hb1; lia). split_and!; [done|lia|congruence|congruence|done].
Qed.

Lemma execute_runs now b w a : REP w a → viewActive w = true → lastStableSeqNum w + 2 * kWorkWindowSize < 2 ^ 63 →
  runs (executeReadWriteRequests info Hinfo H maxConcurrent execute now b) w (fun _ w' => stopped w w' a (Z.to_nat kWorkWindowSize)).
Proof.
  intros Hr Hact Hbound. pose proof Hr as (Hi & _ & _). pose proof Hi as []. unfold executeReadWriteRequests. rsteps.
  apply runs_check; [unfold currentViewIsActive; by rewrite (st_idle _ _ _ inv_st0), Hact|]. rstep. apply runs_check; [apply Z.leb_le; lia|]. rstep.
  eapply runs_mono; [apply (executeReady_runs now b (lastStableSeqNum w + kWorkWindowSize))|]; [lia|done|done|intros n Hn; by eapply batchAt_outside|lia|].
  intros [] w1 (Hr1 & Hex1 & [Hv1 Hv1'] & Hn1). rsteps. pose proof Hr1 as (Hi1 & Ha1 & Hb1). 
  apply runs_if; [intros Hp|intros _; apply runs_ret; by split_and!]. apply andb_true_iff in Hp as [Hp _].
  assert (Hbs : ∀ k n, (∀ m, lastStableSeqNum w + kWorkWindowSize < m → batchAt w m = None) → n <= lastStableSeqNum w + kWorkWindowSize + 1 → n + Z.of_nat (length (readyFrom w n k)) <= lastStableSeqNum w + kWorkWindowSize + 1).
  { clear. induction k as [|k IH]; intros n Hnone Hn; cbn; [lia|]. destruct (batchAt w n) eqn:E; cbn; [|lia]. assert (n <= lastStableSeqNum w + kWorkWindowSize).
    { destruct (decide (n <= lastStableSeqNum w + kWorkWindowSize)); [done|]. rewrite Hnone in E by lia. done. }
    specialize (IH (n + 1) Hnone ltac:(lia)). lia. }
  eapply runs_mono; [apply (ReplicaExecutionPrimary.tryToSend_runs info Hinfo H HH maxConcurrent Hmax clients num size Hsize Hclients Hne Hpages Hnum now true _ w1 Hi1 Hp)|].
  - congruence.
  - rewrite Hex1. specialize (Hbs (Z.to_nat kWorkWindowSize) (lastExecutedSeqNum w + 1) ltac:(intros m Hm; by eapply batchAt_outside) ltac:(lia)). lia.
  - intros [] w2 [Hi2 [[[] Hex2 [Hap2 Hbu2] Hba2] _ _]]. unfold stopped. split_and!; [split; [done|split; congruence]|lia|congruence|congruence|]. rewrite Hba2 by lia. by rewrite Hex2.
Qed.
End facts.
End ReplicaExecutionLoop.
