(* ===== verification/ReplicaExecutionHandlers.v ===== *)
(** * The handlers of requests and checkpoint messages (ReplicaExecution.v)

    [onCheckpoint], [onClientRequest] and the start of a replica: they run and keep the
    invariant as long as the replica does not fetch a state. *)
From S2P Require Import Prelude SysConsts Digest ReplicasInfo ActiveWindow MsgsCertificate MessageBase Checkpoint ReservedPages ClientReplyMsg ClientRequestMsg ClientsManager ClientsManagerSpec PrePrepareMsg PrePrepareMsgProps Controller ReplicaExecution ReplicaExecutionSpec ReplicaExecutionFacts.

Module ReplicaExecutionHandlers.
Import ReplicaExecution ReplicaExecutionSpec ReplicaExecutionFacts.

(** ** Messages of others in a certificate *)
Section certificate.
Context {T : Type} (equivalent : T → T → bool) (cfg : MsgsCertificate.config).
#[local] Abbreviation msgs := MsgsCertificate.msgsFromReplicas.
#[local] Abbreviation own c := (msgs c !! MsgsCertificate.selfId cfg).

Lemma addToClass_closed (c c' : MsgsCertificate.t T) k r : MsgsCertificate.addToClass true cfg c k r = Ok c' → MsgsCertificate.complete c = false →
  msgs c' = msgs c ∧ (MsgsCertificate.complete c' = true → is_Some (own c)).
Proof.
  intros He Hc. unfold MsgsCertificate.addToClass in He. destruct (k =? _).
  { repeat case_match; injection He as <-; cbn; (split; [done|congruence]). }
  apply bind_ok in He as (cls & _ & He). match type of He with context [(k =? MsgsCertificate.bestClass ?x) && _] => set (c1 := x) in He end.
  assert (H1 : msgs c1 = msgs c ∧ MsgsCertificate.complete c1 = false) by (unfold c1; by destruct (_ <? _)). clearbody c1. destruct H1 as [H1 H2]. destruct (_ && _); injection He as <-; [|split; [done|congruence]]. unfold MsgsCertificate.tryToMarkComplete, MsgsCertificate.hasMsgFromReplica. rewrite H1.
  cbn [negb orb]. case_bool_decide; cbn; [by split|split; [done|congruence]].
Qed.

Lemma addPeer_closed (c c' : MsgsCertificate.t T) m r b : MsgsCertificate.addMsg equivalent true true cfg c m r = Ok (b, c') → r ≠ MsgsCertificate.selfId cfg →
  own c' = own c ∧ (MsgsCertificate.complete c' = true → MsgsCertificate.complete c = true ∨ is_Some (own c)).
Proof.
  intros He Hr. unfold MsgsCertificate.addMsg in He. destruct (MsgsCertificate.hasMsgFromReplica c r); [injection He as <- <-; auto|]. cbn [MsgsCertificate.complete] in He.
  set (c1 := MsgsCertificate.mk _ _ _ _ _ _ _) in He. assert (Ho : own c1 = own c) by (cbn; by rewrite lookup_insert_ne).
  destruct (MsgsCertificate.complete c) eqn:Hc; cbn [negb] in He; [injection He as <- <-; auto|]. rewrite (proj2 (Z.eqb_neq r _) Hr) in He. apply bind_ok in He as (c2 & He & E). injection E as <- <-.
  assert (Hc1 : MsgsCertificate.complete c1 = false) by done.
  assert (Hbump : ∀ k c3, MsgsCertificate.bump c1 k = Ok c3 → msgs c3 = msgs c1 ∧ MsgsCertificate.complete c3 = false).
  { intros k c3 Hb. unfold MsgsCertificate.bump in Hb. apply bind_ok in Hb as (x & _ & Hb). by injection Hb as <-. }
  assert (Hadd : ∀ c3 k, msgs c3 = msgs c1 → MsgsCertificate.complete c3 = false → MsgsCertificate.addToClass true cfg c3 k r = Ok c2 → own c2 = own c ∧ (MsgsCertificate.complete c2 = true → is_Some (own c))).
  { intros c3 k Hm Hf Ha. destruct (addToClass_closed c3 c2 k r Ha Hf) as [E1 E2]. rewrite E1, Hm, Ho in *. done. }
  assert (own c2 = own c ∧ (MsgsCertificate.complete c2 = true → is_Some (own c))) as [? ?]; [|auto].
  unfold MsgsCertificate.addPeerMsg in He. destruct (MsgsCertificate.hasTrustedSelfClass c1).
  - apply bind_ok in He as (x & _ & He). apply bind_ok in He as (y & _ & He). destruct (negb _); [injection He as <-; split; [done|congruence]|].
    apply bind_ok in He as (c3 & Hb & He). destruct (Hbump _ _ Hb). by eapply Hadd.
  - apply bind_ok in He as (k & _ & He). destruct (k =? _); [by eapply Hadd|]. apply bind_ok in He as (c3 & Hb & He). destruct (Hbump _ _ Hb). by eapply Hadd.
Qed.
End certificate.

Section facts.
Context (info : ReplicasInfo.t) (Hinfo : ReplicasInfo.wf info) (H : list Z → Digest) (HH : ∀ x, length (H x) = 32%nat).
Context (maxConcurrent : Z) (Hmax : 0 <= maxConcurrent <= maxLegalConcurrentAgreementsByPrimary) (clients : list Z) (num size : Z).
Context {I Pr S A Ct : Type} {IF : ItemFuncs I} {LI : LogItem I Pr} {RP : ReservedPages S} {ST : StateTransfer A S} {CO : Controller Ct}.
Context {RPS : ReservedPagesSpec S num size} {LIS : LogItemSpec info I Pr} {STS : StateTransferSpec A S num size} {CTS : ControllerSpec info Ct}.
#[local] Abbreviation t := (@t I Pr S A Ct).
#[local] Abbreviation mainGet := (ActiveWindow.get kWorkWindowSize 1).
#[local] Abbreviation cpSize := (kWorkWindowSize + checkpointWindowSize).
#[local] Abbreviation cpGet := (ActiveWindow.get cpSize checkpointWindowSize).
#[local] Hint Extern 0 (ItemFuncs CheckpointInfo.t) => exact (CheckpointInfo.checkpoint_items info Hinfo) : typeclass_instances.
#[local] Abbreviation INV := (inv info Hinfo clients num size).
#[local] Abbreviation good := (CheckpointInfo.good info).
#[local] Abbreviation self := (CheckpointInfo.selfCheckpointMsg info).
Context (Hsize : ClientReplyMsg.sizeof_ClientReplyMsgHeader <= size) (Hclients : NoDup clients) (Hne : clients ≠ []).
Context (Hpages : Z.of_nat (length clients) * ClientsManagerSpec.per size <= num) (Hnum : num < 4294967296).

(** ** Checkpoint messages *)

(** What validation ([CheckpointMsg.ToActualMsgType]) leaves. *)
Definition fromPeer (m : CheckpointInfo.msg) : Prop :=
  0 <= CheckpointInfo.m_sender m < ReplicasInfo._numberOfReplicas info ∧ CheckpointInfo.m_sender m ≠ ReplicasInfo._myId info ∧
  Z.rem (CheckpointMsg.seqNum (CheckpointInfo.m_header m)) checkpointWindowSize = 0.

Lemma addPeer_ok m i : good i → closed info i → fromPeer m →
  ∃ b i', CheckpointInfo.addCheckpointMsg info i m (CheckpointInfo.m_sender m) = Ok (b, i') ∧ good i' ∧ closed info i' ∧ self i' = self i ∧ CheckpointInfo.executed i' = CheckpointInfo.executed i.
Proof.
  intros Hg Hc (Hs & Hne' & _). destruct (CheckpointInfo.exec_good info Hinfo i (CheckpointInfo.Add m (CheckpointInfo.m_sender m)) Hg Hs) as (i' & He & Hg' & _).
  unfold CheckpointInfo.exec in He. apply bind_ok in He as ([b j] & Ha & E). injection E as <-. exists b, j. unfold CheckpointInfo.addCheckpointMsg in Ha.
  pose proof Ha as Ha'. apply bind_ok in Ha' as ([b' c] & Hm & E). injection E as <- <-. destruct (addPeer_closed _ _ _ _ _ _ _ Hm Hne') as [E1 E2].
  split_and!; [done|done| |exact E1|done]. unfold closed, CheckpointInfo.isCheckpointCertificateComplete, CheckpointInfo.selfCheckpointMsg, MsgsCertificate.selfMsg, MsgsCertificate.isComplete in *.
  cbn [CheckpointInfo.checkpointCertificate]. rewrite E1. intros Hco. destruct (E2 Hco); auto.
Qed.

(** The replica goes on, unless it fetches a state. *)
Definition settled (g : gmap Z (Z * list Z)) (w w' : t) : Prop := isCollectingState (stateTransfer w') = false → INV g w' ∧ quiet w w'.

Lemma settled_refl g w : INV g w → settled g w w.
Proof. intros Hi _. split; [done|reflexivity]. Qed.

Lemma settled_outs g w w' o : settled g w w' → settled g w (set_outs w' o).
Proof. intros Hs Hc. destruct (Hs Hc) as [Hi Hq]. split; [by destruct Hi; constructor|]. etrans; [exact Hq|by constructor]. Qed.

(** The table of stable checkpoints. *)
Definition tabled (w w' : t) : Prop := ∃ table, w' = set_tableOfStableCheckpoints w table ∧ ∀ k m, table !! k = Some m → 0 <= k < ReplicasInfo._numberOfReplicas info.

Lemma tabled_inv g w w' : INV g w → tabled w w' → INV g w' ∧ quiet w w'.
Proof. intros Hi (table & -> & Ht). split; [destruct Hi; by constructor|by constructor]. Qed.

Lemma table_small {X} (table : gmap Z X) : (∀ k m, table !! k = Some m → 0 <= k < ReplicasInfo._numberOfReplicas info) → u16 (Z.of_nat (base.size table)) = Z.of_nat (base.size table).
Proof.
  intros Hk. apply u16_small. split; [lia|]. pose proof (ReplicasInfo.wf_i16 info Hinfo) as Hn. rewrite <- size_dom.
  assert (Hd : dom table ⊆ list_to_set (C := gset Z) (seqZ 0 (ReplicasInfo._numberOfReplicas info))).
  { intros k [m Hm]%elem_of_dom. apply elem_of_list_to_set, elem_of_seqZ. specialize (Hk k m Hm). lia. }
  apply subseteq_size in Hd. rewrite size_list_to_set in Hd by apply NoDup_seqZ. rewrite length_seqZ in Hd. lia.
Qed.

Lemma relevant_keys n (table : gmap Z CheckpointInfo.msg) P : (∀ k m, table !! k = Some m → P k) → ∀ k m, relevantAbove n table !! k = Some m → P k.
Proof. intros Hk k m Hm. unfold relevantAbove in Hm. apply map_lookup_filter_Some in Hm as [Hm _]. eauto. Qed.

Lemma needsState_runs now g w : INV g w → runs (needsState info now) w (fun _ w' => tabled w w').
Proof.
  intros Hi. pose proof Hi as []. assert (Hsame : tabled w w) by (exists (tableOfStableCheckpoints w); split; [by destruct w|done]).
  unfold needsState. rsteps. apply runs_if; [intros _; by apply runs_ret|intros _]. rsteps.
  pose proof (relevant_keys (lastExecutedSeqNum w) _ (fun k => 0 <= k < ReplicasInfo._numberOfReplicas info) inv_table0) as Hk.
  set (table := relevantAbove (lastExecutedSeqNum w) (tableOfStableCheckpoints w)) in *. apply runs_check; [by apply Z.eqb_eq, table_small|].
  set (w1 := set_tableOfStableCheckpoints w table). assert (Ht : tabled w w1) by (by exists table).
  apply runs_if; [intros _; by apply runs_ret|intros _]. apply runs_if; [intros _|intros _; by apply runs_ret]. rstep.
  eapply (runs_mono _ _ (fun _ w' => w' = w1)); [|intros x w2 ->; by apply runs_ret]. apply runs_if; [intros Hin|intros _; by apply runs_ret]. rstep.
  destruct (ActiveWindow.get_ok _ _ _ (lastExecutedSeqNum w) inv_main0 ltac:(split; [lia|apply Z.mod_1_r]) Hin) as (x & Hx & _). eapply runs_lift; [exact Hx|]. by apply runs_ret.
Qed.

Lemma recordStable_runs now g w m : INV g w → fromPeer m → runs (recordStableCheckpoint info now m) w (fun _ w' => tabled w w').
Proof.
  intros Hi (Hs & _). pose proof Hi as []. unfold recordStableCheckpoint. rsteps. apply runs_if; [intros _|intros _; apply runs_ret; exists (tableOfStableCheckpoints w); split; [by destruct w|done]]. rsteps.
  set (x := CheckpointInfo.mkMsg _ _). set (table := <[CheckpointInfo.m_sender m := x]> (tableOfStableCheckpoints w)).
  assert (Ht : tabled w (set_tableOfStableCheckpoints w table)).
  { exists table. split; [done|]. intros k y. unfold table. destruct (decide (k = CheckpointInfo.m_sender m)) as [->|Hd]; [done|]. rewrite lookup_insert_ne by done. apply inv_table0. }
  destruct (tabled_inv g w _ Hi Ht) as [Hi1 _]. eapply runs_mono; [apply (needsState_runs now g _ Hi1)|]. intros b w2 (table2 & -> & Hk). exists table2. split; [by destruct w|done].
Qed.

Lemma onCheckpoint_runs now g w m : INV g w → lastExecutedSeqNum w + kWorkWindowSize < 2 ^ 63 → fromPeer m →
  runs (onCheckpoint info Hinfo H maxConcurrent now m) w (fun _ w' => settled g w w').
Proof.
  intros Hi Hbound Hm. pose proof Hi as []. unfold onCheckpoint. rsteps. set (n := CheckpointMsg.seqNum (CheckpointInfo.m_header m)).
  eapply (runs_mono _ _ (fun _ w' => INV g w' ∧ quiet w w')).
  - apply runs_if; [intros [Hlo%Z.ltb_lt Hhi%Z.leb_le]%andb_true_iff|intros _; apply runs_ret; split; [done|reflexivity]].
    assert (Hn : n mod checkpointWindowSize = 0) by (destruct Hm as (_ & _ & Hr); fold n in Hr; rewrite Z.rem_mod_nonneg in Hr by (unfold checkpointWindowSize; lia); done).
    rstep. apply runs_check; [unfold ActiveWindow.insideActiveWindow; rewrite inv_main_beg0; apply andb_true_iff; split; [apply Z.leb_le|apply Z.ltb_lt]; lia|].
    assert (Hwin : lastStableSeqNum w <= n < lastStableSeqNum w + cpSize) by (unfold kWorkWindowSize, checkpointWindowSize in *; lia).
    destruct (ReplicaExecutionStable.cp_item info Hinfo clients num size g w n Hi Hwin Hn) as (_ & _ & i & Hg & Hgood & Hclo).
    destruct (addPeer_ok m i Hgood Hclo Hm) as (b & i' & Ha & Hgood' & Hclo' & Hself & Htime). rstep.
    eapply runs_mono; [apply (ReplicaExecutionStable.updateCheckpoint_runs info Hinfo clients num size g w n _ i i' Hi Hwin Hn Hg); [by rewrite Ha|done|done|]|].
    { destruct (Z.le_gt_cases n (lastExecutedSeqNum w)); [by left|right]. destruct (inv_cp_time0 n i) as [E1 E2]; [lia|done|]. split; congruence. }
    intros [] w1 (Hi1 & Hq1 & Hst1 & Hcp1). rsteps. assert (Hg1 : cpGet (checkpointsLog w1) n = Ok i') by (rewrite Hcp1; by rewrite decide_True).
    eapply runs_lift; [exact Hg1|]. apply runs_if; [intros Hco|intros _; apply runs_ret; done]. destruct (Hclo' Hco) as [sm Hsm]. rstep. apply runs_check; [rewrite Hsm; by apply bool_decide_eq_true_2|]. rstep.
    assert (Hle : n <= lastExecutedSeqNum w1).
    { destruct (Z.le_gt_cases n (lastExecutedSeqNum w1)); [done|]. destruct (inv_cp_time _ _ _ _ _ _ _ Hi1 n i') as [_ E]; [lia|done|congruence]. }
    rewrite (q_executed _ _ Hq1) in Hle.
    eapply runs_mono; [apply (ReplicaExecutionStable.onSeqNumIsStable_runs info Hinfo H HH maxConcurrent Hmax clients num size Hsize Hclients Hne Hpages Hnum now g w1 n i' Hi1); rewrite ?(q_executed _ _ Hq1); try lia; try done|].
    intros [] w2 [[Hi2 Hq2 _ _] _]. rsteps. split; [done|by etrans].
  - intros stable w1 [Hi1 Hq1]. apply runs_if; [intros _; apply runs_ret; by intros _|intros _]. rstep.
    eapply runs_mono; [apply (recordStable_runs now g w1 m Hi1 Hm)|]. intros ask w2 Ht2. destruct (tabled_inv g w1 w2 Hi1 Ht2) as [Hi2 Hq2].
    assert (Hs2 : settled g w w2) by (intros _; split; [done|by etrans]). rsteps.
    apply runs_if; [intros _|intros _; apply runs_if; [intros _; rsteps; by apply settled_outs|intros _; apply runs_if; [intros _; rsteps; by apply settled_outs|intros _; by apply runs_ret]]].
    rstep. destruct (st_start (requestsHandler w2) _ (stateTransfer w2) (inv_st _ _ _ _ _ _ _ Hi2)) as (s & Hs & Hok). eapply runs_lift; [exact Hs|]. rsteps.
    intros Hc. cbn in Hc. destruct (Hok Hc) as [Hsok Hsp]. split; [|etrans; [exact Hq1|]; etrans; [exact Hq2|by constructor]].
    destruct Hi2. constructor; cbn; try done. destruct inv_clients1 as [p Hcl]. exists p.
    eapply (ClientsManagerSpec.inv_pages num size (ReplicasInfo._myId info) clients Hsize Hpages Hnum); [|by eapply st_pages|exact Hcl]. intros id Hid. by rewrite Hsp.
Qed.

(** ** Requests of clients *)
Context (execute : A → Z → Z → bool → list Z → Z → list Z → Z → A * Z * list Z * Z).
#[local] Abbreviation Request := ClientRequestMsg.Request.

(** What the application promises about a read-only request, for which the buffer is the data of a new reply message: its
    state does not change and the reply fits. *)
Definition readonly_contract : Prop := ∀ a c n data buf, let max := maxExternalMessageSize - ClientReplyMsg.sizeof_ClientReplyMsgHeader in
  Z.of_nat (length buf) = max →
  match execute a c n true data max buf 0 with
  | (a', error, buf', len') => a' = a ∧ length buf' = length buf ∧ (error = 0 → len' <= max)
  end.
Context (Hro : readonly_contract).

(** A request that fits a batch, with a number. *)
Definition isRequest (m : MessageBase.t) (r : Request) : Prop :=
  MessageBase.msgBody_ m = ClientRequestMsg.layout r ∧ MessageBase.msgSize_ m = ClientRequestMsg.reqSize r ∧ ClientRequestMsg.request_ok r ∧
  ClientRequestMsg.reqSize r <= maxExternalMessageSize - PrePrepareMsg.sizeof_PrePrepareMsgHeader ∧ 0 < ClientRequestMsg.r_seqNum r.

Lemma request_fields m r : isRequest m r → ClientRequestMsg.clientProxyId m = Ok (ClientRequestMsg.r_client r) ∧ ClientRequestMsg.isReadOnly m = Ok (ClientRequestMsg.r_readOnly r) ∧
  ClientRequestMsg.requestSeqNum m = Ok (ClientRequestMsg.r_seqNum r) ∧ ClientRequestMsg.requestBytes m = Ok (ClientRequestMsg.r_data r).
Proof.
  intros (Hb & _ & Hok & _). pose proof (ClientRequestMsg.image_fields r Hok) as Hf.
  unfold ClientRequestMsg.clientProxyId, ClientRequestMsg.isReadOnly, ClientRequestMsg.requestSeqNum, ClientRequestMsg.requestBytes in *. by rewrite Hb.
Qed.

(** The message for a reply, with the buffer the application gets. *)
Lemma newReply_message primary q sender : ∃ reply, ClientReplyMsg.ctor_primary primary q sender = Ok reply ∧
  Z.of_nat (length (MessageBase.msgBody_ reply)) = maxExternalMessageSize ∧ MessageBase.storageSize_ reply = maxExternalMessageSize.
Proof.
  unfold ClientReplyMsg.ctor_primary.
  pose proof (ClientReplyMsg.new_layout sender (maxExternalMessageSize - 16) maxExternalMessageSize primary q 0 ltac:(lia) ltac:(by vm_compute)) as E.
  destruct (MessageBase.ctor sender MC_Reply maxExternalMessageSize) as [m|]; [|done]. cbn [mbind res_bind] in E |- *. rewrite E. cbn [mbind res_bind].
  unfold MessageBase.setMsgSize. cbn [MessageBase.storageSize_ MessageBase.msgBody_]. change (ClientReplyMsg.sizeof_ClientReplyMsgHeader <=? maxExternalMessageSize) with true.
  change (ClientReplyMsg.sizeof_ClientReplyMsgHeader <? maxExternalMessageSize) with true. cbn [Assert mbind res_bind].
  match goal with |- context [put_bytes ?b _ _] => set (body := b) end.
  assert (Hl : Z.of_nat (length body) = maxExternalMessageSize) by (unfold body; rewrite !length_app, !length_le_enc, length_replicate; unfold maxExternalMessageSize; lia).
  destruct (put_bytes_in body ClientReplyMsg.sizeof_ClientReplyMsgHeader (replicate (Z.to_nat (maxExternalMessageSize - ClientReplyMsg.sizeof_ClientReplyMsgHeader)) 0)) as (b & -> & Hb); [done|rewrite length_replicate; unfold maxExternalMessageSize, ClientReplyMsg.sizeof_ClientReplyMsgHeader in *; lia|].
  cbn [mbind res_bind]. eexists. split_and!; [done|cbn; lia|done].
Qed.

Lemma setReplyLength_ok m n : Z.of_nat (length (MessageBase.msgBody_ m)) = maxExternalMessageSize → MessageBase.storageSize_ m = maxExternalMessageSize →
  0 <= n <= maxExternalMessageSize - ClientReplyMsg.sizeof_ClientReplyMsgHeader → ∃ m', ClientReplyMsg.setReplyLength m n = Ok m'.
Proof.
  intros Hl Hs Hn. unfold ClientReplyMsg.setReplyLength, ClientReplyMsg.maxReplyLength. rewrite Hs. unfold maxExternalMessageSize, ClientReplyMsg.sizeof_ClientReplyMsgHeader in *.
  change (64 * 1000) with 64000 in *. change (u32 (64000 - 16)) with 63984. rewrite (proj2 (Z.leb_le n _)) by lia. cbn [Assert mbind res_bind]. unfold put_int.
  destruct (put_bytes_in (MessageBase.msgBody_ m) 12 (le_enc 4 n)) as (b & -> & Hb); [lia|rewrite length_le_enc; lia|]. cbn [mbind res_bind].
  unfold MessageBase.setMsgSize. cbn [with_body MessageBase.storageSize_ MessageBase.msgBody_]. rewrite u32_small by lia. rewrite Hs, (proj2 (Z.leb_le (16 + n) _)) by lia. cbn [Assert mbind res_bind].
  destruct (16 + n <? 64000); [|eauto]. destruct (put_bytes_in b (16 + n) (replicate (Z.to_nat (64000 - (16 + n))) 0)) as (b2 & -> & _); [lia|rewrite length_replicate; lia|]. cbn. eauto.
Qed.

Lemma readOnly_runs g w m r : INV g w → isRequest m r → ClientRequestMsg.r_readOnly r = true →
  runs (executeReadOnlyRequest info execute m) w (fun _ w' => INV g w' ∧ quiet w w').
Proof.
  intros Hi Hm Hr. destruct (request_fields m r Hm) as (F1 & F2 & F3 & F4). unfold executeReadOnlyRequest. rstep. eapply runs_lift; [exact F2|]. rstep. apply runs_check; [done|]. rsteps.
  apply runs_check; [by rewrite (st_idle _ _ _ (inv_st _ _ _ _ _ _ _ Hi))|]. rstep. eapply runs_lift; [exact F3|]. rstep.
  destruct (newReply_message (currentPrimary info w) (ClientRequestMsg.r_seqNum r) (ReplicasInfo._myId info)) as (reply & Hc & Hl & Hs).
  eapply runs_lift; [exact Hc|]. rstep. eapply runs_lift; [exact F1|]. rstep. eapply runs_lift; [exact F4|]. rstep.
  assert (Hlim : ClientReplyMsg.maxReplyLength reply = maxExternalMessageSize - ClientReplyMsg.sizeof_ClientReplyMsgHeader) by (unfold ClientReplyMsg.maxReplyLength; rewrite Hs; apply u32_small; unfold maxExternalMessageSize, ClientReplyMsg.sizeof_ClientReplyMsgHeader; lia).
  rewrite Hlim. set (mx := maxExternalMessageSize - ClientReplyMsg.sizeof_ClientReplyMsgHeader) in *.
  destruct (get_bytes_in (MessageBase.msgBody_ reply) ClientReplyMsg.sizeof_ClientReplyMsgHeader mx) as (buf & Hbuf & Hbl); [unfold ClientReplyMsg.sizeof_ClientReplyMsgHeader; lia|unfold mx, maxExternalMessageSize, ClientReplyMsg.sizeof_ClientReplyMsgHeader; lia|unfold mx; lia|].
  eapply runs_lift; [exact Hbuf|]. cbv beta. pose proof (Hro (requestsHandler w) (ClientRequestMsg.r_client r) (lastExecutedSeqNum w) (ClientRequestMsg.r_data r) buf ltac:(fold mx; unfold mx, maxExternalMessageSize, ClientReplyMsg.sizeof_ClientReplyMsgHeader in *; lia)) as Hx. fold mx in Hx.
  destruct (execute _ _ _ true _ mx buf 0) as [[[a error] buf'] len]. destruct Hx as (-> & Hlen & Hfit). rsteps.
  destruct (put_bytes_in (MessageBase.msgBody_ reply) ClientReplyMsg.sizeof_ClientReplyMsgHeader buf') as (b & Hb & Hbl'); [done|unfold mx, maxExternalMessageSize, ClientReplyMsg.sizeof_ClientReplyMsgHeader in *; lia|]. eapply runs_lift; [exact Hb|].
  assert (Hw : set_requestsHandler w (requestsHandler w) = w) by (by destruct w). rewrite Hw.
  apply runs_if; [intros [He%Z.eqb_eq Hpos%Z.ltb_lt]%andb_true_iff|intros _; apply runs_ret; split; [done|reflexivity]]. rstep.
  destruct (setReplyLength_ok (with_body reply b) len) as (m' & Hm'); [cbn; lia|done|fold mx; split; [lia|by apply Hfit]|]. eapply runs_lift; [exact Hm'|]. rsteps.
  clear - Hi. split; [by destruct Hi; constructor|by constructor].
Qed.

Lemma onClientRequest_runs now g w m r : INV g w → lastExecutedSeqNum w + kWorkWindowSize < 2 ^ 63 → isRequest m r →
  runs (onClientRequest info H maxConcurrent execute now m) w (fun _ w' => INV g w' ∧ quiet w w').
Proof.
  intros Hi Hbound Hm. pose proof Hi as []. destruct (request_fields m r Hm) as (F1 & F2 & F3 & F4). destruct inv_clients0 as [p Hcl].
  assert (Hid : ∀ o, INV g (set_outs w o) ∧ quiet w (set_outs w o)) by (intros o; split; [by destruct Hi; constructor|by constructor]).
  assert (Hsame : INV g w ∧ quiet w w) by (split; [done|reflexivity]).
  unfold onClientRequest. rstep. eapply runs_lift; [exact F1|]. rstep. eapply runs_lift; [exact F2|]. rstep. eapply runs_lift; [exact F3|]. rsteps.
  rewrite (st_idle _ _ _ inv_st0). pose proof Hcl as (Hwf & _ & _). cbn [ClientsManagerSpec.mgr ClientsManagerSpec.ghost ClientsManagerSpec.cache ClientsManagerSpec.pend] in Hwf.
  rewrite (ClientsManagerSpec.isValidClient_spec size (ReplicasInfo._myId info) clients Hclients _ _ _ _ Hwf).
  apply runs_if; [intros _; rsteps; apply Hid|intros [Hin _]%orb_false_iff]. apply negb_false_iff, bool_decide_eq_true in Hin.
  apply runs_if; [intros Hr; by eapply readOnly_runs|intros _]. apply runs_if; [intros _; by apply runs_ret|intros Hact%negb_false_iff].
  apply list_elem_of_lookup in Hin as Hk. destruct Hk as [k Hk]. rstep. eapply runs_lift; [by eapply ClientsManagerSpec.lastReply_spec|]. cbv beta.
  apply runs_if; [intros Hlt%Z.ltb_lt|intros Hge%Z.ltb_ge].
  - rstep. eapply runs_lift; [by apply (ClientsManagerSpec.canBecomePending_spec size (ReplicasInfo._myId info) clients Hclients _ (fun c => g !! c) (fun c => p !! c) k)|]. cbv beta.
    apply runs_if; [intros Hp|intros Hp].
    + apply runs_if; [intros _|intros _; by apply runs_ret]. rsteps. set (w1 := set_requestsQueueOfPrimary w (requestsQueueOfPrimary w ++ [m])).
      assert (Hi1 : INV g w1).
      { destruct Hi. constructor; cbn; try done. apply Forall_app; split; [done|]. constructor; [|done]. exists r. destruct Hm as (? & ? & ? & ? & ?). by split_and!. }
      eapply runs_mono; [apply (ReplicaExecutionPrimary.tryToSend_runs info Hinfo H HH maxConcurrent Hmax clients num size Hsize Hclients Hne Hpages Hnum now true g w1 Hi1); done|].
      intros [] w2 [Hi2 [Hq2 _ _]]. split; [done|]. etrans; [|exact Hq2]. by constructor.
    + apply runs_if; [intros Hcan%bool_decide_eq_true|intros _; by apply runs_ret]. rstep.
      destruct (ClientsManagerSpec.exec_inv num size (ReplicasInfo._myId info) clients Hsize Hclients Hpages Hnum _ (ClientsManagerSpec.AddPending (ClientRequestMsg.r_client r) (ClientRequestMsg.r_seqNum r) now) Hne Hcl) as (w1 & Hex & Hc1); [by split_and!; [|apply Hcan..]|].
      unfold ClientsManagerSpec.exec in Hex. cbn [ClientsManagerSpec.step ClientsManagerSpec.mgr ClientsManagerSpec.pgs] in Hex.
      destruct (ClientsManager.addPendingRequest now (clientsManager w) _ _) as [cm1|] eqn:Ea; [|done]. injection Hex as <-. eapply runs_lift; [done|]. rsteps.
      split; [|by constructor]. destruct Hi. constructor; cbn; try done. by eexists.
  - apply runs_if; [intros Heq%Z.eqb_eq|intros _; by apply runs_ret]. destruct Hm as (_ & _ & _ & _ & Hpos).
    destruct (g !! ClientRequestMsg.r_client r) as [[q reply]|] eqn:Eg; [|cbn in Heq; lia].
    eapply runs_mono; [apply (sendLatestReply_runs info Hinfo clients num size Hsize Hclients Hpages Hnum w (mkAbs g (requestsHandler w) (replyBuffer w)) (ClientRequestMsg.r_client r) q reply); [by split_and!|done|done]|].
    intros [] w1 [(Hi1 & Ha & Hb) [[Hv Hv'] Hl [He Hs]]]. split; [exact Hi1|]. constructor; [by split|done|by split|]. intros n _. unfold batchAt. by rewrite Hl.
Qed.

(** ** The start *)
Lemma ctor_empty {X} `{!ItemFuncs X} W R n (l : ActiveWindow.t X) m i : ActiveWindow.ctor W R n = Ok l → ActiveWindow.get W R l m = Ok i → item_empty i ∧ item_wf i.
Proof.
  intros Hc Hg. unfold ActiveWindow.ctor in Hc. res_simpl. unfold ActiveWindow.get in Hg. res_simpl. case_match eqn:E; [|done]. injection Hg as <-.
  cbn in E. apply lookup_replicate in E as [-> _]. split; [apply item_reset_empty|apply item_reset_wf]; apply item_init_wf.
Qed.

Lemma ctor_runs numOfClientProxies now memory s app ct : clients = merge_sort Z.le (elements (list_to_set (C := gset Z) (seqZ (ReplicasInfo._numberOfReplicas info) numOfClientProxies))) →
  Z.of_nat (length clients) < 65536 → Z.of_nat (length memory) = maxReplyLength → st_ok app 0 s → ct_ok ct →
  ∃ w : t, ctor info Hinfo numOfClientProxies size now memory s app ct = Ok w ∧ represents info Hinfo clients num size w (mkAbs ∅ app memory) ∧
    lastExecutedSeqNum w = 0 ∧ lastStableSeqNum w = 0 ∧ viewActive w = true ∧
    ClientsManagerSpec.inv num size (ReplicasInfo._myId info) clients (ClientsManagerSpec.mkW (clientsManager w) (stateTransfer w) (ClientsManagerSpec.mkAbs ∅ ∅)).
Proof.
  intros Hcl H16 Hmem Hst Hct. unfold ctor.
  destruct (ClientsManagerSpec.boot_clients num size (ReplicasInfo._myId info) clients Hsize Hclients Hpages Hnum _ s Hcl Hne H16 (st_pages _ _ _ Hst)) as (cw & Hb & Hi & Hg).
  unfold ClientsManagerSpec.boot in Hb. apply bind_ok in Hb as (cm & -> & Hb). cbn [mbind res_bind]. apply bind_ok in Hb as (cm1 & -> & Hb). cbn [mbind res_bind].
  apply bind_ok in Hb as (s1 & Hs1 & Hb). rewrite Hs1. cbn [mbind res_bind]. injection Hb as <-.
  assert (Hst1 : st_ok app 0 s1).
  { unfold ClientsManager.clearReservedPages in Hs1. apply bind_ok in Hs1 as (_ & _ & Hs1).
    assert (Hall : Forall (fun id => 0 <= id) (seqZ 0 (ClientsManager.requiredNumberOfPages_ cm1))) by (apply Forall_forall; intros id Hid%elem_of_seqZ; lia).
    revert Hs1 Hall Hst. generalize (seqZ 0 (ClientsManager.requiredNumberOfPages_ cm1)). clear. intros ids. revert s. induction ids as [|id ids IH]; intros s He Hall Hst; cbn [foldM] in He; [by injection He as <-|].
    apply bind_ok in He as (s2 & H2 & He). apply Forall_cons in Hall as [Hid Hall]. eapply IH; [done|done|]. by eapply st_zero. }
  destruct (ActiveWindow.win_ctor_wf (I := I) 300 1 1) as (l & Hl & Hlwf & Hlb); [split; [lia|done]|]. unfold kWorkWindowSize, checkpointWindowSize in *. rewrite Hl. cbn [mbind res_bind].
  destruct (ActiveWindow.win_ctor_wf (I := CheckpointInfo.t) (300 + 150) 150 0) as (c & Hc & Hcwf & Hcb); [split; [lia|done]|]. rewrite Hc. cbn [mbind res_bind]. eexists. split; [done|]. split; [|done].
  split; [|done]. constructor; cbn; try done; try lia.
  - intros n i _ Hgi. apply ReplicaExecutionStable.empty_unmade. by apply (ctor_empty _ _ _ _ _ _ Hc Hgi).
  - intros n i Hgi Hco. destruct (ctor_empty _ _ _ _ _ _ Hc Hgi) as [[] _]. unfold CheckpointInfo.isCheckpointCertificateComplete, MsgsCertificate.isComplete in Hco. congruence.
  - intros n i Hn Hgi. destruct (ctor_empty _ _ _ _ _ _ Hl Hgi) as [He Hw]. split; [by apply li_fresh|]. intros pp Hpp. by rewrite (li_empty i He) in Hpp.
  - by eexists.
  - intros _ _. split; [lia|]. intros n i _ Hgi. apply li_empty. by apply (ctor_empty _ _ _ _ _ _ Hl Hgi).
Qed.

Lemma ctor_log numOfClientProxies now memory s app ct (w : t) : ctor info Hinfo numOfClientProxies size now memory s app ct = Ok w →
  curView w = 0 ∧ ActiveWindow.ctor kWorkWindowSize 1 1 = Ok (mainLog w) ∧ requestsQueueOfPrimary w = [] ∧ primaryLastUsedSeqNum w = 0.
Proof. intros Hw. unfold ctor in Hw. by res_simpl. Qed.

(** ** What the commit protocol does to the log *)

(** An item above the last executed number is replaced; a message is added by others only where the primary cannot use the
    number any more. *)
Definition updateLog (w : t) (n : Z) (i : I) : res t := l ← ActiveWindow.modify kWorkWindowSize 1 (mainLog w) n (fun _ => i); Ok (set_mainLog w l).

Definition update_ok (w : t) (n : Z) (i : I) : Prop :=
  lastExecutedSeqNum w < n <= lastStableSeqNum w + kWorkWindowSize ∧ item_wf i ∧ li_at (curView w) n i ∧ entry_ok (curView w) n i ∧
  (isCurrentPrimary info w = true → viewActive w = true → primaryLastUsedSeqNum w < n → getPrePrepareMsg i = None).

Lemma updateLog_ok g w n i : INV g w → update_ok w n i → ∃ w', updateLog w n i = Ok w' ∧ INV g w' ∧
  w' = set_mainLog w (mainLog w') ∧ ∀ m, mainGet (mainLog w') m = if decide (m = n) then Ok i else mainGet (mainLog w) m.
Proof.
  intros Hi (Hn & Hw & Ha & He & Hp). pose proof Hi as []. unfold updateLog.
  destruct (ActiveWindow.modify_const kWorkWindowSize 1 (mainLog w) n i inv_main0) as (l & -> & Hwf & Hb & Hget); [split; [lia|apply Z.mod_1_r]| |done|].
  { unfold ActiveWindow.insideActiveWindow. rewrite inv_main_beg0. apply andb_true_iff. split; [apply Z.leb_le|apply Z.ltb_lt]; lia. }
  eexists. split; [done|]. split; [|by split]. constructor; cbn; try done; [by rewrite Hb| |].
  - intros m j Hm. rewrite Hget. case_decide as Hd; [|by apply inv_log0]. intros [= <-]. by subst.
  - intros Hpr Hact. destruct (inv_primary0 Hpr Hact) as [Hle Hnone]. split; [done|]. intros m j Hm. rewrite Hget. case_decide as Hd; [|by apply Hnone]. intros [= <-]. subst m. by apply Hp.
Qed.
End facts.
End ReplicaExecutionHandlers.
