(* ===== verification/ReplicaExecutionProps.v ===== *)
(** * The theorems about execution (ReplicaExecution.v)

    [executeReadWriteRequests] executes the batches that are ready, in order and each
    request at most once. *)
From S2P Require Import Prelude SysConsts Digest ReplicasInfo ActiveWindow MsgsCertificate MessageBase Checkpoint ReservedPages Controller ClientReplyMsg ClientRequestMsg ClientsManager ClientsManagerSpec PrePrepareMsg ReplicaExecution ReplicaExecutionSpec ReplicaExecutionFacts ReplicaExecutionLoop ReplicaExecutionHandlers.

Module ReplicaExecutionProps.
Import ReplicaExecution ReplicaExecutionSpec ReplicaExecutionFacts ReplicaExecutionLoop.
#[local] Abbreviation Request := ClientRequestMsg.Request.
#[local] Abbreviation r_client := ClientRequestMsg.r_client.
#[local] Abbreviation r_seqNum := ClientRequestMsg.r_seqNum.
#[local] Abbreviation lastOf := ClientsManagerSpec.lastOf.

(** ** Calls of the application *)
Section calls.
Context (clients : list Z) {A : Type} (execute : A → Z → Z → bool → list Z → Z → list Z → Z → A * Z * list Z * Z).
#[local] Abbreviation entry := (Z * list Z * Request)%type.
#[local] Abbreviation isNew := (isNew clients).

(** The requests of the batches from number [n], each with the number and the signature of its batch. *)
Fixpoint entries (n : Z) (bs : list (list Z * list Request)) : list entry :=
  match bs with [] => [] | b :: bs' => ((fun r => (n, b.1, r)) <$> b.2) ++ entries (n + 1) bs' end.

(** One call of the application, and its effect. *)
Definition perform (a : abs A) (e : entry) : abs A :=
  let '(n, sig, r) := e in
  let '(app, _, buf, len) := callApp execute n sig a r in
  mkAbs (<[r_client r := (r_seqNum r, take (Z.to_nat len) buf)]> (a_cache a)) app buf.

(** The requests for which the application is called. *)
Fixpoint callsOf (a : abs A) (es : list entry) : list entry :=
  match es with
  | [] => []
  | e :: es' => if isNew a e.2 then e :: callsOf (perform a e) es' else callsOf a es'
  end.

(** The numbers of the requests of client [c]. *)
Definition numbersOf (c : Z) (es : list entry) : list Z := (fun e => r_seqNum e.2) <$> filter (fun e => r_client e.2 = c) es.

Lemma serve_perform n sig a r : serve clients execute n sig a r = if isNew a r then perform a (n, sig, r) else a.
Proof. done. Qed.

Lemma perform_last a e c : lastOf (a_cache (perform a e) !! c) = if decide (c = r_client e.2) then r_seqNum e.2 else lastOf (a_cache a !! c).
Proof.
  destruct e as [[n sig] r]. unfold perform. destruct (callApp execute n sig a r) as [[[app err] buf] len]. cbn.
  case_decide as Hc; [subst; by rewrite lookup_insert_eq|by rewrite lookup_insert_ne by done].
Qed.

Lemma serveBatches_entries bs : ∀ n a, serveBatches clients execute n a bs = foldl (fun a e => serve clients execute e.1.1 e.1.2 a e.2) a (entries n bs).
Proof.
  induction bs as [|[sig rs] bs IH]; intros n a; [done|]. cbn [serveBatches entries]. rewrite IH, foldl_app. f_equal. unfold serveBatch. cbn [fst snd].
  revert a. induction rs as [|r rs IHr]; intros a; [done|]. cbn. apply IHr.
Qed.

Lemma calls_perform es : ∀ a, foldl (fun a e => serve clients execute e.1.1 e.1.2 a e.2) a es = foldl perform a (callsOf a es).
Proof. induction es as [|[[n sig] r] es IH]; intros a; [done|]. cbn [foldl callsOf fst snd]. rewrite serve_perform. destruct (isNew a r); cbn [foldl]; apply IH. Qed.

Lemma calls_sublist es : ∀ a, callsOf a es `sublist_of` es.
Proof. induction es as [|e es IH]; intros a; [done|]. cbn [callsOf]. destruct (isNew a e.2); by constructor. Qed.

Lemma isNew_spec (a : abs A) r : isNew a r = true ↔ r_client r ∈ clients ∧ lastOf (a_cache a !! r_client r) < r_seqNum r.
Proof. unfold ReplicaExecutionSpec.isNew. by rewrite andb_true_iff, bool_decide_eq_true, Z.ltb_lt. Qed.

Lemma calls_increasing c es : ∀ a : abs A, StronglySorted Z.lt (lastOf (a_cache a !! c) :: numbersOf c (callsOf a es)).
Proof.
  induction es as [|e es IH]; intros a; [by repeat constructor|]. cbn [callsOf]. destruct (isNew a e.2) eqn:Hn; [|apply IH]. apply isNew_spec in Hn as [_ Hlt].
  specialize (IH (perform a e)). rewrite perform_last in IH. unfold numbersOf in *. rewrite filter_cons. destruct (decide (c = r_client e.2)) as [->|Hd].
  - rewrite decide_True by done. rewrite fmap_cons. constructor; [done|]. apply StronglySorted_inv in IH as [_ IH].
    constructor; [lia|]. eapply Forall_impl; [exact IH|]. cbv beta. lia.
  - by rewrite decide_False by done.
Qed.

Lemma calls_cover es : ∀ (a : abs A) (e : entry), e ∈ es → r_client e.2 ∈ clients → lastOf (a_cache a !! r_client e.2) < r_seqNum e.2 →
  ∃ q, q ∈ numbersOf (r_client e.2) (callsOf a es) ∧ r_seqNum e.2 <= q.
Proof.
  induction es as [|e0 es IH]; intros a e He Hc Hlt; [by apply elem_of_nil in He|]. cbn [callsOf].
  assert (Hhead : ∀ l, r_client e0.2 = r_client e.2 → r_seqNum e0.2 ∈ numbersOf (r_client e.2) (e0 :: l)).
  { intros l Heq. unfold numbersOf. rewrite filter_cons, decide_True by done. rewrite fmap_cons. set_solver. }
  assert (Htail : ∀ l q, q ∈ numbersOf (r_client e.2) l → q ∈ numbersOf (r_client e.2) (e0 :: l)).
  { intros l q Hq. unfold numbersOf in *. rewrite filter_cons. case_decide; [rewrite fmap_cons; set_solver|done]. }
  destruct (isNew a e0.2) eqn:Hn.
  - destruct (decide (r_client e0.2 = r_client e.2 ∧ r_seqNum e.2 <= r_seqNum e0.2)) as [[Hq Hle]|Hd]; [exists (r_seqNum e0.2); auto|].
    apply elem_of_cons in He as [->|He]; [destruct Hd; split; [done|lia]|].
    destruct (IH (perform a e0) e He Hc) as (q & Hq & Hle); [|eauto]. rewrite perform_last. case_decide as Hd2; [|done].
    destruct (decide (r_seqNum e.2 <= r_seqNum e0.2)); [by destruct Hd|lia].
  - apply elem_of_cons in He as [->|He]; [|by apply IH].
    assert (isNew a e0.2 = true) by (by apply isNew_spec). congruence.
Qed.

(** ** Agreement *)

(** What the application writes and returns does not depend on what the buffer contains. *)
Definition ignores_buffer : Prop := ∀ a c n ro data buf1 len1 buf2 len2,
  Z.of_nat (length buf1) = maxReplyLength → Z.of_nat (length buf2) = maxReplyLength →
  let '(a1, _, b1, l1) := execute a c n ro data maxReplyLength buf1 len1 in
  let '(a2, _, b2, l2) := execute a c n ro data maxReplyLength buf2 len2 in
  a1 = a2 ∧ l1 = l2 ∧ take (Z.to_nat l1) b1 = take (Z.to_nat l2) b2.

Definition keeps_buffer : Prop := ∀ a c n ro data buf len, Z.of_nat (length buf) = maxReplyLength → 0 <= len <= maxReplyLength →
  let '(_, _, b, _) := execute a c n ro data maxReplyLength buf len in Z.of_nat (length b) = maxReplyLength.

Record agree (a1 a2 : abs A) : Prop := {
  ag_cache : a_cache a1 = a_cache a2;
  ag_app : a_app a1 = a_app a2;
  ag_buf1 : Z.of_nat (length (a_buf a1)) = maxReplyLength;
  ag_buf2 : Z.of_nat (length (a_buf a2)) = maxReplyLength;
}.

Context (Hign : ignores_buffer) (Hkeep : keeps_buffer).
#[local] Abbreviation fits sig := (2 * Z.of_nat (length sig) <= maxReplyLength).

Lemma serve_agree n sig1 sig2 a1 a2 r : agree a1 a2 → fits sig1 → fits sig2 →
  agree (serve clients execute n sig1 a1 r) (serve clients execute n sig2 a2 r).
Proof.
  intros [Hc Ha H1 H2] F1 F2. rewrite !serve_perform. unfold ReplicaExecutionSpec.isNew. rewrite Hc. destruct (_ && _); [|done]. unfold perform, callApp. rewrite Ha.
  assert (L1 : Z.of_nat (length (withProof sig1 (a_buf a1))) = maxReplyLength) by (rewrite length_withProof by lia; done).
  assert (L2 : Z.of_nat (length (withProof sig2 (a_buf a2))) = maxReplyLength) by (rewrite length_withProof by lia; done).
  pose proof (Hign (a_app a2) (r_client r) n (ClientRequestMsg.r_readOnly r) (ClientRequestMsg.r_data r) _ (2 * Z.of_nat (length sig1)) _ (2 * Z.of_nat (length sig2)) L1 L2) as Hi.
  pose proof (Hkeep (a_app a2) (r_client r) n (ClientRequestMsg.r_readOnly r) (ClientRequestMsg.r_data r) _ (2 * Z.of_nat (length sig1)) L1 ltac:(lia)) as K1.
  pose proof (Hkeep (a_app a2) (r_client r) n (ClientRequestMsg.r_readOnly r) (ClientRequestMsg.r_data r) _ (2 * Z.of_nat (length sig2)) L2 ltac:(lia)) as K2.
  destruct (execute _ _ _ _ _ _ (withProof sig1 _) _) as [[[x1 e1] b1] l1]. destruct (execute _ _ _ _ _ _ (withProof sig2 _) _) as [[[x2 e2] b2] l2].
  destruct Hi as (-> & -> & Ht). constructor; cbn; [by rewrite Hc, Ht|done|done|done].
Qed.

Lemma serveBatches_agree bs1 : ∀ bs2 n a1 a2, snd <$> bs1 = snd <$> bs2 → Forall (fun b => fits b.1) bs1 → Forall (fun b => fits b.1) bs2 → agree a1 a2 →
  agree (serveBatches clients execute n a1 bs1) (serveBatches clients execute n a2 bs2).
Proof.
  induction bs1 as [|[sig1 rs1] bs1 IH]; intros [|[sig2 rs2] bs2] n a1 a2 Hb F1 F2 Ha; [done|done|done|]. rewrite !fmap_cons in Hb. injection Hb as Hr Hb. cbn in Hr. subst rs2.
  apply Forall_cons in F1 as [F1 F1'], F2 as [F2 F2']. cbn [fst] in *. cbn [serveBatches]. apply IH; [done..|]. unfold serveBatch. cbn [fst snd].
  revert a1 a2 Ha. induction rs1 as [|r rs IHr]; intros a1 a2 Ha; [done|]. cbn [foldl]. apply IHr. by apply serve_agree.
Qed.
End calls.

(** ** The setting *)

(** The digest function gives 32 bytes; the limit of concurrent agreements is legal; the reserved pages hold a reply for
    each client. *)
Record setting (H : list Z → Digest) (maxConcurrent : Z) (clients : list Z) (num size : Z) : Prop := {
  se_hash x : length (H x) = 32%nat;
  se_concurrent : 0 <= maxConcurrent <= maxLegalConcurrentAgreementsByPrimary;
  se_size : ClientReplyMsg.sizeof_ClientReplyMsgHeader <= size;
  se_clients : NoDup clients ∧ clients ≠ [];
  se_pages : Z.of_nat (length clients) * ClientsManagerSpec.per size <= num;
  se_num : num < 4294967296;
}.

Section theorems.
Context {I Pr S A Ct : Type} {IF : ItemFuncs I} {LI : LogItem I Pr} {RP : ReservedPages S} {ST : StateTransfer A S} {CO : Controller Ct}.
Context (num size : Z) {RPS : ReservedPagesSpec S num size} {STS : StateTransferSpec A S num size}.
Context (H : list Z → Digest) (maxConcurrent : Z) (clients : list Z) (Hset : setting H maxConcurrent clients num size).
Context (execute : A → Z → Z → bool → list Z → Z → list Z → Z → A * Z * list Z * Z) (Happ : app_contract num size execute).
#[local] Abbreviation t := (@t I Pr S A Ct).
#[local] Abbreviation nextOf w := (lastExecutedSeqNum w + 1).
#[local] Abbreviation readyBatches w := (readyFrom w (nextOf w) (Z.to_nat kWorkWindowSize)).

Section one.
Context (info : ReplicasInfo.t) (Hinfo : ReplicasInfo.wf info) {LIS : LogItemSpec info I Pr} {CTS : ControllerSpec info Ct}.
#[local] Abbreviation REP := (represents info Hinfo clients num size).

Lemma executed now b (w : t) a : REP w a → viewActive w = true → lastStableSeqNum w + 2 * kWorkWindowSize < 2 ^ 63 →
  ∃ w', executeReadWriteRequests info Hinfo H maxConcurrent execute now b w = Ok (tt, w') ∧ stopped info Hinfo clients num size execute w w' a (Z.to_nat kWorkWindowSize).
Proof.
  destruct Hset as [? ? ? [? ?] ? ?]. intros Hr Ha Hb. destruct (execute_runs info Hinfo H ltac:(done) maxConcurrent ltac:(done) clients num size execute
    ltac:(done) ltac:(done) ltac:(done) ltac:(done) ltac:(done) Happ now b w a Hr Ha Hb) as ([] & w' & He & Hs). eauto.
Qed.

Lemma readyFrom_fits g k : ∀ (w : t) n, inv info Hinfo clients num size g w → lastExecutedSeqNum w < n →
  Forall (fun b => 2 * Z.of_nat (length b.1) <= maxReplyLength) (readyFrom w n k).
Proof.
  induction k as [|k IH]; intros w n Hi Hn; [constructor|]. cbn [readyFrom]. destruct (batchAt w n) as [[sig rs]|] eqn:E; [|constructor]. constructor; [|apply IH; [done|lia]].
  unfold batchAt in E. destruct (ActiveWindow.get kWorkWindowSize 1 (mainLog w) n) as [i|] eqn:Hg; [|done]. destruct (inv_log _ _ _ _ _ _ _ Hi n i Hn Hg) as [_ He].
  unfold ready in E. destruct (getPrePrepareMsg i) as [pp|] eqn:Hpp; [|done]. destruct (fullProof i) as [sig'|] eqn:Hf; [|done]. destruct (isCommitted__gg i) eqn:Hc; [|done].
  destruct (PrePrepareMsg.readRequests pp); [|done]. injection E as <- <-. destruct (He pp Hpp Hc) as (s & r & Hco). destruct Hco. cbn. congruence.
Qed.
End one.

(** C7: Execution returns: in a state with the invariant in which every committed batch has its full proof,
    [executeReadWriteRequests] does not fail and executes exactly the batches that are ready, one after the other from the
    number after the last executed one to the first number that is not ready, with the effect of [serveBatches] on the cache
    of replies in the reserved pages, on the state of the application and on the reply buffer; the invariant holds again, the
    view stays, and the next number is not ready. *)
Theorem requests_executed_in_order (info : ReplicasInfo.t) (Hinfo : ReplicasInfo.wf info) {LIS : LogItemSpec info I Pr} {CTS : ControllerSpec info Ct} now b (w : t) a :
  represents info Hinfo clients num size w a → viewActive w = true → lastStableSeqNum w + 2 * kWorkWindowSize < 2 ^ 63 →
  ∃ w', executeReadWriteRequests info Hinfo H maxConcurrent execute now b w = Ok (tt, w') ∧
    represents info Hinfo clients num size w' (serveBatches clients execute (nextOf w) a (readyBatches w)) ∧
    lastExecutedSeqNum w' = lastExecutedSeqNum w + Z.of_nat (length (readyBatches w)) ∧
    curView w' = curView w ∧ viewActive w' = true ∧ batchAt w' (nextOf w') = None.
Proof.
  intros Hr Ha Hb. destruct (executed info Hinfo now b w a Hr Ha Hb) as (w' & He & Hr' & Hl & [Hv Hv'] & Hn). exists w'. split_and!; try done. congruence.
Qed.

(** C8: Each request is executed at most once, and none is lost: the application is called for a sublist of the requests of the
    ready batches, in their order; the final state is the result of these calls; the numbers of the calls for a client
    increase strictly and are above the number of its latest reply; and for every request of a known client that is above
    the latest reply there is a call for the client with this number or a higher one. *)
Theorem requests_executed_once (info : ReplicasInfo.t) (Hinfo : ReplicasInfo.wf info) {LIS : LogItemSpec info I Pr} {CTS : ControllerSpec info Ct} now b (w : t) a :
  represents info Hinfo clients num size w a → viewActive w = true → lastStableSeqNum w + 2 * kWorkWindowSize < 2 ^ 63 →
  ∃ w' calls, executeReadWriteRequests info Hinfo H maxConcurrent execute now b w = Ok (tt, w') ∧
    let es := entries (nextOf w) (readyBatches w) in
    calls `sublist_of` es ∧ represents info Hinfo clients num size w' (foldl (perform execute) a calls) ∧
    (∀ c, StronglySorted Z.lt (lastOf (a_cache a !! c) :: numbersOf c calls)) ∧
    (∀ e, e ∈ es → r_client e.2 ∈ clients → lastOf (a_cache a !! r_client e.2) < r_seqNum e.2 → ∃ q, q ∈ numbersOf (r_client e.2) calls ∧ r_seqNum e.2 <= q).
Proof.
  intros Hr Ha Hb. destruct (executed info Hinfo now b w a Hr Ha Hb) as (w' & He & Hr' & _). exists w', (callsOf clients execute a (entries (nextOf w) (readyBatches w))).
  rewrite serveBatches_entries, calls_perform in Hr'. cbv zeta. split_and!; [done|apply calls_sublist|done|intros c; apply calls_increasing|]. intros e. apply calls_cover.
Qed.

End theorems.
End ReplicaExecutionProps.

(** * Runs of a replica (ReplicaExecution.v)

    A replica from its start, with requests of clients, checkpoint messages, the work of the
    commit protocol on the log, execution and its timers in any order: it implements the
    sequential service of ReplicaExecutionSpec.v.  Runs end when the replica starts to
    fetch a state. *)
Module ReplicaExecutionRuns.
Import ReplicaExecution ReplicaExecutionSpec ReplicaExecutionFacts ReplicaExecutionLoop ReplicaExecutionHandlers ReplicaExecutionProps.
#[local] Abbreviation Request := ClientRequestMsg.Request.

Section runs.
Context {I Pr S A Ct : Type} {IF : ItemFuncs I} {LI : LogItem I Pr} {RP : ReservedPages S} {ST : StateTransfer A S} {CO : Controller Ct}.
Context (num size : Z) {RPS : ReservedPagesSpec S num size} {STS : StateTransferSpec A S num size}.
Context (H : list Z → Digest) (maxConcurrent : Z) (clients : list Z) (execute : A → Z → Z → bool → list Z → Z → list Z → Z → A * Z * list Z * Z).
Context (info : ReplicasInfo.t) (Hinfo : ReplicasInfo.wf info) {LIS : LogItemSpec info I Pr} {CTS : ControllerSpec info Ct}.
#[local] Abbreviation t := (@t I Pr S A Ct).
#[local] Abbreviation REP := (represents info Hinfo clients num size).

Inductive Op :=
  | ClientRequest (now : Z) (m : MessageBase.t)
  | Checkpoint (now : Z) (m : CheckpointInfo.msg)
  | UpdateLog (n : Z) (i : I)
  | Execute (now : Z) (requestMissingInfo : bool)
  | SendCheckpoint (now : Z)
  | SendBatch (now : Z) (batchingLogic : bool).

(** The replica, and the batches it has executed. *)
Record world := mkW { rep : t; history : list (list Z * list Request) }.

Definition idle (W : world) : Prop := isCollectingState (stateTransfer (rep W)) = false.

Definition exec (W : world) (o : Op) : res world :=
  let same (r : res (unit * t)) := p ← r; Ok (mkW p.2 (history W)) in
  match o with
  | ClientRequest now m => same (onClientRequest info H maxConcurrent execute now m (rep W))
  | Checkpoint now m => same (onCheckpoint info Hinfo H maxConcurrent now m (rep W))
  | UpdateLog n i => w ← updateLog (rep W) n i; Ok (mkW w (history W))
  | Execute now b =>
      p ← executeReadWriteRequests info Hinfo H maxConcurrent execute now b (rep W);
      Ok (mkW p.2 (history W ++ readyFrom (rep W) (lastExecutedSeqNum (rep W) + 1) (Z.to_nat kWorkWindowSize)))
  | SendCheckpoint now => same (sendCheckpointIfNeeded info Hinfo H maxConcurrent now (rep W))
  | SendBatch now b => same (tryToSendPrePrepareMsg info H maxConcurrent now b (rep W))
  end.

(** What is assumed of the steps: requests are well formed, fit a batch and have a number other than 0; checkpoint messages were
    validated; committed items have their proof; only the primary makes batches.  Validation does not establish the first
    and the slow path not the third: ReplicaExecutionErrors has what happens then. *)
Definition pre (W : world) (o : Op) : Prop :=
  idle W ∧ lastExecutedSeqNum (rep W) + 2 * kWorkWindowSize < 2 ^ 63 ∧
  match o with
  | ClientRequest _ m => ∃ r, isRequest m r
  | Checkpoint _ m => fromPeer info m
  | UpdateLog n i => update_ok info (rep W) n i
  | Execute _ _ | SendCheckpoint _ => True
  | SendBatch _ _ => isCurrentPrimary info (rep W) = true
  end.

(** The state of the service after the batches. *)
Definition service (a : abs A) (hs : list (list Z * list Request)) : abs A := serveBatches clients execute 1 a hs.

Record refines (a : abs A) (W : world) : Prop := {
  rf_rep : REP (rep W) (service a (history W));
  rf_count : lastExecutedSeqNum (rep W) = Z.of_nat (length (history W));
  rf_active : viewActive (rep W) = true;
  rf_fits : Forall (fun b => 2 * Z.of_nat (length b.1) <= maxReplyLength) (history W);
}.

Lemma serveBatches_app bs1 : ∀ n a bs2,
  serveBatches clients execute n a (bs1 ++ bs2) = serveBatches clients execute (n + Z.of_nat (length bs1)) (serveBatches clients execute n a bs1) bs2.
Proof.
  induction bs1 as [|b bs1 IH]; intros n a bs2; [cbn; by rewrite Z.add_0_r|]. cbn [app serveBatches length]. rewrite IH. f_equal. lia.
Qed.

Context (Hset : setting H maxConcurrent clients num size) (Happ : app_contract num size execute) (Hro : readonly_contract execute).

(** A handler that changes nothing of the service. *)
Lemma handler_ok a W (m : @M I Pr S A Ct unit) : idle W → refines a W →
  (∀ g, inv info Hinfo clients num size g (rep W) → runs m (rep W) (fun _ w' => settled info Hinfo clients num size g (rep W) w')) →
  ∃ W', (p ← m (rep W); Ok (mkW p.2 (history W))) = Ok W' ∧ (idle W' → refines a W').
Proof.
  intros Hidle Hr Hm. pose proof (rf_rep _ _ Hr) as (Hi & _ & _). destruct (Hm _ Hi) as ([] & w' & He & Hs). rewrite He. cbn [mbind res_bind snd]. eexists. split; [done|].
  intros Hid. destruct (Hs Hid) as [Hi' Hq]. destruct Hr as [(_ & Ha & Hb) Hc Hact Hf]. destruct Hq as [[_ Hv] Hx [Hap Hbu] _].
  constructor; cbn [rep history]; [|congruence|congruence|done]. split_and!; [done|by rewrite Hap|by rewrite Hbu].
Qed.

Lemma quiet_settled g (m : @M I Pr S A Ct unit) w : runs m w (fun _ w' => inv info Hinfo clients num size g w' ∧ quiet w w') →
  runs m w (fun _ w' => settled info Hinfo clients num size g w w').
Proof. intros Hm. eapply runs_mono; [exact Hm|]. intros [] w' Hw _. done. Qed.

Lemma op_ok a W o : idle W → refines a W → pre W o → ∃ W', exec W o = Ok W' ∧ (idle W' → refines a W').
Proof.
  intros Hidle Hr (_ & Hbound & Hpre). pose proof Hset as [? ? ? [? ?] ? ?]. pose proof (rf_active _ _ Hr) as Hact. pose proof (rf_rep _ _ Hr) as Hrep. pose proof Hrep as (Hi & _ & _).
  pose proof (inv_executed _ _ _ _ _ _ _ Hi) as Hex. destruct o as [now m|now m|n i|now b|now|now b]; cbn [exec].
  - destruct Hpre as [r Hr']. apply (handler_ok a); [done|done|]. intros g Hg. apply quiet_settled. by eapply onClientRequest_runs; [..|lia|].
  - apply (handler_ok a); [done|done|]. intros g Hg. eapply onCheckpoint_runs; try done. lia.
  - destruct (updateLog_ok info Hinfo clients num size _ (rep W) n i Hi Hpre) as (w' & -> & Hi' & Heq & _). cbn [mbind res_bind]. eexists. split; [done|]. intros _.
    destruct Hr as [(_ & Ha & Hb) Hc Hact' Hf]. rewrite Heq. rewrite Heq in Hi'. constructor; cbn; try done.
  - destruct (executed num size H maxConcurrent clients Hset execute Happ info Hinfo now b (rep W) _ Hrep Hact ltac:(lia)) as (w' & -> & Hr' & Hl & [_ Hv] & _).
    cbn [mbind res_bind snd]. eexists. split; [done|]. intros _. destruct Hr as [_ Hc _ Hf]. constructor; cbn.
    + unfold service. rewrite serveBatches_app, <- Hc, (Z.add_comm 1). exact Hr'.
    + rewrite length_app. rewrite Hl. lia.
    + congruence.
    + apply Forall_app. split; [done|]. eapply (readyFrom_fits num size clients info Hinfo); [exact Hi|lia].
  - apply (handler_ok a); [done|done|]. intros g Hg. apply quiet_settled. eapply ReplicaExecutionStable.sendCheckpointIfNeeded_runs; try done. lia.
  - apply (handler_ok a); [done|done|]. intros g Hg. apply quiet_settled.
    eapply runs_mono; [eapply ReplicaExecutionPrimary.tryToSend_runs; try done; lia|]. intros [] w' [Hi' [Hq _ _]]. done.
Qed.

(** A new replica. *)
Definition started (numOfClientProxies now : Z) (memory : list Z) (s : S) (app : A) (ct : Ct) (w : t) : Prop :=
  clients = merge_sort Z.le (elements (list_to_set (C := gset Z) (seqZ (ReplicasInfo._numberOfReplicas info) numOfClientProxies))) ∧
  Z.of_nat (length clients) < 65536 ∧ Z.of_nat (length memory) = maxReplyLength ∧ st_ok app 0 s ∧ ct_ok ct ∧
  ctor info Hinfo numOfClientProxies size now memory s app ct = Ok w.

Lemma run_refines n now memory s app ct w W : started n now memory s app ct w → reachable exec pre (mkW w []) W → idle W → refines (mkAbs ∅ app memory) W.
Proof.
  intros (Hcl & H16 & Hmem & Hst & Hct & Hw). pose proof Hset as [? ? ? [? ?] ? ?].
  destruct (ctor_runs info Hinfo clients num size ltac:(done) ltac:(done) ltac:(done) ltac:(done) ltac:(done) n now memory s app ct Hcl H16 Hmem Hst Hct) as (w' & Hw' & Hr & Hl & _ & Hact & _).
  assert (w' = w) as -> by congruence. intros Hrun. revert W Hrun.
  assert (∀ W, reachable exec pre (mkW w []) W → idle W → refines (mkAbs ∅ app memory) W) as Hall; [|exact Hall].
  induction 1 as [|W o W' _ IH Hpre He]; intros Hidle; [by constructor|]. pose proof Hpre as (Hid & _).
  destruct (op_ok _ W o Hid (IH Hid) Hpre) as (W2 & He2 & Hr2). assert (W2 = W') as -> by congruence. by apply Hr2.
Qed.
End runs.
Arguments Op : clear implicits.
Arguments world : clear implicits.

Section theorems.
Context {I Pr S A Ct : Type} {IF : ItemFuncs I} {LI : LogItem I Pr} {RP : ReservedPages S} {ST : StateTransfer A S} {CO : Controller Ct}.
Context (num size : Z) {RPS : ReservedPagesSpec S num size} {STS : StateTransferSpec A S num size}.
Context (H : list Z → Digest) (maxConcurrent : Z) (clients : list Z) (Hset : setting H maxConcurrent clients num size).
Context (execute : A → Z → Z → bool → list Z → Z → list Z → Z → A * Z * list Z * Z) (Happ : app_contract num size execute) (Hro : readonly_contract execute).

(** C1: A replica in one view, from its constructor, in any order of requests of clients, checkpoint messages of its peers, changes of
    the log by the commit protocol, executions and timers, under these conditions: requests are well formed, have no bytes after their
    data, fit a batch and have a number other than 0 ([isRequest]); checkpoint messages passed validation; the commit protocol changes
    only items above the last executed number, and a committed item has its message, with readable requests of numbers other than 0,
    and its full proof ([update_ok]); the application reports no error and its replies fit ([app_contract], [readonly_contract]); no
    state is fetched; numbers stay two windows below 2^63.  Then no assertion fails, no page, message or window is used outside its
    bounds and every loop ends; the executed numbers are [1, 2, ...] in order, within one window of the last stable checkpoint; and the
    replies in the reserved pages and the state of the application are those of the sequential service after the executed batches.
    (What happens outside of these conditions: [slow_path_commit_stops_replica], [unusable_request_stops_primary],
    [request_zero_stops_replica].) *)
Theorem replica_safe info (Hinfo : ReplicasInfo.wf info) {LIS : LogItemSpec info I Pr} {CTS : ControllerSpec info Ct} n now memory s app ct w W :
  started num size clients info Hinfo n now memory s app ct w →
  reachable (exec H maxConcurrent execute info Hinfo) (pre info) (mkW w []) W → idle W →
  (∀ o, pre info W o → ∃ W', exec H maxConcurrent execute info Hinfo W o = Ok W') ∧
  lastExecutedSeqNum (rep W) = Z.of_nat (length (history W)) ∧
  lastStableSeqNum (rep W) <= lastExecutedSeqNum (rep W) <= lastStableSeqNum (rep W) + kWorkWindowSize ∧
  represents info Hinfo clients num size (rep W) (service clients execute (mkAbs ∅ app memory) (history W)).
Proof.
  intros Hw Hrun Hidle. pose proof (run_refines num size H maxConcurrent clients execute info Hinfo Hset Happ Hro _ _ _ _ _ _ _ _ Hw Hrun Hidle) as Hr.
  pose proof Hr as [Hrep Hc _ _]. pose proof Hrep as (Hi & _ & _). split_and!; [|done|apply Hi|apply Hi|done].
  intros o Hpre. destruct (op_ok num size H maxConcurrent clients execute info Hinfo Hset Happ Hro _ W o Hidle Hr Hpre) as (W' & He & _). eauto.
Qed.

(** C3: Replicas agree: two replicas that started with the same state of the application and have executed batches with the same
    requests have the same replies in their reserved pages and the same state of the application, whatever else happened to
    them (other interleavings, messages, clocks, batch signatures and contents of the reply buffer), if the application
    does not read the reply buffer. *)
Theorem replicas_agree info1 info2 (Hinfo1 : ReplicasInfo.wf info1) (Hinfo2 : ReplicasInfo.wf info2) {LIS1 : LogItemSpec info1 I Pr} {LIS2 : LogItemSpec info2 I Pr}
    {CTS1 : ControllerSpec info1 Ct} {CTS2 : ControllerSpec info2 Ct} n1 n2 now1 now2 memory1 memory2 s1 s2 app ct1 ct2 w1 w2 W1 W2 :
  ignores_buffer execute →
  started num size clients info1 Hinfo1 n1 now1 memory1 s1 app ct1 w1 → reachable (exec H maxConcurrent execute info1 Hinfo1) (pre info1) (mkW w1 []) W1 → idle W1 →
  started num size clients info2 Hinfo2 n2 now2 memory2 s2 app ct2 w2 → reachable (exec H maxConcurrent execute info2 Hinfo2) (pre info2) (mkW w2 []) W2 → idle W2 →
  snd <$> history W1 = snd <$> history W2 →
  requestsHandler (rep W1) = requestsHandler (rep W2) ∧
  ∃ replies, (∃ p1, ClientsManagerSpec.inv num size (ReplicasInfo._myId info1) clients (ClientsManagerSpec.mkW (clientsManager (rep W1)) (stateTransfer (rep W1)) (ClientsManagerSpec.mkAbs replies p1))) ∧
    (∃ p2, ClientsManagerSpec.inv num size (ReplicasInfo._myId info2) clients (ClientsManagerSpec.mkW (clientsManager (rep W2)) (stateTransfer (rep W2)) (ClientsManagerSpec.mkAbs replies p2))).
Proof.
  intros Hign Hw1 Hrun1 Hid1 Hw2 Hrun2 Hid2 Hreq.
  pose proof (run_refines num size H maxConcurrent clients execute info1 Hinfo1 Hset Happ Hro _ _ _ _ _ _ _ _ Hw1 Hrun1 Hid1) as [(Hi1 & Ha1 & _) _ _ Hf1].
  pose proof (run_refines num size H maxConcurrent clients execute info2 Hinfo2 Hset Happ Hro _ _ _ _ _ _ _ _ Hw2 Hrun2 Hid2) as [(Hi2 & Ha2 & _) _ _ Hf2].
  assert (Hag : agree (service clients execute (mkAbs ∅ app memory1) (history W1)) (service clients execute (mkAbs ∅ app memory2) (history W2))).
  { apply serveBatches_agree; [done| |done|done|done|].
    - intros x c k ro data buf len L1 L2. pose proof (Happ x c k ro data buf len L1 L2) as Hx. destruct (execute x c k ro data maxReplyLength buf len) as [[[? ?] ?] ?]. apply Hx.
    - constructor; [done|done|apply Hw1|apply Hw2]. }
  destruct Hag as [Hca Hap _ _]. split; [by rewrite Ha1, Ha2|]. exists (a_cache (service clients execute (mkAbs ∅ app memory1) (history W1))).
  split; [apply Hi1|rewrite Hca; apply Hi2].
Qed.
End theorems.
End ReplicaExecutionRuns.
