(* ===== verification/ReplicaExecutionExample.v ===== *)
(** * Instances of the interfaces of execution (ReplicaExecution.v)

    The laws of the interfaces hold for the state transfer that is used when no module is
    loaded and for both controllers; and an example of a replica with a small log, a
    counter as the application and two clients. *)
From Stdlib Require Import SpecFloat.
From S2P Require Import Prelude SysConsts Digest ReplicasInfo ActiveWindow MsgsCertificate MessageBase Checkpoint ReservedPages ClientReplyMsg ClientRequestMsg ClientsManager ClientsManagerSpec PrePrepareMsg PrePrepareMsgProps Controller RollingAvgAndVar ControllerWithSimpleHistory ControllerProps ReplicaExecution ReplicaExecutionSpec ReplicaExecutionFacts ReplicaExecutionLoop ReplicaExecutionHandlers ReplicaExecutionProps.

Module ReplicaExecutionExample.
Import ReplicaExecution ReplicaExecutionSpec ReplicaExecutionFacts ReplicaExecutionLoop ReplicaExecutionHandlers ReplicaExecutionProps ReplicaExecutionRuns.
#[local] Existing Instance NullStateTransfer.reserved_pages.
#[local] Existing Instance NullStateTransfer.state_transfer.

(** ** State transfer *)
Section null.
Context (num size : Z) (Hnum : 0 < num) (Hsize : 0 < size) (Hfit : num * size < 4294967296) (H : list Z → Digest) (HH : ∀ x, length (H x) = 32%nat) {A : Type}.
#[local] Instance null_pages : ReservedPagesSpec NullStateTransfer.t num size := NullStateTransfer.spec num size Hnum Hsize Hfit.
#[local] Instance null_module : StateTransfer A NullStateTransfer.t := NullStateTransfer.state_transfer H.

Lemma put_ok s id data m : NullStateTransfer.ok num size s → put_bytes (NullStateTransfer.reservedPages s) id data = Ok m →
  NullStateTransfer.ok num size (NullStateTransfer.mk (NullStateTransfer.numOfReservedPages s) (NullStateTransfer.sizeOfPage s) m (NullStateTransfer.running s) (NullStateTransfer.errorReport s)).
Proof. intros (Hn & Hs & Hl) He. apply put_bytes_length in He. split_and!; cbn; [done|done|]. by rewrite He. Qed.

#[local] Program Instance null_spec : StateTransferSpec A NullStateTransfer.t num size := {| st_ok _ _ s := NullStateTransfer.ok num size s |}.
Next Obligation. done. Qed.
Next Obligation. done. Qed.
Next Obligation. intros a l s id data s' Hok _ He. cbn in He. unfold NullStateTransfer.save in He. res_simpl. by eapply put_ok. Qed.
Next Obligation. intros a l s id s' Hok _ He. cbn in He. unfold NullStateTransfer.zero in He. res_simpl. by eapply put_ok. Qed.
Next Obligation. intros a l s k Hok _ _. exists s. done. Qed.
Next Obligation.
  intros a l s _ _. cbn. unfold NullStateTransfer.digestOfCheckpoint. cbn [DIGEST_SIZE Z.leb Z.compare Pos.compare Pos.compare_cont Assert mbind res_bind].
  destruct (put_bytes_in (replicate (Z.to_nat DIGEST_SIZE) 0) 0 (H (le_enc 8 l))) as (b & Hb & _); [done|rewrite HH; done|]. by exists b.
Qed.
Next Obligation. intros a l s k Hok _ _. exists s. done. Qed.
Next Obligation.
  intros a l s Hok. cbn. unfold NullStateTransfer.startCollecting. destruct (NullStateTransfer.errorReport s); eexists; (split; [done|]); intros _; done.
Qed.
End null.

(** ** Controllers *)
Section controllers.
Context (info : ReplicasInfo.t).

#[export] Program Instance simple_controller : ControllerSpec (CO := SimpleController.controller) info SimpleController.t := {|
  ct_ok c := SimpleController.currentFirstPath c ≠ CP_NA ∧ (ReplicasInfo._cVal info = 0 → SimpleController.currentFirstPath c ≠ FAST_WITH_THRESHOLD) |}.
Next Obligation. done. Qed.
Next Obligation. intros now c n p Hc _. by exists c. Qed.
Next Obligation. intros now c n Hc _. by exists c, false. Qed.

#[export] Program Instance history_controller undefined : ControllerSpec (CO := ControllerWithSimpleHistory.controller undefined) info ControllerWithSimpleHistory.t := {|
  ct_ok c := ControllerProps.inv c ∧ ControllerWithSimpleHistory.c c = ReplicasInfo._cVal info |}.
Next Obligation. intros undefined c [[_ Hna Hp _ _] Hc]. split; [done|]. intros H0. apply Hp. congruence. Qed.
Next Obligation.
  intros undefined now c n p [Hi Hc] _. destruct (ControllerProps.sending_ok now c n p Hi) as (c' & He & Hi'). exists c'. split_and!; [done|done|].
  rewrite <- Hc. by apply (ControllerProps.exec_c undefined c (ControllerProps.Sending now n p)).
Qed.
Next Obligation.
  intros undefined now c n [Hi Hc] _. destruct (ControllerProps.executed_ok undefined now c n Hi) as (c' & b & He & Hi'). exists c', b. split_and!; [done|done|].
  rewrite <- Hc. apply (ControllerProps.exec_c undefined c (ControllerProps.Executed now n)). cbn [ControllerProps.exec]. cbn in He. by rewrite He.
Qed.
End controllers.

(** ** An example *)

(** Items of the log that are written from outside. *)
Record item := mkItem { i_msg : option MessageBase.t; i_committed : bool; i_proof : option (list Z) }.
Definition noItem : item := mkItem None false None.

#[export] Program Instance ex_items : ItemFuncs item := {| item_init := noItem; item_reset _ := noItem; item_wf _ := True; item_empty i := i = noItem |}.
Solve All Obligations with done.

#[export] Instance ex_item : LogItem item MessageBase.t := {|
  getPrePrepareMsg := i_msg; isCommitted__gg := i_committed; fullProof := i_proof; lastUpdateTimeOfCommitMsgs _ := 0;
  primarySends _ _ i pp := match i_msg i with None => Ok (mkItem (Some pp) false None, [pp]) | Some _ => Err AssertFailed end |}.

#[export] Program Instance ex_item_spec info : LogItemSpec info item MessageBase.t := {| li_at _ _ _ := True |}.
Next Obligation. by intros info i ->. Qed.
Next Obligation. done. Qed.
Next Obligation. intros info now le i pp v n path d _ _ Hn _ _ _ _ _ _ _. cbn in *. rewrite Hn. by eexists _, _. Qed.

(** Replicas 1 and 2 of four; the clients are 4 and 5. *)
Definition ex_info (id : Z) : ReplicasInfo.t :=
  ReplicasInfo.mk id 4 1 0 true true (ReplicasInfo.generateSetOfReplicas_helpFunc 4) (ReplicasInfo.generateSetOfPeerReplicas_helpFunc id 4).
Lemma ex_info_wf id : 0 <= id < 4 → ReplicasInfo.wf (ex_info id).
Proof. intros Hid. by constructor. Qed.
Definition ex_clients : list Z := [4; 5].

Definition ex_hash (x : list Z) : Digest := replicate 32 7.
Lemma ex_hash_32 x : length (ex_hash x) = 32%nat.
Proof. done. Qed.

(** A counter, whose reply is the client. *)
Definition ex_execute (a c n : Z) (ro : bool) (data : list Z) (max : Z) (buf : list Z) (len : Z) : Z * Z * list Z * Z :=
  (if ro then a else a + 1, 0, <[0%nat := c]> buf, 1).

#[export] Instance ex_pages : ReservedPagesSpec NullStateTransfer.t 4 4096 := NullStateTransfer.spec 4 4096 ltac:(lia) ltac:(lia) ltac:(lia).
#[export] Instance ex_module : StateTransfer Z NullStateTransfer.t := NullStateTransfer.state_transfer ex_hash.
#[export] Instance ex_module_spec : StateTransferSpec Z NullStateTransfer.t 4 4096 := null_spec 4 4096 ltac:(lia) ltac:(lia) ltac:(lia) ex_hash ex_hash_32.
#[local] Existing Instance SimpleController.controller.

Lemma ex_setting : setting ex_hash 3 ex_clients 4 4096.
Proof.
  constructor; [apply ex_hash_32|by vm_compute|by vm_compute|split; [|done]|by vm_compute|lia].
  constructor; [|by constructor; [apply not_elem_of_nil|constructor]]. by intros ?%list_elem_of_singleton.
Qed.

Lemma ex_app : app_contract 4 4096 ex_execute.
Proof.
  intros a c n ro data buf len Hl Hlen. cbn. split_and!; [done|done|done| |done]. by rewrite length_insert.
Qed.

Lemma ex_readonly : readonly_contract ex_execute.
Proof. intros a c n data buf max Hl. cbn. split_and!; [done|by rewrite length_insert|]. intros _. unfold max. by vm_compute. Qed.

Lemma ex_ignores : ignores_buffer ex_execute.
Proof.
  intros a c n ro data buf1 len1 buf2 len2 H1 H2. cbn. split_and!; [done|done|]. change (Pos.to_nat 1) with 1%nat.
  destruct buf1, buf2; [by vm_compute in H1..|]. done.
Qed.

Definition ex_reply_buffer : list Z := replicate (Z.to_nat maxReplyLength) 0.
Definition ex_disk : NullStateTransfer.t := NullStateTransfer.init 4 4096 (replicate (Z.to_nat 16384) 0).
Definition ex_controller : SimpleController.t := SimpleController.ctor 10 0.

Lemma ex_start id (Hid : 0 <= id < 4) : ∃ w, started (I := item) (Pr := MessageBase.t) (CO := SimpleController.controller) 4 4096 ex_clients (ex_info id) (ex_info_wf id Hid) 2 0 ex_reply_buffer ex_disk 0 ex_controller w.
Proof.
  pose proof ex_setting as [? ? ? [? ?] ? ?].
  assert (Hc : ex_clients = merge_sort Z.le (elements (list_to_set (C := gset Z) (seqZ (ReplicasInfo._numberOfReplicas (ex_info id)) 2)))) by (by vm_compute).
  assert (Hm : Z.of_nat (length ex_reply_buffer) = maxReplyLength) by (unfold ex_reply_buffer; rewrite length_replicate, Z2Nat.id; [done|by vm_compute]).
  assert (Hd : NullStateTransfer.ok 4 4096 ex_disk) by (unfold ex_disk; split_and!; [done|done|]; cbn [NullStateTransfer.reservedPages NullStateTransfer.init]; rewrite length_replicate; done).
  assert (Hst : st_ok 0 0 ex_disk) by exact Hd.
  destruct (ctor_runs (I := item) (Pr := MessageBase.t) (ex_info id) (ex_info_wf id Hid) ex_clients 4 4096 ltac:(done) ltac:(done) ltac:(done) ltac:(done) ltac:(done) 2 0 ex_reply_buffer ex_disk 0 ex_controller Hc ltac:(done) Hm Hst)
    as (w & Hw & _); [by split|]. exists w. clear -Hc Hm Hst Hw. split; [exact Hc|]. split; [done|]. split; [exact Hm|]. split; [exact Hst|]. split; [by split|exact Hw].
Qed.

(** A batch with one request, committed with a signature of two bytes. *)
Definition ex_request : ClientRequestMsg.Request := ClientRequestMsg.mkRequest 4 false 7 [1].
Definition ex_batch : list Z * list ClientRequestMsg.Request := ([18; 52], [ex_request]).
Definition ex_committed : item := mkItem (Some (PrePrepareMsgProps.finished ex_hash 0 0 1 SLOW [ex_request])) true (Some [18; 52]).

Lemma ex_reads (m := PrePrepareMsgProps.finished ex_hash 0 0 1 SLOW [ex_request]) :
  PrePrepareMsg.viewNumber m = Ok 0 ∧ PrePrepareMsg.seqNumber m = Ok 1 ∧ PrePrepareMsg.readRequests m = Ok [ex_request].
Proof. by vm_compute. Qed.

Lemma ex_entry : entry_ok 0 1 ex_committed.
Proof.
  intros pp Hpp _. destruct ex_reads as (Hv & Hn & Hr). exists [18; 52], [ex_request]. unfold ex_committed in Hpp. cbn [getPrePrepareMsg ex_item i_msg] in Hpp. injection Hpp as <-.
  constructor; [done|by vm_compute|exact Hn|exact Hv|exact Hr|]. by repeat constructor.
Qed.

(** A new replica. *)
Lemma ex_fresh id (Hid : 0 <= id < 4) : ∃ w, started (I := item) (Pr := MessageBase.t) (CO := SimpleController.controller) 4 4096 ex_clients (ex_info id) (ex_info_wf id Hid) 2 0 ex_reply_buffer ex_disk 0 ex_controller w ∧
  represents (ex_info id) (ex_info_wf id Hid) ex_clients 4 4096 w (mkAbs ∅ 0 ex_reply_buffer) ∧
  (viewActive w = true ∧ lastExecutedSeqNum w = 0 ∧ lastStableSeqNum w = 0 ∧ curView w = 0) ∧ ActiveWindow.ctor kWorkWindowSize 1 1 = Ok (mainLog w) ∧
  requestsQueueOfPrimary w = [] ∧ primaryLastUsedSeqNum w = 0 ∧
  ∀ c q, c ∈ ex_clients → 0 < q → ClientsManager.noPendingAndRequestCanBecomePending (clientsManager w) c q = Ok true.
Proof.
  destruct (ex_start id Hid) as [w Hw]. exists w. pose proof ex_setting as [? ? ? [? ?] ? ?]. pose proof Hw as (Hc & H16 & Hm & Hst & Hct & Hw').
  destruct (ctor_runs (I := item) (Pr := MessageBase.t) (ex_info id) (ex_info_wf id Hid) ex_clients 4 4096 ltac:(done) ltac:(done) ltac:(done) ltac:(done) ltac:(done) 2 0 ex_reply_buffer ex_disk 0 ex_controller Hc H16 Hm Hst Hct)
    as (w1 & Hw1 & Hr & Hl & Hs & Ha & Hcl). rewrite Hw' in Hw1. injection Hw1 as <-. destruct (ctor_log _ _ _ _ _ _ _ _ _ _ Hw') as (Hv & Hlog & Hq & Hp). clear Hw'.
  split; [exact Hw|]. split; [exact Hr|]. split; [by split_and!|]. split; [exact Hlog|]. split; [exact Hq|]. split; [exact Hp|].
  intros c q [k Hk]%list_elem_of_lookup Hpos. destruct Hcl as (Hwf & _ & _). cbn [ClientsManagerSpec.mgr ClientsManagerSpec.ghost ClientsManagerSpec.cache ClientsManagerSpec.pend] in Hwf.
  erewrite ClientsManagerSpec.canBecomePending_spec; [|done|exact Hwf|exact Hk]. rewrite bool_decide_eq_true_2; [reflexivity|]. split; [reflexivity|]. exact Hpos.
Qed.

#[local] Abbreviation ex_started id Hid := (started (I := item) (Pr := MessageBase.t) (CO := SimpleController.controller) 4 4096 ex_clients (ex_info id) (ex_info_wf id Hid) 2 0 ex_reply_buffer ex_disk 0 ex_controller).
#[local] Abbreviation ex_exec id Hid := (exec (I := item) (Pr := MessageBase.t) (S := NullStateTransfer.t) (Ct := SimpleController.t) ex_hash 3 ex_execute (ex_info id) (ex_info_wf id Hid)).

(** A started backup, after the batch was committed. *)
Lemma ex_ready id (Hid : 0 <= id < 4) : id ≠ 0 → ∃ w0 w, ex_started id Hid w0 ∧ pre (ex_info id) (mkW w0 []) (UpdateLog 1 ex_committed) ∧
  ex_exec id Hid (mkW w0 []) (UpdateLog 1 ex_committed) = Ok (mkW w []) ∧
  represents (ex_info id) (ex_info_wf id Hid) ex_clients 4 4096 w (mkAbs ∅ 0 ex_reply_buffer) ∧
  viewActive w = true ∧ lastExecutedSeqNum w = 0 ∧ lastStableSeqNum w = 0 ∧ readyFrom w 1 (Z.to_nat kWorkWindowSize) = [ex_batch].
Proof.
  intros Hb. destruct (ex_fresh id Hid) as (w0 & Hw & Hr & (Ha & Hl & Hs & Hv) & Hlog & _). exists w0. pose proof Hr as (Hi & Happ & Hbuf).
  assert (Hu : update_ok (ex_info id) w0 1 ex_committed).
  { split_and!; [lia|rewrite Hs; done|done|done|rewrite Hv; apply ex_entry|]. intros Hp. exfalso. unfold isCurrentPrimary, currentPrimary in Hp. rewrite Hv in Hp.
    apply Z.eqb_eq in Hp. clear -Hp Hb. by cbn in Hp. }
  destruct (updateLog_ok (ex_info id) (ex_info_wf id Hid) ex_clients 4 4096 ∅ w0 1 ex_committed Hi Hu) as (w & Hup & Hi' & Heq & Hget). exists w.
  assert (Hfirst : batchAt w 1 = Some ex_batch).
  { unfold batchAt. rewrite Hget, decide_True by done. unfold ready, ex_committed. cbn [getPrePrepareMsg fullProof isCommitted__gg ex_item i_msg i_proof i_committed]. by destruct ex_reads as (_ & _ & ->). }
  assert (Hsecond : batchAt w 2 = None).
  { unfold batchAt. rewrite Hget, decide_False by done. destruct (ActiveWindow.get kWorkWindowSize 1 (mainLog w0) 2) as [i|] eqn:E; [|done].
    destruct (ctor_empty _ _ _ _ _ _ Hlog E) as [He _]. cbn in He. by subst i. }
  assert (Hidle : isCollectingState (stateTransfer w0) = false) by (eapply st_idle, (inv_st _ _ _ _ _ _ _ Hi)).
  split; [exact Hw|]. split; [split_and!; [exact Hidle|cbn; rewrite Hl; done|exact Hu]|]. split; [cbn [exec rep history]; by rewrite Hup|].
  rewrite Heq. rewrite Heq in Hi', Hfirst, Hsecond. split_and!; [by split_and!|done|done|done|].
  change (Z.to_nat kWorkWindowSize) with (Datatypes.S (Datatypes.S 298)). cbn [readyFrom]. rewrite Hfirst. change (1 + 1) with 2. by rewrite Hsecond.
Qed.

(** The same backup after it has executed the batch. *)
Lemma ex_backup_run id (Hid : 0 <= id < 4) : id ≠ 0 → ∃ w0 W, ex_started id Hid w0 ∧ reachable (ex_exec id Hid) (pre (ex_info id)) (mkW w0 []) W ∧ idle W ∧ history W = [ex_batch].
Proof.
  intros Hb. destruct (ex_ready id Hid Hb) as (w0 & w & Hw & Hpre & He & Hr & Ha & Hl & Hs & Hbs).
  destruct (executed (LIS := ex_item_spec (ex_info id)) 4 4096 ex_hash 3 ex_clients ex_setting ex_execute ex_app (ex_info id) (ex_info_wf id Hid) 5 false w _ Hr Ha ltac:(rewrite Hs; done)) as (w' & He' & Hr' & _).
  exists w0, (mkW w' [ex_batch]). assert (Hidle : isCollectingState (stateTransfer w) = false) by (eapply st_idle, (inv_st _ _ _ _ _ _ _ (proj1 Hr))).
  split; [exact Hw|]. split; [|split; [eapply st_idle, (inv_st _ _ _ _ _ _ _ (proj1 Hr'))|done]].
  apply (reachable_step _ _ _ (mkW w []) (Execute 5 false)).
  - eapply reachable_step; [constructor|exact Hpre|exact He].
  - split_and!; [exact Hidle|cbn [rep]; rewrite Hl; done|done].
  - cbn [exec rep history]. rewrite He'. cbn [mbind res_bind snd]. rewrite Hl. change (0 + 1) with 1. by rewrite Hbs.
Qed.

Lemma backup_1 : 0 <= 1 < 4.
Proof. lia. Qed.
Lemma backup_2 : 0 <= 2 < 4.
Proof. lia. Qed.

Lemma requests_executed_in_order_witness : ∃ w w' : @t item MessageBase.t NullStateTransfer.t Z SimpleController.t,
  executeReadWriteRequests (ex_info 1) (ex_info_wf 1 backup_1) ex_hash 3 ex_execute 5 true w = Ok (tt, w') ∧
  lastExecutedSeqNum w = 0 ∧ requestsHandler w = 0 ∧ lastExecutedSeqNum w' = 1 ∧ requestsHandler w' = 1 ∧ batchAt w' 2 = None.
Proof.
  destruct (ex_ready 1 backup_1 ltac:(done)) as (w0 & w & _ & _ & _ & Hr & Ha & Hl & Hs & Hbs).
  destruct (requests_executed_in_order (LIS := ex_item_spec (ex_info 1)) 4 4096 ex_hash 3 ex_clients ex_setting ex_execute ex_app (ex_info 1) (ex_info_wf 1 backup_1) 5 true w _ Hr Ha ltac:(rewrite Hs; reflexivity))
    as (w' & He & (_ & Happ & _) & Hl' & _ & _ & Hn). rewrite Hl in Happ, Hl'. change (0 + 1) with 1 in Happ, Hl'. rewrite Hbs in Happ, Hl'. change (0 + Z.of_nat (length [ex_batch])) with 1 in Hl'.
  exists w, w'. rewrite Hl' in Hn. change (1 + 1) with 2 in Hn. split; [exact He|]. split; [exact Hl|]. split; [apply Hr|]. split; [exact Hl'|]. split; [|exact Hn].
  rewrite Happ. vm_compute. reflexivity.
Defined.

Lemma requests_executed_once_witness : ∃ (w w' : @t item MessageBase.t NullStateTransfer.t Z SimpleController.t) calls,
  executeReadWriteRequests (ex_info 1) (ex_info_wf 1 backup_1) ex_hash 3 ex_execute 5 true w = Ok (tt, w') ∧ calls `sublist_of` [(1, [18; 52], ex_request)] ∧ 7 ∈ numbersOf 4 calls.
Proof.
  destruct (ex_ready 1 backup_1 ltac:(done)) as (w0 & w & _ & _ & _ & Hr & Ha & Hl & Hs & Hbs).
  destruct (requests_executed_once (LIS := ex_item_spec (ex_info 1)) 4 4096 ex_hash 3 ex_clients ex_setting ex_execute ex_app (ex_info 1) (ex_info_wf 1 backup_1) 5 true w _ Hr Ha ltac:(rewrite Hs; reflexivity))
    as (w' & calls & He & Hsub & _ & _ & Hall). rewrite Hl in Hsub, Hall. change (0 + 1) with 1 in Hsub, Hall. rewrite Hbs in Hsub, Hall. cbn [entries ex_batch fst snd fmap list_fmap app] in Hsub, Hall.
  exists w, w', calls. split; [exact He|]. split; [exact Hsub|].
  destruct (Hall (1, [18; 52], ex_request)) as (q & Hq & Hle); [by left|by left|done|]. cbn [snd ex_request ClientRequestMsg.r_client ClientRequestMsg.r_seqNum] in Hq, Hle.
  assert (q = 7) as ->; [|done]. unfold numbersOf in Hq. apply list_elem_of_fmap in Hq as (e & -> & Hin). apply list_elem_of_filter in Hin as [_ Hin].
  apply (sublist_subseteq _ _ Hsub) in Hin. by apply list_elem_of_singleton in Hin as ->.
Defined.

Lemma replica_safe_witness : ∃ W : world item MessageBase.t NullStateTransfer.t Z SimpleController.t, lastExecutedSeqNum (rep W) = 1 ∧ requestsHandler (rep W) = 1.
Proof.
  destruct (ex_backup_run 1 backup_1 ltac:(done)) as (w0 & W & Hw & Hrun & Hidle & Hh).
  destruct (replica_safe (LIS := ex_item_spec (ex_info 1)) 4 4096 ex_hash 3 ex_clients ex_setting ex_execute ex_app ex_readonly (ex_info 1) (ex_info_wf 1 backup_1) 2 0 ex_reply_buffer ex_disk 0 ex_controller w0 W Hw Hrun Hidle)
    as (_ & Hl & _ & (_ & Happ & _)). rewrite Hh in Hl, Happ. exists W. split; [exact Hl|]. rewrite Happ. vm_compute. reflexivity.
Defined.

Lemma replicas_agree_witness : ∃ W1 W2 : world item MessageBase.t NullStateTransfer.t Z SimpleController.t,
  history W1 = [ex_batch] ∧ history W2 = [ex_batch] ∧ requestsHandler (rep W1) = requestsHandler (rep W2).
Proof.
  destruct (ex_backup_run 1 backup_1 ltac:(done)) as (w1 & W1 & Hw1 & Hrun1 & Hidle1 & Hh1). destruct (ex_backup_run 2 backup_2 ltac:(done)) as (w2 & W2 & Hw2 & Hrun2 & Hidle2 & Hh2).
  exists W1, W2. split; [exact Hh1|]. split; [exact Hh2|].
  apply (replicas_agree (LIS1 := ex_item_spec (ex_info 1)) (LIS2 := ex_item_spec (ex_info 2)) 4 4096 ex_hash 3 ex_clients ex_setting ex_execute ex_app ex_readonly (ex_info 1) (ex_info 2) (ex_info_wf 1 backup_1) (ex_info_wf 2 backup_2)
    2 2 0 0 ex_reply_buffer ex_reply_buffer ex_disk ex_disk 0 ex_controller ex_controller w1 w2 W1 W2 ex_ignores Hw1 Hrun1 Hidle1 Hw2 Hrun2 Hidle2). by rewrite Hh1, Hh2.
Defined.
End ReplicaExecutionExample.
