(* ===== verification/ReplicaExecutionErrors.v ===== *)
(** * Where a replica stops (ReplicaExecution.v)

    Inputs for which a handler of a replica in a good state ends in a failed assertion.
    [fails m w] is the dual of [runs]: the handler [m] stops at an assertion in state [w]. *)
From S2P Require Import Prelude SysConsts Digest ReplicasInfo ActiveWindow MsgsCertificate MessageBase Checkpoint ReservedPages ClientReplyMsg ClientRequestMsg ClientsManager ClientsManagerSpec PrePrepareMsg PrePrepareMsgProps Controller ReplicaExecution ReplicaExecutionSpec ReplicaExecutionFacts ReplicaExecutionLoop ReplicaExecutionHandlers ReplicaExecutionProps ReplicaExecutionExample.

Module ReplicaExecutionErrors.
Import ReplicaExecution ReplicaExecutionSpec ReplicaExecutionFacts ReplicaExecutionLoop ReplicaExecutionHandlers ReplicaExecutionProps.
#[local] Abbreviation lastOf := ClientsManagerSpec.lastOf.

(** ** Failing *)
Section fails.
Context {I Pr S A Ct : Type}.
#[local] Abbreviation t := (@t I Pr S A Ct).
#[local] Abbreviation M := (@M I Pr S A Ct).

Definition fails {X} (m : M X) (w : t) : Prop := m w = Err AssertFailed.

Lemma fails_first {X Y} (m : M X) (k : X → M Y) w : fails m w → fails (m ≫= k) w.
Proof. unfold fails, mbind, M_bind. by intros ->. Qed.

Lemma fails_after {X Y} (m : M X) (k : X → M Y) w : runs m w (fun x w' => fails (k x) w') → fails (m ≫= k) w.
Proof. intros (x & w' & Hm & Hk). unfold fails, mbind, M_bind. by rewrite Hm. Qed.

Lemma fails_lift {X} (r : res X) w : r = Err AssertFailed → fails (lift r) w.
Proof. by intros ->. Qed.

Lemma fails_get {Y} (k : t → M Y) w : fails (k w) w → fails (get ≫= k) w.
Proof. intros Hk. apply fails_after. by apply runs_get. Qed.

Lemma fails_modify {Y} f (k : () → M Y) w : fails (k tt) (f w) → fails (modify f ≫= k) w.
Proof. intros Hk. apply fails_after. by apply runs_modify. Qed.

Lemma fails_value {X Y} (r : res X) x (k : X → M Y) w : r = Ok x → fails (k x) w → fails (lift r ≫= k) w.
Proof. intros Hr Hk. apply fails_after. by eapply runs_lift. Qed.

Lemma fails_check {Y} b (k : () → M Y) w : b = true → fails (k tt) w → fails (check b ≫= k) w.
Proof. intros Hb Hk. apply fails_after. by apply runs_check. Qed.
End fails.

(** Steps that need no argument. *)
Ltac fstep :=
  cbv beta iota; match goal with
  | |- fails (get ≫= _) _ => apply fails_get
  | |- fails (modify _ ≫= _) _ => apply fails_modify
  end; cbv beta iota.
Ltac fsteps := repeat fstep.

Section errors.
Context {I Pr S A Ct : Type} {IF : ItemFuncs I} {LI : LogItem I Pr} {RP : ReservedPages S} {ST : StateTransfer A S} {CO : Controller Ct}.
Context (num size : Z) {RPS : ReservedPagesSpec S num size} {STS : StateTransferSpec A S num size}.
Context (H : list Z → Digest) (maxConcurrent : Z) (clients : list Z) (Hset : setting H maxConcurrent clients num size).
Context (execute : A → Z → Z → bool → list Z → Z → list Z → Z → A * Z * list Z * Z).
Context (info : ReplicasInfo.t) (Hinfo : ReplicasInfo.wf info) {LIS : LogItemSpec info I Pr} {CTS : ControllerSpec info Ct}.
#[local] Abbreviation t := (@t I Pr S A Ct).
#[local] Abbreviation INV := (inv info Hinfo clients num size).
#[local] Abbreviation mainGet := (ActiveWindow.get kWorkWindowSize 1).

(** The client of a message is known, and the message may come from its sender. *)
Definition admissible (w : t) (m : MessageBase.t) (c q : Z) : Prop :=
  ClientRequestMsg.clientProxyId m = Ok c ∧ ClientRequestMsg.isReadOnly m = Ok false ∧ ClientRequestMsg.requestSeqNum m = Ok q ∧ c ∈ clients ∧
  ReplicasInfo.isIdOfReplica info (MessageBase.sender_ m) && negb (isCurrentPrimary info w) = false.

Lemma isValid g w c : INV g w → c ∈ clients → ClientsManager.isValidClient (clientsManager w) c = true ∧
  ClientsManager.seqNumberOfLastReplyToClient (clientsManager w) c = Ok (lastOf (g !! c)).
Proof.
  destruct Hset as [_ _ _ [Hnd _] _ _]. intros Hi Hc. destruct (inv_clients _ _ _ _ _ _ _ Hi) as [p (Hwf & _ & _)]. cbn [ClientsManagerSpec.mgr ClientsManagerSpec.ghost ClientsManagerSpec.cache ClientsManagerSpec.pend] in Hwf.
  rewrite (ClientsManagerSpec.isValidClient_spec size (ReplicasInfo._myId info) clients Hnd _ _ _ _ Hwf), bool_decide_eq_true_2 by done. split; [done|].
  apply list_elem_of_lookup in Hc as [k Hk].
  by rewrite (ClientsManagerSpec.lastReply_spec size (ReplicasInfo._myId info) clients Hnd _ _ _ k c Hwf Hk).
Qed.

(** The part of [onClientRequest] before the number of the request is looked at. *)
Lemma admitted_fails now g w m c q : INV g w → viewActive w = true → admissible w m c q →
  fails (if lastOf (g !! c) <? q then
      can ← lift (ClientsManager.noPendingAndRequestCanBecomePending (clientsManager w) c q);
      if isCurrentPrimary info w then
        if can && (Z.of_nat (length (requestsQueueOfPrimary w)) <? maxRequestsInQueue) then
          modify (fun w => set_requestsQueueOfPrimary w (requestsQueueOfPrimary w ++ [m]));;
          tryToSendPrePrepareMsg info H maxConcurrent now true
        else mret tt
      else if (can : bool) then
        cm ← lift (ClientsManager.addPendingRequest now (clientsManager w) c q);
        modify (fun w => set_clientsManager w cm);;
        emit (ForwardRequest (currentPrimary info w) m)
      else mret tt
    else if lastOf (g !! c) =? q then sendLatestReply info c
    else mret tt) w →
  fails (onClientRequest info H maxConcurrent execute now m) w.
Proof.
  intros Hi Hact (F1 & F2 & F3 & Hc & Hs) Hf. destruct (isValid g w c Hi Hc) as [Hv Hl]. unfold onClientRequest.
  eapply fails_value; [exact F1|]. eapply fails_value; [exact F2|]. eapply fails_value; [exact F3|]. fsteps.
  rewrite (st_idle _ _ _ (inv_st _ _ _ _ _ _ _ Hi)), Hv, Hs. unfold currentViewIsActive. rewrite Hact. cbn [negb orb]. eapply fails_value; [exact Hl|]. exact Hf.
Qed.

(** A request with number 0 of a client without a reply stops every replica that accepts it: it is taken for a retransmission
    of the latest request, of which there is no reply. *)
Theorem request_zero_stops_replica now g (w : t) m c : INV g w → viewActive w = true → admissible w m c 0 → g !! c = None →
  onClientRequest info H maxConcurrent execute now m w = Err AssertFailed.
Proof.
  intros Hi Hact Had Hg. apply (admitted_fails now g w m c 0 Hi Hact Had). rewrite Hg. cbn. destruct Had as (_ & _ & _ & [k Hk]%list_elem_of_lookup & _).
  destruct (inv_clients _ _ _ _ _ _ _ Hi) as [p Hcl]. unfold sendLatestReply. fsteps. apply fails_first, fails_lift.
  destruct Hset as [_ _ _ [Hnd _] _ _]. exact (ClientsManagerSpec.noReply_fails num size (ReplicasInfo._myId info) clients Hnd _ k c _ Hcl Hk Hg).
Qed.

(** The first request of a batch, when it is new and its batch has no full proof. *)
Lemma newRequest_fails now g w pp off r i : INV g w → PrePrepareMsg.readRequest (MessageBase.msgBody_ pp) off = Ok r → 0 <= off →
  ClientRequestMsg.r_client r ∈ clients → lastOf (g !! ClientRequestMsg.r_client r) < ClientRequestMsg.r_seqNum r →
  ∀ l, mainGet l (lastExecutedSeqNum w + 1) = Ok i → fullProof i = None → fails (executeRequest info execute now pp off) (set_mainLog w l).
Proof.
  intros Hi Hread Hoff Hc Hlt l Hg Hn. destruct (header_object _ _ _ Hread Hoff) as (req & Hctor & Hid & _ & Hq & _). destruct (isValid g w _ Hi Hc) as [Hv Hl].
  unfold executeRequest. eapply fails_value; [exact Hctor|]. eapply fails_value; [exact Hid|]. fsteps. cbn [set_mainLog clientsManager]. rewrite Hv. cbn [negb].
  eapply fails_value; [exact Hl|]. eapply fails_value; [exact Hq|]. rewrite (proj2 (Z.leb_gt _ _)) by done.
  unfold executeNewRequest. fsteps. eapply fails_value; [exact Hg|]. apply fails_first, fails_lift. by rewrite Hn.
Qed.

(** C37: A batch that is committed by the slow path, without a full commit proof, stops the replica when it is executed, if its
    first request is a new request of a known client: execution asserts that the batch has a full proof. *)
Theorem slow_path_commit_stops_replica now b g (w w' : t) i pp r rs : INV g w → viewActive w = true → lastExecutedSeqNum w < lastStableSeqNum w + kWorkWindowSize →
  item_wf i → updateLog w (lastExecutedSeqNum w + 1) i = Ok w' → getPrePrepareMsg i = Some pp → isCommitted__gg i = true → fullProof i = None →
  PrePrepareMsg.seqNumber pp = Ok (lastExecutedSeqNum w + 1) → PrePrepareMsg.viewNumber pp = Ok (curView w) → PrePrepareMsg.readRequests pp = Ok (r :: rs) →
  ClientRequestMsg.r_client r ∈ clients → lastOf (g !! ClientRequestMsg.r_client r) < ClientRequestMsg.r_seqNum r →
  executeReadWriteRequests info Hinfo H maxConcurrent execute now b w' = Err AssertFailed.
Proof.
  intros Hi Hact Hwin Hwf Hu Hpp Hco Hn Hs Hv Hrd Hc Hlt. pose proof Hi as [].
  destruct (ActiveWindow.modify_const kWorkWindowSize 1 (mainLog w) (lastExecutedSeqNum w + 1) i inv_main0) as (l & Hm & _ & _ & Hget); [split; [lia|apply Z.mod_1_r]| |done|].
  { unfold ActiveWindow.insideActiveWindow. rewrite inv_main_beg0. apply andb_true_iff. split; [apply Z.leb_le|apply Z.ltb_lt]; lia. }
  unfold updateLog in Hu. rewrite Hm in Hu. cbn [mbind res_bind] in Hu. injection Hu as <-. specialize (Hget (lastExecutedSeqNum w + 1)). rewrite decide_True in Hget by done.
  assert (Hidle : negb (isCollectingState (stateTransfer w)) && viewActive w = true) by (by rewrite (st_idle _ _ _ inv_st0), Hact).
  change (fails (executeReadWriteRequests info Hinfo H maxConcurrent execute now b) (set_mainLog w l)).
  unfold executeReadWriteRequests. fsteps. apply fails_check; [exact Hidle|]. apply fails_check; [apply Z.leb_le; cbn; lia|]. apply fails_first. change (Z.to_nat kWorkWindowSize) with 300%nat. cbn [executeReady].
  unfold executeNext. fsteps. cbn [set_mainLog lastExecutedSeqNum lastStableSeqNum mainLog curView]. rewrite (proj2 (Z.ltb_lt _ _)) by done. eapply fails_value; [exact Hget|].
  rewrite Hpp, Hco. eapply fails_value; [exact Hs|]. apply fails_check; [apply Z.eqb_refl|]. eapply fails_value; [exact Hv|]. apply fails_check; [apply Z.eqb_refl|].
  apply fails_first. unfold executeRequestsInPrePrepareMsg. fsteps. apply fails_check; [exact Hidle|]. eapply fails_value; [exact Hv|]. apply fails_check; [apply Z.eqb_refl|].
  unfold PrePrepareMsg.readRequests in Hrd. apply bind_ok in Hrd as (offs & Hoffs & Hrd). unfold PrePrepareMsg.requests in Hoffs.
  apply bind_ok in Hoffs as (k & Hk & Hoffs). apply bind_ok in Hoffs as (loc & Hloc & Hoffs). eapply fails_value; [exact Hk|]. eapply fails_value; [exact Hloc|].
  assert (Hloc0 : loc = 58) by (unfold PrePrepareMsg.iter_ctor in Hloc; apply bind_ok in Hloc as (x & _ & Hloc); by destruct x; [injection Hloc as <-|]).
  assert (Hnn : Forall (fun o => 0 <= o) offs) by (eapply iterate_nonneg; [exact Hoffs|lia]).
  apply fails_first. cbn [executeLoop PrePrepareMsg.iterate] in *. apply bind_ok in Hoffs as ([p loc'] & Hp & Hoffs). eapply fails_value; [exact Hp|]. cbn [fst snd].
  destruct p as [off|]; [|by injection Hoffs as <-]. apply bind_ok in Hoffs as (offs' & _ & Hoffs). injection Hoffs as <-. inversion Hnn; subst. cbn [PrePrepareMsg.readAll] in Hrd.
  apply bind_ok in Hrd as (r1 & Hr1 & Hrd). apply bind_ok in Hrd as (rs1 & _ & Hrd). injection Hrd as <- <-.
  apply fails_first. by eapply newRequest_fails.
Qed.

(** The size of a request is not the one its header says, or it does not fit into a batch. *)
Definition unusable (m : MessageBase.t) : Prop :=
  let room := maxExternalMessageSize - PrePrepareMsg.sizeof_PrePrepareMsgHeader in
  room < MessageBase.msgSize_ m ∨
  MessageBase.msgSize_ m <= room ∧ ∃ s, ClientRequestMsg.getRequestSizeTemp (MessageBase.msgBody_ m) 0 = Ok s ∧ s ≠ MessageBase.msgSize_ m.

Lemma unusable_batch now cm sender v n path m c q : path ≠ CP_NA → - 2 ^ 63 <= v < 2 ^ 63 → - 2 ^ 63 <= n < 2 ^ 63 →
  ClientRequestMsg.clientProxyId m = Ok c → ClientRequestMsg.requestSeqNum m = Ok q → ClientsManager.noPendingAndRequestCanBecomePending cm c q = Ok true → unusable m →
  fillBatch now cm (PrePrepareMsgProps.partial sender v n path []) [m] = Err AssertFailed ∨
  fillBatch now cm (PrePrepareMsgProps.partial sender v n path []) [m] = Ok (cm, PrePrepareMsgProps.partial sender v n path [], [m]).
Proof.
  intros Hp Hv Hn F1 F3 Hcan Hun. cbn [fillBatch]. rewrite PrePrepareMsgProps.remaining_partial by done. cbn [mbind res_bind PrePrepareMsgProps.batch length Z.of_nat].
  unfold unusable, PrePrepareMsg.sizeof_PrePrepareMsgHeader in Hun. rewrite Z.sub_0_r. destruct Hun as [Hlt|(Hle & s & Hs & Hne)]; [right; by rewrite (proj2 (Z.leb_gt _ _))|left].
  rewrite (proj2 (Z.leb_le _ _)) by done. rewrite F1, F3. cbn [mbind res_bind]. rewrite Hcan. cbn [mbind res_bind]. unfold PrePrepareMsg.addRequest. rewrite Hs. cbn [mbind res_bind].
  rewrite (proj2 (Z.eqb_neq _ _) Hne). reflexivity.
Qed.

Lemma empty_batch_fails sender v n path : path ≠ CP_NA → - 2 ^ 63 <= v < 2 ^ 63 → - 2 ^ 63 <= n < 2 ^ 63 →
  PrePrepareMsg.finishAddingRequests H (PrePrepareMsgProps.partial sender v n path []) = Err AssertFailed.
Proof.
  intros Hp Hv Hn. destruct (PrePrepareMsgProps.partial_fields sender v n path [] Hp Hv Hn ltac:(done)) as (P1 & P2 & _ & _ & P5 & _).
  unfold PrePrepareMsg.finishAddingRequests. rewrite P1, P2. cbn [mbind res_bind negb Assert]. rewrite P5. reflexivity.
Qed.

(** The primary with such a request at the head of an otherwise empty queue. *)
Lemma sendNext_fails now (w : t) m c q : 0 <= curView w < 2 ^ 63 → 0 <= primaryLastUsedSeqNum w → primaryLastUsedSeqNum w + 1 < 2 ^ 63 →
  primaryLastUsedSeqNum w + 1 <= lastExecutedSeqNum w + MaxConcurrentFastPaths → ct_ok (controller w) → requestsQueueOfPrimary w = [m] →
  ClientRequestMsg.clientProxyId m = Ok c → ClientRequestMsg.requestSeqNum m = Ok q → ClientsManager.noPendingAndRequestCanBecomePending (clientsManager w) c q = Ok true → unusable m →
  fails (sendNextPrePrepare info H now) w.
Proof.
  intros Hv H0 Hb Hmx Hct Hq F1 F3 Hcan Hun. set (n := primaryLastUsedSeqNum w + 1) in *. destruct (ct_path (controller w) Hct) as [Hpath Hpath0].
  destruct (ct_sending now (controller w) n (getCurrentFirstPath (controller w)) Hct ltac:(lia)) as (ct & Hsend & _). unfold sendNextPrePrepare. fsteps. match goal with |- fails _ ?x => set (w0 := x) end.
  assert (∃ b mx, w0 = set_maxNumberOfPendingRequestsInRecentHistory (set_batchingFactor (set_primaryLastUsedSeqNum w n) b) mx) as (b & mx & Hw0).
  { unfold w0. case_match; [by do 2 eexists|]. exists (batchingFactor w), (maxNumberOfPendingRequestsInRecentHistory w). by destruct w. }
  clearbody w0. subst w0. cbn. apply fails_check; [by apply Z.leb_le|]. apply fails_check.
  { destruct (Z.eqb_spec (ReplicasInfo._cVal info) 0) as [E|]; [|done]. cbn [negb orb]. by rewrite bool_decide_eq_false_2 by auto. }
  eapply fails_value; [exact Hsend|]. fsteps. eapply fails_value; [exact (PrePrepareMsgProps.ctor_partial _ _ _ _ Hpath)|]. rewrite Hq.
  destruct (unusable_batch now (clientsManager w) (ReplicasInfo._myId info) (curView w) n (getCurrentFirstPath (controller w)) m c q Hpath ltac:(lia) ltac:(lia) F1 F3 Hcan Hun) as [E|E].
  - apply fails_first, fails_lift, E.
  - eapply fails_value; [exact E|]. fsteps. apply fails_first, fails_lift, empty_batch_fails; [exact Hpath|lia|lia].
Qed.

(** C39: One request of a client stops an idle primary, if the length in its header is not the length of the message (the check of
    received messages accepts bytes after the request) or if it is larger than a batch can hold. *)
Theorem unusable_request_stops_primary now g (w : t) m c q : INV g w → viewActive w = true → isCurrentPrimary info w = true →
  requestsQueueOfPrimary w = [] → primaryLastUsedSeqNum w = lastExecutedSeqNum w → lastExecutedSeqNum w < lastStableSeqNum w + kWorkWindowSize → 1 <= maxConcurrent →
  lastExecutedSeqNum w + kWorkWindowSize < 2 ^ 63 → admissible w m c q → lastOf (g !! c) < q →
  ClientsManager.noPendingAndRequestCanBecomePending (clientsManager w) c q = Ok true → unusable m →
  onClientRequest info H maxConcurrent execute now m w = Err AssertFailed.
Proof.
  intros Hi Hact Hpr Hq0 Hlu Hwin Hmx Hb Had Hlt Hcan Hun. pose proof Hi as []. pose proof Had as (F1 & _ & F3 & _). destruct Hset as [_ Hmax _ _ _ _].
  unfold maxLegalConcurrentAgreementsByPrimary, MaxConcurrentFastPaths, kWorkWindowSize in *.
  apply (admitted_fails now g w m c q Hi Hact Had). rewrite (proj2 (Z.ltb_lt _ _)) by done. eapply fails_value; [exact Hcan|]. rewrite Hpr, Hq0. change (true && (Z.of_nat (length (@nil MessageBase.t)) <? maxRequestsInQueue)) with true. cbv iota.
  fsteps. rewrite Hq0. cbn [app]. set (w1 := set_requestsQueueOfPrimary w [m]). unfold tryToSendPrePrepareMsg. fsteps. apply fails_check; [apply andb_true_iff; split; [exact Hpr|exact Hact]|].
  change (lastStableSeqNum w1) with (lastStableSeqNum w). change (lastExecutedSeqNum w1) with (lastExecutedSeqNum w). change (primaryLastUsedSeqNum w1) with (primaryLastUsedSeqNum w). rewrite Hlu.
  rewrite !(proj2 (Z.ltb_ge _ _)) by (unfold kWorkWindowSize; lia). change (requestsQueueOfPrimary w1) with [m]. cbv iota.
  eapply (fails_value _ [m]); [cbn [dropIrrelevant]; rewrite F1, F3; cbn [mbind res_bind]; change (clientsManager w1) with (clientsManager w); by rewrite Hcan|]. fsteps.
  change (Z.of_nat (length [m]) =? 0) with false. cbv iota. apply fails_check; [apply Z.leb_refl|]. fsteps.
  replace (lastExecutedSeqNum w + 1 - lastExecutedSeqNum w) with 1 by lia. change (Z.of_nat (length [m]) <? minBatchSizeOf true (u64 1) (batchingFactor w1)) with false. cbv iota.
  change (set_requestsQueueOfPrimary w1 [m]) with w1. match goal with |- fails _ (if ?x then _ else _) => destruct x end.
  all: apply (sendNext_fails now _ m c q); cbn; [done|lia|lia|unfold MaxConcurrentFastPaths; lia|done..].
Qed.
End errors.

(** ** Examples *)
Import ReplicaExecutionExample.
#[local] Existing Instance NullStateTransfer.reserved_pages.
#[local] Existing Instance SimpleController.controller.
#[local] Abbreviation ex_state := (@t item MessageBase.t NullStateTransfer.t Z SimpleController.t).

Lemma request_zero_stops_replica_witness : ∃ w : ex_state, viewActive w = true ∧
  onClientRequest (ex_info 1) ex_hash 3 ex_execute 5 (ClientRequestMsg.image (ClientRequestMsg.mkRequest 4 false 0 [1])) w = Err AssertFailed.
Proof.
  destruct (ex_fresh 1 backup_1) as (w & _ & (Hi & _) & (Ha & _) & _). exists w. split; [exact Ha|].
  eapply (request_zero_stops_replica (LIS := ex_item_spec (ex_info 1)) 4 4096 ex_hash 3 ex_clients ex_setting ex_execute (ex_info 1) (ex_info_wf 1 backup_1) 5 ∅ w _ 4); [exact Hi|exact Ha| |reflexivity].
  split; [reflexivity|]. split; [reflexivity|]. split; [reflexivity|]. split; [left|reflexivity].
Defined.

(** A request with one byte after its data passes the check of received messages. *)
Definition ex_padded : MessageBase.t :=
  MessageBase.mk (ClientRequestMsg.layout ex_request ++ [0]) (ClientRequestMsg.reqSize ex_request + 1) (ClientRequestMsg.reqSize ex_request + 1) 4 true.

Lemma unusable_request_stops_primary_witness : ClientRequestMsg.ToActualMsgType ex_padded = Ok true ∧
  ∃ w : ex_state, viewActive w = true ∧ onClientRequest (ex_info 0) ex_hash 3 ex_execute 5 ex_padded w = Err AssertFailed.
Proof.
  split; [vm_compute; reflexivity|]. assert (Hid : 0 <= 0 < 4) by lia. destruct (ex_fresh 0 Hid) as (w & _ & (Hi & _) & (Ha & Hl & Hs & Hv) & _ & Hq & Hp & Hcan). exists w. split; [exact Ha|].
  apply (unusable_request_stops_primary (LIS := ex_item_spec (ex_info 0)) 4 4096 ex_hash 3 ex_clients ex_setting ex_execute (ex_info 0) (ex_info_wf 0 Hid) 5 ∅ w ex_padded 4 7 Hi Ha).
  - unfold isCurrentPrimary, currentPrimary. rewrite Hv. reflexivity.
  - exact Hq.
  - rewrite Hp, Hl. reflexivity.
  - rewrite Hl, Hs. reflexivity.
  - lia.
  - rewrite Hl. reflexivity.
  - split; [vm_compute; reflexivity|]. split; [vm_compute; reflexivity|]. split; [vm_compute; reflexivity|]. split; [left|reflexivity].
  - reflexivity.
  - apply Hcan; [left|reflexivity].
  - right. split; [vm_compute; intros E; discriminate E|]. exists 18. split; [vm_compute; reflexivity|vm_compute; intros E; discriminate E].
Defined.

(** The batch of the example, committed by the slow path. *)
Definition ex_slow : item := mkItem (i_msg ex_committed) true None.

Lemma slow_path_commit_stops_replica_witness : ∃ w : ex_state, lastExecutedSeqNum w = 0 ∧
  executeReadWriteRequests (ex_info 1) (ex_info_wf 1 backup_1) ex_hash 3 ex_execute 5 true w = Err AssertFailed.
Proof.
  destruct (ex_fresh 1 backup_1) as (w & _ & (Hi & _) & (Ha & Hl & Hs & Hv) & _). destruct ex_reads as (Rv & Rs & Rr).
  destruct (ActiveWindow.modify_const kWorkWindowSize 1 (mainLog w) 1 ex_slow (inv_main _ _ _ _ _ _ _ Hi)) as (l & Hm & _).
  { split; [lia|reflexivity]. }
  { unfold ActiveWindow.insideActiveWindow. rewrite (inv_main_beg _ _ _ _ _ _ _ Hi), Hs. reflexivity. }
  { exact Logic.I. }
  exists (set_mainLog w l). split; [exact Hl|].
  apply (slow_path_commit_stops_replica (LIS := ex_item_spec (ex_info 1)) 4 4096 ex_hash 3 ex_clients ex_setting ex_execute (ex_info 1) (ex_info_wf 1 backup_1) 5 true ∅ w (set_mainLog w l) ex_slow
    (PrePrepareMsgProps.finished ex_hash 0 0 1 SLOW [ex_request]) ex_request [] Hi Ha).
  - rewrite Hl, Hs. reflexivity.
  - exact Logic.I.
  - unfold updateLog. rewrite Hl. change (0 + 1) with 1. rewrite Hm. reflexivity.
  - reflexivity.
  - reflexivity.
  - reflexivity.
  - rewrite Hl. exact Rs.
  - rewrite Hv. exact Rv.
  - exact Rr.
  - left.
  - reflexivity.
Defined.
End ReplicaExecutionErrors.
