(* ===== verification/ReplicaStateTransfer.v ===== *)
(** * The state transfer module of a replica (BCStateTran.v, ReplicaExecution.v)

    [BCStateTran] implements the interface [StateTransfer] and keeps its laws: a replica
    with it can make and mark its checkpoints, for an application whose blocks do not
    change once they are there.  The replica asks for three stored checkpoints
    ([kWorkWindowSize / checkpointWindowSize + 1]).  The module is taken after
    [startRunning]. *)
From S2P Require Import Prelude SysConsts Digest ReplicasInfo ActiveWindow MsgsCertificate MessageBase Checkpoint DataStore ReservedPages BCStateTran BCStateTranFacts BCStateTranSpec ClientReplyMsg ClientRequestMsg ClientsManager ClientsManagerSpec PrePrepareMsg Controller ReplicaExecution ReplicaExecutionSpec.

Module ReplicaStateTransfer.
Import BCStateTran BCStateTranFacts BCStateTranSpec.

(** The number of checkpoints the constructor of the replica asks for. *)
Definition maxNumOfRequiredStoredCheckpoints : Z := Z.quot kWorkWindowSize checkpointWindowSize + 1.

Section instance.
Context (H : list Z → Digest) {A : Type} (appState : A → IAppState).

#[export] Instance state_transfer : StateTransfer A t := {|
  ReservedPages.createCheckpointOfCurrentState a s n := BCStateTran.createCheckpointOfCurrentState H (appState a) s n;
  ReservedPages.markCheckpointAsStable s n := _ ← BCStateTran.markCheckpointAsStable s n; Ok s;
  ReservedPages.getDigestOfCheckpoint s n size := BCStateTran.getDigestOfCheckpoint H s n size;
  ReservedPages.startCollectingState := BCStateTran.startCollectingState;
  ReservedPages.isCollectingState := isFetching;
|}.

Context (num : Z) (Hnum : 2 <= num) (blocks : Z → list Z).
#[local] Abbreviation mx := maxNumOfRequiredStoredCheckpoints.
#[local] Abbreviation INV s g := (inv H num mx blocks (mkW s g)).
#[local] Abbreviation last s := (D.lastStoredCheckpoint (psd_ s)).

(** The module in use: it has its invariant, [l] is its last checkpoint, and the blocks of the application include
    those of its checkpoints. *)
Definition in_use (a : A) (l : Z) (s : t) : Prop :=
  ∃ g, INV s g ∧ last s = l ∧ app_ok blocks (appState a) ∧ height g <= getLastReachableBlockNum (appState a).

Lemma inv_op w o w' : inv H num mx blocks w → op_pre num blocks w o → exec H w o = Ok w' → inv H num mx blocks w'.
Proof. intros Hw Ho He. destruct (run_op_ok H num mx Hnum ltac:(done) blocks w o Hw Ho) as (w2 & He2 & Hi). congruence. Qed.

Lemma save_fits s id data s' g : INV s g → save s id data = Ok s' → id < num ∧ Z.of_nat (length data) <= kSizeOfReservedPage ∧ last s' = last s.
Proof.
  intros Hi He. pose proof (inv_conf _ _ _ _ _ Hi) as [_ _ _ (Hn & _) _ _]. cbn [st] in Hn. unfold save in He. rewrite Hn in He. res_simpl. unfold D.setPendingResPage in *. res_simpl.
  split_and!; [lia|lia|done].
Qed.

Lemma zero_fits s id s' g : INV s g → zero s id = Ok s' → id < num ∧ last s' = last s.
Proof.
  intros Hi He. pose proof (inv_conf _ _ _ _ _ Hi) as [_ _ _ (Hn & _) _ _]. cbn [st] in Hn. unfold zero in He. rewrite Hn in He. revert He. generalize (replicate (Z.to_nat kSizeOfReservedPage) 0). intros page He. res_simpl. unfold D.setPendingResPage in *. res_simpl.
  split_and!; [lia|done].
Qed.

Lemma pages_cur s s' g g' id : INV s g → INV s' g' → cur g' = cur g → 0 <= id < num → pageOf s' id = pageOf s id.
Proof.
  intros Hi Hi' Hc Hid. destruct (inv_cur _ _ _ _ _ Hi id Hid) as (p & Hp & _ & Hcur). destruct (inv_cur _ _ _ _ _ Hi' id Hid) as (p' & Hp' & _ & Hcur').
  cbn in *. rewrite Hc, Hp in Hp'. injection Hp' as <-. by rewrite (current_pageOf s id p Hcur), (current_pageOf s' id p Hcur').
Qed.

#[export] Program Instance spec : StateTransferSpec A t num kSizeOfReservedPage (RPS := BCStateTranSpec.spec num) := {| st_ok := in_use |}.
Next Obligation. intros a l s (g & Hi & _). by apply (inv_ready H num mx blocks (mkW s g)). Qed.
Next Obligation. intros a l s (g & Hi & _). apply (inv_conf _ _ _ _ _ Hi). Qed.
Next Obligation.
  intros a l s id data s' (g & Hi & Hl & Ha & Hh) Hid He. destruct (save_fits s id data s' g Hi He) as (Hn & Hd & Hl').
  exists (abs_step g (Save id data)). split_and!; [|congruence|done|done]. eapply (inv_op (mkW s g) (Save id data)); [done|by split|]. unfold exec. cbn in *. by rewrite He.
Qed.
Next Obligation.
  intros a l s id s' (g & Hi & Hl & Ha & Hh) Hid He. destruct (zero_fits s id s' g Hi He) as (Hn & Hl').
  exists (abs_step g (Zero id)). split_and!; [|congruence|done|done]. eapply (inv_op (mkW s g) (Zero id)); [done|done|]. unfold exec. cbn in *. by rewrite He.
Qed.
Next Obligation.
  intros a l s k (g & Hi & Hl & Ha & Hh) Hk Hlk. assert (Hpre : op_pre num blocks (mkW s g) (CreateCheckpoint (appState a) k)) by (split_and!; [cbn; lia|done|done]).
  destruct (createCheckpoint_post H num mx Hnum ltac:(done) blocks _ _ _ Hi Hpre) as (vs & vs' & Hc & _). cbn [st] in Hc. eexists. split; [exact Hc|].
  assert (Hi' : INV (checkpointed H num mx blocks s (appState a) k vs vs') (abs_step g (CreateCheckpoint (appState a) k))).
  { eapply (inv_op (mkW s g) (CreateCheckpoint (appState a) k)); [done|done|]. unfold exec. cbn [st step ghost]. by rewrite Hc. }
  split; [|intros id Hid; by eapply pages_cur]. eexists. split_and!; [exact Hi'|done|done|cbn; lia].
Qed.
Next Obligation.
  intros a l s (g & Hi & Hl & _) Hpos. assert (Hmx : mx = 3) by done. pose proof Hi as [[Hr (Hf & _) _ _ _ _] _ _ _ _ [Hs Hfirst] _ Hdesc _ _ Hlast]. cbn [st ghost] in *.
  assert (is_Some (D.descMap (psd_ s) !! l)) as [d Hd]. { apply Hdesc. rewrite <- Hl. split; [|apply Hlast]; lia. }
  assert (Hcn : D.checkpointNum d = l) by apply (inv_desc _ _ _ _ _ Hi l d Hd).
  cbn. unfold getDigestOfCheckpoint, isFetching, D.getIsFetchingState, D.getFirstStoredCheckpoint, D.getLastStoredCheckpoint, D.hasCheckpointDesc, D.getCheckpointDesc. rewrite Hr, Hf, Hfirst, Hl, Hd.
  change (DIGEST_SIZE <=? DIGEST_SIZE) with true. rewrite (proj2 (Z.ltb_lt 0 l)), (proj2 (Z.leb_le (Z.max 0 (l - mx)) l)), (proj2 (Z.leb_le l l)) by lia.
  cbn [negb Assert mbind res_bind]. rewrite bool_decide_eq_true_2 by eauto. cbn [Assert mbind res_bind]. rewrite Hcn, Z.eqb_refl. cbn [Assert mbind res_bind]. eauto.
Qed.
Next Obligation.
  intros a l s k Hu Hk Hle. pose proof Hu as (g & [[Hr (Hf & _) _ _ (Hm & _) _] _ _ _ _ _ _ _ _ _ _] & Hl & _). cbn [st] in *. exists s. split_and!; [|done|done].
  cbn. unfold markCheckpointAsStable, isFetching, D.getIsFetchingState, D.getLastStoredCheckpoint. rewrite Hr, Hf, Hm, Hl. cbn [negb Assert mbind res_bind].
  rewrite (proj2 (Z.ltb_lt 0 k)), (proj2 (Z.leb_le (l - mx + 1) k)), (proj2 (Z.leb_le k l)), orb_true_r by (change mx with 3; lia). done.
Qed.
Next Obligation.
  intros a l s (g & Hi & _). pose proof (inv_conf _ _ _ _ _ Hi) as [Hr (Hf & _) _ _ _ _]. cbn [st] in *. cbn. unfold startCollectingState, isFetching, D.getIsFetchingState. rewrite Hr, Hf.
  cbn [negb Assert mbind res_bind]. eexists. split; [done|]. by intros.
Qed.
End instance.
End ReplicaStateTransfer.
