(* ===== verification/ReplicaLog.v ===== *)
(** * The log of a replica (CommitProtocol.v, ReplicaExecution.v)

    The items of [mainLog] are those of the commit protocol: [logItem] holds the
    PrePrepare message as bytes beside the state of the protocol.  It implements the
    interface [LogItem] of execution and keeps its laws. *)
From S2P Require Import Prelude SysConsts Digest ReplicasInfo ActiveWindow MsgsCertificate MessageBase Checkpoint VectorOfShares Collector Accumulator PartialProofsSet PartialExecProofsSet SeqNumInfo CommitProtocol CommitProtocolSafety ReservedPages ClientReplyMsg ClientRequestMsg ClientsManager ClientsManagerSpec PrePrepareMsg Controller ReplicaExecution ReplicaExecutionSpec.

Module ReplicaLog.
Import CommitProtocol CommitProtocolSafety.
Import SeqNumInfo (PrePrepare, Share, pp_sender, pp_view, pp_seq, pp_digest, pp_firstPath, s_sender, s_view, s_seq, s_sig).

Section log.
Context (info : ReplicasInfo.t).
Context {NumType : Type} (parse : list Z → Z * NumType) (verifyShare : Digest → Z → NumType → bool).
Context (order : gmap Z (@Collector.RepInfo Share) → list (Z * @Collector.RepInfo Share)).
Context (slowVerifier : Collector.Verifier) (slowSign : Digest → list Z).
Context (fastVerify : CommitPath → Digest → list Z → bool) (fastSign : bool → Digest → list Z).
Context (digestOfDigest : Digest → Digest) (maxConcurrent : Z).
#[local] Abbreviation world := (@CommitProtocol.world NumType).
#[local] Abbreviation ppOf w := (SeqNumInfo.prePrepareMsg (sn w)).
#[local] Abbreviation prep w := (SeqNumInfo.prepareSigCollector (sn w)).
#[local] Abbreviation comm w := (SeqNumInfo.commitMsgsCollector (sn w)).
#[local] Abbreviation proofs w := (SeqNumInfo.partialProofsSet (sn w)).
#[local] Abbreviation handleAt v n := (handle info parse verifyShare order slowVerifier slowSign fastVerify fastSign digestOfDigest v n maxConcurrent).

(** ** Which handlers add a message *)

(** The message that a handler can add. *)
Definition adds (v : Z) (o : op) : option PrePrepare :=
  match o with
  | PrimarySends _ _ m => Some m
  | OnPrePrepare _ _ m => if pp_sender m =? ReplicasInfo.primaryOfView info v then Some m else None
  | _ => None
  end.

Definition keeps (w : world) (r : res (world * list Out)) : Prop := ∀ w' outs, r = Ok (w', outs) → ppOf w' = ppOf w.

Lemma keeps_ok w w' outs : ppOf w' = ppOf w → keeps w (Ok (w', outs)).
Proof. intros Hp ? ? [= <- _]. done. Qed.

Lemma keeps_bind {X} w (r : res X) f : (∀ x, r = Ok x → keeps w (f x)) → keeps w (r ≫= f).
Proof. intros Hf w' outs He. destruct r as [x|]; [|done]. by eapply Hf. Qed.

Lemma keeps_err w e : keeps w (Err e).
Proof. by intros ? ? ?. Qed.

(** The methods of the item that a handler calls keep the message. *)
Ltac keep_step :=
  match goal with
  | |- keeps _ (Ok _) => apply keeps_ok; done
  | |- keeps _ (Err _) => apply keeps_err
  | |- keeps _ (Assert ?b ≫= _) => apply keeps_bind; intros ? _
  | |- keeps _ (if ?b then _ else _) => destruct b eqn:?
  | |- keeps _ (match ?x with Some _ => _ | None => _ end) => destruct x eqn:?
  | |- keeps _ (match ?x with pair _ _ => _ end) => destruct x eqn:?
  end; cbv beta zeta.
(** The end of a method whose result is [E]. *)
Ltac ends E := repeat match type of E with
  | (_ ≫= _) = Ok _ => apply bind_ok in E as (? & _ & E)
  | (match ?x with pair _ _ => _ end) = Ok _ => destruct x
  | (if ?b then _ else _) = Ok _ => destruct b
  | (match ?x with Some _ => _ | None => _ end) = Ok _ => destruct x
  | Err _ = Ok _ => discriminate E
  | Ok _ = Ok _ => injection E; clear E; intros; subst
  end.

Lemma addSelfPrepare_pp i m i' j : SeqNumInfo.addSelfMsg_PreparePartial (NumType := NumType) info order i m = Ok (i', j) → SeqNumInfo.prePrepareMsg i' = SeqNumInfo.prePrepareMsg i.
Proof. unfold SeqNumInfo.addSelfMsg_PreparePartial. intros E. by ends E. Qed.
Lemma addPrepare_pp i m r i' j : SeqNumInfo.addMsg_PreparePartial (NumType := NumType) info order i m = Ok (r, i', j) → SeqNumInfo.prePrepareMsg i' = SeqNumInfo.prePrepareMsg i.
Proof. unfold SeqNumInfo.addMsg_PreparePartial. intros E. by ends E. Qed.
Lemma addPrepareFull_pp i m r i' j : SeqNumInfo.addMsg_PrepareFull (NumType := NumType) info order i m = Ok (r, i', j) → SeqNumInfo.prePrepareMsg i' = SeqNumInfo.prePrepareMsg i.
Proof. unfold SeqNumInfo.addMsg_PrepareFull. intros E. by ends E. Qed.
Lemma addCommit_pp now i m r i' j : SeqNumInfo.addMsg_CommitPartial (NumType := NumType) info order now i m = Ok (r, i', j) → SeqNumInfo.prePrepareMsg i' = SeqNumInfo.prePrepareMsg i.
Proof. unfold SeqNumInfo.addMsg_CommitPartial. intros E. by ends E. Qed.
Lemma addSelfCommit_pp now i m d i' js : SeqNumInfo.addSelfCommitPartialMsgAndDigest (NumType := NumType) info order now i m d = Ok (i', js) → SeqNumInfo.prePrepareMsg i' = SeqNumInfo.prePrepareMsg i.
Proof. unfold SeqNumInfo.addSelfCommitPartialMsgAndDigest. intros E. by ends E. Qed.
Lemma addCommitFull_pp now i m r i' j : SeqNumInfo.addMsg_CommitFull (NumType := NumType) info order now i m = Ok (r, i', j) → SeqNumInfo.prePrepareMsg i' = SeqNumInfo.prePrepareMsg i.
Proof. unfold SeqNumInfo.addMsg_CommitFull. intros E. by ends E. Qed.
Lemma onPrepare_pp i r i' j : SeqNumInfo.onCompletionPrepare (NumType := NumType) info order i r = Ok (i', j) → SeqNumInfo.prePrepareMsg i' = SeqNumInfo.prePrepareMsg i.
Proof. unfold SeqNumInfo.onCompletionPrepare. intros E. by ends E. Qed.
Lemma onCommit_pp i r i' j : SeqNumInfo.onCompletionCommit (NumType := NumType) info order i r = Ok (i', j) → SeqNumInfo.prePrepareMsg i' = SeqNumInfo.prePrepareMsg i.
Proof. unfold SeqNumInfo.onCompletionCommit. intros E. by ends E. Qed.

Lemma commitFullCommitProof_keeps n now le w : keeps w (commitFullCommitProof n maxConcurrent now le w).
Proof.
  intros w' outs E. unfold commitFullCommitProof in E. apply bind_ok in E as (i & E1 & E). unfold SeqNumInfo.forceComplete in E1. ends E1. by ends E.
Qed.

Lemma getOrMake_keeps v w m w' part : getOrMakePartialProof info parse verifyShare fastSign v w m = Ok (w', part) →
  ppOf w' = ppOf w ∧ comm w' = comm w ∧ SeqNumInfo.forcedCompleted (sn w') = SeqNumInfo.forcedCompleted (sn w).
Proof. intros E. unfold getOrMakePartialProof in E. by ends E. Qed.

Lemma sendPartialProof_keeps v n now le w : keeps w (sendPartialProof info parse verifyShare fastSign v n maxConcurrent now le w).
Proof.
  intros w' outs E. unfold sendPartialProof in E. destruct (SeqNumInfo.getPrePrepareMsg (sn w)) as [m|]; [|by ends E]. apply bind_ok in E as ([w1 outs1] & E1 & E).
  assert (H1 : ppOf w1 = ppOf w).
  { destruct (negb _); [|by ends E1]. apply bind_ok in E1 as ([w2 part] & E2 & E1). apply getOrMake_keeps in E2 as [<- _]. by ends E1. }
  rewrite <- H1. destruct (PartialProofsSet.getFullProof _); [|by ends E]. apply bind_ok in E as ([w3 outs3] & E3 & E). unfold commitAndSendFullCommitProof in E3.
  apply bind_ok in E3 as ([w4 outs4] & E4 & E3). apply commitFullCommitProof_keeps in E4. ends E3. by ends E.
Qed.

Lemma sendPreparePartial_keeps v w : keeps w (sendPreparePartial info order slowSign v w).
Proof.
  intros w' outs E. unfold sendPreparePartial in E. destruct (_ && _); [|by ends E]. destruct (SeqNumInfo.getPrePrepareMsg (sn w)); [|done].
  apply bind_ok in E as ([i j] & E1 & E). apply addSelfPrepare_pp in E1. by ends E.
Qed.

Lemma sendCommitPartial_keeps v n now w : keeps w (sendCommitPartial info order slowSign digestOfDigest v n now w).
Proof.
  intros w' outs E. unfold sendCommitPartial in E. apply bind_ok in E as (_ & _ & E). destruct (SeqNumInfo.getPrePrepareMsg (sn w)); [|done].
  apply bind_ok in E as (_ & _ & E). destruct (SeqNumInfo.committedOrHasCommitPartialFromReplica _ _); [by ends E|].
  apply bind_ok in E as ([i js] & E1 & E). apply addSelfCommit_pp in E1. by ends E.
Qed.

Lemma onFullCommitProof_keeps n now le w m : keeps w (onFullCommitProof fastVerify n maxConcurrent now le w m).
Proof.
  intros w' outs E. unfold onFullCommitProof in E. destruct (negb _); [|by ends E]. destruct (PartialProofsSet.addMsg_full _ _ _) as [[] p]; [|by ends E].
  apply bind_ok in E as (_ & _ & E). by apply commitFullCommitProof_keeps in E.
Qed.

(** [setPrePrepare] sets the message. *)
Lemma setPrePrepare_pp now i m b i' j : SeqNumInfo.setPrePrepare (NumType := NumType) info order now i m b = Ok (i', j) → SeqNumInfo.prePrepareMsg i' = Some m ∧
  SeqNumInfo.commitMsgsCollector i' = SeqNumInfo.commitMsgsCollector i.
Proof. unfold SeqNumInfo.setPrePrepare. intros E. by ends E. Qed.

Lemma onPrePrepare_pp v n now le w m w' outs : onPrePrepare info parse verifyShare order slowSign fastSign v n maxConcurrent now le w m = Ok (w', outs) →
  ppOf w' = match ppOf w with Some p => Some p | None => if pp_sender m =? ReplicasInfo.primaryOfView info v then Some m else None end.
Proof.
  unfold onPrePrepare. intros E. destruct (_ =? _); [|ends E; by destruct (ppOf w')]. apply bind_ok in E as ([[added i] j] & E1 & E).
  unfold SeqNumInfo.addMsg_PrePrepare in E1. destruct (SeqNumInfo.prePrepareMsg (sn w)) as [p0|] eqn:Ep.
  - rewrite bool_decide_eq_true_2 in E1 by done. ends E1. cbn [with_prepare] in E. by ends E.
  - rewrite bool_decide_eq_false_2 in E1 by naive_solver. do 3 apply bind_ok in E1 as (_ & _ & E1). apply bind_ok in E1 as ([i1 j1] & Es & E1). apply setPrePrepare_pp in Es as [Hs _]. ends E1.
    destruct (_ && _); [apply sendPartialProof_keeps in E|apply sendPreparePartial_keeps in E]; rewrite E; exact Hs.
Qed.

Lemma primarySends_pp v n now le w m w' outs : primarySends info parse verifyShare order slowSign fastSign v n maxConcurrent now le w m = Ok (w', outs) → ppOf w' = Some m.
Proof.
  unfold primarySends. intros E. apply bind_ok in E as ([i j] & E1 & E). unfold SeqNumInfo.addSelfMsg_PrePrepare in E1. do 4 apply bind_ok in E1 as (_ & _ & E1). apply setPrePrepare_pp in E1 as [Hs _].
  apply bind_ok in E as ([w1 outs1] & E1 & E). ends E. destruct (bool_decide _); [apply sendPreparePartial_keeps in E1|apply sendPartialProof_keeps in E1]; rewrite E1; exact Hs.
Qed.

(** A handler keeps a message, and adds one only as [adds] says. *)
Lemma handle_pp v n w o w' outs : handleAt v n w o = Ok (w', outs) →
  ppOf w' = ppOf w ∨ (∃ m, adds v o = Some m ∧ ppOf w' = Some m ∧ (ppOf w = None ∨ ∃ now le, o = PrimarySends now le m)).
Proof.
  intros E. destruct o; cbn [handle] in E.
  - apply primarySends_pp in E. right. eexists. split; [done|]. split; [done|]. eauto.
  - apply onPrePrepare_pp in E. destruct (ppOf w) eqn:Ep; [by left|]. cbn [adds]. destruct (_ =? _); [right; eauto|by left].
  - left. unfold tryToStartSlowPath in E. destruct (_ || _); [by ends E|]. apply bind_ok in E as ([w1 outs1] & E1 & E). apply sendPreparePartial_keeps in E1. by ends E.
  - left. unfold onStartSlowCommit in E. destruct (_ && _); [|by ends E]. destruct (negb _); [by ends E|]. by apply sendPreparePartial_keeps in E.
  - left. unfold onPartialCommitProof in E. do 2 apply bind_ok in E as (_ & _ & E). destruct (_ <? _); [|by ends E]. apply bind_ok in E as ([[added p] j] & _ & E).
    destruct (if added then _ else _); [|by ends E]. apply bind_ok in E as (_ & _ & E). unfold commitAndSendFullCommitProof in E. apply bind_ok in E as ([w1 outs1] & E1 & E).
    apply commitFullCommitProof_keeps in E1. by ends E.
  - left. by apply onFullCommitProof_keeps in E.
  - left. unfold onInternalFullCommitProof in E. apply bind_ok in E as ([w1 outs1] & E1 & E). apply onFullCommitProof_keeps in E1. by ends E.
  - left. unfold onPreparePartial in E. apply bind_ok in E as (_ & _ & E). destruct (answer _ _ _); [by ends E|]. apply bind_ok in E as ([[r i] j] & E1 & E). apply addPrepare_pp in E1. by ends E.
  - left. unfold onPrepareFull in E. destruct (answer _ _ _); [by ends E|]. destruct (bool_decide _); [by ends E|]. apply bind_ok in E as ([[r i] j] & E1 & E). apply addPrepareFull_pp in E1. by ends E.
  - left. unfold onCommitPartial in E. apply bind_ok in E as (_ & _ & E). destruct (answer _ _ _); [by ends E|]. apply bind_ok in E as ([[r i] j] & E1 & E). apply addCommit_pp in E1. by ends E.
  - left. unfold onCommitFull in E. destruct (PartialProofsSet.getFullProof _); [by ends E|]. destruct (bool_decide _); [by ends E|]. apply bind_ok in E as ([[r i] j] & E1 & E). apply addCommitFull_pp in E1. by ends E.
  - left. destruct (prepareJobs w !! k) as [j|]; [|by ends E]. apply bind_ok in E as (r & _ & E). unfold onPrepareResult in E. apply bind_ok in E as ([i j'] & E1 & E). apply onPrepare_pp in E1. cbn [sn] in E1.
    destruct r; [by ends E| |].
    + destruct (SeqNumInfo.getValidPrepareFullMsg _); [|done]. destruct (bool_decide _); [by ends E|]. apply bind_ok in E as (_ & _ & E). apply bind_ok in E as ([w1 outs1] & E2 & E).
      apply sendCommitPartial_keeps in E2. cbn [with_prepare sn] in E2. ends E. congruence.
    + destruct (negb _); [by ends E|]. destruct (bool_decide _); [by ends E|]. apply bind_ok in E as (_ & _ & E). apply sendCommitPartial_keeps in E. cbn [with_prepare sn] in E. congruence.
  - left. destruct (commitJobs w !! k) as [j|]; [|by ends E]. apply bind_ok in E as (r & _ & E). unfold onCommitResult in E. apply bind_ok in E as ([i j'] & E1 & E). apply onCommit_pp in E1. cbn [sn] in E1.
    destruct r; by ends E.
Qed.

(** ** Items *)

(** The PrePrepare message as its accessors give it. *)
Definition decode (m : MessageBase.t) : res PrePrepare :=
  v ← PrePrepareMsg.viewNumber m;
  n ← PrePrepareMsg.seqNumber m;
  path ← PrePrepareMsg.firstPath m;
  d ← PrePrepareMsg.digestOfRequests m;
  Ok (SeqNumInfo.mkPP (MessageBase.sender_ m) v n d path).

Record logItem := mkLog { body : option MessageBase.t; proto : world }.

(** The results of jobs that were started before a reset are for a number that has left the window: they are ignored. *)
Definition reset (now : Z) (i : logItem) : logItem := mkLog None (mkW (SeqNumInfo.resetAndFree now (sn (proto i))) [] [] []).

Context `{VS : !Collector.VerifierSpec slowVerifier (SeqNumInfo.numberOfRequiredSignatures info)}.
#[local] Abbreviation cinv c js :=
  (Collector.inv (EF := SeqNumInfo.exFunc info) (VS := VS) slowVerifier (ReplicasInfo._numberOfReplicas info) (Collector.mkW c js)).
#[local] Abbreviation INV v n := (CommitProtocolSafety.inv info slowVerifier fastVerify digestOfDigest v n (VS := VS)).

Definition log_wf (i : logItem) : Prop := cinv (prep (proto i)) (prepareJobs (proto i)) ∧ cinv (comm (proto i)) (commitJobs (proto i)).
Definition log_empty (i : logItem) : Prop :=
  body i = None ∧ ppOf (proto i) = None ∧ Collector.isEmpty (prep (proto i)) = true ∧ Collector.isEmpty (comm (proto i)) = true ∧
  proofs (proto i) = PartialProofsSet.ctor ∧ SeqNumInfo.primary (sn (proto i)) = false ∧ SeqNumInfo.forcedCompleted (sn (proto i)) = false ∧
  prepareJobs (proto i) = [] ∧ commitJobs (proto i) = [] ∧ proofJobs (proto i) = [].

Lemma collector_reset c js : cinv c js → cinv (Collector.resetAndFree c) [].
Proof.
  intros [Hb Hj Hp]. unfold Collector.resetAndFree. destruct (Collector.isEmpty c) eqn:E; [|apply Collector.reset_inv; [apply (Collector.base_req _ _ _ Hb)|constructor]].
  unfold Collector.isEmpty in E. bool_to_prop. constructor; [done|constructor|]. destruct Hp; cbn in *; try done. by apply Collector.Waiting.
Qed.

Context (resetTime : Z).
#[export] Program Instance log_items : ItemFuncs logItem := {|
  item_init := mkLog None start; item_reset := reset resetTime; item_wf := log_wf; item_empty := log_empty |}.
Next Obligation. split; apply Collector.col_ctor_inv. Qed.
Next Obligation. intros i [Hp Hc]. split; by eapply collector_reset. Qed.
Next Obligation. intros i _. split_and!; try done; apply Collector.col_resetAndFree_empty. Qed.

(** The end of [tryToSendPrePrepareMsg] with the bytes of the message. *)
Definition log_sends (now le : Z) (i : logItem) (m : MessageBase.t) : res (logItem * list Out) :=
  p ← decode m;
  '(w, outs) ← primarySends info parse verifyShare order slowSign fastSign (pp_view p) (pp_seq p) maxConcurrent now le (proto i) p;
  Ok (mkLog (Some m) w, outs).

#[export] Instance log_item : LogItem logItem Out := {|
  ReplicaExecution.getPrePrepareMsg := body;
  ReplicaExecution.isCommitted__gg i := SeqNumInfo.isCommitted__gg (sn (proto i));
  ReplicaExecution.fullProof i := PartialProofsSet.f_sig <$> PartialProofsSet.getFullProof (proofs (proto i));
  ReplicaExecution.lastUpdateTimeOfCommitMsgs i := SeqNumInfo.commitUpdateTime (sn (proto i));
  ReplicaExecution.primarySends := log_sends;
|}.

(** ** The laws *)
Context (Hinfo : ReplicasInfo.wf info) (Hmax : ReplicasInfo._numberOfReplicas info <= VectorOfShares.MAX_NUM_OF_SHARES).
Context (order_perm : ∀ m, order m ≡ₚ map_to_list m).
Context (slowSign_wf : ∀ d, Collector.share_wf (slowSign d)) (fastSign_wf : ∀ b d, PartialProofsSet.share_wf info parse (fastSign b d)).
#[local] Abbreviation safe v n := (CommitProtocolSafety.safe info slowVerifier fastVerify digestOfDigest v n (VS := VS)).
#[local] Abbreviation op_pre v n := (CommitProtocolSafety.op_pre info parse slowVerifier v n (VS := VS)).

(** The bytes are those of the message, whose requests can be read. *)
Definition same_message (b : option MessageBase.t) (p : option PrePrepare) : Prop :=
  match b, p with Some m, Some pp => decode m = Ok pp ∧ readable m | None, None => True | _, _ => False end.

Definition log_at (v n : Z) (i : logItem) : Prop := n ≠ 0 ∧ INV v n (proto i) ∧ same_message (body i) (ppOf (proto i)).

Lemma collector_empty (c : @Collector.t Share Share) : Collector.isEmpty c = true → Collector.replicasInfo c = ∅ ∧ Collector.expectedSeqNumber c = 0.
Proof. unfold Collector.isEmpty. intros E. by bool_to_prop. Qed.

Lemma fresh_inv v n i : log_wf i → log_empty i → n ≠ 0 → log_at v n i.
Proof.
  intros [Hp Hc] (Hb & Hpp & [Hpi Hpe]%collector_empty & [Hci Hce]%collector_empty & Hpr & Hprim & Hf & Hj1 & Hj2 & Hj3) Hn. split_and!; [done| |by rewrite Hb, Hpp].
  constructor; rewrite ?Hpp, ?Hpr, ?Hj1, ?Hj2, ?Hj3, ?Hpi, ?Hci, ?Hpe, ?Hce, ?Hf; try done.
  - by rewrite Hj1 in Hp.
  - by rewrite Hj2 in Hc.
  - by apply PartialProofsSet.pps_empty_inv.
  - by intros [? ?].
Qed.

(** Without a message an item is not committed. *)
Lemma not_committed v n (w : world) : INV v n w → ppOf w = None → Collector.isComplete (comm w) = false ∧ SeqNumInfo.forcedCompleted (sn w) = false ∧ PartialProofsSet.fullCommitProof (proofs w) = None.
Proof.
  intros Hw Hn. pose proof (inv_pp _ _ _ _ _ _ _ Hw) as Hp. rewrite Hn in Hp. destruct Hp as (_ & _ & _ & Hs). pose proof (no_full_without_self _ _ _ _ _ _ _ Hw Hs) as Hf.
  split_and!; [|by eapply not_forced|done]. unfold Collector.isComplete. apply bool_decide_eq_false. intros Hv. apply Hv.
  destruct (Collector.combinedValidSignatureMsg (comm w)) as [m|] eqn:E; [|done]. exfalso.
  destruct (Collector.valid_post (EF := SeqNumInfo.exFunc info) slowVerifier _ _ _ m (inv_comm _ _ _ _ _ _ _ Hw) E) as [Hne _].
  destruct (inv_commit _ _ _ _ _ _ _ Hw Hne) as (_ & _ & _ & p & Hp & _). congruence.
Qed.

(** The primary's message does not commit the item. *)
Lemma sendPreparePartial_frame v (w : world) w' outs : sendPreparePartial info order slowSign v w = Ok (w', outs) →
  comm w' = comm w ∧ SeqNumInfo.forcedCompleted (sn w') = SeqNumInfo.forcedCompleted (sn w).
Proof.
  unfold sendPreparePartial. intros E. destruct (_ && _); [|by ends E]. destruct (SeqNumInfo.getPrePrepareMsg (sn w)); [|done].
  apply bind_ok in E as ([i j] & E1 & E). unfold SeqNumInfo.addSelfMsg_PreparePartial in E1. ends E1. by ends E.
Qed.

Lemma sendPartialProof_frame v n now le (w : world) w' outs : n ≠ 0 → INV v n w → PartialProofsSet.fullCommitProof (proofs w) = None →
  sendPartialProof info parse verifyShare fastSign v n maxConcurrent now le w = Ok (w', outs) →
  comm w' = comm w ∧ SeqNumInfo.forcedCompleted (sn w') = SeqNumInfo.forcedCompleted (sn w).
Proof.
  intros Hn Hw Hf. unfold sendPartialProof, SeqNumInfo.getPrePrepareMsg. destruct (ppOf w) as [p|] eqn:Ep; [|intros E; by ends E].
  assert (PartialProofsSet.hasFullProof (proofs w) = false) as -> by (unfold PartialProofsSet.hasFullProof; by rewrite Hf). cbn [negb].
  destruct (getOrMake_post info parse verifyShare slowVerifier fastVerify fastSign digestOfDigest v n Hinfo Hmax Hn fastSign_wf w p Hw Ep) as (w1 & part & E1 & _ & _ & Hf1).
  rewrite E1. apply getOrMake_keeps in E1 as (_ & <- & <-). cbn [mbind res_bind]. cbv zeta. unfold PartialProofsSet.getFullProof. cbn. rewrite Hf1, Hf. intros E. by ends E.
Qed.

Lemma primarySends_post v n now le (w : world) p : n ≠ 0 → INV v n w → op_pre v n w (PrimarySends now le p) →
  ∃ w' outs, primarySends info parse verifyShare order slowSign fastSign v n maxConcurrent now le w p = Ok (w', outs) ∧ INV v n w' ∧ SeqNumInfo.isCommitted__gg (sn w') = false.
Proof.
  intros Hn Hw Hpre. destruct (primarySends_safe info parse verifyShare order slowVerifier slowSign fastVerify fastSign digestOfDigest v n maxConcurrent Hinfo Hmax order_perm Hn slowSign_wf fastSign_wf now le w p Hw Hpre)
    as (w' & outs & He & Hi). exists w', outs. cbn [handle] in He. split_and!; [done|done|]. destruct Hpre as (Hok & _ & Hnone).
  destruct (not_committed v n w Hw Hnone) as (Hc & Hforced & Hfull).
  destruct (setPrePrepare_post info order slowVerifier fastVerify digestOfDigest v n Hinfo Hmax order_perm Hn now w p true Hw Hok Hnone) as (i & j & Es & Hw1 & _ & Hpr & Hf1 & _).
  pose proof (setPrePrepare_pp _ _ _ _ _ _ Es) as [_ Hcomm]. unfold primarySends, SeqNumInfo.addSelfMsg_PrePrepare in He. rewrite Es in He. apply bind_ok in He as ([i1 j1] & E1 & He).
  do 4 apply bind_ok in E1 as (_ & _ & E1). injection E1 as <- <-. apply bind_ok in He as ([w1 outs1] & E1 & He). injection He as <- _. unfold SeqNumInfo.isCommitted__gg.
  destruct (bool_decide _); [apply sendPreparePartial_frame in E1 as [-> ->]|apply (sendPartialProof_frame v n now le (with_prepare w i j)) in E1 as [-> ->]; [|done|done|]]; cbn.
  - by rewrite Hf1, Hcomm.
  - by rewrite Hf1, Hcomm.
  - by rewrite Hpr.
Qed.

#[export] Program Instance log_spec : LogItemSpec info logItem Out := {| li_at := log_at |}.
Next Obligation. by intros i (Hb & _). Qed.
Next Obligation. intros v n i Hw He Hn. apply fresh_inv; [done|done|lia]. Qed.
Next Obligation.
  intros tm le i m v n path d _ (Hn & Hi & Hs) Hb Hv Hsq Hp Hd Hpath Hread Hprim. cbn in Hb |- *. unfold log_sends, decode. rewrite Hv, Hsq, Hp, Hd. cbn [mbind res_bind pp_view pp_seq].
  rewrite Hb in Hs. cbn in Hs. destruct (ppOf (proto i)) eqn:Epp; [done|].
  destruct (primarySends_post v n tm le (proto i) (SeqNumInfo.mkPP (MessageBase.sender_ m) v n d path) Hn Hi) as (w' & outs & He & Hi' & Hc).
  { split_and!; [|done|done]. split_and!; [done|done|exact Hpath]. }
  rewrite He. cbn [mbind res_bind]. do 2 eexists. split; [done|]. split; [split; apply Hi'|]. split; [|done]. split; [done|]. split; [done|].
  cbn. rewrite (primarySends_pp _ _ _ _ _ _ _ _ He). cbn. split; [|done]. unfold decode. by rewrite Hv, Hsq, Hp, Hd.
Qed.

(** ** The handlers of the commit protocol on an item *)
Inductive Input :=
  | ReceivePrePrepare (now lastExecuted : Z) (m : MessageBase.t)
  | Handler (o : op).

Definition onItem (v n : Z) (i : logItem) (p : Input) : res (logItem * list Out) :=
  match p with
  | ReceivePrePrepare now le m =>
      pp ← decode m;
      '(w, outs) ← handleAt v n (proto i) (OnPrePrepare now le pp);
      Ok (mkLog (match body i, ppOf w with None, Some _ => Some m | b, _ => b end) w, outs)
  | Handler o => '(w, outs) ← handleAt v n (proto i) o; Ok (mkLog (body i) w, outs)
  end.

(** What is assumed of the inputs ([CommitProtocolSafety.op_pre]); batches of the primary are sent by execution. *)
Definition input_pre (v n : Z) (i : logItem) (p : Input) : Prop :=
  match p with
  | ReceivePrePrepare now le m => readable m ∧ ∃ pp, decode m = Ok pp ∧ op_pre v n (proto i) (OnPrePrepare now le pp)
  | Handler (PrimarySends _ _ _ | OnPrePrepare _ _ _) => False
  | Handler o => op_pre v n (proto i) o
  end.

#[local] Abbreviation handler_safe v n Hn := (handle_safe info parse verifyShare order slowVerifier slowSign fastVerify fastSign digestOfDigest v n maxConcurrent Hinfo Hmax order_perm Hn slowSign_wf fastSign_wf).

Lemma onItem_ok v n i p : log_at v n i → input_pre v n i p → ∃ i' outs, onItem v n i p = Ok (i', outs) ∧ log_wf i' ∧ log_at v n i' ∧
  (ReplicasInfo.primaryOfView info v = ReplicasInfo._myId info → body i' = body i).
Proof.
  intros (Hn & Hi & Hs) Hp. destruct p as [now le m|o]; cbn [input_pre onItem] in *.
  - destruct Hp as (Hread & pp & Hd & Hpre). rewrite Hd. cbn [mbind res_bind]. destruct (handler_safe v n Hn (proto i) (OnPrePrepare now le pp) Hi Hpre) as (w & outs & He & Hi'). rewrite He. cbn [mbind res_bind].
    do 2 eexists. split; [done|]. split; [split; apply Hi'|]. cbn [handle] in He. apply onPrePrepare_pp in He. split.
    + split_and!; [done|done|]. cbn. rewrite He. destruct (body i) as [b|], (ppOf (proto i)) as [p0|]; cbn in Hs; try done. by destruct (_ =? _).
    + intros Hprim. cbn. rewrite He. destruct (body i) as [b|], (ppOf (proto i)) as [p0|]; cbn in Hs; try done. rewrite Hprim. destruct Hpre as (_ & _ & Hne). by rewrite (proj2 (Z.eqb_neq _ _) Hne).
  - assert (Ho : op_pre v n (proto i) o ∧ adds v o = None) by (by destruct o). destruct Ho as [Ho Ha]. destruct (handler_safe v n Hn (proto i) o Hi Ho) as (w & outs & He & Hi'). rewrite He. cbn [mbind res_bind].
    do 2 eexists. split; [done|]. split; [split; apply Hi'|]. split; [|done]. split_and!; [done|done|]. cbn. apply handle_pp in He as [->|(m & Hm & _)]; [done|congruence].
Qed.

(** A committed item with its full proof is as execution needs it; the proof verifies for the message. *)
Definition fast (i : logItem) : Prop := SeqNumInfo.isCommitted__gg (sn (proto i)) = true →
  ∃ f, PartialProofsSet.getFullProof (proofs (proto i)) = Some f ∧ 2 * Z.of_nat (length (PartialProofsSet.f_sig f)) <= ReplicaExecution.maxReplyLength.

Lemma decode_fields m pp : decode m = Ok pp → PrePrepareMsg.viewNumber m = Ok (pp_view pp) ∧ PrePrepareMsg.seqNumber m = Ok (pp_seq pp) ∧ PrePrepareMsg.digestOfRequests m = Ok (pp_digest pp).
Proof.
  unfold decode. intros E. apply bind_ok in E as (v & -> & E). apply bind_ok in E as (n & -> & E). apply bind_ok in E as (path & _ & E). apply bind_ok in E as (d & -> & E). by injection E as <-.
Qed.

Lemma log_entry v n i : log_at v n i → fast i → ReplicaExecutionSpec.entry_ok v n i.
Proof.
  intros (Hn & Hi & Hs) Hf m Hm Hc. cbn in Hm, Hc. destruct (Hf Hc) as (f & Hfp & Hlen). rewrite Hm in Hs. cbn in Hs. destruct (ppOf (proto i)) as [pp|] eqn:Hpp; [|done].
  destruct Hs as (Hd & rs & Hr & Hnum). apply decode_fields in Hd as (Hv & Hsq & _). pose proof (inv_pp _ _ _ _ _ _ _ Hi) as Hok. rewrite Hpp in Hok. destruct Hok as ((<- & <- & _) & _).
  exists (PartialProofsSet.f_sig f), rs. constructor; try done. cbn. by rewrite Hfp.
Qed.

(** The batch [b] has number [n] in view [v]: it has the requests of a PrePrepare message and a full commit proof for it. *)
Definition certified (v n : Z) (b : list Z * list ClientRequestMsg.Request) : Prop := ∃ m d path,
  PrePrepareMsg.viewNumber m = Ok v ∧ PrePrepareMsg.seqNumber m = Ok n ∧ PrePrepareMsg.digestOfRequests m = Ok d ∧ PrePrepareMsg.readRequests m = Ok b.2 ∧
  fastVerify path (Digest.calcCombination d v n) b.1 = true.

Lemma ready_certified v n i b : log_at v n i → ReplicaExecutionSpec.ready i = Some b → certified v n b.
Proof.
  intros (Hn & Hi & Hs). unfold ReplicaExecutionSpec.ready. cbn. destruct (body i) as [m|]; [|done]. cbn in Hs. destruct (ppOf (proto i)) as [pp|] eqn:Hpp; [|done].
  destruct (PartialProofsSet.getFullProof (proofs (proto i))) as [f|] eqn:Hf; [|done]. cbn. destruct (SeqNumInfo.isCommitted__gg _); [|done].
  destruct (PrePrepareMsg.readRequests m) as [rs|] eqn:Hr; [|done]. intros [= <-]. destruct Hs as (Hd & _). apply decode_fields in Hd as (Hv & Hsq & Hd).
  assert (Hforced : SeqNumInfo.forcedCompleted (sn (proto i)) = true).
  { rewrite (inv_forced _ _ _ _ _ _ _ Hi). unfold PartialProofsSet.hasFullProof, PartialProofsSet.getFullProof in *. by rewrite Hf. }
  destruct (forced_proof info slowVerifier fastVerify digestOfDigest v n (proto i) Hi Hforced) as (pp' & Hpp' & path & f' & Hf' & Hver).
  unfold SeqNumInfo.getPrePrepareMsg in Hpp'. rewrite Hpp in Hpp'. injection Hpp' as <-. rewrite Hf in Hf'. injection Hf' as <-.
  pose proof (inv_pp _ _ _ _ _ _ _ Hi) as Hok. rewrite Hpp in Hok. destruct Hok as ((Eq1 & Eq2 & _) & _). exists m, (pp_digest pp), path. rewrite <- Eq1, <- Eq2. split_and!; try done.
  unfold ppDigest in Hver. by rewrite Eq1, Eq2.
Qed.
End log.
End ReplicaLog.
