(* ===== verification/ReplicaProtocol.v ===== *)
(** * A replica with its commit protocol (ReplicaLog.v, ReplicaExecutionRuns.v)

    Runs of a replica whose log has the items of the commit protocol: the handlers of the
    protocol for a number of the window, requests of clients, checkpoint messages, execution
    and timers in any order.  A committed batch is executed only with the full proof of the
    fast path, which execution reads ([executeRequestsInPrePrepareMsg]). *)
From S2P Require Import Prelude SysConsts Digest ReplicasInfo ActiveWindow MsgsCertificate MessageBase Checkpoint VectorOfShares Collector Accumulator CollectorExamples PartialProofsSet PartialExecProofsSet SeqNumInfo CommitProtocol CommitProtocolSafety ReservedPages Controller ClientReplyMsg ClientRequestMsg ClientsManager ClientsManagerSpec PrePrepareMsg PrePrepareMsgProps ReplicaExecution ReplicaExecutionSpec ReplicaExecutionFacts ReplicaExecutionLoop ReplicaExecutionHandlers ReplicaExecutionProps ReplicaExecutionExample ReplicaLog.

Module ReplicaProtocol.
Import SeqNumInfo (Share).
Import ReplicaExecution ReplicaExecutionSpec ReplicaExecutionFacts ReplicaExecutionLoop ReplicaExecutionHandlers ReplicaExecutionProps ReplicaExecutionRuns ReplicaLog.

Section runs.
Context (info : ReplicasInfo.t).
Context {NumType : Type} (parse : list Z → Z * NumType) (verifyShare : Digest → Z → NumType → bool).
Context (order : gmap Z (@Collector.RepInfo Share) → list (Z * @Collector.RepInfo Share)).
Context (slowVerifier : Collector.Verifier) (slowSign : Digest → list Z).
Context (fastVerify : CommitPath → Digest → list Z → bool) (fastSign : bool → Digest → list Z).
Context (digestOfDigest : Digest → Digest) (maxConcurrent resetTime : Z).
Context `{VS : !Collector.VerifierSpec slowVerifier (SeqNumInfo.numberOfRequiredSignatures info)}.
#[local] Instance items : ItemFuncs logItem := log_items info slowVerifier resetTime (VS := VS) (NumType := NumType).
#[local] Instance item : LogItem logItem CommitProtocol.Out := log_item info parse verifyShare order slowSign fastSign maxConcurrent.
Context {S A Ct : Type} {RP : ReservedPages S} {ST : StateTransfer A S} {CO : Controller Ct}.
Context (H : list Z → Digest) (execute : A → Z → Z → bool → list Z → Z → list Z → Z → A * Z * list Z * Z) (Hinfo : ReplicasInfo.wf info).
#[local] Abbreviation world := (ReplicaExecutionRuns.world (@logItem NumType) CommitProtocol.Out S A Ct).
#[local] Abbreviation mainGet := (ActiveWindow.get kWorkWindowSize 1).
#[local] Abbreviation onItemAt := (onItem info parse verifyShare order slowVerifier slowSign fastVerify fastSign digestOfDigest maxConcurrent).

Inductive Step :=
  | Replica (o : ReplicaExecutionRuns.Op (@logItem NumType))
  | Protocol (n : Z) (p : Input).

Definition exec (W : world) (s : Step) : res world :=
  match s with
  | Replica o => ReplicaExecutionRuns.exec H maxConcurrent execute info Hinfo W o
  | Protocol n p =>
      i ← mainGet (mainLog (rep W)) n;
      '(i', _) ← onItemAt (curView (rep W)) n i p;
      w ← updateLog (rep W) n i';
      Ok (mkW w (history W))
  end.

Context (num size : Z) {RPS : ReservedPagesSpec S num size} {STS : StateTransferSpec A S num size} {CTS : ControllerSpec info Ct} (clients : list Z).
Context (Hmax : ReplicasInfo._numberOfReplicas info <= VectorOfShares.MAX_NUM_OF_SHARES) (order_perm : ∀ m, order m ≡ₚ map_to_list m).
Context (slowSign_wf : ∀ d, Collector.share_wf (slowSign d)) (fastSign_wf : ∀ b d, PartialProofsSet.share_wf info parse (fastSign b d)).
#[local] Instance laws : LogItemSpec info logItem CommitProtocol.Out :=
  log_spec info parse verifyShare order slowVerifier slowSign fastVerify fastSign digestOfDigest maxConcurrent resetTime Hinfo Hmax order_perm slowSign_wf fastSign_wf.
#[local] Abbreviation INV := (inv info Hinfo clients num size).

(** What is assumed of the steps: as in ReplicaExecutionRuns; messages of the protocol are for the view and for a number that was
    not executed, from peers, with readable requests and shares of existing signers ([input_pre]), and a handler that commits the item has its full proof. *)
Definition pre (W : world) (s : Step) : Prop :=
  match s with
  | Replica (UpdateLog _ _) => False
  | Replica o => ReplicaExecutionRuns.pre info W o
  | Protocol n p => idle W ∧ lastExecutedSeqNum (rep W) + 2 * kWorkWindowSize < 2 ^ 63 ∧ lastExecutedSeqNum (rep W) < n <= lastStableSeqNum (rep W) + kWorkWindowSize ∧
      ∀ i, mainGet (mainLog (rep W)) n = Ok i → input_pre info parse slowVerifier (curView (rep W)) n i p (VS := VS) ∧
        ∀ i' outs, onItemAt (curView (rep W)) n i p = Ok (i', outs) → fast i'
  end.

Context (Hset : setting H maxConcurrent clients num size) (Happ : app_contract num size execute) (Hro : readonly_contract execute).
#[local] Abbreviation REFINES := (refines num size clients execute info Hinfo).

(** A step of the protocol changes the log as execution allows. *)
Lemma protocol_update a W n p : REFINES a W → pre W (Protocol n p) → ∃ i i' outs, mainGet (mainLog (rep W)) n = Ok i ∧
  onItemAt (curView (rep W)) n i p = Ok (i', outs) ∧ update_ok info (rep W) n i'.
Proof.
  intros Hr (_ & _ & Hn & Hp). pose proof (rf_rep _ _ _ _ _ _ _ _ Hr) as (Hi & _ & _). pose proof Hi as [].
  destruct (ActiveWindow.get_ok kWorkWindowSize 1 (mainLog (rep W)) n inv_main0) as (i & Hg & _); [split; [lia|apply Z.mod_1_r]| |].
  { unfold ActiveWindow.insideActiveWindow. rewrite inv_main_beg0. apply andb_true_iff. split; [apply Z.leb_le|apply Z.ltb_lt]; lia. }
  destruct (Hp i Hg) as [Hin Hf]. destruct (inv_log0 n i ltac:(lia) Hg) as [Hat _].
  destruct (onItem_ok info parse verifyShare order slowVerifier slowSign fastVerify fastSign digestOfDigest maxConcurrent Hinfo Hmax order_perm slowSign_wf fastSign_wf _ n i p Hat Hin) as (i' & outs & He & Hw & Hat' & Hb).
  exists i, i', outs. split; [done|]. split; [done|]. split; [lia|]. split; [exact Hw|]. split; [exact Hat'|]. split.
  { apply (log_entry info parse verifyShare order slowVerifier slowSign fastVerify fastSign digestOfDigest maxConcurrent); [exact Hat'|by apply (Hf i' outs)]. }
  intros Hprim Hact Hused. destruct (inv_primary0 Hprim Hact) as [_ Hnone]. change (body i' = None). rewrite Hb; [exact (Hnone n i Hused Hg)|]. unfold isCurrentPrimary, currentPrimary in Hprim. by apply Z.eqb_eq.
Qed.

(** What such a step does. *)
Lemma protocol_exec a W n p : REFINES a W → pre W (Protocol n p) → ∃ i i' outs w, mainGet (mainLog (rep W)) n = Ok i ∧ onItemAt (curView (rep W)) n i p = Ok (i', outs) ∧
  exec W (Protocol n p) = Ok (mkW w (history W)) ∧ w = set_mainLog (rep W) (mainLog w) ∧
  ∀ m, mainGet (mainLog w) m = if decide (m = n) then Ok i' else mainGet (mainLog (rep W)) m.
Proof.
  intros Hr Hp. destruct (protocol_update a W n p Hr Hp) as (i & i' & outs & Hg & Hon & Hup). pose proof (rf_rep _ _ _ _ _ _ _ _ Hr) as (Hi & _ & _).
  destruct (updateLog_ok info Hinfo clients num size _ (rep W) n i' Hi Hup) as (w & Hw & _ & Heq & Hget). exists i, i', outs, w. split_and!; try done.
  cbn [exec]. rewrite Hg. cbn [mbind res_bind]. rewrite Hon. cbn [mbind res_bind]. by rewrite Hw.
Qed.

(** The executed batches are certified. *)
Definition certified_history (hs : list (list Z * list ClientRequestMsg.Request)) : Prop :=
  ∀ k b, hs !! k = Some b → ∃ v, certified fastVerify v (Z.of_nat k + 1) b.

Lemma readyFrom_lookup (w : @t logItem CommitProtocol.Out S A Ct) k : ∀ n j b, readyFrom w n k !! j = Some b → batchAt w (n + Z.of_nat j) = Some b.
Proof.
  induction k as [|k IH]; intros n j b Hj; [done|]. cbn [readyFrom] in Hj. destruct (batchAt w n) as [b'|] eqn:E; [|done]. destruct j as [|j]; cbn in Hj.
  - rewrite Z.add_0_r. congruence.
  - apply IH in Hj. rewrite <- Hj. f_equal. lia.
Qed.

Lemma executed_certified a W : REFINES a W → certified_history (history W) →
  certified_history (history W ++ readyFrom (rep W) (lastExecutedSeqNum (rep W) + 1) (Z.to_nat kWorkWindowSize)).
Proof.
  intros Hr Hh k b Hk. pose proof (rf_rep _ _ _ _ _ _ _ _ Hr) as (Hi & _ & _). apply lookup_app_Some in Hk as [Hk|[Hlen Hk]]; [by apply Hh|].
  apply readyFrom_lookup in Hk. rewrite (rf_count _ _ _ _ _ _ _ _ Hr) in Hk. replace (Z.of_nat (length (history W)) + 1 + Z.of_nat (k - length (history W))) with (Z.of_nat k + 1) in Hk by lia.
  unfold batchAt in Hk. destruct (mainGet (mainLog (rep W)) (Z.of_nat k + 1)) as [i|] eqn:Hg; [|done]. exists (curView (rep W)).
  eapply (ready_certified info parse verifyShare order slowVerifier slowSign fastVerify fastSign digestOfDigest maxConcurrent); [|exact Hk].
  apply (inv_log _ _ _ _ _ _ _ Hi _ i); [|done]. rewrite (rf_count _ _ _ _ _ _ _ _ Hr). lia.
Qed.

Lemma exec_history W o W' : ReplicaExecutionRuns.exec H maxConcurrent execute info Hinfo W o = Ok W' →
  history W' = match o with Execute _ _ => history W ++ readyFrom (rep W) (lastExecutedSeqNum (rep W) + 1) (Z.to_nat kWorkWindowSize) | _ => history W end.
Proof. clear. intros He. destruct o; cbn [ReplicaExecutionRuns.exec] in He; apply bind_ok in He as (w & _ & He);
  apply (f_equal (fun r => match r with Ok W => history W | Err _ => [] end)) in He; symmetry; exact He.
Qed.

Lemma step_ok a W s : idle W → REFINES a W → certified_history (history W) → pre W s →
  ∃ W', exec W s = Ok W' ∧ (idle W' → REFINES a W' ∧ certified_history (history W')).
Proof.
  intros Hid Hr Hh Hp. destruct s as [o|n p].
  - assert (Hp' : ReplicaExecutionRuns.pre info W o) by (by destruct o). destruct (op_ok num size H maxConcurrent clients execute info Hinfo Hset Happ Hro a W o Hid Hr Hp') as (W' & He & Hr').
    exists W'. split; [done|]. intros Hid'. split; [by apply Hr'|]. rewrite (exec_history W o W' He). destruct o; try exact Hh. by eapply executed_certified.
  - destruct (protocol_update a W n p Hr Hp) as (i & i' & outs & Hg & Hon & Hup). destruct Hp as (_ & Hb & _).
    destruct (op_ok num size H maxConcurrent clients execute info Hinfo Hset Happ Hro a W (UpdateLog n i') Hid Hr ltac:(by split_and!)) as (W' & He & Hr').
    exists W'. cbn [exec]. rewrite Hg. cbn [mbind res_bind]. rewrite Hon. cbn [mbind res_bind]. split; [exact He|]. intros Hid'. split; [by apply Hr'|].
    cbn in He. apply bind_ok in He as (w & _ & He). by injection He as <-.
Qed.

(** Every run is a run of execution in which the commit protocol changes the log. *)
Lemma runs_embed a W0 W : idle W0 → REFINES a W0 → certified_history (history W0) → reachable exec pre W0 W →
  reachable (ReplicaExecutionRuns.exec H maxConcurrent execute info Hinfo) (ReplicaExecutionRuns.pre info) W0 W ∧ (idle W → REFINES a W ∧ certified_history (history W)).
Proof.
  intros Hid0 Hr0 Hh0. induction 1 as [|W s W' Hrun [IHr IH] Hpre He]; [split; [constructor|done]|].
  assert (Hid : idle W) by (destruct s as [[]|]; cbn in Hpre; (done || apply Hpre)). destruct (IH Hid) as [Hr Hh].
  destruct (step_ok a W s Hid Hr Hh Hpre) as (W2 & He2 & Hr2). assert (W2 = W') as -> by congruence. split; [|done]. destruct s as [o|n p].
  - apply (reachable_step _ _ _ W o); [done|by destruct o|done].
  - destruct (protocol_update a W n p Hr Hpre) as (i & i' & outs & Hg & Hon & Hup). apply (reachable_step _ _ _ W (UpdateLog n i')); [done|by split_and!; [|apply Hpre|]|].
    cbn [exec] in He. rewrite Hg in He. cbn [mbind res_bind] in He. rewrite Hon in He. exact He.
Qed.

(** C2: A replica with the commit protocol of every number of its window, from its constructor, with the handlers of the protocol, the ends of its
    background jobs, requests of clients, checkpoint messages, executions and timers in any order, in one view, under these conditions: messages of the
    protocol are only for numbers that were not executed, for this view and from peers; their shares name existing signers ([share_wf], not checked
    by validation) and the combination of shares returns; PrePrepare messages have readable requests of numbers other than 0; requests of clients are well formed, fit a batch
    and have a number other than 0 ([isRequest]); no handler commits an item without its full proof; the application keeps its contract; and no state
    is fetched.  Then no assertion of any of these components fails; the run is one of execution (so that the
    properties of runs of execution hold for it); the replies in the reserved pages and the state of the application are those of the sequential service after the executed batches; and
    the batch executed as number [k] has the requests of a PrePrepare message for [k] and a full commit proof that verifies for the digest of that message, its view and [k]. *)
Theorem replica_protocol_safe n now memory s app ct w W :
  started num size clients info Hinfo n now memory s app ct w → reachable exec pre (mkW w []) W → idle W →
  (∀ o, pre W o → ∃ W', exec W o = Ok W') ∧
  reachable (ReplicaExecutionRuns.exec H maxConcurrent execute info Hinfo) (ReplicaExecutionRuns.pre info) (mkW w []) W ∧
  lastExecutedSeqNum (rep W) = Z.of_nat (length (history W)) ∧
  represents info Hinfo clients num size (rep W) (service clients execute (mkAbs ∅ app memory) (history W)) ∧
  (∀ k b, history W !! k = Some b → ∃ v, certified fastVerify v (Z.of_nat k + 1) b).
Proof.
  intros Hw Hrun Hid.
  assert (Hstart : idle (mkW w []) ∧ REFINES (mkAbs ∅ app memory) (mkW w [])).
  { pose proof Hw as (Hcl & H16 & Hmem & Hst & Hct & Hw'). pose proof Hset as [? ? ? [? ?] ? ?].
    destruct (ctor_runs info Hinfo clients num size ltac:(done) ltac:(done) ltac:(done) ltac:(done) ltac:(done) n now memory s app ct Hcl H16 Hmem Hst Hct) as (w' & Hw2 & Hr & Hl & _ & Hact & _).
    assert (w' = w) as -> by congruence. split; [eapply st_idle, (inv_st _ _ _ _ _ _ _ (proj1 Hr))|by constructor]. }
  destruct Hstart as [Hid0 Hr0]. destruct (runs_embed _ _ W Hid0 Hr0 ltac:(by intros k b Hk) Hrun) as [Hembed Hall]. destruct (Hall Hid) as [Hr Hh].
  split_and!; [|exact Hembed|apply Hr|apply Hr|exact Hh]. intros o Ho. destruct (step_ok _ W o Hid Hr Hh Ho) as (W' & He & _). eauto.
Qed.
End runs.
End ReplicaProtocol.

(** * An example of a replica with its commit protocol (ReplicaProtocol.v)

    A backup of four replicas gets the batch of the primary and a full commit proof, and
    executes the batch. *)
Module ReplicaProtocolExample.
Import ReplicaExecution ReplicaExecutionSpec ReplicaExecutionFacts ReplicaExecutionLoop ReplicaExecutionHandlers ReplicaExecutionProps ReplicaExecutionRuns ReplicaLog ReplicaProtocol.
Import ReplicaExecutionExample (ex_info, ex_info_wf, ex_clients, ex_hash, ex_execute, ex_setting, ex_app, ex_readonly, ex_reply_buffer, ex_disk, ex_controller, ex_request, backup_1, ex_pages, ex_module, ex_module_spec, simple_controller).
Import CollectorExamples (toy, toy_parse, toy_verifyShare, toy_spec).
#[local] Existing Instance NullStateTransfer.reserved_pages.
#[local] Existing Instance SimpleController.controller.
#[local] Existing Instances ex_pages ex_module ex_module_spec simple_controller.

#[local] Abbreviation info := (ex_info 1).
#[local] Abbreviation Hinfo := (ex_info_wf 1 backup_1).
#[local] Abbreviation ord := CommitProtocolSafety.sampleOrder.
#[local] Abbreviation sign := CommitProtocolSafety.sampleSign.
#[local] Abbreviation fsign := (fun _ : bool => CommitProtocolSafety.sampleSign).
#[local] Abbreviation fverify := PartialProofsSet.toy_verify.
#[local] Abbreviation dod := (fun d : Digest => d).
#[local] Instance ex_spec : Collector.VerifierSpec toy (SeqNumInfo.numberOfRequiredSignatures info) := toy_spec.
#[local] Instance ex_items : ItemFuncs (@logItem Z) := log_items info toy 0 (VS := ex_spec).
#[local] Instance ex_item : LogItem (@logItem Z) CommitProtocol.Out := log_item info toy_parse toy_verifyShare ord sign fsign 3.

Lemma few_replicas : ReplicasInfo._numberOfReplicas info <= VectorOfShares.MAX_NUM_OF_SHARES.
Proof. by vm_compute. Qed.
Lemma sign_wf d : Collector.share_wf (sign d).
Proof. vm_compute. split; discriminate. Qed.
Lemma fsign_wf b d : PartialProofsSet.share_wf info toy_parse (fsign b d).
Proof. vm_compute. split; discriminate. Qed.
Lemma ord_perm m : ord m ≡ₚ map_to_list m.
Proof. done. Qed.
#[local] Instance ex_laws : LogItemSpec info (@logItem Z) CommitProtocol.Out :=
  log_spec info toy_parse toy_verifyShare ord toy sign fverify fsign dod 3 0 Hinfo few_replicas ord_perm sign_wf fsign_wf.

#[local] Abbreviation world := (ReplicaExecutionRuns.world (@logItem Z) CommitProtocol.Out NullStateTransfer.t Z SimpleController.t).
#[local] Abbreviation pExec := (ReplicaProtocol.exec info toy_parse toy_verifyShare ord toy sign fverify fsign dod 3 0 (VS := ex_spec) (S := NullStateTransfer.t) (A := Z) (Ct := SimpleController.t) ex_hash ex_execute Hinfo).
#[local] Abbreviation pPre := (ReplicaProtocol.pre info toy_parse toy_verifyShare ord toy sign fverify fsign dod 3 0 (VS := ex_spec) (S := NullStateTransfer.t) (A := Z) (Ct := SimpleController.t) Hinfo few_replicas ord_perm sign_wf fsign_wf).
#[local] Abbreviation onItem1 := (onItem info toy_parse toy_verifyShare ord toy sign fverify fsign dod 3).

(** ** The item *)
Definition prePrepare : MessageBase.t := PrePrepareMsgProps.finished ex_hash 0 0 1 OPTIMISTIC_FAST [ex_request].
Definition full : PartialProofsSet.FullCommitProofMsg := PartialProofsSet.mkFull 2 0 1 [4].
Definition in1 : Input := ReceivePrePrepare 5 0 prePrepare.
Definition in2 : Input := Handler (CommitProtocolSafety.OnFullCommitProof 6 0 full).
Definition item0 : @logItem Z := item_reset item_init.
Definition itemOf (r : res (@logItem Z * list CommitProtocol.Out)) : @logItem Z := match r with Ok (i, _) => i | Err _ => item0 end.
Definition item1 : @logItem Z := itemOf (onItem1 0 1 item0 in1).
Definition item2 : @logItem Z := itemOf (onItem1 0 1 item1 in2).
Definition batch : list Z * list ClientRequestMsg.Request := ([4], [ex_request]).

Lemma message_readable : readable prePrepare.
Proof. exists [ex_request]. split; [by vm_compute|]. by repeat constructor. Qed.

Lemma item1_result : ∃ outs, onItem1 0 1 item0 in1 = Ok (item1, outs) ∧ SeqNumInfo.isCommitted__gg (CommitProtocol.sn (proto item1)) = false.
Proof. eexists. split; vm_compute; reflexivity. Qed.
Lemma item2_result : ∃ outs, onItem1 0 1 item1 in2 = Ok (item2, outs) ∧ ready item2 = Some batch.
Proof. eexists. split; vm_compute; reflexivity. Qed.
Lemma item2_fast : fast item2.
Proof. intros _. exists full. split; vm_compute; [reflexivity|discriminate]. Qed.

Lemma in1_pre : input_pre info toy_parse toy 0 1 item0 in1 (VS := ex_spec).
Proof.
  split; [exact message_readable|]. eexists. split; [vm_compute; reflexivity|]. split_and!; try reflexivity; try discriminate; vm_compute; intuition discriminate.
Qed.

(** ** The run *)
Lemma ctor_item {X} `{!ItemFuncs X} W R n (l : ActiveWindow.t X) m i : ActiveWindow.ctor W R n = Ok l → ActiveWindow.get W R l m = Ok i → i = item_reset item_init.
Proof.
  intros Hc Hg. unfold ActiveWindow.ctor in Hc. res_simpl. unfold ActiveWindow.get in Hg. res_simpl. case_match eqn:E; [|done]. injection Hg as <-.
  cbn in E. by apply lookup_replicate in E as [-> _].
Qed.

#[local] Abbreviation pStarted := (started (I := @logItem Z) (Pr := CommitProtocol.Out) (IF := ex_items) (CO := SimpleController.controller) (CTS := simple_controller info) 4 4096 ex_clients info Hinfo 2 0 ex_reply_buffer ex_disk 0 ex_controller).
#[local] Abbreviation pRefines := (refines (LIS := ex_laws) (CTS := simple_controller info) 4 4096 ex_clients ex_execute info Hinfo (mkAbs ∅ 0 ex_reply_buffer)).
#[local] Abbreviation mainGet := (ActiveWindow.get kWorkWindowSize 1).

Lemma fresh : ∃ w, pStarted w ∧ pRefines (mkW w []) ∧ (lastExecutedSeqNum w = 0 ∧ lastStableSeqNum w = 0 ∧ curView w = 0) ∧ (∀ n i, mainGet (mainLog w) n = Ok i → i = item0).
Proof.
  pose proof ex_setting as [? ? ? [? ?] ? ?]. destruct (ReplicaExecutionExample.ex_start 1 backup_1) as [wx (Hc & H16 & Hm & Hst & Hct & _)].
  destruct (ctor_runs (IF := ex_items) (LI := ex_item) (LIS := ex_laws) info Hinfo ex_clients 4 4096 ltac:(done) ltac:(done) ltac:(done) ltac:(done) ltac:(done) 2 0 ex_reply_buffer ex_disk 0 ex_controller Hc H16 Hm Hst Hct)
    as (w & Hw & Hr & Hl & Hs & Ha & _). exists w. destruct (ctor_log _ _ _ _ _ _ _ _ _ _ Hw) as (Hv & Hlog & _).
  assert (Hst' : pStarted w) by (split; [exact Hc|split; [exact H16|split; [exact Hm|split; [exact Hst|split; [exact Hct|exact Hw]]]]]). clear Hw.
  split; [exact Hst'|]. split; [constructor; [exact Hr|exact Hl|exact Ha|constructor]|]. split; [done|]. intros n i Hg. exact (ctor_item _ _ _ _ _ _ Hlog Hg).
Qed.

#[local] Abbreviation run_exec := (protocol_exec info toy_parse toy_verifyShare ord toy sign fverify fsign dod 3 0 ex_hash ex_execute Hinfo 4 4096 ex_clients few_replicas ord_perm sign_wf fsign_wf (mkAbs ∅ 0 ex_reply_buffer)).
#[local] Abbreviation run_step := (step_ok info toy_parse toy_verifyShare ord toy sign fverify fsign dod 3 0 ex_hash ex_execute Hinfo 4 4096 ex_clients few_replicas ord_perm sign_wf fsign_wf ex_setting ex_app ex_readonly (mkAbs ∅ 0 ex_reply_buffer)).

(** A step of the protocol for number 1 on the known item [i]. *)
Lemma item_step w p i i' : pRefines (mkW w []) → lastExecutedSeqNum w = 0 → lastStableSeqNum w = 0 → curView w = 0 → mainGet (mainLog w) 1 = Ok i →
  input_pre info toy_parse toy 0 1 i p (VS := ex_spec) → (∃ outs, onItem1 0 1 i p = Ok (i', outs)) → fast i' →
  ∃ w', pPre (mkW w []) (Protocol 1 p) ∧ pExec (mkW w []) (Protocol 1 p) = Ok (mkW w' []) ∧ pRefines (mkW w' []) ∧
    (lastExecutedSeqNum w' = 0 ∧ lastStableSeqNum w' = 0 ∧ curView w' = 0) ∧ ∀ m, mainGet (mainLog w') m = if decide (m = 1) then Ok i' else mainGet (mainLog w) m.
Proof.
  intros Hr Hl Hs Hv Hg Hin [outs Hon] Hf. pose proof (rf_rep _ _ _ _ _ _ _ _ Hr) as (Hi & _ & _).
  assert (Hid : ∀ w0, pRefines (mkW w0 []) → idle (mkW w0 [])).
  { intros w0 Hr0. pose proof (rf_rep _ _ _ _ _ _ _ _ Hr0) as (Hi0 & _ & _). eapply st_idle, (inv_st _ _ _ _ _ _ _ Hi0). }
  assert (Hp : pPre (mkW w []) (Protocol 1 p)).
  { cbn [pre rep]. rewrite Hl, Hs, Hv, Hg. split; [by apply Hid|]. split; [reflexivity|]. split; [split; [reflexivity|discriminate]|].
    intros j Hj. injection Hj as <-. split; [exact Hin|]. intros i2 outs2 Hon2. rewrite Hon in Hon2. injection Hon2 as <- _. exact Hf. }
  destruct (run_exec (mkW w []) 1 p Hr Hp) as (j & j' & outs' & w' & Hj & Honj & He & Heq & Hget). cbn [rep history] in *.
  rewrite Hv in Honj. rewrite Hg in Hj. injection Hj as <-. rewrite Hon in Honj. injection Honj as <- _.
  destruct (run_step (mkW w []) (Protocol 1 p) (Hid w Hr) Hr ltac:(intros k b Hk; discriminate Hk) Hp) as (W2 & He2 & Hr2). rewrite He in He2. injection He2 as <-.
  exists w'. split; [exact Hp|]. split; [exact He|]. split.
  - apply Hr2. unfold idle. cbn [rep]. rewrite Heq. exact (Hid w Hr).
  - split; [|exact Hget]. rewrite Heq. by split_and!.
Qed.

Lemma in2_pre : input_pre info toy_parse toy 0 1 item1 in2 (VS := ex_spec).
Proof. exact I. Qed.

Lemma item1_fast : fast item1.
Proof. destruct item1_result as (_ & _ & Hc). intros Hc'. rewrite Hc in Hc'. discriminate Hc'. Qed.

(** The backup has executed the batch. *)
Lemma fast_run : ∃ w0 W, pStarted w0 ∧ reachable pExec pPre (mkW w0 []) W ∧ idle W ∧ history W = [batch].
Proof.
  destruct fresh as (w0 & Hst & Hr & (Hl & Hs & Hv) & Hitems). exists w0.
  destruct item1_result as (outs1 & E1 & _). destruct item2_result as (outs2 & E2 & Hready).
  pose proof (rf_rep _ _ _ _ _ _ _ _ Hr) as (Hi & _ & _). cbn [rep] in Hi.
  assert (Hg0 : mainGet (mainLog w0) 1 = Ok item0).
  { destruct (ActiveWindow.get_ok kWorkWindowSize 1 (mainLog w0) 1 (inv_main _ _ _ _ _ _ _ Hi)) as (i & Hg & _); [split; [discriminate|reflexivity]| |rewrite Hg; f_equal; exact (Hitems 1 i Hg)].
    unfold ActiveWindow.insideActiveWindow. rewrite (inv_main_beg _ _ _ _ _ _ _ Hi), Hs. reflexivity. }
  destruct (item_step w0 in1 item0 item1 Hr Hl Hs Hv Hg0 in1_pre (ex_intro _ outs1 E1) item1_fast) as (w1 & Hp1 & He1 & Hr1 & (Hl1 & Hs1 & Hv1) & Hget1).
  destruct (item_step w1 in2 item1 item2 Hr1 Hl1 Hs1 Hv1 (Hget1 1) in2_pre (ex_intro _ outs2 E2) item2_fast) as (w2 & Hp2 & He2 & Hr2 & (Hl2 & Hs2 & Hv2) & Hget2).
  assert (Hid2 : isCollectingState (stateTransfer w2) = false) by (pose proof (rf_rep _ _ _ _ _ _ _ _ Hr2) as (Hi2 & _ & _); eapply st_idle, (inv_st _ _ _ _ _ _ _ Hi2)).
  assert (Hb1 : batchAt w2 1 = Some batch) by (unfold batchAt; rewrite Hget2; exact Hready).
  assert (Hb2 : batchAt w2 2 = None).
  { unfold batchAt. rewrite Hget2, decide_False, Hget1, decide_False by discriminate. destruct (mainGet (mainLog w0) 2) as [i|] eqn:E; [|reflexivity]. rewrite (Hitems 2 i E). reflexivity. }
  assert (Hp3 : pPre (mkW w2 []) (Replica (Execute 7 false))) by (split; [exact Hid2|split; [cbn [rep]; rewrite Hl2; reflexivity|exact I]]).
  destruct (run_step (mkW w2 []) (Replica (Execute 7 false)) Hid2 Hr2 ltac:(intros k b Hk; discriminate Hk) Hp3) as (W3 & He3 & Hr3).
  assert (Hh : history W3 = [batch]).
  { cbn [ReplicaProtocol.exec] in He3. apply exec_history in He3. rewrite He3. cbn [rep history app]. rewrite Hl2. change (0 + 1) with 1.
    change (readyFrom w2 1 (Datatypes.S (Datatypes.S 298)) = [batch]). cbn [readyFrom]. rewrite Hb1. change (1 + 1) with 2. by rewrite Hb2. }
  exists W3. split; [exact Hst|]. split; [|split; [|exact Hh]].
  - eapply reachable_step; [eapply reachable_step; [eapply reachable_step; [constructor|exact Hp1|exact He1]|exact Hp2|exact He2]|exact Hp3|exact He3].
  - destruct (executed (LIS := ex_laws) 4 4096 ex_hash 3 ex_clients ex_setting ex_execute ex_app info Hinfo 7 false w2 _ (rf_rep _ _ _ _ _ _ _ _ Hr2) (rf_active _ _ _ _ _ _ _ _ Hr2) ltac:(cbn [rep]; rewrite Hs2; reflexivity)) as (w' & Hex & Hr' & _).
    cbn [ReplicaProtocol.exec ReplicaExecutionRuns.exec rep] in He3. apply bind_ok in He3 as (r & Hx & He3).
    assert (Hrw : r = (tt, w')) by (change (executeReadWriteRequests info Hinfo ex_hash 3 ex_execute 7 false w2 = Ok r) in Hx; congruence). rewrite Hrw in He3. cbn [snd] in He3.
    apply (f_equal (fun r => match r with Ok W => stateTransfer (rep W) | Err _ => stateTransfer w' end)) in He3. unfold idle. rewrite <- He3. eapply st_idle, (inv_st _ _ _ _ _ _ _ (proj1 Hr')).
Qed.

Lemma replica_protocol_safe_witness : ∃ W : world, history W = [batch] ∧ requestsHandler (rep W) = 1 ∧ ∃ v, certified fverify v 1 batch.
Proof.
  destruct fast_run as (w0 & W & Hst & Hrun & Hid & Hh). exists W.
  destruct (replica_protocol_safe info toy_parse toy_verifyShare ord toy sign fverify fsign dod 3 0 ex_hash ex_execute Hinfo 4 4096 ex_clients few_replicas ord_perm sign_wf fsign_wf ex_setting ex_app ex_readonly
    2 0 ex_reply_buffer ex_disk 0 ex_controller w0 W Hst Hrun Hid) as (_ & _ & _ & (_ & Happ & _) & Hc). rewrite Hh in Happ, Hc.
  split; [exact Hh|]. split; [rewrite Happ; vm_compute; reflexivity|exact (Hc 0%nat batch eq_refl)].
Defined.
End ReplicaProtocolExample.
