(* ===== verification/StartSlowCommitMsg.v ===== *)
(** * StartSlowCommitMsg (bftengine/src/bftengine/StartSlowCommitMsg.cpp, .hpp)

    The primary tells the replicas to start the slow path of a number: the bytes of the
    message, construction, accessors and validation. *)
From S2P Require Import Prelude SysConsts Digest ReplicasInfo MsgsCertificate MessageBase Checkpoint SignedShareMsgs.

Module StartSlowCommitMsg.
Definition sizeof_StartSlowCommitMsgHeader : Z := 18.

Definition ctor (senderId v s : Z) : res MessageBase.t :=
  m ← MessageBase.ctor senderId MC_StartSlowCommit sizeof_StartSlowCommitMsgHeader;
  b1 ← put_int 8 (MessageBase.msgBody_ m) 2 v;
  b2 ← put_int 8 b1 10 s;
  Ok (SignedShareMsgs.set_body m b2).

Definition viewNumber (m : MessageBase.t) : res Z := get_int 8 (MessageBase.msgBody_ m) 2.
Definition seqNumber (m : MessageBase.t) : res Z := get_int 8 (MessageBase.msgBody_ m) 10.

Definition ToActualMsgType (repInfo : ReplicasInfo.t) (inMsg : MessageBase.t) : res bool :=
  ty ← MessageBase.type inMsg;
  assert! (ty =? code_of MC_StartSlowCommit) ;;
  if MessageBase.msgSize_ inMsg <? sizeof_StartSlowCommitMsgHeader then Ok false
  else
    v ← viewNumber inMsg;
    if negb (ReplicasInfo.primaryOfView repInfo v =? MessageBase.sender_ inMsg) then Ok false else Ok true.

Definition image (senderId v s : Z) : MessageBase.t := MessageBase.mk (le_enc 2 (code_of MC_StartSlowCommit) ++ le_enc 8 v ++ le_enc 8 s) 18 18 senderId true.

Lemma startSlow_layout senderId v s : ctor senderId v s = Ok (image senderId v s).
Proof.
  unfold ctor, MessageBase.ctor, put_int, sizeof_StartSlowCommitMsgHeader. cbn [Z.ltb Z.compare Assert mbind res_bind].
  change (replicate (Z.to_nat 18) 0) with (replicate 2 0 ++ replicate 8 0 ++ replicate 8 0).
  rewrite (put_bytes_head (replicate 2 0)) by done. res_step. cbn [MessageBase.msgBody_].
  put_skip 2. rewrite (put_bytes_head (replicate 8 0)) by len_tac. res_step. put_skip 2. put_skip 8. rewrite (put_bytes_last (replicate 8 0)) by len_tac. done.
Qed.

(** A message that is built is read as it was built; a replica accepts it when the sender is the primary of its view. *)
Theorem startSlowCommit_roundtrip senderId v s r : - 2 ^ 63 <= v < 2 ^ 63 → - 2 ^ 63 <= s < 2 ^ 63 →
  ∃ m, ctor senderId v s = Ok m ∧ viewNumber m = Ok v ∧ seqNumber m = Ok s ∧ MessageBase.sender_ m = senderId ∧
    ToActualMsgType r m = Ok (ReplicasInfo.primaryOfView r v =? senderId).
Proof.
  intros Hv Hs. exists (image senderId v s). rewrite startSlow_layout.
  assert (Ev : viewNumber (image senderId v s) = Ok v) by (apply read_int; [lia|lia|]; cbn [image MessageBase.msgBody_]; solve_get).
  split_and!; try done; [apply read_int; [lia|lia|]; cbn [image MessageBase.msgBody_]; solve_get|].
  unfold ToActualMsgType. change (MessageBase.type (image senderId v s)) with (@Ok Z 113). rewrite Ev. cbn. by destruct (_ =? _).
Qed.

(** The validation of an arrived message stays inside its body. *)
Theorem startSlowCommit_in_bounds r m : CheckpointMsg.arrived m → MessageBase.type m = Ok (code_of MC_StartSlowCommit) → ∃ b, ToActualMsgType r m = Ok b.
Proof.
  intros [Hs _ _ _] Ht. unfold ToActualMsgType. rewrite Ht. res_step. rewrite Z.eqb_refl. res_step. unfold sizeof_StartSlowCommitMsgHeader.
  destruct (Z.ltb_spec (MessageBase.msgSize_ m) 18); [eauto|]. unfold viewNumber. destruct (get_int_in 8 (MessageBase.msgBody_ m) 2) as (v & -> & _); [lia..|]. res_step. destruct (negb _); eauto.
Qed.
End StartSlowCommitMsg.
