(* ===== verification/SimpleAckMsg.v ===== *)
(** * SimpleAckMsg (bftengine/src/bftengine/SimpleAckMsg.cpp, .hpp)

    The acknowledgement of a message that may be sent again: bytes, construction, accessors
    and validation. *)
From S2P Require Import Prelude SysConsts Digest ReplicasInfo MsgsCertificate MessageBase Checkpoint SignedShareMsgs.

Module SimpleAckMsg.
Definition sizeof_SimpleAckMsgHeader : Z := 26.

Definition ctor (s v senderId ackData : Z) : res MessageBase.t :=
  m ← MessageBase.ctor senderId MC_SimpleAckMsg sizeof_SimpleAckMsgHeader;
  b1 ← put_int 8 (MessageBase.msgBody_ m) 2 s;
  b2 ← put_int 8 b1 10 v;
  b3 ← put_int 8 b2 18 ackData;
  Ok (SignedShareMsgs.set_body m b3).

Definition seqNumber (m : MessageBase.t) : res Z := get_int 8 (MessageBase.msgBody_ m) 2.
Definition viewNumber (m : MessageBase.t) : res Z := get_int 8 (MessageBase.msgBody_ m) 10.
Definition ackData (m : MessageBase.t) : res Z := get_uint 8 (MessageBase.msgBody_ m) 18.

Definition ToActualMsgType (repInfo : ReplicasInfo.t) (inMsg : MessageBase.t) : res bool :=
  ty ← MessageBase.type inMsg;
  assert! (ty =? code_of MC_SimpleAckMsg) ;;
  if MessageBase.msgSize_ inMsg <? sizeof_SimpleAckMsgHeader then Ok false
  else if MessageBase.sender_ inMsg =? ReplicasInfo._myId repInfo then Ok false
  else if negb (ReplicasInfo.isIdOfReplica repInfo (MessageBase.sender_ inMsg)) then Ok false else Ok true.

Definition image (s v senderId ackData : Z) : MessageBase.t :=
  MessageBase.mk (le_enc 2 (code_of MC_SimpleAckMsg) ++ le_enc 8 s ++ le_enc 8 v ++ le_enc 8 ackData) 26 26 senderId true.

Lemma simpleAck_layout s v senderId d : ctor s v senderId d = Ok (image s v senderId d).
Proof.
  unfold ctor, MessageBase.ctor, put_int, sizeof_SimpleAckMsgHeader. cbn [Z.ltb Z.compare Assert mbind res_bind].
  change (replicate (Z.to_nat 26) 0) with (replicate 2 0 ++ replicate 8 0 ++ replicate 8 0 ++ replicate 8 0).
  rewrite (put_bytes_head (replicate 2 0)) by done. res_step. cbn [MessageBase.msgBody_].
  put_skip 2. rewrite (put_bytes_head (replicate 8 0)) by len_tac. res_step. put_skip 2. put_skip 8. rewrite (put_bytes_head (replicate 8 0)) by len_tac. res_step.
  put_skip 2. put_skip 8. put_skip 8. rewrite (put_bytes_last (replicate 8 0)) by len_tac. done.
Qed.

(** A message that is built is read as it was built; another replica accepts it. *)
Theorem simpleAck_roundtrip s v senderId d r : - 2 ^ 63 <= v < 2 ^ 63 → - 2 ^ 63 <= s < 2 ^ 63 → 0 <= d < 2 ^ 64 →
  ∃ m, ctor s v senderId d = Ok m ∧ seqNumber m = Ok s ∧ viewNumber m = Ok v ∧ ackData m = Ok d ∧
    ToActualMsgType r m = Ok (negb (senderId =? ReplicasInfo._myId r) && ReplicasInfo.isIdOfReplica r senderId).
Proof.
  intros Hv Hs Hd. exists (image s v senderId d). rewrite simpleAck_layout. split_and!; try done.
  - apply read_int; [lia|lia|]; cbn [image MessageBase.msgBody_]; solve_get.
  - apply read_int; [lia|lia|]; cbn [image MessageBase.msgBody_]; solve_get.
  - apply read_uint; [done|]; cbn [image MessageBase.msgBody_]; solve_get.
  - unfold ToActualMsgType. change (MessageBase.type (image s v senderId d)) with (@Ok Z 112). cbn. by destruct (senderId =? _), (ReplicasInfo.isIdOfReplica r senderId).
Qed.
End SimpleAckMsg.
