(* ===== verification/ReqMissingDataMsg.v ===== *)
(** * ReqMissingDataMsg (bftengine/src/bftengine/ReqMissingDataMsg.cpp, .hpp)

    The request for what a replica misses of a sequence number: bytes, construction, the
    flags as a set of missing data, and validation. *)
From S2P Require Import Prelude SysConsts Digest ReplicasInfo MsgsCertificate MessageBase Checkpoint SignedShareMsgs.

Module ReqMissingDataMsg.
Definition sizeof_ReqMissingDataMsgHeader : Z := 20.

Definition resetFlags (m : MessageBase.t) : res MessageBase.t :=
  b ← put_int 2 (MessageBase.msgBody_ m) 18 0; Ok (SignedShareMsgs.set_body m b).

Definition ctor (senderId v s : Z) : res MessageBase.t :=
  m ← MessageBase.ctor senderId MC_ReqMissingData sizeof_ReqMissingDataMsgHeader;
  b1 ← put_int 8 (MessageBase.msgBody_ m) 2 v;
  b2 ← put_int 8 b1 10 s;
  resetFlags (SignedShareMsgs.set_body m b2).

Definition viewNumber (m : MessageBase.t) : res Z := get_int 8 (MessageBase.msgBody_ m) 2.
Definition seqNumber (m : MessageBase.t) : res Z := get_int 8 (MessageBase.msgBody_ m) 10.
Definition getFlags (m : MessageBase.t) : res Z := get_uint 2 (MessageBase.msgBody_ m) 18.

Definition getFlag (mask : Z) (m : MessageBase.t) : res bool := f ← getFlags m; Ok (negb (Z.land f mask =? 0)).
Definition setFlag (mask : Z) (m : MessageBase.t) : res MessageBase.t :=
  f ← getFlags m;
  b ← put_int 2 (MessageBase.msgBody_ m) 18 (Z.lor f mask);
  Ok (SignedShareMsgs.set_body m b).

(** The missing data, with their bits. *)
Inductive Missing := PrePrepare | PartialProof | PartialPrepare | PartialCommit | FullCommitProof | FullPrepare | FullCommit | SlowPathHasStarted.
Definition mask (x : Missing) : Z :=
  match x with
  | PrePrepare => 2 | PartialProof => 4 | PartialPrepare => 8 | PartialCommit => 16
  | FullCommitProof => 32 | FullPrepare => 64 | FullCommit => 128 | SlowPathHasStarted => 256
  end.
#[export] Instance Missing_eq_dec : EqDecision Missing.
Proof. solve_decision. Defined.

(** [get...IsMissing], [getSlowPathHasStarted] and [set...]. *)
Definition isMissing (x : Missing) : MessageBase.t → res bool := getFlag (mask x).
Definition setMissing (x : Missing) : MessageBase.t → res MessageBase.t := setFlag (mask x).

Definition ToActualMsgType (repInfo : ReplicasInfo.t) (inMsg : MessageBase.t) : res bool :=
  ty ← MessageBase.type inMsg;
  assert! (ty =? code_of MC_ReqMissingData) ;;
  if MessageBase.msgSize_ inMsg <? sizeof_ReqMissingDataMsgHeader then Ok false
  else if MessageBase.sender_ inMsg =? ReplicasInfo._myId repInfo then Ok false
  else if negb (ReplicasInfo.isIdOfReplica repInfo (MessageBase.sender_ inMsg)) then Ok false else Ok true.

(** The calls that a replica makes on a new message. *)
Definition setAll (xs : list Missing) (m : MessageBase.t) : res MessageBase.t := foldl (fun r x => m ← r; setMissing x m) (Ok m) xs.

(** ** The set of missing data *)
Definition flagsOf (xs : list Missing) : Z := foldl (fun f x => Z.lor f (mask x)) 0 xs.
Definition image (senderId v s f : Z) : MessageBase.t :=
  MessageBase.mk (le_enc 2 (code_of MC_ReqMissingData) ++ le_enc 8 v ++ le_enc 8 s ++ le_enc 2 f) 20 20 senderId true.

Lemma reqMissing_layout senderId v s : ctor senderId v s = Ok (image senderId v s 0).
Proof.
  unfold ctor, resetFlags, MessageBase.ctor, put_int, sizeof_ReqMissingDataMsgHeader. cbn [Z.ltb Z.compare Assert mbind res_bind].
  change (replicate (Z.to_nat 20) 0) with (replicate 2 0 ++ replicate 8 0 ++ replicate 8 0 ++ replicate 2 0).
  rewrite (put_bytes_head (replicate 2 0)) by done. res_step. cbn [MessageBase.msgBody_].
  put_skip 2. rewrite (put_bytes_head (replicate 8 0)) by len_tac. res_step. put_skip 2. put_skip 8. rewrite (put_bytes_head (replicate 8 0)) by len_tac. res_step.
  unfold SignedShareMsgs.set_body. cbn [MessageBase.msgBody_]. put_skip 2. put_skip 8. put_skip 8. rewrite (put_bytes_last (replicate 2 0)) by len_tac. done.
Qed.

Lemma missing_flags senderId v s f : 0 <= f < 512 → getFlags (image senderId v s f) = Ok f.
Proof. intros Hf. apply read_uint; [change (8 * Z.of_nat 2) with 16; lia|]. cbn [image MessageBase.msgBody_]. solve_get. Qed.

Lemma mask_or f x : 0 <= f < 512 → 0 <= Z.lor f (mask x) < 512.
Proof.
  intros Hf. assert (Hm : 0 < mask x < 512) by (destruct x; cbn; lia). split; [apply Z.lor_nonneg; lia|].
  destruct (decide (f = 0)) as [->|]; [rewrite Z.lor_0_l; lia|]. apply (Z.log2_lt_pow2 _ 9).
  - assert (0 <= Z.lor f (mask x)) by (apply Z.lor_nonneg; lia). assert (Z.lor f (mask x) ≠ 0) by (intros E%Z.lor_eq_0_iff; lia). lia.
  - rewrite Z.log2_lor by lia. assert (Z.log2 f < 9) by (apply Z.log2_lt_pow2; lia). assert (Z.log2 (mask x) < 9) by (apply Z.log2_lt_pow2; lia). lia.
Qed.

Lemma setMissing_image senderId v s f x : 0 <= f < 512 → setMissing x (image senderId v s f) = Ok (image senderId v s (Z.lor f (mask x))).
Proof.
  intros Hf. unfold setMissing, setFlag. rewrite missing_flags by done. res_step. unfold put_int. cbn [image MessageBase.msgBody_].
  put_skip 2. put_skip 8. put_skip 8. rewrite (put_bytes_last (le_enc 2 f)) by len_tac. done.
Qed.

Lemma setAll_image senderId v s xs : ∀ f, 0 <= f < 512 → setAll xs (image senderId v s f) = Ok (image senderId v s (foldl (fun f x => Z.lor f (mask x)) f xs)) ∧
  0 <= foldl (fun f x => Z.lor f (mask x)) f xs < 512.
Proof.
  unfold setAll. induction xs as [|x xs IH]; intros f Hf; cbn [foldl]; [done|]. cbn [mbind res_bind]. rewrite setMissing_image by done. apply IH. by apply mask_or.
Qed.

Lemma flag_in xs x : ∀ f, negb (Z.land (foldl (fun f x => Z.lor f (mask x)) f xs) (mask x) =? 0) = negb (Z.land f (mask x) =? 0) || bool_decide (x ∈ xs).
Proof.
  induction xs as [|y xs IH]; intros f; cbn [foldl]; [by rewrite bool_decide_eq_false_2, orb_false_r by apply not_elem_of_nil|]. rewrite IH. rewrite Z.land_lor_distr_l.
  assert (Hlor : ∀ a b, negb (Z.lor a b =? 0) = negb (a =? 0) || negb (b =? 0)).
  { intros a b. apply eq_true_iff_eq. rewrite orb_true_iff, !negb_true_iff, !Z.eqb_neq, Z.lor_eq_0_iff. lia. }
  rewrite Hlor. assert (Hm : negb (Z.land (mask y) (mask x) =? 0) = bool_decide (x = y)) by (by destruct x, y). rewrite Hm, <- orb_assoc. f_equal.
  apply eq_true_iff_eq. rewrite orb_true_iff, !bool_decide_eq_true. set_solver.
Qed.

(** A request for missing data names exactly the data that were set, whatever their order; another replica accepts it. *)
Theorem reqMissingData_flags senderId v s xs r : - 2 ^ 63 <= v < 2 ^ 63 → - 2 ^ 63 <= s < 2 ^ 63 →
  ∃ m0 m, ctor senderId v s = Ok m0 ∧ setAll xs m0 = Ok m ∧ viewNumber m = Ok v ∧ seqNumber m = Ok s ∧ (∀ x, isMissing x m = Ok (bool_decide (x ∈ xs))) ∧
    ToActualMsgType r m = Ok (negb (senderId =? ReplicasInfo._myId r) && ReplicasInfo.isIdOfReplica r senderId).
Proof.
  intros Hv Hs. destruct (setAll_image senderId v s xs 0 ltac:(lia)) as [Ha Hf]. exists (image senderId v s 0). eexists. rewrite reqMissing_layout. split; [done|]. split; [exact Ha|].
  set (f := foldl _ 0 xs) in *. split_and!.
  - apply read_int; [lia|lia|]; cbn [image MessageBase.msgBody_]; solve_get.
  - apply read_int; [lia|lia|]; cbn [image MessageBase.msgBody_]; solve_get.
  - intros x. unfold isMissing, getFlag. rewrite missing_flags by done. res_step. f_equal. unfold f. by rewrite flag_in.
  - unfold ToActualMsgType. change (MessageBase.type (image senderId v s f)) with (@Ok Z 111). cbn. by destruct (senderId =? _), (ReplicasInfo.isIdOfReplica r senderId).
Qed.
End ReqMissingDataMsg.
