(* ===== verification/FullCommitProofMsg.v ===== *)
(** * FullCommitProofMsg (bftengine/src/bftengine/FullCommitProofMsg.cpp, .hpp)

    The combined signature of the fast path: bytes, construction, accessors and validation
    of an arrived message. *)
From S2P Require Import Prelude SysConsts Digest ReplicasInfo MsgsCertificate MessageBase Checkpoint SignedShareMsgs.

#[local] Abbreviation body := MessageBase.msgBody_.

Module FullCommitProofMsg.
Definition sizeof_FullCommitProofMsgHeader : Z := 20.
Definition maxSizeOfCombinedsignature : Z := 1024.

(** The header of 20 bytes that both messages have. *)
Definition writeHeader (m : MessageBase.t) (v s len : Z) : res (list Z) :=
  b1 ← put_int 8 (body m) 2 v;
  b2 ← put_int 8 b1 10 s;
  put_int 2 b2 18 len.

Definition ctor (senderId v s : Z) (commitProofSig : list Z) (commitProofSigLength : Z) : res MessageBase.t :=
  m ← MessageBase.ctor senderId MC_FullCommitProof (sizeof_FullCommitProofMsgHeader + commitProofSigLength);
  b1 ← writeHeader m v s commitProofSigLength;
  src ← get_bytes commitProofSig 0 commitProofSigLength;
  b2 ← put_bytes b1 sizeof_FullCommitProofMsgHeader src;
  Ok (SignedShareMsgs.set_body m b2).

Definition viewNumber (m : MessageBase.t) : res Z := get_int 8 (body m) 2.
Definition seqNumber (m : MessageBase.t) : res Z := get_int 8 (body m) 10.
Definition thresholSignatureLength (m : MessageBase.t) : res Z := get_uint 2 (body m) 18.
Definition thresholSignature (m : MessageBase.t) : res (list Z) := l ← thresholSignatureLength m; get_bytes (body m) sizeof_FullCommitProofMsgHeader l.

Definition ToActualMsgType (repInfo : ReplicasInfo.t) (inMsg : MessageBase.t) : res bool :=
  ty ← MessageBase.type inMsg;
  assert! (ty =? code_of MC_FullCommitProof) ;;
  if MessageBase.msgSize_ inMsg <? sizeof_FullCommitProofMsgHeader then Ok false
  else if MessageBase.sender_ inMsg =? ReplicasInfo._myId repInfo then Ok false
  else if negb (ReplicasInfo.isIdOfReplica repInfo (MessageBase.sender_ inMsg)) then Ok false
  else
    l ← thresholSignatureLength inMsg;
    if MessageBase.msgSize_ inMsg <? sizeof_FullCommitProofMsgHeader + l then Ok false else Ok true.

Definition maxSizeOfFullCommitProofMsg : Z := sizeof_FullCommitProofMsgHeader + maxSizeOfCombinedsignature.
Definition maxSizeOfFullCommitProofMsgInLocalBuffer : Z := maxSizeOfFullCommitProofMsg + MessageBase.sizeof_RawHeader.

(** ** Layout *)
Lemma header_layout m type v s n rest : body m = le_enc 2 (code_of type) ++ replicate (Z.to_nat 18) 0 ++ rest →
  writeHeader m v s n = Ok (le_enc 2 (code_of type) ++ le_enc 8 v ++ le_enc 8 s ++ le_enc 2 n ++ rest).
Proof.
  intros Hb. unfold writeHeader, put_int. rewrite Hb. change (replicate (Z.to_nat 18) 0) with (replicate 8 0 ++ replicate 8 0 ++ replicate 2 0). rewrite <- !app_assoc.
  put_skip 2. rewrite (put_bytes_head (replicate 8 0)) by len_tac. res_step. put_skip 2. put_skip 8. rewrite (put_bytes_head (replicate 8 0)) by len_tac. res_step.
  put_skip 2. put_skip 8. put_skip 8. rewrite (put_bytes_head (replicate 2 0)) by len_tac. done.
Qed.

Lemma fullCommit_layout senderId v s sig rest : Z.of_nat (length sig) < 65536 →
  ctor senderId v s (sig ++ rest) (Z.of_nat (length sig)) = Ok (SignedShareMsgs.image MC_FullCommitProof v s senderId sig).
Proof.
  intros Hl. unfold ctor, sizeof_FullCommitProofMsgHeader. rewrite new_body by lia. res_step. rewrite (header_layout _ MC_FullCommitProof v s _ (replicate (Z.to_nat (Z.of_nat (length sig))) 0)) by done. res_step.
  rewrite get_bytes_head by done. res_step. rewrite Nat2Z.id. put_skip 2. put_skip 8. put_skip 8. put_skip 2. rewrite (put_bytes_last (replicate (length sig) 0)) by len_tac. done.
Qed.

(** A message that is built is read as it was built; another replica accepts it. *)
Theorem fullCommitProof_roundtrip senderId v s sig r : - 2 ^ 63 <= v < 2 ^ 63 → - 2 ^ 63 <= s < 2 ^ 63 → Z.of_nat (length sig) < 65536 →
  ∃ m, ctor senderId v s sig (Z.of_nat (length sig)) = Ok m ∧ viewNumber m = Ok v ∧ seqNumber m = Ok s ∧ thresholSignature m = Ok sig ∧
    ToActualMsgType r m = Ok (negb (senderId =? ReplicasInfo._myId r) && ReplicasInfo.isIdOfReplica r senderId).
Proof.
  intros Hv Hs Hl. exists (SignedShareMsgs.image MC_FullCommitProof v s senderId sig). pose proof (fullCommit_layout senderId v s sig [] Hl) as Hc. rewrite app_nil_r in Hc.
  assert (Hlen : thresholSignatureLength (SignedShareMsgs.image MC_FullCommitProof v s senderId sig) = Ok (Z.of_nat (length sig))).
  { apply read_uint; [change (8 * Z.of_nat 2) with 16; lia|]. cbn [SignedShareMsgs.image MessageBase.msgBody_]. unfold SignedShareMsgs.layout. solve_get. }
  split_and!; [exact Hc|apply read_int; [lia|lia|]; cbn [SignedShareMsgs.image MessageBase.msgBody_]; unfold SignedShareMsgs.layout; solve_get..| |].
  - unfold thresholSignature. rewrite Hlen. res_step. cbn [SignedShareMsgs.image MessageBase.msgBody_]. unfold SignedShareMsgs.layout, sizeof_FullCommitProofMsgHeader. solve_get.
  - unfold ToActualMsgType. rewrite (type_head (SignedShareMsgs.image MC_FullCommitProof v s senderId sig) MC_FullCommitProof (le_enc 8 v ++ le_enc 8 s ++ le_enc 2 (Z.of_nat (length sig)) ++ sig)) by done. rewrite Hlen. cbn [code_of Z.eqb Pos.eqb mbind res_bind Assert].
    cbn [SignedShareMsgs.image MessageBase.msgSize_ MessageBase.sender_]. unfold sizeof_FullCommitProofMsgHeader. rewrite !(proj2 (Z.ltb_ge _ _)) by lia.
    by destruct (senderId =? _), (ReplicasInfo.isIdOfReplica r senderId).
Qed.

(** The validation of an arrived message stays inside its body, and an accepted message has its whole signature. *)
Theorem fullCommitProof_in_bounds r m : CheckpointMsg.arrived m → MessageBase.type m = Ok (code_of MC_FullCommitProof) →
  ∃ b, ToActualMsgType r m = Ok b ∧ (b = true → ∃ sig, thresholSignature m = Ok sig).
Proof.
  intros [Hs _ Hb _] Ht. unfold ToActualMsgType. rewrite Ht. res_step. rewrite Z.eqb_refl. res_step. unfold sizeof_FullCommitProofMsgHeader.
  destruct (Z.ltb_spec (MessageBase.msgSize_ m) 20); [rejected|]. destruct (_ =? _); [rejected|]. destruct (negb _); [rejected|]. unfold thresholSignature, thresholSignatureLength.
  destruct (get_uint_in 2 (body m) 18) as (l & -> & Hl); [done|lia..|]. res_step. destruct (Z.ltb_spec (MessageBase.msgSize_ m) (20 + l)); [rejected|].
  eexists. split; [done|]. intros _. unfold sizeof_FullCommitProofMsgHeader. destruct (get_bytes_in (body m) 20 l) as (bs & -> & _); [lia..|]. eauto.
Qed.
End FullCommitProofMsg.
