(* ===== verification/PartialExecProofMsg.v ===== *)
(** * PartialExecProofMsg (bftengine/src/bftengine/PartialExecProofMsg.cpp, .hpp)

    A share of an execution proof; [requiredLength] and [signData] are the methods of
    [IThresholdSigner]. *)
From S2P Require Import Prelude SysConsts Digest ReplicasInfo MsgsCertificate MessageBase Checkpoint SignedShareMsgs FullCommitProofMsg.

#[local] Abbreviation body := MessageBase.msgBody_.

Module PartialExecProofMsg.
Definition sizeof_PartialExecProofMsgHeader : Z := 20.

Definition ctor (requiredLength : Z) (signData : Digest → list Z) (senderId v s : Z) (digest : Digest) : res MessageBase.t :=
  m ← MessageBase.ctor senderId MC_PartialExecProof (sizeof_PartialExecProofMsgHeader + requiredLength);
  b1 ← FullCommitProofMsg.writeHeader m v s (u16 requiredLength);
  b2 ← put_bytes b1 sizeof_PartialExecProofMsgHeader (signData digest);
  Ok (SignedShareMsgs.set_body m b2).

Definition viewNumber (m : MessageBase.t) : res Z := get_int 8 (body m) 2.
Definition seqNumber (m : MessageBase.t) : res Z := get_int 8 (body m) 10.
Definition thresholSignatureLength (m : MessageBase.t) : res Z := get_uint 2 (body m) 18.
Definition thresholSignature (m : MessageBase.t) : res (list Z) := l ← thresholSignatureLength m; get_bytes (body m) sizeof_PartialExecProofMsgHeader l.

Definition ToActualMsgType (repInfo : ReplicasInfo.t) (inMsg : MessageBase.t) : res bool :=
  ty ← MessageBase.type inMsg;
  assert! (ty =? code_of MC_PartialExecProof) ;;
  if MessageBase.msgSize_ inMsg <? sizeof_PartialExecProofMsgHeader then Ok false
  else
    l ← thresholSignatureLength inMsg;
    if MessageBase.msgSize_ inMsg <? sizeof_PartialExecProofMsgHeader + l then Ok false
    else if MessageBase.sender_ inMsg =? ReplicasInfo._myId repInfo then Ok false
    else if negb (ReplicasInfo.isIdOfReplica repInfo (MessageBase.sender_ inMsg)) then Ok false else Ok true.

(** A share of an execution proof is read as it was built; another replica accepts it. *)
Theorem partialExecProof_roundtrip sign senderId v s digest r (sig := sign digest) : - 2 ^ 63 <= v < 2 ^ 63 → - 2 ^ 63 <= s < 2 ^ 63 → Z.of_nat (length sig) < 65536 →
  ∃ m, ctor (Z.of_nat (length sig)) sign senderId v s digest = Ok m ∧ viewNumber m = Ok v ∧ seqNumber m = Ok s ∧ thresholSignature m = Ok sig ∧
    ToActualMsgType r m = Ok (negb (senderId =? ReplicasInfo._myId r) && ReplicasInfo.isIdOfReplica r senderId).
Proof.
  intros Hv Hs Hl. exists (SignedShareMsgs.image MC_PartialExecProof v s senderId sig).
  assert (Hlen : thresholSignatureLength (SignedShareMsgs.image MC_PartialExecProof v s senderId sig) = Ok (Z.of_nat (length sig))).
  { apply read_uint; [change (8 * Z.of_nat 2) with 16; lia|]. cbn [SignedShareMsgs.image MessageBase.msgBody_]. unfold SignedShareMsgs.layout. solve_get. }
  split_and!; [|apply read_int; [lia|lia|]; cbn [SignedShareMsgs.image MessageBase.msgBody_]; unfold SignedShareMsgs.layout; solve_get..| |].
  - unfold ctor, sizeof_PartialExecProofMsgHeader. rewrite new_body by lia. res_step. rewrite u16_small by lia.
    rewrite (FullCommitProofMsg.header_layout _ MC_PartialExecProof v s _ (replicate (Z.to_nat (Z.of_nat (length sig))) 0)) by done. res_step. rewrite Nat2Z.id. fold sig.
    put_skip 2. put_skip 8. put_skip 8. put_skip 2. rewrite (put_bytes_last (replicate (length sig) 0)) by len_tac. done.
  - unfold thresholSignature. rewrite Hlen. res_step. cbn [SignedShareMsgs.image MessageBase.msgBody_]. unfold SignedShareMsgs.layout, sizeof_PartialExecProofMsgHeader. solve_get.
  - unfold ToActualMsgType. rewrite (type_head (SignedShareMsgs.image MC_PartialExecProof v s senderId sig) MC_PartialExecProof (le_enc 8 v ++ le_enc 8 s ++ le_enc 2 (Z.of_nat (length sig)) ++ sig)) by done. rewrite Hlen. cbn [code_of Z.eqb Pos.eqb mbind res_bind Assert].
    cbn [SignedShareMsgs.image MessageBase.msgSize_ MessageBase.sender_]. unfold sizeof_PartialExecProofMsgHeader. rewrite !(proj2 (Z.ltb_ge _ _)) by lia.
    by destruct (senderId =? _), (ReplicasInfo.isIdOfReplica r senderId).
Qed.
End PartialExecProofMsg.
