(* ===== verification/PartialCommitProofMsg.v ===== *)
(** * PartialCommitProofMsg (bftengine/src/bftengine/PartialCommitProofMsg.cpp, .hpp)

    A share of a commit proof of the fast path; [requiredLength] and [signData] are the
    methods of [IThresholdSigner]. *)
From S2P Require Import Prelude SysConsts Digest ReplicasInfo MsgsCertificate MessageBase Checkpoint SignedShareMsgs PrePrepareMsg.

#[local] Abbreviation body := MessageBase.msgBody_.

Module PartialCommitProofMsg.
Definition sizeof_PartialCommitProofMsgHeader : Z := 24.

Definition ctor (requiredLength : Z) (signData : Digest → list Z) (senderId v s : Z) (commitPath : CommitPath) (digest : Digest) : res MessageBase.t :=
  m ← MessageBase.ctor senderId MC_PartialCommitProof (sizeof_PartialCommitProofMsgHeader + requiredLength);
  b1 ← put_int 8 (body m) 2 v;
  b2 ← put_int 8 b1 10 s;
  b3 ← put_int 4 b2 18 (PrePrepareMsg.num_of_path commitPath);
  b4 ← put_int 2 b3 22 (u16 requiredLength);
  b5 ← put_bytes b4 sizeof_PartialCommitProofMsgHeader (signData digest);
  Ok (SignedShareMsgs.set_body m b5).

Definition viewNumber (m : MessageBase.t) : res Z := get_int 8 (body m) 2.
Definition seqNumber (m : MessageBase.t) : res Z := get_int 8 (body m) 10.
(** The value of the enumeration, which a message can set to anything. *)
Definition commitPath (m : MessageBase.t) : res Z := get_int 4 (body m) 18.
Definition thresholSignatureLength (m : MessageBase.t) : res Z := get_uint 2 (body m) 22.
Definition thresholSignature (m : MessageBase.t) : res (list Z) := l ← thresholSignatureLength m; get_bytes (body m) sizeof_PartialCommitProofMsgHeader l.

Definition ToActualMsgType (repInfo : ReplicasInfo.t) (inMsg : MessageBase.t) : res bool :=
  ty ← MessageBase.type inMsg;
  assert! (ty =? code_of MC_PartialCommitProof) ;;
  if MessageBase.msgSize_ inMsg <? sizeof_PartialCommitProofMsgHeader then Ok false
  else if MessageBase.sender_ inMsg =? ReplicasInfo._myId repInfo then Ok false
  else if negb (ReplicasInfo.isIdOfReplica repInfo (MessageBase.sender_ inMsg)) then Ok false
  else
    path ← commitPath inMsg;
    if (path =? PrePrepareMsg.num_of_path FAST_WITH_THRESHOLD) && (ReplicasInfo._cVal repInfo =? 0) then Ok false
    else if path =? PrePrepareMsg.num_of_path SLOW then Ok false
    else
      l ← thresholSignatureLength inMsg;
      if MessageBase.msgSize_ inMsg <? sizeof_PartialCommitProofMsgHeader + l then Ok false
      else
        v ← viewNumber inMsg;
        s ← seqNumber inMsg;
        if negb (ReplicasInfo.isCollectorForPartialProofs repInfo v s) then Ok false else Ok true.

(** ** Layout *)
Definition layout (v s path : Z) (sig : list Z) : list Z :=
  le_enc 2 (code_of MC_PartialCommitProof) ++ le_enc 8 v ++ le_enc 8 s ++ le_enc 4 path ++ le_enc 2 (Z.of_nat (length sig)) ++ sig.
Definition image (v s path senderId : Z) (sig : list Z) : MessageBase.t :=
  let n := 24 + Z.of_nat (length sig) in MessageBase.mk (layout v s path sig) n n senderId true.

Lemma partialCommit_layout sign senderId v s path digest (sig := sign digest) : Z.of_nat (length sig) < 65536 →
  ctor (Z.of_nat (length sig)) sign senderId v s path digest = Ok (image v s (PrePrepareMsg.num_of_path path) senderId sig).
Proof.
  intros Hl. unfold ctor, sizeof_PartialCommitProofMsgHeader. rewrite new_body by lia. res_step. rewrite u16_small by lia. unfold put_int. cbn [MessageBase.msgBody_].
  change (replicate (Z.to_nat (24 - 2)) 0) with (replicate 8 0 ++ replicate 8 0 ++ replicate 4 0 ++ replicate 2 0). rewrite <- !app_assoc.
  put_skip 2. rewrite (put_bytes_head (replicate 8 0)) by len_tac. res_step. put_skip 2. put_skip 8. rewrite (put_bytes_head (replicate 8 0)) by len_tac. res_step.
  put_skip 2. put_skip 8. put_skip 8. rewrite (put_bytes_head (replicate 4 0)) by len_tac. res_step. put_skip 2. put_skip 8. put_skip 8. put_skip 4. rewrite (put_bytes_head (replicate 2 0)) by len_tac. res_step.
  rewrite Nat2Z.id. fold sig. put_skip 2. put_skip 8. put_skip 8. put_skip 4. put_skip 2. rewrite (put_bytes_last (replicate (length sig) 0)) by len_tac. done.
Qed.

Lemma pcp_image_fields v s path senderId sig (m := image v s path senderId sig) : - 2 ^ 63 <= v < 2 ^ 63 → - 2 ^ 63 <= s < 2 ^ 63 → - 2 ^ 31 <= path < 2 ^ 31 → Z.of_nat (length sig) < 65536 →
  MessageBase.type m = Ok (code_of MC_PartialCommitProof) ∧ viewNumber m = Ok v ∧ seqNumber m = Ok s ∧ commitPath m = Ok path ∧ thresholSignatureLength m = Ok (Z.of_nat (length sig)) ∧ thresholSignature m = Ok sig.
Proof.
  intros Hv Hs Hp Hl. assert (Hlen : thresholSignatureLength m = Ok (Z.of_nat (length sig))).
  { apply read_uint; [change (8 * Z.of_nat 2) with 16; lia|]. cbn [m image MessageBase.msgBody_]. unfold layout. solve_get. }
  split_and!; [|apply read_int; [lia|lia|]; cbn [m image MessageBase.msgBody_]; unfold layout; solve_get..|done|].
  - by apply (type_head m MC_PartialCommitProof (le_enc 8 v ++ le_enc 8 s ++ le_enc 4 path ++ le_enc 2 (Z.of_nat (length sig)) ++ sig)).
  - unfold thresholSignature. rewrite Hlen. res_step. cbn [m image MessageBase.msgBody_]. unfold layout, sizeof_PartialCommitProofMsgHeader. solve_get.
Qed.

(** What is accepted of a message of this form. *)
Lemma pcp_image_accepted r v s path senderId sig : - 2 ^ 63 <= v < 2 ^ 63 → - 2 ^ 63 <= s < 2 ^ 63 → - 2 ^ 31 <= path < 2 ^ 31 → Z.of_nat (length sig) < 65536 →
  ToActualMsgType r (image v s path senderId sig) = Ok (negb (senderId =? ReplicasInfo._myId r) && ReplicasInfo.isIdOfReplica r senderId &&
    negb ((path =? 1) && (ReplicasInfo._cVal r =? 0)) && negb (path =? 2) && ReplicasInfo.isCollectorForPartialProofs r v s).
Proof.
  intros Hv Hs Hp Hl. destruct (pcp_image_fields v s path senderId sig Hv Hs Hp Hl) as (Et & Ev & Es & Ep & El & _). unfold ToActualMsgType. rewrite Et, Ep, El, Ev, Es. cbn [code_of Z.eqb Pos.eqb mbind res_bind Assert].
  cbn [image MessageBase.msgSize_ MessageBase.sender_ PrePrepareMsg.num_of_path]. unfold sizeof_PartialCommitProofMsgHeader. rewrite !(proj2 (Z.ltb_ge _ _)) by lia.
  destruct (senderId =? _), (ReplicasInfo.isIdOfReplica r senderId), ((path =? 1) && (ReplicasInfo._cVal r =? 0)), (path =? 2), (ReplicasInfo.isCollectorForPartialProofs r v s); done.
Qed.

(** A partial proof is read as it was built, and exactly the collectors of its view and number accept it from another replica, if its path is a fast path they can use. *)
Theorem partialCommitProof_roundtrip sign senderId v s path digest r (sig := sign digest) : - 2 ^ 63 <= v < 2 ^ 63 → - 2 ^ 63 <= s < 2 ^ 63 → Z.of_nat (length sig) < 65536 →
  ∃ m, ctor (Z.of_nat (length sig)) sign senderId v s path digest = Ok m ∧ viewNumber m = Ok v ∧ seqNumber m = Ok s ∧ commitPath m = Ok (PrePrepareMsg.num_of_path path) ∧ thresholSignature m = Ok sig ∧
    ToActualMsgType r m = Ok (negb (senderId =? ReplicasInfo._myId r) && ReplicasInfo.isIdOfReplica r senderId &&
      negb (bool_decide (path = FAST_WITH_THRESHOLD) && (ReplicasInfo._cVal r =? 0)) && negb (bool_decide (path = SLOW)) && ReplicasInfo.isCollectorForPartialProofs r v s).
Proof.
  intros Hv Hs Hl. exists (image v s (PrePrepareMsg.num_of_path path) senderId sig). assert (Hp : - 2 ^ 31 <= PrePrepareMsg.num_of_path path < 2 ^ 31) by (destruct path; cbn; lia).
  destruct (pcp_image_fields v s (PrePrepareMsg.num_of_path path) senderId sig Hv Hs Hp Hl) as (_ & Ev & Es & Ep & _ & Eg). split_and!; try done; [by apply partialCommit_layout|].
  rewrite pcp_image_accepted by done. by destruct path.
Qed.

(** The path of an accepted message need not be one of the two fast paths: a collector accepts every other value but that of the slow path. *)
Theorem partialCommitProof_accepts_unknown_path r senderId v s path sig : - 2 ^ 63 <= v < 2 ^ 63 → - 2 ^ 63 <= s < 2 ^ 63 → - 2 ^ 31 <= path < 2 ^ 31 → Z.of_nat (length sig) < 65536 →
  path ≠ 1 → path ≠ 2 → senderId ≠ ReplicasInfo._myId r → ReplicasInfo.isIdOfReplica r senderId = true → ReplicasInfo.isCollectorForPartialProofs r v s = true →
  ToActualMsgType r (image v s path senderId sig) = Ok true.
Proof.
  intros Hv Hs Hp Hl H1 H2 Hne Hid Hc. rewrite pcp_image_accepted by done. rewrite Hid, Hc, (proj2 (Z.eqb_neq senderId _) Hne), (proj2 (Z.eqb_neq path 1) H1), (proj2 (Z.eqb_neq path 2) H2). done.
Qed.

(** The validation of an arrived message stays inside its body, and an accepted message has its whole signature. *)
Theorem partialCommitProof_in_bounds r m : CheckpointMsg.arrived m → MessageBase.type m = Ok (code_of MC_PartialCommitProof) →
  ∃ b, ToActualMsgType r m = Ok b ∧ (b = true → ∃ sig, thresholSignature m = Ok sig).
Proof.
  intros [Hs _ Hb _] Ht. unfold ToActualMsgType. rewrite Ht. res_step. rewrite Z.eqb_refl. res_step. unfold sizeof_PartialCommitProofMsgHeader.
  destruct (Z.ltb_spec (MessageBase.msgSize_ m) 24); [rejected|]. destruct (_ =? _); [rejected|]. destruct (negb _); [rejected|]. unfold commitPath, viewNumber, seqNumber.
  destruct (get_int_in 4 (body m) 18) as (p & -> & _); [lia..|]. res_step. destruct (_ && _); [rejected|]. destruct (_ =? _); [rejected|]. unfold thresholSignature, thresholSignatureLength.
  destruct (get_uint_in 2 (body m) 22) as (l & -> & Hl); [done|lia..|]. res_step. destruct (Z.ltb_spec (MessageBase.msgSize_ m) (24 + l)); [rejected|].
  destruct (get_int_in 8 (body m) 2) as (v & -> & _); [lia..|]. destruct (get_int_in 8 (body m) 10) as (s & -> & _); [lia..|]. res_step. destruct (negb _); [rejected|].
  eexists. split; [done|]. intros _. unfold sizeof_PartialCommitProofMsgHeader. destruct (get_bytes_in (body m) 24 l) as (bs & -> & _); [lia..|]. eauto.
Qed.
End PartialCommitProofMsg.
