(* ===== verification/FullExecProofMsg.v ===== *)
(** * FullExecProofMsg (bftengine/src/bftengine/FullExecProofMsg.cpp, .hpp)

    An execution proof for a client: root, proof and signature after the header. *)
From S2P Require Import Prelude SysConsts Digest ReplicasInfo MsgsCertificate MessageBase Checkpoint SignedShareMsgs.

#[local] Abbreviation body := MessageBase.msgBody_.

Module FullExecProofMsg.
Definition sizeof_FullExecProofMsgHeader : Z := 20.

(** The header, as both constructors write it. *)
Definition writeHeader (m : MessageBase.t) (isNotReady clientId requestId sigLength rootLength proofLength : Z) : res (list Z) :=
  b1 ← put_int 2 (body m) 12 isNotReady;
  b2 ← put_int 2 b1 2 clientId;
  b3 ← put_int 8 b2 4 requestId;
  b4 ← put_int 2 b3 14 sigLength;
  b5 ← put_int 2 b4 16 rootLength;
  put_int 2 b5 18 proofLength.

Definition ctor (senderId clientId requestId sigLength : Z) (root : list Z) (rootLength : Z) (executionProof : list Z) (proofLength : Z) : res MessageBase.t :=
  m ← MessageBase.ctor senderId MC_FullExecProof (sizeof_FullExecProofMsgHeader + sigLength + rootLength + proofLength);
  b1 ← writeHeader m 1 clientId requestId sigLength rootLength proofLength;
  src1 ← get_bytes root 0 rootLength;
  b2 ← put_bytes b1 sizeof_FullExecProofMsgHeader src1;
  src2 ← get_bytes executionProof 0 proofLength;
  b3 ← put_bytes b2 (sizeof_FullExecProofMsgHeader + rootLength) src2;
  Ok (SignedShareMsgs.set_body m b3).

Definition ctor_readOnly (senderId clientId : Z) (sig : list Z) (sigLength : Z) (root : list Z) (rootLength : Z) (readProof : list Z) (proofLength : Z) : res MessageBase.t :=
  m ← MessageBase.ctor senderId MC_FullExecProof (sizeof_FullExecProofMsgHeader + sigLength + rootLength + proofLength);
  b1 ← writeHeader m 0 clientId 0 sigLength rootLength proofLength;
  src1 ← get_bytes root 0 rootLength;
  b2 ← put_bytes b1 sizeof_FullExecProofMsgHeader src1;
  src2 ← get_bytes readProof 0 proofLength;
  b3 ← put_bytes b2 (sizeof_FullExecProofMsgHeader + rootLength) src2;
  src3 ← get_bytes sig 0 sigLength;
  b4 ← put_bytes b3 (sizeof_FullExecProofMsgHeader + rootLength + proofLength) src3;
  Ok (SignedShareMsgs.set_body m b4).

Definition clientId (m : MessageBase.t) : res Z := get_uint 2 (body m) 2.
Definition requestId (m : MessageBase.t) : res Z := get_uint 8 (body m) 4.
Definition isReady (m : MessageBase.t) : res bool := z ← get_uint 2 (body m) 12; Ok (z =? 0).
Definition isForReadOnly (m : MessageBase.t) : res bool := r ← requestId m; Ok (r =? 0).
Definition signatureLength (m : MessageBase.t) : res Z := get_uint 2 (body m) 14.
Definition rootLength (m : MessageBase.t) : res Z := get_uint 2 (body m) 16.
Definition executionProofLength (m : MessageBase.t) : res Z := get_uint 2 (body m) 18.
Definition root (m : MessageBase.t) : res (list Z) := l ← rootLength m; get_bytes (body m) sizeof_FullExecProofMsgHeader l.
Definition executionProof (m : MessageBase.t) : res (list Z) :=
  r ← rootLength m; l ← executionProofLength m; get_bytes (body m) (sizeof_FullExecProofMsgHeader + r) l.
Definition signature (m : MessageBase.t) : res (list Z) :=
  r ← rootLength m; p ← executionProofLength m; l ← signatureLength m; get_bytes (body m) (sizeof_FullExecProofMsgHeader + r + p) l.

Definition setSignature (sig : list Z) (sigLength : Z) (m : MessageBase.t) : res MessageBase.t :=
  l ← signatureLength m;
  assert! (sigLength <=? l) ;;
  r ← rootLength m;
  p ← executionProofLength m;
  src ← get_bytes sig 0 sigLength;
  b1 ← put_bytes (body m) (sizeof_FullExecProofMsgHeader + r + p) src;
  b2 ← put_int 2 b1 14 sigLength;
  b3 ← put_int 2 b2 12 0;
  Ok (SignedShareMsgs.set_body m b3).

Definition ToActualMsgType (inMsg : MessageBase.t) : res bool :=
  ty ← MessageBase.type inMsg;
  assert! (ty =? code_of MC_FullExecProof) ;;
  if MessageBase.msgSize_ inMsg <? sizeof_FullExecProofMsgHeader then Ok false else Ok true.

(** ** Layout *)
Definition layout (notReady c q sl rl pl : Z) (rest : list Z) : list Z :=
  le_enc 2 (code_of MC_FullExecProof) ++ le_enc 2 c ++ le_enc 8 q ++ le_enc 2 notReady ++ le_enc 2 sl ++ le_enc 2 rl ++ le_enc 2 pl ++ rest.

Lemma exec_header m nr c q sl rl pl rest : body m = le_enc 2 (code_of MC_FullExecProof) ++ replicate (Z.to_nat 18) 0 ++ rest → writeHeader m nr c q sl rl pl = Ok (layout nr c q sl rl pl rest).
Proof.
  intros Hb. unfold writeHeader, put_int. rewrite Hb. change (replicate (Z.to_nat 18) 0) with (replicate 2 0 ++ replicate 8 0 ++ replicate 2 0 ++ replicate 2 0 ++ replicate 2 0 ++ replicate 2 0). rewrite <- !app_assoc.
  put_skip 2. put_skip 2. put_skip 8. rewrite (put_bytes_head (replicate 2 0)) by len_tac. res_step.
  put_skip 2. rewrite (put_bytes_head (replicate 2 0)) by len_tac. res_step. put_skip 2. put_skip 2. rewrite (put_bytes_head (replicate 8 0)) by len_tac. res_step.
  put_skip 2. put_skip 2. put_skip 8. put_skip 2. rewrite (put_bytes_head (replicate 2 0)) by len_tac. res_step.
  put_skip 2. put_skip 2. put_skip 8. put_skip 2. put_skip 2. rewrite (put_bytes_head (replicate 2 0)) by len_tac. res_step.
  put_skip 2. put_skip 2. put_skip 8. put_skip 2. put_skip 2. put_skip 2. rewrite (put_bytes_head (replicate 2 0)) by len_tac. done.
Qed.

Lemma exec_fields m nr c q sl rl pl rest : body m = layout nr c q sl rl pl rest → 0 <= c < 65536 → 0 <= q < 2 ^ 64 → 0 <= nr < 65536 → 0 <= sl < 65536 → 0 <= rl < 65536 → 0 <= pl < 65536 →
  clientId m = Ok c ∧ requestId m = Ok q ∧ isReady m = Ok (nr =? 0) ∧ signatureLength m = Ok sl ∧ rootLength m = Ok rl ∧ executionProofLength m = Ok pl.
Proof.
  intros Hb Hc Hq Hn Hs Hr Hp. unfold clientId, requestId, isReady, signatureLength, rootLength, executionProofLength. rewrite Hb. unfold layout.
  split_and!; [apply read_uint; [change (8 * Z.of_nat 2) with 16; lia|solve_get]|apply read_uint; [done|solve_get]| |apply read_uint; [change (8 * Z.of_nat 2) with 16; lia|solve_get]..].
  erewrite read_uint; [res_step; done|change (8 * Z.of_nat 2) with 16; lia|solve_get].
Qed.

(** A proof of execution is built without its signature, which is set later; then all its parts are read as they were given. *)
Theorem fullExecProof_roundtrip senderId c q rt pf sig sigLength : 0 <= c < 65536 → 0 <= q < 2 ^ 64 → Z.of_nat (length rt) < 65536 → Z.of_nat (length pf) < 65536 →
  Z.of_nat (length sig) <= sigLength < 65536 →
  ∃ m0 m, ctor senderId c q sigLength rt (Z.of_nat (length rt)) pf (Z.of_nat (length pf)) = Ok m0 ∧ isReady m0 = Ok false ∧
    setSignature sig (Z.of_nat (length sig)) m0 = Ok m ∧ isReady m = Ok true ∧ ToActualMsgType m = Ok true ∧
    clientId m = Ok c ∧ requestId m = Ok q ∧ root m = Ok rt ∧ executionProof m = Ok pf ∧ signature m = Ok sig.
Proof.
  intros Hc Hq Hr Hp Hs. set (rl := Z.of_nat (length rt)). set (pl := Z.of_nat (length pf)). set (n := 20 + sigLength + rl + pl).
  set (m0 := MessageBase.mk (layout 1 c q sigLength rl pl (rt ++ pf ++ replicate (Z.to_nat sigLength) 0)) n n senderId true).
  set (m := MessageBase.mk (layout 0 c q (Z.of_nat (length sig)) rl pl (rt ++ pf ++ sig ++ replicate (Z.to_nat (sigLength - Z.of_nat (length sig))) 0)) n n senderId true).
  assert (E0 : ctor senderId c q sigLength rt rl pf pl = Ok m0).
  { unfold ctor, sizeof_FullExecProofMsgHeader. replace (20 + sigLength + rl + pl) with (20 + (rl + (pl + sigLength))) by lia. rewrite new_body by lia. res_step.
    rewrite (exec_header _ 1 c q sigLength rl pl (replicate (Z.to_nat (rl + (pl + sigLength))) 0)) by done. res_step.
    replace (Z.to_nat (rl + (pl + sigLength))) with (length rt + (length pf + Z.to_nat sigLength))%nat by (unfold rl, pl; lia). rewrite !replicate_add.
    rewrite (get_bytes_all rt) by done. res_step. unfold layout. put_skip 2. put_skip 2. put_skip 8. put_skip 2. put_skip 2. put_skip 2. put_skip 2. rewrite (put_bytes_head (replicate (length rt) 0)) by len_tac. res_step.
    rewrite (get_bytes_all pf) by done. res_step.
    rewrite (put_bytes_skip 2), (put_bytes_skip 2), (put_bytes_skip 8), (put_bytes_skip 2), (put_bytes_skip 2), (put_bytes_skip 2), (put_bytes_skip 2), (put_bytes_skip rl) by (len_tac || (unfold rl; lia)).
    replace (20 + rl - 2 - 2 - 8 - 2 - 2 - 2 - 2 - rl) with 0 by lia. rewrite (put_bytes_head (replicate (length pf) 0)) by len_tac. res_step. unfold SignedShareMsgs.set_body, m0, layout, n. cbn.
    f_equal. f_equal; lia. }
  destruct (exec_fields m0 1 c q sigLength rl pl _ eq_refl) as (_ & _ & R0 & S0 & L0 & P0); [lia..|].
  assert (E1 : setSignature sig (Z.of_nat (length sig)) m0 = Ok m).
  { unfold setSignature, sizeof_FullExecProofMsgHeader. rewrite S0. res_step. rewrite (proj2 (Z.leb_le _ _)) by lia. res_step. rewrite L0, P0. res_step. rewrite (get_bytes_all sig) by done. res_step.
    cbn [m0 MessageBase.msgBody_]. unfold layout.
    rewrite (put_bytes_skip 2), (put_bytes_skip 2), (put_bytes_skip 8), (put_bytes_skip 2), (put_bytes_skip 2), (put_bytes_skip 2), (put_bytes_skip 2), (put_bytes_skip rl), (put_bytes_skip pl) by (len_tac || (unfold rl, pl; lia)).
    replace (20 + rl + pl - 2 - 2 - 8 - 2 - 2 - 2 - 2 - rl - pl) with 0 by lia.
    replace (Z.to_nat sigLength) with (length sig + Z.to_nat (sigLength - Z.of_nat (length sig)))%nat by lia. rewrite replicate_add, (put_bytes_head (replicate (length sig) 0)) by len_tac. res_step.
    unfold put_int. put_skip 2. put_skip 2. put_skip 8. put_skip 2. rewrite (put_bytes_head (le_enc 2 sigLength)) by len_tac. res_step. put_skip 2. put_skip 2. put_skip 8. rewrite (put_bytes_head (le_enc 2 1)) by len_tac. done. }
  destruct (exec_fields m 0 c q (Z.of_nat (length sig)) rl pl _ eq_refl) as (C1 & Q1 & R1 & S1 & L1 & P1); [lia..|]. exists m0, m. split_and!; try done.
  - unfold ToActualMsgType. rewrite (type_head m MC_FullExecProof (drop 2 (body m)) eq_refl). res_step. cbn [code_of Z.eqb Pos.eqb mbind res_bind Assert]. cbn [m MessageBase.msgSize_]. unfold sizeof_FullExecProofMsgHeader, n. rewrite (proj2 (Z.ltb_ge _ _)) by lia. done.
  - unfold root. rewrite L1. res_step. cbn [m MessageBase.msgBody_]. unfold layout, sizeof_FullExecProofMsgHeader, rl. solve_get.
  - unfold executionProof. rewrite L1. res_step. rewrite P1. res_step. cbn [m MessageBase.msgBody_]. unfold layout, sizeof_FullExecProofMsgHeader, rl, pl. solve_get.
  - unfold signature. rewrite L1. res_step. rewrite P1. res_step. rewrite S1. res_step. cbn [m MessageBase.msgBody_]. unfold layout, sizeof_FullExecProofMsgHeader, rl, pl. solve_get.
Qed.

(** The lengths in an arrived message are not checked: a message of the size of its header that announces a signature is accepted, and its signature lies outside its body. *)
Theorem fullExecProof_lengths_unchecked senderId c q sl : 0 <= c < 65536 → 0 <= q < 2 ^ 64 → 0 < sl < 65536 →
  let m := MessageBase.mk (layout 0 c q sl 0 0 []) 20 20 senderId true in
  ToActualMsgType m = Ok true ∧ isReady m = Ok true ∧ signature m = Err OutOfBounds.
Proof.
  intros Hc Hq Hs m. destruct (exec_fields m 0 c q sl 0 0 [] eq_refl) as (_ & _ & R1 & S1 & L1 & P1); [lia..|]. split_and!; [done|done|].
  unfold signature. rewrite L1. res_step. rewrite P1. res_step. rewrite S1. res_step. unfold get_bytes, in_buf, sizeof_FullExecProofMsgHeader. cbn [m MessageBase.msgBody_].
  assert (Z.of_nat (length (layout 0 c q sl 0 0 [])) = 20) as -> by done. rewrite (proj2 (Z.leb_gt (20 + 0 + 0 + sl) 20)) by lia. by rewrite andb_false_r.
Qed.
End FullExecProofMsg.
