(* ===== verification/RetransmissionTimes.v ===== *)
(** * Parameters of retransmissions and response times
    (bftengine/src/bftengine/RetransmissionsManager.hpp, [RetransmissionsParams], and
    RetransmissionsManager.cpp, [ReplicaInfo])

    The time after which a message is sent again follows the average and the deviation of
    the response times of a replica.  The conversion of a [double] that is not a [uint64_t]
    is the argument [undefined]. *)
From Stdlib Require Import SpecFloat.
From S2P Require Import Prelude RollingAvgAndVar.

Module RetransmissionsParams.
Definition maxNumberOfConcurrentManagedTransmissions : Z := 2000.
Definition maxTransmissionsPerMsg : Z := 4.
Definition maxNumberOfMsgsInThreadLocalQueue : Z := 500.
Definition sufficientNumberOfMsgsToStartBkProcess : Z := 50.
Definition maxTimeBetweenRetranMilli : Z := 5000.
Definition minTimeBetweenRetranMilli : Z := 20.
Definition defaultTimeBetweenRetranMilli : Z := 100.
Definition evalPeriod : Z := 30.
Definition resetPoint : Z := 10000.
Definition maxIncreasingFactor : Z := 4.
Definition maxDecreasingFactor : Z := 2.
End RetransmissionsParams.

(** ** The response times of a replica *)
Module ReplicaInfo.
Import RetransmissionsParams.

Record t := mk { avgAndVarOfAckTime : RollingAvgAndVar.t; retranTimeMilli : Z }.

Definition ctor (memory : RollingAvgAndVar.t) : t := mk (RollingAvgAndVar.ctor memory) defaultTimeBetweenRetranMilli.

Definition toUint64 (undefined : spec_float → Z) (x : spec_float) : Z :=
  match Float.truncate x with
  | Some v => if (0 <=? v) && (v <? 2 ^ 64) then v else undefined x
  | None => undefined x
  end.

Definition hours24 : Z := 24 * 60 * 60 * 1000.

(** The new time from the average and the standard deviation. *)
Definition newRetran (undefined : spec_float → Z) (a : RollingAvgAndVar.t) : Z :=
  let avg := RollingAvgAndVar.avg a in
  let var := RollingAvgAndVar.var a in
  let sd := if SFltb (Float.double 0) var then SFsqrt 53 1024 var else Float.double 0 in
  u64 (toUint64 undefined avg + u64 (2 * toUint64 undefined sd)).

Definition add (undefined : spec_float → Z) (s : t) (responseTimeMilli : Z) : res t :=
  let responseTimeMilli := if hours24 <? responseTimeMilli then hours24 else responseTimeMilli in
  let a := RollingAvgAndVar.add (avgAndVarOfAckTime s) (Float.double responseTimeMilli) in
  let numOfVals := RollingAvgAndVar.k a in
  if numOfVals mod evalPeriod =? 0 then
    let maxVal := Z.min maxTimeBetweenRetranMilli (u64 (retranTimeMilli s * maxIncreasingFactor)) in
    let minVal := Z.max minTimeBetweenRetranMilli (retranTimeMilli s / maxDecreasingFactor) in
    assert! (minVal <=? maxVal) ;;
    let new := newRetran undefined a in
    let time := if maxVal <? new then maxVal else if new <? minVal then minVal else new in
    Ok (mk (if resetPoint <=? numOfVals then RollingAvgAndVar.reset a else a) time)
  else Ok (mk a (retranTimeMilli s)).

(** [UINT64_MAX] stands for "never". *)
Definition getRetransmissionTimeMilli (s : t) : Z :=
  if retranTimeMilli s =? maxTimeBetweenRetranMilli then 2 ^ 64 - 1 else retranTimeMilli s.

(** ** The time stays between the bounds *)
Definition inv (s : t) : Prop := minTimeBetweenRetranMilli <= retranTimeMilli s <= maxTimeBetweenRetranMilli.

Lemma ri_ctor_inv memory : inv (ctor memory).
Proof. unfold inv, ctor, defaultTimeBetweenRetranMilli, minTimeBetweenRetranMilli, maxTimeBetweenRetranMilli. cbn. lia. Qed.

Lemma ri_add_inv undefined s ms : inv s → ∃ s', add undefined s ms = Ok s' ∧ inv s'.
Proof.
  unfold inv, add, minTimeBetweenRetranMilli, maxTimeBetweenRetranMilli, maxIncreasingFactor, maxDecreasingFactor. intros Hs.
  destruct (_ =? 0); [|by eexists]. unfold u64. rewrite wrap_small by lia. set (mx := Z.min 5000 (retranTimeMilli s * 4)). set (mn := Z.max 20 (retranTimeMilli s / 2)).
  assert (Hb : 20 <= mn <= mx ∧ mx <= 5000) by (unfold mn, mx; pose proof (Z.div_le_upper_bound (retranTimeMilli s) 2 (retranTimeMilli s)); lia).
  clearbody mn mx. rewrite (proj2 (Z.leb_le mn mx)) by lia. cbn [Assert mbind res_bind]. eexists. split; [done|]. cbn.
  destruct (Z.ltb_spec mx (newRetran undefined (RollingAvgAndVar.add (avgAndVarOfAckTime s) (Float.double (if hours24 <? ms then hours24 else ms))))) as [|Hle]; [lia|].
  destruct (Z.ltb_spec (newRetran undefined (RollingAvgAndVar.add (avgAndVarOfAckTime s) (Float.double (if hours24 <? ms then hours24 else ms)))) mn); lia.
Qed.
End ReplicaInfo.
