(* ===== verification/RetransmissionsLogic.v ===== *)
(** * The messages that are tracked (bftengine/src/bftengine/RetransmissionsManager.cpp, [RetransmissionsLogic])

    A background thread tracks the messages sent to each replica and keeps a priority queue
    of times at which a message without acknowledgement is due.  The items that the map and
    the queue share are named by their keys in the map (they are freed with the map).
    Members without an initial value are taken from [memory] and the arguments [fresh...]. *)
From Stdlib Require Import SpecFloat.
From S2P Require Import Prelude RollingAvgAndVar ReplicaExecution RetransmissionTimes.

Module RetransmissionsLogic.
Import RetransmissionsParams.

Record TrackedItem := mkItem { replicaId : Z; msgType : Z; seqNumber : Z; ackOrAbort : bool; numOfTransmissions : Z; timeOfTransmission : Z }.

(** [item] is the key of the tracked item. *)
Record PendingRetran := mkPending { expirationTime : Z; item : Z }.

Record RetSuggestion := mkSuggestion { s_replicaId : Z; s_msgType : Z; s_msgSeqNum : Z }.

Record t := mk {
  maxOutSeqNumbers : Z;
  lastStable : Z;
  trackedItemsMap : gmap Z TrackedItem;
  replicasMap : gmap Z ReplicaInfo.t;
  pendingRetransmissionsHeap : list PendingRetran;
}.

Definition set_items (s : t) (m : gmap Z TrackedItem) : t := mk (maxOutSeqNumbers s) (lastStable s) m (replicasMap s) (pendingRetransmissionsHeap s).
Definition set_replicas (s : t) (m : gmap Z ReplicaInfo.t) : t := mk (maxOutSeqNumbers s) (lastStable s) (trackedItemsMap s) m (pendingRetransmissionsHeap s).
Definition set_heap (s : t) (h : list PendingRetran) : t := mk (maxOutSeqNumbers s) (lastStable s) (trackedItemsMap s) (replicasMap s) h.

Definition ctor (maxOutNumOfSeqNumbers : Z) : t := mk maxOutNumOfSeqNumbers 0 ∅ ∅ [].

Definition setLastStable (s : t) (newLastStableSeqNum : Z) : t :=
  if lastStable s <? newLastStableSeqNum
  then mk (maxOutSeqNumbers s) newLastStableSeqNum (trackedItemsMap s) (replicasMap s) (pendingRetransmissionsHeap s) else s.

Definition clearPendingRetransmissions (s : t) : t := set_heap s [].

Definition outside (s : t) (n : Z) : bool := (n <=? lastStable s) || (lastStable s + maxOutSeqNumbers s <? n).

(** The keys of the two maps. *)
Definition itemId (s : t) (rid ty n : Z) : Z :=
  Z.lor (Z.lor (Z.shiftl rid 32) (Z.shiftl ty 16)) (u16 (Z.rem n (maxOutSeqNumbers s * 2))).
Definition replicaKey (rid ty : Z) : Z := Z.lor (Z.shiftl rid 16) ty.

Definition addMilliseconds (base milliseconds : Z) : Z := u64 (base + milliseconds * 1000).

(** [std::priority_queue]: [top q] is an element with the least time and the others. *)
Class PriorityQueue (top : list PendingRetran → option (PendingRetran * list PendingRetran)) : Prop := {
  top_none q : top q = None → q = [];
  top_some q x q' : top q = Some (x, q') → q ≡ₚ x :: q' ∧ Forall (fun y => expirationTime x <= expirationTime y) q';
}.

Section defs.
Context (undefined : spec_float → Z) (memory : RollingAvgAndVar.t) (freshTransmissions freshTime : Z).
Context (top : list PendingRetran → option (PendingRetran * list PendingRetran)).

Definition getTrackedItem (s : t) (rid ty n : Z) : Z * TrackedItem * t :=
  let id := itemId s rid ty n in
  match trackedItemsMap s !! id with
  | Some it => (id, it, s)
  | None => let it := mkItem rid ty 0 false freshTransmissions freshTime in (id, it, set_items s (<[id := it]> (trackedItemsMap s)))
  end.
Definition put_item (s : t) (id : Z) (it : TrackedItem) : t := set_items s (<[id := it]> (trackedItemsMap s)).

Definition getReplicaInfo (s : t) (rid ty : Z) : ReplicaInfo.t :=
  match replicasMap s !! replicaKey rid ty with Some r => r | None => ReplicaInfo.ctor memory end.

(** [getReplicaInfo(replicaId, msgType)->add(...)] *)
Definition addResponse (s : t) (rid ty ms : Z) : res t :=
  r ← ReplicaInfo.add undefined (getReplicaInfo s rid ty) ms;
  Ok (set_replicas s (<[replicaKey rid ty := r]> (replicasMap s))).

Definition responseTimeMilli (time sent : Z) : Z := u64 (Z.quot (ReplicaExecution.subtract time sent) 1000).

Fixpoint makeRoomLoop (fuel : nat) (h : list PendingRetran) : list PendingRetran :=
  match fuel with
  | O => h
  | S fuel =>
      if maxNumberOfConcurrentManagedTransmissions <=? Z.of_nat (length h)
      then match top h with Some (_, h') => makeRoomLoop fuel h' | None => h end else h
  end.
Definition makeRoom (h : list PendingRetran) : list PendingRetran := makeRoomLoop (length h) h.

(** The item of the message to send: a new number, or one that was not acknowledged. *)
Definition sendItem (it : TrackedItem) (time n : Z) (ignorePreviousAcks : bool) : option TrackedItem :=
  if negb (seqNumber it =? n) || ignorePreviousAcks then Some (mkItem (replicaId it) (msgType it) n false 0 time)
  else if ackOrAbort it then None else Some it.

Definition transmitted (it : TrackedItem) (abort : bool) : TrackedItem :=
  mkItem (replicaId it) (msgType it) (seqNumber it) abort (u16 (numOfTransmissions it + 1)) (timeOfTransmission it).

Definition processSend (time rid n ty : Z) (ignorePreviousAcks : bool) (s : t) : res t :=
  if outside s n then Ok s
  else
    let '(id, it, s) := getTrackedItem s rid ty n in
    match sendItem it time n ignorePreviousAcks with
    | None => Ok s
    | Some it =>
        if maxTransmissionsPerMsg <=? u16 (numOfTransmissions it + 1) then
          let s := put_item s id (transmitted it true) in
          if timeOfTransmission it <? time then addResponse s rid ty (responseTimeMilli time (timeOfTransmission it)) else Ok s
        else
          let r := getReplicaInfo s rid ty in
          let s := set_replicas s (<[replicaKey rid ty := r]> (replicasMap s)) in
          let waitTimeMilli := ReplicaInfo.getRetransmissionTimeMilli r in
          if maxTimeBetweenRetranMilli <=? waitTimeMilli then Ok (put_item s id (transmitted it true))
          else
            let h := pendingRetransmissionsHeap s in
            let h := if maxNumberOfConcurrentManagedTransmissions <=? Z.of_nat (length h) then makeRoom h else h in
            Ok (set_heap (put_item s id (transmitted it false)) (mkPending (addMilliseconds time (u16 waitTimeMilli)) id :: h))
    end.

Definition processAck (time rid n ty : Z) (s : t) : res t :=
  if outside s n then Ok s
  else
    let '(id, it, s) := getTrackedItem s rid ty n in
    if (seqNumber it =? n) && negb (ackOrAbort it) && negb (time <? timeOfTransmission it) then
      let s := put_item s id (mkItem (replicaId it) (msgType it) (seqNumber it) true (numOfTransmissions it) (timeOfTransmission it)) in
      addResponse s rid ty (responseTimeMilli time (timeOfTransmission it))
    else Ok s.

(** The suggestion of an expired entry. *)
Definition suggestionOf (s : t) (x : PendingRetran) : res (list RetSuggestion) :=
  match trackedItemsMap s !! item x with
  | None => Err OutOfBounds
  | Some it =>
      Ok (if negb (ackOrAbort it) && (lastStable s <? seqNumber it) && (seqNumber it <=? lastStable s + maxOutSeqNumbers s)
          then [mkSuggestion (replicaId it) (msgType it) (seqNumber it)] else [])
  end.

Fixpoint suggestLoop (fuel : nat) (currentTime : Z) (s : t) (out : list RetSuggestion) : res (list RetSuggestion * t) :=
  match fuel with
  | O => Err OutOfFuel
  | S fuel =>
      match top (pendingRetransmissionsHeap s) with
      | None => Ok (out, s)
      | Some (x, h) =>
          if currentTime <? expirationTime x then Ok (out, s)
          else
            new ← suggestionOf s x;
            suggestLoop fuel currentTime (set_heap s h) (new ++ out)
      end
  end.
Definition getSuggestedRetransmissions (currentTime : Z) (s : t) : res (list RetSuggestion * t) :=
  suggestLoop (S (length (pendingRetransmissionsHeap s))) currentTime s [].
End defs.
End RetransmissionsLogic.
