(* ===== verification/RetransmissionsManager.v ===== *)
(** * RetransmissionsManager (bftengine/src/bftengine/RetransmissionsManager.hpp, .cpp)

    The manager collects events in the main thread, gives them to a job of the thread pool
    and gets its suggestions back in an internal message. *)
From Stdlib Require Import SpecFloat.
From S2P Require Import Prelude RollingAvgAndVar RetransmissionTimes RetransmissionsLogic.

Module RetransmissionsManager.
Import RetransmissionsParams.
#[local] Abbreviation logic := RetransmissionsLogic.t.

Inductive EType := SENT | ACK | SENT_AND_IGNORE_PREV.
Record Event := mkEvent { etype : EType; time : Z; e_replicaId : Z; e_msgSeqNum : Z; e_msgType : Z }.

(** A [RetransmissionsProcessingJob] that was given to the thread pool. *)
Record Job := mkJob { j_events : list Event; j_lastStable : Z; j_lastView : Z; j_clearPending : bool }.

(** A [RetranProcResultInternalMsg] for the main thread. *)
Record Result := mkResult { r_lastStable : Z; r_view : Z; r_suggested : list RetransmissionsLogic.RetSuggestion }.

(** [enabled]: there is a thread pool. [setOfEvents] is a pointer. *)
Record t := mk {
  enabled : bool;
  maxOutSeqNumbers : Z;
  lastStable : Z;
  lastView : Z;
  bkProcessing : bool;
  setOfEvents : option (list Event);
  needToClearPendingRetransmissions : bool;
}.

Definition ctor (hasPool : bool) (maxOutNumOfSeqNumbers lastStableSeqNum : Z) : res t :=
  assert! hasPool ;;
  assert! (0 <? maxOutNumOfSeqNumbers) ;;
  Ok (mk true maxOutNumOfSeqNumbers lastStableSeqNum 0 false None false).
Definition ctor_disabled : t := mk false 0 0 0 false None false.

Definition set_events (s : t) (es : option (list Event)) : t :=
  mk (enabled s) (maxOutSeqNumbers s) (lastStable s) (lastView s) (bkProcessing s) es (needToClearPendingRetransmissions s).

(** The result: whether a job was started, and the job. *)
Definition tryToStartProcessing (s : t) : option Job * t :=
  if negb (enabled s) || bkProcessing s then (None, s)
  else
    let '(events, rest) := match setOfEvents s with
      | Some (e :: es) => (e :: es, None)
      | other => ([], other)
      end in
    (Some (mkJob events (lastStable s) (lastView s) (needToClearPendingRetransmissions s)),
     mk (enabled s) (maxOutSeqNumbers s) (lastStable s) (lastView s) true rest false).

Definition add (e : Event) (s : t) : res (option Job * t) :=
  let events := default [] (setOfEvents s) ++ [e] in
  let s := set_events s (Some events) in
  if Z.of_nat (length events) <? sufficientNumberOfMsgsToStartBkProcess then Ok (None, s)
  else
    let '(j, s) := tryToStartProcessing s in
    match j with
    | Some _ => Ok (j, s)
    | None =>
        match setOfEvents s with
        | None => Err OutOfBounds
        | Some es => Ok (None, if maxNumberOfMsgsInThreadLocalQueue <=? Z.of_nat (length es) then set_events s (Some []) else s)
        end
    end.

Definition outside (s : t) (n : Z) : bool := (n <=? lastStable s) || (lastStable s + maxOutSeqNumbers s <? n).

Definition onSend (now rid n ty : Z) (ignorePreviousAcks : bool) (s : t) : res (option Job * t) :=
  if negb (enabled s) || outside s n then Ok (None, s)
  else add (mkEvent (if ignorePreviousAcks then SENT_AND_IGNORE_PREV else SENT) now rid n ty) s.

Definition onAck (now rid n ty : Z) (s : t) : res (option Job * t) :=
  if negb (enabled s) || outside s n then Ok (None, s) else add (mkEvent ACK now rid n ty) s.

Definition clear_events (s : t) : option (list Event) := match setOfEvents s with Some _ => Some [] | None => None end.

Definition setLastStable (newLastStableSeqNum : Z) (s : t) : t :=
  if negb (enabled s) then s
  else
    let clearEvents := lastStable s + maxOutSeqNumbers s <=? newLastStableSeqNum in
    mk (enabled s) (maxOutSeqNumbers s) (if lastStable s <? newLastStableSeqNum then newLastStableSeqNum else lastStable s) (lastView s) (bkProcessing s)
      (if clearEvents then clear_events s else setOfEvents s) (clearEvents || needToClearPendingRetransmissions s).

Definition setLastView (newView : Z) (s : t) : t :=
  if negb (enabled s) then s
  else if lastView s <? newView
  then mk (enabled s) (maxOutSeqNumbers s) (lastStable s) newView (bkProcessing s) (clear_events s) true else s.

Definition OnProcessingComplete (s : t) : res t :=
  assert! (enabled s) ;;
  assert! (bkProcessing s) ;;
  Ok (mk (enabled s) (maxOutSeqNumbers s) (lastStable s) (lastView s) false (setOfEvents s) (needToClearPendingRetransmissions s)).

(** [RetransmissionsProcessingJob::execute] *)
Section job.
Context (undefined : spec_float → Z) (memory : RollingAvgAndVar.t) (freshTransmissions freshTime : Z).
Context (top : list RetransmissionsLogic.PendingRetran → option (RetransmissionsLogic.PendingRetran * list RetransmissionsLogic.PendingRetran)).

Definition processEvent (l : logic) (e : Event) : res logic :=
  match etype e with
  | SENT => RetransmissionsLogic.processSend undefined memory freshTransmissions freshTime top (time e) (e_replicaId e) (e_msgSeqNum e) (e_msgType e) false l
  | ACK => RetransmissionsLogic.processAck undefined memory freshTransmissions freshTime (time e) (e_replicaId e) (e_msgSeqNum e) (e_msgType e) l
  | SENT_AND_IGNORE_PREV => RetransmissionsLogic.processSend undefined memory freshTransmissions freshTime top (time e) (e_replicaId e) (e_msgSeqNum e) (e_msgType e) true l
  end.

Fixpoint processEvents (es : list Event) (l : logic) : res logic :=
  match es with [] => Ok l | e :: es => l ← processEvent l e; processEvents es l end.

Definition execute (now : Z) (j : Job) (l : logic) : res (Result * logic) :=
  let l := if j_clearPending j then RetransmissionsLogic.clearPendingRetransmissions l else l in
  let l := RetransmissionsLogic.setLastStable l (j_lastStable j) in
  l ← processEvents (j_events j) l;
  '(suggested, l) ← RetransmissionsLogic.getSuggestedRetransmissions top now l;
  Ok (mkResult (j_lastStable j) (j_lastView j) suggested, l).
End job.
End RetransmissionsManager.
