(* ===== verification/RetransmissionsProps.v ===== *)
(** * Properties of retransmissions (RetransmissionTimes.v, RetransmissionsLogic.v, RetransmissionsManager.v) *)
From Stdlib Require Import SpecFloat.
From S2P Require Import Prelude RollingAvgAndVar ReplicaExecution RetransmissionTimes RetransmissionsLogic RetransmissionsManager.

Module RetransmissionsProps.
Import RetransmissionsParams RetransmissionsLogic.
Import RetransmissionsManager (Event, Job, Result, etype, e_replicaId, e_msgSeqNum, e_msgType, j_events, j_lastStable, r_lastStable, r_suggested).

(** ** Keys *)
Lemma lor_shift a b k : 0 <= k → 0 <= b < 2 ^ k → Z.lor (Z.shiftl a k) b = a * 2 ^ k + b.
Proof.
  intros Hk Hb. rewrite <- Z.shiftl_mul_pow2 by done. rewrite <- (Z.add_lor_land (Z.shiftl a k) b).
  assert (Z.land (Z.shiftl a k) b = 0) as ->; [|lia]. apply Z.bits_inj'. intros i Hi. rewrite Z.land_spec, Z.bits_0.
  destruct (Z.lt_ge_cases i k) as [Hlt|Hge].
  - rewrite Z.shiftl_spec_low by lia. done.
  - destruct (decide (b = 0)) as [->|]; [by rewrite Z.bits_0, andb_false_r|]. rewrite (Z.bits_above_log2 b i); [by rewrite andb_false_r|lia|].
    apply Z.log2_lt_pow2; [lia|]. eapply Z.lt_le_trans; [apply Hb|]. by apply Z.pow_le_mono_r.
Qed.

Definition id16 (z : Z) : Prop := 0 <= z < 65536.

Lemma itemId_value s rid ty n : id16 rid → id16 ty → itemId s rid ty n = rid * 2 ^ 32 + ty * 2 ^ 16 + u16 (Z.rem n (maxOutSeqNumbers s * 2)).
Proof.
  intros Hr Ht. unfold itemId, id16 in *. pose proof (u16_range (Z.rem n (maxOutSeqNumbers s * 2))).
  replace (Z.lor (Z.shiftl rid 32) (Z.shiftl ty 16)) with (Z.shiftl (rid * 2 ^ 16 + ty) 16).
  - rewrite lor_shift by lia. lia.
  - rewrite (lor_shift rid (Z.shiftl ty 16) 32) by (rewrite ?Z.shiftl_mul_pow2; lia). rewrite !Z.shiftl_mul_pow2 by lia. lia.
Qed.

Lemma itemId_inj s s' r1 t1 n1 r2 t2 n2 : id16 r1 → id16 t1 → id16 r2 → id16 t2 → itemId s r1 t1 n1 = itemId s' r2 t2 n2 → r1 = r2 ∧ t1 = t2.
Proof.
  intros ? ? ? ?. rewrite !itemId_value by done. unfold id16 in *.
  pose proof (u16_range (Z.rem n1 (maxOutSeqNumbers s * 2))). pose proof (u16_range (Z.rem n2 (maxOutSeqNumbers s' * 2))). lia.
Qed.

(** ** The invariant of the logic

    [sent rid ty n]: the message was given to [processSend]. *)
Section logic.
Context (undefined : spec_float → Z) (memory : RollingAvgAndVar.t) (freshTransmissions freshTime : Z).
Context (top : list PendingRetran → option (PendingRetran * list PendingRetran)) `{PQ : !PriorityQueue top}.

Record linv (sent : Z → Z → Z → Prop) (s : t) : Prop := {
  li_stable : 0 <= lastStable s;
  li_heap : Forall (fun x => is_Some (trackedItemsMap s !! item x)) (pendingRetransmissionsHeap s);
  li_size : Z.of_nat (length (pendingRetransmissionsHeap s)) <= maxNumberOfConcurrentManagedTransmissions;
  li_replicas : map_Forall (fun _ r => ReplicaInfo.inv r) (replicasMap s);
  li_items : map_Forall (fun id it => id16 (replicaId it) ∧ id16 (msgType it) ∧ ∃ n, id = itemId s (replicaId it) (msgType it) n ∧
    (seqNumber it = 0 ∨ seqNumber it = n ∧ sent (replicaId it) (msgType it) n)) (trackedItemsMap s);
}.

(** ** The queue *)
Lemma makeRoom_spec h : Z.of_nat (length (makeRoom top h)) < maxNumberOfConcurrentManagedTransmissions ∧ makeRoom top h ⊆ h.
Proof.
  unfold makeRoom. cut (∀ fuel h, (length h <= fuel)%nat → Z.of_nat (length (makeRoomLoop top fuel h)) < maxNumberOfConcurrentManagedTransmissions ∧ makeRoomLoop top fuel h ⊆ h); [intros Hc; apply Hc; lia|]. clear h.
  unfold maxNumberOfConcurrentManagedTransmissions. induction fuel as [|fuel IH]; intros h Hl; cbn [makeRoomLoop]; [destruct h; [done|cbn in Hl; lia]|].
  unfold maxNumberOfConcurrentManagedTransmissions. destruct (Z.leb_spec 2000 (Z.of_nat (length h))); [|done].
  destruct (top h) as [[x h']|] eqn:E; [|apply top_none in E; subst; cbn in *; lia]. apply top_some in E as [Hp _].
  destruct (IH h') as [Hs Hsub]; [rewrite Hp in Hl; cbn in Hl; lia|]. split; [done|]. intros y Hy. rewrite Hp. right. by apply Hsub.
Qed.

(** Whether the entry [x] is suggested. *)
Definition live (s : t) (x : PendingRetran) : list RetSuggestion :=
  match suggestionOf s x with Ok l => l | Err _ => [] end.

Lemma suggestionOf_ok s x : is_Some (trackedItemsMap s !! item x) → suggestionOf s x = Ok (live s x).
Proof. unfold live, suggestionOf. by intros [it ->]. Qed.

Lemma suggestLoop_spec now s : ∀ fuel h out, (length h < fuel)%nat → Forall (fun x => is_Some (trackedItemsMap s !! item x)) h →
  ∃ new h', suggestLoop top fuel now (set_heap s h) out = Ok (new ++ out, set_heap s h') ∧
    new ≡ₚ filter (fun x => expirationTime x <= now) h ≫= live s ∧ h' ≡ₚ filter (fun x => now < expirationTime x) h.
Proof.
  induction fuel as [|fuel IH]; intros h out Hl Hh; [lia|]. cbn [suggestLoop pendingRetransmissionsHeap set_heap].
  destruct (top h) as [[x h']|] eqn:E.
  2: { apply top_none in E as ->. by exists [], []. }
  apply top_some in E as [Hp Hmin]. destruct (Z.ltb_spec now (expirationTime x)) as [Hlt|Hge].
  - exists [], h. assert (Hall : Forall (fun y => now < expirationTime y) h).
    { rewrite Hp. constructor; [done|]. eapply Forall_impl; [exact Hmin|]. cbn. lia. }
    split_and!; [done| |].
    + rewrite (filter_none _ h); [done|]. eapply Forall_impl; [exact Hall|]. cbn. lia.
    + clear -Hall. induction h as [|y h IHh]; [done|]. apply Forall_cons in Hall as [Hy Hall]. rewrite filter_cons_True by done. by constructor; apply IHh.
  - rewrite Hp in Hh. apply Forall_cons in Hh as [Hx Hh]. change (suggestionOf (set_heap s h) x) with (suggestionOf s x). rewrite (suggestionOf_ok s x Hx). cbn [mbind res_bind].
    change (set_heap (set_heap s h) h') with (set_heap s h'). destruct (IH h' (live s x ++ out)) as (new & h2 & He & Hn & Hh2); [rewrite Hp in Hl; cbn in Hl; lia|done|].
    exists (new ++ live s x), h2. rewrite He, app_assoc. split_and!; [done| |].
    + rewrite Hp, filter_cons_True by done. cbn. by rewrite Hn, (Permutation_app_comm (live s x)).
    + rewrite Hp, filter_cons_False by lia. done.
Qed.

(** What is suggested, and what stays in the queue. *)
Lemma getSuggested_post now s : Forall (fun x => is_Some (trackedItemsMap s !! item x)) (pendingRetransmissionsHeap s) →
  ∃ out h', getSuggestedRetransmissions top now s = Ok (out, set_heap s h') ∧
    out ≡ₚ filter (fun x => expirationTime x <= now) (pendingRetransmissionsHeap s) ≫= live s ∧ h' ≡ₚ filter (fun x => now < expirationTime x) (pendingRetransmissionsHeap s).
Proof.
  intros Hh. destruct (suggestLoop_spec now s (S (length (pendingRetransmissionsHeap s))) (pendingRetransmissionsHeap s) [] ltac:(lia) Hh) as (new & h' & He & Hn & Hh').
  rewrite app_nil_r in He. exists new, h'. split_and!; [|done|done]. unfold getSuggestedRetransmissions. by destruct s.
Qed.

(** ** The operations keep the invariant *)
Lemma linv_mono (sent sent' : Z → Z → Z → Prop) s : (∀ r ty n, sent r ty n → sent' r ty n) → linv sent s → linv sent' s.
Proof. intros Hm []. constructor; try done. intros id it Hi. destruct (li_items0 id it Hi) as (? & ? & n & ? & [?|[? ?]]); split_and!; try done; exists n; auto. Qed.

Lemma getTrackedItem_post sent s rid ty n : linv sent s → id16 rid → id16 ty →
  ∃ it s', getTrackedItem freshTransmissions freshTime s rid ty n = (itemId s rid ty n, it, s') ∧ linv sent s' ∧ trackedItemsMap s' !! itemId s rid ty n = Some it ∧
    replicaId it = rid ∧ msgType it = ty ∧ ∃ m, s' = set_items s m.
Proof.
  intros Hs Hr Ht. unfold getTrackedItem. destruct (trackedItemsMap s !! itemId s rid ty n) as [it|] eqn:E.
  - destruct (li_items _ _ Hs _ _ E) as (Hr' & Ht' & n' & Hn' & _). apply itemId_inj in Hn' as [-> ->]; try done.
    exists it, s. split_and!; try done. exists (trackedItemsMap s). by destruct s.
  - do 2 eexists. split; [done|]. split_and!; try done; [|cbn; by rewrite lookup_insert_eq|by eexists]. destruct Hs. constructor; cbn; try done.
    + eapply Forall_impl; [exact li_heap0|]. intros x Hx. apply lookup_insert_is_Some. destruct (decide (itemId s rid ty n = item x)); auto.
    + apply map_Forall_insert_2; [|done]. cbn. split_and!; [done|done|]. exists n. by split; [|left].
Qed.

Lemma put_item_inv sent s rid ty n it : linv sent s → id16 rid → id16 ty → replicaId it = rid → msgType it = ty → (seqNumber it = 0 ∨ seqNumber it = n ∧ sent rid ty n) →
  linv sent (put_item s (itemId s rid ty n) it).
Proof.
  intros [] Hr Ht Er Et Hn. constructor; cbn; try done.
  - eapply Forall_impl; [exact li_heap0|]. intros x Hx. apply lookup_insert_is_Some. destruct (decide (itemId s rid ty n = item x)); auto.
  - apply map_Forall_insert_2; [|done]. rewrite Er, Et. split_and!; [done|done|by exists n].
Qed.

Lemma replica_inv sent s rid ty : linv sent s → ReplicaInfo.inv (getReplicaInfo memory s rid ty).
Proof. intros []. unfold getReplicaInfo. destruct (replicasMap s !! replicaKey rid ty) eqn:E; [by apply (li_replicas0 _ _ E)|apply ReplicaInfo.ri_ctor_inv]. Qed.

Lemma set_replicas_inv sent s k r : linv sent s → ReplicaInfo.inv r → linv sent (set_replicas s (<[k := r]> (replicasMap s))).
Proof. intros [] Hr. constructor; cbn; try done. by apply map_Forall_insert_2. Qed.

Lemma addResponse_inv sent s rid ty ms : linv sent s → ∃ s' m, addResponse undefined memory s rid ty ms = Ok s' ∧ linv sent s' ∧ s' = set_replicas s m.
Proof.
  intros Hs. unfold addResponse. destruct (ReplicaInfo.ri_add_inv undefined _ ms (replica_inv sent s rid ty Hs)) as (r & -> & Hr). cbn [mbind res_bind].
  do 2 eexists. split_and!; [done|by apply set_replicas_inv|done].
Qed.

(** What does not change. *)
Definition framed (s s' : t) : Prop := lastStable s' = lastStable s ∧ maxOutSeqNumbers s' = maxOutSeqNumbers s.

Lemma processSend_inv sent time rid n ty b s : linv sent s → id16 rid → id16 ty → sent rid ty n →
  ∃ s', processSend undefined memory freshTransmissions freshTime top time rid n ty b s = Ok s' ∧ linv sent s' ∧ framed s s'.
Proof.
  intros Hs Hr Ht Hsent. unfold processSend. destruct (outside s n); [by exists s|].
  destruct (getTrackedItem_post sent s rid ty n Hs Hr Ht) as (it & s1 & -> & Hs1 & Hit & Er & Et & m & Em). subst s1.
  assert (Hitem : ∀ it', sendItem it time n b = Some it' → replicaId it' = rid ∧ msgType it' = ty ∧ (seqNumber it' = 0 ∨ seqNumber it' = n ∧ sent rid ty n)).
  { unfold sendItem. intros it'. destruct (negb _ || _) eqn:En; [intros [= <-]; cbn; auto|]. destruct (ackOrAbort it); [done|]. intros [= <-].
    apply orb_false_iff in En as [En _]. apply negb_false_iff, Z.eqb_eq in En. auto. }
  destruct (sendItem it time n b) as [it'|]; [|by exists (set_items s m)]. destruct (Hitem it' eq_refl) as (Er' & Et' & Hn').
  assert (Hput : ∀ ab, linv sent (put_item (set_items s m) (itemId s rid ty n) (transmitted it' ab))) by (intros ab; by apply (put_item_inv sent (set_items s m) rid ty n)).
  destruct (_ <=? _).
  - destruct (_ <? _); [|by eexists]. destruct (addResponse_inv sent _ rid ty (responseTimeMilli time (timeOfTransmission it')) (Hput true)) as (s2 & m2 & -> & Hs2 & ->). by eexists.
  - pose proof (replica_inv sent _ rid ty Hs1) as Hrep. set (r := getReplicaInfo memory (set_items s m) rid ty) in *.
    destruct (_ <=? _). { eexists. split; [done|]. split; [|done]. exact (set_replicas_inv sent _ (replicaKey rid ty) r (Hput true) Hrep). }
    eexists. split; [done|]. split; [|done]. pose proof (set_replicas_inv sent _ (replicaKey rid ty) r (Hput false) Hrep) as [Hst Hheap Hsize Hrs Hits]. cbn in *.
    destruct (makeRoom_spec (pendingRetransmissionsHeap s)) as [Hroom Hsub].
    constructor; cbn; try done.
    + constructor; [cbn; by rewrite lookup_insert_eq|]. destruct (_ <=? _); [|done]. apply Forall_forall. intros x Hx. rewrite Forall_forall in Hheap. apply Hheap. by apply Hsub.
    + unfold maxNumberOfConcurrentManagedTransmissions in *. fold (makeRoom top (pendingRetransmissionsHeap s)). destruct (Z.leb_spec 2000 (Z.of_nat (length (pendingRetransmissionsHeap s)))); lia.
Qed.

Lemma processAck_inv sent time rid n ty s : linv sent s → id16 rid → id16 ty →
  ∃ s', processAck undefined memory freshTransmissions freshTime time rid n ty s = Ok s' ∧ linv sent s' ∧ framed s s'.
Proof.
  intros Hs Hr Ht. unfold processAck. destruct (outside s n); [by exists s|].
  destruct (getTrackedItem_post sent s rid ty n Hs Hr Ht) as (it & s1 & -> & Hs1 & Hit & Er & Et & m & Em). subst s1.
  destruct (_ && _) eqn:Ec; [|by exists (set_items s m)]. set (it' := mkItem _ _ _ _ _ _).
  assert (Hput : linv sent (put_item (set_items s m) (itemId s rid ty n) it')).
  { apply (put_item_inv sent (set_items s m) rid ty n); try done. bool_to_prop. destruct (li_items _ _ Hs1 _ _ Hit) as (_ & _ & n' & _ & [Hz|[Hn Hsn]]); [by left|right].
    rewrite Er, Et in Hsn. cbn. split; [lia|]. by replace n with n' by lia. }
  destruct (addResponse_inv sent _ rid ty (responseTimeMilli time (timeOfTransmission it)) Hput) as (s2 & m2 & -> & Hs2 & ->). by eexists.
Qed.

Lemma setStable_inv sent s n : linv sent s → linv sent (RetransmissionsLogic.setLastStable s n).
Proof. intros []. unfold setLastStable. destruct (Z.ltb_spec (lastStable s) n); [|by constructor]. constructor; cbn; try done. lia. Qed.

Lemma heap_inv sent s h : linv sent s → h ⊆ pendingRetransmissionsHeap s → (length h <= length (pendingRetransmissionsHeap s))%nat → linv sent (set_heap s h).
Proof.
  intros [] Hsub Hl. constructor; cbn; try done; [|lia]. apply Forall_forall. intros x Hx. rewrite Forall_forall in li_heap0. auto.
Qed.

Lemma suggested_inv sent now s : linv sent s → ∃ out h, getSuggestedRetransmissions top now s = Ok (out, set_heap s h) ∧ linv sent (set_heap s h) ∧
  Forall (fun x => sent (s_replicaId x) (s_msgType x) (s_msgSeqNum x) ∧ lastStable s < s_msgSeqNum x <= lastStable s + maxOutSeqNumbers s) out.
Proof.
  intros Hs. destruct (getSuggested_post now s (li_heap _ _ Hs)) as (out & h & -> & Hout & Hh). exists out, h. split; [done|]. split.
  - apply heap_inv; [done| |rewrite Hh; apply length_filter]. intros x Hx. rewrite Hh in Hx. by apply list_elem_of_filter in Hx as [_ ?].
  - apply Forall_forall. intros x Hx. rewrite Hout in Hx. apply list_elem_of_bind in Hx as (y & Hy & _). unfold live, suggestionOf in Hy.
    destruct (trackedItemsMap s !! item y) as [it|] eqn:Hit; [|by apply elem_of_nil in Hy]. destruct (_ && _) eqn:Hc; [|by apply elem_of_nil in Hy]. apply list_elem_of_singleton in Hy as ->. cbn.
    bool_to_prop. destruct (li_items _ _ Hs _ _ Hit) as (_ & _ & n & _ & [Hzero|[Hn Hsent]]); [pose proof (li_stable _ _ Hs); lia|]. split; [by rewrite Hn|lia].
Qed.

(** ** The manager with its background job *)
#[local] Abbreviation mgrT := RetransmissionsManager.t.

(** [sentMsgs]: the messages given to [onSend]. *)
Record world := mkW { mgr : mgrT; lgc : t; job : option Job; result : option Result; sentMsgs : list (Z * Z * Z) }.

Inductive Op :=
  | OnSend (now rid n ty : Z) (ignorePreviousAcks : bool)
  | OnAck (now rid n ty : Z)
  | TryToStartProcessing
  | SetLastStable (n : Z)
  | SetLastView (v : Z)
  | JobRuns (now : Z)
  | ResultHandled.

Definition placed (W : world) (r : option Job * mgrT) (sm : list (Z * Z * Z)) : world :=
  mkW r.2 (lgc W) (match r.1 with Some j => Some j | None => job W end) (result W) sm.

Definition exec (W : world) (o : Op) : res world :=
  match o with
  | OnSend now rid n ty b => r ← RetransmissionsManager.onSend now rid n ty b (mgr W); Ok (placed W r ((rid, ty, n) :: sentMsgs W))
  | OnAck now rid n ty => r ← RetransmissionsManager.onAck now rid n ty (mgr W); Ok (placed W r (sentMsgs W))
  | TryToStartProcessing => Ok (placed W (RetransmissionsManager.tryToStartProcessing (mgr W)) (sentMsgs W))
  | SetLastStable n => Ok (mkW (RetransmissionsManager.setLastStable n (mgr W)) (lgc W) (job W) (result W) (sentMsgs W))
  | SetLastView v => Ok (mkW (RetransmissionsManager.setLastView v (mgr W)) (lgc W) (job W) (result W) (sentMsgs W))
  | JobRuns now =>
      match job W with
      | None => Ok W
      | Some j =>
          '(r, l) ← RetransmissionsManager.execute undefined memory freshTransmissions freshTime top now j (lgc W);
          Ok (mkW (mgr W) l None (Some r) (sentMsgs W))
      end
  | ResultHandled =>
      match result W with
      | None => Ok W
      | Some _ => m ← RetransmissionsManager.OnProcessingComplete (mgr W); Ok (mkW m (lgc W) (job W) None (sentMsgs W))
      end
  end.

(** Replica ids and message types have 16 bits. *)
Definition pre (W : world) (o : Op) : Prop :=
  match o with OnSend _ rid _ ty _ | OnAck _ rid _ ty => id16 rid ∧ id16 ty | _ => True end.

Definition sentIn (l : list (Z * Z * Z)) (rid ty n : Z) : Prop := (rid, ty, n) ∈ l.
Definition event_ok (l : list (Z * Z * Z)) (e : Event) : Prop :=
  id16 (e_replicaId e) ∧ id16 (e_msgType e) ∧ (etype e ≠ RetransmissionsManager.ACK → sentIn l (e_replicaId e) (e_msgType e) (e_msgSeqNum e)).
Definition few (es : list Event) : Prop := Z.of_nat (length es) < maxNumberOfMsgsInThreadLocalQueue.
Definition suggestion_ok (l : list (Z * Z * Z)) (stable maxOut : Z) (x : RetSuggestion) : Prop :=
  sentIn l (s_replicaId x) (s_msgType x) (s_msgSeqNum x) ∧ stable < s_msgSeqNum x <= stable + maxOut.

Record minv (W : world) : Prop := {
  mi_enabled : RetransmissionsManager.enabled (mgr W) = true;
  mi_stable : 0 <= lastStable (lgc W) <= RetransmissionsManager.lastStable (mgr W);
  mi_max : maxOutSeqNumbers (lgc W) = RetransmissionsManager.maxOutSeqNumbers (mgr W);
  mi_logic : linv (sentIn (sentMsgs W)) (lgc W);
  mi_bk : if RetransmissionsManager.bkProcessing (mgr W) then (is_Some (job W) ∧ result W = None) ∨ (job W = None ∧ is_Some (result W)) else job W = None ∧ result W = None;
  mi_events : Forall (event_ok (sentMsgs W)) (default [] (RetransmissionsManager.setOfEvents (mgr W))) ∧ few (default [] (RetransmissionsManager.setOfEvents (mgr W)));
  mi_job j : job W = Some j → lastStable (lgc W) <= j_lastStable j <= RetransmissionsManager.lastStable (mgr W) ∧ Forall (event_ok (sentMsgs W)) (j_events j);
  mi_result r : result W = Some r → r_lastStable r <= RetransmissionsManager.lastStable (mgr W) ∧
    Forall (suggestion_ok (sentMsgs W) (r_lastStable r) (RetransmissionsManager.maxOutSeqNumbers (mgr W))) (r_suggested r);
}.

Lemma event_ok_mono l x e : event_ok l e → event_ok (x :: l) e.
Proof. intros (? & ? & Hs). split_and!; try done. intros Ha. right. exact (Hs Ha). Qed.

(** A new message is recorded. *)
Lemma minv_sent W x : minv W → minv (mkW (mgr W) (lgc W) (job W) (result W) (x :: sentMsgs W)).
Proof.
  intros []. constructor; cbn; try done.
  - eapply linv_mono; [|done]. intros r ty n Hr. by right.
  - destruct mi_events0 as [He Hf]. split; [|done]. eapply Forall_impl; [exact He|]. apply event_ok_mono.
  - intros j Hj. destruct (mi_job0 j Hj) as [? He]. split; [done|]. eapply Forall_impl; [exact He|]. apply event_ok_mono.
  - intros r Hr. destruct (mi_result0 r Hr) as [? He]. split; [done|]. eapply Forall_impl; [exact He|]. intros y [? ?]. split; [by right|done].
Qed.

(** A job is started when none works. *)
Lemma rm_start_inv W : minv W → minv (placed W (RetransmissionsManager.tryToStartProcessing (mgr W)) (sentMsgs W)) ∧
  ((RetransmissionsManager.tryToStartProcessing (mgr W)).1 = None → (RetransmissionsManager.tryToStartProcessing (mgr W)).2 = mgr W).
Proof.
  intros Hi. pose proof Hi as []. unfold RetransmissionsManager.tryToStartProcessing, placed. rewrite mi_enabled0. cbn [negb orb].
  destruct (RetransmissionsManager.bkProcessing (mgr W)) eqn:Hb; [split; [by destruct W|done]|]. destruct mi_bk0 as [Hj Hr]. destruct mi_events0 as [He Hf].
  set (es := RetransmissionsManager.setOfEvents (mgr W)) in *. split; [|by destruct es as [[|]|]].
  destruct es as [[|e l]|]; (constructor; cbn; try done; [left; by split|]); intros j [= <-]; cbn; (split; [lia|done]).
Qed.

Lemma rm_add_inv W e : minv W → event_ok (sentMsgs W) e → ∃ r, RetransmissionsManager.add e (mgr W) = Ok r ∧ minv (placed W r (sentMsgs W)).
Proof.
  intros Hi He. pose proof Hi as []. unfold RetransmissionsManager.add. destruct mi_events0 as [Hes Hf]. set (es := default [] (RetransmissionsManager.setOfEvents (mgr W)) ++ [e]).
  assert (Hev : Forall (event_ok (sentMsgs W)) es) by (apply Forall_app; split; [done|by constructor]).
  assert (Hset : ∀ l, Forall (event_ok (sentMsgs W)) l → few l → minv (mkW (RetransmissionsManager.set_events (mgr W) (Some l)) (lgc W) (job W) (result W) (sentMsgs W))) by (intros l ? ?; by constructor).
  destruct (Z.ltb_spec (Z.of_nat (length es)) sufficientNumberOfMsgsToStartBkProcess) as [Hlt|Hge].
  { eexists. split; [done|]. apply (Hset es); [done|]. unfold few, maxNumberOfMsgsInThreadLocalQueue, sufficientNumberOfMsgsToStartBkProcess in *. lia. }
  unfold RetransmissionsManager.tryToStartProcessing. cbn. rewrite mi_enabled0. cbn [negb orb]. destruct (RetransmissionsManager.bkProcessing (mgr W)) eqn:Hb.
  - eexists. split; [done|]. destruct (Z.leb_spec maxNumberOfMsgsInThreadLocalQueue (Z.of_nat (length es))).
    + by apply (Hset []).
    + by apply (Hset es).
  - assert (Hne : ∃ e0 l, es = e0 :: l) by (unfold es; destruct (default [] _); cbn; eauto). destruct Hne as (e0 & l & Hel). rewrite Hel. eexists. split; [done|].
    destruct mi_bk0 as [Hj Hr]. constructor; cbn; try done.
    + left. by split.
    + intros j [= <-]. cbn. rewrite Hel in Hev. split; [lia|done].
Qed.

Lemma processEvents_inv sm es : ∀ l, linv (sentIn sm) l → Forall (event_ok sm) es →
  ∃ l', RetransmissionsManager.processEvents undefined memory freshTransmissions freshTime top es l = Ok l' ∧ linv (sentIn sm) l' ∧ framed l l'.
Proof.
  induction es as [|e es IH]; intros l Hl He; [by exists l|]. apply Forall_cons in He as [(Hr & Ht & Hs) He]. cbn [RetransmissionsManager.processEvents].
  assert (∃ l1, RetransmissionsManager.processEvent undefined memory freshTransmissions freshTime top l e = Ok l1 ∧ linv (sentIn sm) l1 ∧ framed l l1) as (l1 & -> & Hl1 & Hf1).
  { unfold RetransmissionsManager.processEvent. destruct (etype e) eqn:Ee; [apply processSend_inv; auto|apply processAck_inv; auto|apply processSend_inv; auto]. }
  cbn [mbind res_bind]. destruct (IH l1 Hl1 He) as (l2 & -> & Hl2 & Hf2). exists l2. split_and!; [done|done|]. destruct Hf1, Hf2. split; congruence.
Qed.

Lemma execute_inv W j now : minv W → job W = Some j → ∃ r l, RetransmissionsManager.execute undefined memory freshTransmissions freshTime top now j (lgc W) = Ok (r, l) ∧
  minv (mkW (mgr W) l None (Some r) (sentMsgs W)).
Proof.
  intros Hi Hj. pose proof Hi as []. destruct (mi_job0 j Hj) as [Hst Hev]. unfold RetransmissionsManager.execute.
  set (l0 := if RetransmissionsManager.j_clearPending j then clearPendingRetransmissions (lgc W) else lgc W).
  assert (H0 : linv (sentIn (sentMsgs W)) l0 ∧ framed (lgc W) l0).
  { unfold l0. destruct (RetransmissionsManager.j_clearPending j); [|done]. split; [|done]. apply heap_inv; [done|set_solver|cbn; lia]. }
  destruct H0 as [Hl0 [Es0 Em0]]. pose proof (setStable_inv _ l0 (j_lastStable j) Hl0) as Hl1.
  assert (E1 : lastStable (setLastStable l0 (j_lastStable j)) = j_lastStable j ∧ maxOutSeqNumbers (setLastStable l0 (j_lastStable j)) = maxOutSeqNumbers l0).
  { unfold setLastStable. destruct (Z.ltb_spec (lastStable l0) (j_lastStable j)); [done|]. split; [lia|done]. }
  destruct (processEvents_inv (sentMsgs W) (j_events j) _ Hl1 Hev) as (l2 & -> & Hl2 & [Es2 Em2]). cbn [mbind res_bind].
  destruct (suggested_inv _ now l2 Hl2) as (out & h & -> & Hl3 & Hout). cbn [mbind res_bind]. do 2 eexists. split; [done|].
  assert (Hs2 : lastStable l2 = j_lastStable j) by (rewrite Es2; apply E1). assert (Hm2 : maxOutSeqNumbers l2 = RetransmissionsManager.maxOutSeqNumbers (mgr W)) by (rewrite Em2; destruct E1; congruence).
  destruct (RetransmissionsManager.bkProcessing (mgr W)) eqn:Hb; [|destruct mi_bk0; congruence]. constructor; cbn; try done.
  - pose proof (li_stable _ _ Hl2). lia.
  - rewrite Hb. right. by split.
  - intros r [= <-]. cbn. split; [lia|]. rewrite <- Hs2, <- Hm2. exact Hout.
Qed.

Lemma rm_exec_inv W o : minv W → pre W o → ∃ W', exec W o = Ok W' ∧ minv W'.
Proof.
  intros Hi Hp. pose proof Hi as []. destruct o as [now rid n ty b|now rid n ty| |n|v|now|]; cbn [exec].
  - unfold RetransmissionsManager.onSend. destruct Hp as [Hr Ht]. pose proof (minv_sent W (rid, ty, n) Hi) as Hi'. rewrite mi_enabled0. cbn [negb orb].
    destruct (RetransmissionsManager.outside (mgr W) n); [cbn; by eexists|].
    destruct (rm_add_inv _ (RetransmissionsManager.mkEvent (if b then RetransmissionsManager.SENT_AND_IGNORE_PREV else RetransmissionsManager.SENT) now rid n ty) Hi') as (r & Hr' & Hi2); [split_and!; try done; intros _; by left|].
    cbn in Hr'. rewrite Hr'. cbn [mbind res_bind]. by eexists.
  - unfold RetransmissionsManager.onAck. destruct Hp as [Hr Ht]. rewrite mi_enabled0. cbn [negb orb]. destruct (RetransmissionsManager.outside (mgr W) n); [eexists; split; [done|by destruct W]|].
    destruct (rm_add_inv W (RetransmissionsManager.mkEvent RetransmissionsManager.ACK now rid n ty) Hi) as (r & -> & Hi2); [by split_and!|]. cbn [mbind res_bind]. by eexists.
  - eexists. split; [done|]. by apply rm_start_inv.
  - eexists. split; [done|]. unfold RetransmissionsManager.setLastStable. rewrite mi_enabled0. cbn [negb].
    assert (Hle : RetransmissionsManager.lastStable (mgr W) <= (if RetransmissionsManager.lastStable (mgr W) <? n then n else RetransmissionsManager.lastStable (mgr W))) by (destruct (Z.ltb_spec (RetransmissionsManager.lastStable (mgr W)) n); lia).
    set (st := if _ <? n then n else _) in *. clearbody st. constructor; cbn; try done; [lia| | |].
    + destruct (_ <=? _); [|done]. unfold RetransmissionsManager.clear_events. by destruct (RetransmissionsManager.setOfEvents (mgr W)).
    + intros j Hj. destruct (mi_job0 j Hj). split; [lia|done].
    + intros r Hr. destruct (mi_result0 r Hr). split; [lia|done].
  - eexists. split; [done|]. unfold RetransmissionsManager.setLastView. rewrite mi_enabled0. cbn [negb]. destruct (_ <? _); [|by destruct W]. constructor; cbn; try done.
    unfold RetransmissionsManager.clear_events. by destruct (RetransmissionsManager.setOfEvents (mgr W)).
  - destruct (job W) as [j|] eqn:Hj; [|by exists W]. destruct (execute_inv W j now Hi Hj) as (r & l & -> & Hi'). cbn [mbind res_bind]. by eexists.
  - destruct (result W) as [r|] eqn:Hr; [|by exists W]. unfold RetransmissionsManager.OnProcessingComplete. rewrite mi_enabled0.
    destruct (RetransmissionsManager.bkProcessing (mgr W)) eqn:Hb; [|by destruct mi_bk0]. cbn [Assert mbind res_bind]. eexists. split; [done|].
    assert (Hj : job W = None) by (by destruct mi_bk0 as [[_ ?]|[? _]]). constructor; cbn; try done.
Qed.

Lemma exec_max W o W' : exec W o = Ok W' → RetransmissionsManager.maxOutSeqNumbers (mgr W') = RetransmissionsManager.maxOutSeqNumbers (mgr W).
Proof.
  assert (Hst : ∀ m, RetransmissionsManager.maxOutSeqNumbers (RetransmissionsManager.tryToStartProcessing m).2 = RetransmissionsManager.maxOutSeqNumbers m).
  { intros m. unfold RetransmissionsManager.tryToStartProcessing. destruct (_ || _); [done|]. by destruct (RetransmissionsManager.setOfEvents m) as [[|]|]. }
  assert (Hadd : ∀ e m r, RetransmissionsManager.add e m = Ok r → RetransmissionsManager.maxOutSeqNumbers r.2 = RetransmissionsManager.maxOutSeqNumbers m).
  { intros e m r. unfold RetransmissionsManager.add. destruct (_ <? _); [by intros [= <-]|]. pose proof (Hst (RetransmissionsManager.set_events m (Some (default [] (RetransmissionsManager.setOfEvents m) ++ [e])))) as Hs.
    destruct (RetransmissionsManager.tryToStartProcessing _) as [[j|] m']; cbn in Hs; [intros [= <-]; done|]. destruct (RetransmissionsManager.setOfEvents m'); [|done]. intros [= <-]. cbn. by destruct (_ <=? _). }
  destruct o; cbn [exec]; intros E.
  - apply bind_ok in E as (r & E1 & E). injection E as <-. unfold RetransmissionsManager.onSend in E1. destruct (_ || _); [by injection E1 as <-|by apply Hadd in E1].
  - apply bind_ok in E as (r & E1 & E). injection E as <-. unfold RetransmissionsManager.onAck in E1. destruct (_ || _); [by injection E1 as <-|by apply Hadd in E1].
  - injection E as <-. apply Hst.
  - injection E as <-. cbn. unfold RetransmissionsManager.setLastStable. by destruct (negb _).
  - injection E as <-. cbn. unfold RetransmissionsManager.setLastView. destruct (negb _); [done|]. by destruct (_ <? _).
  - destruct (job W); [|by injection E as <-]. apply bind_ok in E as ([r l] & _ & E). by injection E as <-.
  - destruct (result W); [|by injection E as <-]. apply bind_ok in E as (m & E1 & E). injection E as <-. unfold RetransmissionsManager.OnProcessingComplete in E1. do 2 apply bind_ok in E1 as (_ & _ & E1). by injection E1 as <-.
Qed.

(** C29: The manager of retransmissions with its background thread, in any order of sent messages, acknowledgements, new stable numbers and views, jobs and
    their results: no assertion fails; the queue of pending retransmissions holds at most 2000 entries and fewer than 500 events wait;
    a job or its result is on the way exactly when the manager says so; and every suggestion is a message that was sent, with a number
    in the window above the stable number the job was started with. *)
Theorem retransmissions_safe maxOut stable : 0 < maxOut → 0 <= stable →
  ∃ m, RetransmissionsManager.ctor true maxOut stable = Ok m ∧ ∀ W, reachable exec pre (mkW m (ctor maxOut) None None []) W →
    (∀ o, pre W o → ∃ W', exec W o = Ok W') ∧
    Z.of_nat (length (pendingRetransmissionsHeap (lgc W))) <= 2000 ∧ Z.of_nat (length (default [] (RetransmissionsManager.setOfEvents (mgr W)))) < 500 ∧
    (RetransmissionsManager.bkProcessing (mgr W) = true ↔ is_Some (job W) ∨ is_Some (result W)) ∧
    (∀ r, result W = Some r → r_lastStable r <= RetransmissionsManager.lastStable (mgr W) ∧ ∀ x, x ∈ r_suggested r →
       (s_replicaId x, s_msgType x, s_msgSeqNum x) ∈ sentMsgs W ∧ r_lastStable r < s_msgSeqNum x <= r_lastStable r + maxOut).
Proof.
  intros Hm Hs. unfold RetransmissionsManager.ctor. rewrite (proj2 (Z.ltb_lt 0 maxOut) Hm). cbn [Assert mbind res_bind]. eexists. split; [done|]. intros W Hr.
  assert (Hi : minv W ∧ RetransmissionsManager.maxOutSeqNumbers (mgr W) = maxOut).
  { revert W Hr. apply (reachable_invariant exec pre _ (fun W => minv W ∧ RetransmissionsManager.maxOutSeqNumbers (mgr W) = maxOut)).
    - split; [|done]. constructor; cbn; done.
    - intros W o [Hi Hmax] Hp. destruct (rm_exec_inv W o Hi Hp) as (W' & He & Hi'). exists W'. split_and!; [done|done|]. rewrite <- Hmax. by eapply exec_max. }
  destruct Hi as [Hi Hmax]. pose proof Hi as []. split_and!.
  - intros o Hp. destruct (rm_exec_inv W o Hi Hp) as (W' & He & _). eauto.
  - apply mi_logic0.
  - apply mi_events0.
  - destruct (RetransmissionsManager.bkProcessing (mgr W)); [split; [intros _; destruct mi_bk0 as [[? _]|[_ ?]]; auto|done]|]. destruct mi_bk0 as [-> ->]. split; [done|]. intros [[? ?]|[? ?]]; done.
  - intros r Hres. destruct (mi_result0 r Hres) as [Hle Hall]. split; [done|]. rewrite Forall_forall in Hall. intros x Hx. destruct (Hall x Hx) as [? ?]. rewrite Hmax in *. done.
Qed.

(** ** How often a message is suggested *)
Inductive LogicOp :=
  | Send (time rid n ty : Z) (ignorePreviousAcks : bool)
  | Ack (time rid n ty : Z)
  | Stable (n : Z)
  | Clear
  | Suggest (now : Z).

(** The logic, and what it has suggested. *)
Definition logicExec (w : t * list RetSuggestion) (o : LogicOp) : res (t * list RetSuggestion) :=
  match o with
  | Send time rid n ty b => l ← processSend undefined memory freshTransmissions freshTime top time rid n ty b w.1; Ok (l, w.2)
  | Ack time rid n ty => l ← processAck undefined memory freshTransmissions freshTime time rid n ty w.1; Ok (l, w.2)
  | Stable n => Ok (setLastStable w.1 n, w.2)
  | Clear => Ok (clearPendingRetransmissions w.1, w.2)
  | Suggest now => '(out, l) ← getSuggestedRetransmissions top now w.1; Ok (l, out ++ w.2)
  end.

Section bound.
Context (rid0 ty0 n0 : Z) (Hrid : id16 rid0) (Hty : id16 ty0) (Hn0 : n0 ≠ 0).
#[local] Abbreviation key s := (itemId s rid0 ty0 n0).
#[local] Abbreviation this := (mkSuggestion rid0 ty0 n0).

(** The message [n0] is sent as such, and no other number that shares its place in the table. *)
Definition logicPre (w : t * list RetSuggestion) (o : LogicOp) : Prop :=
  match o with
  | Send _ rid n ty b => id16 rid ∧ id16 ty ∧ (itemId w.1 rid ty n = key w.1 → n = n0 ∧ b = false)
  | Ack _ rid _ ty => id16 rid ∧ id16 ty
  | _ => True
  end.

#[export] Instance suggestion_eq_dec : EqDecision RetSuggestion.
Proof. solve_decision. Defined.

Definition pendingOf (s : t) : nat := length (filter (fun x => item x = key s) (pendingRetransmissionsHeap s)).
Definition madeOf (out : list RetSuggestion) : nat := length (filter (fun x => x = this) out).

Definition few_suggested (w : t * list RetSuggestion) : Prop :=
  let total := (madeOf w.2 + pendingOf w.1)%nat in
  match trackedItemsMap w.1 !! key w.1 with
  | None => total = 0%nat
  | Some it => (seqNumber it = 0 ∧ total = 0%nat) ∨
      (seqNumber it = n0 ∧ (total <= 3)%nat ∧ (ackOrAbort it = false → Z.of_nat total <= numOfTransmissions it <= 3))
  end.

Lemma count_sub {X} (P : X → Prop) `{!∀ x, Decision (P x)} (l l' : list X) : (∃ k, l ≡ₚ l' ++ k) → (length (filter P l') <= length (filter P l))%nat.
Proof. intros [k ->]. rewrite filter_app, length_app. lia. Qed.

Lemma makeRoom_sub h : ∃ k, h ≡ₚ makeRoom top h ++ k.
Proof.
  unfold makeRoom. generalize (length h) as fuel. intros fuel. revert h. induction fuel as [|fuel IH]; intros h; cbn [makeRoomLoop]; [exists []; by rewrite app_nil_r|].
  destruct (_ <=? _); [|exists []; by rewrite app_nil_r]. destruct (top h) as [[x h']|] eqn:E; [|exists []; by rewrite app_nil_r]. apply top_some in E as [Hp _].
  destruct (IH h') as [k Hk]. exists (k ++ [x]). rewrite Hp, app_assoc, <- Hk. by rewrite Permutation_app_comm.
Qed.

(** An expired entry is a suggestion of the message only if it is for its place. *)
Lemma live_this sent s x : linv sent s → this ∈ live s x → item x = key s ∧ live s x = [this].
Proof.
  intros Hs Hin. unfold live, suggestionOf in *. destruct (trackedItemsMap s !! item x) as [it|] eqn:Hit; [|by apply elem_of_nil in Hin].
  destruct (_ && _); [|by apply elem_of_nil in Hin]. apply list_elem_of_singleton in Hin. rewrite <- Hin. split; [|done]. injection Hin as Er Et En.
  destruct (li_items _ _ Hs _ _ Hit) as (_ & _ & n & -> & [Hz|[Hn _]]); [congruence|]. by rewrite <- Er, <- Et, <- Hn, <- En.
Qed.

Lemma live_count sent s h : linv sent s → (madeOf (h ≫= live s) <= length (filter (fun x => item x = key s) h))%nat.
Proof.
  intros Hs. unfold madeOf. induction h as [|x h IH]; [done|]. rewrite bind_cons, filter_app, length_app.
  destruct (decide (this ∈ live s x)) as [Hin|Hno].
  - destruct (live_this sent s x Hs Hin) as [Hk ->]. rewrite (filter_cons_True _ x) by done. rewrite (filter_cons_True _ this) by done. cbn. lia.
  - rewrite (filter_none _ (live s x)); [|apply Forall_forall; intros y Hy ->; done]. rewrite filter_cons. case_decide; cbn; lia.
Qed.

Lemma filter_split {X} (P Q : X → Prop) `{!∀ x, Decision (P x)} `{!∀ x, Decision (Q x)} (R : X → Prop) `{!∀ x, Decision (R x)} (l : list X) :
  (∀ x, P x → ¬ Q x) → (length (filter R (filter P l)) + length (filter R (filter Q l)) <= length (filter R l))%nat.
Proof.
  intros Hpq. induction l as [|x l IH]; [done|]. rewrite !filter_cons. specialize (Hpq x).
  destruct (decide (P x)), (decide (Q x)); rewrite ?filter_cons; destruct (decide (R x)); cbn; naive_solver lia.
Qed.

Lemma suggest_few sent w now out h : linv sent w.1 → few_suggested w → getSuggestedRetransmissions top now w.1 = Ok (out, set_heap w.1 h) →
  out ≡ₚ filter (fun x => expirationTime x <= now) (pendingRetransmissionsHeap w.1) ≫= live w.1 → h ≡ₚ filter (fun x => now < expirationTime x) (pendingRetransmissionsHeap w.1) →
  few_suggested (set_heap w.1 h, out ++ w.2).
Proof.
  intros Hs Hf _ Ho Hh. unfold few_suggested in *. cbn [fst snd] in *. change (key (set_heap w.1 h)) with (key w.1). change (trackedItemsMap (set_heap w.1 h)) with (trackedItemsMap w.1).
  assert (Hle : (madeOf (out ++ w.2) + pendingOf (set_heap w.1 h) <= madeOf w.2 + pendingOf w.1)%nat).
  { unfold madeOf at 1. rewrite filter_app, length_app. fold (madeOf w.2). fold (madeOf out). unfold pendingOf. cbn [pendingRetransmissionsHeap set_heap].
    change (key (set_heap w.1 h)) with (key w.1). rewrite Hh. assert (Hm : (madeOf out <= length (filter (fun x => item x = key w.1) (filter (fun x => (expirationTime x <= now)%Z) (pendingRetransmissionsHeap w.1))))%nat).
    { unfold madeOf. rewrite Ho. by eapply live_count. }
    pose proof (filter_split (fun x => expirationTime x <= now) (fun x => now < expirationTime x) (fun x => item x = key w.1) (pendingRetransmissionsHeap w.1) ltac:(cbv beta; intros; lia)). lia. }
  destruct (trackedItemsMap w.1 !! key w.1) as [it|]; [|lia]. destruct Hf as [[? ?]|(? & ? & Hnum)]; [left; split; [done|lia]|right]. split_and!; [done|lia|]. intros Ha. specialize (Hnum Ha). lia.
Qed.

Lemma few_le s s' out : few_suggested (s, out) → trackedItemsMap s' !! key s' = trackedItemsMap s !! key s → (pendingOf s' <= pendingOf s)%nat → few_suggested (s', out).
Proof.
  unfold few_suggested. cbn [fst snd]. intros Hf -> Hle. destruct (trackedItemsMap s !! key s) as [it|]; [|lia].
  destruct Hf as [[? ?]|(? & ? & Hnum)]; [left; split; [done|lia]|right]. split_and!; [done|lia|]. intros Ha. specialize (Hnum Ha). lia.
Qed.

Lemma tracked_few s out rid ty n id it s' : few_suggested (s, out) → getTrackedItem freshTransmissions freshTime s rid ty n = (id, it, s') →
  id = itemId s rid ty n ∧ few_suggested (s', out) ∧ trackedItemsMap s' !! id = Some it ∧ ∃ m, s' = set_items s m.
Proof.
  unfold getTrackedItem. intros Hf E. destruct (trackedItemsMap s !! itemId s rid ty n) as [it0|] eqn:Hit.
  - injection E as <- <- <-. split_and!; try done. exists (trackedItemsMap s). by destruct s.
  - injection E as <- <- <-. split_and!; [done| |cbn; by rewrite lookup_insert_eq|by eexists]. destruct (decide (itemId s rid ty n = key s)) as [Heq|Hne].
    + unfold few_suggested in *. cbn [fst snd] in *. cbn [trackedItemsMap set_items]. change (key (set_items s _)) with (key s). rewrite Heq in *. rewrite lookup_insert_eq, Hit in *. by left.
    + eapply few_le; [exact Hf| |done]. cbn. by rewrite lookup_insert_ne.
Qed.

(** The item that is sent again. *)
Lemma sendItem_few s out time it it' : few_suggested (s, out) → trackedItemsMap s !! key s = Some it → sendItem it time n0 false = Some it' →
  seqNumber it' = n0 ∧ Z.of_nat (madeOf out + pendingOf s) <= numOfTransmissions it' <= 3.
Proof.
  unfold few_suggested, sendItem. cbn [fst snd]. intros Hf Hit. rewrite Hit in Hf. rewrite orb_false_r. destruct (Z.eqb_spec (seqNumber it) n0) as [He|Hne]; cbn [negb].
  - destruct (ackOrAbort it) eqn:Ha; [done|]. intros [= <-]. split; [done|]. destruct Hf as [[? ?]|(_ & _ & Hnum)]; [congruence|]. by apply Hnum.
  - intros [= <-]. cbn. split; [done|]. destruct Hf as [[_ ->]|[? _]]; [lia|congruence].
Qed.

Lemma room_few s : (length (filter (fun x => item x = key s) (if (2000 <=? Z.of_nat (length (pendingRetransmissionsHeap s)))%Z then makeRoom top (pendingRetransmissionsHeap s) else pendingRetransmissionsHeap s)) <= pendingOf s)%nat.
Proof. unfold pendingOf. destruct (_ <=? _); [|done]. apply count_sub, makeRoom_sub. Qed.

Lemma pendingOf_push s e id h : pendingOf (set_heap s (mkPending e id :: h)) = ((if decide (id = key s) then 1 else 0) + length (filter (fun x => item x = key s) h))%nat.
Proof. unfold pendingOf. cbn [pendingRetransmissionsHeap set_heap]. change (key (set_heap s _)) with (key s). rewrite filter_cons. cbn [item]. by case_decide. Qed.

Lemma send_few s out time rid n ty b l : few_suggested (s, out) → logicPre (s, out) (Send time rid n ty b) →
  processSend undefined memory freshTransmissions freshTime top time rid n ty b s = Ok l → few_suggested (l, out).
Proof.
  intros Hf (Hr & Ht & Hkey). cbn [fst] in Hkey. unfold processSend. destruct (outside s n); [by intros [= <-]|].
  destruct (getTrackedItem freshTransmissions freshTime s rid ty n) as [[id it] s1] eqn:Eg. destruct (tracked_few s out rid ty n id it s1 Hf Eg) as (Hid & Hf1 & Hit & m & Hm).
  assert (Hk : key s1 = key s) by (by rewrite Hm). destruct (sendItem it time n b) as [it'|] eqn:Es; [|by intros [= <-]].
  destruct (decide (id = key s)) as [Heq|Hne].
  - destruct (Hkey ltac:(congruence)) as [-> ->]. rewrite Heq, <- Hk in Hit. destruct (sendItem_few s1 out time it it' Hf1 Hit Es) as [Hn Hnum].
    rewrite (u16_small (numOfTransmissions it' + 1)) by lia. rewrite Heq, <- Hk.
    assert (Habort : ∀ m', few_suggested (set_replicas (put_item s1 (key s1) (transmitted it' true)) m', out)).
    { intros m'. unfold few_suggested. cbn. rewrite lookup_insert_eq. right. split_and!; [done| |done]. change ((madeOf out + pendingOf s1 <= 3)%nat). lia. }
    unfold maxTransmissionsPerMsg. destruct (Z.leb_spec 4 (numOfTransmissions it' + 1)) as [Hbig|Hsmall].
    + destruct (_ <? _).
      * intros E. unfold addResponse in E. apply bind_ok in E as (r & _ & E). injection E as <-. apply Habort.
      * intros [= <-]. specialize (Habort (replicasMap s1)). exact Habort.
    + destruct (_ <=? _); [intros [= <-]; exact (Habort _)|]. intros [= <-]. pose proof (room_few s1) as Hroom. unfold few_suggested. cbn [fst snd]. rewrite pendingOf_push, decide_True by done.
      cbn [trackedItemsMap set_heap put_item set_items set_replicas]. change (key (set_heap _ _)) with (key s1). rewrite lookup_insert_eq. right. unfold transmitted. cbn [seqNumber ackOrAbort numOfTransmissions].
      rewrite (u16_small (numOfTransmissions it' + 1)) by lia. unfold maxNumberOfConcurrentManagedTransmissions. cbn [pendingRetransmissionsHeap set_replicas]. change (key (put_item _ _ _)) with (key s1).
      split_and!; [done|lia|intros _; lia].
  - assert (Hother : ∀ it2, few_suggested (put_item s1 id it2, out)). { intros it2. eapply few_le; [exact Hf1| |done]. cbn. rewrite lookup_insert_ne; [done|]. change (key (put_item s1 id it2)) with (key s1). congruence. }
    destruct (_ <=? _).
    + destruct (_ <? _); [|intros [= <-]; apply Hother]. intros E. unfold addResponse in E. apply bind_ok in E as (r & _ & E). injection E as <-. exact (Hother _).
    + destruct (_ <=? _); [intros [= <-]; exact (Hother _)|]. intros [= <-]. eapply few_le; [exact (Hother (transmitted it' false))|done|].
      rewrite pendingOf_push, decide_False; [exact (room_few s1)|]. change (key (put_item _ _ _)) with (key s1). congruence.
Qed.

Lemma ack_few s out time rid n ty l : few_suggested (s, out) → processAck undefined memory freshTransmissions freshTime time rid n ty s = Ok l → few_suggested (l, out).
Proof.
  intros Hf. unfold processAck. destruct (outside s n); [by intros [= <-]|].
  destruct (getTrackedItem freshTransmissions freshTime s rid ty n) as [[id it] s1] eqn:Eg. destruct (tracked_few s out rid ty n id it s1 Hf Eg) as (Hid & Hf1 & Hit & m & Hm).
  destruct (_ && _); [|by intros [= <-]]. intros E. unfold addResponse in E. apply bind_ok in E as (r & _ & E). injection E as <-. set (it' := mkItem _ _ _ _ _ _). set (rs := <[_ := r]> _).
  destruct (decide (id = key s1)) as [Heq|Hne].
  - unfold few_suggested in *. cbn [fst snd] in *. change (pendingOf (set_replicas (put_item s1 id it') rs)) with (pendingOf s1). rewrite Heq in *. rewrite Hit in Hf1.
    cbn [trackedItemsMap set_replicas put_item set_items]. change (key (set_replicas _ _)) with (key s1). rewrite lookup_insert_eq. cbn [it' seqNumber ackOrAbort]. naive_solver.
  - eapply few_le; [exact Hf1| |done]. cbn. rewrite lookup_insert_ne; [done|]. change (key (set_replicas (put_item s1 id it') rs)) with (key s1). congruence.
Qed.

Definition anySent (rid ty n : Z) : Prop := True.

Lemma logicExec_inv w o : linv anySent w.1 ∧ few_suggested w → logicPre w o → ∃ w', logicExec w o = Ok w' ∧ linv anySent w'.1 ∧ few_suggested w'.
Proof.
  destruct w as [s out]. cbn [fst]. intros [Hs Hf] Hp. destruct o as [time rid n ty b|time rid n ty|n| |now]; cbn [logicExec fst snd].
  - pose proof Hp as (Hr & Ht & _). destruct (processSend_inv anySent time rid n ty b s Hs Hr Ht I) as (l & He & Hl & _). rewrite He. cbn [mbind res_bind]. eexists. split_and!; [done|done|by eapply send_few].
  - destruct Hp as [Hr Ht]. destruct (processAck_inv anySent time rid n ty s Hs Hr Ht) as (l & He & Hl & _). rewrite He. cbn [mbind res_bind]. eexists. split_and!; [done|done|by eapply ack_few].
  - eexists. split_and!; [done|by apply setStable_inv|]. cbn. unfold setLastStable. destruct (_ <? _); [|done]. by eapply few_le.
  - eexists. split_and!; [done|apply heap_inv; [done|set_solver|cbn; lia]|]. eapply few_le; [exact Hf|done|]. cbn. lia.
  - destruct (getSuggested_post now s (li_heap _ _ Hs)) as (new & h & He & Hn & Hh). rewrite He. cbn [mbind res_bind]. eexists. split_and!; [done| |].
    + cbn [fst]. apply heap_inv; [done| |rewrite Hh; apply length_filter]. intros x Hx. rewrite Hh in Hx. by apply list_elem_of_filter in Hx as [_ ?].
    + by apply (suggest_few anySent (s, out) now new h).
Qed.

(** C30: A message that is sent to a replica, possibly many times, and whose place in the table is not used for another number, is suggested for
    retransmission at most three times, whatever else is sent, acknowledged, made stable or cleared, as long as it is not sent with the
    request to ignore earlier acknowledgements; and no step of the logic fails. *)
Theorem retransmissions_bounded maxOut w : reachable logicExec logicPre (ctor maxOut, []) w →
  (∀ o, logicPre w o → ∃ w', logicExec w o = Ok w') ∧ Z.of_nat (length (filter (fun x => x = mkSuggestion rid0 ty0 n0) w.2)) <= maxTransmissionsPerMsg - 1.
Proof.
  intros Hr. assert (Hi : linv anySent w.1 ∧ few_suggested w).
  { revert w Hr. apply (reachable_invariant logicExec logicPre _ (fun w => linv anySent w.1 ∧ few_suggested w)); [|apply logicExec_inv]. split; [by constructor|done]. }
  split; [intros o Ho; destruct (logicExec_inv w o Hi Ho) as (w' & He & _); eauto|].
  destruct Hi as [_ Hf]. unfold few_suggested, madeOf in Hf. unfold maxTransmissionsPerMsg. destruct (trackedItemsMap w.1 !! key w.1) as [it|]; [destruct Hf as [[_ ?]|(_ & ? & _)]|]; lia.
Qed.
End bound.
End logic.

(** ** An example *)

(** A queue that gives the least element of a list. *)
Fixpoint takeLeast (q : list PendingRetran) : option (PendingRetran * list PendingRetran) :=
  match q with
  | [] => None
  | x :: q1 =>
      match takeLeast q1 with
      | Some (y, q2) => if expirationTime y <? expirationTime x then Some (y, x :: q2) else Some (x, q1)
      | None => Some (x, [])
      end
  end.

#[export] Instance takeLeast_queue : PriorityQueue takeLeast.
Proof.
  split.
  - intros [|x q]; [done|]. cbn. destruct (takeLeast q) as [[y q2]|]; [by destruct (_ <? _)|done].
  - intros q. induction q as [|x q1 IH]; intros y q'; [done|]. cbn. destruct (takeLeast q1) as [[z q2]|] eqn:E.
    + destruct (IH z q2 eq_refl) as [Hp Hmin]. destruct (Z.ltb_spec (expirationTime z) (expirationTime x)) as [Hlt|Hge]; intros [= <- <-].
      * split; [rewrite Hp; apply Permutation_swap|constructor; [lia|done]].
      * split; [done|]. rewrite Hp. constructor; [done|]. eapply Forall_impl; [exact Hmin|]. cbn. lia.
    + intros [= <- <-]. assert (q1 = []) as -> by (destruct q1 as [|u q3]; [done|]; cbn in E; destruct (takeLeast q3) as [[? ?]|]; [by destruct (_ <? _)|done]). split; [done|constructor].
Qed.

Definition noMemory : RollingAvgAndVar.t := RollingAvgAndVar.mk 0 (Float.double 0) (Float.double 0) (Float.double 0) (Float.double 0).
#[local] Abbreviation mExec := (exec (fun _ => 0) noMemory 0 0 takeLeast).
#[local] Abbreviation lExec := (logicExec (fun _ => 0) noMemory 0 0 takeLeast).

(** A message without acknowledgement is suggested; one with acknowledgement is not. *)
Definition ex_ops : list Op := [OnSend 1000 2 7 101 false; OnSend 1500 3 7 101 false; OnAck 2000 3 7 101; TryToStartProcessing; JobRuns 200000].
Definition ex_start : world := mkW (RetransmissionsManager.mk true 300 0 0 false None false) (ctor 300) None None [].
Definition ex_world : world := match run mExec ex_start ex_ops with Ok W => W | Err _ => ex_start end.

Lemma ex_world_reachable : reachable mExec pre ex_start ex_world.
Proof. apply (run_reachable _ _ _ ex_ops); [|vm_compute; reflexivity]. vm_compute. repeat split; discriminate. Qed.

Lemma retransmissions_safe_witness : ∃ r, result ex_world = Some r ∧ r_suggested r = [mkSuggestion 2 101 7] ∧ (2, 101, 7) ∈ sentMsgs ex_world.
Proof.
  destruct (retransmissions_safe (fun _ => 0) noMemory 0 0 takeLeast 300 0 ltac:(lia) ltac:(lia)) as (m & Hm & Hall). vm_compute in Hm. injection Hm as <-.
  destruct (Hall ex_world ex_world_reachable) as (_ & _ & _ & _ & Hres).
  assert (Hr : ∃ r, result ex_world = Some r ∧ r_suggested r = [mkSuggestion 2 101 7]) by (eexists; split; vm_compute; reflexivity). destruct Hr as (r & Hr & Hs).
  exists r. split; [exact Hr|]. split; [exact Hs|]. destruct (Hres r Hr) as [_ Hx]. apply (Hx (mkSuggestion 2 101 7)). rewrite Hs. left.
Defined.

(** A message that is sent whenever it is suggested. *)
Definition ex_logic : list LogicOp := concat (replicate 6 [Send 1000 2 7 101 false; Suggest 300000]).
Definition ex_logic_end : t * list RetSuggestion := match run lExec (ctor 300, []) ex_logic with Ok w => w | Err _ => (ctor 300, []) end.

Lemma ex_logic_reachable : reachable lExec (logicPre 2 101 7) (ctor 300, []) ex_logic_end.
Proof. apply (run_reachable _ _ _ ex_logic); [|vm_compute; reflexivity]. vm_compute. repeat split; discriminate. Qed.

Lemma retransmissions_bounded_witness : length ex_logic_end.2 = 3%nat ∧ Z.of_nat (length (filter (fun x => x = mkSuggestion 2 101 7) ex_logic_end.2)) <= 3.
Proof.
  split; [vm_compute; reflexivity|].
  apply (retransmissions_bounded (fun _ => 0) noMemory 0 0 takeLeast 2 101 7 ltac:(split; lia) ltac:(split; lia) ltac:(lia) 300 ex_logic_end ex_logic_reachable).
Defined.
End RetransmissionsProps.
