(* ===== verification/DynamicUpperLimit.v ===== *)
(** * DynamicUpperLimitWithSimpleFilter (bftengine/src/bftengine/DynamicUpperLimitWithSimpleFilter2.hpp)

    An upper limit that follows the average and the deviation of observed values, here with
    [T = int64_t] as the replica uses it for the duration of rounds.  The conversion of a
    [double] that is not an [int64_t] is the argument [undefined]. *)
From Stdlib Require Import SpecFloat.
From S2P Require Import Prelude RollingAvgAndVar.

Module DynamicUpperLimit.
#[local] Abbreviation add64 := (SFadd 53 1024).
#[local] Abbreviation mul64 := (SFmul 53 1024).
#[local] Abbreviation div64 := (SFdiv 53 1024).

Record t := mk {
  numOfS : Z;
  maxLimit : Z;
  minLimit : Z;
  evalPeriod : Z;
  resetPoint : Z;
  maxIncreasing : spec_float;
  maxDecreasing : spec_float;
  avgAndVar : RollingAvgAndVar.t;
  currentUpperLimit : Z;
}.

Definition set_avg (s : t) (a : RollingAvgAndVar.t) (limit : Z) : t :=
  mk (numOfS s) (maxLimit s) (minLimit s) (evalPeriod s) (resetPoint s) (maxIncreasing s) (maxDecreasing s) a limit.

Definition ctor (memory : RollingAvgAndVar.t) (initialUpperLimit s maxUpperLimit minUpperLimit period reset : Z) (increasing decreasing : spec_float) : t :=
  mk s maxUpperLimit minUpperLimit period reset increasing decreasing (RollingAvgAndVar.ctor memory) initialUpperLimit.

Definition toInt64 (undefined : spec_float → Z) (x : spec_float) : Z :=
  match Float.truncate x with
  | Some v => if (- 2 ^ 63 <=? v) && (v <? 2 ^ 63) then v else undefined x
  | None => undefined x
  end.

Section defs.
Context (undefined : spec_float → Z).
#[local] Abbreviation toInt := (toInt64 undefined).

Definition maxVal (s : t) : Z := Z.min (maxLimit s) (toInt (mul64 (Float.double (currentUpperLimit s)) (maxIncreasing s))).
Definition minVal (s : t) : Z := Z.max (minLimit s) (toInt (div64 (Float.double (currentUpperLimit s)) (maxDecreasing s))).

Definition newLimit (s : t) (a : RollingAvgAndVar.t) : spec_float :=
  let avg := RollingAvgAndVar.avg a in
  let var := RollingAvgAndVar.var a in
  let sd := if SFltb (Float.double 0) var then SFsqrt 53 1024 var else Float.double 0 in
  add64 avg (mul64 (Float.double (numOfS s)) sd).

Definition numOfElements (a : RollingAvgAndVar.t) : Z := swrap 32 (RollingAvgAndVar.k a).

Definition add (x : Z) (s : t) : t :=
  let x := if maxLimit s <? x then maxLimit s else if x <? minLimit s then minLimit s else x in
  let a := RollingAvgAndVar.add (avgAndVar s) (Float.double x) in
  if negb (Z.rem (numOfElements a) (evalPeriod s) =? 0) then set_avg s a (currentUpperLimit s)
  else
    let new := toInt (newLimit s a) in
    let limit := if maxVal s <? new then maxVal s else if new <? minVal s then minVal s else new in
    set_avg s (if resetPoint s <=? numOfElements a then RollingAvgAndVar.reset a else a) limit.
End defs.

Definition upperLimit (s : t) : Z := currentUpperLimit s.

(** The limit of the duration of rounds, as the constructor of [ReplicaImp] makes it. *)
Definition limitOfRounds (memory : RollingAvgAndVar.t) : t :=
  ctor memory 400 2 2500 70 32 1000 (Float.double 2) (Float.double 2).

(** ** Bounds *)
Record inv (s : t) : Prop := {
  i_max : maxLimit s = 2500;
  i_min : minLimit s = 70;
  i_inc : maxIncreasing s = Float.double 2;
  i_dec : maxDecreasing s = Float.double 2;
  i_cur : 70 <= currentUpperLimit s <= 2500;
}.

(** Doubling and halving are exact on the limits that occur. *)
Definition factor_exact (c : Z) : bool :=
  match Float.truncate (mul64 (Float.double c) (Float.double 2)), Float.truncate (div64 (Float.double c) (Float.double 2)) with
  | Some a, Some b => (a =? 2 * c) && (b =? c / 2)
  | _, _ => false
  end.
Lemma factors_exact : forallb factor_exact (seqZ 70 2431) = true.
Proof. vm_compute. reflexivity. Qed.

Lemma limits_eq undefined s : inv s → maxVal undefined s = Z.min 2500 (2 * currentUpperLimit s) ∧ minVal undefined s = Z.max 70 (currentUpperLimit s / 2).
Proof.
  intros [Hmax Hmin Hi Hd Hc]. unfold maxVal, minVal. rewrite Hmax, Hmin, Hi, Hd. pose proof factors_exact as Hf. rewrite forallb_forall in Hf.
  specialize (Hf (currentUpperLimit s)). unfold factor_exact, toInt64 in *. destruct (Float.truncate (mul64 _ _)) as [a|], (Float.truncate (div64 _ _)) as [b|];
    try (discriminate Hf; apply list_elem_of_In, elem_of_seqZ; lia).
  apply andb_true_iff in Hf as [->%Z.eqb_eq ->%Z.eqb_eq]; [|apply list_elem_of_In, elem_of_seqZ; lia].
  pose proof (Z.div_le_upper_bound (currentUpperLimit s) 2 2500). pose proof (Z.div_pos (currentUpperLimit s) 2).
  rewrite !(proj2 (Z.leb_le _ _)), !(proj2 (Z.ltb_lt _ _)) by lia. done.
Qed.

Lemma limit_add_inv undefined x s : inv s → inv (add undefined x s) ∧
  Z.max 70 (currentUpperLimit s / 2) <= currentUpperLimit (add undefined x s) <= Z.min 2500 (2 * currentUpperLimit s).
Proof.
  intros Hs. destruct (limits_eq undefined s Hs) as [Emax Emin]. pose proof Hs as []. assert (currentUpperLimit s / 2 <= currentUpperLimit s) by (apply Z.div_le_upper_bound; lia).
  unfold add. destruct (negb _); [split; [by split|cbn; lia]|]. rewrite Emax, Emin.
  set (new := toInt64 _ _). clearbody new. destruct (Z.ltb_spec (Z.min 2500 (2 * currentUpperLimit s)) new); [|destruct (Z.ltb_spec new (Z.max 70 (currentUpperLimit s / 2)))].
  all: split; [split; cbn; [done..|lia]|cbn; lia].
Qed.

(** Whatever durations are observed, and whatever the conversions of doubles give that are not integers, the limit of the rounds stays
    between its bounds and changes by at most the factor two with each value. *)
Theorem limitOfRounds_bounds undefined memory xs x : let s := foldl (fun s x => add undefined x s) (limitOfRounds memory) xs in
  70 <= upperLimit s <= 2500 ∧ upperLimit s / 2 <= upperLimit (add undefined x s) <= 2 * upperLimit s.
Proof.
  intros s. assert (inv s) as Hs.
  { unfold s. clear. induction xs as [|y xs IH] using rev_ind; [by split|]. rewrite foldl_app. by apply limit_add_inv. }
  unfold upperLimit. destruct (limit_add_inv undefined x s Hs) as [_ ?]. pose proof (i_cur s Hs). lia.
Qed.
End DynamicUpperLimit.
