(* ===== verification/ReplicaStatusMsg.v ===== *)
(** * ReplicaStatusMsg (bftengine/src/bftengine/ReplicaStatusMsg.cpp, .hpp)

    The status that a replica reports to its peers: its view, the stable and the last
    executed number, flags and at most one list of bits: the PrePrepare messages it has in
    the active window, the view-change messages or the PrePrepare messages it misses to
    enter a view.  Sums of sequence numbers do not wrap in the model. *)
From S2P Require Import Prelude SysConsts Digest ReplicasInfo Bitmap MsgsCertificate MessageBase Checkpoint SignedShareMsgs.

#[local] Abbreviation body := MessageBase.msgBody_.

Module ReplicaStatusMsg.
Definition sizeof_ReplicaStatusMsgHeader : Z := 27.

Definition powersOf2 (i : Z) : Z := nth (Z.to_nat i) [1; 2; 4; 8; 16; 32; 64; 128] 0.

Definition calcSizeOfReplicaStatusMsg (listOfPP listOfMissingVC listOfMissingPP : bool) : Z :=
  if listOfPP then sizeof_ReplicaStatusMsgHeader + (kWorkWindowSize + 7) / 8
  else if listOfMissingVC then sizeof_ReplicaStatusMsgHeader + (MaxNumberOfReplicas + 7) / 8
  else if listOfMissingPP then sizeof_ReplicaStatusMsgHeader + (kWorkWindowSize + 7) / 8
  else sizeof_ReplicaStatusMsgHeader.

Definition getViewNumber (m : MessageBase.t) : res Z := get_int 8 (body m) 2.
Definition getLastStableSeqNum (m : MessageBase.t) : res Z := get_int 8 (body m) 10.
Definition getLastExecutedSeqNum (m : MessageBase.t) : res Z := get_int 8 (body m) 18.
Definition flags (m : MessageBase.t) : res Z := get_uint 1 (body m) 26.

Definition flag (i : Z) (m : MessageBase.t) : res bool := f ← flags m; Ok (negb (Z.land f (powersOf2 i) =? 0)).
Definition currentViewIsActive : MessageBase.t → res bool := flag 0.
Definition currentViewHasNewViewMessage : MessageBase.t → res bool := flag 1.
Definition hasListOfPrePrepareMsgsInActiveWindow : MessageBase.t → res bool := flag 2.
Definition hasListOfMissingViewChangeMsgForViewChange : MessageBase.t → res bool := flag 3.
Definition hasListOfMissingPrePrepareMsgForViewChange : MessageBase.t → res bool := flag 4.

(** [if (on) b()->flags |= powersOf2[i]] *)
Definition orFlag (on : bool) (i : Z) (m : MessageBase.t) : res MessageBase.t :=
  if on then f ← flags m; b ← put_int 1 (body m) 26 (Z.lor f (powersOf2 i)); Ok (SignedShareMsgs.set_body m b) else Ok m.

Definition countTrue (bs : list bool) : Z := Z.of_nat (length (filter (fun b => b = true) bs)).

Definition ctor (senderId viewNumber lastStableSeqNum lastExecutedSeqNum : Z)
    (viewIsActive hasNewChangeMsg listOfPPInActiveWindow listOfMissingVCForVC listOfMissingPPForVC : bool) : res MessageBase.t :=
  m ← MessageBase.ctor senderId MC_ReplicaStatus (calcSizeOfReplicaStatusMsg listOfPPInActiveWindow listOfMissingVCForVC listOfMissingPPForVC);
  assert! (lastStableSeqNum <=? lastExecutedSeqNum) ;;
  assert! (Z.rem lastStableSeqNum checkpointWindowSize =? 0) ;;
  assert! (negb viewIsActive || hasNewChangeMsg) ;;
  assert! (negb viewIsActive || negb listOfMissingVCForVC) ;;
  assert! (negb viewIsActive || negb listOfMissingPPForVC) ;;
  assert! (viewIsActive || negb listOfPPInActiveWindow) ;;
  assert! (countTrue [listOfPPInActiveWindow; listOfMissingVCForVC; listOfMissingPPForVC] <=? 1) ;;
  b1 ← put_int 8 (body m) 2 viewNumber;
  b2 ← put_int 8 b1 10 lastStableSeqNum;
  b3 ← put_int 8 b2 18 lastExecutedSeqNum;
  b4 ← put_int 1 b3 26 0;
  m ← orFlag viewIsActive 0 (SignedShareMsgs.set_body m b4);
  m ← orFlag hasNewChangeMsg 1 m;
  m ← (if listOfPPInActiveWindow then orFlag true 2 m
       else if listOfMissingVCForVC then orFlag true 3 m
       else orFlag listOfMissingPPForVC 4 m);
  if sizeof_ReplicaStatusMsgHeader <? MessageBase.msgSize_ m then
    b ← put_bytes (body m) sizeof_ReplicaStatusMsgHeader (replicate (Z.to_nat (MessageBase.msgSize_ m - sizeof_ReplicaStatusMsgHeader)) 0);
    Ok (SignedShareMsgs.set_body m b)
  else Ok m.

Definition ToActualMsgType (repInfo : ReplicasInfo.t) (inMsg : MessageBase.t) : res bool :=
  ty ← MessageBase.type inMsg;
  assert! (ty =? code_of MC_ReplicaStatus) ;;
  if MessageBase.msgSize_ inMsg <? sizeof_ReplicaStatusMsgHeader then Ok false
  else if MessageBase.sender_ inMsg =? ReplicasInfo._myId repInfo then Ok false
  else if negb (ReplicasInfo.isIdOfReplica repInfo (MessageBase.sender_ inMsg)) then Ok false
  else
    stable ← getLastStableSeqNum inMsg;
    if negb (Z.rem stable checkpointWindowSize =? 0) then Ok false
    else
      executed ← getLastExecutedSeqNum inMsg;
      if executed <? stable then Ok false
      else
        viewIsActive ← currentViewIsActive inMsg;
        hasNewChangeMsg ← currentViewHasNewViewMessage inMsg;
        listOfPP ← hasListOfPrePrepareMsgsInActiveWindow inMsg;
        listOfMissingVC ← hasListOfMissingViewChangeMsgForViewChange inMsg;
        listOfMissingPP ← hasListOfMissingPrePrepareMsgForViewChange inMsg;
        if negb (negb viewIsActive || hasNewChangeMsg) then Ok false
        else if negb (negb viewIsActive || negb listOfMissingVC) then Ok false
        else if negb (negb viewIsActive || negb listOfMissingPP) then Ok false
        else if negb (viewIsActive || negb listOfPP) then Ok false
        else if 2 <=? countTrue [listOfPP; listOfMissingVC; listOfMissingPP] then Ok false
        else if negb (MessageBase.msgSize_ inMsg =? calcSizeOfReplicaStatusMsg listOfPP listOfMissingVC listOfMissingPP) then Ok false
        else Ok true.

(** ** The lists *)

(** The index of a sequence number in a list. *)
Definition windowIndex (m : MessageBase.t) (seqNum : Z) : res Z :=
  stable ← getLastStableSeqNum m;
  assert! (stable <? seqNum) ;;
  assert! (seqNum <=? stable + kWorkWindowSize) ;;
  Ok (seqNum - stable - 1).

Definition readBit (m : MessageBase.t) (index : Z) : res bool :=
  x ← get_uint 1 (body m) (sizeof_ReplicaStatusMsgHeader + index / 8);
  Ok (negb (Z.land x (powersOf2 (index mod 8)) =? 0)).

Definition writeBit (m : MessageBase.t) (index : Z) : res MessageBase.t :=
  x ← get_uint 1 (body m) (sizeof_ReplicaStatusMsgHeader + index / 8);
  b ← put_int 1 (body m) (sizeof_ReplicaStatusMsgHeader + index / 8) (Z.lor x (powersOf2 (index mod 8)));
  Ok (SignedShareMsgs.set_body m b).

Definition isPrePrepareInActiveWindow (m : MessageBase.t) (seqNum : Z) : res bool :=
  h ← hasListOfPrePrepareMsgsInActiveWindow m; assert! h ;;
  i ← windowIndex m seqNum; readBit m i.
Definition isMissingViewChangeMsgForViewChange (m : MessageBase.t) (replicaId : Z) : res bool :=
  h ← hasListOfMissingViewChangeMsgForViewChange m; assert! h ;;
  assert! (replicaId <? MaxNumberOfReplicas) ;;
  readBit m replicaId.
Definition isMissingPrePrepareMsgForViewChange (m : MessageBase.t) (seqNum : Z) : res bool :=
  h ← hasListOfMissingPrePrepareMsgForViewChange m; assert! h ;;
  i ← windowIndex m seqNum; readBit m i.

Definition setPrePrepareInActiveWindow (m : MessageBase.t) (seqNum : Z) : res MessageBase.t :=
  h ← hasListOfPrePrepareMsgsInActiveWindow m; assert! h ;;
  i ← windowIndex m seqNum; writeBit m i.
Definition setMissingViewChangeMsgForViewChange (m : MessageBase.t) (replicaId : Z) : res MessageBase.t :=
  h ← hasListOfMissingViewChangeMsgForViewChange m; assert! h ;;
  assert! (replicaId <? MaxNumberOfReplicas) ;;
  writeBit m replicaId.
Definition setMissingPrePrepareMsgForViewChange (m : MessageBase.t) (seqNum : Z) : res MessageBase.t :=
  h ← hasListOfMissingPrePrepareMsgForViewChange m; assert! h ;;
  i ← windowIndex m seqNum; writeBit m i.

(** ** Layout *)
Inductive ListKind := NoList | PrePreparesInWindow | MissingViewChanges | MissingPrePrepares.
#[export] Instance ListKind_eq_dec : EqDecision ListKind.
Proof. solve_decision. Defined.

(** What a message says besides its list. *)
Record Status := mkStatus { s_sender : Z; s_view : Z; s_stable : Z; s_executed : Z; s_active : bool; s_newView : bool; s_kind : ListKind }.

(** The bits of a list. *)
Definition listBits (k : ListKind) : Z :=
  match k with NoList => 0 | MissingViewChanges => MaxNumberOfReplicas | _ => kWorkWindowSize end.

Record legal (st : Status) : Prop := {
  lg_view : - 2 ^ 63 <= s_view st < 2 ^ 63;
  lg_stable : - 2 ^ 63 <= s_stable st < 2 ^ 63;
  lg_executed : - 2 ^ 63 <= s_executed st < 2 ^ 63;
  lg_order : s_stable st <= s_executed st;
  lg_rem : Z.rem (s_stable st) checkpointWindowSize = 0;
  lg_newView : s_active st = true → s_newView st = true;
  lg_kind : if s_active st then s_kind st = NoList ∨ s_kind st = PrePreparesInWindow else s_kind st ≠ PrePreparesInWindow;
}.

Definition is_kind (k k' : ListKind) : bool := bool_decide (k = k').
Definition has (st : Status) (k : ListKind) : bool := is_kind (s_kind st) k.
Definition flagsOf (st : Status) : Z :=
  Z.b2z (s_active st) + 2 * Z.b2z (s_newView st) + 4 * Z.b2z (is_kind (s_kind st) PrePreparesInWindow)
  + 8 * Z.b2z (is_kind (s_kind st) MissingViewChanges) + 16 * Z.b2z (is_kind (s_kind st) MissingPrePrepares).

Definition headerWith (st : Status) (f : Z) : list Z :=
  le_enc 2 (code_of MC_ReplicaStatus) ++ le_enc 8 (s_view st) ++ le_enc 8 (s_stable st) ++ le_enc 8 (s_executed st) ++ le_enc 1 f.
Definition header (st : Status) : list Z := headerWith st (flagsOf st).
Definition image (st : Status) (bits : list Z) : MessageBase.t :=
  let n := 27 + Z.of_nat (length bits) in MessageBase.mk (header st ++ bits) n n (s_sender st) true.

Lemma powersOf2_eq i : 0 <= i < 8 → powersOf2 i = 2 ^ i.
Proof. intros Hi. assert (i = 0 ∨ i = 1 ∨ i = 2 ∨ i = 3 ∨ i = 4 ∨ i = 5 ∨ i = 6 ∨ i = 7) as Hc by lia. by repeat destruct Hc as [->|Hc]; subst. Qed.

Lemma header_length st : length (header st) = 27%nat.
Proof. unfold header, headerWith. rewrite !length_app, !length_le_enc. done. Qed.

Lemma flagsOf_bits st : 0 <= flagsOf st < 32 ∧ flagsOf st = foldr (fun b z => Z.b2z b + 2 * z) 0
  [s_active st; s_newView st; is_kind (s_kind st) PrePreparesInWindow; is_kind (s_kind st) MissingViewChanges; is_kind (s_kind st) MissingPrePrepares].
Proof. unfold flagsOf. destruct (s_active st), (s_newView st), (s_kind st); cbv; split_and!; congruence. Qed.

Section image.
Context (st : Status) (bits : list Z) (Hst : legal st) (Hbits : Forall is_byte bits).
#[local] Abbreviation m := (image st bits).

Lemma image_view : getViewNumber m = Ok (s_view st).
Proof. destruct Hst. apply read_int; [lia|lia|]. cbn [image MessageBase.msgBody_]. unfold header, headerWith. rewrite <- !app_assoc. solve_get. Qed.
Lemma image_stable : getLastStableSeqNum m = Ok (s_stable st).
Proof. destruct Hst. apply read_int; [lia|lia|]. cbn [image MessageBase.msgBody_]. unfold header, headerWith. rewrite <- !app_assoc. solve_get. Qed.
Lemma image_executed : getLastExecutedSeqNum m = Ok (s_executed st).
Proof. destruct Hst. apply read_int; [lia|lia|]. cbn [image MessageBase.msgBody_]. unfold header, headerWith. rewrite <- !app_assoc. solve_get. Qed.
Lemma status_flags_eq : flags m = Ok (flagsOf st).
Proof. pose proof (flagsOf_bits st) as [? _]. apply read_uint; [lia|]. cbn [image MessageBase.msgBody_]. unfold header, headerWith. rewrite <- !app_assoc. solve_get. Qed.

Lemma image_flag i : flag i m = Ok (negb (Z.land (flagsOf st) (powersOf2 i) =? 0)).
Proof. unfold flag. by rewrite status_flags_eq. Qed.

Lemma image_flags_read : currentViewIsActive m = Ok (s_active st) ∧ currentViewHasNewViewMessage m = Ok (s_newView st) ∧
  hasListOfPrePrepareMsgsInActiveWindow m = Ok (has st PrePreparesInWindow) ∧
  hasListOfMissingViewChangeMsgForViewChange m = Ok (has st MissingViewChanges) ∧
  hasListOfMissingPrePrepareMsgForViewChange m = Ok (has st MissingPrePrepares).
Proof.
  unfold currentViewIsActive, currentViewHasNewViewMessage, hasListOfPrePrepareMsgsInActiveWindow, hasListOfMissingViewChangeMsgForViewChange, hasListOfMissingPrePrepareMsgForViewChange.
  rewrite !image_flag. unfold flagsOf, has. by destruct (s_active st), (s_newView st), (s_kind st).
Qed.

Lemma image_type : MessageBase.type m = Ok (code_of MC_ReplicaStatus).
Proof. eapply type_head. cbn [image MessageBase.msgBody_]. unfold header, headerWith. rewrite <- !app_assoc. reflexivity. Qed.

(** The byte of the list with the bit of an index. *)
Lemma image_byte k x : bits !! Z.to_nat k = Some x → 0 <= k → get_uint 1 (body m) (sizeof_ReplicaStatusMsgHeader + k) = Ok x ∧
  ∀ v, put_int 1 (body m) (sizeof_ReplicaStatusMsgHeader + k) v = Ok (header st ++ <[Z.to_nat k := u8 v]> bits).
Proof.
  intros Hx Hk. pose proof (Forall_lookup_1 _ _ _ _ Hbits Hx) as Hb. cbn [image MessageBase.msgBody_]. unfold sizeof_ReplicaStatusMsgHeader.
  pose proof (lookup_lt_Some _ _ _ Hx) as Hlt. pose proof (take_drop_middle bits _ _ Hx) as Hsplit.
  assert (Hpre : 27 + k = Z.of_nat (length (header st ++ take (Z.to_nat k) bits))) by (rewrite length_app, length_take, header_length; lia). split.
  - apply read_uint; [exact Hb|]. rewrite <- Hsplit at 1. change (x :: ?l) with ([x] ++ l). rewrite app_assoc.
    assert (le_enc 1 x = [x]) as -> by (cbn; unfold is_byte in Hb; rewrite Z.mod_small by lia; done). by apply get_bytes_mid.
  - intros v. unfold put_int. rewrite <- Hsplit at 1. change (x :: ?l) with ([x] ++ l). rewrite app_assoc.
    rewrite (put_bytes_mid _ [x] (le_enc 1 v)) by done. rewrite <- app_assoc. do 2 f_equal. rewrite insert_take_drop by done. done.
Qed.

(** The list is a bitmap. *)
Definition asBitmap (n : Z) (l : list Z) : Bitmap.t := Bitmap.mk n (Some l).

Lemma image_read n i : Bitmap.wf (asBitmap n bits) → 0 <= i < n → readBit m i = Ok (Bitmap.bit (asBitmap n bits) i).
Proof.
  intros Hwf Hi. destruct (Bitmap.wf_bytes (asBitmap n bits) i Hwf Hi) as (l & x & [= <-] & Hx & Hb & Hn & _). unfold readBit.
  assert (0 <= i / 8) by (apply Z.div_pos; lia). pose proof (Z.mod_pos_bound i 8).
  rewrite (proj1 (image_byte (i / 8) x Hx ltac:(lia))). res_step. rewrite powersOf2_eq, Bitmap.land_mask by lia. unfold Bitmap.bit. cbn [asBitmap Bitmap.p_]. by rewrite <- Hn.
Qed.

Lemma image_write n i : Bitmap.wf (asBitmap n bits) → 0 <= i < n → ∃ bits', writeBit m i = Ok (image st bits') ∧ Bitmap.wf (asBitmap n bits') ∧
  length bits' = length bits ∧ ∀ j, 0 <= j < n → Bitmap.bit (asBitmap n bits') j = bool_decide (i = j) || Bitmap.bit (asBitmap n bits) j.
Proof.
  intros Hwf Hi. destruct (Bitmap.wf_bytes (asBitmap n bits) i Hwf Hi) as (l & x & [= <-] & Hx & Hb & Hn & Hlt).
  assert (0 <= i / 8) by (apply Z.div_pos; lia). pose proof (Z.mod_pos_bound i 8). destruct (image_byte (i / 8) x Hx ltac:(lia)) as [Hg Hp].
  destruct (Bitmap.set_spec (asBitmap n bits) i Hwf Hi) as (b' & Hs & Hwf' & Hn' & Hbit). unfold Bitmap.set in Hs. cbn [asBitmap Bitmap.numBits_] in *. rewrite (proj2 (Z.ltb_lt i n)) in Hs by lia.
  cbn [Assert mbind res_bind] in Hs. unfold Bitmap.read_byte, Bitmap.write_byte in Hs. cbn [asBitmap Bitmap.p_] in Hs. rewrite Hx in Hs. cbn [mbind res_bind] in Hs.
  rewrite (proj2 (Z.ltb_lt _ _)) in Hs by lia. injection Hs as <-. rewrite Bitmap.mask_single in * by lia.
  assert (Hbyte : is_byte (Z.lor x (2 ^ (i mod 8)))) by (apply Bitmap.set_bit; [exact Hb|lia]).
  eexists. split; [|split; [exact Hwf'|split; [apply length_insert|exact Hbit]]].
  unfold writeBit. rewrite Hg. res_step. rewrite Hp. res_step. rewrite powersOf2_eq by lia. unfold u8. rewrite wrap_small by (unfold is_byte in Hbyte; lia).
  unfold SignedShareMsgs.set_body, image. cbn. by rewrite length_insert.
Qed.
End image.

(** ** Construction and validation *)
Definition emptyList (k : ListKind) : list Z := replicate (Z.to_nat ((listBits k + 7) / 8)) 0.

Lemma orFlag_eq st f rest on i m0 : body m0 = headerWith st f ++ rest → 0 <= f < 256 →
  orFlag on i m0 = Ok (SignedShareMsgs.set_body m0 (headerWith st (if on then Z.lor f (powersOf2 i) else f) ++ rest)).
Proof.
  intros Hb Hf. destruct on; cbn [orFlag]; [|by rewrite <- Hb; destruct m0]. unfold orFlag, flags.
  rewrite (read_uint 1 (body m0) 26 f) by (try lia; rewrite Hb; unfold headerWith; rewrite <- !app_assoc; solve_get). res_step. unfold put_int. rewrite Hb. unfold headerWith. rewrite <- !app_assoc.
  put_skip 2. put_skip 8. put_skip 8. put_skip 8. rewrite (put_bytes_head (le_enc 1 f)) by len_tac. done.
Qed.

Definition create (st : Status) : res MessageBase.t :=
  ctor (s_sender st) (s_view st) (s_stable st) (s_executed st) (s_active st) (s_newView st)
    (has st PrePreparesInWindow) (has st MissingViewChanges) (has st MissingPrePrepares).

Lemma calcSize_eq st : calcSizeOfReplicaStatusMsg (has st PrePreparesInWindow) (has st MissingViewChanges) (has st MissingPrePrepares) = 27 + (listBits (s_kind st) + 7) / 8.
Proof. unfold has. by destruct (s_kind st). Qed.

Lemma create_image st : legal st → create st = Ok (image st (emptyList (s_kind st))).
Proof.
  intros []. unfold create, ctor. rewrite calcSize_eq. set (n := (listBits (s_kind st) + 7) / 8). assert (Hn : 0 <= n <= 38) by (unfold n; destruct (s_kind st); cbv; split; congruence).
  rewrite (new_body _ MC_ReplicaStatus 27 n) by lia. res_step. rewrite (proj2 (Z.leb_le (s_stable st) (s_executed st))) by done. res_step. rewrite (proj2 (Z.eqb_eq (Z.rem (s_stable st) checkpointWindowSize) 0)) by done. res_step.
  assert (Hc : negb (s_active st) || s_newView st = true ∧ negb (s_active st) || negb (has st MissingViewChanges) = true ∧ negb (s_active st) || negb (has st MissingPrePrepares) = true ∧
    s_active st || negb (has st PrePreparesInWindow) = true ∧ (countTrue [has st PrePreparesInWindow; has st MissingViewChanges; has st MissingPrePrepares] <=? 1) = true).
  { unfold has. destruct (s_active st), (s_newView st), (s_kind st); naive_solver. }
  destruct Hc as (-> & -> & -> & -> & ->). res_step. cbn [MessageBase.msgBody_]. change (Z.to_nat (27 - 2)) with (8 + (8 + (8 + 1)))%nat. rewrite !replicate_add. unfold put_int. rewrite <- !app_assoc.
  put_skip 2. rewrite (put_bytes_head (replicate 8 0)) by len_tac. res_step.
  put_skip 2. put_skip 8. rewrite (put_bytes_head (replicate 8 0)) by len_tac. res_step.
  put_skip 2. put_skip 8. put_skip 8. rewrite (put_bytes_head (replicate 8 0)) by len_tac. res_step.
  put_skip 2. put_skip 8. put_skip 8. put_skip 8. rewrite (put_bytes_head (replicate 1 0)) by len_tac. res_step.
  match goal with |- context [orFlag _ 0 ?x] => assert (Hb : body x = headerWith st 0 ++ replicate (Z.to_nat n) 0) by (cbn [SignedShareMsgs.set_body MessageBase.msgBody_]; unfold headerWith; by rewrite <- !app_assoc) end.
  rewrite (orFlag_eq st 0 _ _ 0 _ Hb) by lia. res_step. erewrite (orFlag_eq st _ _ _ 1); [|reflexivity|by destruct (s_active st)]. res_step.
  set (f1 := if s_newView st then _ else _). assert (Hf1 : 0 <= f1 < 256) by (unfold f1; by destruct (s_active st), (s_newView st)).
  match goal with |- context [if has st PrePreparesInWindow then orFlag true 2 ?x else _] => assert (Hx : body x = headerWith st f1 ++ replicate (Z.to_nat n) 0) by done; set (m1 := x) in * end.
  assert (E : (if has st PrePreparesInWindow then orFlag true 2 m1 else if has st MissingViewChanges then orFlag true 3 m1 else orFlag (has st MissingPrePrepares) 4 m1)
    = Ok (SignedShareMsgs.set_body m1 (header st ++ replicate (Z.to_nat n) 0))).
  { assert (Hh : header st = headerWith st (match s_kind st with NoList => f1 | PrePreparesInWindow => Z.lor f1 4 | MissingViewChanges => Z.lor f1 8 | MissingPrePrepares => Z.lor f1 16 end)).
    { unfold header, flagsOf, f1. by destruct (s_active st), (s_newView st), (s_kind st). }
    rewrite Hh. unfold has. clear Hh. destruct (s_kind st); repeat match goal with |- context [is_kind ?a ?b] => let v := eval vm_compute in (is_kind a b) in change (is_kind a b) with v end; cbv iota; rewrite (orFlag_eq st f1 _ _ _ m1 Hx Hf1); reflexivity. }
  rewrite E. res_step. cbn [SignedShareMsgs.set_body MessageBase.msgSize_ MessageBase.msgBody_ m1]. unfold sizeof_ReplicaStatusMsgHeader.
  assert (Hl : Z.of_nat (length (emptyList (s_kind st))) = n) by (unfold emptyList; rewrite length_replicate; fold n; lia).
  unfold image. rewrite Hl. unfold emptyList. fold n. destruct (Z.ltb_spec 27 (27 + n)) as [Hlt|Hge].
  - rewrite (put_bytes_skip 27) by (rewrite ?header_length; lia). replace (27 + n - 27) with n by lia. change (27 - 27) with 0.
    rewrite <- (app_nil_r (replicate (Z.to_nat n) 0)) at 1. rewrite put_bytes_head by done. cbn [fmap res_fmap mbind res_bind]. by rewrite app_nil_r.
  - done.
Qed.

(** ** What a message says *)
Definition in_range (st : Status) (x : Z) : Prop :=
  match s_kind st with
  | NoList => False
  | MissingViewChanges => 0 <= x < MaxNumberOfReplicas
  | _ => s_stable st < x <= s_stable st + kWorkWindowSize
  end.
Definition indexOf (st : Status) (x : Z) : Z := match s_kind st with MissingViewChanges => x | _ => x - s_stable st - 1 end.

(** The method that reads the list of a kind, and the one that adds to it. *)
Definition isIn (k : ListKind) (m : MessageBase.t) (x : Z) : res bool :=
  match k with
  | NoList => Ok false
  | PrePreparesInWindow => isPrePrepareInActiveWindow m x
  | MissingViewChanges => isMissingViewChangeMsgForViewChange m x
  | MissingPrePrepares => isMissingPrePrepareMsgForViewChange m x
  end.
Definition addTo (k : ListKind) (m : MessageBase.t) (x : Z) : res MessageBase.t :=
  match k with
  | NoList => Ok m
  | PrePreparesInWindow => setPrePrepareInActiveWindow m x
  | MissingViewChanges => setMissingViewChangeMsgForViewChange m x
  | MissingPrePrepares => setMissingPrePrepareMsgForViewChange m x
  end.
Definition addAll (k : ListKind) (xs : list Z) (m : MessageBase.t) : res MessageBase.t := foldl (fun r x => m ← r; addTo k m x) (Ok m) xs.

(** The message says [st], and [X] is its list. *)
Record shows (m : MessageBase.t) (st : Status) (X : Z → bool) : Prop := {
  sh_sender : MessageBase.sender_ m = s_sender st;
  sh_view : getViewNumber m = Ok (s_view st);
  sh_stable : getLastStableSeqNum m = Ok (s_stable st);
  sh_executed : getLastExecutedSeqNum m = Ok (s_executed st);
  sh_active : currentViewIsActive m = Ok (s_active st);
  sh_newView : currentViewHasNewViewMessage m = Ok (s_newView st);
  sh_pp : hasListOfPrePrepareMsgsInActiveWindow m = Ok (has st PrePreparesInWindow);
  sh_vc : hasListOfMissingViewChangeMsgForViewChange m = Ok (has st MissingViewChanges);
  sh_mpp : hasListOfMissingPrePrepareMsgForViewChange m = Ok (has st MissingPrePrepares);
  sh_list x : in_range st x → isIn (s_kind st) m x = Ok (X x);
}.

(** The checks of the list operations, for a message that says [st]. *)
Lemma list_index st m x : in_range st x → getLastStableSeqNum m = Ok (s_stable st) →
  hasListOfPrePrepareMsgsInActiveWindow m = Ok (has st PrePreparesInWindow) → hasListOfMissingViewChangeMsgForViewChange m = Ok (has st MissingViewChanges) →
  hasListOfMissingPrePrepareMsgForViewChange m = Ok (has st MissingPrePrepares) →
  isIn (s_kind st) m x = readBit m (indexOf st x) ∧ addTo (s_kind st) m x = writeBit m (indexOf st x) ∧ 0 <= indexOf st x < listBits (s_kind st).
Proof.
  unfold in_range, indexOf, has, isIn, addTo, listBits, isPrePrepareInActiveWindow, isMissingViewChangeMsgForViewChange, isMissingPrePrepareMsgForViewChange,
    setPrePrepareInActiveWindow, setMissingViewChangeMsgForViewChange, setMissingPrePrepareMsgForViewChange, windowIndex.
  intros Hr -> -> -> ->. destruct (s_kind st); [done|..]; repeat match goal with |- context [is_kind ?a ?b] => let v := eval vm_compute in (is_kind a b) in change (is_kind a b) with v end; res_step.
  2: { rewrite (proj2 (Z.ltb_lt x _)) by lia. done. }
  all: rewrite (proj2 (Z.ltb_lt (s_stable st) x)), (proj2 (Z.leb_le x _)) by lia; res_step; split_and!; [done|done|lia|lia].
Qed.

Lemma image_shows st bits : legal st → 0 < listBits (s_kind st) → Bitmap.wf (asBitmap (listBits (s_kind st)) bits) →
  shows (image st bits) st (fun x => Bitmap.bit (asBitmap (listBits (s_kind st)) bits) (indexOf st x)).
Proof.
  intros Hst Hk Hwf. assert (Hb : Forall is_byte bits) by (by destruct Hwf as (_ & _ & _ & ?)). destruct (image_flags_read st bits) as (F1 & F2 & F3 & F4 & F5).
  split; [done|by apply image_view|by apply image_stable|by apply image_executed|done..|].
  intros x Hx. destruct (list_index st (image st bits) x Hx) as (-> & _ & Hi); [by apply image_stable|done..|]. by apply image_read.
Qed.

Lemma image_shows_empty st : legal st → s_kind st = NoList → shows (image st []) st (fun _ => false).
Proof.
  intros Hst Hk. destruct (image_flags_read st []) as (F1 & F2 & F3 & F4 & F5). split; [done|by apply image_view|by apply image_stable|by apply image_executed|done..|].
  intros x. unfold in_range. by rewrite Hk.
Qed.

(** Adding elements to the list of a new message. *)
Lemma addAll_image st : legal st → 0 < listBits (s_kind st) → ∀ xs bits, Forall (in_range st) xs → Bitmap.wf (asBitmap (listBits (s_kind st)) bits) →
  ∃ bits', addAll (s_kind st) xs (image st bits) = Ok (image st bits') ∧ Bitmap.wf (asBitmap (listBits (s_kind st)) bits') ∧ length bits' = length bits ∧
  ∀ j, 0 <= j < listBits (s_kind st) → Bitmap.bit (asBitmap (listBits (s_kind st)) bits') j = bool_decide (j ∈ indexOf st <$> xs) || Bitmap.bit (asBitmap (listBits (s_kind st)) bits) j.
Proof.
  intros Hst Hk xs. unfold addAll. induction xs as [|x xs IH] using rev_ind; intros bits Hxs Hwf; [by exists bits|].
  apply Forall_app in Hxs as [Hxs Hx]. apply Forall_cons in Hx as [Hx _]. destruct (IH bits Hxs Hwf) as (b1 & E1 & Hwf1 & Hl1 & Hb1). rewrite foldl_app. cbn [foldl]. rewrite E1. res_step.
  assert (Hby : Forall is_byte b1) by (by destruct Hwf1 as (_ & _ & _ & ?)). destruct (image_flags_read st b1) as (F1 & F2 & F3 & F4 & F5).
  destruct (list_index st (image st b1) x Hx) as (_ & -> & Hi); [by apply image_stable|done..|].
  destruct (image_write st b1 Hby _ _ Hwf1 Hi) as (b2 & E2 & Hwf2 & Hl2 & Hb2). exists b2. split; [done|]. split; [done|]. split; [congruence|].
  intros j Hj. rewrite (Hb2 j Hj), (Hb1 j Hj), fmap_app, orb_assoc. f_equal. rewrite <- bool_decide_or. apply bool_decide_ext. cbn [fmap list_fmap]. rewrite elem_of_app, list_elem_of_singleton. naive_solver.
Qed.

Lemma status_accepted st bits r : legal st → Z.of_nat (length bits) = (listBits (s_kind st) + 7) / 8 →
  ToActualMsgType r (image st bits) = Ok (negb (s_sender st =? ReplicasInfo._myId r) && ReplicasInfo.isIdOfReplica r (s_sender st)).
Proof.
  intros Hst Hl. pose proof Hst as []. destruct (image_flags_read st bits) as (F1 & F2 & F3 & F4 & F5). unfold ToActualMsgType. rewrite image_type. res_step. rewrite Z.eqb_refl. res_step.
  cbn [image MessageBase.msgSize_ MessageBase.sender_]. rewrite (proj2 (Z.ltb_ge _ _)) by (unfold sizeof_ReplicaStatusMsgHeader; lia).
  destruct (_ =? _); [done|]. destruct (ReplicasInfo.isIdOfReplica r (s_sender st)); [|done]. cbn [negb andb]. fold (image st bits). rewrite image_stable, image_executed, F1, F2, F3, F4, F5 by done. res_step.
  rewrite (proj2 (Z.eqb_eq _ _) lg_rem0), (proj2 (Z.ltb_ge (s_executed st) _)) by done. cbn [negb]. rewrite calcSize_eq, Hl, Z.eqb_refl.
  unfold has. destruct (s_active st), (s_newView st), (s_kind st); naive_solver.
Qed.

Lemma emptyList_wf st : 0 < listBits (s_kind st) → Bitmap.wf (asBitmap (listBits (s_kind st)) (emptyList (s_kind st))).
Proof.
  intros Hk. assert (Bitmap.small (listBits (s_kind st))) as Hs by (destruct (s_kind st); cbv; split; congruence). unfold emptyList. rewrite <- Bitmap.realSize_small by done. by apply Bitmap.wf_zeros.
Qed.

Lemma indexOf_inj st x y : indexOf st x = indexOf st y → x = y.
Proof. unfold indexOf. destruct (s_kind st); lia. Qed.

Lemma replicaStatus_list st xs : legal st → Forall (in_range st) xs →
  ∃ m0 m, create st = Ok m0 ∧ addAll (s_kind st) xs m0 = Ok m ∧ shows m st (fun x => bool_decide (x ∈ xs)) ∧
    ∀ r, ToActualMsgType r m = Ok (negb (s_sender st =? ReplicasInfo._myId r) && ReplicasInfo.isIdOfReplica r (s_sender st)).
Proof.
  intros Hst Hxs. exists (image st (emptyList (s_kind st))). rewrite create_image by done. destruct (decide (s_kind st = NoList)) as [Hk|Hk].
  - assert (xs = []) as -> by (destruct Hxs as [|x xs Hx _]; [done|]; unfold in_range in Hx; by rewrite Hk in Hx).
    eexists. split; [done|]. split; [reflexivity|]. split; [|intros r; apply status_accepted; [done|]; unfold emptyList; by rewrite Hk].
    assert (emptyList (s_kind st) = []) as -> by (by rewrite Hk). by apply image_shows_empty.
  - assert (Hpos : 0 < listBits (s_kind st)) by (by destruct (s_kind st)).
    destruct (addAll_image st Hst Hpos xs _ Hxs (emptyList_wf st Hpos)) as (bits & E & Hwf & Hl & Hb). exists (image st bits). split; [done|]. split; [done|]. split.
    + destruct (image_shows st bits Hst Hpos Hwf). split; try done. intros x Hx. rewrite sh_list0 by done. f_equal.
      destruct (list_index st (image st bits) x Hx ltac:(done) ltac:(done) ltac:(done) ltac:(done)) as (_ & _ & Hi). rewrite (Hb _ Hi). unfold emptyList, asBitmap. rewrite Bitmap.bit_zeros, orb_false_r.
      apply bool_decide_ext. rewrite list_elem_of_fmap. split; [by intros (y & ->%indexOf_inj & ?)|by eauto].
    + intros r. apply status_accepted; [done|]. rewrite Hl. unfold emptyList. rewrite length_replicate. assert (0 <= (listBits (s_kind st) + 7) / 8) by (by destruct (s_kind st)). lia.
Qed.

(** A report with the elements [xs] in its list can be built, a peer accepts it and reads exactly what was put in. *)
Theorem replicaStatus_roundtrip st xs r : legal st → Forall (in_range st) xs →
  ∃ m0 m, create st = Ok m0 ∧ addAll (s_kind st) xs m0 = Ok m ∧ shows m st (fun x => bool_decide (x ∈ xs)) ∧
    ToActualMsgType r m = Ok (negb (s_sender st =? ReplicasInfo._myId r) && ReplicasInfo.isIdOfReplica r (s_sender st)).
Proof. intros Hst Hxs. destruct (replicaStatus_list st xs Hst Hxs) as (m0 & m & ? & ? & ? & ?). by exists m0, m. Qed.

(** ** Arrived messages *)
Definition kindOf (pp vc mpp : bool) : ListKind :=
  if pp then PrePreparesInWindow else if vc then MissingViewChanges else if mpp then MissingPrePrepares else NoList.

Lemma readBit_in m k : CheckpointMsg.arrived m → MessageBase.msgSize_ m = 27 + (listBits k + 7) / 8 → ∀ i, 0 <= i < listBits k → ∃ b, readBit m i = Ok b.
Proof.
  intros [Hs _ Hb _] Hsz i Hi. unfold readBit, sizeof_ReplicaStatusMsgHeader. assert (i / 8 + 1 <= (listBits k + 7) / 8).
  { apply Z.div_le_lower_bound; [lia|]. pose proof (Z.div_mod i 8). pose proof (Z.mod_pos_bound i 8). lia. }
  assert (0 <= i / 8) by (apply Z.div_pos; lia). destruct (get_uint_in 1 (body m) (27 + i / 8) Hb) as (z & -> & _); [lia..|]. eexists. reflexivity.
Qed.

(** The validation of an arrived message stays inside its body; what an accepted message says is legal, and its list can be read. *)
Theorem replicaStatus_in_bounds r m : CheckpointMsg.arrived m → MessageBase.type m = Ok (code_of MC_ReplicaStatus) →
  ∃ b, ToActualMsgType r m = Ok b ∧ (b = true → ∃ st X, legal st ∧ shows m st X ∧ s_sender st ≠ ReplicasInfo._myId r ∧ ReplicasInfo.isIdOfReplica r (s_sender st) = true).
Proof.
  intros Har Ht. pose proof Har as [Hs _ Hb _]. unfold ToActualMsgType. rewrite Ht. res_step. rewrite Z.eqb_refl. res_step. unfold sizeof_ReplicaStatusMsgHeader.
  destruct (Z.ltb_spec (MessageBase.msgSize_ m) 27) as [|Hsz]; [rejected|]. destruct (Z.eqb_spec (MessageBase.sender_ m) (ReplicasInfo._myId r)) as [|Hne]; [rejected|].
  destruct (ReplicasInfo.isIdOfReplica r (MessageBase.sender_ m)) eqn:Hid; [|rejected]. cbn [negb].
  destruct (get_int_in 8 (body m) 2) as (v & Ev & Hv); [lia..|]. destruct (get_int_in 8 (body m) 10) as (s & Es & Hss); [lia..|]. destruct (get_int_in 8 (body m) 18) as (e & Ee & Hee); [lia..|].
  destruct (get_uint_in 1 (body m) 26 Hb) as (f & Ef & Hf); [lia..|]. unfold getLastStableSeqNum, getLastExecutedSeqNum. rewrite Es. res_step.
  destruct (Z.eqb_spec (Z.rem s checkpointWindowSize) 0) as [Hrem|]; [|rejected]. cbn [negb]. rewrite Ee. res_step. destruct (Z.ltb_spec e s) as [|Hle]; [rejected|].
  assert (Hfl : ∀ i, flag i m = Ok (negb (Z.land f (powersOf2 i) =? 0))) by (intros i; unfold flag, flags; by rewrite Ef).
  unfold currentViewIsActive, currentViewHasNewViewMessage, hasListOfPrePrepareMsgsInActiveWindow, hasListOfMissingViewChangeMsgForViewChange, hasListOfMissingPrePrepareMsgForViewChange. rewrite !Hfl. res_step.
  remember (negb (Z.land f (powersOf2 0) =? 0)) as ac eqn:Fa. remember (negb (Z.land f (powersOf2 1) =? 0)) as nv eqn:Fn. remember (negb (Z.land f (powersOf2 2) =? 0)) as pp eqn:Fp.
  remember (negb (Z.land f (powersOf2 3) =? 0)) as vc eqn:Fv. remember (negb (Z.land f (powersOf2 4) =? 0)) as mp eqn:Fm.
  set (st := mkStatus (MessageBase.sender_ m) v s e ac nv (kindOf pp vc mp)).
  destruct (negb (negb ac || nv)) eqn:C1; [rejected|]. destruct (negb (negb ac || negb vc)) eqn:C2; [rejected|]. destruct (negb (negb ac || negb mp)) eqn:C3; [rejected|].
  destruct (negb (ac || negb pp)) eqn:C4; [rejected|]. destruct (2 <=? countTrue [pp; vc; mp]) eqn:C5; [rejected|].
  assert (Hk : has st PrePreparesInWindow = pp ∧ has st MissingViewChanges = vc ∧ has st MissingPrePrepares = mp) by (unfold has, st; cbn [s_kind]; revert C5; clear; by destruct pp, vc, mp).
  assert (Hcs : calcSizeOfReplicaStatusMsg pp vc mp = 27 + (listBits (s_kind st) + 7) / 8) by (rewrite <- calcSize_eq; by destruct Hk as (-> & -> & ->)).
  destruct (Z.eqb_spec (MessageBase.msgSize_ m) (calcSizeOfReplicaStatusMsg pp vc mp)) as [Hsize|]; [|rejected]. exists true. split; [done|]. intros _. destruct Hk as (Kp & Kv & Km).
  exists st, (fun x => match readBit m (indexOf st x) with Ok b => b | Err _ => false end). split_and!; [|split|done|done]; try done.
  - split; try done; cbn [s_active s_newView s_kind st]; [intros ->; by destruct nv|destruct ac, pp, vc, mp; first [done | by left | by right]].
  - unfold currentViewIsActive. by rewrite Hfl, <- Fa.
  - unfold currentViewHasNewViewMessage. by rewrite Hfl, <- Fn.
  - unfold hasListOfPrePrepareMsgsInActiveWindow. by rewrite Hfl, <- Fp, Kp.
  - unfold hasListOfMissingViewChangeMsgForViewChange. by rewrite Hfl, <- Fv, Kv.
  - unfold hasListOfMissingPrePrepareMsgForViewChange. by rewrite Hfl, <- Fm, Km.
  - intros x Hx. destruct (list_index st m x Hx) as (-> & _ & Hi); [done|..].
    + unfold hasListOfPrePrepareMsgsInActiveWindow. by rewrite Hfl, <- Fp, Kp.
    + unfold hasListOfMissingViewChangeMsgForViewChange. by rewrite Hfl, <- Fv, Kv.
    + unfold hasListOfMissingPrePrepareMsgForViewChange. by rewrite Hfl, <- Fm, Km.
    + destruct (readBit_in m (s_kind st) Har ltac:(congruence) _ Hi) as [b ->]. done.
Qed.
End ReplicaStatusMsg.
