(* ===== verification/ReplicaStatus.v ===== *)
(** * Status reports of a replica
    (bftengine/src/bftengine/ReplicaImp.cpp: the handler of ReplicaStatus messages and
    [tryToSendStatusReport])

    A replica reports to its peers what it has and what it misses; a replica that receives
    a report sends what can help its sender: checkpoints, its view-change message, its
    new-view message and PrePrepare messages of the window or of the pending view.  The
    handlers run on the members of the replica they use and give the messages that are
    sent; a PrePrepare message of the views manager is named by its address. *)
From Stdlib Require Import SpecFloat.
From S2P Require Import Prelude SysConsts Digest ReplicasInfo ActiveWindow MsgsCertificate MessageBase Checkpoint SeqNumInfo ViewChangeSafety ViewsManager RollingAvgAndVar DynamicUpperLimit ReplicaExecution ReplicaStatusMsg.

Module ReplicaStatus.
Definition minTimeBetweenStatusRequestsMilli : Z := 70.
(** 0.5 *)
Definition factorForMinTimeBetweenStatusRequestsMilli : spec_float := SFdiv 53 1024 (Float.double 1) (Float.double 2).

Inductive Out :=
  | SendCheckpoint (dest : Z) (m : CheckpointInfo.msg)
  | SendViewChange (dest : Z) (m : ViewsManager.VCM)
  | SendNewView (dest : Z) (m : ViewsManager.NV)
  | SendPrePrepare (dest : Z) (m : SeqNumInfo.PrePrepare)
  | SendStoredPrePrepare (dest : Z) (addr : Z)
  | SendStatusToAll (m : MessageBase.t).

(** [f] for each element, with what it gives in order. *)
Fixpoint forEach {X} (f : Z → res (list X)) (l : list Z) : res (list X) :=
  match l with [] => Ok [] | i :: l => a ← f i; b ← forEach f l; Ok (a ++ b) end.

(** [for (i = first; i <= last; i++)] *)
Definition fromTo (first last : Z) : list Z := seqZ first (last - first + 1).
(** [for (i = first; i <= last; i = i + checkpointWindowSize)] *)
Definition checkpointsFromTo (first last : Z) : list Z :=
  (fun k => first + checkpointWindowSize * k) <$> (if first <=? last then seqZ 0 ((last - first) / checkpointWindowSize + 1) else []).

Section defs.
Context (info : ReplicasInfo.t) (undefined : spec_float → Z) {NumType : Type}.
#[local] Abbreviation myId := (ReplicasInfo._myId info).
#[local] Abbreviation cpSize := (kWorkWindowSize + checkpointWindowSize).

Record t := mk {
  curView : Z;
  lastStableSeqNum : Z;
  lastExecutedSeqNum : Z;
  viewsManager : ViewsManager.t;
  mainLog : ActiveWindow.t (@SeqNumInfo.t NumType);
  checkpointsLog : ActiveWindow.t CheckpointInfo.t;
  dynamicUpperLimitOfRounds : DynamicUpperLimit.t;
  lastTimeThisReplicaSentStatusReportMsgToAllPeerReplicas : Z;
}.

Definition set_lastTime (w : t) (now : Z) : t :=
  mk (curView w) (lastStableSeqNum w) (lastExecutedSeqNum w) (viewsManager w) (mainLog w) (checkpointsLog w) (dynamicUpperLimitOfRounds w) now.

#[local] Abbreviation mainGet w := (ActiveWindow.get kWorkWindowSize 1 (mainLog w)).
#[local] Abbreviation cpGet w := (ActiveWindow.get cpSize checkpointWindowSize (checkpointsLog w)).

Definition isCurrentPrimary (w : t) : bool := ReplicasInfo.primaryOfView info (curView w) =? myId.
Definition currentViewIsActive (w : t) : bool := ViewsManager.viewIsActive (viewsManager w) (curView w).

(** ** Sending a report *)

(** The elements of [l] for which [test] holds are added with [add]. *)
Fixpoint addWhere (test : Z → res bool) (add : MessageBase.t → Z → res MessageBase.t) (l : list Z) (m : MessageBase.t) : res MessageBase.t :=
  match l with
  | [] => Ok m
  | i :: l => b ← test i; m ← (if (b : bool) then add m i else Ok m); addWhere test add l m
  end.

Definition dynamicMinTimeBetweenStatusRequestsMilli (w : t) : Z :=
  DynamicUpperLimit.toInt64 undefined (SFmul 53 1024 (Float.double (DynamicUpperLimit.upperLimit (dynamicUpperLimitOfRounds w))) factorForMinTimeBetweenStatusRequestsMilli).

Definition missingInWindow (w : t) (i : Z) : res bool :=
  assert! ((lastStableSeqNum w <? i) && (i <=? lastStableSeqNum w + kWorkWindowSize)) ;; Ok true.

(** The message of the report. *)
Definition statusReport (w : t) : res MessageBase.t :=
  let viewIsActive := currentViewIsActive w in
  hasNewChangeMsg ← ViewsManager.hasNewViewMessage info (viewsManager w) (curView w);
  let pending := ViewsManager.viewIsPending (viewsManager w) (curView w) in
  let listOfMissingVCMsg := negb viewIsActive && negb pending in
  let listOfMissingPPMsg := negb viewIsActive && pending in
  m ← ReplicaStatusMsg.ctor myId (curView w) (lastStableSeqNum w) (lastExecutedSeqNum w) viewIsActive hasNewChangeMsg viewIsActive listOfMissingVCMsg listOfMissingPPMsg;
  m ← (if viewIsActive
       then addWhere (fun i => x ← mainGet w i; Ok (SeqNumInfo.hasPrePrepareMsg x)) ReplicaStatusMsg.setPrePrepareInActiveWindow
              (fromTo (lastStableSeqNum w + 1) (lastStableSeqNum w + kWorkWindowSize)) m
       else Ok m);
  if listOfMissingVCMsg then
    addWhere (fun i => h ← ViewsManager.hasViewChangeMessageForFutureView info (viewsManager w) i; Ok (negb h)) ReplicaStatusMsg.setMissingViewChangeMsgForViewChange
      (ReplicasInfo._idsOfPeerReplicas info) m
  else if listOfMissingPPMsg then
    r ← ViewsManager.getNumbersOfMissingPP (viewsManager w) (lastStableSeqNum w);
    if (r.1 : bool) then addWhere (missingInWindow w) ReplicaStatusMsg.setMissingPrePrepareMsgForViewChange r.2 m else Ok m
  else Ok m.

Definition tryToSendStatusReport (now : Z) (w : t) : res (list Out * t) :=
  let milliSinceLastTime := Z.quot (ReplicaExecution.absDifference now (lastTimeThisReplicaSentStatusReportMsgToAllPeerReplicas w)) 1000 in
  if milliSinceLastTime <? minTimeBetweenStatusRequestsMilli then Ok ([], w)
  else if milliSinceLastTime <? dynamicMinTimeBetweenStatusRequestsMilli w then Ok ([], w)
  else
    let w := set_lastTime w now in
    m ← statusReport w;
    Ok ([SendStatusToAll m], w).

(** ** Receiving a report *)

(** Checkpoints that may be useful for the sender. *)
Definition sendCheckpoints (w : t) (dest msgLastStable : Z) : res (list Out) :=
  let window := ActiveWindow.currentActiveWindow cpSize (checkpointsLog w) in
  let beginRange := Z.max window.1 (msgLastStable + checkpointWindowSize) in
  let endRange := Z.min window.2 (msgLastStable + kWorkWindowSize) in
  assert! (Z.rem beginRange checkpointWindowSize =? 0) ;;
  if beginRange <=? endRange then
    assert! (endRange - beginRange <=? kWorkWindowSize) ;;
    forEach (fun i => x ← cpGet w i; Ok (match CheckpointInfo.selfCheckpointMsg info x with Some c => [SendCheckpoint dest c] | None => [] end))
      (checkpointsFromTo beginRange endRange)
  else Ok [].

(** The own latest view-change message, which must exist. *)
Definition sendMyViewChange (w : t) (dest : Z) : res (list Out) :=
  vc ← ViewsManager.getMyLatestViewChangeMsg info (viewsManager w);
  match vc with Some m => Ok [SendViewChange dest m] | None => Err AssertFailed end.

(** [msg->hasListOfMissingViewChangeMsgForViewChange() && msg->isMissingViewChangeMsgForViewChange(myReplicaId)] *)
Definition sendViewChangeIfMissing (w : t) (msg : MessageBase.t) (dest : Z) : res (list Out) :=
  h ← ReplicaStatusMsg.hasListOfMissingViewChangeMsgForViewChange msg;
  if (h : bool) then
    b ← ReplicaStatusMsg.isMissingViewChangeMsgForViewChange msg myId;
    if (b : bool) then sendMyViewChange w dest else Ok []
  else Ok [].

Definition sendNewViewIfMissing (w : t) (msg : MessageBase.t) (dest : Z) : res (list Out) :=
  h ← ReplicaStatusMsg.currentViewHasNewViewMessage msg;
  if negb h && currentViewIsActive w then
    nv ← ViewsManager.getMyNewViewMsgForCurrentView info (viewsManager w); Ok [SendNewView dest nv]
  else Ok [].

(** The PrePrepare messages that the sender misses to enter the view. *)
Definition sendMissingPrePrepares (w : t) (msg : MessageBase.t) (dest msgLastStable : Z) : res (list Out) :=
  h ← ReplicaStatusMsg.hasListOfMissingPrePrepareMsgForViewChange msg;
  if negb h then Ok []
  else
    forEach (fun i =>
      if currentViewIsActive w then
        if ActiveWindow.insideActiveWindow kWorkWindowSize (mainLog w) i then
          b ← ReplicaStatusMsg.isMissingPrePrepareMsgForViewChange msg i;
          if (b : bool) then x ← mainGet w i; Ok (match SeqNumInfo.getPrePrepareMsg x with Some p => [SendPrePrepare dest p] | None => [] end) else Ok []
        else Ok []
      else
        b ← ReplicaStatusMsg.isMissingPrePrepareMsgForViewChange msg i;
        if (b : bool) then p ← ViewsManager.getPrePrepare (viewsManager w) i; Ok (match p with Some a => [SendStoredPrePrepare dest a] | None => [] end) else Ok [])
      (fromTo (msgLastStable + 1) (msgLastStable + kWorkWindowSize)).

(** [msgSenderId] needs information to enter the current view. *)
Definition helpToEnterView (w : t) (msg : MessageBase.t) (dest msgLastStable : Z) : res (list Out) :=
  if isCurrentPrimary w || (ReplicasInfo.primaryOfView info (curView w) =? dest) then
    o1 ← (if isCurrentPrimary w then sendNewViewIfMissing w msg dest else Ok []);
    o2 ← sendViewChangeIfMissing w msg dest;
    o3 ← sendMissingPrePrepares w msg dest msgLastStable;
    Ok (o1 ++ o2 ++ o3)
  else Ok [].

(** The PrePrepare messages of the primary that the sender has not executed and does not have. *)
Definition sendSelfPrePrepares (w : t) (msg : MessageBase.t) (dest msgLastStable : Z) : res (list Out) :=
  e ← ReplicaStatusMsg.getLastExecutedSeqNum msg;
  forEach (fun i =>
    b ← ReplicaStatusMsg.isPrePrepareInActiveWindow msg i;
    if (b : bool) then Ok []
    else x ← mainGet w i; Ok (match SeqNumInfo.getSelfPrePrepareMsg x with Some p => [SendPrePrepare dest p] | None => [] end))
    (fromTo (Z.max (lastStableSeqNum w + 1) (e + 1)) (Z.min (lastStableSeqNum w + kWorkWindowSize) (msgLastStable + kWorkWindowSize))).

(** The part of the handler after the checkpoints. *)
Definition helpInView (now : Z) (w : t) (msg : MessageBase.t) (msgViewNum msgLastStable : Z) : res (list Out * t) :=
  let dest := MessageBase.sender_ msg in
  active ← ReplicaStatusMsg.currentViewIsActive msg;
  if msgViewNum <? curView w then o ← sendMyViewChange w dest; Ok (o, w)
  else if (msgViewNum =? curView w) && negb active then o ← helpToEnterView w msg dest msgLastStable; Ok (o, w)
  else if (msgViewNum =? curView w) && active then
    if isCurrentPrimary w then
      if currentViewIsActive w then o ← sendSelfPrePrepares w msg dest msgLastStable; Ok (o, w)
      else tryToSendStatusReport now w
    else Ok ([], w)
  else
    assert! (curView w <? msgViewNum) ;;
    tryToSendStatusReport now w.

Definition onReplicaStatusMsg (now : Z) (w : t) (msg : MessageBase.t) : res (list Out * t) :=
  let dest := MessageBase.sender_ msg in
  msgLastStable ← ReplicaStatusMsg.getLastStableSeqNum msg;
  msgViewNum ← ReplicaStatusMsg.getViewNumber msg;
  assert! (Z.rem msgLastStable checkpointWindowSize =? 0) ;;
  if msgLastStable + kWorkWindowSize <? lastStableSeqNum w then
    x ← cpGet w (lastStableSeqNum w);
    Ok (match CheckpointInfo.selfCheckpointMsg info x with
        | Some c => if ReplicaExecution.isStableState c then [SendCheckpoint dest c] else []
        | None => []
        end, w)
  else
    '(o1, w) ← (if lastStableSeqNum w + kWorkWindowSize <? msgLastStable then tryToSendStatusReport now w
                else o ← sendCheckpoints w dest msgLastStable; Ok (o, w));
    '(o2, w) ← helpInView now w msg msgViewNum msgLastStable;
    Ok (o1 ++ o2, w).
End defs.
End ReplicaStatus.
