(* ===== verification/ReplicaStatusProps.v ===== *)
(** * Properties of status reports (ReplicaStatus.v)

    What a report says and what its receiver does ([ReplicaStatusProps]), and the exchange
    of reports between replicas ([ReplicaStatusExchange]). *)
From Stdlib Require Import SpecFloat.
From S2P Require Import Prelude SysConsts Digest ReplicasInfo ActiveWindow MsgsCertificate MessageBase Checkpoint Collector PartialProofsSet PartialExecProofsSet SeqNumInfo ViewChangeSafety ViewsManager ViewsManagerFacts ViewsManagerSafety ViewsManagerExit ViewsManagerProps RollingAvgAndVar ReplicaExecution DynamicUpperLimit ReplicaStatusMsg ReplicaStatus.

Module ReplicaStatusProps.
Import ReplicaStatus.
Import ViewsManager (stat, myLatestActiveView, myLatestPendingView, newViewMsgOfOfPendingView, lowerBoundStableForPendingView, minRestrictionOfPendingView, maxRestrictionOfPendingView, nv_sender, nv_view, NO_VIEW, PENDING, PENDING_WITH_RESTRICTIONS, IN_VIEW).
Import ReplicaStatusMsg (Status, mkStatus, s_sender, s_view, s_stable, s_executed, s_active, s_newView, s_kind, NoList, PrePreparesInWindow, MissingViewChanges, MissingPrePrepares, legal, shows, in_range, sh_sender, sh_view, sh_stable, sh_executed, sh_active, sh_newView, sh_pp, sh_vc, sh_mpp, sh_list, lg_order, lg_rem).

#[local] Existing Instance ViewsManager.Stat_eq_dec.

Lemma forEach_ok {X} (f : Z → res (list X)) (g : Z → list X) l : (∀ i, i ∈ l → f i = Ok (g i)) → forEach f l = Ok (l ≫= g).
Proof.
  induction l as [|i l IH]; [done|]. intros Hf. cbn [forEach]. rewrite (Hf i) by left. res_step. rewrite IH by (intros; apply Hf; by right). done.
Qed.

Lemma elem_fromTo a b i : i ∈ fromTo a b ↔ a <= i <= b.
Proof. unfold fromTo. rewrite elem_of_seqZ. lia. Qed.

Lemma elem_checkpointsFromTo a b i : i ∈ checkpointsFromTo a b → a <= i <= b ∧ ∃ k, i = a + checkpointWindowSize * k.
Proof.
  unfold checkpointsFromTo. intros (k & -> & Hk)%list_elem_of_fmap. destruct (Z.leb_spec a b) as [Hab|]; [|by apply elem_of_nil in Hk].
  apply elem_of_seqZ in Hk. pose proof (Z.mul_div_le (b - a) checkpointWindowSize ltac:(done)). unfold checkpointWindowSize in *. split; [lia|eauto].
Qed.

(** An item of a window whose array has its size. *)
Lemma get_in {I} W R `{!WindowParams W R} (l : ActiveWindow.t I) i : 0 <= i → i mod R = 0 → Z.of_nat (length (ActiveWindow.activeWindow l)) = ActiveWindow.numItems W R →
  ActiveWindow.insideActiveWindow W l i = true → ∃ x, ActiveWindow.get W R l i = Ok x.
Proof.
  intros H0 Hm Hl Hin. unfold ActiveWindow.get. rewrite (ActiveWindow.aligned_rem W R) by done. rewrite Hin. res_step. rewrite (ActiveWindow.slot_eq W R) by done.
  pose proof (ActiveWindow.numItems_eq W R) as (_ & ? & _). pose proof (Z.mod_pos_bound (i / R) (ActiveWindow.numItems W R)).
  destruct (lookup_lt_is_Some_2 (ActiveWindow.activeWindow l) (Z.to_nat ((i / R) mod ActiveWindow.numItems W R))) as [x ->]; [lia|eauto].
Qed.

(** ** Lists of a report *)
Lemma shows_ext m st X Y : (∀ x, in_range st x → X x = Y x) → shows m st X → shows m st Y.
Proof. intros He []. split; try done. intros x Hx. rewrite <- He by done. auto. Qed.

Lemma status_addAll_cons k x xs m : ReplicaStatusMsg.addAll k (x :: xs) m = (m ← ReplicaStatusMsg.addTo k m x; ReplicaStatusMsg.addAll k xs m).
Proof.
  unfold ReplicaStatusMsg.addAll. cbn [foldl]. res_step. destruct (ReplicaStatusMsg.addTo k m x) as [m'|e]; [done|]. res_step. by induction xs.
Qed.

Lemma addWhere_eq k test (p : Z → bool) l : (∀ i, i ∈ l → test i = Ok (p i)) → ∀ m, addWhere test (ReplicaStatusMsg.addTo k) l m = ReplicaStatusMsg.addAll k (filter (fun i => p i = true) l) m.
Proof.
  induction l as [|i l IH]; [done|]. intros Ht m. cbn [addWhere]. rewrite (Ht i) by left. res_step. rewrite filter_cons. destruct (p i) eqn:Ep.
  - rewrite decide_True by done. rewrite status_addAll_cons. destruct (ReplicaStatusMsg.addTo k m i) as [m'|]; [|done]. res_step. apply IH. intros; apply Ht; by right.
  - rewrite decide_False by congruence. res_step. apply IH. intros; apply Ht; by right.
Qed.

Section props.
Context (info : ReplicasInfo.t) (Hinfo : ReplicasInfo.wf info) (Hmax : ReplicasInfo._numberOfReplicas info <= MaxNumberOfReplicas).
Context (undefined : spec_float → Z) {NumType : Type}.
Context (verify : Digest → list Z → bool) (nullDigest : Digest) (maxSig : Z).
#[local] Abbreviation myId := (ReplicasInfo._myId info).
#[local] Abbreviation N := (ReplicasInfo._numberOfReplicas info).
#[local] Abbreviation cpSize := (kWorkWindowSize + checkpointWindowSize).
#[local] Abbreviation t := (@t NumType).
#[local] Abbreviation mainGet w := (ActiveWindow.get kWorkWindowSize 1 (mainLog w)).
#[local] Abbreviation cpGet w := (ActiveWindow.get cpSize checkpointWindowSize (checkpointsLog w)).
#[local] Abbreviation myVC := (ViewsManagerSafety.myVC info).
#[local] Abbreviation vm_inv := (ViewsManagerSafety.inv info verify nullDigest maxSig).

(** The replica between two handlers: the windows start at the stable number, and the view number and the views manager fit together. *)
Record inv (w : t) : Prop := {
  w_view : 0 <= curView w < 2 ^ 63;
  w_stable : 0 <= lastStableSeqNum w ∧ lastStableSeqNum w mod checkpointWindowSize = 0;
  w_executed : lastStableSeqNum w <= lastExecutedSeqNum w < 2 ^ 63;
  w_main : ActiveWindow.beginningOfActiveWindow (mainLog w) = lastStableSeqNum w + 1 ∧
    Z.of_nat (length (ActiveWindow.activeWindow (mainLog w))) = ActiveWindow.numItems kWorkWindowSize 1;
  w_cp : ActiveWindow.beginningOfActiveWindow (checkpointsLog w) = lastStableSeqNum w ∧
    Z.of_nat (length (ActiveWindow.activeWindow (checkpointsLog w))) = ActiveWindow.numItems cpSize checkpointWindowSize;
  w_vm : vm_inv (viewsManager w);
  w_pending : myLatestPendingView (viewsManager w) <= curView w;
  w_in_view : if ViewsManager.inView (viewsManager w) then myLatestActiveView (viewsManager w) = curView w else myLatestActiveView (viewsManager w) < curView w;
  w_left : 0 < curView w → myVC (viewsManager w) ≠ None;
  w_new_view : ViewsManager.inView (viewsManager w) = true → 0 < curView w → isCurrentPrimary info w = true →
    ∃ nv, newViewMsgOfOfPendingView (viewsManager w) = Some nv ∧ nv_sender nv = myId;
  w_restricted : stat (viewsManager w) = PENDING_WITH_RESTRICTIONS → lowerBoundStableForPendingView (viewsManager w) <= lastStableSeqNum w;
}.

Lemma inside_main w i : inv w → ActiveWindow.insideActiveWindow kWorkWindowSize (mainLog w) i = bool_decide (lastStableSeqNum w < i <= lastStableSeqNum w + kWorkWindowSize).
Proof.
  intros [? ? ? [Hb _]]. unfold ActiveWindow.insideActiveWindow. rewrite Hb. destruct (bool_decide_reflect (lastStableSeqNum w < i <= lastStableSeqNum w + kWorkWindowSize)).
  - apply andb_true_iff. rewrite Z.leb_le, Z.ltb_lt. lia.
  - apply andb_false_iff. rewrite Z.leb_gt, Z.ltb_ge. lia.
Qed.

Lemma main_in w i : inv w → lastStableSeqNum w < i <= lastStableSeqNum w + kWorkWindowSize → ∃ x, mainGet w i = Ok x.
Proof.
  intros Hw Hi. pose proof Hw as [? [? ?] ? [_ Hl]]. apply (get_in kWorkWindowSize 1); [lia|apply Z.mod_1_r|done|]. rewrite inside_main by done. by apply bool_decide_eq_true_2.
Qed.

Lemma cp_in w i : inv w → i mod checkpointWindowSize = 0 → lastStableSeqNum w <= i < lastStableSeqNum w + cpSize → ∃ x, cpGet w i = Ok x.
Proof.
  intros [? [? ?] ? _ [Hb Hl]] Hm Hi. apply (get_in cpSize checkpointWindowSize); [lia|done|done|]. unfold ActiveWindow.insideActiveWindow. rewrite Hb. apply andb_true_iff. rewrite Z.leb_le, Z.ltb_lt. lia.
Qed.

(** The own messages of the replica. *)
Definition havePP (w : t) (i : Z) : bool := match mainGet w i with Ok x => SeqNumInfo.hasPrePrepareMsg x | Err _ => false end.
Definition anyPP (w : t) (i : Z) : option SeqNumInfo.PrePrepare := match mainGet w i with Ok x => SeqNumInfo.getPrePrepareMsg x | Err _ => None end.
Definition selfPP (w : t) (i : Z) : option SeqNumInfo.PrePrepare := match mainGet w i with Ok x => SeqNumInfo.getSelfPrePrepareMsg x | Err _ => None end.
Definition selfCheckpoint (w : t) (i : Z) : option CheckpointInfo.msg := match cpGet w i with Ok x => CheckpointInfo.selfCheckpointMsg info x | Err _ => None end.

(** ** Views *)
Lemma viewIsActive_eq w : inv w → currentViewIsActive w = ViewsManager.inView (viewsManager w).
Proof.
  intros []. unfold currentViewIsActive, ViewsManager.viewIsActive. destruct (ViewsManager.inView (viewsManager w)); [|done]. by apply Z.eqb_eq.
Qed.

Lemma myViewChange_ok w dest : inv w → 0 < curView w → ∃ m, myVC (viewsManager w) = Some m ∧ sendMyViewChange info w dest = Ok [SendViewChange dest m].
Proof.
  intros [] Hv. destruct (myVC (viewsManager w)) as [m|] eqn:Em; [|by destruct (w_left0 Hv)]. exists m. split; [done|]. unfold sendMyViewChange.
  rewrite (ViewsManagerProps.getMyLatest_ok info maxSig Hinfo _ m (proj1 w_vm0) Em). done.
Qed.

Lemma hasNewView_ok w : inv w → ∃ b, ViewsManager.hasNewViewMessage info (viewsManager w) (curView w) = Ok b ∧ (ViewsManager.inView (viewsManager w) = true → b = true).
Proof.
  intros []. pose proof (proj2 w_vm0) as Hs. unfold ViewsManager.hasNewViewMessage. rewrite (proj2 (Z.leb_le _ _)) by done. res_step.
  destruct (Z.eqb_spec (curView w) (myLatestPendingView (viewsManager w))) as [|Hne]; [by exists true|].
  destruct (ViewsManagerFacts.at_in (ViewsManager.newViewMessages (viewsManager w)) (ReplicasInfo.primaryOfView info (curView w))) as (nv & _ & ->).
  { rewrite (ViewsManagerSafety.c_nvs_len _ _ _ (proj1 w_vm0)). pose proof (ReplicasInfo.primary_range info Hinfo (curView w)). lia. }
  res_step. eexists. split; [done|]. intros Hin. rewrite Hin in w_in_view0. unfold ViewsManager.inView in Hin. apply bool_decide_eq_true in Hin. unfold ViewsManagerSafety.stat_ok in Hs. rewrite Hin in Hs.
  destruct Hs as (_ & _ & ? & _). congruence.
Qed.

(** The kind of the list of a report, and what it says. *)
Definition reportKind (w : t) : ReplicaStatusMsg.ListKind :=
  if ViewsManager.inView (viewsManager w) then PrePreparesInWindow
  else if ViewsManager.viewIsPending (viewsManager w) (curView w) then MissingPrePrepares else MissingViewChanges.
Definition lacksVC (w : t) (i : Z) : bool := match ViewsManager.hasViewChangeMessageForFutureView info (viewsManager w) i with Ok h => negb h | Err _ => false end.
Definition missingPP (w : t) (i : Z) : bool := match ViewsManager.getNumbersOfMissingPP (viewsManager w) (lastStableSeqNum w) with Ok (_, l) => bool_decide (i ∈ l) | Err _ => false end.
Definition reportSays (w : t) (i : Z) : bool :=
  match reportKind w with
  | PrePreparesInWindow => havePP w i
  | MissingViewChanges => bool_decide (i ∈ ReplicasInfo._idsOfPeerReplicas info) && lacksVC w i
  | MissingPrePrepares => missingPP w i
  | NoList => false
  end.
Definition statusOf (w : t) (hasNewView : bool) : Status :=
  mkStatus myId (curView w) (lastStableSeqNum w) (lastExecutedSeqNum w) (ViewsManager.inView (viewsManager w)) hasNewView (reportKind w).

Lemma rem_checkpoint z : 0 <= z → z mod checkpointWindowSize = 0 → Z.rem z checkpointWindowSize = 0.
Proof. intros. by rewrite Z.rem_mod_nonneg. Qed.

Lemma statusOf_legal w b : inv w → (ViewsManager.inView (viewsManager w) = true → b = true) → legal (statusOf w b).
Proof.
  intros [? [] ?] Hb. split; cbn; [lia..| |done|]; [by apply rem_checkpoint|]. unfold reportKind. destruct (ViewsManager.inView (viewsManager w)); [by right|]. by destruct (ViewsManager.viewIsPending _ _).
Qed.

(** The numbers that the views manager misses lie in the window. *)
Lemma missing_in_window w : inv w → ∃ b l, ViewsManager.getNumbersOfMissingPP (viewsManager w) (lastStableSeqNum w) = Ok (b, l) ∧ b = negb (bool_decide (l = [])) ∧
  Forall (fun i => lastStableSeqNum w < i <= lastStableSeqNum w + kWorkWindowSize) l.
Proof.
  intros []. destruct w_vm0 as [Hc Hs]. destruct (decide (stat (viewsManager w) = PENDING_WITH_RESTRICTIONS)) as [Hst|Hst].
  - destruct (ViewsManagerProps.getNumbersOfMissingPP_post info maxSig (viewsManager w) (lastStableSeqNum w) Hc Hst) as (l & E & _ & Hl). exists (negb (bool_decide (l = []))), l. split_and!; [done..|].
    apply Forall_forall. intros i Hi. apply Hl in Hi as [Hi%ViewsManagerSafety.elem_relevant _].
    unfold ViewsManagerSafety.stat_ok in Hs. rewrite Hst in Hs. destruct Hs as [Hnv (arr & Hlen & Hr)]. destruct (newViewMsgOfOfPendingView (viewsManager w)) as [nv|] eqn:En; [|done].
    destruct (ViewsManagerSafety.pending_ok info maxSig Hinfo (viewsManager w) nv Hc En) as [_ Hall].
    destruct (ViewChangeSafety.computeRestrictions_entries (ReplicasInfo._fVal info) (ReplicasInfo._cVal info) verify nullDigest (ViewsManager.pendingVCs (viewsManager w))
      (lowerBoundStableForPendingView (viewsManager w)) arr Hall (ViewsManagerSafety.c_lb _ _ _ Hc) ltac:(rewrite Hlen; done)) as (rs & mn & mx & E1 & _ & Hrange & _).
    rewrite Hr in E1. injection E1 as _ Hmn Hmx. specialize (w_restricted0 Hst). unfold kWorkWindowSize. lia.
  - exists false, []. split_and!; [|done|constructor]. unfold ViewsManager.getNumbersOfMissingPP. by rewrite bool_decide_eq_false_2.
Qed.

Lemma lacksVC_ok w i : inv w → i ∈ ReplicasInfo._idsOfPeerReplicas info →
  (h ← ViewsManager.hasViewChangeMessageForFutureView info (viewsManager w) i; Ok (negb h)) = Ok (lacksVC w i) ∧ 0 <= i < N.
Proof.
  intros [] Hi. rewrite (ReplicasInfo.wf_peers _ Hinfo) in Hi. unfold ReplicasInfo.generateSetOfPeerReplicas_helpFunc in Hi. apply list_elem_of_filter in Hi as [_ Hi%elem_of_seqZ].
  split; [|lia]. unfold lacksVC, ViewsManager.hasViewChangeMessageForFutureView. rewrite (proj2 (Z.ltb_lt _ _)) by lia. res_step. destruct (negb _); [done|].
  destruct (ViewsManagerFacts.at_in (ViewsManager.viewChangeMessages (viewsManager w)) i) as (vc & _ & ->); [rewrite (ViewsManagerSafety.c_vcs_len _ _ _ (proj1 w_vm0)); lia|]. done.
Qed.

(** The elements of the list of a report. *)
Definition reported (w : t) : list Z :=
  match reportKind w with
  | PrePreparesInWindow => filter (fun i => havePP w i = true) (fromTo (lastStableSeqNum w + 1) (lastStableSeqNum w + kWorkWindowSize))
  | MissingViewChanges => filter (fun i => lacksVC w i = true) (ReplicasInfo._idsOfPeerReplicas info)
  | MissingPrePrepares => match ViewsManager.getNumbersOfMissingPP (viewsManager w) (lastStableSeqNum w) with Ok (_, l) => l | Err _ => [] end
  | NoList => []
  end.

Lemma reported_range w b : inv w → Forall (in_range (statusOf w b)) (reported w).
Proof.
  intros Hw. unfold reported, in_range, statusOf. cbn [s_kind s_stable]. unfold reportKind. destruct (ViewsManager.inView _); [|destruct (ViewsManager.viewIsPending _ _)].
  - apply Forall_forall. intros i [_ Hi%elem_fromTo]%list_elem_of_filter. unfold kWorkWindowSize in *. lia.
  - destruct (missing_in_window w Hw) as (c & l & -> & _ & Hl). done.
  - apply Forall_forall. intros i [_ Hi]%list_elem_of_filter. apply (lacksVC_ok w i Hw) in Hi as [_ ?]. lia.
Qed.

Lemma reported_says w b i : inv w → in_range (statusOf w b) i → bool_decide (i ∈ reported w) = reportSays w i.
Proof.
  intros Hw. unfold reported, in_range, statusOf, reportSays, missingPP. cbn [s_kind s_stable]. destruct (reportKind w); [done|..]; intros Hi.
  - destruct (havePP w i) eqn:E; [apply bool_decide_eq_true|apply bool_decide_eq_false]; rewrite list_elem_of_filter, elem_fromTo; [split; [done|lia]|intros [? _]; congruence].
  - destruct (lacksVC w i) eqn:E; rewrite ?andb_true_r, ?andb_false_r; [apply bool_decide_ext|apply bool_decide_eq_false]; rewrite list_elem_of_filter; [naive_solver|intros [? _]; congruence].
  - destruct (missing_in_window w Hw) as (c & l & -> & _). done.
Qed.

(** The loops of the report add exactly these elements. *)
Lemma report_loops w b : inv w → (ViewsManager.inView (viewsManager w) = true → b = true) → ViewsManager.hasNewViewMessage info (viewsManager w) (curView w) = Ok b →
  statusReport info w = (m ← ReplicaStatusMsg.create (statusOf w b); ReplicaStatusMsg.addAll (reportKind w) (reported w) m).
Proof.
  intros Hw Hb Eb. unfold statusReport. rewrite viewIsActive_eq, Eb by done. res_step. unfold ReplicaStatusMsg.create, ReplicaStatusMsg.has, statusOf, reported, reportKind. cbn [s_sender s_view s_stable s_executed s_active s_newView s_kind].
  destruct (ViewsManager.inView (viewsManager w)) eqn:Hin; [|destruct (ViewsManager.viewIsPending (viewsManager w) (curView w)) eqn:Hp].
  all: repeat match goal with |- context [ReplicaStatusMsg.is_kind ?x ?y] => let v := eval vm_compute in (ReplicaStatusMsg.is_kind x y) in change (ReplicaStatusMsg.is_kind x y) with v end; cbn [negb andb].
  all: match goal with |- (?c ≫= _) = _ => destruct c as [m|] eqn:Ec; [res_step|done] end.
  - rewrite <- (addWhere_eq PrePreparesInWindow (fun i => x ← mainGet w i; Ok (SeqNumInfo.hasPrePrepareMsg x))); [by destruct (addWhere _ _ _ m)|].
    intros i Hi%elem_fromTo. unfold havePP. by destruct (main_in w i Hw ltac:(lia)) as [x ->].
  - destruct (missing_in_window w Hw) as (c & l & -> & -> & Hl). res_step. cbn [fst snd]. destruct (bool_decide_reflect (l = [])) as [->|_]; [done|]. cbn [negb].
    rewrite (addWhere_eq MissingPrePrepares (missingInWindow w) (fun _ => true)).
    + f_equal. induction l as [|i l IH]; [done|]. rewrite filter_cons_True by done. f_equal. apply IH. by inversion Hl.
    + intros i Hi. rewrite Forall_forall in Hl. specialize (Hl i Hi). unfold missingInWindow. rewrite (proj2 (Z.ltb_lt _ _)), (proj2 (Z.leb_le i _)) by lia. done.
  - apply (addWhere_eq MissingViewChanges). intros i Hi. by apply lacksVC_ok.
Qed.

Lemma report_ok w : inv w → ∃ m b, statusReport info w = Ok m ∧ legal (statusOf w b) ∧ shows m (statusOf w b) (reportSays w) ∧
  ∀ r, ReplicaStatusMsg.ToActualMsgType r m = Ok (negb (myId =? ReplicasInfo._myId r) && ReplicasInfo.isIdOfReplica r myId).
Proof.
  intros Hw. destruct (hasNewView_ok w Hw) as (b & Eb & Hb). pose proof (statusOf_legal w b Hw Hb) as Hlg.
  destruct (ReplicaStatusMsg.replicaStatus_list (statusOf w b) (reported w) Hlg (reported_range w b Hw)) as (m0 & m & E0 & E1 & Hs & Ha). exists m, b.
  split_and!; [|done| |exact Ha]; [|eapply shows_ext; [|exact Hs]; intros; by apply (reported_says w b)].
  rewrite (report_loops w b Hw Hb Eb), E0. exact E1.
Qed.

(** ** Receiving a report *)

(** What correct replicas report. *)
Record honest (st : Status) : Prop := {
  h_stable : 0 <= s_stable st;
  h_active : s_active st = true → s_kind st = PrePreparesInWindow;
  h_inactive : s_active st = false → 0 < s_view st;
  h_view : 0 <= s_view st;
}.

Lemma statusOf_honest w b : inv w → honest (statusOf w b).
Proof.
  intros []. pose proof (ViewsManagerSafety.c_views _ _ _ (proj1 w_vm0)). split; cbn; [lia| | |lia]; unfold reportKind; intros E; rewrite E in *; [done|lia].
Qed.

Lemma set_lastTime_inv w now : inv w → inv (set_lastTime w now).
Proof. intros []. by split. Qed.

Definition report_post (w : t) (o : list Out) : Prop :=
  o = [] ∨ ∃ m b, o = [SendStatusToAll m] ∧ legal (statusOf w b) ∧ shows m (statusOf w b) (reportSays w).

Lemma tryToSend_ok now w : inv w → ∃ o w', tryToSendStatusReport info undefined now w = Ok (o, w') ∧ (inv w' ∧ (w' = w ∨ w' = set_lastTime w now)) ∧ report_post w o.
Proof.
  intros Hw. unfold tryToSendStatusReport. destruct (_ <? _); [exists [], w; by split_and!; try left|]. destruct (_ <? _); [exists [], w; by split_and!; try left|].
  destruct (report_ok (set_lastTime w now) (set_lastTime_inv w now Hw)) as (m & b & -> & Hl & Hs & _). res_step. do 2 eexists. split; [done|]. split; [split; [by apply set_lastTime_inv|by right]|]. right. by exists m, b.
Qed.

(** Messages that the views manager keeps while it is not in a view. *)
Lemma getPrePrepare_ok s i : ViewsManagerSafety.core info maxSig s → stat s ≠ IN_VIEW → ∃ p, ViewsManager.getPrePrepare s i = Ok p.
Proof.
  intros Hc Hst. unfold ViewsManager.getPrePrepare, ViewsManager.inView. rewrite (bool_decide_eq_false_2 (stat s = IN_VIEW)) by done. cbn [negb]. res_step. destruct (bool_decide_reflect (stat s = PENDING_WITH_RESTRICTIONS)) as [|_].
  - destruct (negb (negb (minRestrictionOfPendingView s =? 0) && (minRestrictionOfPendingView s <=? i) && (i <=? maxRestrictionOfPendingView s))) eqn:E; [eauto|].
    apply negb_false_iff in E. apply andb_true_iff in E as [[E1 E2]%andb_true_iff E3]. apply negb_true_iff, Z.eqb_neq in E1. apply Z.leb_le in E2, E3.
    destruct (ViewsManagerSafety.c_range _ _ _ Hc) as [?|[? ?]]; [done|]. rewrite (proj2 (Z.ltb_lt _ _)) by (unfold kWorkWindowSize; lia). res_step.
    destruct (ViewsManagerFacts.at_in (ViewsManager.restrictionsOfPendingView s) (i - minRestrictionOfPendingView s)) as (r & _ & ->); [rewrite (ViewsManagerSafety.c_rs_len _ _ _ Hc); lia|]. res_step.
    destruct (isNull r); [eauto|].
    destruct (ViewsManagerFacts.at_in (ViewsManager.prePrepareMsgsOfRestrictions s) (i - minRestrictionOfPendingView s)) as (p & Hp & ->); [rewrite (ViewsManagerSafety.c_pps_len _ _ _ Hc); lia|]. res_step.
    destruct p as [a|]; [|by exists None]. destruct (ViewsManagerSafety.c_pps _ _ _ Hc i a E2 Hp) as (r' & _ & pp & Hh & Hq & Hn & _). unfold ViewsManager.checkPP, ViewsManager.deref. rewrite Hh. res_step. rewrite Hq, Z.eqb_refl, Hn. by exists (Some a).
  - destruct (ViewsManager.collectionOfPrePrepareMsgs s !! i) as [a|] eqn:E; [|by exists None]. destruct (ViewsManagerSafety.c_coll _ _ _ Hc i a E) as (pp & Hh & Hq & Hn).
    unfold ViewsManager.checkPP, ViewsManager.deref. rewrite Hh. res_step. rewrite Hq, Z.eqb_refl, Hn. by exists (Some a).
Qed.

Definition storedPP (w : t) (i : Z) : option Z := match ViewsManager.getPrePrepare (viewsManager w) i with Ok p => p | Err _ => None end.
Definition toList {X Y} (f : X → Y) (o : option X) : list Y := match o with Some x => [f x] | None => [] end.

Section receive.
Context (w : t) (st : Status) (X : Z → bool) (msg : MessageBase.t) (Hw : inv w) (Hl : legal st) (Hs : shows msg st X).
#[local] Abbreviation dest := (s_sender st).

Lemma stable_multiple : 0 <= s_stable st → s_stable st mod checkpointWindowSize = 0.
Proof. intros H0. rewrite <- Z.rem_mod_nonneg by done. by destruct Hl. Qed.

Definition usefulCheckpoints : list Out :=
  checkpointsFromTo (Z.max (lastStableSeqNum w) (s_stable st + checkpointWindowSize)) (Z.min (lastStableSeqNum w + cpSize - 1) (s_stable st + kWorkWindowSize))
  ≫= fun i => toList (SendCheckpoint dest) (selfCheckpoint w i).

Lemma max_multiple a b : a mod checkpointWindowSize = 0 → b mod checkpointWindowSize = 0 → Z.max a b mod checkpointWindowSize = 0.
Proof. intros. by destruct (Z.max_spec a b) as [[_ ->]|[_ ->]]. Qed.

Lemma sendCheckpoints_ok : 0 <= s_stable st → sendCheckpoints info w dest (s_stable st) = Ok usefulCheckpoints.
Proof.
  intros H0. pose proof (stable_multiple H0) as Hm. pose proof Hw as [? [? Hm'] ? _ [Hb _]]. unfold sendCheckpoints, ActiveWindow.currentActiveWindow, usefulCheckpoints. rewrite Hb. cbn [fst snd].
  set (a := Z.max _ _). set (b := Z.min _ _).
  assert (Ha : a mod checkpointWindowSize = 0) by (apply max_multiple; [done|]; rewrite <- (Z.mul_1_l checkpointWindowSize) at 1; by rewrite Z.mod_add).
  assert (Hr : lastStableSeqNum w <= a ∧ b <= lastStableSeqNum w + cpSize - 1 ∧ s_stable st + checkpointWindowSize <= a ∧ b <= s_stable st + kWorkWindowSize) by (unfold a, b; lia). clearbody a b.
  rewrite (proj2 (Z.eqb_eq _ _)) by (apply rem_checkpoint; [lia|done]). res_step. destruct (Z.leb_spec a b) as [Hab|Hab].
  - unfold kWorkWindowSize, checkpointWindowSize in Hr. rewrite (proj2 (Z.leb_le (b - a) _)) by (unfold kWorkWindowSize; lia). res_step. apply forEach_ok. intros i (Hi & k & Hk)%elem_checkpointsFromTo.
    destruct (cp_in w i Hw) as [x Ex]; [by rewrite Hk, Z.mul_comm, Z.mod_add|unfold kWorkWindowSize, checkpointWindowSize; lia|]. unfold selfCheckpoint. rewrite Ex. done.
  - unfold checkpointsFromTo. by rewrite (proj2 (Z.leb_gt a b)).
Qed.

(** The PrePrepare messages that the sender misses. *)
Definition missingSelfPPs : list Out :=
  fromTo (Z.max (lastStableSeqNum w + 1) (s_executed st + 1)) (Z.min (lastStableSeqNum w + kWorkWindowSize) (s_stable st + kWorkWindowSize))
  ≫= fun i => if X i then [] else toList (SendPrePrepare dest) (selfPP w i).

Lemma sendSelfPrePrepares_ok : s_kind st = PrePreparesInWindow → sendSelfPrePrepares w msg dest (s_stable st) = Ok missingSelfPPs.
Proof.
  intros Hk. unfold sendSelfPrePrepares. rewrite (sh_executed _ _ _ Hs). res_step. apply forEach_ok. intros i Hi%elem_fromTo. pose proof (sh_list _ _ _ Hs i) as Hx. unfold in_range in Hx. rewrite Hk in Hx. cbn [ReplicaStatusMsg.isIn] in Hx.
  pose proof (lg_order _ Hl). rewrite Hx by lia. res_step. destruct (X i); [done|]. unfold selfPP. destruct (main_in w i Hw) as [x ->]; [lia|]. done.
Qed.

(** What the sender needs to enter the view. *)
Definition neededNewView : list Out :=
  if isCurrentPrimary info w && negb (s_newView st) && ViewsManager.inView (viewsManager w) then toList (SendNewView dest) (newViewMsgOfOfPendingView (viewsManager w)) else [].
Definition neededViewChange : list Out :=
  if ReplicaStatusMsg.has st MissingViewChanges && X myId then toList (SendViewChange dest) (myVC (viewsManager w)) else [].
Definition neededPPs : list Out :=
  if ReplicaStatusMsg.has st MissingPrePrepares then
    fromTo (s_stable st + 1) (s_stable st + kWorkWindowSize) ≫= fun i =>
      if negb (X i) then []
      else if ViewsManager.inView (viewsManager w) then toList (SendPrePrepare dest) (anyPP w i) else toList (SendStoredPrePrepare dest) (storedPP w i)
  else [].

Lemma sendNewView_ok : isCurrentPrimary info w = true → 0 < curView w → sendNewViewIfMissing info w msg dest = Ok neededNewView.
Proof.
  intros Hp Hv. pose proof Hw as []. destruct w_vm0 as [Hc Hst]. unfold sendNewViewIfMissing, neededNewView. rewrite (sh_newView _ _ _ Hs). res_step. rewrite viewIsActive_eq, Hp by done. cbn [andb].
  destruct (negb (s_newView st) && ViewsManager.inView (viewsManager w)) eqn:E; [|done]. apply andb_true_iff in E as [_ Hin].
  destruct (w_new_view0 Hin Hv Hp) as (nv & En & Hsd). rewrite Hin in w_in_view0. unfold ViewsManager.getMyNewViewMsgForCurrentView. rewrite Hin. res_step.
  rewrite w_in_view0, Z.eqb_sym. unfold isCurrentPrimary in Hp. rewrite Hp. res_step. rewrite En, Hsd, Z.eqb_refl. res_step.
  pose proof (ViewsManagerSafety.c_nv _ _ _ Hc) as Hnv. rewrite En in Hnv. unfold ViewsManager.inView in Hin. apply bool_decide_eq_true in Hin. unfold ViewsManagerSafety.stat_ok in Hst. rewrite Hin in Hst.
  destruct Hst as (_ & _ & Hap & _), Hnv as [-> _]. rewrite <- Hap, w_in_view0, Z.eqb_refl. done.
Qed.

Lemma sendViewChange_ok : 0 < curView w → sendViewChangeIfMissing info w msg dest = Ok neededViewChange.
Proof.
  intros Hv. unfold sendViewChangeIfMissing, neededViewChange. rewrite (sh_vc _ _ _ Hs). res_step. destruct (ReplicaStatusMsg.has st MissingViewChanges) eqn:Hk; [|done]. cbn [andb].
  unfold ReplicaStatusMsg.has, ReplicaStatusMsg.is_kind in Hk. apply bool_decide_eq_true in Hk. pose proof (sh_list _ _ _ Hs myId) as Hx. unfold in_range in Hx. rewrite Hk in Hx. cbn [ReplicaStatusMsg.isIn] in Hx.
  rewrite Hx by (pose proof (ReplicasInfo.wf_my _ Hinfo); lia). res_step. destruct (X myId); [|done]. destruct (myViewChange_ok w dest Hw Hv) as (m & -> & ->). done.
Qed.

Lemma sendMissingPP_ok : sendMissingPrePrepares w msg dest (s_stable st) = Ok neededPPs.
Proof.
  unfold sendMissingPrePrepares, neededPPs. rewrite (sh_mpp _ _ _ Hs). res_step. destruct (ReplicaStatusMsg.has st MissingPrePrepares) eqn:Hk; [|done]. cbn [negb]. rewrite viewIsActive_eq by done.
  unfold ReplicaStatusMsg.has, ReplicaStatusMsg.is_kind in Hk. apply bool_decide_eq_true in Hk. apply forEach_ok. intros i Hi%elem_fromTo. pose proof (sh_list _ _ _ Hs i) as Hx. unfold in_range in Hx. rewrite Hk in Hx. cbn [ReplicaStatusMsg.isIn] in Hx.
  destruct (ViewsManager.inView (viewsManager w)) eqn:Hin.
  - rewrite inside_main by done. destruct (bool_decide_reflect (lastStableSeqNum w < i <= lastStableSeqNum w + kWorkWindowSize)) as [Hr|Hr].
    + rewrite Hx by lia. res_step. destruct (X i); [|done]. cbn [negb]. unfold anyPP. destruct (main_in w i Hw Hr) as [x ->]. done.
    + unfold anyPP. rewrite ActiveWindow.get_outside; [by destruct (X i)|]. left. rewrite inside_main by done. by apply bool_decide_eq_false_2.
  - rewrite Hx by lia. res_step. destruct (X i); [|done]. cbn [negb]. unfold storedPP. destruct (getPrePrepare_ok (viewsManager w) i) as [p ->]; [by destruct Hw as [? ? ? ? ? [? _]]| |done].
    unfold ViewsManager.inView in Hin. by apply bool_decide_eq_false in Hin.
Qed.

(** What the sender gets for its view. *)
Definition helps (o : list Out) : Prop :=
  if s_view st <? curView w then o = toList (SendViewChange dest) (myVC (viewsManager w))
  else if curView w <? s_view st then report_post w o
  else if s_active st then
    if isCurrentPrimary info w then if ViewsManager.inView (viewsManager w) then o = missingSelfPPs else report_post w o else o = []
  else if isCurrentPrimary info w || (ReplicasInfo.primaryOfView info (curView w) =? dest) then o = neededNewView ++ neededViewChange ++ neededPPs
  else o = [].

Lemma helpInView_ok now : honest st → ∃ o w', helpInView info undefined now w msg (s_view st) (s_stable st) = Ok (o, w') ∧ (inv w' ∧ (w' = w ∨ w' = set_lastTime w now)) ∧ helps o.
Proof.
  intros Hh. unfold helpInView, helps. rewrite (sh_active _ _ _ Hs), (sh_sender _ _ _ Hs). res_step. pose proof (h_view _ Hh). destruct (Z.ltb_spec (s_view st) (curView w)) as [Hlt|Hge].
  { destruct (myViewChange_ok w dest Hw) as (m & -> & ->); [lia|]. res_step. eexists _, w. by split_and!; try left. }
  destruct (Z.ltb_spec (curView w) (s_view st)) as [Hlt|Hle]; [|destruct (s_active st) eqn:Ha].
  - rewrite (proj2 (Z.eqb_neq _ _)) by lia. cbn [andb]. res_step. apply tryToSend_ok, Hw.
  - rewrite (proj2 (Z.eqb_eq _ _)) by lia. cbn [andb negb]. destruct (isCurrentPrimary info w); [|exists [], w; by split_and!; try left]. rewrite viewIsActive_eq by done. destruct (ViewsManager.inView _); [|apply tryToSend_ok, Hw].
    rewrite sendSelfPrePrepares_ok by (by apply h_active). res_step. exists missingSelfPPs, w. by split_and!; try left.
  - rewrite (proj2 (Z.eqb_eq _ _)) by lia. cbn [andb negb]. pose proof (h_inactive _ Hh Ha). unfold helpToEnterView. destruct (isCurrentPrimary info w || _); [|exists [], w; by split_and!; try left].
    assert (E1 : (if isCurrentPrimary info w then sendNewViewIfMissing info w msg dest else Ok []) = Ok neededNewView).
    { destruct (isCurrentPrimary info w) eqn:Hp; [apply sendNewView_ok; [done|lia]|]. unfold neededNewView. by rewrite Hp. }
    rewrite E1, sendViewChange_ok, sendMissingPP_ok by lia. res_step. eexists _, w. by split_and!; try left.
Qed.

(** What the sender gets besides: checkpoints, or a report of the replica that is behind. *)
Definition helpsBehind (o : list Out) : Prop := if lastStableSeqNum w + kWorkWindowSize <? s_stable st then report_post w o else o = usefulCheckpoints.

Definition ownStableCheckpoint : list Out :=
  match selfCheckpoint w (lastStableSeqNum w) with Some c => if ReplicaExecution.isStableState c then [SendCheckpoint dest c] else [] | None => [] end.

Definition handler_post (o : list Out) : Prop :=
  if s_stable st + kWorkWindowSize <? lastStableSeqNum w then o = ownStableCheckpoint
  else ∃ o1 o2, o = o1 ++ o2 ∧ helpsBehind o1 ∧ helps o2.
End receive.

Lemma helps_set_lastTime w now st X o : helps (set_lastTime w now) st X o → helps w st X o.
Proof. done. Qed.

Lemma status_handler_ok now w st X msg : inv w → legal st → shows msg st X → honest st → ∃ o w', onReplicaStatusMsg info undefined now w msg = Ok (o, w') ∧ inv w' ∧ handler_post w st X o.
Proof.
  intros Hw Hl Hs Hh. unfold onReplicaStatusMsg, handler_post. rewrite (sh_stable _ _ _ Hs), (sh_view _ _ _ Hs), (sh_sender _ _ _ Hs). res_step. rewrite (proj2 (Z.eqb_eq _ _) (lg_rem _ Hl)). res_step.
  destruct (Z.ltb_spec (s_stable st + kWorkWindowSize) (lastStableSeqNum w)) as [Hfar|Hnear].
  - unfold ownStableCheckpoint, selfCheckpoint. destruct (cp_in w (lastStableSeqNum w) Hw) as [x ->]; [by destruct Hw as [? [? ?]]|unfold kWorkWindowSize, checkpointWindowSize; lia|]. res_step. by do 2 eexists.
  - assert (E : ∃ o1 w1, (if lastStableSeqNum w + kWorkWindowSize <? s_stable st then tryToSendStatusReport info undefined now w
        else o ← sendCheckpoints info w (s_sender st) (s_stable st); Ok (o, w)) = Ok (o1, w1) ∧ (inv w1 ∧ (w1 = w ∨ w1 = set_lastTime w now)) ∧ helpsBehind w st o1).
    { unfold helpsBehind. destruct (_ <? _); [apply tryToSend_ok, Hw|]. rewrite sendCheckpoints_ok by (try done; by apply h_stable). res_step. eexists _, w. by split_and!; try left. }
    destruct E as (o1 & w1 & -> & [Hw1 Hor] & H1). res_step. destruct (helpInView_ok w1 st X msg Hw1 Hl Hs now Hh) as (o2 & w2 & -> & [Hw2 _] & H2). res_step.
    eexists _, w2. split; [done|]. split; [done|]. exists o1, o2. split; [done|]. split; [done|]. destruct Hor as [-> | ->]; [done|]. by apply (helps_set_lastTime w now).
Qed.

(** The report of a replica in any state between two handlers can be built, every peer accepts it, and it says exactly the view, the stable
    and the executed number, and which PrePrepare messages of the window the replica has, or which view-change messages or which PrePrepare
    messages it misses to enter its view. *)
Theorem status_report_says w : inv w → ∃ m b, statusReport info w = Ok m ∧ legal (statusOf w b) ∧ honest (statusOf w b) ∧ shows m (statusOf w b) (reportSays w) ∧
  ∀ r, ReplicaStatusMsg.ToActualMsgType r m = Ok (negb (myId =? ReplicasInfo._myId r) && ReplicasInfo.isIdOfReplica r myId).
Proof. intros Hw. destruct (report_ok w Hw) as (m & b & E & Hl & Hs & Ha). exists m, b. split_and!; try done. by apply statusOf_honest. Qed.

(** C28: The handler of status messages runs for every message that says what a correct replica can report, and sends exactly what helps: the own
    stable checkpoint to a replica that is far behind; otherwise checkpoints of its window, the view-change message to a replica in an older
    view, what a replica needs to enter the current view, or the PrePrepare messages it misses in it; a replica that is itself behind reports. *)
Theorem status_handler_spec now w st X msg : inv w → legal st → shows msg st X → honest st →
  ∃ o w', onReplicaStatusMsg info undefined now w msg = Ok (o, w') ∧ inv w' ∧ handler_post w st X o.
Proof. apply status_handler_ok. Qed.
End props.
End ReplicaStatusProps.

(** * Exchange of status reports (ReplicaStatus.v)

    The report of a backup, delivered to the primary, brings the PrePrepare messages that
    the backup misses; and the messages that pass validation although no correct replica
    sends them, which stop the replica that receives them. *)
Module ReplicaStatusExchange.
Import ReplicaStatus ReplicaStatusProps.
Import ViewsManager (newViewMsgOfOfPendingView, myLatestPendingView).
Import ReplicaStatusMsg (Status, mkStatus, s_sender, s_view, s_stable, s_executed, s_active, s_newView, s_kind, NoList, PrePreparesInWindow, legal, shows, sh_sender, sh_view, sh_stable, sh_executed, sh_active, sh_newView, sh_pp, lg_order, lg_rem).

Section exchange.
Context (undefined : spec_float → Z) {NumType : Type} (verify : Digest → list Z → bool) (nullDigest : Digest) (maxSig : Z).
#[local] Abbreviation t := (@t NumType).
#[local] Abbreviation invOf info := (inv (NumType := NumType) info verify nullDigest maxSig).

(** The messages of a list that depend on an optional message. *)
Lemma elem_sent d p (l : list Z) (f : Z → option SeqNumInfo.PrePrepare) (X : Z → bool) :
  SendPrePrepare d p ∈ (l ≫= fun i => if X i then [] else toList (SendPrePrepare d) (f i)) ↔ ∃ i, i ∈ l ∧ X i = false ∧ f i = Some p.
Proof.
  rewrite list_elem_of_bind. split.
  - intros (i & Hi & Hl). exists i. destruct (X i); [by apply elem_of_nil in Hi|]. destruct (f i) as [q|]; [|by apply elem_of_nil in Hi]. apply list_elem_of_singleton in Hi. naive_solver.
  - intros (i & Hl & Hx & Hf). exists i. split; [|done]. rewrite Hx, Hf. by apply list_elem_of_singleton.
Qed.

Lemma checkpoints_only info w st p d : SendPrePrepare d p ∉ usefulCheckpoints (NumType := NumType) info w st.
Proof.
  unfold usefulCheckpoints. rewrite list_elem_of_bind. intros (i & Hi & _). destruct (selfCheckpoint info w i); [apply list_elem_of_singleton in Hi; discriminate|by apply elem_of_nil in Hi].
Qed.

(** C27: The report of a backup in the active view of the primary, when the stable numbers of the two are at most one window apart, is accepted by the
    primary, and the primary answers with exactly the own PrePrepare
    messages of its window that the backup has not executed and does not have, up to the end of the window of the backup. *)
Theorem report_brings_missing_messages ip ib now (wp wb : t) : ReplicasInfo.wf ip → ReplicasInfo.wf ib →
  ReplicasInfo._numberOfReplicas ip <= MaxNumberOfReplicas → ReplicasInfo._numberOfReplicas ib <= MaxNumberOfReplicas →
  invOf ip wp → invOf ib wb → ReplicasInfo._myId ib ≠ ReplicasInfo._myId ip → ReplicasInfo.isIdOfReplica ip (ReplicasInfo._myId ib) = true →
  curView wp = curView wb → currentViewIsActive wp = true → currentViewIsActive wb = true → isCurrentPrimary ip wp = true →
  lastStableSeqNum wp <= lastStableSeqNum wb + kWorkWindowSize → lastStableSeqNum wb <= lastStableSeqNum wp + kWorkWindowSize →
  ∃ m o wp', statusReport ib wb = Ok m ∧ ReplicaStatusMsg.ToActualMsgType ip m = Ok true ∧ onReplicaStatusMsg ip undefined now wp m = Ok (o, wp') ∧ invOf ip wp' ∧
    ∀ p, SendPrePrepare (ReplicasInfo._myId ib) p ∈ o ↔
      ∃ i, lastStableSeqNum wp < i <= lastStableSeqNum wp + kWorkWindowSize ∧ lastExecutedSeqNum wb < i <= lastStableSeqNum wb + kWorkWindowSize ∧
        havePP wb i = false ∧ selfPP wp i = Some p.
Proof.
  intros Hip Hib Hnp Hnb Hwp Hwb Hne Hid Hv Hap Hab Hpr H1 H2. rewrite (viewIsActive_eq ip verify nullDigest maxSig) in Hap by done. rewrite (viewIsActive_eq ib verify nullDigest maxSig) in Hab by done.
  destruct (report_ok ib Hib Hnb verify nullDigest maxSig wb Hwb) as (m & b & Em & Hl & Hs & Ha). specialize (Ha ip). rewrite (proj2 (Z.eqb_neq _ _) Hne), Hid in Ha.
  destruct (status_handler_ok ip Hip Hnp undefined verify nullDigest maxSig now wp _ _ m Hwp Hl Hs (statusOf_honest ib verify nullDigest maxSig wb b Hwb)) as (o & wp' & E & Hwp' & Ho).
  exists m, o, wp'. split_and!; try done. intros p. unfold handler_post, helpsBehind, helps in Ho. cbn [statusOf s_sender s_view s_stable s_executed s_active] in Ho.
  rewrite !(proj2 (Z.ltb_ge _ _)) in Ho by lia. destruct Ho as (o1 & o2 & -> & -> & Ho2). rewrite Hab, Hpr, Hap in Ho2. subst o2.
  rewrite elem_of_app. unfold missingSelfPPs. cbn [statusOf s_sender s_stable s_executed]. rewrite elem_sent. setoid_rewrite elem_fromTo. unfold reportSays, reportKind. rewrite Hab. split.
  - intros [Hc|(i & Hi & Hx & Hf)]; [by apply checkpoints_only in Hc|]. exists i. split_and!; try done; lia.
  - intros (i & Hi & Hj & Hx & Hf). right. exists i. split_and!; try done; lia.
Qed.
End exchange.

(** ** Messages that stop a replica *)
Section fatal.
Context (info : ReplicasInfo.t) (Hinfo : ReplicasInfo.wf info) (undefined : spec_float → Z) {NumType : Type} (verify : Digest → list Z → bool) (nullDigest : Digest) (maxSig : Z).
#[local] Abbreviation t := (@t NumType).
#[local] Abbreviation inv := (inv (NumType := NumType) info verify nullDigest maxSig).

(** A negative view, for a replica that never left view 0. *)
Definition negative_view (w : t) (st : Status) : Prop := s_view st < 0 ∧ curView w = 0 ∧ ViewsManagerSafety.myVC info (viewsManager w) = None.
(** A replica that asks for the new-view message of view 0, which does not exist. *)
Definition asks_new_view_zero (w : t) (st : Status) : Prop :=
  s_view st = 0 ∧ s_active st = false ∧ s_newView st = false ∧ curView w = 0 ∧ currentViewIsActive w = true ∧ isCurrentPrimary info w = true ∧ newViewMsgOfOfPendingView (viewsManager w) = None.
(** A replica in the active view that reports no list. *)
Definition no_list (w : t) (st : Status) : Prop :=
  s_view st = curView w ∧ s_active st = true ∧ s_kind st = NoList ∧ currentViewIsActive w = true ∧ isCurrentPrimary info w = true ∧
  s_executed st < s_stable st + kWorkWindowSize ∧ s_executed st < lastStableSeqNum w + kWorkWindowSize ∧ lastStableSeqNum w < s_stable st + kWorkWindowSize.

Lemma no_view_change_fails w dest : inv w → curView w = 0 → ViewsManagerSafety.myVC info (viewsManager w) = None → sendMyViewChange info w dest = Err AssertFailed.
Proof.
  intros [] Hv Hm. unfold sendMyViewChange, ViewsManager.getMyLatestViewChangeMsg. rewrite (ViewsManagerExit.myVC_lookup info maxSig Hinfo _ (proj1 w_vm0)), Hm. res_step.
  pose proof (ViewsManagerSafety.c_views _ _ _ (proj1 w_vm0)). rewrite (proj2 (Z.eqb_eq _ _)) by lia. by rewrite orb_true_r.
Qed.

Lemma forEach_fails {X} (f : Z → res (list X)) a b : a <= b → f a = Err AssertFailed → forEach f (fromTo a b) = Err AssertFailed.
Proof. intros Hab Hf. unfold fromTo. rewrite seqZ_cons by lia. cbn [forEach]. by rewrite Hf. Qed.

Lemma helpInView_fails now w st X msg : inv w → legal st → shows msg st X → negative_view w st ∨ asks_new_view_zero w st ∨ no_list w st →
  helpInView info undefined now w msg (s_view st) (s_stable st) = Err AssertFailed.
Proof.
  intros Hw Hl Hs Hf. unfold helpInView. rewrite (sh_active _ _ _ Hs), (sh_sender _ _ _ Hs). res_step. destruct Hf as [(Hv & Hc & Hm)|[(Hv & Ha & Hn & Hc & Hact & Hp & Hnv)|(Hv & Ha & Hk & Hact & Hp & H1 & H2 & H3)]].
  - rewrite (proj2 (Z.ltb_lt _ _)) by lia. by rewrite no_view_change_fails.
  - rewrite Ha, Hv, Hc. cbn [Z.ltb Z.compare Z.eqb andb negb]. unfold helpToEnterView. rewrite Hp. cbn [orb]. unfold sendNewViewIfMissing. rewrite (sh_newView _ _ _ Hs), Hn, Hact. cbn [negb andb mbind res_bind].
    unfold ViewsManager.getMyNewViewMsgForCurrentView. rewrite Hnv. rewrite (viewIsActive_eq info verify nullDigest maxSig) in Hact by done. rewrite Hact. res_step. by destruct (_ =? _).
  - rewrite Ha, Hv, Z.ltb_irrefl, Z.eqb_refl. cbn [andb negb]. rewrite Hp, Hact. unfold sendSelfPrePrepares. rewrite (sh_executed _ _ _ Hs). res_step. rewrite forEach_fails; [done|unfold kWorkWindowSize in *; lia|].
    unfold ReplicaStatusMsg.isPrePrepareInActiveWindow. rewrite (sh_pp _ _ _ Hs). unfold ReplicaStatusMsg.has. rewrite Hk. done.
Qed.

(** C38: Three messages that pass validation but that no correct replica sends stop a replica whose window meets the sender's: a negative view number stops
    every replica in view 0; asking for the new-view message of view 0 stops its primary; a status of the active view without a list stops
    the primary of the view. *)
Theorem status_message_stops_replica now w st X msg : inv w → legal st → shows msg st X → 0 <= s_stable st →
  lastStableSeqNum w <= s_stable st + kWorkWindowSize → s_stable st <= lastStableSeqNum w + kWorkWindowSize →
  negative_view w st ∨ asks_new_view_zero w st ∨ no_list w st → onReplicaStatusMsg info undefined now w msg = Err AssertFailed.
Proof.
  intros Hw Hl Hs H0 H1 H2 Hf. unfold onReplicaStatusMsg. rewrite (sh_stable _ _ _ Hs), (sh_view _ _ _ Hs), (sh_sender _ _ _ Hs). res_step. rewrite (proj2 (Z.eqb_eq _ _) (lg_rem _ Hl)). res_step.
  rewrite !(proj2 (Z.ltb_ge _ _)) by lia. rewrite (sendCheckpoints_ok info verify nullDigest maxSig w st Hw Hl H0). res_step. by rewrite (helpInView_fails now w st X msg).
Qed.
End fatal.

(** ** Examples: four replicas in view 0 *)
Definition ex_info (i : Z) : ReplicasInfo.t :=
  ReplicasInfo.mk i 4 1 0 true true (ReplicasInfo.generateSetOfReplicas_helpFunc 4) (ReplicasInfo.generateSetOfPeerReplicas_helpFunc i 4).
Lemma st_info_wf i : 0 <= i < 4 → ReplicasInfo.wf (ex_info i).
Proof. intros Hi. split; cbn; try done; lia. Qed.

Definition ex_pp : SeqNumInfo.PrePrepare := SeqNumInfo.mkPP 0 0 1 (replicate 32 7) SLOW.
Definition ex_item (own : bool) : @SeqNumInfo.t unit :=
  SeqNumInfo.mk (Some ex_pp) Collector.ctor Collector.ctor PartialProofsSet.ctor PartialExecProofsSet.ctor own false false 0 0 0.
Definition ex_views : ViewsManager.t := match ViewsManager.ctor (ex_info 0) with Ok s => s | Err _ => ViewsManager.mk ViewsManager.NO_VIEW 0 0 [] [] ∅ [] None 0 0 [] [] 0 0 0 ∅ 0 end.

(** Replica [i] with the items [items] for the first numbers of its window. *)
Definition ex_state (items : list (@SeqNumInfo.t unit)) : t :=
  mk 0 0 0 ex_views (ActiveWindow.mk 1 (replicate 1 SeqNumInfo.init ++ items ++ replicate (299 - length items) SeqNumInfo.init))
    (ActiveWindow.mk 0 (replicate 3 (CheckpointInfo.item0 (ex_info 0)))) (DynamicUpperLimit.limitOfRounds (RollingAvgAndVar.mk 0 (S754_zero false) (S754_zero false) (S754_zero false) (S754_zero false))) 0.
Definition ex_verify (d : Digest) (sig : list Z) : bool := true.
#[local] Abbreviation ex_inv i := (inv (NumType := unit) (ex_info i) ex_verify (replicate 32 9) 100).

Lemma ex_state_inv i items : 0 <= i < 4 → (length items <= 299)%nat → ex_inv i (ex_state items).
Proof.
  intros Hi Hl. destruct (ViewsManagerProps.ctor_inv (ex_info i) ex_verify (replicate 32 9) 100 (st_info_wf i Hi)) as (s & E & Hs).
  assert (Hv : s = ex_views) by (vm_compute in E |- *; congruence). rewrite Hv in Hs. split; try done.
  split; [done|]. cbn [ex_state mainLog ActiveWindow.activeWindow]. rewrite !length_app, !length_replicate. change (ActiveWindow.numItems kWorkWindowSize 1) with 300. lia.
Qed.

(** A backup has executed nothing and has no message; the primary sends its message for number 1. *)
Lemma report_brings_missing_messages_witness : ∃ m o wp', statusReport (ex_info 1) (ex_state []) = Ok m ∧
  onReplicaStatusMsg (ex_info 0) (fun _ => 0) 5 (ex_state [ex_item true]) m = Ok (o, wp') ∧ SendPrePrepare 1 ex_pp ∈ o.
Proof.
  destruct (report_brings_missing_messages (fun _ => 0) ex_verify (replicate 32 9) 100 (ex_info 0) (ex_info 1) 5 (ex_state [ex_item true]) (ex_state []))
    as (m & o & wp' & E1 & _ & E2 & _ & Ho).
  - apply st_info_wf. lia.
  - apply st_info_wf. lia.
  - vm_compute. discriminate.
  - vm_compute. discriminate.
  - apply ex_state_inv; cbn; lia.
  - apply ex_state_inv; cbn; lia.
  - discriminate.
  - reflexivity.
  - reflexivity.
  - reflexivity.
  - reflexivity.
  - reflexivity.
  - vm_compute. discriminate.
  - vm_compute. discriminate.
  - exists m, o, wp'. split; [exact E1|]. split; [exact E2|]. apply Ho. exists 1. split; [split; vm_compute; congruence|]. split; [split; vm_compute; congruence|]. split; reflexivity.
Defined.

Lemma status_handler_spec_witness : ∃ m o w', ReplicaStatusMsg.create (mkStatus 1 0 0 0 true true PrePreparesInWindow) = Ok m ∧
  onReplicaStatusMsg (ex_info 0) (fun _ => 0) 5 (ex_state [ex_item true]) m = Ok (o, w') ∧ o = [SendPrePrepare 1 ex_pp].
Proof.
  set (st := mkStatus 1 0 0 0 true true PrePreparesInWindow).
  assert (Hl : legal st) by (repeat constructor; vm_compute; (right; reflexivity) || congruence).
  destruct (ReplicaStatusMsg.replicaStatus_list st [] Hl) as (m & m' & Ec & E & Hs & _); [constructor|]. injection E as <-.
  destruct (status_handler_spec (ex_info 0) (st_info_wf 0 ltac:(lia)) ltac:(vm_compute; discriminate) (fun _ => 0) ex_verify (replicate 32 9) 100 5 (ex_state [ex_item true]) st (fun x => bool_decide (x ∈ [])) m) as (o & w' & Eo & _ & Ho).
  - apply ex_state_inv; cbn; lia.
  - exact Hl.
  - exact Hs.
  - split; cbn; [lia|done|discriminate|lia].
  - exists m, o, w'. split; [exact Ec|]. split; [exact Eo|]. destruct Ho as (o1 & o2 & -> & H1 & H2). vm_compute in H1, H2. by rewrite H1, H2.
Defined.

(** The three messages, each accepted by the primary of view 0. *)
Definition ex_fatal : list Status :=
  [mkStatus 1 (-1) 0 0 false false NoList; mkStatus 1 0 0 0 false false NoList; mkStatus 1 0 0 0 true true NoList].

Lemma status_message_stops_replica_witness : Forall (fun st => ∃ m, ReplicaStatusMsg.create st = Ok m ∧ ReplicaStatusMsg.ToActualMsgType (ex_info 0) m = Ok true ∧
  onReplicaStatusMsg (ex_info 0) (fun _ => 0) 5 (ex_state []) m = Err AssertFailed) ex_fatal.
Proof.
  assert (Hl : Forall legal ex_fatal) by (repeat constructor; try discriminate; try done; left; reflexivity).
  assert (Hall : Forall (fun st => s_kind st = NoList ∧ s_sender st = 1 ∧ s_stable st = 0 ∧ (negative_view (ex_info 0) (ex_state []) st ∨ asks_new_view_zero (ex_info 0) (ex_state []) st ∨ no_list (ex_info 0) (ex_state []) st)) ex_fatal).
  { apply Forall_cons; split; [|apply Forall_cons; split; [|apply Forall_cons; split; [|apply Forall_nil; exact Logic.I]]]; (do 3 (split; [reflexivity|])); [left|right; left|right; right]; repeat split; vm_compute; reflexivity. }
  apply Forall_forall. intros st Hst. rewrite Forall_forall in Hl, Hall. specialize (Hl st Hst). destruct (Hall st Hst) as (Hk & Hsd & Hs0 & Hf).
  exists (ReplicaStatusMsg.image st []). split; [rewrite ReplicaStatusMsg.create_image by done; by rewrite Hk|]. split.
  - rewrite ReplicaStatusMsg.status_accepted by (try done; by rewrite Hk). by rewrite Hsd.
  - apply (status_message_stops_replica (ex_info 0) (st_info_wf 0 ltac:(lia)) (fun _ => 0) ex_verify (replicate 32 9) 100 5 (ex_state []) st (fun _ => false)).
    + apply ex_state_inv; cbn; lia.
    + exact Hl.
    + by apply ReplicaStatusMsg.image_shows_empty.
    + by rewrite Hs0.
    + by rewrite Hs0.
    + by rewrite Hs0.
    + exact Hf.
Defined.
End ReplicaStatusExchange.
